(* ===== verification/_CoqProject ===== *)
-Q . S2P
Prelude.v
Intervals.v
IntervalsTheory.v
MaapPacket.v
MaapNet.v
Maap.v
MaapTheory.v
MaapInvariant.v
MaapHandlers.v
MaapConflict.v
MaapLife.v
MaapCorrect.v
CText.v
Mrp.v
MrpText.v
MrpTheory.v
MrpCorrect.v
Parse.v
Mvrp.v
MvrpTheory.v
MvrpEmit.v
MvrpEvent.v
MvrpRecv.v
MvrpWire.v
MvrpPeer.v
MvrpCmd.v
MvrpCorrect.v
CTextTheory.v
MaapText.v
LogQueue.v
LogTasks.v
MaapIoCorrect.v
Mmrp.v
MmrpTheory.v
MmrpEmit.v
MmrpEvent.v
MmrpRecv.v
MmrpWire.v
MmrpCmd.v
MmrpCorrect.v
EuiSet.v
ParseTheory.v
Msrp.v
MsrpRun.v
MsrpTheory.v
MsrpEmit.v
MsrpEvent.v
MsrpRecv.v
MsrpWire.v
MsrpCmd.v
MsrpRequest.v
MsrpCorrect.v
Mrpd.v
MrpdApps.v
MrpdTheory.v
MrpdPeer.v
MrpdCorrect.v
Que.v
Mrpw.v
MrpwCorrect.v
MaapServer.v
MaapServerCorrect.v
Shaper.v
ShaperRate.v
ShaperTheory.v
ShaperCorrect.v
AvtpTime.v
MediaQ.v
MediaQTheory.v
MediaQSafe.v
MediaQCorrect.v
SavedState.v
SavedTheory.v
SavedCorrect.v
AcmpEntity.v
AcmpTalker.v
AcmpListener.v
AcmpTheory.v
AcmpInvariant.v
AcmpCorrect.v
