(* ===== verification/Prelude.v ===== *)
(** * OpenAvnu: a verification development

    OpenAvnu is a collection of daemons for Audio Video Bridging.  The parts that carry
    protocol logic of their own in C are two daemons: the MAAP daemon, which acquires
    blocks of multicast addresses, and the MRP daemon mrpd, which declares and
    registers attributes (VLANs, addresses, streams) with the other stations of a
    network.  This library models both protocol engines and proves what makes them
    correct, and with them the traffic shaper daemon, which turns reservations of
    bandwidth into queues of the kernel, the media queue through which the AVTP
    pipeline hands audio and video between its modules, and the connection management
    by which AVDECC controllers connect its talkers and listeners.

    ** The MAAP daemon (src/daemons/maap)

    A client asks for a block of addresses; the daemon picks a random block that is
    free in its own reservations, probes for it three times, then defends it with
    announcements, and yields or defends when another station claims an overlapping
    block.  The code is layered as follows.

    - [Intervals] (common/intervals.c): the binary search tree of reserved blocks, as
      the code has it, with child and parent pointers in a heap of nodes.
      [IntervalsTheory] relates it to the sorted sequence of intervals; its [IntervalStore]
      is the class the client is verified against, and its instance.
    - [MaapPacket] (common/maap_packet.c): the 42 byte packets, their codec and the
      address comparison that decides who yields.
    - [MaapNet]: arithmetic on timespec (linux/src/maap_timer_linux.c) and the transmit
      buffers (common/maap_net.c), with the transmit loop of linux/src/maap_daemon.c.
    - [Maap] (common/maap.c): the client.  Its state is the heap of intervals, the heap
      of range objects, the timer queue linked through them, the notification queue and
      the network buffers; one definition per function of the source, composed as the
      code composes them.  Clock, random numbers and memory are an environment whose
      n-th answer is an argument.
    - [MaapTheory], [MaapInvariant], [MaapHandlers], [MaapConflict], [MaapLife]: the
      invariant that tree, ranges and queue agree, and that every handler keeps it.
    - [MaapCorrect]: the theorems, with instances at a concrete client.
    - [MaapText] (common/maap_parse.c, print_notify of maap.c): commands of clients, as
      text or as a binary structure, and the texts of notifications.
    - [LogQueue] (common/maap_log_queue.c): the ring of log messages.  [LogTasks]: the
      logging and the printing task of linux/src/maap_log_linux.c at its ends,
      interleaved one memory access at a time under sequential consistency.
      [MaapIoCorrect]: the theorems about these.
    - [MaapServer] (linux/src/maap_daemon.c): the process: the table of connections, the
      rounds of the server around the client, the routing and the line breaking of
      notifications, the command line client, options.  [MaapServerCorrect]: theorems.

    ** The MRP daemon (src/daemons/mrpd)

    - [Mrp] (mrp.c, mrp.h): the applicant, registrar, LeaveAll and periodic state
      machines, the three timers of a port, the client list; timer calls, random
      numbers, memory and transmission are the record [Os].  [MrpText] are the texts of
      states and events.  [MrpTheory] states what the machines promise: when a
      declaration is held, how many messages it still owes, what a client learns from
      the notifications, when a LeaveAll is due.  [MrpCorrect] has the theorems.
    - [CText]: the parts of the C library that print and scan text.  [CTextTheory]:
      printed numbers are read back, words are found again.
      [Parse] (src/daemons/common/parse.c): parameters of commands, and what parsing
      leaves in the buffer, which error replies print.
    - [Mvrp] (mvrp.c): the VLAN application: the sorted attribute list, the events, the
      assembly of frames, their parsing, notifications, commands, life cycle.  The
      database pointer is absent, freed or a database, so a use after
      [mvrp_reset] is a fault; frames and control messages that are sent are recorded.
      A command is the bytes that were received; read as a string, one that fills the
      buffer without a zero is a fault ([c_string] of [CText]).
    - [MvrpTheory] (the attribute list as a table), [MvrpEmit] (what a frame contains),
      [MvrpEvent] (the abstract machine on the table and that [mvrp_event] implements
      it), [MvrpRecv] (reception of arbitrary frames), [MvrpWire] (a transmitted frame
      is received as sent), [MvrpPeer] (two stations), [MvrpCmd] (commands),
      [MvrpCorrect] (theorems).
    - [Mmrp] (mmrp.c): the address and service application, with two attribute types in
      one list, the two vector encoders (as one routine with a record of their
      differences), and the same events, reception, notifications and commands.  The
      uninitialized local array of the service encoder is an argument.  [MmrpTheory]
      (the list as blocks of ascending values), [MmrpEmit] (the encoders stay in their
      buffer), [MmrpEvent] (the abstract machine; the lemmas about the two machines of
      an attribute are those of MVRP), [MmrpRecv] (arbitrary frames), [MmrpWire]
      (well-formed frames), [MmrpCmd] (commands), [MmrpCorrect] (theorems).
    - [EuiSet] (src/daemons/common/eui64set.c): sorted arrays of stream identifiers.
    - [Msrp], [MsrpRun] (msrp.c): the stream application, with talker advertises, talker
      failures, listeners and domains in one list, the merging of declarations, the
      pruning of talkers nobody is interested in, the three vector encoders (one routine
      with a record of their differences, as the four receiving branches are one routine
      over the attribute type), reception, notifications, commands and life cycle.
      [MsrpTheory] (the list as a table by key), [MsrpEmit] (the encoders stay in their
      buffer), [MsrpEvent] (the abstract machine), [MsrpRecv] (arbitrary frames),
      [MsrpWire] (well-formed frames), [MsrpCmd] (any command), [MsrpRequest] (what the
      commands mean), [MsrpCorrect] (theorems).  [ParseTheory]: printed parameters are
      read back, for every list of parameters.
    - [Mrpd] (mrpd.c): the process around the three applications: options, start, the
      descriptors it waits for, the rounds of the select loop, the dispatch of client
      commands, garbage collection.  What the loop uses of an application is the record
      [application].  [MrpdApps]: the class [AppLaws] of what the loop relies on, with
      the instances of MVRP, MMRP and MSRP.  [MrpdTheory]: a round as the sequence of
      its tasks (an equivalence of computations), and that every task keeps the daemon
      consistent, from the laws alone.  [MrpdPeer]: from a client of one daemon to the
      registrar of another.  [MrpdCorrect]: theorems.
    - [Que] (que.c): the queue of the Windows daemon as a system of any number of threads
      with its two semaphores and its critical section.  [Mrpw] (mrpw.c): software
      timers, commands, turns of the main thread, start.  [MrpwCorrect]: theorems.

    ** The traffic shaper daemon (src/daemons/shaper)

    - [Shaper] (src/shaper_daemon.c): the parser of commands, the bandwidth of a stream in
      double precision (the [SpecFloat] of the Standard Library), the streams, classes
      and handles, the command lines of tc, the loop around the connections.
      [ShaperRate]: roundings of products and of the division by eight.  [ShaperTheory]:
      what a sequence of commands books, and a ledger of the command lines that the daemon
      has run: which of them are in order after the others, and what they add up to.  The
      ledger is an account of the daemon's own output; what tc and the kernel do with it
      is not modelled.  [ShaperCorrect]: theorems.

    ** The media queue of the AVTP pipeline (src/lib/avtp_pipeline)

    - [AvtpTime] (avtp/openavb_avtp_time.c): the presentation times and the wall clock.  [MediaQ]
      (mediaq/openavb_mediaq.c): the circular queue of items between interface and mapping
      modules with every operation, the clock a function of the number of its readings.
      All calls are made by one thread: with thread safety on, taking the mutex a second
      time is the fault [Deadlock], and giving it back without having it [MutexNotHeld].
      [MediaQTheory]: the specification as two lists, filled and free slots, and a mutex,
      and that each operation implements it.  [MediaQSafe]: a program logic for the states
      that items in the hands of clients can lead to, and one for the mutex.
      [MediaQCorrect]: theorems and defects.
      Its loops have one round more of fuel than there are items; the count, which can
      go round more than once, has the square of that.

    ** Saved connections and connection management (src/lib/avtp_pipeline)

    A controller tells a listener to connect to a talker; listener and talker exchange
    commands and responses of ACMP, start the client processes of their streams, and the
    listener remembers the connection in a file, to connect again when it is restarted.

    - [SavedState] (platform/Linux/avdecc/openavb_avdecc_save_state.c and the functions of
      openavb_avdecc_read_ini.c on top of it): the states in memory and the text file.
      The answers of the system (opening, reading, writing) are the argument [io].  A
      [memcpy] that moves several states down overlaps itself, which leaves its result
      undefined: it is the argument [memcpy_down], of which the theorems assume at most
      the length of the result; C37 is about sequences that make no such move.
      [SavedTheory]: the lines are read as they were written, and any file is survived.
      [SavedCorrect]: the store is a list of connections, one per listener.
    - [AcmpEntity]: messages, frames, who handles which (acmp/openavb_acmp_message.c);
      descriptors, configurations and client processes (avdecc/ and
      aem/, platform/Linux/avdecc/openavb_avdecc_pipeline_interaction.c) and what leaves
      the entity, recorded in order.  [AcmpTalker], [AcmpListener]
      (acmp/openavb_acmp_sm_talker.c, ..._listener.c): the two state machines; a turn is
      what a thread does with its mutex held, between two waits for its semaphore, and the
      functions of other threads run between turns.  What a client answers, the clock and
      files are arguments that answer the n-th question.
    - [AcmpTheory]: the events of an entity and their sequences; one lemma per state of
      the machines.  [AcmpInvariant]: what every event keeps.  [AcmpCorrect]: theorems and defects.
    - Both machines have a loop that the source can run for ever with the mutex held; these
      two alone take fuel that may be exhausted, and [AcmpCorrect] proves of both that no
      fuel is enough when the defect is met.  A short frame, which the source parses beyond
      its end, is [OutOfBounds].  C40 shows at which event and in which state each can happen.  Files are read with fuel beyond the length of their text,
      [find_saved] has the bound 1000 of the source.

    ** How code is modelled

    This file has the shared vocabulary: w-bit integers as [Z] with the reduction
    written out, big-endian byte strings, buffers whose accesses are checked, the
    outcome of a computation ([Ok] or a [fault]: null dereference, dangling pointer,
    access out of bounds, failed assertion, a mutex that blocks for ever or is not held,
    exhausted fuel) and the state and fault
    monad [M] with its weakest precondition [wp].  A loop that is not structural takes
    fuel; the fuel is at least the length of the list or buffer it walks, and the
    theorems show that [FuelExhausted] does not occur, but for the loops of the connection
    management and of the media queue that need not end.

    ** What the theorems show

    C1-C5: the MAAP client: every handler keeps the invariant whatever arrives, timers
    handle each due range once, reservation and release behave as specified, nothing
    leaks.  Three defects of the source can stop a handler or lose a block, and the
    predicate [tolerated] of [MaapTheory] admits them only with their cause: allocations
    that are not checked, a sanity test that counts to 100,000, and a random draw that
    succeeds at the last attempt; C5 has no exception.  C6, C7: the interval tree refines a sorted sequence.
    C8, C9, C13: MVRP events refine the abstract machine, declarations reach every
    station that receives the frame, and whoever has something to send has a running
    timer.  C10-C12: frames: reception is memory safe; assembly stays in its buffer and
    is complete; what is sent is what is received.
    C14, C15: the MRP machines.  C16: the log queue is a FIFO for every
    interleaving of its two tasks.  C17, C18: MMRP events refine their abstract machine,
    reception applies what the vectors say.
    C19: a set of stream identifiers is a bounded multiset, for every sorting and
    searching function the C standard allows.  C20, C22, C23: MSRP events refine their
    abstract machine, reception is memory safe and applies what the messages say.
    C21: withdrawals of VLANs reach the stations that have them.
    C24: parameters of commands are read as printed.  C26: the commands of MSRP mean what
    they say.  C25, C27: the MRP daemon stays consistent from any start through any
    rounds, and the request of a client ends in the registrar of the neighbour.  C28: the queue of
    the Windows daemon is a bounded FIFO without deadlock for any number of threads.
    C29, C30: the server of the MAAP daemon sends notifications to the clients they are
    for, and its command line client is transparent.  C31-C33: the shaper's tables, its
    command lines and what was requested agree, what it reserves carries the stream,
    errors change nothing.
    C34-C36: the media queue is a bounded queue for any calls and any clock, its calls
    return also while clients hold items, unless the mutex stops them as specified, and
    32 bits carry a presentation time.
    C37: saved connections are a list that survives restarts.  C38-C40: a
    connection is made by the frames between listener and talker, an unanswered command is
    repeated and then given up at its deadlines, and the register of a talker is consistent whatever comes.
    Further theorems beside these: packets and timer queue of MAAP, declarations are made
    twice, commands of MMRP, the order of addresses, time arithmetic, the client
    list, safety of the MVRP commands and of MMRP reception, yielding and the transmit
    buffers of MAAP, one client with pruning, the dispatch of commands and the
    descriptors of the daemon, the software timers, state texts, the capacity of the
    table dump and of the notification texts, the byte order of identifiers, searching
    and walking the interval tree, the MAAP commands, garbage collection, the commands of
    the shaper, that damaged files of
    saved connections are survived, the lines of notifications, the
    table of connections, the defence of ranges, the set of interesting streams, when
    registrars notify, the bytes a media queue has ready; and further defects: a late success of a reservation and a
    rejected connection with free slots (MAAP), frames that fill the receive buffer
    (MVRP), the empty LeaveAll behind the transmit buffer, withdrawals of services
    received as declarations and LeaveAlls that undo declarations of their own frame
    (MMRP), substates that change those of a neighbour, streams shifted by an invalid
    byte, the table dump and the encoders that write beyond their buffer (MSRP), periodic events that the Windows daemon never
    generates, a root queue that is added twice and a bandwidth that is withdrawn twice
    (shaper), an item that is lost when another one is given back, a loop that never ends,
    a purge that unlocks a mutex it does not have, two locks of one mutex
    and times that wrap (media queue), moves that overlap and files of which the half is read (saved
    connections), refusals that connect, messages that are overwritten or taken for
    another kind, and two endless loops (connection management).

    ** Not modelled

    Opening sockets and network interfaces, the formatting of log lines, the Windows
    variant of MAAP and the receiving threads of the Windows MRP daemon, the
    controller side of connection management, which sends no commands, and the stopping and
    freeing of its threads, the AVTP pipeline around its media queue, discovery, enumeration
    and entity model of AVDECC and the AVDECC libraries, kernel modules, examples and
    vendored code. *)

From stdpp Require Export base gmap list strings numbers sorting.
From Stdlib Require Export ZArith Lia.

(** ** Machine integers

    A w-bit unsigned C value is an integer of [0, 2^w); every definition that
    computes one writes its reduction out with the functions below. *)

Declare Scope c_scope.
Delimit Scope c_scope with C.

Open Scope Z_scope.

Definition u8 (x : Z) : Z := x mod 2 ^ 8.
Definition u16 (x : Z) : Z := x mod 2 ^ 16.
Definition u32 (x : Z) : Z := x mod 2 ^ 32.
Definition u64 (x : Z) : Z := x mod 2 ^ 64.

(** Conversion to a 32-bit [int], as two's complement compilers do it. *)
Definition s32 (x : Z) : Z := (x + 2 ^ 31) mod 2 ^ 32 - 2 ^ 31.

Definition is_u8 (x : Z) : Prop := 0 <= x < 2 ^ 8.
Definition is_u16 (x : Z) : Prop := 0 <= x < 2 ^ 16.
Definition is_u32 (x : Z) : Prop := 0 <= x < 2 ^ 32.
Definition is_u64 (x : Z) : Prop := 0 <= x < 2 ^ 64.
Definition is_u48 (x : Z) : Prop := 0 <= x < 2 ^ 48.

(** ** Faults and outcomes

    A C function that runs into an [assert], a null or dangling pointer, a
    division by zero, an access outside of a buffer or a misused mutex does not return:
    the model yields a [Fault].  [FuelExhausted] is no behaviour of the program; it marks
    a loop whose bound was too small, and the theorems show it never arises, or that it
    arises for every bound. *)

Inductive fault : Type :=
  | AssertFailed (line : Z)
  | NullDeref
  | WildPointer
  | DivideByZero
  | OutOfBounds
  | Deadlock
  | MutexNotHeld
  | FuelExhausted.

#[global] Instance fault_eq_dec : EqDecision fault.
Proof. solve_decision. Defined.

Inductive outcome (A : Type) : Type :=
  | Ok (a : A)
  | Fault (f : fault).
Arguments Ok {A} _.
Arguments Fault {A} _.

#[global] Instance outcome_ret : MRet outcome := fun A a => Ok a.
#[global] Instance outcome_bind : MBind outcome := fun A B f m =>
  match m with
  | Ok a => f a
  | Fault e => Fault e
  end.

Definition is_ok {A} (m : outcome A) : bool :=
  match m with Ok _ => true | Fault _ => false end.

(** [assert(b)] at the given line of its source file. *)
Definition c_assert (line : Z) (b : bool) : outcome unit :=
  if b then Ok tt else Fault (AssertFailed line).

(** ** The heap

    Objects of one C type live in a finite map from addresses; [None] is the
    null pointer. *)

Abbreviation loc := positive.
Abbreviation ptr := (option positive).

Definition load {A} (h : gmap loc A) (p : ptr) : outcome A :=
  match p with
  | None => Fault NullDeref
  | Some l =>
      match h !! l with
      | Some a => Ok a
      | None => Fault WildPointer
      end
  end.

Definition store {A} (h : gmap loc A) (p : ptr) (f : A -> A) : outcome (gmap loc A) :=
  match p with
  | None => Fault NullDeref
  | Some l =>
      match h !! l with
      | Some a => Ok (<[l := f a]> h)
      | None => Fault WildPointer
      end
  end.

(** The address a successful [malloc] returns: any address not in use. *)
Definition malloc_addr {A} (h : gmap loc A) : loc := fresh (dom h).

(** ** State computations with faults *)

Definition M (S A : Type) : Type := S -> outcome (A * S).

#[global] Instance M_ret {S} : MRet (M S) := fun A a s => Ok (a, s).
#[global] Instance M_bind {S} : MBind (M S) := fun A B f m s =>
  match m s with
  | Ok (a, s') => f a s'
  | Fault e => Fault e
  end.

Definition get {S} : M S S := fun s => Ok (s, s).
Definition put {S} (s : S) : M S unit := fun _ => Ok (tt, s).
Definition modify {S} (f : S -> S) : M S unit := fun s => Ok (tt, f s).
Definition gets {S A} (f : S -> A) : M S A := fun s => Ok (f s, s).
Definition lift {S A} (m : outcome A) : M S A := fun s =>
  match m with Ok a => Ok (a, s) | Fault e => Fault e end.
Definition raise {S A} (e : fault) : M S A := fun _ => Fault e.

(** ** Lemmas about outcomes and the heap *)

Lemma Ok_inj {A} (a b : A) : Ok a = Ok b -> a = b.
Proof. by intros [= ->]. Qed.

Lemma bind_Ok {A B} (m : outcome A) (f : A -> outcome B) b :
  (m ≫= f) = Ok b <-> exists a, m = Ok a /\ f a = Ok b.
Proof. destruct m; cbn; naive_solver. Qed.

Lemma load_Some {A} (h : gmap loc A) l a :
  h !! l = Some a -> load h (Some l) = Ok a.
Proof. unfold load. by intros ->. Qed.

Lemma load_Ok {A} (h : gmap loc A) p a :
  load h p = Ok a <-> exists l, p = Some l /\ h !! l = Some a.
Proof. unfold load. destruct p as [l|]; [destruct (h !! l) eqn:E|]; naive_solver. Qed.

Lemma store_Some {A} (h : gmap loc A) l a f :
  h !! l = Some a -> store h (Some l) f = Ok (<[l := f a]> h).
Proof. unfold store. by intros ->. Qed.

Lemma malloc_addr_fresh {A} (h : gmap loc A) : h !! malloc_addr h = None.
Proof. apply not_elem_of_dom, is_fresh. Qed.

(** ** Machine-integer lemmas *)

Lemma u8_bound x : is_u8 (u8 x).
Proof. apply Z.mod_pos_bound. lia. Qed.
Lemma u16_bound x : is_u16 (u16 x).
Proof. apply Z.mod_pos_bound. lia. Qed.
Lemma u32_bound x : is_u32 (u32 x).
Proof. apply Z.mod_pos_bound. lia. Qed.
Lemma u64_bound x : is_u64 (u64 x).
Proof. apply Z.mod_pos_bound. lia. Qed.
Lemma u8_small x : is_u8 x -> u8 x = x.
Proof. apply Z.mod_small. Qed.
Lemma u16_small x : is_u16 x -> u16 x = x.
Proof. apply Z.mod_small. Qed.
Lemma u32_small x : is_u32 x -> u32 x = x.
Proof. apply Z.mod_small. Qed.
Lemma u64_small x : is_u64 x -> u64 x = x.
Proof. apply Z.mod_small. Qed.
Lemma s32_small x : - 2 ^ 31 <= x < 2 ^ 31 -> s32 x = x.
Proof. intros. unfold s32. rewrite Z.mod_small; lia. Qed.

Create HintDb cint.
Create Rewrite HintDb cint.
#[export] Hint Resolve u8_bound u16_bound u32_bound u64_bound : cint.
#[export] Hint Rewrite u8_small u16_small u32_small u64_small
  using (unfold is_u8, is_u16, is_u32, is_u64 in *; lia) : cint.

(** ** Bytes and bit fields

    A byte is an integer of [0, 256); [be_val] reads a byte sequence as a
    big-endian number (the value [be16toh]/[be64toh] give for the bytes in
    memory), [be_bytes n] lays a number out. *)

Definition be_val (bs : list Z) : Z := fold_left (fun acc b => acc * 256 + b) bs 0.

Fixpoint be_bytes (n : nat) (v : Z) : list Z :=
  match n with
  | O => []
  | S n => be_bytes n (v / 256) ++ [v mod 256]
  end.

Definition bytes (bs : list Z) : Prop := Forall is_u8 bs.

(** [memcpy] of [n] bytes out of a buffer from offset [off], and into it. *)
Definition read_bytes (buf : list Z) (off n : nat) : outcome (list Z) :=
  if decide (off + n <= length buf)%nat then Ok (take n (drop off buf)) else Fault OutOfBounds.

Definition write_bytes (buf : list Z) (off : nat) (src : list Z) : outcome (list Z) :=
  if decide (off + length src <= length buf)%nat
  then Ok (take off buf ++ src ++ drop (off + length src) buf)
  else Fault OutOfBounds.

Lemma length_be_bytes n v : length (be_bytes n v) = n.
Proof. revert v; induction n as [|n IH]; intros v; cbn; [done|]. rewrite length_app, IH. cbn. lia. Qed.

Lemma be_bytes_bytes n v : bytes (be_bytes n v).
Proof.
  revert v; induction n as [|n IH]; intros v; cbn; [constructor|].
  apply Forall_app. split; [apply IH|]. constructor; [|constructor]. apply Z.mod_pos_bound. lia.
Qed.

Lemma be_val_snoc bs b : be_val (bs ++ [b]) = be_val bs * 256 + b.
Proof. unfold be_val. by rewrite fold_left_app. Qed.

Lemma be_val_bytes n v : be_val (be_bytes n v) = v mod 2 ^ (8 * Z.of_nat n).
Proof.
  revert v; induction n as [|n IH]; intros v; [cbn; by rewrite Z.mod_1_r|]; cbn [be_bytes].
  rewrite be_val_snoc, IH. replace (8 * Z.of_nat (S n)) with (8 + 8 * Z.of_nat n) by lia.
  rewrite Z.pow_add_r, Z.rem_mul_r by lia. change (2 ^ 8) with 256. lia.
Qed.

Lemma be_val_app a b : be_val (a ++ b) = be_val a * 2 ^ (8 * Z.of_nat (length b)) + be_val b.
Proof.
  induction b as [|x b IH] using rev_ind; cbn; [rewrite app_nil_r; change (be_val []) with 0; lia|].
  rewrite app_assoc, !be_val_snoc, IH, length_app. cbn.
  replace (8 * Z.of_nat (length b + 1)) with (8 + 8 * Z.of_nat (length b)) by lia.
  rewrite Z.pow_add_r by lia. change (2 ^ 8) with 256. lia.
Qed.

Lemma be_val_bound bs : bytes bs -> 0 <= be_val bs < 2 ^ (8 * Z.of_nat (length bs)).
Proof.
  induction bs as [|x bs IH] using rev_ind; [cbn; lia|].
  intros [Hb Hx]%Forall_app. apply Forall_cons in Hx as [Hx _].
  rewrite be_val_snoc, length_app. cbn. specialize (IH Hb). unfold is_u8 in Hx.
  replace (8 * Z.of_nat (length bs + 1)) with (8 + 8 * Z.of_nat (length bs)) by lia.
  rewrite Z.pow_add_r by lia. change (2 ^ 8) with 256 in *. lia.
Qed.

Lemma be_bytes_val bs : bytes bs -> be_bytes (length bs) (be_val bs) = bs.
Proof.
  induction bs as [|x bs IH] using rev_ind; [done|].
  intros [Hb Hx]%Forall_app. apply Forall_cons in Hx as [Hx _]. unfold is_u8 in Hx.
  rewrite length_app, Nat.add_comm. cbn [Nat.add length be_bytes]. rewrite be_val_snoc.
  rewrite Z.div_add_l by lia. rewrite Z.div_small, Z.add_0_r, IH by (done || lia).
  rewrite Z.add_comm, Z.mod_add, Z.mod_small by lia. done.
Qed.

(** [take] of the high-order bytes drops low-order bits. *)
Lemma be_bytes_take n m v : be_bytes n (v / 2 ^ (8 * Z.of_nat m)) = take n (be_bytes (n + m) v).
Proof.
  revert v; induction m as [|m IH]; intros v.
  - rewrite Nat.add_0_r. cbn [Z.of_nat Z.mul Z.pow]. rewrite Z.div_1_r.
    rewrite take_ge; [done|]. by rewrite length_be_bytes.
  - rewrite Nat.add_succ_r. cbn [be_bytes]. rewrite take_app_le by (rewrite length_be_bytes; lia).
    assert (0 < 2 ^ (8 * Z.of_nat m)) by (apply Z.pow_pos_nonneg; lia).
    rewrite <- IH, Z.div_div by lia. do 2 f_equal.
    replace (8 * Z.of_nat (S m)) with (8 + 8 * Z.of_nat m) by lia. rewrite Z.pow_add_r by lia. done.
Qed.

Lemma lor_shiftl_add a b n : 0 <= n -> 0 <= b < 2 ^ n -> Z.lor (Z.shiftl a n) b = a * 2 ^ n + b.
Proof.
  intros Hn Hb. rewrite <- Z.shiftl_mul_pow2 by done. symmetry. apply Z.add_nocarry_lor.
  apply Z.bits_inj'. intros i Hi. rewrite Z.land_spec, Z.bits_0.
  destruct (Z.lt_ge_cases i n).
  - by rewrite Z.shiftl_spec_low.
  - assert (Z.testbit b i = false) as ->; [|by rewrite andb_false_r].
    eapply (Z.bounded_iff_bits_nonneg n b); lia.
Qed.

(** Masking with [w] one bits. *)
Lemma land_mask x w mask : 0 <= w -> mask = Z.ones w -> Z.land x mask = x mod 2 ^ w.
Proof. intros Hw ->. by apply Z.land_ones. Qed.

(** Extraction of the [w]-bit field at bit [s]: [(x & mask) >> s]. *)
Lemma field_get x s w mask :
  0 <= s -> 0 <= w -> mask = Z.shiftl (Z.ones w) s ->
  Z.shiftr (Z.land x mask) s = (x / 2 ^ s) mod 2 ^ w.
Proof.
  intros Hs Hw ->. rewrite Z.shiftr_land, Z.shiftr_shiftl_l, Z.sub_diag by lia.
  rewrite Z.shiftl_0_r, Z.land_ones, Z.shiftr_div_pow2 by done. done.
Qed.

Lemma read_bytes_Ok buf off n :
  (off + n <= length buf)%nat -> read_bytes buf off n = Ok (take n (drop off buf)).
Proof. intros. unfold read_bytes. by rewrite decide_True. Qed.

Lemma write_bytes_Ok buf off src :
  (off + length src <= length buf)%nat ->
  write_bytes buf off src = Ok (take off buf ++ src ++ drop (off + length src) buf).
Proof. intros. unfold write_bytes. by rewrite decide_True. Qed.

(** ** Tactics

    [run] executes the next step of a computation whose result is known by a
    hypothesis; [inv_bind] splits a successful bind. *)

Ltac cbn_outcome := cbn [mbind mret outcome_bind outcome_ret M_bind M_ret].

Ltac inv_bind H :=
  repeat match type of H with
  | (_ ≫= _) = Ok _ =>
      let a := fresh "a" in let H1 := fresh "H" in
      apply bind_Ok in H as (a & H1 & H)
  end.

Tactic Notation "run" uconstr(H) := rewrite H; cbn_outcome.

(** ** Weakest preconditions

    [wp T m Q s]: run from [s], the computation [m] either ends with a result and
    a state that satisfy [Q], or with one of the faults [T] tolerates. *)

Definition wp {S A} (T : fault -> Prop) (m : M S A) (Q : A -> S -> Prop) (s : S) : Prop :=
  match m s with
  | Ok (a, s') => Q a s'
  | Fault f => T f
  end.

Section WP.
Context {S : Type} (T : fault -> Prop).

Lemma wp_ret {A} (a : A) Q (s : S) : Q a s -> wp T (mret a) Q s.
Proof. done. Qed.

Lemma wp_bind {A B} (m : M S A) (f : A -> M S B) Q s :
  wp T m (fun a => wp T (f a) Q) s -> wp T (m ≫= f) Q s.
Proof. unfold wp, mbind, M_bind. by destruct (m s) as [[a s']|e]. Qed.

Lemma wp_mono {A} (m : M S A) (Q Q' : A -> S -> Prop) s :
  wp T m Q s -> (forall a s', Q a s' -> Q' a s') -> wp T m Q' s.
Proof. unfold wp. destruct (m s) as [[a s']|e]; auto. Qed.

Lemma wp_step {A B} (m : M S A) (f : A -> M S B) (P : A -> S -> Prop) Q s :
  wp T m P s -> (forall a s', P a s' -> wp T (f a) Q s') -> wp T (m ≫= f) Q s.
Proof. intros Hm Hf. apply wp_bind. by eapply wp_mono. Qed.

Lemma wp_assoc {A B C} (m : M S A) (f : A -> M S B) (g : B -> M S C) Q s :
  wp T ((m ≫= f) ≫= g) Q s -> wp T (m ≫= fun a => f a ≫= g) Q s.
Proof. unfold wp, mbind, M_bind. by destruct (m s) as [[a s']|e]. Qed.

Lemma wp_gets {A} (f : S -> A) Q s : Q (f s) s -> wp T (gets f) Q s.
Proof. done. Qed.

Lemma wp_get (Q : S -> S -> Prop) s : Q s s -> wp T get Q s.
Proof. done. Qed.

Lemma wp_put (Q : unit -> S -> Prop) s s' : Q tt s' -> wp T (put s') Q s.
Proof. done. Qed.

Lemma wp_modify (f : S -> S) Q s : Q tt (f s) -> wp T (modify f) Q s.
Proof. done. Qed.

Lemma wp_raise {A} f (Q : A -> S -> Prop) s : T f -> wp T (raise f) Q s.
Proof. done. Qed.

Lemma wp_lift {A} (m : outcome A) a (Q : A -> S -> Prop) s : m = Ok a -> Q a s -> wp T (lift m) Q s.
Proof. intros -> H. exact H. Qed.
End WP.

(** A computation that tolerates nothing returns. *)
Lemma wp_returns {S A} (m : M S A) Q s :
  wp (fun _ => False) m Q s <-> exists a s', m s = Ok (a, s') /\ Q a s'.
Proof. unfold wp. destruct (m s) as [[a s']|f]; naive_solver. Qed.

Lemma wp_tolerate {S A} (T T' : fault -> Prop) (m : M S A) Q s :
  (forall f, T f -> T' f) -> wp T m Q s -> wp T' m Q s.
Proof. unfold wp. destruct (m s) as [[a s']|f]; auto. Qed.

(** ** Rings

    Number [p] lives in slot [p] modulo the size of the ring. *)

Lemma place_inj n p r : (p <= r < p + n)%nat -> (p mod n = r mod n)%nat -> p = r.
Proof.
  intros Hr Heq. assert (Hn : n <> 0%nat) by lia.
  pose proof (Nat.div_mod p n Hn). pose proof (Nat.div_mod r n Hn).
  assert (Hle : (p / n <= r / n)%nat) by (apply Nat.Div0.div_le_mono; lia).
  destruct (Nat.eq_dec (p / n) (r / n)) as [He|Hne]; [rewrite He in *; lia|].
  assert (n * S (p / n) <= n * (r / n))%nat by (apply Nat.mul_le_mono_l; lia). lia.
Qed.

(** Numbers within one round of the ring have different slots. *)
Lemma other_place n T p r :
  (T <= p < T + n)%nat -> (T <= r < T + n)%nat -> p <> r -> (r mod n <> p mod n)%nat.
Proof.
  intros Hp Hr Hne Heq. destruct (Nat.le_ge_cases p r).
  - apply Hne, (place_inj n); [lia|done].
  - apply Hne. symmetry. apply (place_inj n); [lia|done].
Qed.

Lemma write_other {A} n T p r (x : A) (l : list A) :
  (T <= p < T + n)%nat -> (T <= r < T + n)%nat -> p <> r ->
  <[(r mod n)%nat := x]> l !! (p mod n)%nat = l !! (p mod n)%nat.
Proof. intros Hp Hr Hne. apply list_lookup_insert_ne. by apply (other_place n T). Qed.
