(* ===== verification/Intervals.v ===== *)
(** * The interval tree of the MAAP daemon (daemons/maap/common/intervals.c)

    Binary search tree of non-overlapping intervals of 32-bit integers, with
    parent links and in-place updates.  The nodes live in a heap; every operation
    reads and writes nodes through pointers, in the order of the source.  Loops
    that follow links take the number of heap nodes plus one as fuel. *)

From S2P Require Import Prelude.

Definition INTERVAL_SUCCESS : Z := 0.
Definition INTERVAL_OVERLAP : Z := -1.

(** [struct interval_node]; [data] points to the owning [Range]. *)
Record Interval : Type := mkInterval {
  low : Z;
  high : Z;
  data : ptr;
  parent : ptr;
  left_child : ptr;
  right_child : ptr
}.

#[global] Instance Interval_eq_dec : EqDecision Interval.
Proof. solve_decision. Defined.

Abbreviation iheap := (gmap loc Interval).

Definition set_data (d : ptr) (n : Interval) : Interval :=
  mkInterval (low n) (high n) d (parent n) (left_child n) (right_child n).
Definition set_parent (q : ptr) (n : Interval) : Interval :=
  mkInterval (low n) (high n) (data n) q (left_child n) (right_child n).
Definition set_left (q : ptr) (n : Interval) : Interval :=
  mkInterval (low n) (high n) (data n) (parent n) q (right_child n).
Definition set_right (q : ptr) (n : Interval) : Interval :=
  mkInterval (low n) (high n) (data n) (parent n) (left_child n) q.
Definition set_contents (lo hi : Z) (d : ptr) (n : Interval) : Interval :=
  mkInterval lo hi d (parent n) (left_child n) (right_child n).

Definition check_overlap (a b : Interval) : bool :=
  (low a <=? high b) && (low b <=? high a).

(** The macro of intervals.h; [start] and [count] are unsigned 32-bit. *)
Definition interval_check_overlap (inter : Interval) (start count : Z) : bool :=
  (low inter <=? u32 (start + count - 1)) && (start <=? high inter).

(** The node [alloc_interval] returns when [calloc] succeeds. *)
Definition alloc_interval (start count : Z) : Interval :=
  mkInterval start (u32 (start + count - 1)) None None None None.

Definition free_interval (h : iheap) (p : loc) : iheap := delete p h.

(** One unit per node is enough for every loop below. *)
Definition fuel_of (h : iheap) : nat := S (size h).
Arguments fuel_of : simpl never.

Fixpoint insert_loop (fuel : nat) (h : iheap) (current node : loc) : outcome (Z * iheap) :=
  match fuel with
  | O => Fault FuelExhausted
  | S fuel =>
      c ← load h (Some current);
      n ← load h (Some node);
      if check_overlap c n then Ok (INTERVAL_OVERLAP, h)
      else if low n <? low c then
        match left_child c with
        | None =>
            h ← store h (Some current) (set_left (Some node));
            h ← store h (Some node) (set_parent (Some current));
            Ok (INTERVAL_SUCCESS, h)
        | Some next => insert_loop fuel h next node
        end
      else
        match right_child c with
        | None =>
            h ← store h (Some current) (set_right (Some node));
            h ← store h (Some node) (set_parent (Some current));
            Ok (INTERVAL_SUCCESS, h)
        | Some next => insert_loop fuel h next node
        end
  end.

(** Returns the status, the heap and the new value of [*root]. *)
Definition insert_interval (h : iheap) (root : ptr) (node : loc) : outcome (Z * iheap * ptr) :=
  match root with
  | None => Ok (INTERVAL_SUCCESS, h, Some node)
  | Some current =>
      '(rv, h) ← insert_loop (fuel_of h) h current node;
      Ok (rv, h, root)
  end.

Fixpoint minimum_loop (fuel : nat) (h : iheap) (current : ptr) : outcome ptr :=
  match fuel with
  | O => Fault FuelExhausted
  | S fuel =>
      match current with
      | None => Ok None
      | Some _ =>
          c ← load h current;
          match left_child c with
          | Some l => minimum_loop fuel h (Some l)
          | None => Ok current
          end
      end
  end.

Definition minimum_interval (h : iheap) (root : ptr) : outcome ptr :=
  minimum_loop (fuel_of h) h root.

Fixpoint maximum_loop (fuel : nat) (h : iheap) (current : ptr) : outcome ptr :=
  match fuel with
  | O => Fault FuelExhausted
  | S fuel =>
      match current with
      | None => Ok None
      | Some _ =>
          c ← load h current;
          match right_child c with
          | Some r => maximum_loop fuel h (Some r)
          | None => Ok current
          end
      end
  end.

Definition maximum_interval (h : iheap) (root : ptr) : outcome ptr :=
  maximum_loop (fuel_of h) h root.

(** [while (parent && child == parent->right_child)] of [next_interval]. *)
Fixpoint next_climb (fuel : nat) (h : iheap) (child : loc) (par : ptr) : outcome ptr :=
  match fuel with
  | O => Fault FuelExhausted
  | S fuel =>
      match par with
      | None => Ok None
      | Some q =>
          n ← load h par;
          if decide (Some child = right_child n)
          then next_climb fuel h q (parent n)
          else Ok par
      end
  end.

Definition next_interval (h : iheap) (node : loc) : outcome ptr :=
  n ← load h (Some node);
  match right_child n with
  | Some _ => minimum_interval h (right_child n)
  | None => next_climb (fuel_of h) h node (parent n)
  end.

Fixpoint prev_climb (fuel : nat) (h : iheap) (child : loc) (par : ptr) : outcome ptr :=
  match fuel with
  | O => Fault FuelExhausted
  | S fuel =>
      match par with
      | None => Ok None
      | Some q =>
          n ← load h par;
          if decide (Some child = left_child n)
          then prev_climb fuel h q (parent n)
          else Ok par
      end
  end.

Definition prev_interval (h : iheap) (node : loc) : outcome ptr :=
  n ← load h (Some node);
  match left_child n with
  | Some _ => maximum_interval h (left_child n)
  | None => prev_climb (fuel_of h) h node (parent n)
  end.

(** Lines 92-113 of [remove_interval]: take [snip], which has at most one
    child, out of the tree. *)
Definition unlink (h : iheap) (root : ptr) (snip : loc) : outcome (iheap * ptr) :=
  s ← load h (Some snip);
  let child :=
    match left_child s with
    | Some _ => left_child s
    | None => right_child s
    end in
  h ← match child with
      | Some _ => store h child (set_parent (parent s))
      | None => Ok h
      end;
  match parent s with
  | None => Ok (h, child)
  | Some _ =>
      q ← load h (parent s);
      if decide (Some snip = left_child q)
      then h ← store h (parent s) (set_left child); Ok (h, root)
      else h ← store h (parent s) (set_right child); Ok (h, root)
  end.

(** Returns the heap, the new value of [*root] and the node to free. *)
Definition remove_interval (h : iheap) (root : ptr) (node : loc) : outcome (iheap * ptr * loc) :=
  n ← load h (Some node);
  snip ← match left_child n, right_child n with
         | Some _, Some _ =>
             s ← next_interval h node;
             match s with Some s => Ok s | None => Fault NullDeref end
         | _, _ => Ok node
         end;
  '(h, root) ← unlink h root snip;
  if decide (snip = node) then Ok (h, root, snip)
  else
    n ← load h (Some node);
    s ← load h (Some snip);
    let old_data := data n in
    h ← store h (Some node) (set_contents (low s) (high s) (data s));
    h ← store h (Some snip) (set_data old_data);
    Ok (h, root, snip).

Fixpoint search_descend (fuel : nat) (h : iheap) (current : ptr) (i : Interval) : outcome ptr :=
  match fuel with
  | O => Fault FuelExhausted
  | S fuel =>
      match current with
      | None => Ok None
      | Some _ =>
          c ← load h current;
          if check_overlap c i then Ok current
          else if low i <? low c then search_descend fuel h (left_child c) i
          else search_descend fuel h (right_child c) i
      end
  end.

(** The [for] loop of [search_interval]; [current] is the best match so far. *)
Fixpoint search_back (fuel : nat) (h : iheap) (current : loc) (i : Interval) : outcome loc :=
  match fuel with
  | O => Fault FuelExhausted
  | S fuel =>
      test ← prev_interval h current;
      match test with
      | None => Ok current
      | Some t =>
          c ← load h test;
          if check_overlap c i then search_back fuel h t i else Ok current
      end
  end.

Definition search_interval (h : iheap) (root : ptr) (start count : Z) : outcome ptr :=
  let i := mkInterval start (u32 (start + count - 1)) None None None None in
  current ← search_descend (fuel_of h) h root i;
  match current with
  | None => Ok None
  | Some c => c ← search_back (fuel_of h) h c i; Ok (Some c)
  end.

(** The nodes [traverse_interval] hands to its action, in order. *)
Fixpoint traverse_loop (fuel : nat) (h : iheap) (root : ptr) : outcome (list loc) :=
  match fuel with
  | O => Fault FuelExhausted
  | S fuel =>
      match root with
      | None => Ok []
      | Some p =>
          n ← load h root;
          l ← traverse_loop fuel h (left_child n);
          r ← traverse_loop fuel h (right_child n);
          Ok (l ++ p :: r)
      end
  end.

Definition traverse_interval (h : iheap) (root : ptr) : outcome (list loc) :=
  traverse_loop (fuel_of h) h root.
