(* ===== verification/IntervalsTheory.v ===== *)
(** * Correctness of the interval tree

    The heap representation is related to an inductive tree; the specification of
    every operation is given on the in-order list of (address, contents) pairs,
    which the invariant keeps sorted and pairwise disjoint.  At the end the class
    [IntervalStore], what the MAAP client relies on, and its instance. *)

From S2P Require Import Prelude.
From S2P Require Import Intervals.

(** ** Abstract trees *)

Record content : Type := Content { c_low : Z; c_high : Z; c_data : ptr }.

Inductive tree : Type :=
  | Leaf
  | Node (l : tree) (p : loc) (c : content) (r : tree).

#[global] Instance content_eq_dec : EqDecision content.
Proof. solve_decision. Defined.

#[global] Instance tree_eq_dec : EqDecision tree.
Proof. solve_decision. Defined.

Definition root_of (t : tree) : ptr :=
  match t with Leaf => None | Node _ p _ _ => Some p end.

Fixpoint inorder (t : tree) : list (loc * content) :=
  match t with
  | Leaf => []
  | Node l p c r => inorder l ++ (p, c) :: inorder r
  end.

Definition locs (t : tree) : list loc := (inorder t).*1.
Arguments locs : simpl never.

Definition mk_node (c : content) (par lc rc : ptr) : Interval :=
  mkInterval (c_low c) (c_high c) (c_data c) par lc rc.

(** [rep h par t]: the heap holds the tree [t], hanging below [par]. *)
Fixpoint rep (h : iheap) (par : ptr) (t : tree) : Prop :=
  match t with
  | Leaf => True
  | Node l p c r =>
      h !! p = Some (mk_node c par (root_of l) (root_of r)) /\
      rep h (Some p) l /\ rep h (Some p) r
  end.

Definition tree_at (h : iheap) (root : ptr) (t : tree) : Prop :=
  root = root_of t /\ rep h None t /\ NoDup (locs t).

(** ** Contexts *)

Inductive frame : Type :=
  | FL (p : loc) (c : content) (r : tree)  (* the hole is the left child *)
  | FR (l : tree) (p : loc) (c : content). (* the hole is the right child *)

Fixpoint fill (k : list frame) (t : tree) : tree :=
  match k with
  | [] => t
  | FL p c r :: k => fill k (Node t p c r)
  | FR l p c :: k => fill k (Node l p c t)
  end.

Definition frame_loc (f : frame) : loc :=
  match f with FL p _ _ => p | FR _ p _ => p end.

Definition ctx_par (par : ptr) (k : list frame) : ptr :=
  match k with [] => par | f :: _ => Some (frame_loc f) end.

Fixpoint before (k : list frame) : list (loc * content) :=
  match k with
  | [] => []
  | FL _ _ _ :: k => before k
  | FR l p c :: k => before k ++ inorder l ++ [(p, c)]
  end.

Fixpoint after (k : list frame) : list (loc * content) :=
  match k with
  | [] => []
  | FL p c r :: k => (p, c) :: inorder r ++ after k
  | FR _ _ _ :: k => after k
  end.

Fixpoint rep_ctx (h : iheap) (par : ptr) (rt : ptr) (k : list frame) : Prop :=
  match k with
  | [] => True
  | FL p c r :: k =>
      h !! p = Some (mk_node c (ctx_par par k) rt (root_of r)) /\
      rep h (Some p) r /\ rep_ctx h par (Some p) k
  | FR l p c :: k =>
      h !! p = Some (mk_node c (ctx_par par k) (root_of l) rt) /\
      rep h (Some p) l /\ rep_ctx h par (Some p) k
  end.

Lemma inorder_fill k t : inorder (fill k t) = before k ++ inorder t ++ after k.
Proof.
  revert t; induction k as [|[p c r|l p c] k IH]; intros t; cbn.
  - by rewrite app_nil_r.
  - rewrite IH; cbn. by rewrite <- !app_assoc.
  - rewrite IH; cbn. by rewrite <- !app_assoc.
Qed.

Lemma rep_fill h par k t :
  rep h par (fill k t) <-> rep_ctx h par (root_of t) k /\ rep h (ctx_par par k) t.
Proof.
  revert t; induction k as [|[p c r|l p c] k IH]; intros t; cbn; [tauto|..];
    rewrite IH; cbn; tauto.
Qed.

Lemma root_of_fill_ext k t1 t2 :
  root_of t1 = root_of t2 -> root_of (fill k t1) = root_of (fill k t2).
Proof. revert t1 t2; induction k as [|[] k IH]; cbn; auto. Qed.

(** Every address of a tree can be brought into focus. *)
Lemma focus t p c l1 l2 :
  inorder t = l1 ++ (p, c) :: l2 -> NoDup (locs t) ->
  exists k l r, t = fill k (Node l p c r) /\
    l1 = before k ++ inorder l /\ l2 = inorder r ++ after k.
Proof.
  assert (Hin : forall t, (p, c) ∈ inorder t -> exists k l r, t = fill k (Node l p c r)).
  { clear. induction t as [|l IHl q d r IHr]; cbn; [by intros ?%elem_of_nil|].
    rewrite elem_of_app, elem_of_cons. intros [H|[[= <- <-]|H]].
    - destruct (IHl H) as (k & l' & r' & ->).
      exists (k ++ [FL q d r]), l', r'. clear. revert l' r'.
      assert (G : forall t, Node (fill k t) q d r = fill (k ++ [FL q d r]) t); [|by intros].
      induction k as [|[]]; cbn; auto.
    - by exists [], l, r.
    - destruct (IHr H) as (k & l' & r' & ->).
      exists (k ++ [FR l q d]), l', r'. clear.
      assert (G : forall t, Node l q d (fill k t) = fill (k ++ [FR l q d]) t); [|by intros].
      induction k as [|[]]; cbn; auto. }
  intros Ht Hnd. destruct (Hin t) as (k & l & r & ->).
  { rewrite Ht. set_solver. }
  exists k, l, r. split; [done|]. unfold locs in Hnd. rewrite Ht in Hnd.
  rewrite inorder_fill in Ht; cbn in Ht.
  assert (E : (before k ++ inorder l) ++ (p, c) :: (inorder r ++ after k) = l1 ++ (p, c) :: l2).
  { rewrite <- Ht. by rewrite <- !app_assoc. }
  clear Ht. revert l1 Hnd E. generalize (before k ++ inorder l) (inorder r ++ after k).
  clear. intros a b; induction a as [|x a IH]; intros [|y l1] Hnd E; cbn in *; simplify_eq; auto.
  - exfalso. rewrite fmap_app in Hnd. cbn in Hnd. apply NoDup_cons in Hnd as [Hn _]. set_solver.
  - exfalso. rewrite fmap_app in Hnd. cbn in Hnd.
    apply NoDup_cons in Hnd as [Hn _]. set_solver.
  - apply NoDup_cons in Hnd as [_ Hnd]. destruct (IH l1 Hnd) as [-> ->]; auto.
Qed.

(** ** Framing *)

Lemma rep_frame h h' par t :
  (forall p, p ∈ locs t -> h' !! p = h !! p) -> rep h par t -> rep h' par t.
Proof.
  revert par; induction t as [|l IHl p c r IHr]; cbn; [done|]; intros par Hh (Hp & Hl & Hr).
  unfold locs in *; cbn in Hh. rewrite fmap_app in Hh; cbn in Hh.
  split_and!; [rewrite Hh by set_solver; done|..].
  - apply IHl; [|done]. intros; apply Hh; set_solver.
  - apply IHr; [|done]. intros; apply Hh; set_solver.
Qed.

Fixpoint ctx_locs (k : list frame) : list loc :=
  match k with
  | [] => []
  | FL p _ r :: k => p :: locs r ++ ctx_locs k
  | FR l p _ :: k => p :: locs l ++ ctx_locs k
  end.

Lemma rep_ctx_frame h h' par rt k :
  (forall p, p ∈ ctx_locs k -> h' !! p = h !! p) -> rep_ctx h par rt k -> rep_ctx h' par rt k.
Proof.
  revert rt; induction k as [|[p c r|l p c] k IH]; cbn; [done|..];
    intros rt Hh (Hp & Ht & Hk); (split_and!; [rewrite Hh by set_solver; done| |]);
    try (apply IH; [|done]; intros; apply Hh; set_solver);
    eapply rep_frame; [|done| |done]; intros; apply Hh; set_solver.
Qed.

Lemma locs_node l p c r : locs (Node l p c r) = locs l ++ p :: locs r.
Proof. unfold locs; cbn. by rewrite fmap_app. Qed.

Lemma locs_fill k t : locs (fill k t) ≡ₚ locs t ++ ctx_locs k.
Proof.
  revert t; induction k as [|[p c r|l p c] k IH]; intros t; cbn [fill ctx_locs].
  - by rewrite app_nil_r.
  - rewrite IH, locs_node. solve_Permutation.
  - rewrite IH, locs_node. solve_Permutation.
Qed.

(** The [NoDup] facts of a focused tree, in one place. *)
Lemma NoDup_fill k t :
  NoDup (locs (fill k t)) <->
  NoDup (locs t) /\ NoDup (ctx_locs k) /\ (forall p, p ∈ locs t -> p ∉ ctx_locs k).
Proof. rewrite locs_fill, NoDup_app. tauto. Qed.

Lemma NoDup_node l p c r :
  NoDup (locs (Node l p c r)) <->
  NoDup (locs l) /\ NoDup (locs r) /\ p ∉ locs l /\ p ∉ locs r /\
  (forall q, q ∈ locs l -> q ∉ locs r).
Proof.
  rewrite locs_node, NoDup_app, NoDup_cons. set_solver.
Qed.

Lemma root_in_locs t p : root_of t = Some p -> p ∈ locs t.
Proof. destruct t; cbn; [done|]. intros [= ->]. rewrite locs_node. set_solver. Qed.

Lemma locs_in_heap h par t p : rep h par t -> p ∈ locs t -> is_Some (h !! p).
Proof.
  revert par; induction t as [|l IHl q c r IHr]; cbn; intros par.
  - by intros _ ?%elem_of_nil.
  - intros (Hq & Hl & Hr). rewrite locs_node. rewrite elem_of_app, elem_of_cons.
    intros [H|[->|H]]; eauto.
Qed.

Lemma locs_size h par t : rep h par t -> NoDup (locs t) -> (length (locs t) <= size h)%nat.
Proof.
  intros Hrep Hnd. rewrite <- size_dom.
  rewrite <- (size_list_to_set (C := gset loc) (locs t)) by done.
  apply subseteq_size. intros p Hp. apply elem_of_list_to_set in Hp.
  apply elem_of_dom. by eapply locs_in_heap.
Qed.

Fixpoint height (t : tree) : nat :=
  match t with Leaf => O | Node l _ _ r => S (Nat.max (height l) (height r)) end.

Lemma height_locs t : (height t <= length (locs t))%nat.
Proof.
  induction t as [|l IHl p c r IHr]; cbn; [lia|]. rewrite locs_node, length_app. cbn. lia.
Qed.

Lemma ctx_length k t : (length k + height t <= length (locs (fill k t)))%nat.
Proof.
  rewrite locs_fill, length_app.
  assert (length k <= length (ctx_locs k))%nat.
  { induction k as [|[p c r|l p c] k IH]; cbn; [lia|..]; rewrite length_app; lia. }
  pose proof (height_locs t). lia.
Qed.

(** ** Navigation: minimum, maximum, successor, predecessor *)

Lemma minimum_loop_spec fuel h par t :
  rep h par t -> (height t < fuel)%nat ->
  minimum_loop fuel h (root_of t) = Ok (fst <$> head (inorder t)).
Proof.
  revert fuel par; induction t as [|l IHl p c r _]; intros [|fuel] par Hrep Hf; cbn in *; try lia; [done|].
  destruct Hrep as (Hp & Hl & _). rewrite Hp. cbn.
  destruct l as [|ll q d lr]; [done|]. cbn [root_of].
  change (Some q) with (root_of (Node ll q d lr)). rewrite (IHl fuel (Some p)) by (done || lia).
  cbn. rewrite <- app_assoc. by destruct (inorder ll).
Qed.

Lemma maximum_loop_spec fuel h par t :
  rep h par t -> (height t < fuel)%nat ->
  maximum_loop fuel h (root_of t) = Ok (fst <$> last (inorder t)).
Proof.
  revert fuel par; induction t as [|l _ p c r IHr]; intros [|fuel] par Hrep Hf; cbn in *; try lia; [done|].
  destruct Hrep as (Hp & _ & Hr). rewrite Hp. cbn.
  destruct r as [|rl q d rr]; [cbn; by rewrite last_snoc|]. cbn [root_of].
  change (Some q) with (root_of (Node rl q d rr)). rewrite (IHr fuel (Some p)) by (done || lia).
  rewrite last_app, last_cons. cbn [inorder].
  destruct (last (inorder rl ++ _)) eqn:E; [done|].
  apply last_None in E. by destruct (inorder rl).
Qed.

Lemma next_climb_spec fuel h par k child :
  rep_ctx h None (Some child) k -> child ∉ ctx_locs k -> NoDup (ctx_locs k) ->
  par = ctx_par None k -> (length k < fuel)%nat ->
  next_climb fuel h child par = Ok (fst <$> head (after k)).
Proof.
  revert fuel child par; induction k as [|[p c r|l p c] k IH];
    intros [|fuel] child par Hk Hc Hnd -> Hf; cbn in *; try lia; [done|..].
  - destruct Hk as (Hp & Hr & Hk). rewrite Hp. cbn. rewrite decide_False; [done|].
    intros E. symmetry in E. apply root_in_locs in E. set_solver.
  - destruct Hk as (Hp & Hl & Hk). rewrite Hp. cbn. rewrite decide_True by done.
    apply NoDup_cons in Hnd as [Hn Hnd]. apply NoDup_app in Hnd as (_ & _ & Hnd).
    apply IH; [done|set_solver|done|done|lia].
Qed.

Lemma prev_climb_spec fuel h par k child :
  rep_ctx h None (Some child) k -> child ∉ ctx_locs k -> NoDup (ctx_locs k) ->
  par = ctx_par None k -> (length k < fuel)%nat ->
  prev_climb fuel h child par = Ok (fst <$> last (before k)).
Proof.
  revert fuel child par; induction k as [|[p c r|l p c] k IH];
    intros [|fuel] child par Hk Hc Hnd -> Hf; cbn in *; try lia; [done|..].
  - destruct Hk as (Hp & Hl & Hk). rewrite Hp. cbn. rewrite decide_True by done.
    apply NoDup_cons in Hnd as [Hn Hnd]. apply NoDup_app in Hnd as (_ & _ & Hnd).
    apply IH; [done|set_solver|done|done|lia].
  - destruct Hk as (Hp & Hr & Hk). rewrite Hp. cbn. rewrite decide_False.
    + by rewrite app_assoc, last_snoc.
    + intros E. symmetry in E. apply root_in_locs in E. set_solver.
Qed.

(** The facts about a tree focused at the node [p]. *)
Record focused (h : iheap) (k : list frame) (l : tree) (p : loc) (c : content) (r : tree) : Prop := {
  fo_ctx : rep_ctx h None (Some p) k;
  fo_node : h !! p = Some (mk_node c (ctx_par None k) (root_of l) (root_of r));
  fo_left : rep h (Some p) l;
  fo_right : rep h (Some p) r;
  fo_ctx_nodup : NoDup (ctx_locs k);
  fo_out : p ∉ ctx_locs k;
  fo_nodup : NoDup (locs (Node l p c r));
  fo_sep : forall q, q ∈ locs (Node l p c r) -> q ∉ ctx_locs k;
  fo_fuel : (length k + S (Nat.max (height l) (height r)) < fuel_of h)%nat
}.

Lemma focused_fill h k l p c r :
  rep h None (fill k (Node l p c r)) -> NoDup (locs (fill k (Node l p c r))) ->
  focused h k l p c r.
Proof.
  intros Hrep Hnd. pose proof (locs_size _ _ _ Hrep Hnd) as Hsz.
  pose proof (ctx_length k (Node l p c r)) as Hlen. cbn in Hlen.
  apply rep_fill in Hrep as (Hk & Hp & Hl & Hr). apply NoDup_fill in Hnd as (Hn1 & Hn2 & Hn3).
  split; try done; [|unfold fuel_of; lia].
  apply Hn3. rewrite locs_node. set_solver.
Qed.

Lemma tree_at_focus h root t p c l1 l2 :
  tree_at h root t -> inorder t = l1 ++ (p, c) :: l2 ->
  exists k l r, t = fill k (Node l p c r) /\ l1 = before k ++ inorder l /\
    l2 = inorder r ++ after k /\ focused h k l p c r.
Proof.
  intros (-> & Hrep & Hnd) Ht.
  destruct (focus _ _ _ _ _ Ht Hnd) as (k & l & r & -> & -> & ->).
  exists k, l, r. split_and!; auto using focused_fill.
Qed.

(** [next_interval] returns the in-order successor. *)
Lemma next_interval_spec h root t p c l1 l2 :
  tree_at h root t -> inorder t = l1 ++ (p, c) :: l2 ->
  next_interval h p = Ok (fst <$> head l2).
Proof.
  intros Hat Ht. destruct (tree_at_focus _ _ _ _ _ _ _ Hat Ht) as (k & l & r & -> & -> & -> & F).
  unfold next_interval. rewrite (load_Some _ _ _ (fo_node _ _ _ _ _ _ F)). cbn.
  pose proof (fo_fuel _ _ _ _ _ _ F). destruct r as [|rl q d rr].
  - cbn. apply next_climb_spec; try apply F; [done|lia].
  - unfold minimum_interval. change (Some q) with (root_of (Node rl q d rr)).
    rewrite (minimum_loop_spec _ _ (Some p)); [|apply F|lia].
    cbn. rewrite <- app_assoc. by destruct (inorder rl).
Qed.

Lemma prev_interval_spec h root t p c l1 l2 :
  tree_at h root t -> inorder t = l1 ++ (p, c) :: l2 ->
  prev_interval h p = Ok (fst <$> last l1).
Proof.
  intros Hat Ht. destruct (tree_at_focus _ _ _ _ _ _ _ Hat Ht) as (k & l & r & -> & -> & -> & F).
  unfold prev_interval. rewrite (load_Some _ _ _ (fo_node _ _ _ _ _ _ F)). cbn.
  pose proof (fo_fuel _ _ _ _ _ _ F). destruct l as [|ll q d lr].
  - cbn. rewrite app_nil_r. apply prev_climb_spec; try apply F; [done|lia].
  - unfold maximum_interval. change (Some q) with (root_of (Node ll q d lr)).
    rewrite (maximum_loop_spec _ _ (Some p)); [|apply F|cbn in *; lia].
    rewrite last_app. destruct (last (inorder (Node ll q d lr))) eqn:E; [done|].
    apply last_None in E. cbn in E. by destruct (inorder ll).
Qed.

Lemma minimum_interval_spec h root t :
  tree_at h root t -> minimum_interval h root = Ok (fst <$> head (inorder t)).
Proof.
  intros (-> & Hrep & Hnd). unfold minimum_interval. eapply minimum_loop_spec; [done|].
  pose proof (locs_size _ _ _ Hrep Hnd). pose proof (height_locs t). unfold fuel_of. lia.
Qed.

Lemma maximum_interval_spec h root t :
  tree_at h root t -> maximum_interval h root = Ok (fst <$> last (inorder t)).
Proof.
  intros (-> & Hrep & Hnd). unfold maximum_interval. eapply maximum_loop_spec; [done|].
  pose proof (locs_size _ _ _ Hrep Hnd). pose proof (height_locs t). unfold fuel_of. lia.
Qed.

Lemma traverse_loop_spec fuel h par t :
  rep h par t -> (height t < fuel)%nat -> traverse_loop fuel h (root_of t) = Ok (locs t).
Proof.
  revert fuel par; induction t as [|l IHl p c r IHr]; intros [|fuel] par Hrep Hf; cbn in *; try lia; [done|].
  destruct Hrep as (Hp & Hl & Hr). rewrite Hp. cbn.
  rewrite (IHl fuel (Some p)) by (done || lia). cbn.
  rewrite (IHr fuel (Some p)) by (done || lia). cbn. by rewrite locs_node.
Qed.

Lemma tree_at_lookup h root t p c :
  tree_at h root t -> (p, c) ∈ inorder t ->
  exists n, h !! p = Some n /\ low n = c_low c /\ high n = c_high c /\ data n = c_data c.
Proof.
  intros Hat Hin. apply list_elem_of_split in Hin as (l1 & l2 & Ht).
  destruct (tree_at_focus _ _ _ _ _ _ _ Hat Ht) as (k & l & r & _ & _ & _ & F).
  eexists. split; [apply F|done].
Qed.

(** ** Order and disjointness *)

Definition entry_lt (a b : loc * content) : Prop := c_high a.2 < c_low b.2.

(** Sorted by address, pairwise disjoint, every interval non-empty. *)
Definition ordered (l : list (loc * content)) : Prop :=
  StronglySorted entry_lt l /\ Forall (fun e => c_low e.2 <= c_high e.2) l.

(** The overlap test of the source between an entry and the bounds [lo, hi]. *)
Definition hits (lo hi : Z) (e : loc * content) : bool :=
  (c_low e.2 <=? hi) && (lo <=? c_high e.2).

Lemma StronglySorted_app_iff {A} (R : A -> A -> Prop) l1 l2 :
  StronglySorted R (l1 ++ l2) <->
  StronglySorted R l1 /\ StronglySorted R l2 /\ Forall (fun x => Forall (R x) l2) l1.
Proof.
  induction l1 as [|x l1 IH]; cbn.
  - split; [intros H; split_and!; auto; constructor|tauto].
  - split.
    + intros [H Hx]%StronglySorted_inv. apply IH in H as (? & ? & ?).
      apply Forall_app in Hx as [? ?]. split_and!; auto; constructor; auto.
    + intros (H1 & H2 & H3). apply StronglySorted_inv in H1 as [? ?].
      apply Forall_cons in H3 as [? ?]. constructor; [by apply IH|]. apply Forall_app; auto.
Qed.

Lemma ordered_app l1 l2 :
  ordered (l1 ++ l2) <->
  ordered l1 /\ ordered l2 /\ Forall (fun a => Forall (entry_lt a) l2) l1.
Proof. unfold ordered. rewrite StronglySorted_app_iff, Forall_app. tauto. Qed.

Lemma ordered_cons e l :
  ordered (e :: l) <-> c_low e.2 <= c_high e.2 /\ Forall (entry_lt e) l /\ ordered l.
Proof.
  unfold ordered. rewrite Forall_cons. split.
  - intros [[? ?]%StronglySorted_inv [? ?]]. auto.
  - intros (? & ? & ? & ?). split_and!; auto. by constructor.
Qed.

Lemma ordered_insert l1 e l2 :
  ordered (l1 ++ l2) -> c_low e.2 <= c_high e.2 ->
  Forall (fun a => entry_lt a e) l1 -> Forall (entry_lt e) l2 ->
  ordered (l1 ++ e :: l2).
Proof.
  rewrite !ordered_app, ordered_cons. intros (H1 & H2 & H3) He Ha Hb. split_and!; auto.
  rewrite Forall_forall in *. intros a Ha'. constructor; auto.
Qed.

Lemma ordered_delete l1 e l2 : ordered (l1 ++ e :: l2) -> ordered (l1 ++ l2).
Proof.
  rewrite !ordered_app, ordered_cons. intros (H1 & (_ & _ & H2) & H3). split_and!; auto.
  eapply Forall_impl; [exact H3|]. cbn. by intros a [_ ?]%Forall_cons.
Qed.

(** The order only looks at the contents, not at the addresses. *)
Lemma ordered_relabel l l' : l.*2 = l'.*2 -> ordered l -> ordered l'.
Proof.
  revert l'; induction l as [|[p c] l IH]; intros [|[p' c'] l'] E; cbn in E; try done.
  injection E as <- E. rewrite !ordered_cons. cbn. intros (? & Ha & ?). split_and!; auto.
  unfold entry_lt in *; cbn in *. rewrite Forall_forall in *. intros [q d] Hq.
  assert (Hd : d ∈ l.*2) by (rewrite E; apply list_elem_of_fmap; by exists (q, d)).
  apply list_elem_of_fmap in Hd as ([q' d'] & -> & ?). by apply (Ha (q', d')).
Qed.

(** ** Insertion *)

(** What a completed insertion of [node] (with contents [cn]) guarantees. *)
Definition inserted (h : iheap) (t : tree) (node : loc) (cn : content) (h' : iheap) (t' : tree) : Prop :=
  exists l1 l2, inorder t = l1 ++ l2 /\ inorder t' = l1 ++ (node, cn) :: l2 /\
    Forall (fun e => entry_lt e (node, cn)) l1 /\ Forall (entry_lt (node, cn)) l2 /\
    rep h' None t' /\ dom h' = dom h.

Lemma insert_left h k p c r node cn :
  focused h k Leaf p c r -> node ∉ locs (fill k (Node Leaf p c r)) ->
  h !! node = Some (mk_node cn None None None) ->
  rep (<[node := mk_node cn (Some p) None None]>
        (<[p := mk_node c (ctx_par None k) (Some node) (root_of r)]> h))
      None (fill k (Node (Node Leaf node cn Leaf) p c r)).
Proof.
  intros F Hn Hh. rewrite locs_fill, locs_node, !elem_of_app, elem_of_cons in Hn. cbn in Hn.
  assert (p <> node) by set_solver. pose proof (fo_nodup _ _ _ _ _ _ F) as Hnd.
  apply NoDup_node in Hnd as (_ & _ & _ & Hpr & _). pose proof (fo_out _ _ _ _ _ _ F).
  apply rep_fill; cbn. split_and!; auto.
  - eapply rep_ctx_frame; [|apply F]. intros q Hq. rewrite !lookup_insert_ne by set_solver. done.
  - rewrite lookup_insert_ne, lookup_insert_eq by done. done.
  - by rewrite lookup_insert_eq.
  - eapply rep_frame; [|apply F]. intros q Hq. rewrite !lookup_insert_ne by set_solver. done.
Qed.

Lemma insert_right h k l p c node cn :
  focused h k l p c Leaf -> node ∉ locs (fill k (Node l p c Leaf)) ->
  h !! node = Some (mk_node cn None None None) ->
  rep (<[node := mk_node cn (Some p) None None]>
        (<[p := mk_node c (ctx_par None k) (root_of l) (Some node)]> h))
      None (fill k (Node l p c (Node Leaf node cn Leaf))).
Proof.
  intros F Hn Hh. rewrite locs_fill, locs_node, !elem_of_app, elem_of_cons in Hn. cbn in Hn.
  assert (p <> node) by set_solver. pose proof (fo_nodup _ _ _ _ _ _ F) as Hnd.
  apply NoDup_node in Hnd as (_ & _ & Hpl & _). pose proof (fo_out _ _ _ _ _ _ F).
  apply rep_fill; cbn. split_and!; auto.
  - eapply rep_ctx_frame; [|apply F]. intros q Hq. rewrite !lookup_insert_ne by set_solver. done.
  - rewrite lookup_insert_ne, lookup_insert_eq by done. done.
  - eapply rep_frame; [|apply F]. intros q Hq. rewrite !lookup_insert_ne by set_solver. done.
  - by rewrite lookup_insert_eq.
Qed.

Section Insert.
Context (h : iheap) (node : loc) (cn : content).
Hypothesis Hnode : h !! node = Some (mk_node cn None None None).
Hypothesis Hwf : c_low cn <= c_high cn.

Lemma dom_insert2 p n n' : is_Some (h !! p) ->
  dom (<[node := n']> (<[p := n]> h)) = dom h.
Proof.
  intros Hp. rewrite !dom_insert_L. apply elem_of_dom in Hp.
  assert (node ∈ dom h) by (apply elem_of_dom; eauto). set_solver.
Qed.

Lemma insert_loop_spec t0 : forall fuel k p,
  let t := fill k t0 in
  root_of t0 = Some p -> rep h None t -> NoDup (locs t) -> node ∉ locs t -> ordered (inorder t) ->
  Forall (fun e => entry_lt e (node, cn)) (before k) ->
  Forall (entry_lt (node, cn)) (after k) ->
  (height t0 <= fuel)%nat ->
  (insert_loop fuel h p node = Ok (INTERVAL_OVERLAP, h) /\
     Exists (hits (c_low cn) (c_high cn)) (inorder t0))
  \/ (exists h' t', insert_loop fuel h p node = Ok (INTERVAL_SUCCESS, h') /\
        inserted h t node cn h' t' /\ root_of t' = root_of t).
Proof.
  induction t0 as [|l IHl p c r IHr]; intros [|fuel] k p' t Hroot Hrep Hnd Hout Hord Hb Ha Hf;
    cbn in Hroot, Hf; try lia; try done. injection Hroot as <-. subst t.
  pose proof (focused_fill _ _ _ _ _ _ Hrep Hnd) as F.
  cbn [insert_loop]. rewrite (load_Some _ _ _ (fo_node _ _ _ _ _ _ F)). cbn_outcome.
  rewrite (load_Some _ _ _ Hnode). cbn_outcome.
  set (b := check_overlap _ _). destruct b eqn:Eb; subst b.
  { left. split; [done|]. cbn [inorder]. apply Exists_app. right. left.
    unfold check_overlap in Eb. unfold hits. cbn in *. by rewrite Eb. }
  unfold check_overlap in Eb. cbn [low high mk_node] in *.
  pose proof Hord as Hord0. rewrite inorder_fill in Hord. cbn [inorder] in Hord.
  rewrite <- app_assoc in Hord. cbn [app] in Hord.
  apply ordered_app in Hord as (_ & Hord & _).
  apply ordered_app in Hord as (_ & Hord & Hlc). apply ordered_cons in Hord as (Hc & Hcr & _).
  cbn in Hc. case_match eqn:Elow.
  - (* go left *)
    assert (Hcn : c_high cn < c_low c) by lia.
    assert (Ha' : Forall (entry_lt (node, cn)) (after (FL p c r :: k))).
    { cbn. constructor; [done|]. eapply Forall_impl; [exact Hcr|].
      unfold entry_lt; cbn. intros; lia. }
    destruct l as [|ll q d lr]; cbn [left_child root_of mk_node].
    + right. eexists _, (fill k (Node (Node Leaf node cn Leaf) p c r)). split_and!.
      * rewrite (store_Some _ _ _ _ (fo_node _ _ _ _ _ _ F)). cbn_outcome.
        rewrite (store_Some _ _ (mk_node cn None None None)); [done|].
        rewrite lookup_insert_ne; [done|]. intros ->. apply Hout. rewrite locs_fill, locs_node. set_solver.
      * exists (before k), ((p, c) :: inorder r ++ after k).
        rewrite !inorder_fill. cbn. split_and!; try done.
        -- by apply insert_left.
        -- apply dom_insert2. eexists. apply F.
      * by apply root_of_fill_ext.
    + destruct (IHl fuel (FL p c r :: k) q) as [[E1 E2]|?]; try done; [cbn in *; lia|..].
      * left. split; [done|]. cbn [inorder]. apply Exists_app. by left.
      * by right.
  - (* go right *)
    assert (Hcn : c_high c < c_low cn) by lia.
    assert (Hb' : Forall (fun e => entry_lt e (node, cn)) (before (FR l p c :: k))).
    { cbn. rewrite !Forall_app. split_and!; [done| |constructor; done].
      eapply Forall_impl; [exact Hlc|]. cbn. intros e [He _]%Forall_cons.
      unfold entry_lt in *; cbn in *; lia. }
    destruct r as [|rl q d rr]; cbn [right_child root_of mk_node].
    + right. eexists _, (fill k (Node l p c (Node Leaf node cn Leaf))). split_and!.
      * rewrite (store_Some _ _ _ _ (fo_node _ _ _ _ _ _ F)). cbn_outcome.
        rewrite (store_Some _ _ (mk_node cn None None None)); [done|].
        rewrite lookup_insert_ne; [done|]. intros ->. apply Hout. rewrite locs_fill, locs_node. set_solver.
      * exists (before k ++ inorder l ++ [(p, c)]), (after k).
        rewrite !inorder_fill. cbn. rewrite <- !app_assoc. cbn. split_and!; try done.
        -- by apply insert_right.
        -- apply dom_insert2. eexists. apply F.
      * by apply root_of_fill_ext.
    + destruct (IHr fuel (FR l p c :: k) q) as [[E1 E2]|?]; try done; [cbn in *; lia|..].
      * left. split; [done|]. cbn [inorder]. apply Exists_app. right. by right.
      * by right.
Qed.

(** [insert_interval] either reports an overlap with a stored interval and
    leaves everything as it is, or stores the node at its place in the order. *)
Lemma insert_interval_spec root t :
  tree_at h root t -> ordered (inorder t) -> node ∉ locs t ->
  (insert_interval h root node = Ok (INTERVAL_OVERLAP, h, root) /\
     Exists (hits (c_low cn) (c_high cn)) (inorder t))
  \/ (exists h' root' t', insert_interval h root node = Ok (INTERVAL_SUCCESS, h', root') /\
        inserted h t node cn h' t' /\ root' = root_of t').
Proof.
  intros (-> & Hrep & Hnd) Hord Hout. unfold insert_interval.
  destruct t as [|l p c r]; cbn [root_of].
  - right. exists h, (Some node), (Node Leaf node cn Leaf). split_and!; [done| |done].
    exists [], []. cbn. split_and!; auto.
  - pose proof (locs_size _ _ _ Hrep Hnd). pose proof (height_locs (Node l p c r)).
    destruct (insert_loop_spec (Node l p c r) (fuel_of h) [] p) as [[E ?]|(h' & t' & E & ? & Hr)];
      cbn; auto; [unfold fuel_of; cbn in *; lia|..]; rewrite E; cbn; [by left|].
    right. exists h', (Some p), t'. cbn in Hr. auto.
Qed.
End Insert.

(** ** Removal *)

Lemma rep_set_parent h par par' t q n :
  rep h par t -> NoDup (locs t) -> root_of t = Some q -> h !! q = Some n ->
  rep (<[q := set_parent par' n]> h) par' t.
Proof.
  destruct t as [|l p c r]; cbn [root_of]; [done|]. intros (Hp & Hl & Hr) Hnd [= <-] Hn.
  rewrite Hp in Hn. injection Hn as <-. apply NoDup_node in Hnd as (_ & _ & Hpl & Hpr & _).
  cbn. rewrite lookup_insert_eq. split_and!; [done|..];
    (eapply rep_frame; [|done]); intros q' Hq'; rewrite lookup_insert_ne by set_solver; done.
Qed.

Definition only_child (l r : tree) : tree := match l with Leaf => r | Node _ _ _ _ => l end.

Lemma only_child_root l r :
  match root_of l with Some _ => root_of l | None => root_of r end = root_of (only_child l r).
Proof. by destruct l. Qed.

Lemma only_child_locs l s c r q :
  NoDup (locs (Node l s c r)) -> q ∈ locs (only_child l r) -> q ∈ locs (Node l s c r) /\ q <> s.
Proof.
  intros (_ & _ & Hl & Hr & _)%NoDup_node. rewrite locs_node, elem_of_app, elem_of_cons.
  destruct l; cbn [only_child]; intros Hq; (split; [tauto|by intros ->]).
Qed.

Lemma only_child_rep h par l s c r :
  rep h par l -> rep h par r -> NoDup (locs (Node l s c r)) ->
  rep h par (only_child l r) /\ NoDup (locs (only_child l r)).
Proof. intros ?? (? & ? & _)%NoDup_node. by destruct l. Qed.

Section Unlink.
Context (h : iheap) (k : list frame) (l : tree) (s : loc) (c : content) (r : tree).
Context (F : focused h k l s c r).

Let ct := only_child l r.

(** The child's parent link is redirected. *)
Lemma unlink_child : exists h1,
  match root_of ct with
  | Some _ => store h (root_of ct) (set_parent (ctx_par None k))
  | None => Ok h
  end = Ok h1 /\ rep h1 (ctx_par None k) ct /\ dom h1 = dom h /\
  (forall q, q ∉ locs ct -> h1 !! q = h !! q).
Proof.
  destruct (only_child_rep h (Some s) l s c r) as [Hrep Hnd]; [apply F..|]. fold ct in Hrep, Hnd.
  destruct (root_of ct) as [q|] eqn:E.
  - pose proof (root_in_locs _ _ E) as Hq. destruct (locs_in_heap _ _ _ _ Hrep Hq) as [n Hn].
    exists (<[q := set_parent (ctx_par None k) n]> h). split_and!.
    + by rewrite (store_Some _ _ _ _ Hn).
    + by eapply rep_set_parent.
    + rewrite dom_insert_L. apply elem_of_dom_2 in Hn. set_solver.
    + intros q' Hq'. rewrite lookup_insert_ne by set_solver. done.
  - exists h. assert (ct = Leaf) as -> by (by destruct ct). done.
Qed.

Lemma unlink_spec root :
  root = root_of (fill k (Node l s c r)) ->
  exists h', unlink h root s = Ok (h', root_of (fill k ct)) /\ rep h' None (fill k ct) /\
    h' !! s = h !! s /\ dom h' = dom h.
Proof.
  intros ->. unfold unlink. rewrite (load_Some _ _ _ (fo_node _ _ _ _ _ _ F)). cbn_outcome.
  cbn [left_child right_child parent mk_node]. rewrite only_child_root. fold ct.
  destruct unlink_child as (h1 & E & Hct & Hdom & Hfr). rewrite E. cbn_outcome.
  pose proof (fo_ctx _ _ _ _ _ _ F) as Hk. pose proof (fo_out _ _ _ _ _ _ F) as Hs.
  assert (Hsep : forall q, q ∈ locs ct -> q ∉ ctx_locs k).
  { intros q Hq. apply F. by eapply only_child_locs; [apply F|]. }
  pose proof (fo_ctx_nodup _ _ _ _ _ _ F) as Hnk.
  assert (Hsct : s ∉ locs ct) by (intros H; eapply only_child_locs in H; [naive_solver|apply F]).
  destruct k as [|[p cp rp|lp p cp] k']; cbn [ctx_par frame_loc].
  - exists h1. split_and!; auto.
  - cbn in Hk, Hs, Hsep, Hnk. destruct Hk as (Hp & Hrp & Hk).
    assert (Hp1 : h1 !! p = h !! p) by (apply Hfr; intros ?%Hsep; set_solver).
    rewrite Hp in Hp1. rewrite (load_Some _ _ _ Hp1). cbn_outcome. rewrite decide_True by done.
    rewrite (store_Some _ _ _ _ Hp1). cbn_outcome. apply NoDup_cons in Hnk as [Hpk Hnk].
    eexists. split_and!.
    + cbn [fill]. do 2 f_equal. by apply root_of_fill_ext.
    + cbn [fill]. apply rep_fill. split; [|cbn; split_and!].
      * eapply rep_ctx_frame; [|exact Hk]. intros q Hq.
        rewrite lookup_insert_ne by set_solver. apply Hfr. intros ?%Hsep. set_solver.
      * by rewrite lookup_insert_eq.
      * eapply rep_frame; [|exact Hct]. intros q Hq. rewrite lookup_insert_ne; [done|].
        intros ->. apply Hsep in Hq. set_solver.
      * eapply rep_frame; [|exact Hrp]. intros q Hq.
        rewrite lookup_insert_ne by set_solver. apply Hfr. intros ?%Hsep. set_solver.
    + rewrite lookup_insert_ne by set_solver. by apply Hfr.
    + rewrite dom_insert_L. apply elem_of_dom_2 in Hp1. set_solver.
  - cbn in Hk, Hs, Hsep, Hnk. destruct Hk as (Hp & Hlp & Hk).
    assert (Hp1 : h1 !! p = h !! p) by (apply Hfr; intros ?%Hsep; set_solver).
    rewrite Hp in Hp1. rewrite (load_Some _ _ _ Hp1). cbn_outcome. rewrite decide_False.
    2:{ cbn. intros E'. symmetry in E'. apply root_in_locs in E'. set_solver. }
    rewrite (store_Some _ _ _ _ Hp1). cbn_outcome. apply NoDup_cons in Hnk as [Hpk Hnk].
    eexists. split_and!.
    + cbn [fill]. do 2 f_equal. by apply root_of_fill_ext.
    + cbn [fill]. apply rep_fill. split; [|cbn; split_and!].
      * eapply rep_ctx_frame; [|exact Hk]. intros q Hq.
        rewrite lookup_insert_ne by set_solver. apply Hfr. intros ?%Hsep. set_solver.
      * by rewrite lookup_insert_eq.
      * eapply rep_frame; [|exact Hlp]. intros q Hq.
        rewrite lookup_insert_ne by set_solver. apply Hfr. intros ?%Hsep. set_solver.
      * eapply rep_frame; [|exact Hct]. intros q Hq. rewrite lookup_insert_ne; [done|].
        intros ->. apply Hsep in Hq. set_solver.
    + rewrite lookup_insert_ne by set_solver. by apply Hfr.
    + rewrite dom_insert_L. apply elem_of_dom_2 in Hp1. set_solver.
Qed.
End Unlink.

Lemma inorder_only_child l r : l = Leaf \/ r = Leaf -> inorder (only_child l r) = inorder l ++ inorder r.
Proof. destruct l; intros [|]; subst; cbn; rewrite ?app_nil_r; done. Qed.

Lemma fill_app k1 k2 t : fill (k1 ++ k2) t = fill k2 (fill k1 t).
Proof. revert t; induction k1 as [|[] k1 IH]; cbn; auto. Qed.

Lemma before_app k1 k2 : before (k1 ++ k2) = before k2 ++ before k1.
Proof.
  induction k1 as [|[] k1 IH]; cbn; rewrite ?app_nil_r; auto. by rewrite IH, <- app_assoc.
Qed.

Lemma after_app k1 k2 : after (k1 ++ k2) = after k1 ++ after k2.
Proof. induction k1 as [|[] k1 IH]; cbn; auto. by rewrite IH, <- app_assoc. Qed.

Lemma leftmost t : t <> Leaf ->
  exists k s cs rs, t = fill k (Node Leaf s cs rs) /\ before k = [].
Proof.
  induction t as [|l IHl p c r _]; [done|]. intros _. destruct l as [|ll q d lr].
  - by exists [], p, c, r.
  - destruct IHl as (k & s & cs & rs & E & Hk); [done|].
    exists (k ++ [FL p c r]), s, cs, rs. by rewrite fill_app, before_app, E, Hk.
Qed.

Lemma rep_set_contents h k l p c r c' n :
  focused h k l p c r -> h !! p = Some n ->
  rep (<[p := set_contents (c_low c') (c_high c') (c_data c') n]> h) None (fill k (Node l p c' r)).
Proof.
  intros F Hn. rewrite (fo_node _ _ _ _ _ _ F) in Hn. injection Hn as <-.
  pose proof (fo_nodup _ _ _ _ _ _ F) as (_ & _ & Hl & Hr & _)%NoDup_node.
  pose proof (fo_out _ _ _ _ _ _ F). apply rep_fill; cbn. rewrite lookup_insert_eq. split_and!; auto.
  - eapply rep_ctx_frame; [|apply F]. intros q Hq. rewrite lookup_insert_ne; [done|set_solver].
  - eapply rep_frame; [|apply F]. intros q Hq. rewrite lookup_insert_ne; [done|set_solver].
  - eapply rep_frame; [|apply F]. intros q Hq. rewrite lookup_insert_ne; [done|set_solver].
Qed.

(** What a removal guarantees: the entry [(p, c)] is gone, every other stored
    content is kept in order, and the node handed back carries the data of the
    removed entry and is no longer part of the tree. *)
Definition removed (h : iheap) (l1 : list (loc * content)) (p : loc) (c : content)
    (l2 : list (loc * content)) (h' : iheap) (root' : ptr) (snip : loc) (t' : tree) : Prop :=
  tree_at h' root' t' /\ dom h' = dom h /\
  (exists n, h' !! snip = Some n /\ data n = c_data c) /\
  ((snip = p /\ inorder t' = l1 ++ l2) \/
   (exists cs l2', l2 = (snip, cs) :: l2' /\ inorder t' = l1 ++ (p, cs) :: l2')).

(** The node the removal of [p] takes out: [p] itself, or its successor when
    [p] has two children. *)
Definition snip_of (h : iheap) (l r : tree) (p : loc) : outcome loc :=
  match root_of l, root_of r with
  | Some _, Some _ =>
      s ← next_interval h p;
      match s with Some s => Ok s | None => Fault NullDeref end
  | _, _ => Ok p
  end.

Lemma remove_leafy h root k l p c r :
  focused h k l p c r -> l = Leaf \/ r = Leaf ->
  root = root_of (fill k (Node l p c r)) ->
  exists h' root' t', remove_interval h root p = Ok (h', root', p) /\
    removed h (before k ++ inorder l) p c (inorder r ++ after k) h' root' p t'.
Proof.
  intros F Hone Hroot. destruct (unlink_spec _ _ _ _ _ _ F _ Hroot) as (h' & E & Hrep & Hp & Hdom).
  exists h', (root_of (fill k (only_child l r))), (fill k (only_child l r)). split.
  - unfold remove_interval. rewrite (load_Some _ _ _ (fo_node _ _ _ _ _ _ F)). cbn_outcome.
    cbn [left_child right_child mk_node]. fold (snip_of h l r p).
    assert (snip_of h l r p = Ok p) as ->.
    { unfold snip_of. destruct Hone as [-> | ->]; [done|]. by destruct (root_of l). }
    cbn_outcome. rewrite E. cbn_outcome. by rewrite decide_True.
  - assert (Hin : inorder (fill k (only_child l r)) = (before k ++ inorder l) ++ inorder r ++ after k).
    { rewrite inorder_fill, inorder_only_child by done. by rewrite !app_assoc. }
    split_and!; auto.
    + split_and!; auto. apply NoDup_fill. split_and!; try apply F.
      * eapply (only_child_rep h); apply F.
      * intros q Hq. apply F. eapply only_child_locs; [apply F|done].
    + rewrite Hp. eexists. split; [apply F|done].
Qed.

(** The situation of a removal below two children: [s], the leftmost node of the
    right subtree, has been unlinked, giving the heap [h1]. *)
Record detached (h h1 : iheap) (root : ptr) (k : list frame) (l : tree) (p : loc) (c : content)
    (r : tree) (k' : list frame) (s : loc) (cs : content) (rs : tree) : Prop := {
  de_right : inorder r ++ after k = (s, cs) :: inorder (fill k' rs) ++ after k;
  de_unlink : unlink h root s = Ok (h1, root_of (fill k (Node l p c (fill k' rs))));
  de_next : next_interval h p = Ok (Some s);
  de_focus : focused h1 k l p c (fill k' rs);
  de_snip : exists par rc, h1 !! s = Some (mk_node cs par None rc);
  de_ne : s <> p;
  de_out : s ∉ locs (fill k (Node l p c (fill k' rs)));
  de_dom : dom h1 = dom h
}.

Lemma detach h root k l p c r :
  focused h k l p c r -> r <> Leaf -> root = root_of (fill k (Node l p c r)) ->
  exists h1 k' s cs rs, detached h h1 root k l p c r k' s cs rs.
Proof.
  intros F Hr Hroot. destruct (leftmost r Hr) as (k' & s & cs & rs & Er & Hk').
  assert (Hrep : rep h None (fill k (Node l p c r))) by (apply rep_fill; cbn; split_and!; apply F).
  assert (Hnd : NoDup (locs (fill k (Node l p c r)))) by (apply NoDup_fill; split_and!; apply F).
  set (K := k' ++ FR l p c :: k).
  assert (Et : forall t, fill K t = fill k (Node l p c (fill k' t))).
  { intros t. unfold K. by rewrite fill_app. }
  assert (Ha : inorder r ++ after k = (s, cs) :: inorder (fill k' rs) ++ after k).
  { rewrite Er, !inorder_fill, Hk'. cbn. by rewrite <- app_assoc. }
  pose proof Hrep as HrepK. pose proof Hnd as HndK.
  rewrite Er, <- Et in HrepK, HndK. pose proof (focused_fill _ _ _ _ _ _ HrepK HndK) as FK.
  destruct (unlink_spec _ _ _ _ _ _ FK root) as (h1 & E1 & Hrep1 & Hs1 & Hdom1); [by rewrite Et, <- Er|].
  cbn [only_child] in E1, Hrep1.
  pose proof (fo_nodup _ _ _ _ _ _ FK) as (_ & Hrs & _ & Hsr & _)%NoDup_node.
  assert (Hnd1 : NoDup (locs (fill K rs))).
  { apply NoDup_fill. split_and!; [done|apply FK|].
    intros q Hq. apply FK. rewrite locs_node. set_solver. }
  exists h1, k', s, cs, rs. rewrite (fo_node _ _ _ _ _ _ FK) in Hs1. split; try done.
  - by rewrite <- Et.
  - erewrite (next_interval_spec h root (fill k (Node l p c r)) p c (before k ++ inorder l)
                (inorder r ++ after k)); [by rewrite Ha|done|].
    rewrite inorder_fill. cbn. by rewrite <- !app_assoc.
  - apply focused_fill; by rewrite <- Et.
  - do 2 eexists. exact Hs1.
  - intros ->. apply (fo_out _ _ _ _ _ _ FK). unfold K. clear. induction k' as [|[]]; cbn; set_solver.
  - rewrite <- Et, locs_fill, elem_of_app. pose proof (fo_out _ _ _ _ _ _ FK). tauto.
Qed.

Lemma remove_inner h root k l p c r :
  focused h k l p c r -> l <> Leaf -> r <> Leaf ->
  root = root_of (fill k (Node l p c r)) ->
  exists h' root' snip t', remove_interval h root p = Ok (h', root', snip) /\
    removed h (before k ++ inorder l) p c (inorder r ++ after k) h' root' snip t'.
Proof.
  intros F Hl Hr Hroot. destruct (detach _ _ _ _ _ _ _ F Hr Hroot)
    as (h1 & k' & s & cs & rs & [Ha E1 En F1 (par & rc & Hs1) Hsp Hsout Hdom1]).
  pose proof (fo_node _ _ _ _ _ _ F1) as Hp1.
  eexists _, _, s, (fill k (Node l p cs (fill k' rs))). split.
  - unfold remove_interval. rewrite (load_Some _ _ _ (fo_node _ _ _ _ _ _ F)). cbn_outcome.
    cbn [left_child right_child mk_node]. fold (snip_of h l r p).
    assert (snip_of h l r p = Ok s) as ->.
    { unfold snip_of. rewrite En. destruct l, r; done. }
    cbn_outcome. rewrite E1. cbn_outcome. rewrite decide_False by done.
    rewrite (load_Some _ _ _ Hp1). cbn_outcome. rewrite (load_Some _ _ _ Hs1). cbn_outcome.
    rewrite (store_Some _ _ _ _ Hp1). cbn_outcome.
    rewrite (store_Some _ _ (mk_node cs par None rc)); [done|]. by rewrite lookup_insert_ne.
  - split_and!.
    + split_and!; [by apply root_of_fill_ext| |].
      * eapply rep_frame; [|eapply (rep_set_contents h1 k l p c (fill k' rs) cs); [done|exact Hp1]].
        intros q Hq. rewrite lookup_insert_ne; [done|]. intros ->. apply Hsout.
        revert Hq. rewrite !locs_fill, !locs_node. done.
      * rewrite locs_fill, locs_node. rewrite <- (locs_node l p c), <- locs_fill.
        apply NoDup_fill. split_and!; apply F1.
    + rewrite !dom_insert_L, Hdom1. apply elem_of_dom_2 in Hp1, Hs1. rewrite Hdom1 in Hp1, Hs1. set_solver.
    + eexists. split; [by rewrite lookup_insert_eq|done].
    + right. exists cs, (inorder (fill k' rs) ++ after k). split; [done|].
      rewrite inorder_fill. cbn. by rewrite <- !app_assoc.
Qed.

Lemma remove_interval_spec h root t p c l1 l2 :
  tree_at h root t -> inorder t = l1 ++ (p, c) :: l2 ->
  exists h' root' snip t', remove_interval h root p = Ok (h', root', snip) /\
    removed h l1 p c l2 h' root' snip t'.
Proof.
  intros Hat Ht. destruct (tree_at_focus _ _ _ _ _ _ _ Hat Ht) as (k & l & r & -> & -> & -> & F).
  destruct Hat as (Hroot & _ & _).
  destruct (decide (l = Leaf \/ r = Leaf)) as [Hone|Hboth].
  - destruct (remove_leafy _ _ _ _ _ _ _ F Hone Hroot) as (h' & root' & t' & ? & ?). eauto 6.
  - apply (remove_inner _ _ _ _ _ _ _ F); naive_solver.
Qed.

(** ** Search *)

Definition hit_list (lo hi : Z) (l : list (loc * content)) : list (loc * content) :=
  filter (fun e => hits lo hi e) l.

Lemma hits_iff lo hi e : hits lo hi e <-> c_low e.2 <= hi /\ lo <= c_high e.2.
Proof. unfold hits. rewrite Is_true_true, andb_true_iff. lia. Qed.

Lemma hit_list_nil lo hi l : Forall (fun e => ~ hits lo hi e) l -> hit_list lo hi l = [].
Proof.
  unfold hit_list. induction 1 as [|e l He _ IH]; [done|]. by rewrite filter_cons_False.
Qed.

Lemma hit_list_app lo hi l1 l2 :
  hit_list lo hi (l1 ++ l2) = hit_list lo hi l1 ++ hit_list lo hi l2.
Proof. apply filter_app. Qed.

Section Search.
Context (start count : Z).
Let lo := start.
Let hi := u32 (start + count - 1).
Let i := mkInterval lo hi None None None None.

Lemma check_overlap_hits p c par lc rc :
  check_overlap (mk_node c par lc rc) i = hits lo hi (p, c).
Proof. done. Qed.

Lemma search_descend_spec t0 : forall fuel h par,
  rep h par t0 -> ordered (inorder t0) -> (height t0 < fuel)%nat ->
  exists o, search_descend fuel h (root_of t0) i = Ok o /\
    match o with
    | Some p => exists c, (p, c) ∈ inorder t0 /\ hits lo hi (p, c)
    | None => Forall (fun e => ~ hits lo hi e) (inorder t0)
    end.
Proof.
  induction t0 as [|l IHl p c r IHr]; intros [|fuel] h par Hrep Hord Hf; cbn in Hf; try lia.
  { exists None. by split. }
  cbn [root_of search_descend]. destruct Hrep as (Hp & Hl & Hr).
  rewrite (load_Some _ _ _ Hp). cbn_outcome. rewrite (check_overlap_hits p).
  destruct (hits lo hi (p, c)) eqn:Eh.
  { exists (Some p). split; [done|]. exists c. rewrite Eh. cbn. set_solver. }
  assert (Hn : ~ hits lo hi (p, c)) by (rewrite Eh; auto).
  rewrite hits_iff in Hn. cbn [inorder snd] in *.
  apply ordered_app in Hord as (Hol & Hor & Hlr). apply ordered_cons in Hor as (Hc & Hcr & Hor).
  cbn [low left_child right_child mk_node snd] in *. case_match.
  - destruct (IHl fuel h (Some p)) as (o & -> & Ho); [done|done|lia|]. exists o. split; [done|].
    destruct o as [q|]; [destruct Ho as (d & ? & ?); exists d; split; [set_solver|done]|].
    apply Forall_app. split; [done|]. constructor; [by rewrite hits_iff|].
    eapply Forall_impl; [exact Hcr|]. intros [q d] He. rewrite hits_iff. unfold entry_lt in He.
    cbn in *. subst i. cbn in *. lia.
  - destruct (IHr fuel h (Some p)) as (o & -> & Ho); [done|done|lia|]. exists o. split; [done|].
    destruct o as [q|]; [destruct Ho as (d & ? & ?); exists d; split; [set_solver|done]|].
    apply Forall_app. split; [|constructor; [by rewrite hits_iff|done]].
    eapply Forall_impl; [exact Hlr|]. intros [q d] [He _]%Forall_cons. rewrite hits_iff.
    unfold entry_lt in He. cbn in *. subst i. cbn in *. lia.
Qed.

(** Below a stored interval that does not overlap, nothing overlaps if
    something above it does. *)
Lemma no_hits_below l1 q d p c l2 :
  ordered (l1 ++ (q, d) :: (p, c) :: l2) -> hits lo hi (p, c) -> ~ hits lo hi (q, d) ->
  Forall (fun e => ~ hits lo hi e) (l1 ++ [(q, d)]).
Proof.
  rewrite !ordered_app, !ordered_cons, !hits_iff. cbn.
  intros (_ & (Hd & [Hqp _]%Forall_cons & Hc & _) & H1) Hhit Hno.
  unfold entry_lt in *; cbn in *. apply Forall_app. split.
  - eapply Forall_impl; [exact H1|]. intros e [He _]%Forall_cons. rewrite hits_iff. cbn in *. lia.
  - constructor; [by rewrite hits_iff|done].
Qed.

Lemma search_back_spec fuel h root t l1 p c l2 :
  tree_at h root t -> ordered (inorder t) -> inorder t = l1 ++ (p, c) :: l2 ->
  hits lo hi (p, c) -> (length l1 < fuel)%nat ->
  exists p', search_back fuel h p i = Ok p' /\
    Some p' = fst <$> head (hit_list lo hi (inorder t)).
Proof.
  intros Hat Hord. revert fuel p c l2. induction l1 as [|[q d] l1 IH] using rev_ind;
    intros [|fuel] p c l2 Ht Hhit Hf; try lia; cbn [search_back];
    rewrite (prev_interval_spec _ _ _ _ _ _ _ Hat Ht); cbn_outcome.
  - exists p. split; [done|]. rewrite Ht. cbn [app]. unfold hit_list. by rewrite filter_cons_True.
  - rewrite last_snoc. cbn [fst fmap option_fmap option_map]. rewrite length_app in Hf. cbn in Hf. rewrite <- app_assoc in Ht. cbn in Ht.
    destruct (tree_at_lookup _ _ _ q d Hat) as (n & Hn & Hlo & Hhi & _); [rewrite Ht; set_solver|].
    rewrite (load_Some _ _ _ Hn). cbn_outcome.
    assert (check_overlap n i = hits lo hi (q, d)) as -> by (unfold check_overlap, hits; by rewrite Hlo, Hhi).
    destruct (hits lo hi (q, d)) eqn:Eq.
    + eapply IH; [done|by rewrite Eq|lia].
    + exists p. split; [done|]. rewrite Ht in Hord |- *.
      change ((q, d) :: (p, c) :: l2) with ([(q, d)] ++ (p, c) :: l2).
      rewrite app_assoc, hit_list_app, (hit_list_nil _ _ (l1 ++ _)).
      * unfold hit_list. by rewrite filter_cons_True.
      * eapply no_hits_below; [exact Hord|done|rewrite Eq; auto].
Qed.

(** [search_interval] returns the lowest stored interval that overlaps. *)
Lemma search_interval_spec h root t :
  tree_at h root t -> ordered (inorder t) ->
  search_interval h root start count = Ok (fst <$> head (hit_list lo hi (inorder t))).
Proof.
  intros Hat Hord. pose proof Hat as (Hroot & Hrep & Hnd). unfold search_interval. cbv zeta.
  change (mkInterval start _ None None None None) with i.
  pose proof (locs_size _ _ _ Hrep Hnd) as Hsz. pose proof (height_locs t).
  destruct (search_descend_spec t (fuel_of h) h None) as (o & E & Ho); [done|done|unfold fuel_of; lia|].
  rewrite Hroot, E. cbn_outcome. destruct o as [p|].
  - destruct Ho as (c & Hin & Hhit). apply list_elem_of_split in Hin as (l1 & l2 & Ht).
    destruct (search_back_spec (fuel_of h) h root t l1 p c l2) as (p' & -> & <-); try done.
    unfold locs in Hsz. rewrite Ht, length_fmap, length_app in Hsz. cbn in Hsz. unfold fuel_of. lia.
  - by rewrite hit_list_nil.
Qed.
End Search.

(** ** What the interval tree promises to its client

    A client of intervals.c sees a list of entries in increasing order; the class
    [IntervalStore] states the operations' laws on that list, without mention of
    trees.  [Store] is the relation the tree of [IntervalsTheory] provides, and its
    instance discharges the laws. *)

Abbreviation entries := (list (loc * content)).

Class IntervalStore (At : iheap -> ptr -> entries -> Prop) : Prop := {
  st_empty h : At h None [];
  st_root h root l : At h root l ->
    match root with None => l = [] | Some p => exists l1 c l2, l = l1 ++ (p, c) :: l2 end;
  st_ordered h root l : At h root l -> ordered l;
  st_nodup h root l : At h root l -> NoDup l.*1;
  st_lookup h root l p c : At h root l -> (p, c) ∈ l ->
    exists n, h !! p = Some n /\ low n = c_low c /\ high n = c_high c /\ data n = c_data c;
  st_frame h h' root l : At h root l -> (forall p, p ∈ l.*1 -> h' !! p = h !! p) -> At h' root l;
  st_insert h root l node cn :
    At h root l -> node ∉ l.*1 -> h !! node = Some (mk_node cn None None None) ->
    c_low cn <= c_high cn ->
    (insert_interval h root node = Ok (INTERVAL_OVERLAP, h, root) /\
       hit_list (c_low cn) (c_high cn) l <> [])
    \/ (exists h' root' l1 l2, l = l1 ++ l2 /\
          insert_interval h root node = Ok (INTERVAL_SUCCESS, h', root') /\
          At h' root' (l1 ++ (node, cn) :: l2) /\ dom h' = dom h /\
          hit_list (c_low cn) (c_high cn) l = []);
  st_set_data h root l1 p c l2 n d :
    At h root (l1 ++ (p, c) :: l2) -> h !! p = Some n ->
    At (<[p := set_data d n]> h) root (l1 ++ (p, Content (c_low c) (c_high c) d) :: l2);
  st_remove h root l1 p c l2 :
    At h root (l1 ++ (p, c) :: l2) ->
    exists h' root' snip l', remove_interval h root p = Ok (h', root', snip) /\
      At (free_interval h' snip) root' l' /\ dom h' = dom h /\
      (exists n, h' !! snip = Some n /\ data n = c_data c) /\
      l'.*2 = l1.*2 ++ l2.*2 /\ snip :: l'.*1 ≡ₚ l1.*1 ++ p :: l2.*1;
  st_minimum h root l : At h root l -> minimum_interval h root = Ok (fst <$> head l);
  st_next h root l1 p c l2 :
    At h root (l1 ++ (p, c) :: l2) -> next_interval h p = Ok (fst <$> head l2);
  st_search h root l start count : At h root l ->
    search_interval h root start count =
    Ok (fst <$> head (hit_list start (u32 (start + count - 1)) l))
}.

(** ** The tree provides it *)

Definition Store (h : iheap) (root : ptr) (l : entries) : Prop :=
  exists t, tree_at h root t /\ inorder t = l /\ ordered l.

Lemma hit_list_below lo hi l :
  Forall (fun a => c_high a.2 < lo) l -> hit_list lo hi l = [].
Proof.
  intros H. apply hit_list_nil. eapply Forall_impl; [exact H|].
  intros a Ha. cbn in Ha. rewrite hits_iff. lia.
Qed.

Lemma hit_list_above lo hi l :
  Forall (fun a => hi < c_low a.2) l -> hit_list lo hi l = [].
Proof.
  intros H. apply hit_list_nil. eapply Forall_impl; [exact H|].
  intros a Ha. cbn in Ha. rewrite hits_iff. lia.
Qed.

Lemma Exists_hit_list lo hi l : Exists (hits lo hi) l -> hit_list lo hi l <> [].
Proof.
  unfold hit_list. induction 1 as [e l He|e l _ IH].
  - by rewrite filter_cons_True.
  - destruct (decide (hits lo hi e)); [by rewrite filter_cons_True|by rewrite filter_cons_False].
Qed.

Lemma removed_relabel h l1 p c l2 h' root' snip t' :
  removed h l1 p c l2 h' root' snip t' ->
  (inorder t').*2 = l1.*2 ++ l2.*2 /\ snip :: (inorder t').*1 ≡ₚ l1.*1 ++ p :: l2.*1.
Proof.
  intros (_ & _ & _ & [[-> ->]|(cs & l2' & -> & ->)]); rewrite !fmap_app; cbn; split; auto;
    rewrite ?fmap_app; cbn; solve_Permutation.
Qed.

Lemma tree_at_frame h h' root t :
  tree_at h root t -> (forall p, p ∈ locs t -> h' !! p = h !! p) -> tree_at h' root t.
Proof. intros (-> & Hrep & Hnd) Hf. split_and!; auto. by eapply rep_frame. Qed.

Lemma tree_at_set_data h root t l1 p c l2 n d :
  tree_at h root t -> inorder t = l1 ++ (p, c) :: l2 -> h !! p = Some n ->
  exists t', tree_at (<[p := set_data d n]> h) root t' /\
    inorder t' = l1 ++ (p, Content (c_low c) (c_high c) d) :: l2.
Proof.
  intros Hat Ht Hn. destruct (tree_at_focus _ _ _ _ _ _ _ Hat Ht) as (k & l & r & -> & -> & -> & F).
  destruct Hat as (-> & Hrep & Hnd). set (c' := Content (c_low c) (c_high c) d).
  exists (fill k (Node l p c' r)). split.
  - split_and!; [by apply root_of_fill_ext| |].
    + pose proof (rep_set_contents _ _ _ _ _ _ c' n F Hn) as H.
      rewrite (fo_node _ _ _ _ _ _ F) in Hn. injection Hn as <-. exact H.
    + revert Hnd. by rewrite !locs_fill, !locs_node.
  - rewrite inorder_fill. cbn. by rewrite <- !app_assoc.
Qed.

Lemma removed_store h l1 p c l2 h' root' snip t' :
  ordered (l1 ++ (p, c) :: l2) -> NoDup (l1 ++ (p, c) :: l2).*1 ->
  removed h l1 p c l2 h' root' snip t' ->
  Store (free_interval h' snip) root' (inorder t').
Proof.
  intros Hord Hnd HR. pose proof (removed_relabel _ _ _ _ _ _ _ _ _ HR) as [Hc Hp].
  destruct HR as (Hat & _). exists t'. split_and!; auto.
  - eapply tree_at_frame; [done|]. intros q Hq. unfold free_interval. apply lookup_delete_ne.
    intros ->. rewrite fmap_app in Hnd. cbn in Hnd. rewrite <- Hp in Hnd.
    by apply NoDup_cons in Hnd as [Hn _].
  - apply (ordered_relabel (l1 ++ l2)); [|by eapply ordered_delete]. by rewrite fmap_app, Hc.
Qed.

#[global] Instance tree_store : IntervalStore Store.
Proof.
  split.
  - intros h. exists Leaf. split_and!; try done; [split_and!; try done; constructor|split; constructor].
  - intros h root l (t & (-> & _ & _) & <- & _). destruct t as [|tl p c tr]; cbn; eauto.
  - by intros h root l (t & _ & _ & ?).
  - by intros h root l (t & (_ & _ & ?) & <- & _).
  - intros h root l p c (t & Hat & <- & _). by eapply tree_at_lookup.
  - intros h h' root l (t & Hat & <- & Hord) Hf. exists t. split_and!; auto. by eapply tree_at_frame.
  - intros h root l node cn (t & Hat & <- & Hord) Hout Hn Hwf.
    destruct (insert_interval_spec h node cn Hn Hwf root t Hat Hord Hout)
      as [[-> Hex]|(h' & root' & t' & -> & (l1 & l2 & Ht & Ht' & Hb & Ha & Hrep & Hdom) & ->)].
    + left. split; [done|]. by apply Exists_hit_list.
    + right. exists h', (root_of t'), l1, l2. split_and!; auto.
      * exists t'. rewrite Ht in Hord. split_and!; auto; [|by apply ordered_insert]. split_and!; auto.
        destruct Hat as (_ & _ & Hnd). unfold locs in *. rewrite Ht in Hnd, Hout. rewrite Ht'.
        rewrite fmap_app in *. cbn. apply NoDup_app in Hnd as (? & ? & ?). apply NoDup_app.
        rewrite NoDup_cons. set_solver.
      * rewrite Ht, hit_list_app.
        rewrite hit_list_below, hit_list_above; auto.
  - intros h root l1 p c l2 n d (t & Hat & Ht & Hord) Hn.
    destruct (tree_at_set_data _ _ _ _ _ _ _ _ d Hat Ht Hn) as (t' & ? & ?).
    exists t'. split_and!; auto. rewrite ordered_app, ordered_cons in *.
    destruct Hord as (? & (? & ? & ?) & Hl1). split_and!; auto.
    eapply Forall_impl; [exact Hl1|]. intros a [? ?]%Forall_cons. by constructor.
  - intros h root l1 p c l2 (t & Hat & Ht & Hord).
    destruct (remove_interval_spec _ _ _ _ _ _ _ Hat Ht) as (h' & root' & snip & t' & E & HR).
    exists h', root', snip, (inorder t'). destruct Hat as (_ & _ & Hnd). unfold locs in Hnd. rewrite Ht in Hnd.
    split_and!; [done|by eapply removed_store|by destruct HR as (_ & ? & _)
      |by destruct HR as (_ & _ & ? & _)|by eapply removed_relabel|by eapply removed_relabel].
  - intros h root l (t & Hat & <- & _). by apply minimum_interval_spec.
  - intros h root l1 p c l2 (t & Hat & Ht & _). by eapply next_interval_spec.
  - intros h root l start count (t & Hat & <- & Hord). by apply search_interval_spec.
Qed.
