(* ===== verification/MaapPacket.v ===== *)
(** * MAAP packets (daemons/maap/common/maap_packet.c)

    The packet structure, its packing into and unpacking from the wire format of
    IEEE 1722-2016 Figure B.1, and the MAC address comparison that decides which
    of two stations keeps a contested address block. *)

From S2P Require Import Prelude.

(** Constants of maap.h, maap_packet.h and maap_net.h. *)
Definition MAAP_TYPE : Z := 0x22F0.
Definition MAAP_SUBTYPE : Z := 0xFE.
Definition MAAP_PKT_SIZE : Z := 42.
Definition MAAP_NET_BUFFER_SIZE : nat := 64.
Definition MAAP_PROBE : Z := 1.
Definition MAAP_DEFEND : Z := 2.
Definition MAAP_ANNOUNCE : Z := 3.

Record MAAP_Packet : Type := mkPacket {
  DA : Z;
  SA : Z;
  Ethertype : Z;
  subtype : Z;
  SV : Z;
  version : Z;
  message_type : Z;
  maap_version : Z;
  control_data_length : Z;
  stream_id : Z;
  requested_start_address : Z;
  requested_count : Z;
  conflict_start_address : Z;
  conflict_count : Z
}.

#[global] Instance MAAP_Packet_eq_dec : EqDecision MAAP_Packet.
Proof. solve_decision. Defined.

(** [memcpy(&tmp64, stream, 6)] leaves the last two bytes of [tmp64] as they
    were: [junk] is what the variable held before. *)
Definition load48 (stream : list Z) (off : nat) (junk : list Z) : outcome Z :=
  b ← read_bytes stream off 6;
  Ok (Z.shiftr (be_val (b ++ junk)) 16).

Definition load16 (stream : list Z) (off : nat) : outcome Z :=
  b ← read_bytes stream off 2; Ok (be_val b).

Definition load8 (stream : list Z) (off : nat) : outcome Z :=
  b ← read_bytes stream off 1; Ok (be_val b).

Definition load64 (stream : list Z) (off : nat) : outcome Z :=
  b ← read_bytes stream off 8; Ok (be_val b).

(** [unpack_maap]; the four [junk] bytes pairs are the stale low-order bytes of
    [tmp64] at its four 6-byte copies. *)
Definition unpack_maap (stream : list Z) (junk1 junk2 junk3 junk4 : list Z) : outcome MAAP_Packet :=
  da ← load48 stream 0 junk1;
  sa ← load48 stream 6 junk2;
  ethertype ← load16 stream 12;
  sub ← load8 stream 14;
  tmp8 ← load8 stream 15;
  mv ← load8 stream 16;
  cdl ← load16 stream 16;
  sid ← load64 stream 18;
  rsa ← load48 stream 26 junk3;
  rc ← load16 stream 32;
  csa ← load48 stream 34 junk4;
  cc ← load16 stream 40;
  Ok {| DA := da;
        SA := sa;
        Ethertype := ethertype;
        subtype := sub;
        SV := Z.shiftr (Z.land tmp8 0x80) 7;
        version := Z.shiftr (Z.land tmp8 0x70) 4;
        message_type := Z.land tmp8 0x0f;
        maap_version := Z.shiftr (Z.land mv 0xf8) 3;
        control_data_length := Z.land cdl 0x07ff;
        stream_id := sid;
        requested_start_address := rsa;
        requested_count := rc;
        conflict_start_address := csa;
        conflict_count := cc |}.

(** [tmp64 = HTOBE64(v << 16); memcpy(stream, &tmp64, 6)] *)
Definition store48 (stream : list Z) (off : nat) (v : Z) : outcome (list Z) :=
  write_bytes stream off (take 6 (be_bytes 8 (u64 (Z.shiftl v 16)))).

Definition pack_maap (packet : MAAP_Packet) (stream : list Z) : outcome (list Z) :=
  stream ← store48 stream 0 (DA packet);
  stream ← store48 stream 6 (SA packet);
  stream ← write_bytes stream 12 (be_bytes 2 (Ethertype packet));
  stream ← write_bytes stream 14 [u8 (subtype packet)];
  stream ← write_bytes stream 15
    [u8 (Z.lor (Z.lor (Z.shiftl (SV packet) 7)
                      (Z.shiftl (Z.land (version packet) 0x07) 4))
               (Z.land (message_type packet) 0x0f))];
  stream ← write_bytes stream 16
    (be_bytes 2 (u16 (Z.lor (Z.shiftl (Z.land (maap_version packet) 0x001f) 11)
                            (Z.land (control_data_length packet) 0x07ff))));
  stream ← write_bytes stream 18 (be_bytes 8 (stream_id packet));
  stream ← store48 stream 26 (requested_start_address packet);
  stream ← write_bytes stream 32 (be_bytes 2 (requested_count packet));
  stream ← store48 stream 34 (conflict_start_address packet);
  write_bytes stream 40 (be_bytes 2 (conflict_count packet)).

(** [init_packet]; its two assertions on the addresses are at lines 154 and 155. *)
Definition init_packet (dest_mac src_mac : Z) : outcome MAAP_Packet :=
  _ ← c_assert 154 (negb (dest_mac =? 0));
  _ ← c_assert 155 (negb (src_mac =? 0));
  Ok {| DA := dest_mac;
        SA := src_mac;
        Ethertype := MAAP_TYPE;
        subtype := MAAP_SUBTYPE;
        SV := 0;
        version := 0;
        message_type := 0;
        maap_version := 1;
        control_data_length := 16;
        stream_id := 0;
        requested_start_address := 0;
        requested_count := 0;
        conflict_start_address := 0;
        conflict_count := 0 |}.

Definition set_request (mt start count : Z) (p : MAAP_Packet) : MAAP_Packet :=
  mkPacket (DA p) (SA p) (Ethertype p) (subtype p) (SV p) (version p) mt (maap_version p)
    (control_data_length p) (stream_id p) start count
    (conflict_start_address p) (conflict_count p).

Definition set_conflict (da start count : Z) (p : MAAP_Packet) : MAAP_Packet :=
  mkPacket da (SA p) (Ethertype p) (subtype p) (SV p) (version p) (message_type p)
    (maap_version p) (control_data_length p) (stream_id p) (requested_start_address p)
    (requested_count p) start count.

(** [convert_mac_address]: reads eight bytes and keeps the first six. *)
Definition convert_mac_address (macaddr : list Z) : outcome Z :=
  b ← read_bytes macaddr 0 8; Ok (Z.shiftr (be_val b) 16).

(** The [for] loop of [compare_mac_addresses], [n] iterations left. *)
Fixpoint compare_mac_loop (n : nat) (local_mac remote_mac : Z) : bool :=
  match n with
  | O => true
  | S n =>
      let local_byte := u8 (Z.land local_mac 0xFF) in
      let remote_byte := u8 (Z.land remote_mac 0xFF) in
      if local_byte <? remote_byte then true
      else if remote_byte <? local_byte then false
      else compare_mac_loop n (Z.shiftr local_mac 8) (Z.shiftr remote_mac 8)
  end.

Definition compare_mac_addresses (local_mac remote_mac : Z) : bool :=
  compare_mac_loop 6 local_mac remote_mac.

(** ** The wire image *)

(** The 42 bytes of a packet, field by field. *)
Definition wire (p : MAAP_Packet) : list Z :=
  be_bytes 6 (DA p) ++ be_bytes 6 (SA p) ++ be_bytes 2 (Ethertype p) ++
  [u8 (subtype p)] ++
  [u8 (SV p * 2 ^ 7 + version p * 2 ^ 4 + message_type p)] ++
  be_bytes 2 (u16 (maap_version p * 2 ^ 11 + control_data_length p)) ++
  be_bytes 8 (stream_id p) ++
  be_bytes 6 (requested_start_address p) ++ be_bytes 2 (requested_count p) ++
  be_bytes 6 (conflict_start_address p) ++ be_bytes 2 (conflict_count p).

(** Every field fits the width it has on the wire. *)
Record wf_packet (p : MAAP_Packet) : Prop := {
  wf_DA : is_u48 (DA p);
  wf_SA : is_u48 (SA p);
  wf_Ethertype : is_u16 (Ethertype p);
  wf_subtype : is_u8 (subtype p);
  wf_SV : 0 <= SV p < 2;
  wf_version : 0 <= version p < 8;
  wf_message_type : 0 <= message_type p < 16;
  wf_maap_version : 0 <= maap_version p < 32;
  wf_control_data_length : 0 <= control_data_length p < 2048;
  wf_stream_id : is_u64 (stream_id p);
  wf_requested_start_address : is_u48 (requested_start_address p);
  wf_requested_count : is_u16 (requested_count p);
  wf_conflict_start_address : is_u48 (conflict_start_address p);
  wf_conflict_count : is_u16 (conflict_count p)
}.

Lemma length_wire p : length (wire p) = 42%nat.
Proof. unfold wire. rewrite !length_app, !length_be_bytes. done. Qed.

Lemma wire_bytes p : bytes (wire p).
Proof.
  unfold wire, bytes. rewrite !Forall_app. split_and!; try apply be_bytes_bytes;
    constructor; auto with cint.
Qed.

(** Writing at the end of an already written prefix extends the prefix. *)
Lemma write_append pre rest off src :
  off = length pre -> (length src <= length rest)%nat ->
  write_bytes (pre ++ rest) off src = Ok ((pre ++ src) ++ drop (length src) rest).
Proof.
  intros -> Hl. rewrite write_bytes_Ok by (rewrite length_app; lia). f_equal.
  rewrite take_app_length, drop_app_add, <- app_assoc. done.
Qed.

Lemma store48_bytes v : take 6 (be_bytes 8 (u64 (Z.shiftl v 16))) = be_bytes 6 v.
Proof.
  change 8%nat with (6 + 2)%nat. rewrite <- be_bytes_take. change (2 ^ (8 * Z.of_nat 2)) with (2 ^ 16).
  unfold u64. rewrite Z.shiftl_mul_pow2 by lia. replace (2 ^ 64) with (2 ^ 48 * 2 ^ 16) by done.
  rewrite Z.mul_mod_distr_r, Z.div_mul by done.
  rewrite <- (be_val_bytes 6 v : _ = v mod 2 ^ 48).
  pose proof (be_bytes_val (be_bytes 6 v) (be_bytes_bytes 6 v)) as E. by rewrite length_be_bytes in E.
Qed.

Lemma flags_byte p : wf_packet p ->
  Z.lor (Z.lor (Z.shiftl (SV p) 7) (Z.shiftl (Z.land (version p) 0x07) 4))
        (Z.land (message_type p) 0x0f) = SV p * 2 ^ 7 + version p * 2 ^ 4 + message_type p.
Proof.
  intros W. destruct W. rewrite (land_mask _ 3 0x07) by done.
  rewrite (land_mask _ 4 0x0f), !Z.mod_small by (done || lia).
  rewrite <- Z.lor_assoc, (lor_shiftl_add (version p)) by lia.
  rewrite lor_shiftl_add by lia. lia.
Qed.

Lemma length_word p : wf_packet p ->
  Z.lor (Z.shiftl (Z.land (maap_version p) 0x001f) 11) (Z.land (control_data_length p) 0x07ff)
  = maap_version p * 2 ^ 11 + control_data_length p.
Proof.
  intros W. destruct W. rewrite (land_mask _ 5 0x001f) by done.
  rewrite (land_mask _ 11 0x07ff), !Z.mod_small by (done || lia). apply lor_shiftl_add; lia.
Qed.

(** [pack_maap] writes the wire image over the first 42 bytes and nothing else. *)
Lemma pack_maap_spec p buf : wf_packet p -> (42 <= length buf)%nat ->
  pack_maap p buf = Ok (wire p ++ drop 42 buf).
Proof.
  intros W Hlen. unfold pack_maap, store48. rewrite !store48_bytes, flags_byte, length_word by done.
  change buf with ([] ++ buf) at 1.
  repeat (rewrite write_append;
    [cbn_outcome | rewrite ?length_app, ?length_be_bytes; done
     | rewrite ?length_drop, ?length_be_bytes; cbn [length]; lia]).
  f_equal. unfold wire. rewrite ?length_be_bytes, !drop_drop. cbn [length Nat.add app].
  rewrite <- !app_assoc. done.
Qed.

Lemma shift48 v junk : is_u48 v -> bytes junk -> length junk = 2%nat ->
  Z.shiftr (be_val (be_bytes 6 v ++ junk)) 16 = v.
Proof.
  intros Hv Hj Hlj. rewrite Z.shiftr_div_pow2, be_val_app, be_val_bytes, Hlj by lia.
  pose proof (be_val_bound junk Hj) as Hb. rewrite Hlj in Hb.
  change (8 * Z.of_nat 2) with 16 in *. change (8 * Z.of_nat 6) with 48. unfold is_u48 in Hv.
  rewrite Z.mod_small, Z.div_add_l, Z.div_small by lia. lia.
Qed.

Definition junk_ok (junk : list Z) : Prop := bytes junk /\ length junk = 2%nat.

Lemma read_wire p rest off n : (off + n <= 42)%nat ->
  read_bytes (wire p ++ rest) off n = Ok (take n (drop off (wire p))).
Proof.
  intros Ho. rewrite read_bytes_Ok by (rewrite length_app, length_wire; lia).
  rewrite drop_app_le, take_app_le by (rewrite ?length_drop, length_wire; lia). done.
Qed.

Lemma be_val_1 x : be_val [x] = x.
Proof. done. Qed.

(** [unpack_maap] recovers every field, whatever the scratch variable held. *)
Lemma unpack_wire p rest j1 j2 j3 j4 :
  wf_packet p -> junk_ok j1 -> junk_ok j2 -> junk_ok j3 -> junk_ok j4 ->
  unpack_maap (wire p ++ rest) j1 j2 j3 j4 = Ok p.
Proof.
  intros W [] [] [] []. destruct W. unfold unpack_maap, load48, load16, load8, load64.
  rewrite !read_wire by lia. cbn_outcome.
  set (w := u16 (maap_version p * 2 ^ 11 + control_data_length p)).
  set (f := u8 (SV p * 2 ^ 7 + version p * 2 ^ 4 + message_type p)).
  change (take 6 (drop 0 (wire p))) with (be_bytes 6 (DA p)).
  change (take 6 (drop 6 (wire p))) with (be_bytes 6 (SA p)).
  change (take 2 (drop 12 (wire p))) with (be_bytes 2 (Ethertype p)).
  change (take 1 (drop 14 (wire p))) with [u8 (subtype p)].
  change (take 1 (drop 15 (wire p))) with [f].
  change (take 1 (drop 16 (wire p))) with [(w / 256) mod 256].
  change (take 2 (drop 16 (wire p))) with (be_bytes 2 w).
  change (take 8 (drop 18 (wire p))) with (be_bytes 8 (stream_id p)).
  change (take 6 (drop 26 (wire p))) with (be_bytes 6 (requested_start_address p)).
  change (take 2 (drop 32 (wire p))) with (be_bytes 2 (requested_count p)).
  change (take 6 (drop 34 (wire p))) with (be_bytes 6 (conflict_start_address p)).
  change (take 2 (drop 40 (wire p))) with (be_bytes 2 (conflict_count p)).
  rewrite !shift48, !be_val_1, !be_val_bytes by done.
  change (8 * Z.of_nat 2) with 16. change (8 * Z.of_nat 8) with 64.
  rewrite (field_get f 7 1 0x80), (field_get f 4 3 0x70), (field_get _ 3 5 0xf8) by done.
  rewrite (land_mask f 4 0x0f), (land_mask _ 11 0x07ff), (u8_small (subtype p)) by done.
  assert (Hw : w = maap_version p * 2 ^ 11 + control_data_length p) by (apply u16_small; unfold is_u16; lia).
  assert (Hf : f = SV p * 2 ^ 7 + version p * 2 ^ 4 + message_type p) by (apply u8_small; unfold is_u8; lia).
  unfold is_u16, is_u64 in *. clearbody w f. subst w f. destruct p; cbn in *.
  f_equal. f_equal; try (rewrite Z.mod_small; [done|lia]); Z.to_euclidean_division_equations; lia.
Qed.

(** The fields [unpack_maap] reads from the 42 bytes [l]. *)
Definition parsed (l : list Z) : MAAP_Packet :=
  let f := be_val (take 1 (drop 15 l)) in
  let w := be_val (take 2 (drop 16 l)) in
  {| DA := be_val (take 6 (drop 0 l));
     SA := be_val (take 6 (drop 6 l));
     Ethertype := be_val (take 2 (drop 12 l));
     subtype := be_val (take 1 (drop 14 l));
     SV := f / 2 ^ 7; version := (f / 2 ^ 4) mod 2 ^ 3; message_type := f mod 2 ^ 4;
     maap_version := w / 2 ^ 11; control_data_length := w mod 2 ^ 11;
     stream_id := be_val (take 8 (drop 18 l));
     requested_start_address := be_val (take 6 (drop 26 l));
     requested_count := be_val (take 2 (drop 32 l));
     conflict_start_address := be_val (take 6 (drop 34 l));
     conflict_count := be_val (take 2 (drop 40 l)) |}.

Lemma segment_bound l off n : bytes l -> (off + n <= length l)%nat ->
  0 <= be_val (take n (drop off l)) < 2 ^ (8 * Z.of_nat n).
Proof.
  intros Hl Ho. assert (Hb : bytes (take n (drop off l))) by (by apply Forall_take, Forall_drop).
  pose proof (be_val_bound _ Hb) as H. rewrite length_take, length_drop in H.
  by replace (n `min` (length l - off))%nat with n in H by lia.
Qed.

Lemma segment_bytes l off n : bytes l -> (off + n <= length l)%nat ->
  be_bytes n (be_val (take n (drop off l))) = take n (drop off l).
Proof.
  intros Hl Ho. assert (Hb : bytes (take n (drop off l))) by (by apply Forall_take, Forall_drop).
  pose proof (be_bytes_val _ Hb) as H. rewrite length_take, length_drop in H.
  by replace (n `min` (length l - off))%nat with n in H by lia.
Qed.

Lemma parsed_wf l : bytes l -> length l = 42%nat -> wf_packet (parsed l).
Proof.
  intros Hl Hlen. pose proof (segment_bound l 15 1 Hl ltac:(lia)).
  pose proof (segment_bound l 16 2 Hl ltac:(lia)).
  split; cbn -[take drop Z.pow]; try (by apply (segment_bound l); [|lia]);
    Z.to_euclidean_division_equations; lia.
Qed.

Lemma take_drop_seg {A} (l : list A) off n : take n (drop off l) ++ drop (off + n) l = drop off l.
Proof. rewrite <- drop_drop. apply take_drop. Qed.

Lemma wire_parsed l : bytes l -> length l = 42%nat -> wire (parsed l) = l.
Proof.
  intros Hl Hlen. unfold wire. cbn -[app take drop be_bytes Z.pow u8 u16].
  rewrite !segment_bytes by (done || lia).
  assert (Hb : forall off, (off + 1 <= 42)%nat -> [u8 (be_val (take 1 (drop off l)))] = take 1 (drop off l)).
  { intros off Ho. rewrite <- (segment_bytes l off 1) at 2 by (done || lia). done. }
  rewrite Hb by lia.
  set (f := be_val (take 1 (drop 15 l))). set (w := be_val (take 2 (drop 16 l))).
  pose proof (segment_bound l 15 1 Hl ltac:(lia)) as Hf.
  pose proof (segment_bound l 16 2 Hl ltac:(lia)) as Hw. fold f in Hf. fold w in Hw.
  replace (f / 2 ^ 7 * 2 ^ 7 + (f / 2 ^ 4) mod 2 ^ 3 * 2 ^ 4 + f mod 2 ^ 4) with f
    by (Z.to_euclidean_division_equations; lia).
  replace (w / 2 ^ 11 * 2 ^ 11 + w mod 2 ^ 11) with w by (Z.to_euclidean_division_equations; lia).
  rewrite (u16_small w) by done. unfold f, w. rewrite Hb, segment_bytes by (done || lia).
  assert (take 2 (drop 40 l) = drop 40 l) as -> by (apply take_ge; rewrite length_drop; lia).
  change (take 6 (drop 0 l)) with (take 6 l).
  repeat match goal with
  | |- context [take ?n (drop ?o l) ++ drop ?m l] =>
      change (drop m l) with (drop (o + n) l); rewrite (take_drop_seg l o n)
  end.
  apply take_drop.
Qed.

Lemma unpack_spec l rest j1 j2 j3 j4 :
  bytes l -> length l = 42%nat -> junk_ok j1 -> junk_ok j2 -> junk_ok j3 -> junk_ok j4 ->
  unpack_maap (l ++ rest) j1 j2 j3 j4 = Ok (parsed l).
Proof.
  intros Hl Hlen ?? ??. rewrite <- (wire_parsed l Hl Hlen) at 1. apply unpack_wire; auto using parsed_wf.
Qed.

(** ** MAC address order *)

(** The [n] low-order bytes of an address, read with the last byte first. *)
Fixpoint rev_mac (n : nat) (mac : Z) : Z :=
  match n with
  | O => 0
  | S n => (mac mod 256) * 256 ^ Z.of_nat n + rev_mac n (mac / 256)
  end.

Lemma rev_mac_bound n mac : 0 <= rev_mac n mac < 256 ^ Z.of_nat n.
Proof.
  revert mac; induction n as [|n IH]; intros mac; cbn [rev_mac]; [cbn; lia|].
  specialize (IH (mac / 256)). pose proof (Z.mod_pos_bound mac 256 ltac:(lia)).
  rewrite Nat2Z.inj_succ, Z.pow_succ_r by lia. nia.
Qed.

Lemma rev_mac_inj n a b :
  rev_mac n a = rev_mac n b -> a mod 256 ^ Z.of_nat n = b mod 256 ^ Z.of_nat n.
Proof.
  revert a b; induction n as [|n IH]; intros a b; cbn [rev_mac]; [intros; by rewrite !Z.mod_1_r|].
  intros E. pose proof (rev_mac_bound n (a / 256)). pose proof (rev_mac_bound n (b / 256)).
  rewrite !(Z.mul_comm _ (256 ^ Z.of_nat n)) in E.
  apply Z.div_mod_unique in E as [E1 E2]; [|lia..].
  apply IH in E2. rewrite Nat2Z.inj_succ, Z.pow_succ_r by lia.
  rewrite !Z.rem_mul_r by lia. by rewrite E1, E2.
Qed.

Lemma digit_leb P x y r1 r2 : 0 <= r1 < P -> 0 <= r2 < P ->
  (x * P + r1 <=? y * P + r2) = (if x <? y then true else if y <? x then false else r1 <=? r2).
Proof.
  intros H1 H2. destruct (Z.ltb_spec x y); [apply Z.leb_le; nia|].
  destruct (Z.ltb_spec y x); [apply Z.leb_gt; nia|]. assert (x = y) as -> by lia.
  destruct (Z.leb_spec r1 r2); [apply Z.leb_le|apply Z.leb_gt]; lia.
Qed.

Lemma compare_mac_loop_spec n a b :
  compare_mac_loop n a b = (rev_mac n a <=? rev_mac n b).
Proof.
  revert a b; induction n as [|n IH]; intros a b; cbn [compare_mac_loop rev_mac]; [done|].
  rewrite !(land_mask _ 8 0xFF) by done. unfold u8. rewrite !Z.mod_mod by done.
  change (2 ^ 8) with 256. rewrite !Z.shiftr_div_pow2, IH by lia. change (2 ^ 8) with 256.
  by rewrite digit_leb by apply rev_mac_bound.
Qed.

Lemma compare_mac_spec a b : compare_mac_addresses a b = (rev_mac 6 a <=? rev_mac 6 b).
Proof. apply compare_mac_loop_spec. Qed.

Lemma rev_mac_inj48 a b : is_u48 a -> is_u48 b -> rev_mac 6 a = rev_mac 6 b -> a = b.
Proof.
  intros Ha Hb E%rev_mac_inj. change (256 ^ Z.of_nat 6) with (2 ^ 48) in E.
  unfold is_u48 in *. by rewrite !Z.mod_small in E.
Qed.

(** The source address of the packet [maap_yield_range] feeds back loses. *)
Lemma yield_mac_loses mac : is_u48 mac -> mac <> 0 -> mac <> 0x010000000000 ->
  compare_mac_addresses mac 0x010000000000 = false.
Proof.
  intros Hm H0 H1. rewrite compare_mac_spec. apply Z.leb_gt.
  change (rev_mac 6 0x010000000000) with 1. pose proof (rev_mac_bound 6 mac).
  assert (rev_mac 6 mac <> 0 /\ rev_mac 6 mac <> 1); [|lia]. split; intros E.
  - apply H0, rev_mac_inj48; [done..|exact E].
  - apply H1, rev_mac_inj48; [done..|exact E].
Qed.
