(* ===== verification/MaapNet.v ===== *)
(** * Times and transmit buffers of the MAAP daemon

    Arithmetic on timespec (daemons/maap/linux/src/maap_timer_linux.c) and the buffers of
    daemons/maap/common/maap_net.c: four preallocated buffers and a linked list of overflow buffers, each in one
    of four states.  A buffer pointer is the index of a preallocated buffer or
    the address of an overflow one; the overflow list is kept in link order. *)

From S2P Require Import Prelude.
From S2P Require Import MaapPacket.

(** ** Times of the MAAP daemon (daemons/maap/linux/src/maap_timer_linux.c)

    [struct timespec] values and the arithmetic and comparisons on them.  The
    timer itself is a kernel object; the model records the expiration it was last
    asked for. *)

Record Time : Type := mkTime { tv_sec : Z; tv_nsec : Z }.

#[global] Instance Time_eq_dec : EqDecision Time.
Proof. solve_decision. Defined.

Definition Time_add (a b : Time) : Time :=
  let s := tv_sec a + tv_sec b in
  let n := tv_nsec a + tv_nsec b in
  if 1000000000 <? n then mkTime (s + 1) (n - 1000000000) else mkTime s n.

Definition Time_diff (a b : Time) : Z :=
  let a_ns := tv_sec a * 1000000000 + tv_nsec a in
  let b_ns := tv_sec b * 1000000000 + tv_nsec b in
  b_ns - a_ns.

Definition Time_cmp (a b : Time) : Z :=
  if tv_sec a <? tv_sec b then -1
  else if tv_sec b <? tv_sec a then 1
  else if tv_nsec a <? tv_nsec b then -1
  else if tv_nsec b <? tv_nsec a then 1
  else 0.

Definition Time_passed (current target : Time) : bool :=
  if tv_sec current <? tv_sec target then false
  else if (tv_sec current =? tv_sec target) && (tv_nsec current <? tv_nsec target) then false
  else true.

(** [nsec] is unsigned 64-bit; the division is exact integer division. *)
Definition Time_setFromNanos (nsec : Z) : Time :=
  let s := nsec / 1000000000 in mkTime s (nsec - s * 1000000000).

(** ** Meaning *)

Definition nanos (t : Time) : Z := tv_sec t * 1000000000 + tv_nsec t.

(** A [struct timespec] the kernel accepts. *)
Definition normal (t : Time) : Prop := 0 <= tv_nsec t < 1000000000.

(** The lexicographic order the comparisons implement. *)
Definition time_le (a b : Time) : Prop :=
  tv_sec a < tv_sec b \/ (tv_sec a = tv_sec b /\ tv_nsec a <= tv_nsec b).

Lemma Time_cmp_le a b : Time_cmp a b <= 0 <-> time_le a b.
Proof. unfold Time_cmp, time_le. repeat case_match; lia. Qed.

Lemma Time_cmp_lt a b : Time_cmp a b < 0 <-> ~ time_le b a.
Proof. unfold Time_cmp, time_le. repeat case_match; lia. Qed.

Lemma Time_passed_spec c t : Time_passed c t = true <-> time_le t c.
Proof. unfold Time_passed, time_le. repeat case_match; lia. Qed.

Lemma time_le_refl a : time_le a a.
Proof. unfold time_le. lia. Qed.

Lemma time_le_trans a b c : time_le a b -> time_le b c -> time_le a c.
Proof. unfold time_le. lia. Qed.

Lemma time_le_total a b : time_le a b \/ time_le b a.
Proof. unfold time_le. lia. Qed.

#[global] Instance time_le_dec : RelDecision time_le.
Proof. intros a b. unfold time_le. apply _. Defined.

#[global] Instance time_le_preorder : PreOrder time_le.
Proof. split; [intros ?; apply time_le_refl|intros ???; apply time_le_trans]. Qed.

Lemma nanos_add a b : nanos (Time_add a b) = nanos a + nanos b.
Proof. unfold nanos, Time_add. case_match; cbn; lia. Qed.

Lemma Time_setFromNanos_normal n : normal (Time_setFromNanos n) /\ nanos (Time_setFromNanos n) = n.
Proof. unfold normal, nanos, Time_setFromNanos. cbn. Z.to_euclidean_division_equations. lia. Qed.

(** The result of [Time_add] may carry exactly 10^9 nanoseconds. *)
Lemma Time_add_nsec a b : normal a -> normal b ->
  0 <= tv_nsec (Time_add a b) <= 1000000000 /\
  (tv_nsec (Time_add a b) = 1000000000 <-> tv_nsec a + tv_nsec b = 1000000000).
Proof. unfold normal, Time_add. intros. case_match; cbn; lia. Qed.

(** Adding a positive duration moves strictly forward in the code's order. *)
Lemma Time_add_later a n : normal a -> 0 < n -> ~ time_le (Time_add a (Time_setFromNanos n)) a.
Proof.
  intros Ha Hn. destruct (Time_setFromNanos_normal n) as [Hb Hv]. revert Hb Hv.
  generalize (Time_setFromNanos n). intros b. unfold normal, nanos, time_le, Time_add in *.
  intros. case_match; cbn; lia.
Qed.

Lemma time_le_nanos a b : normal a -> normal b -> time_le a b <-> nanos a <= nanos b.
Proof. unfold normal, time_le, nanos. lia. Qed.

Definition NUM_BUFFERS : nat := 4.

Inductive Buffer_State : Type :=
  | BUFFER_FREE
  | BUFFER_SUPPLIED
  | BUFFER_QUEUED
  | BUFFER_SENDING.

#[global] Instance Buffer_State_eq_dec : EqDecision Buffer_State.
Proof. solve_decision. Defined.

Record maap_buffer : Type := mkBuffer { buffer : list Z; bstate : Buffer_State }.

#[global] Instance maap_buffer_eq_dec : EqDecision maap_buffer.
Proof. solve_decision. Defined.

Definition set_bstate (s : Buffer_State) (b : maap_buffer) : maap_buffer := mkBuffer (buffer b) s.
Definition set_buffer (bs : list Z) (b : maap_buffer) : maap_buffer := mkBuffer bs (bstate b).

Record Net : Type := mkNet {
  net_buffer : list maap_buffer;
  pFirst : list (loc * maap_buffer)
}.

#[global] Instance Net_eq_dec : EqDecision Net.
Proof. solve_decision. Defined.

Inductive bufptr : Type := Pre (i : nat) | Ovf (l : loc).

#[global] Instance bufptr_eq_dec : EqDecision bufptr.
Proof. solve_decision. Defined.

(** A zeroed buffer, as [memset] leaves it. *)
Definition zero_buffer : maap_buffer := mkBuffer (replicate MAAP_NET_BUFFER_SIZE 0) BUFFER_FREE.

Definition Net_newNet : Net := mkNet (replicate NUM_BUFFERS zero_buffer) [].

(** The first buffer of an array in the given state. *)
Definition first_in (s : Buffer_State) (bs : list maap_buffer) : option nat :=
  fst <$> list_find (fun b => bstate b = s) bs.

Definition first_ovf (s : Buffer_State) (bs : list (loc * maap_buffer)) : option (nat * loc) :=
  (fun x => (x.1, x.2.1)) <$> list_find (fun b => bstate b.2 = s) bs.

Definition find_ovf (l : loc) (bs : list (loc * maap_buffer)) : option (nat * maap_buffer) :=
  (fun x => (x.1, x.2.2)) <$> list_find (fun b => b.1 = l) bs.

Definition Net_getPacketBuffer (malloc_ok : bool) (net : Net) : outcome (bufptr * Net) :=
  match first_in BUFFER_FREE (net_buffer net) with
  | Some i =>
      Ok (Pre i, mkNet (alter (set_bstate BUFFER_SUPPLIED) i (net_buffer net)) (pFirst net))
  | None =>
      if malloc_ok then
        let l := fresh (pFirst net).*1 in
        Ok (Ovf l, mkNet (net_buffer net)
                         (pFirst net ++ [(l, set_bstate BUFFER_SUPPLIED zero_buffer)]))
      else Fault (AssertFailed 124)
  end.

(** The contents written through the pointer [Net_getPacketBuffer] returned. *)
Definition Net_contents (net : Net) (p : bufptr) : option (list Z) :=
  match p with
  | Pre i => buffer <$> net_buffer net !! i
  | Ovf l => (fun x => buffer x.2) <$> find_ovf l (pFirst net)
  end.

Definition Net_write (net : Net) (p : bufptr) (bs : list Z) : Net :=
  match p with
  | Pre i => mkNet (alter (set_buffer bs) i (net_buffer net)) (pFirst net)
  | Ovf l =>
      match find_ovf l (pFirst net) with
      | Some (k, _) =>
          mkNet (net_buffer net) (alter (fun e => (e.1, set_buffer bs e.2)) k (pFirst net))
      | None => net
      end
  end.

Definition Net_queuePacket (net : Net) (p : bufptr) : outcome (Z * Net) :=
  match p with
  | Pre i =>
      match net_buffer net !! i with
      | Some b =>
          _ ← c_assert 141 (bool_decide (bstate b = BUFFER_SUPPLIED));
          Ok (0, mkNet (alter (set_bstate BUFFER_QUEUED) i (net_buffer net)) (pFirst net))
      | None => Fault (AssertFailed 165)
      end
  | Ovf l =>
      match find_ovf l (pFirst net) with
      | Some (k, b) =>
          _ ← c_assert 156 (bool_decide (bstate b = BUFFER_SUPPLIED));
          Ok (0, mkNet (net_buffer net)
                       (alter (fun e => (e.1, set_bstate BUFFER_QUEUED e.2)) k (pFirst net)))
      | None => Fault (AssertFailed 165)
      end
  end.

Definition Net_getNextQueuedPacket (net : Net) : option bufptr * Net :=
  match first_in BUFFER_QUEUED (net_buffer net) with
  | Some i =>
      (Some (Pre i), mkNet (alter (set_bstate BUFFER_SENDING) i (net_buffer net)) (pFirst net))
  | None =>
      match first_ovf BUFFER_QUEUED (pFirst net) with
      | Some (k, l) =>
          (Some (Ovf l),
           mkNet (net_buffer net)
                 (alter (fun e => (e.1, set_bstate BUFFER_SENDING e.2)) k (pFirst net)))
      | None => (None, net)
      end
  end.

Definition Net_freeQueuedPacket (net : Net) (p : bufptr) : outcome (Z * Net) :=
  match p with
  | Pre i =>
      match net_buffer net !! i with
      | Some b =>
          _ ← c_assert 221 (bool_decide (bstate b = BUFFER_SENDING));
          Ok (0, mkNet (alter (set_bstate BUFFER_FREE) i (net_buffer net)) (pFirst net))
      | None => Fault (AssertFailed 256)
      end
  | Ovf l =>
      match find_ovf l (pFirst net) with
      | Some (k, b) =>
          _ ← c_assert 236 (bool_decide (bstate b = BUFFER_SENDING));
          Ok (0, mkNet (net_buffer net) (delete k (pFirst net)))
      | None => Fault (AssertFailed 256)
      end
  end.

(** The transmit loop of the daemon (maap_daemon.c, lines 342-352): every queued
    packet is handed to [send] and its buffer freed; the loop stops at the first
    [send] that fails.  [send_ok k] is the success of the [k]-th call.  Returns
    the contents handed over, in order. *)
Fixpoint transmit_loop (fuel : nat) (send_ok : nat -> bool) (k : nat) (net : Net)
    : outcome (list (list Z) * Net) :=
  match fuel with
  | O => Fault FuelExhausted
  | S fuel =>
      let '(p, net) := Net_getNextQueuedPacket net in
      match p with
      | None => Ok ([], net)
      | Some p =>
          match Net_contents net p with
          | None => Fault WildPointer
          | Some bs =>
              '(_, net) ← Net_freeQueuedPacket net p;
              if send_ok k then
                '(sent, net) ← transmit_loop fuel send_ok (S k) net;
                Ok (bs :: sent, net)
              else Ok ([bs], net)
          end
      end
  end.

Definition transmit (send_ok : nat -> bool) (net : Net) : outcome (list (list Z) * Net) :=
  transmit_loop (S (length (net_buffer net) + length (pFirst net))) send_ok 0 net.

(** ** The queue the buffers implement *)

Definition is_queued (b : maap_buffer) : Prop := bstate b = BUFFER_QUEUED.
Definition scan (net : Net) : list maap_buffer := net_buffer net ++ (pFirst net).*2.
Definition queued (net : Net) : list (list Z) :=
  buffer <$> filter is_queued (scan net).
Arguments queued : simpl never.

#[global] Instance is_queued_dec b : Decision (is_queued b).
Proof. unfold is_queued. apply _. Defined.

(** Four preallocated buffers; overflow buffers at distinct addresses, never
    free; every buffer has the size of a packet buffer. *)
Record net_wf (net : Net) : Prop := {
  nw_pre : length (net_buffer net) = NUM_BUFFERS;
  nw_addr : NoDup (pFirst net).*1;
  nw_size : Forall (fun b => length (buffer b) = MAAP_NET_BUFFER_SIZE) (scan net);
  nw_idle : Forall (fun b => bstate b <> BUFFER_SUPPLIED /\ bstate b <> BUFFER_SENDING) (scan net)
}.

(** *** Updating one element of a list *)

Section Update.
Context {A : Type} (P : A -> Prop) `{!forall x, Decision (P x)}.

Lemma alter_middle (f : A -> A) l1 x l2 : alter f (length l1) (l1 ++ x :: l2) = l1 ++ f x :: l2.
Proof. induction l1; cbn; [done|]. by f_equal. Qed.

Lemma list_find_split l i x : list_find P l = Some (i, x) ->
  exists l1 l2, l = l1 ++ x :: l2 /\ i = length l1 /\ P x /\ Forall (fun y => ~ P y) l1.
Proof.
  intros (Hi & HP & Hn)%list_find_Some. exists (take i l), (drop (S i) l).
  rewrite take_drop_middle by done. split_and!; auto.
  - rewrite length_take. apply lookup_lt_Some in Hi. lia.
  - apply Forall_lookup. intros j y Hy. rewrite lookup_take in Hy. case_decide; [|done]. eauto.
Qed.

Lemma filter_none l : Forall (fun y => ~ P y) l -> filter P l = [].
Proof. induction 1 as [|y l Hy _ IH]; [done|]. by rewrite filter_cons_False. Qed.
End Update.

Arguments find_ovf : simpl never.

Lemma find_ovf_middle l l1 b l2 : l ∉ l1.*1 -> find_ovf l (l1 ++ (l, b) :: l2) = Some (length l1, b).
Proof.
  intros Hl. unfold find_ovf.
  assert (list_find (fun e : loc * maap_buffer => e.1 = l) (l1 ++ (l, b) :: l2) = Some (length l1, (l, b))) as ->; [|done].
  apply list_find_Some. split_and!; [by apply list_lookup_middle|done|].
  intros j [q d] Hj Hlt. cbn. intros ->. rewrite lookup_app_l in Hj by done.
  apply Hl. apply list_elem_of_fmap. exists (l, d). split; [done|]. by eapply list_elem_of_lookup_2.
Qed.

Lemma first_in_split s bs i : first_in s bs = Some i ->
  exists l1 b l2, bs = l1 ++ b :: l2 /\ i = length l1 /\ bstate b = s /\
    Forall (fun b => bstate b <> s) l1.
Proof.
  unfold first_in. destruct (list_find _ bs) as [[i' b]|] eqn:E; [|done]. cbn. intros [= ->].
  apply list_find_split in E as (l1 & l2 & -> & -> & ? & ?). eauto 10.
Qed.

Lemma first_in_None s bs : first_in s bs = None -> Forall (fun b => bstate b <> s) bs.
Proof.
  unfold first_in. destruct (list_find _ bs) as [[i' b]|] eqn:E; [done|].
  by apply list_find_None in E.
Qed.

Lemma queued_app pre ovf :
  queued (mkNet pre ovf) = (buffer <$> filter is_queued pre) ++ (buffer <$> filter is_queued ovf.*2).
Proof. unfold queued, scan. cbn. by rewrite filter_app, fmap_app. Qed.

Ltac net_lists := cbn [net_buffer pFirst fst snd] in *; unfold scan in *; cbn [net_buffer pFirst] in *;
  rewrite ?fmap_app, ?Forall_app, ?Forall_cons in *; cbn [fmap list_fmap fst snd] in *.

(** Taking a buffer, filling it and queueing it adds its contents to the queue
    and disturbs nothing else. *)
Lemma Net_send_spec net : net_wf net ->
  exists p net1 old, Net_getPacketBuffer true net = Ok (p, net1) /\
    Net_contents net1 p = Some old /\ length old = MAAP_NET_BUFFER_SIZE /\
    forall bs, length bs = MAAP_NET_BUFFER_SIZE ->
    exists net2, Net_queuePacket (Net_write net1 p bs) p = Ok (0, net2) /\
      net_wf net2 /\ queued net2 ≡ₚ bs :: queued net.
Proof.
  destruct net as [pre ovf]. intros [Hpre Haddr Hsize Hidle]. unfold Net_getPacketBuffer. cbn [net_buffer pFirst] in *.
  destruct (first_in BUFFER_FREE pre) as [i|] eqn:Ei.
  - apply first_in_split in Ei as (l1 & b & l2 & -> & -> & Hb & Hl1). rewrite alter_middle.
    eexists (Pre _), _, (buffer b). split; [done|]. net_lists. split_and!.
    + cbn. by rewrite list_lookup_middle.
    + tauto.
    + intros bs Hbs. cbn. rewrite !alter_middle, list_lookup_middle by done. cbn. rewrite ?alter_middle.
      eexists. split; [done|]. split.
      * split; net_lists; rewrite ?length_app in *; cbn in *; tauto || naive_solver.
      * rewrite !queued_app, !filter_app, filter_cons_True, filter_cons_False by (done || (unfold is_queued; congruence)).
        rewrite !fmap_app. cbn. solve_Permutation.
  - apply first_in_None in Ei. set (l := fresh ovf.*1).
    assert (Hl : l ∉ ovf.*1) by apply infinite_is_fresh.
    eexists (Ovf l), _, (buffer zero_buffer). split; [done|]. cbn [Net_contents Net_write Net_queuePacket pFirst net_buffer].
    rewrite find_ovf_middle by done. split_and!; [done|done|]. intros bs Hbs.
    rewrite alter_middle. cbn [pFirst net_buffer fst snd]. rewrite find_ovf_middle by done. cbn. rewrite ?alter_middle.
    eexists. split; [done|]. split.
    + split; net_lists; auto; [|split_and!; auto; tauto..]. apply NoDup_app. split_and!; [done|set_solver|apply NoDup_singleton].
    + rewrite !queued_app, fmap_app, !filter_app, !fmap_app. cbn. solve_Permutation.
Qed.

(** The next queued packet is the first one in scan order; freeing its buffer
    removes exactly that packet from the queue. *)
Lemma Net_next_spec net : net_wf net ->
  match Net_getNextQueuedPacket net with
  | (None, net') => net' = net /\ queued net = []
  | (Some p, net1) => exists bs net2, Net_contents net1 p = Some bs /\
      Net_freeQueuedPacket net1 p = Ok (0, net2) /\ queued net = bs :: queued net2 /\ net_wf net2
  end.
Proof.
  destruct net as [pre ovf]. intros [Hpre Haddr Hsize Hidle]. unfold Net_getNextQueuedPacket. cbn [net_buffer pFirst] in *.
  destruct (first_in BUFFER_QUEUED pre) as [i|] eqn:Ei.
  - apply first_in_split in Ei as (l1 & b & l2 & -> & -> & Hb & Hl1). rewrite alter_middle.
    exists (buffer b), (mkNet (l1 ++ set_bstate BUFFER_FREE b :: l2) ovf).
    cbn [Net_contents Net_freeQueuedPacket net_buffer pFirst].
    rewrite list_lookup_middle by done. cbn. rewrite alter_middle. split_and!; [done|done|..].
    + rewrite !queued_app, !filter_app, filter_cons_True, filter_cons_False by done.
      rewrite !(filter_none _ l1) by done. done.
    + split; net_lists; rewrite ?length_app in *; cbn in *; auto; split_and!; tauto || done.
  - apply first_in_None in Ei. unfold first_ovf. destruct (list_find _ ovf) as [[k [l b]]|] eqn:Eo; cbn.
    + apply list_find_split in Eo as (l1 & l2 & -> & -> & Hb & Hl1). rewrite alter_middle.
      assert (Hl : l ∉ l1.*1).
      { rewrite fmap_app in Haddr. cbn in Haddr. apply NoDup_app in Haddr as (_ & Hd & _). set_solver. }
      exists (buffer b), (mkNet pre (l1 ++ l2)). cbn [Net_contents Net_freeQueuedPacket pFirst net_buffer fst snd].
      rewrite !find_ovf_middle by done. cbn. rewrite delete_middle. split_and!; [done|done|..].
      * rewrite !queued_app, !fmap_app, !filter_app. cbn [fmap list_fmap snd]. rewrite filter_cons_True by done.
        rewrite (filter_none _ pre) by done. rewrite (filter_none _ (l1.*2)) by (by apply Forall_fmap). done.
      * split; net_lists; rewrite ?Forall_cons in *; auto; [|tauto..]. apply NoDup_app in Haddr as (H1 & H2 & H3).
        apply NoDup_cons in H3 as [_ H3]. apply NoDup_app. split_and!; [done|set_solver|done].
    + split; [done|]. rewrite queued_app, (filter_none _ pre) by done.
      apply list_find_None in Eo. by rewrite (filter_none _ (ovf.*2)) by (by apply Forall_fmap).
Qed.

(** The transmit loop hands out a prefix of the queue, in queue order, and the
    rest stays queued; when every [send] succeeds the queue is emptied. *)
Lemma transmit_loop_spec fuel send_ok k net :
  net_wf net -> (length (queued net) < fuel)%nat ->
  exists sent net', transmit_loop fuel send_ok k net = Ok (sent, net') /\
    sent ++ queued net' = queued net /\ net_wf net' /\
    ((forall j, send_ok j = true) -> queued net' = []).
Proof.
  revert k net; induction fuel as [|fuel IH]; intros k net Hwf Hf; [lia|]. cbn [transmit_loop].
  pose proof (Net_next_spec net Hwf) as Hn. destruct (Net_getNextQueuedPacket net) as [[p|] net1].
  - destruct Hn as (bs & net2 & -> & -> & Hq & Hwf2). cbn_outcome. rewrite Hq in Hf. cbn in Hf.
    destruct (send_ok k) eqn:Es.
    + destruct (IH (S k) net2) as (sent & net' & -> & Hs & ? & ?); [done|lia|]. cbn_outcome.
      exists (bs :: sent), net'. split_and!; auto. by rewrite Hq, <- Hs.
    + exists [bs], net2. split_and!; auto. intros Hall. by rewrite Hall in Es.
  - destruct Hn as [-> Hq]. exists [], net. auto.
Qed.

Lemma queued_length net : (length (queued net) <= length (net_buffer net) + length (pFirst net))%nat.
Proof.
  unfold queued, scan. rewrite length_fmap.
  etrans; [apply length_filter|]. by rewrite length_app, length_fmap.
Qed.
