(* ===== verification/Maap.v ===== *)
(** * The MAAP state machine (daemons/maap/common/maap.c)

    The client structure, the [Range] objects and the interval nodes live in one
    [world]; every function of the source is a computation on it.  [random()], the
    monotonic clock and [malloc] are an environment: a sequence of answers, consumed
    in call order.  Logging is left out; the assertions, including those that only
    debug builds with [DEBUG_TIMER_MSG] compile, are kept (the source defines it). *)

From S2P Require Import Prelude.
From S2P Require Import Intervals.
From S2P Require Import MaapPacket.
From S2P Require Import MaapNet.

(** ** Data *)

Definition MAAP_PROBE_RETRANSMITS : Z := 3.
Definition MAAP_PROBE_INTERVAL_BASE : Z := 500.
Definition MAAP_PROBE_INTERVAL_VARIATION : Z := 100.
Definition MAAP_ANNOUNCE_INTERVAL_BASE : Z := 30000.
Definition MAAP_ANNOUNCE_INTERVAL_VARIATION : Z := 2000.

Inductive Maap_State : Type :=
  | MAAP_STATE_INVALID
  | MAAP_STATE_PROBING
  | MAAP_STATE_DEFENDING
  | MAAP_STATE_RELEASED.

#[global] Instance Maap_State_eq_dec : EqDecision Maap_State.
Proof. solve_decision. Defined.

Inductive Maap_Notify_Tag : Type :=
  | MAAP_NOTIFY_INVALID
  | MAAP_NOTIFY_INITIALIZED
  | MAAP_NOTIFY_ACQUIRING
  | MAAP_NOTIFY_ACQUIRED
  | MAAP_NOTIFY_RELEASED
  | MAAP_NOTIFY_STATUS
  | MAAP_NOTIFY_YIELDED.

Inductive Maap_Notify_Error : Type :=
  | MAAP_NOTIFY_ERROR_NONE
  | MAAP_NOTIFY_ERROR_REQUIRES_INITIALIZATION
  | MAAP_NOTIFY_ERROR_ALREADY_INITIALIZED
  | MAAP_NOTIFY_ERROR_RESERVE_NOT_AVAILABLE
  | MAAP_NOTIFY_ERROR_RELEASE_INVALID_ID
  | MAAP_NOTIFY_ERROR_OUT_OF_MEMORY
  | MAAP_NOTIFY_ERROR_INTERNAL.

#[global] Instance Maap_Notify_Error_eq_dec : EqDecision Maap_Notify_Error.
Proof. solve_decision. Defined.

Record Maap_Notify : Type := mkNotify {
  kind : Maap_Notify_Tag;
  n_id : Z;
  start : Z;
  count : Z;
  result : Maap_Notify_Error
}.

(** [struct range]; the links of the timer queue are kept by the client. *)
Record Range : Type := mkRange {
  id : Z;
  state : Maap_State;
  counter : Z;
  overlapping : bool;
  next_act_time : Time;
  interval : ptr;
  sender : Z
}.

Definition set_state (s : Maap_State) (r : Range) : Range :=
  mkRange (id r) s (counter r) (overlapping r) (next_act_time r) (interval r) (sender r).
Definition set_counter (c : Z) (r : Range) : Range :=
  mkRange (id r) (state r) c (overlapping r) (next_act_time r) (interval r) (sender r).
Definition set_overlapping (b : bool) (r : Range) : Range :=
  mkRange (id r) (state r) (counter r) b (next_act_time r) (interval r) (sender r).
Definition set_next_act_time (t : Time) (r : Range) : Range :=
  mkRange (id r) (state r) (counter r) (overlapping r) t (interval r) (sender r).
Definition set_interval (p : ptr) (r : Range) : Range :=
  mkRange (id r) (state r) (counter r) (overlapping r) (next_act_time r) p (sender r).

(** [Maap_Client].  [timer_queue] lists the ranges linked by [next_timer] from
    the head on; [timer] is [None] for the null pointer, otherwise the expiration
    last programmed; [notifies] pairs each notification with its addressee. *)
Record Maap_Client : Type := mkClient {
  dest_mac : Z;
  src_mac : Z;
  address_base : Z;
  range_len : Z;
  ranges : ptr;
  timer_queue : list loc;
  timer : option (option Time);
  net : option Net;
  maxid : Z;
  notifies : list (Z * Maap_Notify);
  initialized : bool
}.

Definition set_ranges (p : ptr) (c : Maap_Client) : Maap_Client :=
  mkClient (dest_mac c) (src_mac c) (address_base c) (range_len c) p (timer_queue c) (timer c)
    (net c) (maxid c) (notifies c) (initialized c).
Definition set_timer_queue (q : list loc) (c : Maap_Client) : Maap_Client :=
  mkClient (dest_mac c) (src_mac c) (address_base c) (range_len c) (ranges c) q (timer c)
    (net c) (maxid c) (notifies c) (initialized c).
Definition set_timer (t : option (option Time)) (c : Maap_Client) : Maap_Client :=
  mkClient (dest_mac c) (src_mac c) (address_base c) (range_len c) (ranges c) (timer_queue c) t
    (net c) (maxid c) (notifies c) (initialized c).
Definition set_net (n : option Net) (c : Maap_Client) : Maap_Client :=
  mkClient (dest_mac c) (src_mac c) (address_base c) (range_len c) (ranges c) (timer_queue c)
    (timer c) n (maxid c) (notifies c) (initialized c).
Definition set_maxid (i : Z) (c : Maap_Client) : Maap_Client :=
  mkClient (dest_mac c) (src_mac c) (address_base c) (range_len c) (ranges c) (timer_queue c)
    (timer c) (net c) i (notifies c) (initialized c).
Definition set_notifies (l : list (Z * Maap_Notify)) (c : Maap_Client) : Maap_Client :=
  mkClient (dest_mac c) (src_mac c) (address_base c) (range_len c) (ranges c) (timer_queue c)
    (timer c) (net c) (maxid c) l (initialized c).
Definition set_initialized (b : bool) (c : Maap_Client) : Maap_Client :=
  mkClient (dest_mac c) (src_mac c) (address_base c) (range_len c) (ranges c) (timer_queue c)
    (timer c) (net c) (maxid c) (notifies c) b.

(** ** The world and its environment *)

Record Env : Type := mkEnv {
  env_random : nat -> Z;
  env_clock : nat -> Time;
  env_malloc : nat -> bool
}.

Record world : Type := mkWorld {
  mc : Maap_Client;
  ivs : iheap;
  rgs : gmap loc Range;
  n_random : nat;
  n_clock : nat;
  n_malloc : nat
}.

Definition with_mc (f : Maap_Client -> Maap_Client) (w : world) : world :=
  mkWorld (f (mc w)) (ivs w) (rgs w) (n_random w) (n_clock w) (n_malloc w).
Definition with_ivs (h : iheap) (w : world) : world :=
  mkWorld (mc w) h (rgs w) (n_random w) (n_clock w) (n_malloc w).
Definition with_rgs (h : gmap loc Range) (w : world) : world :=
  mkWorld (mc w) (ivs w) h (n_random w) (n_clock w) (n_malloc w).

Abbreviation MAAP := (M world).

Definition upd_mc (f : Maap_Client -> Maap_Client) : MAAP unit := modify (with_mc f).

(** Pointer reads and writes. *)
Definition load_iv (p : ptr) : MAAP Interval := h ← gets ivs; lift (load h p).
Definition store_iv (p : ptr) (f : Interval -> Interval) : MAAP unit :=
  h ← gets ivs; h' ← lift (store h p f); modify (with_ivs h').
Definition load_rg (p : ptr) : MAAP Range := h ← gets rgs; lift (load h p).
Definition store_rg (p : ptr) (f : Range -> Range) : MAAP unit :=
  h ← gets rgs; h' ← lift (store h p f); modify (with_rgs h').
Definition free_rg (r : loc) : MAAP unit :=
  h ← gets rgs; _ ← lift (load h (Some r)); modify (with_rgs (delete r h)).
Definition assert_at (line : Z) (b : bool) : MAAP unit := lift (c_assert line b).

Section Client.
Context (E : Env).

Definition random : MAAP Z := fun w =>
Ok (env_random E (n_random w),
    mkWorld (mc w) (ivs w) (rgs w) (S (n_random w)) (n_clock w) (n_malloc w)).
Definition Time_setFromMonotonicTimer : MAAP Time := fun w =>
Ok (env_clock E (n_clock w),
    mkWorld (mc w) (ivs w) (rgs w) (n_random w) (S (n_clock w)) (n_malloc w)).
Definition malloc : MAAP bool := fun w =>
Ok (env_malloc E (n_malloc w),
    mkWorld (mc w) (ivs w) (rgs w) (n_random w) (n_clock w) (S (n_malloc w))).

(** ** Accessors and packets *)

(** [int] result of an unsigned 32-bit expression. *)
Definition get_count (range : loc) : MAAP Z :=
r ← load_rg (Some range);
i ← load_iv (interval r);
mret (s32 (u32 (high i - low i + 1))).

Definition get_start_address (range : loc) : MAAP Z :=
c ← gets mc;
r ← load_rg (Some range);
i ← load_iv (interval r);
mret (u64 (address_base c + low i)).

Definition get_end_address (range : loc) : MAAP Z :=
c ← gets mc;
r ← load_rg (Some range);
i ← load_iv (interval r);
mret (u64 (address_base c + high i)).

Definition send_packet (p : MAAP_Packet) : MAAP Z :=
c ← gets mc;
match net c with
| None => raise (AssertFailed 90)
| Some n =>
    ok ← match first_in BUFFER_FREE (net_buffer n) with
         | Some _ => mret true
         | None => malloc
         end;
    '(pbuf, n) ← lift (Net_getPacketBuffer ok n);
    old ← match Net_contents n pbuf with
          | Some old => mret old
          | None => raise WildPointer
          end;
    bs ← lift (pack_maap p old);
    '(ret, n) ← lift (Net_queuePacket (Net_write n pbuf bs) pbuf);
    _ ← upd_mc (set_net (Some n));
    mret ret
end.

Definition send_probe (range : loc) : MAAP Z :=
c ← gets mc;
p ← lift (init_packet (dest_mac c) (src_mac c));
start ← get_start_address range;
count ← get_count range;
send_packet (set_request MAAP_PROBE start (u16 count) p).

Definition send_announce (range : loc) : MAAP Z :=
c ← gets mc;
p ← lift (init_packet (dest_mac c) (src_mac c));
start ← get_start_address range;
count ← get_count range;
send_packet (set_request MAAP_ANNOUNCE start (u16 count) p).

Definition send_defend (range : loc) (start count destination : Z) : MAAP Z :=
c ← gets mc;
p ← lift (init_packet (dest_mac c) (src_mac c));
own_start ← get_start_address range;
let conflict_start := if own_start <? start then start else own_start in
own_end ← get_end_address range;
let last := u64 (start + count - 1) in
let conflict_end := if last <? own_end then last else own_end in
send_packet (set_conflict destination conflict_start (u16 (conflict_end - conflict_start + 1))
               (set_request MAAP_DEFEND start count p)).

(** ** Notifications *)

(** [add_notify] does not check the result of [calloc]. *)
Definition add_notify (who : Z) (mn : Maap_Notify) : MAAP unit :=
ok ← malloc;
if (ok : bool) then upd_mc (fun c => set_notifies (notifies c ++ [(who, mn)]) c)
else raise NullDeref.

Definition get_notify : MAAP (option (Z * Maap_Notify)) :=
c ← gets mc;
match notifies c with
| [] => mret None
| x :: rest => _ ← upd_mc (set_notifies rest); mret (Some x)
end.

Definition inform_initialized (who : Z) (res : Maap_Notify_Error) : MAAP unit :=
c ← gets mc;
add_notify who (mkNotify MAAP_NOTIFY_INITIALIZED (-1) (address_base c) (range_len c) res).

(** [range ? get_start_address(mc, range) : 0], and the same for the size. *)
Definition note_start (range : ptr) : MAAP Z :=
match range with Some r => get_start_address r | None => mret 0 end.
Definition note_count (range : ptr) : MAAP Z :=
match range with Some r => n ← get_count r; mret (u32 n) | None => mret 0 end.

Definition inform_acquiring (range : loc) : MAAP unit :=
r ← load_rg (Some range);
s ← note_start (Some range);
n ← note_count (Some range);
add_notify (sender r) (mkNotify MAAP_NOTIFY_ACQUIRING (id r) s n MAAP_NOTIFY_ERROR_NONE).

Definition inform_acquired (range : loc) (res : Maap_Notify_Error) : MAAP unit :=
r ← load_rg (Some range);
s ← note_start (Some range);
n ← note_count (Some range);
add_notify (sender r) (mkNotify MAAP_NOTIFY_ACQUIRED (id r) s n res).

Definition inform_not_acquired (who i range_size : Z) (res : Maap_Notify_Error) : MAAP unit :=
add_notify who (mkNotify MAAP_NOTIFY_ACQUIRED i 0 (u32 range_size) res).

Definition inform_released (who i : Z) (range : ptr) (res : Maap_Notify_Error) : MAAP unit :=
s ← note_start range;
n ← note_count range;
add_notify who (mkNotify MAAP_NOTIFY_RELEASED i s n res).

Definition inform_status (who i : Z) (range : ptr) (res : Maap_Notify_Error) : MAAP unit :=
s ← note_start range;
n ← note_count range;
add_notify who (mkNotify MAAP_NOTIFY_STATUS i s n res).

Definition inform_yielded (who i : Z) (range : ptr) (res : Maap_Notify_Error) : MAAP unit :=
s ← note_start range;
n ← note_count range;
add_notify who (mkNotify MAAP_NOTIFY_YIELDED i s n res).

(** ** Timers and intervals *)

Definition Time_setTimer (t : Time) : MAAP unit :=
c ← gets mc;
match timer c with
| None => raise NullDeref
| Some _ => upd_mc (set_timer (Some (Some t)))
end.

Definition start_timer : MAAP unit :=
c ← gets mc;
match timer_queue c with
| [] => mret tt
| head :: _ => r ← load_rg (Some head); Time_setTimer (next_act_time r)
end.

Definition next_iv (p : loc) : MAAP ptr := h ← gets ivs; lift (next_interval h p).

(** The [for] loop of [remove_range_interval]. *)
Fixpoint repoint_loop (fuel : nat) (old_range test_inter : ptr) : MAAP unit :=
match fuel with
| O => raise FuelExhausted
| S fuel =>
    match test_inter with
    | None => mret tt
    | Some p =>
        n ← load_iv test_inter;
        _ ← assert_at 267 (bool_decide (data n <> None));
        _ ← assert_at 268 (bool_decide (data n <> old_range));
        r ← load_rg (data n);
        _ ← (if bool_decide (interval r <> test_inter)
             then store_rg (data n) (set_interval test_inter) else mret tt);
        nx ← next_iv p;
        repoint_loop fuel old_range nx
    end
end.

(** The only root it is called with is [&mc->ranges]. *)
Definition remove_range_interval (node : ptr) : MAAP unit :=
n ← load_iv node;
let old_range := data n in
match node with
| None => raise NullDeref
| Some p =>
    mine ← match old_range with
           | None => mret true
           | Some _ => r ← load_rg old_range; mret (bool_decide (interval r = node))
           end;
    _ ← assert_at 258 mine;
    c ← gets mc;
    h ← gets ivs;
    '(h, root, free_inter) ← lift (remove_interval h (ranges c) p);
    _ ← modify (with_ivs h);
    _ ← upd_mc (set_ranges root);
    f ← load_iv (Some free_inter);
    _ ← assert_at 260 (bool_decide (data f = old_range));
    _ ← modify (fun w => with_ivs (free_interval (ivs w) free_inter) w);
    h ← gets ivs;
    first ← lift (minimum_interval h root);
    repoint_loop (fuel_of h) old_range first
end.

Definition rand_ms (variation : Z) : MAAP Z :=
x ← random;
mret (x mod (variation - 1) + 1).

(** Take [range] out of the timer queue, reading the link of every range passed. *)
Fixpoint dequeue (range : loc) (q : list loc) : MAAP (list loc) :=
match q with
| [] => mret []
| rp :: rest =>
    _ ← load_rg (Some rp);
    if decide (rp = range) then mret rest
    else rest' ← dequeue range rest; mret (rp :: rest')
end.

(** Insert behind every range that is due no later; the source tests the head with
  [Time_cmp(range, head) < 0] and the others with the negation of
  [Time_cmp(next, range) <= 0], which is the same test. *)
Fixpoint enqueue (range : loc) (t : Time) (q : list loc) : MAAP (list loc) :=
match q with
| [] => mret [range]
| rp :: rest =>
    r ← load_rg (Some rp);
    if Time_cmp t (next_act_time r) <? 0 then mret (range :: q)
    else rest' ← enqueue range t rest; mret (rp :: rest')
end.

(** The sanity test at the end of [schedule_timer]. *)
Fixpoint check_queue (i : Z) (q : list loc) : MAAP unit :=
match q with
| [] => mret tt
| test :: rest =>
    if i <? 100000 then
      _ ← assert_at 607 (bool_decide (head rest <> Some test));
      r ← load_rg (Some test);
      _ ← match rest with
          | [] => mret tt
          | next :: _ =>
              n ← load_rg (Some next);
              assert_at 608 (Time_cmp (next_act_time r) (next_act_time n) <=? 0)
          end;
      check_queue (i + 1) rest
    else raise (AssertFailed 613)
end.

(** [Time_setFromMonotonicTimer] plus a random delay of at least [base] ms. *)
Definition arm (range : loc) (base variation : Z) : MAAP unit :=
d ← rand_ms variation;
now ← Time_setFromMonotonicTimer;
store_rg (Some range)
  (set_next_act_time (Time_add now (Time_setFromNanos (u64 ((base + d) * 1000000))))).

Definition schedule_timer (range : loc) : MAAP Z :=
r ← load_rg (Some range);
_ ← match state r with
    | MAAP_STATE_PROBING => arm range MAAP_PROBE_INTERVAL_BASE MAAP_PROBE_INTERVAL_VARIATION
    | MAAP_STATE_DEFENDING => arm range MAAP_ANNOUNCE_INTERVAL_BASE MAAP_ANNOUNCE_INTERVAL_VARIATION
    | _ => mret tt
    end;
c ← gets mc;
q ← dequeue range (timer_queue c);
r ← load_rg (Some range);
q ← enqueue range (next_act_time r) q;
_ ← upd_mc (set_timer_queue q);
_ ← check_queue 0 q;
mret 0.

(** ** Reservations *)

(** One attempt of [assign_interval]: allocate, check, insert, free on overlap. *)
Definition try_interval (line start len : Z) : MAAP (Z * loc) :=
ok ← malloc;
if (ok : bool) then
  c ← gets mc;
  h ← gets ivs;
  let iv := malloc_addr h in
  let node := alloc_interval start len in
  _ ← assert_at line (high node <=? u32 (range_len c - 1));
  '(rv, h, root) ← lift (insert_interval (<[iv := node]> h) (ranges c) iv);
  _ ← upd_mc (set_ranges root);
  _ ← modify (with_ivs (if rv =? INTERVAL_OVERLAP then free_interval h iv else h));
  mret (rv, iv)
else raise NullDeref.

(** The [for] loop: [more] attempts are left; [None] when the counter ran out. *)
Fixpoint assign_loop (more : nat) (len rv : Z) (iv : ptr) : MAAP (option ptr) :=
match more with
| O => mret None
| S more =>
    if rv =? INTERVAL_OVERLAP then
      c ← gets mc;
      let modulus := u32 (range_len c + 1 - len) in
      if modulus =? 0 then raise DivideByZero
      else
        x ← random;
        '(rv, iv) ← try_interval 646 (x mod modulus) len;
        assign_loop more len rv (Some iv)
    else mret (Some iv)
end.

Definition ASSIGN_ATTEMPTS : nat := 1000.

Definition assign_interval (range : loc) (attempt_base len : Z) : MAAP Z :=
c ← gets mc;
if range_len c <? len then mret (-1)
else
  '(rv, iv) ←
    (if (address_base c <=? attempt_base) &&
        (u64 (attempt_base + len - 1) <=? u64 (address_base c + range_len c - 1))
     then '(rv, iv) ← try_interval 634 (u32 (attempt_base - address_base c)) len;
          mret (rv, Some iv)
     else mret (INTERVAL_OVERLAP, None : ptr));
  got ← assign_loop ASSIGN_ATTEMPTS len rv iv;
  match got with
  | None => mret (-1)
  | Some iv =>
      _ ← store_iv iv (set_data (Some range));
      _ ← store_rg (Some range) (set_interval iv);
      mret 0
  end.

(** A fresh [Range]; [None] when [malloc] fails. *)
Definition new_Range (r : Range) : MAAP ptr :=
ok ← malloc;
if (ok : bool) then
  h ← gets rgs;
  let l := malloc_addr h in
  _ ← modify (with_rgs (<[l := r]> h));
  mret (Some l)
else mret None.

(** The first range of the timer queue with the given id that satisfies [ok]. *)
Fixpoint find_range (ok : Maap_State -> bool) (i : Z) (q : list loc) : MAAP ptr :=
match q with
| [] => mret None
| range :: rest =>
    r ← load_rg (Some range);
    if (id r =? i) && ok (state r) then mret (Some range)
    else find_range ok i rest
end.

Definition maap_init_client (who range_address_base len : Z) : MAAP Z :=
c ← gets mc;
if initialized c then
  let matches := (range_address_base =? address_base c) && (len =? range_len c) in
  _ ← inform_initialized who
        (if matches then MAAP_NOTIFY_ERROR_NONE else MAAP_NOTIFY_ERROR_ALREADY_INITIALIZED);
  mret (if matches then 0 else -1)
else
  timer_ok ← malloc;
  if negb timer_ok then _ ← upd_mc (set_timer None); mret (-1)
  else
    _ ← upd_mc (set_timer (Some None));
    net_ok ← malloc;
    if negb net_ok then _ ← upd_mc (set_net None); mret (-1)
    else
      _ ← upd_mc (fun c => mkClient (dest_mac c) (src_mac c) range_address_base len None []
                             (timer c) (Some Net_newNet) 0 [] true);
      _ ← inform_initialized who MAAP_NOTIFY_ERROR_NONE;
      mret 0.

(** The first loop of [maap_deinit_client]. *)
Fixpoint drop_queue (q : list loc) : MAAP unit :=
match q with
| [] => upd_mc (set_timer_queue [])
| pDel :: rest =>
    r ← load_rg (Some pDel);
    _ ← upd_mc (set_timer_queue rest);
    _ ← (if decide (state r = MAAP_STATE_RELEASED) then free_rg pDel else mret tt);
    drop_queue rest
end.

(** The second loop: remove the root until the tree is empty. *)
Fixpoint drop_ranges (fuel : nat) : MAAP unit :=
match fuel with
| O => raise FuelExhausted
| S fuel =>
    c ← gets mc;
    match ranges c with
    | None => mret tt
    | Some _ =>
        n ← load_iv (ranges c);
        _ ← remove_range_interval (ranges c);
        _ ← match data n with Some r => free_rg r | None => mret tt end;
        drop_ranges fuel
    end
end.

Definition maap_deinit_client : MAAP unit :=
c ← gets mc;
if initialized c then
  _ ← drop_queue (timer_queue c);
  h ← gets ivs;
  _ ← drop_ranges (fuel_of h);
  _ ← upd_mc (fun c => set_net None (set_timer None c));
  _ ← upd_mc (set_notifies []);
  upd_mc (set_initialized false)
else mret tt.

Definition maap_reserve_range (who attempt_base length : Z) : MAAP Z :=
c ← gets mc;
if negb (initialized c) then
  _ ← inform_not_acquired who (-1) length MAAP_NOTIFY_ERROR_REQUIRES_INITIALIZATION;
  mret (-1)
else if (0xFFFF <? length) || (range_len c <? length) then
  _ ← inform_not_acquired who (-1) length MAAP_NOTIFY_ERROR_RESERVE_NOT_AVAILABLE;
  mret (-1)
else
  range ← new_Range (mkRange 0 MAAP_STATE_INVALID 0 false (mkTime 0 0) None 0);
  match range with
  | None =>
      _ ← inform_not_acquired who (-1) length MAAP_NOTIFY_ERROR_OUT_OF_MEMORY;
      mret (-1)
  | Some range =>
      let i := s32 (maxid c + 1) in
      _ ← upd_mc (set_maxid i);
      now ← Time_setFromMonotonicTimer;
      _ ← store_rg (Some range)
            (fun _ => mkRange i MAAP_STATE_PROBING MAAP_PROBE_RETRANSMITS false now None who);
      rv ← assign_interval range attempt_base length;
      if rv <? 0 then
        _ ← inform_not_acquired who (-1) length MAAP_NOTIFY_ERROR_RESERVE_NOT_AVAILABLE;
        _ ← free_rg range;
        mret (-1)
      else
        _ ← inform_acquiring range;
        _ ← schedule_timer range;
        _ ← start_timer;
        _ ← send_probe range;
        mret i
  end.

Definition maap_release_range (who i : Z) : MAAP Z :=
c ← gets mc;
if negb (initialized c) then
  _ ← inform_released who i None MAAP_NOTIFY_ERROR_REQUIRES_INITIALIZATION;
  mret (-1)
else
  found ← find_range (fun s => bool_decide (s <> MAAP_STATE_RELEASED)) i (timer_queue c);
  match found with
  | Some range =>
      _ ← inform_released who i found MAAP_NOTIFY_ERROR_NONE;
      r ← load_rg found;
      _ ← (if who =? sender r then mret tt
           else inform_released (sender r) i found MAAP_NOTIFY_ERROR_NONE);
      _ ← remove_range_interval (interval r);
      _ ← store_rg found (set_state MAAP_STATE_RELEASED);
      mret 0
  | None =>
      _ ← inform_released who i None MAAP_NOTIFY_ERROR_RELEASE_INVALID_ID;
      mret (-1)
  end.

Definition maap_range_status (who i : Z) : MAAP unit :=
c ← gets mc;
if negb (initialized c) then
  inform_status who i None MAAP_NOTIFY_ERROR_REQUIRES_INITIALIZATION
else
  found ← find_range (fun s => bool_decide (s = MAAP_STATE_DEFENDING)) i (timer_queue c);
  match found with
  | Some _ => inform_status who i found MAAP_NOTIFY_ERROR_NONE
  | None => inform_status who i None MAAP_NOTIFY_ERROR_RELEASE_INVALID_ID
  end.

(** ** Incoming packets *)

Definition search_iv (start count : Z) : MAAP ptr :=
c ← gets mc;
h ← gets ivs;
lift (search_interval h (ranges c) start count).

(** Flag the ranges that overlap the packet; returns their number. *)
Fixpoint flag_loop (fuel : nat) (iv : ptr) (start count : Z) : MAAP nat :=
match fuel with
| O => raise FuelExhausted
| S fuel =>
    match iv with
    | None => mret 0%nat
    | Some p =>
        n ← load_iv iv;
        if interval_check_overlap n start count then
          _ ← store_rg (data n) (set_overlapping true);
          nx ← next_iv p;
          k ← flag_loop fuel nx start count;
          mret (S k)
        else mret 0%nat
    end
end.

(** The first interval from [iv] on whose range is still flagged. *)
Fixpoint find_flagged (fuel : nat) (iv : ptr) : MAAP ptr :=
match fuel with
| O => raise FuelExhausted
| S fuel =>
    match iv with
    | None => mret None
    | Some p =>
        n ← load_iv iv;
        r ← load_rg (data n);
        if overlapping r then mret iv
        else nx ← next_iv p; find_flagged fuel nx
    end
end.

(** [int range_size = iv->high - iv->low + 1]. *)
Definition range_size (n : Interval) : Z := s32 (u32 (high n - low n + 1)).

(** A conflict with a range that is still probing (lines 900-932). *)
Definition conflict_probing (p : MAAP_Packet) (iv range : loc) : MAAP unit :=
c ← gets mc;
if (message_type p =? MAAP_PROBE) && compare_mac_addresses (src_mac c) (SA p) then mret tt
else
  n ← load_iv (Some iv);
  let size := range_size n in
  _ ← store_iv (Some iv) (set_data None);
  rv ← assign_interval range 0 (u16 size);
  if rv <? 0 then
    r ← load_rg (Some range);
    _ ← inform_not_acquired (sender r) (id r) size MAAP_NOTIFY_ERROR_RESERVE_NOT_AVAILABLE;
    _ ← remove_range_interval (Some iv);
    store_rg (Some range) (set_state MAAP_STATE_RELEASED)
  else
    _ ← inform_acquiring range;
    _ ← remove_range_interval (Some iv);
    _ ← store_rg (Some range) (set_counter MAAP_PROBE_RETRANSMITS);
    _ ← schedule_timer range;
    _ ← send_probe range;
    mret tt.

(** Give a defended range up (lines 950-996). *)
Definition yield (iv range : loc) : MAAP unit :=
n ← load_iv (Some iv);
let size := range_size n in
r ← load_rg (Some range);
new ← new_Range (mkRange 0 MAAP_STATE_INVALID 0 false (mkTime 0 0) None 0);
_ ← match new with
    | None => inform_yielded (sender r) (id r) (Some range) MAAP_NOTIFY_ERROR_OUT_OF_MEMORY
    | Some new_range =>
        now ← Time_setFromMonotonicTimer;
        _ ← store_rg new (fun _ => mkRange (id r) MAAP_STATE_PROBING MAAP_PROBE_RETRANSMITS
                                     false now None (sender r));
        rv ← assign_interval new_range 0 (u16 size);
        if rv <? 0 then
          _ ← inform_yielded (sender r) (id r) (Some range)
                MAAP_NOTIFY_ERROR_RESERVE_NOT_AVAILABLE;
          free_rg new_range
        else
          _ ← schedule_timer new_range;
          _ ← send_probe new_range;
          _ ← inform_yielded (sender r) (id r) (Some range) MAAP_NOTIFY_ERROR_NONE;
          inform_acquiring new_range
    end;
_ ← remove_range_interval (Some iv);
store_rg (Some range) (set_state MAAP_STATE_RELEASED).

(** A conflict with a defended range (lines 934-997). *)
Definition conflict_defending (p : MAAP_Packet) (iv range : loc) : MAAP unit :=
c ← gets mc;
if message_type p =? MAAP_PROBE then
  _ ← send_defend range (requested_start_address p) (requested_count p) (SA p); mret tt
else if compare_mac_addresses (src_mac c) (SA p) then mret tt
else yield iv range.

(** One round of the [while] loop. *)
Definition conflict_step (p : MAAP_Packet) (start : Z) : MAAP unit :=
first ← search_iv start (requested_count p);
h ← gets ivs;
iv ← find_flagged (fuel_of h) first;
match iv with
| None => raise (AssertFailed 895)
| Some l =>
    n ← load_iv iv;
    match data n with
    | None => raise NullDeref
    | Some range =>
        _ ← store_rg (Some range) (set_overlapping false);
        r ← load_rg (Some range);
        match state r with
        | MAAP_STATE_PROBING => conflict_probing p l range
        | MAAP_STATE_DEFENDING => conflict_defending p l range
        | _ => mret tt
        end
    end
end.

Fixpoint conflict_loop (num_overlaps : nat) (p : MAAP_Packet) (start : Z) : MAAP unit :=
match num_overlaps with
| O => mret tt
| S k => _ ← conflict_step p start; conflict_loop k p start
end.

(** The body of [maap_handle_packet] once the packet is unpacked (lines 825-1004). *)
Definition handle_parsed (p : MAAP_Packet) : MAAP Z :=
if negb (Ethertype p =? MAAP_TYPE) || negb (subtype p =? MAAP_SUBTYPE)
   || negb (control_data_length p =? 16) then mret (-1)
else if negb (version p =? 0) then mret (-1)
else if (message_type p <? MAAP_PROBE) || (MAAP_ANNOUNCE <? message_type p) then mret (-1)
else
  c ← gets mc;
  let own_base := address_base c in
  let own_max := u64 (address_base c + range_len c - 1) in
  let incoming_base := requested_start_address p in
  let incoming_max := u64 (requested_start_address p + requested_count p - 1) in
  if (incoming_max <? own_base) || (own_max <? incoming_base) then mret 0
  else
    let start := u32 (requested_start_address p - address_base c) in
    first ← search_iv start (requested_count p);
    h ← gets ivs;
    num_overlaps ← flag_loop (fuel_of h) first start (requested_count p);
    _ ← conflict_loop num_overlaps p start;
    _ ← start_timer;
    mret 0.

(** The upper bytes [unpack_maap] leaves uninitialised before it shifts them out
  are zero here: [unpack_spec] shows that they do not matter. *)
Definition maap_handle_packet (stream : list Z) (len : Z) : MAAP Z :=
if len <? MAAP_PKT_SIZE then mret (-1)
else
  p ← lift (unpack_maap stream [0; 0] [0; 0] [0; 0] [0; 0]);
  handle_parsed p.

(** [announce_buffer] is uninitialised in the source; [pack_maap] writes every
  byte that [unpack_maap] reads, so zeroes stand for its contents. *)
Definition maap_yield_range (who i : Z) : MAAP Z :=
c ← gets mc;
if negb (initialized c) then
  _ ← inform_yielded who i None MAAP_NOTIFY_ERROR_REQUIRES_INITIALIZATION;
  mret (-1)
else
  found ← find_range (fun s => bool_decide (s = MAAP_STATE_DEFENDING)) i (timer_queue c);
  match found with
  | Some range =>
      p ← lift (init_packet 0x010000000000 0x010000000000);
      start ← get_start_address range;
      count ← get_count range;
      announce_buffer ← lift (pack_maap (set_request MAAP_ANNOUNCE start (u16 count) p)
                                (replicate MAAP_NET_BUFFER_SIZE 0));
      _ ← maap_handle_packet announce_buffer (Z.of_nat MAAP_NET_BUFFER_SIZE);
      mret 0
  | None =>
      _ ← inform_yielded who i None MAAP_NOTIFY_ERROR_RELEASE_INVALID_ID;
      mret (-1)
  end.

(** ** Timer expiry *)

Definition handle_probe_timer (range : loc) : MAAP Z :=
r ← load_rg (Some range);
if counter r =? 0 then
  _ ← inform_acquired range MAAP_NOTIFY_ERROR_NONE;
  _ ← store_rg (Some range) (set_state MAAP_STATE_DEFENDING);
  _ ← schedule_timer range;
  _ ← send_announce range;
  mret 0
else
  _ ← store_rg (Some range) (set_counter (s32 (counter r - 1)));
  _ ← schedule_timer range;
  _ ← send_probe range;
  mret 0.

Definition handle_defend_timer (range : loc) : MAAP Z :=
_ ← schedule_timer range;
_ ← send_announce range;
mret 0.

Definition timer_step (range : loc) (rest : list loc) : MAAP unit :=
_ ← upd_mc (set_timer_queue rest);
r ← load_rg (Some range);
match state r with
| MAAP_STATE_PROBING => _ ← handle_probe_timer range; mret tt
| MAAP_STATE_DEFENDING => _ ← handle_defend_timer range; mret tt
| MAAP_STATE_RELEASED => free_rg range
| MAAP_STATE_INVALID => mret tt
end.

Fixpoint timer_loop (fuel : nat) (currenttime : Time) : MAAP unit :=
match fuel with
| O => raise FuelExhausted
| S fuel =>
    c ← gets mc;
    match timer_queue c with
    | [] => mret tt
    | range :: rest =>
        r ← load_rg (Some range);
        if Time_passed currenttime (next_act_time r) then
          _ ← timer_step range rest;
          timer_loop fuel currenttime
        else mret tt
    end
end.

(** A range is rescheduled behind [currenttime], so every range of the queue is
  handled at most once. *)
Definition maap_handle_timer : MAAP Z :=
currenttime ← Time_setFromMonotonicTimer;
c ← gets mc;
_ ← timer_loop (S (length (timer_queue c))) currenttime;
_ ← start_timer;
mret 0.

(** [remaining] is the answer of [Time_remaining] for the timer. *)
Definition maap_get_delay_to_next_timer (remaining : Z) (c : Maap_Client) : Z :=
match timer c, timer_queue c with
| None, _ | _, [] => 60 * 60 * 1000000000
| Some _, _ :: _ => remaining
end.

End Client.
