(* ===== verification/MaapTheory.v ===== *)
(** * The MAAP client: invariant and operation specifications

    The ranges, the interval nodes and the timer queue are three views of one set
    of reservations.  [Inv] ties them together; every operation is specified by a
    weakest precondition on the parts it changes, proved against the laws of
    [IntervalStore] only.  [tolerated] are the faults the source can run into, each with
    the cause it needs. *)

From S2P Require Import Prelude.
From S2P Require Import Intervals.
From S2P Require Import IntervalsTheory.
From S2P Require Import MaapPacket.
From S2P Require Import MaapNet.
From S2P Require Import Maap.

Arguments ASSIGN_ATTEMPTS : simpl never.
Arguments check_queue : simpl never.
Lemma attempts_pos : exists k, ASSIGN_ATTEMPTS = S k.
Proof. by exists 999%nat. Qed.

#[global] Opaque ASSIGN_ATTEMPTS.

(** ** Views and well-formedness *)

(** The ranges the entries belong to. *)
Definition owners (cs : list content) : list loc := omap c_data cs.
Arguments owners : simpl never.

Definition live (r : Range) : Prop :=
  state r = MAAP_STATE_PROBING \/ state r = MAAP_STATE_DEFENDING.

(** A range without the back pointer to its node, which moves between nodes. *)
Definition meta (r : Range) : Range := set_interval None r.

(** Every owned node is the one its range points to. *)
Definition linked (R : gmap loc Range) (l : entries) : Prop :=
  forall p c r, (p, c) ∈ l -> c_data c = Some r ->
  exists rg, R !! r = Some rg /\ interval rg = Some p.

Definition in_pool (len : Z) (c : content) : Prop :=
  0 <= c_low c <= c_high c /\ c_high c < len /\ c_high c - c_low c < 0xFFFF.

(** What the tree of reserved intervals and the range objects agree on. *)
Record Good (len : Z) (cs : list content) (R : gmap loc Range) : Prop := {
  good_pool : Forall (in_pool len) cs;
  good_data : Forall (fun c => is_Some (c_data c)) cs;
  good_nodup : NoDup (owners cs);
  good_owner r : r ∈ owners cs <-> exists rg, R !! r = Some rg /\ live rg;
  good_state r rg : R !! r = Some rg -> live rg \/ state rg = MAAP_STATE_RELEASED
}.

Definition due (R : gmap loc Range) (a b : loc) : Prop :=
  forall x y, R !! a = Some x -> R !! b = Some y -> time_le (next_act_time x) (next_act_time y).

(** The timer queue holds every range object once, in the order they are due. *)
Record Queue (R : gmap loc Range) (q : list loc) : Prop := {
  queue_nodup : NoDup q;
  queue_all r : r ∈ q <-> is_Some (R !! r);
  queue_sorted : StronglySorted (due R) q
}.

(** The configuration and the resources of an initialized client. *)
Record Client (c : Maap_Client) : Prop := {
  cl_init : initialized c = true;
  cl_dest : is_u48 (dest_mac c) /\ dest_mac c <> 0;
  cl_src : is_u48 (src_mac c) /\ src_mac c <> 0;
  cl_base : 0 <= address_base c /\ address_base c + range_len c <= 2 ^ 48;
  cl_len : 0 < range_len c < 2 ^ 32;
  cl_timer : is_Some (timer c);
  cl_net : exists n, net c = Some n /\ net_wf n
}.

Definition unflagged (R : gmap loc Range) : Prop :=
  forall r rg, R !! r = Some rg -> overlapping rg = false.

(** The documented behaviour of the environment: [random] is never negative, the
    monotonic clock yields normalised times and does not run backwards. *)
Record env_ok (E : Env) : Prop := {
  env_random_ok n : 0 <= env_random E n;
  env_clock_normal n : normal (env_clock E n);
  env_clock_mono i j : (i <= j)%nat -> time_le (env_clock E i) (env_clock E j)
}.

(** Two blocks share an address. *)
Definition overlaps (start size : Z) (c : content) : Prop :=
  c_low c <= start + size - 1 /\ start <= c_high c.

(** The block [assign_interval] tries with the [k]th answer of [random] shares an
    address with one of [cs]. *)
Definition taken (E : Env) (pool size : Z) (cs : list content) (k : nat) : Prop :=
  Exists (overlaps (env_random E k mod (pool + 1 - size)) size) cs.

(** The only free block among the attempts that start with the [n]th answer is
    the last one. *)
Definition last_only (E : Env) (pool size : Z) (cs : list content) (n : nat) : Prop :=
  (forall j, (j < pred ASSIGN_ATTEMPTS)%nat -> taken E pool size cs (n + j)) /\
  ~ taken E pool size cs (n + pred ASSIGN_ATTEMPTS).

(** Such a run of answers exists, for no more than [k] blocks that are taken. *)
Definition late_draw (E : Env) (pool : Z) (k : nat) : Prop :=
  exists size cs n, 0 < size <= 0xFFFF /\ (length cs <= k)%nat /\ last_only E pool size cs n.

(** Faults the operations may end in, each with its cause: the assertion of
    [remove_range_interval] on a node without owner, if [late] says that
    [assign_interval] may have left one; the queue sanity test, if there may be
    more than 100,000 ranges, [cap] being the most there can be; and what an
    unchecked allocation that fails leads to. *)
Definition tolerated (E : Env) (cap : nat) (late : Prop) (f : fault) : Prop :=
  (f = AssertFailed 267 /\ late) \/
  (f = AssertFailed 613 /\ 100000 < Z.of_nat cap) \/
  ((f = NullDeref \/ f = AssertFailed 124) /\ exists n, env_malloc E n = false).

Lemma tolerated_malloc E cap late n f :
  env_malloc E n = false -> f = NullDeref \/ f = AssertFailed 124 -> tolerated E cap late f.
Proof. unfold tolerated. eauto 10. Qed.

Lemma owners_perm cs cs' : cs ≡ₚ cs' -> owners cs ≡ₚ owners cs'.
Proof. unfold owners. by intros ->. Qed.

#[global] Instance owners_proper : Proper ((≡ₚ) ==> (≡ₚ)) owners.
Proof. exact owners_perm. Qed.

#[global] Instance Good_perm len : Proper ((≡ₚ) ==> (=) ==> impl) (Good len).
Proof.
  intros cs cs' Hp R R' <- [Hpool Hdata Hnd Hown Hst]. pose proof (owners_perm _ _ Hp) as Ho.
  split; rewrite <- ?Hp, <- ?Ho; auto. intros r. rewrite <- Ho. apply Hown.
Qed.

Lemma owners_cons c cs : owners (c :: cs) = from_option (fun r => [r]) [] (c_data c) ++ owners cs.
Proof. unfold owners. cbn. by destruct (c_data c). Qed.

Lemma owners_elem r cs : r ∈ owners cs <-> exists c, c ∈ cs /\ c_data c = Some r.
Proof. unfold owners. rewrite list_elem_of_omap. naive_solver. Qed.

(** ** Rules for the primitive steps *)

Section Rules.
Context (T : fault -> Prop).

Lemma wp_load_iv p n Q w : ivs w !! p = Some n -> Q n w -> wp T (load_iv (Some p)) Q w.
Proof. intros Hp HQ. apply wp_bind, wp_gets. eapply wp_lift; eauto using load_Some. Qed.

Lemma wp_load_rg p r Q w : rgs w !! p = Some r -> Q r w -> wp T (load_rg (Some p)) Q w.
Proof. intros Hp HQ. apply wp_bind, wp_gets. eapply wp_lift; eauto using load_Some. Qed.

Lemma wp_store_iv p n f Q w :
  ivs w !! p = Some n -> Q tt (with_ivs (<[p := f n]> (ivs w)) w) -> wp T (store_iv (Some p) f) Q w.
Proof. intros Hp HQ. apply wp_bind, wp_gets, wp_bind. eapply wp_lift; eauto using store_Some. Qed.

Lemma wp_store_rg p r f Q w :
  rgs w !! p = Some r -> Q tt (with_rgs (<[p := f r]> (rgs w)) w) -> wp T (store_rg (Some p) f) Q w.
Proof. intros Hp HQ. apply wp_bind, wp_gets, wp_bind. eapply wp_lift; eauto using store_Some. Qed.

Lemma wp_free_rg p r Q w :
  rgs w !! p = Some r -> Q tt (with_rgs (delete p (rgs w)) w) -> wp T (free_rg p) Q w.
Proof. intros Hp HQ. apply wp_bind, wp_gets, wp_bind. eapply wp_lift; eauto using load_Some. Qed.

Lemma wp_random E Q w :
  Q (env_random E (n_random w))
    (mkWorld (mc w) (ivs w) (rgs w) (S (n_random w)) (n_clock w) (n_malloc w)) ->
  wp T (random E) Q w.
Proof. done. Qed.

Lemma wp_clock E Q w :
  Q (env_clock E (n_clock w))
    (mkWorld (mc w) (ivs w) (rgs w) (n_random w) (S (n_clock w)) (n_malloc w)) ->
  wp T (Time_setFromMonotonicTimer E) Q w.
Proof. done. Qed.

Lemma wp_malloc E Q w :
  Q (env_malloc E (n_malloc w))
    (mkWorld (mc w) (ivs w) (rgs w) (n_random w) (n_clock w) (S (n_malloc w))) ->
  wp T (malloc E) Q w.
Proof. done. Qed.

Lemma wp_assert line b Q w : b = true -> Q tt w -> wp T (assert_at line b) Q w.
Proof. intros -> H. exact H. Qed.
End Rules.

(** One step of a computation; loads and stores find the object among the
    hypotheses. *)
Ltac wp_prim :=
  lazymatch goal with
  | |- wp _ (mret _) _ _ => apply wp_ret
  | |- wp _ (gets _) _ _ => apply wp_gets
  | |- wp _ (modify _) _ _ => apply wp_modify
  | |- wp _ (upd_mc _) _ _ => unfold upd_mc; apply wp_modify
  | |- wp _ (load_iv (Some _)) _ _ => eapply wp_load_iv; [eassumption|]
  | |- wp _ (load_rg (Some _)) _ _ => eapply wp_load_rg; [eassumption|]
  | |- wp _ (store_iv (Some _) _) _ _ => eapply wp_store_iv; [eassumption|]
  | |- wp _ (store_rg (Some _) _) _ _ => eapply wp_store_rg; [eassumption|]
  | |- wp _ (random _) _ _ => apply wp_random
  | |- wp _ (Time_setFromMonotonicTimer _) _ _ => apply wp_clock
  | |- wp _ (malloc _) _ _ => apply wp_malloc
  | |- wp _ (_ ≫= _) _ _ => apply wp_bind
  end.

Ltac wp_go := repeat (wp_prim; cbn [mc ivs rgs n_random n_clock n_malloc with_mc with_ivs with_rgs]).

(** Use a specification for the first call of the computation. *)
Tactic Notation "wp_use" uconstr(spec) "as" simple_intropattern(x) :=
  eapply wp_step; [eapply spec|cbn beta; intros ? ? x];
  cbn [mc ivs rgs n_random n_clock n_malloc with_mc with_ivs with_rgs].

(** The same for the last call, whose result is the result. *)
Tactic Notation "wp_last" uconstr(spec) "as" simple_intropattern(x) :=
  eapply wp_mono; [eapply spec|cbn beta; intros ? ? x];
  cbn [mc ivs rgs n_random n_clock n_malloc with_mc with_ivs with_rgs].

Section Notify.
Context (E : Env) {cap : nat} {late : Prop}.

Lemma add_notify_wp who mn c h R nr nc nm :
  wp (tolerated E cap late) (add_notify E who mn)
    (fun _ w => w = mkWorld (set_notifies (notifies c ++ [(who, mn)]) c) h R nr nc (S nm))
    (mkWorld c h R nr nc nm).
Proof.
  unfold add_notify. wp_go. destruct (env_malloc E nm) eqn:Em.
  - done.
  - apply wp_raise. eapply tolerated_malloc; eauto.
Qed.

(** [range] is an object whose back pointer leads to the node [n]. *)
Definition points (w : world) (range : loc) (rg : Range) (n : Interval) : Prop :=
  rgs w !! range = Some rg /\ exists p, interval rg = Some p /\ ivs w !! p = Some n.

Definition first_address (c : Maap_Client) (n : Interval) : Z := u64 (address_base c + low n).

Lemma get_start_wp T range rg n Q w :
  points w range rg n -> Q (first_address (mc w) n) w -> wp T (get_start_address range) Q w.
Proof.
  intros (? & p & Ei & ?) HQ. unfold get_start_address. wp_go. rewrite Ei. by wp_go.
Qed.

Lemma get_end_wp T range rg n Q w :
  points w range rg n -> Q (u64 (address_base (mc w) + high n)) w ->
  wp T (get_end_address range) Q w.
Proof.
  intros (? & p & Ei & ?) HQ. unfold get_end_address. wp_go. rewrite Ei. by wp_go.
Qed.

Lemma get_count_wp T range rg n Q w :
  points w range rg n -> Q (range_size n) w -> wp T (get_count range) Q w.
Proof.
  intros (? & p & Ei & ?) HQ. unfold get_count. wp_go. rewrite Ei. by wp_go.
Qed.

(** The notification a range gives rise to, and the effect of queueing it. *)
Definition note_of (c : Maap_Client) (k : Maap_Notify_Tag) (i : Z) (n : Interval)
    (res : Maap_Notify_Error) : Maap_Notify :=
  mkNotify k i (first_address c n) (u32 (range_size n)) res.

Definition notified (who : Z) (mn : Maap_Notify) (w w' : world) : Prop :=
  w' = mkWorld (set_notifies (notifies (mc w) ++ [(who, mn)]) (mc w)) (ivs w) (rgs w)
         (n_random w) (n_clock w) (S (n_malloc w)).

Lemma notify_wp who mn w : wp (tolerated E cap late) (add_notify E who mn) (fun _ => notified who mn w) w.
Proof. destruct w. apply add_notify_wp. Qed.

Ltac note_tac :=
  repeat first
    [ eapply notify_wp
    | eapply get_start_wp; [eassumption|]
    | eapply get_count_wp; [eassumption|]
    | wp_prim ].

Lemma inform_acquiring_wp range rg n w : points w range rg n ->
  wp (tolerated E cap late) (inform_acquiring E range)
    (fun _ => notified (sender rg)
       (note_of (mc w) MAAP_NOTIFY_ACQUIRING (id rg) n MAAP_NOTIFY_ERROR_NONE) w) w.
Proof. intros Hp. pose proof (proj1 Hp). unfold inform_acquiring, note_start, note_count. note_tac. Qed.

Lemma inform_acquired_wp range rg n res w : points w range rg n ->
  wp (tolerated E cap late) (inform_acquired E range res)
    (fun _ => notified (sender rg) (note_of (mc w) MAAP_NOTIFY_ACQUIRED (id rg) n res) w) w.
Proof. intros Hp. pose proof (proj1 Hp). unfold inform_acquired, note_start, note_count. note_tac. Qed.

Lemma inform_released_wp who i range rg n res w : points w range rg n ->
  wp (tolerated E cap late) (inform_released E who i (Some range) res)
    (fun _ => notified who (note_of (mc w) MAAP_NOTIFY_RELEASED i n res) w) w.
Proof. intros Hp. unfold inform_released, note_start, note_count. note_tac. Qed.

Lemma inform_status_wp who i range rg n res w : points w range rg n ->
  wp (tolerated E cap late) (inform_status E who i (Some range) res)
    (fun _ => notified who (note_of (mc w) MAAP_NOTIFY_STATUS i n res) w) w.
Proof. intros Hp. unfold inform_status, note_start, note_count. note_tac. Qed.

Lemma inform_yielded_wp who i range rg n res w : points w range rg n ->
  wp (tolerated E cap late) (inform_yielded E who i (Some range) res)
    (fun _ => notified who (note_of (mc w) MAAP_NOTIFY_YIELDED i n res) w) w.
Proof. intros Hp. unfold inform_yielded, note_start, note_count. note_tac. Qed.

Lemma inform_not_acquired_wp who i size res w :
  wp (tolerated E cap late) (inform_not_acquired E who i size res)
    (fun _ => notified who (mkNotify MAAP_NOTIFY_ACQUIRED i 0 (u32 size) res) w) w.
Proof. apply notify_wp. Qed.
End Notify.

(** ** Sending *)

Definition sent (p : MAAP_Packet) (w w' : world) : Prop :=
  exists n n' nm rest, net (mc w) = Some n /\ net_wf n' /\
    queued n' ≡ₚ (wire p ++ rest) :: queued n /\
    w' = mkWorld (set_net (Some n') (mc w)) (ivs w) (rgs w) (n_random w) (n_clock w) nm.

Section Send.
Context (E : Env) {cap : nat} {late : Prop}.

Lemma send_packet_wp p n w : net (mc w) = Some n -> net_wf n -> wf_packet p ->
  wp (tolerated E cap late) (send_packet E p) (fun _ => sent p w) w.
Proof.
  intros Hn Hwf Hp. unfold send_packet. apply wp_bind, wp_gets. rewrite Hn.
  destruct (Net_send_spec n Hwf) as (b & n1 & old & Hg & Hc & Hlen & Hq).
  destruct (Hq (wire p ++ drop 42 old)) as (n2 & Hq2 & Hwf2 & Hperm).
  { rewrite length_app, length_wire, length_drop, Hlen. done. }
  assert (Hfin : forall nm, wp (tolerated E cap late)
    ('(pbuf, n) ← lift (Net_getPacketBuffer true n);
     old ← match Net_contents n pbuf with Some old => mret old | None => raise WildPointer end;
     bs ← lift (pack_maap p old);
     '(ret, n) ← lift (Net_queuePacket (Net_write n pbuf bs) pbuf);
     _ ← upd_mc (set_net (Some n)); mret ret) (fun _ => sent p w)
    (mkWorld (mc w) (ivs w) (rgs w) (n_random w) (n_clock w) nm)).
  { intros nm. apply wp_bind. eapply wp_lift; [exact Hg|]. cbn beta iota. rewrite Hc. wp_go.
    eapply wp_lift; [by apply pack_maap_spec; [|rewrite Hlen; unfold MAAP_NET_BUFFER_SIZE; lia]|].
    wp_go. eapply wp_lift; [exact Hq2|]. wp_go. exists n, n2, nm, (drop 42 old). auto. }
  destruct w as [c h R nr nc nm]. cbn in *. destruct (first_in BUFFER_FREE (net_buffer n)) eqn:Ef.
  - apply wp_bind, wp_ret. apply (Hfin nm).
  - apply wp_bind, wp_malloc. cbn [mc ivs rgs n_random n_clock n_malloc]. destruct (env_malloc E nm) eqn:Em; [apply (Hfin (S nm))|].
    apply wp_bind. unfold Net_getPacketBuffer. rewrite Ef. cbn. eapply tolerated_malloc; eauto.
Qed.

Definition base_packet (c : Maap_Client) : MAAP_Packet :=
  mkPacket (dest_mac c) (src_mac c) MAAP_TYPE MAAP_SUBTYPE 0 0 0 1 16 0 0 0 0 0.

Lemma init_packet_client c : Client c -> init_packet (dest_mac c) (src_mac c) = Ok (base_packet c).
Proof.
  intros [_ [_ Hd] [_ Hs] _ _ _ _]. unfold init_packet, c_assert.
  by rewrite !(proj2 (Z.eqb_neq _ _)).
Qed.

(** The request for the addresses of a node. *)
Definition request (c : Maap_Client) (mt : Z) (n : Interval) : MAAP_Packet :=
  set_request mt (first_address c n) (u16 (range_size n)) (base_packet c).

(** The reply to a request that conflicts with a node: it carries the request
    and the intersection of both blocks. *)
Definition defence (c : Maap_Client) (n : Interval) (start count destination : Z) : MAAP_Packet :=
  let lo := Z.max (first_address c n) start in
  let hi := Z.min (u64 (address_base c + high n)) (u64 (start + count - 1)) in
  set_conflict destination lo (u16 (hi - lo + 1)) (set_request MAAP_DEFEND start count (base_packet c)).

Definition node_in_pool (c : Maap_Client) (n : Interval) : Prop :=
  in_pool (range_len c) (Content (low n) (high n) (data n)).

Lemma first_address_pool c n : Client c -> node_in_pool c n ->
  first_address c n = address_base c + low n /\ is_u48 (first_address c n).
Proof.
  intros [_ _ _ Hb Hl _ _] [H1 [H2 H3]]. unfold first_address, is_u48. cbn in *.
  rewrite u64_small; unfold is_u64; lia.
Qed.

Lemma request_wf c mt n : Client c -> node_in_pool c n -> 0 <= mt < 16 -> wf_packet (request c mt n).
Proof.
  intros Hc Hn Hm. destruct (first_address_pool c n Hc Hn). pose proof (u16_bound (range_size n)).
  destruct Hc as [_ [? _] [? _] _ _ _ _].
  split; cbn; auto; unfold is_u48, is_u16, is_u8, is_u64; lia || done.
Qed.

Lemma defence_wf c n start count destination : Client c -> node_in_pool c n ->
  is_u48 start -> is_u16 count -> is_u48 destination ->
  wf_packet (defence c n start count destination).
Proof.
  intros Hc Hn Hs Hcnt Hd. destruct (first_address_pool c n Hc Hn) as [_ Hf].
  destruct Hc as [_ [? _] [? _] _ _ _ _].
  split; cbn; auto using u16_bound; unfold is_u48, is_u16, is_u8, is_u64 in *; lia || done.
Qed.

Lemma send_probe_wp range rg n w : Client (mc w) -> points w range rg n -> node_in_pool (mc w) n ->
  wp (tolerated E cap late) (send_probe E range) (fun _ => sent (request (mc w) MAAP_PROBE n) w) w.
Proof.
  intros Hc Hp Hn. unfold send_probe. wp_go. eapply wp_lift; [by apply init_packet_client|]. cbn beta.
  wp_go. eapply get_start_wp; [done|]. cbn beta. wp_go. eapply get_count_wp; [done|].
  destruct (cl_net _ Hc) as (net0 & ? & ?). by eapply send_packet_wp; eauto; apply request_wf.
Qed.

Lemma send_announce_wp range rg n w : Client (mc w) -> points w range rg n -> node_in_pool (mc w) n ->
  wp (tolerated E cap late) (send_announce E range) (fun _ => sent (request (mc w) MAAP_ANNOUNCE n) w) w.
Proof.
  intros Hc Hp Hn. unfold send_announce. wp_go. eapply wp_lift; [by apply init_packet_client|]. cbn beta.
  wp_go. eapply get_start_wp; [done|]. cbn beta. wp_go. eapply get_count_wp; [done|].
  destruct (cl_net _ Hc) as (net0 & ? & ?). by eapply send_packet_wp; eauto; apply request_wf.
Qed.

Lemma send_defend_wp range rg n start count destination w :
  Client (mc w) -> points w range rg n -> node_in_pool (mc w) n ->
  is_u48 start -> is_u16 count -> is_u48 destination ->
  wp (tolerated E cap late) (send_defend E range start count destination)
    (fun _ => sent (defence (mc w) n start count destination) w) w.
Proof.
  intros Hc Hp Hn Hs Hcnt Hd. unfold send_defend. wp_go.
  eapply wp_lift; [by apply init_packet_client|]. cbn beta.
  wp_go. eapply get_start_wp; [done|]. cbn beta. wp_go. eapply get_end_wp; [done|]. cbn beta.
  destruct (cl_net _ Hc) as (net0 & ? & ?).
  match goal with |- wp _ (send_packet _ ?p) _ _ =>
    replace p with (defence (mc w) n start count destination) end.
  - by eapply send_packet_wp; eauto; apply defence_wf.
  - unfold defence. cbn zeta. repeat case_match; repeat f_equal; lia.
Qed.
End Send.

(** ** The timer queue *)

Definition others (range : loc) (q : list loc) : list loc := filter (fun r => r <> range) q.
Arguments others : simpl never.

Lemma others_elem range q r : r ∈ others range q <-> r <> range /\ r ∈ q.
Proof. unfold others. by rewrite list_elem_of_filter. Qed.

Lemma others_id range q : range ∉ q -> others range q = q.
Proof.
  unfold others. induction q as [|r q IH]; [done|]. intros [? ?]%not_elem_of_cons.
  rewrite filter_cons_True by done. by rewrite IH.
Qed.

Lemma others_cons range r q :
  others range (r :: q) = if decide (r = range) then others range q else r :: others range q.
Proof.
  unfold others. case_decide; [by rewrite filter_cons_False by auto|by rewrite filter_cons_True].
Qed.

Lemma Sorted_filter {A} (R : A -> A -> Prop) (P : A -> Prop) `{!forall x, Decision (P x)} l :
  StronglySorted R l -> StronglySorted R (filter P l).
Proof.
  induction 1 as [|x l Hl IH Hx]; [constructor|]. destruct (decide (P x)).
  - rewrite filter_cons_True by done. constructor; [done|].
    rewrite Forall_forall in *. intros y [_ Hy]%list_elem_of_filter. auto.
  - by rewrite filter_cons_False.
Qed.

Section Timers.
Context (E : Env) {cap : nat} {late : Prop}.

Lemma dequeue_wp T range q Q w : NoDup q -> (forall r, r ∈ q -> is_Some (rgs w !! r)) ->
  Q (others range q) w -> wp T (dequeue range q) Q w.
Proof.
  revert Q; induction q as [|rp q IH]; intros Q Hnd Hin HQ; cbn [dequeue]; [done|].
  destruct (Hin rp) as [rg ?]; [set_solver|]. apply NoDup_cons in Hnd as [Hrp Hnd]. wp_go.
  rewrite others_cons in HQ. destruct (decide (rp = range)) as [->|Hne].
  - apply wp_ret. by rewrite others_id in HQ.
  - apply wp_bind, IH; auto. set_solver.
Qed.

Lemma enqueue_wp T range rg q Q w :
  (forall r, r ∈ q -> is_Some (rgs w !! r)) -> rgs w !! range = Some rg ->
  StronglySorted (due (rgs w)) q ->
  (forall q', q' ≡ₚ range :: q -> StronglySorted (due (rgs w)) q' -> Q q' w) ->
  wp T (enqueue range (next_act_time rg) q) Q w.
Proof.
  intros Hin Hr. revert Q; induction q as [|rp q IH]; intros Q Hs HQ; cbn [enqueue].
  - apply wp_ret, HQ; [done|]. repeat constructor.
  - destruct (Hin rp) as [r Hrp]; [set_solver|]. wp_go. apply StronglySorted_inv in Hs as [Hs Hall].
    destruct (Time_cmp _ _ <? 0) eqn:Ec.
    + apply wp_ret, HQ; [done|]. constructor; [by constructor|].
      assert (Hd : due (rgs w) range rp).
      { intros x y Hx Hy. simplify_eq. apply Time_cmp_le. lia. }
      constructor; [done|]. eapply Forall_impl; [exact Hall|]. intros z Hz x y Hx Hy.
      etrans; [by apply (Hd x r)|by apply (Hz r y)].
    + apply wp_bind, IH; [set_solver|done|]. intros q' Hp Hs'. apply wp_ret, HQ.
      * rewrite Hp. solve_Permutation.
      * constructor; [done|]. rewrite Hp. constructor; [|done]. intros x y Hx Hy.
        rewrite Hrp in Hx. rewrite Hr in Hy. injection Hx as <-. injection Hy as <-. apply Z.ltb_ge in Ec.
        destruct (decide (time_le (next_act_time r) (next_act_time rg))) as [|Hn]; [done|].
        apply Time_cmp_lt in Hn. lia.
Qed.

Lemma check_queue_wp q : forall i w, NoDup q -> (forall r, r ∈ q -> is_Some (rgs w !! r)) ->
  StronglySorted (due (rgs w)) q -> i + Z.of_nat (length q) <= Z.of_nat cap ->
  wp (tolerated E cap late) (check_queue i q) (fun _ w' => w' = w) w.
Proof.
  induction q as [|test q IH]; intros i w Hnd Hin Hs Hcap; unfold check_queue; fold check_queue; [done|].
  cbn [length] in Hcap. destruct (i <? 100000) eqn:Ei; [|apply wp_raise; right; left; split; [done|lia]].
  destruct (Hin test) as [r Hr]; [set_solver|]. apply NoDup_cons in Hnd as [Ht Hnd].
  apply StronglySorted_inv in Hs as [Hs Hall]. apply wp_bind, wp_assert.
  { apply bool_decide_eq_true. destruct q; [done|]. intros [= ->]. set_solver. }
  wp_go. destruct q as [|next q].
  - apply wp_ret, IH; auto; [set_solver|lia].
  - destruct (Hin next) as [n Hn]; [set_solver|]. wp_go. apply wp_assert; [|apply IH; auto; [set_solver|lia]].
    apply Z.leb_le, Time_cmp_le. apply Forall_cons in Hall as [Hd _]. by apply Hd.
Qed.

(** [q'] is [q] with [range] moved to its place in the order. *)
Definition rescheduled (R : gmap loc Range) (range : loc) (q q' : list loc) : Prop :=
  q' ≡ₚ range :: others range q /\ StronglySorted (due R) q'.

(** An expiration at least one nanosecond after a clock reading not before
    reading [nc]. *)
Definition later (nc : nat) (t : Time) : Prop :=
  exists n, 0 < n /\ t = Time_add (env_clock E nc) (Time_setFromNanos n).

Lemma rand_ms_wp v Q w : 1 < v ->
  (forall d, 1 <= d <= v - 1 -> Q d (mkWorld (mc w) (ivs w) (rgs w) (S (n_random w)) (n_clock w) (n_malloc w))) ->
  wp (tolerated E cap late) (rand_ms E v) Q w.
Proof.
  intros Hv HQ. unfold rand_ms. wp_go. apply HQ.
  assert (Hv1 : 0 < v - 1) by lia. pose proof (Z.mod_pos_bound (env_random E (n_random w)) _ Hv1). lia.
Qed.

Lemma arm_wp range rg base v w : rgs w !! range = Some rg -> 0 <= base < 2 ^ 31 -> 1 < v < 2 ^ 31 ->
  wp (tolerated E cap late) (arm E range base v)
    (fun _ w' => exists t nr, later (n_clock w) t /\
       w' = mkWorld (mc w) (ivs w) (<[range := set_next_act_time t rg]> (rgs w)) nr (S (n_clock w)) (n_malloc w)) w.
Proof.
  intros Hr Hb Hv. unfold arm. apply wp_bind, rand_ms_wp; [lia|]. intros d Hd. wp_go.
  do 2 eexists. split; [|done]. eexists. split; [|done].
  rewrite u64_small; unfold is_u64; lia.
Qed.

Lemma due_insert R range x q : range ∉ q -> StronglySorted (due R) q -> StronglySorted (due (<[range := x]> R)) q.
Proof.
  intros Hr Hs. induction Hs as [|y q Hs IH Hy]; [constructor|].
  apply not_elem_of_cons in Hr as [? ?]. constructor; [auto|].
  rewrite Forall_forall in *. intros z Hz. assert (z <> range) by set_solver.
  unfold due. intros a b. rewrite !lookup_insert_ne by done. by apply Hy.
Qed.

Lemma schedule_timer_wp range rg w :
  rgs w !! range = Some rg -> live rg -> NoDup (timer_queue (mc w)) ->
  (forall r, r ∈ timer_queue (mc w) -> is_Some (rgs w !! r)) ->
  StronglySorted (due (rgs w)) (timer_queue (mc w)) ->
  (length (range :: others range (timer_queue (mc w))) <= cap)%nat ->
  wp (tolerated E cap late) (schedule_timer E range)
    (fun _ w' => exists t q nr,
       later (n_clock w) t /\ rescheduled (<[range := set_next_act_time t rg]> (rgs w)) range (timer_queue (mc w)) q /\
       w' = mkWorld (set_timer_queue q (mc w)) (ivs w) (<[range := set_next_act_time t rg]> (rgs w))
              nr (S (n_clock w)) (n_malloc w)) w.
Proof.
  intros Hr Hl Hnd Hin Hs Hcap. unfold schedule_timer. wp_go.
  eapply (wp_mono _ _ (fun _ w' => exists t nr, later (n_clock w) t /\
    w' = mkWorld (mc w) (ivs w) (<[range := set_next_act_time t rg]> (rgs w)) nr (S (n_clock w)) (n_malloc w))).
  { destruct Hl as [-> | ->]; eapply arm_wp; eauto; by vm_compute. }
  intros _ w' (t & nr & Ht & ->). wp_go.
  assert (Hin' : forall r, r ∈ timer_queue (mc w) -> is_Some (<[range := set_next_act_time t rg]> (rgs w) !! r)).
  { intros r Hrq. apply lookup_insert_is_Some'. auto. }
  apply dequeue_wp; auto. wp_go. eapply wp_load_rg; [apply lookup_insert_eq|]. cbn beta. apply wp_bind.
  eapply enqueue_wp; cbn [rgs]; [|apply lookup_insert_eq|..].
  - intros r [_ ?]%others_elem. auto.
  - apply due_insert; [rewrite others_elem; tauto|]. by apply Sorted_filter.
  - intros q Hq Hsq. wp_go. eapply wp_mono; [apply check_queue_wp; cbn|].
    + rewrite Hq. constructor; [rewrite others_elem; tauto|]. by apply NoDup_filter.
    + intros r. rewrite Hq, elem_of_cons, others_elem. intros [->|[_ ?]]; auto.
      rewrite lookup_insert_eq. eauto.
    + done.
    + rewrite Hq. lia.
    + cbn. intros _ w' ->. exists t, q, nr. done.
Qed.
End Timers.

(** ** Reserving and removing intervals *)

Lemma set_ranges_same c : set_ranges (ranges c) c = c.
Proof. by destruct c. Qed.

Lemma elem_of_perm_head {A} (x : A) l l' : l' ≡ₚ x :: l -> x ∈ l'.
Proof. intros ->. apply list_elem_of_here. Qed.

Section Tree.
Context (E : Env) (HE : env_ok E) {cap : nat} {late : Prop} (At : iheap -> ptr -> entries -> Prop) `{!IntervalStore At}.

(** The heap holds the nodes of the tree and nothing else. *)
Definition Shape (h : iheap) (root : ptr) (l : entries) : Prop :=
  At h root l /\ dom h = list_to_set l.*1.

Lemma Shape_fresh h root l : Shape h root l -> malloc_addr h ∉ l.*1.
Proof.
  intros [_ Hd]. rewrite <- (elem_of_list_to_set (C := gset loc)), <- Hd.
  apply not_elem_of_dom, malloc_addr_fresh.
Qed.

(** [w'] is [w] with a node [p] of [len] addresses, without owner, inserted. *)
Definition fitted (w : world) (len : Z) (l : entries) (p : loc) (w' : world) : Prop :=
  exists lo h' root' l' nr nm,
    0 <= lo /\ lo + len <= range_len (mc w) /\
    l' ≡ₚ (p, Content lo (lo + len - 1) None) :: l /\ Shape h' root' l' /\
    w' = mkWorld (set_ranges root' (mc w)) h' (rgs w) nr (n_clock w) nm.

Lemma Shape_insert h root l cn :
  Shape h root l -> c_low cn <= c_high cn ->
  let p := malloc_addr h in
  let h0 := <[p := mk_node cn None None None]> h in
  (insert_interval h0 root p = Ok (INTERVAL_OVERLAP, h0, root) /\
     hit_list (c_low cn) (c_high cn) l <> []) \/
  exists h' root' l', insert_interval h0 root p = Ok (INTERVAL_SUCCESS, h', root') /\
    l' ≡ₚ (p, cn) :: l /\ Shape h' root' l' /\ hit_list (c_low cn) (c_high cn) l = [].
Proof.
  intros HS Hc. pose proof (Shape_fresh _ _ _ HS) as Hp. destruct HS as [Hat Hd]. cbn zeta.
  destruct (st_insert (<[malloc_addr h := mk_node cn None None None]> h) root l (malloc_addr h) cn)
    as [[? ?]|(h' & root' & l1 & l2 & -> & Hi & Hat' & Hd' & Hh)]; auto.
  - eapply st_frame; [exact Hat|]. intros q Hq. apply lookup_insert_ne. set_solver.
  - apply lookup_insert_eq.
  - right. exists h', root', (l1 ++ (malloc_addr h, cn) :: l2). split_and!; [done|solve_Permutation| |done].
    split; [done|]. rewrite Hd', dom_insert_L, Hd, !fmap_app. cbn. set_solver.
Qed.

Lemma overlaps_hit start size l :
  Exists (overlaps start size) l.*2 <-> hit_list start (start + size - 1) l <> [].
Proof.
  rewrite Exists_fmap, Exists_exists. unfold hit_list. split.
  - intros (e & He & Hov) Hnil. apply (elem_of_nil e). rewrite <- Hnil.
    apply list_elem_of_filter. split; [by apply hits_iff|done].
  - destruct (filter _ l) as [|e hl] eqn:Eh; [done|]. intros _.
    assert (Hin : e ∈ e :: hl) by apply list_elem_of_here. rewrite <- Eh in Hin.
    apply list_elem_of_filter in Hin as [Hh Hin]. exists e. split; [done|]. by apply hits_iff in Hh.
Qed.

Lemma try_interval_wp line start len l w :
  Shape (ivs w) (ranges (mc w)) l -> 0 < len -> 0 <= start -> start + len <= range_len (mc w) ->
  range_len (mc w) < 2 ^ 32 ->
  wp (tolerated E cap late) (try_interval E line start len)
    (fun x w' =>
       (x.1 = INTERVAL_OVERLAP /\ Exists (overlaps start len) l.*2 /\
        w' = mkWorld (mc w) (ivs w) (rgs w) (n_random w) (n_clock w) (S (n_malloc w))) \/
       (x.1 = INTERVAL_SUCCESS /\ ~ Exists (overlaps start len) l.*2 /\ fitted w len l x.2 w')) w.
Proof.
  intros HS Hlen Hst Hfit Hmax. unfold try_interval. wp_go. destruct (env_malloc E (n_malloc w)) eqn:Em.
  2: { apply wp_raise. eapply tolerated_malloc; eauto. }
  assert (Hnode : alloc_interval start len = mk_node (Content start (start + len - 1) None) None None None).
  { unfold alloc_interval, mk_node. cbn. rewrite u32_small; [done|unfold is_u32; lia]. }
  wp_go. apply wp_assert.
  { rewrite Hnode. cbn [high mk_node c_high]. rewrite u32_small by (unfold is_u32; lia). apply Z.leb_le. lia. }
  rewrite Hnode. apply wp_bind.
  destruct (Shape_insert _ _ _ (Content start (start + len - 1) None) HS) as [[Hi Hh]|(h' & root' & l' & Hi & Hp & HS' & Hh)];
    cbn [c_low c_high] in *; [lia|..].
  - eapply wp_lift; [exact Hi|]. cbn beta iota. wp_go. left. split; [done|]. split; [by apply overlaps_hit|].
    unfold with_mc, with_ivs, free_interval. cbn. rewrite set_ranges_same, delete_insert_id; [done|].
    apply malloc_addr_fresh.
  - eapply wp_lift; [exact Hi|]. cbn beta iota. wp_go. right. split; [done|]. split; [by rewrite overlaps_hit, Hh; auto|].
    exists start, h', root', l', (n_random w), (S (n_malloc w)). split_and!; auto; lia.
Qed.

Lemma fitted_from w nr nm len l p w' :
  fitted (mkWorld (mc w) (ivs w) (rgs w) nr (n_clock w) nm) len l p w' -> fitted w len l p w'.
Proof. done. Qed.

(** The first [k] draws, from the state [w] on, met blocks that are taken. *)
Definition draws_taken (w : world) (len : Z) (l : entries) (k : nat) : Prop :=
  forall j, (j < k)%nat -> taken E (range_len (mc w)) len l.*2 (n_random w + j).

(** The outcome of [attempts] draws: all in vain; or one finds a place, and goes
    unnoticed if it is the last. *)
Definition drawn (w : world) (len : Z) (l : entries) (attempts : nat) (got : option ptr) (w' : world) : Prop :=
  (got = None /\ draws_taken w len l attempts /\
     exists nr nm, w' = mkWorld (mc w) (ivs w) (rgs w) nr (n_clock w) nm) \/
  (exists p, fitted w len l p w' /\ got = Some (Some p)) \/
  (exists p k, attempts = S k /\ fitted w len l p w' /\ got = None /\ draws_taken w len l k /\
     ~ taken E (range_len (mc w)) len l.*2 (n_random w + k)).

Lemma draws_taken_S w w' len l k : mc w' = mc w -> n_random w' = S (n_random w) ->
  taken E (range_len (mc w)) len l.*2 (n_random w) -> draws_taken w' len l k -> draws_taken w len l (S k).
Proof.
  intros Hmc Hn H0 Hk [|j] Hj; [by rewrite Nat.add_0_r|]. specialize (Hk j ltac:(lia)).
  by rewrite Hmc, Hn, Nat.add_succ_comm in Hk.
Qed.

Lemma assign_loop_wp more len l : forall w iv,
  Shape (ivs w) (ranges (mc w)) l -> 0 < len <= range_len (mc w) -> range_len (mc w) < 2 ^ 32 ->
  wp (tolerated E cap late) (assign_loop E more len INTERVAL_OVERLAP iv) (drawn w len l more) w.
Proof.
  induction more as [|more IH]; intros w iv HS Hlen Hmax; cbn [assign_loop].
  { apply wp_ret. left. split_and!; [done|intros j Hj; lia|]. destruct w. eauto. }
  rewrite Z.eqb_refl. wp_go.
  assert (Hm : u32 (range_len (mc w) + 1 - len) = range_len (mc w) + 1 - len).
  { apply u32_small. unfold is_u32. lia. }
  rewrite Hm, (proj2 (Z.eqb_neq _ _)) by lia. wp_go.
  pose proof (Z.mod_pos_bound (env_random E (n_random w)) (range_len (mc w) + 1 - len) ltac:(lia)).
  eapply wp_mono; [eapply try_interval_wp; cbn; eauto; lia|].
  cbn. intros [rv p] w' [(Hrv & Hov & ->)|(Hrv & Hov & Hf)]; cbn in Hrv; subst rv; cbn beta iota.
  - eapply wp_mono; [eapply IH; eauto|]. cbn.
    intros got w' [(-> & Hd & nr & nm & ->)|[(p' & Hf & Hg)|(p' & k & -> & Hf & Hg & Hd & Hn)]].
    + left. split_and!; eauto. eapply draws_taken_S; [..|exact Hd]; done.
    + right. left. eauto.
    + right. right. exists p', (S k). split_and!; auto; [eapply draws_taken_S; [..|exact Hd]; done|].
      cbn in Hn. by rewrite Nat.add_succ_r.
  - destruct more; apply wp_ret; right; [right|left]; eauto using fitted_from. exists p, 0%nat.
    split_and!; eauto using fitted_from; [intros j Hj; lia|]. by rewrite Nat.add_0_r.
Qed.

(** What [assign_interval] tried before it gave up: the requested place, when it
    is in the pool, and [k] draws. *)
Definition tried (w : world) (base len : Z) (l : entries) (k : nat) : Prop :=
  (address_base (mc w) <= base -> base + len <= address_base (mc w) + range_len (mc w) ->
     Exists (overlaps (base - address_base (mc w)) len) l.*2) /\
  draws_taken w len l k.

(** [w'] is [w] with an interval of [len] addresses reserved for [range]. *)
Definition assigned (w : world) (len : Z) (l : entries) (range : loc) (rg : Range) (w' : world) : Prop :=
  exists p lo h' root' l' nr nm,
    0 <= lo /\ lo + len <= range_len (mc w) /\
    l' ≡ₚ (p, Content lo (lo + len - 1) (Some range)) :: l /\ Shape h' root' l' /\
    w' = mkWorld (set_ranges root' (mc w)) h' (<[range := set_interval (Some p) rg]> (rgs w))
           nr (n_clock w) nm.

Lemma Shape_set_data h root l l0 p c n d :
  Shape h root l -> l ≡ₚ (p, c) :: l0 -> h !! p = Some n ->
  exists l', l' ≡ₚ (p, Content (c_low c) (c_high c) d) :: l0 /\ Shape (<[p := set_data d n]> h) root l'.
Proof.
  intros [Hat Hd] Hp Hn. destruct (list_elem_of_split l (p, c)) as (l1 & l2 & ->).
  { by eapply elem_of_perm_head. }
  exists (l1 ++ (p, Content (c_low c) (c_high c) d) :: l2). split.
  - rewrite <- Permutation_middle in Hp |- *. apply Permutation_cons_inv in Hp. by rewrite Hp.
  - split; [by apply st_set_data|]. rewrite dom_insert_L, Hd, !fmap_app. cbn. set_solver.
Qed.

Lemma Shape_lookup h root l p c : Shape h root l -> (p, c) ∈ l ->
  exists n, h !! p = Some n /\ low n = c_low c /\ high n = c_high c /\ data n = c_data c.
Proof. intros [Hat _] Hin. exact (st_lookup _ _ _ _ _ Hat Hin). Qed.

Lemma own_interval w len l p w' range rg :
  fitted w len l p w' -> rgs w !! range = Some rg ->
  wp (tolerated E cap late) (_ ← store_iv (Some p) (set_data (Some range));
                    _ ← store_rg (Some range) (set_interval (Some p)); mret 0)
    (fun rv w'' => rv = 0 /\ assigned w len l range rg w'') w'.
Proof.
  intros (lo & h' & root' & l' & nr & nm & H0 & H1 & Hp & HS & ->) Hr.
  destruct (Shape_lookup _ _ _ _ _ HS (elem_of_perm_head _ _ _ Hp)) as (n & Hn & _).
  destruct (Shape_set_data _ _ _ _ _ _ _ (Some range) HS Hp Hn) as (l'' & Hp' & HS').
  wp_go. split; [done|]. exists p, lo, (<[p := set_data (Some range) n]> h'), root', l'', nr, nm. auto 10.
Qed.

(** The block is reserved; or none was found; or only the last draw found one. *)
Definition assign_post (range : loc) (rg : Range) (base len : Z) (l : entries) (w : world) (rv : Z) (w' : world) : Prop :=
  (rv = 0 /\ assigned w len l range rg w') \/
  (rv = -1 /\ (range_len (mc w) < len \/ tried w base len l ASSIGN_ATTEMPTS) /\
     exists nr nm, w' = mkWorld (mc w) (ivs w) (rgs w) nr (n_clock w) nm) \/
  (rv = -1 /\ tried w base len l (pred ASSIGN_ATTEMPTS) /\
     last_only E (range_len (mc w)) len l.*2 (n_random w) /\ exists p, fitted w len l p w').

(** The attempt at the requested place. *)
Lemma first_try_wp base len l w : Shape (ivs w) (ranges (mc w)) l -> Client (mc w) ->
  0 < len <= range_len (mc w) -> 0 <= base -> base + len <= 2 ^ 64 ->
  wp (tolerated E cap late)
    (if (address_base (mc w) <=? base) &&
        (u64 (base + len - 1) <=? u64 (address_base (mc w) + range_len (mc w) - 1))
     then '(rv, iv) ← try_interval E 634 (u32 (base - address_base (mc w))) len; mret (rv, Some iv)
     else mret (INTERVAL_OVERLAP, None : ptr))
    (fun x w1 =>
       (x.1 = INTERVAL_OVERLAP /\ tried w base len l 0 /\
          exists nm, w1 = mkWorld (mc w) (ivs w) (rgs w) (n_random w) (n_clock w) nm) \/
       (x.1 = INTERVAL_SUCCESS /\ exists p, x.2 = Some p /\ fitted w len l p w1)) w.
Proof.
  intros HS Hc Hlen Hb Hb'. pose proof (cl_base _ Hc). pose proof (cl_len _ Hc).
  assert (Hz : draws_taken w len l 0) by (intros j Hj; lia).
  rewrite (u64_small (_ + _ - 1)), (u64_small (_ + _ - 1)) by (unfold is_u64; lia).
  destruct (_ && _) eqn:Ea.
  - rewrite u32_small by (unfold is_u32; lia). apply wp_bind.
    eapply wp_mono; [eapply try_interval_wp; eauto; lia|].
    intros [rv p] w1 [(Hrv & Hov & ->)|(Hrv & Hov & Hf)]; cbn in Hrv; subst rv; apply wp_ret; cbn; [left|right; eauto].
    split_and!; [done|by split|eauto].
  - apply wp_ret. left. split_and!; [done| |destruct w; eauto]. split; [|done]. intros ??. exfalso. lia.
Qed.

Lemma assign_interval_wp range rg base len l w :
  Shape (ivs w) (ranges (mc w)) l -> 0 < len -> 0 <= base -> base + len <= 2 ^ 64 ->
  rgs w !! range = Some rg -> Client (mc w) ->
  wp (tolerated E cap late) (assign_interval E range base len) (assign_post range rg base len l w) w.
Proof.
  intros HS Hlen Hb Hb' Hr Hc. pose proof (cl_len _ Hc).
  unfold assign_interval. wp_go. destruct (range_len (mc w) <? len) eqn:Ebig.
  { apply wp_ret. right. left. split_and!; [done|left; lia|]. destruct w. eauto. }
  eapply wp_step; [apply first_try_wp; eauto; lia|]. intros [rv iv] w1 Hw1. cbn in Hw1. wp_go.
  destruct Hw1 as [(-> & [Hbase _] & nm & ->)|(-> & p & -> & Hf)].
  - eapply wp_mono; [eapply assign_loop_wp; cbn; eauto; lia|].
    intros got w2 [(-> & Hd & nr & nm' & ->)|[(p & Hf & ->)|(p & k & Hk & Hf & -> & Hd & Hn)]].
    + apply wp_ret. right. left. split_and!; [done|right; by split|eauto].
    + eapply wp_mono; [by eapply own_interval|]. intros ? ? ?. by left.
    + apply wp_ret. right. right. unfold last_only, tried. rewrite Hk. cbn [pred]. split_and!; eauto.
  - destruct attempts_pos as [k ->]. apply wp_ret. eapply wp_mono; [by eapply own_interval|]. intros ? ? ?. by left.
Qed.

(** The ranges agree, up to the node they point to. *)
Definition same_meta (R R' : gmap loc Range) : Prop := meta <$> R' = meta <$> R.

Lemma same_meta_lookup R R' r rg : same_meta R R' -> R !! r = Some rg ->
  exists rg', R' !! r = Some rg' /\ meta rg' = meta rg.
Proof.
  intros Hm Hr. assert (H : (meta <$> R') !! r = Some (meta rg)) by (by rewrite Hm, lookup_fmap, Hr).
  rewrite lookup_fmap in H. destruct (R' !! r) as [rg'|]; [|done]. apply (inj Some) in H. eauto.
Qed.

Lemma same_meta_size R R' : same_meta R R' -> size R' = size R.
Proof. intros Hm. by rewrite <- (map_size_fmap meta R'), Hm, map_size_fmap. Qed.

Lemma same_meta_repoint R r rg q : R !! r = Some rg -> same_meta R (<[r := set_interval q rg]> R).
Proof.
  intros Hr. unfold same_meta. rewrite fmap_insert. apply insert_id.
  by rewrite lookup_fmap, Hr.
Qed.

Lemma linked_repoint R l r rg q : r ∉ owners l.*2 -> linked R l -> linked (<[r := set_interval q rg]> R) l.
Proof.
  intros Hr Hl p c r' Hin Hd. rewrite lookup_insert_ne; [by eapply Hl|].
  intros ->. apply Hr, owners_elem. exists c. split; [|done]. apply list_elem_of_fmap. by exists (p, c).
Qed.

Lemma linked_snoc R l p c :
  linked R l -> (forall r, c_data c = Some r -> exists rg, R !! r = Some rg /\ interval rg = Some p) ->
  linked R (l ++ [(p, c)]).
Proof.
  intros Hl Hc p' c' r [Hin|Hin]%elem_of_app Hd; [by eapply Hl|].
  apply list_elem_of_singleton in Hin. injection Hin as -> ->. auto.
Qed.

Lemma repoint_step_wp (R : gmap loc Range) r rg p Q w : rgs w = R -> R !! r = Some rg ->
  (forall R', same_meta R R' -> R' = <[r := set_interval (Some p) rg]> R -> Q tt (with_rgs R' w)) ->
  wp (tolerated E cap late) (if bool_decide (interval rg <> Some p)
                    then store_rg (Some r) (set_interval (Some p)) else mret tt) Q w.
Proof.
  intros <- Hr HQ. case_bool_decide as Hi.
  - eapply wp_store_rg; [done|]. apply HQ; [by apply same_meta_repoint|done].
  - apply wp_ret. specialize (HQ (rgs w)).
    destruct w; apply HQ; [done|]. symmetry. apply insert_id. rewrite Hr. by destruct rg; cbn in *; subst.
Qed.

Lemma repoint_loop_wp old root fuel : forall l1 l2 w,
  Shape (ivs w) root (l1 ++ l2) -> (length l2 < fuel)%nat -> NoDup (owners (l1 ++ l2).*2) ->
  (forall r, r ∈ owners l2.*2 -> is_Some (rgs w !! r)) ->
  (forall r, old = Some r -> r ∉ owners l2.*2) -> linked (rgs w) l1 ->
  (Exists (fun c => c_data c = None) l2.*2 -> late) ->
  wp (tolerated E cap late) (repoint_loop fuel old (fst <$> head l2))
    (fun _ w' => Forall (fun c => is_Some (c_data c)) l2.*2 /\
       exists R', w' = with_rgs R' w /\ same_meta (rgs w) R' /\ linked R' (l1 ++ l2)) w.
Proof.
  induction fuel as [|fuel IH]; intros l1 l2 w HS Hf Hnd Hin Hold Hl Hlate; [lia|].
  destruct l2 as [|[p c] l2]; cbn [head fmap option_fmap option_map fst repoint_loop].
  { apply wp_ret. split; [constructor|]. exists (rgs w). rewrite app_nil_r. by destruct w. }
  destruct (Shape_lookup _ _ _ p c HS) as (n & Hn & _ & _ & Hd); [set_solver|]. wp_go. rewrite Hd.
  destruct (c_data c) as [r|] eqn:Ec.
  2: { apply wp_raise. left. split; [done|]. apply Hlate. by apply Exists_cons_hd. }
  rewrite !fmap_app in Hnd. cbn [fmap list_fmap snd] in *. unfold owners in Hnd. rewrite omap_app in Hnd.
  cbn in Hnd. rewrite Ec in Hnd. fold (owners l1.*2) (owners l2.*2) in Hnd.
  rewrite owners_cons, Ec in Hold, Hin. cbn in Hold, Hin.
  destruct (Hin r) as [rg Hr]; [set_solver|].
  apply wp_assert; [done|]. wp_go. apply wp_assert.
  { apply bool_decide_eq_true. intros Heq. apply (Hold r); [done|set_solver]. }
  wp_go. eapply repoint_step_wp; [done|done|]. intros R' Hm HR'. cbn beta. apply wp_bind.
  unfold next_iv. wp_go. destruct HS as [Hat Hdom]. eapply wp_lift; [by eapply st_next|].
  apply NoDup_app in Hnd as (Hnd1 & Hnd2 & Hnd3). apply NoDup_cons in Hnd3 as [Hnr Hnd3].
  rewrite (cons_middle _ l1 l2), (app_assoc l1) in Hat, Hdom |- *.
  eapply wp_mono; [eapply IH|]; cbn [rgs ivs with_rgs].
  - by split.
  - cbn in Hf. lia.
  - rewrite !fmap_app. unfold owners. rewrite !omap_app. cbn. rewrite Ec. fold (owners l1.*2) (owners l2.*2).
    rewrite <- app_assoc. apply NoDup_app. split_and!; [done|exact Hnd2|by constructor].
  - intros r' Hr'. subst R'. apply lookup_insert_is_Some'. right. apply Hin. set_solver.
  - intros r' Hr' Hin'. apply (Hold r' Hr'). set_solver.
  - apply linked_snoc.
    + subst R'. apply linked_repoint; [|done]. intros ?. apply (Hnd2 r); [done|set_solver].
    + intros r' [= ->]%(eq_trans (eq_sym Ec)). subst R'. rewrite lookup_insert_eq. eauto.
  - intros Hex. apply Hlate. by apply Exists_cons_tl.
  - intros _ w' (Hall & R'' & -> & Hm' & Hl'). split; [constructor; [by rewrite Ec; eauto|done]|].
    exists R''. split_and!; auto. unfold same_meta in *. congruence.
Qed.

Lemma Shape_size h root l : Shape h root l -> size h = length l.
Proof.
  intros [Hat Hd]. pose proof (st_nodup _ _ _ Hat) as Hnd.
  by rewrite <- size_dom, Hd, size_list_to_set, length_fmap.
Qed.

(** The nodes and owners that remain once [p] is gone; all of them have owners. *)
Definition dropped (w : world) (l0 : entries) (w' : world) : Prop :=
  Forall (fun c => is_Some (c_data c)) l0.*2 /\
  exists l' h' root' R', l'.*2 ≡ₚ l0.*2 /\ Shape h' root' l' /\ linked R' l' /\
    same_meta (rgs w) R' /\
    w' = mkWorld (set_ranges root' (mc w)) h' R' (n_random w) (n_clock w) (n_malloc w).

Lemma linked_owner R l r : linked R l -> r ∈ owners l.*2 -> is_Some (R !! r).
Proof.
  intros Hl (c & ([p c'] & -> & Hin)%list_elem_of_fmap & Hd)%owners_elem.
  destruct (Hl _ _ _ Hin Hd) as (rg & -> & _). eauto.
Qed.

Lemma Shape_remove h root l p c l0 : Shape h root l -> l ≡ₚ (p, c) :: l0 ->
  exists h' root' snip l', remove_interval h root p = Ok (h', root', snip) /\
    Shape (free_interval h' snip) root' l' /\ l'.*2 ≡ₚ l0.*2 /\
    exists n, h' !! snip = Some n /\ data n = c_data c.
Proof.
  intros [Hat Hd] Hp. destruct (list_elem_of_split l (p, c)) as (l1 & l2 & ->).
  { by eapply elem_of_perm_head. }
  rewrite <- Permutation_middle in Hp. apply Permutation_cons_inv in Hp.
  destruct (st_remove _ _ _ _ _ _ Hat) as (h' & root' & snip & l' & Hr & Hat' & Hd' & Hn & Hc & Hl).
  exists h', root', snip, l'. split_and!; [done| |by rewrite Hc, <- Hp, fmap_app|done].
  split; [done|]. unfold free_interval. rewrite dom_delete_L, Hd', Hd.
  assert (Hnd : NoDup (snip :: l'.*1)).
  { rewrite Hl. pose proof (st_nodup _ _ _ Hat) as H. by rewrite fmap_app in H. }
  apply NoDup_cons in Hnd as [Hs _]. apply set_eq. intros x.
  rewrite elem_of_difference, !elem_of_list_to_set, not_elem_of_singleton, fmap_app. cbn.
  rewrite <- Hl, elem_of_cons. naive_solver.
Qed.

Lemma remove_range_interval_wp p c l l0 w :
  Shape (ivs w) (ranges (mc w)) l -> l ≡ₚ (p, c) :: l0 -> NoDup (owners l.*2) -> linked (rgs w) l ->
  (Exists (fun c => c_data c = None) l0.*2 -> late) ->
  wp (tolerated E cap late) (remove_range_interval (Some p)) (fun _ => dropped w l0) w.
Proof.
  intros HS Hp Hnd Hl Hlate. pose proof (elem_of_perm_head _ _ _ Hp) as Hin.
  destruct (Shape_lookup _ _ _ _ _ HS Hin) as (n & Hn & _ & _ & Hd).
  unfold remove_range_interval. wp_go. rewrite Hd.
  apply wp_mono with (Q := fun b w' => b = true /\ w' = w).
  { destruct (c_data c) as [r|] eqn:Ec; [|done]. destruct (Hl _ _ _ Hin Ec) as (rg & Hr & Hi).
    wp_go. split; [|done]. by apply bool_decide_eq_true. }
  intros _ _ [-> ->]. wp_go. apply wp_assert; [done|]. wp_go.
  destruct (Shape_remove _ _ _ _ _ _ HS Hp) as (h' & root' & snip & l' & Hr & HS' & Hc & f & Hf & Hfd).
  eapply wp_lift; [exact Hr|]. cbn beta iota. wp_go. apply wp_assert.
  { by apply bool_decide_eq_true. }
  wp_go. eapply wp_lift; [eapply st_minimum, HS'|]. cbn beta.
  assert (Ho : owners l.*2 ≡ₚ from_option (fun r => [r]) [] (c_data c) ++ owners l'.*2).
  { rewrite <- owners_cons. apply owners_perm. rewrite Hp. cbn. by rewrite Hc. }
  rewrite Ho in Hnd. apply NoDup_app in Hnd as (_ & Hdis & Hnd).
  eapply wp_mono; [eapply (repoint_loop_wp _ root' _ [])|].
  - exact HS'.
  - unfold fuel_of. erewrite Shape_size by exact HS'. lia.
  - done.
  - intros r Hro. eapply linked_owner; [exact Hl|]. rewrite Ho. set_solver.
  - intros r Heq. apply Hdis. rewrite Heq. cbn. set_solver.
  - intros ??? []%elem_of_nil.
  - by rewrite Hc.
  - intros _ w' (Hall & R' & -> & Hm & Hl'). split; [by rewrite <- Hc|]. exists l', (free_interval h' snip), root', R'. auto 10.
Qed.
End Tree.
