(* ===== verification/MaapInvariant.v ===== *)
(** * The MAAP client preserves its invariant

    [Inv] relates the interval tree, the range objects and the timer queue of a
    client; reservation, release, status, timer expiry and incoming packets keep
    it, whatever the environment answers. *)

From S2P Require Import Prelude.
From S2P Require Import Intervals.
From S2P Require Import IntervalsTheory.
From S2P Require Import MaapPacket.
From S2P Require Import MaapNet.
From S2P Require Import Maap.
From S2P Require Import MaapTheory.

(** ** Which fields the parts of the invariant look at *)

Lemma fmap_insert_same {A} (f : Range -> A) (R : gmap loc Range) r rg rg' :
  R !! r = Some rg -> f rg' = f rg -> f <$> <[r := rg']> R = f <$> R.
Proof. intros Hr Hf. rewrite fmap_insert, Hf. apply insert_id. by rewrite lookup_fmap, Hr. Qed.

Lemma fmap_lookup_eq {A} (f : Range -> A) (R R' : gmap loc Range) r rg :
  f <$> R' = f <$> R -> R' !! r = Some rg -> exists rg', R !! r = Some rg' /\ f rg' = f rg.
Proof.
  intros Hf Hr. assert (H : (f <$> R) !! r = Some (f rg)) by (by rewrite <- Hf, lookup_fmap, Hr).
  rewrite lookup_fmap in H. destruct (R !! r) as [x|]; [|done]. apply (inj Some) in H. eauto.
Qed.

Lemma same_meta_field {A} (f : Range -> A) R R' :
  (forall r, f (meta r) = f r) -> same_meta R R' -> f <$> R' = f <$> R.
Proof.
  intros Hf Hm. unfold same_meta in Hm. apply (f_equal (fmap f)) in Hm. rewrite <- !map_fmap_compose in Hm.
  rewrite (map_fmap_ext _ f R') in Hm by (intros; apply Hf).
  by rewrite (map_fmap_ext _ f R) in Hm by (intros; apply Hf).
Qed.

Lemma Good_ext len cs R R' : state <$> R' = state <$> R -> Good len cs R -> Good len cs R'.
Proof.
  intros Hs [Hpool Hdata Hnd Hown Hst]. split; auto.
  - intros r. rewrite Hown. unfold live. split; intros (rg & Hr & Hl).
    + destruct (fmap_lookup_eq state R' R r rg) as (rg' & ? & Heq); [done..|]. rewrite <- Heq in Hl. eauto.
    + destruct (fmap_lookup_eq state R R' r rg) as (rg' & ? & Heq); [done..|]. rewrite <- Heq in Hl. eauto.
  - intros r rg Hr. destruct (fmap_lookup_eq state R R' r rg) as (rg' & Hr' & Heq); [done..|].
    unfold live. rewrite <- Heq. by apply Hst in Hr'.
Qed.

Lemma linked_ext R R' l : interval <$> R' = interval <$> R -> linked R l -> linked R' l.
Proof.
  intros Hi Hl p c r Hin Hd. destruct (Hl p c r Hin Hd) as (rg & Hr & Heq).
  destruct (fmap_lookup_eq interval R' R r rg) as (rg' & ? & Hi'); [done..|]. exists rg'. split; [done|congruence].
Qed.

Lemma due_ext R R' q : next_act_time <$> R' = next_act_time <$> R ->
  StronglySorted (due R) q -> StronglySorted (due R') q.
Proof.
  intros Hn. induction 1 as [|x q Hs IH Hx]; [constructor|]. constructor; [done|].
  eapply Forall_impl; [exact Hx|]. intros y Hd a b Ha Hb.
  destruct (fmap_lookup_eq next_act_time R R' x a) as (a' & ? & <-); [done..|].
  destruct (fmap_lookup_eq next_act_time R R' y b) as (b' & ? & <-); [done..|]. by apply Hd.
Qed.

Lemma Queue_ext R R' q : next_act_time <$> R' = next_act_time <$> R -> Queue R q -> Queue R' q.
Proof.
  intros Hn [Hnd Hall Hs]. split; [done| |by eapply due_ext].
  intros r. rewrite Hall, <- !elem_of_dom. rewrite <- (dom_fmap_L next_act_time R').
  by rewrite Hn, dom_fmap_L.
Qed.

(** ** Adding and removing a reservation *)

Lemma Good_add len c cs R r rg :
  Good len cs R -> R !! r = None -> live rg -> in_pool len c -> c_data c = Some r ->
  Good len (c :: cs) (<[r := rg]> R).
Proof.
  intros [Hpool Hdata Hnd Hown Hst] Hr Hl Hp Hd.
  assert (Hnr : r ∉ owners cs). { rewrite Hown. intros (? & ? & _). congruence. }
  split; [by constructor|constructor; rewrite ?Hd; eauto| | |].
  - rewrite owners_cons, Hd. by constructor.
  - intros x. rewrite owners_cons, Hd. cbn. rewrite elem_of_cons, Hown.
    destruct (decide (x = r)) as [->|Hne].
    + rewrite lookup_insert_eq. split; [|tauto]. eauto.
    + rewrite lookup_insert_ne by done. tauto.
  - intros x rg'. destruct (decide (x = r)) as [->|Hne].
    + rewrite lookup_insert_eq. intros [= <-]. by left.
    + rewrite lookup_insert_ne by done. apply Hst.
Qed.

Lemma Good_release len c cs R r rg :
  Good len (c :: cs) R -> c_data c = Some r -> state rg = MAAP_STATE_RELEASED ->
  Good len cs (<[r := rg]> R).
Proof.
  intros [Hpool Hdata Hnd Hown Hst] Hd Hrel. apply Forall_cons in Hpool as [_ ?], Hdata as [_ ?].
  rewrite owners_cons, Hd in Hnd. apply NoDup_cons in Hnd as [Hnr Hnd].
  split; auto.
  - intros x. specialize (Hown x). rewrite owners_cons, Hd in Hown. cbn in Hown. rewrite elem_of_cons in Hown.
    destruct (decide (x = r)) as [->|Hne].
    + rewrite lookup_insert_eq. split; [done|]. intros (? & [= <-] & [?|?]); congruence.
    + rewrite lookup_insert_ne by done. tauto.
  - intros x rg'. destruct (decide (x = r)) as [->|Hne].
    + rewrite lookup_insert_eq. intros [= <-]. by right.
    + rewrite lookup_insert_ne by done. apply Hst.
Qed.

(** Updating a live range that stays live. *)
Lemma Good_live len cs R r rg rg' :
  Good len cs R -> R !! r = Some rg -> live rg -> live rg' -> Good len cs (<[r := rg']> R).
Proof.
  intros [Hpool Hdata Hnd Hown Hst] Hr Hl Hl'. split; auto.
  - intros x. rewrite Hown. destruct (decide (x = r)) as [->|Hne].
    + rewrite lookup_insert_eq. naive_solver.
    + by rewrite lookup_insert_ne.
  - intros x y. destruct (decide (x = r)) as [->|Hne].
    + rewrite lookup_insert_eq. intros [= <-]. by left.
    + rewrite lookup_insert_ne by done. apply Hst.
Qed.

(** Moving the reservation of a range to another interval. *)
Lemma Good_move len c c' cs R :
  Good len (c :: cs) R -> in_pool len c' -> c_data c' = c_data c -> Good len (c' :: cs) R.
Proof.
  intros [Hpool Hdata Hnd Hown Hst] Hp Hd. apply Forall_cons in Hpool as [_ ?], Hdata as [? ?].
  split.
  - by constructor.
  - constructor; [by rewrite Hd|done].
  - by rewrite owners_cons, Hd, <- owners_cons.
  - intros x. rewrite owners_cons, Hd, <- owners_cons. apply Hown.
  - done.
Qed.

(** A released range has no entry, and its object may go. *)
Lemma Good_free len cs R r rg :
  Good len cs R -> R !! r = Some rg -> state rg = MAAP_STATE_RELEASED -> Good len cs (delete r R).
Proof.
  intros [Hpool Hdata Hnd Hown Hst] Hr Hrel. split; auto.
  - intros x. rewrite Hown. destruct (decide (x = r)) as [->|Hne].
    + rewrite lookup_delete_eq, Hr. split; [|naive_solver]. intros (? & [= <-] & [?|?]); congruence.
    + by rewrite lookup_delete_ne.
  - intros x rg' [_ Hx]%lookup_delete_Some. eauto.
Qed.

(** ** Effects that leave the reservations alone *)

Record quiet (w w' : world) : Prop := {
  q_ivs : ivs w' = ivs w;
  q_rgs : rgs w' = rgs w;
  q_ranges : ranges (mc w') = ranges (mc w);
  q_queue : timer_queue (mc w') = timer_queue (mc w);
  q_base : address_base (mc w') = address_base (mc w);
  q_len : range_len (mc w') = range_len (mc w);
  q_src : src_mac (mc w') = src_mac (mc w);
  q_dest : dest_mac (mc w') = dest_mac (mc w);
  q_clock : (n_clock w <= n_clock w')%nat;
  q_client : Client (mc w) -> Client (mc w')
}.

#[global] Instance quiet_preorder : PreOrder quiet.
Proof.
  split; [by split|]. intros w1 w2 w3 [] []. split; try congruence; [lia|auto].
Qed.

Lemma quiet_notified who mn w w' : notified who mn w w' -> quiet w w'.
Proof. intros ->. split; try done. intros []. by split. Qed.

Lemma quiet_sent p w w' : sent p w w' -> quiet w w'.
Proof. intros (n & n' & nm & rest & Hn & Hwf & _ & ->). split; try done. intros []. split; eauto. Qed.

Lemma quiet_points w w' range rg n : quiet w w' -> points w range rg n -> points w' range rg n.
Proof. intros [Hi Hr _ _ _ _ _ _ _] (Hrg & p & Hp & Hn). split; [by rewrite Hr|]. exists p. by rewrite Hi. Qed.

Lemma quiet_request w w' mt n : quiet w w' -> request (mc w') mt n = request (mc w) mt n.
Proof.
  intros Hq. unfold request, base_packet, first_address.
  by rewrite (q_src _ _ Hq), (q_dest _ _ Hq), (q_base _ _ Hq).
Qed.

#[export] Hint Resolve quiet_notified quiet_sent quiet_points : core.

Lemma start_timer_wp E {cap late} w : Client (mc w) -> (forall r, r ∈ timer_queue (mc w) -> is_Some (rgs w !! r)) ->
  wp (tolerated E cap late) start_timer
    (fun _ w' => quiet w w' /\ net (mc w') = net (mc w) /\ notifies (mc w') = notifies (mc w)) w.
Proof.
  intros Hc Hq. unfold start_timer. wp_go. destruct (timer_queue (mc w)) as [|r q] eqn:Eq.
  { apply wp_ret. done. }
  destruct (Hq r) as [rg ?]; [set_solver|]. unfold Time_setTimer. wp_go.
  destruct (cl_timer _ Hc) as [t ->]. wp_go. split; [|done]. split; try done. intros []. split; eauto.
Qed.

(** The loops that look a range up by its id. *)
Lemma find_range_wp T ok i q Q w : (forall r, r ∈ q -> is_Some (rgs w !! r)) ->
  (forall range rg, range ∈ q -> rgs w !! range = Some rg -> id rg = i -> ok (state rg) = true -> Q (Some range) w) ->
  ((forall range rg, range ∈ q -> rgs w !! range = Some rg -> id rg = i -> ok (state rg) = false) -> Q None w) ->
  wp T (find_range ok i q) Q w.
Proof.
  induction q as [|r q IH]; intros Hin HS HN; cbn [find_range].
  - apply wp_ret, HN. set_solver.
  - destruct (Hin r) as [rg Hr]; [set_solver|]. wp_go. destruct (_ && _) eqn:Ec.
    + apply andb_true_iff in Ec as [Ei Eo]. apply wp_ret, (HS r rg); auto; [set_solver|lia].
    + apply IH; [set_solver| |].
      * intros r' rg' ?. apply HS. set_solver.
      * intros H. apply HN. intros r' rg' [->|?]%elem_of_cons Hr' Hi; [|by eapply H].
        simplify_eq. by rewrite Z.eqb_refl in Ec.
Qed.

(** ** The invariant *)

Section Invariant.
Context (E : Env) (HE : env_ok E) {cap : nat} {late : Prop} (At : iheap -> ptr -> entries -> Prop) `{!IntervalStore At}.

Record Inv_tree (w : world) (l : entries) : Prop := {
  inv_client : Client (mc w);
  inv_shape : Shape At (ivs w) (ranges (mc w)) l;
  inv_linked : linked (rgs w) l;
  inv_good : Good (range_len (mc w)) l.*2 (rgs w)
}.

Record Inv_at (w : world) (l : entries) : Prop := {
  inv_tree :> Inv_tree w l;
  inv_queue : Queue (rgs w) (timer_queue (mc w))
}.

(** Between operations no range is flagged as overlapping. *)
Definition Inv (w : world) : Prop := (exists l, Inv_at w l) /\ unflagged (rgs w).

Lemma Inv_quiet w w' l : quiet w w' -> Inv_at w l -> Inv_at w' l.
Proof.
  intros [Hi Hr Hroot Hq _ Hlen _ _ _ Hc] [[] ?].
  split; [split|]; rewrite ?Hi, ?Hr, ?Hroot, ?Hq, ?Hlen; auto.
Qed.

Lemma unflagged_quiet w w' : quiet w w' -> unflagged (rgs w) -> unflagged (rgs w').
Proof. by intros [_ -> _ _ _ _ _ _ _]. Qed.

Lemma queue_in w l r : Inv_at w l -> r ∈ timer_queue (mc w) -> is_Some (rgs w !! r).
Proof. intros HI. apply (inv_queue _ _ HI). Qed.

(** A live range has its node, inside of the pool. *)
Lemma live_points w l range rg : Inv_tree w l -> rgs w !! range = Some rg -> live rg ->
  exists p c l0 n, l ≡ₚ (p, c) :: l0 /\ c_data c = Some range /\ interval rg = Some p /\
    points w range rg n /\ low n = c_low c /\ high n = c_high c /\ data n = c_data c /\
    ivs w !! p = Some n /\ node_in_pool (mc w) n.
Proof.
  intros HI Hr Hl. assert (Ho : range ∈ owners l.*2) by (apply (inv_good _ _ HI); eauto).
  apply owners_elem in Ho as (c & Hc & Hd). apply list_elem_of_fmap in Hc as ([p c'] & -> & Hin). cbn in Hd.
  destruct (inv_linked _ _ HI _ _ _ Hin Hd) as (rg' & Hr' & Hi). simplify_eq.
  destruct (Shape_lookup _ _ _ _ _ _ (inv_shape _ _ HI) Hin) as (n & Hn & Hlo & Hhi & Hdn).
  assert (Hpool : in_pool (range_len (mc w)) c').
  { pose proof (good_pool _ _ _ (inv_good _ _ HI)) as Hp. rewrite Forall_forall in Hp. apply Hp.
    apply list_elem_of_fmap. by exists (p, c'). }
  apply list_elem_of_split in Hin as (l1 & l2 & ->).
  exists p, c', (l1 ++ l2), n. split_and!; auto.
  - solve_Permutation.
  - split; eauto.
  - unfold node_in_pool, in_pool in *. cbn. by rewrite Hlo, Hhi.
Qed.


(** Every block has an owner. *)
Lemma Inv_owned w l e l0 : Inv_tree w l -> l ≡ₚ e :: l0 -> ~ Exists (fun c => c_data c = None) l0.*2.
Proof.
  intros HI Hp Hex. pose proof (good_data _ _ _ (inv_good _ _ HI)) as Hall. rewrite Hp in Hall.
  apply Forall_cons in Hall as [_ Hall]. apply Exists_exists in Hex as (c & Hin & Hc).
  rewrite Forall_forall in Hall. destruct (Hall c Hin). congruence.
Qed.

(** *** Release *)

(** The flagged ranges. *)
Definition flagged (R : gmap loc Range) (r : loc) : Prop :=
  exists rg, R !! r = Some rg /\ overlapping rg = true.

Lemma flagged_ext R R' r : overlapping <$> R' = overlapping <$> R -> flagged R' r <-> flagged R r.
Proof.
  intros Ho. split; intros (rg & Hr & Hf).
  - destruct (fmap_lookup_eq overlapping R R' r rg) as (x & ? & ?); [done..|]. exists x. split; congruence.
  - destruct (fmap_lookup_eq overlapping R' R r rg) as (x & ? & ?); [done..|]. exists x. split; congruence.
Qed.

Lemma flagged_insert R range rg r :
  flagged (<[range := rg]> R) r <-> (r = range /\ overlapping rg = true) \/ (r <> range /\ flagged R r).
Proof.
  unfold flagged. destruct (decide (r = range)) as [->|Hne].
  - rewrite lookup_insert_eq. naive_solver.
  - rewrite lookup_insert_ne by done. naive_solver.
Qed.

Lemma unflagged_iff R : unflagged R <-> forall r, ~ flagged R r.
Proof.
  unfold unflagged, flagged. split.
  - intros H r (rg & Hr & Ho). apply H in Hr. congruence.
  - intros H r rg Hr. destruct (overlapping rg) eqn:Eo; [|done]. destruct (H r). eauto.
Qed.

Definition released (w : world) (range : loc) : Prop :=
  exists rg, rgs w !! range = Some rg /\ state rg = MAAP_STATE_RELEASED.

(** Dropping the node of [range] and marking the object as released. *)
Lemma release_tail w c l0 w' range :
  Client (mc w) -> Good (range_len (mc w)) (c :: l0.*2) (rgs w) -> Queue (rgs w) (timer_queue (mc w)) ->
  c_data c = Some range -> dropped At w l0 w' ->
  wp (tolerated E cap late) (store_rg (Some range) (set_state MAAP_STATE_RELEASED))
    (fun _ w'' => exists l' : entries, l'.*2 ≡ₚ l0.*2 /\ Inv_at w'' l' /\ mc w'' = mc w' /\
       (forall r, flagged (rgs w'') r <-> flagged (rgs w) r) /\ released w'' range) w'.
Proof.
  intros Hc HG HQ Hd (_ & l' & h' & root' & R' & Hp' & HS' & Hl' & Hm & ->).
  assert (Ho : range ∈ owners (c :: l0.*2)). { rewrite owners_cons, Hd. cbn. set_solver. }
  apply (good_owner _ _ _ HG) in Ho as (rg & Hr & _).
  destruct (same_meta_lookup _ _ _ _ Hm Hr) as (rg' & Hr' & Hmeta). wp_go.
  exists l'. split_and!; [done| |done| |by eexists; split; [apply lookup_insert_eq|]].
  - split; [split|]; cbn; auto.
    + by destruct Hc.
    + eapply linked_ext; [|exact Hl']. by eapply fmap_insert_same.
    + rewrite Hp'. eapply Good_release; [|exact Hd|done].
      eapply Good_ext; [by apply same_meta_field|done].
    + eapply Queue_ext; [by eapply fmap_insert_same|]. eapply Queue_ext; [by apply same_meta_field|done].
  - intros r. cbn. transitivity (flagged R' r); apply flagged_ext.
    + by eapply fmap_insert_same.
    + by apply same_meta_field.
Qed.

(** The notifications of a release: to the requester, and to the owner when
    that is someone else. *)
Definition release_notes (c : Maap_Client) (who i : Z) (rg : Range) (n : Interval) : list (Z * Maap_Notify) :=
  let note := note_of c MAAP_NOTIFY_RELEASED i n MAAP_NOTIFY_ERROR_NONE in
  (who, note) :: if who =? sender rg then [] else [(sender rg, note)].

Lemma release_notify_wp {A} who i range rg n (k : Range -> MAAP A) Q w : points w range rg n ->
  (forall w', quiet w w' -> notifies (mc w') = notifies (mc w) ++ release_notes (mc w) who i rg n ->
     wp (tolerated E cap late) (k rg) Q w') ->
  wp (tolerated E cap late)
    (_ ← inform_released E who i (Some range) MAAP_NOTIFY_ERROR_NONE;
     r ← load_rg (Some range);
     _ ← (if who =? sender r then mret tt
          else inform_released E (sender r) i (Some range) MAAP_NOTIFY_ERROR_NONE);
     k r) Q w.
Proof.
  intros Hp Hk. wp_use inform_released_wp as H1; [done|]. pose proof (quiet_notified _ _ _ _ H1) as Hq.
  assert (Hr : rgs s' !! range = Some rg) by (rewrite (q_rgs _ _ Hq); apply Hp). wp_go.
  unfold release_notes in Hk. destruct (who =? sender rg).
  - apply wp_ret, Hk; [done|]. by rewrite H1.
  - wp_last inform_released_wp as H2; [eauto|]. apply Hk.
    + etrans; eauto.
    + rewrite H2. cbn. rewrite H1. cbn. by rewrite <- app_assoc.
Qed.

(** A live range with the given id is released: its interval leaves the tree.
    Without one nothing changes but the notification. *)
Definition release_post (w : world) (l : entries) (who i rv : Z) (w' : world) : Prop :=
  (rv = 0 /\ exists range rg p c l0 n l',
     rgs w !! range = Some rg /\ id rg = i /\ live rg /\
     l ≡ₚ (p, c) :: l0 /\ c_data c = Some range /\ l'.*2 ≡ₚ l0.*2 /\ Inv_at w' l' /\
     low n = c_low c /\ high n = c_high c /\
     notifies (mc w') = notifies (mc w) ++ release_notes (mc w) who i rg n) \/
  (rv = -1 /\ (forall range rg, rgs w !! range = Some rg -> id rg = i -> ~ live rg) /\ quiet w w' /\
     notifies (mc w') = notifies (mc w) ++
       [(who, mkNotify MAAP_NOTIFY_RELEASED i 0 0 MAAP_NOTIFY_ERROR_RELEASE_INVALID_ID)]).

Lemma not_released_live w l range rg : Inv_at w l -> rgs w !! range = Some rg ->
  bool_decide (state rg <> MAAP_STATE_RELEASED) = true <-> live rg.
Proof.
  intros HI Hr. rewrite bool_decide_eq_true. split.
  - intros Hn. by destruct (good_state _ _ _ (inv_good _ _ HI) _ _ Hr).
  - intros [Hs|Hs]; congruence.
Qed.

Lemma maap_release_range_wp who i w l : Inv_at w l ->
  wp (tolerated E cap late) (maap_release_range E who i)
    (fun rv w' => release_post w l who i rv w' /\ (unflagged (rgs w) -> unflagged (rgs w'))) w.
Proof.
  intros HI. pose proof (inv_client _ _ HI) as Hc. unfold maap_release_range. wp_go.
  rewrite (cl_init _ Hc). cbn [negb]. wp_go. apply find_range_wp; [eauto using queue_in| |].
  - intros range rg Hin Hr Hi Hl%(not_released_live _ _ _ _ HI Hr).
    destruct (live_points _ _ _ _ HI Hr Hl) as (p & c & l0 & n & Hp & Hd & Hint & Hpts & Hlo & Hhi & Hdn & Hn & Hpool).
    eapply release_notify_wp; [done|]. intros w1 Hq Hnotes. pose proof (Inv_quiet _ _ _ Hq HI) as HI1.
    rewrite Hint. wp_use (remove_range_interval_wp E HE At p c l l0) as Hdrop.
    { apply HI1. } { done. } { apply (inv_good _ _ HI1). } { apply (inv_linked _ _ HI1). }
    { intros Hex. by destruct (Inv_owned _ _ _ _ HI Hp). }
    assert (HG : Good (range_len (mc w1)) (c :: l0.*2) (rgs w1)).
    { pose proof (inv_good _ _ HI1) as HG. by rewrite Hp in HG. }
    wp_use release_tail as (l' & Hl' & HI2 & Hmc & Hu & _); [apply HI1|done|apply HI1|done..|]. apply wp_ret. split.
    + left. split; [done|]. exists range, rg, p, c, l0, n, l'. split_and!; auto.
      rewrite Hmc. destruct Hdrop as (_ & ? & ? & ? & ? & _ & _ & _ & _ & ->). done.
    + rewrite !unflagged_iff. intros Hu0 r. by rewrite Hu, (q_rgs _ _ Hq).
  - intros Hno. wp_use notify_wp as H1. apply wp_ret. split; [right|by rewrite H1].
    split_and!; [done| |eauto|by rewrite H1].
    intros range rg Hr Hi Hl%(not_released_live _ _ _ _ HI Hr).
    erewrite Hno in Hl; [done|..]; eauto. by apply (inv_queue _ _ HI).
Qed.

(** *** Scheduling *)

(** All ranges but [range] are queued; [range] may be. *)
Record Ready (R : gmap loc Range) (range : loc) (q : list loc) : Prop := {
  ready_nodup : NoDup q;
  ready_all r : r ∈ q \/ r = range <-> is_Some (R !! r);
  ready_sorted : StronglySorted (due R) q
}.

Lemma Queue_Ready R q range : Queue R q -> is_Some (R !! range) -> Ready R range q.
Proof. intros [Hnd Hall Hs] Hr. split; auto. intros r. rewrite Hall. naive_solver. Qed.

Lemma Queue_Ready_new R q range rg : Queue R q -> R !! range = None -> Ready (<[range := rg]> R) range q.
Proof.
  intros [Hnd Hall Hs] Hr. split; auto.
  - intros r. rewrite Hall, lookup_insert_is_Some'. naive_solver.
  - apply due_insert; [|done]. rewrite Hall, Hr. by intros [].
Qed.

Lemma Ready_size R range q : Ready R range q -> length (range :: others range q) = size R.
Proof.
  intros [Hnd Hall _].
  assert (Hn : NoDup (range :: others range q)).
  { constructor; [rewrite others_elem; tauto|by apply NoDup_filter]. }
  rewrite <- (size_list_to_set (C := gset loc)) by done. rewrite <- size_dom. f_equal. apply set_eq. intros r.
  rewrite elem_of_list_to_set, elem_of_cons, others_elem, elem_of_dom, <- Hall. destruct (decide (r = range)); tauto.
Qed.

Lemma Ready_ext R R' range q : next_act_time <$> R' = next_act_time <$> R -> Ready R range q -> Ready R' range q.
Proof.
  intros Hn [Hnd Hall Hs]. split; [done| |by eapply due_ext].
  intros r. rewrite Hall, <- !elem_of_dom, <- (dom_fmap_L next_act_time R'), Hn. by rewrite dom_fmap_L.
Qed.

Lemma rescheduled_Queue R range rg t q q' :
  Ready R range q -> R !! range = Some rg ->
  rescheduled (<[range := set_next_act_time t rg]> R) range q q' ->
  Queue (<[range := set_next_act_time t rg]> R) q'.
Proof.
  intros [Hnd Hall Hs] Hr [Hp Hs']. split; [|intros r|done].
  - rewrite Hp. constructor; [rewrite others_elem; tauto|by apply NoDup_filter].
  - rewrite Hp, elem_of_cons, others_elem, lookup_insert_is_Some', <- Hall.
    destruct (decide (r = range)); naive_solver.
Qed.

(** [w'] is [w] with [range] due at a later time and the queue in order again. *)
Definition scheduled (w : world) (range : loc) (rg : Range) (w' : world) : Prop :=
  exists t q nr, later E (n_clock w) t /\ q ≡ₚ range :: others range (timer_queue (mc w)) /\
    w' = mkWorld (set_timer_queue q (mc w)) (ivs w) (<[range := set_next_act_time t rg]> (rgs w))
           nr (S (n_clock w)) (n_malloc w).

Lemma schedule_Inv w l range rg :
  Inv_tree w l -> rgs w !! range = Some rg -> live rg -> Ready (rgs w) range (timer_queue (mc w)) ->
  (size (rgs w) <= cap)%nat ->
  wp (tolerated E cap late) (schedule_timer E range) (fun _ w' => scheduled w range rg w' /\ Inv_at w' l) w.
Proof.
  intros [Hc HS Hl HG] Hr Hlive HR Hcap.
  wp_last schedule_timer_wp as (t & q & nr & Ht & Hq & ->); [done|done|apply HR| |apply HR|by rewrite (Ready_size _ _ _ HR)|].
  - intros r Hin. apply HR. by left.
  - split; [exists t, q, nr; destruct Hq; auto|]. split; [split|]; cbn.
    + by destruct Hc.
    + done.
    + eapply linked_ext; [|done]. by eapply fmap_insert_same.
    + eapply Good_ext; [|done]. by eapply fmap_insert_same.
    + by eapply rescheduled_Queue.
Qed.

(** *** Reservation *)

Lemma linked_cons_perm R l l' p c :
  l' ≡ₚ (p, c) :: l -> linked R l ->
  (forall r, c_data c = Some r -> exists rg, R !! r = Some rg /\ interval rg = Some p) -> linked R l'.
Proof.
  intros Hp Hl Hc p' c' r Hin Hd. rewrite Hp in Hin. apply elem_of_cons in Hin as [[= -> ->]|Hin]; eauto.
Qed.

Lemma linked_new R l range rg : R !! range = None -> linked R l -> linked (<[range := rg]> R) l.
Proof.
  intros Hn Hl p c r Hin Hd. destruct (Hl _ _ _ Hin Hd) as (x & Hx & Hi). exists x. split; [|done].
  rewrite lookup_insert_ne; [done|]. intros ->. congruence.
Qed.

Lemma assigned_Inv R w1 l len range rg w2 :
  Client (mc w1) -> linked R l -> Good (range_len (mc w1)) l.*2 R -> R !! range = None ->
  rgs w1 = <[range := rg]> R -> live rg -> 0 < len <= 0xFFFF -> assigned At w1 len l range rg w2 ->
  exists p lo l' nr nm, l' ≡ₚ (p, Content lo (lo + len - 1) (Some range)) :: l /\ Inv_tree w2 l' /\
    w2 = mkWorld (set_ranges (ranges (mc w2)) (mc w1)) (ivs w2) (<[range := set_interval (Some p) rg]> R)
           nr (n_clock w1) nm.
Proof.
  intros Hc Hl HG Hn HR Hlive Hlen (p & lo & h' & root' & l' & nr & nm & H0 & H1 & Hp & HS & ->).
  rewrite HR, insert_insert_eq. exists p, lo, l', nr, nm. split_and!; [done| |done]. split; cbn.
  - by destruct Hc.
  - done.
  - eapply linked_cons_perm; [done|by apply linked_new|]. cbn. intros ? [= <-].
    rewrite lookup_insert_eq. eauto.
  - rewrite Hp. eapply Good_add; eauto. unfold in_pool. cbn. lia.
Qed.

Definition probing (i who : Z) (rg : Range) : Prop :=
  id rg = i /\ state rg = MAAP_STATE_PROBING /\ counter rg = MAAP_PROBE_RETRANSMITS /\
  sender rg = who /\ overlapping rg = false.

(** One more packet waits for transmission. *)
Definition packet_queued (w : world) (p : MAAP_Packet) (w' : world) : Prop :=
  exists n n' rest, net (mc w) = Some n /\ net (mc w') = Some n' /\
    queued n' ≡ₚ (wire p ++ rest) :: queued n.

(** Why a reservation of [len] addresses at [base] fails: the request is too
    large, an allocation failed, or every place tried is taken. *)
Definition refused (w : world) (base len : Z) (l : entries) (res : Maap_Notify_Error) : Prop :=
  (res = MAAP_NOTIFY_ERROR_OUT_OF_MEMORY /\ env_malloc E (n_malloc w) = false) \/
  (res = MAAP_NOTIFY_ERROR_RESERVE_NOT_AVAILABLE /\
     (0xFFFF < len \/ range_len (mc w) < len \/ tried E w base len l ASSIGN_ATTEMPTS)).

(** What [maap_reserve_range] does: it fails, for the reason the notification
    gives, and leaves the reservations alone; or only its last attempt finds a
    place, unnoticed: it reports a failure and leaks a node; or it adds a probing
    range with a fresh block of the requested size. *)
Definition reserve_post (w : world) (l : entries) (who base len rv : Z) (w' : world) : Prop :=
  (rv = -1 /\ Inv_at w' l /\ rgs w' = rgs w /\
     exists res, refused w base len l res /\
       notifies (mc w') = notifies (mc w) ++ [(who, mkNotify MAAP_NOTIFY_ACQUIRED (-1) 0 (u32 len) res)]) \/
  (rv = -1 /\ tried E w base len l (pred ASSIGN_ATTEMPTS) /\
     last_only E (range_len (mc w)) len l.*2 (n_random w) /\
     notifies (mc w') = notifies (mc w) ++
       [(who, mkNotify MAAP_NOTIFY_ACQUIRED (-1) 0 (u32 len) MAAP_NOTIFY_ERROR_RESERVE_NOT_AVAILABLE)] /\
     rgs w' = rgs w /\ timer_queue (mc w') = timer_queue (mc w) /\
     exists p lo l', l' ≡ₚ (p, Content lo (lo + len - 1) None) :: l /\
       Shape At (ivs w') (ranges (mc w')) l') \/
  (rv = s32 (maxid (mc w) + 1) /\ exists range rg p lo l',
     l'.*2 ≡ₚ Content lo (lo + len - 1) (Some range) :: l.*2 /\ Inv_at w' l' /\
     rgs w !! range = None /\ rgs w' = <[range := rg]> (rgs w) /\ probing rv who rg /\
     interval rg = Some p /\ exists n, ivs w' !! p = Some n /\ low n = lo /\ high n = lo + len - 1 /\
     notifies (mc w') = notifies (mc w) ++
       [(who, note_of (mc w) MAAP_NOTIFY_ACQUIRING rv n MAAP_NOTIFY_ERROR_NONE)] /\
     packet_queued w (request (mc w) MAAP_PROBE n) w').

(** Schedule a live range and send the packet [mt] for its block. *)
Definition sends (snd : loc -> MAAP Z) (mt : Z) : Prop := forall range rg n w,
  Client (mc w) -> points w range rg n -> node_in_pool (mc w) n ->
  wp (tolerated E cap late) (snd range) (fun _ => sent (request (mc w) mt n) w) w.

Lemma schedule_send_wp snd mt w l range rg : sends snd mt ->
  Inv_tree w l -> rgs w !! range = Some rg -> live rg -> Ready (rgs w) range (timer_queue (mc w)) ->
  (size (rgs w) <= cap)%nat ->
  wp (tolerated E cap late) (_ ← schedule_timer E range; snd range)
    (fun _ w' => exists w1 n, scheduled w range rg w1 /\ Inv_at w1 l /\ points w range rg n /\
       sent (request (mc w) mt n) w1 w') w.
Proof.
  intros Hsnd HI Hr Hl HR Hcap. wp_use schedule_Inv as [Hs HI1]; [done..|].
  destruct (live_points _ _ _ _ HI Hr Hl) as (p & c & l0 & n & _ & _ & Hi & Hpts & _ & _ & _ & Hn & Hpool).
  destruct Hs as (t & q & nr & Ht & Hq & ->).
  wp_last (Hsnd range (set_next_act_time t rg) n) as Hsent.
  - apply HI1.
  - split; [apply lookup_insert_eq|]. eauto.
  - done.
  - do 2 eexists. split_and!; eauto. exists t, q, nr. auto.
Qed.

Lemma new_Range_wp x Q w :
  (env_malloc E (n_malloc w) = false ->
     Q None (mkWorld (mc w) (ivs w) (rgs w) (n_random w) (n_clock w) (S (n_malloc w)))) ->
  (let r := malloc_addr (rgs w) in rgs w !! r = None ->
     Q (Some r) (mkWorld (mc w) (ivs w) (<[r := x]> (rgs w)) (n_random w) (n_clock w) (S (n_malloc w)))) ->
  wp (tolerated E cap late) (new_Range E x) Q w.
Proof.
  intros HN HS. unfold new_Range. wp_go. destruct (env_malloc E (n_malloc w)); wp_go; auto.
  apply HS, malloc_addr_fresh.
Qed.

(** The part of [maap_reserve_range] behind a successful [assign_interval]. *)
Lemma reserve_tail_wp w l range rg (i : Z) :
  Inv_tree w l -> rgs w !! range = Some rg -> live rg -> Ready (rgs w) range (timer_queue (mc w)) ->
  (size (rgs w) <= cap)%nat ->
  wp (tolerated E cap late)
    (_ ← inform_acquiring E range; _ ← schedule_timer E range; _ ← start_timer;
     _ ← send_probe E range; mret i)
    (fun rv w' => rv = i /\ Inv_at w' l /\ exists t n,
       rgs w' = <[range := set_next_act_time t rg]> (rgs w) /\ points w range rg n /\ ivs w' = ivs w /\
       notifies (mc w') = notifies (mc w) ++
         [(sender rg, note_of (mc w) MAAP_NOTIFY_ACQUIRING (id rg) n MAAP_NOTIFY_ERROR_NONE)] /\
       packet_queued w (request (mc w) MAAP_PROBE n) w') w.
Proof.
  intros HI Hr Hl HR Hcap.
  destruct (live_points _ _ _ _ HI Hr Hl) as (p & c & l0 & n & _ & _ & Hi & Hpts & _ & _ & _ & Hn & Hpool).
  wp_use inform_acquiring_wp as ->; [done|].
  assert (HIa : Inv_tree (mkWorld (set_notifies (notifies (mc w) ++
      [(sender rg, note_of (mc w) MAAP_NOTIFY_ACQUIRING (id rg) n MAAP_NOTIFY_ERROR_NONE)]) (mc w))
      (ivs w) (rgs w) (n_random w) (n_clock w) (S (n_malloc w))) l).
  { destruct HI as [Hc ? ? ?]. split; auto. by destruct Hc. }
  wp_use (schedule_Inv _ l range rg) as [(t & q & nr & Ht & Hq & ->) HI1]; [done..|].
  wp_use start_timer_wp as (Hqt & Hnet & Hnotes); [apply HI1|exact (fun r => queue_in _ _ r HI1)|].
  pose proof (Inv_quiet _ _ _ Hqt HI1) as HI2.
  wp_use (send_probe_wp E range (set_next_act_time t rg) n) as Hsent.
  - apply HI2.
  - eapply quiet_points; [done|]. split; [apply lookup_insert_eq|]. eauto.
  - unfold node_in_pool. rewrite (q_len _ _ Hqt). done.
  - apply wp_ret. split; [done|]. split; [eapply Inv_quiet; eauto|]. exists t, n.
    rewrite (q_rgs _ _ (quiet_sent _ _ _ Hsent)), (q_ivs _ _ (quiet_sent _ _ _ Hsent)), (q_rgs _ _ Hqt), (q_ivs _ _ Hqt).
    split_and!; auto.
    + destruct Hsent as (? & ? & ? & ? & _ & _ & _ & ->). done.
    + destruct Hsent as (m & m' & ? & rest & Hm & _ & Hqu & ->). exists m, m', rest.
      rewrite Hnet in Hm. split_and!; auto. by rewrite (quiet_request _ _ _ _ Hqt) in Hqu.
Qed.

Lemma fail_note_wp w w0 l who base len res :
  Inv_at w l -> rgs w = rgs w0 -> notifies (mc w) = notifies (mc w0) -> refused w0 base len l res ->
  wp (tolerated E cap late) (_ ← inform_not_acquired E who (-1) len res; mret (-1))
    (reserve_post w0 l who base len) w.
Proof.
  intros HI HR Hn Hres. wp_use inform_not_acquired_wp as H. apply wp_ret. left.
  split_and!; [done|eapply Inv_quiet; eauto|by rewrite H|]. exists res. rewrite H. cbn. by rewrite Hn.
Qed.

Lemma maap_reserve_range_wp who base len w l :
  Inv_at w l -> 0 < len -> 0 <= base -> base + len <= 2 ^ 64 -> (size (rgs w) < cap)%nat ->
  wp (tolerated E cap late) (maap_reserve_range E who base len) (reserve_post w l who base len) w.
Proof.
  intros HI Hlen Hb Hb' Hcap. pose proof (inv_client _ _ HI) as Hc. unfold maap_reserve_range. wp_go.
  rewrite (cl_init _ Hc). cbn [negb]. destruct (_ || _) eqn:Ebig.
  { apply fail_note_wp; auto. right. split; [done|]. apply orb_true_iff in Ebig. lia. }
  wp_go. apply new_Range_wp; [intros Hm; cbn beta|].
  { apply fail_note_wp; auto; [|by left]. eapply Inv_quiet; [|exact HI]. by split. }
  intros range Hfresh. cbn beta. wp_go. eapply wp_store_rg; [apply lookup_insert_eq|].
  cbn [mc ivs rgs n_random n_clock n_malloc with_mc with_ivs with_rgs]. rewrite insert_insert_eq.
  set (rg := mkRange _ _ _ _ _ _ _). set (i := s32 (maxid (mc w) + 1)) in *.
  assert (Hc1 : Client (set_maxid i (mc w))) by (by destruct Hc).
  wp_use (assign_interval_wp E HE At range rg base len l) as Hpost;
    [apply (inv_shape _ _ HI)|lia|lia|lia|apply lookup_insert_eq|done|].
  destruct Hpost as [[-> Ha]|[(-> & Hwhy & nr & nm & ->)|(-> & Htried & Hlast & p & Hf)]]; cbn [Z.ltb Z.compare].
  - eapply (assigned_Inv (rgs w)) in Ha as (p & lo & l' & nr & nm & Hp & HI' & Hs');
      [|exact Hc1|apply (inv_linked _ _ HI)|apply (inv_good _ _ HI)|done|done|by left|lia].
    cbn in Hs'. rewrite Hs' in HI' |- *.
    wp_last (reserve_tail_wp _ l' range (set_interval (Some p) rg) i) as (-> & HI'' & t & n & HR & (? & p' & Hi' & Hn) & Hiv & Hnt & Hpq).
    + done.
    + cbn. apply lookup_insert_eq.
    + by left.
    + cbn. apply Queue_Ready_new; [apply HI|done].
    + cbn. rewrite map_size_insert_None by done. lia.
    + cbn in *. injection Hi' as <-. right. right. split; [done|]. rewrite insert_insert_eq in HR.
      destruct (Shape_lookup _ _ _ _ p (Content lo (lo + len - 1) (Some range)) (inv_shape _ _ HI')) as (n' & Hn' & Hlo & Hhi & _).
      { rewrite Hp. set_solver. }
      cbn in *. rewrite Hn in Hn'. injection Hn' as <-. eexists range, _, p, lo, l'. split_and!; [by rewrite Hp|exact HI''|done|exact HR|done|done|].
      exists n. rewrite Hiv. split_and!; auto.
  - wp_use inform_not_acquired_wp as H. eapply wp_bind, wp_free_rg; [rewrite H; apply lookup_insert_eq|]. apply wp_ret.
    rewrite H. cbn. rewrite delete_insert_id by done. left. split_and!; [done| |done|exists MAAP_NOTIFY_ERROR_RESERVE_NOT_AVAILABLE; split; [by right; auto|done]].
    eapply Inv_quiet; [|exact HI]. split; try done; [cbn; lia|]. intros []. by split.
  - destruct Hf as (lo & h' & root' & l' & nr & nm & _ & _ & Hp & HS & ->).
    wp_use inform_not_acquired_wp as H. eapply wp_bind, wp_free_rg; [rewrite H; apply lookup_insert_eq|]. apply wp_ret.
    rewrite H. cbn. rewrite delete_insert_id by done. right. left. split_and!; try done. by exists p, lo, l'.
Qed.
End Invariant.

Arguments sends E cap late snd mt : clear implicits.
