(* ===== verification/MaapHandlers.v ===== *)
(** * MAAP timer expiry and incoming packets

    The two event handlers of the client: [maap_handle_timer] ends and handles
    every due range once; [maap_handle_packet] resolves every conflict, and both
    keep the invariant. *)

From S2P Require Import Prelude.
From S2P Require Import Intervals.
From S2P Require Import IntervalsTheory.
From S2P Require Import MaapPacket.
From S2P Require Import MaapNet.
From S2P Require Import Maap.
From S2P Require Import MaapTheory.
From S2P Require Import MaapInvariant.

Lemma wp_store_id {A} T range rg (k : unit -> MAAP A) Q w : rgs w !! range = Some rg ->
  wp T (store_rg (Some range) (fun x => x) ≫= k) Q w -> wp T (k tt) Q w.
Proof.
  intros Hr. assert (H : wp (fun _ => False) (store_rg (Some range) (fun x => x)) (fun _ w' => w' = w) w).
  { eapply wp_store_rg; [done|]. rewrite insert_id by done. by destruct w. }
  apply wp_returns in H as ([] & w' & H & ->). unfold wp, mbind, M_bind. by rewrite H.
Qed.

Section Timer.
Context (E : Env) (HE : env_ok E) {cap : nat} {late : Prop} (At : iheap -> ptr -> entries -> Prop) `{!IntervalStore At}.

Abbreviation Inv_tree := (Inv_tree At).
Abbreviation Inv_at := (Inv_at At).

(** A range after its timer expired and it was armed for [t]. *)
Definition tick (t : Time) (rg : Range) : Range :=
  set_next_act_time t
    match state rg with
    | MAAP_STATE_PROBING =>
        if counter rg =? 0 then set_state MAAP_STATE_DEFENDING rg
        else set_counter (s32 (counter rg - 1)) rg
    | _ => rg
    end.

(** The packet and the notification the expiry causes. *)
Definition tick_type (rg : Range) : Z :=
  if bool_decide (state rg = MAAP_STATE_PROBING) && negb (counter rg =? 0)
  then MAAP_PROBE else MAAP_ANNOUNCE.

Lemma update_tree w l range rg rg' :
  Inv_tree w l -> rgs w !! range = Some rg -> live rg -> live rg' -> interval rg' = interval rg ->
  Inv_tree (with_rgs (<[range := rg']> (rgs w)) w) l.
Proof.
  intros [Hc HS Hl HG] Hr H H' Hi. split; cbn; auto.
  - eapply linked_ext; [|done]. by eapply fmap_insert_same.
  - by eapply Good_live.
Qed.

Lemma size_insert_live (R : gmap loc Range) r rg rg' : R !! r = Some rg -> size (<[r := rg']> R) = size R.
Proof. intros Hr. rewrite map_size_insert, Hr. done. Qed.

Lemma update_ready w range rg rg' q :
  Ready (rgs w) range q -> rgs w !! range = Some rg -> next_act_time rg' = next_act_time rg ->
  Ready (<[range := rg']> (rgs w)) range q.
Proof. intros HR Hr Hn. eapply Ready_ext; [|done]. by eapply fmap_insert_same. Qed.

(** The result of handling the timer of a live range. *)
Definition ticked (w : world) (l : entries) (range : loc) (rg : Range) (w' : world) : Prop :=
  Inv_at w' l /\ (n_clock w <= n_clock w')%nat /\
  exists t k n, (n_clock w <= k)%nat /\ later E k t /\ rgs w' = <[range := tick t rg]> (rgs w) /\
    timer_queue (mc w') ≡ₚ range :: others range (timer_queue (mc w)) /\ points w range rg n /\
    packet_queued w (request (mc w) (tick_type rg) n) w' /\
    notifies (mc w') = notifies (mc w) ++
      if bool_decide (state rg = MAAP_STATE_PROBING) && (counter rg =? 0)
      then [(sender rg, note_of (mc w) MAAP_NOTIFY_ACQUIRED (id rg) n MAAP_NOTIFY_ERROR_NONE)] else [].

Lemma sends_probe : sends E cap late (send_probe E) MAAP_PROBE.
Proof. intros ? ? ? ? ? ? ?. by eapply send_probe_wp. Qed.

Lemma sends_announce : sends E cap late (send_announce E) MAAP_ANNOUNCE.
Proof. intros ? ? ? ? ? ? ?. by eapply send_announce_wp. Qed.

(** Behind the update of a live range to [rg1], schedule and send. *)
Lemma tick_tail_wp {A} snd mt w0 w l range rg rg1 f (x : A) extra :
  f rg = rg1 ->
  sends E cap late snd mt -> Inv_tree w0 l -> rgs w0 !! range = Some rg -> live rg -> live rg1 ->
  Ready (rgs w0) range (timer_queue (mc w0)) -> (size (rgs w0) <= cap)%nat -> mt = tick_type rg ->
  interval rg1 = interval rg -> next_act_time rg1 = next_act_time rg ->
  (forall t, set_next_act_time t rg1 = tick t rg) -> quiet w0 w -> net (mc w) = net (mc w0) ->
  notifies (mc w) = notifies (mc w0) ++ extra ->
  (forall n, points w0 range rg n -> extra =
     if bool_decide (state rg = MAAP_STATE_PROBING) && (counter rg =? 0)
     then [(sender rg, note_of (mc w0) MAAP_NOTIFY_ACQUIRED (id rg) n MAAP_NOTIFY_ERROR_NONE)] else []) ->
  wp (tolerated E cap late) (_ ← store_rg (Some range) f; _ ← schedule_timer E range; _ ← snd range; mret x)
    (fun _ => ticked w0 l range rg) w.
Proof.
  intros Hf Hsnd HI Hr Hl Hl1 HR Hcap -> Hint Hnat Htick Hq Hnet Hnotes Hextra.
  assert (HI1 : Inv_tree w l).
  { destruct HI. split; rewrite ?(q_ivs _ _ Hq), ?(q_rgs _ _ Hq), ?(q_ranges _ _ Hq), ?(q_len _ _ Hq); auto.
    by apply (q_client _ _ Hq). }
  assert (Hr1 : rgs w !! range = Some rg) by (by rewrite (q_rgs _ _ Hq)). wp_prim. wp_prim. rewrite Hf.
  apply wp_assoc. wp_use (schedule_send_wp E At snd (tick_type rg) _ l range rg1) as (w1 & n & Hs & HI2 & Hp & Hsent).
  - done.
  - by eapply update_tree.
  - cbn. apply lookup_insert_eq.
  - done.
  - cbn. eapply update_ready; [|done..]. by rewrite (q_rgs _ _ Hq), (q_queue _ _ Hq).
  - cbn. rewrite (q_rgs _ _ Hq). by rewrite (size_insert_live _ _ _ _ Hr).
  - apply wp_ret. pose proof (quiet_sent _ _ _ Hsent) as Hqs.
    destruct Hs as (t & q & nr & Ht & Hperm & ->). split; [by eapply Inv_quiet|].
    split. { pose proof (q_clock _ _ Hq). pose proof (q_clock _ _ Hqs). cbn in *. lia. }
    assert (Hpts : points w0 range rg n).
    { destruct Hp as (_ & p & Hip & Hn). split; [done|]. exists p. rewrite <- (q_ivs _ _ Hq), <- Hint. done. }
    destruct Hsent as (m & m' & nm & rest & Hm & _ & Hqu & ->). cbn in Hm, Hperm, Ht |- *.
    exists t, (n_clock w), n. rewrite insert_insert_eq, Htick, (q_rgs _ _ Hq), (q_queue _ _ Hq) in *.
    split_and!; auto; [by apply (q_clock _ _ Hq)| |by rewrite Hnotes, (Hextra n)].
    exists m, m', rest. rewrite <- Hnet. split_and!; auto.
    rewrite <- (quiet_request _ _ _ _ Hq). exact Hqu.
Qed.

Lemma handle_probe_timer_wp w l range rg :
  Inv_tree w l -> rgs w !! range = Some rg -> state rg = MAAP_STATE_PROBING ->
  Ready (rgs w) range (timer_queue (mc w)) -> (size (rgs w) <= cap)%nat ->
  wp (tolerated E cap late) (handle_probe_timer E range) (fun _ => ticked w l range rg) w.
Proof.
  intros HI Hr Hst HR Hcap. assert (Hl : live rg) by (by left). unfold handle_probe_timer. wp_go.
  destruct (counter rg =? 0) eqn:Ec.
  - destruct (live_points _ _ _ _ _ HI Hr Hl) as (p & c & l0 & n & _ & _ & Hi & Hpts & _).
    wp_use inform_acquired_wp as H; [done|].
    eapply (tick_tail_wp (send_announce E) MAAP_ANNOUNCE); eauto using sends_announce.
    + by right.
    + unfold tick_type. by rewrite Ec, andb_false_r.
    + intros t. unfold tick. by rewrite Hst, Ec.
    + by rewrite H.
    + by rewrite H.
    + intros n' Hp'. rewrite bool_decide_true, Ec by done. cbn.
      destruct Hpts as (_ & p1 & ? & ?), Hp' as (_ & p2 & ? & ?). by simplify_eq.
  - eapply (tick_tail_wp (send_probe E) MAAP_PROBE) with (extra := []); eauto using sends_probe.
    + unfold tick_type. by rewrite Ec, bool_decide_true.
    + intros t. unfold tick. by rewrite Hst, Ec.
    + done.
    + by rewrite app_nil_r.
    + intros n' Hp'. by rewrite Ec, andb_false_r.
Qed.

Lemma handle_defend_timer_wp w l range rg :
  Inv_tree w l -> rgs w !! range = Some rg -> state rg = MAAP_STATE_DEFENDING ->
  Ready (rgs w) range (timer_queue (mc w)) -> (size (rgs w) <= cap)%nat ->
  wp (tolerated E cap late) (handle_defend_timer E range) (fun _ => ticked w l range rg) w.
Proof.
  intros HI Hr Hst HR Hcap. assert (Hl : live rg) by (by right).
  unfold handle_defend_timer. eapply (wp_store_id _ range rg (fun _ => _)); [done|].
  eapply (tick_tail_wp (send_announce E) MAAP_ANNOUNCE) with (extra := []); eauto using sends_announce.
  - unfold tick_type. by rewrite bool_decide_false by congruence.
  - intros t. unfold tick. by rewrite Hst.
  - done.
  - by rewrite app_nil_r.
  - intros n' Hp'. by rewrite bool_decide_false by congruence.
Qed.

Lemma linked_free R l range : range ∉ owners l.*2 -> linked R l -> linked (delete range R) l.
Proof.
  intros Hr Hl p c r Hin Hd. rewrite lookup_delete_ne; [by eapply Hl|].
  intros ->. apply Hr, owners_elem. exists c. split; [|done]. apply list_elem_of_fmap. by exists (p, c).
Qed.

Lemma due_delete R r q : StronglySorted (due R) q -> StronglySorted (due (delete r R)) q.
Proof.
  induction 1 as [|x q Hs IH Hx]; constructor; auto. eapply Forall_impl; [exact Hx|].
  intros y Hd a b [_ Ha]%lookup_delete_Some [_ Hb]%lookup_delete_Some. by apply Hd.
Qed.

Lemma Queue_pop R range rest : Queue R (range :: rest) -> Ready R range rest.
Proof.
  intros [Hnd Hall Hs]. apply NoDup_cons in Hnd as [? ?]. apply StronglySorted_inv in Hs as [? ?].
  split; auto. intros r. rewrite <- Hall, elem_of_cons. tauto.
Qed.

Lemma Queue_free R range rest : Queue R (range :: rest) -> Queue (delete range R) rest.
Proof.
  intros [Hnd Hall Hs]. apply NoDup_cons in Hnd as [Hn ?]. apply StronglySorted_inv in Hs as [? ?].
  split; [done| |by apply due_delete]. intros r. specialize (Hall r). rewrite elem_of_cons in Hall.
  destruct (decide (r = range)) as [->|Hne].
  - rewrite lookup_delete_eq. split; [done|by intros []].
  - rewrite lookup_delete_ne by done. tauto.
Qed.

(** One range taken from the head of the queue and handled. *)
Definition stepped (w : world) (range : loc) (rest : list loc) (rg : Range) (w' : world) : Prop :=
  (live rg /\ exists t k, (n_clock w <= k)%nat /\ later E k t /\
     rgs w' = <[range := tick t rg]> (rgs w) /\ timer_queue (mc w') ≡ₚ range :: rest) \/
  (state rg = MAAP_STATE_RELEASED /\ rgs w' = delete range (rgs w) /\ timer_queue (mc w') = rest).

Lemma ticked_stepped w l range rest rg w' : live rg -> range ∉ rest ->
  ticked (with_mc (set_timer_queue rest) w) l range rg w' ->
  Inv_at w' l /\ (n_clock w <= n_clock w')%nat /\ stepped w range rest rg w'.
Proof.
  intros Hl Hn (HI & Hclk & t & k & n & Hk & Ht & HR & Hq & _). split_and!; auto. left. split; [done|].
  exists t, k. cbn in *. rewrite others_id in Hq by done. auto.
Qed.

Lemma timer_step_wp w l range rest rg :
  Inv_at w l -> timer_queue (mc w) = range :: rest -> rgs w !! range = Some rg ->
  (size (rgs w) <= cap)%nat ->
  wp (tolerated E cap late) (timer_step E range rest)
    (fun _ w' => Inv_at w' l /\ (n_clock w <= n_clock w')%nat /\ stepped w range rest rg w') w.
Proof.
  intros [HI HQ] Eq Hr Hcap. rewrite Eq in HQ. pose proof (Queue_pop _ _ _ HQ) as HR.
  assert (Hn : range ∉ rest) by (by destruct HQ as [[? _]%NoDup_cons _ _]).
  assert (HI1 : Inv_tree (with_mc (set_timer_queue rest) w) l).
  { destruct HI as [Hc ? ? ?]. split; auto. by destruct Hc. }
  unfold timer_step. wp_go. destruct (good_state _ _ _ (inv_good _ _ _ HI) _ _ Hr) as [Hl|Hrel].
  - destruct Hl as [Hst|Hst]; rewrite Hst; apply wp_bind.
    + wp_last (handle_probe_timer_wp (with_mc (set_timer_queue rest) w) l range rg) as H; [done..|].
      apply wp_ret, (ticked_stepped _ _ _ _ _ _ (or_introl Hst) Hn H).
    + wp_last (handle_defend_timer_wp (with_mc (set_timer_queue rest) w) l range rg) as H; [done..|].
      apply wp_ret, (ticked_stepped _ _ _ _ _ _ (or_intror Hst) Hn H).
  - rewrite Hrel. eapply wp_free_rg; [done|]. cbn. split_and!; [|lia|by right].
    destruct HI1 as [Hc HS Hlk HG]. split; [split|]; cbn; auto.
    + apply linked_free; [|done]. rewrite (good_owner _ _ _ HG). cbn. intros (x & Hx & [?|?]); congruence.
    + by eapply Good_free.
    + by apply Queue_free.
Qed.

(** *** The loop *)

Definition is_due (now : Time) (R : gmap loc Range) (r : loc) : Prop :=
  match R !! r with Some rg => time_le (next_act_time rg) now | None => False end.

#[local] Instance is_due_dec now R r : Decision (is_due now R r).
Proof. unfold is_due. destruct (R !! r); apply _. Defined.

Definition pending (now : Time) (R : gmap loc Range) (q : list loc) : nat :=
  length (filter (is_due now R) q).

Lemma pending_perm now R q q' : q ≡ₚ q' -> pending now R q = pending now R q'.
Proof. unfold pending. by intros ->. Qed.

Lemma pending_ext now R R' q : (forall r, r ∈ q -> R' !! r = R !! r) -> pending now R' q = pending now R q.
Proof.
  unfold pending. induction q as [|r q IH]; intros H; [done|]. rewrite !filter_cons.
  assert (is_due now R' r <-> is_due now R r) by (unfold is_due; rewrite H; set_solver).
  repeat case_decide; cbn; rewrite ?IH by set_solver; tauto.
Qed.

Lemma later_not_due i k t : (i <= k)%nat -> later E k t -> ~ time_le t (env_clock E i).
Proof.
  intros Hik (n & Hn & ->) Hle. apply (Time_add_later (env_clock E k) n); [by apply HE|done|].
  etrans; [done|]. by apply HE.
Qed.

(** What the loop makes of one range object, according to its deadline. *)
Definition expired_once (now : Time) (rg : Range) (after : option Range) : Prop :=
  if decide (time_le (next_act_time rg) now)
  then (live rg /\ exists t, ~ time_le t now /\ after = Some (tick t rg)) \/
       (state rg = MAAP_STATE_RELEASED /\ after = None)
  else after = Some rg.

Definition loop_post (i : nat) (R R' : gmap loc Range) : Prop :=
  (forall r rg, R !! r = Some rg -> expired_once (env_clock E i) rg (R' !! r)) /\
  (forall r, R !! r = None -> R' !! r = None).

Lemma stepped_pending w range rest rg w' i :
  range ∉ rest -> rgs w !! range = Some rg -> time_le (next_act_time rg) (env_clock E i) ->
  (i <= n_clock w)%nat -> stepped w range rest rg w' ->
  pending (env_clock E i) (rgs w) (range :: rest) = S (pending (env_clock E i) (rgs w') (timer_queue (mc w'))).
Proof.
  intros Hn Hr Hdue Hi Hst.
  assert (H1 : pending (env_clock E i) (rgs w) (range :: rest) = S (pending (env_clock E i) (rgs w) rest)).
  { unfold pending. rewrite filter_cons_True; [done|]. unfold is_due. by rewrite Hr. }
  rewrite H1. f_equal. destruct Hst as [(_ & t & k & Hk & Ht & HR & Hq)|(_ & HR & Hq)]; rewrite HR.
  - rewrite (pending_perm _ _ _ _ Hq). unfold pending at 2. rewrite filter_cons_False.
    + symmetry. apply pending_ext. intros r Hr'. apply lookup_insert_ne. set_solver.
    + unfold is_due. rewrite lookup_insert_eq. cbn. eapply later_not_due; [|done]. lia.
  - rewrite Hq. symmetry. apply pending_ext. intros r Hr'. apply lookup_delete_ne. set_solver.
Qed.

Lemma stepped_post w range rest rg w' R' i :
  rgs w !! range = Some rg -> time_le (next_act_time rg) (env_clock E i) -> (i <= n_clock w)%nat ->
  stepped w range rest rg w' -> loop_post i (rgs w') R' -> loop_post i (rgs w) R'.
Proof.
  intros Hr Hdue Hi Hst [Hsome Hnone]. split; intros r.
  - intros x Hx. destruct (decide (r = range)) as [->|Hne].
    + simplify_eq. unfold expired_once. rewrite decide_True by done.
      destruct Hst as [(Hl & t & k & Hk & Ht & HR & _)|(Hrel & HR & _)]; rewrite HR in *.
      * left. split; [done|]. assert (Hnd : ~ time_le t (env_clock E i)) by (eapply later_not_due; [|done]; lia).
        exists t. split; [done|]. specialize (Hsome range _ (lookup_insert_eq _ _ _)). unfold expired_once in Hsome.
        by rewrite decide_False in Hsome.
      * right. split; [done|]. apply Hnone, lookup_delete_eq.
    + apply Hsome. destruct Hst as [(_ & t & k & _ & _ & -> & _)|(_ & -> & _)];
        [by rewrite lookup_insert_ne|by rewrite lookup_delete_ne].
  - intros Hx. apply Hnone. destruct Hst as [(_ & t & k & _ & _ & -> & _)|(_ & -> & _)].
    + rewrite lookup_insert_ne; [done|]. congruence.
    + rewrite lookup_delete_None. auto.
Qed.

Lemma stepped_size w range rest rg w' : rgs w !! range = Some rg -> stepped w range rest rg w' ->
  (size (rgs w') <= size (rgs w))%nat.
Proof.
  intros Hr [(_ & t & k & _ & _ & -> & _)|(_ & -> & _)].
  - by rewrite (size_insert_live _ _ _ _ Hr).
  - rewrite map_size_delete, Hr. apply Nat.le_pred_l.
Qed.

Lemma timer_loop_wp fuel i : forall w l, Inv_at w l -> (i <= n_clock w)%nat ->
  (pending (env_clock E i) (rgs w) (timer_queue (mc w)) < fuel)%nat ->
  (size (rgs w) <= cap)%nat ->
  wp (tolerated E cap late) (timer_loop E fuel (env_clock E i))
    (fun _ w' => Inv_at w' l /\ loop_post i (rgs w) (rgs w')) w.
Proof.
  induction fuel as [|fuel IH]; intros w l HI Hi Hf Hcap; [lia|]. cbn [timer_loop]. wp_go.
  pose proof (inv_queue _ _ _ HI) as HQ. destruct (timer_queue (mc w)) as [|range rest] eqn:Eq.
  - apply wp_ret. split; [done|]. split; [|done]. intros r rg Hr. exfalso.
    by apply (elem_of_nil r), HQ.
  - destruct (queue_in _ _ _ range HI) as [rg Hr]; [rewrite Eq; set_solver|]. wp_go.
    destruct (Time_passed _ _) eqn:Ep.
    + apply Time_passed_spec in Ep. wp_use timer_step_wp as (HI1 & Hclk & Hst); [done..|].
      assert (Hn : range ∉ rest) by (by destruct HQ as [[? _]%NoDup_cons _ _]).
      wp_last IH as [HI2 Hpost]; [done|lia| |pose proof (stepped_size _ _ _ _ _ Hr Hst); lia|].
      * rewrite (stepped_pending _ _ _ _ _ _ Hn Hr Ep Hi Hst) in Hf. lia.
      * split; [done|]. by eapply stepped_post.
    + apply wp_ret. split; [done|]. split; [|done]. intros r x Hx. unfold expired_once. rewrite decide_False; [done|].
      intros Hle. assert (Hin : r ∈ range :: rest) by (apply HQ; eauto).
      assert (Hno : ~ time_le (next_act_time rg) (env_clock E i)) by (rewrite <- Time_passed_spec, Ep; done).
      apply elem_of_cons in Hin as [->|Hin]; [by simplify_eq|]. apply Hno. etrans; [|exact Hle].
      destruct HQ as [_ _ [_ Hall]%StronglySorted_inv]. rewrite Forall_forall in Hall. by apply (Hall r).
Qed.

Lemma maap_handle_timer_wp w l : Inv_at w l -> (size (rgs w) <= cap)%nat ->
  wp (tolerated E cap late) (maap_handle_timer E)
    (fun rv w' => rv = 0 /\ Inv_at w' l /\ loop_post (n_clock w) (rgs w) (rgs w')) w.
Proof.
  intros HI Hcap. unfold maap_handle_timer. wp_go.
  wp_last (timer_loop_wp _ (n_clock w) _ l) as [HI1 Hpost]; cbn.
  - eapply Inv_quiet; [|exact HI]. split; try done; cbn; lia.
  - lia.
  - unfold pending. pose proof (length_filter (is_due (env_clock E (n_clock w)) (rgs w)) (timer_queue (mc w))). lia.
  - done.
  - wp_use start_timer_wp as (Hq & _ & _); [apply HI1|exact (fun r => queue_in _ _ _ r HI1)|]. apply wp_ret.
    split_and!; [done|by eapply Inv_quiet|]. cbn in Hpost. by rewrite (q_rgs _ _ Hq).
Qed.
End Timer.
