(* ===== verification/MaapConflict.v ===== *)
(** * Incoming MAAP packets

    Every range a packet overlaps is flagged, then the flagged ranges are resolved
    one by one: a probing range moves to another block or gives up, a defended one
    is defended, kept or yielded. *)

From S2P Require Import Prelude.
From S2P Require Import Intervals.
From S2P Require Import IntervalsTheory.
From S2P Require Import MaapPacket.
From S2P Require Import MaapNet.
From S2P Require Import Maap.
From S2P Require Import MaapTheory.
From S2P Require Import MaapInvariant.
From S2P Require Import MaapHandlers.

Lemma elem_of_middle {A} (x : A) l1 l2 : x ∈ l1 ++ x :: l2.
Proof. apply elem_of_app. right. apply list_elem_of_here. Qed.

Section Conflict.
Context (E : Env) (HE : env_ok E) {cap : nat} {late : Prop} (At : iheap -> ptr -> entries -> Prop) `{!IntervalStore At}.

Abbreviation Inv_tree := (Inv_tree At).
Abbreviation Inv_at := (Inv_at At).

(** The pool is the same, and there is at most one more range. *)
Definition grown (w w' : world) : Prop :=
  range_len (mc w') = range_len (mc w) /\
  (length (timer_queue (mc w')) <= S (length (timer_queue (mc w))))%nat.

Lemma grown_quiet w w' : quiet w w' -> grown w w'.
Proof. intros Hq. split; [apply Hq|]. rewrite (q_queue _ _ Hq). lia. Qed.

(** What the causes of the faults are compared with: [k] more ranges fit, and a
    run of answers of which only the last fits is a reason for [late]. *)
Definition room (w : world) (l : entries) (k : nat) : Prop :=
  (length (timer_queue (mc w)) + k <= cap)%nat /\
  (late_draw E (range_len (mc w)) (length l) -> late).

Lemma room_grown w l w' l' k : room w l (S k) -> grown w w' -> (length l' <= length l)%nat -> room w' l' k.
Proof.
  intros [Hc Hl] [Hp Hq] Hlen. split; [lia|]. rewrite Hp. intros (size & cs & n & ? & ? & ?).
  apply Hl. exists size, cs, n. split; [done|]. split; [lia|done].
Qed.

Lemma Queue_size R q : Queue R q -> size R = length q.
Proof.
  intros [Hnd Hall _]. rewrite <- (size_list_to_set (C := gset loc)) by done. rewrite <- size_dom. f_equal.
  apply set_eq. intros r. by rewrite elem_of_list_to_set, elem_of_dom, Hall.
Qed.

(** The conflict of one range is resolved: the other entries are untouched. *)
Definition resolved (w : world) (l0 : entries) (w' : world) : Prop :=
  exists (l' : entries) cs, Inv_at w' l' /\ l'.*2 ≡ₚ cs ++ l0.*2 /\ (length cs <= 1)%nat /\ grown w w' /\
    forall r, flagged (rgs w') r <-> flagged (rgs w) r.

(** The size of a node of the pool, as the source computes it. *)
Lemma range_size_pool c n : Client c -> node_in_pool c n ->
  range_size n = high n - low n + 1 /\ u16 (range_size n) = high n - low n + 1 /\
  0 < high n - low n + 1 <= 0xFFFF.
Proof.
  intros [_ _ _ Hb Hl _ _] [H1 [H2 H3]]. cbn in *. unfold range_size.
  rewrite u32_small by (unfold is_u32; lia). rewrite s32_small by lia.
  rewrite u16_small by (unfold is_u16; lia). lia.
Qed.

(** *** A probing range *)

Lemma probing_moved_wp w2 l2 p p' cn lo len l0 c range rg :
  Client (mc w2) -> Shape At (ivs w2) (ranges (mc w2)) l2 -> linked (rgs w2) l2 ->
  rgs w2 !! range = Some rg -> state rg = MAAP_STATE_PROBING -> c_data cn = None ->
  l2 ≡ₚ (p', Content lo (lo + len - 1) (Some range)) :: (p, cn) :: l0 ->
  0 <= lo -> lo + len <= range_len (mc w2) -> 0 < len <= 0xFFFF -> c_data c = Some range ->
  Good (range_len (mc w2)) (c :: l0.*2) (rgs w2) -> Queue (rgs w2) (timer_queue (mc w2)) ->
  (length (timer_queue (mc w2)) <= cap)%nat ->
  wp (tolerated E cap late)
    (_ ← inform_acquiring E range; _ ← remove_range_interval (Some p);
     _ ← store_rg (Some range) (set_counter MAAP_PROBE_RETRANSMITS);
     _ ← schedule_timer E range; _ ← send_probe E range; mret tt)
    (fun _ => resolved w2 l0) w2.
Proof.
  intros Hc HS Hl Hr Hst Hcn Hp H0 H1 Hlen Hd HG HQ Hcap. set (c' := Content lo (lo + len - 1) (Some range)) in *.
  assert (HG' : Good (range_len (mc w2)) (c' :: l0.*2) (rgs w2)).
  { eapply Good_move; [exact HG| |by rewrite Hd]. unfold in_pool. cbn. lia. }
  assert (Hin : (p', c') ∈ l2) by (by eapply elem_of_perm_head).
  destruct (Hl p' c' range Hin eq_refl) as (rg' & Hr' & Hi). simplify_eq.
  destruct (Shape_lookup _ _ _ _ _ _ HS Hin) as (n & Hn & _ & _ & Hdn).
  wp_use inform_acquiring_wp as Hnote; [split; eauto|]. pose proof (quiet_notified _ _ _ _ Hnote) as Hq.
  wp_use (remove_range_interval_wp E HE At p cn l2 ((p', c') :: l0)) as Hdrop.
  - by rewrite (q_ivs _ _ Hq), (q_ranges _ _ Hq).
  - rewrite Hp. solve_Permutation.
  - rewrite Hp. cbn. rewrite !owners_cons, Hcn. cbn. pose proof (good_nodup _ _ _ HG') as Hnd.
    by rewrite owners_cons in Hnd.
  - by rewrite (q_rgs _ _ Hq).
  - intros Hex. exfalso. pose proof (good_data _ _ _ HG') as Hall. cbn in Hex.
    apply Exists_exists in Hex as (x & Hx & Hxd). rewrite Forall_forall in Hall.
    destruct (Hall x Hx). congruence.
  - destruct Hdrop as (_ & l3 & h3 & root3 & R3 & Hp3 & HS3 & Hl3 & Hm & ->). rewrite (q_rgs _ _ Hq) in Hm.
    destruct (same_meta_lookup _ _ _ _ Hm Hr) as (rg3 & Hr3 & Hmeta).
    assert (Hst3 : state rg3 = MAAP_STATE_PROBING).
    { apply (f_equal state) in Hmeta. cbn in Hmeta. congruence. }
    wp_prim. wp_prim. cbn [rgs with_rgs mc ivs]. apply wp_assoc.
    wp_use (schedule_send_wp E At (send_probe E) MAAP_PROBE _ l3 range) as (w4 & n4 & Hs & HI4 & _ & Hsent).
    + apply sends_probe.
    + split; cbn.
      * apply (q_client _ _ Hq) in Hc. by destruct Hc.
      * done.
      * eapply linked_ext; [|done]. by eapply fmap_insert_same.
      * rewrite (q_len _ _ Hq), Hp3. eapply Good_live; [|done|by left|by left].
        eapply Good_ext; [by apply same_meta_field|done].
    + cbn. apply lookup_insert_eq.
    + by left.
    + cbn. rewrite (q_queue _ _ Hq). apply Queue_Ready; [|rewrite lookup_insert_eq; eauto].
      eapply Queue_ext; [by eapply fmap_insert_same|]. eapply Queue_ext; [by apply same_meta_field|done].
    + cbn. by rewrite (size_insert_live _ _ _ _ Hr3), (same_meta_size _ _ Hm), (Queue_size _ _ HQ).
    + apply wp_ret. destruct Hs as (t & q & nr & _ & Hqp & ->). pose proof (quiet_sent _ _ _ Hsent) as Hqs.
      exists l3, [c']. split_and!; [eapply Inv_quiet; eauto|by rewrite Hp3|done| |].
      { split; [by rewrite (q_len _ _ Hqs), <- (q_len _ _ Hq)|]. rewrite (q_queue _ _ Hqs). cbn in *.
        rewrite Hqp, (q_queue _ _ Hq). cbn. unfold others. pose proof (length_filter (fun r => r <> range) (timer_queue (mc w2))). lia. }
      intros r. rewrite (q_rgs _ _ Hqs). cbn.
      transitivity (flagged R3 r); apply flagged_ext; [|by apply same_meta_field].
      rewrite insert_insert_eq. by eapply fmap_insert_same.
Qed.

Lemma resolved_kept w l p c l0 w' : Inv_at w l -> l ≡ₚ (p, c) :: l0 -> quiet w w' -> resolved w l0 w'.
Proof.
  intros HI Hp Hq. exists l, [c]. split_and!; [by eapply Inv_quiet|by rewrite Hp|done|by apply grown_quiet|].
  intros r. by rewrite (q_rgs _ _ Hq).
Qed.

Lemma linked_sub R l l' p c : l ≡ₚ (p, c) :: l' -> linked R l -> linked R l'.
Proof. intros Hp Hl p' c' r Hin. apply Hl. rewrite Hp. set_solver. Qed.

(** No block was found; or one was, by the last attempt, and then the removal of
    the old node runs into the node without owner. *)
Lemma probing_gives_up_wp w l p cn l0' l0 c range rg size :
  Client (mc w) -> Shape At (ivs w) (ranges (mc w)) l -> linked (rgs w) l ->
  Queue (rgs w) (timer_queue (mc w)) -> l ≡ₚ (p, cn) :: l0' -> c_data cn = None ->
  l0' = l0 \/ (late /\ exists p' c', c_data c' = None /\ l0' = (p', c') :: l0) ->
  rgs w !! range = Some rg -> c_data c = Some range -> Good (range_len (mc w)) (c :: l0.*2) (rgs w) ->
  wp (tolerated E cap late)
    (r ← load_rg (Some range);
     _ ← inform_not_acquired E (sender r) (id r) size MAAP_NOTIFY_ERROR_RESERVE_NOT_AVAILABLE;
     _ ← remove_range_interval (Some p);
     store_rg (Some range) (set_state MAAP_STATE_RELEASED)) (fun _ => resolved w l0) w.
Proof.
  intros Hc HS Hl HQ Hp Hcn Hcase Hr Hd HG. wp_go. wp_last inform_not_acquired_wp as Hnote.
  pose proof (quiet_notified _ _ _ _ Hnote) as Hq.
  wp_use (remove_range_interval_wp E HE At p cn l l0') as Hdrop.
  - by rewrite (q_ivs _ _ Hq), (q_ranges _ _ Hq).
  - done.
  - rewrite Hp. cbn. rewrite owners_cons, Hcn. cbn. pose proof (good_nodup _ _ _ HG) as Hnd.
    rewrite owners_cons in Hnd. apply NoDup_app in Hnd as (_ & _ & ?).
    destruct Hcase as [->|(_ & p' & c' & Hn & ->)]; [done|]. cbn. by rewrite owners_cons, Hn.
  - by rewrite (q_rgs _ _ Hq).
  - intros Hex. destruct Hcase as [->|[? _]]; [|done]. exfalso.
    pose proof (good_data _ _ _ HG) as [_ Hall]%Forall_cons.
    apply Exists_exists in Hex as (x & Hx & Hxd). rewrite Forall_forall in Hall. destruct (Hall x Hx). congruence.
  - destruct Hcase as [->|(_ & p' & c' & Hn & ->)].
    + wp_last (release_tail E HE At s' c l0 s'0 range) as (l' & Hl' & HI' & Hmc & Hfl & _); [| | |done|done|].
      * by apply (q_client _ _ Hq).
      * by rewrite (q_rgs _ _ Hq), (q_len _ _ Hq).
      * by rewrite (q_rgs _ _ Hq), (q_queue _ _ Hq).
      * exists l', []. split_and!; auto; [|intros r; by rewrite Hfl, (q_rgs _ _ Hq)].
        destruct Hdrop as (_ & ? & ? & ? & ? & _ & _ & _ & _ & ->). unfold grown. rewrite Hmc. cbn.
        by apply grown_quiet.
    + destruct Hdrop as ([Hs _]%Forall_cons & _). cbn in Hs. rewrite Hn in Hs. by destruct Hs.
Qed.

Lemma conflict_probing_wp pkt w l p c l0 range rg :
  Inv_at w l -> l ≡ₚ (p, c) :: l0 -> c_data c = Some range ->
  rgs w !! range = Some rg -> state rg = MAAP_STATE_PROBING -> room w l 0 ->
  wp (tolerated E cap late) (conflict_probing E pkt p range) (fun _ => resolved w l0) w.
Proof.
  intros HI Hp Hd Hr Hst [Hcap Hlate]. pose proof (inv_client _ _ _ HI) as Hc. unfold conflict_probing. wp_go.
  destruct (_ && _); [apply wp_ret; by eapply resolved_kept|].
  assert (HG : Good (range_len (mc w)) (c :: l0.*2) (rgs w)).
  { pose proof (inv_good _ _ _ HI) as HG. by rewrite Hp in HG. }
  destruct (Shape_lookup _ _ _ _ p c (inv_shape _ _ _ HI)) as (n & Hn & Hlo & Hhi & Hdn); [by eapply elem_of_perm_head|].
  assert (Hpool : node_in_pool (mc w) n).
  { pose proof (good_pool _ _ _ HG) as [Hpool _]%Forall_cons. unfold node_in_pool, in_pool in *. cbn. by rewrite Hlo, Hhi. }
  destruct (range_size_pool _ _ Hc Hpool) as (_ & Hsz & Hlen).
  destruct (Shape_set_data E HE _ _ _ _ _ _ _ _ None (inv_shape _ _ _ HI) Hp Hn) as (l1 & Hp1 & HS1).
  set (cn := Content (c_low c) (c_high c) None) in *.
  assert (Hl1 : linked (rgs w) l1).
  { eapply linked_cons_perm; [exact Hp1|by eapply linked_sub, HI|done]. }
  wp_go. rewrite Hsz. wp_last (assign_interval_wp E HE At range rg 0 _ l1) as Hpost; [done|lia|lia|lia|done|done|].
  destruct Hpost as [[-> Ha]|[(-> & _ & nr & nm & ->)|(-> & _ & Hlast & p' & Hf)]]; cbn [Z.ltb Z.compare].
  - destruct Ha as (p' & lo & h' & root' & l2 & nr & nm & H0 & H1 & Hp2 & HS2 & ->). rewrite Hp1 in Hp2.
    wp_last (probing_moved_wp _ l2 p p' cn lo (high n - low n + 1) l0 c range (set_interval (Some p') rg)) as Hres; cbn; auto; try done.
    + by destruct Hc.
    + eapply linked_cons_perm; [exact Hp2| |].
      * eapply linked_cons_perm; [reflexivity| |done]. apply linked_repoint; [|by eapply linked_sub, HI].
        pose proof (good_nodup _ _ _ HG) as Hnd. rewrite owners_cons, Hd in Hnd. by apply NoDup_cons in Hnd as [? _].
      * cbn. intros ? [= <-]. rewrite lookup_insert_eq. eauto.
    + apply lookup_insert_eq.
    + eapply Good_ext; [|done]. by eapply fmap_insert_same.
    + eapply Queue_ext; [by eapply fmap_insert_same|apply HI].
    + lia.
    + destruct Hres as (l' & cs & HI' & Hp' & Hcs & Hg & Hfl). exists l', cs. split_and!; auto. intros r. rewrite Hfl. cbn.
      apply flagged_ext. by eapply fmap_insert_same.
  - wp_last (probing_gives_up_wp _ l1 p cn l0 l0 c range rg) as H; eauto. apply HI.
  - destruct Hf as (lo & h' & root' & l2 & nr & nm & _ & _ & Hp2 & HS2 & ->). rewrite Hp1 in Hp2.
    wp_last (probing_gives_up_wp _ l2 p cn ((p', Content lo (lo + (high n - low n + 1) - 1) None) :: l0) l0 c range rg) as H;
      eauto; [by destruct Hc| |apply HI| |].
    + eapply linked_cons_perm; [exact Hp2| |done].
      eapply linked_cons_perm; [reflexivity|by eapply linked_sub, HI|done].
    + rewrite Hp2. solve_Permutation.
    + right. split; [|do 2 eexists; split; [|reflexivity]; done]. apply Hlate.
      exists (high n - low n + 1), l1.*2, (n_random w). split; [lia|]. split; [|exact Hlast].
      by rewrite length_fmap, Hp1, Hp.
Qed.

(** *** A defended range *)

Lemma drop_range_wp w l p c l0 range :
  Inv_at w l -> l ≡ₚ (p, c) :: l0 -> c_data c = Some range ->
  wp (tolerated E cap late) (_ ← remove_range_interval (Some p); store_rg (Some range) (set_state MAAP_STATE_RELEASED))
    (fun _ w' => exists l' : entries, l'.*2 ≡ₚ l0.*2 /\ Inv_at w' l' /\
       range_len (mc w') = range_len (mc w) /\ timer_queue (mc w') = timer_queue (mc w) /\
       (forall r, flagged (rgs w') r <-> flagged (rgs w) r) /\ released w' range) w.
Proof.
  intros HI Hp Hd. wp_use (remove_range_interval_wp E HE At p c l l0) as Hdrop;
    [apply HI|done|apply (inv_good _ _ _ HI)|apply HI| |].
  { intros Hex. by destruct (Inv_owned _ _ _ _ _ HI Hp). }
  wp_last (release_tail E HE At w c l0 _ range) as (l' & Hl' & HI' & Hmc & Hfl & Hrel); [apply HI| |apply HI|done|done|].
  - pose proof (inv_good _ _ _ HI) as HG. by rewrite Hp in HG.
  - exists l'. rewrite Hmc. destruct Hdrop as (_ & ? & ? & ? & ? & _ & _ & _ & _ & ->). split_and!; auto.
Qed.

(** The replacement is taken care of: [w'] holds [l] and perhaps the entry of
    the replacement; or a node without owner, left by the last attempt. *)
Definition replaced (w : world) (l : entries) (w' : world) : Prop :=
  (exists lx l', l' ≡ₚ lx ++ l /\ (length lx <= 1)%nat /\ Inv_at w' l' /\ grown w w' /\
     forall r, flagged (rgs w') r <-> flagged (rgs w) r) \/
  (late /\ exists pn cn l', l' ≡ₚ (pn, cn) :: l /\ c_data cn = None /\ rgs w' = rgs w /\
     Shape At (ivs w') (ranges (mc w')) l').

Lemma yield_drop_wp w0 w l p c l0 range :
  Inv_at w0 l -> replaced w0 l w -> l ≡ₚ (p, c) :: l0 -> c_data c = Some range ->
  wp (tolerated E cap late) (_ ← remove_range_interval (Some p); store_rg (Some range) (set_state MAAP_STATE_RELEASED))
    (fun _ w' => resolved w0 l0 w' /\ released w' range) w.
Proof.
  intros HI0 [(lx & l' & Hp' & Hlx & HI & Hg & Hfl)|(Hlt & pn & cn & l' & Hp' & Hcn & HR & HS)] Hp Hd.
  - wp_last (drop_range_wp w l' p c (lx ++ l0) range) as (l'' & Hl'' & HI'' & Hpl & Hqe & Hfl'' & Hrel).
    + done.
    + rewrite Hp', Hp. solve_Permutation.
    + done.
    + split; [|done]. exists l'', lx.*2. rewrite <- fmap_app. rewrite length_fmap. unfold grown.
      rewrite Hpl, Hqe. split_and!; auto; [apply Hg..|]. intros r. by rewrite Hfl'', Hfl.
  - wp_use (remove_range_interval_wp E HE At p c l' ((pn, cn) :: l0)) as ([Hs _]%Forall_cons & _).
    + done.
    + rewrite Hp', Hp. solve_Permutation.
    + rewrite Hp'. cbn. rewrite owners_cons, Hcn. apply (inv_good _ _ _ HI0).
    + rewrite HR. eapply linked_cons_perm; [done|apply HI0|]. by rewrite Hcn.
    + done.
    + cbn in Hs. rewrite Hcn in Hs. by destruct Hs.
Qed.

(** A failed search for a replacement. *)
Lemma yield_failed_wp w0 w l range rg n new x :
  rgs w = <[new := x]> (rgs w0) -> rgs w0 !! new = None -> points w range rg n ->
  (forall w', quiet w w' -> replaced w0 l (with_rgs (rgs w0) w')) ->
  wp (tolerated E cap late)
    (_ ← inform_yielded E (sender rg) (id rg) (Some range) MAAP_NOTIFY_ERROR_RESERVE_NOT_AVAILABLE; free_rg new)
    (fun _ => replaced w0 l) w.
Proof.
  intros HR Hn Hp Hk. wp_use inform_yielded_wp as Hnote; [done|]. pose proof (quiet_notified _ _ _ _ Hnote) as Hq.
  eapply wp_free_rg; [rewrite (q_rgs _ _ Hq), HR; apply lookup_insert_eq|].
  rewrite (q_rgs _ _ Hq), HR, delete_insert_id by done. by apply Hk.
Qed.

Lemma yield_found_wp w0 w l l' e range rg new rgn :
  Inv_at w0 l -> Inv_tree w l' -> l' ≡ₚ e :: l ->
  rgs w = <[new := rgn]> (rgs w0) -> timer_queue (mc w) = timer_queue (mc w0) ->
  range_len (mc w) = range_len (mc w0) -> (S (length (timer_queue (mc w0))) <= cap)%nat ->
  rgs w0 !! new = None -> live rgn -> overlapping rgn = false ->
  rgs w0 !! range = Some rg -> live rg ->
  wp (tolerated E cap late)
    (_ ← schedule_timer E new; _ ← send_probe E new;
     _ ← inform_yielded E (sender rg) (id rg) (Some range) MAAP_NOTIFY_ERROR_NONE;
     inform_acquiring E new)
    (fun _ => replaced w0 l) w.
Proof.
  intros HI0 HI Hp HR Hq Hlen Hcap Hn Hln Hov Hr Hl. assert (Hne : new <> range) by congruence.
  apply wp_assoc. wp_use (schedule_send_wp E At (send_probe E) MAAP_PROBE w l' new rgn) as (w1 & n & Hs & HI1 & _ & Hsent).
  - apply sends_probe.
  - done.
  - rewrite HR. apply lookup_insert_eq.
  - done.
  - rewrite HR, Hq. apply Queue_Ready_new; [apply HI0|done].
  - rewrite HR, map_size_insert_None by done. by rewrite (Queue_size _ _ (inv_queue _ _ _ HI0)).
  - pose proof (quiet_sent _ _ _ Hsent) as Hqs. pose proof (Inv_quiet _ _ _ _ Hqs HI1) as HI2.
    destruct Hs as (t & q & nr & _ & Hqp & ->). rename s' into w2.
    assert (HR2 : rgs w2 = <[new := set_next_act_time t rgn]> (rgs w0)).
    { rewrite (q_rgs _ _ Hqs). cbn. by rewrite HR, insert_insert_eq. }
    destruct (live_points _ _ _ range rg HI2) as (p1 & c1 & l1 & n1 & _ & _ & _ & Hp1 & _); [by rewrite HR2, lookup_insert_ne|done|].
    destruct (live_points _ _ _ new (set_next_act_time t rgn) HI2) as (p2 & c2 & l2 & n2 & _ & _ & _ & Hp2 & _);
      [by rewrite HR2, lookup_insert_eq|done|].
    wp_use inform_yielded_wp as Hy; [done|]. wp_last inform_acquiring_wp as Ha; [eauto|].
    assert (Hq2 : quiet w2 s'0) by (etrans; eauto).
    assert (Hg : grown w0 s'0).
    { split; [by rewrite (q_len _ _ Hq2), (q_len _ _ Hqs)|]. rewrite (q_queue _ _ Hq2), (q_queue _ _ Hqs). cbn.
      rewrite Hqp, Hq. cbn. pose proof (length_filter (fun r => r <> new) (timer_queue (mc w0))). unfold others. lia. }
    left. exists [e], l'. split_and!; [done|done|by eapply Inv_quiet|done..|]. intros r. rewrite (q_rgs _ _ Hq2), HR2.
    rewrite flagged_insert. cbn. rewrite Hov. split; [naive_solver|]. intros Hf. right. split; [|done].
    intros ->. destruct Hf as (? & ? & _). congruence.
Qed.

(** The search for a replacement, from the new object on. *)
Lemma yield_assign_wp w l p c range rg new rgn size nm nc :
  Inv_at w l -> (p, c) ∈ l -> c_data c = Some range -> rgs w !! range = Some rg -> live rg ->
  rgs w !! new = None -> live rgn -> overlapping rgn = false -> 0 < size <= 0xFFFF ->
  room w l 1 ->
  wp (tolerated E cap late)
    (rv ← assign_interval E new 0 size;
     if rv <? 0 then
       _ ← inform_yielded E (sender rg) (id rg) (Some range) MAAP_NOTIFY_ERROR_RESERVE_NOT_AVAILABLE;
       free_rg new
     else
       _ ← schedule_timer E new;
       _ ← send_probe E new;
       _ ← inform_yielded E (sender rg) (id rg) (Some range) MAAP_NOTIFY_ERROR_NONE;
       inform_acquiring E new) (fun _ => replaced w l)
    (mkWorld (mc w) (ivs w) (<[new := rgn]> (rgs w)) (n_random w) nc nm).
Proof.
  intros HI Hin Hd Hr Hl Hfresh Hln Hov Hsize [Hcap Hlate]. assert (Hne : new <> range) by congruence.
  assert (Hpts : forall h, (exists n, h !! p = Some n) -> forall c' x nr k m, exists n,
    points (mkWorld c' h (<[new := x]> (rgs w)) nr k m) range rg n).
  { intros h [n Hn] c' x nr k m. destruct (inv_linked _ _ _ HI p c range) as (y & Hy & Hi); [done..|].
    exists n. split; [cbn; by rewrite lookup_insert_ne|]. exists p. split; [congruence|done]. }
  wp_use (assign_interval_wp E HE At new rgn 0 size l) as Hpost;
    [apply (inv_shape _ _ _ HI)|lia|lia|lia|apply lookup_insert_eq|apply HI|].
  destruct Hpost as [[-> Ha]|[(-> & _ & nr & nm' & ->)|(-> & _ & Hlast & pn & Hf)]]; cbn [Z.ltb Z.compare].
  - eapply (assigned_Inv At (rgs w)) in Ha as (p' & lo & l' & nr & nm' & Hp' & HI' & Hs');
      [|apply HI|apply (inv_linked _ _ _ HI)|apply (inv_good _ _ _ HI)|done|done|done|lia].
    eapply (yield_found_wp w s' l l' _ range rg new (set_interval (Some p') rgn)); eauto; try lia; by rewrite Hs'.
  - destruct (Shape_lookup _ _ _ _ p c (inv_shape _ _ _ HI)) as (n & Hn & _); [done|].
    edestruct (Hpts (ivs w)) as [n' Hn']; [eauto|].
    eapply (yield_failed_wp w _ l range rg n' new rgn); [done|done|exact Hn'|].
    intros w' Hq. left. exists [], l. assert (Hg : grown w (with_rgs (rgs w) w')) by exact (grown_quiet _ _ Hq).
    split_and!; [done|cbn; lia| |apply Hg..|done]. destruct HI as [[] ?].
    destruct Hq as [Hqi _ Hqr Hqq _ Hql _ _ _ Hqc].
    split; [split|]; cbn in *; rewrite ?Hqi, ?Hqr, ?Hqq, ?Hql; auto.
  - destruct Hf as (lo & h' & root' & l2 & nr & nm' & _ & _ & Hp2 & HS2 & ->).
    destruct (Shape_lookup _ _ _ _ p c HS2) as (n & Hn & _); [rewrite Hp2; set_solver|].
    edestruct (Hpts h') as [n' Hn']; [eauto|].
    eapply (yield_failed_wp w _ l range rg n' new rgn); [done|done|exact Hn'|].
    intros w' [Hqi _ Hqr _ _ _ _ _ _ _]. right. split.
    { apply Hlate. exists size, l.*2, (n_random w). split; [done|]. split; [by rewrite length_fmap|exact Hlast]. }
    do 3 eexists. split_and!; [exact Hp2|done|done|].
    cbn in *. by rewrite Hqi, Hqr.
Qed.

Lemma yield_wp w l p c l0 range rg :
  Inv_at w l -> l ≡ₚ (p, c) :: l0 -> c_data c = Some range ->
  rgs w !! range = Some rg -> live rg -> room w l 1 ->
  wp (tolerated E cap late) (yield E p range) (fun _ w' => resolved w l0 w' /\ released w' range) w.
Proof.
  intros HI Hp Hd Hr Hl Hroom. pose proof (inv_client _ _ _ HI) as Hc.
  pose proof (elem_of_perm_head _ _ _ Hp) as Hin.
  destruct (Shape_lookup _ _ _ _ p c (inv_shape _ _ _ HI)) as (n & Hn & Hlo & Hhi & Hdn); [done|].
  assert (Hpts : points w range rg n).
  { destruct (inv_linked _ _ _ HI p c range) as (x & Hx & Hi); [done..|].
    split; [done|]. exists p. split; congruence. }
  assert (Hpool : node_in_pool (mc w) n).
  { pose proof (good_pool _ _ _ (inv_good _ _ _ HI)) as Hpool. rewrite Hp in Hpool. apply Forall_cons in Hpool as [Hpool _].
    unfold node_in_pool, in_pool in *. cbn in *. by rewrite Hlo, Hhi. }
  destruct (range_size_pool _ _ Hc Hpool) as (_ & Hsz & Hlen).
  unfold yield. wp_go. apply new_Range_wp; [intros _|intros new Hfresh]; cbn beta;
    (eapply wp_step with (P := fun _ w' => replaced w l w'); [|intros [] w' Hrep; by eapply yield_drop_wp]).
  - wp_last inform_yielded_wp as Hy; [done|]. left. exists [], l.
    split; [done|]. split; [cbn; lia|]. split; [|split; [rewrite Hy; split; cbn; [done|lia]|by rewrite Hy]].
    eapply Inv_quiet; [|exact HI]. rewrite Hy. split; try done. intros []; by split.
  - wp_prim. wp_prim. wp_prim. eapply wp_store_rg; [apply lookup_insert_eq|].
    cbn [mc ivs rgs n_random n_clock n_malloc with_rgs]. rewrite insert_insert_eq, Hsz.
    eapply (yield_assign_wp w l p c range rg new); eauto. by left.
Qed.

Lemma conflict_defending_wp pkt w l p c l0 range rg :
  Inv_at w l -> l ≡ₚ (p, c) :: l0 -> c_data c = Some range -> wf_packet pkt ->
  rgs w !! range = Some rg -> live rg -> room w l 1 ->
  wp (tolerated E cap late) (conflict_defending E pkt p range) (fun _ => resolved w l0) w.
Proof.
  intros HI Hp Hd Hwf Hr Hl Hroom. unfold conflict_defending. wp_go. destruct (message_type pkt =? MAAP_PROBE).
  - destruct (live_points _ _ _ _ _ HI Hr Hl) as (p1 & c1 & l1 & n & _ & _ & _ & Hpts & _ & _ & _ & _ & Hpool).
    apply wp_bind. wp_last (send_defend_wp E range rg n) as Hs; [apply HI|done|done|apply Hwf..|].
    apply wp_ret. eapply resolved_kept; eauto.
  - destruct (compare_mac_addresses _ _); [apply wp_ret; by eapply resolved_kept|].
    by wp_last yield_wp as [Hres _].
Qed.

(** *** Flagging *)

Context (start count : Z).
Abbreviation last := (u32 (start + count - 1)).

(** The flagged ranges are those of [F]; each holds an entry the packet hits. *)
Record Flags (R : gmap loc Range) (l : entries) (F : list loc) : Prop := {
  flags_nodup : NoDup F;
  flags_iff r : flagged R r <-> r ∈ F;
  flags_hit r : r ∈ F -> exists c, c ∈ l.*2 /\ c_data c = Some r /\ c_low c <= last /\ start <= c_high c
}.

Lemma Inv_flag w l r rg b : Inv_at w l -> rgs w !! r = Some rg ->
  Inv_at (with_rgs (<[r := set_overlapping b rg]> (rgs w)) w) l.
Proof.
  intros [[Hc HS Hl HG] HQ] Hr. split; [split|]; cbn; auto.
  - eapply linked_ext; [by eapply fmap_insert_same|done].
  - eapply Good_ext; [by eapply fmap_insert_same|done].
  - eapply Queue_ext; [by eapply fmap_insert_same|done].
Qed.

(** An entry of the tree, its node and its owner. *)
Lemma Inv_entry w l p c : Inv_at w l -> (p, c) ∈ l ->
  exists n r rg, ivs w !! p = Some n /\ low n = c_low c /\ high n = c_high c /\ data n = Some r /\
    c_data c = Some r /\ rgs w !! r = Some rg /\ live rg.
Proof.
  intros HI Hin. destruct (Shape_lookup _ _ _ _ _ _ (inv_shape _ _ _ HI) Hin) as (n & Hn & Hlo & Hhi & Hd).
  pose proof (good_data _ _ _ (inv_good _ _ _ HI)) as Hall. rewrite Forall_forall in Hall.
  assert (Hc : c ∈ l.*2) by (apply list_elem_of_fmap; by exists (p, c)).
  destruct (Hall c Hc) as [r Hr]. assert (Ho : r ∈ owners l.*2) by (apply owners_elem; eauto).
  apply (inv_good _ _ _ HI) in Ho as (rg & ? & ?). exists n, r, rg. split_and!; congruence || done.
Qed.

Lemma owners_app cs cs' : owners (cs ++ cs') = owners cs ++ owners cs'.
Proof. apply omap_app. Qed.

Lemma flag_loop_wp fuel : forall l1 l2 w, Inv_at w (l1 ++ l2) -> (length l2 < fuel)%nat ->
  wp (tolerated E cap late) (flag_loop fuel (fst <$> head l2) start count)
    (fun k w' => exists F, length F = k /\ NoDup F /\ quiet (with_rgs (rgs w') w) w' /\
       state <$> rgs w' = state <$> rgs w /\ Inv_at w' (l1 ++ l2) /\
       (forall r, flagged (rgs w') r <-> flagged (rgs w) r \/ r ∈ F) /\
       (forall r, r ∈ F -> exists c, c ∈ l2.*2 /\ c_data c = Some r /\ c_low c <= last /\ start <= c_high c) /\
       (forall e, head l2 = Some e -> hits start last e -> F <> [])) w.
Proof.
  induction fuel as [|fuel IH]; intros l1 l2 w HI Hf; [lia|].
  assert (Hstop : exists F, length F = 0%nat /\ NoDup F /\ quiet (with_rgs (rgs w) w) w /\
     state <$> rgs w = state <$> rgs w /\ Inv_at w (l1 ++ l2) /\
     (forall r, flagged (rgs w) r <-> flagged (rgs w) r \/ r ∈ F) /\
     (forall r, r ∈ F -> exists c, c ∈ l2.*2 /\ c_data c = Some r /\ c_low c <= last /\ start <= c_high c)).
  { exists []. split_and!; [done|constructor|by destruct w|done|done| |by intros r []%elem_of_nil].
    intros r. rewrite elem_of_nil. tauto. }
  destruct Hstop as (F0 & H1 & H2 & H3 & H4 & H5 & H6 & H7).
  destruct l2 as [|[p c] l2]; cbn [head fmap option_fmap option_map fst flag_loop].
  { apply wp_ret. exists F0. auto 10. }
  destruct (Inv_entry w _ p c HI) as (n & r & rg & Hn & Hlo & Hhi & Hdn & Hd & Hr & Hl); [apply elem_of_middle|]. wp_go.
  unfold interval_check_overlap. rewrite Hlo, Hhi. destruct (_ && _) eqn:Eh.
  2: { apply wp_ret. exists F0. split_and!; auto. intros e [= <-]. unfold hits. cbn. by rewrite Eh. }
  rewrite Hdn. wp_go. unfold next_iv. wp_go.
  eapply wp_lift; [eapply st_next, (inv_shape _ _ _ HI)|]. cbn beta. wp_go.
  rewrite (cons_middle _ l1 l2), (app_assoc l1) in HI |- *.
  pose proof (Inv_flag w _ r rg true HI Hr) as HI1.
  assert (Hnr : forall c', c' ∈ l2.*2 -> c_data c' <> Some r).
  { intros c' Hc' Hd'. pose proof (good_nodup _ _ _ (inv_good _ _ _ HI)) as Hnd.
    rewrite !fmap_app, !owners_app in Hnd. apply NoDup_app in Hnd as (_ & Hdis & _). apply (Hdis r).
    - apply elem_of_app. right. cbn. rewrite owners_cons, Hd. apply list_elem_of_here.
    - apply owners_elem. eauto. }
  wp_last (IH _ l2) as (F & HF & HFnd & Hq & Hs & HI2 & Hfl & Hhit & _); [exact HI1|cbn in Hf; lia|]. apply wp_ret.
  exists (r :: F). cbn in Hfl, Hq. split_and!; auto.
  - by rewrite <- HF.
  - constructor; [|done]. intros Hin. destruct (Hhit r Hin) as (c' & ? & ? & _). by eapply Hnr.
  - rewrite Hs. by eapply fmap_insert_same.
  - intros x. rewrite Hfl, flagged_insert, elem_of_cons. cbn. clear. destruct (decide (x = r)); tauto.
  - intros x [->|Hx]%elem_of_cons.
    + exists c. apply andb_true_iff in Eh as [? ?]. cbn. split_and!; [apply list_elem_of_here|done|lia|lia].
    + destruct (Hhit x Hx) as (c' & Hc' & ?). exists c'. split; [by apply list_elem_of_further|done].
Qed.

Lemma find_flagged_wp T fuel : forall l1 l2 w, Inv_at w (l1 ++ l2) -> (length l2 < fuel)%nat ->
  (exists c r, c ∈ l2.*2 /\ c_data c = Some r /\ flagged (rgs w) r) ->
  wp T (find_flagged fuel (fst <$> head l2))
    (fun iv w' => w' = w /\ exists p c r, (p, c) ∈ l1 ++ l2 /\ iv = Some p /\ c_data c = Some r /\ flagged (rgs w) r) w.
Proof.
  induction fuel as [|fuel IH]; intros l1 l2 w HI Hf (c0 & r0 & Hin0 & Hd0 & Hf0); [lia|].
  destruct l2 as [|[p c] l2]; [by apply elem_of_nil in Hin0|].
  cbn [head fmap option_fmap option_map fst find_flagged].
  destruct (Inv_entry w _ p c HI) as (n & r & rg & Hn & _ & _ & Hdn & Hd & Hr & Hl); [apply elem_of_middle|].
  wp_go. rewrite Hdn. wp_go. destruct (overlapping rg) eqn:Eo.
  - apply wp_ret. split; [done|]. exists p, c, r. split_and!; [apply elem_of_middle|done|done|]. by exists rg.
  - wp_go. unfold next_iv. wp_go. eapply wp_lift; [eapply st_next, (inv_shape _ _ _ HI)|]. cbn beta.
    rewrite (cons_middle _ l1 l2), (app_assoc l1) in HI |- *. apply IH; [done|cbn in Hf; lia|].
    cbn in Hin0. apply elem_of_cons in Hin0 as [->|Hin0]; [|by exists c0, r0].
    rewrite Hd in Hd0. injection Hd0 as ->. destruct Hf0 as (x & Hx & Hxo). congruence.
Qed.

Lemma first_hit l :
  (exists c, c ∈ l.*2 /\ c_low c <= last /\ start <= c_high c) ->
  exists l1 l2, l = l1 ++ l2 /\ head (hit_list start last l) = head l2 /\
    forall c, c ∈ l.*2 -> c_low c <= last -> start <= c_high c -> c ∈ l2.*2.
Proof.
  unfold hit_list. induction l as [|[p c] l IH]; intros (c0 & Hin & Hlo & Hhi); [by apply elem_of_nil in Hin|].
  destruct (decide (hits start last (p, c))) as [Hh|Hh].
  - exists [], ((p, c) :: l). rewrite filter_cons_True by done. auto.
  - assert (Hc : ~ (c_low c <= last /\ start <= c_high c)) by (by rewrite <- (hits_iff start last (p, c))).
    cbn in Hin. apply elem_of_cons in Hin as [->|Hin]; [tauto|].
    destruct IH as (l1 & l2 & -> & Hhd & Hall); [eauto|]. exists ((p, c) :: l1), l2.
    rewrite filter_cons_False by done. split_and!; [done..|].
    intros c' Hc' ??. cbn in Hc'. apply elem_of_cons in Hc' as [->|?]; [tauto|auto].
Qed.

Lemma Shape_fuel h root l : Shape At h root l -> (length l < fuel_of h)%nat.
Proof. intros HS. unfold fuel_of. rewrite (Shape_size _ _ _ _ HS). lia. Qed.

(** The search for the next flagged range succeeds: the assertion behind it is
    not reached. *)
Lemma find_next_wp {A} (k : ptr -> MAAP A) w l r F Q : Inv_at w l -> Flags (rgs w) l F -> r ∈ F ->
  (forall p c r, (p, c) ∈ l -> c_data c = Some r -> r ∈ F -> wp (tolerated E cap late) (k (Some p)) Q w) ->
  wp (tolerated E cap late)
    (first ← search_iv start count; h ← gets ivs; iv ← find_flagged (fuel_of h) first; k iv) Q w.
Proof.
  intros HI HF Hr HQ. destruct (flags_hit _ _ _ HF r Hr) as (c & Hc & Hd & Hlo & Hhi).
  destruct (first_hit l) as (l1 & l2 & Hl & Hhd & Hall); [eauto|].
  unfold search_iv. wp_go. eapply wp_lift; [eapply st_search, (inv_shape _ _ _ HI)|]. cbn beta. wp_go. rewrite Hhd.
  pose proof (Shape_fuel _ _ _ (inv_shape _ _ _ HI)) as Hfuel. rewrite Hl in HI, Hfuel. rewrite length_app in Hfuel.
  wp_last (find_flagged_wp _ _ l1 l2) as (-> & p & c' & r' & Hin & -> & Hd' & Hf'); [done|lia| |].
  - exists c, r. split_and!; auto. by apply HF.
  - eapply HQ; [by rewrite Hl|done|]. by apply HF.
Qed.

Lemma flagged_perm F r : NoDup F -> r ∈ F -> F ≡ₚ r :: others r F.
Proof.
  intros Hnd Hr. apply NoDup_Permutation; [done| |].
  - constructor; [rewrite others_elem; tauto|by apply NoDup_filter].
  - intros x. rewrite elem_of_cons, others_elem. destruct (decide (x = r)); naive_solver.
Qed.

Lemma resolved_flags w l p c l0 r F w' :
  Flags (rgs w) l F -> r ∈ F -> l ≡ₚ (p, c) :: l0 -> c_data c = Some r ->
  forall w1, (forall x, flagged (rgs w1) x <-> flagged (rgs w) x /\ x <> r) -> resolved w1 l0 w' ->
  exists l', Inv_at w' l' /\ Flags (rgs w') l' (others r F) /\ (length l' <= length l)%nat /\ grown w1 w'.
Proof.
  intros [Hnd Hiff Hhit] Hr Hp Hd w1 Hw1 (l' & cs & HI & Hl' & Hcs & Hg & Hfl). exists l'. split; [done|].
  split; [|split; [|done]].
  2: { rewrite <- (length_fmap snd l'), Hl', length_app, length_fmap, Hp. cbn. lia. }
  split.
  - by apply NoDup_filter.
  - intros x. rewrite Hfl, Hw1, Hiff, others_elem. tauto.
  - intros x [Hne Hx]%others_elem. destruct (Hhit x Hx) as (c' & Hc' & Hd' & ?). exists c'. split; [|done].
    rewrite Hp in Hc'. cbn in Hc'. apply elem_of_cons in Hc' as [->|Hc']; [congruence|].
    rewrite Hl'. apply elem_of_app. by right.
Qed.

(** A round of the loop clears the flag of some flagged range and handles it. *)
Lemma conflict_pick_wp pkt w l F r Q : requested_count pkt = count ->
  Inv_at w l -> Flags (rgs w) l F -> r ∈ F ->
  (forall p c r rg l0, l ≡ₚ (p, c) :: l0 -> c_data c = Some r -> r ∈ F -> rgs w !! r = Some rg -> live rg ->
     let w1 := with_rgs (<[r := set_overlapping false rg]> (rgs w)) w in
     Inv_at w1 l -> rgs w1 !! r = Some (set_overlapping false rg) ->
     (forall x, flagged (rgs w1) x <-> flagged (rgs w) x /\ x <> r) ->
     wp (tolerated E cap late) match state rg with
                      | MAAP_STATE_PROBING => conflict_probing E pkt p r
                      | MAAP_STATE_DEFENDING => conflict_defending E pkt p r
                      | _ => mret tt end Q w1) ->
  wp (tolerated E cap late) (conflict_step E pkt start) Q w.
Proof.
  intros Hcnt HI HF Hr Hk. unfold conflict_step. rewrite Hcnt. eapply find_next_wp; [done..|].
  clear r Hr. intros p c r Hin Hd Hr.
  destruct (Inv_entry w _ p c HI Hin) as (n & r' & rg & Hn & _ & _ & Hdn & Hd' & Hrg & Hl). simplify_eq.
  wp_go. rewrite Hdn. wp_go. eapply wp_load_rg; [apply lookup_insert_eq|]. cbn beta.
  assert (exists l0, l ≡ₚ (p, c) :: l0) as [l0 Hp].
  { apply list_elem_of_split in Hin as (l1 & l2 & ->). exists (l1 ++ l2). solve_Permutation. }
  apply (Hk p c r rg l0); auto using Inv_flag.
  - cbn. apply lookup_insert_eq.
  - intros x. cbn. rewrite flagged_insert. cbn. clear. destruct (decide (x = r)); naive_solver.
Qed.

Lemma conflict_step_wp pkt w l F r : requested_count pkt = count -> wf_packet pkt ->
  Inv_at w l -> Flags (rgs w) l F -> r ∈ F -> room w l (length F) ->
  wp (tolerated E cap late) (conflict_step E pkt start)
    (fun _ w' => exists l' F', Inv_at w' l' /\ Flags (rgs w') l' F' /\ length F = S (length F') /\
       room w' l' (length F')) w.
Proof.
  intros Hcnt Hwf HI HF Hr Hroom.
  assert (Hroom1 : room w l 1).
  { split; [|apply Hroom]. destruct Hroom as [Hcap _], F; [by apply elem_of_nil in Hr|]. cbn in Hcap. lia. }
  eapply conflict_pick_wp; [done..|]. clear r Hr.
  intros p c r rg l0 Hp Hd Hr Hrg Hl w1 HI1 Hr1 Hfl.
  eapply wp_mono with (Q := fun _ => resolved w1 l0).
  - destruct Hl as [Hst|Hst]; rewrite Hst.
    + eapply (conflict_probing_wp pkt w1 l p c l0 r (set_overlapping false rg)); auto.
      destruct Hroom1 as [Hcap ?]. split; [|done]. cbn. lia.
    + eapply (conflict_defending_wp pkt w1 l p c l0 r (set_overlapping false rg)); eauto. by right.
  - intros _ w' Hres. eapply (resolved_flags w l p c l0 r F w' HF Hr Hp Hd) in Hres as (l' & HI' & HF' & Hlen & Hg); [|exact Hfl].
    assert (HFlen : length F = S (length (others r F))).
    { by rewrite (flagged_perm F r (flags_nodup _ _ _ HF) Hr) at 1. }
    exists l', (others r F). split_and!; auto; rewrite HFlen in Hroom; by eapply (room_grown w l w').
Qed.

(** When the only conflict is with a defended range, and a foreign announcement
    wins, the range is given up. *)
Lemma conflict_step_yield_wp pkt w l range rg : requested_count pkt = count ->
  Inv_at w l -> Flags (rgs w) l [range] -> message_type pkt = MAAP_ANNOUNCE ->
  compare_mac_addresses (src_mac (mc w)) (SA pkt) = false ->
  rgs w !! range = Some rg -> state rg = MAAP_STATE_DEFENDING -> room w l 1 ->
  wp (tolerated E cap late) (conflict_step E pkt start)
    (fun _ w' => exists l', Inv_at w' l' /\ unflagged (rgs w') /\ released w' range) w.
Proof.
  intros Hcnt HI HF Hmt Hmac Hr Hst Hroom. eapply conflict_pick_wp; [done..|apply list_elem_of_here|].
  intros p c r rg' l0 Hp Hd Hin Hrg Hl w1 HI1 Hr1 Hfl. apply list_elem_of_singleton in Hin. subst r.
  simplify_eq. rewrite Hst. unfold conflict_defending. wp_go. rewrite Hmt. cbn [Z.eqb MAAP_ANNOUNCE MAAP_PROBE Pos.eqb].
  change (src_mac (mc w1)) with (src_mac (mc w)). rewrite Hmac.
  wp_last (yield_wp w1 l p c l0 range (set_overlapping false rg)) as [Hres Hrel]; auto.
  destruct Hres as (l' & cs & HI' & _ & _ & _ & Hfl'). exists l'. split_and!; auto. apply unflagged_iff.
  intros x. rewrite Hfl', Hfl, (flags_iff _ _ _ HF), list_elem_of_singleton. tauto.
Qed.

Lemma conflict_loop_wp pkt : requested_count pkt = count -> wf_packet pkt -> forall F w l,
  Inv_at w l -> Flags (rgs w) l F -> room w l (length F) ->
  wp (tolerated E cap late) (conflict_loop E (length F) pkt start)
    (fun _ w' => exists l', Inv_at w' l' /\ unflagged (rgs w')) w.
Proof.
  intros Hcnt Hwf F. remember (length F) as k eqn:Hk. revert F Hk.
  induction k as [|k IH]; intros F Hk w l HI HF Hroom; cbn [conflict_loop].
  - apply wp_ret. exists l. split; [done|]. apply unflagged_iff. intros r. rewrite (flags_iff _ _ _ HF).
    destruct F; [|done]. by intros []%elem_of_nil.
  - destruct F as [|r F0]; [done|]. wp_use (conflict_step_wp pkt w l (r :: F0) r) as (l' & F' & HI' & HF' & Hlen & Hroom'); auto.
    + apply list_elem_of_here.
    + by rewrite <- Hk.
    + assert (k = length F') as -> by lia. by eapply (IH F').
Qed.
End Conflict.

Section Handler.
Context (E : Env) (HE : env_ok E) {cap : nat} {late : Prop} (At : iheap -> ptr -> entries -> Prop) `{!IntervalStore At}.

(** The packet hits no more ranges than there are blocks. *)
Lemma Flags_length start count R l F : Flags start count R l F -> (length F <= length l)%nat.
Proof.
  intros [Hnd _ Hhit]. transitivity (length (owners l.*2)).
  - apply submseteq_length, NoDup_submseteq; [done|]. intros r Hr. destruct (Hhit r Hr) as (c & ? & ? & _).
    apply owners_elem. eauto.
  - clear. induction l as [|[p c] l IH]; [done|]. cbn. rewrite owners_cons, length_app.
    destruct (c_data c); cbn; lia.
Qed.

(** Flagging from the first hit on yields the flags the loop works off. *)
Lemma flag_all_wp {A} start count (k : nat -> MAAP A) Q w l : Inv_at At w l -> unflagged (rgs w) ->
  (forall F w', Inv_at At w' l -> Flags start count (rgs w') l F -> (F = [] -> hit_list start (u32 (start + count - 1)) l = []) ->
     state <$> rgs w' = state <$> rgs w -> src_mac (mc w') = src_mac (mc w) ->
     (forall k, room E (cap := cap) (late := late) w l k -> room E (cap := cap) (late := late) w' l k) -> wp (tolerated E cap late) (k (length F)) Q w') ->
  wp (tolerated E cap late)
    (first ← search_iv start count; h ← gets ivs; n ← flag_loop (fuel_of h) first start count; k n) Q w.
Proof.
  intros HI Hu Hk. rewrite unflagged_iff in Hu.
  assert (exists l1 l2, l = l1 ++ l2 /\ head (hit_list start (u32 (start + count - 1)) l) = head l2) as (l1 & l2 & Hl & Hhd).
  { destruct (hit_list start (u32 (start + count - 1)) l) as [|[p c] hl] eqn:Eh; [exists l, []; by rewrite app_nil_r|].
    destruct (first_hit start count l) as (l1 & l2 & ? & Hhd & _); [|rewrite Eh in Hhd; eauto].
    assert (Hin : (p, c) ∈ hit_list start (u32 (start + count - 1)) l) by (rewrite Eh; apply list_elem_of_here).
    apply list_elem_of_filter in Hin as [Hh Hin]. apply hits_iff in Hh. cbn in Hh. exists c.
    split; [|done]. apply list_elem_of_fmap. by exists (p, c). }
  unfold search_iv. wp_go. eapply wp_lift; [eapply st_search, (inv_shape _ _ _ HI)|]. cbn beta. wp_go. rewrite Hhd.
  pose proof (Shape_fuel _ _ _ _ (inv_shape _ _ _ HI)) as Hfuel. rewrite Hl, length_app in Hfuel. rewrite Hl in HI.
  wp_last (flag_loop_wp E At start count _ l1 l2) as (F & HF & Hnd & Hq & Hs & HI' & Hfl & Hhit & Hhd'); [done|lia|].
  rewrite <- HF. apply Hk; [by rewrite Hl| | |done|apply Hq|].
  - rewrite Hl. split; [done| |].
    + intros r. rewrite Hfl. pose proof (Hu r). tauto.
    + intros r Hr. destruct (Hhit r Hr) as (c & Hc & ?). exists c. split; [|done]. rewrite fmap_app. apply elem_of_app. by right.
  - intros ->. destruct (hit_list start (u32 (start + count - 1)) l) as [|e hl] eqn:Eh; [done|]. exfalso.
    assert (Hin : e ∈ hit_list start (u32 (start + count - 1)) l) by (rewrite Eh; apply list_elem_of_here).
    apply list_elem_of_filter in Hin as [Hh _]. by apply (Hhd' e).
  - intros j [Hcap Hlate]. unfold room. rewrite (q_queue _ _ Hq), (q_len _ _ Hq). by split.
Qed.

Lemma handle_parsed_wp pkt w l : Inv_at At w l -> unflagged (rgs w) -> wf_packet pkt ->
  room E (cap := cap) (late := late) w l (length l) ->
  wp (tolerated E cap late) (handle_parsed E pkt) (fun _ => Inv At) w.
Proof.
  intros HI Hu Hwf Hroom. assert (Hw : Inv At w) by (split; eauto). unfold handle_parsed.
  destruct (_ || _); [by apply wp_ret|]. destruct (negb _); [by apply wp_ret|].
  destruct (_ || _); [by apply wp_ret|]. wp_prim. apply wp_gets. destruct (_ || _); [by apply wp_ret|].
  set (start := u32 _). eapply (flag_all_wp start (requested_count pkt)); [done..|].
  intros F w1 HI1 HF _ _ _ Hk. cbn beta.
  wp_use (conflict_loop_wp E HE At start (requested_count pkt) pkt eq_refl Hwf F) as (l' & HI2 & Hu2); [done..| |].
  { apply Hk. destruct Hroom as [Hcap ?]. split; [|done]. pose proof (Flags_length _ _ _ _ _ HF). lia. }
  wp_use start_timer_wp as (Hq & _ & _); [apply HI2|exact (fun r => queue_in _ _ _ r HI2)|].
  apply wp_ret. split; [exists l'; by eapply Inv_quiet|by eapply unflagged_quiet].
Qed.

Lemma maap_handle_packet_wp stream len w : Inv At w -> bytes stream -> len = Z.of_nat (length stream) ->
  (size (rgs w) + size (ivs w) <= cap)%nat -> (late_draw E (range_len (mc w)) (size (ivs w)) -> late) ->
  wp (tolerated E cap late) (maap_handle_packet E stream len) (fun _ => Inv At) w.
Proof.
  intros [[l HI] Hu] Hb Hlen Hcap Hlate.
  assert (Hroom : room E (cap := cap) (late := late) w l (length l)).
  { rewrite (Queue_size _ _ (inv_queue _ _ _ HI)), (Shape_size _ _ _ _ (inv_shape _ _ _ HI)) in *. by split. }
  unfold maap_handle_packet. destruct (len <? MAAP_PKT_SIZE) eqn:El.
  { apply wp_ret. split; eauto. }
  apply Z.ltb_ge in El. unfold MAAP_PKT_SIZE in El. apply wp_bind.
  rewrite <- (take_drop 42 stream) in Hb |- *. apply Forall_app in Hb as [Hb _].
  assert (length (take 42 stream) = 42%nat) by (rewrite length_take; lia).
  assert (Hj : junk_ok [0; 0]) by (split; [by apply (Forall_replicate is_u8 2)|done]).
  eapply wp_lift; [by apply unpack_spec|]. by eapply handle_parsed_wp; eauto using parsed_wf.
Qed.

(** Two entries that share an address are one. *)
Lemma ordered_overlap l e e' : ordered l -> e ∈ l -> e' ∈ l ->
  c_low e.2 <= c_high e'.2 -> c_low e'.2 <= c_high e.2 -> e = e'.
Proof.
  induction l as [|x l IH]; [by intros _ ?%elem_of_nil|]. rewrite ordered_cons. intros (_ & Hx & Ho) He He' H1 H2.
  rewrite Forall_forall in Hx. unfold entry_lt in Hx.
  apply elem_of_cons in He as [->|He]; apply elem_of_cons in He' as [->|He']; auto.
  - specialize (Hx _ He'). lia.
  - specialize (Hx _ He). lia.
Qed.

Lemma own_flags w l range p c F :
  Inv_at At w l -> (p, c) ∈ l -> c_data c = Some range -> is_u32 (c_high c) ->
  forall start count, start = c_low c -> count = c_high c - c_low c + 1 ->
  Flags start count (rgs w) l F -> (F = [] -> hit_list start (u32 (start + count - 1)) l = []) -> F = [range].
Proof.
  intros HI Hin Hd Hu start count -> -> [Hnd _ Hhit] Hne.
  replace (c_low c + (c_high c - c_low c + 1) - 1) with (c_high c) in * by lia. rewrite u32_small in * by done.
  assert (Hlh : c_low c <= c_high c).
  { pose proof (st_ordered _ _ _ (proj1 (inv_shape _ _ _ HI))) as [_ Hall]. rewrite Forall_forall in Hall. exact (Hall _ Hin). }
  assert (Hall : forall r, r ∈ F -> r = range).
  { intros r Hr. destruct (Hhit r Hr) as (c' & ([p' c''] & -> & Hin')%list_elem_of_fmap & Hd' & H1 & H2). cbn in *.
    assert (Heq : (p, c) = (p', c'')).
    { eapply ordered_overlap; [apply (st_ordered _ _ _ (proj1 (inv_shape _ _ _ HI)))|done..]. }
    injection Heq as <- <-. congruence. }
  destruct F as [|r F].
  - exfalso. apply (elem_of_nil (p, c)). rewrite <- Hne by done. apply list_elem_of_filter. split; [|done].
    apply hits_iff. cbn. lia.
  - assert (r = range) as -> by (apply Hall, list_elem_of_here). f_equal. destruct F as [|r' F]; [done|].
    assert (r' = range) as -> by (apply Hall; apply list_elem_of_further, list_elem_of_here).
    apply NoDup_cons in Hnd as [[] _]. apply list_elem_of_here.
Qed.

(** The announcement [maap_yield_range] makes up for a block. *)
Definition yield_packet (c : Maap_Client) (n : Interval) : MAAP_Packet :=
  set_request MAAP_ANNOUNCE (first_address c n) (u16 (range_size n))
    (mkPacket 0x010000000000 0x010000000000 MAAP_TYPE MAAP_SUBTYPE 0 0 0 1 16 0 0 0 0 0).

Lemma yield_packet_wf c n : Client c -> node_in_pool c n -> wf_packet (yield_packet c n).
Proof.
  intros Hc Hn. destruct (first_address_pool _ _ Hc Hn) as [_ Hf]. pose proof (u16_bound (range_size n)).
  split; cbn; auto; unfold is_u48, is_u16, is_u8, is_u64; lia || done.
Qed.

Lemma handle_yield_wp w l range rg p c n :
  Inv_at At w l -> unflagged (rgs w) -> rgs w !! range = Some rg -> state rg = MAAP_STATE_DEFENDING ->
  (p, c) ∈ l -> c_data c = Some range -> low n = c_low c -> high n = c_high c -> node_in_pool (mc w) n ->
  src_mac (mc w) <> 0x010000000000 -> room E (cap := cap) (late := late) w l 1 ->
  wp (tolerated E cap late) (handle_parsed E (yield_packet (mc w) n)) (fun _ w' => Inv At w' /\ released w' range) w.
Proof.
  intros HI Hu Hr Hst Hin Hd Hlo Hhi Hpool Hsrc Hroom. pose proof (inv_client _ _ _ HI) as Hc.
  destruct (first_address_pool _ _ Hc Hpool) as [Hfa _]. destruct (range_size_pool _ _ Hc Hpool) as (_ & Hsz & Hlen).
  destruct Hpool as (? & ? & ?), (cl_base _ Hc), (cl_len _ Hc). cbn in H, H0, H1.
  unfold handle_parsed. cbn [yield_packet Ethertype subtype control_data_length version message_type set_request
    requested_start_address requested_count]. cbn -[flag_loop conflict_loop first_address range_size].
  rewrite Hsz, Hfa. wp_prim. apply wp_gets. rewrite !u64_small by (unfold is_u64; lia).
  rewrite !(proj2 (Z.ltb_ge _ _)) by lia. cbn [orb].
  replace (address_base (mc w) + low n - address_base (mc w)) with (low n) by lia. rewrite u32_small by (unfold is_u32; lia).
  eapply flag_all_wp; [done..|]. intros F w1 HI1 HF Hne Hs1 Hsrc1 Hk. cbn beta.
  assert (F = [range]) as ->.
  { eapply (own_flags w1 l range p c); [done..| | | |exact HF|exact Hne]; rewrite <- ?Hlo, <- ?Hhi; [unfold is_u32; lia|done..]. }
  destruct (fmap_lookup_eq state (rgs w1) (rgs w) range rg) as (rg1 & Hr1 & Hst1); [done..|].
  cbn [length conflict_loop]. apply wp_bind, wp_bind.
  eapply wp_mono with (Q := fun _ w' => exists l', Inv_at At w' l' /\ unflagged (rgs w') /\ released w' range).
  - eapply conflict_step_yield_wp; [done|done|done|exact HI1|exact HF|done| |exact Hr1|congruence|by apply Hk].
    rewrite Hsrc1. cbn [yield_packet set_request SA]. apply yield_mac_loses; [apply Hc|apply Hc|done].
  - intros _ w2 (l' & HI2 & Hu2 & Hrel). wp_go. wp_last start_timer_wp as (Hq & _ & _);
      [apply HI2|exact (fun r => queue_in _ _ _ r HI2)|]. apply wp_ret. split.
    + split; [exists l'; by eapply Inv_quiet|by eapply unflagged_quiet].
    + destruct Hrel as (x & ? & ?). exists x. by rewrite (q_rgs _ _ Hq).
Qed.

(** The packet [maap_yield_range] makes up is one a peer could send. *)
Lemma announce_bytes p : wf_packet p ->
  exists bs, pack_maap p (replicate MAAP_NET_BUFFER_SIZE 0) = Ok bs /\ bytes bs /\
    length bs = MAAP_NET_BUFFER_SIZE /\ bs = wire p ++ replicate 22 0.
Proof.
  intros Hp. eexists. split; [apply pack_maap_spec; [done|]|].
  - rewrite length_replicate. unfold MAAP_NET_BUFFER_SIZE. lia.
  - rewrite drop_replicate. split_and!; [|rewrite length_app, length_wire; done|done].
    apply Forall_app. split; [apply wire_bytes|]. apply Forall_replicate. unfold is_u8. lia.
Qed.

Lemma handle_bytes_wp p rest w Q : wf_packet p -> wp (tolerated E cap late) (handle_parsed E p) Q w ->
  wp (tolerated E cap late) (maap_handle_packet E (wire p ++ rest) (Z.of_nat (length (wire p ++ rest)))) Q w.
Proof.
  intros Hwf HQ. unfold maap_handle_packet. rewrite length_app, length_wire.
  rewrite (proj2 (Z.ltb_ge _ _)) by (unfold MAAP_PKT_SIZE; lia). apply wp_bind.
  assert (Hj : junk_ok [0; 0]) by (split; [by apply (Forall_replicate is_u8 2)|done]).
  eapply wp_lift; [by apply unpack_wire|]. exact HQ.
Qed.

(** A defended range with the given id is given up; or there is none. *)
Definition yield_post (w : world) (who i rv : Z) (w' : world) : Prop :=
  Inv At w' /\
  ((rv = 0 /\ exists range rg, rgs w !! range = Some rg /\ id rg = i /\
      state rg = MAAP_STATE_DEFENDING /\ released w' range) \/
   (rv = -1 /\ quiet w w' /\
      (forall range rg, rgs w !! range = Some rg -> id rg = i -> state rg <> MAAP_STATE_DEFENDING) /\
      notifies (mc w') = notifies (mc w) ++
        [(who, mkNotify MAAP_NOTIFY_YIELDED i 0 0 MAAP_NOTIFY_ERROR_RELEASE_INVALID_ID)])).

Lemma maap_yield_range_wp who i w : Inv At w -> src_mac (mc w) <> 0x010000000000 ->
  (size (rgs w) < cap)%nat -> (late_draw E (range_len (mc w)) (size (ivs w)) -> late) ->
  wp (tolerated E cap late) (maap_yield_range E who i) (yield_post w who i) w.
Proof.
  intros HI Hsrc Hcap Hlate. pose proof HI as [[l HIl] Hu].
  assert (Hroom : room E (cap := cap) (late := late) w l 1).
  { rewrite (Queue_size _ _ (inv_queue _ _ _ HIl)), (Shape_size _ _ _ _ (inv_shape _ _ _ HIl)) in *. split; [lia|done]. } pose proof (inv_client _ _ _ HIl) as Hc.
  unfold maap_yield_range. wp_go. rewrite (cl_init _ Hc). cbn [negb]. wp_go.
  apply find_range_wp; [exact (fun r => queue_in _ _ _ r HIl)| |].
  - intros range rg Hin Hr Hi Hst%bool_decide_eq_true.
    destruct (live_points _ _ _ _ _ HIl Hr (or_intror Hst)) as (p & c & l0 & n & Hp & Hd & _ & Hpts & Hlo & Hhi & _ & _ & Hpool).
    wp_go. eapply wp_lift; [reflexivity|]. cbn beta. wp_go. eapply get_start_wp; [done|]. cbn beta. wp_go.
    eapply get_count_wp; [done|]. cbn beta. apply wp_bind.
    change (set_request _ _ _ _) with (yield_packet (mc w) n).
    pose proof (yield_packet_wf _ _ Hc Hpool) as Hwf.
    destruct (announce_bytes _ Hwf) as (bs & Hbs & _ & Hlen & Heq).
    eapply wp_lift; [exact Hbs|]. cbn beta. apply wp_bind. rewrite <- Hlen, Heq.
    eapply wp_mono; [apply handle_bytes_wp; [done|]|].
    + eapply handle_yield_wp; eauto using elem_of_perm_head.
    + intros rv w' [HI' Hrel]. apply wp_ret. split; [done|]. left. split; [done|]. eauto 10.
  - intros Hno. wp_use notify_wp as H. apply wp_ret. split; [|right; split_and!; [done|eauto| |by rewrite H]].
    + split; [exists l; eapply Inv_quiet; eauto|eapply unflagged_quiet; eauto].
    + intros range rg Hr Hi Hst. eapply bool_decide_eq_false, Hst. eapply Hno; eauto. by apply (inv_queue _ _ _ HIl).
Qed.
End Handler.
