(* ===== verification/MaapLife.v ===== *)
(** * Starting and stopping a MAAP client

    [maap_init_client] establishes the invariant; [maap_deinit_client] gives every
    node and every range object back.  At the end a concrete client. *)

From S2P Require Import Prelude.
From S2P Require Import Intervals.
From S2P Require Import IntervalsTheory.
From S2P Require Import MaapPacket.
From S2P Require Import MaapNet.
From S2P Require Import Maap.
From S2P Require Import MaapTheory.
From S2P Require Import MaapInvariant.
From S2P Require Import MaapHandlers.

Lemma Net_newNet_wf : net_wf Net_newNet.
Proof. split; [done|constructor|..]; repeat constructor; done. Qed.

Section Life.
Context (E : Env) (HE : env_ok E) {cap : nat} {late : Prop} (At : iheap -> ptr -> entries -> Prop) `{!IntervalStore At}.

(** A client that was never initialized, or was shut down. *)
Record Idle (w : world) : Prop := {
  idle_init : initialized (mc w) = false;
  idle_dest : is_u48 (dest_mac (mc w)) /\ dest_mac (mc w) <> 0;
  idle_src : is_u48 (src_mac (mc w)) /\ src_mac (mc w) <> 0;
  idle_ivs : ivs w = ∅;
  idle_rgs : rgs w = ∅
}.

Lemma Inv_empty w : Client (mc w) -> ranges (mc w) = None -> timer_queue (mc w) = [] ->
  ivs w = ∅ -> rgs w = ∅ -> Inv At w.
Proof.
  intros Hc Hr Hq Hi HR. split; [|intros r rg; by rewrite HR]. exists []. split; [split|]; rewrite ?Hr, ?Hq, ?Hi, ?HR; auto.
  - split; [apply st_empty|done].
  - intros ??? []%elem_of_nil.
  - split; try done; try constructor.
    + by intros []%elem_of_nil.
    + by intros (? & ? & _).
  - split; [constructor| |constructor]. intros r. split; [by intros []%elem_of_nil|by intros []].
Qed.

Lemma maap_init_client_wp who base len w :
  Idle w -> 0 <= base -> base + len <= 2 ^ 48 -> 0 < len < 2 ^ 32 ->
  wp (tolerated E cap late) (maap_init_client E who base len)
    (fun rv w' => (rv = -1 /\ exists n, env_malloc E n = false) \/
       (rv = 0 /\ Inv At w' /\ address_base (mc w') = base /\ range_len (mc w') = len /\
        notifies (mc w') = [(who, mkNotify MAAP_NOTIFY_INITIALIZED (-1) base len MAAP_NOTIFY_ERROR_NONE)])) w.
Proof.
  intros [Hi Hd Hs Hiv Hrg] Hb Hbl Hl. unfold maap_init_client. wp_go. rewrite Hi. wp_go.
  destruct (env_malloc E (n_malloc w)) eqn:E1; cbn [negb]; [|wp_go; eauto]. wp_go.
  destruct (env_malloc E (S (n_malloc w))) eqn:E2; cbn [negb]; [|wp_go; eauto]. wp_go.
  unfold inform_initialized. wp_go. wp_last notify_wp as H. wp_go. right. split; [done|].
  rewrite H. split_and!; try done. apply Inv_empty; cbn; try done.
  split; cbn; eauto using Net_newNet_wf.
Qed.

(** *** Shutting down *)

Definition is_released (rg : Range) : Prop := state rg = MAAP_STATE_RELEASED.

#[local] Instance is_released_dec rg : Decision (is_released rg).
Proof. unfold is_released. apply _. Defined.

Lemma drop_queue_wp T q : forall w, NoDup q -> (forall r, r ∈ q -> is_Some (rgs w !! r)) ->
  wp T (drop_queue q)
    (fun _ w' => exists R', w' = with_rgs R' (with_mc (set_timer_queue []) w) /\
       forall r, R' !! r = match rgs w !! r with
                           | Some rg => if decide (r ∈ q /\ is_released rg) then None else Some rg
                           | None => None end) w.
Proof.
  induction q as [|r q IH]; intros w Hnd Hin; cbn [drop_queue].
  - wp_go. exists (rgs w). split; [by destruct w|]. intros x. destruct (rgs w !! x); [|done].
    rewrite decide_False; [done|]. intros [[]%elem_of_nil _].
  - apply NoDup_cons in Hnd as [Hr Hnd]. destruct (Hin r) as [rg Hrg]; [apply list_elem_of_here|]. wp_go.
    assert (Hin' : forall x, x ∈ q -> is_Some (rgs w !! x)) by (intros x Hx; apply Hin; by apply list_elem_of_further).
    destruct (decide (state rg = MAAP_STATE_RELEASED)) as [Hs|Hs].
    + eapply wp_free_rg; [exact Hrg|]. cbn. wp_last IH as (R' & -> & HR').
      * done.
      * cbn. intros x Hx. rewrite lookup_delete_ne; [auto|]. by intros ->.
      * exists R'. split; [done|]. intros x. rewrite HR'. cbn. destruct (decide (x = r)) as [->|Hne].
        -- rewrite lookup_delete_eq, Hrg, decide_True; [done|]. split; [apply list_elem_of_here|done].
        -- rewrite lookup_delete_ne by done. destruct (rgs w !! x); [|done].
           apply decide_ext. rewrite elem_of_cons. tauto.
    + apply wp_ret. wp_last IH as (R' & -> & HR'); [done|done|]. exists R'. split; [done|]. intros x. rewrite HR'. cbn.
      destruct (rgs w !! x) as [y|] eqn:Ex; [|done]. apply decide_ext. rewrite elem_of_cons.
      destruct (decide (x = r)) as [->|Hne]; [|tauto]. rewrite Hrg in Ex. injection Ex as <-. unfold is_released. tauto.
Qed.

Lemma drop_ranges_wp fuel : forall w l, Shape At (ivs w) (ranges (mc w)) l -> linked (rgs w) l ->
  NoDup (owners l.*2) -> (forall r, is_Some (rgs w !! r) -> r ∈ owners l.*2) -> (length l < fuel)%nat ->
  Forall (fun c => is_Some (c_data c)) l.*2 ->
  wp (tolerated E cap late) (drop_ranges fuel)
    (fun _ w' => ivs w' = ∅ /\ rgs w' = ∅ /\ exists k nc nm,
       w' = mkWorld (set_ranges None (mc w)) ∅ ∅ k nc nm) w.
Proof.
  induction fuel as [|fuel IH]; intros w l HS Hl Hnd Hdom Hf Hown; [lia|]. cbn [drop_ranges]. wp_go.
  pose proof (st_root _ _ _ (proj1 HS)) as Hroot. destruct (ranges (mc w)) as [p|] eqn:Er.
  - destruct Hroot as (l1 & c & l2 & Hsplit). assert (Hp : l ≡ₚ (p, c) :: l1 ++ l2) by (rewrite Hsplit; solve_Permutation).
    destruct (Shape_lookup _ _ _ _ p c HS) as (n & Hn & _ & _ & Hd); [rewrite Hp; apply list_elem_of_here|]. wp_go.
    wp_last (remove_range_interval_wp E HE At p c l (l1 ++ l2)) as Hdrop; [by rewrite Er|done..| |].
    { intros Hex. exfalso. rewrite Hp in Hown. apply Forall_cons in Hown as [_ Hown].
      apply Exists_exists in Hex as (x & Hx & Hxd). rewrite Forall_forall in Hown. destruct (Hown x Hx). congruence. }
    destruct Hdrop as (Hown' & l' & h' & root' & R' & Hl' & HS' & Hlk' & Hm & ->). rewrite Hd.
    assert (Ho : owners l.*2 ≡ₚ from_option (fun r => [r]) [] (c_data c) ++ owners l'.*2).
    { rewrite <- owners_cons. apply owners_perm. rewrite Hp, fmap_cons. cbn. by rewrite Hl'. }
    rewrite Ho in Hnd. assert (Hlen : length l = S (length l')).
    { rewrite Hp. cbn. f_equal. by rewrite <- (length_fmap snd), <- Hl', length_fmap. }
    assert (Hdom' : forall r, is_Some (R' !! r) -> is_Some (rgs w !! r)).
    { intros r [x Hx]. destruct (fmap_lookup_eq (fun _ => tt) (rgs w) R' r x) as (y & -> & _); eauto.
      by apply same_meta_field. }
    destruct (c_data c) as [r|] eqn:Ec; cbn in Hnd, Ho.
    + destruct (Hl p c r) as (x & Hx & _); [rewrite Hp; apply list_elem_of_here|done|].
      destruct (same_meta_lookup _ _ _ _ Hm Hx) as (x' & Hx' & _). apply NoDup_cons in Hnd as [Hnr Hnd].
      apply wp_bind. eapply wp_free_rg; [exact Hx'|]. cbn.
      wp_last (IH _ l') as H; cbn; [done|by apply linked_free|done| |lia|by rewrite Hl'|].
      * intros y Hy. apply lookup_delete_is_Some in Hy as [Hne Hy]. apply Hdom', Hdom in Hy. rewrite Ho in Hy.
        apply elem_of_cons in Hy as [?|?]; [congruence|done].
      * destruct H as (? & ? & k & nc & nm & ->). eauto 10.
    + wp_go. wp_last (IH _ l') as H; cbn; [done|done|done| |lia|by rewrite Hl'|].
      * intros y Hy. apply Hdom', Hdom in Hy. by rewrite Ho in Hy.
      * destruct H as (? & ? & k & nc & nm & ->). eauto 10.
  - subst l. apply wp_ret.
    assert (Hi : ivs w = ∅). { apply dom_empty_inv_L. destruct HS as [_ ->]. done. }
    assert (HR : rgs w = ∅).
    { apply map_empty. intros r. destruct (rgs w !! r) eqn:Ex; [|done]. exfalso. apply (elem_of_nil r), Hdom. eauto. }
    split_and!; auto. destruct w as [[] h R k nc nm]. cbn in *. subst. eauto.
Qed.

Lemma maap_deinit_client_wp w : Inv At w ->
  wp (tolerated E cap late) maap_deinit_client
    (fun _ w' => Idle w' /\ timer_queue (mc w') = [] /\ ranges (mc w') = None /\
       net (mc w') = None /\ timer (mc w') = None /\ notifies (mc w') = []) w.
Proof.
  intros [[l [[Hc HS Hl HG] HQ]] _]. unfold maap_deinit_client. wp_go. rewrite (cl_init _ Hc). wp_go.
  wp_last drop_queue_wp as (R' & -> & HR'); [apply HQ|intros r; apply HQ|]. wp_go.
  assert (Hlive : forall r rg, R' !! r = Some rg <-> rgs w !! r = Some rg /\ live rg).
  { intros r rg. rewrite HR'. destruct (rgs w !! r) as [x|] eqn:Ex; [|split; [done|by intros [? _]]].
    assert (Hin : r ∈ timer_queue (mc w)) by (apply HQ; eauto).
    case_decide as Hd; destruct (good_state _ _ _ HG _ _ Ex) as [Hx|Hx]; split; try done.
    - intros [[= ->] _]. destruct Hd as [_ Hd], Hx as [?|?]; unfold is_released in Hd; congruence.
    - intros [[= ->] [?|?]]; congruence.
    - by intros [= ->].
    - by intros [[= ->] _].
    - intros _. destruct Hd. by split.
    - by intros [[= ->] _]. }
  wp_last (drop_ranges_wp _ _ l) as (Hi & HR & k & nc & nm & ->); cbn.
  - done.
  - intros p c r Hin Hdt. destruct (Hl p c r Hin Hdt) as (rg & Hr & Hint). exists rg. split; [|done].
    apply Hlive. split; [done|]. assert (Ho : r ∈ owners l.*2).
    { apply owners_elem. exists c. split; [|done]. apply list_elem_of_fmap. by exists (p, c). }
    apply HG in Ho as (x & ? & ?). congruence.
  - apply HG.
  - intros r [rg [Hr Hlv]%Hlive]. apply HG. eauto.
  - unfold fuel_of. rewrite (Shape_size _ _ _ _ HS). lia.
  - apply HG.
  - wp_go. split; [|done]. destruct Hc. by split.
Qed.
End Life.

(** ** A concrete MAAP client

    Worlds the theorems of [MaapCorrect] are applied to: an idle client, the
    client after initialization with a pool of 256 addresses, with one block being
    probed, and with that block being defended. *)

(** One second passes between two clock readings; allocation never fails. *)
Definition env0 : Env :=
  mkEnv (fun n => Z.of_nat n * 7) (fun n => mkTime (Z.of_nat n) 5) (fun _ => true).

Lemma env0_ok : env_ok env0.
Proof.
  split; cbn.
  - intros n. lia.
  - intros n. unfold normal. cbn. lia.
  - intros i j Hij. unfold time_le. cbn. lia.
Qed.

Definition idle_world : world :=
  mkWorld (mkClient 0x91e0f000ff00 0x001122334455 0 0 None [] None None 0 [] false) ∅ ∅ 0 0 0.

Lemma idle_world_Idle : Idle idle_world.
Proof. split; cbn; unfold is_u48; lia || done. Qed.

(** The state a computation leaves behind. *)
Definition final {A} (m : MAAP A) (w : world) : world :=
  match m w with Ok (_, w') => w' | Fault _ => w end.

Definition answer {A} (m : MAAP A) (w : world) : option A :=
  match m w with Ok (a, _) => Some a | Fault _ => None end.

Lemma wp_final {A} T (m : MAAP A) Q w a : answer m w = Some a -> wp T m Q w -> Q a (final m w).
Proof. unfold wp, final, answer. destruct (m w) as [[b w']|f]; [by intros [= ->]|done]. Qed.

Definition pool_base : Z := 0x91e0f0000000.

Definition ready_world : world := final (maap_init_client env0 1 pool_base 0x100) idle_world.
Definition probing_world : world := final (maap_reserve_range env0 1 0 10) ready_world.

(** Enough expiries for the announcement. *)
Definition defending_world : world :=
  final (maap_handle_timer env0) (final (maap_handle_timer env0) (final (maap_handle_timer env0)
    (final (maap_handle_timer env0) (final (maap_handle_timer env0) probing_world)))).

Lemma ready_world_Inv : Inv Store ready_world.
Proof.
  destruct (wp_final _ (maap_init_client env0 1 pool_base 0x100) _ idle_world 0 ltac:(vm_compute; reflexivity)
    (maap_init_client_wp env0 (cap := 0) (late := False) Store 1 pool_base 0x100 idle_world idle_world_Idle
       ltac:(unfold pool_base; lia) ltac:(unfold pool_base; lia) ltac:(lia))) as [[? _]|(_ & HI & _)]; [done|exact HI].
Qed.

Lemma unflagged_insert R r rg : overlapping rg = false -> unflagged R -> unflagged (<[r := rg]> R).
Proof. intros Ho Hu x y [[_ <-]|[_ Hx]]%lookup_insert_Some; eauto. Qed.

Lemma probing_world_Inv : Inv Store probing_world.
Proof.
  destruct ready_world_Inv as [[l HI] Hu].
  destruct (wp_final _ (maap_reserve_range env0 1 0 10) _ ready_world 1 ltac:(vm_compute; reflexivity)
    (maap_reserve_range_wp env0 env0_ok (cap := 1) (late := False) Store 1 0 10 ready_world l HI
       ltac:(lia) ltac:(lia) ltac:(lia) ltac:(vm_compute; lia)))
    as [[? _]|[[? _]|(_ & range & rg & p & lo & l' & _ & HI' & _ & HR & (_ & _ & _ & _ & Ho) & _)]]; [done..|].
  split; [by exists l'|]. unfold probing_world. rewrite HR. by apply unflagged_insert.
Qed.

Lemma loop_post_unflagged E i R R' : loop_post E i R R' -> unflagged R -> unflagged R'.
Proof.
  intros [Hs Hn] Hu r x Hx. destruct (R !! r) as [y|] eqn:Ey; [|by rewrite Hn in Hx].
  specialize (Hs r y Ey). unfold expired_once in Hs. case_decide.
  - destruct Hs as [(_ & t & _ & Hs)|(_ & Hs)]; [|congruence]. rewrite Hs in Hx. injection Hx as <-.
    unfold tick. repeat case_match; cbn; by eapply Hu.
  - rewrite Hs in Hx. injection Hx as <-. by eapply Hu.
Qed.

Lemma timer_Inv w : answer (maap_handle_timer env0) w = Some 0 -> Inv Store w ->
  Inv Store (final (maap_handle_timer env0) w).
Proof.
  intros Ha [[l HI] Hu].
  destruct (wp_final _ _ _ _ 0 Ha (maap_handle_timer_wp env0 env0_ok (cap := size (rgs w)) (late := False) Store w l HI (Nat.le_refl _))) as (_ & HI' & Hp).
  split; [by exists l|by eapply loop_post_unflagged].
Qed.

Lemma defending_world_Inv : Inv Store defending_world.
Proof. unfold defending_world. do 5 (apply timer_Inv; [vm_compute; reflexivity|]). apply probing_world_Inv. Qed.
