(* ===== verification/MaapCorrect.v ===== *)
(** * The MAAP daemon: theorems

    The properties of the interval tree, the packets, the transmit queue, the times
    and the client, each with an instance at the concrete client of [MaapLife]. *)

From S2P Require Import Prelude.
From S2P Require Import Intervals.
From S2P Require Import IntervalsTheory.
From S2P Require Import MaapPacket.
From S2P Require Import MaapNet.
From S2P Require Import Maap.
From S2P Require Import MaapTheory.
From S2P Require Import MaapInvariant.
From S2P Require Import MaapHandlers.
From S2P Require Import MaapConflict.
From S2P Require Import MaapLife.

(** ** The client *)




(** C2: [maap_handle_timer] terminates, keeps the client consistent and handles
    every range exactly once: a range that is not due is untouched, a due live
    range is advanced by one step and armed for a time that is not due, and the
    object of a released range is freed.  Only an allocation that fails, unchecked,
    or more than 100,000 ranges stop it. *)
Theorem maap_handle_timer_handles_due_once E w :
  env_ok E -> Inv Store w ->
  wp (tolerated E (size (rgs w)) False) (maap_handle_timer E)
    (fun rv w' => rv = 0 /\ Inv Store w' /\
       (forall r rg, rgs w !! r = Some rg -> expired_once (env_clock E (n_clock w)) rg (rgs w' !! r)) /\
       (forall r, rgs w !! r = None -> rgs w' !! r = None)) w.
Proof.
  intros HE [[l HI] Hu]. wp_last (maap_handle_timer_wp E HE Store w l HI (Nat.le_refl _)) as (Hrv & HI' & Hp).
  split_and!; [done| |apply Hp..]. split; [by exists l|by eapply loop_post_unflagged].
Qed.

Lemma maap_handle_timer_handles_due_once_witness :
  wp (tolerated env0 1 False) (maap_handle_timer env0)
    (fun rv w' => rv = 0 /\ Inv Store w' /\
       (forall r rg, rgs probing_world !! r = Some rg ->
          expired_once (env_clock env0 (n_clock probing_world)) rg (rgs w' !! r)) /\
       (forall r, rgs probing_world !! r = None -> rgs w' !! r = None)) probing_world.
Proof. exact (maap_handle_timer_handles_due_once env0 probing_world env0_ok probing_world_Inv). Defined.



(** C4: [maap_release_range] removes exactly the block of a live range with the
    given id, keeps the client consistent and notifies the requester, and the owner
    if that is another one; without such a range it changes nothing but the
    notifications.  Only the unchecked allocation of a notification can stop it. *)
Theorem maap_release_range_outcomes E w l who i :
  env_ok E -> Inv_at Store w l ->
  wp (tolerated E 0 False) (maap_release_range E who i)
    (fun rv w' => release_post Store w l who i rv w' /\ (unflagged (rgs w) -> unflagged (rgs w'))) w.
Proof. intros HE. by apply (maap_release_range_wp E HE Store). Qed.

Lemma maap_release_range_outcomes_witness :
  exists l, wp (tolerated env0 0 False) (maap_release_range env0 2 1)
    (fun rv w' => release_post Store probing_world l 2 1 rv w' /\
       (unflagged (rgs probing_world) -> unflagged (rgs w'))) probing_world.
Proof.
  destruct (proj1 probing_world_Inv) as [l HI]. exists l.
  exact (maap_release_range_outcomes env0 probing_world l 2 1 env0_ok HI).
Defined.

(** [maap_yield_range] gives a defended range with the given id up: the packet
    it makes up wins against every station address but two, exactly that range
    conflicts with it, and the range ends released, with the client consistent.
    Without such a range only the requester is told. *)
Theorem maap_yield_range_gives_up E w who i :
  env_ok E -> Inv Store w -> src_mac (mc w) <> 0x010000000000 ->
  wp (tolerated E (S (size (rgs w))) (late_draw E (range_len (mc w)) (size (ivs w))))
    (maap_yield_range E who i) (yield_post Store w who i) w.
Proof. intros HE HI Hs. apply (maap_yield_range_wp E HE Store); auto. Qed.

Lemma maap_yield_range_gives_up_witness :
  wp (tolerated env0 2 (late_draw env0 256 1)) (maap_yield_range env0 1 1) (yield_post Store defending_world 1 1) defending_world.
Proof.
  exact (maap_yield_range_gives_up env0 defending_world 1 1 env0_ok defending_world_Inv
           ltac:(vm_compute; discriminate)).
Defined.

(** C5: [maap_deinit_client] frees every interval node and every range object,
    whatever the order in which they were reserved and released, and leaves a
    client that can be initialized again; nothing stops it on the way. *)
Theorem maap_deinit_client_frees_all w : Inv Store w ->
  exists w', maap_deinit_client w = Ok (tt, w') /\
    Idle w' /\ timer_queue (mc w') = [] /\ ranges (mc w') = None /\
    net (mc w') = None /\ timer (mc w') = None /\ notifies (mc w') = [].
Proof.
  intros HI. pose proof (maap_deinit_client_wp env0 env0_ok (cap := 0) (late := False) Store w HI) as H.
  eapply wp_tolerate, wp_returns in H as ([] & w' & Hd & H); [by exists w'|].
  by intros f [[_ []]|[[_ Hcap]|[_ [n Hn]]]].
Qed.

Lemma maap_deinit_client_frees_all_witness :
  exists w', maap_deinit_client defending_world = Ok (tt, w') /\
    Idle w' /\ timer_queue (mc w') = [] /\ ranges (mc w') = None /\
    net (mc w') = None /\ timer (mc w') = None /\ notifies (mc w') = [].
Proof. exact (maap_deinit_client_frees_all defending_world defending_world_Inv). Defined.

(** [maap_init_client] on an idle client establishes the invariant with the
    requested pool, unless an allocation fails. *)
Theorem maap_init_client_establishes E w who base len :
  Idle w -> 0 <= base -> base + len <= 2 ^ 48 -> 0 < len < 2 ^ 32 ->
  wp (tolerated E 0 False) (maap_init_client E who base len)
    (fun rv w' => (rv = -1 /\ exists n, env_malloc E n = false) \/
       (rv = 0 /\ Inv Store w' /\ address_base (mc w') = base /\ range_len (mc w') = len /\
        notifies (mc w') = [(who, mkNotify MAAP_NOTIFY_INITIALIZED (-1) base len MAAP_NOTIFY_ERROR_NONE)])) w.
Proof. apply (maap_init_client_wp E Store). Qed.

Lemma maap_init_client_establishes_witness :
  wp (tolerated env0 0 False) (maap_init_client env0 1 pool_base 256)
    (fun rv w' => (rv = -1 /\ exists n, env_malloc env0 n = false) \/
       (rv = 0 /\ Inv Store w' /\ address_base (mc w') = pool_base /\ range_len (mc w') = 256 /\
        notifies (mc w') = [(1, mkNotify MAAP_NOTIFY_INITIALIZED (-1) pool_base 256 MAAP_NOTIFY_ERROR_NONE)]))
    idle_world.
Proof.
  exact (maap_init_client_establishes env0 idle_world 1 pool_base 256 idle_world_Idle
           ltac:(discriminate) ltac:(discriminate) (conj eq_refl eq_refl)).
Defined.

(** A probe that conflicts with a defended range is answered by one DEFEND
    packet to the sender, which carries the request and the addresses both blocks
    share, and changes nothing but the transmit queue. *)
Theorem defend_reports_intersection E w l pkt p c l0 range rg n :
  Inv_at Store w l -> l ≡ₚ (p, c) :: l0 -> c_data c = Some range -> ivs w !! p = Some n ->
  rgs w !! range = Some rg -> live rg -> wf_packet pkt -> message_type pkt = MAAP_PROBE ->
  wp (tolerated E 0 False) (conflict_defending E pkt p range)
    (fun _ => sent (defence (mc w) n (requested_start_address pkt) (requested_count pkt) (SA pkt)) w) w.
Proof.
  intros HI Hp Hd Hn Hr Hl Hwf Hm. unfold conflict_defending. wp_go. rewrite Hm, Z.eqb_refl. apply wp_bind.
  destruct (live_points _ _ _ _ _ HI Hr Hl) as (p' & c' & l' & n' & Hp' & Hd' & Hi & Hpts & _ & _ & _ & Hn' & Hpool).
  destruct (inv_linked _ _ _ HI p c range) as (rg' & Hr' & Hi'); [by eapply elem_of_perm_head|done|]. simplify_eq.
  by wp_last (send_defend_wp E range rg n) as Hs; [apply HI|done|done|apply Hwf..|].
Qed.

(** The probe overlaps the last three addresses of the defended block. *)
Definition overlapping_probe : MAAP_Packet :=
  set_request MAAP_PROBE (pool_base + 7) 5
    (mkPacket 0x91e0f000ff00 2 MAAP_TYPE MAAP_SUBTYPE 0 0 0 1 16 0 0 0 0 0).

Lemma overlapping_probe_wf : wf_packet overlapping_probe.
Proof. split; vm_compute; intuition discriminate. Qed.

Lemma defending_entry : exists l c n rg,
  Inv_at Store defending_world l /\ l ≡ₚ [(1%positive, c)] /\ c_data c = Some 1%positive /\
  ivs defending_world !! 1%positive = Some n /\ low n = 0 /\ high n = 9 /\
  rgs defending_world !! 1%positive = Some rg /\ live rg.
Proof.
  destruct (proj1 defending_world_Inv) as [l HI].
  destruct (rgs defending_world !! 1%positive) as [rg|] eqn:Er; [|by vm_compute in Er].
  assert (Hl : live rg). { vm_compute in Er. injection Er as <-. by right. }
  destruct (live_points _ _ _ _ _ HI Er Hl) as (p & c & l0 & n & Hp & Hd & Hi & _ & _ & _ & _ & Hn & _).
  assert (p = 1%positive) as ->. { vm_compute in Er. injection Er as <-. by injection Hi as <-. }
  exists l, c, n, rg. assert (l0 = []) as ->.
  { pose proof (Shape_size _ _ _ _ (inv_shape _ _ _ HI)) as Hs. rewrite Hp in Hs. vm_compute in Hs.
    destruct l0; [done|]. by injection Hs. }
  vm_compute in Hn. injection Hn as <-. auto 10.
Qed.

Lemma defend_reports_intersection_witness : exists n,
  wp (tolerated env0 0 False) (conflict_defending env0 overlapping_probe 1 1)
    (fun _ => sent (defence (mc defending_world) n (pool_base + 7) 5 2) defending_world) defending_world
  /\ conflict_count (defence (mc defending_world) n (pool_base + 7) 5 2) = 3.
Proof.
  destruct defending_entry as (l & c & n & rg & HI & Hp & Hd & Hn & Hlo & Hhi & Hr & Hl). exists n. split.
  - exact (defend_reports_intersection env0 defending_world l overlapping_probe 1 c [] 1 rg n
             HI Hp Hd Hn Hr Hl overlapping_probe_wf eq_refl).
  - destruct n. cbn in Hlo, Hhi. subst. vm_compute. reflexivity.
Defined.

(** ** The interval tree *)

(** A tree with the blocks 0-9 and 20-29. *)
Definition ex_heap : iheap :=
  <[1%positive := mkInterval 0 9 None None None (Some 2%positive)]>
  (<[2%positive := mkInterval 20 29 None (Some 1%positive) None None]> ∅).
Definition ex_entries : entries := [(1%positive, Content 0 9 None); (2%positive, Content 20 29 None)].

Lemma ex_store : Store ex_heap (Some 1%positive) ex_entries.
Proof.
  exists (Node Leaf 1 (Content 0 9 None) (Node Leaf 2 (Content 20 29 None) Leaf)).
  split_and!; [|done|split; repeat constructor; cbn; lia].
  split_and!; [done|by vm_compute|]. apply (bool_decide_unpack _). by vm_compute.
Qed.

(** C6: [insert_interval] refuses a new node exactly when it shares an address with
    a node of the tree, and then changes nothing; otherwise it puts the node at its
    place in the address order. *)
Theorem insert_interval_sorted_insert h root l node start count :
  Store h root l -> node ∉ l.*1 -> h !! node = Some (alloc_interval start count) ->
  0 < count -> 0 <= start -> start + count <= 2 ^ 32 ->
  (insert_interval h root node = Ok (INTERVAL_OVERLAP, h, root) /\
     exists e, e ∈ l /\ c_low e.2 <= start + count - 1 /\ start <= c_high e.2) \/
  (exists h' root' l1 l2, insert_interval h root node = Ok (INTERVAL_SUCCESS, h', root') /\
     l = l1 ++ l2 /\ Store h' root' (l1 ++ (node, Content start (start + count - 1) None) :: l2) /\
     dom h' = dom h /\ forall e, e ∈ l -> ~ (c_low e.2 <= start + count - 1 /\ start <= c_high e.2)).
Proof.
  intros HS Hout Hn Hc H0 Hmax. unfold alloc_interval in Hn. rewrite u32_small in Hn by (unfold is_u32; lia).
  destruct (st_insert (At := Store) h root l node (Content start (start + count - 1) None) HS Hout Hn)
    as [[-> Hh]|(h' & root' & l1 & l2 & -> & Hi & Hs & Hd & Hh)]; cbn in *; [lia| |].
  - left. split; [done|]. destruct (hit_list _ _ l) as [|e hl] eqn:Eh; [done|].
    assert (Hin : e ∈ hit_list start (start + count - 1) l) by (rewrite Eh; apply list_elem_of_here).
    apply list_elem_of_filter in Hin as [He Hin]. exists e. split; [done|]. by apply hits_iff.
  - right. exists h', root', l1, l2. split_and!; auto. intros e He Hov.
    apply (elem_of_nil e). rewrite <- Hh. apply list_elem_of_filter. split; [by apply hits_iff|done].
Qed.

Lemma insert_interval_sorted_insert_witness : exists h' root' l1 l2,
  insert_interval (<[3%positive := alloc_interval 10 5]> ex_heap) (Some 1%positive) 3 = Ok (INTERVAL_SUCCESS, h', root') /\
  ex_entries = l1 ++ l2 /\ Store h' root' (l1 ++ (3%positive, Content 10 14 None) :: l2).
Proof.
  destruct (insert_interval_sorted_insert (<[3%positive := alloc_interval 10 5]> ex_heap) (Some 1%positive) ex_entries 3 10 5)
    as [[Hi _]|(h' & root' & l1 & l2 & Hi & Hl & HS & _)]; [|vm_compute; set_solver|reflexivity|lia|lia|lia| |].
  - eapply (st_frame (At := Store)); [exact ex_store|]. intros p Hp. apply lookup_insert_ne. intros <-. cbn in Hp. set_solver.
  - by vm_compute in Hi.
  - exists h', root', l1, l2. auto.
Defined.

(** C7: [remove_interval] takes exactly the contents of the given node out, keeps
    the order of the rest, and returns a node, not necessarily the given one, which
    holds the owner of the removed contents and which no link leads to any more. *)
Theorem remove_interval_removes_contents h root l1 p c l2 :
  Store h root (l1 ++ (p, c) :: l2) ->
  exists h' root' snip l', remove_interval h root p = Ok (h', root', snip) /\
    Store (free_interval h' snip) root' l' /\ dom h' = dom h /\
    (exists n, h' !! snip = Some n /\ data n = c_data c) /\
    l'.*2 = l1.*2 ++ l2.*2 /\ snip :: l'.*1 ≡ₚ l1.*1 ++ p :: l2.*1.
Proof. apply st_remove. Qed.

Lemma remove_interval_removes_contents_witness :
  exists h' root' snip l', remove_interval ex_heap (Some 1%positive) 1 = Ok (h', root', snip) /\
    Store (free_interval h' snip) root' l' /\ l'.*2 = [Content 20 29 None].
Proof.
  destruct (remove_interval_removes_contents ex_heap (Some 1%positive) [] 1 (Content 0 9 None)
    [(2%positive, Content 20 29 None)] ex_store) as (h' & root' & snip & l' & ? & ? & _ & _ & ? & _).
  exists h', root', snip, l'. auto.
Defined.

(** [search_interval] returns the first node, in address order, that overlaps
    the query, and null if there is none; the query's last address is computed
    modulo 2^32. *)
Theorem search_interval_first_overlap h root l start count :
  Store h root l ->
  search_interval h root start count = Ok (fst <$> head (hit_list start (u32 (start + count - 1)) l)).
Proof. apply st_search. Qed.

Lemma search_interval_first_overlap_witness :
  search_interval ex_heap (Some 1%positive) 5 20 = Ok (Some 1%positive).
Proof. exact (search_interval_first_overlap ex_heap (Some 1%positive) ex_entries 5 20 ex_store). Defined.

(** Walking from [minimum_interval] with [next_interval] visits the nodes in
    address order: the minimum is the first entry and the successor of every entry
    is the next one, null behind the last. *)
Theorem interval_iteration_in_order h root l :
  Store h root l ->
  minimum_interval h root = Ok (fst <$> head l) /\
  forall l1 p c l2, l = l1 ++ (p, c) :: l2 -> next_interval h p = Ok (fst <$> head l2).
Proof.
  intros HS. split; [by apply st_minimum|]. intros l1 p c l2 ->. by eapply (st_next (At := Store)).
Qed.

Lemma interval_iteration_in_order_witness :
  minimum_interval ex_heap (Some 1%positive) = Ok (Some 1%positive) /\
  next_interval ex_heap 1 = Ok (Some 2%positive).
Proof.
  destruct (interval_iteration_in_order ex_heap (Some 1%positive) ex_entries ex_store) as [H1 H2].
  split; [exact H1|exact (H2 [] 1%positive (Content 0 9 None) [(2%positive, Content 20 29 None)] eq_refl)].
Defined.

(** ** Packets *)

(** [unpack_maap] is a left inverse of [pack_maap] on every packet whose fields
    fit their widths, whatever the buffer held and whatever lies behind the packet. *)
Theorem unpack_pack p buf j1 j2 j3 j4 :
  wf_packet p -> (42 <= length buf)%nat -> junk_ok j1 -> junk_ok j2 -> junk_ok j3 -> junk_ok j4 ->
  exists bs, pack_maap p buf = Ok bs /\ unpack_maap bs j1 j2 j3 j4 = Ok p.
Proof.
  intros Hp Hl ????. exists (wire p ++ drop 42 buf). split; [by apply pack_maap_spec|by apply unpack_wire].
Qed.

Lemma unpack_pack_witness : exists bs,
  pack_maap overlapping_probe (replicate 64 255) = Ok bs /\
  unpack_maap bs [1; 2] [3; 4] [5; 6] [7; 8] = Ok overlapping_probe.
Proof.
  refine (unpack_pack overlapping_probe (replicate 64 255) [1; 2] [3; 4] [5; 6] [7; 8] overlapping_probe_wf _ _ _ _ _);
    [vm_compute; lia|..]; (split; [repeat constructor; vm_compute; intuition discriminate|reflexivity]).
Defined.

(** Every 42 bytes are the wire image of the packet [unpack_maap] reads from
    them: packing that packet again restores the bytes. *)
Theorem pack_unpack l rest j1 j2 j3 j4 buf :
  bytes l -> length l = 42%nat -> junk_ok j1 -> junk_ok j2 -> junk_ok j3 -> junk_ok j4 -> (42 <= length buf)%nat ->
  exists p, unpack_maap (l ++ rest) j1 j2 j3 j4 = Ok p /\ wf_packet p /\
    pack_maap p buf = Ok (l ++ drop 42 buf).
Proof.
  intros Hb Hl ???? Hbuf. exists (parsed l). split_and!; [by apply unpack_spec|by apply parsed_wf|].
  rewrite pack_maap_spec by auto using parsed_wf. by rewrite wire_parsed.
Qed.

Lemma pack_unpack_witness : exists p,
  unpack_maap (replicate 42 0xAB ++ []) [0; 0] [0; 0] [0; 0] [0; 0] = Ok p /\ wf_packet p /\
    pack_maap p (replicate 42 0) = Ok (replicate 42 0xAB ++ []).
Proof.
  refine (pack_unpack (replicate 42 0xAB) [] [0; 0] [0; 0] [0; 0] [0; 0] (replicate 42 0) _ eq_refl _ _ _ _ _);
    [apply Forall_replicate; vm_compute; intuition discriminate
    |split; [repeat constructor; vm_compute; intuition discriminate|reflexivity]..
    |vm_compute; lia].
Defined.

(** [compare_mac_addresses] compares the addresses with their bytes in reverse
    order: of two different stations exactly one wins. *)
Theorem compare_mac_total a b :
  is_u48 a -> is_u48 b -> a <> b ->
  compare_mac_addresses a b = (rev_mac 6 a <? rev_mac 6 b) /\
  compare_mac_addresses a b = negb (compare_mac_addresses b a).
Proof.
  intros Ha Hb Hne. rewrite !compare_mac_spec.
  assert (rev_mac 6 a <> rev_mac 6 b) by (intros H; by apply Hne, rev_mac_inj48).
  destruct (Z.leb_spec (rev_mac 6 a) (rev_mac 6 b)), (Z.leb_spec (rev_mac 6 b) (rev_mac 6 a)),
    (Z.ltb_spec (rev_mac 6 a) (rev_mac 6 b)); cbn; lia || done.
Qed.

Lemma compare_mac_total_witness :
  compare_mac_addresses 0x001122334455 0x665544332211 = false /\
  compare_mac_addresses 0x665544332211 0x001122334455 = true.
Proof.
  destruct (compare_mac_total 0x001122334455 0x665544332211
    ltac:(unfold is_u48; lia) ltac:(unfold is_u48; lia) ltac:(lia)) as [H1 H2].
  split; [exact H1|by destruct (compare_mac_addresses 0x665544332211 0x001122334455)].
Defined.

(** ** The transmit queue and the times *)

(** A packet sent through [Net_getPacketBuffer] and [Net_queuePacket] is added
    to the queue, whether a preallocated buffer is free or not, and the transmit loop
    of the daemon hands the queued packets out, every one once: the ones sent and the
    ones still queued are the queue before, and nothing stays queued when every
    transmission succeeds. *)
Theorem net_queue_delivers net bs send_ok :
  net_wf net -> length bs = MAAP_NET_BUFFER_SIZE ->
  exists p net1 net2 sent net3,
    Net_getPacketBuffer true net = Ok (p, net1) /\
    Net_queuePacket (Net_write net1 p bs) p = Ok (0, net2) /\ net_wf net2 /\
    queued net2 ≡ₚ bs :: queued net /\
    transmit send_ok net2 = Ok (sent, net3) /\ net_wf net3 /\
    sent ++ queued net3 ≡ₚ bs :: queued net /\
    ((forall j, send_ok j = true) -> queued net3 = []).
Proof.
  intros Hwf Hbs. destruct (Net_send_spec net Hwf) as (p & net1 & old & Hg & _ & _ & Hk).
  destruct (Hk bs Hbs) as (net2 & Hq & Hwf2 & Hp).
  destruct (transmit_loop_spec (S (length (net_buffer net2) + length (pFirst net2))) send_ok 0 net2 Hwf2)
    as (sent & net3 & Ht & Hs & Hwf3 & Hall). { pose proof (queued_length net2). lia. }
  exists p, net1, net2, sent, net3. split_and!; auto. by rewrite Hs.
Qed.

Lemma net_queue_delivers_witness : exists p net1 net2 sent net3,
  Net_getPacketBuffer true Net_newNet = Ok (p, net1) /\
  Net_queuePacket (Net_write net1 p (replicate 64 7)) p = Ok (0, net2) /\
  transmit (fun _ => true) net2 = Ok (sent, net3) /\ queued net3 = [].
Proof.
  destruct (net_queue_delivers Net_newNet (replicate 64 7) (fun _ => true) Net_newNet_wf eq_refl)
    as (p & net1 & net2 & sent & net3 & H1 & H2 & _ & _ & H3 & _ & _ & H4).
  exists p, net1, net2, sent, net3. auto.
Defined.

(** [schedule_timer] arms a live range for a time strictly after the current
    clock reading and keeps the timer queue complete and sorted by expiration,
    wherever the range was in the queue; its sanity checks do not fail. *)
Theorem schedule_timer_keeps_queue_sorted E w l range rg :
  env_ok E -> Inv_at Store w l -> rgs w !! range = Some rg -> live rg ->
  wp (tolerated E (size (rgs w)) False) (schedule_timer E range)
    (fun _ w' => Inv_at Store w' l /\ exists t,
       ~ time_le t (env_clock E (n_clock w)) /\ rgs w' = <[range := set_next_act_time t rg]> (rgs w) /\
       timer_queue (mc w') ≡ₚ timer_queue (mc w) /\
       StronglySorted (due (rgs w')) (timer_queue (mc w'))) w.
Proof.
  intros HE HI Hr Hl.
  wp_last (schedule_Inv E Store w l range rg) as [(t & q & nr & Ht & Hq & ->) HI']; [apply HI|done|done| |done|].
  { apply Queue_Ready; [apply HI|eauto]. }
  split; [done|]. exists t. cbn. split_and!; [by eapply later_not_due|done| |apply HI'].
  rewrite Hq. symmetry. apply flagged_perm; [apply HI|]. apply (inv_queue _ _ _ HI). eauto.
Qed.

Lemma schedule_timer_keeps_queue_sorted_witness : exists l rg,
  wp (tolerated env0 1 False) (schedule_timer env0 1)
    (fun _ w' => Inv_at Store w' l /\ exists t,
       ~ time_le t (env_clock env0 (n_clock defending_world)) /\
       rgs w' = <[1%positive := set_next_act_time t rg]> (rgs defending_world) /\
       timer_queue (mc w') ≡ₚ timer_queue (mc defending_world) /\
       StronglySorted (due (rgs w')) (timer_queue (mc w'))) defending_world.
Proof.
  destruct defending_entry as (l & c & n & rg & HI & _ & _ & _ & _ & _ & Hr & Hl). exists l, rg.
  exact (schedule_timer_keeps_queue_sorted env0 defending_world l 1 rg env0_ok HI Hr Hl).
Defined.

(** [Time_add] adds durations exactly; on normalised times its result lies in
    the order of [Time_cmp] strictly behind the first operand when the duration is
    positive, and is normalised unless the nanoseconds add up to exactly one second,
    which the test [> 1000000000] lets through. *)
Theorem Time_add_correct a n :
  normal a -> 0 < n ->
  let r := Time_add a (Time_setFromNanos n) in
  nanos r = nanos a + n /\ Time_cmp a r < 0 /\
  (normal r <-> tv_nsec a + tv_nsec (Time_setFromNanos n) <> 1000000000).
Proof.
  intros Ha Hn r. destruct (Time_setFromNanos_normal n) as [Hb Hv]. split_and!.
  - unfold r. by rewrite nanos_add, Hv.
  - apply Time_cmp_lt. by apply Time_add_later.
  - destruct (Time_add_nsec a (Time_setFromNanos n) Ha Hb) as [H1 H2]. unfold normal, r in *. lia.
Qed.

Lemma Time_add_correct_witness :
  nanos (Time_add (mkTime 3 900000000) (Time_setFromNanos 600000000)) = 4500000000 /\
  normal (Time_add (mkTime 3 900000000) (Time_setFromNanos 600000000)).
Proof.
  destruct (Time_add_correct (mkTime 3 900000000) 600000000 ltac:(unfold normal; cbn; lia) eq_refl)
    as (H1 & _ & H2). split; [exact H1|]. apply H2. vm_compute. discriminate.
Defined.

(** ** Behaviours that deviate from what the code means to do *)

(** The first draw is the delay of the first reservation's timer; the next 999 hit the block at
    the start of the pool, the thousandth does not. *)
Definition env_late : Env :=
  mkEnv (fun n => if (n =? 1000)%nat then 5 else 0) (fun n => mkTime (Z.of_nat n) 5) (fun _ => true).
Definition crowded_world : world :=
  final (maap_reserve_range env_late 1 pool_base 1)
    (final (maap_init_client env_late 1 pool_base 16) idle_world).

(** When only the last of the 1000 attempts of [assign_interval] finds a free
    block, the reservation is reported as failed although the block was inserted:
    the tree keeps a node without owner, and releasing the other, perfectly valid
    reservation then stops the daemon at [assert(range)]. *)
Theorem late_success_breaks_release :
  answer (maap_reserve_range env_late 1 0 1) crowded_world = Some (-1) /\
  map_Exists (fun _ n => data n = None) (ivs (final (maap_reserve_range env_late 1 0 1) crowded_world)) /\
  maap_release_range env_late 1 1 (final (maap_reserve_range env_late 1 0 1) crowded_world)
    = Fault (AssertFailed 267).
Proof.
  split; [vm_compute; reflexivity|]. split; [|vm_compute; reflexivity].
  exists 2%positive, (mkInterval 5 5 None (Some 1%positive) None None). split; vm_compute; reflexivity.
Qed.

(** An announcement for two addresses, the last one below the pool and the first
    one of it, from a station that wins every comparison. *)
Definition straddling_announce : MAAP_Packet :=
  set_request MAAP_ANNOUNCE (pool_base - 1) 2
    (mkPacket 0x91e0f000ff00 1 MAAP_TYPE MAAP_SUBTYPE 0 0 0 1 16 0 0 0 0 0).

(** A conflict that starts below the pool goes unnoticed.  The offset of the
    request is computed modulo 2^32, so a request for addresses that include the
    first address of a defended block, but start one below the pool, is ignored. *)
Theorem conflict_below_pool_unnoticed :
  first_address (mc defending_world) (mkInterval 0 9 None None None None) = pool_base /\
  requested_start_address straddling_announce + requested_count straddling_announce - 1 = pool_base /\
  answer (handle_parsed env0 straddling_announce) defending_world = Some 0 /\
  rgs (final (handle_parsed env0 straddling_announce) defending_world) = rgs defending_world /\
  ivs (final (handle_parsed env0 straddling_announce) defending_world) = ivs defending_world /\
  notifies (mc (final (handle_parsed env0 straddling_announce) defending_world)) = notifies (mc defending_world).
Proof.
  split; [vm_compute; reflexivity|]. split; [vm_compute; reflexivity|]. split; [vm_compute; reflexivity|].
  split; [vm_compute; reflexivity|]. split; vm_compute; reflexivity.
Qed.
