(* ===== verification/CText.v ===== *)
(** * C strings

    Text is a list of byte values without its terminating zero.  The definitions are
    the parts of the C library the daemons print and parse with: conversions of
    [printf] and [scanf], [snprintf], [strtoul], [strncmp], [strtok] and [strstr]. *)

From S2P Require Import Prelude.
From Stdlib Require Import Ascii String.

Open Scope Z_scope.
Local Abbreviation length := List.length.

Fixpoint str (s : string) : list Z :=
  match s with
  | EmptyString => []
  | String c s' => Z.of_nat (nat_of_ascii c) :: str s'
  end.

Definition newline : list Z := [10].

(** The C string stored in a buffer: the bytes before the first zero. *)
Fixpoint cstr (buf : list Z) : list Z :=
  match buf with
  | [] => []
  | b :: buf' => if b =? 0 then [] else b :: cstr buf'
  end.

(** [bytes] were received into a zeroed buffer of [size] bytes.  Read as a C string,
    without a zero among them and with all of the buffer used, it has no end. *)
Definition terminated (size : nat) (bytes : list Z) : bool :=
  (length bytes <? size)%nat || existsb (Z.eqb 0) bytes.

Definition c_string (size : nat) (bytes : list Z) : outcome (list Z) :=
  if terminated size bytes then Ok (cstr bytes) else Fault OutOfBounds.

(** ** Printing *)

Definition digit_char (d : Z) : Z := if d <? 10 then 48 + d else 87 + d.

Fixpoint digits_loop (fuel : nat) (base v : Z) (acc : list Z) : list Z :=
  match fuel with
  | O => acc
  | S fuel =>
      let acc := digit_char (v mod base) :: acc in
      if v / base =? 0 then acc else digits_loop fuel base (v / base) acc
  end.

(** The digits of a value that needs at most [k] of them. *)
Definition digits (k : nat) (base v : Z) : list Z := digits_loop k base v [].

Definition pad0 (width : nat) (s : list Z) : list Z := replicate (width - length s) 48 ++ s.

(** [%0<width>x] of a 64-bit or narrower unsigned value, [%u] and [%d] of an int. *)
Definition fmt_x (width : nat) (v : Z) : list Z := pad0 width (digits 16 16 v).
Definition fmt_u (v : Z) : list Z := digits 20 10 v.
Definition fmt_d (v : Z) : list Z := if v <? 0 then 45 :: digits 20 10 (- v) else digits 20 10 v.

(** [snprintf(buf, size, ...)]: at most [size - 1] characters are stored. *)
Definition snprintf (size : nat) (text : list Z) : list Z := take (size - 1) text.

(** [sprintf] into a buffer of [size] bytes must find room for the text and its zero. *)
Definition sprintf (size : nat) (text : list Z) : outcome (list Z) :=
  if decide (length text < size)%nat then Ok text else Fault OutOfBounds.

(** ** Scanning *)

Definition isspace (c : Z) : bool := (c =? 32) || ((9 <=? c) && (c <=? 13)).

Definition digit_val (c : Z) : Z :=
  if (48 <=? c) && (c <=? 57) then c - 48
  else if (97 <=? c) && (c <=? 122) then c - 87
  else if (65 <=? c) && (c <=? 90) then c - 55
  else 255.

Fixpoint skip_spaces (s : list Z) : list Z :=
  match s with
  | c :: s' => if isspace c then skip_spaces s' else s
  | [] => []
  end.

(** The longest prefix of digits: its value and whether there is a digit at all. *)
Fixpoint scan_digits (base : Z) (s : list Z) (acc : Z) (any : bool) : option Z :=
  match s with
  | c :: s' =>
      if digit_val c <? base then scan_digits base s' (acc * base + digit_val c) true
      else if any then Some acc else None
  | [] => if any then Some acc else None
  end.

Definition scan_sign (s : list Z) : bool * list Z :=
  match s with
  | c :: s' => if c =? 45 then (true, s') else if c =? 43 then (false, s') else (false, s)
  | [] => (false, s)
  end.

Definition scan_base (base : Z) (s : list Z) : Z * list Z :=
  let plain := if base =? 0 then match s with c :: _ => if c =? 48 then 8 else 10 | [] => 10 end
               else base in
  match s with
  | z :: x :: h :: s' =>
      if ((base =? 0) || (base =? 16)) && (z =? 48) && ((x =? 120) || (x =? 88))
           && (digit_val h <? 16)
      then (16, h :: s')
      else (plain, s)
  | _ => (plain, s)
  end.

(** The 64-bit value of an integer without leading spaces; [None] if there is none. *)
Definition scan_int (base : Z) (s : list Z) : option Z :=
  let '(neg, s) := scan_sign s in
  let '(base, s) := scan_base base s in
  match scan_digits base s 0 false with
  | None => None
  | Some v => Some (if 2 ^ 64 <=? v then 2 ^ 64 - 1 else if neg : bool then u64 (- v) else v)
  end.

(** [strtoull(s, NULL, base)] and [strtoul(s, NULL, base)], both 64 bits wide. *)
Definition strtoull (base : Z) (s : list Z) : Z :=
  match scan_int base (skip_spaces s) with Some v => v | None => 0 end.

(** [sscanf(s, "%<width><conv>", &v)]: the value stored, [None] if there is no match. *)
Definition sscanf (base : Z) (width : option nat) (s : list Z) : option Z :=
  let s := skip_spaces s in
  scan_int base (match width with Some w => take w s | None => s end).

(** [strncmp(a, b, n) == 0]. *)
Fixpoint strneq (n : nat) (a b : list Z) : bool :=
  match n with
  | O => true
  | S n =>
      match a, b with
      | [], [] => true
      | x :: a', y :: b' => (x =? y) && strneq n a' b'
      | _, _ => false
      end
  end.

(** The tokens that repeated calls of [strtok(s, delim)] return. *)
Fixpoint tokens (delim : Z -> bool) (s : list Z) (cur : list Z) : list (list Z) :=
  match s with
  | [] => match cur with [] => [] | _ => [cur] end
  | c :: s' =>
      if delim c then match cur with [] => tokens delim s' [] | _ => cur :: tokens delim s' [] end
      else tokens delim s' (cur ++ [c])
  end.

Definition strtok_all (delim : list Z) (s : list Z) : list (list Z) :=
  tokens (fun c => existsb (Z.eqb c) delim) s [].

(** What follows the first occurrence of [name] in [s] ([strstr], then past it). *)
Fixpoint strstr_after (name s : list Z) : option (list Z) :=
  if strneq (length name) name s then Some (drop (length name) s)
  else match s with [] => None | _ :: s' => strstr_after name s' end.

(** ** Lemmas *)

Lemma digits_loop_length k base v acc :
  (length (digits_loop k base v acc) <= k + length acc)%nat.
Proof.
  revert v acc; induction k as [|k IH]; intros v acc; cbn; [lia|].
  case_match; [cbn; lia|]. specialize (IH (v / base) (digit_char (v mod base) :: acc)). cbn in IH. lia.
Qed.

(** A value below [base ^ k] has at most [k] digits. *)
Lemma digits_loop_bound k fuel base v acc :
  1 < base -> 0 <= v < base ^ Z.of_nat k -> (0 < k)%nat ->
  (length (digits_loop fuel base v acc) <= k + length acc)%nat.
Proof.
  intros Hb. revert fuel v acc; induction k as [|k IH]; intros fuel v acc Hv Hk; [lia|].
  destruct fuel as [|fuel]; cbn [digits_loop]; [lia|]. case_match eqn:Hz; [cbn; lia|].
  apply Z.eqb_neq in Hz.
  destruct k as [|k].
  - change (base ^ Z.of_nat 1) with (base ^ 1) in Hv. rewrite Z.pow_1_r in Hv.
    exfalso. apply Hz, Z.div_small. lia.
  - etrans; [apply IH|cbn; lia]; [|lia].
    rewrite Nat2Z.inj_succ, Z.pow_succ_r in Hv by lia.
    split; [apply Z.div_pos; lia|apply Z.div_lt_upper_bound; lia].
Qed.

Lemma digits_length k fuel base v :
  1 < base -> 0 <= v < base ^ Z.of_nat k -> (0 < k)%nat ->
  (length (digits fuel base v) <= k)%nat.
Proof. intros. unfold digits. etrans; [by apply (digits_loop_bound k)|cbn; lia]. Qed.

Lemma fmt_x_length width v : 0 <= v < 2 ^ 64 -> (length (fmt_x width v) <= Nat.max width 16)%nat.
Proof.
  intros Hv. unfold fmt_x, pad0. rewrite length_app, length_replicate.
  pose proof (digits_length 16 16 16 v ltac:(lia) Hv ltac:(lia)). lia.
Qed.

(** A value that fits the width is printed with exactly that many characters. *)
Lemma fmt_x_exact width v :
  (0 < width)%nat -> 0 <= v < 16 ^ Z.of_nat width -> length (fmt_x width v) = width.
Proof.
  intros Hw Hv. unfold fmt_x, pad0. rewrite length_app, length_replicate.
  pose proof (digits_length width 16 16 v ltac:(lia) Hv Hw). lia.
Qed.

Lemma fmt_d_length v : - 10 ^ 10 < v < 10 ^ 10 -> (length (fmt_d v) <= 11)%nat.
Proof.
  intros Hv. unfold fmt_d. case_match.
  - cbn. pose proof (digits_length 10 20 10 (- v) ltac:(lia)). cbn in *. lia.
  - pose proof (digits_length 10 20 10 v ltac:(lia)). cbn in *. lia.
Qed.

Lemma snprintf_id size text : (length text < size)%nat -> snprintf size text = text.
Proof. intros. apply take_ge. lia. Qed.

Lemma sprintf_Ok size text : (length text < size)%nat -> sprintf size text = Ok text.
Proof. intros. unfold sprintf. by rewrite decide_True. Qed.

Lemma cstr_app a b : Forall (fun c => c <> 0) a -> cstr (a ++ 0 :: b) = a.
Proof. induction 1 as [|x a Hx _ IH]; cbn; [done|]. by rewrite (proj2 (Z.eqb_neq _ _) Hx), IH. Qed.

Lemma c_string_Ok size bytes : terminated size bytes = true -> c_string size bytes = Ok (cstr bytes).
Proof. unfold c_string. by intros ->. Qed.

Lemma terminated_zeros size a b pad : terminated size (a ++ b ++ replicate (S pad) 0) = true.
Proof. unfold terminated. rewrite !existsb_app. cbn. by rewrite !orb_true_r. Qed.

Lemma existsb_zero_insert i l : existsb (Z.eqb 0) l = true -> existsb (Z.eqb 0) (<[i := 0]> l) = true.
Proof.
  revert i. induction l as [|x l IH]; intros [|i]; cbn; [done..|].
  rewrite !orb_true_iff. intros [?|?]; [by left|right; auto].
Qed.

(** ** Printed numbers are read back *)

(** Lower case hexadecimal digits. *)
Definition hex_char (c : Z) : Prop := 48 <= c <= 57 \/ 97 <= c <= 102.

Lemma hex_digit_val c : hex_char c -> digit_val c <? 16 = true.
Proof. unfold hex_char, digit_val. intros Hc. apply Z.ltb_lt. repeat case_match; lia. Qed.

Lemma digit_char_hex d : 0 <= d < 16 -> hex_char (digit_char d) /\ digit_val (digit_char d) = d.
Proof. unfold hex_char, digit_val, digit_char. intros Hd. repeat case_match; lia. Qed.

Definition hex_fold (l : list Z) (a : Z) : Z := fold_left (fun a c => a * 16 + digit_val c) l a.

Lemma scan_digits_hex l a any :
  Forall hex_char l -> (l <> [] \/ any = true) -> scan_digits 16 l a any = Some (hex_fold l a).
Proof.
  intros HF. revert a any. induction HF as [|c l Hc _ IH]; intros a any Hany; cbn.
  - by destruct Hany as [| ->].
  - rewrite (hex_digit_val c Hc). apply IH. by right.
Qed.

Lemma digits_loop_hex k : forall v acc,
  0 <= v < 16 ^ Z.of_nat k -> (0 < k)%nat -> Forall hex_char acc ->
  Forall hex_char (digits_loop k 16 v acc) /\ digits_loop k 16 v acc <> [] /\
  hex_fold (digits_loop k 16 v acc) 0 = hex_fold acc v.
Proof.
  induction k as [|k IH]; intros v acc Hv Hk Hacc; [lia|]. cbn [digits_loop].
  pose proof (Z.mod_pos_bound v 16 ltac:(lia)) as Hm. pose proof (Z.div_mod v 16 ltac:(lia)) as Hdm.
  destruct (digit_char_hex _ Hm) as [Hh Hd].
  destruct (Z.eqb_spec (v / 16) 0) as [Hz|Hz].
  - split_and!; [by constructor|done|]. cbn. rewrite Hd. f_equal. lia.
  - rewrite Nat2Z.inj_succ, Z.pow_succ_r in Hv by lia.
    assert (Hv' : 0 <= v / 16 < 16 ^ Z.of_nat k)
      by (split; [apply Z.div_pos; lia|apply Z.div_lt_upper_bound; lia]).
    assert (Hk' : (0 < k)%nat) by (destruct k; [cbn in Hv'; lia|lia]).
    destruct (IH (v / 16) (digit_char (v mod 16) :: acc) Hv' Hk') as (H1&H2&H3); [by constructor|].
    split_and!; [done..|]. rewrite H3. cbn. rewrite Hd. f_equal. lia.
Qed.

Lemma fmt_x_hex width v :
  0 <= v < 2 ^ 64 ->
  Forall hex_char (fmt_x width v) /\ fmt_x width v <> [] /\ hex_fold (fmt_x width v) 0 = v.
Proof.
  intros Hv. destruct (digits_loop_hex 16 v [] Hv ltac:(lia) ltac:(constructor)) as (H1&H2&H3).
  unfold fmt_x, pad0, digits. set (d := digits_loop 16 16 v []) in *. split_and!.
  - apply Forall_app. split; [|done]. apply Forall_replicate. unfold hex_char. lia.
  - destruct (replicate _ _); [done|discriminate].
  - unfold hex_fold in *. rewrite fold_left_app.
    replace (fold_left _ (replicate _ 48) 0) with 0; [done|].
    induction (width - length d)%nat as [|n IH]; [done|]. cbn. done.
Qed.

Lemma skip_spaces_hex s : Forall hex_char s -> skip_spaces s = s.
Proof.
  destruct s as [|c s]; [done|]. intros [Hc _]%Forall_cons. cbn. unfold isspace.
  replace ((c =? 32) || _) with false; [done|]. unfold hex_char in Hc. symmetry.
  rewrite !orb_false_iff, andb_false_iff, Z.eqb_neq, !Z.leb_gt. lia.
Qed.

(** A printed hexadecimal number is scanned back to its value. *)
Lemma scan_int_hex s :
  Forall hex_char s -> s <> [] -> 0 <= hex_fold s 0 < 2 ^ 64 -> scan_int 16 s = Some (hex_fold s 0).
Proof.
  intros HF Hne Hv. unfold scan_int.
  assert (scan_sign s = (false, s)) as ->.
  { destruct s as [|c s]; [done|]. apply Forall_cons in HF as [Hc _]. unfold hex_char in Hc. cbn.
    rewrite !(proj2 (Z.eqb_neq _ _)) by lia. done. }
  assert (scan_base 16 s = (16, s)) as ->.
  { destruct s as [|z [|x [|h s]]]; [done..|].
    apply Forall_cons in HF as [_ [Hx _]%Forall_cons]. unfold hex_char in Hx. unfold scan_base.
    rewrite (proj2 (Z.eqb_neq x 120)), (proj2 (Z.eqb_neq x 88)) by lia. cbn [orb].
    by rewrite !andb_false_r. }
  rewrite scan_digits_hex by auto. rewrite (proj2 (Z.leb_gt _ _)) by lia. done.
Qed.

Lemma sscanf_fmt_x width v :
  (0 < width)%nat -> 0 <= v < 16 ^ Z.of_nat width -> 0 <= v < 2 ^ 64 ->
  sscanf 16 (Some width) (fmt_x width v) = Some v.
Proof.
  intros Hw Hv Hv'. destruct (fmt_x_hex width v Hv') as (HF&Hne&He). unfold sscanf.
  rewrite skip_spaces_hex by done. rewrite take_ge by (rewrite fmt_x_exact; done).
  rewrite scan_int_hex; [by rewrite He|done..|by rewrite He].
Qed.
