(* ===== verification/Mrp.v ===== *)
(** * The MRP state machines

    Model of daemons/mrpd/mrp.c and mrp.h: the applicant, registrar, LeaveAll and
    periodic state machines, the timers of a participant and its list of clients.

    The integers that name states, events and messages in the code are the
    constructors below; [*_code] gives their values where the code prints them.
    Every call into the operating system takes the next answer of [Os]; the count of
    answers taken so far is kept in the participant's database. *)

From S2P Require Import Prelude.

(** ** Data *)

Inductive applicant_state : Type :=
  | VO | VP | VN | AN | AA | QA | LA | AO | QO | AP | QP | LO.

#[global] Instance applicant_state_eq_dec : EqDecision applicant_state.
Proof. solve_decision. Defined.

Inductive registrar_state : Type := IN | LV | MT.

#[global] Instance registrar_state_eq_dec : EqDecision registrar_state.
Proof. solve_decision. Defined.

Inductive mrp_event : Type :=
  | EVENT_BEGIN | EVENT_NEW | EVENT_JOIN | EVENT_LV | EVENT_TX | EVENT_TXLA | EVENT_TXLAF
  | EVENT_RNEW | EVENT_RJOININ | EVENT_RIN | EVENT_RJOINMT | EVENT_RMT | EVENT_RLV | EVENT_RLA
  | EVENT_FLUSH | EVENT_REDECLARE | EVENT_PERIODIC | EVENT_PERIODIC_ENABLE
  | EVENT_PERIODIC_DISABLE | EVENT_LVTIMER | EVENT_LVATIMER.

#[global] Instance mrp_event_eq_dec : EqDecision mrp_event.
Proof. solve_decision. Defined.

Inductive mrp_snd : Type := SND_NEW | SND_JOIN | SND_IN | SND_LV | SND_LVA | SND_NULL | SND_NONE.

#[global] Instance mrp_snd_eq_dec : EqDecision mrp_snd.
Proof. solve_decision. Defined.

Inductive mrp_encode : Type := ENCODE_YES | ENCODE_OPTIONAL.

#[global] Instance mrp_encode_eq_dec : EqDecision mrp_encode.
Proof. solve_decision. Defined.

Inductive mrp_notify : Type := NOTIFY_NONE | NOTIFY_NEW | NOTIFY_JOIN | NOTIFY_LV.

#[global] Instance mrp_notify_eq_dec : EqDecision mrp_notify.
Proof. solve_decision. Defined.

Inductive timer_state : Type := TIMER_PASSIVE | TIMER_ACTIVE.

#[global] Instance timer_state_eq_dec : EqDecision timer_state.
Proof. solve_decision. Defined.

(** The previous state of a fresh attribute is -1, here [None]. *)
Record mrp_applicant_attribute : Type := mkApplicant {
  app_state : applicant_state;
  app_tx : bool;
  app_sndmsg : mrp_snd;
  app_encode : mrp_encode;
  app_previous_state : option applicant_state
}.

#[global] Instance mrp_applicant_attribute_eq_dec : EqDecision mrp_applicant_attribute.
Proof. solve_decision. Defined.

Record mrp_registrar_attribute : Type := mkRegistrar {
  reg_state : registrar_state;
  reg_notify : mrp_notify;
  reg_macaddr : list Z;
  reg_previous_state : option registrar_state
}.

#[global] Instance mrp_registrar_attribute_eq_dec : EqDecision mrp_registrar_attribute.
Proof. solve_decision. Defined.

Record mrp_timer : Type := mkTimer {
  lva_state : timer_state;
  lva_tx : bool;
  lva_sndmsg : mrp_snd
}.

Record sockaddr_in : Type := mkSockaddr {
  sin_family : Z;
  sin_port : Z;
  sin_addr : Z;
  sin_zero : list Z
}.

#[global] Instance sockaddr_in_eq_dec : EqDecision sockaddr_in.
Proof. solve_decision. Defined.

(** A timer handle is the timeout it is armed with, in milliseconds. *)
Record mrp_database : Type := mkMrpDb {
  lva : mrp_timer;
  join_timer : option Z;
  join_timer_running : bool;
  lv_timer : option Z;
  lv_timer_running : bool;
  lva_timer : option Z;
  lva_timer_running : bool;
  clients : list sockaddr_in;
  registration : Z;
  participant : Z;
  asked : nat
}.

Definition MRP_JOINTIMER_VAL : Z := 100.
Definition MRP_LVTIMER_VAL : Z := 1000.
Definition MRP_LVATIMER_VAL : Z := 10000.
Definition MRP_DEFAULT_POINT_TO_POINT_MAC : Z := 1.

(** ** The operating system

    [os_timer n], [os_random n], [os_malloc n] and [os_send n]: what the n-th call
    returns if it is a timer, random, allocation or transmission call. *)
Record Os : Type := mkOs {
  os_timer : nat -> Z;
  os_random : nat -> Z;
  os_malloc : nat -> bool;
  os_send : nat -> Z
}.

Definition set_asked (n : nat) (db : mrp_database) : mrp_database :=
  mkMrpDb (lva db) (join_timer db) (join_timer_running db) (lv_timer db) (lv_timer_running db)
    (lva_timer db) (lva_timer_running db) (clients db) (registration db) (participant db) n.
Definition set_lva (t : mrp_timer) (db : mrp_database) : mrp_database :=
  mkMrpDb t (join_timer db) (join_timer_running db) (lv_timer db) (lv_timer_running db)
    (lva_timer db) (lva_timer_running db) (clients db) (registration db) (participant db) (asked db).
Definition set_join (t : option Z) (r : bool) (db : mrp_database) : mrp_database :=
  mkMrpDb (lva db) t r (lv_timer db) (lv_timer_running db)
    (lva_timer db) (lva_timer_running db) (clients db) (registration db) (participant db) (asked db).
Definition set_lv (t : option Z) (r : bool) (db : mrp_database) : mrp_database :=
  mkMrpDb (lva db) (join_timer db) (join_timer_running db) t r
    (lva_timer db) (lva_timer_running db) (clients db) (registration db) (participant db) (asked db).
Definition set_lva_timer (t : option Z) (r : bool) (db : mrp_database) : mrp_database :=
  mkMrpDb (lva db) (join_timer db) (join_timer_running db) (lv_timer db) (lv_timer_running db)
    t r (clients db) (registration db) (participant db) (asked db).
Definition set_clients (l : list sockaddr_in) (db : mrp_database) : mrp_database :=
  mkMrpDb (lva db) (join_timer db) (join_timer_running db) (lv_timer db) (lv_timer_running db)
    (lva_timer db) (lva_timer_running db) l (registration db) (participant db) (asked db).

Definition step_os (db : mrp_database) : mrp_database := set_asked (S (asked db)) db.

(** ** Clients *)

Fixpoint client_lookup (l : list sockaddr_in) (newclient : option sockaddr_in) : bool :=
  match newclient with
  | None => false
  | Some c =>
      match l with
      | [] => false
      | i :: l' => if sin_port i =? sin_port c then true else client_lookup l' newclient
      end
  end.

Definition mrp_client_count (l : list sockaddr_in) : Z := Z.of_nat (length l).

(** Both allocation sites of the function append at the end of the list. *)
Definition mrp_client_add (malloc_ok : bool) (l : list sockaddr_in) (newclient : option sockaddr_in)
  : Z * list sockaddr_in :=
  match newclient with
  | None => (-1, l)
  | Some c =>
      if client_lookup l newclient then (0, l)
      else if malloc_ok then (0, l ++ [c]) else (-1, l)
  end.

Fixpoint delete_client (l : list sockaddr_in) (c : sockaddr_in) : list sockaddr_in :=
  match l with
  | [] => []
  | i :: l' => if decide (c = i) then l' else i :: delete_client l' c
  end.

Definition mrp_client_delete (l : list sockaddr_in) (newclient : option sockaddr_in)
  : Z * list sockaddr_in :=
  match newclient with
  | None => (0, l)
  | Some c => (0, delete_client l c)
  end.

Definition mrp_client_remove_all (l : list sockaddr_in) : Z * list sockaddr_in := (0, []).

(** ** Timers *)

(** [mrpd_timer_start] and [mrpd_timer_stop]: a negative answer leaves the timer as
    it was. *)
Definition mrpd_timer_start (E : Os) (db : mrp_database) (t : option Z) (value_ms : Z)
  : Z * option Z :=
  let rc := os_timer E (asked db) in (rc, if 0 <=? rc then Some value_ms else t).

Definition mrpd_timer_stop (E : Os) (db : mrp_database) (t : option Z) : Z * option Z :=
  let rc := os_timer E (asked db) in (rc, if 0 <=? rc then None else t).

Definition mrp_jointimer_start (E : Os) (db : mrp_database) : Z * mrp_database :=
  if join_timer_running db then (0, set_join (join_timer db) true db)
  else
    let '(ret, t) := mrpd_timer_start E db (join_timer db) MRP_JOINTIMER_VAL in
    (ret, step_os (set_join t (if 0 <=? ret then true else join_timer_running db) db)).

Definition mrp_jointimer_stop (E : Os) (db : mrp_database) : Z * mrp_database :=
  let '(ret, t) := mrpd_timer_stop E db (join_timer db) in
  (ret, step_os (set_join t false db)).

Definition mrp_lvtimer_start (E : Os) (db : mrp_database) : Z * mrp_database :=
  let '(ret, t) := mrpd_timer_start E db (lv_timer db) MRP_LVTIMER_VAL in
  (ret, step_os (set_lv t (if 0 <=? ret then true else lv_timer_running db) db)).

Definition mrp_lvtimer_stop (E : Os) (db : mrp_database) : Z * mrp_database :=
  let '(ret, t) := mrpd_timer_stop E db (lv_timer db) in
  (ret, step_os (set_lv t false db)).

Definition mrp_lvatimer_start (E : Os) (db : mrp_database) : Z * mrp_database :=
  let timeout := MRP_LVATIMER_VAL + os_random E (asked db) `rem` (MRP_LVATIMER_VAL / 2) in
  let db := step_os db in
  if lva_timer_running db then (0, set_lva_timer (lva_timer db) true db)
  else
    let '(ret, t) := mrpd_timer_start E db (lva_timer db) timeout in
    (ret, step_os (set_lva_timer t (if 0 <=? ret then true else lva_timer_running db) db)).

Definition mrp_lvatimer_stop (E : Os) (db : mrp_database) : Z * mrp_database :=
  let '(ret, t) := mrpd_timer_stop E db (lva_timer db) in
  (ret, step_os (set_lva_timer t false db)).

(** ** The LeaveAll state machine *)

Definition mrp_lvatimer_fsm (E : Os) (db : mrp_database) (event : mrp_event) : Z * mrp_database :=
  let la_state := lva_state (lva db) in
  match event with
  | EVENT_BEGIN =>
      let db := snd (mrp_lvatimer_start E db) in
      (0, set_lva (mkTimer TIMER_PASSIVE false SND_NONE) db)
  | EVENT_TX =>
      (0, match la_state with
          | TIMER_ACTIVE => set_lva (mkTimer TIMER_PASSIVE true SND_LVA) db
          | TIMER_PASSIVE => set_lva (mkTimer la_state false SND_NONE) db
          end)
  | EVENT_RLA =>
      let db := snd (mrp_lvatimer_start E (snd (mrp_lvatimer_stop E db))) in
      (0, set_lva (mkTimer TIMER_PASSIVE false SND_NONE) db)
  | EVENT_LVATIMER =>
      let db := snd (mrp_lvatimer_start E (snd (mrp_lvatimer_stop E db))) in
      (0, set_lva (mkTimer TIMER_ACTIVE false SND_NONE) db)
  | _ => (-1, db)
  end.

(** ** The periodic state machine

    The second component tells whether [mrp_periodictimer_start] is called. *)
Definition mrp_periodictimer_fsm (p_state : timer_state) (event : mrp_event)
  : Z * bool * timer_state :=
  match event with
  | EVENT_BEGIN => (0, true, TIMER_ACTIVE)
  | EVENT_PERIODIC =>
      match p_state with
      | TIMER_ACTIVE => (0, true, p_state)
      | TIMER_PASSIVE => (0, false, p_state)
      end
  | EVENT_PERIODIC_DISABLE => (0, false, TIMER_PASSIVE)
  | EVENT_PERIODIC_ENABLE =>
      match p_state with
      | TIMER_PASSIVE => (0, true, TIMER_ACTIVE)
      | TIMER_ACTIVE => (0, false, p_state)
      end
  | _ => (-1, false, p_state)
  end.

(** ** The applicant state machine

    One definition per event; those that transmit also give [tx], [optional] and
    [sndmsg]. *)

Definition applicant_new (s : applicant_state) : applicant_state :=
  match s with
  | VN | AN => s
  | _ => VN
  end.

Definition applicant_join (s : applicant_state) : applicant_state :=
  match s with
  | LO | VO => VP
  | LA => AA
  | AO => AP
  | QO => QP
  | _ => s
  end.

Definition applicant_lv (s : applicant_state) : applicant_state :=
  match s with
  | VN | AN | AA | QA => LA
  | VP => VO
  | AP => AO
  | QP => QO
  | _ => s
  end.

Record tx_step : Type := mkTx {
  tx_state : applicant_state;
  tx_tx : bool;
  tx_optional : bool;
  tx_sndmsg : mrp_snd
}.

Definition quiet (s : applicant_state) : tx_step := mkTx s false false SND_NULL.

Definition applicant_txla (s : applicant_state) : tx_step :=
  match s with
  | VO => mkTx LO true true SND_IN
  | VP => mkTx AA true false SND_IN
  | VN => mkTx AN true false SND_NEW
  | AN => mkTx QA true false SND_NEW
  | QP | AP | AA => mkTx QA true false SND_JOIN
  | QA => mkTx QA true false SND_JOIN
  | LA | AO | QO => mkTx LO true true SND_IN
  | LO => mkTx LO true true SND_IN
  end.

Definition applicant_txlaf (s : applicant_state) : applicant_state :=
  match s with
  | VO => LO
  | LO | VP | VN => s
  | AN => VN
  | QP | AP | AA | QA => VP
  | QO | AO | LA => LO
  end.

Definition applicant_tx (s : applicant_state) (registrar_is_IN : bool) : tx_step :=
  match s with
  | VO => mkTx VO true true SND_IN
  | VP => mkTx AA true false SND_JOIN
  | VN => mkTx AN true false SND_NEW
  | AN => mkTx (if registrar_is_IN then QA else AA) true false SND_NEW
  | AP | AA => mkTx QA true false SND_JOIN
  | QA => mkTx QA true true SND_JOIN
  | LA => mkTx VO true false SND_LV
  | AO | QO | QP => mkTx s true true SND_IN
  | LO => mkTx VO true false SND_IN
  end.

Definition applicant_rjoinin (p2pmac : Z) (s : applicant_state) : applicant_state :=
  match s with
  | VO => if 0 =? p2pmac then AO else s
  | VP => if 0 =? p2pmac then AP else s
  | AA => QA
  | AO => QO
  | AP => QP
  | _ => s
  end.

Definition applicant_rin (p2pmac : Z) (s : applicant_state) : applicant_state :=
  match s with
  | AA => if 1 =? p2pmac then QA else s
  | _ => s
  end.

Definition applicant_rmt (s : applicant_state) : applicant_state :=
  match s with
  | QA => AA
  | QO => AO
  | QP => AP
  | LO => VO
  | _ => s
  end.

Definition applicant_rlv (s : applicant_state) : applicant_state :=
  match s with
  | VO => LO
  | AN => VN
  | QA | AA => VP
  | AO | QO => LO
  | AP | QP => VP
  | _ => s
  end.

Definition applicant_periodic (s : applicant_state) : applicant_state :=
  match s with
  | QA => AA
  | QP => AP
  | _ => s
  end.

(** The event's effect, or [None] for an event the applicant does not expect. *)
Definition applicant_step (p2pmac : Z) (s : applicant_state) (event : mrp_event)
    (registrar_is_IN : bool) : option tx_step :=
  match event with
  | EVENT_BEGIN => Some (quiet VO)
  | EVENT_NEW => Some (quiet (applicant_new s))
  | EVENT_JOIN => Some (quiet (applicant_join s))
  | EVENT_LV => Some (quiet (applicant_lv s))
  | EVENT_TXLA => Some (applicant_txla s)
  | EVENT_TXLAF => Some (quiet (applicant_txlaf s))
  | EVENT_TX => Some (applicant_tx s registrar_is_IN)
  | EVENT_RNEW => Some (quiet s)
  | EVENT_RJOININ => Some (quiet (applicant_rjoinin p2pmac s))
  | EVENT_RIN => Some (quiet (applicant_rin p2pmac s))
  | EVENT_RJOINMT | EVENT_RMT => Some (quiet (applicant_rmt s))
  | EVENT_RLV | EVENT_RLA | EVENT_REDECLARE => Some (quiet (applicant_rlv s))
  | EVENT_PERIODIC => Some (quiet (applicant_periodic s))
  | _ => None
  end.

Definition mrp_applicant_fsm (p2pmac : Z) (attrib : mrp_applicant_attribute) (event : mrp_event)
    (registrar_is_IN : bool) : Z * mrp_applicant_attribute :=
  match applicant_step p2pmac (app_state attrib) event registrar_is_IN with
  | None => (-1, attrib)
  | Some t =>
      (0, mkApplicant (tx_state t) (tx_tx t) (tx_sndmsg t)
            (if tx_optional t then ENCODE_OPTIONAL else ENCODE_YES) (Some (app_state attrib)))
  end.

Definition mrp_applicant_state_transition_implies_tx (attrib : mrp_applicant_attribute) : Z :=
  if decide (app_previous_state attrib = Some (app_state attrib)) then 0
  else
    match app_state attrib with
    | VP | VN | AN | AA | LA => 1
    | VO | QA | AO | QO | AP | QP | LO => 0
    end.

(** ** The registrar state machine *)

Definition registrar_leave (E : Os) (s : registrar_state) (db : mrp_database)
  : registrar_state * mrp_database :=
  match s with
  | IN => (LV, snd (mrp_lvtimer_start E db))
  | _ => (s, db)
  end.

Definition registrar_join (s : registrar_state) : mrp_notify * registrar_state :=
  match s with
  | MT => (NOTIFY_JOIN, IN)
  | IN => (NOTIFY_NONE, IN)
  | LV => (NOTIFY_JOIN, IN)
  end.

Definition registrar_lvtimer (s : registrar_state) : mrp_notify * registrar_state :=
  match s with
  | LV => (NOTIFY_LV, MT)
  | MT => (NOTIFY_NONE, MT)
  | IN => (NOTIFY_NONE, IN)
  end.

Definition set_reg (s : registrar_state) (n : mrp_notify) (r : mrp_registrar_attribute)
  : mrp_registrar_attribute := mkRegistrar s n (reg_macaddr r) (reg_previous_state r).

Definition mrp_registrar_fsm (E : Os) (attrib : mrp_registrar_attribute) (db : mrp_database)
    (event : mrp_event) : Z * mrp_registrar_attribute * mrp_database :=
  let s := reg_state attrib in
  match event with
  | EVENT_BEGIN => (0, set_reg MT NOTIFY_NONE attrib, db)
  | EVENT_RLV =>
      let '(s', db') := registrar_leave E s db in (0, set_reg s' NOTIFY_LV attrib, db')
  | EVENT_TXLA | EVENT_RLA | EVENT_REDECLARE =>
      let '(s', db') := registrar_leave E s db in (0, set_reg s' NOTIFY_NONE attrib, db')
  | EVENT_RNEW => (0, set_reg IN NOTIFY_NEW attrib, db)
  | EVENT_RJOININ | EVENT_RJOINMT =>
      let '(n, s') := registrar_join s in (0, set_reg s' n attrib, db)
  | EVENT_LVTIMER =>
      let '(n, s') := registrar_lvtimer s in (0, set_reg s' n attrib, db)
  | EVENT_FLUSH => (0, set_reg MT NOTIFY_LV attrib, db)
  | EVENT_RMT | EVENT_RIN => (0, set_reg s NOTIFY_NONE attrib, db)
  | _ => (-1, attrib, db)
  end.

Definition mrp_registrar_in (attrib : mrp_registrar_attribute) : bool :=
  bool_decide (reg_state attrib = IN).

(** [mrp_init] sets the point-to-point flag of the port. *)
Definition mrp_init : Z * Z := (0, MRP_DEFAULT_POINT_TO_POINT_MAC).
