(* ===== verification/MrpText.v ===== *)
(** * Text of the MRP state machines

    The printable names of daemons/mrpd/mrp.c and [mrp_decode_state], the "QA/IN"
    form that notifications and table dumps carry.  These functions take the integers
    the states, events and messages are encoded with. *)

From S2P Require Import Prelude.
From S2P Require Import CText.
From S2P Require Import Mrp.
From Stdlib Require Import String.

Open Scope Z_scope.
Local Abbreviation length := List.length.

Definition applicant_code (s : applicant_state) : Z :=
  match s with
  | VO => 0 | VP => 1 | VN => 2 | AN => 3 | AA => 4 | QA => 5
  | LA => 6 | AO => 7 | QO => 8 | AP => 9 | QP => 10 | LO => 11
  end.

Definition registrar_code (s : registrar_state) : Z :=
  match s with IN => 16 | LV => 17 | MT => 18 end.

Definition MRP_EVENT_SPACING : Z := 100.

Definition event_code (e : mrp_event) : Z :=
  MRP_EVENT_SPACING *
  match e with
  | EVENT_BEGIN => 1 | EVENT_NEW => 2 | EVENT_JOIN => 3 | EVENT_LV => 4 | EVENT_TX => 5
  | EVENT_TXLA => 6 | EVENT_TXLAF => 7 | EVENT_RNEW => 8 | EVENT_RJOININ => 9 | EVENT_RIN => 10
  | EVENT_RJOINMT => 11 | EVENT_RMT => 12 | EVENT_RLV => 13 | EVENT_RLA => 14
  | EVENT_FLUSH => 15 | EVENT_REDECLARE => 16 | EVENT_PERIODIC => 17
  | EVENT_PERIODIC_ENABLE => 18 | EVENT_PERIODIC_DISABLE => 19 | EVENT_LVTIMER => 20
  | EVENT_LVATIMER => 21
  end.

Definition snd_code (m : mrp_snd) : Z :=
  match m with
  | SND_NEW => 0 | SND_JOIN => 1 | SND_IN => 2 | SND_LV => 6 | SND_LVA => 7 | SND_NULL => 8
  | SND_NONE => 9
  end.

Definition mrp_event_string (e : Z) : string :=
  if e =? 100 then "Begin!"
  else if e =? 200 then "New!"
  else if e =? 300 then "Join!"
  else if e =? 400 then "Lv!"
  else if e =? 500 then "tx!"
  else if e =? 600 then "txLA!"
  else if e =? 700 then "txLAF!"
  else if e =? 800 then "rNew!"
  else if e =? 900 then "rJoinIn!"
  else if e =? 1000 then "rIn!"
  else if e =? 1100 then "rJoinMt!"
  else if e =? 1200 then "rMt!"
  else if e =? 1300 then "rLv!"
  else if e =? 1400 then "rLA!"
  else if e =? 1500 then "Flush!"
  else if e =? 1600 then "Re-Declare!"
  else if e =? 1700 then "periodic!"
  else if e =? 1800 then "ENABLE"
  else if e =? 1900 then "DISABLE"
  else if e =? 2000 then "leavetimer!"
  else if e =? 2100 then "leavealltimer!"
  else "UNKNOWN".

Definition mrp_state_string (s : Z) : string :=
  if s =? 0 then "VO"
  else if s =? 1 then "VP"
  else if s =? 2 then "VN"
  else if s =? 3 then "AN"
  else if s =? 4 then "AA"
  else if s =? 5 then "QA"
  else if s =? 6 then "LA"
  else if s =? 7 then "AO"
  else if s =? 8 then "QO"
  else if s =? 9 then "AP"
  else if s =? 10 then "QP"
  else if s =? 11 then "LO"
  else if s =? 16 then "IN"
  else if s =? 17 then "LV"
  else if s =? 18 then "MT"
  else "??".

Definition mrp_send_string (s : Z) : string :=
  if s =? 0 then "NEW"
  else if s =? 1 then "JOIN"
  else if s =? 2 then "IN"
  else if s =? 6 then "LV"
  else if s =? 7 then "LVA"
  else if s =? 8 then "NULL"
  else if s =? 9 then "NONE"
  else "??".

Definition mrp_pdu_string (s : Z) : string :=
  if s =? 0 then "null LVA | NEW"
  else if s =? 1 then "LVA | JOININ"
  else if s =? 2 then "IN"
  else if s =? 3 then "JOINMT"
  else if s =? 4 then "MT"
  else if s =? 5 then "LV"
  else "??".

Definition mrp_lvatimer_state_string (s : Z) : string :=
  if s =? 0 then "PASSIVE" else if s =? 1 then "ACTIVE" else "??".

(** The previous state as the integer the code keeps: -1 for a fresh attribute. *)
Definition previous_code {A} (code : A -> Z) (s : option A) : Z :=
  match s with Some s => code s | None => -1 end.

(** The 64 byte buffer takes at most 62 characters and a zero. *)
Definition mrp_print_status (app : mrp_applicant_attribute) (reg : mrp_registrar_attribute)
  : list Z :=
  let a := applicant_code (app_state app) in
  let a0 := previous_code applicant_code (app_previous_state app) in
  let r := registrar_code (reg_state reg) in
  let r0 := previous_code registrar_code (reg_previous_state reg) in
  let name s := str (mrp_state_string s) in
  snprintf 63
    (if (a =? a0) && (r =? r0) then name a ++ str "/" ++ name r
     else if negb (a =? a0) && (r =? r0) then name a0 ++ str "->" ++ name a ++ str "/" ++ name r
     else if (a =? a0) && negb (r =? r0) then name a ++ str "/" ++ name r0 ++ str "->" ++ name r
     else name a0 ++ str "->" ++ name a ++ str "/" ++ name r0 ++ str "->" ++ name r).

(** The text [mrp_decode_state] leaves in a buffer of [strlen] bytes. *)
Definition reg_stat (s : registrar_state) : list Z :=
  snprintf 7 (match s with IN => str "IN" | LV => str "LV" | MT => str "MT" end).

Definition mrp_decode_state (rattrib : mrp_registrar_attribute) (aattrib : mrp_applicant_attribute)
    (strlen : nat) : list Z :=
  let reg := reg_stat (reg_state rattrib) in
  snprintf (strlen - 1)
    (match app_state aattrib with
     | VO => str "VO/" ++ reg
     | VP => str "VP/" ++ reg
     | VN => str "VN/" ++ reg
     | AN => str "AN/" ++ reg
     | AA => str "AA/" ++ reg
     | QA => str "QA/" ++ reg
     | LA => str "LA/" ++ reg
     | AO => str "AO/" ++ reg
     | QO => str "QO/" ++ reg
     | AP => str "AP/" ++ reg
     | QP => str "QP/" ++ reg
     | LO => str "LO/" ++ reg
     end).

(** ** Lemmas *)

Lemma decode_state_length r a : length (mrp_decode_state r a 8) = 5%nat.
Proof. unfold mrp_decode_state. by destruct (app_state a), (reg_state r). Qed.

Lemma decode_state_inj r a r' a' :
  mrp_decode_state r a 8 = mrp_decode_state r' a' 8 ->
  reg_state r = reg_state r' /\ app_state a = app_state a'.
Proof.
  unfold mrp_decode_state.
  destruct (app_state a), (app_state a'); try (destruct (reg_state r), (reg_state r'); discriminate 1);
    by destruct (reg_state r), (reg_state r').
Qed.

Lemma print_status_length app reg : (length (mrp_print_status app reg) <= 13)%nat.
Proof.
  unfold mrp_print_status, snprintf. rewrite length_take.
  assert (Hn : forall s, length (str (mrp_state_string s)) = 2%nat).
  { intros s. unfold mrp_state_string. by repeat case_match. }
  repeat case_match; rewrite !length_app, !Hn; cbn; lia.
Qed.
