(* ===== verification/MrpTheory.v ===== *)
(** * The MRP state machines: specification

    What the applicant, registrar and LeaveAll machines promise, independent of their
    transition tables: whether a declaration is held, how many messages it still owes,
    when an attribute counts as registered, and the timers that move it on. *)

From S2P Require Import Prelude.
From S2P Require Import Mrp.

(** ** Declarations

    An applicant holds a declaration from a local New or Join until a local Lv. *)

Definition declared (s : applicant_state) : bool :=
  match s with
  | VP | VN | AN | AA | QA | AP | QP => true
  | VO | LA | AO | QO | LO => false
  end.

Definition wanted (w : bool) (e : mrp_event) : bool :=
  match e with
  | EVENT_NEW | EVENT_JOIN => true
  | EVENT_LV | EVENT_BEGIN => false
  | _ => w
  end.

(** A run of the machine: events with the registrar's state at the time, the
    messages that have to be sent in order. *)
Definition must_send (a : mrp_applicant_attribute) : list mrp_snd :=
  if app_tx a then
    match app_encode a with ENCODE_YES => [app_sndmsg a] | ENCODE_OPTIONAL => [] end
  else [].

Fixpoint run_applicant (p2pmac : Z) (a : mrp_applicant_attribute) (es : list (mrp_event * bool))
  : list mrp_snd * mrp_applicant_attribute :=
  match es with
  | [] => ([], a)
  | (e, reg_in) :: es' =>
      let '(rc, a1) := mrp_applicant_fsm p2pmac a e reg_in in
      let '(out, a2) := run_applicant p2pmac a1 es' in
      ((if rc =? 0 then must_send a1 else []) ++ out, a2)
  end.

Lemma declared_step p2pmac a e reg_in :
  declared (app_state (snd (mrp_applicant_fsm p2pmac a e reg_in))) = wanted (declared (app_state a)) e.
Proof.
  unfold mrp_applicant_fsm.
  destruct e; cbn; try done; destruct (app_state a); cbn; try done; by repeat case_match.
Qed.

(** ** Owed messages

    Declarations an applicant still has to send or to hear from a peer before it
    may fall silent. *)

Definition owed (s : applicant_state) : nat :=
  match s with
  | VP | VN => 2
  | AN | AA | AP => 1
  | _ => 0
  end.

Definition is_declaration (m : mrp_snd) : bool :=
  match m with SND_NEW | SND_JOIN => true | _ => false end.

Definition declarations (ms : list mrp_snd) : nat := length (filter (fun m => is_declaration m = true) ms).

Definition hears (e : mrp_event) : nat :=
  match e with EVENT_RJOININ | EVENT_RIN => 1 | _ => 0 end.

Definition heard (es : list (mrp_event * bool)) : nat := list_sum (map (fun e => hears e.1) es).

(** Events that leave the obligation standing. *)
Definition keeps (e : mrp_event) : bool :=
  match e with EVENT_LV | EVENT_BEGIN | EVENT_TXLA => false | _ => true end.

Lemma declarations_app a b : declarations (a ++ b) = (declarations a + declarations b)%nat.
Proof. unfold declarations. by rewrite filter_app, length_app. Qed.

Lemma owed_step p2pmac a e reg_in :
  keeps e = true ->
  let '(rc, a') := mrp_applicant_fsm p2pmac a e reg_in in
  (owed (app_state a) <=
     declarations (if (rc =? 0)%Z then must_send a' else []) + hears e + owed (app_state a'))%nat.
Proof.
  intros Hk. unfold mrp_applicant_fsm.
  destruct e; try discriminate Hk; cbn; destruct (app_state a); cbn; repeat case_match;
    cbn [owed]; try lia; by apply leb_complete.
Qed.

(** ** Registration *)

Definition registered (s : registrar_state) : bool :=
  match s with IN | LV => true | MT => false end.

(** A client that follows the notifications: what it takes the registration to be. *)
Definition heeds (view : bool) (n : mrp_notify) : bool :=
  match n with
  | NOTIFY_NEW | NOTIFY_JOIN => true
  | NOTIFY_LV => false
  | NOTIFY_NONE => view
  end.

(** A run of the registrar: after each event the notification is sent and cleared. *)
Fixpoint run_registrar (E : Os) (r : mrp_registrar_attribute) (db : mrp_database) (es : list mrp_event)
  : list mrp_notify * mrp_registrar_attribute * mrp_database :=
  match es with
  | [] => ([], r, db)
  | e :: es' =>
      let '(_, r1, db1) := mrp_registrar_fsm E r db e in
      let '(ns, r2, db2) := run_registrar E (set_reg (reg_state r1) NOTIFY_NONE r1) db1 es' in
      (reg_notify r1 :: ns, r2, db2)
  end.

(** The view a client may have of a registrar in a given state: right when the
    registration is settled. *)
Definition settled (s : registrar_state) (view : bool) : Prop :=
  (s = IN -> view = true) /\ (s = MT -> view = false).

Lemma settled_step E r db e view :
  e <> EVENT_BEGIN -> reg_notify r = NOTIFY_NONE -> settled (reg_state r) view ->
  let '(_, r1, _) := mrp_registrar_fsm E r db e in settled (reg_state r1) (heeds view (reg_notify r1)).
Proof.
  intros He Hn [H1 H2]. unfold mrp_registrar_fsm, settled. destruct r as [s n a p]. cbn in *. subst n.
  destruct e; cbn; try done; destruct s; cbn; split; intros; by auto.
Qed.

(** ** The LeaveAll machine

    Abstractly: one bit that says whether a LeaveAll is due. *)

Definition lva_due (due : bool) (e : mrp_event) : bool :=
  match e with
  | EVENT_LVATIMER => true
  | EVENT_BEGIN | EVENT_RLA | EVENT_TX => false
  | _ => due
  end.

Fixpoint lva_spec (due : bool) (es : list mrp_event) : list bool :=
  match es with
  | [] => []
  | e :: es' => (match e with EVENT_TX => due | _ => false end) :: lva_spec (lva_due due e) es'
  end.

Definition is_active (t : mrp_timer) : bool := match lva_state t with TIMER_ACTIVE => true | TIMER_PASSIVE => false end.

(** ** Timers *)

Definition timers_ok (E : Os) : Prop := forall n, 0 <= os_timer E n.
Definition random_ok (E : Os) : Prop := forall n, 0 <= os_random E n.
Definition malloc_ok (E : Os) : Prop := forall n, os_malloc E n = true.

(** A timer that is marked as running is armed with its timeout. *)
Record armed (db : mrp_database) : Prop := {
  armed_join : join_timer_running db = true -> join_timer db = Some MRP_JOINTIMER_VAL;
  armed_lv : lv_timer_running db = true -> lv_timer db = Some MRP_LVTIMER_VAL;
  armed_lva : lva_timer_running db = true ->
    exists t, lva_timer db = Some t /\ MRP_LVATIMER_VAL <= t < MRP_LVATIMER_VAL + MRP_LVATIMER_VAL / 2
}.

(** What a timer operation leaves alone. *)
Definition same_config (db db' : mrp_database) : Prop :=
  clients db' = clients db /\ registration db' = registration db /\ participant db' = participant db.

#[global] Instance same_config_preorder : PreOrder same_config.
Proof. split; [intros ?; by split_and!|]. intros x y z (?&?&?) (?&?&?). split_and!; congruence. Qed.

Section Timers.
Context (E : Os) (HT : timers_ok E) (HR : random_ok E).

Lemma jointimer_start_spec db :
  armed db ->
  let '(rc, db') := mrp_jointimer_start E db in
  0 <= rc /\ join_timer_running db' = true /\ armed db' /\ same_config db db' /\
  lv_timer_running db' = lv_timer_running db /\ lva db' = lva db.
Proof using HT.
  intros [Hj Hl Ha]. unfold mrp_jointimer_start, mrpd_timer_start. pose proof (HT (asked db)).
  destruct (join_timer_running db) eqn:Hr; cbn; split_and!; try done; try lia;
    try (rewrite (proj2 (Z.leb_le _ _)) by done; done);
    constructor; cbn; try done; intros; auto.
Qed.

Lemma jointimer_stop_spec db :
  armed db ->
  let '(rc, db') := mrp_jointimer_stop E db in
  join_timer_running db' = false /\ armed db' /\ same_config db db' /\
  lv_timer_running db' = lv_timer_running db /\ lva db' = lva db.
Proof using HT. intros [Hj Hl Ha]. cbn. split_and!; try done; by constructor. Qed.

Lemma lvtimer_start_spec db :
  armed db ->
  let '(rc, db') := mrp_lvtimer_start E db in
  lv_timer_running db' = true /\ armed db' /\ same_config db db' /\
  join_timer_running db' = join_timer_running db /\ lva db' = lva db.
Proof using HT.
  intros [Hj Hl Ha]. unfold mrp_lvtimer_start, mrpd_timer_start. pose proof (HT (asked db)).
  rewrite (proj2 (Z.leb_le _ _)) by done. cbn. split_and!; try done; by constructor.
Qed.

Lemma lvtimer_stop_spec db :
  armed db ->
  let '(rc, db') := mrp_lvtimer_stop E db in
  armed db' /\ same_config db db' /\
  join_timer_running db' = join_timer_running db /\ lva db' = lva db.
Proof using HT. intros [Hj Hl Ha]. cbn. split_and!; try done; by constructor. Qed.

Lemma lvatimer_stop_spec db :
  armed db ->
  let '(rc, db') := mrp_lvatimer_stop E db in
  lva_timer_running db' = false /\ armed db' /\ same_config db db' /\
  join_timer_running db' = join_timer_running db /\ lv_timer_running db' = lv_timer_running db.
Proof using HT. intros [Hj Hl Ha]. cbn. split_and!; try done; by constructor. Qed.

Lemma lvatimer_start_spec db :
  armed db ->
  let '(rc, db') := mrp_lvatimer_start E db in
  lva_timer_running db' = true /\ armed db' /\ same_config db db' /\
  join_timer_running db' = join_timer_running db /\ lv_timer_running db' = lv_timer_running db.
Proof using HT HR.
  intros [Hj Hl Ha]. unfold mrp_lvatimer_start, mrpd_timer_start. cbn.
  pose proof (HT (S (asked db))). destruct (lva_timer_running db) eqn:Hr; cbn.
  - split_and!; try done; constructor; cbn; auto.
  - rewrite (proj2 (Z.leb_le _ _)) by done. cbn. split_and!; try done.
    constructor; cbn; auto. intros _. eexists. split; [done|].
    change (MRP_LVATIMER_VAL / 2) with 5000. pose proof (Z.rem_bound_pos (os_random E (asked db)) 5000 (HR _)).
    lia.
Qed.

(** The LeaveAll machine always ends with its timer running; its other effects are
    on [lva] alone. *)
Lemma lvatimer_fsm_spec db e :
  armed db -> e = EVENT_BEGIN \/ e = EVENT_RLA \/ e = EVENT_LVATIMER ->
  let '(rc, db') := mrp_lvatimer_fsm E db e in
  rc = 0 /\ lva_timer_running db' = true /\ armed db' /\ same_config db db' /\
  join_timer_running db' = join_timer_running db /\ lv_timer_running db' = lv_timer_running db /\
  lva db' = mkTimer (match e with EVENT_LVATIMER => TIMER_ACTIVE | _ => TIMER_PASSIVE end) false SND_NONE.
Proof using HT HR.
  intros Hdb He.
  assert (Hrestart : forall t db0, armed db0 ->
    let db' := set_lva t (snd (mrp_lvatimer_start E db0)) in
    lva_timer_running db' = true /\ armed db' /\ same_config db0 db' /\
    join_timer_running db' = join_timer_running db0 /\ lv_timer_running db' = lv_timer_running db0 /\
    lva db' = t).
  { intros t db0 H0. pose proof (lvatimer_start_spec db0 H0) as Hs.
    destruct (mrp_lvatimer_start E db0) as [rc db1]. cbn. destruct Hs as (?&[]&(?&?&?)&?&?).
    split_and!; try done; by constructor. }
  pose proof (lvatimer_stop_spec db Hdb) as Hstop. cbn in Hstop. destruct Hstop as (_&Hst&Hsc&_).
  destruct He as [->|[->| ->]]; cbn [mrp_lvatimer_fsm]; (split; [done|]);
    [by apply Hrestart|exact (Hrestart _ _ Hst)..].
Qed.

(** Events of a port and the LeaveAll messages its machine asks for. *)
Fixpoint run_lva (db : mrp_database) (es : list mrp_event) : list bool * mrp_database :=
  match es with
  | [] => ([], db)
  | e :: es' =>
      let '(rc, db1) := mrp_lvatimer_fsm E db e in
      let '(out, db2) := run_lva db1 es' in
      ((match e with EVENT_TX => lva_tx (lva db1) | _ => false end) :: out, db2)
  end.

Lemma lva_step db e :
  armed db -> lva_timer_running db = true ->
  let '(_, db') := mrp_lvatimer_fsm E db e in
  armed db' /\ lva_timer_running db' = true /\ same_config db db' /\
  is_active (lva db') = lva_due (is_active (lva db)) e /\
  (e = EVENT_TX -> lva_tx (lva db') = is_active (lva db)).
Proof using HT HR.
  intros Hdb Hr. pose proof (lvatimer_fsm_spec db e Hdb) as Hs.
  destruct e; try (split_and!; try done; fail);
    try (destruct (mrp_lvatimer_fsm E db _) as [rc db']; destruct Hs as (_&?&?&?&_&_&Hl); [auto|];
         rewrite Hl; split_and!; done).
  cbn [mrp_lvatimer_fsm]. destruct Hdb. unfold is_active.
  destruct (lva_state (lva db)) eqn:Hst; split_and!; try done; by cbn; rewrite ?Hst.
Qed.

Lemma run_lva_spec es : forall db,
  armed db -> lva_timer_running db = true ->
  let '(out, db') := run_lva db es in
  out = lva_spec (is_active (lva db)) es /\ armed db' /\ lva_timer_running db' = true.
Proof using HT HR.
  induction es as [|e es IH]; intros db Hdb Hr; cbn [run_lva lva_spec]; [done|].
  pose proof (lva_step db e Hdb Hr) as Hstep. destruct (mrp_lvatimer_fsm E db e) as [rc db1].
  destruct Hstep as (Hdb1&Hr1&_&Hd&Htx). specialize (IH db1 Hdb1 Hr1).
  destruct (run_lva db1 es) as [out db2]. destruct IH as (->&?&?). rewrite Hd. split_and!; [|done..].
  f_equal. destruct e; try done. by apply Htx.
Qed.

#[local] Arguments mrp_lvtimer_start : simpl never.

Lemma registrar_fsm_timers r db e :
  armed db ->
  let '(rc, r', db') := mrp_registrar_fsm E r db e in
  armed db' /\ same_config db db' /\ join_timer_running db' = join_timer_running db /\
  lva db' = lva db /\ reg_macaddr r' = reg_macaddr r /\
  (lv_timer_running db = true -> lv_timer_running db' = true) /\
  (reg_state r' = LV -> reg_state r = LV \/ lv_timer_running db' = true).
Proof using HT.
  intros Hdb. pose proof (lvtimer_start_spec db Hdb) as Hl. unfold mrp_registrar_fsm.
  destruct (mrp_lvtimer_start E db) as [rc1 db1] eqn:Hs. destruct Hl as (?&?&?&?&?).
  destruct e; cbn; destruct (reg_state r) eqn:Hr; cbn; rewrite ?Hs; cbn; rewrite ?Hr;
    split_and!; auto; try done.
Qed.

End Timers.

(** ** Clients *)

Definition distinct_ports (l : list sockaddr_in) : Prop := NoDup (sin_port <$> l).

Lemma client_lookup_spec l c : client_lookup l (Some c) = true <-> sin_port c ∈ (sin_port <$> l).
Proof.
  induction l as [|i l IH]; cbn [client_lookup fmap list_fmap]; [by rewrite elem_of_nil|].
  rewrite elem_of_cons. destruct (Z.eqb_spec (sin_port i) (sin_port c)) as [He|Hne].
  - split; [intros _; by left|done].
  - rewrite IH. naive_solver.
Qed.

Lemma delete_client_other l c i : i ∈ delete_client l c -> i ∈ l.
Proof.
  induction l as [|j l IH]; cbn [delete_client]; [done|]. case_decide; [by right|].
  rewrite !elem_of_cons. naive_solver.
Qed.

Lemma delete_client_sublist l c : sublist (delete_client l c) l.
Proof.
  induction l as [|j l IH]; cbn [delete_client]; [done|]. case_decide; [by apply sublist_cons|by apply sublist_skip].
Qed.

Lemma delete_client_snoc l c : c ∉ l -> delete_client (l ++ [c]) c = l.
Proof.
  induction l as [|j l IH]; cbn [delete_client app]; intros Hc; [by rewrite decide_True|].
  apply not_elem_of_cons in Hc as [Hj Hc]. by rewrite decide_False, IH.
Qed.

Lemma delete_client_gone l c : distinct_ports l -> c ∈ l -> client_lookup (delete_client l c) (Some c) = false.
Proof.
  unfold distinct_ports. intros Hnd Hc. apply not_true_is_false. rewrite client_lookup_spec.
  induction l as [|j l IH]; [by apply not_elem_of_nil in Hc|].
  rewrite fmap_cons in Hnd. apply NoDup_cons in Hnd as [Hj Hnd]. cbn [delete_client]. case_decide as Heq; [by subst|].
  apply elem_of_cons in Hc as [->|Hc]; [done|]. rewrite fmap_cons, elem_of_cons. intros [Hp|Hin].
  - apply Hj. rewrite <- Hp. by apply list_elem_of_fmap_2.
  - by apply IH.
Qed.

(** ** A concrete system

    An operating system whose calls succeed and a port before its first event. *)

Definition os0 : Os := mkOs (fun _ => 0) (fun _ => 7) (fun _ => true) (fun _ => 1).
Definition db_init : mrp_database :=
  mkMrpDb (mkTimer TIMER_PASSIVE false SND_NONE) None false None false None false [] 0 0 0.

Lemma os0_ok : timers_ok os0 /\ random_ok os0 /\ malloc_ok os0.
Proof. split_and!; intros n; cbn; done || lia. Qed.
