(* ===== verification/MrpCorrect.v ===== *)
(** * MRP: theorems

    The properties of the applicant, registrar and LeaveAll machines, of the client
    list and of the state texts of daemons/mrpd/mrp.c. *)

From S2P Require Import Prelude.
From S2P Require Import CText.
From S2P Require Import Mrp.
From S2P Require Import MrpText.
From S2P Require Import MrpTheory.
From Stdlib Require Import String.

Open Scope Z_scope.
Local Abbreviation length := List.length.

(** ** The applicant *)

(** C14: the applicant holds a declaration exactly when the application wants one.
    After any sequence of events, local and received, the state says "declared" iff
    the last local request was New or Join: nothing received from the network makes a
    station declare or stop declaring an attribute. *)
Theorem applicant_follows_requests p2pmac es : forall a,
  declared (app_state (snd (run_applicant p2pmac a es))) =
  fold_left wanted (map fst es) (declared (app_state a)).
Proof.
  induction es as [|[e reg_in] es IH]; intros a; cbn [run_applicant map fold_left fst]; [done|].
  pose proof (declared_step p2pmac a e reg_in) as Hstep.
  destruct (mrp_applicant_fsm p2pmac a e reg_in) as [rc a1]. specialize (IH a1).
  destruct (run_applicant p2pmac a1 es) as [out a2]. cbn [snd] in *. by rewrite IH, Hstep.
Qed.

(** A declaration is made twice.  Over any sequence of events without a Leave, a
    reset or an own LeaveAll, the declarations the applicant must send and those it
    hears from peers cover what it owed at the start, less what it still owes: after a
    Join or New it cannot become quiet before two of them. *)
Theorem applicant_declares_twice p2pmac es : forall a,
  forallb keeps (map fst es) = true ->
  let '(out, a') := run_applicant p2pmac a es in
  (owed (app_state a) <= declarations out + heard es + owed (app_state a'))%nat.
Proof.
  induction es as [|[e reg_in] es IH]; intros a Hk; cbn [run_applicant]; [cbn; lia|].
  cbn [map fst forallb] in Hk. apply andb_true_iff in Hk as [He Hk].
  pose proof (owed_step p2pmac a e reg_in He) as Hstep.
  destruct (mrp_applicant_fsm p2pmac a e reg_in) as [rc a1]. specialize (IH a1 Hk).
  destruct (run_applicant p2pmac a1 es) as [out a2]. rewrite declarations_app.
  change (heard ((e, reg_in) :: es)) with (hears e + heard es)%nat. lia.
Qed.

(** Join, two transmission opportunities: two Join messages, nothing owed. *)
Lemma applicant_declares_twice_witness :
  let a := mkApplicant VP false SND_NULL ENCODE_OPTIONAL None in
  let es := [(EVENT_TX, true); (EVENT_RMT, true); (EVENT_TX, true); (EVENT_TX, true)] in
  (2 <= declarations (fst (run_applicant 1 a es)) + heard es + 0)%nat.
Proof.
  exact (applicant_declares_twice 1
           [(EVENT_TX, true); (EVENT_RMT, true); (EVENT_TX, true); (EVENT_TX, true)]
           (mkApplicant VP false SND_NULL ENCODE_OPTIONAL None) eq_refl).
Defined.

(** ** The registrar *)

(** The notifications tell the truth.  A client that starts with a right view and
    follows the notifications of a registrar over any sequence of events other than a
    reset believes the attribute registered whenever the registrar is IN, and not
    registered whenever it is empty. *)
Theorem registrar_notifications_settle E es : forall r db view,
  EVENT_BEGIN ∉ es -> reg_notify r = NOTIFY_NONE -> settled (reg_state r) view ->
  let '(ns, r', _) := run_registrar E r db es in settled (reg_state r') (fold_left heeds ns view).
Proof.
  induction es as [|e es IH]; intros r db view Hes Hn Hset; cbn [run_registrar]; [done|].
  apply not_elem_of_cons in Hes as [He Hes].
  pose proof (settled_step E r db e view (not_eq_sym He) Hn Hset) as Hstep.
  destruct (mrp_registrar_fsm E r db e) as [[rc r1] db1].
  specialize (IH (set_reg (reg_state r1) NOTIFY_NONE r1) db1 _ Hes eq_refl Hstep).
  destruct (run_registrar E (set_reg (reg_state r1) NOTIFY_NONE r1) db1 es) as [[ns r2] db2]. done.
Qed.

(** Registered, withdrawn by the peer, expired: the client ends with "not registered". *)
Lemma registrar_notifications_settle_witness :
  settled MT (fold_left heeds [NOTIFY_JOIN; NOTIFY_LV; NOTIFY_LV] false).
Proof.
  refine (registrar_notifications_settle os0 [EVENT_RJOININ; EVENT_RLV; EVENT_LVTIMER]
            (mkRegistrar MT NOTIFY_NONE [] None) db_init false _ eq_refl _).
  - apply (bool_decide_unpack _). reflexivity.
  - by split.
Defined.

(** ** LeaveAll *)

(** C15: the LeaveAll machine.  From a port with its LeaveAll timer running, over any
    sequence of events a LeaveAll message is asked for at exactly those transmission
    opportunities that follow an expiry of the timer with no LeaveAll sent or received
    in between; and at the end the timer is still running, armed with a period from
    10 s up to (not including) 15 s. *)
Theorem leaveall_machine_refines E db es :
  timers_ok E -> random_ok E -> armed db -> lva_timer_running db = true ->
  let '(out, db') := run_lva E db es in
  out = lva_spec (is_active (lva db)) es /\
  exists t, lva_timer db' = Some t /\ 10000 <= t < 15000.
Proof.
  intros HT HR Hdb Hr. pose proof (run_lva_spec E HT HR es db Hdb Hr) as Hs.
  destruct (run_lva E db es) as [out db']. destruct Hs as (->&Ha&Hr'). split; [done|].
  exact (armed_lva _ Ha Hr').
Qed.

(** A port after initialisation: two expiries, a LeaveAll from a peer before the second
    transmission. *)
Lemma leaveall_machine_refines_witness :
  fst (run_lva os0 (snd (mrp_lvatimer_fsm os0 db_init EVENT_BEGIN))
         [EVENT_LVATIMER; EVENT_TX; EVENT_TX; EVENT_LVATIMER; EVENT_RLA; EVENT_TX]) =
  [false; true; false; false; false; false].
Proof.
  pose proof (leaveall_machine_refines os0 (snd (mrp_lvatimer_fsm os0 db_init EVENT_BEGIN))
    [EVENT_LVATIMER; EVENT_TX; EVENT_TX; EVENT_LVATIMER; EVENT_RLA; EVENT_TX]) as H.
  apply H.
  - intros n. apply Z.le_refl.
  - intros n. cbn. lia.
  - constructor; try discriminate. intros _. exists 10007. split; [reflexivity|split; vm_compute; congruence].
  - reflexivity.
Defined.

(** ** Clients *)

(** The client list is a set of ports.  In a list with distinct ports, adding a
    client keeps them distinct and makes it known (unless there is no memory for it,
    which is reported), adding a known port changes nothing, deleting a registered
    client makes its port unknown and keeps the rest in order, and adding a new client
    and deleting it again restores the list. *)
Theorem client_list_by_port ok l c :
  distinct_ports l ->
  let '(rc, l') := mrp_client_add ok l (Some c) in
  distinct_ports l' /\
  (rc = 0 <-> client_lookup l' (Some c) = true) /\
  (client_lookup l (Some c) = true -> (rc, l') = (0, l)) /\
  (client_lookup l (Some c) = false -> ok = true -> mrp_client_delete l' (Some c) = (0, l)) /\
  (forall d, d ∈ l -> let '(rc', l'') := mrp_client_delete l (Some d) in
     rc' = 0 /\ client_lookup l'' (Some d) = false /\ sublist l'' l /\ distinct_ports l'').
Proof.
  intros Hl. assert (Hdel : forall d, d ∈ l -> let '(rc', l'') := mrp_client_delete l (Some d) in
     rc' = 0 /\ client_lookup l'' (Some d) = false /\ sublist l'' l /\ distinct_ports l'').
  { intros d Hd. cbn. pose proof (delete_client_sublist l d) as Hsub.
    split_and!; [done|by apply delete_client_gone|done|].
    eapply sublist_NoDup; [exact Hl|by apply fmap_sublist]. }
  unfold mrp_client_add. destruct (client_lookup l (Some c)) eqn:Hc; [by split_and!|].
  assert (Hp : sin_port c ∉ (sin_port <$> l)) by (rewrite <- client_lookup_spec; congruence).
  destruct ok; [|split_and!; try done; by rewrite Hc].
  split_and!; try done.
  - unfold distinct_ports. rewrite fmap_app. apply NoDup_app. split_and!; [done| |apply NoDup_singleton].
    intros p Hin ->%list_elem_of_singleton. done.
  - split; [intros _|done]. rewrite client_lookup_spec, fmap_app. apply elem_of_app. right. by constructor.
  - intros _ _. cbn. rewrite delete_client_snoc; [done|].
    intros Hin. by apply Hp, list_elem_of_fmap_2.
Qed.

Lemma client_list_by_port_witness :
  let a := mkSockaddr 2 4000 16777343 [] in let b := mkSockaddr 2 4001 16777343 [] in
  mrp_client_delete (snd (mrp_client_add true [a] (Some b))) (Some b) = (0, [a]).
Proof.
  pose proof (client_list_by_port true [mkSockaddr 2 4000 16777343 []] (mkSockaddr 2 4001 16777343 [])) as H.
  apply H; [|reflexivity|reflexivity].
  apply (bool_decide_unpack _). reflexivity.
Defined.

(** ** Texts *)

(** The state text sent to clients fits its buffer and is unambiguous.
    [mrp_decode_state] fills the eight bytes its callers provide with five characters,
    and two attributes with the same text are in the same states; the status text of
    the log fits the 64 bytes of [mrp_print_status]. *)
Theorem mrp_decode_state_faithful r a r' a' :
  length (mrp_decode_state r a 8) = 5%nat /\
  (mrp_decode_state r a 8 = mrp_decode_state r' a' 8 <->
   reg_state r = reg_state r' /\ app_state a = app_state a') /\
  (length (mrp_print_status a r) < 64)%nat.
Proof.
  split_and!; [apply decode_state_length| |].
  - split; [apply decode_state_inj|]. intros [Hr Ha]. unfold mrp_decode_state. by rewrite Hr, Ha.
  - pose proof (print_status_length a r). lia.
Qed.
