(* ===== verification/Parse.v ===== *)
(** * Command parameters

    Model of daemons/common/parse.c: a command's parameters are searched by name, in
    the order of the specification, and converted to the type it gives.  A conversion that
    fails leaves the delimiter behind its field overwritten with a zero. *)

From S2P Require Import Prelude.
From S2P Require Import CText.
From Stdlib Require Import String.

Open Scope Z_scope.
Local Abbreviation length := List.length.

Inductive parse_types : Type :=
  | parse_null | parse_u8 | parse_u16 | parse_u16_04x | parse_u32 | parse_u64 | parse_h64
  | parse_c64 | parse_mac.

#[global] Instance parse_types_eq_dec : EqDecision parse_types.
Proof. solve_decision. Defined.

Definition PARSE_DELIMITER : Z := 44.
Definition PARSE_ASSIGN : string := "=".

(** The name of a parameter and its type; the destination is the position in the
    list of values. *)
Record parse_param : Type := mkParam { param_name : list Z; param_type : parse_types }.

(** What is stored through the destination pointer: an integer of the type's width or
    the bytes of an array. *)
Inductive parse_value : Type :=
  | NoValue
  | IntValue (v : Z)
  | BytesValue (bs : list Z).

(** The conversion of one parameter: the result of [sscanf] and the stored value.
    [parse_null] converts nothing and leaves the result of the previous one. *)
Definition convert (ty : parse_types) (data : list Z) (previous : bool) : bool * parse_value :=
  let int base width wrap :=
    match sscanf base width data with
    | Some v => (true, IntValue (wrap v))
    | None => (false, NoValue)
    end in
  let array n :=
    match sscanf 16 None data with
    | Some v => (true, BytesValue (map (fun i => u8 (Z.shiftr v ((Z.of_nat n - 1 - Z.of_nat i) * 8))) (seq 0 n)))
    | None => (false, NoValue)
    end in
  match ty with
  | parse_null => (previous, NoValue)
  | parse_u8 => int 10 None u8
  | parse_u16_04x => int 16 (Some 4%nat) u16
  | parse_u16 => int 10 None u16
  | parse_u32 => int 10 None u32
  | parse_u64 => int 10 None u64
  | parse_h64 => int 16 None u64
  | parse_c64 => array 8%nat
  | parse_mac => array 6%nat
  end.

(** The text up to the next delimiter, and what follows it if there is one. *)
Fixpoint split_delimiter (s : list Z) : list Z * option (list Z) :=
  match s with
  | [] => ([], None)
  | c :: s' =>
      if c =? PARSE_DELIMITER then ([], Some s')
      else let '(t, r) := split_delimiter s' in (c :: t, r)
  end.

(** Result, error index, the values stored before it returns, and the text behind the
    delimiter that a failed conversion leaves overwritten by a zero. *)
Fixpoint parse_loop (s : list Z) (specs : list parse_param) (result : bool) (count : Z)
  : Z * Z * list parse_value * option (list Z) :=
  match specs with
  | [] => (0, 0, [], None)
  | sp :: specs' =>
      match strstr_after (param_name sp) s with
      | None => (-1, count + 1, [], None)
      | Some data =>
          let '(field, next) := split_delimiter data in
          let '(ok, v) := convert (param_type sp) field result in
          if ok then
            let s' := match next with Some r => r | None => s end in
            let '(rc, err, vs, cut) := parse_loop s' specs' ok (count + 1) in (rc, err, v :: vs, cut)
          else (-1, count + 1, [v], next)
      end
  end.

(** [buf] are the [len] bytes of the buffer; without a zero among them nothing is read. *)
Definition parse_run (buf : list Z) (specs : list parse_param) : Z * Z * list parse_value * option (list Z) :=
  if existsb (Z.eqb 0) buf then parse_loop (cstr buf) specs false 0 else (-1, 0, [], None).

Definition parse (buf : list Z) (specs : list parse_param) : Z * Z * list parse_value :=
  fst (parse_run buf specs).

(** The buffer [parse] leaves behind. *)
Definition parse_left (buf : list Z) (specs : list parse_param) : list Z :=
  match snd (parse_run buf specs) with
  | Some rest => <[(length (cstr buf) - S (length rest))%nat := 0]> buf
  | None => buf
  end.

(** The command a client sent, once its parameters behind the first four characters were
    parsed; commands shorter than [least] are not. *)
Definition command_left (least : Z) (buf : list Z) (specs : list parse_param) : list Z :=
  if Z.of_nat (length buf) <? least then buf else take 4 buf ++ parse_left (drop 4 buf) specs.

Lemma command_left_terminated size least buf specs :
  terminated size buf = true -> terminated size (command_left least buf specs) = true.
Proof.
  unfold command_left, parse_left. intros Ht. destruct (_ <? _); [done|].
  destruct (snd _) as [rest|]; [|by rewrite take_drop].
  revert Ht. unfold terminated. rewrite length_app, length_insert, length_take, length_drop, !orb_true_iff, existsb_app.
  intros [Ht|Ht]; [left; apply Nat.ltb_lt in Ht; apply Nat.ltb_lt; lia|right].
  rewrite <- (take_drop 4 buf), existsb_app in Ht. apply orb_true_iff in Ht as [->|Ht]; [done|].
  by rewrite (existsb_zero_insert _ _ Ht), orb_true_r.
Qed.

(** Nothing is overwritten when all parameters are found. *)
Lemma parse_left_Ok buf specs e vs : parse buf specs = (0, e, vs) -> parse_left buf specs = buf.
Proof.
  assert (Hl : forall specs s b n, fst (fst (fst (parse_loop s specs b n))) = 0 -> snd (parse_loop s specs b n) = None).
  { clear. induction specs as [|sp specs IH]; intros s b n; cbn [parse_loop]; [done|].
    destruct (strstr_after _ _) as [data|]; [|done]. destruct (split_delimiter data) as [field next].
    destruct (convert _ _ _) as [ok v]. destruct ok; [|done].
    specialize (IH (match next with Some r => r | None => s end) true (n + 1)).
    destruct (parse_loop _ specs true (n + 1)) as [[[rc err] vs] cut]. exact IH. }
  unfold parse, parse_left, parse_run. destruct (existsb _ _); [|done]. intros Hp. by rewrite Hl by (by rewrite Hp).
Qed.
