(* ===== verification/Mvrp.v ===== *)
(** * MVRP: VLAN registration

    Model of daemons/mrpd/mvrp.c.  The doubly linked attribute list is a list in the
    order of its [next] pointers; a pointer into it is the attribute's VID, which
    [mvrp_lookup] searches for.  Frames and control messages that are handed to the
    operating system are appended to the world. *)

From S2P Require Import Prelude.
From S2P Require Import CText.
From S2P Require Import Mrp.
From S2P Require Import MrpText.
From S2P Require Import Parse.
From Stdlib Require Import String.

Open Scope Z_scope.
Local Abbreviation length := List.length.

(** ** Data *)

Record mvrp_attribute : Type := mkAttrib {
  attribute : Z;
  applicant : mrp_applicant_attribute;
  registrar : mrp_registrar_attribute
}.

#[global] Instance mvrp_attribute_eq_dec : EqDecision mvrp_attribute.
Proof. solve_decision. Defined.

Record mvrp_database : Type := mkMvrpDb {
  mrp_db : mrp_database;
  attrib_list : list mvrp_attribute;
  send_empty_LeaveAll_flag : bool
}.

Definition set_mrp_db (d : mrp_database) (m : mvrp_database) : mvrp_database :=
  mkMvrpDb d (attrib_list m) (send_empty_LeaveAll_flag m).
Definition set_attrib_list (l : list mvrp_attribute) (m : mvrp_database) : mvrp_database :=
  mkMvrpDb (mrp_db m) l (send_empty_LeaveAll_flag m).
Definition set_send_empty (b : bool) (m : mvrp_database) : mvrp_database :=
  mkMvrpDb (mrp_db m) (attrib_list m) b.

Definition set_applicant (a : mrp_applicant_attribute) (x : mvrp_attribute) : mvrp_attribute :=
  mkAttrib (attribute x) a (registrar x).
Definition set_registrar (r : mrp_registrar_attribute) (x : mvrp_attribute) : mvrp_attribute :=
  mkAttrib (attribute x) (applicant x) r.
Definition set_notify (n : mrp_notify) (x : mvrp_attribute) : mvrp_attribute :=
  set_registrar (set_reg (reg_state (registrar x)) n (registrar x)) x.
Definition set_macaddr (m : list Z) (x : mvrp_attribute) : mvrp_attribute :=
  set_registrar (mkRegistrar (reg_state (registrar x)) (reg_notify (registrar x)) m
                   (reg_previous_state (registrar x))) x.
Definition clear_tx (x : mvrp_attribute) : mvrp_attribute :=
  let a := applicant x in
  set_applicant (mkApplicant (app_state a) false (app_sndmsg a) (app_encode a)
                   (app_previous_state a)) x.

(** The global [MVRP_db]: null, released or pointing to a database. *)
Inductive dbptr : Type := NoDb | FreedDb | Db (m : mvrp_database).

Record mvrp_world : Type := mkMvrp {
  MVRP_db : dbptr;
  frames : list (list Z);
  messages : list (sockaddr_in * list Z)
}.

Definition MVRP_ETYPE : Z := 0x88F5.
Definition MVRP_PROT_VER : Z := 0.
Definition MVRP_VID_TYPE : Z := 1.
Definition MVRP_CUSTOMER_BRIDGE_ADDR : list Z := [0x01; 0x80; 0xC2; 0x00; 0x00; 0x21].
Definition MAX_FRAME_SIZE : nat := 2000.
Definition MAX_MRPD_CMDSZ : nat := 1500.
Definition MRPDU_NEW : Z := 0.
Definition MRPDU_JOININ : Z := 1.
Definition MRPDU_IN : Z := 2.
Definition MRPDU_JOINMT : Z := 3.
Definition MRPDU_MT : Z := 4.
Definition MRPDU_LV : Z := 5.

Definition MRPDU_3PACK_ENCODE (x y z : Z) : Z := (x * 6 + y) * 6 + z.
Definition MRPDU_VECT_NUMVALUES (x : Z) : Z := Z.land x (Z.shiftl 1 13 - 1).
Definition MRPDU_VECT_LVA_FLAG : Z := Z.shiftl 1 13.
Definition MRPDU_VECT_LVA (x : Z) : bool := Z.land x (Z.shiftl 7 13) =? Z.shiftl 1 13.

Abbreviation MVRP := (M mvrp_world).

Definition the_db : MVRP mvrp_database := fun w =>
  match MVRP_db w with
  | NoDb => Fault NullDeref
  | FreedDb => Fault WildPointer
  | Db m => Ok (m, w)
  end.
Definition put_db (m : mvrp_database) : MVRP unit :=
  modify (fun w => mkMvrp (Db m) (frames w) (messages w)).
Definition upd_db (f : mvrp_database -> mvrp_database) : MVRP unit := m ← the_db; put_db (f m).
Definition upd_mrp (f : mrp_database -> mrp_database) : MVRP unit :=
  upd_db (fun m => set_mrp_db (f (mrp_db m)) m).
Definition mrpd_send_ctl_msg (c : sockaddr_in) (text : list Z) : MVRP unit :=
  modify (fun w => mkMvrp (MVRP_db w) (frames w) (messages w ++ [(c, text)])).

Fixpoint each {A} (f : A -> MVRP unit) (l : list A) : MVRP unit :=
  match l with
  | [] => mret tt
  | x :: l' => f x ;; each f l'
  end.

(** ** The attribute list *)

Fixpoint mvrp_lookup (vid : Z) (l : list mvrp_attribute) : option mvrp_attribute :=
  match l with
  | [] => None
  | a :: l' => if attribute a =? vid then Some a else mvrp_lookup vid l'
  end.

Fixpoint mvrp_add (r : mvrp_attribute) (l : list mvrp_attribute) : list mvrp_attribute :=
  match l with
  | [] => [r]
  | a :: l' =>
      if attribute a <? attribute r then
        match l' with
        | [] => [a; r]
        | _ => a :: mvrp_add r l'
        end
      else r :: l
  end.

(** A change of the attribute that [mvrp_lookup] finds. *)
Fixpoint at_vid (vid : Z) (f : mvrp_attribute -> mvrp_attribute) (l : list mvrp_attribute)
  : list mvrp_attribute :=
  match l with
  | [] => []
  | a :: l' => if attribute a =? vid then f a :: l' else a :: at_vid vid f l'
  end.

Definition mvrp_merge (r : mvrp_attribute) (l : list mvrp_attribute) : Z * list mvrp_attribute :=
  match mvrp_lookup (attribute r) l with
  | None => (-1, l)
  | Some _ => (0, at_vid (attribute r) (set_macaddr (reg_macaddr (registrar r))) l)
  end.

Fixpoint unlink_vid (vid : Z) (l : list mvrp_attribute) : list mvrp_attribute :=
  match l with
  | [] => []
  | a :: l' => if attribute a =? vid then l' else a :: unlink_vid vid l'
  end.

(** The contents [mvrp_alloc] gives an attribute. *)
Definition fresh_attribute : mvrp_attribute :=
  mkAttrib 0 (mkApplicant VO false SND_NULL ENCODE_OPTIONAL None)
    (mkRegistrar MT NOTIFY_NONE (replicate 6 0) None).

Section Mvrp.
Context (E : Os) (p2pmac : Z) (STATION_ADDR : list Z).

Definition malloc : MVRP bool :=
  m ← the_db;
  upd_mrp step_os;;
  mret (os_malloc E (asked (mrp_db m))).

Definition mvrp_alloc : MVRP (option mvrp_attribute) :=
  ok ← malloc;
  mret (if ok : bool then Some fresh_attribute else None).

(** ** Notifications *)

Definition fmt_mac (m : list Z) : list Z := mjoin (map (fmt_x 2) m).

Definition notify_text (x : mvrp_attribute) (notify : mrp_notify) : option (list Z) :=
  let state := mrp_decode_state (registrar x) (applicant x) 8 in
  let line tag :=
    Some (snprintf (MAX_MRPD_CMDSZ - 1)
            (str tag ++ str " " ++ fmt_x 4 (attribute x) ++ str " R=" ++
             fmt_mac (reg_macaddr (registrar x)) ++ str " " ++ state ++ newline)) in
  match notify with
  | NOTIFY_NEW => line "VNE"
  | NOTIFY_JOIN => line "VJO"
  | NOTIFY_LV => line "VLE"
  | NOTIFY_NONE => None
  end.

Definition mvrp_send_notifications (x : mvrp_attribute) (notify : mrp_notify) : MVRP Z :=
  msgbuf ← malloc;
  if negb msgbuf then mret (-1)
  else
    variant ← malloc;
    regsrc ← malloc;
    if negb variant || negb regsrc then mret 0
    else
      match notify_text x notify with
      | None => mret 0
      | Some text =>
          m ← the_db;
          each (fun c => mrpd_send_ctl_msg c text) (clients (mrp_db m));;
          mret 0
      end.

(** The last loop of [mvrp_event]; returns the list with its notifications cleared. *)
Fixpoint notify_loop (l : list mvrp_attribute) : MVRP (list mvrp_attribute) :=
  match l with
  | [] => mret []
  | x :: l' =>
      x' ← (if decide (reg_notify (registrar x) = NOTIFY_NONE) then mret x
            else
              mvrp_send_notifications x (reg_notify (registrar x));;
              mret (set_notify NOTIFY_NONE x));
      l'' ← notify_loop l';
      mret (x' :: l'')
  end.

(** ** Reclaiming attributes *)

Definition reclaimable (x : mvrp_attribute) : bool :=
  bool_decide (reg_state (registrar x) = MT) &&
  match app_state (applicant x) with VO | AO | QO => true | _ => false end.

(** Tells whether the attribute is unlinked. *)
Definition mvrp_conditional_reclaim (x : mvrp_attribute) : MVRP bool :=
  if reclaimable x then
    upd_db (fun m => set_attrib_list (unlink_vid (attribute x) (attrib_list m)) m);;
    mvrp_send_notifications x NOTIFY_LV;;
    mret true
  else mret false.

(** The loop of [mvrp_reclaim] from a given element on. *)
Definition reclaim_loop (l : list mvrp_attribute) : MVRP unit :=
  each (fun x => _ ← mvrp_conditional_reclaim x; mret tt) l.

Definition mvrp_reclaim : MVRP Z :=
  p ← gets MVRP_db;
  match p with
  | NoDb => mret 0
  | _ => m ← the_db; reclaim_loop (attrib_list m);; mret 0
  end.

(** ** Transmission *)

(** The event value of an attribute in a vector; [None] is an internal error. *)
Definition pdu_event (x : mvrp_attribute) : option Z :=
  let is_in := bool_decide (reg_state (registrar x) = IN) in
  match app_sndmsg (applicant x) with
  | SND_IN => Some (if is_in then MRPDU_IN else MRPDU_MT)
  | SND_NEW => Some MRPDU_NEW
  | SND_LV => Some MRPDU_LV
  | SND_JOIN => Some (if is_in then MRPDU_JOININ else MRPDU_JOINMT)
  | _ => None
  end.

Definition encode3 (vectevt : list Z) : Z :=
  u8 (MRPDU_3PACK_ENCODE (nth 0 vectevt 0) (nth 1 vectevt 0) (nth 2 vectevt 0)).

(** The vector under construction: the buffer, the events collected for the next
    byte ([vectevt], [vectevt_idx]), the number of values and the next vector index. *)
Record vector : Type := mkVector {
  v_buf : list Z;
  v_evt : list Z;
  v_idx : nat;
  v_num : Z;
  v_vectidx : nat
}.

Definition put_byte (buf : list Z) (off : nat) (b : Z) : outcome (list Z) := write_bytes buf off [b].

(** Stores the collected events as one byte of the vector that starts at [vptr]. *)
Definition put_pack (vptr : nat) (v : vector) : outcome vector :=
  buf ← put_byte (v_buf v) (vptr + 2 + v_vectidx v) (encode3 (v_evt v));
  mret (mkVector buf [0; 0; 0] 0 (v_num v) (S (v_vectidx v))).

(** [eof - MRPDU_ENDMARK_SZ < &FirstValue_VectorEvents[vectidx]]. *)
Definition past_end (eof vptr : nat) (v : vector) : bool := (eof <? vptr + 2 + v_vectidx v + 2)%nat.

(** The inner loop over the contiguous attributes that follow; [false] is the jump to
    [oops].  Returns the attributes with their [tx] flags cleared. *)
Fixpoint pack_loop (eof vptr : nat) (vid : Z) (rest : list mvrp_attribute) (v : vector)
  : outcome (bool * list mvrp_attribute * vector) :=
  match rest with
  | [] => mret (true, [], v)
  | x :: rest' =>
      if negb (app_tx (applicant x)) then mret (true, rest, v)
      else
        let vid := u16 (vid + 1) in
        if negb (attribute x =? vid) then mret (true, rest, v)
        else
          match pdu_event x with
          | None => mret (false, clear_tx x :: rest', v)
          | Some e =>
              let v := mkVector (v_buf v) (<[v_idx v := e]> (v_evt v)) (S (v_idx v))
                         (u16 (v_num v + 1)) (v_vectidx v) in
              v ← (if (2 <? v_idx v)%nat then put_pack vptr v else mret v);
              if past_end eof vptr v then mret (false, clear_tx x :: rest', v)
              else
                '(ok, rest'', v') ← pack_loop eof vptr vid rest' v;
                mret (ok, clear_tx x :: rest'', v')
          end
  end.

(** State of the outer loop: buffer, [mrpdu_vectorptr], [mrpdu_msg_ptr], [lva] and
    [attrib_found_flag]. *)
Record emit : Type := mkEmit {
  e_buf : list Z;
  e_vptr : nat;
  e_ptr : nat;
  e_lva : bool;
  e_found : bool
}.

(** One vector for [x], whose list continues with [rest]; [None] is [oops]. *)
Definition emit_vector (eof : nat) (x : mvrp_attribute) (rest : list mvrp_attribute) (s : emit)
  : outcome (option emit * list mvrp_attribute) :=
  buf ← put_byte (e_buf s) (e_vptr s + 2) (u8 (Z.shiftr (attribute x) 8));
  buf ← put_byte buf (e_vptr s + 3) (u8 (attribute x));
  match pdu_event x with
  | None => mret (None, rest)
  | Some e =>
      '(ok, rest', v) ← pack_loop eof (e_vptr s) (attribute x) rest (mkVector buf [e; 0; 0] 1 1 2);
      if negb ok then mret (None, rest')
      else
        v ← (if (0 <? v_idx v)%nat then put_pack (e_vptr s) v else mret v);
        if past_end eof (e_vptr s) v then mret (None, rest')
        else
          let header := MRPDU_VECT_NUMVALUES (v_num v) in
          let header := if e_lva s then Z.lor header MRPDU_VECT_LVA_FLAG else header in
          buf ← write_bytes (v_buf v) (e_vptr s) (be_bytes 2 header);
          let ptr := (e_vptr s + 2 + v_vectidx v)%nat in
          mret (Some (mkEmit buf ptr ptr false true), rest')
  end.

(** The outer loop; each round handles the first attribute of the list. *)
Fixpoint emit_loop (fuel eof : nat) (l : list mvrp_attribute) (s : emit)
  : outcome (option emit * list mvrp_attribute) :=
  match fuel with
  | O => Fault FuelExhausted
  | S fuel =>
      match l with
      | [] => mret (Some s, [])
      | x :: rest =>
          if (e_ptr s + 8 <? eof)%nat then
            if negb (app_tx (applicant x)) then
              '(r, l') ← emit_loop fuel eof rest s; mret (r, x :: l')
            else if decide (app_encode (applicant x) = ENCODE_OPTIONAL) then
              '(r, l') ← emit_loop fuel eof rest s; mret (r, clear_tx x :: l')
            else
              '(r, rest') ← emit_vector eof x rest s;
              match r with
              | None => mret (None, clear_tx x :: rest')
              | Some s' => '(r, l') ← emit_loop fuel eof rest' s'; mret (r, clear_tx x :: l')
              end
          else mret (Some s, l)
      end
  end.

(** Result code, bytes used, buffer and attributes. *)
Definition mvrp_emit_vidvectors (buf : list Z) (msgbuf eof : nat) (lva send_empty : bool)
    (l : list mvrp_attribute) : outcome (Z * nat * list Z * list mvrp_attribute) :=
  if (eof <? msgbuf + 6)%nat then mret (-1, 0%nat, buf, l)
  else
    buf ← write_bytes buf msgbuf [MVRP_VID_TYPE; 2];
    '(r, l') ← emit_loop (S (length l)) eof l (mkEmit buf (msgbuf + 2) msgbuf lva false);
    match r with
    | None => mret (-1, 0%nat, buf, l')
    | Some s =>
        s ← (if negb (e_found s) && send_empty then
               buf ← write_bytes (e_buf s) (e_vptr s)
                       (be_bytes 2 (Z.lor (MRPDU_VECT_NUMVALUES 0) MRPDU_VECT_LVA_FLAG));
               let ptr := (e_vptr s + 2 + 2)%nat in
               mret (mkEmit buf ptr ptr (e_lva s) (e_found s))
             else mret s);
        if (e_vptr s =? msgbuf + 2)%nat then mret (0, 0%nat, e_buf s, l')
        else
          buf ← write_bytes (e_buf s) (e_ptr s) [0; 0];
          mret (0, (e_ptr s + 2 - msgbuf)%nat, buf, l')
    end.

Definition ETH_HDR : nat := 14.

Definition mvrp_txpdu : MVRP Z :=
  ok ← malloc;
  if negb ok then mret (-1)
  else
    buf ← lift (write_bytes (replicate MAX_FRAME_SIZE 0) 12 (be_bytes 2 MVRP_ETYPE));
    buf ← lift (write_bytes buf 0 MVRP_CUSTOMER_BRIDGE_ADDR);
    buf ← lift (write_bytes buf 6 STATION_ADDR);
    buf ← lift (write_bytes buf ETH_HDR [MVRP_PROT_VER]);
    let msglist := S ETH_HDR in
    m ← the_db;
    let t := lva (mrp_db m) in
    upd_mrp (set_lva (mkTimer (lva_state t) false (lva_sndmsg t)));;
    '(rc, bytes, buf, l) ← lift (mvrp_emit_vidvectors buf msglist MAX_FRAME_SIZE (lva_tx t)
                                   (send_empty_LeaveAll_flag m) (attrib_list m));
    upd_db (set_attrib_list l);;
    if (rc : Z) =? -1 then mret (-1)
    else
      let ptr := (msglist + bytes)%nat in
      if (ptr =? msglist)%nat then mret (-1)
      else if (ptr + 2 <? MAX_FRAME_SIZE)%nat then
        buf ← lift (write_bytes buf ptr [0; 0]);
        let frame := take (ptr + 2) buf in
        m ← the_db;
        upd_mrp step_os;;
        modify (fun w => mkMvrp (MVRP_db w) (frames w ++ [frame]) (messages w));;
        mret (if os_send E (asked (mrp_db m)) <=? 0 then -1 else 0)
      else mret (-1).

(** ** Events *)

(** Applies a pair of state machine steps to every attribute, threading the timers. *)
Fixpoint for_attribs (f : mvrp_attribute -> mrp_database -> mvrp_attribute * mrp_database)
    (l : list mvrp_attribute) (db : mrp_database) : list mvrp_attribute * mrp_database :=
  match l with
  | [] => ([], db)
  | x :: l' =>
      let '(x', db) := f x db in
      let '(l'', db) := for_attribs f l' db in
      (x' :: l'', db)
  end.

Definition applicant_event (e : mrp_event) (x : mvrp_attribute) : mvrp_attribute :=
  set_applicant (snd (mrp_applicant_fsm p2pmac (applicant x) e (mrp_registrar_in (registrar x)))) x.

Definition registrar_event (e : mrp_event) (x : mvrp_attribute) (db : mrp_database)
  : mvrp_attribute * mrp_database :=
  let '(rc, r, db) := mrp_registrar_fsm E (registrar x) db e in (set_registrar r x, db).

(** Applicant, then registrar, on the same event. *)
Definition both_event (e : mrp_event) (x : mvrp_attribute) (db : mrp_database)
  : mvrp_attribute * mrp_database := registrar_event e (applicant_event e x) db.

Definition run_attribs (f : mvrp_attribute -> mrp_database -> mvrp_attribute * mrp_database)
  : MVRP unit :=
  upd_db (fun m =>
    let '(l, db) := for_attribs f (attrib_list m) (mrp_db m) in
    set_attrib_list l (set_mrp_db db m)).

Definition event_lvatimer : MVRP unit :=
  upd_mrp (fun db => snd (mrp_lvatimer_stop E db));;
  upd_mrp (fun db => snd (mrp_jointimer_stop E db));;
  run_attribs (both_event EVENT_TXLA);;
  upd_mrp (fun db => snd (mrp_lvatimer_fsm E db EVENT_LVATIMER));;
  upd_db (set_send_empty true);;
  upd_mrp (fun db => snd (mrp_lvatimer_fsm E db EVENT_TX));;
  mvrp_txpdu;;
  upd_db (set_send_empty false).

Definition event_rla : MVRP unit :=
  upd_mrp (fun db => snd (mrp_jointimer_start E db));;
  run_attribs (both_event EVENT_RLA);;
  upd_mrp (fun db => snd (mrp_lvatimer_fsm E db EVENT_RLA)).

Definition tx_count (l : list mvrp_attribute) : Z :=
  fold_right (fun x n => mrp_applicant_state_transition_implies_tx (applicant x) + n) 0 l.

Definition event_tx : MVRP unit :=
  upd_mrp (fun db => snd (mrp_jointimer_stop E db));;
  run_attribs (fun x db => (applicant_event EVENT_TX x, db));;
  m ← the_db;
  let count := tx_count (attrib_list m) in
  mvrp_txpdu;;
  if count =? 0 then mret tt else upd_mrp (fun db => snd (mrp_jointimer_start E db)).

(** Each attribute of the list is stepped and then reclaimed before the next one. *)
Fixpoint lvtimer_loop (l : list mvrp_attribute) : MVRP unit :=
  match l with
  | [] => mret tt
  | x :: l' =>
      m ← the_db;
      let '(x', db) := registrar_event EVENT_LVTIMER x (mrp_db m) in
      upd_db (fun m => set_mrp_db db (set_attrib_list (at_vid (attribute x) (fun _ => x') (attrib_list m)) m));;
      mvrp_conditional_reclaim x';;
      lvtimer_loop l'
  end.

Definition event_lvtimer : MVRP unit :=
  upd_mrp (fun db => snd (mrp_lvtimer_stop E db));;
  m ← the_db;
  lvtimer_loop (attrib_list m).

Definition event_periodic : MVRP unit :=
  m ← the_db;
  (match attrib_list m with
   | [] => mret tt
   | _ => upd_mrp (fun db => snd (mrp_jointimer_start E db))
   end);;
  run_attribs (fun x db => (applicant_event EVENT_PERIODIC x, db)).

(** Local requests are mapped to registrar events. *)
Definition attribute_registrar (e : mrp_event) (x : mvrp_attribute) (db : mrp_database)
  : mvrp_attribute * mrp_database :=
  match e with
  | EVENT_NEW =>
      let '(x, db) := registrar_event EVENT_BEGIN x db in (set_notify NOTIFY_NEW x, db)
  | EVENT_JOIN =>
      if decide (reg_state (registrar x) = IN) then registrar_event EVENT_RJOININ x db
      else registrar_event EVENT_RJOINMT x db
  | EVENT_LV => registrar_event EVENT_RLV x db
  | _ => registrar_event e x db
  end.

(** An event for one attribute; [None] is the return before the notifications. *)
Definition event_attribute (e : mrp_event) (rattrib : option mvrp_attribute) : MVRP (option Z) :=
  upd_mrp (fun db => snd (mrp_jointimer_start E db));;
  match rattrib with
  | None => mret (Some (-1))
  | Some r =>
      m ← the_db;
      let found := mvrp_lookup (attribute r) (attrib_list m) in
      match found, e with
      | None, EVENT_RMT => mret (Some 0)
      | _, _ =>
          upd_db (fun m => set_attrib_list
            (match found with
             | None => mvrp_add r (attrib_list m)
             | Some _ => snd (mvrp_merge r (attrib_list m))
             end) m);;
          m ← the_db;
          match mvrp_lookup (attribute r) (attrib_list m) with
          | None => mret None
          | Some x =>
              let '(x', db) := attribute_registrar e (applicant_event e x) (mrp_db m) in
              upd_db (fun m => set_mrp_db db
                        (set_attrib_list (at_vid (attribute r) (fun _ => x') (attrib_list m)) m));;
              mvrp_conditional_reclaim x';;
              mret None
          end
      end
  end.

Definition mvrp_event (e : mrp_event) (rattrib : option mvrp_attribute) : MVRP Z :=
  early ← (match e with
           | EVENT_LVATIMER => event_lvatimer;; mret None
           | EVENT_RLA => event_rla;; mret None
           | EVENT_TX => event_tx;; mret None
           | EVENT_LVTIMER => event_lvtimer;; mret None
           | EVENT_PERIODIC => event_periodic;; mret None
           | EVENT_NEW | EVENT_JOIN | EVENT_RNEW | EVENT_RJOININ | EVENT_RJOINMT | EVENT_LV
           | EVENT_RIN | EVENT_RMT | EVENT_RLV => event_attribute e rattrib
           | _ => mret None
           end);
  match early with
  | Some rc => mret rc
  | None =>
      m ← the_db;
      l ← notify_loop (attrib_list m);
      upd_db (set_attrib_list l);;
      mret 0
  end.

(** ** Reception *)

(** The three events of a vector byte. *)
Definition decode3 (b : Z) : list Z :=
  let e0 := b / 36 in
  let e1 := (b - e0 * 36) / 6 in
  [e0; e1; b - 36 * e0 - 6 * e1].

Definition rx_event (v : Z) : option mrp_event :=
  if v =? MRPDU_NEW then Some EVENT_RNEW
  else if v =? MRPDU_JOININ then Some EVENT_RJOININ
  else if v =? MRPDU_IN then Some EVENT_RIN
  else if v =? MRPDU_JOINMT then Some EVENT_RJOINMT
  else if v =? MRPDU_MT then Some EVENT_RMT
  else if v =? MRPDU_LV then Some EVENT_RLV
  else None.

Definition rd (buf : list Z) (off : nat) : outcome Z :=
  match buf !! off with Some b => Ok b | None => Fault OutOfBounds end.

(** The innermost loop: one attribute per event value.  [None] is the jump to [out]
    when an allocation fails; otherwise the next VID. *)
Fixpoint value_loop (src : list Z) (evts : list Z) (vid : Z) : MVRP (option Z) :=
  match evts with
  | [] => mret (Some vid)
  | v :: evts' =>
      if 0xFFF <? vid then value_loop src evts' vid
      else
        a ← mvrp_alloc;
        match a with
        | None => mret None
        | Some a =>
            let attrib := set_macaddr src (mkAttrib vid (applicant a) (registrar a)) in
            (match rx_event v with
             | Some e => mvrp_event e (Some attrib);; mret tt
             | None => mret tt
             end);;
            value_loop src evts' (u16 (vid + 1))
        end
  end.

(** [n] vector bytes from offset [off] on, with [numvalues] values left. *)
Fixpoint byte_loop (n : nat) (buf src : list Z) (off : nat) (numvalues vid : Z) : MVRP (option Z) :=
  match n with
  | O => mret (Some vid)
  | S n =>
      b ← lift (rd buf off);
      let processed := if 3 <? numvalues then 3 else numvalues in
      r ← value_loop src (take (Z.to_nat processed) (decode3 b)) vid;
      match r with
      | None => mret None
      | Some vid => byte_loop n buf src (S off) (numvalues - processed) vid
      end
  end.

(** The vector at offset [v]: its values are applied.  [None] is the jump to [out];
    otherwise the offset behind the vector. *)
Definition one_vector (buf src : list Z) (eof v : nat) (header : Z) : MVRP (option nat) :=
  let numvalues := MRPDU_VECT_NUMVALUES header in
  if numvalues =? 0 then mret None
  else if (eof <=? v + 2 + Z.to_nat (numvalues / 3))%nat then mret None
  else
    f0 ← lift (rd buf (v + 2));
    f1 ← lift (rd buf (v + 3));
    let vid := Z.lor (Z.shiftl f0 8) f1 in
    let numvectorbytes :=
      if negb (numvalues =? numvalues / 3 * 3) then numvalues / 3 + 1 else numvalues / 3 in
    r ← byte_loop (Z.to_nat numvectorbytes + 1) buf src (v + 4) numvalues vid;
    mret (match r with
          | None => None
          | Some _ => Some (v + 4 + Z.to_nat numvectorbytes)%nat
          end).

(** The vectors of one message from offset [v] on.  [None] is the jump to [out];
    otherwise the offset of the end mark and [saw_vlan_lva]. *)
Fixpoint vector_loop (fuel : nat) (buf src : list Z) (eof v : nat) (saw : bool)
  : MVRP (option (nat * bool)) :=
  match fuel with
  | O => raise FuelExhausted
  | S fuel =>
      b0 ← lift (rd buf v);
      b1 ← lift (rd buf (v + 1));
      if (b0 =? 0) && (b1 =? 0) then mret (Some (v, saw))
      else
        let header := be_val [b0; b1] in
        saw ← (if MRPDU_VECT_LVA header && negb saw then mvrp_event EVENT_RLA None;; mret true
               else mret saw);
        r ← one_vector buf src eof v header;
        match r with
        | None => mret None
        | Some v' => vector_loop fuel buf src eof v' saw
        end
  end.

(** The messages of a PDU from offset [ptr] on: the result of [mvrp_recv_msg]. *)
Fixpoint message_loop (fuel : nat) (buf src : list Z) (eof ptr : nat) (endmarks : Z) (saw : bool)
  : MVRP Z :=
  match fuel with
  | O => raise FuelExhausted
  | S fuel =>
      if (ptr + 2 <? eof)%nat then
        ty ← lift (rd buf ptr);
        len ← lift (rd buf (ptr + 1));
        if (ty =? 0) && (len =? 0) then
          if endmarks + 1 <? 2 then message_loop fuel buf src eof (ptr + 2) (endmarks + 1) saw
          else mret 0
        else if ty =? MVRP_VID_TYPE then
          if negb (len =? 2) then mret (-1)
          else
            r ← vector_loop (S (length buf)) buf src eof (ptr + 2) saw;
            match r with
            | None => mret (-1)
            | Some (ptr', saw') => message_loop fuel buf src eof ptr' 0 saw'
            end
        else
          ver ← lift (rd buf ETH_HDR);
          if ver =? MVRP_PROT_VER then mret (-1)
          else
            h0 ← lift (rd buf (ptr + 2));
            h1 ← lift (rd buf (ptr + 3));
            let numvalues := MRPDU_VECT_NUMVALUES (be_val [h0; h1]) in
            message_loop fuel buf src eof
              (ptr + 2 + Z.to_nat (2 + len + (numvalues + 2) / 3)) 0 saw
      else mret 0
  end.

(** [frame] is what [mrpd_recvmsgbuf] received; its buffer is zero beyond it. *)
Definition mvrp_recv_msg (frame : list Z) : MVRP Z :=
  let buf := frame ++ replicate (MAX_FRAME_SIZE - length frame) 0 in
  let bytes := length frame in
  if (bytes <=? 0)%nat then mret (-1)
  else if (bytes <? ETH_HDR + 1 + 2)%nat then mret (-1)
  else
    ty ← lift (read_bytes buf 12 2);
    if negb (be_val ty =? MVRP_ETYPE) then mret (-1)
    else
      dest ← lift (read_bytes buf 0 6);
      if negb (bool_decide (dest = MVRP_CUSTOMER_BRIDGE_ADDR)) then mret (-1)
      else
        src ← lift (read_bytes buf 6 6);
        message_loop (S (length buf)) buf src bytes (ETH_HDR + 1) 0 false.

(** ** Client commands *)

(** One line of the table: stage, staged through 128 byte buffers. *)
Definition table_line (x : mvrp_attribute) : outcome (list Z) :=
  variant ← sprintf 128 (str "V:I=" ++ fmt_x 4 (attribute x));
  regsrc ← sprintf 128 (str "R=" ++ fmt_mac (reg_macaddr (registrar x)) ++ str " " ++
                        mrp_decode_state (registrar x) (applicant x) 8);
  sprintf 128 (variant ++ str " " ++ regsrc ++ newline).

(** Appends a line for each attribute to the message buffer. *)
Fixpoint dump_loop (l : list mvrp_attribute) (text : list Z) : outcome (list Z) :=
  match l with
  | [] => mret text
  | x :: l' =>
      stage ← table_line x;
      text ← sprintf MAX_MRPD_CMDSZ (text ++ stage);
      dump_loop l' text
  end.

Definition mvrp_dumptable (client : sockaddr_in) : MVRP Z :=
  msgbuf ← malloc;
  if negb msgbuf then mret (-1)
  else
    stage ← malloc;
    variant ← malloc;
    regsrc ← malloc;
    if negb stage || negb variant || negb regsrc then mret 0
    else
      m ← the_db;
      text ← lift (match attrib_list m with
                   | [] => sprintf MAX_MRPD_CMDSZ (str "MVRP:Empty" ++ newline)
                   | l => dump_loop l []
                   end);
      mrpd_send_ctl_msg client text;;
      mret 0.

Definition vid_params : list parse_param := [mkParam (str "I" ++ str PARSE_ASSIGN) parse_u16_04x].

(** [buf] are the bytes of the command, [vid_left] what is left of them. *)
Definition vid_left (buf : list Z) : list Z := command_left 9 buf vid_params.

Definition mvrp_cmd_parse_vid (buf : list Z) : Z * Z :=
  if Z.of_nat (length buf) <? 9 then (-1, 0)
  else
    match parse (drop 4 buf) vid_params with
    | (rc, _, IntValue v :: _) => (rc, v)
    | (rc, _, _) => (rc, 0)
    end.

Definition mvrp_cmd_vid (vid : Z) (e : mrp_event) : MVRP Z :=
  a ← mvrp_alloc;
  match a with
  | None => mret (-1)
  | Some a => mvrp_event e (Some (mkAttrib vid (applicant a) (registrar a)));; mret 0
  end.

(** The 12 byte response buffer takes 10 characters of the reply; the command is read
    to its end all the same. *)
Definition respond (client : sockaddr_in) (prefix : string) (buf suffix : list Z) : MVRP unit :=
  text ← lift (c_string MAX_MRPD_CMDSZ buf);
  mrpd_send_ctl_msg client (snprintf 11 (str prefix ++ text ++ suffix)).

Definition cmd_vid (client : sockaddr_in) (buf : list Z) (e : mrp_event) : MVRP Z :=
  let '(rc, vid) := mvrp_cmd_parse_vid buf in
  if negb (rc =? 0) then respond client "ERP " (vid_left buf) [];; mret (-1)
  else
    rc ← mvrp_cmd_vid vid e;
    if negb (rc =? 0) then respond client "ERI " buf [];; mret (-1) else mret 0.

(** [mrp_client_add] on the database; it allocates only for a new client. *)
Definition add_client (client : sockaddr_in) : MVRP unit :=
  m ← the_db;
  ok ← (if client_lookup (clients (mrp_db m)) (Some client) then mret true else malloc);
  upd_mrp (fun db => set_clients (snd (mrp_client_add ok (clients db) (Some client))) db).

Definition mvrp_recv_cmd (buf : list Z) (client : sockaddr_in) : MVRP Z :=
  p ← gets MVRP_db;
  match p with
  | NoDb => respond client "ERC MVRP_db " buf newline;; mret (-1)
  | _ =>
      add_client client;;
      if (length buf <? 3)%nat then mret (-1)
      else if negb (nth 0 buf 0 =? 86) then mret (-1)
      else if strneq 3 buf (str "V??") then mvrp_dumptable client;; mret 0
      else if strneq 3 buf (str "V--") then cmd_vid client buf EVENT_LV
      else if strneq 3 buf (str "V++") || strneq 3 buf (str "V+?") then
        cmd_vid client buf (if nth 2 buf 0 =? 63 then EVENT_JOIN else EVENT_NEW)
      else respond client "ERC MVRP " buf [];; mret (-1)
  end.

(** ** Life cycle *)

(** [rc_socket], [malloc_ok] and [rc_timers]: what opening the socket, allocating the
    database and creating the timers return. *)
Definition mvrp_init (mvrp_enable rc_socket : Z) (malloc_ok : bool) (rc_timers : Z) : MVRP Z :=
  let set p := modify (fun w => mkMvrp p (frames w) (messages w)) in
  set NoDb;;
  if mvrp_enable =? 0 then mret 0
  else if rc_socket <? 0 then mret (-1)
  else if negb malloc_ok then mret (-1)
  else if rc_timers <? 0 then mret (-1)
  else
    let db := mkMrpDb (mkTimer TIMER_PASSIVE false SND_NEW) None false None false None false [] 0 0 0 in
    set (Db (mkMvrpDb (snd (mrp_lvatimer_fsm E db EVENT_BEGIN)) [] false));;
    mret 0.

(** Releases the attributes, the clients and the database; the pointer stays. *)
Definition mvrp_reset : MVRP unit :=
  p ← gets MVRP_db;
  match p with
  | NoDb => mret tt
  | _ => the_db;; modify (fun w => mkMvrp FreedDb (frames w) (messages w))
  end.

Definition mvrp_bye (client : sockaddr_in) : MVRP unit :=
  p ← gets MVRP_db;
  match p with
  | NoDb => mret tt
  | _ => upd_mrp (fun db => set_clients (snd (mrp_client_delete (clients db) (Some client))) db)
  end.

End Mvrp.
