(* ===== verification/MvrpTheory.v ===== *)
(** * MVRP: the abstract machine and the invariant

    The attribute table is abstracted to a finite map from VIDs to the states of the
    two state machines; [spec_event] is what an event means for that map.  The
    invariant relates the sorted list, the timers and the pending notifications. *)

From S2P Require Import Prelude.
From S2P Require Import CText.
From S2P Require Import Mrp.
From S2P Require Import MrpText.
From S2P Require Import MrpTheory.
From S2P Require Import Mvrp.

Open Scope Z_scope.
Local Abbreviation length := List.length.

(** ** The attribute list as a map *)

Definition core (x : mvrp_attribute) : applicant_state * registrar_state :=
  (app_state (applicant x), reg_state (registrar x)).

Definition table (l : list mvrp_attribute) : gmap Z (applicant_state * registrar_state) :=
  list_to_map ((fun x => (attribute x, core x)) <$> l).

Definition sorted (l : list mvrp_attribute) : Prop := StronglySorted Z.lt (attribute <$> l).

Lemma table_lookup l v : table l !! v = core <$> mvrp_lookup v l.
Proof.
  unfold table. induction l as [|x l IH]; cbn; [apply lookup_empty|].
  destruct (Z.eqb_spec (attribute x) v) as [->|Hne].
  - by rewrite lookup_insert_eq.
  - by rewrite lookup_insert_ne.
Qed.

Lemma lookup_attribute v l x : mvrp_lookup v l = Some x -> attribute x = v /\ x ∈ l.
Proof.
  induction l as [|y l IH]; cbn; [done|]. destruct (Z.eqb_spec (attribute y) v) as [Hy|Hy].
  - intros [= ->]. by split; [|left].
  - intros H. destruct (IH H). by split; [|right].
Qed.

Lemma lookup_None v l : mvrp_lookup v l = None <-> v ∉ attribute <$> l.
Proof.
  induction l as [|y l IH]; cbn; [split; [intros _; apply not_elem_of_nil|done]|].
  rewrite not_elem_of_cons. destruct (Z.eqb_spec (attribute y) v) as [->|Hy]; [naive_solver|].
  rewrite IH. naive_solver.
Qed.

Lemma lookup_map f v (l : list mvrp_attribute) :
  (forall x, attribute (f x) = attribute x) -> mvrp_lookup v (f <$> l) = f <$> mvrp_lookup v l.
Proof. intros Hf. induction l as [|y l IH]; cbn; [done|]. rewrite Hf. by destruct (_ =? _). Qed.

Lemma attribute_map f (l : list mvrp_attribute) :
  (forall x, attribute (f x) = attribute x) -> attribute <$> (f <$> l) = attribute <$> l.
Proof. intros Hf. rewrite <- list_fmap_compose. apply list_fmap_ext. intros ? x ?. apply Hf. Qed.

Lemma at_vid_eq v f l x :
  mvrp_lookup v l = Some x ->
  exists l1 l2, l = l1 ++ x :: l2 /\ at_vid v f l = l1 ++ f x :: l2 /\
    Forall (fun y => attribute y <> v) l1.
Proof.
  induction l as [|y l IH]; cbn; [done|]. destruct (Z.eqb_spec (attribute y) v) as [Hy|Hy].
  - intros [= ->]. exists [], l. split_and!; [done..|constructor].
  - intros (l1&l2&->&->&HF)%IH. exists (y :: l1), l2. split_and!; [done..|by constructor].
Qed.

Lemma lookup_at_vid u v f l :
  (forall x, attribute (f x) = attribute x) ->
  mvrp_lookup u (at_vid v f l) = if decide (u = v) then f <$> mvrp_lookup v l else mvrp_lookup u l.
Proof.
  intros Hf. induction l as [|y l IH]; cbn; [by case_decide|].
  destruct (Z.eqb_spec (attribute y) v) as [Hy|Hy]; cbn; rewrite ?Hf.
  - rewrite Hy. case_decide; subst.
    + by rewrite Z.eqb_refl.
    + by rewrite (proj2 (Z.eqb_neq _ _)).
  - destruct (Z.eqb_spec (attribute y) u) as [Hu|Hu]; rewrite ?IH; case_decide; subst; done.
Qed.

Lemma at_vid_attributes v f l :
  (forall x, attribute (f x) = attribute x) -> attribute <$> at_vid v f l = attribute <$> l.
Proof.
  intros Hf. induction l as [|y l IH]; cbn; [done|].
  destruct (attribute y =? v); cbn; [by rewrite Hf|by rewrite IH].
Qed.

Lemma mvrp_add_split r l :
  sorted l -> mvrp_lookup (attribute r) l = None ->
  exists l1 l2, l = l1 ++ l2 /\ mvrp_add r l = l1 ++ r :: l2 /\ sorted (mvrp_add r l).
Proof.
  unfold sorted. induction l as [|y l IH]; cbn [mvrp_add mvrp_lookup]; intros Hs Hn.
  - exists [], []. split_and!; [done..|]. cbn. repeat constructor.
  - destruct (Z.eqb_spec (attribute y) (attribute r)) as [|Hne]; [done|].
    inversion Hs as [|? ? Hs' Hf]; subst.
    destruct (Z.ltb_spec (attribute y) (attribute r)) as [Hlt|Hge].
    + destruct (IH Hs' Hn) as (l1&l2&Hl&Ha&HS).
      replace (match l with [] => [y; r] | _ :: _ => y :: mvrp_add r l end) with (y :: mvrp_add r l)
        by (by destruct l).
      exists (y :: l1), l2. split_and!; [by rewrite Hl|by rewrite Ha|]. cbn. constructor; [done|].
      rewrite Ha, Hl in *. rewrite fmap_app in *. cbn.
      apply Forall_app in Hf as [H1 H2]. apply Forall_app. split; [done|]. by constructor.
    + exists [], (y :: l). split_and!; [done..|]. cbn. constructor; [done|]. constructor; [lia|].
      eapply Forall_impl; [done|]. intros ? ?. lia.
Qed.

Lemma lookup_app v l1 l2 :
  mvrp_lookup v (l1 ++ l2) =
  match mvrp_lookup v l1 with Some x => Some x | None => mvrp_lookup v l2 end.
Proof. induction l1 as [|y l1 IH]; cbn; [done|]. by destruct (_ =? _). Qed.

(** In a sorted list an element is found by its VID, and only there. *)
Lemma sorted_middle l1 x l2 :
  sorted (l1 ++ x :: l2) ->
  mvrp_lookup (attribute x) l1 = None /\ mvrp_lookup (attribute x) l2 = None.
Proof.
  unfold sorted. rewrite fmap_app. cbn. intros Hs. rewrite !lookup_None.
  induction l1 as [|y l1 IH]; cbn in *.
  - inversion Hs as [|? ? _ Hf]; subst. split; [apply not_elem_of_nil|].
    intros Hin. rewrite Forall_forall in Hf. specialize (Hf _ Hin). lia.
  - inversion Hs as [|? ? Hs' Hf]; subst. destruct (IH Hs') as [H1 H2]. split; [|done].
    apply not_elem_of_cons. split; [|done]. apply Forall_app in Hf as [_ Hf].
    inversion Hf; subst. lia.
Qed.

Lemma at_vid_middle l1 x l2 f :
  mvrp_lookup (attribute x) l1 = None ->
  at_vid (attribute x) f (l1 ++ x :: l2) = l1 ++ f x :: l2.
Proof.
  induction l1 as [|y l1 IH]; cbn; [by rewrite Z.eqb_refl|].
  destruct (_ =? _); [done|]. intros H. by rewrite IH.
Qed.

Lemma unlink_middle l1 x l2 :
  mvrp_lookup (attribute x) l1 = None -> unlink_vid (attribute x) (l1 ++ x :: l2) = l1 ++ l2.
Proof.
  induction l1 as [|y l1 IH]; cbn; [by rewrite Z.eqb_refl|].
  destruct (_ =? _); [done|]. intros H. by rewrite IH.
Qed.

Lemma StronglySorted_sub (l1 l2 : list Z) :
  sublist l1 l2 -> StronglySorted Z.lt l2 -> StronglySorted Z.lt l1.
Proof.
  induction 1 as [|x l1 l2 Hsub IH|x l1 l2 Hsub IH]; [done|..];
    intros Hs; inversion Hs as [|? ? Hs' Hf]; subst; [|by apply IH].
  constructor; [by apply IH|]. rewrite Forall_forall in *. intros y Hy.
  apply Hf. eapply elem_of_submseteq; [done|]. by apply sublist_submseteq.
Qed.

Lemma lookup_elem l x : sorted l -> x ∈ l -> mvrp_lookup (attribute x) l = Some x.
Proof.
  intros Hs (l1&l2&->)%list_elem_of_split. destruct (sorted_middle _ _ _ Hs) as [H1 _].
  rewrite lookup_app, H1. cbn. by rewrite Z.eqb_refl.
Qed.
