(* ===== verification/MvrpEmit.v ===== *)
(** * MVRP: the transmitted PDU

    [mvrp_emit_vidvectors] packs the attributes that are marked for transmission into
    vectors.  A vector is a run of attributes with consecutive VIDs; [wire] is its
    image on the wire. *)

From S2P Require Import Prelude.
From S2P Require Import Mrp.
From S2P Require Import MrpTheory.
From S2P Require Import Mvrp.

Open Scope Z_scope.
Local Abbreviation length := List.length.

(** A marked attribute carries a message that can be encoded. *)
Definition sendable (x : mvrp_attribute) : Prop :=
  app_tx (applicant x) = true -> is_Some (pdu_event x).

(** ** The wire image *)

Definition evt (x : mvrp_attribute) : Z := default 0 (pdu_event x).

Fixpoint packs (es : list Z) : list Z :=
  match es with
  | a :: b :: c :: es' => encode3 [a; b; c] :: packs es'
  | [] => []
  | [a] => [encode3 [a; 0; 0]]
  | [a; b] => [encode3 [a; b; 0]]
  end.

Definition header (num : Z) (lva : bool) : Z :=
  let h := MRPDU_VECT_NUMVALUES num in if lva then Z.lor h MRPDU_VECT_LVA_FLAG else h.

Definition wire_vector (lva : bool) (xs : list mvrp_attribute) : list Z :=
  match xs with
  | [] => []
  | x :: _ =>
      be_bytes 2 (header (Z.of_nat (length xs)) lva) ++
      [u8 (Z.shiftr (attribute x) 8); u8 (attribute x)] ++ packs (evt <$> xs)
  end.

Fixpoint wire (lva : bool) (gs : list (list mvrp_attribute)) : list Z :=
  match gs with
  | [] => []
  | xs :: gs' => wire_vector lva xs ++ wire false gs'
  end.

(** Consecutive VIDs after [vid]. *)
Fixpoint follows (vid : Z) (xs : list mvrp_attribute) : Prop :=
  match xs with
  | [] => True
  | x :: xs' => attribute x = u16 (vid + 1) /\ follows (attribute x) xs'
  end.

Definition run (xs : list mvrp_attribute) : Prop :=
  match xs with
  | [] => False
  | x :: xs' => follows (attribute x) xs'
  end.

Definition marked (x : mvrp_attribute) : Prop := app_tx (applicant x) = true.
#[global] Instance marked_dec x : Decision (marked x).
Proof. unfold marked. apply _. Defined.

Definition mandatory (x : mvrp_attribute) : Prop := marked x /\ app_encode (applicant x) = ENCODE_YES.

(** Some marks are cleared, nothing else is changed. *)
Definition cleared (l l' : list mvrp_attribute) : Prop :=
  Forall2 (fun x x' => x' = x \/ x' = clear_tx x) l l'.

Lemma cleared_refl l : cleared l l.
Proof. induction l; constructor; auto. Qed.

Lemma cleared_map l : cleared l (clear_tx <$> l).
Proof. induction l; constructor; auto. Qed.

#[export] Hint Resolve cleared_refl cleared_map : core.

(** ** Packing three events into a byte *)

Lemma length_packs es : length (packs es) = ((length es + 2) / 3)%nat.
Proof.
  remember (length es) as n eqn:Hn. revert es Hn.
  induction (lt_wf n) as [n _ IH]. intros [|a [|b [|c es]]] ->; [done..|]. cbn [packs length].
  rewrite (IH (length es)) by (cbn; lia). 
  replace (S (S (S (length es))) + 2)%nat with (length es + 2 + 1 * 3)%nat by lia.
  rewrite Nat.div_add by lia. lia.
Qed.

Lemma packs_app es1 es2 n :
  length es1 = (3 * n)%nat -> packs (es1 ++ es2) = packs es1 ++ packs es2.
Proof.
  revert es1. induction n as [|n IH]; intros es1 Hl.
  - apply nil_length_inv in Hl. by subst.
  - destruct es1 as [|a [|b [|c es1]]]; cbn in Hl; try lia. cbn [app packs].
    rewrite IH by lia. done.
Qed.

(** ** Writing at the end of what is written *)

Lemma write_at pre src mid tail off :
  off = length pre -> length mid = length src ->
  write_bytes (pre ++ mid ++ tail) off src = Ok (pre ++ src ++ tail).
Proof.
  intros -> Hm. rewrite write_bytes_Ok by (rewrite !length_app; lia).
  rewrite take_app_length, <- Hm, drop_app_add, drop_app_length. done.
Qed.

Lemma split_tail (n : nat) (tail : list Z) :
  (n <= length tail)%nat -> exists mid rest, tail = mid ++ rest /\ length mid = n.
Proof.
  intros H. exists (take n tail), (drop n tail). by rewrite take_drop, length_take_le.
Qed.

(** The vector under construction: [es] are the events of the run so far, [hd] the
    four bytes before the event bytes; complete triples are in the buffer. *)
Definition building (eof : nat) (pre hd es : list Z) (v : vector) : Prop :=
  exists n full pend tail,
    es = full ++ pend /\ length full = (3 * n)%nat /\ length pend = v_idx v /\
    v_evt v = pend ++ replicate (3 - length pend) 0 /\ v_vectidx v = (2 + n)%nat /\
    v_num v = Z.of_nat (length es) /\ v_buf v = pre ++ hd ++ packs full ++ tail /\
    length (v_buf v) = eof /\ length hd = 4%nat.

Definition room (eof : nat) (pre : list Z) (v : vector) : Prop :=
  (length pre + 2 + v_vectidx v + 2 <= eof)%nat.

Section Vector.
Context (eof : nat) (pre hd : list Z).
Context (Heof : (eof <= 2000)%nat).

Lemma past_end_false v : past_end eof (length pre) v = false <-> room eof pre v.
Proof using. clear Heof. unfold past_end, room. rewrite Nat.ltb_ge. lia. Qed.

(** Storing the collected events completes the image of the run. *)
Lemma put_pack_spec es v :
  building eof pre hd es v -> (0 < v_idx v <= 3)%nat -> room eof pre v ->
  exists buf tail, put_pack (length pre) v = Ok (mkVector buf [0; 0; 0] 0 (v_num v) (S (v_vectidx v))) /\
    buf = pre ++ hd ++ packs es ++ tail /\ length buf = eof /\
    v_vectidx v = (1 + length (packs es))%nat.
Proof.
  intros (n&full&pend&tail&->&Hf&Hp&He&Hx&Hn&Hb&Hl&Hh) Hi Hr. unfold room in Hr.
  assert (Hlf : length (packs full) = n).
  { rewrite length_packs, Hf. replace (3 * n + 2)%nat with (2 + n * 3)%nat by lia.
    by rewrite Nat.div_add. }
  assert (Hpp : packs pend = [encode3 (v_evt v)]).
  { rewrite He. destruct pend as [|a [|b [|c [|]]]]; cbn in Hp; try lia; done. }
  rewrite Hb, !length_app, Hh, Hlf in Hl. destruct (split_tail 1 tail ltac:(lia)) as (mid&tail'&->&Hm).
  unfold put_pack, put_byte. rewrite Hb.
  replace (pre ++ hd ++ packs full ++ mid ++ tail') with ((pre ++ hd ++ packs full) ++ mid ++ tail')
    by (by rewrite <- !(assoc_L (++))).
  rewrite write_at by (rewrite ?length_app, ?Hlf, ?Hh; cbn; lia). cbn_outcome.
  exists (pre ++ hd ++ packs (full ++ pend) ++ tail'), tail'.
  rewrite (packs_app full pend n), Hpp by done. rewrite !length_app in *. cbn [length] in *.
  split_and!; [|done|lia|lia]. by rewrite <- !(assoc_L (++)).
Qed.

Lemma building_num es v : building eof pre hd es v -> (length es <= 3 * eof + v_idx v)%nat.
Proof.
  intros (n&full&pend&tail&->&Hf&Hp&He&Hx&Hn&Hb&Hl&Hh). rewrite length_app, Hf, Hp.
  rewrite Hb, !length_app, length_packs, Hf in Hl.
  replace (3 * n + 2)%nat with (2 + n * 3)%nat in Hl by lia. rewrite Nat.div_add in Hl by lia. lia.
Qed.

(** Collecting one more event. *)
Lemma building_snoc es v e :
  building eof pre hd es v -> (v_idx v <= 2)%nat ->
  building eof pre hd (es ++ [e])
    (mkVector (v_buf v) (<[v_idx v := e]> (v_evt v)) (S (v_idx v)) (u16 (v_num v + 1)) (v_vectidx v)).
Proof.
  intros HB Hi. pose proof (building_num _ _ HB) as Hle.
  destruct HB as (n&full&pend&tail&->&Hf&Hp&He&Hx&Hn&Hb&Hl&Hh).
  exists n, full, (pend ++ [e]), tail. cbn [v_idx v_evt v_num v_buf v_vectidx].
  split_and!; try done.
  - by rewrite <- (assoc_L (++)).
  - rewrite length_app. cbn. lia.
  - rewrite He, <- Hp. rewrite insert_app_r_alt, Nat.sub_diag, length_app, <- (assoc_L (++)) by lia.
    cbn [length]. replace (3 - length pend)%nat with (S (3 - (length pend + 1))) by lia. done.
  - rewrite Hn, u16_small; [rewrite !length_app; cbn; lia|]. unfold is_u16. rewrite !length_app in *. lia.
Qed.

(** After a third event the byte is stored and a new triple begins. *)
Lemma building_flush es v :
  building eof pre hd es v -> (v_idx v <= 3)%nat -> room eof pre v ->
  exists v', (if (2 <? v_idx v)%nat then put_pack (length pre) v else mret v) = Ok v' /\
    building eof pre hd es v' /\ (v_idx v' <= 2)%nat.
Proof.
  intros HB Hi Hr. destruct (Nat.ltb_spec 2 (v_idx v)) as [Hlt|Hge]; [|exists v; split_and!; [done..|lia]].
  destruct (put_pack_spec es v HB ltac:(lia) Hr) as (buf&tail&->&Hbuf&Hlen&Hvx).
  eexists; split_and!; [done| |cbn; lia].
  destruct HB as (n&full&pend&tail0&->&Hf&Hp&He&Hx&Hn&Hb&Hl&Hh).
  exists (S n), (full ++ pend), [], tail. cbn [v_idx v_evt v_num v_buf v_vectidx].
  split_and!; try done; rewrite ?app_nil_r; try done; rewrite ?length_app; lia.
Qed.

(** What a run of the inner loop achieves. *)
Definition packed (vid : Z) (es : list Z) (rest rest' : list mvrp_attribute) (v' : vector) : Prop :=
  exists xs rest2, rest = xs ++ rest2 /\ rest' = (clear_tx <$> xs) ++ rest2 /\
    follows vid xs /\ Forall marked xs /\
    building eof pre hd (es ++ (evt <$> xs)) v' /\ (v_idx v' <= 2)%nat /\ room eof pre v'.

Lemma pack_stop vid es rest v :
  building eof pre hd es v -> (v_idx v <= 2)%nat -> room eof pre v -> packed vid es rest rest v.
Proof. intros. exists [], rest. cbn. rewrite app_nil_r. by split_and!. Qed.

Lemma pack_loop_spec rest : forall vid es v,
  Forall sendable rest -> building eof pre hd es v -> (v_idx v <= 2)%nat -> room eof pre v ->
  exists ok rest' v', pack_loop eof (length pre) vid rest v = Ok (ok, rest', v') /\
    cleared rest rest' /\ (ok = true -> packed vid es rest rest' v').
Proof using Heof.
  induction rest as [|x rest IH]; intros vid es v Hs HB Hi Hr; cbn [pack_loop].
  { exists true, [], v. split_and!; [done..|]. intros _. by apply pack_stop. }
  assert (Hstop : exists ok rest' v', mret (true, x :: rest, v) = Ok (ok, rest', v') /\
    cleared (x :: rest) rest' /\ (ok = true -> packed vid es (x :: rest) rest' v')).
  { exists true, (x :: rest), v. split_and!; [done..|]. intros _. by apply pack_stop. }
  apply Forall_cons in Hs as [Hx Hs].
  destruct (app_tx (applicant x)) eqn:Htx; cbn [negb]; [|done].
  destruct (Z.eqb_spec (attribute x) (u16 (vid + 1))) as [Hv|Hv]; cbn [negb]; [|done].
  destruct (Hx Htx) as [e He]. rewrite He.
  pose proof (building_snoc es v e HB Hi) as HB1.
  destruct (building_flush _ _ HB1 ltac:(cbn; lia) Hr) as (v1&->&HB2&Hi2). cbn_outcome.
  destruct (past_end eof (length pre) v1) eqn:Hpe.
  { eexists false, _, _. split_and!; [done| |done]. constructor; [auto|apply cleared_refl]. }
  apply past_end_false in Hpe. rewrite <- Hv.
  destruct (IH (attribute x) _ v1 Hs HB2 Hi2 Hpe) as (ok&rest'&v'&->&Hc&Hok). cbn_outcome.
  eexists _, _, _. split_and!; [done|constructor; auto|]. intros Ht.
  destruct (Hok Ht) as (xs&rest2&->&->&Hf&Hm&HB'&?&?). exists (x :: xs), rest2.
  split_and!; try done; [by constructor|]. cbn [fmap list_fmap]. unfold evt at 1. rewrite He. cbn.
  by rewrite <- (assoc_L (++)) in HB'.
Qed.

(** The trailing events, if any, complete the image of the run. *)
Lemma building_close es v :
  building eof pre hd es v -> (v_idx v <= 2)%nat -> room eof pre v ->
  exists v' tail, (if (0 <? v_idx v)%nat then put_pack (length pre) v else mret v) = Ok v' /\
    v_buf v' = pre ++ hd ++ packs es ++ tail /\ length (v_buf v') = eof /\
    v_vectidx v' = (2 + length (packs es))%nat /\ v_num v' = Z.of_nat (length es).
Proof using Heof.
  intros HB Hi Hr. destruct (Nat.ltb_spec 0 (v_idx v)) as [Hlt|Hge].
  - destruct (put_pack_spec es v HB ltac:(lia) Hr) as (buf&tail&->&Hbuf&Hlen&Hvx).
    eexists _, tail. split_and!; [done..| |]; cbn; [lia|].
    by destruct HB as (n&full&pend&tail0&_&_&_&_&_&Hn&_).
  - destruct HB as (n&full&pend&tail&->&Hf&Hp&He&Hx&Hn&Hb&Hl&Hh).
    assert (pend = []) as -> by (apply nil_length_inv; lia). rewrite app_nil_r in *.
    exists v, tail. split_and!; try done. rewrite Hx, length_packs, Hf.
    replace (3 * n + 2)%nat with (2 + n * 3)%nat by lia. by rewrite Nat.div_add.
Qed.

End Vector.

(** ** One vector *)

(** [out] has been written from [base] on; the vector pointer is behind it. *)
Definition emitted (eof : nat) (base out : list Z) (s : emit) : Prop :=
  exists tail, e_buf s = base ++ out ++ tail /\ length (e_buf s) = eof /\
    e_vptr s = length (base ++ out) /\ (e_ptr s <= e_vptr s <= e_ptr s + 2)%nat /\
    (e_ptr s + 2 <= eof)%nat.

Lemma emit_vector_spec eof base out x rest s :
  (eof <= 2000)%nat -> marked x -> sendable x -> Forall sendable rest ->
  emitted eof base out s -> (e_ptr s + 8 < eof)%nat ->
  exists r rest', emit_vector eof x rest s = Ok (r, rest') /\ cleared rest rest' /\
    (forall s', r = Some s' -> exists xs rest2, rest = xs ++ rest2 /\
       rest' = (clear_tx <$> xs) ++ rest2 /\ run (x :: xs) /\ Forall marked (x :: xs) /\
       emitted eof base (out ++ wire_vector (e_lva s) (x :: xs)) s' /\
       e_lva s' = false /\ e_found s' = true /\ e_ptr s' = e_vptr s').
Proof.
  intros Heof Hm Hx Hs (tail&Hb&Hl&Hv&Hp&Hroom) Hg. set (pre := base ++ out) in *.
  rewrite (assoc_L (++)) in Hb. fold pre in Hb. rewrite Hb, length_app in Hl.
  destruct (split_tail 2 tail ltac:(lia)) as (m2&tail1&->&Hm2).
  rewrite length_app in Hl.
  destruct (split_tail 1 tail1 ltac:(lia)) as (m3&tail2&->&Hm3). rewrite length_app in Hl.
  destruct (split_tail 1 tail2 ltac:(lia)) as (m4&tail3&->&Hm4). rewrite length_app in Hl.
  unfold emit_vector, put_byte. rewrite Hb, Hv.
  set (f0 := u8 (Z.shiftr (attribute x) 8)). set (f1 := u8 (attribute x)).
  replace (pre ++ m2 ++ m3 ++ m4 ++ tail3) with ((pre ++ m2) ++ m3 ++ m4 ++ tail3)
    by (by rewrite <- !(assoc_L (++))).
  rewrite write_at by (rewrite ?length_app; cbn; lia). cbn_outcome.
  replace ((pre ++ m2) ++ [f0] ++ m4 ++ tail3) with ((pre ++ m2 ++ [f0]) ++ m4 ++ tail3)
    by (by rewrite <- !(assoc_L (++))).
  rewrite write_at by (rewrite ?length_app; cbn; lia). cbn_outcome.
  destruct (Hx Hm) as [e He]. rewrite He.
  assert (HB : building eof pre (m2 ++ [f0; f1]) [e]
    (mkVector ((pre ++ m2 ++ [f0]) ++ [f1] ++ tail3) [e; 0; 0] 1 1 2)).
  { exists 0%nat, [], [e], tail3. cbn [v_idx v_evt v_num v_buf v_vectidx]. split_and!; try done.
    - by rewrite <- !(assoc_L (++)).
    - rewrite !length_app. cbn. lia.
    - rewrite length_app. cbn. lia. }
  destruct (pack_loop_spec eof pre (m2 ++ [f0; f1]) Heof rest (attribute x) [e] _ Hs HB)
    as (ok&rest'&v&->&Hc&Hok); [cbn; lia|unfold room; cbn; lia|]. cbn_outcome.
  destruct ok; cbn [negb]; [|eexists None, _; by split_and!].
  destruct (Hok eq_refl) as (xs&rest2&->&->&Hf&Hmk&HB'&Hi&Hr).
  destruct (building_close eof pre (m2 ++ [f0; f1]) Heof _ _ HB' Hi Hr) as (v'&tl&->&Hbuf&Hlen&Hvx&Hnum).
  cbn_outcome. destruct (past_end eof (length pre) v') eqn:Hpe; [eexists None, _; by split_and!|].
  apply past_end_false in Hpe. unfold room in Hpe.
  replace ([e] ++ (evt <$> xs)) with (evt <$> (x :: xs)) in * by (cbn; unfold evt at 1; by rewrite He).
  rewrite Hbuf, <- (assoc_L (++) m2).
  fold (header (v_num v') (e_lva s)).
  set (es := evt <$> (x :: xs)) in *. set (ps := packs es) in *.
  set (hb := be_bytes 2 (header (v_num v') (e_lva s))).
  assert (Hhb : length hb = 2%nat) by apply length_be_bytes.
  rewrite write_at by lia. cbn_outcome.
  eexists _, _. split_and!; [done..|]. intros s' [= <-]. exists xs, rest2.
  split_and!; try done; [by constructor|].
  assert (Hw : wire_vector (e_lva s) (x :: xs) = hb ++ [f0; f1] ++ ps)
    by (unfold hb; rewrite Hnum; unfold es; by rewrite length_fmap).
  rewrite Hw. exists tl. unfold pre in *. rewrite Hbuf, !length_app in Hlen. cbn [length e_buf e_vptr e_ptr] in *.
  split_and!; try lia; [by rewrite <- !(assoc_L (++))|..]; rewrite !length_app; cbn [length];
    rewrite ?length_app; cbn [length]; lia.
Qed.

(** ** All vectors *)

(** The outcome of the outer loop on [l]: the vectors written carry marked attributes
    of the list, in order, and every mandatory one unless the frame is full. *)
Definition emits (eof : nat) (base out : list Z) (s : emit) (l : list mvrp_attribute)
    (r : option emit) (l' : list mvrp_attribute) : Prop :=
  cleared l l' /\
  forall s', r = Some s' -> exists gs,
    Forall run gs /\ sublist (concat gs) (filter marked l) /\
    (forall x, x ∈ l -> mandatory x -> x ∈ concat gs \/ (x ∈ l' /\ (eof <= e_ptr s' + 8)%nat)) /\
    emitted eof base (out ++ wire (e_lva s) gs) s' /\
    (gs = [] -> s' = s) /\ (gs <> [] -> e_found s' = true /\ e_ptr s' = e_vptr s').

Lemma emits_stop eof base out s l :
  emitted eof base out s -> (l <> [] -> (eof <= e_ptr s + 8)%nat) -> emits eof base out s l (Some s) l.
Proof.
  intros He Hno. split; [done|]. intros s' [= <-]. exists [].
  split_and!; try done; [apply sublist_nil_l| |by rewrite app_nil_r].
  intros x Hx _. right. split; [done|]. apply Hno. by intros ->; apply not_elem_of_nil in Hx.
Qed.

Lemma emits_skip eof base out s x x' l r l' :
  (x' = x \/ x' = clear_tx x) -> ~ mandatory x -> emits eof base out s l r l' ->
  emits eof base out s (x :: l) r (x' :: l').
Proof.
  intros Hx' Hnm [Hc Hr]. split; [by constructor|]. intros s' Hs'.
  destruct (Hr s' Hs') as (gs&Hrun&Hsub&Hcov&Hem&H0&H1). exists gs. split_and!; try done.
  - etrans; [done|]. rewrite filter_cons. case_decide; [by constructor|done].
  - intros y [->|Hy]%elem_of_cons Hmy; [done|].
    destruct (Hcov y Hy Hmy) as [|[]]; [by left|right]. split; [by right|done].
Qed.

Lemma filter_marked_clear (xs : list mvrp_attribute) : filter marked (clear_tx <$> xs) = [].
Proof. induction xs as [|x xs IH]; [done|]. by rewrite fmap_cons, filter_cons_False. Qed.

Lemma filter_all_marked (xs : list mvrp_attribute) : Forall marked xs -> filter marked xs = xs.
Proof. induction 1 as [|x xs Hx _ IH]; [done|]. rewrite filter_cons, decide_True, IH; done. Qed.

Lemma emits_vector eof base out s s1 x xs rest2 r l' :
  run (x :: xs) -> Forall marked (x :: xs) -> e_lva s1 = false -> e_found s1 = true ->
  e_ptr s1 = e_vptr s1 ->
  emits eof base (out ++ wire_vector (e_lva s) (x :: xs)) s1 ((clear_tx <$> xs) ++ rest2) r l' ->
  emits eof base out s (x :: xs ++ rest2) r (clear_tx x :: l').
Proof.
  intros Hrun Hmk Hlva Hfound Hpv [Hc Hr]. split.
  { constructor; [auto|]. clear -Hc. revert l' Hc. induction xs as [|y xs IH]; intros l' Hc; [done|].
    cbn in Hc. inversion Hc as [|? y' ? l'' Hy Hc']; subst. constructor; [|by apply IH].
    right. by destruct Hy as [->| ->]. }
  intros s' Hs'. destruct (Hr s' Hs') as (gs&Hrs&Hsub&Hcov&Hem&H0&H1).
  rewrite filter_app, filter_marked_clear in Hsub. cbn [app] in Hsub.
  exists ((x :: xs) :: gs). split_and!; try done.
  - by constructor.
  - cbn [concat]. rewrite (app_comm_cons xs rest2 x), filter_app, filter_all_marked by done.
    by apply sublist_app.
  - intros y Hy Hmy. cbn [concat]. rewrite (app_comm_cons xs rest2 x) in Hy. rewrite elem_of_app.
    apply elem_of_app in Hy as [Hy|Hy]; [by left; left|].
    destruct (Hcov y ltac:(apply elem_of_app; by right) Hmy) as [|[]]; [by left; right|].
    right. split; [by right|done].
  - cbn [wire]. rewrite Hlva in Hem. by rewrite (assoc_L (++)).
  - intros _. destruct gs as [|g gs]; [by rewrite H0|by apply H1].
Qed.

Lemma emit_loop_spec eof base fuel : forall l out s,
  (eof <= 2000)%nat -> (length l < fuel)%nat -> Forall sendable l -> emitted eof base out s ->
  exists r l', emit_loop fuel eof l s = Ok (r, l') /\ emits eof base out s l r l'.
Proof.
  induction fuel as [|fuel IH]; intros l out s Heof Hf Hs He; [lia|]. cbn [emit_loop].
  destruct l as [|x rest]; [eexists _, _; split; [done|]; by apply emits_stop|].
  destruct (Nat.ltb_spec (e_ptr s + 8) eof) as [Hg|Hg];
    [|eexists _, _; split; [done|]; by apply emits_stop].
  apply Forall_cons in Hs as [Hx Hs]. cbn in Hf.
  destruct (app_tx (applicant x)) eqn:Htx; cbn [negb].
  2:{ destruct (IH rest out s Heof ltac:(lia) Hs He) as (r&l'&->&Hr). cbn_outcome.
      eexists _, _. split; [done|]. apply emits_skip; [by left| |done].
      intros [Hm _]. unfold marked in Hm. congruence. }
  destruct (decide (app_encode (applicant x) = ENCODE_OPTIONAL)) as [Hopt|Hopt].
  { destruct (IH rest out s Heof ltac:(lia) Hs He) as (r&l'&->&Hr). cbn_outcome.
    eexists _, _. split; [done|]. apply emits_skip; [by right| |done]. intros [_ Hm]. congruence. }
  destruct (emit_vector_spec eof base out x rest s Heof Htx Hx Hs He Hg) as (r&rest'&->&Hc&Hr).
  cbn_outcome. destruct r as [s1|].
  2:{ eexists None, _. split; [done|]. split; [|done]. by constructor; [right|]. }
  destruct (Hr s1 eq_refl) as (xs&rest2&->&->&Hrun&Hmk&Hem&Hlva&Hfound&Hpv).
  edestruct (IH ((clear_tx <$> xs) ++ rest2)) as (r&l'&->&Hr'); [done|..|exact Hem|].
  { rewrite length_app, length_fmap. rewrite length_app in Hf. lia. }
  { apply Forall_app in Hs as [_ Hs2]. apply Forall_app. split; [|done].
    apply Forall_fmap, Forall_true. done. }
  cbn_outcome. eexists _, _. split; [done|]. by eapply emits_vector.
Qed.

(** ** Enough room

    An attribute needs at most five bytes: a vector of its own. *)

Definition pending (l : list mvrp_attribute) : nat := length (filter marked l).

Lemma pending_le l : (pending l <= length l)%nat.
Proof. apply length_filter. Qed.

Lemma pending_cons x l : pending (x :: l) = ((if app_tx (applicant x) then 1 else 0) + pending l)%nat.
Proof.
  unfold pending. rewrite filter_cons. unfold marked.
  destruct (decide _) as [->|Hn]; [done|]. by destruct (app_tx (applicant x)).
Qed.

Lemma put_pack_idx vptr v v' : put_pack vptr v = Ok v' -> v_vectidx v' = S (v_vectidx v).
Proof. unfold put_pack. intros H. inv_bind H. by injection H as <-. Qed.

Lemma pack_loop_fits eof vptr rest : forall vid v ok rest' v',
  Forall sendable rest -> (vptr + 4 + v_vectidx v + pending rest <= eof)%nat ->
  pack_loop eof vptr vid rest v = Ok (ok, rest', v') ->
  ok = true /\ (v_vectidx v' + pending rest' <= v_vectidx v + pending rest)%nat /\
  (pending rest' <= pending rest)%nat /\ Forall sendable rest'.
Proof.
  induction rest as [|x rest IH]; intros vid v ok rest' v' Hs Hroom; cbn [pack_loop].
  { by intros [= <- <- <-]. }
  apply Forall_cons in Hs as [Hx Hs].
  destruct (app_tx (applicant x)) eqn:Htx; cbn [negb]; [|by intros [= <- <- <-]; split_and!; auto].
  destruct (attribute x =? u16 (vid + 1)); cbn [negb]; [|by intros [= <- <- <-]; split_and!; auto].
  destruct (Hx Htx) as [e ->]. rewrite pending_cons, Htx in *. intros H. apply bind_Ok in H as (v1&Hv1&H).
  assert (Hi : (v_vectidx v1 <= S (v_vectidx v))%nat).
  { destruct (2 <? _)%nat; [by apply put_pack_idx in Hv1 as ->|by injection Hv1 as <-; cbn; lia]. }
  unfold past_end in H. destruct (Nat.ltb_spec eof (vptr + 2 + v_vectidx v1 + 2)) as [|_]; [lia|].
  apply bind_Ok in H as ([[ok1 rest1] v2]&H1&[= <- <- <-]).
  apply IH in H1 as (->&?&?&?); [|done|lia].
  rewrite pending_cons. cbn. split_and!; [done|lia..|by constructor].
Qed.

Lemma emit_vector_fits eof x rest s r rest' :
  marked x -> sendable x -> Forall sendable rest ->
  (e_vptr s + 5 * S (pending rest) + 2 <= eof)%nat ->
  emit_vector eof x rest s = Ok (r, rest') ->
  exists s', r = Some s' /\ e_ptr s' = e_vptr s' /\
    (e_vptr s' + 5 * pending rest' <= e_vptr s + 5 * S (pending rest))%nat /\ Forall sendable rest'.
Proof.
  intros Hm Hx Hs Hroom. unfold emit_vector. intros H.
  apply bind_Ok in H as (b1&_&H). apply bind_Ok in H as (b2&_&H). destruct (Hx Hm) as [e He]. rewrite He in H.
  apply bind_Ok in H as ([[ok rest1] v]&H1&H).
  apply pack_loop_fits in H1 as (->&Hv&Hp&Hs'); [|done|cbn; lia]. cbn [negb] in H.
  cbn in Hv. apply bind_Ok in H as (v1&Hv1&H).
  assert (Hi : (v_vectidx v1 <= S (v_vectidx v))%nat).
  { destruct (0 <? _)%nat; [by apply put_pack_idx in Hv1 as ->|by injection Hv1 as <-; lia]. }
  unfold past_end in H. destruct (Nat.ltb_spec eof (e_vptr s + 2 + v_vectidx v1 + 2)) as [|_]; [lia|].
  apply bind_Ok in H as (b3&_&[= <- <-]). eexists. split_and!; [done..| |done]. cbn. lia.
Qed.

Lemma emit_loop_fits eof fuel : forall l s r l',
  Forall sendable l -> (e_ptr s <= e_vptr s)%nat ->
  (e_vptr s + 5 * pending l + 2 <= eof)%nat -> emit_loop fuel eof l s = Ok (r, l') -> is_Some r.
Proof.
  induction fuel as [|fuel IH]; intros l s r l' Hs Hp Hroom; [done|]. cbn [emit_loop].
  destruct l as [|x rest]; [by intros [= <- <-]|].
  destruct (e_ptr s + 8 <? eof)%nat; [|by intros [= <- <-]].
  apply Forall_cons in Hs as [Hx Hs]. rewrite pending_cons in Hroom.
  destruct (app_tx (applicant x)) eqn:Htx; cbn [negb]; intros H.
  2:{ apply bind_Ok in H as ([r1 l1]&H1&[= <- <-]). by eapply IH. }
  case_decide; [apply bind_Ok in H as ([r1 l1]&H1&[= <- <-]); eapply IH; [..|exact H1]; [done..|lia]|].
  apply bind_Ok in H as ([r1 rest1]&H1&H).
  apply emit_vector_fits in H1 as (s1&->&Hp1&Hr1&Hs1); [|done..|lia].
  apply bind_Ok in H as ([r2 l2]&H2&[= <- <-]). eapply IH; [..|exact H2]; [done|lia..].
Qed.

Lemma wire_vector_size lva xs : run xs -> (length (wire_vector lva xs) <= 5 * length xs)%nat.
Proof.
  destruct xs as [|x xs]; [done|]. intros _. unfold wire_vector.
  rewrite !length_app, length_be_bytes, length_packs, length_fmap. cbn [length].
  assert ((S (length xs) + 2) / 3 < S (S (length xs)))%nat by (apply Nat.Div0.div_lt_upper_bound; lia). lia.
Qed.

Lemma wire_size gs : forall lva, Forall run gs -> (length (wire lva gs) <= 5 * length (concat gs))%nat.
Proof.
  induction gs as [|xs gs IH]; intros lva HF; [done|]. apply Forall_cons in HF as [Hx HF].
  cbn [wire concat]. rewrite !length_app. pose proof (wire_vector_size lva xs Hx). specialize (IH false HF). lia.
Qed.

(** ** The message *)

(** The vectors of a message: those of [gs], or the empty LeaveAll vector. *)
Definition body (lva : bool) (gs : list (list mvrp_attribute)) : list Z :=
  match gs with
  | [] => be_bytes 2 (header 0 true) ++ [0; 0]
  | _ => wire lva gs
  end.

Lemma body_size lva gs : Forall run gs -> (length (body lva gs) <= 5 * length (concat gs) + 4)%nat.
Proof.
  destruct gs as [|xs gs]; intros HF; [unfold body; rewrite length_app, length_be_bytes; done|].
  cbn [body]. pose proof (wire_size (xs :: gs) lva HF). lia.
Qed.

(** What a successful call has written, in terms of the vectors. *)
Record message (eof msgbuf : nat) (lva send_empty : bool) (l : list mvrp_attribute) (n : nat)
    (l' : list mvrp_attribute) (gs : list (list mvrp_attribute)) : Prop := {
  msg_runs : Forall run gs;
  msg_marked : sublist (concat gs) (filter marked l);
  msg_complete : forall x, x ∈ l -> mandatory x ->
    x ∈ concat gs \/ (x ∈ l' /\ (eof <= msgbuf + n + 8)%nat);
  msg_room : (msgbuf + n <= eof)%nat;
  msg_empty : n = 0%nat <-> gs = [] /\ send_empty = false
}.

Lemma wire_vector_length lva xs : run xs -> (5 <= length (wire_vector lva xs))%nat.
Proof.
  destruct xs as [|x xs]; [done|]. intros _. unfold wire_vector.
  rewrite !length_app, length_be_bytes, length_packs, length_fmap. cbn [length].
  assert (1 <= (S (length xs) + 2) / 3)%nat by (apply Nat.div_le_lower_bound; lia). lia.
Qed.

Lemma wire_nonempty lva gs : Forall run gs -> gs <> [] -> (5 <= length (wire lva gs))%nat.
Proof.
  destruct gs as [|xs gs]; [done|]. intros [Hx _]%Forall_cons _. cbn [wire]. rewrite length_app.
  pose proof (wire_vector_length lva xs Hx). lia.
Qed.

Lemma emit_vidvectors_spec pre free msgbuf eof lva se l :
  (eof <= 2000)%nat -> msgbuf = length pre -> (length pre + length free = eof)%nat ->
  (msgbuf + 8 <= eof)%nat -> Forall (fun b => b = 0) free -> Forall sendable l ->
  exists rc n buf l', mvrp_emit_vidvectors (pre ++ free) msgbuf eof lva se l = Ok (rc, n, buf, l') /\
    cleared l l' /\
    ((rc = -1 /\ n = 0%nat /\ (eof < msgbuf + 5 * length l + 8)%nat) \/
     (rc = 0 /\ exists gs, message eof msgbuf lva se l n l' gs /\
        (n <> 0%nat -> exists tail, buf = pre ++ [MVRP_VID_TYPE; 2] ++ body lva gs ++ [0; 0] ++ tail /\
           length buf = eof /\ n = (2 + length (body lva gs) + 2)%nat))).
Proof.
  intros Heof Hb Hl Hroom Hz Hs. unfold mvrp_emit_vidvectors.
  destruct (Nat.ltb_spec eof (msgbuf + 6)) as [|_]; [lia|].
  destruct (split_tail 2 free ltac:(lia)) as (m&free'&->&Hm). rewrite length_app in Hl.
  rewrite write_at by (cbn; lia). cbn_outcome.
  set (base := pre ++ [MVRP_VID_TYPE; 2]).
  destruct (emit_loop_spec eof base (S (length l)) l [] (mkEmit (pre ++ [MVRP_VID_TYPE; 2] ++ free') (msgbuf + 2) msgbuf lva false))
    as (r&l'&Hloop&Hc&Hr); [done|lia|done| |].
  { exists free'. unfold base. cbn [e_buf e_vptr e_ptr]. rewrite ?length_app. cbn [length].
    split_and!; try lia; by rewrite <- ?(assoc_L (++)). }
  rewrite Hloop. cbn_outcome. destruct r as [s|].
  2:{ eexists _, _, _, _; split_and!; [done..|left]. split_and!; [done..|]. apply Nat.nle_gt. intros Hfit.
      pose proof (pending_le l). apply emit_loop_fits in Hloop as [? ?]; [done|done|cbn; lia..]. }
  clear Hloop. destruct (Hr s eq_refl) as (gs&Hrun&Hsub&Hcov&(tail&Hbuf&Hlen&Hv&Hp&Hpr)&H0&H1). clear Hr.
  cbn [app] in *. destruct (decide (gs = [])) as [->|Hgs].
  - rewrite (H0 eq_refl) in *. cbn [e_found e_buf e_vptr e_ptr negb andb] in *. destruct se.
    + cbn_outcome. apply Forall_app in Hz as [_ Hz].
      destruct free' as [|a [|b [|c [|d [|e [|f free']]]]]]; cbn in Hl; try lia.
      repeat match goal with H : Forall _ (_ :: _) |- _ => apply Forall_cons in H as [-> H] end.
      replace (pre ++ MVRP_VID_TYPE :: 2 :: 0 :: 0 :: 0 :: 0 :: 0 :: 0 :: free')
        with (base ++ [0; 0] ++ [0; 0; 0; 0] ++ free') by (unfold base; by rewrite <- (assoc_L (++))).
      set (hb := be_bytes 2 _). assert (Hhb : length hb = 2%nat) by apply length_be_bytes.
      assert (Hbody : body lva [] = hb ++ [0; 0]) by done. clearbody hb.
      rewrite write_at by (unfold base; rewrite ?length_app; cbn; lia). cbn_outcome.
      cbn [e_vptr e_ptr e_buf]. destruct (Nat.eqb_spec (msgbuf + 2 + 2 + 2) (msgbuf + 2)); [lia|].
      replace (base ++ hb ++ [0; 0; 0; 0] ++ free') with ((base ++ hb ++ [0; 0]) ++ [0; 0] ++ free')
        by (by rewrite <- !(assoc_L (++))).
      rewrite write_at by (unfold base; rewrite ?length_app; cbn; lia). cbn_outcome.
      eexists _, _, _, _. split_and!; [done..|]. right. split; [done|]. exists []. split.
      * constructor; [done..| |lia|split; [lia|by intros []]].
        intros x Hx Hm'. destruct (Hcov x Hx Hm') as [|[? ?]]; [by left|right; split; [done|lia]].
      * intros _. exists free'. unfold base. rewrite Hbody. split_and!.
        -- by rewrite <- !(assoc_L (++)).
        -- rewrite !length_app, Hhb. cbn. lia.
        -- rewrite length_app, Hhb. cbn. lia.
    + cbn_outcome. rewrite Nat.eqb_refl. eexists _, _, _, _. split_and!; [done..|]. right. split; [done|].
      exists []. split; [|done]. constructor; [done..| |lia|done].
      intros x Hx Hm'. destruct (Hcov x Hx Hm') as [|[? ?]]; [by left|right; split; [done|lia]].
  - destruct (H1 Hgs) as [Hf Hpe]. rewrite Hf. cbn [negb andb]. cbn_outcome.
    pose proof (wire_nonempty lva gs Hrun Hgs) as Hw. cbn [e_lva] in *.
    unfold base in Hv. rewrite !length_app in Hv. cbn [length] in Hv.
    destruct (Nat.eqb_spec (e_vptr s) (msgbuf + 2)); [lia|].
    rewrite Hbuf. rewrite (assoc_L (++)) in Hbuf |- *.
    assert (Htl : (2 <= length tail)%nat).
    { rewrite Hbuf, !length_app in Hlen. unfold base in Hlen. rewrite !length_app in Hlen. cbn in Hlen. lia. }
    destruct (split_tail 2 tail Htl) as (m2&tail'&->&Hm2).
    rewrite write_at by (unfold base; rewrite ?length_app; cbn; lia). cbn_outcome.
    eexists _, _, _, _. split_and!; [done..|]. right. split; [done|]. exists gs. split.
    + constructor; [done..| |lia|split; [lia|by intros []]].
      intros x Hx Hm'. destruct (Hcov x Hx Hm') as [|[? ?]]; [by left|right; split; [done|lia]].
    + intros _. exists tail'. destruct gs as [|g gs]; [done|].
      change (body lva (g :: gs)) with (wire lva (g :: gs)). set (wr := wire lva (g :: gs)) in *. clearbody wr.
      rewrite Hbuf in Hlen. unfold base in *. rewrite !length_app in *. cbn [length] in *.
      split_and!; [by rewrite <- !(assoc_L (++))|lia..].
Qed.
