(* ===== verification/MvrpEvent.v ===== *)
(** * MVRP: events

    [spec_event] says what an event does to the table of attributes; [mvrp_event] is
    shown to implement it and to keep the invariant of the database. *)

From S2P Require Import Prelude.
From S2P Require Import CText.
From S2P Require Import Mrp.
From S2P Require Import MrpText.
From S2P Require Import MrpTheory.
From S2P Require Import Mvrp.
From S2P Require Import MvrpTheory.
From S2P Require Import MvrpEmit.

Open Scope Z_scope.
Local Abbreviation length := List.length.

(** ** The abstract machine *)

Definition entry : Type := applicant_state * registrar_state.

Definition app_next (p2pmac : Z) (e : mrp_event) (p : entry) : applicant_state :=
  match applicant_step p2pmac p.1 e (bool_decide (p.2 = IN)) with
  | Some t => tx_state t
  | None => p.1
  end.

Definition reg_next (e : mrp_event) (s : registrar_state) : registrar_state :=
  match e with
  | EVENT_RLV | EVENT_TXLA | EVENT_RLA | EVENT_REDECLARE =>
      match s with IN => LV | _ => s end
  | EVENT_RNEW | EVENT_RJOININ | EVENT_RJOINMT => IN
  | EVENT_LVTIMER => match s with LV => MT | _ => s end
  | EVENT_BEGIN | EVENT_FLUSH => MT
  | _ => s
  end.

(** The registrar event a local request stands for. *)
Definition as_registrar (e : mrp_event) : mrp_event :=
  match e with
  | EVENT_NEW => EVENT_BEGIN
  | EVENT_JOIN => EVENT_RJOININ
  | EVENT_LV => EVENT_RLV
  | _ => e
  end.

(** An attribute nobody declares and nobody registers is dropped. *)
Definition idle (p : entry) : bool :=
  match p with
  | (VO, MT) | (AO, MT) | (QO, MT) => true
  | _ => false
  end.

Definition keep (p : entry) : option entry := if idle p then None else Some p.

Definition attribute_entry (p2pmac : Z) (e : mrp_event) (o : option entry) : option entry :=
  match o, e with
  | None, EVENT_RMT => None
  | _, _ =>
      let p := default (VO, MT) o in keep (app_next p2pmac e p, reg_next (as_registrar e) p.2)
  end.

Definition spec_event (p2pmac : Z) (e : mrp_event) (vid : option Z) (t : gmap Z entry) : gmap Z entry :=
  match e with
  | EVENT_LVATIMER => (fun p => (app_next p2pmac EVENT_TXLA p, reg_next EVENT_TXLA p.2)) <$> t
  | EVENT_RLA => (fun p => (app_next p2pmac EVENT_RLA p, reg_next EVENT_RLA p.2)) <$> t
  | EVENT_TX => (fun p => (app_next p2pmac EVENT_TX p, p.2)) <$> t
  | EVENT_PERIODIC => (fun p => (app_next p2pmac EVENT_PERIODIC p, p.2)) <$> t
  | EVENT_LVTIMER => omap (fun p => keep (p.1, reg_next EVENT_LVTIMER p.2)) t
  | EVENT_NEW | EVENT_JOIN | EVENT_RNEW | EVENT_RJOININ | EVENT_RJOINMT | EVENT_LV
  | EVENT_RIN | EVENT_RMT | EVENT_RLV =>
      match vid with
      | Some v => partial_alter (attribute_entry p2pmac e) v t
      | None => t
      end
  | _ => t
  end.

(** ** The invariant *)

Definition attr_ok (x : mvrp_attribute) : Prop :=
  is_u16 (attribute x) /\ bytes (reg_macaddr (registrar x)) /\
  length (reg_macaddr (registrar x)) = 6%nat /\ sendable x.

Definition silent (x : mvrp_attribute) : Prop := reg_notify (registrar x) = NOTIFY_NONE.

(** Holds within an event, when notifications may be pending. *)
Record Inv0 (m : mvrp_database) : Prop := {
  inv_sorted : sorted (attrib_list m);
  inv_attrs : Forall attr_ok (attrib_list m);
  inv_armed : armed (mrp_db m);
  inv_leaving : Forall (fun x => reg_state (registrar x) = LV -> lv_timer_running (mrp_db m) = true)
                  (attrib_list m)
}.

(** Holds between events. *)
Record Inv (m : mvrp_database) : Prop := {
  inv_inv0 : Inv0 m;
  inv_silent : Forall silent (attrib_list m);
  inv_flag : send_empty_LeaveAll_flag m = false
}.

(** Applicants with something to send. *)
Definition anxious (s : applicant_state) : bool :=
  match s with VP | VN | AN | AA | LA | AP | LO => true | _ => false end.

(** Whoever has something to send waits for a running join timer. *)
Definition restless (m : mvrp_database) : Prop :=
  Forall (fun x => anxious (app_state (applicant x)) = true -> join_timer_running (mrp_db m) = true)
    (attrib_list m).

(** Databases that differ in the operating system's answers used so far. *)
Definition later_db (m : mvrp_database) (m' : mvrp_database) : Prop :=
  exists n, m' = set_mrp_db (set_asked n (mrp_db m)) m.

Lemma later_refl m : later_db m m.
Proof. exists (asked (mrp_db m)). by destruct m as [[] ? ?]. Qed.

Lemma later_trans m m' m'' : later_db m m' -> later_db m' m'' -> later_db m m''.
Proof. intros [n ->] [k ->]. by exists k. Qed.

Lemma armed_asked n db : armed db -> armed (set_asked n db).
Proof. by intros []; constructor. Qed.

Lemma Inv0_later m m' : later_db m m' -> Inv0 m -> Inv0 m'.
Proof. intros [n ->] []. constructor; try done. by apply armed_asked. Qed.

Lemma restless_later m m' : later_db m m' -> restless m -> restless m'.
Proof. by intros [n ->] ?. Qed.

#[export] Hint Resolve later_refl : core.

(** The pure effect of the state machines on an attribute. *)
Definition db0 : mrp_database :=
  mkMrpDb (mkTimer TIMER_PASSIVE false SND_NONE) None false None false None false [] 0 0 0.

Definition reg_attr (E : Os) (e : mrp_event) (x : mvrp_attribute) : mvrp_attribute :=
  set_registrar (mrp_registrar_fsm E (registrar x) db0 e).1.2 x.

Lemma registrar_event_fst E e x db : fst (registrar_event E e x db) = reg_attr E e x.
Proof.
  unfold registrar_event, reg_attr, mrp_registrar_fsm.
  destruct e; try done; by destruct (reg_state (registrar x)).
Qed.

Lemma reg_attr_attribute E e x : attribute (reg_attr E e x) = attribute x.
Proof. done. Qed.

Lemma reg_attr_core E e x :
  core (reg_attr E e x) = (app_state (applicant x), reg_next e (reg_state (registrar x))).
Proof.
  unfold reg_attr, core, mrp_registrar_fsm. cbn.
  by destruct e; cbn; try done; destruct (reg_state (registrar x)) eqn:Hr; cbn; rewrite ?Hr.
Qed.

Lemma applicant_event_core p2pmac e x :
  core (applicant_event p2pmac e x) = (app_next p2pmac e (core x), reg_state (registrar x)).
Proof.
  unfold applicant_event, core, app_next, mrp_applicant_fsm, mrp_registrar_in. cbn [fst snd].
  destruct (applicant_step _ _ _ _); done.
Qed.

Lemma applicant_event_attribute p2pmac e x : attribute (applicant_event p2pmac e x) = attribute x.
Proof. done. Qed.

(** A message that is due can be encoded. *)
Lemma sendable_applicant p2pmac e x : sendable x -> sendable (applicant_event p2pmac e x).
Proof.
  unfold sendable, applicant_event, mrp_applicant_fsm, pdu_event. intros Hs.
  destruct (applicant_step _ _ _ _) as [t|] eqn:Ht; cbn; [|done].
  unfold applicant_step in Ht. destruct e; try done; injection Ht as <-; cbn; try done;
    destruct (app_state (applicant x)); cbn; done.
Qed.

Lemma sendable_registrar r x : sendable x -> sendable (set_registrar r x).
Proof. unfold sendable, pdu_event. cbn. destruct (app_sndmsg (applicant x)); naive_solver. Qed.

Lemma reg_attr_mac E e x : reg_macaddr (registrar (reg_attr E e x)) = reg_macaddr (registrar x).
Proof. unfold reg_attr, mrp_registrar_fsm. by destruct e; cbn; try done; destruct (reg_state _). Qed.

Lemma attr_ok_reg E e x : attr_ok x -> attr_ok (reg_attr E e x).
Proof.
  intros (?&?&?&?). unfold attr_ok. rewrite reg_attr_mac. split_and!; try done.
  by apply sendable_registrar.
Qed.

Lemma attr_ok_app p2pmac e x : attr_ok x -> attr_ok (applicant_event p2pmac e x).
Proof. intros (?&?&?&?). split_and!; try done. by apply sendable_applicant. Qed.

Lemma attr_ok_notify n x : attr_ok x -> attr_ok (set_notify n x).
Proof. intros (?&?&?&?). split_and!; try done; by apply sendable_registrar. Qed.

Lemma core_notify n x : core (set_notify n x) = core x.
Proof. done. Qed.

Lemma reclaimable_idle x : reclaimable x = idle (core x).
Proof.
  unfold reclaimable, idle, core. by destruct (reg_state (registrar x)), (app_state (applicant x)).
Qed.

(** Clearing marks changes neither VIDs nor states. *)
Lemma cleared_inv l l' :
  cleared l l' -> attribute <$> l' = attribute <$> l /\ table l' = table l /\
  (Forall attr_ok l -> Forall attr_ok l') /\ (Forall silent l -> Forall silent l') /\
  (forall P : entry -> Prop, Forall (fun x => P (core x)) l -> Forall (fun x => P (core x)) l').
Proof.
  induction 1 as [|x x' l l' Hx Hl IH]; [done|]. destruct IH as (IH1&IH2&IH3&IH4&IH5).
  assert (attribute x' = attribute x /\ core x' = core x /\ (attr_ok x -> attr_ok x') /\
    (silent x -> silent x')) as (?&Hcx&?&?).
  { destruct Hx as [->| ->]; [done|]. split_and!; try done. intros (?&?&?&?). by split_and!. }
  unfold table. cbn. split_and!; [congruence| | |..].
  - rewrite Hcx. unfold table in IH2. congruence.
  - intros [? ?]%Forall_cons. constructor; auto.
  - intros [? ?]%Forall_cons. constructor; auto.
  - intros P [? ?]%Forall_cons. constructor; [by rewrite Hcx|auto].
Qed.

(** ** Primitive steps *)

Abbreviation safe := (wp (fun _ : fault => False)).
Abbreviation at_db m fr ms := (mkMvrp (Db m) fr ms).

Lemma the_db_wp m fr ms Q : Q m (at_db m fr ms) -> safe the_db Q (at_db m fr ms).
Proof. done. Qed.

Lemma upd_db_wp f m fr ms Q : Q tt (at_db (f m) fr ms) -> safe (upd_db f) Q (at_db m fr ms).
Proof. done. Qed.

Lemma upd_mrp_wp f m fr ms Q :
  Q tt (at_db (set_mrp_db (f (mrp_db m)) m) fr ms) -> safe (upd_mrp f) Q (at_db m fr ms).
Proof. done. Qed.

Lemma each_send_wp text cs m fr ms Q :
  Q tt (at_db m fr (ms ++ ((fun c => (c, text)) <$> cs))) ->
  safe (each (fun c => mrpd_send_ctl_msg c text) cs) Q (at_db m fr ms).
Proof.
  revert ms. induction cs as [|c cs IH]; intros ms HQ; cbn [each].
  - apply wp_ret. by rewrite app_nil_r in HQ.
  - apply wp_bind. change (safe (each (fun c => mrpd_send_ctl_msg c text) cs) Q (at_db m fr (ms ++ [(c, text)]))).
    apply IH. by rewrite <- (assoc_L (++)).
Qed.

(** ** Tables *)

Lemma table_fmap (f : mvrp_attribute -> mvrp_attribute) (g : entry -> entry) l :
  (forall x, attribute (f x) = attribute x) -> (forall x, core (f x) = g (core x)) ->
  table (f <$> l) = g <$> table l.
Proof.
  intros Ha Hg. apply map_eq. intros v. rewrite lookup_fmap, !table_lookup, lookup_map by done.
  destruct (mvrp_lookup v l); cbn; [by rewrite Hg|done].
Qed.

Lemma sorted_fmap f l : (forall x, attribute (f x) = attribute x) -> sorted l -> sorted (f <$> l).
Proof. intros Hf. unfold sorted. by rewrite attribute_map. Qed.

Lemma lookup_list_omap (f : mvrp_attribute -> option mvrp_attribute) v l :
  (forall x x', f x = Some x' -> attribute x' = attribute x) -> sorted l ->
  mvrp_lookup v (omap f l) = mvrp_lookup v l ≫= f.
Proof.
  intros Hf. unfold sorted. induction l as [|x l IH]; [done|]. intros Hs.
  inversion Hs as [|? ? Hs' HF]; subst. specialize (IH Hs'). cbn [omap list_omap mvrp_lookup].
  change (list_omap _ _ f l) with (omap f l).
  destruct (Z.eqb_spec (attribute x) v) as [Hv|Hv]; cbn [mbind option_bind].
  - destruct (f x) as [x'|] eqn:Hx; cbn [mvrp_lookup].
    + by rewrite (Hf _ _ Hx), Hv, Z.eqb_refl.
    + rewrite IH. replace (mvrp_lookup v l) with (@None mvrp_attribute); [done|]. symmetry.
      apply lookup_None. intros Hin. rewrite Forall_forall in HF. specialize (HF _ Hin). lia.
  - destruct (f x) as [x'|] eqn:Hx; cbn [mvrp_lookup]; [|done].
    by rewrite (Hf _ _ Hx), (proj2 (Z.eqb_neq _ _)).
Qed.

Lemma sorted_omap (f : mvrp_attribute -> option mvrp_attribute) l :
  (forall x x', f x = Some x' -> attribute x' = attribute x) -> sorted l -> sorted (omap f l).
Proof.
  intros Hf. unfold sorted. apply StronglySorted_sub. induction l as [|x l IH]; [done|].
  cbn. destruct (f x) as [x'|] eqn:Hx; cbn; [rewrite (Hf _ _ Hx); by constructor|by constructor].
Qed.

Lemma table_middle A x B :
  sorted (A ++ x :: B) -> table (A ++ x :: B) = <[attribute x := core x]> (table (A ++ B)).
Proof.
  intros Hs. destruct (sorted_middle _ _ _ Hs) as [H1 H2]. apply map_eq. intros v.
  rewrite table_lookup, lookup_app. cbn [mvrp_lookup].
  destruct (Z.eqb_spec (attribute x) v) as [<-|Hv].
  - by rewrite H1, lookup_insert_eq.
  - by rewrite lookup_insert_ne, table_lookup, lookup_app by done.
Qed.

Lemma table_without A x B : sorted (A ++ x :: B) -> table (A ++ B) !! attribute x = None.
Proof.
  intros Hs. destruct (sorted_middle _ _ _ Hs) as [H1 H2]. by rewrite table_lookup, lookup_app, H1, H2.
Qed.

Lemma table_keep A x B (t : gmap Z entry) :
  sorted (A ++ x :: B) -> delete (attribute x) t = table (A ++ B) ->
  table (if reclaimable x then A ++ B else A ++ x :: B) =
  partial_alter (fun _ => keep (core x)) (attribute x) t.
Proof.
  intros Hs Ht. unfold keep. rewrite reclaimable_idle. destruct (idle (core x)).
  - by rewrite <- Ht.
  - rewrite table_middle, <- Ht by done. by rewrite insert_delete_eq.
Qed.

Lemma sorted_delete l1 x l2 : sorted (l1 ++ x :: l2) -> sorted (l1 ++ l2).
Proof.
  unfold sorted. rewrite !fmap_app. apply StronglySorted_sub. apply sublist_app; [done|].
  cbn. by constructor.
Qed.

Lemma sorted_replace l1 x x' l2 :
  attribute x' = attribute x -> sorted (l1 ++ x :: l2) -> sorted (l1 ++ x' :: l2).
Proof. unfold sorted. rewrite !fmap_app. cbn. by intros ->. Qed.

Lemma tx_count_zero l :
  tx_count l = 0 ->
  Forall (fun x => mrp_applicant_state_transition_implies_tx (applicant x) = 0) l.
Proof.
  assert (Hp : forall x, 0 <= mrp_applicant_state_transition_implies_tx (applicant x)).
  { intros x. unfold mrp_applicant_state_transition_implies_tx. repeat case_match; lia. }
  assert (Hcons : forall x l, tx_count (x :: l) =
    mrp_applicant_state_transition_implies_tx (applicant x) + tx_count l) by done.
  assert (Hc : forall l, 0 <= tx_count l).
  { clear l. intros l. induction l as [|x l IH]; [done|]. rewrite Hcons. specialize (Hp x). lia. }
  induction l as [|x l IH]; [by constructor|]. rewrite Hcons. intros H0. specialize (Hp x).
  pose proof (Hc l). constructor; [lia|]. apply IH. lia.
Qed.

Section Events.
Context (E : Os) (p2pmac : Z) (STATION_ADDR : list Z).
Context (HT : timers_ok E) (HR : random_ok E) (Hst : length STATION_ADDR = 6%nat).

Lemma malloc_wp m fr ms Q :
  (forall b m', later_db m m' -> (malloc_ok E -> b = true) -> Q b (at_db m' fr ms)) ->
  safe (malloc E) Q (at_db m fr ms).
Proof using. intros HQ. apply HQ; [by exists (S (asked (mrp_db m)))|]. by intros HM. Qed.

(** Either nothing is sent (no memory, nothing to say) or one text to every client. *)
Definition told (m : mvrp_database) (x : mvrp_attribute) (n : mrp_notify)
    (ms ms' : list (sockaddr_in * list Z)) : Prop :=
  ms' = ms \/ exists text, notify_text x n = Some text /\
                ms' = ms ++ ((fun c => (c, text)) <$> clients (mrp_db m)).

Lemma send_notifications_wp x n m fr ms Q :
  (forall z m' ms', later_db m m' -> told m x n ms ms' -> Q z (at_db m' fr ms')) ->
  safe (mvrp_send_notifications E x n) Q (at_db m fr ms).
Proof using.
  intros HQ. apply wp_bind, malloc_wp. intros b m1 H1 _. destruct b; cbn [negb]; [|apply HQ; [done|by left]].
  apply wp_bind, malloc_wp. intros b m2 H2 _. apply wp_bind, malloc_wp. intros b' m3 H3 _.
  pose proof (later_trans _ _ _ H1 (later_trans _ _ _ H2 H3)) as Hl.
  destruct (negb b || negb b'); [apply HQ; [done|by left]|].
  destruct (notify_text x n) as [text|] eqn:Ht; [|apply HQ; [done|by left]].
  apply wp_bind, the_db_wp, wp_bind, each_send_wp, wp_ret. apply HQ; [done|]. right.
  exists text. split; [done|]. by destruct Hl as [? ->].
Qed.

Lemma reclaim_wp x m fr ms Q :
  (forall m' ms', later_db (if reclaimable x
                            then set_attrib_list (unlink_vid (attribute x) (attrib_list m)) m
                            else m) m' ->
     Q (reclaimable x) (at_db m' fr ms')) ->
  safe (mvrp_conditional_reclaim E x) Q (at_db m fr ms).
Proof using.
  intros HQ. unfold mvrp_conditional_reclaim. destruct (reclaimable x); [|by apply HQ].
  apply wp_bind, upd_db_wp, wp_bind, send_notifications_wp. intros z m' ms' Hl _. by apply HQ.
Qed.

(** The final loop clears every pending notification. *)
Lemma notify_loop_wp l m fr ms Q :
  (forall m' ms', later_db m m' -> Q (set_notify NOTIFY_NONE <$> l) (at_db m' fr ms')) ->
  safe (notify_loop E l) Q (at_db m fr ms).
Proof using.
  revert m ms Q. induction l as [|x l IH]; intros m ms Q HQ; cbn [notify_loop]; [by apply HQ|].
  apply wp_bind.
  assert (Hrest : forall m1 ms1, later_db m m1 ->
    safe (l'' ← notify_loop E l; mret (set_notify NOTIFY_NONE x :: l'')) Q (at_db m1 fr ms1)).
  { intros m1 ms1 H1. apply wp_bind, IH. intros m' ms' H2. apply wp_ret, HQ. by eapply later_trans. }
  case_decide as Hn.
  - assert (Hid : set_notify NOTIFY_NONE x = x)
      by (destruct x as [? ? [? n ? ?]]; cbn in Hn; by subst n).
    rewrite Hid in Hrest. apply wp_ret. by apply Hrest.
  - apply wp_bind, send_notifications_wp. intros z m1 ms1 H1 _. apply wp_ret. by apply Hrest.
Qed.

(** ** Leave timer *)

Definition lv_step (x : mvrp_attribute) : option mvrp_attribute :=
  let x' := reg_attr E EVENT_LVTIMER x in if reclaimable x' then None else Some x'.

Lemma lvtimer_registrar x db : registrar_event E EVENT_LVTIMER x db = (reg_attr E EVENT_LVTIMER x, db).
Proof using.
  rewrite <- (registrar_event_fst E EVENT_LVTIMER x db). unfold registrar_event, mrp_registrar_fsm.
  by destruct (reg_state (registrar x)).
Qed.

Lemma lvtimer_loop_wp l : forall D m fr ms Q,
  attrib_list m = D ++ l -> sorted (D ++ l) ->
  (forall m' ms', later_db (set_attrib_list (D ++ omap lv_step l) m) m' -> Q tt (at_db m' fr ms')) ->
  safe (lvtimer_loop E l) Q (at_db m fr ms).
Proof using.
  induction l as [|x l IH]; intros D m fr ms Q Hm Hs HQ; cbn [lvtimer_loop omap list_omap].
  { apply wp_ret, HQ. rewrite app_nil_r in *. rewrite <- Hm. by destruct m. }
  apply wp_bind, the_db_wp. rewrite lvtimer_registrar. apply wp_bind, upd_db_wp.
  destruct (sorted_middle _ _ _ Hs) as [H1 _]. rewrite Hm, at_vid_middle by done.
  set (x' := reg_attr E EVENT_LVTIMER x) in *.
  apply wp_bind, reclaim_wp. intros m' ms' [n ->]. unfold omap, list_omap, lv_step in HQ. fold x' in HQ.
  destruct (reclaimable x') eqn:Hr; cbn [attrib_list set_mrp_db set_attrib_list mrp_db].
  - change (attribute x) with (attribute x') in H1. rewrite unlink_middle by done.
    apply (IH D); [done|by eapply sorted_delete|]. intros m'' ms'' [k ->]. apply HQ.
    by exists k.
  - apply (IH (D ++ [x'])); cbn; rewrite <- ?(assoc_L (++)); [done|by apply (sorted_replace _ x)|].
    intros m'' ms'' [k ->]. apply HQ. by exists k.
Qed.

(** ** State machines over the list *)

Definition both_attr (e : mrp_event) (x : mvrp_attribute) : mvrp_attribute :=
  reg_attr E e (applicant_event p2pmac e x).

Lemma both_attr_core e x :
  core (both_attr e x) = (app_next p2pmac e (core x), reg_next e (core x).2).
Proof using.
  unfold both_attr. rewrite reg_attr_core.
  by rewrite (f_equal fst (applicant_event_core p2pmac e x) : app_state _ = _).
Qed.

(** A leaving attribute is guarded by the leave timer. *)
Definition guarded (db : mrp_database) (x : mvrp_attribute) : Prop :=
  reg_state (registrar x) = LV -> lv_timer_running db = true.

Lemma guarded_mono db db' l :
  (lv_timer_running db = true -> lv_timer_running db' = true) ->
  Forall (guarded db) l -> Forall (guarded db') l.
Proof using. intros Hm HF. eapply Forall_impl; [done|]. intros x Hx Hl. auto. Qed.

(** What a registrar event does besides its effect on the attribute. *)
Lemma registrar_event_spec e x db :
  armed db -> guarded db x ->
  let db' := (registrar_event E e x db).2 in
  armed db' /\ same_config db db' /\ join_timer_running db' = join_timer_running db /\
  lva db' = lva db /\ (lv_timer_running db = true -> lv_timer_running db' = true) /\
  guarded db' (reg_attr E e x).
Proof using HT.
  intros Hdb Hg. rewrite <- (registrar_event_fst E e x db).
  pose proof (registrar_fsm_timers E HT (registrar x) db e Hdb) as Hf.
  unfold registrar_event. destruct (mrp_registrar_fsm E (registrar x) db e) as [[rc r] db'].
  destruct Hf as (?&?&?&?&_&Hmono&Hlv). cbn. split_and!; try done.
  intros Hl. cbn in Hl. destruct (Hlv Hl); auto.
Qed.

Lemma for_both_spec e l : forall db,
  armed db -> Forall (guarded db) l ->
  exists db', for_attribs (both_event E p2pmac e) l db = (both_attr e <$> l, db') /\
    armed db' /\ same_config db db' /\ join_timer_running db' = join_timer_running db /\
    lva db' = lva db /\ (lv_timer_running db = true -> lv_timer_running db' = true) /\
    Forall (guarded db') (both_attr e <$> l).
Proof using HT.
  induction l as [|x l IH]; intros db Hdb Hg; cbn [for_attribs]; [by exists db; split_and!|].
  apply Forall_cons in Hg as [Hx Hg].
  pose proof (registrar_event_spec e (applicant_event p2pmac e x) db Hdb Hx) as Hf.
  unfold both_event. pose proof (registrar_event_fst E e (applicant_event p2pmac e x) db) as Hfst.
  destruct (registrar_event E e (applicant_event p2pmac e x) db) as [x' db1]. cbn in Hf, Hfst. subst x'.
  destruct Hf as (Ha&Hc&Hj&Hv&Hm&Hgx).
  destruct (IH db1 Ha (guarded_mono _ _ _ Hm Hg)) as (db2&Heq&Ha2&Hc2&Hj2&Hv2&Hm2&Hg2).
  unfold both_event in Heq. rewrite Heq. exists db2. split_and!; try congruence; auto; [by etrans|].
  cbn. constructor; [|done]. intros Hl. auto.
Qed.

Lemma for_pure f l db : for_attribs (fun x db => (f x, db)) l db = (f <$> l, db).
Proof using. induction l as [|x l IH]; cbn; [done|]. by rewrite IH. Qed.

(** ** Transmission *)

Definition eth_header : list Z :=
  MVRP_CUSTOMER_BRIDGE_ADDR ++ STATION_ADDR ++ be_bytes 2 MVRP_ETYPE ++ [MVRP_PROT_VER].

Definition pdu (lva : bool) (gs : list (list mvrp_attribute)) : list Z :=
  eth_header ++ [MVRP_VID_TYPE; 2] ++ body lva gs ++ [0; 0] ++ [0; 0].

(** The database after a transmission: marks cleared, the LeaveAll mark taken. *)
Definition transmitted (m m' : mvrp_database) : Prop :=
  exists l' t n, m' = set_attrib_list l' (set_mrp_db (set_asked n (set_lva t (mrp_db m))) m) /\
    cleared (attrib_list m) l'.

(** So few attributes that one frame holds all of them, however they are spread. *)
Definition fits (m : mvrp_database) : Prop := (length (attrib_list m) <= 390)%nat.

(** At most one frame is sent, with the vectors of the marked attributes. *)
Definition sent_pdu (m m' : mvrp_database) (fr fr' : list (list Z)) : Prop :=
  (fr' = fr /\ (malloc_ok E -> fits m -> forall x, x ∈ attrib_list m -> ~ mandatory x)) \/
  exists gs n, message MAX_FRAME_SIZE 15 (lva_tx (lva (mrp_db m))) (send_empty_LeaveAll_flag m)
                 (attrib_list m) n (attrib_list m') gs /\
               n = (2 + length (body (lva_tx (lva (mrp_db m))) gs) + 2)%nat /\
               fr' = fr ++ [pdu (lva_tx (lva (mrp_db m))) gs].

Lemma eth_header_writes :
  (buf ← write_bytes (replicate MAX_FRAME_SIZE 0) 12 (be_bytes 2 MVRP_ETYPE);
   buf ← write_bytes buf 0 MVRP_CUSTOMER_BRIDGE_ADDR;
   buf ← write_bytes buf 6 STATION_ADDR;
   write_bytes buf ETH_HDR [MVRP_PROT_VER]) = Ok (eth_header ++ replicate 1985 0).
Proof using Hst.
  change (replicate MAX_FRAME_SIZE 0) with (replicate 12 0 ++ replicate 2 0 ++ replicate 1986 0).
  rewrite write_at by done. cbn_outcome.
  change (replicate 12 0 ++ be_bytes 2 MVRP_ETYPE ++ replicate 1986 0) with
    ([] ++ replicate 6 0 ++ (replicate 6 0 ++ be_bytes 2 MVRP_ETYPE ++ replicate 1986 0)).
  rewrite write_at by done. cbn_outcome. cbn [app].
  rewrite write_at by done. cbn_outcome. unfold eth_header.
  change (replicate 1986 0) with ([0] ++ replicate 1985 0).
  rewrite (assoc_L (++) STATION_ADDR), (assoc_L (++) MVRP_CUSTOMER_BRIDGE_ADDR).
  rewrite write_at by (rewrite ?length_app, ?length_be_bytes, ?Hst; done).
  by rewrite <- !(assoc_L (++)).
Qed.

Lemma lift_bind4 {S} (a : outcome (list Z)) (b c d : list Z -> outcome (list Z)) r (Q : list Z -> M S Z) P s :
  (x ← a; x ← b x; x ← c x; d x) = Ok r -> safe (Q r) P s ->
  safe (x ← lift a; x ← lift (b x); x ← lift (c x); x ← lift (d x); Q x) P s.
Proof using.
  unfold wp, lift, mbind, M_bind, outcome_bind. destruct a as [x|]; [|done].
  destruct (b x) as [y|]; [|done]. destruct (c y) as [z|]; [|done]. by intros ->.
Qed.

Lemma eth_header_length : length eth_header = 15%nat.
Proof using Hst. unfold eth_header. by rewrite !length_app, Hst, length_be_bytes. Qed.

Lemma txpdu_wp m fr ms Q :
  Forall sendable (attrib_list m) ->
  (forall z m' fr', transmitted m m' -> sent_pdu m m' fr fr' -> Q z (at_db m' fr' ms)) ->
  safe (mvrp_txpdu E STATION_ADDR) Q (at_db m fr ms).
Proof using Hst.
  intros Hs HQ. apply wp_bind, malloc_wp. intros b m1 [n1 ->] Hb. destruct b; cbn [negb].
  2:{ apply wp_ret, HQ; [|left; split; [done|by intros ?%Hb]]. exists (attrib_list m), (lva (mrp_db m)), n1.
      split; [by destruct m as [[] ? ?]|done]. }
  eapply lift_bind4; [apply eth_header_writes|].
  apply wp_bind, the_db_wp, wp_bind, upd_mrp_wp.
  destruct (emit_vidvectors_spec eth_header (replicate 1985 0) 15 MAX_FRAME_SIZE (lva_tx (lva (mrp_db m)))
    (send_empty_LeaveAll_flag m) (attrib_list m)) as (rc&n&buf&l'&Heq&Hc&Hcase);
    [done|by rewrite eth_header_length|rewrite eth_header_length; done|unfold MAX_FRAME_SIZE; lia| |done|].
  { apply Forall_replicate. done. }
  apply wp_bind. eapply wp_lift; [exact Heq|]. cbn beta iota. apply wp_bind, upd_db_wp.
  set (t := mkTimer _ false _).
  assert (HT1 : forall k, transmitted m
    (set_attrib_list l' (set_mrp_db (set_asked k (set_lva t (mrp_db m))) m))).
  { intros k. by exists l', t, k. }
  assert (Hnone : (malloc_ok E -> fits m -> forall x, x ∈ attrib_list m -> ~ mandatory x) ->
    safe (mret (-1)) Q (at_db (set_attrib_list l' (set_mrp_db (set_asked n1 (set_lva t (mrp_db m))) m)) fr ms)).
  { intros Hno. apply wp_ret, HQ; [apply (HT1 n1)|left; by split]. }
  unfold fits, MAX_FRAME_SIZE in *.
  destruct Hcase as [(->&->&Hfull)|[-> (gs&Hmsg&Hbuf)]]; cbn [Z.eqb].
  { apply Hnone. intros _ Hfit. lia. }
  change (S ETH_HDR) with 15%nat. destruct (Nat.eqb_spec (15 + n) 15) as [Hn|Hn].
  { apply Hnone. intros _ Hfit x Hx Hm. destruct Hmsg as [_ _ Hcov _ [Hz _]].
    destruct (Hz ltac:(lia)) as [-> _]. destruct (Hcov x Hx Hm) as [Hin|[_ Hf]]; [|lia].
    by apply not_elem_of_nil in Hin. }
  destruct (Nat.ltb_spec (15 + n + 2) 2000) as [Hlt|Hge].
  2:{ apply Hnone. intros _ Hfit. exfalso. destruct (Hbuf ltac:(lia)) as (_&_&_&Hnn).
      pose proof (body_size (lva_tx (lva (mrp_db m))) gs (msg_runs _ _ _ _ _ _ _ _ Hmsg)).
      pose proof (sublist_length _ _ (msg_marked _ _ _ _ _ _ _ _ Hmsg)).
      pose proof (pending_le (attrib_list m)). unfold pending in *. lia. }
  destruct (Hbuf ltac:(lia)) as (tail&->&Hlen&Hnn).
  set (bd := body (lva_tx (lva (mrp_db m))) gs) in *.
  assert (Htl : (2 <= length tail)%nat).
  { rewrite !length_app, eth_header_length in Hlen. cbn [length] in Hlen. lia. }
  destruct (split_tail 2 tail Htl) as (m2&tail'&->&Hm2).
  replace (eth_header ++ [MVRP_VID_TYPE; 2] ++ bd ++ [0; 0] ++ m2 ++ tail')
    with ((eth_header ++ [MVRP_VID_TYPE; 2] ++ bd ++ [0; 0]) ++ m2 ++ tail')
    by (by rewrite <- !(assoc_L (++))).
  set (pre := eth_header ++ [MVRP_VID_TYPE; 2] ++ bd ++ [0; 0]).
  assert (Hpre : length pre = (15 + n)%nat).
  { unfold pre. rewrite !length_app, eth_header_length. cbn [length]. lia. }
  apply wp_bind. eapply wp_lift; [apply write_at; [by rewrite Hpre|done]|].
  apply wp_bind, the_db_wp, wp_bind, upd_mrp_wp, wp_bind, wp_modify, wp_ret.
  apply HQ; [apply (HT1 (S n1))|]. right. exists gs, n. split_and!; [done..|].
  rewrite (assoc_L (++)), take_app_length' by (rewrite length_app, Hpre; done).
  unfold pdu, pre. by rewrite <- !(assoc_L (++)).
Qed.

(** ** Effects of the registrar for one attribute *)

Definition for_attribute (e : mrp_event) : Prop :=
  match e with
  | EVENT_NEW | EVENT_JOIN | EVENT_RNEW | EVENT_RJOININ | EVENT_RJOINMT | EVENT_LV
  | EVENT_RIN | EVENT_RMT | EVENT_RLV => True
  | _ => False
  end.

Record registrar_effect (e : mrp_event) (x x' : mvrp_attribute) (db db' : mrp_database) : Prop := {
  re_attribute : attribute x' = attribute x;
  re_core : core x' = (app_state (applicant x), reg_next (as_registrar e) (reg_state (registrar x)));
  re_ok : attr_ok x -> attr_ok x';
  re_armed : armed db';
  re_config : same_config db db';
  re_join : join_timer_running db' = join_timer_running db;
  re_mono : lv_timer_running db = true -> lv_timer_running db' = true;
  re_guarded : guarded db' x'
}.

Lemma registrar_event_effect e e' x db :
  armed db -> guarded db x ->
  reg_next e' (reg_state (registrar x)) = reg_next (as_registrar e) (reg_state (registrar x)) ->
  registrar_effect e x (registrar_event E e' x db).1 db (registrar_event E e' x db).2.
Proof using HT.
  intros Hdb Hg He. pose proof (registrar_event_spec e' x db Hdb Hg) as (?&?&?&?&?&?).
  rewrite registrar_event_fst. constructor; try done; [|by apply attr_ok_reg].
  by rewrite reg_attr_core, He.
Qed.

Lemma attribute_registrar_effect e x db :
  for_attribute e -> armed db -> guarded db x ->
  registrar_effect e x (attribute_registrar E e x db).1 db (attribute_registrar E e x db).2.
Proof using HT.
  intros He Hdb Hg. unfold attribute_registrar.
  destruct e; try done; try (apply registrar_event_effect; done).
  - pose proof (registrar_event_effect EVENT_NEW EVENT_BEGIN x db Hdb Hg eq_refl) as Hr.
    destruct (registrar_event E EVENT_BEGIN x db) as [x' db']. cbn in *. destruct Hr.
    constructor; try done; intros Hok; by apply attr_ok_notify, re_ok0.
  - case_decide; by apply registrar_event_effect.
Qed.

(** ** The events *)

Record evented (e : mrp_event) (vid : option Z) (m m' : mvrp_database) : Prop := {
  ev_inv : Inv0 m';
  ev_table : table (attrib_list m') = spec_event p2pmac e vid (table (attrib_list m));
  ev_config : same_config (mrp_db m) (mrp_db m');
  ev_restless : e <> EVENT_LVATIMER -> restless m -> restless m';
  ev_flag : send_empty_LeaveAll_flag m' = send_empty_LeaveAll_flag m
}.

Lemma restless_running m : join_timer_running (mrp_db m) = true -> restless m.
Proof using. intros H. by apply Forall_true. Qed.

Lemma Inv0_fmap f m db :
  (forall x, attribute (f x) = attribute x) -> (forall x, attr_ok x -> attr_ok (f x)) ->
  Inv0 m -> armed db -> Forall (guarded db) (f <$> attrib_list m) ->
  Inv0 (set_attrib_list (f <$> attrib_list m) (set_mrp_db db m)).
Proof using.
  intros Hf Hok [Hs Ha _ _] Hdb Hg. constructor; try done; [by apply sorted_fmap|].
  apply Forall_fmap. eapply Forall_impl; [exact Ha|]. intros x Hx. by apply Hok.
Qed.

Lemma guarded_app e l db :
  Forall (guarded db) l -> Forall (guarded db) (applicant_event p2pmac e <$> l).
Proof using. intros H. by apply Forall_fmap. Qed.

(** After a transmission the invariant holds with the marks cleared. *)
Lemma Inv0_transmitted m m' :
  Inv0 m -> transmitted m m' ->
  Inv0 m' /\ table (attrib_list m') = table (attrib_list m) /\ same_config (mrp_db m) (mrp_db m') /\
  join_timer_running (mrp_db m') = join_timer_running (mrp_db m) /\
  send_empty_LeaveAll_flag m' = send_empty_LeaveAll_flag m /\
  (forall P : entry -> Prop, Forall (fun x => P (core x)) (attrib_list m) ->
                             Forall (fun x => P (core x)) (attrib_list m')).
Proof using.
  intros [Hs Ha [] Hl] (l'&t&n&->&Hc). destruct (cleared_inv _ _ Hc) as (Hat&Htb&Hok&_&HP).
  split_and!; try done. constructor; try done.
  - unfold sorted. cbn. by rewrite Hat.
  - by apply Hok.
  - apply (HP (fun p => p.2 = LV -> lv_timer_running (mrp_db m) = true)). done.
Qed.

Lemma event_rla_wp m fr ms Q :
  Inv0 m -> (forall m', evented EVENT_RLA None m m' -> Q tt (at_db m' fr ms)) ->
  safe (event_rla E p2pmac) Q (at_db m fr ms).
Proof using HT HR.
  intros HI HQ. pose proof HI as [Hs Ha Hdb Hl].
  pose proof (jointimer_start_spec E HT _ Hdb) as Hj. apply wp_bind, upd_mrp_wp.
  destruct (mrp_jointimer_start E (mrp_db m)) as [rc db1]. destruct Hj as (_&Hj&Hdb1&Hc1&Hlv1&_).
  apply wp_bind, upd_db_wp. cbn [attrib_list mrp_db set_mrp_db snd].
  destruct (for_both_spec EVENT_RLA (attrib_list m) db1 Hdb1) as (db2&->&Hdb2&Hc2&Hj2&_&_&Hg2).
  { eapply guarded_mono; [|exact Hl]. by rewrite Hlv1. }
  apply upd_mrp_wp. cbn [attrib_list mrp_db set_mrp_db set_attrib_list send_empty_LeaveAll_flag].
  pose proof (lvatimer_fsm_spec E HT HR db2 EVENT_RLA Hdb2 ltac:(auto)) as H3.
  destruct (mrp_lvatimer_fsm E db2 EVENT_RLA) as [rc3 db3]. destruct H3 as (_&_&Hdb3&Hc3&Hj3&Hlv3&_).
  apply HQ. constructor.
  - apply Inv0_fmap; try done; [intros x Hx; by apply attr_ok_reg, attr_ok_app|].
    eapply guarded_mono; [|exact Hg2]. cbn. by rewrite Hlv3.
  - cbn. apply table_fmap; [done|]. intros x. apply both_attr_core.
  - etrans; [exact Hc1|]. by etrans.
  - intros _ _. apply restless_running. cbn. congruence.
  - done.
Qed.

Lemma tx_anxious x :
  anxious (app_state (applicant (applicant_event p2pmac EVENT_TX x))) = true ->
  mrp_applicant_state_transition_implies_tx (applicant (applicant_event p2pmac EVENT_TX x)) = 1.
Proof using.
  unfold applicant_event, mrp_applicant_fsm, mrp_applicant_state_transition_implies_tx. cbn.
  destruct (app_state (applicant x)); cbn; try done. by destruct (mrp_registrar_in _).
Qed.

Lemma event_tx_wp m fr ms Q :
  Inv0 m ->
  (forall m' fr', evented EVENT_TX None m m' ->
     (exists m1, attrib_list m1 = applicant_event p2pmac EVENT_TX <$> attrib_list m /\
        lva (mrp_db m1) = lva (mrp_db m) /\
        send_empty_LeaveAll_flag m1 = send_empty_LeaveAll_flag m /\
        sent_pdu m1 m' fr fr') -> Q tt (at_db m' fr' ms)) ->
  safe (event_tx E p2pmac STATION_ADDR) Q (at_db m fr ms).
Proof using HT Hst.
  intros HI HQ. pose proof HI as [Hs Ha Hdb Hl].
  pose proof (jointimer_stop_spec E HT _ Hdb) as Hj. apply wp_bind, upd_mrp_wp.
  destruct (mrp_jointimer_stop E (mrp_db m)) as [rc db1]. destruct Hj as (Hj&Hdb1&Hc1&Hlv1&Hv1).
  apply wp_bind, upd_db_wp. cbn [attrib_list mrp_db set_mrp_db snd]. rewrite for_pure.
  apply wp_bind, the_db_wp, wp_bind. set (m1 := set_attrib_list _ _).
  assert (HI1 : Inv0 m1).
  { apply (Inv0_fmap _ m); try done; [intros x; apply attr_ok_app|]. apply guarded_app.
    eapply guarded_mono; [|exact Hl]. by rewrite Hlv1. }
  assert (Ht1 : table (attrib_list m1) = spec_event p2pmac EVENT_TX None (table (attrib_list m))).
  { apply table_fmap; [done|]. intros x. by rewrite applicant_event_core. }
  apply txpdu_wp. { eapply Forall_impl; [apply HI1|]. by intros x (?&?&?&?). }
  intros z m2 fr' Htr Hsent. destruct (Inv0_transmitted _ _ HI1 Htr) as (HI2&Ht2&Hc2&Hj2&Hf2&HP).
  destruct (Z.eqb_spec (tx_count (attrib_list m1)) 0) as [Hz|Hz].
  - apply wp_ret, HQ; [|by exists m1]. constructor; [done|by rewrite Ht2|by etrans| |done].
    intros _ _. unfold restless.
    eapply (HP (fun p => anxious p.1 = true -> join_timer_running (mrp_db m2) = true)).
    apply Forall_forall. intros x Hx Hax. exfalso.
    pose proof (proj1 (Forall_forall _ _) (tx_count_zero _ Hz) x Hx) as Hx0. cbn beta in Hx0.
    apply list_elem_of_fmap in Hx as (y&->&_). apply tx_anxious in Hax. lia.
  - apply upd_mrp_wp. pose proof (jointimer_start_spec E HT _ (inv_armed _ HI2)) as H3.
    destruct (mrp_jointimer_start E (mrp_db m2)) as [rc3 db3]. destruct H3 as (_&Hj3&Hdb3&Hc3&Hlv3&_).
    apply HQ; [|exists m1; split_and!; [done..|]].
    + constructor; [|etrans; [exact Ht2|exact Ht1]|by etrans; [|etrans]|intros _ _; by apply restless_running|done].
      destruct HI2. constructor; try done. eapply guarded_mono; [|done]. cbn. by rewrite Hlv3.
    + destruct Hsent as [?|?]; [by left|by right].
Qed.

Lemma event_periodic_wp m fr ms Q :
  Inv0 m -> (forall m', evented EVENT_PERIODIC None m m' -> Q tt (at_db m' fr ms)) ->
  safe (event_periodic E p2pmac) Q (at_db m fr ms).
Proof using HT.
  intros HI HQ. pose proof HI as [Hs Ha Hdb Hl]. apply wp_bind, the_db_wp.
  assert (Hend : forall db, armed db -> same_config (mrp_db m) db ->
    (lv_timer_running db = lv_timer_running (mrp_db m)) ->
    (attrib_list m = [] \/ join_timer_running db = true) ->
    safe (run_attribs (fun x db => (applicant_event p2pmac EVENT_PERIODIC x, db))) Q
      (at_db (set_mrp_db db m) fr ms)).
  { intros db Hdb1 Hc1 Hlv1 Hj. apply upd_db_wp. cbn [attrib_list mrp_db set_mrp_db]. rewrite for_pure.
    apply HQ. constructor; try done.
    - apply (Inv0_fmap _ m); try done; [intros x; apply attr_ok_app|]. apply guarded_app.
      eapply guarded_mono; [|exact Hl]. by rewrite Hlv1.
    - apply table_fmap; [done|]. intros x. by rewrite applicant_event_core.
    - intros _ _. destruct Hj as [Hj|Hj]; [|by apply restless_running].
      unfold restless. cbn. rewrite Hj. constructor. }
  destruct (attrib_list m) as [|x l] eqn:Hlist.
  - apply wp_bind, wp_ret. replace m with (set_mrp_db (mrp_db m) m) by (by destruct m).
    apply Hend; try done. by left.
  - apply wp_bind, upd_mrp_wp. pose proof (jointimer_start_spec E HT _ Hdb) as Hj.
    destruct (mrp_jointimer_start E (mrp_db m)) as [rc db1]. destruct Hj as (_&Hj&Hdb1&Hc1&Hlv1&_).
    apply Hend; auto.
Qed.

Lemma event_lvtimer_wp m fr ms Q :
  Inv0 m -> (forall m' ms', evented EVENT_LVTIMER None m m' -> Q tt (at_db m' fr ms')) ->
  safe (event_lvtimer E) Q (at_db m fr ms).
Proof using HT.
  intros HI HQ. pose proof HI as [Hs Ha Hdb Hl].
  pose proof (lvtimer_stop_spec E HT _ Hdb) as H1. apply wp_bind, upd_mrp_wp.
  destruct (mrp_lvtimer_stop E (mrp_db m)) as [rc db1]. destruct H1 as (Hdb1&Hc1&Hj1&_).
  apply wp_bind, the_db_wp. cbn [attrib_list set_mrp_db snd].
  apply (lvtimer_loop_wp _ []); [done..|]. intros m' ms' Hm'. cbn [app] in Hm'. apply HQ.
  assert (Hlv : forall x x', lv_step x = Some x' -> x' = reg_attr E EVENT_LVTIMER x).
  { unfold lv_step. intros x x'. case_match; congruence. }
  assert (Hat : forall x x', lv_step x = Some x' -> attribute x' = attribute x) by (by intros x x' ->%Hlv).
  assert (Hin : forall P : mvrp_attribute -> Prop,
    (forall x, x ∈ attrib_list m -> P (reg_attr E EVENT_LVTIMER x)) ->
    Forall P (omap lv_step (attrib_list m))).
  { intros P HP. apply Forall_forall. intros x' (x&Hx&->%Hlv)%list_elem_of_omap. by apply HP. }
  constructor.
  - apply (Inv0_later _ _ Hm'). constructor; cbn; try done; [by apply sorted_omap|..]; apply Hin.
    + intros x Hx. apply attr_ok_reg. by eapply Forall_forall in Ha.
    + intros x Hx HLV. pose proof (f_equal snd (reg_attr_core E EVENT_LVTIMER x)) as Hc. cbn in Hc.
      cbn in HLV. rewrite HLV in Hc. by destruct (reg_state (registrar x)).
  - destruct Hm' as [n ->]. apply map_eq. intros v. cbn [attrib_list set_mrp_db set_attrib_list spec_event].
    rewrite lookup_omap, !table_lookup, lookup_list_omap by done.
    destruct (mvrp_lookup v (attrib_list m)) as [x|]; cbn [mbind option_bind fmap option_fmap option_map]; [|done].
    unfold lv_step, keep. rewrite reclaimable_idle, reg_attr_core. cbn [core fst snd].
    destruct (idle _); [done|]. cbn. by rewrite reg_attr_core.
  - destruct Hm' as [n ->]. by destruct Hc1.
  - intros _ Hrl. apply (restless_later _ _ Hm'). unfold restless. cbn. apply Hin. intros x Hx Hax. cbn in *.
    rewrite Hj1. eapply Forall_forall in Hrl; [|done]. auto.
  - by destruct Hm' as [n ->].
Qed.

Lemma armed_set_lva t db : armed db -> armed (set_lva t db).
Proof using. by intros []; constructor. Qed.

(** The timers after the first steps of a LeaveAll. *)
Lemma lva_timers db :
  armed db ->
  let db1 := (mrp_jointimer_stop E (mrp_lvatimer_stop E db).2).2 in
  armed db1 /\ same_config db db1 /\ lv_timer_running db1 = lv_timer_running db.
Proof using HT.
  intros Hdb. pose proof (lvatimer_stop_spec E HT db Hdb) as H1.
  destruct (mrp_lvatimer_stop E db) as [rc1 db1]. destruct H1 as (_&Hdb1&Hc1&_&Hlv1).
  pose proof (jointimer_stop_spec E HT db1 Hdb1) as H2. cbn [snd].
  destruct (mrp_jointimer_stop E db1) as [rc2 db2]. destruct H2 as (_&Hdb2&Hc2&Hlv2&_).
  cbn [snd]. split_and!; [done|by etrans|congruence].
Qed.

Lemma event_lvatimer_wp m fr ms Q :
  Inv0 m -> send_empty_LeaveAll_flag m = false ->
  (forall m' fr', evented EVENT_LVATIMER None m m' ->
     (fr' = fr \/ exists gs, Forall run gs /\ fr' = fr ++ [pdu true gs]) -> Q tt (at_db m' fr' ms)) ->
  safe (event_lvatimer E p2pmac STATION_ADDR) Q (at_db m fr ms).
Proof using HT HR Hst.
  intros HI Hflag HQ. pose proof HI as [Hs Ha Hdb Hl].
  pose proof (lva_timers _ Hdb) as H1. apply wp_bind, upd_mrp_wp, wp_bind, upd_mrp_wp.
  cbn [attrib_list mrp_db set_mrp_db]. set (db1 := (mrp_jointimer_stop _ _).2) in *.
  destruct H1 as (Hdb1&Hc1&Hlv1). clearbody db1.
  apply wp_bind, upd_db_wp. cbn [attrib_list mrp_db set_mrp_db].
  destruct (for_both_spec EVENT_TXLA (attrib_list m) db1 Hdb1) as (db2&->&Hdb2&Hc2&_&_&_&Hg2).
  { eapply guarded_mono; [|exact Hl]. by rewrite Hlv1. }
  apply wp_bind, upd_mrp_wp, wp_bind, upd_db_wp, wp_bind, upd_mrp_wp, wp_bind.
  cbn [attrib_list mrp_db set_mrp_db set_attrib_list set_send_empty send_empty_LeaveAll_flag].
  pose proof (lvatimer_fsm_spec E HT HR db2 EVENT_LVATIMER Hdb2 ltac:(auto)) as H3.
  destruct (mrp_lvatimer_fsm E db2 EVENT_LVATIMER) as [rc3 db3].
  destruct H3 as (_&_&Hdb3&Hc3&_&Hlv3&Hla). cbn [snd]. unfold mrp_lvatimer_fsm. rewrite Hla. cbn [lva_state snd].
  set (m1 := set_mrp_db _ _).
  assert (HI1 : Inv0 m1).
  { destruct HI. constructor; [by apply sorted_fmap|..|by apply armed_set_lva|].
    - apply Forall_fmap. eapply Forall_impl; [exact Ha|]. intros x Hx. by apply attr_ok_reg, attr_ok_app.
    - eapply guarded_mono; [|exact Hg2]. cbn. by rewrite Hlv3. }
  apply txpdu_wp. { eapply Forall_impl; [apply HI1|]. by intros x (?&?&?&?). }
  intros z m2 fr' Htr Hsent. destruct (Inv0_transmitted _ _ HI1 Htr) as (HI2&Ht2&Hc2'&_&_&_).
  apply upd_db_wp, HQ.
  - constructor; try done.
    + by destruct HI2.
    + etrans; [exact Ht2|]. apply table_fmap; [done|]. intros x. apply both_attr_core.
    + etrans; [exact Hc1|]. etrans; [exact Hc2|]. etrans; [exact Hc3|]. exact Hc2'.
  - destruct Hsent as [[-> _]|(gs&n&Hmsg&_&->)]; [by left|right]. exists gs. split; [|done]. by destruct Hmsg.
Qed.

(** ** Events for one attribute *)

(** The attribute that carries the event: the one found, with its address updated, or
    the new one. *)
Definition carried (l : list mvrp_attribute) (r : mvrp_attribute) : list mvrp_attribute :=
  match mvrp_lookup (attribute r) l with
  | None => mvrp_add r l
  | Some _ => snd (mvrp_merge r l)
  end.

Lemma carrier l r :
  sorted l -> Forall attr_ok l -> attr_ok r ->
  exists A x B, carried l r = A ++ x :: B /\ sorted (A ++ x :: B) /\ Forall attr_ok (A ++ x :: B) /\
    attribute x = attribute r /\ core x = default (core r) (table l !! attribute r) /\
    (forall P : entry -> Prop, Forall (fun y => P (core y)) l -> P (core r) ->
       Forall (fun y => P (core y)) (A ++ x :: B)) /\
    delete (attribute r) (table l) = table (A ++ B).
Proof using.
  intros Hs Ha Hr. unfold carried. rewrite table_lookup.
  destruct (mvrp_lookup (attribute r) l) as [y|] eqn:Hl; cbn [fmap option_fmap option_map default].
  - destruct (lookup_attribute _ _ _ Hl) as [Hy _].
    unfold mvrp_merge. rewrite Hl. cbn [snd]. set (f := set_macaddr _).
    destruct (at_vid_eq _ f _ _ Hl) as (A&B&->&->&_). exists A, (f y), B.
    pose proof (sorted_replace A y (f y) B eq_refl Hs) as Hs'.
    apply Forall_app in Ha as [HA [Hoky HB]%Forall_cons].
    split_and!; try done.
    + apply Forall_app. split; [done|]. constructor; [|done]. destruct Hoky as (?&?&?&?), Hr as (?&?&?&?).
      split_and!; try done; by apply sendable_registrar.
    + intros P [HPA [HPy HPB]%Forall_cons]%Forall_app _. apply Forall_app. split; [done|]. by constructor.
    + rewrite table_middle, <- Hy by done. apply delete_insert_id. by eapply table_without.
  - destruct (mvrp_add_split r l Hs Hl) as (A&B&->&->&Hs'). exists A, r, B.
    apply Forall_app in Ha as [HA HB]. split_and!; try done.
    + apply Forall_app. split; [done|]. by constructor.
    + intros P [HPA HPB]%Forall_app HP. apply Forall_app. split; [done|]. by constructor.
    + apply delete_id. by rewrite table_lookup, Hl.
Qed.

(** An attribute as [mvrp_alloc] provides it. *)
Definition is_fresh (r : mvrp_attribute) : Prop := attr_ok r /\ core r = (VO, MT) /\ silent r.

Lemma attribute_entry_core e r x x' (t : gmap Z entry) :
  core r = (VO, MT) -> core x = default (core r) (t !! attribute r) ->
  core x' = (app_state (applicant (applicant_event p2pmac e x)),
             reg_next (as_registrar e) (reg_state (registrar x))) ->
  (t !! attribute r = None -> e <> EVENT_RMT) ->
  attribute_entry p2pmac e (t !! attribute r) = keep (core x').
Proof using.
  intros Hr Hx Hx' Hn. rewrite Hr in Hx. unfold attribute_entry.
  assert (He : (app_next p2pmac e (core x), reg_next (as_registrar e) (core x).2) = core x').
  { rewrite Hx'. by rewrite (f_equal fst (applicant_event_core p2pmac e x) : app_state _ = _). }
  rewrite Hx in He. destruct (t !! attribute r) as [p|]; cbn [default] in *; [by rewrite <- He|].
  destruct e; try (by rewrite <- He); by destruct (Hn eq_refl).
Qed.

(** The step on the carrier, once it is in the list. *)
Lemma attribute_step_wp e r t A x B db m fr ms (Q : bool -> mvrp_world -> Prop) :
  for_attribute e -> is_fresh r -> sorted (A ++ x :: B) -> Forall attr_ok (A ++ x :: B) ->
  attribute x = attribute r -> core x = default (core r) (t !! attribute r) ->
  delete (attribute r) t = table (A ++ B) -> (t !! attribute r = None -> e <> EVENT_RMT) ->
  armed db -> Forall (guarded db) (A ++ x :: B) -> attrib_list m = A ++ x :: B ->
  (forall b m' ms', Inv0 m' -> table (attrib_list m') = partial_alter (attribute_entry p2pmac e) (attribute r) t ->
     same_config db (mrp_db m') -> join_timer_running (mrp_db m') = join_timer_running db ->
     send_empty_LeaveAll_flag m' = send_empty_LeaveAll_flag m -> Q b (at_db m' fr ms')) ->
  let '(x', db') := attribute_registrar E e (applicant_event p2pmac e x) db in
  safe (upd_db (fun m => set_mrp_db db' (set_attrib_list (at_vid (attribute r) (fun _ => x') (attrib_list m)) m));;
        mvrp_conditional_reclaim E x') Q (at_db m fr ms).
Proof using HT.
  intros He (Hokr&Hcr&_) Hs Ha Hxr Hcx Hd Hn Hdb Hg Hm HQ.
  destruct (proj1 (Forall_app _ _ _) Ha) as [HaA [Hax HaB]%Forall_cons].
  destruct (proj1 (Forall_app _ _ _) Hg) as [HgA [Hgx HgB]%Forall_cons].
  pose proof (attribute_registrar_effect e (applicant_event p2pmac e x) db He Hdb Hgx) as Hre.
  destruct (attribute_registrar E e (applicant_event p2pmac e x) db) as [x' db']. cbn [fst snd] in Hre.
  destruct Hre as [Hat Hc Hok Hdb' Hcf Hj Hmono Hgx']. rewrite applicant_event_attribute in Hat.
  apply wp_bind, upd_db_wp, reclaim_wp. intros m' ms' Hlater.
  destruct (sorted_middle _ _ _ Hs) as [Hna _].
  cbn [attrib_list set_mrp_db set_attrib_list mrp_db] in Hlater.
  rewrite Hm, <- Hxr, at_vid_middle in Hlater by done.
  pose proof (sorted_replace A x x' B Hat Hs) as Hs'.
  replace (if reclaimable x' then _ else _) with
    (set_attrib_list (if reclaimable x' then A ++ B else A ++ x' :: B) (set_mrp_db db' m)) in Hlater.
  2:{ destruct (reclaimable x'); [|done]. by rewrite unlink_middle by (by rewrite Hat). }
  apply HQ.
  - apply (Inv0_later _ _ Hlater). specialize (Hok (attr_ok_app _ _ _ Hax)).
    destruct (reclaimable x'); constructor; cbn [attrib_list set_attrib_list mrp_db set_mrp_db]; try done;
      [by eapply sorted_delete|by apply Forall_app|..]; try (apply Forall_app; split; [done|by constructor]);
      apply Forall_app; (split; [by eapply guarded_mono|]); try constructor; try done; by eapply guarded_mono.
  - destruct Hlater as [n ->]. cbn [attrib_list set_attrib_list mrp_db set_mrp_db].
    rewrite (table_keep A x' B t) by (rewrite ?Hat, ?Hxr; done). rewrite Hat, Hxr.
    apply partial_alter_ext. intros o Ho. rewrite <- Ho. symmetry.
    by apply (attribute_entry_core e r x x' t).
  - by destruct Hlater as [n ->].
  - by destruct Hlater as [n ->].
  - by destruct Hlater as [n ->].
Qed.

Lemma Inv0_join m db :
  Inv0 m -> armed db -> lv_timer_running db = lv_timer_running (mrp_db m) -> Inv0 (set_mrp_db db m).
Proof using.
  intros [] Hdb Hlv. constructor; try done. eapply guarded_mono; [|done]. cbn. by rewrite Hlv.
Qed.

Lemma event_attribute_wp e ro m fr ms Q :
  for_attribute e -> Inv0 m -> (forall r, ro = Some r -> is_fresh r) ->
  (forall early m' ms', evented e (attribute <$> ro) m m' ->
     (early <> None -> attrib_list m' = attrib_list m) -> Q early (at_db m' fr ms')) ->
  safe (event_attribute E p2pmac e ro) Q (at_db m fr ms).
Proof using HT.
  intros He HI Hro HQ. pose proof HI as [Hs Ha Hdb Hl].
  pose proof (jointimer_start_spec E HT _ Hdb) as H1. apply wp_bind, upd_mrp_wp.
  destruct (mrp_jointimer_start E (mrp_db m)) as [rc db1]. destruct H1 as (_&Hj1&Hdb1&Hc1&Hlv1&_).
  cbn [snd]. pose proof (Inv0_join m db1 HI Hdb1 Hlv1) as HI1.
  assert (Hearly : forall z ms', spec_event p2pmac e (attribute <$> ro) (table (attrib_list m)) = table (attrib_list m) ->
    Q (Some z) (at_db (set_mrp_db db1 m) fr ms')).
  { intros z ms' Hsp. apply HQ; [|done]. constructor; try done. intros _ _. by apply restless_running. }
  destruct ro as [r|]; [|apply wp_ret, Hearly; by destruct e].
  specialize (Hro r eq_refl). pose proof Hro as (Hokr&Hcr&_).
  apply wp_bind, the_db_wp. cbn [attrib_list set_mrp_db].
  assert (Hrmt : mvrp_lookup (attribute r) (attrib_list m) = None -> e = EVENT_RMT ->
    safe (mret (Some 0)) Q (at_db (set_mrp_db db1 m) fr ms)).
  { intros Hnone ->. apply wp_ret, Hearly. cbn. apply map_eq. intros v.
    destruct (decide (v = attribute r)) as [->|Hv]; [|by rewrite lookup_partial_alter_ne].
    rewrite lookup_partial_alter_eq, table_lookup, Hnone. done. }
  assert (Hgo : (table (attrib_list m) !! attribute r = None -> e <> EVENT_RMT) ->
    safe (upd_db (fun m0 => set_attrib_list
            (match mvrp_lookup (attribute r) (attrib_list m) with
             | None => mvrp_add r (attrib_list m0)
             | Some _ => snd (mvrp_merge r (attrib_list m0))
             end) m0);;
          m ← the_db;
          match mvrp_lookup (attribute r) (attrib_list m) with
          | None => mret None
          | Some x =>
              let '(x', db) := attribute_registrar E e (applicant_event p2pmac e x) (mrp_db m) in
              upd_db (fun m => set_mrp_db db
                        (set_attrib_list (at_vid (attribute r) (fun _ => x') (attrib_list m)) m));;
              mvrp_conditional_reclaim E x';;
              mret None
          end) Q (at_db (set_mrp_db db1 m) fr ms)).
  { intros Hn. apply wp_bind, upd_db_wp, wp_bind, the_db_wp. cbn [attrib_list set_mrp_db set_attrib_list mrp_db].
    fold (carried (attrib_list m) r).
    destruct (carrier (attrib_list m) r Hs Ha Hokr) as (A&x&B&->&Hs1&Ha1&Hx&Hcx&HP&Hd).
    destruct (sorted_middle _ _ _ Hs1) as [Hna _].
    rewrite lookup_app, <- Hx, Hna. cbn [mvrp_lookup]. rewrite Z.eqb_refl, Hx.
    pose proof (attribute_step_wp e r (table (attrib_list m)) A x B db1
      (set_attrib_list (A ++ x :: B) (set_mrp_db db1 m)) fr ms
      (fun _ w => Q None w)) as Hstep.
    destruct (attribute_registrar E e (applicant_event p2pmac e x) db1) as [x' db'].
    apply wp_assoc, wp_bind, Hstep; try done.
    - eapply (HP (fun p => p.2 = LV -> lv_timer_running db1 = true)); [|by rewrite Hcr].
      rewrite Hlv1. exact Hl.
    - intros b m' ms' HI' Ht' Hc' Hj' Hf'. apply HQ; [|by intros []]. constructor; try done.
      + rewrite Ht'. by destruct e.
      + by etrans.
      + intros _ _. apply restless_running. congruence. }
  destruct (mvrp_lookup (attribute r) (attrib_list m)) as [y|] eqn:Hlk.
  - apply Hgo. rewrite table_lookup, Hlk. done.
  - destruct (decide (e = EVENT_RMT)) as [->|Hne]; [by apply Hrmt|].
    destruct e; try done; by apply Hgo.
Qed.

(** ** All events *)

(** What an event leaves behind. *)
Definition event_post (e : mrp_event) (vid : option Z) (m : mvrp_database) (w' : mvrp_world) : Prop :=
  exists m' fr' ms', w' = at_db m' fr' ms' /\ Inv m' /\
    table (attrib_list m') = spec_event p2pmac e vid (table (attrib_list m)) /\
    clients (mrp_db m') = clients (mrp_db m) /\
    (e <> EVENT_LVATIMER -> restless m -> restless m').

Lemma table_silenced l : table (set_notify NOTIFY_NONE <$> l) = table l.
Proof using. rewrite (table_fmap _ id) by done. by rewrite map_fmap_id. Qed.

Lemma finish_wp e vid m m1 fr ms :
  send_empty_LeaveAll_flag m = false -> evented e vid m m1 ->
  safe (m ← the_db; l ← notify_loop E (attrib_list m); upd_db (set_attrib_list l);; mret 0)
    (fun _ => event_post e vid m) (at_db m1 fr ms).
Proof using.
  intros Hf [HI Ht Hc Hr Hf1]. apply wp_bind, the_db_wp, wp_bind, notify_loop_wp.
  intros m2 ms2 [n ->]. apply wp_bind, upd_db_wp, wp_ret. eexists _, _, _. split_and!; [done| |..].
  - constructor; [|apply Forall_fmap, Forall_true; done|cbn; congruence].
    apply (Inv0_fmap _ m1); try done; [by apply armed_asked, HI|].
    apply Forall_fmap. by destruct HI.
  - cbn [attrib_list set_attrib_list]. by rewrite table_silenced.
  - by destruct Hc.
  - intros He Hr0. unfold restless. apply Forall_fmap. by apply Hr.
Qed.

Lemma mvrp_event_wp e ro m fr ms :
  Inv m -> (forall r, ro = Some r -> is_fresh r) ->
  safe (mvrp_event E p2pmac STATION_ADDR e ro) (fun _ => event_post e (attribute <$> ro) m)
    (at_db m fr ms).
Proof using HT HR Hst.
  intros [HI Hsil Hf] Hro. unfold mvrp_event. apply wp_bind.
  assert (Hrest : forall m1 fr1 ms1, evented e (attribute <$> ro) m m1 ->
    safe (m ← the_db; l ← notify_loop E (attrib_list m); upd_db (set_attrib_list l);; mret 0)
      (fun _ => event_post e (attribute <$> ro) m) (at_db m1 fr1 ms1)).
  { intros m1 fr1 ms1 Hev. by apply finish_wp. }
  assert (Hid : spec_event p2pmac e (attribute <$> ro) (table (attrib_list m)) = table (attrib_list m) ->
    evented e (attribute <$> ro) m m) by (by constructor).
  assert (Hspec : forall m1, (for_attribute e -> False) -> evented e None m m1 -> evented e (attribute <$> ro) m m1).
  { intros m1 Hn [? Ht ? ? ?]. constructor; try done. rewrite Ht. destruct e; try done; by destruct Hn. }
  assert (Hattr : for_attribute e -> safe (event_attribute E p2pmac e ro)
    (fun early => safe (match early with Some rc => mret rc | None =>
       m ← the_db; l ← notify_loop E (attrib_list m); upd_db (set_attrib_list l);; mret 0 end)
       (fun _ => event_post e (attribute <$> ro) m)) (at_db m fr ms)).
  { intros He. apply event_attribute_wp; [done..|]. intros [z|] m' ms' Hev Hl'; [|by apply Hrest].
    apply wp_ret. destruct Hev as [HI' Ht' Hc' Hr' Hf']. eexists _, _, _. split_and!; try done; [|by destruct Hc'].
    constructor; [done| |congruence]. by rewrite Hl'. }
  destruct e; try (by apply Hattr); try (by apply wp_ret, Hrest, Hid); apply wp_bind.
  - apply event_tx_wp; [done|]. intros m1 fr1 Hev _. by apply wp_ret, Hrest, Hspec.
  - apply event_rla_wp; [done|]. intros m1 Hev. by apply wp_ret, Hrest, Hspec.
  - apply event_periodic_wp; [done|]. intros m1 Hev. by apply wp_ret, Hrest, Hspec.
  - apply event_lvtimer_wp; [done|]. intros m1 ms1 Hev. by apply wp_ret, Hrest, Hspec.
  - apply event_lvatimer_wp; [done..|]. intros m1 fr1 Hev _. by apply wp_ret, Hrest, Hspec.
Qed.

End Events.
