(* ===== verification/MvrpRecv.v ===== *)
(** * MVRP: received PDUs

    [mvrp_recv_msg] is safe on every frame that leaves a few bytes of the receive
    buffer free, and applies the events of a well-formed PDU in order. *)

From S2P Require Import Prelude.
From S2P Require Import CText.
From S2P Require Import Mrp.
From S2P Require Import MrpTheory.
From S2P Require Import Mvrp.
From S2P Require Import MvrpTheory.
From S2P Require Import MvrpEmit.
From S2P Require Import MvrpEvent.

Open Scope Z_scope.
Local Abbreviation length := List.length.

(** ** What the values of a vector mean *)

(** The events of [evts] for consecutive VIDs from [vid] on; VIDs above 0xFFF are
    skipped. *)
Fixpoint rx_values (p2pmac : Z) (evts : list Z) (vid : Z) (t : gmap Z entry) : gmap Z entry * Z :=
  match evts with
  | [] => (t, vid)
  | v :: evts' =>
      if 0xFFF <? vid then rx_values p2pmac evts' vid t
      else
        let t' := match rx_event v with
                  | Some e => spec_event p2pmac e (Some vid) t
                  | None => t
                  end in
        rx_values p2pmac evts' (u16 (vid + 1)) t'
  end.

(** The same for packed bytes with [num] values. *)
Fixpoint rx_bytes (p2pmac : Z) (bs : list Z) (num vid : Z) (t : gmap Z entry) : gmap Z entry * Z :=
  match bs with
  | [] => (t, vid)
  | b :: bs' =>
      let n := if 3 <? num then 3 else num in
      let '(t', vid') := rx_values p2pmac (take (Z.to_nat n) (decode3 b)) vid t in
      rx_bytes p2pmac bs' (num - n) vid' t'
  end.

(** What reception preserves. *)
Definition stable (m m' : mvrp_database) : Prop :=
  Inv m' /\ clients (mrp_db m') = clients (mrp_db m) /\ (restless m -> restless m').

Lemma stable_trans m m' m'' : stable m m' -> stable m' m'' -> stable m m''.
Proof. intros (?&?&?) (?&?&?). split_and!; [done|congruence|auto]. Qed.

Lemma Inv_later m m' : later_db m m' -> Inv m -> stable m m' /\ attrib_list m' = attrib_list m.
Proof.
  intros Hl [HI Hs Hf]. pose proof (Inv0_later _ _ Hl HI). pose proof (restless_later _ _ Hl).
  destruct Hl as [n ->]. by split.
Qed.

Lemma rd_Ok buf off : (off < length buf)%nat -> exists b, rd buf off = Ok b /\ buf !! off = Some b.
Proof. intros [b Hb]%lookup_lt_is_Some_2. exists b. unfold rd. by rewrite Hb. Qed.

Lemma rx_event_attribute v e : rx_event v = Some e -> for_attribute e.
Proof. unfold rx_event. repeat case_match; by intros [= <-]. Qed.

Section Recv.
Context (E : Os) (p2pmac : Z) (STATION_ADDR : list Z).
Context (HT : timers_ok E) (HR : random_ok E) (Hst : length STATION_ADDR = 6%nat).

Lemma fresh_is_fresh vid src :
  0 <= vid <= 0xFFF -> bytes src -> length src = 6%nat ->
  is_fresh (set_macaddr src (mkAttrib vid (applicant fresh_attribute) (registrar fresh_attribute))).
Proof using.
  intros Hv Hb Hl. split; [split_and!; try done|done]; unfold is_u16; cbn; clear -Hv; lia.
Qed.

Lemma alloc_wp m fr ms Q :
  (forall m', later_db m m' -> Q (Some fresh_attribute) (at_db m' fr ms)) ->
  (forall m', later_db m m' -> (malloc_ok E -> False) -> Q None (at_db m' fr ms)) ->
  safe (mvrp_alloc E) Q (at_db m fr ms).
Proof using.
  intros Hs Hn. unfold mvrp_alloc, malloc. apply wp_bind, wp_bind, the_db_wp, wp_bind, upd_mrp_wp, wp_ret.
  assert (Hl : later_db m (set_mrp_db (step_os (mrp_db m)) m)) by (by exists (S (asked (mrp_db m)))).
  destruct (os_malloc E (asked (mrp_db m))) eqn:Hm; apply wp_ret; [by apply Hs|].
  apply Hn; [done|]. intros H. by rewrite H in Hm.
Qed.

(** Post-condition of the loops: [None] only without memory. *)
Definition reads (m : mvrp_database) (post : Z * gmap Z entry -> Prop) (r : option Z) (w : mvrp_world) : Prop :=
  exists m' fr' ms', w = at_db m' fr' ms' /\ stable m m' /\
    match r with
    | Some vid => post (vid, table (attrib_list m'))
    | None => malloc_ok E -> False
    end.

Lemma value_loop_wp src evts : forall vid m fr ms,
  Inv m -> bytes src -> length src = 6%nat -> is_u16 vid ->
  safe (value_loop E p2pmac STATION_ADDR src evts vid)
    (reads m (fun '(vid', t) => is_u16 vid' /\ (t, vid') = rx_values p2pmac evts vid (table (attrib_list m))))
    (at_db m fr ms).
Proof using HT HR Hst.
  induction evts as [|v evts IH]; intros vid m fr ms HI Hb Hl Hv; cbn [value_loop rx_values].
  { apply wp_ret. exists m, fr, ms. split_and!; try done. }
  destruct (Z.ltb_spec 0xFFF vid) as [Hgt|Hle]; [by apply IH|].
  apply wp_bind, alloc_wp; intros m1 Hl1; destruct (Inv_later _ _ Hl1 HI) as [Hst1 Heq1].
  2:{ intros Hnm. apply wp_ret. exists m1, fr, ms. split_and!; try done. }
  pose proof (fresh_is_fresh vid src ltac:(unfold is_u16 in Hv; lia) Hb Hl) as Hfresh.
  set (r := set_macaddr src _) in *.
  assert (Hnext : forall m2 fr2 ms2 t2, stable m m2 -> table (attrib_list m2) = t2 ->
    safe (value_loop E p2pmac STATION_ADDR src evts (u16 (vid + 1)))
      (reads m (fun '(vid', t) => is_u16 vid' /\ (t, vid') = rx_values p2pmac evts (u16 (vid + 1)) t2))
      (at_db m2 fr2 ms2)).
  { intros m2 fr2 ms2 t2 Hs2 <-. pose proof Hs2 as (HI2&_&_).
    eapply wp_mono; [apply IH; try done; apply u16_bound|].
    intros o w (m'&fr'&ms'&->&Hs'&Hpost). exists m', fr', ms'. split_and!; try done.
    by eapply stable_trans. }
  apply wp_bind. destruct (rx_event v) as [e|] eqn:He.
  - apply wp_bind. eapply wp_mono; [apply (mvrp_event_wp E p2pmac STATION_ADDR HT HR Hst)|].
    + apply Hst1.
    + intros r' [= <-]. exact Hfresh.
    + intros z w (m2&fr2&ms2&->&HI2&Ht2&Hc2&Hr2). apply wp_ret, Hnext; [|by rewrite Ht2, Heq1].
      eapply stable_trans; [exact Hst1|]. split_and!; try done. apply Hr2.
      apply rx_event_attribute in He. by intros ->.
  - apply wp_ret, Hnext; [done|by rewrite Heq1].
Qed.

Lemma byte_loop_wp n buf src : forall off num vid m fr ms,
  Inv m -> bytes src -> length src = 6%nat -> is_u16 vid -> (off + n <= length buf)%nat ->
  safe (byte_loop E p2pmac STATION_ADDR n buf src off num vid)
    (reads m (fun '(vid', t) => is_u16 vid' /\
       (t, vid') = rx_bytes p2pmac (take n (drop off buf)) num vid (table (attrib_list m))))
    (at_db m fr ms).
Proof using HT HR Hst.
  induction n as [|n IH]; intros off num vid m fr ms HI Hb Hl Hv Hoff; cbn [byte_loop].
  { apply wp_ret. exists m, fr, ms. split_and!; try done. }
  destruct (rd_Ok buf off ltac:(lia)) as (b&Hrd&Hlk). apply wp_bind. eapply wp_lift; [done|].
  set (k := if 3 <? num then 3 else num). apply wp_bind. eapply wp_mono; [by apply value_loop_wp|].
  intros r w (m1&fr1&ms1&->&Hs1&Hr1). destruct r as [vid1|]; [|apply wp_ret; by exists m1, fr1, ms1].
  destruct Hr1 as [Hv1 Ht1]. pose proof Hs1 as (HI1&_&_).
  eapply wp_mono; [apply IH; try done; lia|]. intros o w (m2&fr2&ms2&->&Hs2&Hr2).
  exists m2, fr2, ms2. split_and!; [done|by eapply stable_trans|]. destruct o as [vid2|]; [|done].
  rewrite (drop_S buf b off Hlk). cbn [take rx_bytes]. fold k. by rewrite <- Ht1.
Qed.

(** ** Safety on arbitrary frames *)

Lemma numvalues_mod x : MRPDU_VECT_NUMVALUES x = x mod 2 ^ 13.
Proof using. by apply land_mask. Qed.

Lemma rla_wp m fr ms :
  Inv m ->
  safe (mvrp_event E p2pmac STATION_ADDR EVENT_RLA None)
    (fun _ w => exists m' fr' ms', w = at_db m' fr' ms' /\ stable m m' /\
       table (attrib_list m') = spec_event p2pmac EVENT_RLA None (table (attrib_list m))) (at_db m fr ms).
Proof using HT HR Hst.
  intros HI. eapply wp_mono; [by apply (mvrp_event_wp E p2pmac STATION_ADDR HT HR Hst)|].
  intros z w (m'&fr'&ms'&->&HI'&Ht'&Hc'&Hr'). exists m', fr', ms'. split; [done|]. split; [|done]. split_and!; [done..|by apply Hr'].
Qed.

Section Safety.
Context (buf src : list Z) (eof : nat).
Context (Hbuf : bytes buf) (Hsrc : bytes src) (Hls : length src = 6%nat).
Context (Heof : (eof + 4 <= length buf)%nat).
Context (Hzero : forall i, (eof <= i < length buf)%nat -> buf !! i = Some 0).

Lemma byte_at i b : buf !! i = Some b -> is_u8 b.
Proof using Hbuf. intros H. by eapply Forall_lookup in H. Qed.

Lemma vid_u16 f0 f1 : is_u8 f0 -> is_u8 f1 -> is_u16 (Z.lor (Z.shiftl f0 8) f1).
Proof using.
  unfold is_u8, is_u16. intros H0 H1. rewrite lor_shiftl_add by (clear -H1; lia). clear -H0 H1. lia.
Qed.

(** The vectors end before the last two bytes of the buffer. *)
Lemma vector_fits v num n :
  (v < eof)%nat -> 0 <= num -> ~ (eof <= v + 2 + Z.to_nat (num / 3))%nat ->
  n = (if negb (num =? num / 3 * 3) then num / 3 + 1 else num / 3) ->
  0 <= n /\ (v + 4 + (Z.to_nat n + 1) <= length buf)%nat /\ (v + 4 + Z.to_nat n + 1 < length buf)%nat.
Proof using Heof.
  intros Hv Hn Hlt ->. assert (0 <= num / 3) by (by apply Z.div_pos). clear -Heof Hv Hlt H.
  destruct (negb _); split_and!; lia.
Qed.

Lemma one_vector_safe v header m fr ms :
  Inv m -> (v < eof)%nat ->
  safe (one_vector E p2pmac STATION_ADDR buf src eof v header)
    (fun r w => exists m' fr' ms', w = at_db m' fr' ms' /\ stable m m' /\
       match r with Some v' => (v + 4 <= v' /\ v' + 1 < length buf)%nat | None => True end) (at_db m fr ms).
Proof using All.
  intros HI Hve. unfold one_vector. set (num := MRPDU_VECT_NUMVALUES header).
  assert (Hs : stable m m) by (by split_and!).
  assert (Hnum : 0 <= num) by (unfold num; rewrite numvalues_mod; by apply Z.mod_pos_bound).
  destruct (num =? 0); [apply wp_ret; by exists m, fr, ms|].
  destruct (Nat.leb_spec eof (v + 2 + Z.to_nat (num / 3))) as [|Hlt]; [apply wp_ret; by exists m, fr, ms|].
  destruct (rd_Ok buf (v + 2) ltac:(lia)) as (f0&Hrf0&Hf0), (rd_Ok buf (v + 3) ltac:(lia)) as (f1&Hrf1&Hf1).
  apply wp_bind; eapply wp_lift; [exact Hrf0|]. apply wp_bind; eapply wp_lift; [exact Hrf1|].
  cbv zeta. set (n := if negb _ then _ else _).
  destruct (vector_fits v num n Hve Hnum ltac:(lia) eq_refl) as (Hn0&Hn1&Hn2). clearbody n.
  apply wp_bind. eapply wp_mono; [apply byte_loop_wp; try done|].
  { apply vid_u16; by eapply byte_at. }
  intros r w (m2&fr2&ms2&->&Hs2&_). apply wp_ret. exists m2, fr2, ms2. split_and!; [done..|].
  destruct r; [lia|done].
Qed.

Lemma vector_loop_safe fuel : forall v saw m fr ms,
  Inv m -> (v + 1 < length buf)%nat -> (length buf < v + fuel)%nat ->
  safe (vector_loop E p2pmac STATION_ADDR fuel buf src eof v saw)
    (fun r w => exists m' fr' ms', w = at_db m' fr' ms' /\ stable m m' /\
       match r with Some (v', _) => (v <= v')%nat | None => True end) (at_db m fr ms).
Proof using All.
  induction fuel as [|fuel IH]; intros v saw m fr ms HI Hv Hf; [lia|]. cbn [vector_loop].
  destruct (rd_Ok buf v ltac:(lia)) as (b0&Hr0&Hb0), (rd_Ok buf (v + 1) ltac:(lia)) as (b1&Hr1&Hb1).
  apply wp_bind; eapply wp_lift; [exact Hr0|]. apply wp_bind; eapply wp_lift; [exact Hr1|].
  destruct ((b0 =? 0) && (b1 =? 0)) eqn:Hz.
  { apply wp_ret. exists m, fr, ms. split_and!; [done|by split_and!|lia]. }
  assert (Hve : (v < eof)%nat).
  { destruct (Nat.lt_ge_cases v eof); [done|]. rewrite Hzero in Hb0, Hb1 by lia. naive_solver. }
  set (header := be_val [b0; b1]). cbv zeta. apply wp_bind.
  assert (Hgo : forall saw m1 fr1 ms1, stable m m1 ->
    safe (r ← one_vector E p2pmac STATION_ADDR buf src eof v header;
          match r with
          | None => mret None
          | Some v' => vector_loop E p2pmac STATION_ADDR fuel buf src eof v' saw
          end)
      (fun r w => exists m' fr' ms', w = at_db m' fr' ms' /\ stable m m' /\
         match r with Some (v', _) => (v <= v')%nat | None => True end) (at_db m1 fr1 ms1)).
  { intros saw' m1 fr1 ms1 Hs1. pose proof Hs1 as (HI1&_&_).
    apply wp_bind. eapply wp_mono; [by apply one_vector_safe|].
    intros r w (m2&fr2&ms2&->&Hs2&Hr). pose proof (stable_trans _ _ _ Hs1 Hs2) as Hs12.
    destruct r as [v'|]; [|apply wp_ret; by exists m2, fr2, ms2].
    eapply wp_mono; [apply IH; [by destruct Hs2|lia..]|].
    intros o w (m3&fr3&ms3&->&Hs3&Ho). exists m3, fr3, ms3.
    split_and!; [done|by eapply stable_trans|]. destruct o as [[v'' ?]|]; [lia|done]. }
  destruct (MRPDU_VECT_LVA header && negb saw).
  - apply wp_bind. eapply wp_mono; [by apply rla_wp|].
    intros z w (m1&fr1&ms1&->&Hs1&_). apply wp_ret. by apply Hgo.
  - apply wp_ret. apply Hgo. by split_and!.
Qed.

Lemma message_loop_safe fuel : forall ptr endmarks saw m fr ms,
  Inv m -> (ETH_HDR < length buf)%nat -> (eof - ptr < fuel)%nat ->
  safe (message_loop E p2pmac STATION_ADDR fuel buf src eof ptr endmarks saw)
    (fun _ w => exists m' fr' ms', w = at_db m' fr' ms' /\ stable m m') (at_db m fr ms).
Proof using All.
  induction fuel as [|fuel IH]; intros ptr endmarks saw m fr ms HI Heth Hf; [lia|]. cbn [message_loop].
  assert (Hs : stable m m) by (by split_and!).
  destruct (Nat.ltb_spec (ptr + 2) eof) as [Hp|_]; [|apply wp_ret; by exists m, fr, ms].
  destruct (rd_Ok buf ptr ltac:(lia)) as (ty&Hr0&_), (rd_Ok buf (ptr + 1) ltac:(lia)) as (len&Hr1&Hlen).
  apply wp_bind; eapply wp_lift; [exact Hr0|]. apply wp_bind; eapply wp_lift; [exact Hr1|].
  destruct ((ty =? 0) && (len =? 0)).
  { destruct (endmarks + 1 <? 2); [apply IH; [done..|lia]|apply wp_ret; by exists m, fr, ms]. }
  destruct (ty =? MVRP_VID_TYPE).
  { destruct (negb (len =? 2)); [apply wp_ret; by exists m, fr, ms|].
    apply wp_bind. eapply wp_mono; [apply vector_loop_safe; [done|lia..]|].
    intros r w (m1&fr1&ms1&->&Hs1&Hr). destruct r as [[ptr' saw']|]; [|apply wp_ret; by exists m1, fr1, ms1].
    eapply wp_mono; [apply IH; [by destruct Hs1|done|lia]|].
    intros o w (m2&fr2&ms2&->&Hs2). exists m2, fr2, ms2. split; [done|by eapply stable_trans]. }
  destruct (rd_Ok buf ETH_HDR Heth) as (ver&Hrv&_). apply wp_bind; eapply wp_lift; [exact Hrv|].
  destruct (ver =? MVRP_PROT_VER); [apply wp_ret; by exists m, fr, ms|].
  destruct (rd_Ok buf (ptr + 2) ltac:(lia)) as (h0&Hh0&_), (rd_Ok buf (ptr + 3) ltac:(lia)) as (h1&Hh1&_).
  apply wp_bind; eapply wp_lift; [exact Hh0|]. apply wp_bind; eapply wp_lift; [exact Hh1|].
  apply IH; [done..|lia].
Qed.

End Safety.

(** The sockets deliver frames of at most 1514 bytes; anything up to four bytes short
    of the receive buffer is parsed without leaving the buffer. *)
Lemma mvrp_recv_msg_wp frame m fr ms :
  Inv m -> bytes frame -> (length frame + 4 <= MAX_FRAME_SIZE)%nat ->
  safe (mvrp_recv_msg E p2pmac STATION_ADDR frame)
    (fun _ w => exists m' fr' ms', w = at_db m' fr' ms' /\ stable m m') (at_db m fr ms).
Proof using All.
  intros HI Hb Hl. unfold mvrp_recv_msg. set (buf := frame ++ _).
  assert (Hlb : length buf = MAX_FRAME_SIZE).
  { unfold buf. rewrite length_app, length_replicate. lia. }
  assert (Hs : stable m m) by (by split_and!).
  destruct (length frame <=? 0)%nat; [apply wp_ret; by exists m, fr, ms|].
  destruct (length frame <? ETH_HDR + 1 + 2)%nat; [apply wp_ret; by exists m, fr, ms|].
  apply wp_bind. eapply wp_lift; [apply read_bytes_Ok; rewrite Hlb; unfold MAX_FRAME_SIZE; lia|].
  destruct (negb (be_val _ =? MVRP_ETYPE)); [apply wp_ret; by exists m, fr, ms|].
  apply wp_bind. eapply wp_lift; [apply read_bytes_Ok; rewrite Hlb; unfold MAX_FRAME_SIZE; lia|].
  destruct (negb (bool_decide _)); [apply wp_ret; by exists m, fr, ms|].
  apply wp_bind. eapply wp_lift; [apply read_bytes_Ok; rewrite Hlb; unfold MAX_FRAME_SIZE; lia|].
  assert (Hbb : bytes buf) by (apply Forall_app; split; [done|apply Forall_replicate; by split]).
  apply message_loop_safe; try done.
  - by apply Forall_take, Forall_drop.
  - rewrite length_take, length_drop, Hlb. done.
  - by rewrite Hlb.
  - intros i Hi. unfold buf. rewrite lookup_app_r by lia. apply lookup_replicate.
    split; [done|]. rewrite Hlb in Hi. lia.
  - rewrite Hlb. unfold ETH_HDR, MAX_FRAME_SIZE. lia.
  - lia.
Qed.

End Recv.
