(* ===== verification/MvrpWire.v ===== *)
(** * MVRP: what is sent is what is received

    The PDU that one station sends, handed to another station, applies exactly the
    events of its attributes, in order. *)

From S2P Require Import Prelude.
From S2P Require Import CText.
From S2P Require Import Mrp.
From S2P Require Import MrpTheory.
From S2P Require Import Mvrp.
From S2P Require Import MvrpTheory.
From S2P Require Import MvrpEmit.
From S2P Require Import MvrpEvent.
From S2P Require Import MvrpRecv.

Open Scope Z_scope.
Local Abbreviation length := List.length.

(** ** Packed events *)

Definition is_evt (e : Z) : Prop := 0 <= e <= 5.

Lemma decode3_encode3 a b c :
  is_evt a -> is_evt b -> is_evt c -> decode3 (encode3 [a; b; c]) = [a; b; c].
Proof.
  unfold is_evt, encode3, MRPDU_3PACK_ENCODE, decode3. cbn [nth]. intros Ha Hb Hc.
  rewrite u8_small by (unfold is_u8; lia).
  assert (H0 : ((a * 6 + b) * 6 + c) / 36 = a).
  { symmetry. apply (Z.div_unique_pos _ 36 a (b * 6 + c)); lia. }
  rewrite H0. assert (H1 : ((a * 6 + b) * 6 + c - a * 36) / 6 = b).
  { symmetry. apply (Z.div_unique_pos _ 6 b c); lia. }
  rewrite H1. repeat f_equal. lia.
Qed.

Lemma rx_values_app p es1 es2 vid t :
  rx_values p (es1 ++ es2) vid t =
  let '(t', vid') := rx_values p es1 vid t in rx_values p es2 vid' t'.
Proof.
  revert vid t. induction es1 as [|e es1 IH]; intros vid t; cbn [app rx_values]; [done|].
  destruct (_ <? _); apply IH.
Qed.

(** The bytes of a vector, with the byte behind it, carry its events. *)
Lemma rx_bytes_packs p es : forall q vid t,
  Forall is_evt es ->
  rx_bytes p (packs es ++ [q]) (Z.of_nat (length es)) vid t = rx_values p es vid t.
Proof.
  assert (H0 : is_evt 0) by (by split).
  remember (length es) as n eqn:Hn. revert es Hn. induction (lt_wf n) as [n _ IH].
  intros [|a [|b [|c es]]] -> q vid t HF.
  - cbn. done.
  - apply Forall_cons in HF as [Ha _]. cbn [packs app rx_bytes]. rewrite decode3_encode3 by done.
    change (take _ [a; 0; 0]) with [a]. by destruct (rx_values p [a] vid t).
  - apply Forall_cons in HF as [Ha [Hb _]%Forall_cons]. cbn [packs app rx_bytes].
    rewrite decode3_encode3 by done. change (take _ [a; b; 0]) with [a; b].
    by destruct (rx_values p [a; b] vid t).
  - apply Forall_cons in HF as [Ha [Hb [Hc HF]%Forall_cons]%Forall_cons]. cbn [packs app rx_bytes].
    rewrite decode3_encode3 by done. change (a :: b :: c :: es) with ([a; b; c] ++ es).
    rewrite rx_values_app, length_app. cbn [length].
    set (k := if 3 <? _ then 3 else _).
    assert (k = 3) as -> by (unfold k; destruct (Z.ltb_spec 3 (Z.of_nat (3 + length es))); lia).
    change (take (Z.to_nat 3) [a; b; c]) with [a; b; c].
    destruct (rx_values p [a; b; c] vid t) as [t' vid'].
    replace (Z.of_nat (3 + length es) - 3) with (Z.of_nat (length es)) by lia.
    apply (IH (length es)); [cbn; lia|done..].
Qed.

(** ** Attributes as events *)

(** The event a transmitted attribute is at the receiver. *)
Definition deliver (p2pmac : Z) (t : gmap Z entry) (x : mvrp_attribute) : gmap Z entry :=
  match rx_event (evt x) with
  | Some e => spec_event p2pmac e (Some (attribute x)) t
  | None => t
  end.

(** VIDs have twelve bits. *)
Definition valid_vid (x : mvrp_attribute) : Prop := 0 <= attribute x <= 0xFFF.

Lemma rx_values_follows p xs : forall vid t,
  follows vid xs -> Forall valid_vid xs ->
  fst (rx_values p (evt <$> xs) (u16 (vid + 1)) t) = foldl (deliver p) t xs.
Proof.
  induction xs as [|x xs IH]; intros vid t Hf HF; [done|]. cbn [fmap list_fmap rx_values foldl].
  destruct Hf as [Hx Hf]. apply Forall_cons in HF as [Hv HF]. rewrite <- Hx.
  destruct (Z.ltb_spec 0xFFF (attribute x)) as [Hgt|_]; [unfold valid_vid in Hv; lia|].
  by rewrite IH.
Qed.

Lemma rx_values_run p x xs t :
  run (x :: xs) -> Forall valid_vid (x :: xs) ->
  fst (rx_values p (evt <$> (x :: xs)) (attribute x) t) = foldl (deliver p) t (x :: xs).
Proof.
  intros Hr [Hv HF]%Forall_cons. cbn [fmap list_fmap rx_values foldl].
  destruct (Z.ltb_spec 0xFFF (attribute x)) as [Hgt|_]; [unfold valid_vid in Hv; lia|].
  by apply rx_values_follows.
Qed.

Lemma evt_range x : is_evt (evt x).
Proof.
  unfold evt, pdu_event, is_evt. destruct (app_sndmsg (applicant x)); cbn; try done;
    by case_bool_decide.
Qed.

(** ** The header of a vector *)

Lemma header_fields n lva :
  0 < n < 2 ^ 13 ->
  MRPDU_VECT_NUMVALUES (header n lva) = n /\ MRPDU_VECT_LVA (header n lva) = lva /\
  0 < header n lva < 2 ^ 16.
Proof.
  intros Hn. unfold header. rewrite !numvalues_mod.
  assert (Hm : n mod 2 ^ 13 = n) by (by apply Z.mod_small; lia). rewrite Hm.
  assert (Hh : (if lva then Z.lor n MRPDU_VECT_LVA_FLAG else n) = n + (if lva then 2 ^ 13 else 0)).
  { destruct lva; [|lia]. rewrite Z.lor_comm. change MRPDU_VECT_LVA_FLAG with (Z.shiftl 1 13).
    rewrite lor_shiftl_add by lia. lia. }
  rewrite Hh. split; [|split; [|destruct lva; lia]].
  - destruct lva; [|by rewrite Z.add_0_r]. rewrite <- (Z.mul_1_l (2 ^ 13)) at 1.
    by rewrite Z.mod_add.
  - unfold MRPDU_VECT_LVA. set (x := n + _).
    assert (Hd : x / 2 ^ 13 = if lva then 1 else 0).
    { symmetry. apply (Z.div_unique_pos _ (2 ^ 13) _ n); destruct lva; unfold x; lia. }
    assert (Hl : Z.land x (Z.shiftl 7 13) = Z.shiftl (Z.land (Z.shiftr x 13) 7) 13).
    { apply Z.bits_inj'. intros i Hi. rewrite Z.land_spec.
      destruct (Z.lt_ge_cases i 13) as [H|H].
      - by rewrite !Z.shiftl_spec_low, andb_false_r.
      - rewrite !Z.shiftl_spec by lia. rewrite Z.land_spec, Z.shiftr_spec by lia.
        by replace (i - 13 + 13) with i by lia. }
    rewrite Hl, Z.shiftr_div_pow2, Hd by lia. by destruct lva.
Qed.

Lemma rd_at pre b post off : off = length pre -> rd (pre ++ b :: post) off = Ok b.
Proof. intros ->. unfold rd. by rewrite list_lookup_middle. Qed.

Lemma vid_bytes x :
  is_u16 x -> Z.lor (Z.shiftl (u8 (Z.shiftr x 8)) 8) (u8 x) = x.
Proof.
  unfold is_u16, u8. intros Hx. rewrite lor_shiftl_add by (lia || apply Z.mod_pos_bound; lia).
  rewrite Z.shiftr_div_pow2 by lia. rewrite (Z.mod_small (x / 2 ^ 8)).
  - rewrite (Z.div_mod x (2 ^ 8)) at 3 by lia. lia.
  - split; [apply Z.div_pos; lia|apply Z.div_lt_upper_bound; lia].
Qed.

Lemma vector_bytes_count (n : nat) :
  (if negb (Z.of_nat n =? Z.of_nat n / 3 * 3) then Z.of_nat n / 3 + 1 else Z.of_nat n / 3) =
  Z.of_nat ((n + 2) / 3).
Proof.
  rewrite Nat2Z.inj_div, Nat2Z.inj_add. change (Z.of_nat 2) with 2. change (Z.of_nat 3) with 3.
  pose proof (Z.div_mod (Z.of_nat n) 3 ltac:(lia)). pose proof (Z.mod_pos_bound (Z.of_nat n) 3 ltac:(lia)).
  destruct (Z.eqb_spec (Z.of_nat n) (Z.of_nat n / 3 * 3)); cbn [negb].
  - apply (Z.div_unique_pos _ 3 _ 2); lia.
  - apply (Z.div_unique_pos _ 3 _ (Z.of_nat n mod 3 - 1)); lia.
Qed.

Section Wire.
Context (E : Os) (p2pmac : Z) (STATION_ADDR : list Z).
Context (HT : timers_ok E) (HR : random_ok E) (HM : malloc_ok E).
Context (Hst : length STATION_ADDR = 6%nat).
Context (src : list Z) (Hsrc : bytes src) (Hls : length src = 6%nat).

(** A run that fits the vector header. *)
Definition sound_run (xs : list mvrp_attribute) : Prop :=
  run xs /\ Forall valid_vid xs /\ Z.of_nat (length xs) < 2 ^ 13.

Lemma one_vector_wire pre lva xs q post eof m fr ms :
  Inv m -> sound_run xs ->
  (length pre + length (wire_vector lva xs) <= eof)%nat ->
  safe (one_vector E p2pmac STATION_ADDR (pre ++ wire_vector lva xs ++ q :: post) src eof (length pre)
          (header (Z.of_nat (length xs)) lva))
    (fun r w => exists m' fr' ms', w = at_db m' fr' ms' /\ stable m m' /\
       r = Some (length pre + length (wire_vector lva xs))%nat /\
       table (attrib_list m') = foldl (deliver p2pmac) (table (attrib_list m)) xs) (at_db m fr ms).
Proof using All.
  intros HI (Hrun&Hv&Hlen) Heof. destruct xs as [|x xs]; [done|].
  assert (Hn : 0 < Z.of_nat (length (x :: xs)) < 2 ^ 13).
  { cbn [length] in *. lia. }
  destruct (header_fields _ lva Hn) as (Hnum&_&_). unfold one_vector. rewrite Hnum.
  set (n := length (x :: xs)) in *. set (hb := be_bytes 2 (header (Z.of_nat n) lva)).
  assert (Hhb : length hb = 2%nat) by apply length_be_bytes.
  set (es := evt <$> (x :: xs)). set (ps := packs es).
  assert (Hw : wire_vector lva (x :: xs) = hb ++ [u8 (Z.shiftr (attribute x) 8); u8 (attribute x)] ++ ps) by done.
  rewrite Hw in *. clear Hw. clearbody hb.
  assert (Hps : length ps = ((n + 2) / 3)%nat) by (unfold ps, es; by rewrite length_packs, length_fmap).
  rewrite !length_app in Heof. cbn [length] in Heof.
  destruct (Z.eqb_spec (Z.of_nat n) 0) as [|_]; [lia|].
  assert (Hdiv : (Z.to_nat (Z.of_nat n / 3) <= length ps)%nat).
  { rewrite Hps. change 3 with (Z.of_nat 3). rewrite <- Nat2Z.inj_div, Nat2Z.id.
    apply Nat.Div0.div_le_mono. lia. }
  destruct (Nat.leb_spec eof (length pre + 2 + Z.to_nat (Z.of_nat n / 3))) as [Hge|_]; [lia|].
  rewrite vector_bytes_count, Nat2Z.id, <- Hps. clear Hdiv.
  set (f0 := u8 (Z.shiftr (attribute x) 8)). set (f1 := u8 (attribute x)).
  set (buf := pre ++ (hb ++ [f0; f1] ++ ps) ++ q :: post).
  assert (Hr0 : rd buf (length pre + 2) = Ok f0).
  { unfold buf. rewrite <- !(assoc_L (++)), (assoc_L (++) pre hb). apply rd_at. rewrite length_app. lia. }
  assert (Hr1 : rd buf (length pre + 3) = Ok f1).
  { unfold buf. rewrite <- !(assoc_L (++)).
    change ([f0; f1] ++ ps ++ q :: post) with ([f0] ++ f1 :: ps ++ q :: post).
    rewrite (assoc_L (++) hb), (assoc_L (++) pre). apply rd_at. rewrite !length_app. cbn. lia. }
  apply wp_bind; eapply wp_lift; [exact Hr0|]. apply wp_bind; eapply wp_lift; [exact Hr1|]. cbv zeta.
  pose proof (proj1 (Forall_cons _ _ _) Hv) as [Hvx _].
  assert (Hu : is_u16 (attribute x)) by (unfold valid_vid in Hvx; unfold is_u16; lia).
  unfold f0, f1. rewrite vid_bytes by done.
  assert (Hlb : length buf = (length pre + 4 + length ps + S (length post))%nat).
  { unfold buf. rewrite !length_app. cbn [length]. lia. }
  apply wp_bind. eapply wp_mono; [apply byte_loop_wp; try done; lia|].
  intros r w (m'&fr'&ms'&->&Hs&Hr). destruct r as [vid'|]; [|by destruct (Hr HM)].
  destruct Hr as [_ Hr]. apply wp_ret. exists m', fr', ms'. split_and!; [done..| |].
  - f_equal. rewrite !length_app. cbn [length]. lia.
  - replace (take (length ps + 1) (drop (length pre + 4) buf)) with (ps ++ [q]) in Hr.
    + unfold ps in Hr. replace (Z.of_nat n) with (Z.of_nat (length es)) in Hr
        by (unfold es; by rewrite length_fmap).
      rewrite rx_bytes_packs in Hr; [|apply Forall_fmap, Forall_true; intros; apply evt_range].
      apply (f_equal fst) in Hr. cbn [fst] in Hr. rewrite Hr. by apply rx_values_run.
    + unfold buf. replace (pre ++ (hb ++ [f0; f1] ++ ps) ++ q :: post)
        with ((pre ++ hb ++ [f0; f1]) ++ ps ++ q :: post) by (by rewrite <- !(assoc_L (++))).
      rewrite drop_app_length' by (rewrite !length_app; cbn; lia).
      change (q :: post) with ([q] ++ post). rewrite (assoc_L (++)).
      by rewrite take_app_length' by (rewrite length_app; done).
Qed.

(** The LeaveAll mark of the first vector. *)
Definition deliver_lva (lva : bool) (t : gmap Z entry) : gmap Z entry :=
  if lva then spec_event p2pmac EVENT_RLA None t else t.

Lemma stable_refl m : Inv m -> stable m m.
Proof using. by intros; split_and!. Qed.

Lemma be_bytes_2 h :
  0 < h < 2 ^ 16 ->
  exists b0 b1, be_bytes 2 h = [b0; b1] /\ be_val [b0; b1] = h /\ (b0 =? 0) && (b1 =? 0) = false.
Proof using.
  intros Hh. exists (h / 256 mod 256), (h mod 256).
  assert (Hv : be_val [h / 256 mod 256; h mod 256] = h).
  { change [h / 256 mod 256; h mod 256] with (be_bytes 2 h). rewrite be_val_bytes. apply Z.mod_small.
    clear -Hh. lia. }
  split_and!; [done..|]. apply not_true_is_false. intros [H0 H1]%andb_true_iff.
  apply Z.eqb_eq in H0, H1. rewrite H0, H1 in Hv. cbn in Hv. clear -Hv Hh. lia.
Qed.

(** The events of the vectors: LeaveAll first, then the attributes in order. *)
Definition delivered (lva : bool) (gs : list (list mvrp_attribute)) (t : gmap Z entry) : gmap Z entry :=
  foldl (deliver p2pmac) (deliver_lva (match gs with [] => false | _ => lva end) t) (concat gs).

Definition vectors_post (m : mvrp_database) (lva : bool) (gs : list (list mvrp_attribute)) (v' : nat)
    (r : option (nat * bool)) (w : mvrp_world) : Prop :=
  exists m' fr' ms' saw', w = at_db m' fr' ms' /\ stable m m' /\ r = Some (v', saw') /\
    table (attrib_list m') = delivered lva gs (table (attrib_list m)).

Lemma lva_step_wp (lva saw : bool) m fr ms Q :
  Inv m -> (lva = true -> saw = false) ->
  (forall saw' m' fr' ms', stable m m' -> table (attrib_list m') = deliver_lva lva (table (attrib_list m)) ->
     Q saw' (at_db m' fr' ms')) ->
  safe (if lva && negb saw then mvrp_event E p2pmac STATION_ADDR EVENT_RLA None;; mret true
        else mret saw) Q (at_db m fr ms).
Proof using HT HR Hst.
  intros HI Hsaw HQ. destruct lva; cbn [andb].
  - rewrite Hsaw by done. apply wp_bind. eapply wp_mono; [by apply rla_wp|].
    intros z w (m1&fr1&ms1&->&Hs1&Ht1). by apply wp_ret, HQ.
  - apply wp_ret, HQ; [by apply stable_refl|done].
Qed.

Lemma vector_loop_wire gs : forall pre lva saw post eof fuel m fr ms,
  Inv m -> Forall sound_run gs -> (length gs < fuel)%nat -> (lva = true -> saw = false) ->
  (length pre + length (wire lva gs) <= eof)%nat ->
  safe (vector_loop E p2pmac STATION_ADDR fuel (pre ++ wire lva gs ++ 0 :: 0 :: post) src eof (length pre) saw)
    (vectors_post m lva gs (length pre + length (wire lva gs))) (at_db m fr ms).
Proof using All.
  induction gs as [|xs gs IH]; intros pre lva saw post eof [|fuel] m fr ms HI HF Hfuel Hsaw Heof; cbn in Hfuel;
    try lia; cbn [vector_loop].
  { cbn [wire app] in *. apply wp_bind; eapply wp_lift; [by apply rd_at|].
    apply wp_bind; eapply wp_lift.
    { change (0 :: 0 :: post) with ([0] ++ 0 :: post). rewrite (assoc_L (++)). apply rd_at.
      rewrite length_app. done. }
    apply wp_ret. exists m, fr, ms, saw. split_and!; [done|by apply stable_refl|f_equal; f_equal; cbn; lia|done]. }
  apply Forall_cons in HF as [Hx HF]. cbn [wire] in *. rewrite length_app in Heof.
  assert (Hq : exists q post', wire false gs ++ 0 :: 0 :: post = q :: post').
  { destruct (wire false gs); cbn; eauto. }
  destruct Hq as (q&post'&Hq).
  rewrite <- (assoc_L (++) (wire_vector lva xs)), Hq.
  pose proof Hx as (Hrun&_&Hlen). destruct xs as [|x xs]; [done|].
  assert (Hn : 0 < Z.of_nat (length (x :: xs)) < 2 ^ 13).
  { cbn [length] in *. lia. }
  destruct (header_fields _ lva Hn) as (Hnum&Hlva&Hh).
  destruct (be_bytes_2 _ Hh) as (b0&b1&Hb&Hval&Hnz).
  assert (Hw : exists rest, wire_vector lva (x :: xs) = b0 :: b1 :: rest).
  { cbn [wire_vector]. rewrite Hb. eexists. reflexivity. }
  destruct Hw as [rest Hw].
  apply wp_bind; eapply wp_lift; [rewrite Hw; by apply rd_at|].
  apply wp_bind; eapply wp_lift.
  { rewrite Hw. cbn [app]. change (b0 :: b1 :: rest ++ q :: post') with ([b0] ++ b1 :: rest ++ q :: post').
    rewrite (assoc_L (++)). apply rd_at. rewrite length_app. done. }
  rewrite Hnz, Hval, Hlva. cbv zeta. apply wp_bind, lva_step_wp; [done..|].
  intros saw1 m1 fr1 ms1 Hs1 Ht1. apply wp_bind. pose proof Hs1 as (HI1&_&_).
  eapply wp_mono; [apply one_vector_wire; [done..|lia]|].
  intros r w (m2&fr2&ms2&->&Hs2&->&Ht2). pose proof Hs2 as (HI2&_&_).
  rewrite <- Hq, (assoc_L (++) pre), <- length_app.
  eapply wp_mono; [apply IH; [done|done|lia|done|rewrite length_app; lia]|].
  intros o w (m3&fr3&ms3&saw3&->&Hs3&->&Ht3). exists m3, fr3, ms3, saw3. split_and!; [done| | |].
  - eapply stable_trans; [done|]. by eapply stable_trans.
  - f_equal. f_equal. rewrite !length_app. lia.
  - unfold delivered in *. cbn [concat]. rewrite foldl_app, Ht3, Ht2, Ht1. by destruct gs.
Qed.

(** The message list of a PDU: one message, two end marks. *)
Lemma message_loop_wire gs pre lva zs fuel m fr ms :
  Inv m -> Forall sound_run gs -> (2 < fuel)%nat ->
  (length gs <= length pre + length (wire lva gs))%nat ->
  safe (message_loop E p2pmac STATION_ADDR fuel
          (pre ++ [MVRP_VID_TYPE; 2] ++ wire lva gs ++ [0; 0; 0; 0] ++ zs) src
          (length pre + 2 + length (wire lva gs) + 4) (length pre) 0 false)
    (fun rc w => rc = 0 /\ exists m' fr' ms', w = at_db m' fr' ms' /\ stable m m' /\
       table (attrib_list m') = delivered lva gs (table (attrib_list m))) (at_db m fr ms).
Proof using All.
  intros HI HF Hfuel Hgl. destruct fuel as [|[|[|fuel]]]; try lia. cbn [message_loop].
  set (pre' := pre ++ [MVRP_VID_TYPE; 2]).
  assert (Hpre' : length pre' = (length pre + 2)%nat) by (unfold pre'; by rewrite length_app).
  set (buf := pre ++ _).
  assert (Hbuf : buf = pre' ++ wire lva gs ++ 0 :: 0 :: 0 :: 0 :: zs)
    by (unfold buf, pre'; by rewrite <- (assoc_L (++))).
  set (W := length (wire lva gs)) in *. set (eof := (length pre + 2 + W + 4)%nat).
  destruct (Nat.ltb_spec (length pre + 2) eof) as [_|Hn]; [|unfold eof in Hn; lia].
  apply wp_bind; eapply wp_lift; [by apply rd_at|]. apply wp_bind; eapply wp_lift.
  { unfold buf. cbn [app]. change (pre ++ MVRP_VID_TYPE :: 2 :: wire lva gs ++ 0 :: 0 :: 0 :: 0 :: zs)
      with (pre ++ [MVRP_VID_TYPE] ++ 2 :: wire lva gs ++ 0 :: 0 :: 0 :: 0 :: zs).
    rewrite (assoc_L (++)). apply rd_at. rewrite length_app. done. }
  cbn [Z.eqb andb negb]. rewrite Hbuf, <- Hpre'. apply wp_bind.
  eapply wp_mono; [apply vector_loop_wire; [done|done| |done|unfold eof, W; lia]|].
  { rewrite !length_app. fold W. lia. }
  intros r w (m1&fr1&ms1&saw1&->&Hs1&->&Ht1). fold W.
  destruct (Nat.ltb_spec (length pre' + W + 2) eof) as [_|Hn]; [|unfold eof in Hn; lia].
  assert (Hz0 : rd (pre' ++ wire lva gs ++ 0 :: 0 :: 0 :: 0 :: zs) (length pre' + W) = Ok 0).
  { rewrite (assoc_L (++)). apply rd_at. by rewrite length_app. }
  assert (Hz1 : rd (pre' ++ wire lva gs ++ 0 :: 0 :: 0 :: 0 :: zs) (length pre' + W + 1) = Ok 0).
  { change (0 :: 0 :: 0 :: 0 :: zs) with ([0] ++ 0 :: 0 :: 0 :: zs).
    rewrite (assoc_L (++)), (assoc_L (++)). apply rd_at. rewrite !length_app. done. }
  apply wp_bind; eapply wp_lift; [exact Hz0|]. apply wp_bind; eapply wp_lift; [exact Hz1|].
  cbn [Z.eqb andb Z.add Z.ltb Z.compare Pos.compare Pos.compare_cont].
  destruct (Nat.ltb_spec (length pre' + W + 2 + 2) eof) as [Hn|_]; [unfold eof in Hn; lia|].
  apply wp_ret. split; [done|]. by exists m1, fr1, ms1.
Qed.

Lemma read_eth rest :
  let buf := eth_header src ++ rest in
  read_bytes buf 12 2 = Ok (be_bytes 2 MVRP_ETYPE) /\
  read_bytes buf 0 6 = Ok MVRP_CUSTOMER_BRIDGE_ADDR /\ read_bytes buf 6 6 = Ok src.
Proof using All.
  assert (Hl : (15 <= length (eth_header src ++ rest))%nat)
    by (rewrite length_app, (eth_header_length src Hls); lia).
  cbv zeta. rewrite !read_bytes_Ok by lia.
  destruct src as [|a [|b [|c [|d [|e [|f [|]]]]]]]; try discriminate Hls. done.
Qed.

(** The whole PDU of a station with address [src]. *)
Lemma recv_pdu_wp lva gs m fr ms :
  Inv m -> Forall sound_run gs -> gs <> [] -> (length (pdu src lva gs) <= MAX_FRAME_SIZE)%nat ->
  safe (mvrp_recv_msg E p2pmac STATION_ADDR (pdu src lva gs))
    (fun rc w => rc = 0 /\ exists m' fr' ms', w = at_db m' fr' ms' /\ stable m m' /\
       table (attrib_list m') = delivered lva gs (table (attrib_list m))) (at_db m fr ms).
Proof using All.
  intros HI HF Hgs Hlen.
  assert (Hb : body lva gs = wire lva gs) by (by destruct gs).
  assert (Hgl : (length gs <= length (wire lva gs))%nat).
  { clear -HF. revert lva. induction HF as [|xs gs (Hr&_&_) _ IH]; intros lva; [done|].
    cbn [wire length]. rewrite length_app. pose proof (wire_vector_length lva xs Hr). specialize (IH false). lia. }
  assert (Hfl : length (pdu src lva gs) = (15 + 2 + length (wire lva gs) + 4)%nat).
  { unfold pdu. rewrite Hb, !length_app, (eth_header_length src Hls). cbn [length]. lia. }
  unfold mvrp_recv_msg. rewrite Hfl. set (zs := replicate _ 0).
  replace (pdu src lva gs ++ zs) with (eth_header src ++ [MVRP_VID_TYPE; 2] ++ wire lva gs ++ [0; 0; 0; 0] ++ zs)
    by (unfold pdu; rewrite Hb; by rewrite <- !(assoc_L (++))).
  destruct (read_eth ([MVRP_VID_TYPE; 2] ++ wire lva gs ++ [0; 0; 0; 0] ++ zs)) as (H1&H2&H3).
  set (buf := eth_header src ++ _) in *.
  destruct (Nat.leb_spec (15 + 2 + length (wire lva gs) + 4) 0) as [|_]; [lia|].
  destruct (Nat.ltb_spec (15 + 2 + length (wire lva gs) + 4) (ETH_HDR + 1 + 2)) as [Hlt|_]; [unfold ETH_HDR in Hlt; lia|].
  apply wp_bind; eapply wp_lift; [exact H1|]. change (be_val (be_bytes 2 MVRP_ETYPE) =? MVRP_ETYPE) with true. cbn [negb].
  apply wp_bind; eapply wp_lift; [exact H2|]. rewrite bool_decide_eq_true_2 by done. cbn [negb].
  apply wp_bind; eapply wp_lift; [exact H3|].
  replace (ETH_HDR + 1)%nat with (length (eth_header src)) by (by rewrite (eth_header_length src Hls)).
  rewrite <- (eth_header_length src Hls). apply message_loop_wire; [done..| |lia].
  unfold buf. rewrite length_app, (eth_header_length src Hls). lia.
Qed.

End Wire.
