(* ===== verification/MvrpPeer.v ===== *)
(** * MVRP: two stations

    What a station declares or withdraws with a transmission opportunity arrives at
    every station that receives its frame. *)

From S2P Require Import Prelude.
From S2P Require Import CText.
From S2P Require Import Mrp.
From S2P Require Import MrpTheory.
From S2P Require Import Mvrp.
From S2P Require Import MvrpTheory.
From S2P Require Import MvrpEmit.
From S2P Require Import MvrpEvent.
From S2P Require Import MvrpRecv.
From S2P Require Import MvrpWire.

Open Scope Z_scope.
Local Abbreviation length := List.length.

(** ** The table of the receiver *)

Lemma sorted_nodup l : sorted l -> NoDup (attribute <$> l).
Proof.
  unfold sorted. induction 1 as [|v vs _ IH HF]; constructor; [|done].
  intros Hin. eapply Forall_forall in HF; [|exact Hin]. lia.
Qed.

Lemma deliver_other p t x v : attribute x <> v -> deliver p t x !! v = t !! v.
Proof.
  intros Hv. unfold deliver. destruct (rx_event (evt x)) as [e|] eqn:He; [|done].
  apply rx_event_attribute in He. destruct e; try done; cbn [spec_event]; by rewrite lookup_partial_alter_ne.
Qed.

Lemma delivers_other p xs v : forall t,
  v ∉ (attribute <$> xs) -> foldl (deliver p) t xs !! v = t !! v.
Proof.
  induction xs as [|x xs IH]; intros t Hv; [done|]. cbn [foldl]. rewrite fmap_cons in Hv.
  apply not_elem_of_cons in Hv as [Hx Hv]. rewrite IH by done. by apply deliver_other.
Qed.

(** With each VID at most once in the frame, an attribute's entry is decided by its own
    event. *)
Lemma delivers_at p xs y (P : option entry -> Prop) : forall t,
  NoDup (attribute <$> xs) -> y ∈ xs ->
  (forall t', t' !! attribute y = t !! attribute y -> P (deliver p t' y !! attribute y)) ->
  P (foldl (deliver p) t xs !! attribute y).
Proof.
  induction xs as [|x xs IH]; intros t Hnd Hy HP; [by apply not_elem_of_nil in Hy|].
  rewrite fmap_cons in Hnd. apply NoDup_cons in Hnd as [Hx Hnd]. cbn [foldl].
  apply elem_of_cons in Hy as [->|Hy]; [rewrite delivers_other by done; by apply HP|].
  assert (Hne : attribute x <> attribute y).
  { intros Heq. apply Hx. rewrite Heq. by apply list_elem_of_fmap_2. }
  apply IH; [done..|]. intros t' Ht'. apply HP. rewrite Ht'. by apply deliver_other.
Qed.

(** The registrar of a VID in a table. *)
Definition reg_at (t : gmap Z entry) (vid : Z) : option registrar_state := snd <$> (t !! vid).

(** A declaration on the wire registers the VID. *)
Definition declares (x : mvrp_attribute) : Prop := is_declaration (app_sndmsg (applicant x)) = true.

Lemma keep_not_mt a r : r <> MT -> keep (a, r) = Some (a, r).
Proof. unfold keep, idle. by destruct a, r. Qed.

Lemma declares_event x :
  declares x -> exists e, rx_event (evt x) = Some e /\ (e = EVENT_RNEW \/ e = EVENT_RJOININ \/ e = EVENT_RJOINMT).
Proof.
  unfold declares, is_declaration, evt, pdu_event. destruct (app_sndmsg (applicant x)); try done; intros _; cbn.
  - eauto.
  - destruct (bool_decide (reg_state (registrar x) = IN)); eauto.
Qed.

Lemma attribute_entry_in p e o :
  e = EVENT_RNEW \/ e = EVENT_RJOININ \/ e = EVENT_RJOINMT ->
  snd <$> attribute_entry p e o = Some IN.
Proof.
  by intros [->|[->| ->]]; destruct o; cbn [attribute_entry as_registrar reg_next]; rewrite keep_not_mt by done.
Qed.

Lemma deliver_declares p t x :
  declares x -> reg_at (deliver p t x) (attribute x) = Some IN.
Proof.
  intros (e&He&Hcase)%declares_event. unfold deliver, reg_at. rewrite He.
  destruct Hcase as [->|[->| ->]]; cbn [spec_event]; rewrite lookup_partial_alter_eq;
    by apply attribute_entry_in; auto.
Qed.

(** A withdrawal on the wire ends a registration, after the leave time. *)
Definition withdraws (x : mvrp_attribute) : Prop := app_sndmsg (applicant x) = SND_LV.

Lemma attribute_entry_lv p (o : option entry) r :
  snd <$> o = Some r -> registered r = true -> snd <$> attribute_entry p EVENT_RLV o = Some LV.
Proof.
  intros Ho Hr. destruct o as [[a r0]|]; [|discriminate Ho]. injection Ho as ->.
  destruct r; try discriminate Hr; by refine (f_equal (fmap snd) (keep_not_mt _ LV _)).
Qed.

Lemma deliver_withdraws p t x r :
  withdraws x -> reg_at t (attribute x) = Some r -> registered r = true ->
  reg_at (deliver p t x) (attribute x) = Some LV.
Proof.
  intros Hw Ht Hr. unfold reg_at, deliver, evt, pdu_event. rewrite Hw. cbn [default from_option id].
  change (rx_event MRPDU_LV) with (Some EVENT_RLV). cbn [spec_event]. rewrite lookup_partial_alter_eq.
  by eapply attribute_entry_lv.
Qed.

Lemma lva_registered (f : entry -> applicant_state) (o : option entry) r :
  snd <$> o = Some r -> registered r = true ->
  exists r', snd <$> ((fun q => (f q, reg_next EVENT_RLA q.2)) <$> o) = Some r' /\ registered r' = true.
Proof.
  intros Ho Hr. destruct o as [[a r0]|]; [|discriminate Ho]. injection Ho as ->. eexists. split; [done|].
  by destruct r.
Qed.

Lemma deliver_lva_registered p lva t v r :
  reg_at t v = Some r -> registered r = true ->
  exists r', reg_at (deliver_lva p lva t) v = Some r' /\ registered r' = true.
Proof.
  unfold reg_at. intros Ht Hr. destruct lva; cbn [deliver_lva]; [|eauto]. cbn [spec_event].
  rewrite lookup_fmap. eapply lva_registered; [exact Ht|done].
Qed.

(** ** The sender *)

(** The attribute as it is when the frame is assembled. *)
Definition at_tx (p2pmac : Z) (x : mvrp_attribute) : mvrp_attribute := applicant_event p2pmac EVENT_TX x.

Lemma owed_mandatory p2pmac x :
  (0 < owed (app_state (applicant x)))%nat -> mandatory (at_tx p2pmac x) /\ declares (at_tx p2pmac x).
Proof.
  unfold at_tx, applicant_event, mrp_applicant_fsm, mandatory, marked, declares. cbn.
  by destruct (app_state (applicant x)); cbn; try lia.
Qed.

Lemma leaving_mandatory p2pmac x :
  app_state (applicant x) = LA -> mandatory (at_tx p2pmac x) /\ withdraws (at_tx p2pmac x).
Proof. unfold at_tx, applicant_event, mrp_applicant_fsm, mandatory, marked, withdraws. cbn. by intros ->. Qed.

Section Sender.
Context (E : Os) (p2pmac : Z) (STATION_ADDR : list Z).
Context (HT : timers_ok E) (HR : random_ok E) (HM : malloc_ok E) (Hst : length STATION_ADDR = 6%nat).

(** A frame that carries the transmission of [m]. *)
Record carries (m : mvrp_database) (lva : bool) (gs : list (list mvrp_attribute)) : Prop := {
  carries_runs : Forall sound_run gs;
  carries_once : NoDup (attribute <$> concat gs);
  carries_all : forall x, x ∈ attrib_list m -> mandatory (at_tx p2pmac x) -> at_tx p2pmac x ∈ concat gs;
  carries_size : (length (pdu STATION_ADDR lva gs) <= MAX_FRAME_SIZE)%nat
}.

Lemma message_carries m m1 lva n l' gs :
  Inv0 m -> fits m -> Forall valid_vid (attrib_list m) -> attrib_list m1 = at_tx p2pmac <$> attrib_list m ->
  message MAX_FRAME_SIZE 15 lva (send_empty_LeaveAll_flag m1) (attrib_list m1) n l' gs ->
  n = (2 + length (body lva gs) + 2)%nat -> carries m lva gs.
Proof using Hst.
  intros [Hs _ _ _] Hfit Hv Hl1 [Hrun Hsub Hcov Hroom _] Hn.
  assert (Hs1 : sublist (concat gs) (attrib_list m1)).
  { etrans; [exact Hsub|]. apply sublist_filter. }
  pose proof (sublist_length _ _ Hs1) as Hlen. rewrite Hl1, length_fmap in Hlen. unfold fits in Hfit.
  pose proof (body_size lva gs Hrun) as Hsize. unfold MAX_FRAME_SIZE in *.
  constructor.
  - apply Forall_forall. intros xs Hxs. assert (Hin : forall y, y ∈ xs -> y ∈ concat gs).
    { intros y Hy. apply list_elem_of_In, in_concat. exists xs. by rewrite <- !list_elem_of_In. }
    split_and!; [by eapply Forall_forall in Hrun| |].
    + apply Forall_forall. intros y Hy%Hin. eapply elem_of_sublist in Hy; [|exact Hs1].
      rewrite Hl1 in Hy. apply list_elem_of_fmap in Hy as (z&->&Hz).
      apply (proj1 (Forall_forall _ _) Hv z Hz).
    + assert (length xs <= length (concat gs))%nat.
      { apply list_elem_of_split in Hxs as (g1&g2&->). rewrite concat_app, length_app. cbn. rewrite length_app. lia. }
      change (2 ^ 13) with 8192. lia.
  - eapply sublist_NoDup; [|apply fmap_sublist, Hs1]. rewrite Hl1, <- list_fmap_compose.
    by apply sorted_nodup.
  - intros x Hx Hm. assert (Hin : at_tx p2pmac x ∈ attrib_list m1) by (rewrite Hl1; by apply list_elem_of_fmap_2).
    destruct (Hcov _ Hin Hm) as [|[_ Hfull]]; [done|lia].
  - unfold pdu, MAX_FRAME_SIZE. rewrite !length_app, (eth_header_length _ Hst). cbn [length]. lia.
Qed.

Lemma finish_frames m fr ms :
  safe (m ← the_db; l ← notify_loop E (attrib_list m); upd_db (set_attrib_list l);; mret 0)
    (fun _ w => exists m' ms', w = at_db m' fr ms') (at_db m fr ms).
Proof using.
  apply wp_bind, the_db_wp, wp_bind, notify_loop_wp.
  intros m2 ms2 _. apply wp_bind, upd_db_wp, wp_ret. by eexists _, _.
Qed.

(** A transmission opportunity with something to say puts exactly one frame on the wire. *)
Lemma event_tx_frame m fr ms x :
  Inv m -> fits m -> Forall valid_vid (attrib_list m) ->
  x ∈ attrib_list m -> mandatory (at_tx p2pmac x) ->
  safe (mvrp_event E p2pmac STATION_ADDR EVENT_TX None)
    (fun _ w => exists m' ms' gs, w = at_db m' (fr ++ [pdu STATION_ADDR (lva_tx (lva (mrp_db m))) gs]) ms' /\
       carries m (lva_tx (lva (mrp_db m))) gs) (at_db m fr ms).
Proof using HT HM Hst.
  intros [HI _ _] Hfit Hv Hx Hm. apply wp_bind, wp_bind, event_tx_wp; [done..|].
  intros m' fr' _ (m1&Hl1&Hlva&_&Hsent). apply wp_ret.
  assert (Hx1 : at_tx p2pmac x ∈ attrib_list m1) by (rewrite Hl1; by apply list_elem_of_fmap_2).
  destruct Hsent as [[_ Hno]|(gs&n&Hmsg&Hn&->)].
  - destruct (Hno HM) with (x := at_tx p2pmac x); try done. unfold fits. by rewrite Hl1, length_fmap.
  - rewrite Hlva in *. eapply wp_mono; [apply finish_frames|]. intros z w (m2&ms2&->).
    exists m2, ms2, gs. split; [done|]. by eapply message_carries.
Qed.

End Sender.

(** ** Sender and receiver *)

(** A station: an operating system whose calls succeed and a hardware address. *)
Record station (E : Os) (addr : list Z) : Prop := {
  st_timers : timers_ok E;
  st_random : random_ok E;
  st_malloc : malloc_ok E;
  st_length : length addr = 6%nat;
  st_bytes : bytes addr
}.

Section Peers.
Context (EA EB : Os) (p2pA p2pB : Z) (addrA addrB : list Z).
Context (HA : station EA addrA) (HB : station EB addrB).

(** A's transmission opportunity, then B's reception of the frames it put on the wire. *)
Definition exchange (mA mB : mvrp_database) : outcome (mvrp_world * mvrp_world) :=
  '(_, wA) ← mvrp_event EA p2pA addrA EVENT_TX None (at_db mA [] []);
  '(_, wB) ← each (fun frame => _ ← mvrp_recv_msg EB p2pB addrB frame; mret tt) (frames wA) (at_db mB [] []);
  mret (wA, wB).

Lemma exchange_spec mA mB x :
  Inv mA -> fits mA -> Forall valid_vid (attrib_list mA) -> Inv mB ->
  x ∈ attrib_list mA -> mandatory (at_tx p2pA x) ->
  exists wA mB' fr ms gs lva, exchange mA mB = Ok (wA, at_db mB' fr ms) /\ Inv mB' /\
    carries p2pA addrA mA lva gs /\
    table (attrib_list mB') = delivered p2pB lva gs (table (attrib_list mB)).
Proof using All.
  intros HIA Hfit Hv HIB Hx Hm. destruct HA as [HTA HRA HMA HaA HbA], HB as [HTB HRB HMB HaB _].
  pose proof (event_tx_frame EA p2pA addrA HTA HMA HaA mA [] [] x HIA Hfit Hv Hx Hm) as Htx.
  apply wp_returns in Htx as (rc&wA&Htx&mA'&msA&gs&->&Hc).
  pose proof Hc as [Hruns _ Hall Hsize].
  assert (Hgs : gs <> []).
  { intros ->. apply (Hall x Hx), not_elem_of_nil in Hm. done. }
  pose proof (recv_pdu_wp EB p2pB addrB HTB HRB HMB HaB addrA HbA HaA _ gs mB [] [] HIB Hruns Hgs Hsize) as Hrx.
  apply wp_returns in Hrx as (rcB&wB&Hrx&->&mB'&fr'&ms'&->&(HIB'&_&_)&Ht).
  eexists _, mB', fr', ms', gs, _. split_and!; [|done..|exact Ht].
  unfold exchange. rewrite Htx. cbn_outcome. cbn [frames app each]. unfold mbind, M_bind, outcome_bind.
  by rewrite Hrx.
Qed.

(** The receiver's entry of one attribute of the frame. *)
Lemma delivered_at lva gs t y (P : option registrar_state -> Prop) :
  NoDup (attribute <$> concat gs) -> y ∈ concat gs ->
  (forall t', reg_at t' (attribute y) = reg_at (deliver_lva p2pB lva t) (attribute y) ->
              P (reg_at (deliver p2pB t' y) (attribute y))) ->
  P (reg_at (delivered p2pB lva gs t) (attribute y)).
Proof using.
  intros Hnd Hy HP. unfold delivered.
  replace (match gs with [] => false | _ => lva end) with lva
    by (destruct gs; [by apply not_elem_of_nil in Hy|done]).
  apply (delivers_at p2pB (concat gs) y (fun o => P (snd <$> o))); [done..|].
  intros t' Ht'. apply HP. exact (f_equal (fmap snd) Ht').
Qed.

End Peers.

(** An attribute that is leaving keeps the leave timer running. *)
Lemma leaving_timer m v : Inv m -> reg_at (table (attrib_list m)) v = Some LV -> lv_timer_running (mrp_db m) = true.
Proof.
  intros [[_ _ _ Hl] _ _] Hr. apply (eq_trans (f_equal (fmap snd) (eq_sym (table_lookup _ _)))) in Hr.
  destruct (mvrp_lookup v (attrib_list m)) as [x|] eqn:Hx; [|discriminate Hr].
  apply lookup_attribute in Hx as [_ Hx]. eapply Forall_forall in Hl; [|exact Hx]. apply Hl. by injection Hr.
Qed.
