(* ===== verification/MvrpCmd.v ===== *)
(** * MVRP: commands and life cycle

    Initialisation, the table dump and the commands of local applications; at the end
    concrete stations. *)

From S2P Require Import Prelude.
From S2P Require Import CText.
From S2P Require Import Mrp.
From S2P Require Import MrpText.
From S2P Require Import MrpTheory.
From S2P Require Import Parse.
From S2P Require Import Mvrp.
From S2P Require Import MvrpTheory.
From S2P Require Import MvrpEmit.
From S2P Require Import MvrpEvent.
From S2P Require Import MvrpRecv.
From Stdlib Require Import String.
From S2P Require Import MvrpWire.
From S2P Require Import MvrpPeer.

Open Scope Z_scope.
Local Abbreviation length := List.length.

(** ** The table *)

Lemma fmt_mac_length m : bytes m -> length (fmt_mac m) = (2 * length m)%nat.
Proof.
  unfold fmt_mac. induction 1 as [|b m Hb _ IH]; [done|].
  change (mjoin (map (fmt_x 2) (b :: m))) with (fmt_x 2 b ++ mjoin (map (fmt_x 2) m)).
  rewrite length_app, IH, fmt_x_exact; [cbn; lia|lia|]. unfold is_u8 in Hb. cbn. lia.
Qed.

Lemma table_line_length x : attr_ok x -> exists text, table_line x = Ok text /\ length text = 30%nat.
Proof.
  intros (Hv&Hb&Hl&_). unfold table_line.
  assert (H4 : length (fmt_x 4 (attribute x)) = 4%nat).
  { apply fmt_x_exact; [lia|]. unfold is_u16 in Hv. change (16 ^ Z.of_nat 4) with (2 ^ 16). lia. }
  set (v := fmt_x 4 (attribute x)) in *. clearbody v.
  set (mac := fmt_mac _). assert (H12 : length mac = 12%nat) by (unfold mac; by rewrite fmt_mac_length, Hl).
  clearbody mac. set (st := mrp_decode_state _ _ 8).
  assert (H5 : length st = 5%nat) by apply decode_state_length. clearbody st.
  rewrite sprintf_Ok by (rewrite !length_app, H12, H5; cbn; lia).
  rewrite sprintf_Ok by (rewrite length_app, H4; cbn; lia). cbn_outcome.
  rewrite sprintf_Ok by (rewrite !length_app, H4, H12, H5; cbn; lia).
  eexists. split; [done|]. rewrite !length_app, H4, H12, H5. done.
Qed.

(** Each attribute takes a line of thirty characters; the buffer has 1500 bytes. *)
Lemma dump_loop_spec l : forall text,
  Forall attr_ok l -> (length text < MAX_MRPD_CMDSZ)%nat ->
  if (length text + 30 * length l <? MAX_MRPD_CMDSZ)%nat
  then exists text', dump_loop l text = Ok text' /\ length text' = (length text + 30 * length l)%nat
  else dump_loop l text = Fault OutOfBounds.
Proof.
  induction l as [|x l IH]; intros text HF Ht; cbn [dump_loop].
  { rewrite Nat.add_0_r. rewrite (proj2 (Nat.ltb_lt _ _) Ht). by exists text. }
  apply Forall_cons in HF as [Hx HF]. destruct (table_line_length x Hx) as (line&->&Hl). cbn_outcome.
  unfold sprintf. rewrite length_app, Hl. case_decide as Hd; cbn_outcome.
  - specialize (IH (text ++ line) HF). rewrite length_app, Hl in IH. cbn [length].
    replace (length text + 30 * S (length l))%nat with (length text + 30 + 30 * length l)%nat by lia.
    by apply IH.
  - destruct (Nat.ltb_spec (length text + 30 * length (x :: l)) MAX_MRPD_CMDSZ); [cbn in *; lia|done].
Qed.

(** ** Commands *)

Lemma cmd_parse_vid_u16 buf : is_u16 (snd (mvrp_cmd_parse_vid buf)).
Proof.
  assert (H0 : is_u16 0) by (unfold is_u16; lia).
  unfold mvrp_cmd_parse_vid. destruct (_ <? 9); [done|]. unfold parse, parse_run, vid_params. destruct (existsb _ _); [|done].
  cbn [parse_loop]. destruct (strstr_after _ _) as [data|]; [|done].
  destruct (split_delimiter data) as [field next]. unfold convert. cbn [param_type].
  destruct (sscanf 16 (Some 4%nat) field); [|done]. cbn. apply u16_bound.
Qed.

(** The text of a command: its letters, and the VID as four hexadecimal digits. *)
Definition vid_command (op : string) (vid : Z) (pad : nat) : list Z :=
  str op ++ str ":I=" ++ fmt_x 4 vid ++ replicate (S pad) 0.

Lemma split_delimiter_none s : Forall (fun c => c <> PARSE_DELIMITER) s -> split_delimiter s = (s, None).
Proof.
  induction 1 as [|c s Hc _ IH]; [done|]. cbn [split_delimiter].
  by rewrite (proj2 (Z.eqb_neq _ _) Hc), IH.
Qed.

Lemma hex_plain s : Forall hex_char s -> Forall (fun c => c <> 0) s /\ Forall (fun c => c <> PARSE_DELIMITER) s.
Proof.
  intros HF. split; (eapply Forall_impl; [exact HF|]); unfold hex_char, PARSE_DELIMITER; intros c Hc; lia.
Qed.

(** The VID of a command is read back. *)
Lemma parse_vid_command a b c vid pad :
  is_u16 vid -> mvrp_cmd_parse_vid ([a; b; c] ++ str ":I=" ++ fmt_x 4 vid ++ replicate (S pad) 0) = (0, vid).
Proof.
  intros Hv. assert (Hv16 : 0 <= vid < 16 ^ Z.of_nat 4) by exact Hv.
  assert (Hv64 : 0 <= vid < 2 ^ 64) by (unfold is_u16 in Hv; lia).
  pose proof (fmt_x_exact 4 vid ltac:(lia) Hv16) as Hlen.
  destruct (fmt_x_hex 4 vid Hv64) as (HF&_&_). pose proof (sscanf_fmt_x 4 vid ltac:(lia) Hv16 Hv64) as Hscan.
  set (ds := fmt_x 4 vid) in *. clearbody ds. destruct (hex_plain _ HF) as [Hnz Hnd].
  unfold mvrp_cmd_parse_vid. rewrite !length_app, length_replicate, Hlen. cbn [length].
  change (length (str ":I=")) with 3%nat.
  destruct (Z.ltb_spec (Z.of_nat (3 + (3 + (4 + S pad)))) 9) as [|_]; [lia|].
  change (drop 4 ([a; b; c] ++ str ":I=" ++ ds ++ replicate (S pad) 0)) with
    (str "I=" ++ ds ++ replicate (S pad) 0).
  unfold parse, parse_run, vid_params. replace (existsb (Z.eqb 0) _) with true.
  2:{ symmetry. rewrite !existsb_app. cbn [replicate existsb]. by rewrite Z.eqb_refl, !orb_true_r. }
  rewrite (assoc_L (++)). cbn [replicate].
  rewrite cstr_app by (apply Forall_app; split; [by repeat constructor|done]).
  cbn [parse_loop param_name param_type].
  assert (strstr_after (str "I" ++ str PARSE_ASSIGN) (str "I=" ++ ds) = Some ds) as -> by done.
  rewrite split_delimiter_none by done. cbn [convert]. rewrite Hscan. by rewrite u16_small.
Qed.

(** ** Safety and effect *)

Section Commands.
Context (E : Os) (p2pmac : Z) (STATION_ADDR : list Z).
Context (HT : timers_ok E) (HR : random_ok E) (Hst : length STATION_ADDR = 6%nat).

Lemma respond_wp client prefix buf suffix m fr ms Q :
  terminated MAX_MRPD_CMDSZ buf = true ->
  (forall ms', Q tt (at_db m fr ms')) -> safe (respond client prefix buf suffix) Q (at_db m fr ms).
Proof using. intros Hb HQ. apply wp_bind. eapply wp_lift; [by apply c_string_Ok|]. apply HQ. Qed.

(** Clients come and go without touching the attributes. *)
Definition same_attributes (m m' : mvrp_database) : Prop :=
  attrib_list m' = attrib_list m /\ (Inv m -> Inv m') /\ (restless m -> restless m').

Lemma same_attributes_refl m : same_attributes m m.
Proof using. done. Qed.

Lemma later_same_attributes m m' : later_db m m' -> same_attributes m m'.
Proof using.
  intros Hl. split_and!; [by destruct Hl as [n ->]| |by apply restless_later].
  intros HI. by apply (Inv_later _ _ Hl HI).
Qed.

Lemma same_attributes_trans m1 m2 m3 :
  same_attributes m1 m2 -> same_attributes m2 m3 -> same_attributes m1 m3.
Proof using. intros (?&?&?) (?&?&?). split_and!; [congruence|auto..]. Qed.

Lemma clients_same_attributes l m : same_attributes m (set_mrp_db (set_clients l (mrp_db m)) m).
Proof using.
  split_and!; [done| |done]. intros [[] ? ?]. constructor; [constructor|..]; try done.
  destruct inv_armed as []. by constructor.
Qed.

Lemma add_client_wp client m fr ms Q :
  (forall m', same_attributes m m' ->
     clients (mrp_db m') = clients (mrp_db m) \/ clients (mrp_db m') = clients (mrp_db m) ++ [client] ->
     (malloc_ok E -> client_lookup (clients (mrp_db m')) (Some client) = true) -> Q tt (at_db m' fr ms)) ->
  safe (add_client E client) Q (at_db m fr ms).
Proof using.
  intros HQ. apply wp_bind, the_db_wp, wp_bind.
  assert (Hlast : forall l, client_lookup (l ++ [client]) (Some client) = true).
  { intros l. rewrite client_lookup_spec, fmap_app. apply elem_of_app. right. by constructor. }
  destruct (client_lookup (clients (mrp_db m)) (Some client)) eqn:Hc.
  - apply wp_ret, upd_mrp_wp, HQ; [apply clients_same_attributes|left|intros _]; cbn [mrp_client_add];
      cbn; by rewrite Hc.
  - apply malloc_wp. intros b m1 Hl Hb. apply upd_mrp_wp.
    assert (Hcl : clients (mrp_db m1) = clients (mrp_db m)) by (by destruct Hl as [n ->]).
    apply HQ.
    + eapply same_attributes_trans; [by apply later_same_attributes|apply clients_same_attributes].
    + cbn. rewrite Hcl, Hc. destruct b; auto.
    + cbn. rewrite Hcl, Hc. intros ->%Hb. apply Hlast.
Qed.

Lemma dumptable_wp client m fr ms (Q : Z -> mvrp_world -> Prop) :
  Forall attr_ok (attrib_list m) -> (30 * length (attrib_list m) < MAX_MRPD_CMDSZ)%nat ->
  (forall z m' ms', later_db m m' -> Q z (at_db m' fr ms')) ->
  safe (mvrp_dumptable E client) Q (at_db m fr ms).
Proof using.
  intros Ha Hn HQ. apply wp_bind, malloc_wp. intros b m1 H1 _. destruct b; [|by apply HQ].
  apply wp_bind, malloc_wp. intros b1 m2 H2 _. apply wp_bind, malloc_wp. intros b2 m3 H3 _.
  apply wp_bind, malloc_wp. intros b3 m4 H4 _.
  assert (Hl : later_db m m4) by (eapply later_trans; [|exact H4]; eapply later_trans; [|exact H3]; by eapply later_trans).
  destruct (_ || _); [by apply HQ|]. apply wp_bind, the_db_wp, wp_bind.
  assert (Heq : attrib_list m4 = attrib_list m) by (by destruct Hl as [n ->]). rewrite Heq.
  pose proof (dump_loop_spec (attrib_list m) [] Ha ltac:(clear; unfold MAX_MRPD_CMDSZ; cbn; lia)) as Hd.
  cbn [length Nat.add] in Hd. rewrite (proj2 (Nat.ltb_lt _ _) Hn) in Hd. destruct Hd as (text&Hd&_).
  destruct (attrib_list m); eapply wp_lift; [reflexivity| |exact Hd|]; apply wp_bind, wp_modify, wp_ret, HQ; done.
Qed.

Lemma cmd_fresh vid : is_u16 vid -> is_fresh (mkAttrib vid (applicant fresh_attribute) (registrar fresh_attribute)).
Proof using. intros Hv. split; [|done]. split_and!; [done| |done|done]. by repeat constructor. Qed.

(** What a command for one VID does. *)
Definition commanded (e : mrp_event) (vid : Z) (m : mvrp_database) (rc : Z) (m' : mvrp_database) : Prop :=
  (malloc_ok E -> rc = 0 /\ table (attrib_list m') = spec_event p2pmac e (Some vid) (table (attrib_list m))) /\
  (rc <> 0 -> attrib_list m' = attrib_list m).

Lemma cmd_vid_wp client buf e vid m fr ms (Q : Z -> mvrp_world -> Prop) :
  Inv m -> e <> EVENT_LVATIMER -> terminated MAX_MRPD_CMDSZ buf = true ->
  (forall rc m' fr' ms', Inv m' -> (restless m -> restless m') -> clients (mrp_db m') = clients (mrp_db m) ->
     (mvrp_cmd_parse_vid buf = (0, vid) -> commanded e vid m rc m') -> Q rc (at_db m' fr' ms')) ->
  safe (cmd_vid E p2pmac STATION_ADDR client buf e) Q (at_db m fr ms).
Proof using HT HR Hst.
  intros HI He Hb HQ. unfold cmd_vid. pose proof (cmd_parse_vid_u16 buf) as Hv.
  destruct (mvrp_cmd_parse_vid buf) as [rc v]. cbn [snd] in Hv.
  destruct (Z.eqb_spec rc 0) as [->|Hrc]; cbn [negb].
  2:{ apply wp_bind, respond_wp; [by apply command_left_terminated|]. intros ms'. apply wp_ret, HQ; try done. intros [= ->]. done. }
  unfold mvrp_cmd_vid. apply wp_bind, wp_bind, alloc_wp.
  - intros m1 H1. apply wp_bind. destruct (Inv_later _ _ H1 HI) as [(HI1&Hc1&Hr1) Heq1].
    eapply wp_mono; [apply (mvrp_event_wp E p2pmac STATION_ADDR HT HR Hst); [done|]|].
    { intros r [= <-]. by apply cmd_fresh. }
    intros z w (m2&fr2&ms2&->&HI2&Ht2&Hc2&Hr2). apply wp_ret, wp_ret, HQ; [done|by auto|congruence|].
    intros [= <-]. split; [|done]. intros _. split; [done|]. rewrite Ht2, Heq1. done.
  - intros m1 H1 HM. apply wp_ret. destruct (Inv_later _ _ H1 HI) as [(HI1&Hc1&Hr1) Heq1].
    apply wp_bind, respond_wp; [done|]. intros ms'. apply wp_ret, HQ; [done..|]. intros _. split; [by intros ?%HM|done].
Qed.

Definition cmd_post (m : mvrp_database) (w : mvrp_world) : Prop :=
  exists m' fr' ms', w = at_db m' fr' ms' /\ Inv m' /\ (restless m -> restless m').

(** Whatever text a client sends, a table that fits one message is safe. *)
Lemma mvrp_recv_cmd_wp buf client m fr ms :
  Inv m -> (30 * length (attrib_list m) < MAX_MRPD_CMDSZ)%nat -> terminated MAX_MRPD_CMDSZ buf = true ->
  safe (mvrp_recv_cmd E p2pmac STATION_ADDR buf client) (fun _ => cmd_post m) (at_db m fr ms).
Proof using HT HR Hst.
  intros HI Hn Hb. apply wp_bind, wp_gets. cbn [MVRP_db]. apply wp_bind, add_client_wp.
  intros m1 (Heq&HI1&Hr1) _ _. specialize (HI1 HI).
  assert (Hend : forall rc : Z, safe (mret rc) (fun _ => cmd_post m) (at_db m1 fr ms)).
  { intros rc. apply wp_ret. by exists m1, fr, ms. }
  assert (Hcmd : forall e, e <> EVENT_LVATIMER ->
    safe (cmd_vid E p2pmac STATION_ADDR client buf e) (fun _ => cmd_post m) (at_db m1 fr ms)).
  { intros e He. apply (cmd_vid_wp client buf e 0); [done..|]. intros rc m' fr' ms' HI' Hr' _ _.
    exists m', fr', ms'. by split_and!; auto. }
  destruct (length buf <? 3)%nat; [done|]. destruct (negb _); [done|].
  destruct (strneq 3 buf (str "V??")).
  { apply wp_bind, dumptable_wp; [rewrite Heq; apply HI|by rewrite Heq|].
    intros z m' ms' Hl. apply wp_ret. destruct (later_same_attributes _ _ Hl) as (_&?&?).
    exists m', fr, ms'. by split_and!; auto. }
  destruct (strneq 3 buf (str "V--")); [by apply Hcmd|].
  destruct (_ || _); [by apply Hcmd; destruct (_ =? 63)|].
  apply wp_bind, respond_wp; [done|]. intros ms'. apply wp_ret. by exists m1, fr, ms'.
Qed.

(** The event a command stands for. *)
Inductive vid_op : string -> mrp_event -> Prop :=
  | op_new : vid_op "V++" EVENT_NEW
  | op_join : vid_op "V+?" EVENT_JOIN
  | op_leave : vid_op "V--" EVENT_LV.

Lemma recv_vid_command_wp op e vid pad client m fr ms :
  Inv m -> vid_op op e -> is_u16 vid -> malloc_ok E ->
  safe (mvrp_recv_cmd E p2pmac STATION_ADDR (vid_command op vid pad) client)
    (fun rc w => rc = 0 /\ exists m' fr' ms', w = at_db m' fr' ms' /\ Inv m' /\ (restless m -> restless m') /\
       client_lookup (clients (mrp_db m')) (Some client) = true /\
       table (attrib_list m') = spec_event p2pmac e (Some vid) (table (attrib_list m))) (at_db m fr ms).
Proof using HT HR Hst.
  intros HI Hop Hv HM. apply wp_bind, wp_gets. cbn [MVRP_db]. apply wp_bind, add_client_wp.
  intros m1 (Heq&HI1&Hr1) _ Hc. specialize (HI1 HI). specialize (Hc HM).
  assert (Hcmd : forall a b c, str op = [a; b; c] -> e <> EVENT_LVATIMER ->
    safe (cmd_vid E p2pmac STATION_ADDR client (vid_command op vid pad) e)
    (fun rc w => rc = 0 /\ exists m' fr' ms', w = at_db m' fr' ms' /\ Inv m' /\ (restless m -> restless m') /\
       client_lookup (clients (mrp_db m')) (Some client) = true /\
       table (attrib_list m') = spec_event p2pmac e (Some vid) (table (attrib_list m))) (at_db m1 fr ms)).
  { intros a b c Hs He. apply (cmd_vid_wp client _ e vid); [done..|unfold vid_command; rewrite (assoc_L (++)); apply terminated_zeros|]. intros rc m' fr' ms' HI' Hr' Hcl Hpost.
    destruct Hpost as [Hpost _]; [unfold vid_command; rewrite Hs; by apply parse_vid_command|].
    destruct (Hpost HM) as [-> Ht]. rewrite Heq in Ht. split; [done|]. exists m', fr', ms'.
    split_and!; try done; [auto|by rewrite Hcl]. }
  destruct Hop; (eapply Hcmd; [reflexivity|done]).
Qed.

End Commands.

(** ** Initialisation *)

Section Init.
Context (E : Os) (HT : timers_ok E) (HR : random_ok E).

(** The database of a port that has just been initialised. *)
Lemma mvrp_init_wp en rs mal rt w :
  wp (fun _ => False) (mvrp_init E en rs mal rt)
    (fun rc w' => frames w' = frames w /\ messages w' = messages w /\
       match MVRP_db w' with
       | NoDb => en = 0 \/ rc = -1
       | Db m => rc = 0 /\ en <> 0 /\ Inv m /\ attrib_list m = [] /\ clients (mrp_db m) = [] /\
                 lva_timer_running (mrp_db m) = true
       | FreedDb => False
       end) w.
Proof using All.
  unfold mvrp_init. apply wp_bind, wp_modify. cbn beta.
  destruct (Z.eqb_spec en 0) as [->|Hen]; [cbn; auto|].
  destruct (rs <? 0); [cbn; auto|]. destruct mal; cbn [negb]; [|cbn; auto].
  destruct (rt <? 0); [cbn; auto|].
  set (db := mkMrpDb _ _ _ _ _ _ _ _ _ _ _). assert (Hdb : armed db) by (by constructor).
  pose proof (lvatimer_fsm_spec E HT HR db EVENT_BEGIN Hdb ltac:(auto)) as Hs.
  destruct (mrp_lvatimer_fsm E db EVENT_BEGIN) as [rc db']. destruct Hs as (_&Hr&Ha&Hc&_).
  apply wp_bind, wp_modify. cbn.
  split_and!; try done; [|by destruct Hc]. constructor; [constructor; cbn; try done|done|done].
  constructor.
Qed.

End Init.

(** ** MVRP: concrete stations

    A station that declares two VIDs and withdraws a third, and a peer that has
    registered the third. *)

Definition addr_a : list Z := [0x00; 0x1b; 0x21; 0x00; 0x00; 0x0a].
Definition addr_b : list Z := [0x00; 0x1b; 0x21; 0x00; 0x00; 0x0b].

(** An attribute between events: nothing marked, nothing to notify. *)
Definition at_rest (vid : Z) (a : applicant_state) (r : registrar_state) : mvrp_attribute :=
  mkAttrib vid (mkApplicant a false SND_NULL ENCODE_OPTIONAL (Some a))
    (mkRegistrar r NOTIFY_NONE (replicate 6 0) None).

Definition vid_3 : mvrp_attribute := at_rest 3 VN MT.
Definition vid_4 : mvrp_attribute := at_rest 4 VP MT.
Definition vid_9 : mvrp_attribute := at_rest 9 LA MT.

(** The timers of a port whose join timer is running. *)
Definition joining : mrp_database :=
  mkMrpDb (mkTimer TIMER_PASSIVE false SND_NONE) (Some MRP_JOINTIMER_VAL) true None false
    (Some 12000) true [] 0 0 0.

Definition station_a : mvrp_database := mkMvrpDb joining [vid_3; vid_4; vid_9] false.
Definition station_b : mvrp_database := mkMvrpDb joining [at_rest 9 AO IN] false.

Lemma at_rest_ok vid a r : is_u16 vid -> attr_ok (at_rest vid a r).
Proof. intros Hv. split_and!; [done| |done|done]. by repeat constructor. Qed.

Lemma joining_armed : armed joining.
Proof. constructor; [done..|]. intros _. by exists 12000. Qed.

(** A port at rest, with no attribute on its way out. *)
Lemma at_rest_Inv (l : list (Z * applicant_state * registrar_state)) :
  StronglySorted Z.lt ((fun '(v, _, _) => v) <$> l) ->
  Forall (fun '(v, _, r) => is_u16 v /\ r <> LV) l ->
  Inv (mkMvrpDb joining ((fun '(v, a, r) => at_rest v a r) <$> l) false).
Proof.
  intros Hs Hl. constructor; [constructor| |done]; cbn [attrib_list mrp_db].
  - unfold sorted. rewrite <- list_fmap_compose.
    replace (_ <$> l) with ((fun '(v, _, _) => v) <$> l); [done|].
    apply list_fmap_ext. by intros ? [[v a] r] ?.
  - apply Forall_fmap. eapply Forall_impl; [exact Hl|]. intros [[v a] r] [Hv _]. by apply at_rest_ok.
  - apply joining_armed.
  - apply Forall_fmap. eapply Forall_impl; [exact Hl|]. intros [[v a] r] [_ Hr] HLV. by destruct Hr.
  - apply Forall_fmap. eapply Forall_impl; [exact Hl|]. by intros [[v a] r] _.
Qed.

Lemma station_a_Inv : Inv station_a.
Proof.
  apply (at_rest_Inv [(3, VN, MT); (4, VP, MT); (9, LA, MT)]).
  - by repeat constructor.
  - by repeat constructor.
Qed.

Lemma station_b_Inv : Inv station_b.
Proof. apply (at_rest_Inv [(9, AO, IN)]); by repeat constructor. Qed.

Lemma station_a_vids : Forall valid_vid (attrib_list station_a).
Proof. by repeat constructor. Qed.

Lemma station_a_restless : restless station_a.
Proof. by repeat constructor. Qed.

Lemma station_0 addr : length addr = 6%nat -> bytes addr -> station os0 addr.
Proof. destruct os0_ok as (?&?&?). by constructor. Qed.

Lemma addr_a_ok : station os0 addr_a.
Proof. apply station_0; [done|]. by repeat constructor. Qed.

Lemma addr_b_ok : station os0 addr_b.
Proof. apply station_0; [done|]. by repeat constructor. Qed.
