(* ===== verification/MvrpCorrect.v ===== *)
(** * MVRP: theorems

    The properties of daemons/mrpd/mvrp.c, each with an instance at the stations of
    [MvrpCmd]. *)

From S2P Require Import Prelude.
From S2P Require Import CText.
From S2P Require Import Mrp.
From S2P Require Import MrpText.
From S2P Require Import MrpTheory.
From S2P Require Import Mvrp.
From S2P Require Import MvrpTheory.
From S2P Require Import MvrpEmit.
From S2P Require Import MvrpEvent.
From S2P Require Import MvrpRecv.
From S2P Require Import MvrpWire.
From S2P Require Import MvrpPeer.
From S2P Require Import MvrpCmd.
From Stdlib Require Import String.

Open Scope Z_scope.
Local Abbreviation length := List.length.

(** ** Events *)

(** C8: [mvrp_event] implements the abstract machine and keeps its database
    consistent.  From a consistent database (VIDs strictly ascending, timers armed as
    marked, a leave timer for every leaving attribute, no notification pending), any
    event with a freshly allocated attribute runs without a fault, ends in a
    consistent database with the same clients, and changes the table of applicant and
    registrar states exactly as [spec_event] says: which attributes are created,
    stepped, reclaimed. *)
Theorem mvrp_event_refines E p2pmac addr e ro m fr ms :
  timers_ok E -> random_ok E -> length addr = 6%nat ->
  Inv m -> (forall r, ro = Some r -> is_fresh r) ->
  wp (fun _ => False) (mvrp_event E p2pmac addr e ro)
    (fun _ w => exists m' fr' ms', w = at_db m' fr' ms' /\ Inv m' /\
       table (attrib_list m') = spec_event p2pmac e (attribute <$> ro) (table (attrib_list m)) /\
       clients (mrp_db m') = clients (mrp_db m)) (at_db m fr ms).
Proof.
  intros HT HR Ha HI Hro. eapply wp_mono; [by apply mvrp_event_wp|].
  intros z w (m'&fr'&ms'&?&?&?&?&_). by exists m', fr', ms'.
Qed.

Lemma mvrp_event_refines_witness :
  wp (fun _ => False) (mvrp_event os0 1 addr_b EVENT_RLV (Some (at_rest 9 VO MT)))
    (fun _ w => exists m' fr' ms', w = at_db m' fr' ms' /\ Inv m' /\
       table (attrib_list m') = spec_event 1 EVENT_RLV (Some 9) (table (attrib_list station_b)) /\
       clients (mrp_db m') = clients (mrp_db station_b)) (at_db station_b [] []).
Proof.
  refine (mvrp_event_refines os0 1 addr_b EVENT_RLV (Some (at_rest 9 VO MT)) station_b [] [] _ _ _ _ _).
  - exact (proj1 os0_ok).
  - exact (proj1 (proj2 os0_ok)).
  - reflexivity.
  - exact station_b_Inv.
  - intros r [= <-]. split; [|split; reflexivity]. apply at_rest_ok. unfold is_u16. lia.
Defined.

(** C9: a declaration reaches the peer.  When station A, with at most 390 attributes,
    has a transmission opportunity while the applicant of a VID still owes a
    declaration, exactly what it sends makes any station B that receives the frame
    register the VID: the exchange runs without a fault on both sides and B's
    registrar ends in state IN, whatever A's and B's other attributes are and whether
    or not the frame carries a LeaveAll. *)
Theorem mvrp_declaration_reaches_peer EA EB p2pA p2pB addrA addrB mA mB x :
  station EA addrA -> station EB addrB -> Inv mA -> fits mA -> Forall valid_vid (attrib_list mA) ->
  Inv mB -> x ∈ attrib_list mA -> (0 < owed (app_state (applicant x)))%nat ->
  exists wA mB' fr ms, exchange EA EB p2pA p2pB addrA addrB mA mB = Ok (wA, at_db mB' fr ms) /\
    Inv mB' /\ reg_at (table (attrib_list mB')) (attribute x) = Some IN.
Proof.
  intros HA HB HIA Hfit Hv HIB Hx Howe. destruct (owed_mandatory p2pA x Howe) as [Hm Hd].
  destruct (exchange_spec EA EB p2pA p2pB addrA addrB HA HB mA mB x HIA Hfit Hv HIB Hx Hm)
    as (wA&mB'&fr&ms&gs&lva&Hex&HIB'&Hc&Ht).
  exists wA, mB', fr, ms. split_and!; [done..|]. rewrite Ht.
  apply (delivered_at p2pB lva gs _ (at_tx p2pA x) (fun o => o = Some IN));
    [apply Hc|by apply (carries_all _ _ _ _ _ Hc)|].
  intros t' _. by apply deliver_declares.
Qed.

Lemma mvrp_declaration_reaches_peer_witness :
  exists wA mB' fr ms, exchange os0 os0 1 1 addr_a addr_b station_a station_b = Ok (wA, at_db mB' fr ms) /\
    Inv mB' /\ reg_at (table (attrib_list mB')) 3 = Some IN.
Proof.
  refine (mvrp_declaration_reaches_peer os0 os0 1 1 addr_a addr_b station_a station_b vid_3
            addr_a_ok addr_b_ok station_a_Inv _ station_a_vids station_b_Inv _ _).
  - unfold fits. cbn. lia.
  - left.
  - cbn. lia.
Defined.

(** C21: A withdrawal reaches the peer.  When the applicant of a VID is leaving, the
    frame of the transmission opportunity makes a station that has the VID registered
    start to forget it: its registrar ends in state LV with the leave timer running. *)
Theorem mvrp_withdrawal_reaches_peer EA EB p2pA p2pB addrA addrB mA mB x r :
  station EA addrA -> station EB addrB -> Inv mA -> fits mA -> Forall valid_vid (attrib_list mA) ->
  Inv mB -> x ∈ attrib_list mA -> app_state (applicant x) = LA ->
  reg_at (table (attrib_list mB)) (attribute x) = Some r -> registered r = true ->
  exists wA mB' fr ms, exchange EA EB p2pA p2pB addrA addrB mA mB = Ok (wA, at_db mB' fr ms) /\
    Inv mB' /\ reg_at (table (attrib_list mB')) (attribute x) = Some LV /\
    lv_timer_running (mrp_db mB') = true.
Proof.
  intros HA HB HIA Hfit Hv HIB Hx Hla Hr Hreg. destruct (leaving_mandatory p2pA x Hla) as [Hm Hd].
  destruct (exchange_spec EA EB p2pA p2pB addrA addrB HA HB mA mB x HIA Hfit Hv HIB Hx Hm)
    as (wA&mB'&fr&ms&gs&lva&Hex&HIB'&Hc&Ht).
  assert (HLV : reg_at (table (attrib_list mB')) (attribute x) = Some LV).
  { rewrite Ht. destruct (deliver_lva_registered p2pB lva _ _ _ Hr Hreg) as (r'&Hr'&Hreg').
    apply (delivered_at p2pB lva gs _ (at_tx p2pA x) (fun o => o = Some LV));
      [apply Hc|by apply (carries_all _ _ _ _ _ Hc)|].
    intros t' Ht'. eapply deliver_withdraws; [done|by rewrite Ht'|done]. }
  exists wA, mB', fr, ms. split_and!; [done..|]. by eapply leaving_timer.
Qed.

Lemma mvrp_withdrawal_reaches_peer_witness :
  exists wA mB' fr ms, exchange os0 os0 1 1 addr_a addr_b station_a station_b = Ok (wA, at_db mB' fr ms) /\
    Inv mB' /\ reg_at (table (attrib_list mB')) 9 = Some LV /\ lv_timer_running (mrp_db mB') = true.
Proof.
  refine (mvrp_withdrawal_reaches_peer os0 os0 1 1 addr_a addr_b station_a station_b vid_9 IN
            addr_a_ok addr_b_ok station_a_Inv _ station_a_vids station_b_Inv _ _ _ _).
  - unfold fits. cbn. lia.
  - do 2 right. left.
  - reflexivity.
  - reflexivity.
  - reflexivity.
Defined.

(** C13: whoever has something to send gets an opportunity.  Any event other than the
    expiry of the LeaveAll timer preserves that the join timer is running while some
    applicant is in a state that has to transmit; and such a timer is armed with
    100 ms. *)
Theorem mvrp_join_timer_running E p2pmac addr e ro m fr ms :
  timers_ok E -> random_ok E -> length addr = 6%nat ->
  Inv m -> (forall r, ro = Some r -> is_fresh r) -> e <> EVENT_LVATIMER -> restless m ->
  wp (fun _ => False) (mvrp_event E p2pmac addr e ro)
    (fun _ w => exists m' fr' ms', w = at_db m' fr' ms' /\ restless m' /\
       (Exists (fun x => anxious (app_state (applicant x)) = true) (attrib_list m') ->
        join_timer (mrp_db m') = Some 100)) (at_db m fr ms).
Proof.
  intros HT HR Ha HI Hro He Hr. eapply wp_mono; [by apply mvrp_event_wp|].
  intros z w (m'&fr'&ms'&->&HI'&_&_&Hrest). specialize (Hrest He Hr). exists m', fr', ms'.
  split_and!; [done..|]. intros (x&Hx&Hax)%Exists_exists. eapply Forall_forall in Hrest; [|exact Hx].
  apply (armed_join _ (inv_armed _ (inv_inv0 _ HI'))). auto.
Qed.

Lemma mvrp_join_timer_running_witness :
  wp (fun _ => False) (mvrp_event os0 1 addr_a EVENT_TX None)
    (fun _ w => exists m' fr' ms', w = at_db m' fr' ms' /\ restless m' /\
       (Exists (fun x => anxious (app_state (applicant x)) = true) (attrib_list m') ->
        join_timer (mrp_db m') = Some 100)) (at_db station_a [] []).
Proof.
  refine (mvrp_join_timer_running os0 1 addr_a EVENT_TX None station_a [] [] _ _ _ station_a_Inv _ _ station_a_restless).
  - exact (proj1 os0_ok).
  - exact (proj1 (proj2 os0_ok)).
  - reflexivity.
  - discriminate.
  - discriminate.
Defined.

(** ** Frames *)

(** C10: [mvrp_recv_msg] is safe on any frame.  Whatever bytes arrive, in any number up
    to four less than the receive buffer holds, they are parsed without reading outside
    the buffer, every loop ends, and the database is consistent afterwards. *)
Theorem mvrp_recv_msg_safe E p2pmac addr frame m fr ms :
  timers_ok E -> random_ok E -> length addr = 6%nat ->
  Inv m -> bytes frame -> (length frame + 4 <= MAX_FRAME_SIZE)%nat ->
  wp (fun _ => False) (mvrp_recv_msg E p2pmac addr frame)
    (fun _ w => exists m' fr' ms', w = at_db m' fr' ms' /\ Inv m' /\
       clients (mrp_db m') = clients (mrp_db m)) (at_db m fr ms).
Proof.
  intros HT HR Ha HI Hb Hl. eapply wp_mono; [by apply mvrp_recv_msg_wp|].
  intros z w (m'&fr'&ms'&->&HI'&Hc&_). by exists m', fr', ms'.
Qed.

(** A frame cut off in the middle of a vector. *)
Definition truncated_frame : list Z :=
  MVRP_CUSTOMER_BRIDGE_ADDR ++ addr_a ++ [0x88; 0xf5; 0; 1; 2; 0x00; 0x09; 0x00; 0x07].

Lemma mvrp_recv_msg_safe_witness :
  wp (fun _ => False) (mvrp_recv_msg os0 1 addr_b truncated_frame)
    (fun _ w => exists m' fr' ms', w = at_db m' fr' ms' /\ Inv m' /\
       clients (mrp_db m') = clients (mrp_db station_b)) (at_db station_b [] []).
Proof.
  refine (mvrp_recv_msg_safe os0 1 addr_b truncated_frame station_b [] [] _ _ _ station_b_Inv _ _).
  - exact (proj1 os0_ok).
  - exact (proj1 (proj2 os0_ok)).
  - reflexivity.
  - unfold truncated_frame. repeat constructor; unfold is_u8; cbn; lia.
  - unfold MAX_FRAME_SIZE. cbn. lia.
Defined.

(** A vector of 5937 Empty events that fills the receive buffer to its last byte. *)
Definition full_frame : list Z :=
  MVRP_CUSTOMER_BRIDGE_ADDR ++ addr_a ++ [0x88; 0xf5; 0; 1; 2] ++ be_bytes 2 5937 ++ [0; 1] ++
  replicate 1979 0xac.

(** The end of the buffer is not checked.  A frame that fills the 2000 byte buffer
    can make [mvrp_recv_msg] read behind it: the vector loop fetches one byte more than
    the vector has, and looks for the next header wherever that leaves it. *)
Theorem mvrp_recv_msg_full_frame_overreads :
  length full_frame = MAX_FRAME_SIZE /\
  mvrp_recv_msg os0 1 addr_b full_frame (at_db station_b [] []) = Fault OutOfBounds.
Proof. split; vm_compute; reflexivity. Qed.

(** C11: [mvrp_emit_vidvectors] never leaves its buffer and forgets nothing.  For any
    list of attributes that can be encoded, into a buffer of at most 2000 bytes with
    room for an empty message, the call stays within the buffer and changes only
    transmission marks.  If it succeeds, what it wrote is the wire image of runs of
    consecutive VIDs taken, in order, from the marked attributes, and contains every
    attribute whose transmission is mandatory unless the buffer is full, in which case
    the attribute keeps its mark; it fails only when the attributes do not fit. *)
Theorem mvrp_emit_vidvectors_complete pre free eof lva send_empty l :
  (eof <= 2000)%nat -> (length pre + length free = eof)%nat -> (8 <= length free)%nat ->
  Forall (fun b => b = 0) free -> Forall sendable l ->
  exists rc n buf l',
    mvrp_emit_vidvectors (pre ++ free) (length pre) eof lva send_empty l = Ok (rc, n, buf, l') /\
    cleared l l' /\
    ((rc = -1 /\ n = 0%nat /\ (eof < length pre + 5 * length l + 8)%nat) \/
     (rc = 0 /\ exists gs, message eof (length pre) lva send_empty l n l' gs /\
        (n <> 0%nat -> exists tail, buf = pre ++ [MVRP_VID_TYPE; 2] ++ body lva gs ++ [0; 0] ++ tail /\
           length buf = eof /\ n = (2 + length (body lva gs) + 2)%nat))).
Proof. intros He Hl Hf Hz Hs. apply emit_vidvectors_spec; [done..|lia|done|done]. Qed.

Lemma mvrp_emit_vidvectors_complete_witness :
  exists rc n buf l',
    mvrp_emit_vidvectors ([] ++ replicate 30 0) 0 30 true true (at_tx 1 <$> [vid_3; vid_4; vid_9]) = Ok (rc, n, buf, l') /\
    cleared (at_tx 1 <$> [vid_3; vid_4; vid_9]) l' /\
    ((rc = -1 /\ n = 0%nat /\ (30 < 0 + 5 * 3 + 8)%nat) \/
     (rc = 0 /\ exists gs, message 30 0 true true (at_tx 1 <$> [vid_3; vid_4; vid_9]) n l' gs /\
        (n <> 0%nat -> exists tail, buf = [] ++ [MVRP_VID_TYPE; 2] ++ body true gs ++ [0; 0] ++ tail /\
           length buf = 30%nat /\ n = (2 + length (body true gs) + 2)%nat))).
Proof.
  refine (mvrp_emit_vidvectors_complete [] (replicate 30 0) 30 true true (at_tx 1 <$> [vid_3; vid_4; vid_9]) _ _ _ _ _).
  - lia.
  - reflexivity.
  - cbn. lia.
  - repeat constructor.
  - repeat constructor; intros _; eexists; reflexivity.
Defined.

(** C12: what is sent is what is received.  The frame with the vectors [gs] of any
    station, handed to [mvrp_recv_msg], is accepted and applies exactly the events of
    its attributes: LeaveAll to the whole table first if the frame carries it, then one
    event per attribute, in order. *)
Theorem mvrp_recv_msg_applies_pdu E p2pmac addr src lva gs m fr ms :
  station E addr -> length src = 6%nat -> bytes src ->
  Inv m -> Forall sound_run gs -> gs <> [] -> (length (pdu src lva gs) <= MAX_FRAME_SIZE)%nat ->
  wp (fun _ => False) (mvrp_recv_msg E p2pmac addr (pdu src lva gs))
    (fun rc w => rc = 0 /\ exists m' fr' ms', w = at_db m' fr' ms' /\ Inv m' /\
       table (attrib_list m') = delivered p2pmac lva gs (table (attrib_list m))) (at_db m fr ms).
Proof.
  intros [HT HR HM Ha _] Hls Hsrc HI HF Hgs Hlen.
  eapply wp_mono; [by apply (recv_pdu_wp E p2pmac addr HT HR HM Ha src Hsrc Hls)|].
  intros rc w (->&m'&fr'&ms'&->&(HI'&_&_)&Ht). split; [done|]. by exists m', fr', ms'.
Qed.

(** The runs 3, 4 and 9, with a LeaveAll. *)
Definition sent_runs : list (list mvrp_attribute) := [at_tx 1 <$> [vid_3; vid_4]; [at_tx 1 vid_9]].

Lemma mvrp_recv_msg_applies_pdu_witness :
  wp (fun _ => False) (mvrp_recv_msg os0 1 addr_b (pdu addr_a true sent_runs))
    (fun rc w => rc = 0 /\ exists m' fr' ms', w = at_db m' fr' ms' /\ Inv m' /\
       table (attrib_list m') = delivered 1 true sent_runs (table (attrib_list station_b))) (at_db station_b [] []).
Proof.
  refine (mvrp_recv_msg_applies_pdu os0 1 addr_b addr_a true sent_runs station_b [] [] addr_b_ok _ _ station_b_Inv _ _ _).
  - reflexivity.
  - exact (st_bytes _ _ addr_a_ok).
  - repeat constructor; cbn; lia.
  - discriminate.
  - apply Nat.leb_le. vm_compute. reflexivity.
Defined.

(** ** Commands *)

(** Initialisation and commands.  [mvrp_init] either leaves no database (disabled,
    or it reports failure) or an empty consistent one with its LeaveAll timer running;
    and whatever text that ends within the receive buffer a client sends to a port with a
    consistent database of at most 49 attributes, [mvrp_recv_cmd] runs without a fault and leaves it consistent. *)
Theorem mvrp_commands_safe E p2pmac addr buf client m fr ms en rs mal rt :
  timers_ok E -> random_ok E -> length addr = 6%nat ->
  Inv m -> (length (attrib_list m) < 50)%nat -> terminated MAX_MRPD_CMDSZ buf = true ->
  wp (fun _ => False) (mvrp_recv_cmd E p2pmac addr buf client)
    (fun _ w => exists m' fr' ms', w = at_db m' fr' ms' /\ Inv m') (at_db m fr ms) /\
  wp (fun _ => False) (mvrp_init E en rs mal rt)
    (fun rc w' => match MVRP_db w' with
       | NoDb => en = 0 \/ rc = -1
       | Db m => rc = 0 /\ en <> 0 /\ Inv m /\ attrib_list m = [] /\ clients (mrp_db m) = [] /\
                 lva_timer_running (mrp_db m) = true
       | FreedDb => False
       end) (at_db m fr ms).
Proof.
  intros HT HR Ha HI Hn Hb. split.
  - eapply wp_mono; [apply mvrp_recv_cmd_wp; try done; unfold MAX_MRPD_CMDSZ; lia|].
    intros z w (m'&fr'&ms'&?&?&_). by exists m', fr', ms'.
  - eapply wp_mono; [by apply mvrp_init_wp|]. by intros rc w' (_&_&?).
Qed.

Lemma mvrp_commands_safe_witness :
  wp (fun _ => False) (mvrp_recv_cmd os0 1 addr_b (str "V??") (mkSockaddr 2 7500 1 []))
    (fun _ w => exists m' fr' ms', w = at_db m' fr' ms' /\ Inv m') (at_db station_b [] []).
Proof.
  refine (proj1 (mvrp_commands_safe os0 1 addr_b (str "V??") (mkSockaddr 2 7500 1 []) station_b [] [] 1 0 true 0
                   _ _ _ station_b_Inv _ _)).
  - exact (proj1 os0_ok).
  - exact (proj1 (proj2 os0_ok)).
  - reflexivity.
  - cbn. lia.
  - reflexivity.
Defined.

(** A command for a VID takes effect.  The texts V++, V+? and V-- with ":I=" and
    the four hexadecimal digits of any 16-bit VID, zero-terminated, make the client
    known and apply exactly the New, Join or Leave event to that VID: the parser of
    daemons/common/parse.c reads back the number that was printed. *)
Theorem mvrp_vid_command_effect E p2pmac addr op e vid pad client m fr ms :
  station E addr -> Inv m -> vid_op op e -> is_u16 vid ->
  wp (fun _ => False) (mvrp_recv_cmd E p2pmac addr (vid_command op vid pad) client)
    (fun rc w => rc = 0 /\ exists m' fr' ms', w = at_db m' fr' ms' /\ Inv m' /\
       client_lookup (clients (mrp_db m')) (Some client) = true /\
       table (attrib_list m') = spec_event p2pmac e (Some vid) (table (attrib_list m))) (at_db m fr ms).
Proof.
  intros [HT HR HM Ha _] HI Hop Hv. eapply wp_mono; [by apply (recv_vid_command_wp E p2pmac addr HT HR Ha op e)|].
  intros rc w (->&m'&fr'&ms'&->&?&_&?&?). split; [done|]. by exists m', fr', ms'.
Qed.

Lemma mvrp_vid_command_effect_witness :
  wp (fun _ => False) (mvrp_recv_cmd os0 1 addr_b (vid_command "V+?" 0x2a 5) (mkSockaddr 2 7500 1 []))
    (fun rc w => rc = 0 /\ exists m' fr' ms', w = at_db m' fr' ms' /\ Inv m' /\
       client_lookup (clients (mrp_db m')) (Some (mkSockaddr 2 7500 1 [])) = true /\
       table (attrib_list m') = spec_event 1 EVENT_JOIN (Some 0x2a) (table (attrib_list station_b)))
    (at_db station_b [] []).
Proof.
  refine (mvrp_vid_command_effect os0 1 addr_b "V+?" EVENT_JOIN 0x2a 5 (mkSockaddr 2 7500 1 []) station_b [] []
            addr_b_ok station_b_Inv op_join _).
  unfold is_u16. lia.
Defined.

(** The table dump holds 49 attributes.  The answer to V?? takes thirty characters
    for each attribute, unchecked, into 1500 bytes: with up to 49 attributes it is
    complete, with 50 or more it is written beyond the end of the buffer. *)
Theorem mvrp_dump_capacity l :
  Forall attr_ok l ->
  if (length l <? 50)%nat
  then exists text, dump_loop l [] = Ok text /\ length text = (30 * length l)%nat
  else dump_loop l [] = Fault OutOfBounds.
Proof.
  intros Hl. pose proof (dump_loop_spec l [] Hl) as Hd. cbn [length Nat.add] in Hd.
  specialize (Hd ltac:(unfold MAX_MRPD_CMDSZ; lia)). unfold MAX_MRPD_CMDSZ in Hd.
  destruct (Nat.ltb_spec (30 * length l) 1500), (Nat.ltb_spec (length l) 50); try lia; done.
Qed.

Lemma mvrp_dump_capacity_witness :
  dump_loop ((fun v => at_rest (Z.of_nat v) QA IN) <$> seq 1 50) [] = Fault OutOfBounds.
Proof.
  refine (mvrp_dump_capacity ((fun v => at_rest (Z.of_nat v) QA IN) <$> seq 1 50) _).
  apply Forall_fmap, Forall_seq. intros j Hj. apply at_rest_ok. unfold is_u16. lia.
Defined.
