(* ===== verification/CTextTheory.v ===== *)
(** * Numbers and words in text

    Printed numbers are read back by [strtoul] with base 0 or 16, and words that are
    separated by delimiters are the tokens of the text. *)

From S2P Require Import Prelude.
From S2P Require Import CText.
From Stdlib Require Import String.

Open Scope Z_scope.
Local Abbreviation length := List.length.

Definition dec_char (c : Z) : Prop := 48 <= c <= 57.

Definition dec_fold (l : list Z) (a : Z) : Z := fold_left (fun a c => a * 10 + digit_val c) l a.

Lemma dec_digit_val c : dec_char c -> digit_val c = c - 48.
Proof. unfold dec_char, digit_val. intros. repeat case_match; lia. Qed.

Lemma scan_digits_dec l a any :
  Forall dec_char l -> (l <> [] \/ any = true) -> scan_digits 10 l a any = Some (dec_fold l a).
Proof.
  intros HF. revert a any. induction HF as [|c l Hc _ IH]; intros a any Hany; cbn.
  - by destruct Hany as [| ->].
  - rewrite (proj2 (Z.ltb_lt _ _)); [apply IH; by right|]. rewrite dec_digit_val by done.
    unfold dec_char in Hc. lia.
Qed.

(** A positive number is printed with a leading digit that is not zero. *)
Lemma digits_loop_dec k : forall v acc,
  0 < v < 10 ^ Z.of_nat k -> Forall dec_char acc ->
  exists c l, digits_loop k 10 v acc = c :: l /\ 49 <= c <= 57 /\ Forall dec_char l /\
    dec_fold (c :: l) 0 = dec_fold acc v.
Proof.
  induction k as [|k IH]; intros v acc Hv Hacc; [cbn in Hv; lia|]. cbn [digits_loop].
  pose proof (Z.mod_pos_bound v 10 ltac:(lia)) as Hm. pose proof (Z.div_mod v 10 ltac:(lia)) as Hdm.
  assert (Hd : digit_char (v mod 10) = 48 + v mod 10)
    by (unfold digit_char; by rewrite (proj2 (Z.ltb_lt _ _)) by lia).
  assert (Hc : dec_char (digit_char (v mod 10))) by (unfold dec_char; lia).
  assert (Hdv : digit_val (digit_char (v mod 10)) = v mod 10) by (rewrite dec_digit_val by done; lia).
  destruct (Z.eqb_spec (v / 10) 0) as [Hz|Hz].
  - eexists _, _. split_and!; [done|lia..|done|]. cbn. rewrite Hdv. f_equal. lia.
  - rewrite Nat2Z.inj_succ, Z.pow_succ_r in Hv by lia.
    assert (0 <= v / 10) by (apply Z.div_pos; lia).
    assert (Hv' : 0 < v / 10 < 10 ^ Z.of_nat k) by (split; [lia|apply Z.div_lt_upper_bound; lia]).
    destruct (IH (v / 10) (digit_char (v mod 10) :: acc) Hv') as (c&l&H1&H2&H3&H4); [by constructor|].
    exists c, l. split_and!; [done|lia..|done|]. rewrite H4. cbn. rewrite Hdv. f_equal. lia.
Qed.

Lemma scan_base_10 c l : 49 <= c <= 57 -> scan_base 0 (c :: l) = (10, c :: l).
Proof.
  intros Hc. unfold scan_base. rewrite (proj2 (Z.eqb_neq c 48)) by lia.
  destruct l as [|x [|h l]]; [done..|]. by rewrite andb_false_r.
Qed.

Lemma scan_sign_pos c l : 48 <= c -> scan_sign (c :: l) = (false, c :: l).
Proof. intros. cbn. by rewrite !(proj2 (Z.eqb_neq _ _)) by lia. Qed.

Lemma digits_dec v : 0 < v < 2 ^ 64 ->
  exists c l, digits 20 10 v = c :: l /\ 49 <= c <= 57 /\ Forall dec_char (c :: l) /\ dec_fold (c :: l) 0 = v.
Proof.
  intros Hv. destruct (digits_loop_dec 20 v []) as (c&l&H); [cbn; lia|constructor|].
  destruct H as (?&?&?&?). exists c, l. split_and!; [done|lia..| |done]. constructor; [unfold dec_char; lia|done].
Qed.

Lemma skip_spaces_dense c l : 33 <= c -> skip_spaces (c :: l) = c :: l.
Proof.
  intros. cbn. unfold isspace. rewrite (proj2 (Z.eqb_neq _ _)), (proj2 (Z.leb_gt c 13)) by lia.
  by rewrite andb_false_r.
Qed.

(** [strtoul(s, NULL, 0)] of a number printed with [%d], negative ones wrapped. *)
Lemma strtoull_fmt_d v : - 2 ^ 62 <= v < 2 ^ 62 -> strtoull 0 (fmt_d v) = u64 v.
Proof.
  intros Hv. unfold strtoull, fmt_d. destruct (Z.ltb_spec v 0) as [Hneg|Hpos].
  - destruct (digits_dec (- v)) as (c&l&->&Hc&HF&He); [lia|].
    rewrite skip_spaces_dense by lia. unfold scan_int.
    change (scan_sign (45 :: c :: l)) with (true, c :: l). cbv iota beta.
    rewrite scan_base_10, scan_digits_dec by auto.
    rewrite He, (proj2 (Z.leb_gt _ _)) by lia. f_equal. lia.
  - destruct (decide (v = 0)) as [->|Hz]; [done|].
    destruct (digits_dec v) as (c&l&->&Hc&HF&He); [lia|].
    rewrite skip_spaces_dense by lia. unfold scan_int. rewrite scan_sign_pos by lia. cbv iota beta.
    rewrite scan_base_10, scan_digits_dec by auto.
    rewrite He, (proj2 (Z.leb_gt _ _)) by lia. by rewrite u64_small by (unfold is_u64; lia).
Qed.

(** [strtoull(s, NULL, 16)] of a number printed with [0x%llx]. *)
Lemma strtoull_fmt_x width v : is_u64 v -> strtoull 16 (str "0x" ++ fmt_x width v) = v.
Proof.
  intros Hv. destruct (fmt_x_hex width v Hv) as (HF&Hne&He). unfold strtoull.
  destruct (fmt_x width v) as [|h s]; [done|]. pose proof (Forall_inv HF) as Hh.
  change (skip_spaces (str "0x" ++ h :: s)) with (str "0x" ++ h :: s). unfold scan_int.
  change (scan_sign (str "0x" ++ h :: s)) with (false, str "0x" ++ h :: s). cbv iota beta.
  assert (scan_base 16 (str "0x" ++ h :: s) = (16, h :: s)) as ->
    by (cbn [str app scan_base]; by rewrite (hex_digit_val h Hh)).
  rewrite scan_digits_hex by auto. rewrite He, (proj2 (Z.leb_gt _ _)) by (unfold is_u64 in Hv; lia). done.
Qed.

(** ** Words *)

Section Words.
Context (delim : Z -> bool).

Definition word (w : list Z) : Prop := w <> [] /\ Forall (fun c => delim c = false) w.

Lemma tokens_app w s cur :
  Forall (fun c => delim c = false) w -> tokens delim (w ++ s) cur = tokens delim s (cur ++ w).
Proof.
  intros HF. revert cur. induction HF as [|c w Hc _ IH]; intros cur; cbn; [by rewrite app_nil_r|].
  rewrite Hc, IH. by rewrite <- app_assoc.
Qed.

Lemma tokens_word w d s : word w -> delim d = true -> tokens delim (w ++ d :: s) [] = w :: tokens delim s [].
Proof. intros [Hne HF] Hd. rewrite tokens_app by done. cbn. rewrite Hd. by destruct w. Qed.

(** A text of words, each with a delimiter in front but the first. *)
Lemma tokens_words w ws sep stop :
  word w -> Forall word ws -> delim sep = true -> Forall (fun c => delim c = true) stop -> stop <> [] ->
  tokens delim (w ++ List.concat (map (cons sep) ws) ++ stop) [] = w :: ws.
Proof.
  intros Hw HF Hsep Hstop Hne. revert w Hw. induction HF as [|w' ws Hw' _ IH]; intros w Hw.
  - destruct Hstop as [|d stop Hd Hstop]; [done|]. cbn. rewrite tokens_word by done. f_equal.
    clear Hne. induction Hstop as [|d' stop Hd' _ IH]; cbn; [done|]. by rewrite Hd'.
  - cbn. rewrite <- app_assoc. rewrite tokens_word by done. f_equal. by apply IH.
Qed.
End Words.

(** A number of any size takes up to 21 characters. *)
Lemma fmt_d_any v : (length (fmt_d v) <= 21)%nat.
Proof.
  unfold fmt_d, digits. pose proof (digits_loop_length 20 10 (- v) []). pose proof (digits_loop_length 20 10 v []).
  destruct (v <? 0); cbn [length] in *; lia.
Qed.
