(* ===== verification/MaapText.v ===== *)
(** * MAAP commands and notifications as text

    Model of daemons/maap/common/maap_parse.c and of [print_notify] in maap.c: how a
    command of a client, binary or text, becomes a call of the client's operations, and
    how a notification becomes lines of text. *)

From S2P Require Import Prelude.
From S2P Require Import Intervals.
From S2P Require Import MaapNet.
From S2P Require Import Maap.
From S2P Require Import CText.
From S2P Require Import CTextTheory.
From Stdlib Require Import String.

Open Scope Z_scope.
Local Abbreviation length := List.length.

Definition MAAP_DYNAMIC_POOL_BASE : Z := 0x91E0F0000000.
Definition MAAP_DYNAMIC_POOL_SIZE : Z := 0xFE00.

Definition MAAP_LOG_LEVEL_ERROR : Z := 1.
Definition MAAP_LOG_LEVEL_WARNING : Z := 2.
Definition MAAP_LOG_LEVEL_INFO : Z := 3.

(** ** Commands *)

Inductive Maap_Cmd_Tag : Type :=
  | MAAP_CMD_INVALID
  | MAAP_CMD_INIT
  | MAAP_CMD_RESERVE
  | MAAP_CMD_RELEASE
  | MAAP_CMD_STATUS
  | MAAP_CMD_YIELD
  | MAAP_CMD_EXIT.

Record Maap_Cmd : Type := mkCmd {
  cmd_kind : Maap_Cmd_Tag;
  cmd_id : Z;
  cmd_start : Z;
  cmd_count : Z
}.

(** The commands by their number; [None] for any other value. *)
Definition cmd_tag (k : Z) : option Maap_Cmd_Tag :=
  if k =? 1 then Some MAAP_CMD_INIT
  else if k =? 2 then Some MAAP_CMD_RESERVE
  else if k =? 3 then Some MAAP_CMD_RELEASE
  else if k =? 4 then Some MAAP_CMD_STATUS
  else if k =? 5 then Some MAAP_CMD_YIELD
  else if k =? 6 then Some MAAP_CMD_EXIT
  else None.

Definition strtoul_0 (s : list Z) : Z := strtoull 0 s.

Definition parse_text_cmd (buf : list Z) : option Maap_Cmd :=
  match strtok_all (str " " ++ [13; 10]) (cstr buf) with
  | [a0] =>
      if strneq 4 a0 (str "init") then
        Some (mkCmd MAAP_CMD_INIT (-1) MAAP_DYNAMIC_POOL_BASE MAAP_DYNAMIC_POOL_SIZE)
      else if strneq 7 a0 (str "reserve") then None
      else if strneq 4 a0 (str "exit") then Some (mkCmd MAAP_CMD_EXIT (-1) 0 0)
      else None
  | [a0; a1] =>
      if strneq 4 a0 (str "init") then None
      else if strneq 7 a0 (str "reserve") then
        Some (mkCmd MAAP_CMD_RESERVE (-1) 0 (u32 (strtoul_0 a1)))
      else if strneq 7 a0 (str "release") then Some (mkCmd MAAP_CMD_RELEASE (s32 (strtoul_0 a1)) 0 0)
      else if strneq 7 a0 (str "status") then Some (mkCmd MAAP_CMD_STATUS (s32 (strtoul_0 a1)) 0 0)
      else if strneq 7 a0 (str "yield") then Some (mkCmd MAAP_CMD_YIELD (s32 (strtoul_0 a1)) 0 0)
      else None
  | [a0; a1; a2] =>
      if strneq 4 a0 (str "init") then
        Some (mkCmd MAAP_CMD_INIT (-1) (strtoull 16 a1) (u32 (strtoul_0 a2)))
      else if strneq 7 a0 (str "reserve") then
        Some (mkCmd MAAP_CMD_RESERVE (-1) (strtoull 16 a1) (u32 (strtoul_0 a2)))
      else None
  | _ => None
  end.

(** A little-endian field of the buffer. *)
Definition le_val (bs : list Z) : Z := be_val (rev bs).
Definition le_field (buf : list Z) (off n : nat) : outcome Z := bs ← read_bytes buf off n; Ok (le_val bs).

(** The [Maap_Cmd] structure at the start of the buffer: its fields at offsets 4, 8 and
    16 behind the command number. *)
Definition binary_cmd (kind : Maap_Cmd_Tag) (buf : list Z) : outcome Maap_Cmd :=
  buf ← read_bytes buf 0 24;
  i ← le_field buf 4 4;
  s ← le_field buf 8 8;
  c ← le_field buf 16 4;
  Ok (mkCmd kind (s32 i) s c).

(** The operation a command stands for, and whether the daemon is to exit. *)
Definition run_cmd (E : Env) (who : Z) (cmd : Maap_Cmd) : MAAP Z :=
  match cmd_kind cmd with
  | MAAP_CMD_INIT => _ ← maap_init_client E who (cmd_start cmd) (cmd_count cmd); mret 0
  | MAAP_CMD_RESERVE => _ ← maap_reserve_range E who (cmd_start cmd) (cmd_count cmd); mret 0
  | MAAP_CMD_RELEASE => _ ← maap_release_range E who (cmd_id cmd); mret 0
  | MAAP_CMD_STATUS => _ ← maap_range_status E who (cmd_id cmd); mret 0
  | MAAP_CMD_YIELD => _ ← maap_yield_range E who (cmd_id cmd); mret 0
  | MAAP_CMD_EXIT => mret 1
  | MAAP_CMD_INVALID => mret (-1)
  end.

(** Result and [*input_is_text].  A text that is not terminated is read past the end of
    its buffer. *)
Definition parse_write (E : Env) (who : Z) (buf : list Z) : MAAP (Z * bool) :=
  k ← lift (le_field buf 0 4);
  match cmd_tag k with
  | Some kind => cmd ← lift (binary_cmd kind buf); rv ← run_cmd E who cmd; mret (rv, false)
  | None =>
      if negb (existsb (Z.eqb 0) buf) then raise OutOfBounds
      else
        match parse_text_cmd buf with
        | Some cmd => rv ← run_cmd E who cmd; mret (rv, true)
        | None => mret (-1, true)
        end
  end.

(** The lines of [parse_usage]; the one with the defaults goes through a 100 byte
    buffer. *)
Definition parse_usage : outcome (list (list Z)) :=
  defaults ← sprintf 100 (str "        range_base=0x" ++ fmt_x 0 MAAP_DYNAMIC_POOL_BASE ++
                          str ", range_size=0x" ++ fmt_x 4 MAAP_DYNAMIC_POOL_SIZE ++ str ".");
  Ok [str "Input usage:";
      str "    init [<range_base> <range_size>] - Initialize the MAAP daemon to recognize";
      str "        the specified range of addresses.  If not specified, it uses";
      defaults;
      str "    reserve [<addr_base>] <addr_size> - Reserve a range of addresses of size";
      str "        <addr_size> in the initialized range.  If <addr_base> is specified,";
      str "        that address base will be attempted first.";
      str "    release <id> - Release the range of addresses with identifier ID";
      str "    status <id> - Get the range of addresses associated with identifier ID";
      str "    yield <id> - Yield the range of addresses associated with identifier ID.";
      str "        This is only useful for testing.";
      str "    exit - Shutdown the MAAP daemon";
      str " "].

(** ** Notifications *)

Definition line : Type := Z * list Z.

(** A line formatted into the 300 bytes of [szOutput]. *)
Definition formatted (level : Z) (text : list Z) : outcome (list line) :=
  t ← sprintf 300 text; Ok [(level, t)].

(** [0x%012llx-0x%012llx] of a block, and its size as [%d]. *)
Definition block_text (mn : Maap_Notify) : list Z :=
  str "0x" ++ fmt_x 12 (start mn) ++ str "-0x" ++ fmt_x 12 (u64 (start mn + count mn - 1)).
Definition size_text (mn : Maap_Notify) : list Z := fmt_d (s32 (count mn)).

Definition error_lines (result : Maap_Notify_Error) : list line :=
  match result with
  | MAAP_NOTIFY_ERROR_NONE => []
  | MAAP_NOTIFY_ERROR_REQUIRES_INITIALIZATION =>
      [(MAAP_LOG_LEVEL_ERROR, str "MAAP is not initialized, so the command cannot be performed.")]
  | MAAP_NOTIFY_ERROR_ALREADY_INITIALIZED =>
      [(MAAP_LOG_LEVEL_ERROR, str "MAAP is already initialized, so the values cannot be changed.")]
  | MAAP_NOTIFY_ERROR_RESERVE_NOT_AVAILABLE =>
      [(MAAP_LOG_LEVEL_ERROR,
        str "The MAAP reservation is not available, or yield cannot allocate a replacement block. " ++
        str "Try again with a smaller address block size.")]
  | MAAP_NOTIFY_ERROR_RELEASE_INVALID_ID =>
      [(MAAP_LOG_LEVEL_ERROR,
        str "The MAAP reservation ID is not valid, so cannot be released or report its status.")]
  | MAAP_NOTIFY_ERROR_OUT_OF_MEMORY =>
      [(MAAP_LOG_LEVEL_ERROR, str "The MAAP application is out of memory.")]
  | MAAP_NOTIFY_ERROR_INTERNAL =>
      [(MAAP_LOG_LEVEL_ERROR, str "The MAAP application experienced an internal error.")]
  end.

Definition is_none (e : Maap_Notify_Error) : bool := bool_decide (e = MAAP_NOTIFY_ERROR_NONE).

Definition kind_lines (mn : Maap_Notify) : outcome (list line) :=
  let ident := fmt_d (n_id mn) in
  match kind mn with
  | MAAP_NOTIFY_INITIALIZED =>
      if is_none (result mn) then
        formatted MAAP_LOG_LEVEL_INFO
          (str "MAAP initialized:  " ++ block_text mn ++ str " (Size: " ++ size_text mn ++ str ")")
      else
        formatted MAAP_LOG_LEVEL_ERROR
          (str "MAAP previously initialized to " ++ block_text mn ++ str " (Size: " ++ size_text mn ++ str ")")
  | MAAP_NOTIFY_ACQUIRING =>
      if is_none (result mn) then
        formatted MAAP_LOG_LEVEL_INFO
          (str "Address range " ++ ident ++ str " querying:  " ++ block_text mn ++ str " (Size " ++ size_text mn ++ str ")")
      else
        formatted MAAP_LOG_LEVEL_ERROR
          (str "Unknown address range " ++ ident ++ str " acquisition error")
  | MAAP_NOTIFY_ACQUIRED =>
      if is_none (result mn) then
        formatted MAAP_LOG_LEVEL_INFO
          (str "Address range " ++ ident ++ str " acquired:  " ++ block_text mn ++ str " (Size " ++ size_text mn ++ str ")")
      else if negb (n_id mn =? -1) then
        formatted MAAP_LOG_LEVEL_ERROR
          (str "Address range " ++ ident ++ str " of size " ++ size_text mn ++ str " not acquired")
      else
        formatted MAAP_LOG_LEVEL_ERROR (str "Address range of size " ++ size_text mn ++ str " not acquired")
  | MAAP_NOTIFY_RELEASED =>
      if is_none (result mn) then
        formatted MAAP_LOG_LEVEL_INFO
          (str "Address range " ++ ident ++ str " released:  " ++ block_text mn ++ str " (Size " ++ size_text mn ++ str ")")
      else
        formatted MAAP_LOG_LEVEL_ERROR (str "Address range " ++ ident ++ str " not released")
  | MAAP_NOTIFY_STATUS =>
      if is_none (result mn) then
        formatted MAAP_LOG_LEVEL_INFO
          (str "ID " ++ ident ++ str " is address range " ++ block_text mn ++ str " (Size " ++ size_text mn ++ str ")")
      else
        formatted MAAP_LOG_LEVEL_ERROR (str "ID " ++ ident ++ str " is not valid")
  | MAAP_NOTIFY_YIELDED =>
      if negb (bool_decide (result mn = MAAP_NOTIFY_ERROR_REQUIRES_INITIALIZATION)) &&
         negb (bool_decide (result mn = MAAP_NOTIFY_ERROR_RELEASE_INVALID_ID)) then
        l ← formatted MAAP_LOG_LEVEL_WARNING
              (str "Address range " ++ ident ++ str " yielded:  " ++ block_text mn ++ str " (Size " ++ size_text mn ++ str ")");
        Ok (l ++ if is_none (result mn) then []
                 else [(MAAP_LOG_LEVEL_ERROR, str "A new address range will not be allocated")])
      else
        formatted MAAP_LOG_LEVEL_ERROR (str "ID " ++ ident ++ str " is not valid")
  | MAAP_NOTIFY_INVALID =>
      formatted MAAP_LOG_LEVEL_ERROR (str "Notification type " ++ fmt_d 0 ++ str " not recognized")
  end.

Definition print_notify (mn : Maap_Notify) : outcome (list line) :=
  l ← kind_lines mn; Ok (error_lines (result mn) ++ l).

(** ** Lemmas *)

Definition notify_ok (mn : Maap_Notify) : Prop :=
  - 2 ^ 31 <= n_id mn < 2 ^ 31 /\ is_u64 (start mn) /\ is_u32 (count mn).

Lemma formatted_Ok level text : (length text < 300)%nat -> formatted level text = Ok [(level, text)].
Proof. intros H. unfold formatted. by rewrite sprintf_Ok. Qed.

Lemma s32_range x : - 2 ^ 31 <= s32 x < 2 ^ 31.
Proof. unfold s32. pose proof (Z.mod_pos_bound (x + 2 ^ 31) (2 ^ 32) ltac:(lia)). lia. Qed.

Lemma ident_length mn : notify_ok mn -> (length (fmt_d (n_id mn)) <= 11)%nat.
Proof. intros (Hi&_&_). apply fmt_d_length. lia. Qed.

Lemma size_length mn : (length (size_text mn) <= 11)%nat.
Proof. apply fmt_d_length. pose proof (s32_range (count mn)). lia. Qed.

Lemma block_length mn : notify_ok mn -> (length (block_text mn) <= 37)%nat.
Proof.
  intros (_&Hs&_). unfold block_text.
  pose proof (fmt_x_length 12 (start mn) Hs). pose proof (fmt_x_length 12 _ (u64_bound (start mn + count mn - 1))).
  rewrite !length_app. cbn [length str]. lia.
Qed.

(** Every line fits its buffer. *)
Lemma kind_lines_Ok mn :
  notify_ok mn -> exists l, kind_lines mn = Ok l /\ l <> [] /\ Forall (fun x => length x.2 < 300)%nat l.
Proof.
  intros Hok. pose proof (ident_length mn Hok). pose proof (size_length mn). pose proof (block_length mn Hok).
  pose proof (fmt_d_length 0 ltac:(lia)).
  assert (Hf : forall level text, (length text < 300)%nat ->
    exists l, formatted level text = Ok l /\ l <> [] /\ Forall (fun x => length x.2 < 300)%nat l).
  { intros level text Ht. rewrite formatted_Ok by done. eexists. split_and!; [done..|by constructor]. }
  unfold kind_lines. destruct (kind mn); repeat case_match;
    try (apply Hf; rewrite ?length_app; cbn [length str]; lia).
  all: rewrite formatted_Ok by (rewrite ?length_app; cbn [length str]; lia); cbn_outcome;
    eexists; split_and!; [done..|]; apply Forall_app; split;
    [constructor; [cbn [snd]; rewrite ?length_app; cbn [length str]; lia|constructor]|].
  - constructor.
  - constructor; [by apply Nat.ltb_lt|constructor].
Qed.

Lemma error_lines_fit r : Forall (fun x => length x.2 < 300)%nat (error_lines r).
Proof. destruct r; cbn [error_lines]; constructor; try constructor; apply Nat.ltb_lt; reflexivity. Qed.

(** ** Texts of commands

    A command as a client writes it. *)

Definition cmd_text (cmd : Maap_Cmd) : list Z :=
  let words name args := str name ++ List.concat (map (fun a => 32 :: a) args) ++ [13; 10] in
  match cmd_kind cmd with
  | MAAP_CMD_INIT => words "init"%string [str "0x" ++ fmt_x 0 (cmd_start cmd); fmt_d (cmd_count cmd)]
  | MAAP_CMD_RESERVE => words "reserve"%string [str "0x" ++ fmt_x 0 (cmd_start cmd); fmt_d (cmd_count cmd)]
  | MAAP_CMD_RELEASE => words "release"%string [fmt_d (cmd_id cmd)]
  | MAAP_CMD_STATUS => words "status"%string [fmt_d (cmd_id cmd)]
  | MAAP_CMD_YIELD => words "yield"%string [fmt_d (cmd_id cmd)]
  | MAAP_CMD_EXIT => words "exit"%string []
  | MAAP_CMD_INVALID => []
  end.

(** The image of the structure in the memory of a little-endian machine, with any
    padding behind it. *)
Definition cmd_number (k : Maap_Cmd_Tag) : Z :=
  match k with
  | MAAP_CMD_INVALID => 0 | MAAP_CMD_INIT => 1 | MAAP_CMD_RESERVE => 2 | MAAP_CMD_RELEASE => 3
  | MAAP_CMD_STATUS => 4 | MAAP_CMD_YIELD => 5 | MAAP_CMD_EXIT => 6
  end.
Definition le_bytes (n : nat) (v : Z) : list Z := rev (be_bytes n v).
Definition cmd_image (cmd : Maap_Cmd) (pad : list Z) : list Z :=
  le_bytes 4 (cmd_number (cmd_kind cmd)) ++ le_bytes 4 (cmd_id cmd) ++ le_bytes 8 (cmd_start cmd) ++
  le_bytes 4 (cmd_count cmd) ++ pad.

Definition cmd_ok (cmd : Maap_Cmd) : Prop :=
  - 2 ^ 31 <= cmd_id cmd < 2 ^ 31 /\ is_u64 (cmd_start cmd) /\ is_u32 (cmd_count cmd) /\
  cmd_kind cmd <> MAAP_CMD_INVALID.

(** What an operation sees of a command. *)
Definition cmd_used (cmd : Maap_Cmd) : Maap_Cmd :=
  match cmd_kind cmd with
  | MAAP_CMD_INIT | MAAP_CMD_RESERVE => mkCmd (cmd_kind cmd) (-1) (cmd_start cmd) (cmd_count cmd)
  | MAAP_CMD_EXIT => mkCmd MAAP_CMD_EXIT (-1) 0 0
  | k => mkCmd k (cmd_id cmd) 0 0
  end.

Lemma run_cmd_used E who cmd : run_cmd E who (cmd_used cmd) = run_cmd E who cmd.
Proof. unfold cmd_used, run_cmd. by destruct cmd as [[] ? ? ?]. Qed.

(** Characters of a word. *)
Definition plain (c : Z) : Prop := 33 <= c <= 126.

Lemma plain_check l : forallb (fun c => (33 <=? c) && (c <=? 126)) l = true -> Forall plain l.
Proof.
  intros H. apply List.Forall_forall. intros c Hc. rewrite forallb_forall in H. specialize (H c Hc).
  unfold plain. lia.
Qed.

Lemma fmt_d_plain v : - 2 ^ 62 <= v < 2 ^ 62 -> fmt_d v <> [] /\ Forall plain (fmt_d v).
Proof.
  assert (Hd : forall l, Forall dec_char l -> Forall plain l)
    by (intros l Hl; eapply List.Forall_impl; [|exact Hl]; unfold dec_char, plain; cbn; intros; lia).
  intros Hv. unfold fmt_d. destruct (Z.ltb_spec v 0).
  - destruct (digits_dec (- v)) as (c&l&->&_&HF&_); [lia|].
    split; [done|]. constructor; [unfold plain; lia|auto].
  - destruct (decide (v = 0)) as [->|].
    { change (digits 20 10 0) with [48]. split; [done|]. constructor; [unfold plain; lia|constructor]. }
    destruct (digits_dec v) as (c&l&->&_&HF&_); [lia|]. auto.
Qed.

Lemma hex_word_plain width v : is_u64 v -> Forall plain (str "0x" ++ fmt_x width v).
Proof.
  intros Hv. destruct (fmt_x_hex width v Hv) as (HF&_&_). apply Forall_app. split.
  - by apply plain_check.
  - eapply List.Forall_impl; [|exact HF]. unfold hex_char, plain. cbn. intros; lia.
Qed.

Definition spaces (c : Z) : bool := existsb (Z.eqb c) (str " " ++ [13; 10]).

Lemma plain_word w : w <> [] -> Forall plain w -> word spaces w.
Proof.
  intros Hne HF. split; [done|]. eapply List.Forall_impl; [|exact HF]. unfold plain, spaces. cbn [str app existsb].
  intros c Hc. change (Z.of_nat _) with 32.
  rewrite !(proj2 (Z.eqb_neq _ _)) by lia. done.
Qed.

(** The words of a line. *)
Lemma line_words name args rest :
  name <> [] -> Forall plain name -> Forall (fun a => a <> [] /\ Forall plain a) args ->
  strtok_all (str " " ++ [13; 10])
    (cstr ((name ++ List.concat (map (fun a => 32 :: a) args) ++ [13; 10]) ++ 0 :: rest)) = name :: args.
Proof.
  intros Hne Hn Ha. rewrite cstr_app.
  - apply tokens_words with (sep := 32); [by apply plain_word| |done|by repeat constructor|done].
    eapply List.Forall_impl; [|exact Ha]. intros a [? ?]. by apply plain_word.
  - assert (Hz : forall l, Forall plain l -> Forall (fun c => c <> 0) l)
      by (intros l Hl; eapply List.Forall_impl; [|exact Hl]; unfold plain; cbn; intros; lia).
    apply Forall_app. split; [auto|]. apply Forall_app. split; [|by repeat constructor].
    induction Ha as [|a args [_ Ha] _ IH]; [constructor|]. cbn. constructor; [done|].
    apply Forall_app. auto.
Qed.

Lemma s32_u64 v : - 2 ^ 31 <= v < 2 ^ 31 -> s32 (u64 v) = v.
Proof.
  intros Hv. unfold u64. destruct (decide (0 <= v)).
  - rewrite Z.mod_small by lia. by apply s32_small.
  - replace (v mod 2 ^ 64) with (v + 2 ^ 64) by (apply Z.mod_unique with (-1); lia).
    unfold s32. replace (v + 2 ^ 64 + 2 ^ 31) with (v + 2 ^ 31 + 2 ^ 32 * 2 ^ 32) by lia.
    rewrite Z.mod_add, Z.mod_small by lia. lia.
Qed.

(** The text of a command is parsed as the command. *)
Lemma parse_cmd_text cmd rest :
  cmd_ok cmd -> parse_text_cmd (cmd_text cmd ++ 0 :: rest) = Some (cmd_used cmd).
Proof.
  intros (Hi&Hs&Hc&Hk). unfold is_u32 in Hc.
  assert (Hid : fmt_d (cmd_id cmd) <> [] /\ Forall plain (fmt_d (cmd_id cmd))) by (apply fmt_d_plain; lia).
  assert (Hcnt : fmt_d (cmd_count cmd) <> [] /\ Forall plain (fmt_d (cmd_count cmd))) by (apply fmt_d_plain; lia).
  pose proof (hex_word_plain 0 _ Hs) as Hst.
  assert (Hst' : str "0x" ++ fmt_x 0 (cmd_start cmd) <> []) by discriminate.
  pose proof (strtoull_fmt_x 0 _ Hs) as Es. set (hex := str "0x" ++ _) in *.
  assert (Ec : u32 (strtoull 0 (fmt_d (cmd_count cmd))) = cmd_count cmd).
  { rewrite strtoull_fmt_d, (u64_small (cmd_count cmd)), u32_small by (unfold is_u64, is_u32; lia). done. }
  assert (Ei : s32 (strtoull 0 (fmt_d (cmd_id cmd))) = cmd_id cmd).
  { rewrite strtoull_fmt_d by lia. by apply s32_u64. }
  destruct (cmd_kind cmd) eqn:E; [done|..];
    unfold parse_text_cmd, cmd_text, cmd_used, strtoul_0; rewrite E; fold hex;
    (rewrite line_words;
      [|discriminate|by apply plain_check|rewrite ?Forall_cons, Forall_nil; auto]);
    cbv beta iota; rewrite ?Es, ?Ec, ?Ei; reflexivity.
Qed.

(** ** The two encodings *)

Lemma le_val_bytes n v : le_val (le_bytes n v) = v mod 2 ^ (8 * Z.of_nat n).
Proof. unfold le_val, le_bytes. by rewrite rev_involutive, be_val_bytes. Qed.

Lemma length_le_bytes n v : length (le_bytes n v) = n.
Proof. unfold le_bytes. by rewrite length_rev, length_be_bytes. Qed.

Lemma le_field_at a n v rest :
  le_field (a ++ le_bytes n v ++ rest) (length a) n = Ok (v mod 2 ^ (8 * Z.of_nat n)).
Proof.
  unfold le_field. rewrite read_bytes_Ok by (rewrite !length_app, length_le_bytes; lia). cbn_outcome.
  rewrite drop_app_length, take_app_le, take_ge by (rewrite length_le_bytes; lia). by rewrite le_val_bytes.
Qed.

Lemma le_field_here off a n v rest :
  length a = off -> le_field (a ++ le_bytes n v ++ rest) off n = Ok (v mod 2 ^ (8 * Z.of_nat n)).
Proof. intros <-. apply le_field_at. Qed.

Lemma s32_mod v : - 2 ^ 31 <= v < 2 ^ 31 -> s32 (v mod 2 ^ 32) = v.
Proof.
  intros Hv. unfold s32. rewrite Zplus_mod_idemp_l. rewrite Z.mod_small by lia. lia.
Qed.

Lemma binary_cmd_image cmd pad rest :
  cmd_ok cmd -> length pad = 4%nat -> binary_cmd (cmd_kind cmd) (cmd_image cmd pad ++ rest) = Ok cmd.
Proof.
  intros (Hi&Hs&Hc&_) Hp. unfold binary_cmd.
  assert (Hl : length (cmd_image cmd pad) = 24%nat).
  { unfold cmd_image. rewrite !length_app, !length_le_bytes, Hp. done. }
  rewrite read_bytes_Ok by (rewrite length_app; lia). cbn_outcome.
  rewrite drop_0, take_app_le, take_ge by lia. unfold cmd_image.
  rewrite (le_field_here 4) by apply length_le_bytes. cbn_outcome.
  rewrite app_assoc, (le_field_here 8) by (by rewrite length_app, !length_le_bytes). cbn_outcome.
  rewrite app_assoc, (le_field_here 16) by (by rewrite !length_app, !length_le_bytes). cbn_outcome.
  change (8 * Z.of_nat 4) with 32. change (8 * Z.of_nat 8) with 64.
  rewrite s32_mod, !Z.mod_small by done. by destruct cmd.
Qed.

(** A text of at least four characters that do not spell a command number. *)
Lemma parse_write_text E who cmd rest w :
  cmd_ok cmd ->
  parse_write E who (cmd_text cmd ++ 0 :: rest) w = (rv ← run_cmd E who cmd; mret (rv, true)) w.
Proof.
  intros Hok. pose proof (parse_cmd_text cmd rest Hok) as Hp. unfold parse_write.
  assert (Hz : existsb (Z.eqb 0) (cmd_text cmd ++ 0 :: rest) = true)
    by (apply existsb_exists; exists 0; split; [apply in_app_iff; right; by left|done]).
  assert (Hk : exists k, le_field (cmd_text cmd ++ 0 :: rest) 0 4 = Ok k /\ cmd_tag k = None).
  { clear Hp Hz. destruct Hok as (_&_&_&Hk). unfold cmd_text. destruct (cmd_kind cmd); [done|..];
      (eexists; split; [unfold le_field; rewrite read_bytes_Ok by (rewrite !length_app; cbn [length str]; lia);
        cbn_outcome; cbn [str app drop take]; reflexivity|by vm_compute]). }
  destruct Hk as (k&Hk&Ht). rewrite Hk. unfold mbind at 1, M_bind at 1, lift at 1. cbv beta iota.
  rewrite Ht, Hz, Hp. cbn [negb]. by rewrite run_cmd_used.
Qed.

Lemma parse_write_binary E who cmd pad rest w :
  cmd_ok cmd -> length pad = 4%nat ->
  parse_write E who (cmd_image cmd pad ++ rest) w = (rv ← run_cmd E who cmd; mret (rv, false)) w.
Proof.
  intros Hok Hp. unfold parse_write.
  assert (Hk : le_field (cmd_image cmd pad ++ rest) 0 4 = Ok (cmd_number (cmd_kind cmd))).
  { unfold cmd_image. rewrite <- !app_assoc. etrans; [exact (le_field_here 0 [] 4 _ _ eq_refl)|].
    f_equal. by destruct (cmd_kind cmd). }
  assert (Ht : cmd_tag (cmd_number (cmd_kind cmd)) = Some (cmd_kind cmd)).
  { destruct Hok as (_&_&_&Hk'). by destruct (cmd_kind cmd). }
  rewrite Hk. unfold mbind at 1, M_bind at 1, lift at 1. cbv beta iota.
  by rewrite Ht, binary_cmd_image.
Qed.
