(* ===== verification/LogQueue.v ===== *)
(** * The log queue

    Model of daemons/maap/common/maap_log_queue.c: a ring of preallocated elements
    between the tasks that log and the task that prints.  A queue pointer is an
    optional queue, an element pointer is the index of its slot. *)

From S2P Require Import Prelude.

Open Scope Z_scope.
Local Abbreviation length := List.length.

Record maap_log_queue_elem : Type := mkElem { setFlg : bool; data : list Z }.

Record maap_log_queue : Type := mkQueue {
  elemSize : Z;
  queueSize : Z;
  head : Z;
  tail : Z;
  elemArray : list maap_log_queue_elem
}.

Definition set_head (h : Z) (q : maap_log_queue) : maap_log_queue :=
  mkQueue (elemSize q) (queueSize q) h (tail q) (elemArray q).
Definition set_tail (t : Z) (q : maap_log_queue) : maap_log_queue :=
  mkQueue (elemSize q) (queueSize q) (head q) t (elemArray q).
Definition set_elems (es : list maap_log_queue_elem) (q : maap_log_queue) : maap_log_queue :=
  mkQueue (elemSize q) (queueSize q) (head q) (tail q) es.

(** ** Creation

    [calloc_ok n] tells whether the n-th allocation of the call succeeds.  The second
    result counts the blocks that stay allocated. *)

(** The data buffers from slot [i1] on: the slot whose allocation fails, if any. *)
Fixpoint alloc_data (calloc_ok : nat -> bool) (n i1 : nat) : option nat :=
  match n with
  | O => None
  | S n => if calloc_ok (2 + i1)%nat then alloc_data calloc_ok n (S i1) else Some i1
  end.

(** The blocks released for a queue: the data of the slots it knows of, the array and
    the queue. *)
Definition maapLogQueueDeleteQueue (q : option maap_log_queue) : Z :=
  match q with None => 0 | Some q => queueSize q + 2 end.

Definition maapLogQueueNewQueue (calloc_ok : nat -> bool) (elemSize queueSize : Z)
  : option maap_log_queue * Z :=
  if (elemSize <? 1) || (queueSize <? 1) then (None, 0)
  else if negb (calloc_ok 0%nat) then (None, 0)
  else
    (* the queue is zero until its fields are set at the end *)
    let fresh := mkQueue 0 0 0 0 [] in
    if negb (calloc_ok 1%nat) then (None, 1 - 1)
    else
      match alloc_data calloc_ok (Z.to_nat queueSize) 0 with
      | Some i1 => (None, 2 + Z.of_nat i1 - maapLogQueueDeleteQueue (Some fresh))
      | None =>
          (Some (mkQueue elemSize queueSize 0 0
                   (replicate (Z.to_nat queueSize) (mkElem false (replicate (Z.to_nat elemSize) 0)))),
           2 + queueSize)
      end.

(** ** Access *)

Definition maapLogQueueGetQueueSize (q : option maap_log_queue) : Z :=
  match q with None => 0 | Some q => queueSize q end.

Definition maapLogQueueGetElemSize (q : option maap_log_queue) : Z :=
  match q with None => 0 | Some q => elemSize q end.

(** The element at an index of the array. *)
Definition elem_at (q : maap_log_queue) (i : Z) : outcome maap_log_queue_elem :=
  if 0 <=? i then
    match elemArray q !! Z.to_nat i with Some e => Ok e | None => Fault OutOfBounds end
  else Fault OutOfBounds.

Definition set_elem (i : Z) (f : maap_log_queue_elem -> maap_log_queue_elem) (q : maap_log_queue)
  : outcome maap_log_queue :=
  e ← elem_at q i; Ok (set_elems (<[Z.to_nat i := f e]> (elemArray q)) q).

Definition set_flag (b : bool) (e : maap_log_queue_elem) : maap_log_queue_elem := mkElem b (data e).
Definition set_elem_data (d : list Z) (e : maap_log_queue_elem) : maap_log_queue_elem := mkElem (setFlg e) d.

Definition maapLogQueueGetElemCount (q : option maap_log_queue) : outcome Z :=
  match q with
  | None => Ok 0
  | Some q =>
      let cnt :=
        if tail q <? head q then u32 (head q - tail q - 1)
        else if head q <? tail q then u32 (head q + (queueSize q - 1 - tail q))
        else 0 in
      e ← elem_at q (tail q);
      Ok (if setFlg e then u32 (cnt + 1) else cnt)
  end.

(** [maapLogQueueData]: the contents of the element at a slot. *)
Definition maapLogQueueData (q : maap_log_queue) (elem : option Z) : outcome (option (list Z)) :=
  match elem with
  | None => Ok None
  | Some i => e ← elem_at q i; Ok (Some (data e))
  end.

Definition maapLogQueueHeadLock (q : option maap_log_queue) : outcome (option Z) :=
  match q with
  | None => Ok None
  | Some q => e ← elem_at q (head q); Ok (if setFlg e then None else Some (head q))
  end.

(** The head index after a push, and the tail index after a pull. *)
Definition advance (size i : Z) : Z := let i := u32 (i + 1) in if size <=? i then 0 else i.

Definition maapLogQueueHeadPush (q : option maap_log_queue) : outcome (option maap_log_queue) :=
  match q with
  | None => Ok None
  | Some q => q' ← set_elem (head q) (set_flag true) q; Ok (Some (set_head (advance (queueSize q) (head q)) q'))
  end.

Definition maapLogQueueTailLock (q : option maap_log_queue) : outcome (option Z) :=
  match q with
  | None => Ok None
  | Some q => e ← elem_at q (tail q); Ok (if setFlg e then Some (tail q) else None)
  end.

Definition maapLogQueueTailPull (q : option maap_log_queue) : outcome (option maap_log_queue) :=
  match q with
  | None => Ok None
  | Some q => q' ← set_elem (tail q) (set_flag false) q; Ok (Some (set_tail (advance (queueSize q) (tail q)) q'))
  end.

(** ** The contents of a queue

    A queue holds [l] if, counting slots from the tail, the slots of [l] are set and
    carry its elements, the others are free, and the head is behind the last one. *)

Definition slot (q : maap_log_queue) (i : nat) : nat := ((Z.to_nat (tail q) + i) mod Z.to_nat (queueSize q))%nat.

Record holds (q : maap_log_queue) (l : list (list Z)) : Prop := {
  holds_size : 0 < queueSize q < 2 ^ 32;
  holds_array : length (elemArray q) = Z.to_nat (queueSize q);
  holds_tail : 0 <= tail q < queueSize q;
  holds_head : head q = Z.of_nat (slot q (length l));
  holds_room : Z.of_nat (length l) <= queueSize q;
  holds_data : forall i d, l !! i = Some d -> elemArray q !! slot q i = Some (mkElem true d);
  holds_free : forall i, (length l <= i < Z.to_nat (queueSize q))%nat ->
    exists e, elemArray q !! slot q i = Some e /\ setFlg e = false
}.

Lemma slot_lt q i : 0 < queueSize q -> (slot q i < Z.to_nat (queueSize q))%nat.
Proof. intros H. apply Nat.mod_upper_bound. lia. Qed.

Lemma mod_wrap (a n : nat) : (n <= a < 2 * n)%nat -> (a mod n = a - n)%nat.
Proof. intros H. symmetry. apply (Nat.mod_unique a n 1); lia. Qed.

Lemma slot_case q i :
  0 <= tail q < queueSize q -> (i <= Z.to_nat (queueSize q))%nat ->
  slot q i = (if decide (Z.to_nat (tail q) + i < Z.to_nat (queueSize q))%nat
              then Z.to_nat (tail q) + i else Z.to_nat (tail q) + i - Z.to_nat (queueSize q))%nat.
Proof.
  intros Ht Hi. unfold slot. case_decide; [by apply Nat.mod_small|]. apply mod_wrap. lia.
Qed.

Lemma slot_inj q i j :
  0 <= tail q < queueSize q -> (i < Z.to_nat (queueSize q))%nat -> (j < Z.to_nat (queueSize q))%nat ->
  slot q i = slot q j -> i = j.
Proof.
  intros Ht Hi Hj. rewrite !slot_case by lia. repeat case_decide; lia.
Qed.

Lemma advance_slot q i :
  0 < queueSize q < 2 ^ 32 -> advance (queueSize q) (Z.of_nat (slot q i)) = Z.of_nat (slot q (S i)).
Proof.
  intros Hs. unfold advance. pose proof (slot_lt q i ltac:(lia)) as Hlt.
  rewrite u32_small by (unfold is_u32; lia).
  assert (Hn : slot q (S i) = ((slot q i + 1) mod Z.to_nat (queueSize q))%nat).
  { unfold slot. rewrite Nat.Div0.add_mod_idemp_l. f_equal. lia. }
  rewrite Hn. destruct (Z.leb_spec (queueSize q) (Z.of_nat (slot q i) + 1)).
  - replace (slot q i + 1)%nat with (Z.to_nat (queueSize q)) by lia. rewrite Nat.Div0.mod_same. done.
  - rewrite Nat.mod_small by lia. lia.
Qed.

Lemma slot_0 q : 0 <= tail q < queueSize q -> Z.of_nat (slot q 0) = tail q.
Proof. intros Ht. rewrite slot_case by lia. case_decide; lia. Qed.

(** Counting from the next tail. *)
Lemma slot_next q i :
  0 < queueSize q < 2 ^ 32 -> 0 <= tail q < queueSize q ->
  slot (set_tail (advance (queueSize q) (tail q)) q) i = slot q (S i).
Proof.
  intros Hs Ht. unfold slot at 1. cbn [tail queueSize set_tail].
  rewrite <- (slot_0 q Ht) at 1. rewrite advance_slot, Nat2Z.id by done. unfold slot.
  rewrite Nat.Div0.add_mod_idemp_l. f_equal. lia.
Qed.

Lemma elem_at_Ok q (i : nat) e : elemArray q !! i = Some e -> elem_at q (Z.of_nat i) = Ok e.
Proof.
  intros H. unfold elem_at. destruct (Z.leb_spec 0 (Z.of_nat i)); [|lia]. by rewrite Nat2Z.id, H.
Qed.

Lemma elem_at_tail q e :
  0 <= tail q < queueSize q -> elemArray q !! slot q 0 = Some e -> elem_at q (tail q) = Ok e.
Proof. intros Ht He. rewrite <- (slot_0 q Ht). by apply elem_at_Ok. Qed.

(** ** Operations on the contents *)

Lemma new_queue_holds calloc_ok es qs :
  1 <= es -> 1 <= qs < 2 ^ 32 -> (forall n, calloc_ok n = true) ->
  exists q, maapLogQueueNewQueue calloc_ok es qs = (Some q, 2 + qs) /\ holds q [] /\
    queueSize q = qs /\ maapLogQueueDeleteQueue (Some q) = 2 + qs.
Proof.
  intros He Hq Hc. unfold maapLogQueueNewQueue.
  destruct (Z.ltb_spec es 1); [lia|]. destruct (Z.ltb_spec qs 1); [lia|]. cbn [orb].
  rewrite !Hc. cbn [negb].
  assert (Ha : forall n i, alloc_data calloc_ok n i = None).
  { intros n. induction n as [|n IH]; intros i; cbn; [done|]. by rewrite Hc. }
  rewrite Ha. eexists. split; [done|]. split; [|split; [done|cbn; lia]].
  constructor; cbn [queueSize tail head elemArray length]; try lia.
  - apply length_replicate.
  - cbn. unfold slot. cbn. by rewrite Nat.Div0.mod_0_l.
  - done.
  - intros i Hi. eexists. split.
    + apply lookup_replicate. split; [reflexivity|]. apply slot_lt. cbn. lia.
    + done.
Qed.

(** Every slot is there. *)
Lemma holds_elem q l i : holds q l -> (i < Z.to_nat (queueSize q))%nat -> exists e, elemArray q !! slot q i = Some e.
Proof.
  intros [] Hi. apply lookup_lt_is_Some. rewrite holds_array0. apply slot_lt. lia.
Qed.

Lemma head_lock_spec q l :
  holds q l ->
  maapLogQueueHeadLock (Some q) =
    Ok (if decide (Z.of_nat (length l) < queueSize q) then Some (head q) else None).
Proof.
  intros HH. pose proof HH as []. cbn [maapLogQueueHeadLock]. rewrite holds_head0. case_decide as Hd.
  - destruct (holds_free0 (length l) ltac:(lia)) as (e&He&Hf). rewrite (elem_at_Ok _ _ _ He). cbn_outcome.
    by rewrite Hf.
  - assert (Hn : length l = Z.to_nat (queueSize q)) by lia.
    assert (H0 : slot q (length l) = slot q 0).
    { rewrite Hn. unfold slot. rewrite Nat.add_0_r.
      replace (Z.to_nat (tail q) + Z.to_nat (queueSize q))%nat with (Z.to_nat (tail q) + 1 * Z.to_nat (queueSize q))%nat by lia.
      apply Nat.Div0.mod_add. }
    rewrite H0. destruct l as [|d l]; [cbn in Hn; lia|].
    rewrite (elem_at_Ok _ _ _ (holds_data0 0%nat d eq_refl)). done.
Qed.

Lemma tail_lock_spec q l :
  holds q l ->
  maapLogQueueTailLock (Some q) = Ok (match l with [] => None | _ => Some (tail q) end) /\
  (forall d l', l = d :: l' -> maapLogQueueData q (Some (tail q)) = Ok (Some d)).
Proof.
  intros HH. pose proof HH as []. split.
  - cbn [maapLogQueueTailLock]. destruct l as [|d l].
    + destruct (holds_free0 0%nat ltac:(cbn; lia)) as (e&He&Hf). rewrite (elem_at_tail _ _ holds_tail0 He).
      cbn_outcome. by rewrite Hf.
    + by rewrite (elem_at_tail _ _ holds_tail0 (holds_data0 0%nat d eq_refl)).
  - intros d l' ->. cbn [maapLogQueueData].
    by rewrite (elem_at_tail _ _ holds_tail0 (holds_data0 0%nat d eq_refl)).
Qed.

(** Filling the head element of a queue that is not full, and pushing it. *)
Lemma head_push_spec q l d :
  holds q l -> Z.of_nat (length l) < queueSize q ->
  exists q1 q2, set_elem (head q) (set_elem_data d) q = Ok q1 /\
    maapLogQueueHeadPush (Some q1) = Ok (Some q2) /\ holds q2 (l ++ [d]) /\ queueSize q2 = queueSize q.
Proof.
  intros HH Hroom. pose proof HH as [].
  destruct (holds_free0 (length l) ltac:(lia)) as (e&He&Hf).
  pose proof (lookup_lt_Some _ _ _ He) as Hlt.
  unfold set_elem at 1. rewrite holds_head0, (elem_at_Ok _ _ _ He). cbn_outcome. rewrite Nat2Z.id.
  eexists _, _. split; [done|]. cbn [maapLogQueueHeadPush]. unfold set_elem. cbn [head set_elems].
  rewrite holds_head0. erewrite elem_at_Ok by (cbn; by apply list_lookup_insert_eq). cbn_outcome.
  split; [done|]. split; [|done]. rewrite Nat2Z.id. cbn [elemArray set_elems]. rewrite list_insert_insert_eq.
  constructor; cbn [queueSize set_head set_elems tail elemArray head]; try done.
  - by rewrite length_insert.
  - rewrite advance_slot by done. by rewrite length_app, Nat.add_1_r.
  - rewrite length_app. cbn. lia.
  - change (slot _) with (slot q). intros i x Hi. destruct (decide (i = length l)) as [->|Hne].
    + rewrite list_lookup_middle in Hi by done. injection Hi as <-. by rewrite list_lookup_insert_eq.
    + rewrite lookup_app in Hi. destruct (l !! i) as [y|] eqn:Hy.
      * injection Hi as ->. pose proof (lookup_lt_Some _ _ _ Hy). rewrite list_lookup_insert_ne; [by apply holds_data0|].
        intros Heq. apply slot_inj in Heq; lia.
      * apply lookup_ge_None in Hy. destruct (i - length l)%nat eqn:Hd; [lia|done].
  - change (slot _) with (slot q). intros i Hi. rewrite length_app in Hi. cbn in Hi.
    rewrite list_lookup_insert_ne; [apply holds_free0; lia|]. intros Heq. apply slot_inj in Heq; lia.
Qed.

Lemma tail_pull_spec q d l :
  holds q (d :: l) ->
  exists q', maapLogQueueTailPull (Some q) = Ok (Some q') /\ holds q' l /\ queueSize q' = queueSize q.
Proof.
  intros HH. pose proof HH as []. cbn [maapLogQueueTailPull]. unfold set_elem.
  pose proof (holds_data0 0%nat d eq_refl) as He. pose proof (lookup_lt_Some _ _ _ He) as Hlt.
  rewrite (elem_at_tail _ _ holds_tail0 He). cbn_outcome. eexists. split; [done|]. split; [|done].
  replace (Z.to_nat (tail q)) with (slot q 0) by (pose proof (slot_0 q holds_tail0); lia).
  set (q' := set_tail _ _).
  assert (Hslot : forall i, slot q' i = slot q (S i)) by (intros i; exact (slot_next q i holds_size0 holds_tail0)).
  cbn [length] in *. constructor; unfold q'; cbn [queueSize set_tail set_elems tail elemArray head]; try done.
  - by rewrite length_insert.
  - replace (tail q) with (Z.of_nat (slot q 0)) by apply slot_0, holds_tail0.
    rewrite advance_slot by done. pose proof (slot_lt q 1 ltac:(lia)). lia.
  - rewrite holds_head0. f_equal. symmetry. apply Hslot.
  - lia.
  - fold q'. intros i x Hi. rewrite Hslot. pose proof (lookup_lt_Some _ _ _ Hi).
    rewrite list_lookup_insert_ne; [by apply holds_data0|]. intros Heq. apply slot_inj in Heq; lia.
  - fold q'. intros i Hi. rewrite Hslot.
    destruct (decide (S i = Z.to_nat (queueSize q))) as [Hw|Hw].
    + assert (Hs0 : slot q (S i) = slot q 0).
      { rewrite Hw. unfold slot. rewrite Nat.add_0_r.
        replace (Z.to_nat (tail q) + Z.to_nat (queueSize q))%nat with (Z.to_nat (tail q) + 1 * Z.to_nat (queueSize q))%nat by lia.
        apply Nat.Div0.mod_add. }
      rewrite Hs0, list_lookup_insert_eq by done. by eexists.
    + rewrite list_lookup_insert_ne; [apply holds_free0; lia|]. intros Heq. apply slot_inj in Heq; lia.
Qed.

Lemma elem_count_spec q l :
  holds q l ->
  maapLogQueueGetElemCount (Some q) =
    Ok (if decide (Z.of_nat (length l) < queueSize q) then Z.of_nat (length l) else 1).
Proof.
  intros HH. pose proof HH as []. cbn [maapLogQueueGetElemCount].
  assert (Hfirst : exists e, elemArray q !! slot q 0 = Some e /\ setFlg e = negb (bool_decide (l = []))).
  { destruct l as [|d l]; [by apply holds_free0; cbn; lia|]. eexists. split; [by apply (holds_data0 0%nat)|done]. }
  destruct Hfirst as (e&He&Hf). rewrite (elem_at_tail _ _ holds_tail0 He). cbn_outcome.
  rewrite Hf. f_equal. rewrite holds_head0, slot_case by lia. case_decide as Hd1; case_decide as Hd2.
  - destruct l as [|d l].
    + cbn [length]. rewrite Nat.add_0_r, Z2Nat.id, !Z.ltb_irrefl by lia. done.
    + rewrite bool_decide_eq_false_2 by done. cbn [negb]. cbn [length] in *.
      destruct (Z.ltb_spec (tail q) (Z.of_nat (Z.to_nat (tail q) + S (length l)))); [|lia].
      rewrite !u32_small; unfold is_u32; rewrite ?u32_small; unfold is_u32; lia.
  - lia.
  - destruct l as [|d l]; [cbn in *; lia|].
    rewrite bool_decide_eq_false_2 by done. cbn [negb]. cbn [length] in *.
    set (h := (Z.to_nat (tail q) + S (length l) - Z.to_nat (queueSize q))%nat).
    destruct (Z.ltb_spec (tail q) (Z.of_nat h)); [unfold h in *; lia|].
    destruct (Z.ltb_spec (Z.of_nat h) (tail q)); [|unfold h in *; lia].
    rewrite !u32_small; unfold is_u32; rewrite ?u32_small; unfold is_u32, h in *; lia.
  - destruct l as [|d l]; [cbn in *; lia|].
    rewrite bool_decide_eq_false_2 by done. cbn [negb].
    replace (Z.of_nat _) with (tail q) by lia. by rewrite !Z.ltb_irrefl.
Qed.
