(* ===== verification/LogTasks.v ===== *)
(** * The log queue between two tasks

    The interface of the queue promises that one task at the head and one task at the
    tail need no synchronisation.  Here the two tasks of linux/src/maap_log_linux.c run
    interleaved, one access to shared memory at a time: the logging task locks the
    head, fills the element and pushes it; the printing task locks the tail, reads the
    element and pulls it.  Within a push and a pull the flag and the index may be
    written in either order. *)

From S2P Require Import Prelude.
From S2P Require Import LogQueue.

Open Scope Z_scope.
Local Abbreviation length := List.length.

(** ** The tasks *)

(** The logging task: idle, with the element [i] locked for a message, or within the
    push of it, having set the flag or advanced the head. *)
Inductive producer : Type :=
  | PIdle
  | PLocked (i : Z) (d : list Z)
  | PPush (i : Z) (d : list Z) (flag_set advanced : bool).

(** The printing task: idle, with the element [i] locked, or within the pull of it. *)
Inductive consumer : Type :=
  | CIdle
  | CLocked (i : Z)
  | CPull (i : Z) (flag_cleared advanced : bool).

(** [accepted]: the messages whose elements were made available, in order;
    [delivered]: the messages that were read. *)
Record tasks : Type := mkTasks {
  queue : maap_log_queue;
  logger : producer;
  printer : consumer;
  accepted : list (list Z);
  delivered : list (list Z)
}.

Inductive step : tasks -> tasks -> Prop :=
  (* the logging task *)
  | step_head_lock q c acc del i d :
      maapLogQueueHeadLock (Some q) = Ok (Some i) ->
      step (mkTasks q PIdle c acc del) (mkTasks q (PLocked i d) c acc del)
  | step_drop q c acc del :
      maapLogQueueHeadLock (Some q) = Ok None ->
      step (mkTasks q PIdle c acc del) (mkTasks q PIdle c acc del)
  | step_fill q q' c acc del i d :
      set_elem i (set_elem_data d) q = Ok q' ->
      step (mkTasks q (PLocked i d) c acc del) (mkTasks q' (PPush i d false false) c acc del)
  | step_set_flag q q' c acc del i d adv :
      set_elem i (set_flag true) q = Ok q' ->
      step (mkTasks q (PPush i d false adv) c acc del) (mkTasks q' (PPush i d true adv) c (acc ++ [d]) del)
  | step_advance_head q c acc del i d fs :
      step (mkTasks q (PPush i d fs false) c acc del)
           (mkTasks (set_head (advance (queueSize q) (head q)) q) (PPush i d fs true) c acc del)
  | step_pushed q c acc del i d :
      step (mkTasks q (PPush i d true true) c acc del) (mkTasks q PIdle c acc del)
  (* the printing task *)
  | step_tail_lock q p acc del i :
      maapLogQueueTailLock (Some q) = Ok (Some i) ->
      step (mkTasks q p CIdle acc del) (mkTasks q p (CLocked i) acc del)
  | step_empty q p acc del :
      maapLogQueueTailLock (Some q) = Ok None ->
      step (mkTasks q p CIdle acc del) (mkTasks q p CIdle acc del)
  | step_read q p acc del i d :
      maapLogQueueData q (Some i) = Ok (Some d) ->
      step (mkTasks q p (CLocked i) acc del) (mkTasks q p (CPull i false false) acc (del ++ [d]))
  | step_clear_flag q q' p acc del i adv :
      set_elem i (set_flag false) q = Ok q' ->
      step (mkTasks q p (CPull i false adv) acc del) (mkTasks q' p (CPull i true adv) acc del)
  | step_advance_tail q p acc del i fc :
      step (mkTasks q p (CPull i fc false) acc del)
           (mkTasks (set_tail (advance (queueSize q) (tail q)) q) p (CPull i fc true) acc del)
  | step_pulled q p acc del i :
      step (mkTasks q p (CPull i true true) acc del) (mkTasks q p CIdle acc del).

Definition start (q : maap_log_queue) : tasks := mkTasks q PIdle CIdle [] [].

(** ** The invariant

    Messages are numbered from the creation of the queue on; number [p] lives in slot
    [p] modulo the size. *)

Definition place (n : nat) (p : nat) : Z := Z.of_nat (p mod n).

(** The messages whose elements have been released. *)
Definition pulled (s : tasks) : nat :=
  match printer s with
  | CPull _ false _ => pred (length (delivered s))
  | _ => length (delivered s)
  end.

Definition logger_ok (n H T : nat) (q : maap_log_queue) (p : producer) : Prop :=
  match p with
  | PIdle => head q = place n H
  | PLocked i d => head q = place n H /\ i = place n H /\ (H < T + n)%nat
  | PPush i d false adv =>
      i = place n H /\ (H < T + n)%nat /\ head q = place n (if adv then S H else H) /\
      exists e, elemArray q !! (H mod n)%nat = Some e /\ data e = d
  | PPush i d true adv =>
      exists H', H = S H' /\ i = place n H' /\ head q = place n (if adv then H else H')
  end.

Definition printer_ok (n H T : nat) (q : maap_log_queue) (del : nat) (c : consumer) : Prop :=
  match c with
  | CIdle => tail q = place n T /\ del = T
  | CLocked i => tail q = place n T /\ i = place n T /\ (T < H)%nat /\ del = T
  | CPull i false adv => i = place n T /\ (T < H)%nat /\ tail q = place n (if adv then S T else T) /\ del = S T
  | CPull i true adv =>
      exists T', T = S T' /\ i = place n T' /\ tail q = place n (if adv then T else T') /\ del = T
  end.

Record consistent (n : nat) (s : tasks) (H T : nat) : Prop := {
  c_size : queueSize (queue s) = Z.of_nat n /\ (0 < n)%nat /\ Z.of_nat n < 2 ^ 32;
  c_array : length (elemArray (queue s)) = n;
  c_counts : H = length (accepted s) /\ (T <= H <= T + n)%nat;
  c_full : forall p d, (T <= p)%nat -> accepted s !! p = Some d ->
    elemArray (queue s) !! (p mod n)%nat = Some (mkElem true d);
  c_free : forall p, (H <= p < T + n)%nat ->
    exists e, elemArray (queue s) !! (p mod n)%nat = Some e /\ setFlg e = false;
  c_prefix : delivered s `prefix_of` accepted s;
  c_logger : logger_ok n H T (queue s) (logger s);
  c_printer : printer_ok n H T (queue s) (length (delivered s)) (printer s)
}.

(** ** Slots *)

Lemma advance_place n p :
  (0 < n)%nat -> Z.of_nat n < 2 ^ 32 -> advance (Z.of_nat n) (place n p) = place n (S p).
Proof.
  intros Hn Hs. unfold advance, place. pose proof (Nat.mod_upper_bound p n ltac:(lia)) as Hlt.
  rewrite u32_small by (unfold is_u32; lia).
  assert (Hm : (S p mod n = (p mod n + 1) mod n)%nat).
  { rewrite Nat.Div0.add_mod_idemp_l. f_equal. lia. }
  rewrite Hm. destruct (Z.leb_spec (Z.of_nat n) (Z.of_nat (p mod n) + 1)).
  - replace (p mod n + 1)%nat with n by lia. by rewrite Nat.Div0.mod_same.
  - rewrite (Nat.mod_small (p mod n + 1)) by lia. lia.
Qed.

Lemma elem_at_place q n p e : elemArray q !! (p mod n)%nat = Some e -> elem_at q (place n p) = Ok e.
Proof. apply elem_at_Ok. Qed.

Lemma set_elem_place q n p f q' :
  set_elem (place n p) f q = Ok q' ->
  exists e, elemArray q !! (p mod n)%nat = Some e /\
    q' = set_elems (<[(p mod n)%nat := f e]> (elemArray q)) q.
Proof.
  unfold set_elem, elem_at, place. destruct (Z.leb_spec 0 (Z.of_nat (p mod n))); [|lia].
  rewrite Nat2Z.id. destruct (elemArray q !! (p mod n)%nat) as [e|]; [|done]. cbn_outcome.
  intros [= <-]. by exists e.
Qed.

Lemma slot_exists s n H T p : consistent n s H T -> exists e, elemArray (queue s) !! (p mod n)%nat = Some e.
Proof.
  intros [(_&Hn&_) Ha _ _ _ _ _ _]. apply lookup_lt_is_Some. rewrite Ha. apply Nat.mod_upper_bound. lia.
Qed.

(** A message that waits is in its slot. *)
Lemma full_slot n s H T p :
  consistent n s H T -> (T <= p < H)%nat -> exists d, elemArray (queue s) !! (p mod n)%nat = Some (mkElem true d) /\
    accepted s !! p = Some d.
Proof.
  intros [_ _ (->&_) Hf _ _ _ _] [Hp Hlt]. destruct (lookup_lt_is_Some_2 _ _ Hlt) as [d Hd].
  exists d. split; [by apply Hf|done].
Qed.

(** ** Every step keeps it *)

Section Steps.
Context (n : nat) (q : maap_log_queue) (acc del : list (list Z)) (H T : nat).

Lemma head_lock_consistent c i d :
  consistent n (mkTasks q PIdle c acc del) H T -> maapLogQueueHeadLock (Some q) = Ok (Some i) ->
  consistent n (mkTasks q (PLocked i d) c acc del) H T.
Proof.
  intros HC Hl. pose proof HC as [Hs Ha [Hh Hc] Hf He Hp Hlo Hpr]. cbn in *.
  assert (HHT : (H < T + n)%nat).
  { apply Nat.nle_gt. intros Hfull. destruct (full_slot n _ H T T HC ltac:(lia)) as (x&Hx&_). cbn in Hx.
    assert (HT : (H mod n = T mod n)%nat).
    { replace H with (T + 1 * n)%nat by lia. apply Nat.Div0.mod_add. }
    rewrite Hlo in Hl. rewrite (elem_at_place q n H (mkElem true x)) in Hl by (by rewrite HT). done. }
  destruct (He H ltac:(lia)) as (e&Hx&Hfl). rewrite Hlo in Hl.
  rewrite (elem_at_place q n H e Hx) in Hl. cbn in Hl. rewrite Hfl in Hl. injection Hl as <-.
  constructor; try done.
Qed.

Lemma fill_consistent c i d q' :
  consistent n (mkTasks q (PLocked i d) c acc del) H T -> set_elem i (set_elem_data d) q = Ok q' ->
  consistent n (mkTasks q' (PPush i d false false) c acc del) H T.
Proof.
  intros [Hs Ha [Hh Hc] Hf He Hp (Hlo&->&HHT) Hpr] Hset. cbn in *.
  apply set_elem_place in Hset as (e&Hx&->).
  assert (Hlt : (H mod n < length (elemArray q))%nat) by (by eapply lookup_lt_Some).
  constructor; cbn; try done.
  - by rewrite length_insert.
  - intros p x Hpt Hlk. pose proof (lookup_lt_Some _ _ _ Hlk). rewrite (write_other n T) by lia. by apply Hf.
  - intros p Hpt. destruct (decide (p = H)) as [->|Hne].
    + rewrite list_lookup_insert_eq by done. eexists. split; [done|].
      destruct (He H ltac:(lia)) as (e'&Hx'&Hfl). rewrite Hx in Hx'. by injection Hx' as <-.
    + rewrite (write_other n T) by lia. apply He. lia.
  - split_and!; try done. eexists. by rewrite list_lookup_insert_eq.
Qed.

Lemma set_flag_consistent c i d adv q' :
  consistent n (mkTasks q (PPush i d false adv) c acc del) H T -> set_elem i (set_flag true) q = Ok q' ->
  consistent n (mkTasks q' (PPush i d true adv) c (acc ++ [d]) del) (S H) T.
Proof.
  intros [Hs Ha [Hh Hc] Hf He Hp (->&HHT&Hhead&e0&He0&Hd0) Hpr] Hset. cbn in *.
  apply set_elem_place in Hset as (e&Hx&->). rewrite He0 in Hx. injection Hx as ->.
  assert (Hlt : (H mod n < length (elemArray q))%nat) by (by eapply lookup_lt_Some).
  constructor; cbn; try done.
  - by rewrite length_insert.
  - rewrite length_app. cbn. lia.
  - intros p x Hpt Hlk. destruct (decide (p = H)) as [->|Hne].
    + rewrite list_lookup_insert_eq by done. rewrite list_lookup_middle in Hlk by done. injection Hlk as <-.
      unfold set_flag. by rewrite Hd0.
    + pose proof (lookup_lt_Some _ _ _ Hlk) as Hpl. rewrite length_app in Hpl. cbn in Hpl.
      rewrite (write_other n T) by lia. apply Hf; [done|]. by rewrite lookup_app_l in Hlk by lia.
  - intros p Hpt. rewrite (write_other n T) by lia. apply He. lia.
  - by apply prefix_app_r.
  - exists H. split_and!; [done..|]. by destruct adv.
  - destruct c as [|j|j [] adv']; cbn in *; intuition lia.
Qed.

Lemma advance_head_consistent c i d fs :
  consistent n (mkTasks q (PPush i d fs false) c acc del) H T ->
  consistent n (mkTasks (set_head (advance (queueSize q) (head q)) q) (PPush i d fs true) c acc del) H T.
Proof.
  intros [(Hs&Hn&Hb) Ha Hc Hf He Hp Hlo Hpr]. cbn in *. rewrite Hs.
  constructor; cbn; try done. destruct fs.
  - destruct Hlo as (H'&->&->&->). exists H'. split_and!; [done..|]. by rewrite advance_place.
  - destruct Hlo as (->&HHT&->&e&He0). split_and!; [done..| |by exists e]. by rewrite advance_place.
Qed.

Lemma tail_lock_consistent p i :
  consistent n (mkTasks q p CIdle acc del) H T -> maapLogQueueTailLock (Some q) = Ok (Some i) ->
  consistent n (mkTasks q p (CLocked i) acc del) H T.
Proof.
  intros HC Hl. pose proof HC as [Hs Ha [Hh Hc] Hf He Hp Hlo [Ht Hd]]. cbn in *. rewrite Ht in Hl.
  assert (HTH : (T < H)%nat).
  { apply Nat.nle_gt. intros Hemp. destruct (He T ltac:(lia)) as (e&Hx&Hfl).
    rewrite (elem_at_place q n T e Hx) in Hl. cbn in Hl. by rewrite Hfl in Hl. }
  destruct (full_slot n _ H T T HC ltac:(lia)) as (x&Hx&_). cbn in Hx.
  rewrite (elem_at_place q n T _ Hx) in Hl. injection Hl as <-. by constructor.
Qed.

Lemma read_consistent p i d :
  consistent n (mkTasks q p (CLocked i) acc del) H T -> maapLogQueueData q (Some i) = Ok (Some d) ->
  consistent n (mkTasks q p (CPull i false false) acc (del ++ [d])) H T.
Proof.
  intros HC Hl. pose proof HC as [Hs Ha [Hh Hc] Hf He Hp Hlo (Ht&->&HTH&Hd)]. cbn in *.
  destruct (full_slot n _ H T T HC ltac:(lia)) as (x&Hx&Hacc). cbn in Hx, Hacc.
  rewrite (elem_at_place q n T _ Hx) in Hl. injection Hl as <-.
  constructor; cbn; try done.
  - destruct Hp as [rest ->]. rewrite lookup_app_r, Hd, Nat.sub_diag in Hacc by lia.
    destruct rest as [|y rest]; [done|]. injection Hacc as ->. exists rest. by rewrite <- (assoc_L (++)).
  - rewrite length_app. cbn. split_and!; try done. lia.
Qed.

Lemma clear_flag_consistent p i adv q' :
  consistent n (mkTasks q p (CPull i false adv) acc del) H T -> set_elem i (set_flag false) q = Ok q' ->
  consistent n (mkTasks q' p (CPull i true adv) acc del) H (S T).
Proof.
  intros [(Hs&Hn&Hb) Ha [Hh Hc] Hf He Hp Hlo (->&HTH&Ht&Hd)] Hset. cbn in *.
  apply set_elem_place in Hset as (e&Hx&->).
  assert (Hlt : (T mod n < length (elemArray q))%nat) by (by eapply lookup_lt_Some).
  constructor; cbn; try done.
  - by rewrite length_insert.
  - lia.
  - intros r x Hpt Hlk. pose proof (lookup_lt_Some _ _ _ Hlk). rewrite (write_other n T) by lia.
    apply Hf; [lia|done].
  - intros r Hpt. destruct (decide (r = T + n)%nat) as [->|Hne].
    + replace ((T + n) mod n)%nat with (T mod n)%nat
        by (replace (T + n)%nat with (T + 1 * n)%nat by lia; by rewrite Nat.Div0.mod_add).
      rewrite list_lookup_insert_eq by done. by eexists.
    + rewrite (write_other n T) by lia. apply He. lia.
  - destruct p as [|j d|j d [] adv']; cbn in *.
    + done.
    + destruct Hlo as (?&?&?). split_and!; [done..|lia].
    + done.
    + destruct Hlo as (?&?&?&e0&He0&?). split_and!; [done|lia|done|].
      destruct (decide (H = T)) as [->|Hne]; [lia|]. exists e0. by rewrite (write_other n T) by lia.
  - exists T. by destruct adv; split_and!.
Qed.

Lemma advance_tail_consistent p i fc :
  consistent n (mkTasks q p (CPull i fc false) acc del) H T ->
  consistent n (mkTasks (set_tail (advance (queueSize q) (tail q)) q) p (CPull i fc true) acc del) H T.
Proof.
  intros [(Hs&Hn&Hb) Ha Hc Hf He Hp Hlo Hpr]. cbn in *. rewrite Hs.
  constructor; cbn; try done. destruct fc.
  - destruct Hpr as (T'&->&->&->&?). exists T'. split_and!; try done. by rewrite advance_place.
  - destruct Hpr as (->&?&->&?). split_and!; try done. by rewrite advance_place.
Qed.

End Steps.

Lemma step_consistent n s s' H T :
  consistent n s H T -> step s s' -> exists H' T', consistent n s' H' T'.
Proof.
  intros HC Hst. destruct Hst.
  - exists H, T. by apply head_lock_consistent.
  - by exists H, T.
  - exists H, T. by eapply fill_consistent.
  - exists (S H), T. by eapply set_flag_consistent.
  - exists H, T. by apply advance_head_consistent.
  - exists H, T. destruct HC as [? ? ? ? ? ? (H'&->&?&?) ?]. by constructor.
  - exists H, T. by apply tail_lock_consistent.
  - by exists H, T.
  - exists H, T. by apply read_consistent.
  - exists H, (S T). by eapply clear_flag_consistent.
  - exists H, T. by apply advance_tail_consistent.
  - exists H, T. destruct HC as [? ? ? ? ? ? ? (T'&->&?&?&?)]. by constructor.
Qed.

Lemma reachable_consistent n s s' H T :
  consistent n s H T -> rtc step s s' -> exists H' T', consistent n s' H' T'.
Proof.
  intros HC Hr. revert H T HC. induction Hr as [|s s1 s2 Hs _ IH]; intros H T HC; [by exists H, T|].
  destruct (step_consistent _ _ _ _ _ HC Hs) as (H1&T1&HC1). by eapply IH.
Qed.

(** ** What the tasks may rely on *)

(** A task within its protocol can take its next step: the index is in the array. *)
Definition can_continue (s : tasks) : Prop :=
  (forall i d, logger s = PLocked i d -> exists q', set_elem i (set_elem_data d) (queue s) = Ok q') /\
  (forall i d adv, logger s = PPush i d false adv -> exists q', set_elem i (set_flag true) (queue s) = Ok q') /\
  (forall i, printer s = CLocked i -> exists d, maapLogQueueData (queue s) (Some i) = Ok (Some d)) /\
  (forall i adv, printer s = CPull i false adv -> exists q', set_elem i (set_flag false) (queue s) = Ok q').

(** The tasks are never at the same element at the same time. *)
Definition apart (s : tasks) : Prop :=
  forall i d j, logger s = PLocked i d \/ (exists adv, logger s = PPush i d false adv) ->
    printer s = CLocked j \/ (exists adv, printer s = CPull j false adv) -> i <> j.

Lemma set_elem_exists q n p f :
  (exists e, elemArray q !! (p mod n)%nat = Some e) -> exists q', set_elem (place n p) f q = Ok q'.
Proof. intros [e He]. unfold set_elem. rewrite (elem_at_place q n p e He). by eexists. Qed.

Lemma consistent_continues n s H T : consistent n s H T -> can_continue s.
Proof.
  intros HC. pose proof HC as [_ _ _ _ _ _ Hlo Hpr]. split_and!.
  - intros i d Hl. rewrite Hl in Hlo. destruct Hlo as (_&->&_). apply set_elem_exists. by eapply slot_exists.
  - intros i d adv Hl. rewrite Hl in Hlo. destruct Hlo as (->&_). apply set_elem_exists. by eapply slot_exists.
  - intros i Hp. rewrite Hp in Hpr. destruct Hpr as (_&->&Ht&_).
    destruct (full_slot n s H T T HC ltac:(lia)) as (d&Hd&_). exists d.
    cbn [maapLogQueueData]. by rewrite (elem_at_place _ n T _ Hd).
  - intros i adv Hp. rewrite Hp in Hpr. destruct Hpr as (->&_). apply set_elem_exists. by eapply slot_exists.
Qed.

Lemma consistent_apart n s H T : consistent n s H T -> apart s.
Proof.
  intros HC i d j Hl Hp. destruct HC as [(_&Hn&_) _ [_ Hc] _ _ _ Hlo Hpr].
  assert (i = place n H /\ (H < T + n)%nat) as [-> HHT].
  { destruct Hl as [Hl|[adv Hl]]; rewrite Hl in Hlo; [by destruct Hlo as (_&?&?)|by destruct Hlo as (?&?&_)]. }
  assert (j = place n T /\ (T < H)%nat) as [-> HTH].
  { destruct Hp as [Hp|[adv Hp]]; rewrite Hp in Hpr; [by destruct Hpr as (_&?&?&_)|by destruct Hpr as (?&?&_)]. }
  unfold place. intros Heq%Nat2Z.inj. apply (other_place n T T H) in Heq; lia.
Qed.

Lemma consistent_pulled n s H T : consistent n s H T -> T = pulled s.
Proof.
  intros [_ _ _ _ _ _ _ Hpr]. unfold pulled.
  destruct (printer s) as [|i|i [] adv]; cbn in Hpr; [by destruct Hpr|by destruct Hpr as (_&_&_&?)| |].
  - destruct Hpr as (T'&?&_&_&?). lia.
  - destruct Hpr as (_&_&_&->). done.
Qed.

(** A message is dropped only while every element holds one that is not pulled yet, and
    the printing task goes to sleep only when it has delivered all there is. *)
Definition refuses_when_full (n : nat) (s : tasks) : Prop :=
  (logger s = PIdle -> maapLogQueueHeadLock (Some (queue s)) = Ok None ->
     length (accepted s) = (pulled s + n)%nat) /\
  (printer s = CIdle -> maapLogQueueTailLock (Some (queue s)) = Ok None -> delivered s = accepted s).

Lemma consistent_refuses n s H T : consistent n s H T -> refuses_when_full n s.
Proof.
  intros HC. pose proof (consistent_pulled _ _ _ _ HC) as HT.
  pose proof HC as [_ _ [HH Hc] _ He Hp Hlo Hpr]. split.
  - intros Hl Hn. rewrite Hl in Hlo. destruct (decide (H = T + n)%nat) as [E|Hne]; [lia|].
    destruct (He H ltac:(lia)) as (e&Hx&Hf). exfalso. cbn [maapLogQueueHeadLock] in Hn. rewrite Hlo in Hn.
    rewrite (elem_at_place _ n H e Hx) in Hn. cbn in Hn. by rewrite Hf in Hn.
  - intros Hl Hn. rewrite Hl in Hpr. destruct Hpr as [Htl Hd]. destruct (decide (H = T)) as [E|Hne].
    + apply prefix_length_eq; [done|]. lia.
    + destruct (full_slot n s H T T HC ltac:(lia)) as (x&Hx&_). exfalso. cbn [maapLogQueueTailLock] in Hn.
      rewrite Htl, (elem_at_place _ n T _ Hx) in Hn. done.
Qed.

(** A queue that was created starts empty. *)
Lemma new_queue_start calloc_ok es qs q blocks :
  qs < 2 ^ 32 -> maapLogQueueNewQueue calloc_ok es qs = (Some q, blocks) ->
  consistent (Z.to_nat qs) (start q) 0 0.
Proof.
  intros Hq. unfold maapLogQueueNewQueue.
  destruct (Z.ltb_spec es 1); [done|]. destruct (Z.ltb_spec qs 1); [done|]. cbn [orb].
  destruct (calloc_ok 0%nat); [|done]. destruct (calloc_ok 1%nat); [|done]. cbn [negb].
  destruct (alloc_data _ _ _); [done|]. intros [= <- _].
  constructor; cbn; rewrite ?length_replicate; try done; try lia.
  - intros p [_ Hp]. eexists. split; [apply lookup_replicate_2, Nat.mod_upper_bound; lia|done].
  - unfold place. by rewrite Nat.Div0.mod_0_l.
  - unfold place. by rewrite Nat.Div0.mod_0_l.
Qed.
