(* ===== verification/MaapIoCorrect.v ===== *)
(** * The MAAP daemon: log queue, commands and texts: theorems *)

From S2P Require Import Prelude.
From S2P Require Import Intervals.
From S2P Require Import MaapNet.
From S2P Require Import Maap.
From S2P Require Import MaapLife.
From S2P Require Import CText.
From S2P Require Import MaapText.
From S2P Require Import LogQueue.
From S2P Require Import LogTasks.
From Stdlib Require Import String.

Open Scope Z_scope.
Local Abbreviation length := List.length.

(** C16: the log queue is a FIFO between one logging and one printing task without any
    lock between them.  In every interleaving of their memory accesses, from the
    creation of the queue on, the messages the printing task reads are the first ones
    the logging task pushed, in order and unaltered; at most the size of the queue
    waits; no access is out of bounds and the tasks never hold the same element; a
    message is dropped only when the queue is full and printing pauses only when
    everything was delivered. *)
Theorem log_queue_is_fifo calloc_ok es qs q blocks s :
  qs < 2 ^ 32 -> maapLogQueueNewQueue calloc_ok es qs = (Some q, blocks) ->
  rtc step (start q) s ->
  delivered s `prefix_of` accepted s /\ (length (accepted s) <= pulled s + Z.to_nat qs)%nat /\
  can_continue s /\ apart s /\ refuses_when_full (Z.to_nat qs) s.
Proof.
  intros Hq Hnew Hr. pose proof (new_queue_start _ _ _ _ _ Hq Hnew) as HC.
  destruct (reachable_consistent _ _ _ _ _ HC Hr) as (H&T&HC').
  rewrite <- (consistent_pulled _ _ _ _ HC'). split_and!; [apply HC'|pose proof (c_counts _ _ _ _ HC'); lia| | |].
  - by eapply consistent_continues.
  - by eapply consistent_apart.
  - by eapply consistent_refuses.
Qed.

(** A queue of two elements of four bytes; one message is pushed and read. *)
Definition queue2 : maap_log_queue := mkQueue 4 2 0 0 (replicate 2 (mkElem false (replicate 4 0))).
Definition queue2_read : tasks :=
  mkTasks (mkQueue 4 2 1 0 [mkElem true [77; 0]; mkElem false (replicate 4 0)]) PIdle (CPull 0 false false)
    [[77; 0]] [[77; 0]].

Lemma log_queue_is_fifo_witness :
  delivered queue2_read `prefix_of` accepted queue2_read /\
  (length (accepted queue2_read) <= pulled queue2_read + Z.to_nat 2)%nat /\
  can_continue queue2_read /\ apart queue2_read /\ refuses_when_full (Z.to_nat 2) queue2_read.
Proof.
  apply (log_queue_is_fifo (fun _ => true) 4 2 queue2 4); [done|done|].
  eapply rtc_l; [by apply (step_head_lock _ _ _ _ 0 [77; 0])|].
  eapply rtc_l; [by eapply step_fill|].
  eapply rtc_l; [by eapply step_set_flag|].
  eapply rtc_l; [by eapply step_advance_head|].
  eapply rtc_l; [by eapply step_pushed|].
  eapply rtc_l; [by eapply (step_tail_lock _ _ _ _ 0)|].
  eapply rtc_l; [by eapply step_read|]. by apply rtc_refl.
Defined.

(** [parse_write] performs exactly the operation a client asks for, whether it
    sends the binary structure or a line of text with the numbers printed: hexadecimal
    addresses, decimal counts and identifiers, negative ones included.  The flag
    records in which form the client wants its answers. *)
Theorem parse_write_performs_command E who cmd pad rest w :
  cmd_ok cmd -> length pad = 4%nat ->
  parse_write E who (cmd_text cmd ++ 0 :: rest) w = (rv ← run_cmd E who cmd; mret (rv, true)) w /\
  parse_write E who (cmd_image cmd pad ++ rest) w = (rv ← run_cmd E who cmd; mret (rv, false)) w.
Proof. intros Hok Hp. split; [by apply parse_write_text|by apply parse_write_binary]. Qed.

Definition reserve10 : Maap_Cmd := mkCmd MAAP_CMD_RESERVE (-1) (pool_base + 5) 10.

Lemma parse_write_performs_command_witness :
  parse_write env0 1 (cmd_text reserve10 ++ [0]) ready_world =
    (rv ← run_cmd env0 1 reserve10; mret (rv, true)) ready_world /\
  parse_write env0 1 (cmd_image reserve10 [0; 0; 0; 0] ++ []) ready_world =
    (rv ← run_cmd env0 1 reserve10; mret (rv, false)) ready_world.
Proof.
  apply (parse_write_performs_command env0 1 reserve10 [0; 0; 0; 0] []); [|done].
  unfold cmd_ok, is_u64, is_u32. cbn. lia || (split_and!; (done || lia)).
Defined.

(** [print_notify] never writes past its 300 byte buffer, whatever the numbers of
    the notification are, and always prints at least one line. *)
Theorem print_notify_fits mn :
  notify_ok mn ->
  exists l, print_notify mn = Ok l /\ l <> [] /\ Forall (fun x => length x.2 < 300)%nat l.
Proof.
  intros Hok. destruct (kind_lines_Ok mn Hok) as (l&El&Hne&HF). unfold print_notify. rewrite El. cbn_outcome.
  eexists. split_and!; [done|by destruct (error_lines _)|]. apply Forall_app. split; [apply error_lines_fit|done].
Qed.

Definition refused : Maap_Notify :=
  mkNotify MAAP_NOTIFY_YIELDED (-2147483648) (2 ^ 64 - 1) (2 ^ 32 - 1) MAAP_NOTIFY_ERROR_RESERVE_NOT_AVAILABLE.

Lemma print_notify_fits_witness :
  exists l, print_notify refused = Ok l /\ l <> [] /\ Forall (fun x => length x.2 < 300)%nat l.
Proof. apply (print_notify_fits refused). unfold notify_ok, is_u64, is_u32. cbn. lia. Defined.
