(* ===== verification/Mmrp.v ===== *)
(** * MMRP: MAC address and service registration

    Model of daemons/mrpd/mmrp.c.  An attribute is a service requirement or a MAC
    address; the list of attributes keeps the order of its [next] pointers, a pointer
    into it is the attribute's value, which [mmrp_lookup] searches for.  What the
    applications share by macros of the headers (vectors, packed events, frames) is
    taken from [Mvrp]. *)

From S2P Require Import Prelude.
From S2P Require Import CText.
From S2P Require Import Mrp.
From S2P Require Import MrpText.
From S2P Require Import Parse.
From S2P Require Import Mvrp.
From Stdlib Require Import String.

Open Scope Z_scope.
Local Abbreviation length := List.length.

(** ** Data *)

(** The type of an attribute and its value. *)
Inductive mmrp_value : Type :=
  | SVCREQ (svcreq : Z)
  | MACVEC (macaddr : list Z).

#[global] Instance mmrp_value_eq_dec : EqDecision mmrp_value.
Proof. solve_decision. Defined.

Record mmrp_attribute : Type := mkMm {
  mm_value : mmrp_value;
  mm_applicant : mrp_applicant_attribute;
  mm_registrar : mrp_registrar_attribute
}.

#[global] Instance mmrp_attribute_eq_dec : EqDecision mmrp_attribute.
Proof. solve_decision. Defined.

Record mmrp_database : Type := mkMmrpDb {
  mm_mrp_db : mrp_database;
  mm_list : list mmrp_attribute;
  mm_send_empty : bool
}.

Definition mm_set_mrp (d : mrp_database) (m : mmrp_database) : mmrp_database :=
  mkMmrpDb d (mm_list m) (mm_send_empty m).
Definition mm_set_list (l : list mmrp_attribute) (m : mmrp_database) : mmrp_database :=
  mkMmrpDb (mm_mrp_db m) l (mm_send_empty m).
Definition mm_set_empty (b : bool) (m : mmrp_database) : mmrp_database :=
  mkMmrpDb (mm_mrp_db m) (mm_list m) b.

Definition mm_set_applicant (a : mrp_applicant_attribute) (x : mmrp_attribute) : mmrp_attribute :=
  mkMm (mm_value x) a (mm_registrar x).
Definition mm_set_registrar (r : mrp_registrar_attribute) (x : mmrp_attribute) : mmrp_attribute :=
  mkMm (mm_value x) (mm_applicant x) r.
Definition mm_set_notify (n : mrp_notify) (x : mmrp_attribute) : mmrp_attribute :=
  mm_set_registrar (set_reg (reg_state (mm_registrar x)) n (mm_registrar x)) x.
Definition mm_set_source (m : list Z) (x : mmrp_attribute) : mmrp_attribute :=
  mm_set_registrar (mkRegistrar (reg_state (mm_registrar x)) (reg_notify (mm_registrar x)) m
                      (reg_previous_state (mm_registrar x))) x.
Definition mm_clear_tx (x : mmrp_attribute) : mmrp_attribute :=
  let a := mm_applicant x in
  mm_set_applicant (mkApplicant (app_state a) false (app_sndmsg a) (app_encode a)
                      (app_previous_state a)) x.

(** The global [MMRP_db]: null, released or pointing to a database. *)
Inductive mm_dbptr : Type := MmNoDb | MmFreedDb | MmDb (m : mmrp_database).

Record mmrp_world : Type := mkMmrp {
  MMRP_db : mm_dbptr;
  mm_frames : list (list Z);
  mm_messages : list (sockaddr_in * list Z)
}.

Definition MMRP_ETYPE : Z := 0x88F6.
Definition MMRP_PROT_VER : Z := 0.
Definition MMRP_SVCREQ_TYPE : Z := 1.
Definition MMRP_MACVEC_TYPE : Z := 2.
Definition MMRP_ADDR : list Z := [0x01; 0x80; 0xC2; 0x00; 0x00; 0x20].

Abbreviation MMRP := (M mmrp_world).

Definition mm_the_db : MMRP mmrp_database := fun w =>
  match MMRP_db w with
  | MmNoDb => Fault NullDeref
  | MmFreedDb => Fault WildPointer
  | MmDb m => Ok (m, w)
  end.
Definition mm_put_db (m : mmrp_database) : MMRP unit :=
  modify (fun w => mkMmrp (MmDb m) (mm_frames w) (mm_messages w)).
Definition mm_upd_db (f : mmrp_database -> mmrp_database) : MMRP unit := m ← mm_the_db; mm_put_db (f m).
Definition mm_upd_mrp (f : mrp_database -> mrp_database) : MMRP unit :=
  mm_upd_db (fun m => mm_set_mrp (f (mm_mrp_db m)) m).
Definition mm_send_ctl_msg (c : sockaddr_in) (text : list Z) : MMRP unit :=
  modify (fun w => mkMmrp (MMRP_db w) (mm_frames w) (mm_messages w ++ [(c, text)])).

Fixpoint mm_each {A} (f : A -> MMRP unit) (l : list A) : MMRP unit :=
  match l with
  | [] => mret tt
  | x :: l' => f x ;; mm_each f l'
  end.

(** ** The attribute list *)

(** [memcmp] of two byte sequences of the same length. *)
Fixpoint memcmp (a b : list Z) : Z :=
  match a, b with
  | x :: a', y :: b' => if x <? y then -1 else if y <? x then 1 else memcmp a' b'
  | _, _ => 0
  end.

Definition same_type (v w : mmrp_value) : bool :=
  match v, w with
  | SVCREQ _, SVCREQ _ | MACVEC _, MACVEC _ => true
  | _, _ => false
  end.

Definition same_value (v w : mmrp_value) : bool :=
  match v, w with
  | SVCREQ a, SVCREQ b => a =? b
  | MACVEC a, MACVEC b => memcmp a b =? 0
  | _, _ => false
  end.

(** The order within a type. *)
Definition value_lt (v w : mmrp_value) : bool :=
  match v, w with
  | SVCREQ a, SVCREQ b => a <? b
  | MACVEC a, MACVEC b => memcmp a b <? 0
  | _, _ => false
  end.

Fixpoint mmrp_lookup (v : mmrp_value) (l : list mmrp_attribute) : option mmrp_attribute :=
  match l with
  | [] => None
  | a :: l' => if same_value (mm_value a) v then Some a else mmrp_lookup v l'
  end.

(** Sorted into types, and in order within a type. *)
Fixpoint mmrp_add (r : mmrp_attribute) (l : list mmrp_attribute) : list mmrp_attribute :=
  match l with
  | [] => [r]
  | a :: l' =>
      if same_type (mm_value r) (mm_value a) then
        if value_lt (mm_value a) (mm_value r) then
          match l' with
          | [] => [a; r]
          | n :: _ => if same_type (mm_value a) (mm_value n) then a :: mmrp_add r l' else a :: r :: l'
          end
        else r :: a :: l'
      else a :: mmrp_add r l'
  end.

(** A change of the attribute that [mmrp_lookup] finds. *)
Fixpoint mm_at (v : mmrp_value) (f : mmrp_attribute -> mmrp_attribute) (l : list mmrp_attribute)
  : list mmrp_attribute :=
  match l with
  | [] => []
  | a :: l' => if same_value (mm_value a) v then f a :: l' else a :: mm_at v f l'
  end.

Definition mmrp_merge (r : mmrp_attribute) (l : list mmrp_attribute) : Z * list mmrp_attribute :=
  match mmrp_lookup (mm_value r) l with
  | None => (-1, l)
  | Some _ => (0, mm_at (mm_value r) (mm_set_source (reg_macaddr (mm_registrar r))) l)
  end.

Fixpoint mm_unlink (v : mmrp_value) (l : list mmrp_attribute) : list mmrp_attribute :=
  match l with
  | [] => []
  | a :: l' => if same_value (mm_value a) v then l' else a :: mm_unlink v l'
  end.

(** An attribute as [mmrp_alloc] provides it, with the value the caller gives it. *)
Definition mm_fresh (v : mmrp_value) : mmrp_attribute :=
  mkMm v (mkApplicant VO false SND_NULL ENCODE_OPTIONAL None)
    (mkRegistrar MT NOTIFY_NONE (replicate 6 0) None).

(** The loop counts down from the last byte and does not reach the first one. *)
Fixpoint increment_from (i : nat) (macaddr : list Z) : list Z :=
  match i with
  | O => macaddr
  | S i' =>
      if negb (nth i macaddr 0 =? 255) then <[i := nth i macaddr 0 + 1]> macaddr
      else increment_from i' (<[i := 0]> macaddr)
  end.

Definition mmrp_increment_macaddr (macaddr : list Z) : list Z := increment_from 5 macaddr.

(** ** Vectors

    [mmrp_emit_svcvectors] and [mmrp_emit_macvectors] are two copies of one routine;
    a [mm_kind] has what differs between them. *)

Record mm_kind : Type := mkKind {
  k_is : mmrp_value -> bool;      (* the attribute type *)
  k_type : Z;                     (* AttributeType *)
  k_length : Z;                   (* AttributeLength *)
  k_vectidx : nat;                (* index of the first event byte *)
  k_vector_size : nat;            (* vector_size *)
  k_margin : nat;                 (* bytes kept free while packing *)
  k_clears : bool;                (* vectevt[1] and vectevt[2] are cleared for a vector *)
  k_joins_first : bool;           (* JoinIn or JoinMt by the registrar of the first value *)
  k_lva_once : bool;              (* the LeaveAll flag is set in the first vector only *)
  k_empty : bool                  (* an empty LeaveAll is sent on request *)
}.

Definition is_svcreq (v : mmrp_value) : bool := match v with SVCREQ _ => true | MACVEC _ => false end.
Definition is_macvec (v : mmrp_value) : bool := negb (is_svcreq v).

Definition svc_kind : mm_kind := mkKind is_svcreq MMRP_SVCREQ_TYPE 1 2 6 2 false false true true.
Definition mac_kind : mm_kind := mkKind is_macvec MMRP_MACVEC_TYPE 6 6 11 11 true true false false.

Definition value_bytes (v : mmrp_value) : list Z :=
  match v with SVCREQ s => [s] | MACVEC m => m end.

(** The value the next attribute of a vector has. *)
Definition next_value (v : mmrp_value) : mmrp_value :=
  match v with SVCREQ s => SVCREQ (u8 (s + 1)) | MACVEC m => MACVEC (mmrp_increment_macaddr m) end.

(** The event value of an attribute, with the registrar state consulted for a Join;
    [None] is an internal error. *)
Definition mm_pdu_event (joins : registrar_state) (x : mmrp_attribute) : option Z :=
  match app_sndmsg (mm_applicant x) with
  | SND_IN => Some (if bool_decide (reg_state (mm_registrar x) = IN) then MRPDU_IN else MRPDU_MT)
  | SND_NEW => Some MRPDU_NEW
  | SND_LV => Some MRPDU_LV
  | SND_JOIN => Some (if bool_decide (joins = IN) then MRPDU_JOININ else MRPDU_JOINMT)
  | _ => None
  end.

Definition joins_of (K : mm_kind) (first x : mmrp_attribute) : registrar_state :=
  reg_state (mm_registrar (if k_joins_first K then first else x)).

(** [eof - margin < &FirstValue_VectorEvents[vectidx]]. *)
Definition mm_past (margin eof vptr : nat) (v : vector) : bool :=
  (eof <? vptr + 2 + v_vectidx v + margin)%nat.

(** The inner loop over the contiguous attributes behind [first]; [false] is the jump
    to [oops].  Returns the attributes with their [tx] flags cleared. *)
Fixpoint mm_pack_loop (K : mm_kind) (eof vptr : nat) (first : mmrp_attribute) (value : mmrp_value)
    (rest : list mmrp_attribute) (v : vector) : outcome (bool * list mmrp_attribute * vector) :=
  match rest with
  | [] => mret (true, [], v)
  | x :: rest' =>
      if negb (k_is K (mm_value x)) then mret (true, rest, v)
      else if negb (app_tx (mm_applicant x)) then mret (true, rest, v)
      else
        let value := next_value value in
        if negb (same_value (mm_value x) value) then mret (true, rest, v)
        else
          match mm_pdu_event (joins_of K first x) x with
          | None => mret (false, mm_clear_tx x :: rest', v)
          | Some e =>
              let v := mkVector (v_buf v) (<[v_idx v := e]> (v_evt v)) (S (v_idx v))
                         (u16 (v_num v + 1)) (v_vectidx v) in
              v ← (if (2 <? v_idx v)%nat then put_pack vptr v else mret v);
              if mm_past (k_margin K) eof vptr v then mret (false, mm_clear_tx x :: rest', v)
              else
                '(ok, rest'', v') ← mm_pack_loop K eof vptr first value rest' v;
                mret (ok, mm_clear_tx x :: rest'', v')
          end
  end.

(** State of the outer loop: buffer, [mrpdu_vectorptr], [mrpdu_msg_ptr], [lva],
    [attrib_found_flag] and [vectevt]. *)
Record mm_emit : Type := mkMmEmit {
  me_buf : list Z;
  me_vptr : nat;
  me_ptr : nat;
  me_lva : bool;
  me_found : bool;
  me_evt : list Z
}.

(** The trailing events; [vectevt] keeps its contents. *)
Definition mm_trailer (vptr : nat) (v : vector) : outcome vector :=
  if (0 <? v_idx v)%nat then
    buf ← put_byte (v_buf v) (vptr + 2 + v_vectidx v) (encode3 (v_evt v));
    mret (mkVector buf (v_evt v) (v_idx v) (v_num v) (S (v_vectidx v)))
  else mret v.

(** One vector for [x], whose list continues with [rest]; [None] is [oops]. *)
Definition mm_emit_vector (K : mm_kind) (eof : nat) (x : mmrp_attribute) (rest : list mmrp_attribute)
    (s : mm_emit) : outcome (option mm_emit * list mmrp_attribute) :=
  buf ← write_bytes (me_buf s) (me_vptr s + 2) (value_bytes (mm_value x));
  match mm_pdu_event (reg_state (mm_registrar x)) x with
  | None => mret (None, rest)
  | Some e =>
      let evt := if k_clears K then [e; 0; 0] else <[0%nat := e]> (me_evt s) in
      '(ok, rest', v) ← mm_pack_loop K eof (me_vptr s) x (mm_value x) rest
                           (mkVector buf evt 1 1 (k_vectidx K));
      if negb ok then mret (None, rest')
      else
        v ← mm_trailer (me_vptr s) v;
        if mm_past 2 eof (me_vptr s) v then mret (None, rest')
        else
          let header := MRPDU_VECT_NUMVALUES (v_num v) in
          let header := if me_lva s then Z.lor header MRPDU_VECT_LVA_FLAG else header in
          buf ← write_bytes (v_buf v) (me_vptr s) (be_bytes 2 header);
          let ptr := (me_vptr s + 2 + v_vectidx v)%nat in
          mret (Some (mkMmEmit buf ptr ptr (me_lva s && negb (k_lva_once K)) true (v_evt v)), rest')
  end.

(** The outer loop; each round handles the first attribute of the list. *)
Fixpoint mm_emit_loop (K : mm_kind) (fuel eof : nat) (l : list mmrp_attribute) (s : mm_emit)
  : outcome (option mm_emit * list mmrp_attribute) :=
  match fuel with
  | O => Fault FuelExhausted
  | S fuel =>
      match l with
      | [] => mret (Some s, [])
      | x :: rest =>
          if (me_ptr s + k_vector_size K + 2 <? eof)%nat then
            if negb (k_is K (mm_value x)) || negb (app_tx (mm_applicant x)) then
              '(r, l') ← mm_emit_loop K fuel eof rest s; mret (r, x :: l')
            else if decide (app_encode (mm_applicant x) = ENCODE_OPTIONAL) then
              '(r, l') ← mm_emit_loop K fuel eof rest s; mret (r, mm_clear_tx x :: l')
            else
              '(r, rest') ← mm_emit_vector K eof x rest s;
              match r with
              | None => mret (None, mm_clear_tx x :: rest')
              | Some s' => '(r, l') ← mm_emit_loop K fuel eof rest' s'; mret (r, mm_clear_tx x :: l')
              end
          else mret (Some s, l)
      end
  end.

(** Result code, bytes used, buffer and attributes; [vectevt] is what the local array
    holds when the function is entered. *)
Definition mm_emit_vectors (K : mm_kind) (vectevt buf : list Z) (msgbuf eof : nat)
    (lva send_empty : bool) (l : list mmrp_attribute)
  : outcome (Z * nat * list Z * list mmrp_attribute) :=
  if (eof <? msgbuf + k_vector_size K)%nat then mret (-1, 0%nat, buf, l)
  else
    buf ← write_bytes buf msgbuf [k_type K; k_length K];
    '(r, l') ← mm_emit_loop K (S (length l)) eof l (mkMmEmit buf (msgbuf + 2) msgbuf lva false vectevt);
    match r with
    | None => mret (-1, 0%nat, buf, l')
    | Some s =>
        s ← (if k_empty K && negb (me_found s) && send_empty then
               buf ← write_bytes (me_buf s) (me_vptr s)
                       (be_bytes 2 (Z.lor (MRPDU_VECT_NUMVALUES 0) MRPDU_VECT_LVA_FLAG));
               let ptr := (me_vptr s + 2 + Z.to_nat (k_length K))%nat in
               mret (mkMmEmit buf ptr ptr (me_lva s) (me_found s) (me_evt s))
             else mret s);
        if (me_vptr s =? msgbuf + 2)%nat then mret (0, 0%nat, me_buf s, l')
        else
          buf ← write_bytes (me_buf s) (me_ptr s) [0; 0];
          mret (0, (me_ptr s + 2 - msgbuf)%nat, buf, l')
    end.

Definition mmrp_emit_svcvectors := mm_emit_vectors svc_kind.
Definition mmrp_emit_macvectors := mm_emit_vectors mac_kind.

(** [uninit n]: what the local array [vectevt] of [mmrp_emit_svcvectors], which is not
    initialized, holds in a call after [n] answers of the operating system. *)
Section Mmrp.
Context (E : Os) (p2pmac : Z) (STATION_ADDR : list Z) (uninit : nat -> list Z).

Definition mm_malloc : MMRP bool :=
  m ← mm_the_db;
  mm_upd_mrp step_os;;
  mret (os_malloc E (asked (mm_mrp_db m))).

Definition mmrp_alloc (v : mmrp_value) : MMRP (option mmrp_attribute) :=
  ok ← mm_malloc;
  mret (if ok : bool then Some (mm_fresh v) else None).

(** ** Notifications *)

(** [S=%d] or [M=<address>]. *)
Definition mm_variant (v : mmrp_value) : list Z :=
  match v with
  | SVCREQ s => str "S=" ++ fmt_d s
  | MACVEC m => str "M=" ++ fmt_mac m
  end.

Definition mm_regsrc (x : mmrp_attribute) : list Z := str "R=" ++ fmt_mac (reg_macaddr (mm_registrar x)).

Definition mm_notify_text (x : mmrp_attribute) (notify : mrp_notify) : option (list Z) :=
  let state := mrp_decode_state (mm_registrar x) (mm_applicant x) 8 in
  let line tag :=
    Some (snprintf (MAX_MRPD_CMDSZ - 1)
            (str tag ++ str " " ++ mm_variant (mm_value x) ++ str " " ++ mm_regsrc x ++ str " " ++
             state ++ newline)) in
  match notify with
  | NOTIFY_NEW => line "MNE"
  | NOTIFY_JOIN => line "MJO"
  | NOTIFY_LV => line "MLE"
  | NOTIFY_NONE => None
  end.

Definition mmrp_send_notifications (x : mmrp_attribute) (notify : mrp_notify) : MMRP Z :=
  msgbuf ← mm_malloc;
  if negb msgbuf then mret (-1)
  else
    variant ← mm_malloc;
    regsrc ← mm_malloc;
    if negb variant || negb regsrc then mret 0
    else
      match mm_notify_text x notify with
      | None => mret 0
      | Some text =>
          m ← mm_the_db;
          mm_each (fun c => mm_send_ctl_msg c text) (clients (mm_mrp_db m));;
          mret 0
      end.

(** The last loop of [mmrp_event]; returns the list with its notifications cleared. *)
Fixpoint mm_notify_loop (l : list mmrp_attribute) : MMRP (list mmrp_attribute) :=
  match l with
  | [] => mret []
  | x :: l' =>
      x' ← (if decide (reg_notify (mm_registrar x) = NOTIFY_NONE) then mret x
            else
              mmrp_send_notifications x (reg_notify (mm_registrar x));;
              mret (mm_set_notify NOTIFY_NONE x));
      l'' ← mm_notify_loop l';
      mret (x' :: l'')
  end.

(** ** Transmission *)

Definition mmrp_txpdu : MMRP Z :=
  ok ← mm_malloc;
  if negb ok then mret (-1)
  else
    buf ← lift (write_bytes (replicate MAX_FRAME_SIZE 0) 12 (be_bytes 2 MMRP_ETYPE));
    buf ← lift (write_bytes buf 0 MMRP_ADDR);
    buf ← lift (write_bytes buf 6 STATION_ADDR);
    buf ← lift (write_bytes buf ETH_HDR [MMRP_PROT_VER]);
    let msglist := S ETH_HDR in
    m ← mm_the_db;
    let t := lva (mm_mrp_db m) in
    let vectevt := uninit (asked (mm_mrp_db m)) in
    mm_upd_mrp (set_lva (mkTimer (lva_state t) false (lva_sndmsg t)));;
    '(rc, bytes, buf, l) ← lift (mmrp_emit_macvectors vectevt buf msglist MAX_FRAME_SIZE (lva_tx t)
                                   (mm_send_empty m) (mm_list m));
    mm_upd_db (mm_set_list l);;
    if (rc : Z) =? -1 then mret (-1)
    else
      let ptr := (msglist + bytes)%nat in
      if (MAX_FRAME_SIZE <=? ptr + 2)%nat then mret (-1)
      else
        '(rc, bytes, buf, l) ← lift (mmrp_emit_svcvectors vectevt buf ptr MAX_FRAME_SIZE (lva_tx t)
                                       (mm_send_empty m) l);
        mm_upd_db (mm_set_list l);;
        if (rc : Z) =? -1 then mret (-1)
        else
          let ptr := (ptr + bytes)%nat in
          if (ptr =? msglist)%nat then mret 0
          else if (ptr + 2 <? MAX_FRAME_SIZE)%nat then
            buf ← lift (write_bytes buf ptr [0; 0]);
            let frame := take (ptr + 2) buf in
            m ← mm_the_db;
            mm_upd_mrp step_os;;
            modify (fun w => mkMmrp (MMRP_db w) (mm_frames w ++ [frame]) (mm_messages w));;
            mret (if os_send E (asked (mm_mrp_db m)) <=? 0 then -1 else 0)
          else mret (-1).

(** ** Events *)

(** Applies a pair of state machine steps to every attribute, threading the timers. *)
Fixpoint mm_for (f : mmrp_attribute -> mrp_database -> mmrp_attribute * mrp_database)
    (l : list mmrp_attribute) (db : mrp_database) : list mmrp_attribute * mrp_database :=
  match l with
  | [] => ([], db)
  | x :: l' =>
      let '(x', db) := f x db in
      let '(l'', db) := mm_for f l' db in
      (x' :: l'', db)
  end.

Definition mm_app_event (e : mrp_event) (x : mmrp_attribute) : mmrp_attribute :=
  mm_set_applicant (snd (mrp_applicant_fsm p2pmac (mm_applicant x) e (mrp_registrar_in (mm_registrar x)))) x.

Definition mm_reg_event (e : mrp_event) (x : mmrp_attribute) (db : mrp_database)
  : mmrp_attribute * mrp_database :=
  let '(rc, r, db) := mrp_registrar_fsm E (mm_registrar x) db e in (mm_set_registrar r x, db).

(** Applicant, then registrar, on the same event. *)
Definition mm_both_event (e : mrp_event) (x : mmrp_attribute) (db : mrp_database)
  : mmrp_attribute * mrp_database := mm_reg_event e (mm_app_event e x) db.

Definition mm_run (f : mmrp_attribute -> mrp_database -> mmrp_attribute * mrp_database) : MMRP unit :=
  mm_upd_db (fun m =>
    let '(l, db) := mm_for f (mm_list m) (mm_mrp_db m) in
    mm_set_list l (mm_set_mrp db m)).

Definition mm_event_lvatimer : MMRP unit :=
  mm_upd_mrp (fun db => snd (mrp_lvatimer_stop E db));;
  mm_upd_mrp (fun db => snd (mrp_jointimer_stop E db));;
  mm_run (mm_both_event EVENT_TXLA);;
  mm_upd_mrp (fun db => snd (mrp_lvatimer_fsm E db EVENT_LVATIMER));;
  mm_upd_db (mm_set_empty true);;
  mm_upd_mrp (fun db => snd (mrp_lvatimer_fsm E db EVENT_TX));;
  mmrp_txpdu;;
  mm_upd_db (mm_set_empty false).

(** Only the attributes of the type of [rattrib] are told; without it the function
    returns early. *)
Definition mm_event_rla (rattrib : option mmrp_value) : MMRP (option Z) :=
  mm_upd_mrp (fun db => snd (mrp_jointimer_start E db));;
  match rattrib with
  | None => mret (Some (-1))
  | Some v =>
      mm_run (fun x db => if same_type (mm_value x) v then mm_both_event EVENT_RLA x db else (x, db));;
      mm_upd_mrp (fun db => snd (mrp_lvatimer_fsm E db EVENT_RLA));;
      mret None
  end.

Definition mm_tx_count (l : list mmrp_attribute) : Z :=
  fold_right (fun x n => mrp_applicant_state_transition_implies_tx (mm_applicant x) + n) 0 l.

Definition mm_event_tx : MMRP unit :=
  mm_upd_mrp (fun db => snd (mrp_jointimer_stop E db));;
  mm_run (fun x db => (mm_app_event EVENT_TX x, db));;
  m ← mm_the_db;
  let count := mm_tx_count (mm_list m) in
  mmrp_txpdu;;
  if count =? 0 then mret tt else mm_upd_mrp (fun db => snd (mrp_jointimer_start E db)).

Definition mm_event_lvtimer : MMRP unit :=
  mm_upd_mrp (fun db => snd (mrp_lvtimer_stop E db));;
  mm_run (mm_reg_event EVENT_LVTIMER).

Definition mm_event_periodic : MMRP unit :=
  m ← mm_the_db;
  (match mm_list m with
   | [] => mret tt
   | _ => mm_upd_mrp (fun db => snd (mrp_jointimer_start E db))
   end);;
  mm_run (fun x db => (mm_app_event EVENT_PERIODIC x, db)).

(** Local requests are mapped to registrar events. *)
Definition mm_attribute_registrar (e : mrp_event) (x : mmrp_attribute) (db : mrp_database)
  : mmrp_attribute * mrp_database :=
  match e with
  | EVENT_NEW =>
      let '(x, db) := mm_reg_event EVENT_BEGIN x db in (mm_set_notify NOTIFY_NEW x, db)
  | EVENT_JOIN =>
      if decide (reg_state (mm_registrar x) = IN) then mm_reg_event EVENT_RJOININ x db
      else mm_reg_event EVENT_RJOINMT x db
  | EVENT_LV => mm_reg_event EVENT_RLV x db
  | _ => mm_reg_event e x db
  end.

(** An event for one attribute; a result is the return before the notifications. *)
Definition mm_event_attribute (e : mrp_event) (rattrib : option mmrp_attribute) : MMRP (option Z) :=
  mm_upd_mrp (fun db => snd (mrp_jointimer_start E db));;
  match rattrib with
  | None => mret (Some (-1))
  | Some r =>
      m ← mm_the_db;
      let found := mmrp_lookup (mm_value r) (mm_list m) in
      match found, e with
      | None, EVENT_RMT => mret (Some 0)
      | _, _ =>
          mm_upd_db (fun m => mm_set_list
            (match found with
             | None => mmrp_add r (mm_list m)
             | Some _ => snd (mmrp_merge r (mm_list m))
             end) m);;
          m ← mm_the_db;
          match mmrp_lookup (mm_value r) (mm_list m) with
          | None => mret None
          | Some x =>
              let '(x', db) := mm_attribute_registrar e (mm_app_event e x) (mm_mrp_db m) in
              mm_upd_db (fun m => mm_set_mrp db
                           (mm_set_list (mm_at (mm_value r) (fun _ => x') (mm_list m)) m));;
              mret None
          end
      end
  end.

Definition mmrp_event (e : mrp_event) (rattrib : option mmrp_attribute) : MMRP Z :=
  early ← (match e with
           | EVENT_LVATIMER => mm_event_lvatimer;; mret None
           | EVENT_RLA => mm_event_rla (mm_value <$> rattrib)
           | EVENT_TX => mm_event_tx;; mret None
           | EVENT_LVTIMER => mm_event_lvtimer;; mret None
           | EVENT_PERIODIC => mm_event_periodic;; mret None
           | EVENT_NEW | EVENT_JOIN | EVENT_RNEW | EVENT_RJOININ | EVENT_RJOINMT | EVENT_LV
           | EVENT_RIN | EVENT_RMT | EVENT_RLV => mm_event_attribute e rattrib
           | _ => mret None
           end);
  match early with
  | Some rc => mret rc
  | None =>
      m ← mm_the_db;
      l ← mm_notify_loop (mm_list m);
      mm_upd_db (mm_set_list l);;
      mret 0
  end.

(** ** Reclaiming attributes *)

Definition mm_reclaimable (x : mmrp_attribute) : bool :=
  bool_decide (reg_state (mm_registrar x) = MT) &&
  match app_state (mm_applicant x) with VO | AO | QO => true | _ => false end.

Definition mm_reclaim_one (x : mmrp_attribute) : MMRP unit :=
  if mm_reclaimable x then
    mm_upd_db (fun m => mm_set_list (mm_unlink (mm_value x) (mm_list m)) m);;
    mmrp_send_notifications x NOTIFY_LV;;
    mret tt
  else mret tt.

Definition mmrp_reclaim : MMRP Z :=
  p ← gets MMRP_db;
  match p with
  | MmNoDb => mret 0
  | _ => m ← mm_the_db; mm_each mm_reclaim_one (mm_list m);; mret 0
  end.

(** ** Reception

    The code for the two types is the same but for the width of the first value and
    the handling of LeaveAll. *)

(** The innermost loop: one attribute per event value; service requirements above 1 are
    skipped.  [None] is the jump to [out] when an allocation fails. *)
Fixpoint mm_value_loop (src : list Z) (evts : list Z) (value : mmrp_value) : MMRP (option mmrp_value) :=
  match evts with
  | [] => mret (Some value)
  | v :: evts' =>
      if (match value with SVCREQ s => 1 <? s | MACVEC _ => false end) then mm_value_loop src evts' value
      else
        a ← mmrp_alloc value;
        match a with
        | None => mret None
        | Some a =>
            (match rx_event v with
             | Some e => mmrp_event e (Some (mm_set_source src a));; mret tt
             | None => mret tt
             end);;
            mm_value_loop src evts' (next_value value)
        end
  end.

(** [n] vector bytes from offset [off] on, with [numvalues] values left. *)
Fixpoint mm_byte_loop (n : nat) (buf src : list Z) (off : nat) (numvalues : Z) (value : mmrp_value)
  : MMRP (option mmrp_value) :=
  match n with
  | O => mret (Some value)
  | S n =>
      b ← lift (rd buf off);
      let processed := if 3 <? numvalues then 3 else numvalues in
      r ← mm_value_loop src (take (Z.to_nat processed) (decode3 b)) value;
      match r with
      | None => mret None
      | Some value => mm_byte_loop n buf src (S off) (numvalues - processed) value
      end
  end.

(** Bytes of a first value. *)
Definition mm_width (svc : bool) : nat := if svc then 1%nat else 6%nat.

(** The vector at offset [v]: its values are applied.  [None] is the jump to [out];
    otherwise the offset behind the vector. *)
Definition mm_one_vector (svc : bool) (buf src : list Z) (eof v : nat) (header : Z) : MMRP (option nat) :=
  let numvalues := MRPDU_VECT_NUMVALUES header in
  if numvalues =? 0 then mret None
  else if (eof <=? v + 2 + Z.to_nat (numvalues / 3))%nat then mret None
  else
    first ← lift (read_bytes buf (v + 2) (mm_width svc));
    let value := if svc then SVCREQ (nth 0 first 0) else MACVEC first in
    let numvectorbytes :=
      if negb (numvalues =? numvalues / 3 * 3) then numvalues / 3 + 1 else numvalues / 3 in
    r ← mm_byte_loop (Z.to_nat numvectorbytes + 1) buf src (v + 2 + mm_width svc) numvalues value;
    mret (match r with
          | None => None
          | Some _ => Some (v + 2 + mm_width svc + Z.to_nat numvectorbytes)%nat
          end).

(** A LeaveAll for the type: [None] is the jump to [out], otherwise [saw_lva]. *)
Definition mm_leaveall (svc : bool) (header : Z) (saw : bool) : MMRP (option bool) :=
  if MRPDU_VECT_LVA header && negb (svc && saw) then
    a ← mmrp_alloc (if svc then SVCREQ 0 else MACVEC (replicate 6 0));
    match a with
    | None => mret None
    | Some a => mmrp_event EVENT_RLA (Some a);; mret (Some (if svc then true else saw))
    end
  else mret (Some saw).

(** The vectors of one message from offset [v] on.  [None] is the jump to [out];
    otherwise the offset of the end mark and [saw_lva]. *)
Fixpoint mm_vector_loop (fuel : nat) (svc : bool) (buf src : list Z) (eof v : nat) (saw : bool)
  : MMRP (option (nat * bool)) :=
  match fuel with
  | O => raise FuelExhausted
  | S fuel =>
      b0 ← lift (rd buf v);
      b1 ← lift (rd buf (v + 1));
      if (b0 =? 0) && (b1 =? 0) then mret (Some (v, saw))
      else
        let header := be_val [b0; b1] in
        s ← mm_leaveall svc header saw;
        match s with
        | None => mret None
        | Some saw =>
            r ← mm_one_vector svc buf src eof v header;
            match r with
            | None => mret None
            | Some v' => mm_vector_loop fuel svc buf src eof v' saw
            end
        end
  end.

(** The messages of a PDU from offset [ptr] on: the result of [mmrp_recv_msg]. *)
Fixpoint mm_message_loop (fuel : nat) (buf src : list Z) (eof ptr : nat) (endmarks : Z) (saw : bool)
  : MMRP Z :=
  match fuel with
  | O => raise FuelExhausted
  | S fuel =>
      if (ptr + 2 <? eof)%nat then
        ty ← lift (rd buf ptr);
        len ← lift (rd buf (ptr + 1));
        if (ty =? 0) && (len =? 0) then
          if endmarks + 1 <? 2 then mm_message_loop fuel buf src eof (ptr + 2) (endmarks + 1) saw
          else mret 0
        else if (ty =? MMRP_SVCREQ_TYPE) || (ty =? MMRP_MACVEC_TYPE) then
          let svc := ty =? MMRP_SVCREQ_TYPE in
          if negb (len =? Z.of_nat (mm_width svc)) then mret (-1)
          else
            r ← mm_vector_loop (S (length buf)) svc buf src eof (ptr + 2) saw;
            match r with
            | None => mret (-1)
            | Some (ptr', saw') => mm_message_loop fuel buf src eof ptr' 0 saw'
            end
        else mret (-1)
      else mret 0
  end.

(** [frame] is what [mrpd_recvmsgbuf] received; its buffer is zero beyond it. *)
Definition mmrp_recv_msg (frame : list Z) : MMRP Z :=
  let buf := frame ++ replicate (MAX_FRAME_SIZE - length frame) 0 in
  let bytes := length frame in
  if (bytes <=? 0)%nat then mret (-1)
  else if (bytes <? ETH_HDR + 1 + 2)%nat then mret (-1)
  else
    ty ← lift (read_bytes buf 12 2);
    if negb (be_val ty =? MMRP_ETYPE) then mret (-1)
    else
      dest ← lift (read_bytes buf 0 6);
      if negb (bool_decide (dest = MMRP_ADDR)) then mret (-1)
      else
        src ← lift (read_bytes buf 6 6);
        mm_message_loop (S (length buf)) buf src bytes (ETH_HDR + 1) 0 false.

(** ** Client commands *)

(** One line of the table, staged through 128 byte buffers. *)
Definition mm_table_line (x : mmrp_attribute) : outcome (list Z) :=
  variant ← sprintf 128 (mm_variant (mm_value x));
  regsrc ← sprintf 128 (mm_regsrc x);
  let tag := match reg_state (mm_registrar x) with IN => "MIN" | LV => "MLV" | MT => "MMT" end%string in
  sprintf 128 (str tag ++ str " " ++ variant ++ str " " ++ regsrc ++ newline).

(** Appends a line for each attribute to the message buffer. *)
Fixpoint mm_dump_loop (l : list mmrp_attribute) (text : list Z) : outcome (list Z) :=
  match l with
  | [] => mret text
  | x :: l' =>
      stage ← mm_table_line x;
      text ← sprintf MAX_MRPD_CMDSZ (text ++ stage);
      mm_dump_loop l' text
  end.

Definition mmrp_dumptable (client : sockaddr_in) : MMRP Z :=
  msgbuf ← mm_malloc;
  if negb msgbuf then mret (-1)
  else
    stage ← mm_malloc;
    variant ← mm_malloc;
    regsrc ← mm_malloc;
    if negb stage || negb variant || negb regsrc then mret 0
    else
      m ← mm_the_db;
      text ← lift (match mm_list m with
                   | [] => sprintf MAX_MRPD_CMDSZ (str "MMRP:Empty" ++ newline)
                   | l => mm_dump_loop l []
                   end);
      mm_send_ctl_msg client text;;
      mret 0.

Definition mac_params : list parse_param := [mkParam (str "M" ++ str PARSE_ASSIGN) parse_mac].
Definition service_params : list parse_param := [mkParam (str "S" ++ str PARSE_ASSIGN) parse_u8].

(** [buf] are the bytes of the command. *)
Definition mmrp_cmd_parse_mac (buf : list Z) : Z * list Z :=
  if Z.of_nat (length buf) <? 17 then (-1, [])
  else
    match parse (drop 4 buf) mac_params with
    | (rc, _, BytesValue bs :: _) => (rc, bs)
    | (rc, _, _) => (rc, replicate 6 0)
    end.

Definition mmrp_cmd_parse_service (buf : list Z) : Z * Z :=
  if Z.of_nat (length buf) <? 5 then (-1, 0)
  else
    match parse (drop 4 buf) service_params with
    | (rc, _, IntValue v :: _) => (rc, v)
    | (rc, _, _) => (rc, 0)
    end.

(** [mmrp_cmd_mac] and [mmrp_cmd_service]. *)
Definition mm_cmd_value (v : mmrp_value) (e : mrp_event) : MMRP Z :=
  a ← mmrp_alloc v;
  match a with
  | None => mret (-1)
  | Some a => mmrp_event e (Some a);; mret 0
  end.

Definition mmrp_cmd_mac (mac : list Z) (e : mrp_event) : MMRP Z := mm_cmd_value (MACVEC mac) e.
Definition mmrp_cmd_service (service : Z) (e : mrp_event) : MMRP Z := mm_cmd_value (SVCREQ service) e.

(** The 12 byte response buffer takes 10 characters of the reply; the command is read
    to its end all the same. *)
Definition mm_respond (client : sockaddr_in) (prefix : string) (buf suffix : list Z) : MMRP unit :=
  text ← lift (c_string MAX_MRPD_CMDSZ buf);
  mm_send_ctl_msg client (snprintf 11 (str prefix ++ text ++ suffix)).

(** The replies to a parsed command; [left] is what the parser left of it. *)
Definition mm_perform (client : sockaddr_in) (buf left : list Z) (rc : Z) (cmd : MMRP Z) : MMRP Z :=
  if negb (rc =? 0) then mm_respond client "ERP " left [];; mret (-1)
  else
    rc ← cmd;
    if negb (rc =? 0) then mm_respond client "ERI " buf [];; mret (-1) else mret 0.

Definition mm_cmd_s (client : sockaddr_in) (buf : list Z) (e : mrp_event) : MMRP Z :=
  let '(rc, service) := mmrp_cmd_parse_service buf in
  mm_perform client buf (command_left 5 buf service_params) rc (mmrp_cmd_service service e).
Definition mm_cmd_m (client : sockaddr_in) (buf : list Z) (e : mrp_event) : MMRP Z :=
  let '(rc, mac) := mmrp_cmd_parse_mac buf in
  mm_perform client buf (command_left 17 buf mac_params) rc (mmrp_cmd_mac mac e).

(** [mrp_client_add] on the database; it allocates only for a new client. *)
Definition mm_add_client (client : sockaddr_in) : MMRP unit :=
  m ← mm_the_db;
  ok ← (if client_lookup (clients (mm_mrp_db m)) (Some client) then mret true else mm_malloc);
  mm_upd_mrp (fun db => set_clients (snd (mrp_client_add ok (clients db) (Some client))) db).

Definition mmrp_recv_cmd (buf : list Z) (client : sockaddr_in) : MMRP Z :=
  p ← gets MMRP_db;
  match p with
  | MmNoDb => mm_respond client "ERC MMRP_db " buf newline;; mret (-1)
  | _ =>
      mm_add_client client;;
      let starts s := strneq (String.length s) buf (str s) in
      let e := if nth 2 buf 0 =? 63 then EVENT_JOIN else EVENT_NEW in
      if (length buf <? 3)%nat then mret (-1)
      else if negb (nth 0 buf 0 =? 77) then mret (-1)
      else if starts "M??"%string then mmrp_dumptable client;; mret 0
      else if starts "M--:S"%string then mm_cmd_s client buf EVENT_LV
      else if starts "M--:M"%string then mm_cmd_m client buf EVENT_LV
      else if starts "M++:S"%string || starts "M+?:S"%string then mm_cmd_s client buf e
      else if starts "M++:M"%string || starts "M+?:M"%string then mm_cmd_m client buf e
      else mm_respond client "ERC MMRP " buf [];; mret (-1)
  end.

(** ** Life cycle *)

(** [rc_socket], [malloc_ok] and [rc_timers]: what opening the socket, allocating the
    database and creating the timers return. *)
Definition mmrp_init (mmrp_enable rc_socket : Z) (malloc_ok : bool) (rc_timers : Z) : MMRP Z :=
  let set p := modify (fun w => mkMmrp p (mm_frames w) (mm_messages w)) in
  set MmNoDb;;
  if mmrp_enable =? 0 then mret 0
  else if rc_socket <? 0 then mret (-1)
  else if negb malloc_ok then mret (-1)
  else if rc_timers <? 0 then mret (-1)
  else
    let db := mkMrpDb (mkTimer TIMER_PASSIVE false SND_NEW) None false None false None false [] 0 0 0 in
    set (MmDb (mkMmrpDb (snd (mrp_lvatimer_fsm E db EVENT_BEGIN)) [] false));;
    mret 0.

(** Releases the attributes, the clients and the database; the pointer stays. *)
Definition mmrp_reset : MMRP unit :=
  p ← gets MMRP_db;
  match p with
  | MmNoDb => mret tt
  | _ => mm_the_db;; modify (fun w => mkMmrp MmFreedDb (mm_frames w) (mm_messages w))
  end.

Definition mmrp_bye (client : sockaddr_in) : MMRP unit :=
  p ← gets MMRP_db;
  match p with
  | MmNoDb => mret tt
  | _ => mm_upd_mrp (fun db => set_clients (snd (mrp_client_delete (clients db) (Some client))) db)
  end.

End Mmrp.
