(* ===== verification/MmrpTheory.v ===== *)
(** * MMRP: the attribute list

    The list of attributes is a block of one type followed by a block of the other,
    each in strict order, and it represents a finite map from values to the states of
    the two state machines. *)

From S2P Require Import Prelude.
From S2P Require Import Mrp.
From S2P Require Import MrpTheory.
From S2P Require Import Mvrp.
From S2P Require Import MvrpEvent.
From S2P Require Import Mmrp.

Open Scope Z_scope.
Local Abbreviation length := List.length.

(** ** Values *)

#[global] Instance mmrp_value_countable : Countable mmrp_value.
Proof.
  refine (inj_countable'
    (fun v => match v with SVCREQ s => inl s | MACVEC m => inr m end)
    (fun s => match s with inl s => SVCREQ s | inr m => MACVEC m end) _).
  by intros [].
Defined.

Definition value_ok (v : mmrp_value) : Prop :=
  match v with
  | SVCREQ s => is_u8 s
  | MACVEC m => bytes m /\ length m = 6%nat
  end.

Lemma memcmp_refl a : memcmp a a = 0.
Proof. induction a as [|x a IH]; cbn; [done|]. by rewrite Z.ltb_irrefl. Qed.

Lemma memcmp_0 a b : length a = length b -> memcmp a b = 0 -> a = b.
Proof.
  revert b. induction a as [|x a IH]; intros [|y b] Hl; cbn in *; try done.
  destruct (Z.ltb_spec x y); [done|]. destruct (Z.ltb_spec y x); [done|].
  intros Hz. f_equal; [lia|]. apply IH; [lia|done].
Qed.

Lemma memcmp_trans a b c :
  length a = length b -> length b = length c -> memcmp a b < 0 -> memcmp b c < 0 -> memcmp a c < 0.
Proof.
  revert b c. induction a as [|x a IH]; intros [|y b] [|z c] H1 H2; cbn in *; try lia.
  destruct (Z.ltb_spec x y), (Z.ltb_spec y x), (Z.ltb_spec y z), (Z.ltb_spec z y),
    (Z.ltb_spec x z), (Z.ltb_spec z x); try lia.
  intros Hab Hbc. eapply (IH b c); lia.
Qed.

Lemma memcmp_total a b : length a = length b -> 0 <= memcmp a b -> a = b \/ memcmp b a < 0.
Proof.
  revert b. induction a as [|x a IH]; intros [|y b] Hl; cbn in *; try (by left); try lia.
  destruct (Z.ltb_spec x y), (Z.ltb_spec y x); try lia. intros Hz.
  destruct (IH b ltac:(lia) Hz) as [->|]; [left; f_equal; lia|by right].
Qed.

Definition vlt (v w : mmrp_value) : Prop := value_lt v w = true.

Lemma same_value_eq v w : value_ok v -> value_ok w -> same_value v w = bool_decide (v = w).
Proof.
  intros Hv Hw. destruct (decide (v = w)) as [->|Hne].
  - rewrite bool_decide_true by done. destruct w; cbn; [apply Z.eqb_refl|by rewrite memcmp_refl].
  - rewrite bool_decide_false by done. destruct v as [s|m], w as [s'|m']; cbn; try done.
    + apply Z.eqb_neq. congruence.
    + apply Z.eqb_neq. intros H0. destruct Hv as [_ Hv], Hw as [_ Hw].
      apply memcmp_0 in H0; congruence.
Qed.

Lemma vlt_trans u v w : value_ok u -> value_ok v -> value_ok w -> vlt u v -> vlt v w -> vlt u w.
Proof.
  unfold vlt. destruct u as [a|a], v as [b|b], w as [c|c]; cbn; try done.
  - rewrite !Z.ltb_lt. lia.
  - rewrite !Z.ltb_lt. intros [_ ?] [_ ?] [_ ?]. apply memcmp_trans; congruence.
Qed.

Lemma vlt_irrefl v : ~ vlt v v.
Proof. unfold vlt. destruct v; cbn; rewrite Z.ltb_lt; [lia|]. rewrite memcmp_refl. lia. Qed.

Lemma vlt_type v w : vlt v w -> same_type v w = true.
Proof. by destruct v, w. Qed.

(** Values of one type are comparable. *)
Lemma vlt_total v w : value_ok v -> value_ok w -> same_type v w = true -> v <> w -> ~ vlt v w -> vlt w v.
Proof.
  unfold vlt. destruct v as [a|a], w as [b|b]; cbn; try done; rewrite !Z.ltb_lt.
  - intros _ _ _ Hne Hlt. assert (a <> b) by congruence. lia.
  - intros [_ Ha] [_ Hb] _ Hne Hlt. destruct (memcmp_total a b) as [->|]; [congruence|lia|done|done].
Qed.

Lemma same_type_refl v : same_type v v = true.
Proof. by destruct v. Qed.
Lemma same_type_sym v w : same_type v w = same_type w v.
Proof. by destruct v, w. Qed.
Lemma same_type_trans u v w : same_type u v = true -> same_type v w = same_type u w.
Proof. by destruct u, v, w. Qed.

(** ** The arrangement of the list *)

Definition values_ok (l : list mmrp_attribute) : Prop := Forall (fun x => value_ok (mm_value x)) l.

Definition block (v : mmrp_value) (l : list mmrp_attribute) : Prop :=
  Forall (fun x => same_type v (mm_value x) = true) l /\ StronglySorted vlt (mm_value <$> l).

(** A block of one type, then a block of the other. *)
Definition arranged (l : list mmrp_attribute) : Prop :=
  exists v A B, l = A ++ B /\ block v A /\ (exists w, same_type v w = false /\ block w B).

Lemma lookup_None_values v l :
  value_ok v -> values_ok l -> mmrp_lookup v l = None <-> v ∉ (mm_value <$> l).
Proof.
  intros Hv. induction 1 as [|x l Hx Hl IH]; cbn; [split; [intros _; apply not_elem_of_nil|done]|].
  rewrite not_elem_of_cons, (same_value_eq _ _ Hx Hv).
  destruct (decide (mm_value x = v)) as [<-|Hne]; [rewrite bool_decide_true by done; naive_solver|].
  rewrite bool_decide_false by done. rewrite IH. naive_solver.
Qed.

(** Insertion into the block of its type. *)
Lemma add_block r A B :
  block (mm_value r) A -> A <> [] -> values_ok A -> value_ok (mm_value r) ->
  mm_value r ∉ (mm_value <$> A) -> (forall y B', B = y :: B' -> same_type (mm_value r) (mm_value y) = false) ->
  exists A1 A2, A = A1 ++ A2 /\ mmrp_add r (A ++ B) = A1 ++ r :: A2 ++ B /\ block (mm_value r) (A1 ++ r :: A2).
Proof.
  induction A as [|a A IH]; [done|]. intros [HT HS] _ Hok Hr Hn HB. cbn [mmrp_add app].
  apply Forall_cons in HT as [Ha HT]. apply Forall_cons in Hok as [Hoka Hok].
  cbn in HS. inversion HS as [|? ? HS' HF]; subst. cbn in Hn. apply not_elem_of_cons in Hn as [Hne Hn].
  rewrite Ha. destruct (value_lt (mm_value a) (mm_value r)) eqn:Hlt.
  - assert (Hend : (A = [] -> exists A1 A2, a :: A = A1 ++ A2 /\ a :: r :: B = A1 ++ r :: A2 ++ B /\
      block (mm_value r) (A1 ++ r :: A2))).
    { intros ->. exists [a], []. split_and!; [done..|]. split.
      - repeat constructor; [done|apply same_type_refl].
      - cbn. by repeat constructor. }
    destruct A as [|a' A].
    + cbn [app]. destruct B as [|y B']; [by apply Hend|].
      rewrite (same_type_trans (mm_value r) (mm_value a)) by done. rewrite (HB y B' eq_refl). by apply Hend.
    + cbn [app]. pose proof (Forall_inv HT) as Ha'. cbn beta in Ha'.
      rewrite (same_type_trans (mm_value r) (mm_value a)), Ha' by done.
      destruct IH as (A1&A2&HA&Heq&[HbT HbS]); [by split|done..|].
      cbn [app] in Heq. exists (a :: A1), A2. rewrite Heq, HA. split_and!; [done..|]. split; [by constructor|].
      cbn. constructor; [done|]. rewrite HA in HF. rewrite fmap_app in *. apply Forall_app in HF as [HF1 HF2].
      apply Forall_app. split; [done|]. by constructor.
  - exists [], (a :: A). split_and!; [done..|]. split; [constructor; [apply same_type_refl|by constructor]|].
    cbn. assert (Hra : vlt (mm_value r) (mm_value a)).
    { apply vlt_total; [done..|by rewrite same_type_sym|congruence|]. unfold vlt. by rewrite Hlt. }
    constructor; [done|]. constructor; [done|]. rewrite Forall_fmap in HF |- *.
    rewrite Forall_forall in HF |- *. intros x Hx. eapply vlt_trans; [done|exact Hoka| |exact Hra|by apply HF].
    unfold values_ok in Hok. rewrite Forall_forall in Hok. by apply Hok.
Qed.

(** A block of the other type is passed. *)
Lemma add_skip r A B :
  Forall (fun x => same_type (mm_value r) (mm_value x) = false) A -> mmrp_add r (A ++ B) = A ++ mmrp_add r B.
Proof. induction 1 as [|a A Ha _ IH]; cbn; [done|]. by rewrite Ha, IH. Qed.

Lemma block_other u v l :
  same_type u v = false -> block v l -> Forall (fun x => same_type u (mm_value x) = false) l.
Proof.
  intros Huv [HF _]. eapply Forall_impl; [exact HF|]. cbn. intros x Hx. by destruct u, v, (mm_value x).
Qed.

Lemma block_type u v l : same_type u v = true -> block v l -> block u l.
Proof.
  intros Huv [HF HS]. split; [|done]. eapply Forall_impl; [exact HF|]. cbn. intros x Hx. by destruct u, v, (mm_value x).
Qed.

Lemma block_nil v : block v [].
Proof. split; constructor. Qed.

Lemma block_one r : block (mm_value r) [r].
Proof. split; repeat constructor. apply same_type_refl. Qed.

Lemma arranged_blocks v w A B :
  same_type v w = false -> block v A -> block w B -> arranged (A ++ B).
Proof. intros. exists v, A, B. split_and!; [done..|]. by exists w. Qed.

(** A new value is put into the block of its type. *)
Lemma mmrp_add_split r l :
  arranged l -> values_ok l -> value_ok (mm_value r) -> mm_value r ∉ (mm_value <$> l) ->
  exists l1 l2, l = l1 ++ l2 /\ mmrp_add r l = l1 ++ r :: l2 /\ arranged (l1 ++ r :: l2).
Proof.
  intros (v&A&B&->&HA&w&Hvw&HB) Hok Hr Hn. apply Forall_app in Hok as [HokA HokB].
  rewrite fmap_app, not_elem_of_app in Hn. destruct Hn as [HnA HnB].
  destruct (same_type (mm_value r) v) eqn:Hrv.
  - pose proof (block_type _ _ _ Hrv HA) as HA'.
    assert (Hrw : same_type (mm_value r) w = false) by (by destruct (mm_value r), v, w).
    pose proof (block_other _ _ _ Hrw HB) as HBo. destruct A as [|a A].
    + exists B, []. rewrite (app_nil_r B). cbn [app].
      pose proof (add_skip r B [] HBo) as Hs. rewrite app_nil_r in Hs. split_and!; [done|exact Hs|].
      apply (arranged_blocks w (mm_value r)); [by rewrite same_type_sym|done|apply block_one].
    + destruct (add_block r (a :: A) B) as (A1&A2&HAA&Heq&Hb); try done.
      { intros y B' ->. by apply Forall_inv in HBo. }
      exists A1, (A2 ++ B). rewrite Heq, HAA, <- (assoc_L (++)). split_and!; [done..|].
      change (A1 ++ r :: A2 ++ B) with (A1 ++ (r :: A2) ++ B). rewrite (assoc_L (++)).
      by apply (arranged_blocks (mm_value r) w).
  - rewrite add_skip by (by eapply block_other).
    assert (Hrw : same_type (mm_value r) w = true) by (by destruct (mm_value r), v, w).
    pose proof (block_type _ _ _ Hrw HB) as HB'. assert (Hvr : same_type v (mm_value r) = false) by (by rewrite same_type_sym).
    destruct B as [|b B].
    + exists A, []. split_and!; [done..|]. apply (arranged_blocks v (mm_value r)); try done. apply block_one.
    + destruct (add_block r (b :: B) []) as (B1&B2&HBB&Heq&Hb); try done.
      rewrite !app_nil_r in Heq. exists (A ++ B1), B2. rewrite Heq, HBB, <- !(assoc_L (++)).
      split_and!; [done..|]. by apply (arranged_blocks v (mm_value r)).
Qed.

Lemma block_NoDup v l : block v l -> NoDup (mm_value <$> l).
Proof.
  intros [_ HS]. induction HS as [|x xs _ IH HF]; constructor; [|done].
  intros Hin. rewrite Forall_forall in HF. by apply (vlt_irrefl x), HF.
Qed.

Lemma arranged_NoDup l : arranged l -> NoDup (mm_value <$> l).
Proof.
  intros (v&A&B&->&HA&w&Hvw&HB). rewrite fmap_app. apply NoDup_app. split_and!.
  - by eapply block_NoDup.
  - intros x (a&->&Ha)%list_elem_of_fmap (b&Hab&Hb)%list_elem_of_fmap.
    destruct HA as [HA _], HB as [HB _]. rewrite Forall_forall in HA, HB.
    specialize (HA _ Ha). specialize (HB _ Hb). rewrite Hab in HA. by destruct v, w, (mm_value b).
  - by eapply block_NoDup.
Qed.

(** The arrangement depends on the values only. *)
Lemma arranged_values l l' : mm_value <$> l = mm_value <$> l' -> arranged l -> arranged l'.
Proof.
  intros Heq (v&A&B&->&[HA1 HA2]&w&Hvw&[HB1 HB2]). rewrite fmap_app in Heq. symmetry in Heq.
  apply fmap_app_inv in Heq as (A'&B'&HA'&HB'&->).
  assert (Hb : forall u l l', Forall (fun x => same_type u (mm_value x) = true) l ->
    mm_value <$> l = mm_value <$> l' -> Forall (fun x => same_type u (mm_value x) = true) l').
  { intros u x x' HF Hx. apply (Forall_fmap mm_value (fun v => same_type u v = true)).
    rewrite <- Hx. by apply Forall_fmap. }
  exists v, A', B'. split_and!; [done| |].
  - split; [by eapply Hb|by rewrite <- HA'].
  - exists w. split; [done|]. split; [by eapply Hb|by rewrite <- HB'].
Qed.

(** ** Lookup *)

Lemma lookup_split v l x :
  value_ok v -> values_ok l -> mmrp_lookup v l = Some x ->
  exists A B, l = A ++ x :: B /\ mm_value x = v /\ v ∉ (mm_value <$> A).
Proof.
  intros Hv. induction 1 as [|y l Hy Hl IH]; cbn; [done|]. rewrite (same_value_eq _ _ Hy Hv).
  case_bool_decide as Hd.
  - intros [= ->]. exists [], l. split_and!; [done..|]. apply not_elem_of_nil.
  - intros (A&B&->&?&?)%IH. exists (y :: A), B. split_and!; [done..|]. cbn.
    apply not_elem_of_cons. split; [congruence|done].
Qed.

Lemma lookup_middle v A x B :
  value_ok v -> values_ok (A ++ x :: B) -> mm_value x = v -> v ∉ (mm_value <$> A) ->
  mmrp_lookup v (A ++ x :: B) = Some x /\ (forall f, mm_at v f (A ++ x :: B) = A ++ f x :: B) /\
  mm_unlink v (A ++ x :: B) = A ++ B.
Proof.
  intros Hv Hok Hx. induction A as [|y A IH]; cbn in *.
  - apply Forall_cons in Hok as [Hokx _]. rewrite (same_value_eq _ _ Hokx Hv).
    by rewrite bool_decide_true.
  - apply Forall_cons in Hok as [Hoky Hok]. rewrite not_elem_of_cons. intros [Hne Hn].
    rewrite (same_value_eq _ _ Hoky Hv), bool_decide_false by congruence.
    destruct (IH Hok Hn) as (->&Hat&->). split_and!; [done| |done]. intros f. by rewrite Hat.
Qed.

(** ** The table *)

Definition mm_core (x : mmrp_attribute) : entry := (app_state (mm_applicant x), reg_state (mm_registrar x)).

Definition mm_table (l : list mmrp_attribute) : gmap mmrp_value entry :=
  list_to_map ((fun x => (mm_value x, mm_core x)) <$> l).

Lemma table_cons x l : mm_table (x :: l) = <[mm_value x := mm_core x]> (mm_table l).
Proof. done. Qed.

Lemma table_not_in l v : v ∉ (mm_value <$> l) -> mm_table l !! v = None.
Proof.
  intros Hn. apply not_elem_of_list_to_map_1. rewrite <- list_fmap_compose. exact Hn.
Qed.

Lemma mm_table_middle A x B :
  mm_value x ∉ (mm_value <$> A) -> mm_table (A ++ x :: B) = <[mm_value x := mm_core x]> (mm_table (A ++ B)).
Proof.
  induction A as [|y A IH]; [done|]. cbn [app]. rewrite fmap_cons, not_elem_of_cons. intros [Hne Hn].
  rewrite !table_cons, IH by done. by apply insert_insert_ne.
Qed.

Lemma mm_table_fmap (f : mmrp_attribute -> mmrp_attribute) (g : mmrp_value -> entry -> entry) l :
  (forall x, mm_value (f x) = mm_value x) -> (forall x, mm_core (f x) = g (mm_value x) (mm_core x)) ->
  mm_table (f <$> l) = map_imap (fun k p => Some (g k p)) (mm_table l).
Proof.
  intros Hv Hc. induction l as [|x l IH]; [symmetry; apply map_imap_empty|].
  rewrite fmap_cons, !table_cons, Hv, Hc, IH. symmetry. by apply map_imap_insert_Some.
Qed.
