(* ===== verification/MmrpEmit.v ===== *)
(** * MMRP: assembly of frames

    The two emitters stay inside their buffer, clear marks only, and use at most nine
    bytes for each attribute; the exception is the empty LeaveAll of
    [mmrp_emit_svcvectors], which needs one byte more than the function checks for. *)

From S2P Require Import Prelude.
From S2P Require Import Mrp.
From S2P Require Import MrpTheory.
From S2P Require Import Mvrp.
From S2P Require Import Mmrp.

Open Scope Z_scope.
Local Abbreviation length := List.length.

Lemma length_write_bytes buf off src buf' : write_bytes buf off src = Ok buf' -> length buf' = length buf.
Proof.
  unfold write_bytes. case_decide; [|done]. intros [= <-].
  rewrite !length_app, length_take, length_drop. lia.
Qed.

(** A write inside the buffer. *)
Lemma write_inside buf off src :
  (off + length src <= length buf)%nat ->
  exists buf', write_bytes buf off src = Ok buf' /\ length buf' = length buf.
Proof.
  intros H. exists (take off buf ++ src ++ drop (off + length src) buf).
  rewrite write_bytes_Ok by done. split; [done|]. eapply length_write_bytes. by apply write_bytes_Ok.
Qed.

(** ** Marks *)

(** Some marks are cleared, nothing else is changed. *)
Definition mm_cleared (l l' : list mmrp_attribute) : Prop :=
  Forall2 (fun x x' => x' = x \/ x' = mm_clear_tx x) l l'.

Lemma mm_cleared_refl l : mm_cleared l l.
Proof. induction l; constructor; auto. Qed.

Lemma mm_cleared_trans l1 l2 l3 : mm_cleared l1 l2 -> mm_cleared l2 l3 -> mm_cleared l1 l3.
Proof.
  intros H. revert l3. induction H as [|x y l l' Hx _ IH]; intros l3 H3; inversion H3 as [|? z ? ? Hz Hr]; subst;
    constructor; [|by apply IH].
  destruct Hx as [->| ->]; [done|]. right. by destruct Hz as [->| ->].
Qed.

#[export] Hint Resolve mm_cleared_refl : core.

(** The attributes that are marked for transmission. *)
Definition mm_pending (l : list mmrp_attribute) : nat :=
  length (filter (fun x => app_tx (mm_applicant x) = true) l).

Lemma mm_pending_cons x l :
  mm_pending (x :: l) = ((if app_tx (mm_applicant x) then 1 else 0) + mm_pending l)%nat.
Proof. unfold mm_pending. rewrite filter_cons. by destruct (app_tx (mm_applicant x)). Qed.

Lemma mm_pending_le l : (mm_pending l <= length l)%nat.
Proof. apply length_filter. Qed.

Lemma mm_pending_clear x l : mm_pending (mm_clear_tx x :: l) = mm_pending l.
Proof. by rewrite mm_pending_cons. Qed.

Lemma mm_cleared_pending l l' : mm_cleared l l' -> (mm_pending l' <= mm_pending l)%nat.
Proof.
  induction 1 as [|x x' l l' Hx _ IH]; [done|]. rewrite (mm_pending_cons x).
  destruct Hx as [->| ->]; [rewrite mm_pending_cons|rewrite mm_pending_clear]; lia.
Qed.

(** ** The loops *)

Section Emit.
Context (K : mm_kind) (eof : nat).
Context (Hidx : (k_vectidx K <= 6)%nat) (Hsize : (k_vectidx K + 4 <= k_vector_size K)%nat).
Context (Hmargin : (2 <= k_margin K)%nat).

Definition in_buffer (vptr : nat) (v : vector) : Prop :=
  length (v_buf v) = eof /\ (vptr + 2 + v_vectidx v < eof)%nat.

Lemma pack_event_safe vptr v :
  in_buffer vptr v -> (v_idx v <= 3)%nat ->
  exists v', (if (2 <? v_idx v)%nat then put_pack vptr v else mret v) = Ok v' /\
    length (v_buf v') = eof /\ (v_vectidx v <= v_vectidx v' <= S (v_vectidx v))%nat /\
    (v_idx v' <= 2)%nat.
Proof using All.
  intros [Hb Hv] Hi. destruct (Nat.ltb_spec 2 (v_idx v)) as [H2|H2].
  - unfold put_pack, put_byte. destruct (write_inside (v_buf v) (vptr + 2 + v_vectidx v) [encode3 (v_evt v)])
      as (buf&->&Hl); [cbn; lia|]. cbn_outcome. eexists. split; [done|]. cbn. lia.
  - exists v. split_and!; [done..|lia|lia|lia].
Qed.

Lemma mm_pack_loop_safe vptr first rest : forall value v,
  in_buffer vptr v -> (v_idx v <= 2)%nat ->
  exists ok rest' v', mm_pack_loop K eof vptr first value rest v = Ok (ok, rest', v') /\
    mm_cleared rest rest' /\
    (ok = true -> in_buffer vptr v' /\
       (v_vectidx v' + mm_pending rest' <= v_vectidx v + mm_pending rest)%nat).
Proof using All.
  induction rest as [|x rest IH]; intros value v Hv Hi; cbn [mm_pack_loop]; [by eexists _, _, _|].
  destruct (negb (k_is K (mm_value x))); [eexists _, _, _; split_and!; [done|done|]; intros _; split; [done|lia]|].
  destruct (app_tx (mm_applicant x)) eqn:Htx; cbn [negb];
    [|eexists _, _, _; split_and!; [done|done|]; intros _; split; [done|lia]].
  destruct (negb (same_value _ _)); [eexists _, _, _; split_and!; [done|done|]; intros _; split; [done|lia]|].
  assert (Hcl : mm_cleared (x :: rest) (mm_clear_tx x :: rest)) by (constructor; [by right|apply mm_cleared_refl]).
  destruct (mm_pdu_event _ x) as [e|]; [|by eexists false, _, _].
  set (v1 := mkVector _ _ (S (v_idx v)) _ _).
  destruct (pack_event_safe vptr v1) as (v2&->&Hb2&Hx2&Hi2); [done|cbn; lia|]. cbn_outcome.
  destruct (mm_past (k_margin K) eof vptr v2) eqn:Hpast; [by eexists false, _, _|].
  unfold mm_past in Hpast. apply Nat.ltb_ge in Hpast.
  destruct (IH (next_value value) v2) as (ok&rest'&v'&->&Hc&Hok); [split; [done|lia]|done|]. cbn_outcome.
  eexists ok, _, v'. split_and!; [done|by constructor; [right|]|]. intros Ht. destruct (Hok Ht) as [Hin Hp].
  split; [done|]. rewrite mm_pending_clear, mm_pending_cons, Htx. cbn in Hx2. lia.
Qed.

Lemma mm_trailer_safe vptr v :
  in_buffer vptr v ->
  exists v', mm_trailer vptr v = Ok v' /\ length (v_buf v') = eof /\ (v_vectidx v' <= S (v_vectidx v))%nat.
Proof using All.
  intros [Hb Hv]. unfold mm_trailer, put_byte. destruct (0 <? v_idx v)%nat; [|exists v; split_and!; [done..|lia]].
  destruct (write_inside (v_buf v) (vptr + 2 + v_vectidx v) [encode3 (v_evt v)]) as (buf&->&Hl); [cbn; lia|].
  cbn_outcome. eexists. split; [done|]. cbn. lia.
Qed.

(** Between vectors: the message pointer is at the vector or two bytes before it. *)
Definition emit_ok (s : mm_emit) : Prop :=
  length (me_buf s) = eof /\ (me_ptr s <= me_vptr s <= me_ptr s + 2)%nat /\ (me_ptr s + 2 <= eof)%nat.

Lemma mm_emit_vector_safe x rest s :
  emit_ok s -> (me_ptr s + k_vector_size K + 2 < eof)%nat -> (length (value_bytes (mm_value x)) <= 6)%nat ->
  (length (value_bytes (mm_value x)) <= k_vectidx K)%nat ->
  exists r rest', mm_emit_vector K eof x rest s = Ok (r, rest') /\ mm_cleared rest rest' /\
    (forall s', r = Some s' -> emit_ok s' /\ me_ptr s' = me_vptr s' /\ (me_vptr s < me_vptr s')%nat /\
       me_found s' = true /\
       (me_vptr s' + 9 * mm_pending rest' <= me_vptr s + 9 + 9 * mm_pending rest)%nat).
Proof using All.
  intros (Hb&Hp&He) Hroom Hvl Hvi. unfold mm_emit_vector.
  destruct (write_inside (me_buf s) (me_vptr s + 2) (value_bytes (mm_value x))) as (buf&->&Hl); [lia|].
  cbn_outcome. destruct (mm_pdu_event _ x) as [e|]; [|eexists None, rest; split_and!; [done..|by intros ?]].
  set (evt := if k_clears K then _ else _).
  destruct (mm_pack_loop_safe (me_vptr s) x rest (mm_value x) (mkVector buf evt 1 1 (k_vectidx K)))
    as (ok&rest'&v&->&Hc&Hok); [split; cbn; lia|cbn; lia|]. cbn_outcome.
  destruct ok; cbn [negb]; [|eexists None, rest'; split_and!; [done..|by intros ?]].
  destruct (Hok eq_refl) as [Hin Hpend]. cbn in Hpend.
  destruct (mm_trailer_safe (me_vptr s) v Hin) as (v2&->&Hb2&Hx2). cbn_outcome.
  destruct (mm_past 2 eof (me_vptr s) v2) eqn:Hpast; [eexists None, rest'; split_and!; [done..|by intros ?]|].
  unfold mm_past in Hpast. apply Nat.ltb_ge in Hpast. cbv zeta.
  set (h := if me_lva s then _ else _).
  destruct (write_inside (v_buf v2) (me_vptr s) (be_bytes 2 h)) as (buf2&->&Hl2); [rewrite length_be_bytes; lia|].
  cbn_outcome. eexists _, rest'. split_and!; [done..|]. intros s' [= <-]. unfold emit_ok. cbn.
  destruct Hin as [_ Hin]. pose proof (mm_cleared_pending _ _ Hc). split_and!; try done; lia.
Qed.

Lemma mm_emit_loop_safe fuel : forall l s,
  emit_ok s -> (length l < fuel)%nat ->
  Forall (fun x => k_is K (mm_value x) = true -> (length (value_bytes (mm_value x)) <= Nat.min 6 (k_vectidx K))%nat) l ->
  exists r l', mm_emit_loop K fuel eof l s = Ok (r, l') /\ mm_cleared l l' /\
    (forall s', r = Some s' -> emit_ok s' /\ (me_vptr s' = me_vptr s /\ me_ptr s' = me_ptr s \/
       (me_vptr s < me_vptr s')%nat /\ me_ptr s' = me_vptr s' /\ me_found s' = true) /\
       (me_vptr s' <= me_vptr s + 9 * mm_pending l)%nat /\ (me_found s = true -> me_found s' = true)).
Proof using All.
  induction fuel as [|fuel IH]; intros l s Hs Hf Hl; [lia|]. cbn [mm_emit_loop].
  destruct l as [|x rest]; [eexists _, []; split_and!; [done..|]; intros s' [= <-]; split_and!; [done|by left|lia|done]|].
  destruct (Nat.ltb_spec (me_ptr s + k_vector_size K + 2) eof) as [Hroom|_];
    [|eexists _, _; split_and!; [done..|]; intros s' [= <-]; split_and!; [done|by left|lia|done]].
  apply Forall_cons in Hl as [Hx Hl]. cbn [length] in Hf.
  assert (Hskip : forall x', (x' = x \/ x' = mm_clear_tx x) ->
    exists r l', ('(r, l') ← mm_emit_loop K fuel eof rest s; mret (r, x' :: l')) = Ok (r, l') /\
      mm_cleared (x :: rest) l' /\
      (forall s', r = Some s' -> emit_ok s' /\ (me_vptr s' = me_vptr s /\ me_ptr s' = me_ptr s \/
         (me_vptr s < me_vptr s')%nat /\ me_ptr s' = me_vptr s' /\ me_found s' = true) /\
         (me_vptr s' <= me_vptr s + 9 * mm_pending (x :: rest))%nat /\
         (me_found s = true -> me_found s' = true))).
  { intros x' Hx'. destruct (IH rest s Hs ltac:(lia) Hl) as (r&l'&->&Hc&Hr). cbn_outcome.
    eexists r, _. split_and!; [done|by constructor|]. intros s' Hs'. destruct (Hr s' Hs') as (?&?&?&?).
    split_and!; try done. rewrite mm_pending_cons. lia. }
  destruct (k_is K (mm_value x)) eqn:Hk; cbn [negb orb]; [|apply Hskip; by left].
  destruct (app_tx (mm_applicant x)) eqn:Htx; cbn [negb]; [|apply Hskip; by left].
  case_decide; [apply Hskip; by right|]. specialize (Hx eq_refl).
  destruct (mm_emit_vector_safe x rest s Hs Hroom ltac:(lia) ltac:(lia)) as (r&rest'&->&Hc&Hr). cbn_outcome.
  destruct r as [s'|]; [|eexists None, _; split_and!; [done|by constructor; [right|]|by intros ?]].
  destruct (Hr s' eq_refl) as (Hs'&Hpv&Hlt&Hfd&Hpe).
  assert (Hl' : Forall (fun x => k_is K (mm_value x) = true ->
    (length (value_bytes (mm_value x)) <= Nat.min 6 (k_vectidx K))%nat) rest').
  { clear -Hl Hc. induction Hc as [|a b l l' Hab _ IH]; [done|]. apply Forall_cons in Hl as [Ha Hl].
    constructor; [|auto]. by destruct Hab as [->| ->]. }
  destruct (IH rest' s' Hs') as (r&l'&->&Hc'&Hr'); [rewrite <- (Forall2_length _ _ _ Hc); lia|done|]. cbn_outcome.
  eexists r, _. split_and!; [done|constructor; [by right|by eapply mm_cleared_trans]|].
  intros s'' Hs''. destruct (Hr' s'' Hs'') as (Hok&Hcase&Hle&Hfk). split_and!; [done| | |].
  - right. destruct Hcase as [[-> ->]|(?&?&?)]; split_and!; try done; try lia. by apply Hfk.
  - pose proof (mm_cleared_pending _ _ Hc). rewrite mm_pending_cons, Htx. lia.
  - intros _. by apply Hfk.
Qed.

Lemma mm_emit_vectors_safe vectevt buf msgbuf lva empty l :
  length buf = eof ->
  (k_empty K && empty = true -> 0 <= k_length K /\ (msgbuf + 6 + Z.to_nat (k_length K) <= eof)%nat) ->
  Forall (fun x => k_is K (mm_value x) = true -> (length (value_bytes (mm_value x)) <= Nat.min 6 (k_vectidx K))%nat) l ->
  exists rc n buf' l', mm_emit_vectors K vectevt buf msgbuf eof lva empty l = Ok (rc, n, buf', l') /\
    mm_cleared l l' /\ length buf' = eof /\ (msgbuf + n <= Nat.max msgbuf eof)%nat /\
    (k_empty K && empty = false -> n <= 4 + 9 * mm_pending l)%nat.
Proof using All.
  intros Hb Hempty Hl. unfold mm_emit_vectors. destruct (Nat.ltb_spec eof (msgbuf + k_vector_size K)) as [|Hroom].
  { eexists _, _, _, _. split_and!; [done..|lia|lia]. }
  destruct (write_inside buf msgbuf [k_type K; k_length K]) as (buf1&->&Hl1); [cbn; lia|]. cbn_outcome.
  destruct (mm_emit_loop_safe (S (length l)) l (mkMmEmit buf1 (msgbuf + 2) msgbuf lva false vectevt))
    as (r&l'&->&Hc&Hr); [split_and!; cbn; lia|lia|done|]. cbn_outcome.
  destruct r as [s|]; [|eexists _, _, _, _; split_and!; [done..|lia|lia|lia]].
  destruct (Hr s eq_refl) as ((Hsb&Hsp&Hse)&Hcase&Hle&_). cbn in Hcase, Hle.
  assert (Hend : forall s', length (me_buf s') = eof -> me_vptr s' <> (msgbuf + 2)%nat ->
    (me_ptr s' + 2 <= eof)%nat -> (msgbuf <= me_ptr s')%nat ->
    (k_empty K && empty = false -> me_ptr s' <= msgbuf + 2 + 9 * mm_pending l)%nat ->
    exists rc n buf' l'',
      (if (me_vptr s' =? msgbuf + 2)%nat then mret (0, 0%nat, me_buf s', l')
       else buf ← write_bytes (me_buf s') (me_ptr s') [0; 0]; mret (0, (me_ptr s' + 2 - msgbuf)%nat, buf, l'))
      = Ok (rc, n, buf', l'') /\ mm_cleared l l'' /\ length buf' = eof /\ (msgbuf + n <= Nat.max msgbuf eof)%nat /\
      (k_empty K && empty = false -> n <= 4 + 9 * mm_pending l)%nat).
  { intros s' Hb' Hne Hp' Hm' Hsz. rewrite (proj2 (Nat.eqb_neq _ _) Hne).
    destruct (write_inside (me_buf s') (me_ptr s') [0; 0]) as (buf2&->&Hl2); [cbn; lia|]. cbn_outcome.
    eexists _, _, _, _. split_and!; [done..|lia|lia|]. intros Hn. specialize (Hsz Hn). lia. }
  destruct (k_empty K && negb (me_found s) && empty) eqn:He.
  - assert (Hke : k_empty K && empty = true) by (by destruct (k_empty K), empty, (me_found s)).
    destruct (Hempty Hke) as [Hk0 Hk1].
    assert (Hnf : me_found s = false) by (by destruct (k_empty K), (me_found s)).
    destruct (write_inside (me_buf s) (me_vptr s)
      (be_bytes 2 (Z.lor (MRPDU_VECT_NUMVALUES 0) MRPDU_VECT_LVA_FLAG))) as (buf2&->&Hl2);
      [rewrite length_be_bytes; lia|]. cbn_outcome.
    apply Hend; cbn [me_buf me_vptr me_ptr]; [lia|..|by rewrite Hke].
    all: destruct Hcase as [[Hv Hp]|(_&_&Hf)]; [|congruence]; lia.
  - cbn_outcome. destruct Hcase as [[Hv Hp]|(Hv&Hp&_)].
    + rewrite Hv, Nat.eqb_refl. eexists _, _, _, _. split_and!; [done..|lia|lia].
    + apply Hend; [done|lia|done|lia|]. intros _. lia.
Qed.

End Emit.
