(* ===== verification/MmrpEvent.v ===== *)
(** * MMRP: events

    [mm_spec_event] says what an event does to the table of attributes; [mmrp_event] is
    shown to implement it and to keep the invariant of the database.  The two machines
    of an attribute are those of an MVRP attribute, so their lemmas are shared. *)

From S2P Require Import Prelude.
From S2P Require Import CText.
From S2P Require Import Mrp.
From S2P Require Import MrpText.
From S2P Require Import MrpTheory.
From S2P Require Import Mvrp.
From S2P Require Import MvrpTheory.
From S2P Require Import MvrpEmit.
From S2P Require Import MvrpEvent.
From S2P Require Import Mmrp.
From S2P Require Import MmrpTheory.
From S2P Require Import MmrpEmit.

Open Scope Z_scope.
Local Abbreviation length := List.length.

(** ** The abstract machine

    Unlike in MVRP an attribute stays in the table until it is reclaimed, and a
    LeaveAll concerns the attributes of one type. *)

Definition mm_entry (p2pmac : Z) (e : mrp_event) (o : option entry) : option entry :=
  match o, e with
  | None, EVENT_RMT => None
  | _, _ =>
      let p := default (VO, MT) o in Some (app_next p2pmac e p, reg_next (as_registrar e) p.2)
  end.

Definition mm_spec_event (p2pmac : Z) (e : mrp_event) (value : option mmrp_value)
    (t : gmap mmrp_value entry) : gmap mmrp_value entry :=
  let all f := map_imap (fun _ p => Some (f p)) t in
  match e with
  | EVENT_LVATIMER => all (fun p => (app_next p2pmac EVENT_TXLA p, reg_next EVENT_TXLA p.2))
  | EVENT_RLA =>
      match value with
      | Some v => map_imap (fun k p => Some (if same_type k v
                              then (app_next p2pmac EVENT_RLA p, reg_next EVENT_RLA p.2) else p)) t
      | None => t
      end
  | EVENT_TX => all (fun p => (app_next p2pmac EVENT_TX p, p.2))
  | EVENT_PERIODIC => all (fun p => (app_next p2pmac EVENT_PERIODIC p, p.2))
  | EVENT_LVTIMER => all (fun p => (p.1, reg_next EVENT_LVTIMER p.2))
  | EVENT_NEW | EVENT_JOIN | EVENT_RNEW | EVENT_RJOININ | EVENT_RJOINMT | EVENT_LV
  | EVENT_RIN | EVENT_RMT | EVENT_RLV =>
      match value with
      | Some v => partial_alter (mm_entry p2pmac e) v t
      | None => t
      end
  | _ => t
  end.

(** ** The machines of an attribute *)

Definition machines (x : mmrp_attribute) : mvrp_attribute := mkAttrib 0 (mm_applicant x) (mm_registrar x).
Definition with_machines (y : mvrp_attribute) (x : mmrp_attribute) : mmrp_attribute :=
  mkMm (mm_value x) (applicant y) (registrar y).

Definition mm_attr_ok (x : mmrp_attribute) : Prop := value_ok (mm_value x) /\ attr_ok (machines x).

Definition mm_silent (x : mmrp_attribute) : Prop := reg_notify (mm_registrar x) = NOTIFY_NONE.

(** ** The invariant *)

(** A leaving attribute is guarded by the leave timer. *)
Definition mm_guarded (db : mrp_database) (x : mmrp_attribute) : Prop := guarded db (machines x).

(** Holds within an event, when notifications may be pending. *)
Record mm_Inv0 (m : mmrp_database) : Prop := {
  mm_inv_arranged : arranged (mm_list m);
  mm_inv_attrs : Forall mm_attr_ok (mm_list m);
  mm_inv_armed : armed (mm_mrp_db m);
  mm_inv_leaving : Forall (mm_guarded (mm_mrp_db m)) (mm_list m)
}.

(** Holds between events. *)
Record mm_Inv (m : mmrp_database) : Prop := {
  mm_inv_inv0 : mm_Inv0 m;
  mm_inv_silent : Forall mm_silent (mm_list m);
  mm_inv_flag : mm_send_empty m = false
}.

(** Whoever has something to send waits for a running join timer. *)
Definition mm_restless (m : mmrp_database) : Prop :=
  Forall (fun x => anxious (app_state (mm_applicant x)) = true -> join_timer_running (mm_mrp_db m) = true)
    (mm_list m).

(** Databases that differ in the operating system's answers used so far. *)
Definition mm_later (m m' : mmrp_database) : Prop :=
  exists n, m' = mm_set_mrp (set_asked n (mm_mrp_db m)) m.

Lemma mm_later_refl m : mm_later m m.
Proof. exists (asked (mm_mrp_db m)). by destruct m as [[] ? ?]. Qed.

Lemma mm_later_trans m m' m'' : mm_later m m' -> mm_later m' m'' -> mm_later m m''.
Proof. intros [n ->] [k ->]. by exists k. Qed.

Lemma mm_Inv0_later m m' : mm_later m m' -> mm_Inv0 m -> mm_Inv0 m'.
Proof. intros [n ->] []. constructor; try done. by apply armed_asked. Qed.

#[export] Hint Resolve mm_later_refl : core.

Lemma mm_attrs_values l : Forall mm_attr_ok l -> values_ok l.
Proof. intros H. eapply Forall_impl; [exact H|]. by intros x [? _]. Qed.

(** A change of an attribute that keeps its value. *)
Lemma fmap_values f (l : list mmrp_attribute) :
  (forall x, mm_value (f x) = mm_value x) -> mm_value <$> (f <$> l) = mm_value <$> l.
Proof. intros Hf. rewrite <- list_fmap_compose. apply list_fmap_ext. intros ? x ?. apply Hf. Qed.

Lemma mm_Inv0_fmap f m db :
  (forall x, mm_value (f x) = mm_value x) -> (forall x, mm_attr_ok x -> mm_attr_ok (f x)) ->
  mm_Inv0 m -> armed db -> Forall (mm_guarded db) (f <$> mm_list m) ->
  mm_Inv0 (mm_set_list (f <$> mm_list m) (mm_set_mrp db m)).
Proof.
  intros Hf Hok [Hs Ha _ _] Hdb Hg. constructor; try done.
  - eapply arranged_values; [|exact Hs]. symmetry. by apply fmap_values.
  - apply Forall_fmap. eapply Forall_impl; [exact Ha|]. intros x Hx. by apply Hok.
Qed.

Lemma mm_guarded_mono db db' l :
  (lv_timer_running db = true -> lv_timer_running db' = true) ->
  Forall (mm_guarded db) l -> Forall (mm_guarded db') l.
Proof. intros Hm HF. eapply Forall_impl; [exact HF|]. intros x Hx Hl. apply Hm, Hx, Hl. Qed.

(** Clearing marks changes neither values nor states. *)
Lemma mm_cleared_inv l l' :
  mm_cleared l l' -> mm_value <$> l' = mm_value <$> l /\ mm_table l' = mm_table l /\
  (Forall mm_attr_ok l -> Forall mm_attr_ok l') /\ (Forall mm_silent l -> Forall mm_silent l') /\
  (forall P : entry -> Prop, Forall (fun x => P (mm_core x)) l -> Forall (fun x => P (mm_core x)) l').
Proof.
  induction 1 as [|x x' l l' Hx Hl IH]; [done|]. destruct IH as (IH1&IH2&IH3&IH4&IH5).
  assert (mm_value x' = mm_value x /\ mm_core x' = mm_core x /\ (mm_attr_ok x -> mm_attr_ok x') /\
    (mm_silent x -> mm_silent x')) as (Hv&Hcx&?&?).
  { destruct Hx as [->| ->]; [done|]. split_and!; try done. intros (?&?&?&?&?). by split_and!. }
  rewrite !table_cons, !fmap_cons, Hv, Hcx, IH1, IH2. split_and!; try done.
  - intros [? ?]%Forall_cons. constructor; auto.
  - intros [? ?]%Forall_cons. constructor; auto.
  - intros P [? ?]%Forall_cons. constructor; [by rewrite Hcx|auto].
Qed.

(** ** Primitive steps *)

Abbreviation mm_at_db m fr ms := (mkMmrp (MmDb m) fr ms).

Lemma mm_the_db_wp m fr ms Q : Q m (mm_at_db m fr ms) -> safe mm_the_db Q (mm_at_db m fr ms).
Proof. done. Qed.

Lemma mm_upd_db_wp f m fr ms Q : Q tt (mm_at_db (f m) fr ms) -> safe (mm_upd_db f) Q (mm_at_db m fr ms).
Proof. done. Qed.

Lemma mm_upd_mrp_wp f m fr ms Q :
  Q tt (mm_at_db (mm_set_mrp (f (mm_mrp_db m)) m) fr ms) -> safe (mm_upd_mrp f) Q (mm_at_db m fr ms).
Proof. done. Qed.

Lemma mm_each_send_wp text cs m fr ms Q :
  Q tt (mm_at_db m fr (ms ++ ((fun c => (c, text)) <$> cs))) ->
  safe (mm_each (fun c => mm_send_ctl_msg c text) cs) Q (mm_at_db m fr ms).
Proof.
  revert ms. induction cs as [|c cs IH]; intros ms HQ; cbn [mm_each].
  - apply wp_ret. by rewrite app_nil_r in HQ.
  - apply wp_bind. change (safe (mm_each (fun c => mm_send_ctl_msg c text) cs) Q (mm_at_db m fr (ms ++ [(c, text)]))).
    apply IH. by rewrite <- (assoc_L (++)).
Qed.

Section Events.
Context (E : Os) (p2pmac : Z) (STATION_ADDR : list Z) (uninit : nat -> list Z).
Context (HT : timers_ok E) (HR : random_ok E) (Hst : length STATION_ADDR = 6%nat).

Lemma mm_malloc_wp m fr ms Q :
  (forall b m', mm_later m m' -> (malloc_ok E -> b = true) -> Q b (mm_at_db m' fr ms)) ->
  safe (mm_malloc E) Q (mm_at_db m fr ms).
Proof using. intros HQ. apply HQ; [by exists (S (asked (mm_mrp_db m)))|]. by intros HM. Qed.

Lemma mm_send_notifications_wp x n m fr ms Q :
  (forall z m' ms', mm_later m m' -> Q z (mm_at_db m' fr ms')) ->
  safe (mmrp_send_notifications E x n) Q (mm_at_db m fr ms).
Proof using.
  intros HQ. apply wp_bind, mm_malloc_wp. intros b m1 H1 _. destruct b; cbn [negb]; [|by apply HQ].
  apply wp_bind, mm_malloc_wp. intros b m2 H2 _. apply wp_bind, mm_malloc_wp. intros b' m3 H3 _.
  pose proof (mm_later_trans _ _ _ H1 (mm_later_trans _ _ _ H2 H3)) as Hl.
  destruct (negb b || negb b'); [by apply HQ|].
  destruct (mm_notify_text x n) as [text|]; [|by apply HQ].
  apply wp_bind, mm_the_db_wp, wp_bind, mm_each_send_wp, wp_ret. by apply HQ.
Qed.

(** The final loop clears every pending notification. *)
Lemma mm_notify_loop_wp l m fr ms Q :
  (forall m' ms', mm_later m m' -> Q (mm_set_notify NOTIFY_NONE <$> l) (mm_at_db m' fr ms')) ->
  safe (mm_notify_loop E l) Q (mm_at_db m fr ms).
Proof using.
  revert m ms Q. induction l as [|x l IH]; intros m ms Q HQ; cbn [mm_notify_loop]; [by apply HQ|].
  apply wp_bind.
  assert (Hrest : forall m1 ms1, mm_later m m1 ->
    safe (l'' ← mm_notify_loop E l; mret (mm_set_notify NOTIFY_NONE x :: l'')) Q (mm_at_db m1 fr ms1)).
  { intros m1 ms1 H1. apply wp_bind, IH. intros m' ms' H2. apply wp_ret, HQ. by eapply mm_later_trans. }
  case_decide as Hn.
  - assert (Hid : mm_set_notify NOTIFY_NONE x = x)
      by (destruct x as [? ? [? n ? ?]]; cbn in Hn; by subst n).
    rewrite Hid in Hrest. apply wp_ret. by apply Hrest.
  - apply wp_bind, mm_send_notifications_wp. intros z m1 ms1 H1. apply wp_ret. by apply Hrest.
Qed.
(** ** State machines over the list *)

(** What a pass over the attributes may do to the timers. *)
Record quiet_db (db db' : mrp_database) : Prop := {
  qd_armed : armed db';
  qd_config : same_config db db';
  qd_join : join_timer_running db' = join_timer_running db;
  qd_lva : lva db' = lva db;
  qd_mono : lv_timer_running db = true -> lv_timer_running db' = true
}.

Lemma quiet_refl db : armed db -> quiet_db db db.
Proof using. by constructor. Qed.

Lemma quiet_trans db1 db2 db3 : quiet_db db1 db2 -> quiet_db db2 db3 -> quiet_db db1 db3.
Proof using. intros [] []. constructor; try done; [by etrans|congruence|congruence|auto]. Qed.

Definition steps (f : mmrp_attribute -> mrp_database -> mmrp_attribute * mrp_database)
    (g : mmrp_attribute -> mmrp_attribute) : Prop :=
  forall x db, armed db -> mm_guarded db x ->
    exists db', f x db = (g x, db') /\ quiet_db db db' /\ mm_guarded db' (g x).

Lemma mm_for_spec f g l : steps f g -> forall db,
  armed db -> Forall (mm_guarded db) l ->
  exists db', mm_for f l db = (g <$> l, db') /\ quiet_db db db' /\ Forall (mm_guarded db') (g <$> l).
Proof using.
  intros Hf. induction l as [|x l IH]; intros db Hdb Hg; cbn [mm_for].
  { exists db. split_and!; [done|by apply quiet_refl|constructor]. }
  apply Forall_cons in Hg as [Hx Hg]. destruct (Hf x db Hdb Hx) as (db1&->&Hq1&Hx1).
  destruct (IH db1 (qd_armed _ _ Hq1) (mm_guarded_mono _ _ _ (qd_mono _ _ Hq1) Hg)) as (db2&->&Hq2&Hg2).
  exists db2. split_and!; [done|by eapply quiet_trans|]. cbn. constructor; [|done].
  intros Hl. by apply (qd_mono _ _ Hq2), Hx1.
Qed.

Lemma mm_for_pure f l db : mm_for (fun x db => (f x, db)) l db = (f <$> l, db).
Proof using. induction l as [|x l IH]; cbn; [done|]. by rewrite IH. Qed.

Definition mm_reg_attr (e : mrp_event) (x : mmrp_attribute) : mmrp_attribute :=
  with_machines (reg_attr E e (machines x)) x.
Definition mm_both_attr (e : mrp_event) (x : mmrp_attribute) : mmrp_attribute :=
  mm_reg_attr e (mm_app_event p2pmac e x).

Lemma mm_reg_event_machines e x db :
  mm_reg_event E e x db =
  (with_machines (registrar_event E e (machines x) db).1 x, (registrar_event E e (machines x) db).2).
Proof using. unfold mm_reg_event, registrar_event. cbn. by destruct (mrp_registrar_fsm _ _ _ _) as [[] ?]. Qed.

Lemma mm_reg_steps e : steps (mm_reg_event E e) (mm_reg_attr e).
Proof using HT.
  intros x db Hdb Hg. rewrite mm_reg_event_machines, registrar_event_fst.
  destruct (registrar_event_spec E HT e (machines x) db Hdb Hg) as (?&?&?&?&?&?).
  eexists. split_and!; [done|by constructor|done].
Qed.

Lemma mm_both_steps e : steps (mm_both_event E p2pmac e) (mm_both_attr e).
Proof using HT. intros x db Hdb Hg. by apply mm_reg_steps. Qed.

Lemma mm_typed_steps e v :
  steps (fun x db => if same_type (mm_value x) v then mm_both_event E p2pmac e x db else (x, db))
    (fun x => if same_type (mm_value x) v then mm_both_attr e x else x).
Proof using HT.
  intros x db Hdb Hg. destruct (same_type (mm_value x) v); [by apply mm_both_steps|].
  exists db. split_and!; [done|by apply quiet_refl|done].
Qed.

Lemma mm_both_core e x :
  mm_core (mm_both_attr e x) = (app_next p2pmac e (mm_core x), reg_next e (mm_core x).2).
Proof using. exact (both_attr_core E p2pmac e (machines x)). Qed.

Lemma mm_app_core e x :
  mm_core (mm_app_event p2pmac e x) = (app_next p2pmac e (mm_core x), (mm_core x).2).
Proof using. exact (applicant_event_core p2pmac e (machines x)). Qed.

Lemma mm_reg_core e x : mm_core (mm_reg_attr e x) = ((mm_core x).1, reg_next e (mm_core x).2).
Proof using. exact (reg_attr_core E e (machines x)). Qed.

Lemma mm_ok_app e x : mm_attr_ok x -> mm_attr_ok (mm_app_event p2pmac e x).
Proof using. intros [Hv Ha]. split; [done|]. exact (attr_ok_app p2pmac e _ Ha). Qed.

Lemma mm_ok_reg e x : mm_attr_ok x -> mm_attr_ok (mm_reg_attr e x).
Proof using. intros [Hv Ha]. split; [done|]. exact (attr_ok_reg E e _ Ha). Qed.

Lemma mm_ok_both e x : mm_attr_ok x -> mm_attr_ok (mm_both_attr e x).
Proof using. intros Hx. by apply mm_ok_reg, mm_ok_app. Qed.

(** ** Transmission *)

(** The database after a transmission: marks cleared, the LeaveAll mark taken. *)
Definition mm_transmitted (m m' : mmrp_database) : Prop :=
  exists l' t n, m' = mm_set_list l' (mm_set_mrp (set_asked n (set_lva t (mm_mrp_db m))) m) /\
    mm_cleared (mm_list m) l'.

Definition mm_eth_header : list Z :=
  MMRP_ADDR ++ STATION_ADDR ++ be_bytes 2 MMRP_ETYPE ++ [MMRP_PROT_VER].

Lemma mm_eth_writes :
  exists buf, (buf ← write_bytes (replicate MAX_FRAME_SIZE 0) 12 (be_bytes 2 MMRP_ETYPE);
   buf ← write_bytes buf 0 MMRP_ADDR;
   buf ← write_bytes buf 6 STATION_ADDR;
   write_bytes buf ETH_HDR [MMRP_PROT_VER]) = Ok buf /\ length buf = MAX_FRAME_SIZE.
Proof using Hst.
  assert (Hl0 : length (replicate MAX_FRAME_SIZE 0) = MAX_FRAME_SIZE) by apply length_replicate.
  assert (HM : MAX_FRAME_SIZE = 2000%nat) by done. set (b0 := replicate MAX_FRAME_SIZE 0) in *. clearbody b0.
  destruct (write_inside b0 12 (be_bytes 2 MMRP_ETYPE)) as (b1&->&H1); [rewrite length_be_bytes; lia|]. cbn_outcome.
  destruct (write_inside b1 0 MMRP_ADDR) as (b2&->&H2); [cbn [length MMRP_ADDR]; lia|]. cbn_outcome.
  destruct (write_inside b2 6 STATION_ADDR) as (b3&->&H3); [lia|]. cbn_outcome.
  destruct (write_inside b3 ETH_HDR [MMRP_PROT_VER]) as (b4&->&H4); [cbn [length]; unfold ETH_HDR; lia|].
  exists b4. split; [done|]. lia.
Qed.

Lemma value_bytes_length v : value_ok v -> length (value_bytes v) = if is_svcreq v then 1%nat else 6%nat.
Proof using. destruct v; cbn; [done|]. by intros [_ ?]. Qed.

Lemma mac_lengths l : values_ok l ->
  Forall (fun x => k_is mac_kind (mm_value x) = true ->
    (length (value_bytes (mm_value x)) <= Nat.min 6 (k_vectidx mac_kind))%nat) l.
Proof using.
  intros H. eapply Forall_impl; [exact H|]. intros x Hx _. cbn [k_vectidx mac_kind].
  rewrite value_bytes_length by done. case_match; cbn; clear; lia.
Qed.

Lemma svc_lengths l : values_ok l ->
  Forall (fun x => k_is svc_kind (mm_value x) = true ->
    (length (value_bytes (mm_value x)) <= Nat.min 6 (k_vectidx svc_kind))%nat) l.
Proof using.
  intros H. eapply Forall_impl; [exact H|]. intros x Hx Hs. cbn [k_vectidx k_is svc_kind] in *.
  rewrite value_bytes_length, Hs by done. cbn; clear; lia.
Qed.

(** So few attributes that the MAC vectors leave room for the empty LeaveAll. *)
Definition mm_fits (m : mmrp_database) : Prop := (length (mm_list m) <= 219)%nat.

Lemma mm_txpdu_wp m fr ms Q :
  values_ok (mm_list m) -> (mm_send_empty m = true -> mm_fits m) ->
  (forall z m' fr', mm_transmitted m m' -> Q z (mm_at_db m' fr' ms)) ->
  safe (mmrp_txpdu E STATION_ADDR uninit) Q (mm_at_db m fr ms).
Proof using Hst.
  intros Hok Hfit HQ. apply wp_bind, mm_malloc_wp. intros b m1 [n1 ->] _. destruct b; cbn [negb].
  2:{ apply wp_ret, HQ. exists (mm_list m), (lva (mm_mrp_db m)), n1. split; [by destruct m as [[] ? ?]|done]. }
  destruct mm_eth_writes as (buf0&Hb0&Hl0). eapply lift_bind4; [exact Hb0|]. clear Hb0.
  apply wp_bind, mm_the_db_wp, wp_bind, mm_upd_mrp_wp. cbn [mm_mrp_db mm_set_mrp mm_list mm_send_empty].
  set (t := mkTimer _ false _). set (vectevt := uninit _). change (S ETH_HDR) with 15%nat.
  assert (HM : MAX_FRAME_SIZE = 2000%nat) by done.
  destruct (mm_emit_vectors_safe mac_kind MAX_FRAME_SIZE ltac:(cbn; clear; lia) ltac:(cbn; clear; lia)
    ltac:(cbn; clear; lia) vectevt buf0 15 (lva_tx (lva (mm_mrp_db m))) (mm_send_empty m) (mm_list m))
    as (rc&n&buf1&l1&Heq&Hc1&Hl1&Hn1&Hs1); [done|done|by apply mac_lengths|].
  apply wp_bind. eapply wp_lift; [exact Heq|]. cbn beta iota. apply wp_bind, mm_upd_db_wp.
  assert (HT1 : forall k l', mm_cleared (mm_list m) l' -> mm_transmitted m
    (mm_set_list l' (mm_set_mrp (set_asked k (set_lva t (mm_mrp_db m))) m))).
  { intros k l' Hc. by exists l', t, k. }
  destruct (rc =? -1); [apply wp_ret, HQ, (HT1 n1), Hc1|].
  destruct (Nat.leb_spec MAX_FRAME_SIZE (15 + n + 2)) as [|Hlt]; [apply wp_ret, HQ, (HT1 n1), Hc1|].
  pose proof (mm_pending_le (mm_list m)) as Hpl. specialize (Hs1 eq_refl).
  assert (Hok1 : values_ok l1).
  { clear -Hok Hc1. unfold values_ok in *. induction Hc1 as [|x y l l' Hx _ IH]; [done|].
    apply Forall_cons in Hok as [? ?]. constructor; [|by apply IH]. by destruct Hx as [->| ->]. }
  destruct (mm_emit_vectors_safe svc_kind MAX_FRAME_SIZE ltac:(cbn; clear; lia) ltac:(cbn; clear; lia)
    ltac:(cbn; clear; lia) vectevt buf1 (15 + n) (lva_tx (lva (mm_mrp_db m))) (mm_send_empty m) l1)
    as (rc2&n2&buf2&l2&Heq2&Hc2&Hl2&Hn2&_); [done| |by apply svc_lengths|].
  { cbn [k_empty k_length svc_kind andb]. intros He. specialize (Hfit He). unfold mm_fits in Hfit.
    clear -Hfit Hs1 Hpl HM. lia. }
  apply wp_bind. eapply wp_lift; [exact Heq2|]. cbn beta iota. apply wp_bind, mm_upd_db_wp.
  pose proof (mm_cleared_trans _ _ _ Hc1 Hc2) as Hc12.
  destruct (rc2 =? -1); [apply wp_ret, HQ, (HT1 n1), Hc12|].
  destruct (15 + n + n2 =? 15)%nat; [apply wp_ret, HQ, (HT1 n1), Hc12|].
  destruct (Nat.ltb_spec (15 + n + n2 + 2) MAX_FRAME_SIZE) as [Hend|]; [|apply wp_ret, HQ, (HT1 n1), Hc12].
  destruct (write_inside buf2 (15 + n + n2) [0; 0]) as (buf3&Hw&_); [cbn [length]; clear -Hl2 Hend; lia|].
  apply wp_bind. eapply wp_lift; [exact Hw|].
  apply wp_bind, mm_the_db_wp, wp_bind, mm_upd_mrp_wp, wp_bind, wp_modify, wp_ret.
  apply HQ, (HT1 (S n1)), Hc12.
Qed.

(** ** The events *)

Record mm_evented (e : mrp_event) (v : option mmrp_value) (m m' : mmrp_database) : Prop := {
  mev_inv : mm_Inv0 m';
  mev_table : mm_table (mm_list m') = mm_spec_event p2pmac e v (mm_table (mm_list m));
  mev_config : same_config (mm_mrp_db m) (mm_mrp_db m');
  mev_restless : e <> EVENT_LVATIMER -> mm_restless m -> mm_restless m';
  mev_flag : mm_send_empty m' = mm_send_empty m
}.

Lemma mm_restless_running m : join_timer_running (mm_mrp_db m) = true -> mm_restless m.
Proof using. intros H. by apply Forall_true. Qed.

(** After a transmission the invariant holds with the marks cleared. *)
Lemma mm_Inv0_transmitted m m' :
  mm_Inv0 m -> mm_transmitted m m' ->
  mm_Inv0 m' /\ mm_table (mm_list m') = mm_table (mm_list m) /\ same_config (mm_mrp_db m) (mm_mrp_db m') /\
  join_timer_running (mm_mrp_db m') = join_timer_running (mm_mrp_db m) /\ mm_send_empty m' = mm_send_empty m /\
  (forall P : entry -> Prop, Forall (fun x => P (mm_core x)) (mm_list m) ->
                             Forall (fun x => P (mm_core x)) (mm_list m')).
Proof using.
  intros [Hs Ha [] Hl] (l'&t&n&->&Hc). destruct (mm_cleared_inv _ _ Hc) as (Hv&Htb&Hok&_&HP).
  split_and!; try done. constructor; try done.
  - by eapply arranged_values; [|exact Hs].
  - by apply Hok.
  - apply (HP (fun p => p.2 = LV -> lv_timer_running (mm_mrp_db m) = true)). done.
Qed.

Lemma mm_event_rla_wp v m fr ms Q :
  mm_Inv0 m ->
  (forall early m', mm_evented EVENT_RLA v m m' -> (early <> None -> mm_list m' = mm_list m) ->
     Q early (mm_at_db m' fr ms)) ->
  safe (mm_event_rla E p2pmac v) Q (mm_at_db m fr ms).
Proof using HT HR.
  intros HI HQ. pose proof HI as [Hs Ha Hdb Hl].
  pose proof (jointimer_start_spec E HT _ Hdb) as Hj. apply wp_bind, mm_upd_mrp_wp.
  destruct (mrp_jointimer_start E (mm_mrp_db m)) as [rc db1]. destruct Hj as (_&Hj&Hdb1&Hc1&Hlv1&_). cbn [snd].
  assert (Hg1 : Forall (mm_guarded db1) (mm_list m)) by (eapply mm_guarded_mono; [|exact Hl]; by rewrite Hlv1).
  destruct v as [v|].
  2:{ apply wp_ret, HQ; [|done]. constructor; [by constructor|done|done| |done].
      intros _ _. by apply mm_restless_running. }
  apply wp_bind, mm_upd_db_wp. cbn [mm_list mm_mrp_db mm_set_mrp].
  destruct (mm_for_spec _ _ (mm_list m) (mm_typed_steps EVENT_RLA v) db1 Hdb1 Hg1) as (db2&->&[Hdb2 Hc2 Hj2 _ _]&Hg2).
  apply wp_bind, mm_upd_mrp_wp, wp_ret. cbn [mm_list mm_mrp_db mm_set_mrp mm_set_list mm_send_empty].
  pose proof (lvatimer_fsm_spec E HT HR db2 EVENT_RLA Hdb2 ltac:(auto)) as H3.
  destruct (mrp_lvatimer_fsm E db2 EVENT_RLA) as [rc3 db3]. destruct H3 as (_&_&Hdb3&Hc3&Hj3&Hlv3&_).
  apply HQ; [|by intros []]. constructor.
  - apply (mm_Inv0_fmap (fun x => if same_type (mm_value x) v then mm_both_attr EVENT_RLA x else x)); try done.
    + intros x. by destruct (same_type _ _).
    + intros x Hx. destruct (same_type _ _); [by apply mm_ok_both|done].
    + eapply mm_guarded_mono; [|exact Hg2]. cbn. by rewrite Hlv3.
  - cbn [mm_list mm_set_list mm_set_mrp mm_spec_event]. apply (mm_table_fmap _
      (fun k p => if same_type k v then (app_next p2pmac EVENT_RLA p, reg_next EVENT_RLA p.2) else p)).
    + intros x. by destruct (same_type _ _).
    + intros x. destruct (same_type (mm_value x) v); [apply mm_both_core|done].
  - etrans; [exact Hc1|]. by etrans.
  - intros _ _. apply mm_restless_running. cbn. congruence.
  - done.
Qed.

Lemma mm_guarded_app e l db : Forall (mm_guarded db) l -> Forall (mm_guarded db) (mm_app_event p2pmac e <$> l).
Proof using. intros H. by apply Forall_fmap. Qed.

Lemma mm_tx_count_zero l :
  mm_tx_count l = 0 -> Forall (fun x => mrp_applicant_state_transition_implies_tx (mm_applicant x) = 0) l.
Proof using.
  assert (Heq : forall l, mm_tx_count l = tx_count (machines <$> l)).
  { clear l. intros l. unfold mm_tx_count, tx_count. by induction l as [|x l IH]; cbn; [|rewrite IH]. }
  rewrite Heq. intros H%tx_count_zero. by apply Forall_fmap in H.
Qed.

Lemma mm_event_tx_wp m fr ms Q :
  mm_Inv0 m -> mm_send_empty m = false ->
  (forall m' fr', mm_evented EVENT_TX None m m' -> Q tt (mm_at_db m' fr' ms)) ->
  safe (mm_event_tx E p2pmac STATION_ADDR uninit) Q (mm_at_db m fr ms).
Proof using HT Hst.
  intros HI Hflag HQ. pose proof HI as [Hs Ha Hdb Hl].
  pose proof (jointimer_stop_spec E HT _ Hdb) as Hj. apply wp_bind, mm_upd_mrp_wp.
  destruct (mrp_jointimer_stop E (mm_mrp_db m)) as [rc db1]. destruct Hj as (Hj&Hdb1&Hc1&Hlv1&Hv1).
  apply wp_bind, mm_upd_db_wp. cbn [mm_list mm_mrp_db mm_set_mrp snd]. rewrite mm_for_pure.
  apply wp_bind, mm_the_db_wp, wp_bind. set (m1 := mm_set_list _ _).
  assert (HI1 : mm_Inv0 m1).
  { apply (mm_Inv0_fmap _ m); try done; [intros x; apply mm_ok_app|]. apply mm_guarded_app.
    eapply mm_guarded_mono; [|exact Hl]. by rewrite Hlv1. }
  assert (Ht1 : mm_table (mm_list m1) = mm_spec_event p2pmac EVENT_TX None (mm_table (mm_list m))).
  { apply (mm_table_fmap _ (fun _ p => (app_next p2pmac EVENT_TX p, p.2))); [done|]. intros x. apply mm_app_core. }
  apply mm_txpdu_wp; [apply mm_attrs_values, HI1|by cbn; rewrite Hflag|].
  intros z m2 fr' Htr. destruct (mm_Inv0_transmitted _ _ HI1 Htr) as (HI2&Ht2&Hc2&Hj2&Hf2&HP).
  destruct (Z.eqb_spec (mm_tx_count (mm_list m1)) 0) as [Hz|Hz].
  - apply wp_ret, HQ. constructor; [done|by rewrite Ht2|by etrans| |done].
    intros _ _. unfold mm_restless.
    eapply (HP (fun p => anxious p.1 = true -> join_timer_running (mm_mrp_db m2) = true)).
    apply Forall_forall. intros x Hx Hax. exfalso.
    pose proof (proj1 (Forall_forall _ _) (mm_tx_count_zero _ Hz) x Hx) as Hx0. cbn beta in Hx0.
    apply list_elem_of_fmap in Hx as (y&->&_). pose proof (tx_anxious p2pmac (machines y) Hax) as Hx1.
    change (mrp_applicant_state_transition_implies_tx (mm_applicant (mm_app_event p2pmac EVENT_TX y)) = 1) in Hx1. lia.
  - apply mm_upd_mrp_wp. pose proof (jointimer_start_spec E HT _ (mm_inv_armed _ HI2)) as H3.
    destruct (mrp_jointimer_start E (mm_mrp_db m2)) as [rc3 db3]. destruct H3 as (_&Hj3&Hdb3&Hc3&Hlv3&_).
    apply HQ. constructor; [|etrans; [exact Ht2|exact Ht1]|by etrans; [|etrans]|intros _ _; by apply mm_restless_running|done].
    destruct HI2. constructor; try done. eapply mm_guarded_mono; [|done]. cbn. by rewrite Hlv3.
Qed.

Lemma mm_event_periodic_wp m fr ms Q :
  mm_Inv0 m -> (forall m', mm_evented EVENT_PERIODIC None m m' -> Q tt (mm_at_db m' fr ms)) ->
  safe (mm_event_periodic E p2pmac) Q (mm_at_db m fr ms).
Proof using HT.
  intros HI HQ. pose proof HI as [Hs Ha Hdb Hl]. apply wp_bind, mm_the_db_wp.
  assert (Hend : forall db, armed db -> same_config (mm_mrp_db m) db ->
    (lv_timer_running db = lv_timer_running (mm_mrp_db m)) ->
    (mm_list m = [] \/ join_timer_running db = true) ->
    safe (mm_run (fun x db => (mm_app_event p2pmac EVENT_PERIODIC x, db))) Q (mm_at_db (mm_set_mrp db m) fr ms)).
  { intros db Hdb1 Hc1 Hlv1 Hj. apply mm_upd_db_wp. cbn [mm_list mm_mrp_db mm_set_mrp]. rewrite mm_for_pure.
    apply HQ. constructor; try done.
    - apply (mm_Inv0_fmap _ m); try done; [intros x; apply mm_ok_app|]. apply mm_guarded_app.
      eapply mm_guarded_mono; [|exact Hl]. by rewrite Hlv1.
    - apply (mm_table_fmap _ (fun _ p => (app_next p2pmac EVENT_PERIODIC p, p.2))); [done|]. intros x. apply mm_app_core.
    - intros _ _. destruct Hj as [Hj|Hj]; [|by apply mm_restless_running].
      unfold mm_restless. cbn. rewrite Hj. constructor. }
  destruct (mm_list m) as [|x l] eqn:Hlist.
  - apply wp_bind, wp_ret. replace m with (mm_set_mrp (mm_mrp_db m) m) by (by destruct m).
    apply Hend; try done. by left.
  - apply wp_bind, mm_upd_mrp_wp. pose proof (jointimer_start_spec E HT _ Hdb) as Hj.
    destruct (mrp_jointimer_start E (mm_mrp_db m)) as [rc db1]. destruct Hj as (_&Hj&Hdb1&Hc1&Hlv1&_).
    apply Hend; auto.
Qed.

Lemma mm_lvtimer_pure x db : mm_reg_event E EVENT_LVTIMER x db = (mm_reg_attr EVENT_LVTIMER x, db).
Proof using. by rewrite mm_reg_event_machines, lvtimer_registrar. Qed.

Lemma mm_for_lvtimer l db : mm_for (mm_reg_event E EVENT_LVTIMER) l db = (mm_reg_attr EVENT_LVTIMER <$> l, db).
Proof using. induction l as [|x l IH]; cbn [mm_for]; [done|]. by rewrite mm_lvtimer_pure, IH. Qed.

Lemma mm_event_lvtimer_wp m fr ms Q :
  mm_Inv0 m -> (forall m', mm_evented EVENT_LVTIMER None m m' -> Q tt (mm_at_db m' fr ms)) ->
  safe (mm_event_lvtimer E) Q (mm_at_db m fr ms).
Proof using HT.
  intros HI HQ. pose proof HI as [Hs Ha Hdb Hl].
  pose proof (lvtimer_stop_spec E HT _ Hdb) as H1. apply wp_bind, mm_upd_mrp_wp.
  destruct (mrp_lvtimer_stop E (mm_mrp_db m)) as [rc db1]. destruct H1 as (Hdb1&Hc1&Hj1&_).
  apply mm_upd_db_wp. cbn [mm_list mm_mrp_db mm_set_mrp snd]. rewrite mm_for_lvtimer.
  apply HQ. constructor; try done.
  - apply (mm_Inv0_fmap _ m); try done; [intros x; apply mm_ok_reg|].
    apply Forall_fmap, Forall_forall. intros x _ HLV. exfalso.
    pose proof (f_equal snd (mm_reg_core EVENT_LVTIMER x)) as Hc. cbn in Hc. cbn in HLV. rewrite HLV in Hc.
    by destruct (reg_state (mm_registrar x)).
  - apply (mm_table_fmap _ (fun _ p => (p.1, reg_next EVENT_LVTIMER p.2))); [done|]. intros x. apply mm_reg_core.
  - intros _ Hrl. unfold mm_restless. apply Forall_fmap. eapply Forall_impl; [exact Hrl|].
    intros x Hx Hax. cbn in *. rewrite Hj1. auto.
Qed.

Lemma mm_event_lvatimer_wp m fr ms Q :
  mm_Inv0 m -> mm_fits m -> mm_send_empty m = false ->
  (forall m' fr', mm_evented EVENT_LVATIMER None m m' -> Q tt (mm_at_db m' fr' ms)) ->
  safe (mm_event_lvatimer E p2pmac STATION_ADDR uninit) Q (mm_at_db m fr ms).
Proof using HT HR Hst.
  intros HI Hfit Hflag HQ. pose proof HI as [Hs Ha Hdb Hl].
  pose proof (lva_timers E HT _ Hdb) as H1. apply wp_bind, mm_upd_mrp_wp, wp_bind, mm_upd_mrp_wp.
  cbn [mm_list mm_mrp_db mm_set_mrp]. set (db1 := (mrp_jointimer_stop _ _).2) in *.
  destruct H1 as (Hdb1&Hc1&Hlv1). clearbody db1.
  apply wp_bind, mm_upd_db_wp. cbn [mm_list mm_mrp_db mm_set_mrp].
  assert (Hg1 : Forall (mm_guarded db1) (mm_list m)) by (eapply mm_guarded_mono; [|exact Hl]; by rewrite Hlv1).
  destruct (mm_for_spec _ _ (mm_list m) (mm_both_steps EVENT_TXLA) db1 Hdb1 Hg1) as (db2&->&[Hdb2 Hc2 _ _ _]&Hg2).
  apply wp_bind, mm_upd_mrp_wp, wp_bind, mm_upd_db_wp, wp_bind, mm_upd_mrp_wp, wp_bind.
  cbn [mm_list mm_mrp_db mm_set_mrp mm_set_list mm_set_empty mm_send_empty].
  pose proof (lvatimer_fsm_spec E HT HR db2 EVENT_LVATIMER Hdb2 ltac:(auto)) as H3.
  destruct (mrp_lvatimer_fsm E db2 EVENT_LVATIMER) as [rc3 db3].
  destruct H3 as (_&_&Hdb3&Hc3&_&Hlv3&Hla). cbn [snd]. unfold mrp_lvatimer_fsm. rewrite Hla. cbn [lva_state snd].
  set (m1 := mm_set_mrp _ _).
  assert (HI1 : mm_Inv0 m1).
  { constructor.
    - eapply arranged_values; [|exact Hs]. symmetry. by apply fmap_values.
    - apply Forall_fmap. eapply Forall_impl; [exact Ha|]. intros x Hx. by apply mm_ok_both.
    - by apply armed_set_lva.
    - eapply mm_guarded_mono; [|exact Hg2]. cbn. by rewrite Hlv3. }
  apply mm_txpdu_wp; [apply mm_attrs_values, HI1|intros _; unfold mm_fits; cbn; by rewrite length_fmap|].
  intros z m2 fr' Htr. destruct (mm_Inv0_transmitted _ _ HI1 Htr) as (HI2&Ht2&Hc2'&_&_&_).
  apply mm_upd_db_wp, HQ. constructor; try done.
  - by destruct HI2.
  - etrans; [exact Ht2|].
    apply (mm_table_fmap _ (fun _ p => (app_next p2pmac EVENT_TXLA p, reg_next EVENT_TXLA p.2))); [done|].
    intros x. apply mm_both_core.
  - etrans; [exact Hc1|]. etrans; [exact Hc2|]. etrans; [exact Hc3|]. exact Hc2'.
Qed.

(** ** Events for one attribute *)

(** The list with the attribute that carries the event: the one found, with its source
    address updated, or the new one. *)
Definition mm_carried (l : list mmrp_attribute) (r : mmrp_attribute) : list mmrp_attribute :=
  match mmrp_lookup (mm_value r) l with
  | None => mmrp_add r l
  | Some _ => snd (mmrp_merge r l)
  end.

Record mm_carrier (l : list mmrp_attribute) (r : mmrp_attribute) (A : list mmrp_attribute)
    (x : mmrp_attribute) (B : list mmrp_attribute) : Prop := {
  ca_list : mm_carried l r = A ++ x :: B;
  ca_arranged : arranged (A ++ x :: B);
  ca_ok : Forall mm_attr_ok (A ++ x :: B);
  ca_value : mm_value x = mm_value r;
  ca_fresh : mm_value r ∉ (mm_value <$> A);
  ca_core : mm_core x = default (mm_core r) (mm_table l !! mm_value r);
  ca_cores : forall P : entry -> Prop, Forall (fun y => P (mm_core y)) l -> P (mm_core r) ->
               Forall (fun y => P (mm_core y)) (A ++ x :: B);
  ca_table : mm_table (A ++ B) = delete (mm_value r) (mm_table l)
}.

Lemma mm_carrier_exists l r :
  arranged l -> Forall mm_attr_ok l -> mm_attr_ok r -> exists A x B, mm_carrier l r A x B.
Proof using.
  intros Hs Ha Hr. pose proof (mm_attrs_values _ Ha) as Hv. pose proof (proj1 Hr) as Hvr.
  pose proof (arranged_NoDup _ Hs) as Hnd.
  destruct (mmrp_lookup (mm_value r) l) as [y|] eqn:Hl.
  - destruct (lookup_split _ _ _ Hvr Hv Hl) as (A&B&->&Hy&Hn).
    destruct (lookup_middle _ A y B Hvr Hv Hy Hn) as (Hlk&Hat&_).
    set (f := mm_set_source (reg_macaddr (mm_registrar r))). exists A, (f y), B.
    rewrite <- Hy in Hn. pose proof (mm_table_middle A y B Hn) as Ht. rewrite Hy in Hn, Ht.
    assert (HnB : mm_value r ∉ (mm_value <$> B)).
    { rewrite fmap_app, fmap_cons in Hnd. apply NoDup_app in Hnd as (_&_&[Hnd _]%NoDup_cons). by rewrite <- Hy. }
    assert (Hfree : mm_table (A ++ B) !! mm_value r = None).
    { apply table_not_in. rewrite fmap_app, not_elem_of_app. done. }
    apply Forall_app in Ha as [HA [Hoky HB]%Forall_cons]. constructor; try done.
    + unfold mm_carried, mmrp_merge. rewrite Hlk. cbn [snd]. apply Hat.
    + eapply arranged_values; [|exact Hs]. by rewrite !fmap_app.
    + apply Forall_app. split; [done|]. constructor; [|done].
      destruct Hoky as (?&?&?&?&?), Hr as (?&?&?&?&?). by split_and!.
    + rewrite Ht, lookup_insert_eq. done.
    + intros P [HPA [HPy HPB]%Forall_cons]%Forall_app _. apply Forall_app. split; [done|]. by constructor.
    + by rewrite Ht, delete_insert_id.
  - apply lookup_None_values in Hl as Hn; [|done..].
    destruct (mmrp_add_split r l Hs Hv Hvr Hn) as (A&B&->&Hadd&Hs'). exists A, r, B.
    pose proof (table_not_in _ _ Hn) as Htn. rewrite fmap_app, not_elem_of_app in Hn.
    apply Forall_app in Ha as [HA HB]. constructor; try done.
    + unfold mm_carried. by rewrite Hl.
    + apply Forall_app. split; [done|]. by constructor.
    + by destruct Hn.
    + by rewrite Htn.
    + intros P [HPA HPB]%Forall_app HP. apply Forall_app. split; [done|]. by constructor.
    + by rewrite delete_id.
Qed.

(** An attribute as [mmrp_alloc] provides it. *)
Definition mm_is_fresh (r : mmrp_attribute) : Prop := mm_attr_ok r /\ mm_core r = (VO, MT) /\ mm_silent r.

Lemma mm_attribute_registrar_machines e x db :
  mm_attribute_registrar E e x db =
  (with_machines (attribute_registrar E e (machines x) db).1 x, (attribute_registrar E e (machines x) db).2).
Proof using.
  unfold mm_attribute_registrar, attribute_registrar.
  destruct e; try (by apply mm_reg_event_machines).
  - rewrite mm_reg_event_machines. by destruct (registrar_event E EVENT_BEGIN (machines x) db).
  - cbn [registrar machines]. case_decide; apply mm_reg_event_machines.
Qed.

(** The step on the carrier, once it is in the list. *)
Lemma mm_attribute_step e r t A x B l db m x' db' :
  for_attribute e -> mm_is_fresh r -> mm_carrier l r A x B -> t = mm_table l ->
  (t !! mm_value r = None -> e <> EVENT_RMT) ->
  armed db -> Forall (mm_guarded db) (A ++ x :: B) -> mm_list m = A ++ x :: B ->
  mm_attribute_registrar E e (mm_app_event p2pmac e x) db = (x', db') ->
  let m' := mm_set_mrp db' (mm_set_list (mm_at (mm_value r) (fun _ => x') (mm_list m)) m) in
  mm_Inv0 m' /\ mm_table (mm_list m') = partial_alter (mm_entry p2pmac e) (mm_value r) t /\
  same_config db db' /\ join_timer_running db' = join_timer_running db.
Proof using HT.
  intros He ([Hvr Hokr]&Hcr&_) [_ Hs Hok Hv Hn Hcx _ Ht] -> Hrmt Hdb Hg Hm Heq m'.
  rewrite mm_attribute_registrar_machines in Heq.
  destruct (proj1 (Forall_app _ _ _) Hg) as [HgA [Hgx HgB]%Forall_cons].
  destruct (proj1 (Forall_app _ _ _) Hok) as [HoA [Hox HoB]%Forall_cons].
  pose proof (attribute_registrar_effect E HT e (machines (mm_app_event p2pmac e x)) db He Hdb Hgx) as Hre.
  destruct (attribute_registrar E e (machines (mm_app_event p2pmac e x)) db) as [y db1]. cbn [fst snd] in Hre, Heq.
  destruct Hre as [Hat Hc Hrok Hdb1 Hcf Hj Hmono Hgy]. injection Heq as <- <-.
  destruct (lookup_middle _ A x B Hvr (mm_attrs_values _ Hok) Hv Hn) as (_&Hmid&_).
  set (x' := with_machines y (mm_app_event p2pmac e x)) in *.
  assert (Hlist : mm_list m' = A ++ x' :: B) by (cbn; by rewrite Hm, Hmid).
  assert (Hvx : mm_value x' = mm_value r) by (by rewrite <- Hv).
  split_and!; try done.
  - constructor; rewrite ?Hlist; cbn [mm_mrp_db mm_set_mrp m'].
    + eapply arranged_values; [|exact Hs]. rewrite !fmap_app, !fmap_cons. by rewrite Hvx, Hv.
    + apply Forall_app. split; [done|]. constructor; [|done]. split; [by rewrite Hvx|].
      destruct Hox as [_ Hox]. destruct (Hrok (attr_ok_app p2pmac e _ Hox)) as (_&?&?&?). by split_and!.
    + done.
    + apply Forall_app. split; [by eapply mm_guarded_mono|]. constructor; [exact Hgy|by eapply mm_guarded_mono].
  - rewrite Hlist, mm_table_middle by (by rewrite Hvx). rewrite Hvx, Ht, insert_delete_eq.
    unfold insert, map_insert. apply partial_alter_ext. intros o <-.
    assert (Hcore : mm_core x' = (app_next p2pmac e (mm_core x), reg_next (as_registrar e) (mm_core x).2)).
    { etrans; [exact Hc|]. f_equal. exact (f_equal fst (mm_app_core e x)). }
    rewrite Hcore, Hcx, Hcr. unfold mm_entry.
    destruct (mm_table l !! mm_value r) as [p|]; cbn [default]; [done|].
    destruct e; try done. by destruct (Hrmt eq_refl).
Qed.

Lemma mm_event_attribute_wp e ro m fr ms Q :
  for_attribute e -> mm_Inv0 m -> (forall r, ro = Some r -> mm_is_fresh r) ->
  (forall early m', mm_evented e (mm_value <$> ro) m m' ->
     (early <> None -> mm_list m' = mm_list m) -> Q early (mm_at_db m' fr ms)) ->
  safe (mm_event_attribute E p2pmac e ro) Q (mm_at_db m fr ms).
Proof using HT.
  intros He HI Hro HQ. pose proof HI as [Hs Ha Hdb Hl].
  pose proof (jointimer_start_spec E HT _ Hdb) as H1. apply wp_bind, mm_upd_mrp_wp.
  destruct (mrp_jointimer_start E (mm_mrp_db m)) as [rc db1]. destruct H1 as (_&Hj1&Hdb1&Hc1&Hlv1&_). cbn [snd].
  assert (Hg1 : Forall (mm_guarded db1) (mm_list m)) by (eapply mm_guarded_mono; [|exact Hl]; by rewrite Hlv1).
  assert (Hearly : forall z, mm_spec_event p2pmac e (mm_value <$> ro) (mm_table (mm_list m)) = mm_table (mm_list m) ->
    Q (Some z) (mm_at_db (mm_set_mrp db1 m) fr ms)).
  { intros z Hsp. apply HQ; [|done]. constructor; try done. intros _ _. by apply mm_restless_running. }
  destruct ro as [r|]; [|apply wp_ret, Hearly; by destruct e].
  specialize (Hro r eq_refl). pose proof Hro as (Hokr&Hcr&_).
  apply wp_bind, mm_the_db_wp. cbn [mm_list mm_set_mrp].
  pose proof (lookup_None_values _ _ (proj1 Hokr) (mm_attrs_values _ Ha)) as Hnone.
  assert (Hrmt : mmrp_lookup (mm_value r) (mm_list m) = None -> e = EVENT_RMT ->
    safe (mret (Some 0)) Q (mm_at_db (mm_set_mrp db1 m) fr ms)).
  { intros Hn%Hnone ->. apply wp_ret, Hearly. cbn. apply table_not_in in Hn. apply map_eq. intros v.
    destruct (decide (v = mm_value r)) as [->|Hv]; [|by rewrite lookup_partial_alter_ne].
    by rewrite lookup_partial_alter_eq, Hn. }
  assert (Hgo : (mm_table (mm_list m) !! mm_value r = None -> e <> EVENT_RMT) ->
    safe (mm_upd_db (fun m0 => mm_set_list
            (match mmrp_lookup (mm_value r) (mm_list m) with
             | None => mmrp_add r (mm_list m0)
             | Some _ => snd (mmrp_merge r (mm_list m0))
             end) m0);;
          m ← mm_the_db;
          match mmrp_lookup (mm_value r) (mm_list m) with
          | None => mret None
          | Some x =>
              let '(x', db) := mm_attribute_registrar E e (mm_app_event p2pmac e x) (mm_mrp_db m) in
              mm_upd_db (fun m => mm_set_mrp db
                           (mm_set_list (mm_at (mm_value r) (fun _ => x') (mm_list m)) m));;
              mret None
          end) Q (mm_at_db (mm_set_mrp db1 m) fr ms)).
  { intros Hn. apply wp_bind, mm_upd_db_wp, wp_bind, mm_the_db_wp. cbn [mm_list mm_set_mrp mm_set_list mm_mrp_db].
    fold (mm_carried (mm_list m) r).
    destruct (mm_carrier_exists (mm_list m) r Hs Ha Hokr) as (A&x&B&HC). pose proof HC as [-> Hs1 Ha1 Hx Hn1 _ HP _].
    destruct (lookup_middle _ A x B (proj1 Hokr) (mm_attrs_values _ Ha1) Hx Hn1) as (->&_&_).
    destruct (mm_attribute_registrar E e (mm_app_event p2pmac e x) db1) as [x' db'] eqn:Heq.
    destruct (mm_attribute_step e r (mm_table (mm_list m)) A x B (mm_list m) db1
      (mm_set_list (A ++ x :: B) (mm_set_mrp db1 m)) x' db') as (HI'&Ht'&Hc'&Hj'); try done.
    { apply (HP (fun p => p.2 = LV -> lv_timer_running db1 = true)); [exact Hg1|by rewrite Hcr]. }
    apply wp_bind, mm_upd_db_wp, wp_ret. apply HQ; [|by intros []]. constructor; try done.
    - cbn [fmap option_fmap option_map]. etrans; [exact Ht'|]. by destruct e.
    - by etrans.
    - intros _ _. apply mm_restless_running. cbn. congruence. }
  destruct (mmrp_lookup (mm_value r) (mm_list m)) as [y|] eqn:Hlk.
  - apply Hgo. destruct (lookup_split _ _ _ (proj1 Hokr) (mm_attrs_values _ Ha) Hlk) as (A&B&->&Hy&Hn).
    rewrite mm_table_middle, Hy, lookup_insert_eq by (by rewrite Hy). done.
  - destruct (decide (e = EVENT_RMT)) as [->|Hne]; [by apply Hrmt|].
    destruct e; try done; by apply Hgo.
Qed.

(** ** All events *)

(** What an event leaves behind. *)
Definition mm_event_post (e : mrp_event) (v : option mmrp_value) (m : mmrp_database) (w' : mmrp_world) : Prop :=
  exists m' fr' ms', w' = mm_at_db m' fr' ms' /\ mm_Inv m' /\
    mm_table (mm_list m') = mm_spec_event p2pmac e v (mm_table (mm_list m)) /\
    clients (mm_mrp_db m') = clients (mm_mrp_db m) /\
    (e <> EVENT_LVATIMER -> mm_restless m -> mm_restless m').

Lemma mm_finish_wp e v m m1 fr ms :
  mm_send_empty m = false -> mm_evented e v m m1 ->
  safe (m ← mm_the_db; l ← mm_notify_loop E (mm_list m); mm_upd_db (mm_set_list l);; mret 0)
    (fun _ => mm_event_post e v m) (mm_at_db m1 fr ms).
Proof using.
  intros Hf [HI Ht Hc Hr Hf1]. apply wp_bind, mm_the_db_wp, wp_bind, mm_notify_loop_wp.
  intros m2 ms2 [n ->]. apply wp_bind, mm_upd_db_wp, wp_ret. eexists _, _, _. split_and!; [done| |..].
  - constructor; [|apply Forall_fmap, Forall_true; done|cbn; congruence].
    apply (mm_Inv0_fmap _ m1); try done.
    + by apply armed_asked, HI.
    + apply Forall_fmap. by destruct HI.
  - cbn [mm_list mm_set_list]. rewrite <- Ht. rewrite (mm_table_fmap _ (fun _ p => p)) by done.
    apply map_eq. intros k. rewrite map_lookup_imap. by destruct (_ !! k).
  - by destruct Hc.
  - intros He Hr0. unfold mm_restless. apply Forall_fmap. by apply Hr.
Qed.

Lemma mmrp_event_wp e ro m fr ms :
  mm_Inv m -> (forall r, ro = Some r -> mm_is_fresh r) -> (e = EVENT_LVATIMER -> mm_fits m) ->
  safe (mmrp_event E p2pmac STATION_ADDR uninit e ro) (fun _ => mm_event_post e (mm_value <$> ro) m)
    (mm_at_db m fr ms).
Proof using HT HR Hst.
  intros [HI Hsil Hf] Hro Hfit. unfold mmrp_event. apply wp_bind.
  assert (Hrest : forall m1 fr1 ms1, mm_evented e (mm_value <$> ro) m m1 ->
    safe (m ← mm_the_db; l ← mm_notify_loop E (mm_list m); mm_upd_db (mm_set_list l);; mret 0)
      (fun _ => mm_event_post e (mm_value <$> ro) m) (mm_at_db m1 fr1 ms1)).
  { intros m1 fr1 ms1 Hev. by apply mm_finish_wp. }
  assert (Hid : mm_spec_event p2pmac e (mm_value <$> ro) (mm_table (mm_list m)) = mm_table (mm_list m) ->
    mm_evented e (mm_value <$> ro) m m) by (by constructor).
  assert (Hspec : forall m1, (for_attribute e -> False) -> e <> EVENT_RLA ->
    mm_evented e None m m1 -> mm_evented e (mm_value <$> ro) m m1).
  { intros m1 Hn Hn' [? Ht ? ? ?]. constructor; try done. rewrite Ht. destruct e; try done; by destruct Hn. }
  assert (Hend : forall early m' fr' ms', mm_evented e (mm_value <$> ro) m m' ->
    (early <> None -> mm_list m' = mm_list m) ->
    safe (match early with Some rc => mret rc | None =>
       m ← mm_the_db; l ← mm_notify_loop E (mm_list m); mm_upd_db (mm_set_list l);; mret 0 end)
       (fun _ => mm_event_post e (mm_value <$> ro) m) (mm_at_db m' fr' ms')).
  { intros [z|] m' fr' ms' Hev Hl'; [|by apply Hrest].
    apply wp_ret. destruct Hev as [HI' Ht' Hc' Hr' Hf']. eexists _, _, _. split_and!; try done; [|by destruct Hc'].
    constructor; [done| |congruence]. by rewrite Hl'. }
  assert (Hattr : for_attribute e -> safe (mm_event_attribute E p2pmac e ro)
    (fun early => safe (match early with Some rc => mret rc | None =>
       m ← mm_the_db; l ← mm_notify_loop E (mm_list m); mm_upd_db (mm_set_list l);; mret 0 end)
       (fun _ => mm_event_post e (mm_value <$> ro) m)) (mm_at_db m fr ms)).
  { intros He. apply mm_event_attribute_wp; [done..|]. intros early m' Hev Hl'. by apply Hend. }
  destruct e; try (by apply Hattr); try (by apply wp_ret, Hrest, Hid).
  - apply wp_bind, mm_event_tx_wp; [done..|]. intros m1 fr1 Hev. by apply wp_ret, Hrest, Hspec.
  - apply mm_event_rla_wp; [done|]. intros early m1 Hev Hl1. by apply Hend.
  - apply wp_bind, mm_event_periodic_wp; [done|]. intros m1 Hev. by apply wp_ret, Hrest, Hspec.
  - apply wp_bind, mm_event_lvtimer_wp; [done|]. intros m1 Hev. by apply wp_ret, Hrest, Hspec.
  - apply wp_bind, mm_event_lvatimer_wp; [done|by apply Hfit|done|]. intros m1 fr1 Hev. by apply wp_ret, Hrest, Hspec.
Qed.

End Events.
