(* ===== verification/MmrpRecv.v ===== *)
(** * MMRP: received PDUs

    [mmrp_recv_msg] is safe on every frame that leaves eight bytes of the receive
    buffer free, and the values of a vector are events for consecutive attributes. *)

From S2P Require Import Prelude.
From S2P Require Import CText.
From S2P Require Import Mrp.
From S2P Require Import MrpTheory.
From S2P Require Import Mvrp.
From S2P Require Import MvrpEmit.
From S2P Require Import MvrpEvent.
From S2P Require Import MvrpRecv.
From S2P Require Import Mmrp.
From S2P Require Import MmrpTheory.
From S2P Require Import MmrpEmit.
From S2P Require Import MmrpEvent.

Open Scope Z_scope.
Local Abbreviation length := List.length.

(** ** What the values of a vector mean *)

(** Service requirements above 1 are not used. *)
Definition unused (value : mmrp_value) : bool := match value with SVCREQ s => 1 <? s | MACVEC _ => false end.

(** The events of [evts] for consecutive values from [value] on. *)
Fixpoint mm_rx_values (p2pmac : Z) (evts : list Z) (value : mmrp_value) (t : gmap mmrp_value entry)
  : gmap mmrp_value entry * mmrp_value :=
  match evts with
  | [] => (t, value)
  | v :: evts' =>
      if unused value then mm_rx_values p2pmac evts' value t
      else
        let t' := match rx_event v with
                  | Some e => mm_spec_event p2pmac e (Some value) t
                  | None => t
                  end in
        mm_rx_values p2pmac evts' (next_value value) t'
  end.

(** The same for packed bytes with [num] values. *)
Fixpoint mm_rx_bytes (p2pmac : Z) (bs : list Z) (num : Z) (value : mmrp_value) (t : gmap mmrp_value entry)
  : gmap mmrp_value entry * mmrp_value :=
  match bs with
  | [] => (t, value)
  | b :: bs' =>
      let n := if 3 <? num then 3 else num in
      let '(t', value') := mm_rx_values p2pmac (take (Z.to_nat n) (decode3 b)) value t in
      mm_rx_bytes p2pmac bs' (num - n) value' t'
  end.

(** What reception preserves. *)
Definition mm_stable (m m' : mmrp_database) : Prop :=
  mm_Inv m' /\ clients (mm_mrp_db m') = clients (mm_mrp_db m) /\ (mm_restless m -> mm_restless m').

Lemma mm_stable_trans m m' m'' : mm_stable m m' -> mm_stable m' m'' -> mm_stable m m''.
Proof. intros (?&?&?) (?&?&?). split_and!; [done|congruence|auto]. Qed.

Lemma mm_Inv_later m m' : mm_later m m' -> mm_Inv m -> mm_stable m m' /\ mm_list m' = mm_list m.
Proof.
  intros Hl [HI Hs Hf]. pose proof (mm_Inv0_later _ _ Hl HI). destruct Hl as [n ->]. by split.
Qed.

Lemma increment_from_ok i m :
  (i < length m)%nat -> bytes m ->
  bytes (increment_from i m) /\ length (increment_from i m) = length m.
Proof.
  revert m. induction i as [|i IH]; intros m Hi Hb; cbn [increment_from]; [done|].
  destruct (Z.eqb_spec (nth (S i) m 0) 255) as [He|He]; cbn [negb].
  - destruct (IH (<[S i := 0]> m)) as [H1 H2]; [rewrite length_insert; lia|by apply Forall_insert|].
    by rewrite length_insert in H2.
  - rewrite length_insert. split; [|done]. apply Forall_insert; [done|].
    assert (Hn : is_u8 (nth (S i) m 0)).
    { destruct (lookup_lt_is_Some_2 m (S i) Hi) as [x Hx]. rewrite (nth_lookup_Some _ _ _ _ Hx).
      by eapply Forall_lookup_1 in Hb. }
    unfold is_u8 in *. lia.
Qed.

Lemma next_value_ok v : value_ok v -> value_ok (next_value v).
Proof.
  destruct v as [s|m]; [intros _; apply u8_bound|]. intros [Hb Hl].
  destruct (increment_from_ok 5 m) as [? Hi]; [lia|done|]. split; [done|].
  change (length (increment_from 5 m) = 6%nat). by rewrite Hi.
Qed.

Section Recv.
Context (E : Os) (p2pmac : Z) (STATION_ADDR : list Z) (uninit : nat -> list Z).
Context (HT : timers_ok E) (HR : random_ok E) (Hst : length STATION_ADDR = 6%nat).

Lemma mm_fresh_ok v src :
  value_ok v -> bytes src -> length src = 6%nat -> mm_is_fresh (mm_set_source src (mm_fresh v)).
Proof using. intros Hv Hb Hl. split; [|done]. split; [done|]. by split_and!. Qed.

Lemma mm_fresh_zero v : value_ok v -> mm_is_fresh (mm_fresh v).
Proof using. intros Hv. split; [|done]. split; [done|]. split_and!; try done. by repeat constructor. Qed.

Lemma mm_alloc_wp v m fr ms Q :
  (forall m', mm_later m m' -> Q (Some (mm_fresh v)) (mm_at_db m' fr ms)) ->
  (forall m', mm_later m m' -> (malloc_ok E -> False) -> Q None (mm_at_db m' fr ms)) ->
  safe (mmrp_alloc E v) Q (mm_at_db m fr ms).
Proof using.
  intros Hs Hn. unfold mmrp_alloc, mm_malloc. apply wp_bind, wp_bind, mm_the_db_wp, wp_bind, mm_upd_mrp_wp, wp_ret.
  assert (Hl : mm_later m (mm_set_mrp (step_os (mm_mrp_db m)) m)) by (by exists (S (asked (mm_mrp_db m)))).
  destruct (os_malloc E (asked (mm_mrp_db m))) eqn:Hm; apply wp_ret; [by apply Hs|].
  apply Hn; [done|]. intros H. by rewrite H in Hm.
Qed.

(** Post-condition of the loops: [None] only without memory. *)
Definition mm_reads (m : mmrp_database) (post : mmrp_value * gmap mmrp_value entry -> Prop)
    (r : option mmrp_value) (w : mmrp_world) : Prop :=
  exists m' fr' ms', w = mm_at_db m' fr' ms' /\ mm_stable m m' /\
    match r with
    | Some value => post (value, mm_table (mm_list m'))
    | None => malloc_ok E -> False
    end.

Lemma mm_value_loop_wp src evts : forall value m fr ms,
  mm_Inv m -> bytes src -> length src = 6%nat -> value_ok value ->
  safe (mm_value_loop E p2pmac STATION_ADDR uninit src evts value)
    (mm_reads m (fun '(value', t) => value_ok value' /\
       (t, value') = mm_rx_values p2pmac evts value (mm_table (mm_list m))))
    (mm_at_db m fr ms).
Proof using HT HR Hst.
  induction evts as [|v evts IH]; intros value m fr ms HI Hb Hl Hv; cbn [mm_value_loop mm_rx_values].
  { apply wp_ret. exists m, fr, ms. split_and!; try done. }
  fold (unused value). destruct (unused value); [by apply IH|].
  apply wp_bind, mm_alloc_wp; intros m1 Hl1; destruct (mm_Inv_later _ _ Hl1 HI) as [Hst1 Heq1].
  2:{ intros Hnm. apply wp_ret. exists m1, fr, ms. split_and!; try done. }
  pose proof (mm_fresh_ok value src Hv Hb Hl) as Hfresh. set (r := mm_set_source src _) in *.
  assert (Hnext : forall m2 fr2 ms2 t2, mm_stable m m2 -> mm_table (mm_list m2) = t2 ->
    safe (mm_value_loop E p2pmac STATION_ADDR uninit src evts (next_value value))
      (mm_reads m (fun '(value', t) => value_ok value' /\
         (t, value') = mm_rx_values p2pmac evts (next_value value) t2))
      (mm_at_db m2 fr2 ms2)).
  { intros m2 fr2 ms2 t2 Hs2 <-. pose proof Hs2 as (HI2&_&_).
    eapply wp_mono; [apply IH; try done; by apply next_value_ok|].
    intros o w (m'&fr'&ms'&->&Hs'&Hpost). exists m', fr', ms'. split_and!; try done.
    by eapply mm_stable_trans. }
  apply wp_bind. destruct (rx_event v) as [e|] eqn:He.
  - apply rx_event_attribute in He. apply wp_bind.
    eapply wp_mono; [apply (mmrp_event_wp E p2pmac STATION_ADDR uninit HT HR Hst)|].
    + apply Hst1.
    + intros r' [= <-]. exact Hfresh.
    + by intros ->.
    + intros z w (m2&fr2&ms2&->&HI2&Ht2&Hc2&Hr2). apply wp_ret, Hnext; [|by rewrite Ht2, Heq1].
      eapply mm_stable_trans; [exact Hst1|]. split_and!; try done. apply Hr2. by intros ->.
  - apply wp_ret, Hnext; [done|by rewrite Heq1].
Qed.

Lemma mm_byte_loop_wp n buf src : forall off num value m fr ms,
  mm_Inv m -> bytes src -> length src = 6%nat -> value_ok value -> (off + n <= length buf)%nat ->
  safe (mm_byte_loop E p2pmac STATION_ADDR uninit n buf src off num value)
    (mm_reads m (fun '(value', t) => value_ok value' /\
       (t, value') = mm_rx_bytes p2pmac (take n (drop off buf)) num value (mm_table (mm_list m))))
    (mm_at_db m fr ms).
Proof using HT HR Hst.
  induction n as [|n IH]; intros off num value m fr ms HI Hb Hl Hv Hoff; cbn [mm_byte_loop].
  { apply wp_ret. exists m, fr, ms. split_and!; try done. }
  destruct (rd_Ok buf off ltac:(lia)) as (b&Hrd&Hlk). apply wp_bind. eapply wp_lift; [done|].
  set (k := if 3 <? num then 3 else num). apply wp_bind. eapply wp_mono; [by apply mm_value_loop_wp|].
  intros r w (m1&fr1&ms1&->&Hs1&Hr1). destruct r as [v1|]; [|apply wp_ret; by exists m1, fr1, ms1].
  destruct Hr1 as [Hv1 Ht1]. pose proof Hs1 as (HI1&_&_).
  eapply wp_mono; [apply IH; try done; lia|]. intros o w (m2&fr2&ms2&->&Hs2&Hr2).
  exists m2, fr2, ms2. split_and!; [done|by eapply mm_stable_trans|]. destruct o as [v2|]; [|done].
  rewrite (drop_S buf b off Hlk). cbn [take mm_rx_bytes]. fold k. by rewrite <- Ht1.
Qed.

(** A LeaveAll is applied to the attributes of its type. *)
Lemma mm_leaveall_wp svc header saw m fr ms :
  mm_Inv m ->
  safe (mm_leaveall E p2pmac STATION_ADDR uninit svc header saw)
    (fun r w => exists m' fr' ms', w = mm_at_db m' fr' ms' /\ mm_stable m m' /\
       match r with
       | Some saw' =>
           saw' = saw || (svc && MRPDU_VECT_LVA header) /\
           mm_table (mm_list m') =
             (if MRPDU_VECT_LVA header && negb (svc && saw)
              then mm_spec_event p2pmac EVENT_RLA (Some (if svc then SVCREQ 0 else MACVEC (replicate 6 0)))
                     (mm_table (mm_list m))
              else mm_table (mm_list m))
       | None => malloc_ok E -> False
       end) (mm_at_db m fr ms).
Proof using HT HR Hst.
  intros HI. unfold mm_leaveall. destruct (MRPDU_VECT_LVA header && negb (svc && saw)) eqn:Hc.
  2:{ apply wp_ret. exists m, fr, ms. split_and!; try done. by destruct (MRPDU_VECT_LVA header), svc, saw. }
  set (v := if svc then SVCREQ 0 else MACVEC (replicate 6 0)).
  assert (Hv : value_ok v) by (unfold v; destruct svc; [done|split; [by repeat constructor|done]]).
  apply wp_bind, mm_alloc_wp; intros m1 Hl1; destruct (mm_Inv_later _ _ Hl1 HI) as [Hs1 He1].
  2:{ intros Hn. apply wp_ret. by exists m1, fr, ms. }
  apply wp_bind. eapply wp_mono; [apply (mmrp_event_wp E p2pmac STATION_ADDR uninit HT HR Hst)|].
  - apply Hs1.
  - intros r [= <-]. by apply mm_fresh_zero.
  - done.
  - intros z w (m2&fr2&ms2&->&HI2&Ht2&Hc2&Hr2). apply wp_ret. exists m2, fr2, ms2. split_and!; [done| | |].
    + eapply mm_stable_trans; [exact Hs1|]. split_and!; try done. by apply Hr2.
    + by destruct (MRPDU_VECT_LVA header), svc, saw.
    + by rewrite Ht2, He1.
Qed.

(** ** Safety on arbitrary frames *)

Section Safety.
Context (buf src : list Z) (eof : nat).
Context (Hbuf : bytes buf) (Hsrc : bytes src) (Hls : length src = 6%nat).
Context (Heof : (eof + 8 <= length buf)%nat).
Context (Hzero : forall i, (eof <= i < length buf)%nat -> buf !! i = Some 0).

Lemma mm_one_vector_safe svc v header m fr ms :
  mm_Inv m -> (v < eof)%nat ->
  safe (mm_one_vector E p2pmac STATION_ADDR uninit svc buf src eof v header)
    (fun r w => exists m' fr' ms', w = mm_at_db m' fr' ms' /\ mm_stable m m' /\
       match r with Some v' => (v + 3 <= v' /\ v' + 1 < length buf)%nat | None => True end) (mm_at_db m fr ms).
Proof using All.
  intros HI Hve. unfold mm_one_vector. set (num := MRPDU_VECT_NUMVALUES header).
  assert (Hs : mm_stable m m) by (by split_and!).
  assert (Hnum : 0 <= num) by (unfold num; rewrite numvalues_mod; by apply Z.mod_pos_bound).
  destruct (num =? 0); [apply wp_ret; by exists m, fr, ms|].
  destruct (Nat.leb_spec eof (v + 2 + Z.to_nat (num / 3))) as [|Hlt]; [apply wp_ret; by exists m, fr, ms|].
  assert (Hw : (1 <= mm_width svc <= 6)%nat) by (destruct svc; cbn; clear; lia).
  apply wp_bind. eapply wp_lift; [apply read_bytes_Ok; lia|].
  cbv zeta. set (first := take _ _). set (value := if svc then _ else _).
  set (n := if negb _ then _ else _).
  assert (Hn : 0 <= n <= num / 3 + 1).
  { assert (0 <= num / 3) by (by apply Z.div_pos). unfold n. clear -H. destruct (negb _); lia. }
  clearbody n.
  assert (Hfl : length first = mm_width svc) by (unfold first; rewrite length_take, length_drop; lia).
  assert (Hfb : bytes first) by (by apply Forall_take, Forall_drop).
  assert (Hv : value_ok value).
  { unfold value. clearbody first. destruct svc; [|by split]. destruct first as [|b0 f0]; [done|]. by inversion Hfb. }
  apply wp_bind. eapply wp_mono; [apply mm_byte_loop_wp; try done; lia|].
  intros r w (m2&fr2&ms2&->&Hs2&_). apply wp_ret. exists m2, fr2, ms2. split_and!; [done..|].
  destruct r; [lia|done].
Qed.

Lemma mm_vector_loop_safe fuel svc : forall v saw m fr ms,
  mm_Inv m -> (v + 1 < length buf)%nat -> (length buf < v + fuel)%nat ->
  safe (mm_vector_loop E p2pmac STATION_ADDR uninit fuel svc buf src eof v saw)
    (fun r w => exists m' fr' ms', w = mm_at_db m' fr' ms' /\ mm_stable m m' /\
       match r with Some (v', _) => (v <= v')%nat | None => True end) (mm_at_db m fr ms).
Proof using All.
  induction fuel as [|fuel IH]; intros v saw m fr ms HI Hv Hf; [lia|]. cbn [mm_vector_loop].
  destruct (rd_Ok buf v ltac:(lia)) as (b0&Hr0&Hb0), (rd_Ok buf (v + 1) ltac:(lia)) as (b1&Hr1&Hb1).
  apply wp_bind; eapply wp_lift; [exact Hr0|]. apply wp_bind; eapply wp_lift; [exact Hr1|].
  destruct ((b0 =? 0) && (b1 =? 0)) eqn:Hz.
  { apply wp_ret. exists m, fr, ms. split_and!; [done|by split_and!|lia]. }
  assert (Hve : (v < eof)%nat).
  { destruct (Nat.lt_ge_cases v eof); [done|]. rewrite Hzero in Hb0, Hb1 by lia. naive_solver. }
  set (header := be_val [b0; b1]). cbv zeta. apply wp_bind. eapply wp_mono; [by apply mm_leaveall_wp|].
  intros s w (m1&fr1&ms1&->&Hs1&_). pose proof Hs1 as (HI1&_&_).
  destruct s as [saw'|]; [|apply wp_ret; by exists m1, fr1, ms1].
  apply wp_bind. eapply wp_mono; [by apply mm_one_vector_safe|].
  intros r w (m2&fr2&ms2&->&Hs2&Hr). pose proof (mm_stable_trans _ _ _ Hs1 Hs2) as Hs12.
  destruct r as [v'|]; [|apply wp_ret; by exists m2, fr2, ms2].
  eapply wp_mono; [apply IH; [by destruct Hs2|lia..]|].
  intros o w (m3&fr3&ms3&->&Hs3&Ho). exists m3, fr3, ms3.
  split_and!; [done|by eapply mm_stable_trans|]. destruct o as [[v'' ?]|]; [lia|done].
Qed.

Lemma mm_message_loop_safe fuel : forall ptr endmarks saw m fr ms,
  mm_Inv m -> (eof - ptr < fuel)%nat ->
  safe (mm_message_loop E p2pmac STATION_ADDR uninit fuel buf src eof ptr endmarks saw)
    (fun _ w => exists m' fr' ms', w = mm_at_db m' fr' ms' /\ mm_stable m m') (mm_at_db m fr ms).
Proof using All.
  induction fuel as [|fuel IH]; intros ptr endmarks saw m fr ms HI Hf; [lia|]. cbn [mm_message_loop].
  assert (Hs : mm_stable m m) by (by split_and!).
  destruct (Nat.ltb_spec (ptr + 2) eof) as [Hp|_]; [|apply wp_ret; by exists m, fr, ms].
  destruct (rd_Ok buf ptr ltac:(lia)) as (ty&Hr0&_), (rd_Ok buf (ptr + 1) ltac:(lia)) as (len&Hr1&Hlen).
  apply wp_bind; eapply wp_lift; [exact Hr0|]. apply wp_bind; eapply wp_lift; [exact Hr1|].
  destruct ((ty =? 0) && (len =? 0)).
  { destruct (endmarks + 1 <? 2); [apply IH; [done|lia]|apply wp_ret; by exists m, fr, ms]. }
  destruct ((ty =? MMRP_SVCREQ_TYPE) || (ty =? MMRP_MACVEC_TYPE)); [|apply wp_ret; by exists m, fr, ms].
  destruct (negb (len =? _)); [apply wp_ret; by exists m, fr, ms|].
  apply wp_bind. eapply wp_mono; [apply mm_vector_loop_safe; [done|lia..]|].
  intros r w (m1&fr1&ms1&->&Hs1&Hr). destruct r as [[ptr' saw']|]; [|apply wp_ret; by exists m1, fr1, ms1].
  eapply wp_mono; [apply IH; [by destruct Hs1|lia]|].
  intros o w (m2&fr2&ms2&->&Hs2). exists m2, fr2, ms2. split; [done|by eapply mm_stable_trans].
Qed.

End Safety.

Lemma mmrp_recv_msg_wp frame m fr ms :
  mm_Inv m -> bytes frame -> (length frame + 8 <= MAX_FRAME_SIZE)%nat ->
  safe (mmrp_recv_msg E p2pmac STATION_ADDR uninit frame)
    (fun _ w => exists m' fr' ms', w = mm_at_db m' fr' ms' /\ mm_stable m m') (mm_at_db m fr ms).
Proof using All.
  intros HI Hb Hl. unfold mmrp_recv_msg. set (buf := frame ++ _).
  assert (Hlb : length buf = MAX_FRAME_SIZE).
  { unfold buf. rewrite length_app, length_replicate. lia. }
  assert (Hs : mm_stable m m) by (by split_and!).
  destruct (length frame <=? 0)%nat; [apply wp_ret; by exists m, fr, ms|].
  destruct (length frame <? ETH_HDR + 1 + 2)%nat; [apply wp_ret; by exists m, fr, ms|].
  apply wp_bind. eapply wp_lift; [apply read_bytes_Ok; rewrite Hlb; unfold MAX_FRAME_SIZE; lia|].
  destruct (negb (be_val _ =? MMRP_ETYPE)); [apply wp_ret; by exists m, fr, ms|].
  apply wp_bind. eapply wp_lift; [apply read_bytes_Ok; rewrite Hlb; unfold MAX_FRAME_SIZE; lia|].
  destruct (negb (bool_decide _)); [apply wp_ret; by exists m, fr, ms|].
  apply wp_bind. eapply wp_lift; [apply read_bytes_Ok; rewrite Hlb; unfold MAX_FRAME_SIZE; lia|].
  assert (Hbb : bytes buf) by (apply Forall_app; split; [done|apply Forall_replicate; by split]).
  apply mm_message_loop_safe; try done.
  - by apply Forall_take, Forall_drop.
  - rewrite length_take, length_drop, Hlb. done.
  - by rewrite Hlb.
  - intros i Hi. unfold buf. rewrite lookup_app_r by lia. apply lookup_replicate.
    split; [done|]. rewrite Hlb in Hi. lia.
  - lia.
Qed.

End Recv.
