(* ===== verification/MmrpWire.v ===== *)
(** * MMRP: well-formed PDUs

    A message is a sequence of vectors, each a LeaveAll flag, a first value and the
    events of consecutive values.  [mmrp_recv_msg] applies them in order. *)

From S2P Require Import Prelude.
From S2P Require Import CText.
From S2P Require Import Mrp.
From S2P Require Import MrpTheory.
From S2P Require Import Mvrp.
From S2P Require Import MvrpEmit.
From S2P Require Import MvrpEvent.
From S2P Require Import MvrpRecv.
From S2P Require Import MvrpWire.
From S2P Require Import Mmrp.
From S2P Require Import MmrpTheory.
From S2P Require Import MmrpEvent.
From S2P Require Import MmrpRecv.

Open Scope Z_scope.
Local Abbreviation length := List.length.

Record mm_vector : Type := mkMmVector { mv_lva : bool; mv_first : mmrp_value; mv_events : list Z }.

Definition mm_wire_vector (g : mm_vector) : list Z :=
  be_bytes 2 (header (Z.of_nat (length (mv_events g))) (mv_lva g)) ++ value_bytes (mv_first g) ++ packs (mv_events g).

Definition mm_wire (gs : list mm_vector) : list Z := concat (map mm_wire_vector gs).

Definition vector_ok (svc : bool) (g : mm_vector) : Prop :=
  value_ok (mv_first g) /\ is_svcreq (mv_first g) = svc /\ Forall is_evt (mv_events g) /\
  0 < Z.of_nat (length (mv_events g)) < 2 ^ 13.

(** The events of the vectors of a message, in order.  For service requirements only
    the first LeaveAll counts. *)
Fixpoint mm_rx_vectors (p2pmac : Z) (svc : bool) (gs : list mm_vector) (saw : bool) (t : gmap mmrp_value entry)
  : gmap mmrp_value entry :=
  match gs with
  | [] => t
  | g :: gs' =>
      let t := if mv_lva g && negb (svc && saw)
               then mm_spec_event p2pmac EVENT_RLA (Some (mv_first g)) t else t in
      mm_rx_vectors p2pmac svc gs' (saw || (svc && mv_lva g))
        (fst (mm_rx_values p2pmac (mv_events g) (mv_first g) t))
  end.

(** A frame with one message. *)
Definition mm_pdu (src : list Z) (svc : bool) (gs : list mm_vector) : list Z :=
  mm_eth_header src ++ [if svc then MMRP_SVCREQ_TYPE else MMRP_MACVEC_TYPE; Z.of_nat (mm_width svc)] ++
  mm_wire gs ++ [0; 0; 0; 0].

Lemma mm_rx_values_app p es1 es2 v t :
  mm_rx_values p (es1 ++ es2) v t =
  let '(t', v') := mm_rx_values p es1 v t in mm_rx_values p es2 v' t'.
Proof.
  revert v t. induction es1 as [|e es1 IH]; intros v t; cbn [app mm_rx_values]; [done|].
  destruct (unused v); apply IH.
Qed.

(** The bytes of a vector, with the byte behind it, carry its events. *)
Lemma mm_rx_bytes_packs p es : forall q v t,
  Forall is_evt es ->
  mm_rx_bytes p (packs es ++ [q]) (Z.of_nat (length es)) v t = mm_rx_values p es v t.
Proof.
  assert (H0 : is_evt 0) by (by split).
  remember (length es) as n eqn:Hn. revert es Hn. induction (lt_wf n) as [n _ IH].
  intros [|a [|b [|c es]]] -> q v t HF.
  - cbn. done.
  - apply Forall_cons in HF as [Ha _]. cbn [packs app mm_rx_bytes]. rewrite decode3_encode3 by done.
    change (take _ [a; 0; 0]) with [a]. by destruct (mm_rx_values p [a] v t).
  - apply Forall_cons in HF as [Ha [Hb _]%Forall_cons]. cbn [packs app mm_rx_bytes].
    rewrite decode3_encode3 by done. change (take _ [a; b; 0]) with [a; b].
    by destruct (mm_rx_values p [a; b] v t).
  - apply Forall_cons in HF as [Ha [Hb [Hc HF]%Forall_cons]%Forall_cons]. cbn [packs app mm_rx_bytes].
    rewrite decode3_encode3 by done. change (a :: b :: c :: es) with ([a; b; c] ++ es).
    rewrite mm_rx_values_app, length_app. cbn [length].
    set (k := if 3 <? _ then 3 else _).
    assert (k = 3) as -> by (unfold k; destruct (Z.ltb_spec 3 (Z.of_nat (3 + length es))); lia).
    change (take (Z.to_nat 3) [a; b; c]) with [a; b; c].
    destruct (mm_rx_values p [a; b; c] v t) as [t' v'].
    replace (Z.of_nat (3 + length es) - 3) with (Z.of_nat (length es)) by lia.
    apply (IH (length es)); [cbn; lia|done..].
Qed.

(** A LeaveAll depends on the type of its argument only. *)
Lemma spec_rla_type p v w t :
  same_type v w = true -> mm_spec_event p EVENT_RLA (Some v) t = mm_spec_event p EVENT_RLA (Some w) t.
Proof.
  intros Hvw. cbn. apply map_imap_ext. intros k.
  replace (same_type k w) with (same_type k v); [done|]. by destruct k, v, w.
Qed.

Section Wire.
Context (E : Os) (p2pmac : Z) (STATION_ADDR : list Z) (uninit : nat -> list Z).
Context (HT : timers_ok E) (HR : random_ok E) (HM : malloc_ok E) (Hst : length STATION_ADDR = 6%nat).
Context (src : list Z) (Hsrc : bytes src) (Hls : length src = 6%nat) (svc : bool).

Lemma first_width g : vector_ok svc g -> length (value_bytes (mv_first g)) = mm_width svc.
Proof using. intros (Hv&Hs&_). rewrite value_bytes_length, Hs by done. by destruct svc. Qed.

Lemma vector_length g :
  vector_ok svc g -> length (mm_wire_vector g) = (2 + mm_width svc + (length (mv_events g) + 2) / 3)%nat.
Proof using.
  intros Hg. unfold mm_wire_vector. rewrite !length_app, length_be_bytes, length_packs, (first_width g Hg). clear. lia.
Qed.

(** The first value read from its bytes. *)
Lemma first_value g :
  vector_ok svc g ->
  (if svc then SVCREQ (nth 0 (value_bytes (mv_first g)) 0) else MACVEC (value_bytes (mv_first g))) = mv_first g.
Proof using. intros (_&Hs&_). by destruct svc, (mv_first g). Qed.

Lemma mm_one_vector_wire pre g q post eof m fr ms :
  mm_Inv m -> vector_ok svc g -> (length pre + length (mm_wire_vector g) <= eof)%nat ->
  safe (mm_one_vector E p2pmac STATION_ADDR uninit svc (pre ++ mm_wire_vector g ++ q :: post) src eof (length pre)
          (header (Z.of_nat (length (mv_events g))) (mv_lva g)))
    (fun r w => exists m' fr' ms', w = mm_at_db m' fr' ms' /\ mm_stable m m' /\
       r = Some (length pre + length (mm_wire_vector g))%nat /\
       mm_table (mm_list m') = fst (mm_rx_values p2pmac (mv_events g) (mv_first g) (mm_table (mm_list m))))
    (mm_at_db m fr ms).
Proof using All.
  intros HI Hg Heof. pose proof Hg as (Hv&_&HF&Hlen). set (n := length (mv_events g)) in *.
  assert (Hn : 0 < Z.of_nat n < 2 ^ 13) by exact Hlen.
  destruct (header_fields _ (mv_lva g) Hn) as (Hnum&_&_). unfold mm_one_vector. rewrite Hnum.
  pose proof (vector_length g Hg) as HL. fold n in HL.
  pose proof (first_width g Hg) as Hfw. pose proof (first_value g Hg) as Hfv.
  unfold mm_wire_vector in *. fold n in Heof, HL |- *.
  set (hb := be_bytes 2 _) in *. assert (Hhb : length hb = 2%nat) by apply length_be_bytes. clearbody hb.
  set (fb := value_bytes (mv_first g)) in *. set (ps := packs (mv_events g)) in *.
  assert (Hps : length ps = ((n + 2) / 3)%nat) by (unfold ps; by rewrite length_packs).
  destruct (Z.eqb_spec (Z.of_nat n) 0) as [|_]; [lia|].
  assert (Hdiv : (Z.to_nat (Z.of_nat n / 3) <= length ps)%nat).
  { rewrite Hps. change 3 with (Z.of_nat 3). rewrite <- Nat2Z.inj_div, Nat2Z.id. apply Nat.Div0.div_le_mono. lia. }
  assert (Hwd : (1 <= mm_width svc)%nat) by (destruct svc; cbn; clear; lia).
  destruct (Nat.leb_spec eof (length pre + 2 + Z.to_nat (Z.of_nat n / 3))) as [Hge|_]; [lia|].
  rewrite vector_bytes_count, Nat2Z.id, <- Hps. clear Hdiv.
  set (buf := pre ++ (hb ++ fb ++ ps) ++ q :: post).
  assert (Hlb : length buf = (length pre + 2 + mm_width svc + length ps + S (length post))%nat).
  { unfold buf. rewrite !length_app. cbn [length]. lia. }
  assert (Hb1 : buf = (pre ++ hb) ++ fb ++ ps ++ q :: post) by (unfold buf; by rewrite <- !(assoc_L (++))).
  assert (Hrd : read_bytes buf (length pre + 2) (mm_width svc) = Ok fb).
  { rewrite read_bytes_Ok by lia. f_equal. rewrite Hb1, drop_app_length' by (rewrite length_app; lia).
    by rewrite take_app_length'. }
  apply wp_bind; eapply wp_lift; [exact Hrd|]. cbv zeta. rewrite Hfv.
  apply wp_bind. eapply wp_mono; [apply mm_byte_loop_wp; try done; lia|].
  intros r w (m'&fr'&ms'&->&Hs&Hr). destruct r as [v'|]; [|by destruct (Hr HM)].
  destruct Hr as [_ Hr]. apply wp_ret. exists m', fr', ms'. split_and!; [done..| |].
  - f_equal. lia.
  - replace (take (length ps + 1) (drop (length pre + 2 + mm_width svc) buf)) with (ps ++ [q]) in Hr.
    + unfold ps, n in Hr. rewrite mm_rx_bytes_packs in Hr by done. by apply (f_equal fst) in Hr.
    + rewrite Hb1, (assoc_L (++) _ fb), drop_app_length' by (rewrite !length_app; lia).
      change (q :: post) with ([q] ++ post). rewrite (assoc_L (++)).
      by rewrite take_app_length' by (rewrite length_app; done).
Qed.

Lemma mm_vector_loop_wire gs : forall pre saw post eof fuel m fr ms,
  mm_Inv m -> Forall (vector_ok svc) gs -> (length gs < fuel)%nat ->
  (length pre + length (mm_wire gs) <= eof)%nat ->
  safe (mm_vector_loop E p2pmac STATION_ADDR uninit fuel svc (pre ++ mm_wire gs ++ 0 :: 0 :: post) src eof (length pre) saw)
    (fun r w => exists m' fr' ms' saw', w = mm_at_db m' fr' ms' /\ mm_stable m m' /\
       r = Some ((length pre + length (mm_wire gs))%nat, saw') /\
       mm_table (mm_list m') = mm_rx_vectors p2pmac svc gs saw (mm_table (mm_list m))) (mm_at_db m fr ms).
Proof using All.
  unfold mm_wire.
  induction gs as [|g gs IH]; intros pre saw post eof [|fuel] m fr ms HI HF Hfuel Heof; cbn [length] in Hfuel;
    try lia; cbn [mm_vector_loop map concat].
  { cbn [app] in *. apply wp_bind; eapply wp_lift; [by apply rd_at|].
    apply wp_bind; eapply wp_lift.
    { change (0 :: 0 :: post) with ([0] ++ 0 :: post). rewrite (assoc_L (++)). apply rd_at.
      rewrite length_app. done. }
    apply wp_ret. exists m, fr, ms, saw. split_and!; [done|by split_and!|f_equal; f_equal; cbn; lia|done]. }
  apply Forall_cons in HF as [Hg HF]. cbn [map concat] in Heof. rewrite length_app in Heof.
  assert (Hq : exists q post', concat (map mm_wire_vector gs) ++ 0 :: 0 :: post = q :: post').
  { destruct (concat (map mm_wire_vector gs)); cbn; eauto. }
  destruct Hq as (q&post'&Hq). rewrite <- (assoc_L (++) (mm_wire_vector g)), Hq.
  pose proof Hg as (Hv&Hsv&_&Hlen).
  destruct (header_fields _ (mv_lva g) Hlen) as (Hnum&Hlva&Hh).
  destruct (be_bytes_2 _ Hh) as (b0&b1&Hb&Hval&Hnz).
  assert (Hw : exists rest, mm_wire_vector g = b0 :: b1 :: rest).
  { unfold mm_wire_vector. rewrite Hb. eexists. reflexivity. }
  destruct Hw as [rest Hw].
  apply wp_bind; eapply wp_lift; [rewrite Hw; by apply rd_at|].
  apply wp_bind; eapply wp_lift.
  { rewrite Hw. cbn [app]. change (b0 :: b1 :: rest ++ q :: post') with ([b0] ++ b1 :: rest ++ q :: post').
    rewrite (assoc_L (++)). apply rd_at. rewrite length_app. done. }
  rewrite Hnz, Hval. cbv zeta. apply wp_bind. eapply wp_mono; [by apply mm_leaveall_wp|].
  intros s w (m1&fr1&ms1&->&Hs1&Hs). pose proof Hs1 as (HI1&_&_).
  destruct s as [saw1|]; [|by destruct (Hs HM)]. destruct Hs as [-> Ht1]. rewrite Hlva in Ht1 |- *.
  apply wp_bind. eapply wp_mono; [apply mm_one_vector_wire; [done..|lia]|].
  intros r w (m2&fr2&ms2&->&Hs2&->&Ht2). pose proof Hs2 as (HI2&_&_).
  rewrite <- Hq, (assoc_L (++) pre), <- length_app.
  eapply wp_mono; [apply IH; [done|done|lia|rewrite length_app; lia]|].
  intros o w (m3&fr3&ms3&saw3&->&Hs3&->&Ht3). exists m3, fr3, ms3, saw3. split_and!; [done| | |].
  - eapply mm_stable_trans; [done|]. by eapply mm_stable_trans.
  - f_equal. f_equal. rewrite !length_app. lia.
  - rewrite Ht3, Ht2, Ht1. cbn [mm_rx_vectors]. do 2 f_equal.
    destruct (mv_lva g && negb (svc && saw)); [|done]. f_equal. apply spec_rla_type.
    by destruct svc, (mv_first g).
Qed.

Lemma mm_eth_header_length : length (mm_eth_header src) = 15%nat.
Proof using Hls. unfold mm_eth_header. by rewrite !length_app, Hls, length_be_bytes. Qed.

Lemma mm_read_eth rest :
  let buf := mm_eth_header src ++ rest in
  read_bytes buf 12 2 = Ok (be_bytes 2 MMRP_ETYPE) /\
  read_bytes buf 0 6 = Ok MMRP_ADDR /\ read_bytes buf 6 6 = Ok src.
Proof using All.
  assert (Hl : (15 <= length (mm_eth_header src ++ rest))%nat)
    by (rewrite length_app, mm_eth_header_length; lia).
  cbv zeta. rewrite !read_bytes_Ok by lia.
  destruct src as [|a [|b [|c [|d [|e [|f [|]]]]]]]; try discriminate Hls. done.
Qed.

(** The whole frame. *)
Lemma mm_recv_pdu_wp gs m fr ms :
  mm_Inv m -> Forall (vector_ok svc) gs -> (length (mm_pdu src svc gs) <= MAX_FRAME_SIZE)%nat ->
  safe (mmrp_recv_msg E p2pmac STATION_ADDR uninit (mm_pdu src svc gs))
    (fun rc w => rc = 0 /\ exists m' fr' ms', w = mm_at_db m' fr' ms' /\ mm_stable m m' /\
       mm_table (mm_list m') = mm_rx_vectors p2pmac svc gs false (mm_table (mm_list m))) (mm_at_db m fr ms).
Proof using All.
  intros HI HF Hlen. set (ty := if svc then MMRP_SVCREQ_TYPE else MMRP_MACVEC_TYPE).
  set (hd := [ty; Z.of_nat (mm_width svc)]).
  assert (Hfl : length (mm_pdu src svc gs) = (15 + 2 + length (mm_wire gs) + 4)%nat).
  { unfold mm_pdu. rewrite !length_app, mm_eth_header_length. cbn [length]. lia. }
  assert (Hgl : (length gs <= length (mm_wire gs))%nat).
  { clear -HF. unfold mm_wire. induction HF as [|g gs Hg _ IH]; [done|]. cbn [map concat length].
    rewrite length_app, (vector_length _ Hg). lia. }
  unfold mmrp_recv_msg. rewrite Hfl. set (zs := replicate _ 0). set (W := length (mm_wire gs)) in *.
  replace (mm_pdu src svc gs ++ zs) with (mm_eth_header src ++ hd ++ mm_wire gs ++ 0 :: 0 :: 0 :: 0 :: zs)
    by (unfold mm_pdu; by rewrite <- !(assoc_L (++))).
  destruct (mm_read_eth (hd ++ mm_wire gs ++ 0 :: 0 :: 0 :: 0 :: zs)) as (H1&H2&H3).
  set (buf := mm_eth_header src ++ _) in *.
  destruct (Nat.leb_spec (15 + 2 + W + 4) 0) as [|_]; [lia|].
  destruct (Nat.ltb_spec (15 + 2 + W + 4) (ETH_HDR + 1 + 2)) as [Hlt|_]; [unfold ETH_HDR in Hlt; lia|].
  apply wp_bind; eapply wp_lift; [exact H1|]. change (be_val (be_bytes 2 MMRP_ETYPE) =? MMRP_ETYPE) with true. cbn [negb].
  apply wp_bind; eapply wp_lift; [exact H2|]. rewrite bool_decide_eq_true_2 by done. cbn [negb].
  apply wp_bind; eapply wp_lift; [exact H3|]. change (ETH_HDR + 1)%nat with 15%nat.
  set (pre := mm_eth_header src ++ hd).
  assert (Hpre : length pre = 17%nat) by (unfold pre; by rewrite length_app, mm_eth_header_length).
  assert (Hbuf : buf = pre ++ mm_wire gs ++ 0 :: 0 :: 0 :: 0 :: zs) by (unfold buf, pre; by rewrite <- (assoc_L (++))).
  assert (Hlb : (17 + W + 4 <= length buf)%nat) by (rewrite Hbuf, !length_app, Hpre; cbn [length]; lia).
  assert (Hz : forall i : nat, (i < 4)%nat -> rd buf (17 + W + i) = Ok 0).
  { intros i Hi. unfold rd. rewrite Hbuf, (assoc_L (++)), lookup_app_r by (rewrite length_app, Hpre; lia).
    rewrite length_app, Hpre. fold W. replace (17 + W + i - (17 + W))%nat with i by lia.
    destruct i as [|[|[|[|]]]]; try done. lia. }
  assert (Ht0 : rd buf 15 = Ok ty).
  { unfold buf, hd. cbn [app]. apply rd_at. by rewrite mm_eth_header_length. }
  assert (Ht1 : rd buf 16 = Ok (Z.of_nat (mm_width svc))).
  { unfold buf, hd. cbn [app]. rewrite cons_middle, (assoc_L (++)). apply rd_at.
    by rewrite length_app, mm_eth_header_length. }
  remember (length buf) as L eqn:HL. destruct L as [|[|[|L]]]; try lia. cbn [mm_message_loop].
  destruct (Nat.ltb_spec (15 + 2) (15 + 2 + W + 4)) as [_|]; [|lia].
  apply wp_bind; eapply wp_lift; [exact Ht0|]. apply wp_bind; eapply wp_lift; [exact Ht1|].
  assert (Hty : (ty =? 0) && (Z.of_nat (mm_width svc) =? 0) = false /\
    (ty =? MMRP_SVCREQ_TYPE) || (ty =? MMRP_MACVEC_TYPE) = true /\ (ty =? MMRP_SVCREQ_TYPE) = svc)
    by (unfold ty; by destruct svc).
  destruct Hty as (->&->&->). cbv zeta. rewrite Z.eqb_refl. cbn [negb].
  pose proof (mm_vector_loop_wire gs pre false (0 :: 0 :: zs) (15 + 2 + W + 4) (S (length buf)) m fr ms HI HF) as Hvl.
  rewrite <- Hbuf, Hpre in Hvl. fold W in Hvl. rewrite <- HL in Hvl |- *. change (15 + 2)%nat with 17%nat in *.
  apply wp_bind. eapply wp_mono; [apply Hvl; lia|].
  intros r w (m1&fr1&ms1&saw1&->&Hs1&->&Htb).
  destruct (Nat.ltb_spec (17 + W + 2) (17 + W + 4)) as [_|]; [|lia].
  apply wp_bind; eapply wp_lift; [rewrite <- (Nat.add_0_r (17 + W)); apply Hz; lia|].
  apply wp_bind; eapply wp_lift; [apply Hz; lia|].
  cbn [Z.eqb andb Z.add Z.ltb Z.compare Pos.compare Pos.compare_cont].
  destruct (Nat.ltb_spec (17 + W + 2 + 2) (17 + W + 4)) as [|_]; [lia|].
  apply wp_ret. split; [done|]. by exists m1, fr1, ms1.
Qed.

End Wire.
