(* ===== verification/MmrpCmd.v ===== *)
(** * MMRP: commands and life cycle

    Initialisation, the table dump and the commands of local applications. *)

From S2P Require Import Prelude.
From S2P Require Import CText.
From S2P Require Import Mrp.
From S2P Require Import MrpText.
From S2P Require Import MrpTheory.
From S2P Require Import Parse.
From S2P Require Import Mvrp.
From S2P Require Import MvrpTheory.
From S2P Require Import MvrpEmit.
From S2P Require Import MvrpEvent.
From S2P Require Import MvrpCmd.
From S2P Require Import Mmrp.
From S2P Require Import MmrpTheory.
From S2P Require Import MmrpEvent.
From S2P Require Import MmrpRecv.
From Stdlib Require Import String.

Open Scope Z_scope.
Local Abbreviation length := List.length.

(** ** Addresses as text *)

Lemma hex_fold_app a b acc : hex_fold (a ++ b) acc = hex_fold b (hex_fold a acc).
Proof. apply fold_left_app. Qed.

Lemma hex_fold_from s acc : hex_fold s acc = acc * 16 ^ Z.of_nat (length s) + hex_fold s 0.
Proof.
  unfold hex_fold. induction s as [|c s IH] using rev_ind; [cbn; lia|].
  rewrite !fold_left_app, IH, length_app, Nat2Z.inj_add, Z.pow_add_r by lia. cbn [fold_left length].
  change (16 ^ Z.of_nat 1) with 16. lia.
Qed.

Lemma fmt_mac_hex m : bytes m -> Forall hex_char (fmt_mac m) /\ hex_fold (fmt_mac m) 0 = be_val m.
Proof.
  induction m as [|b m IH] using rev_ind; intros Hm; [done|].
  apply Forall_app in Hm as [Hm [Hb _]%Forall_cons]. destruct (IH Hm) as [HF He].
  unfold fmt_mac in *. rewrite map_app, join_app, be_val_snoc. cbn [map mjoin list_join].
  rewrite app_nil_r. assert (Hb64 : 0 <= b < 2 ^ 64) by (unfold is_u8 in Hb; lia).
  destruct (fmt_x_hex 2 b Hb64) as (HF2&_&He2). split; [by apply Forall_app|].
  rewrite hex_fold_app, hex_fold_from, He, He2, fmt_x_exact; [done|lia|]. unfold is_u8 in Hb. cbn. lia.
Qed.

Lemma sscanf_fmt_mac m : bytes m -> length m = 6%nat -> sscanf 16 None (fmt_mac m) = Some (be_val m).
Proof.
  intros Hm Hl. destruct (fmt_mac_hex m Hm) as [HF He]. unfold sscanf. rewrite skip_spaces_hex by done.
  pose proof (be_val_bound m Hm) as Hb. rewrite Hl in Hb. change (8 * Z.of_nat 6) with 48 in Hb.
  rewrite <- He in Hb |- *. apply scan_int_hex; [done| |lia].
  intros H0. apply (f_equal length) in H0. rewrite fmt_mac_length, Hl in H0 by done. done.
Qed.

(** The bytes of an address, most significant first. *)
Lemma array_mac m :
  bytes m -> length m = 6%nat ->
  map (fun i => u8 (Z.shiftr (be_val m) ((Z.of_nat 6 - 1 - Z.of_nat i) * 8))) (seq 0 6) = m.
Proof.
  intros Hm Hl. pose proof (be_bytes_val m Hm) as Hv. rewrite Hl in Hv. etrans; [|exact Hv].
  generalize (be_val m). intros v.
  cbn [map seq be_bytes app]. unfold u8. rewrite !Z.shiftr_div_pow2 by lia. rewrite !Z.div_div by lia.
  cbn. by rewrite Z.div_1_r.
Qed.


(** ** Parameters of commands *)

(** The text of a parameter: neither the end of the command nor of the parameter. *)
Definition plain (s : list Z) : Prop := Forall (fun c => c <> 0) s /\ Forall (fun c => c <> PARSE_DELIMITER) s.

(** The value of an attribute as a parameter. *)
Lemma service_text s : is_u8 s -> sscanf 10 None (fmt_d s) = Some s /\ plain (fmt_d s).
Proof.
  intros Hs. assert (Hall : forallb (fun n => bool_decide (sscanf 10 None (fmt_d (Z.of_nat n)) = Some (Z.of_nat n)) &&
    forallb (fun c => negb (c =? 0) && negb (c =? PARSE_DELIMITER)) (fmt_d (Z.of_nat n))) (seq 0 256) = true)
    by (vm_compute; reflexivity).
  rewrite forallb_forall in Hall. specialize (Hall (Z.to_nat s)). unfold is_u8 in Hs. rewrite Z2Nat.id in Hall by lia.
  destruct (andb_prop _ _ (Hall ltac:(apply in_seq; lia))) as [H1 H2]. apply bool_decide_eq_true in H1.
  rewrite forallb_forall in H2. split; [done|].
  split; apply Forall_forall; intros c Hc; specialize (H2 c ltac:(by apply list_elem_of_In));
    destruct (andb_prop _ _ H2) as [?%negb_true_iff%Z.eqb_neq ?%negb_true_iff%Z.eqb_neq]; done.
Qed.

Definition param_text (v : mmrp_value) : list Z :=
  match v with SVCREQ s => fmt_d s | MACVEC m => fmt_mac m end.

(** The text of a command: its letters and the value. *)
Definition mm_command (op : string) (v : mmrp_value) (pad : nat) : list Z :=
  str op ++ mm_variant v ++ replicate (S pad) 0.

Lemma parse_one name ty text pad v :
  plain (str name ++ text) -> convert ty text false = (true, v) -> strneq (length (str name)) (str name) (str name ++ text) = true ->
  parse (str name ++ text ++ replicate (S pad) 0) [mkParam (str name) ty] = (0, 0, [v]).
Proof.
  intros [Hz Hd] Hc Hn. unfold parse, parse_run.
  assert (existsb (Z.eqb 0) (str name ++ text ++ replicate (S pad) 0) = true) as ->.
  { rewrite !existsb_app. cbn [replicate existsb]. by rewrite Z.eqb_refl, !orb_true_r. }
  rewrite (assoc_L (++)). cbn [replicate]. rewrite cstr_app by done.
  cbn [parse_loop param_name param_type].
  assert (strstr_after (str name) (str name ++ text) = Some text) as ->.
  { destruct (str name ++ text) eqn:He; cbn [strstr_after]; rewrite Hn, <- He, drop_app_length; done. }
  apply Forall_app in Hd as [_ Hd]. rewrite split_delimiter_none by done. by rewrite Hc.
Qed.

Lemma mac_text m : bytes m -> length m = 6%nat -> convert parse_mac (fmt_mac m) false = (true, BytesValue m) /\ plain (fmt_mac m).
Proof.
  intros Hm Hl. split; [|by apply hex_plain, fmt_mac_hex]. cbn [convert].
  rewrite sscanf_fmt_mac by done. by rewrite array_mac.
Qed.

(** The value of a command is read back. *)
Lemma parse_service_command a b c s pad :
  is_u8 s -> mmrp_cmd_parse_service ([a; b; c; 58] ++ mm_variant (SVCREQ s) ++ replicate (S pad) 0) = (0, s).
Proof.
  intros Hs. destruct (service_text s Hs) as [Hscan [H0 H1]]. unfold mmrp_cmd_parse_service. cbn [mm_variant].
  rewrite !length_app, length_replicate. cbn [length]. change (length (str "S=")) with 2%nat.
  destruct (Z.ltb_spec (Z.of_nat (4 + (2 + length (fmt_d s) + S pad))) 5) as [|_]; [lia|].
  change (drop 4 ([a; b; c; 58] ++ ?r)) with r. rewrite <- (assoc_L (++)).
  unfold service_params. change (str "S" ++ str PARSE_ASSIGN) with (str "S=").
  rewrite (parse_one "S=" parse_u8 (fmt_d s) pad (IntValue s)); [done| | |done].
  - split; (apply Forall_app; split; [by repeat constructor|done]).
  - cbn [convert]. rewrite Hscan. by rewrite u8_small.
Qed.

Lemma parse_mac_command a b c m pad :
  bytes m -> length m = 6%nat ->
  mmrp_cmd_parse_mac ([a; b; c; 58] ++ mm_variant (MACVEC m) ++ replicate (S pad) 0) = (0, m).
Proof.
  intros Hm Hl. destruct (mac_text m Hm Hl) as [Hc [H0 H1]]. unfold mmrp_cmd_parse_mac. cbn [mm_variant].
  rewrite !length_app, length_replicate, fmt_mac_length, Hl by done. cbn [length]. change (length (str "M=")) with 2%nat.
  destruct (Z.ltb_spec (Z.of_nat (4 + (2 + 2 * 6 + S pad))) 17) as [|_]; [lia|].
  change (drop 4 ([a; b; c; 58] ++ ?r)) with r. rewrite <- (assoc_L (++)).
  unfold mac_params. change (str "M" ++ str PARSE_ASSIGN) with (str "M=").
  rewrite (parse_one "M=" parse_mac (fmt_mac m) pad (BytesValue m)); [done| |done|done].
  split; (apply Forall_app; split; [by repeat constructor|done]).
Qed.

(** Whatever is parsed is a value. *)
Lemma parsed_service buf : is_u8 (snd (mmrp_cmd_parse_service buf)).
Proof.
  assert (H0 : is_u8 0) by (unfold is_u8; lia).
  unfold mmrp_cmd_parse_service. destruct (_ <? 5); [done|]. unfold parse, parse_run, service_params, mac_params. destruct (existsb _ _); [|done].
  cbn [parse_loop]. destruct (strstr_after _ _) as [data|]; [|done].
  destruct (split_delimiter data) as [field next]. unfold convert. cbn [param_type].
  destruct (sscanf 10 None field); [|done]. cbn. apply u8_bound.
Qed.

Lemma parsed_mac buf m : mmrp_cmd_parse_mac buf = (0, m) -> bytes m /\ length m = 6%nat.
Proof.
  assert (H0 : bytes (replicate 6 0)) by (by repeat constructor).
  unfold mmrp_cmd_parse_mac. destruct (_ <? 17); [done|]. unfold parse, parse_run, service_params, mac_params. destruct (existsb _ _); [|by intros [= <-]].
  cbn [parse_loop]. destruct (strstr_after _ _) as [data|]; [|by intros [= <-]].
  destruct (split_delimiter data) as [field next]. unfold convert. cbn [param_type].
  destruct (sscanf 16 None field); [|by intros [= <-]]. intros [= <-]. split; [|done].
  repeat (constructor; [apply u8_bound|]). constructor.
Qed.

(** ** The table *)

(** At most 34 characters for an attribute. *)
Lemma mm_table_line_length x :
  mm_attr_ok x -> exists text, mm_table_line x = Ok text /\ (length text <= 34)%nat.
Proof.
  intros (Hv&_&Hb&Hl&_). unfold mm_table_line.
  assert (Hvar : (length (mm_variant (mm_value x)) <= 14)%nat).
  { destruct (mm_value x) as [s|m]; cbn [mm_variant]; rewrite length_app.
    - assert (is_u8 s) as Hs by done. unfold is_u8 in Hs.
      pose proof (fmt_d_length s ltac:(lia)). cbn [str length]. lia.
    - destruct Hv as [Hm Hlm]. rewrite fmt_mac_length, Hlm by done. done. }
  set (var := mm_variant _) in *. clearbody var.
  assert (Hsrc : length (mm_regsrc x) = 14%nat).
  { unfold mm_regsrc. rewrite length_app. change (reg_macaddr (mm_registrar x)) with (reg_macaddr (registrar (machines x))).
    rewrite fmt_mac_length, Hl by done. done. }
  set (src := mm_regsrc x) in *. clearbody src. rewrite !sprintf_Ok by lia. cbn_outcome.
  set (tag := match reg_state (mm_registrar x) with IN => "MIN" | LV => "MLV" | MT => "MMT" end%string).
  assert (Ht : length (str tag) = 3%nat) by (unfold tag; by destruct (reg_state _)).
  rewrite sprintf_Ok by (rewrite !length_app, Ht, Hsrc; cbn [str newline length]; lia).
  eexists. split; [done|]. rewrite !length_app, Ht, Hsrc. cbn [str newline length]. lia.
Qed.

Lemma mm_dump_loop_Ok l : forall text,
  Forall mm_attr_ok l -> (length text + 34 * length l < MAX_MRPD_CMDSZ)%nat ->
  exists text', mm_dump_loop l text = Ok text'.
Proof.
  induction l as [|x l IH]; intros text HF Ht; cbn [mm_dump_loop]; [by eexists|].
  apply Forall_cons in HF as [Hx HF]. destruct (mm_table_line_length x Hx) as (line&->&Hl). cbn [length] in Ht.
  cbn_outcome. rewrite sprintf_Ok by (rewrite length_app; lia). cbn_outcome.
  apply IH; [done|]. rewrite length_app. lia.
Qed.

(** ** Safety and effect *)

Section Commands.
Context (E : Os) (p2pmac : Z) (STATION_ADDR : list Z) (uninit : nat -> list Z).
Context (HT : timers_ok E) (HR : random_ok E) (Hst : length STATION_ADDR = 6%nat).

Lemma mm_respond_wp client prefix buf suffix m fr ms Q :
  terminated MAX_MRPD_CMDSZ buf = true ->
  (forall ms', Q tt (mm_at_db m fr ms')) -> safe (mm_respond client prefix buf suffix) Q (mm_at_db m fr ms).
Proof using. intros Hb HQ. apply wp_bind. eapply wp_lift; [by apply c_string_Ok|]. apply HQ. Qed.

(** Clients come and go without touching the attributes. *)
Definition mm_same_attributes (m m' : mmrp_database) : Prop :=
  mm_list m' = mm_list m /\ (mm_Inv m -> mm_Inv m') /\ (mm_restless m -> mm_restless m').

Lemma mm_later_same m m' : mm_later m m' -> mm_same_attributes m m'.
Proof using.
  intros [n ->]. split_and!; [done| |done]. intros HI. by apply (mm_Inv_later m); [exists n|].
Qed.

Lemma mm_same_trans m1 m2 m3 : mm_same_attributes m1 m2 -> mm_same_attributes m2 m3 -> mm_same_attributes m1 m3.
Proof using. intros (?&?&?) (?&?&?). split_and!; [congruence|auto..]. Qed.

Lemma mm_clients_same l m : mm_same_attributes m (mm_set_mrp (set_clients l (mm_mrp_db m)) m).
Proof using.
  split_and!; [done| |done]. intros [[] ? ?]. constructor; [constructor|..]; try done.
  destruct mm_inv_armed as []. by constructor.
Qed.

Lemma mm_add_client_wp client m fr ms Q :
  (forall m', mm_same_attributes m m' ->
     (malloc_ok E -> client_lookup (clients (mm_mrp_db m')) (Some client) = true) -> Q tt (mm_at_db m' fr ms)) ->
  safe (mm_add_client E client) Q (mm_at_db m fr ms).
Proof using.
  intros HQ. apply wp_bind, mm_the_db_wp, wp_bind.
  assert (Hlast : forall l, client_lookup (l ++ [client]) (Some client) = true).
  { intros l. rewrite client_lookup_spec, fmap_app. apply elem_of_app. right. by constructor. }
  destruct (client_lookup (clients (mm_mrp_db m)) (Some client)) eqn:Hc.
  - apply wp_ret, mm_upd_mrp_wp, HQ; [apply mm_clients_same|intros _]. cbn. by rewrite Hc.
  - apply mm_malloc_wp. intros b m1 Hl Hb. apply mm_upd_mrp_wp.
    assert (Hcl : clients (mm_mrp_db m1) = clients (mm_mrp_db m)) by (by destruct Hl as [n ->]).
    apply HQ.
    + eapply mm_same_trans; [by apply mm_later_same|apply mm_clients_same].
    + cbn. rewrite Hcl, Hc. intros ->%Hb. apply Hlast.
Qed.

Lemma mmrp_dumptable_wp client m fr ms (Q : Z -> mmrp_world -> Prop) :
  Forall mm_attr_ok (mm_list m) -> (34 * length (mm_list m) < MAX_MRPD_CMDSZ)%nat ->
  (forall z m' ms', mm_later m m' -> Q z (mm_at_db m' fr ms')) ->
  safe (mmrp_dumptable E client) Q (mm_at_db m fr ms).
Proof using.
  intros Ha Hn HQ. apply wp_bind, mm_malloc_wp. intros b m1 H1 _. destruct b; [|by apply HQ].
  apply wp_bind, mm_malloc_wp. intros b1 m2 H2 _. apply wp_bind, mm_malloc_wp. intros b2 m3 H3 _.
  apply wp_bind, mm_malloc_wp. intros b3 m4 H4 _.
  assert (Hl : mm_later m m4)
    by (eapply mm_later_trans; [|exact H4]; eapply mm_later_trans; [|exact H3]; by eapply mm_later_trans).
  destruct (_ || _); [by apply HQ|]. apply wp_bind, mm_the_db_wp, wp_bind.
  assert (Heq : mm_list m4 = mm_list m) by (by destruct Hl as [n ->]). rewrite Heq.
  destruct (mm_dump_loop_Ok (mm_list m) [] Ha Hn) as [text Hd].
  destruct (mm_list m); eapply wp_lift; [reflexivity| |exact Hd|]; apply wp_bind, wp_modify, wp_ret, HQ; done.
Qed.

(** A command for one attribute, parsed with result [rc]. *)
Lemma mm_perform_wp client buf left e v rc m fr ms (Q : Z -> mmrp_world -> Prop) :
  terminated MAX_MRPD_CMDSZ buf = true -> terminated MAX_MRPD_CMDSZ left = true ->
  mm_Inv m -> e <> EVENT_LVATIMER -> (rc = 0 -> value_ok v) ->
  (forall z m' fr' ms', mm_stable m m' ->
     (rc = 0 -> malloc_ok E -> z = 0 /\
        mm_table (mm_list m') = mm_spec_event p2pmac e (Some v) (mm_table (mm_list m))) ->
     Q z (mm_at_db m' fr' ms')) ->
  safe (mm_perform client buf left rc (mm_cmd_value E p2pmac STATION_ADDR uninit v e)) Q (mm_at_db m fr ms).
Proof using HT HR Hst.
  intros Hb Hbl HI He Hv HQ. unfold mm_perform, mm_cmd_value. assert (Hrefl : mm_stable m m) by (by split_and!).
  destruct (Z.eqb_spec rc 0) as [->|Hrc]; cbn [negb].
  2:{ apply wp_bind, mm_respond_wp; [done|]. intros ms'. by apply wp_ret, HQ. }
  apply wp_bind, wp_bind, mm_alloc_wp; intros m1 H1; destruct (mm_Inv_later _ _ H1 HI) as [Hs1 Heq1].
  - apply wp_bind. eapply wp_mono; [apply (mmrp_event_wp E p2pmac STATION_ADDR uninit HT HR Hst); [apply Hs1| |done]|].
    { intros r [= <-]. by apply mm_fresh_zero, Hv. }
    intros z w (m2&fr2&ms2&->&HI2&Ht2&Hc2&Hr2). apply wp_ret, wp_ret, HQ.
    + eapply mm_stable_trans; [exact Hs1|]. split_and!; try done. by apply Hr2.
    + intros _ _. split; [done|]. rewrite Ht2, Heq1. done.
  - intros HM. apply wp_ret, wp_bind, mm_respond_wp; [done|]. intros ms'. apply wp_ret, HQ; [done|]. by intros _ ?%HM.
Qed.

Lemma mm_cmd_s_wp client buf e m fr ms (Q : Z -> mmrp_world -> Prop) :
  terminated MAX_MRPD_CMDSZ buf = true -> mm_Inv m -> e <> EVENT_LVATIMER ->
  (forall z m' fr' ms', mm_stable m m' ->
     (forall s, mmrp_cmd_parse_service buf = (0, s) -> malloc_ok E -> z = 0 /\
        mm_table (mm_list m') = mm_spec_event p2pmac e (Some (SVCREQ s)) (mm_table (mm_list m))) ->
     Q z (mm_at_db m' fr' ms')) ->
  safe (mm_cmd_s E p2pmac STATION_ADDR uninit client buf e) Q (mm_at_db m fr ms).
Proof using HT HR Hst.
  intros Hb HI He HQ. unfold mm_cmd_s. pose proof (parsed_service buf) as Hs.
  destruct (mmrp_cmd_parse_service buf) as [rc s]. apply mm_perform_wp; [done|by apply command_left_terminated|done..|].
  intros z m' fr' ms' Hst' Ht. apply HQ; [done|]. intros s' [= -> ->]. by apply Ht.
Qed.

Lemma mm_cmd_m_wp client buf e m fr ms (Q : Z -> mmrp_world -> Prop) :
  terminated MAX_MRPD_CMDSZ buf = true -> mm_Inv m -> e <> EVENT_LVATIMER ->
  (forall z m' fr' ms', mm_stable m m' ->
     (forall a, mmrp_cmd_parse_mac buf = (0, a) -> malloc_ok E -> z = 0 /\
        mm_table (mm_list m') = mm_spec_event p2pmac e (Some (MACVEC a)) (mm_table (mm_list m))) ->
     Q z (mm_at_db m' fr' ms')) ->
  safe (mm_cmd_m E p2pmac STATION_ADDR uninit client buf e) Q (mm_at_db m fr ms).
Proof using HT HR Hst.
  intros Hb HI He HQ. unfold mm_cmd_m. pose proof (parsed_mac buf) as Hs.
  destruct (mmrp_cmd_parse_mac buf) as [rc a]. apply mm_perform_wp; [done|by apply command_left_terminated|done..|intros ->; by apply Hs|].
  intros z m' fr' ms' Hst' Ht. apply HQ; [done|]. intros a' [= -> ->]. by apply Ht.
Qed.

Definition mm_cmd_post (m : mmrp_database) (w : mmrp_world) : Prop :=
  exists m' fr' ms', w = mm_at_db m' fr' ms' /\ mm_Inv m' /\ (mm_restless m -> mm_restless m').

(** Whatever text a client sends, a table that fits one message is safe. *)
Lemma mmrp_recv_cmd_wp buf client m fr ms :
  mm_Inv m -> (34 * length (mm_list m) < MAX_MRPD_CMDSZ)%nat -> terminated MAX_MRPD_CMDSZ buf = true ->
  safe (mmrp_recv_cmd E p2pmac STATION_ADDR uninit buf client) (fun _ => mm_cmd_post m) (mm_at_db m fr ms).
Proof using HT HR Hst.
  intros HI Hn Hb. apply wp_bind, wp_gets. cbn [MMRP_db]. apply wp_bind, mm_add_client_wp.
  intros m1 (Heq&HI1&Hr1) _. specialize (HI1 HI).
  assert (Hend : forall rc : Z, safe (mret rc) (fun _ => mm_cmd_post m) (mm_at_db m1 fr ms)).
  { intros rc. apply wp_ret. by exists m1, fr, ms. }
  assert (Hpost : forall m' fr' ms', mm_stable m1 m' -> mm_cmd_post m (mm_at_db m' fr' ms')).
  { intros m' fr' ms' (?&_&?). exists m', fr', ms'. by split_and!; auto. }
  assert (Hs : forall e, e <> EVENT_LVATIMER ->
    safe (mm_cmd_s E p2pmac STATION_ADDR uninit client buf e) (fun _ => mm_cmd_post m) (mm_at_db m1 fr ms))
    by (intros e He; apply mm_cmd_s_wp; auto).
  assert (Hm : forall e, e <> EVENT_LVATIMER ->
    safe (mm_cmd_m E p2pmac STATION_ADDR uninit client buf e) (fun _ => mm_cmd_post m) (mm_at_db m1 fr ms))
    by (intros e He; apply mm_cmd_m_wp; auto).
  cbv zeta. destruct (length buf <? 3)%nat; [done|]. destruct (negb _); [done|].
  destruct (strneq _ buf (str "M??")).
  { apply wp_bind, mmrp_dumptable_wp; [rewrite Heq; apply HI|by rewrite Heq|].
    intros z m' ms' Hl. apply wp_ret. destruct (mm_later_same _ _ Hl) as (_&?&?).
    exists m', fr, ms'. by split_and!; auto. }
  destruct (strneq _ buf (str "M--:S")); [by apply Hs|].
  destruct (strneq _ buf (str "M--:M")); [by apply Hm|].
  destruct (_ || _); [by apply Hs; destruct (_ =? 63)|].
  destruct (_ || _); [by apply Hm; destruct (_ =? 63)|].
  apply wp_bind, mm_respond_wp; [done|]. intros ms'. apply wp_ret. by exists m1, fr, ms'.
Qed.

(** The event a command stands for. *)
Inductive mm_op : string -> mrp_event -> Prop :=
  | mm_op_new : mm_op "M++:" EVENT_NEW
  | mm_op_join : mm_op "M+?:" EVENT_JOIN
  | mm_op_leave : mm_op "M--:" EVENT_LV.

Lemma mm_recv_command_wp op e v pad client m fr ms :
  mm_Inv m -> mm_op op e -> value_ok v -> malloc_ok E ->
  safe (mmrp_recv_cmd E p2pmac STATION_ADDR uninit (mm_command op v pad) client)
    (fun rc w => rc = 0 /\ exists m' fr' ms', w = mm_at_db m' fr' ms' /\ mm_Inv m' /\
       (mm_restless m -> mm_restless m') /\
       client_lookup (clients (mm_mrp_db m')) (Some client) = true /\
       mm_table (mm_list m') = mm_spec_event p2pmac e (Some v) (mm_table (mm_list m))) (mm_at_db m fr ms).
Proof using HT HR Hst.
  intros HI Hop Hv HM. apply wp_bind, wp_gets. cbn [MMRP_db]. apply wp_bind, mm_add_client_wp.
  intros m1 (Heq&HI1&Hr1) Hc. specialize (HI1 HI). specialize (Hc HM).
  set (Q := fun (rc : Z) w => rc = 0 /\ exists m' fr' ms', w = mm_at_db m' fr' ms' /\ mm_Inv m' /\
       (mm_restless m -> mm_restless m') /\
       client_lookup (clients (mm_mrp_db m')) (Some client) = true /\
       mm_table (mm_list m') = mm_spec_event p2pmac e (Some v) (mm_table (mm_list m))).
  assert (HQ : forall z m' fr' ms', mm_stable m1 m' ->
    (z = 0 /\ mm_table (mm_list m') = mm_spec_event p2pmac e (Some v) (mm_table (mm_list m1))) ->
    Q z (mm_at_db m' fr' ms')).
  { intros z m' fr' ms' (?&Hcl&?) [-> Ht]. rewrite Heq in Ht. split; [done|]. exists m', fr', ms'.
    split_and!; auto. by rewrite Hcl. }
  assert (Hcmd : forall a b c, str op = [a; b; c; 58] -> e <> EVENT_LVATIMER ->
    safe (if is_svcreq v then mm_cmd_s E p2pmac STATION_ADDR uninit client (mm_command op v pad) e
          else mm_cmd_m E p2pmac STATION_ADDR uninit client (mm_command op v pad) e) Q (mm_at_db m1 fr ms)).
  { intros a b c Hs He. unfold mm_command. rewrite Hs. destruct v as [s|d]; cbn [is_svcreq].
    - apply mm_cmd_s_wp; [apply terminated_zeros|done..|]. intros z m' fr' ms' Hst' Ht. apply HQ; [done|].
      apply Ht; [by apply parse_service_command|done].
    - apply mm_cmd_m_wp; [apply terminated_zeros|done..|]. intros z m' fr' ms' Hst' Ht. apply HQ; [done|].
      destruct Hv. apply Ht; [by apply parse_mac_command|done]. }
  destruct Hop, v; (eapply Hcmd; [reflexivity|done]).
Qed.

End Commands.

(** ** Initialisation *)

Section Init.
Context (E : Os) (HT : timers_ok E) (HR : random_ok E).

Lemma mmrp_init_wp en rs mal rt w :
  wp (fun _ => False) (mmrp_init E en rs mal rt)
    (fun rc w' => mm_frames w' = mm_frames w /\ mm_messages w' = mm_messages w /\
       match MMRP_db w' with
       | MmNoDb => en = 0 \/ rc = -1
       | MmDb m => rc = 0 /\ en <> 0 /\ mm_Inv m /\ mm_list m = [] /\ clients (mm_mrp_db m) = [] /\
                 lva_timer_running (mm_mrp_db m) = true
       | MmFreedDb => False
       end) w.
Proof using All.
  unfold mmrp_init. apply wp_bind, wp_modify. cbn beta.
  destruct (Z.eqb_spec en 0) as [->|Hen]; [cbn; auto|].
  destruct (rs <? 0); [cbn; auto|]. destruct mal; cbn [negb]; [|cbn; auto].
  destruct (rt <? 0); [cbn; auto|].
  set (db := mkMrpDb _ _ _ _ _ _ _ _ _ _ _). assert (Hdb : armed db) by (by constructor).
  pose proof (lvatimer_fsm_spec E HT HR db EVENT_BEGIN Hdb ltac:(auto)) as Hs.
  destruct (mrp_lvatimer_fsm E db EVENT_BEGIN) as [rc db']. destruct Hs as (_&Hr&Ha&Hc&_).
  apply wp_bind, wp_modify. cbn.
  split_and!; try done; [|by destruct Hc]. constructor; [constructor; cbn; try done|done|done].
  by apply (arranged_blocks (SVCREQ 0) (MACVEC []) [] []); repeat constructor.
Qed.

End Init.
