(* ===== verification/MmrpCorrect.v ===== *)
(** * MMRP: theorems

    The properties of daemons/mrpd/mmrp.c, each with an instance at concrete stations. *)

From S2P Require Import Prelude.
From S2P Require Import CText.
From S2P Require Import Mrp.
From S2P Require Import MrpTheory.
From S2P Require Import Mvrp.
From S2P Require Import MvrpTheory.
From S2P Require Import MvrpEmit.
From S2P Require Import MvrpEvent.
From S2P Require Import MvrpPeer.
From S2P Require Import MvrpCmd.
From S2P Require Import Mmrp.
From S2P Require Import MmrpTheory.
From S2P Require Import MmrpEvent.
From S2P Require Import MmrpRecv.
From S2P Require Import MmrpWire.
From S2P Require Import MmrpCmd.
From Stdlib Require Import String.

Open Scope Z_scope.
Local Abbreviation length := List.length.

(** ** Concrete stations *)

Definition resting (v : mmrp_value) (a : applicant_state) (r : registrar_state) : mmrp_attribute :=
  mkMm v (mkApplicant a false SND_NULL ENCODE_OPTIONAL (Some a)) (mkRegistrar r NOTIFY_NONE (replicate 6 0) None).

Definition mm_station (l : list (mmrp_value * applicant_state * registrar_state)) : mmrp_database :=
  mkMmrpDb joining ((fun '(v, a, r) => resting v a r) <$> l) false.

(** The last byte of an address of a block. *)
Definition group (block i : nat) : mmrp_value := MACVEC [0x91; 0xe0; 0xf0; Z.of_nat block; 0x0e; Z.of_nat i].

(** Decidable conditions for [mm_Inv] at a station at rest. *)
Fixpoint ascending (l : list mmrp_value) : bool :=
  match l with
  | v :: ((w :: _) as l') => value_lt v w && ascending l'
  | _ => true
  end.

Definition value_okb (v : mmrp_value) : bool :=
  let byte b := (0 <=? b) && (b <? 256) in
  match v with SVCREQ s => byte s | MACVEC m => forallb byte m && (length m =? 6)%nat end.

Lemma value_okb_ok v : value_okb v = true -> value_ok v.
Proof.
  assert (Hb : forall b, (0 <=? b) && (b <? 256) = true -> is_u8 b).
  { intros b [?%Z.leb_le ?%Z.ltb_lt]%andb_prop. unfold is_u8. lia. }
  destruct v as [s|m]; cbn; [apply Hb|]. intros [Hm Hl%Nat.eqb_eq]%andb_prop. split; [|done].
  apply Forall_forall. intros b Hin. apply Hb. rewrite forallb_forall in Hm. by apply Hm, list_elem_of_In.
Qed.

Lemma ascending_sorted l : Forall value_ok l -> ascending l = true -> StronglySorted vlt l.
Proof.
  intros HF Ha. assert (Hs : forall v l, Forall value_ok (v :: l) -> ascending (v :: l) = true ->
    StronglySorted vlt (v :: l)); [|destruct l; [constructor|by apply Hs]].
  clear. intros v l. revert v. induction l as [|w l IH]; intros v HF Ha; [by repeat constructor|].
  apply andb_prop in Ha as [Hvw Ha]. apply Forall_cons in HF as [Hv HF]. specialize (IH w HF Ha).
  constructor; [done|]. constructor; [done|]. apply StronglySorted_inv in IH as [_ IH].
  apply Forall_cons in HF as [Hw HF]. apply Forall_forall. intros u Hu.
  eapply vlt_trans; [exact Hv|exact Hw| |exact Hvw|].
  - by apply (proj1 (Forall_forall _ _) HF).
  - by apply (proj1 (Forall_forall _ _) IH).
Qed.

Lemma mm_station_Inv l :
  forallb value_okb (l.*1.*1) = true -> ascending (l.*1.*1) = true ->
  forallb (fun v => same_type (default (SVCREQ 0) (head (l.*1.*1))) v) (l.*1.*1) = true ->
  forallb (fun r => negb (bool_decide (r = LV))) (l.*2) = true -> mm_Inv (mm_station l).
Proof.
  intros Hv Ha Ht Hr. rewrite !forallb_forall in *.
  assert (Hvals : mm_value <$> mm_list (mm_station l) = l.*1.*1).
  { cbn. rewrite <- !list_fmap_compose. apply list_fmap_ext. by intros ? [[v a] r] ?. }
  assert (HF : Forall value_ok (l.*1.*1)).
  { apply Forall_forall. intros v Hin. by apply value_okb_ok, Hv, list_elem_of_In. }
  set (v0 := default (SVCREQ 0) (head (l.*1.*1))) in *.
  constructor; [constructor| |done]; cbn [mm_list mm_mrp_db mm_station].
  - pose proof (ascending_sorted _ HF Ha) as Hs. rewrite <- Hvals in Hs, Ht.
    rewrite <- (app_nil_r (_ <$> l)).
    apply (arranged_blocks v0 (if is_svcreq v0 then MACVEC [] else SVCREQ 0)); [by destruct v0| |by repeat constructor].
    split; [|exact Hs]. apply Forall_forall. intros x Hx. apply Ht, list_elem_of_In, list_elem_of_fmap. by exists x.
  - apply Forall_fmap, Forall_forall. intros [[v a] r] Hin. split.
    + apply (proj1 (Forall_forall _ _) HF). apply list_elem_of_fmap. exists (v, a). split; [done|].
      apply list_elem_of_fmap. by exists (v, a, r).
    + split_and!; [cbn; unfold is_u16; lia|by repeat constructor|done|done].
  - apply joining_armed.
  - apply Forall_fmap, Forall_forall. intros [[v a] r] Hin HLV. exfalso. cbn in HLV. subst r.
    assert (Hin2 : In LV (l.*2)) by (apply list_elem_of_In, list_elem_of_fmap; by exists (v, a, LV)).
    specialize (Hr LV Hin2). discriminate Hr.
  - apply Forall_fmap, Forall_forall. by intros [[v a] r] _.
Qed.

(** A station that declares two addresses of one block and one of another. *)
Definition declarer : mmrp_database :=
  mm_station [(group 1 7, VN, MT); (group 1 8, VP, MT); (group 2 1, LA, IN)].

(** A station that has registered the last one. *)
Definition listener : mmrp_database := mm_station [(group 2 1, AO, IN)].

Lemma declarer_Inv : mm_Inv declarer.
Proof. by apply mm_station_Inv. Qed.

Lemma listener_Inv : mm_Inv listener.
Proof. by apply mm_station_Inv. Qed.

(** A local array that happens to hold zeros. *)
Definition zeroed (n : nat) : list Z := [0; 0; 0].

(** ** Events *)

(** C17: [mmrp_event] implements the abstract machine and keeps its database
    consistent.  From a consistent database (the attributes of each type together and
    ascending, timers armed as marked, a leave timer for every leaving attribute, no
    notification pending), any event with a freshly allocated attribute runs without a
    fault, ends in a consistent database with the same clients, and changes the table
    of applicant and registrar states exactly as [mm_spec_event] says.  The expiry of
    the LeaveAll timer needs at most 219 attributes, since its frame ends with an
    unchecked empty LeaveAll. *)
Theorem mmrp_event_refines E p2pmac addr uninit e ro m fr ms :
  timers_ok E -> random_ok E -> length addr = 6%nat ->
  mm_Inv m -> (forall r, ro = Some r -> mm_is_fresh r) -> (e = EVENT_LVATIMER -> mm_fits m) ->
  wp (fun _ => False) (mmrp_event E p2pmac addr uninit e ro)
    (fun _ w => exists m' fr' ms', w = mm_at_db m' fr' ms' /\ mm_Inv m' /\
       mm_table (mm_list m') = mm_spec_event p2pmac e (mm_value <$> ro) (mm_table (mm_list m)) /\
       clients (mm_mrp_db m') = clients (mm_mrp_db m)) (mm_at_db m fr ms).
Proof.
  intros HT HR Ha HI Hro Hf. eapply wp_mono; [by apply mmrp_event_wp|].
  intros z w (m'&fr'&ms'&?&?&?&?&_). by exists m', fr', ms'.
Qed.

Lemma mmrp_event_refines_witness :
  wp (fun _ => False) (mmrp_event os0 1 addr_a zeroed EVENT_LVATIMER None)
    (fun _ w => exists m' fr' ms', w = mm_at_db m' fr' ms' /\ mm_Inv m' /\
       mm_table (mm_list m') = mm_spec_event 1 EVENT_LVATIMER None (mm_table (mm_list declarer)) /\
       clients (mm_mrp_db m') = clients (mm_mrp_db declarer)) (mm_at_db declarer [] []).
Proof.
  refine (mmrp_event_refines os0 1 addr_a zeroed EVENT_LVATIMER None declarer [] [] _ _ _ declarer_Inv _ _).
  - exact (proj1 os0_ok).
  - exact (proj1 (proj2 os0_ok)).
  - reflexivity.
  - discriminate.
  - intros _. unfold mm_fits. cbn. lia.
Defined.

(** Thirteen consecutive addresses and 218 separate ones. *)
Definition crowded : mmrp_database :=
  mm_station (map (fun v => (v, QA, IN))
    (map (group 0) (seq 0 13) ++ map (fun i => group 1 (2 * i)) (seq 0 120) ++ map (fun i => group 2 (2 * i)) (seq 0 98))).

(** The empty LeaveAll for services is not counted.  At a station that declares
    231 addresses the vectors of the addresses end six bytes before the end of the
    2000 byte transmit buffer; the expiry of the LeaveAll timer then appends an empty
    service LeaveAll of seven bytes and writes beyond the end. *)
Theorem mmrp_leaveall_overflows :
  mm_Inv crowded /\ length (mm_list crowded) = 231%nat /\
  mmrp_event os0 1 addr_a zeroed EVENT_LVATIMER None (mm_at_db crowded [] []) = Fault OutOfBounds.
Proof.
  split_and!; [apply mm_station_Inv; vm_compute; reflexivity|vm_compute; reflexivity|vm_compute; reflexivity].
Qed.

(** ** Frames *)

(** [mmrp_recv_msg] is safe on any frame.  Whatever bytes arrive, in any number up
    to eight less than the receive buffer holds, they are parsed without reading outside
    the buffer, every loop ends, and the database is consistent afterwards. *)
Theorem mmrp_recv_msg_safe E p2pmac addr uninit frame m fr ms :
  timers_ok E -> random_ok E -> length addr = 6%nat ->
  mm_Inv m -> bytes frame -> (length frame + 8 <= MAX_FRAME_SIZE)%nat ->
  wp (fun _ => False) (mmrp_recv_msg E p2pmac addr uninit frame)
    (fun _ w => exists m' fr' ms', w = mm_at_db m' fr' ms' /\ mm_Inv m' /\
       clients (mm_mrp_db m') = clients (mm_mrp_db m)) (mm_at_db m fr ms).
Proof.
  intros HT HR Ha HI Hb Hl. eapply wp_mono; [by apply mmrp_recv_msg_wp|].
  intros z w (m'&fr'&ms'&->&HI'&Hc&_). by exists m', fr', ms'.
Qed.

(** A frame that announces 200 addresses and ends. *)
Definition mm_truncated : list Z :=
  MMRP_ADDR ++ addr_b ++ [0x88; 0xf6; 0; 2; 6; 0x00; 0xc8; 0x91; 0xe0].

Lemma mmrp_recv_msg_safe_witness :
  wp (fun _ => False) (mmrp_recv_msg os0 1 addr_a zeroed mm_truncated)
    (fun _ w => exists m' fr' ms', w = mm_at_db m' fr' ms' /\ mm_Inv m' /\
       clients (mm_mrp_db m') = clients (mm_mrp_db declarer)) (mm_at_db declarer [] []).
Proof.
  refine (mmrp_recv_msg_safe os0 1 addr_a zeroed mm_truncated declarer [] [] _ _ _ declarer_Inv _ _).
  - exact (proj1 os0_ok).
  - exact (proj1 (proj2 os0_ok)).
  - reflexivity.
  - unfold mm_truncated. repeat constructor; unfold is_u8; cbn; lia.
  - unfold MAX_FRAME_SIZE. cbn. lia.
Defined.

(** C18: the vectors of a message are applied in order.  A frame with one message of
    any number of well-formed vectors, for services or for addresses, is accepted, and
    each vector applies its LeaveAll to the attributes of its type (for services the
    first one only) and then one event per consecutive value. *)
Theorem mmrp_recv_msg_applies_vectors E p2pmac addr uninit src svc gs m fr ms :
  station E addr -> length src = 6%nat -> bytes src ->
  mm_Inv m -> Forall (vector_ok svc) gs -> (length (mm_pdu src svc gs) <= MAX_FRAME_SIZE)%nat ->
  wp (fun _ => False) (mmrp_recv_msg E p2pmac addr uninit (mm_pdu src svc gs))
    (fun rc w => rc = 0 /\ exists m' fr' ms', w = mm_at_db m' fr' ms' /\ mm_Inv m' /\
       mm_table (mm_list m') = mm_rx_vectors p2pmac svc gs false (mm_table (mm_list m))) (mm_at_db m fr ms).
Proof.
  intros [HT HR HM Ha _] Hls Hsrc HI HF Hlen.
  eapply wp_mono; [by apply (mm_recv_pdu_wp E p2pmac addr uninit HT HR HM Ha src Hsrc Hls svc)|].
  intros rc w (->&m'&fr'&ms'&->&(HI'&_&_)&Ht). split; [done|]. by exists m', fr', ms'.
Qed.

(** New and JoinMt for two addresses and Leave for a third. *)
Definition sent_vectors : list mm_vector :=
  [mkMmVector false (group 1 7) [0; 3]; mkMmVector false (group 2 1) [5]].

Lemma mmrp_recv_msg_applies_vectors_witness :
  wp (fun _ => False) (mmrp_recv_msg os0 1 addr_b zeroed (mm_pdu addr_a false sent_vectors))
    (fun rc w => rc = 0 /\ exists m' fr' ms', w = mm_at_db m' fr' ms' /\ mm_Inv m' /\
       mm_table (mm_list m') = mm_rx_vectors 1 false sent_vectors false (mm_table (mm_list listener)))
    (mm_at_db listener [] []).
Proof.
  refine (mmrp_recv_msg_applies_vectors os0 1 addr_b zeroed addr_a false sent_vectors listener [] []
            addr_b_ok _ _ listener_Inv _ _).
  - reflexivity.
  - exact (st_bytes _ _ addr_a_ok).
  - repeat apply Forall_cons_2; [..|constructor];
      (split_and!; [by apply value_okb_ok|done|by repeat constructor|cbn; lia|cbn; lia]).
  - apply Nat.leb_le. vm_compute. reflexivity.
Defined.

Definition states (w : mmrp_world) : list (mmrp_value * applicant_state * registrar_state) :=
  match MMRP_db w with
  | MmDb m => map (fun x => (mm_value x, app_state (mm_applicant x), reg_state (mm_registrar x))) (mm_list m)
  | _ => []
  end.

(** The frames of an event at one station, received by another: the results of
    [mmrp_recv_msg] and the states of the receiver's attributes. *)
Definition mm_exchange (e : mrp_event) (lA lB : list (mmrp_value * applicant_state * registrar_state))
  : outcome (list (Z * list (mmrp_value * applicant_state * registrar_state))) :=
  '(_, wA) ← mmrp_event os0 1 addr_a zeroed e None (mm_at_db (mm_station lA) [] []);
  mapM (fun frame => '(rc, wB) ← mmrp_recv_msg os0 1 addr_b zeroed frame (mm_at_db (mm_station lB) [] []);
                     Ok (rc, states wB)) (mm_frames wA).

(** A service is not withdrawn.  [mmrp_emit_svcvectors] puts the events of a vector
    two bytes behind the service, [mmrp_recv_msg] looks for them one byte behind: a
    station that withdraws a service is understood to declare it, so the peer keeps the
    registration, and then rejects the rest of the frame.  The same exchange for an
    address withdraws it. *)
Theorem mmrp_service_withdrawal_lost :
  mm_exchange EVENT_TX [(SVCREQ 1, LA, MT)] [(SVCREQ 1, AO, IN)] = Ok [(-1, [(SVCREQ 1, AO, IN)])] /\
  mm_exchange EVENT_TX [(group 1 1, LA, MT)] [(group 1 1, AO, IN)] = Ok [(0, [(group 1 1, LO, LV)])].
Proof. split; vm_compute; reflexivity. Qed.

(** A LeaveAll undoes the declarations of its own frame.  [mmrp_emit_macvectors]
    sets the LeaveAll flag in every vector and [mmrp_recv_msg] applies it each time, so
    when a station that declares two addresses sends a LeaveAll, the peer is left
    leaving the first one although the frame declares both.  (The result is -1: the
    empty service LeaveAll at the end of the frame is taken for malformed.) *)
Theorem mmrp_leaveall_undoes_declarations :
  mm_exchange EVENT_LVATIMER [(group 1 1, QA, MT); (group 1 7, QA, MT)]
    [(group 1 1, AO, IN); (group 1 7, AO, IN)]
  = Ok [(-1, [(group 1 1, LO, LV); (group 1 7, VO, IN)])].
Proof. vm_compute. reflexivity. Qed.

(** ** Commands *)

(** Commands take effect.  The texts M++:, M+?: and M--: followed by S= and a
    service number or M= and the twelve hexadecimal digits of an address,
    zero-terminated, make the client known and apply exactly the New, Join or Leave
    event to that attribute; and no text that ends within the receive buffer makes
    [mmrp_recv_cmd] fault or leaves the database inconsistent while it has at most 44 attributes. *)
Theorem mmrp_command_effect E p2pmac addr uninit op e v pad text client m fr ms :
  station E addr -> mm_Inv m -> mm_op op e -> value_ok v ->
  wp (fun _ => False) (mmrp_recv_cmd E p2pmac addr uninit (mm_command op v pad) client)
    (fun rc w => rc = 0 /\ exists m' fr' ms', w = mm_at_db m' fr' ms' /\ mm_Inv m' /\
       client_lookup (clients (mm_mrp_db m')) (Some client) = true /\
       mm_table (mm_list m') = mm_spec_event p2pmac e (Some v) (mm_table (mm_list m))) (mm_at_db m fr ms) /\
  ((length (mm_list m) <= 44)%nat -> terminated MAX_MRPD_CMDSZ text = true ->
   wp (fun _ => False) (mmrp_recv_cmd E p2pmac addr uninit text client)
     (fun _ w => exists m' fr' ms', w = mm_at_db m' fr' ms' /\ mm_Inv m') (mm_at_db m fr ms)).
Proof.
  intros [HT HR HM Ha _] HI Hop Hv. split.
  - eapply wp_mono; [by apply (mm_recv_command_wp E p2pmac addr uninit HT HR Ha op e)|].
    intros rc w (->&m'&fr'&ms'&->&?&_&?&?). split; [done|]. by exists m', fr', ms'.
  - intros Hn Hb. eapply wp_mono; [apply mmrp_recv_cmd_wp; try done; unfold MAX_MRPD_CMDSZ; lia|].
    intros z w (m'&fr'&ms'&?&?&_). by exists m', fr', ms'.
Qed.

Lemma mmrp_command_effect_witness :
  wp (fun _ => False) (mmrp_recv_cmd os0 1 addr_b zeroed (mm_command "M--:" (group 2 1) 3) (mkSockaddr 2 7500 1 []))
    (fun rc w => rc = 0 /\ exists m' fr' ms', w = mm_at_db m' fr' ms' /\ mm_Inv m' /\
       client_lookup (clients (mm_mrp_db m')) (Some (mkSockaddr 2 7500 1 [])) = true /\
       mm_table (mm_list m') = mm_spec_event 1 EVENT_LV (Some (group 2 1)) (mm_table (mm_list listener)))
    (mm_at_db listener [] []).
Proof.
  refine (proj1 (mmrp_command_effect os0 1 addr_b zeroed "M--:" EVENT_LV (group 2 1) 3 [] (mkSockaddr 2 7500 1 [])
            listener [] [] addr_b_ok listener_Inv mm_op_leave _)).
  by apply value_okb_ok.
Defined.
