(* ===== verification/EuiSet.v ===== *)
(** * Sets of stream identifiers

    Model of daemons/common/eui64set.c: a bounded array of entries, kept sorted so that
    it can be searched.  [qsort] and [bsearch] of the C library are a class with the
    laws of the C standard, which leave the order of equal entries and the choice among
    them open; an instance shows that the laws can hold. *)

From stdpp Require Import gmultiset.
From S2P Require Import Prelude.

Open Scope Z_scope.
Local Abbreviation length := List.length.

(** ** The C library *)

(** A comparison function [qsort] may be called with. *)
Definition consistent {A} (cmp : A -> A -> Z) : Prop :=
  (forall x y, cmp x y <= 0 \/ cmp y x <= 0) /\ (forall x y z, cmp x y <= 0 -> cmp y z <= 0 -> cmp x z <= 0).

(** An array [bsearch] may be called with: the key is greater than a first part, equal
    to a second and less than a third. *)
Definition partitioned {A} (cmp : A -> A -> Z) (key : A) (l : list A) : Prop :=
  forall i j x y, (i < j)%nat -> l !! i = Some x -> l !! j = Some y ->
    (cmp key x < 0 -> cmp key y < 0) /\ (0 < cmp key y -> 0 < cmp key x).

Class CSort : Type := {
  qsort : forall {A}, (A -> A -> Z) -> list A -> list A;
  bsearch : forall {A}, (A -> A -> Z) -> A -> list A -> option nat;
  qsort_permutation : forall {A} (cmp : A -> A -> Z) l, qsort cmp l ≡ₚ l;
  qsort_sorted : forall {A} (cmp : A -> A -> Z) l,
    consistent cmp -> StronglySorted (fun x y => cmp x y <= 0) (qsort cmp l);
  bsearch_spec : forall {A} (cmp : A -> A -> Z) key l, partitioned cmp key l ->
    match bsearch cmp key l with
    | Some i => exists x, l !! i = Some x /\ cmp key x = 0
    | None => Forall (fun x => cmp key x <> 0) l
    end
}.

(** ** The set *)

(** [ep] is null or a block of the heap. *)
Record eui64set_entry : Type := mkEntry { eui64 : Z; ep : option nat }.

(** The storage of a set: absent, released or an array. *)
Inductive eui_storage : Type := NoStorage | FreedStorage | Storage (l : list eui64set_entry).

Record eui64set : Type := mkSet { storage : eui_storage; num_entries : Z; max_entries : Z }.

Definition eui64_read (b : list Z) : outcome Z :=
  b ← read_bytes b 0 8;
  Ok (u64 (foldl (fun v '(i, x) => v + Z.shiftl x (56 - 8 * Z.of_nat i)) 0 (zip (seq 0 8) b))).

Definition eui64_write (v : Z) : list Z := map (fun i => u8 (Z.land (Z.shiftr v (56 - 8 * Z.of_nat i)) 255)) (seq 0 8).

Definition eui64set_compare (lhs rhs : eui64set_entry) : Z :=
  if eui64 lhs <? eui64 rhs then -1 else if eui64 rhs <? eui64 lhs then 1 else 0.

(** [calloc]: whether the allocation succeeds. *)
Definition eui64set_init (max : Z) (calloc : bool) : Z * eui64set :=
  if 0 <? max then
    if calloc then (0, mkSet (Storage (replicate (Z.to_nat max) (mkEntry 0 None))) 0 max)
    else (-1, mkSet NoStorage 0 max)
  else (0, mkSet NoStorage 0 max).

Definition eui64set_free (self : option eui64set) : option eui64set :=
  match self with
  | Some s => Some (mkSet (match storage s with NoStorage => NoStorage | _ => FreedStorage end)
                      (num_entries s) (max_entries s))
  | None => None
  end.

Definition eui64set_clear (s : eui64set) : eui64set := mkSet (storage s) 0 (max_entries s).
Definition eui64set_num_entries (s : eui64set) : Z := num_entries s.
Definition eui64set_is_full (s : eui64set) : Z := if max_entries s <=? num_entries s then 1 else 0.

Definition eui64set_insert (s : eui64set) (value : Z) (p : option nat) : outcome (Z * eui64set) :=
  if num_entries s <? max_entries s then
    match storage s with
    | NoStorage => Fault NullDeref
    | FreedStorage => Fault WildPointer
    | Storage l =>
        if decide (Z.to_nat (num_entries s) < length l)%nat then
          Ok (1, mkSet (Storage (<[Z.to_nat (num_entries s) := mkEntry value p]> l)) (num_entries s + 1) (max_entries s))
        else Fault OutOfBounds
    end
  else Ok (0, s).

Section Sets.
Context {C : CSort}.

(** The entries that are sorted and searched; nothing is read of an empty set. *)
Definition entries (s : eui64set) : outcome (list eui64set_entry) :=
  match storage s with
  | Storage l => if decide (Z.to_nat (num_entries s) <= length l)%nat then Ok (take (Z.to_nat (num_entries s)) l)
                 else Fault OutOfBounds
  | NoStorage => if num_entries s =? 0 then Ok [] else Fault NullDeref
  | FreedStorage => Fault WildPointer
  end.

(** Writes the entries back. *)
Definition put_entries (l : list eui64set_entry) (s : eui64set) : eui64set :=
  mkSet (match storage s with Storage l0 => Storage (l ++ drop (length l) l0) | st => st end)
    (num_entries s) (max_entries s).

Definition eui64set_sort (s : eui64set) : outcome eui64set :=
  l ← entries s; Ok (put_entries (qsort eui64set_compare l) s).

Definition eui64set_insert_and_sort (s : eui64set) (value : Z) (p : option nat) : outcome (Z * eui64set) :=
  '(r, s) ← eui64set_insert s value p;
  if r =? 1 then s ← eui64set_sort s; Ok (r, s) else Ok (r, s).

Definition eui64set_find (s : eui64set) (value : Z) : outcome (option eui64set_entry) :=
  l ← entries s;
  Ok (match bsearch eui64set_compare (mkEntry value None) l with Some i => l !! i | None => None end).

(** Result, set and the block that is released. *)
Definition eui64set_remove_and_sort (s : eui64set) (value : Z) : outcome (Z * eui64set * option nat) :=
  l ← entries s;
  match bsearch eui64set_compare (mkEntry value None) l with
  | None => Ok (0, s, None)
  | Some i =>
      let p := match l !! i with Some x => ep x | None => None end in
      s ← eui64set_sort (put_entries (<[i := mkEntry (2 ^ 64 - 1) p]> l) s);
      Ok (1, mkSet (storage s) (num_entries s - 1) (max_entries s), p)
  end.

End Sets.

(** ** An instance of the library *)

Definition cmp_le {A} (cmp : A -> A -> Z) : relation A := fun x y => cmp x y <= 0.

#[global] Instance cmp_le_dec {A} (cmp : A -> A -> Z) : RelDecision (cmp_le cmp).
Proof. intros x y. unfold cmp_le. apply _. Defined.

(** The [n] elements from [lo] on are left. *)
Fixpoint bsearch_loop {A} (cmp : A -> A -> Z) (key : A) (l : list A) (fuel lo n : nat) : option nat :=
  match fuel with
  | O => None
  | S fuel =>
      match l !! (lo + n / 2)%nat with
      | Some x =>
          if (n =? 0)%nat then None
          else if cmp key x =? 0 then Some (lo + n / 2)%nat
          else if cmp key x <? 0 then bsearch_loop cmp key l fuel lo (n / 2)
          else bsearch_loop cmp key l fuel (lo + n / 2 + 1) (n - n / 2 - 1)
      | None => None
      end
  end.

Lemma bsearch_loop_spec {A} (cmp : A -> A -> Z) key l fuel : forall lo n,
  partitioned cmp key l -> (n < fuel)%nat -> (lo + n <= length l)%nat ->
  (forall i x, (i < lo)%nat -> l !! i = Some x -> 0 < cmp key x) ->
  (forall i x, (lo + n <= i)%nat -> l !! i = Some x -> cmp key x < 0) ->
  match bsearch_loop cmp key l fuel lo n with
  | Some i => exists x, l !! i = Some x /\ cmp key x = 0
  | None => forall i x, l !! i = Some x -> cmp key x <> 0
  end.
Proof.
  induction fuel as [|fuel IH]; intros lo n Hp Hf Hlen Hlo Hhi; [lia|]. cbn [bsearch_loop].
  assert (Hempty : n = 0%nat -> forall i x, l !! i = Some x -> cmp key x <> 0).
  { intros -> i x Hx. destruct (decide (i < lo)%nat) as [Hi|Hi]; [specialize (Hlo _ _ Hi Hx); lia|].
    specialize (Hhi i x ltac:(lia) Hx). lia. }
  pose proof (Nat.div_lt n 2) as Hd. destruct (l !! (lo + n / 2)%nat) as [x|] eqn:Hx.
  2:{ apply lookup_ge_None in Hx. apply Hempty. destruct n; [done|]. specialize (Hd ltac:(lia) ltac:(lia)). lia. }
  destruct (Nat.eqb_spec n 0) as [Hn|Hn]; [by apply Hempty|]. specialize (Hd ltac:(lia) ltac:(lia)).
  destruct (Z.eqb_spec (cmp key x) 0) as [He|He]; [by exists x|].
  assert (Hpart : forall i y, l !! i = Some y ->
    ((lo + n / 2 <= i)%nat -> cmp key x < 0 -> cmp key y < 0) /\ ((i <= lo + n / 2)%nat -> 0 < cmp key x -> 0 < cmp key y)).
  { intros i y Hy. destruct (decide (i = lo + n / 2)%nat) as [->|Hne]; [by simplify_eq|].
    split; intros Hi Hc; [apply (Hp (lo + n / 2)%nat i x y)|apply (Hp i (lo + n / 2)%nat y x)]; try done; lia. }
  destruct (Z.ltb_spec (cmp key x) 0) as [Hlt|Hge]; apply IH; try done; try lia.
  - intros i y Hi Hy. by apply (proj1 (Hpart i y Hy)).
  - intros i y Hi Hy. apply (proj2 (Hpart i y Hy)); lia.
  - intros i y Hi Hy. apply (Hhi i y); [lia|done].
Qed.

Lemma merge_sort_sorted {A} (cmp : A -> A -> Z) l :
  consistent cmp -> StronglySorted (fun x y => cmp x y <= 0) (merge_sort (cmp_le cmp) l).
Proof.
  intros [Ht Hr]. assert (Total (cmp_le cmp)) by exact Ht. assert (Transitive (cmp_le cmp)) by exact Hr.
  apply (StronglySorted_merge_sort (cmp_le cmp)).
Qed.

Lemma bsearch_loop_array {A} (cmp : A -> A -> Z) key l :
  partitioned cmp key l ->
  match bsearch_loop cmp key l (S (length l)) 0 (length l) with
  | Some i => exists x, l !! i = Some x /\ cmp key x = 0
  | None => Forall (fun x => cmp key x <> 0) l
  end.
Proof.
  intros Hp. pose proof (bsearch_loop_spec cmp key l (S (length l)) 0 (length l) Hp ltac:(lia) ltac:(lia)) as H.
  destruct (bsearch_loop _ _ _ _ _ _) as [i|]; [apply H|apply Forall_lookup; apply H]; clear;
    intros j x Hj Hx; try lia; apply lookup_lt_Some in Hx; lia.
Qed.

#[global] Instance merge_sort_library : CSort := {
  qsort _ cmp l := merge_sort (cmp_le cmp) l;
  bsearch _ cmp key l := bsearch_loop cmp key l (S (length l)) 0 (length l);
  qsort_permutation _ cmp l := merge_sort_Permutation (cmp_le cmp) l;
  qsort_sorted _ := merge_sort_sorted;
  bsearch_spec _ := bsearch_loop_array
}.

(** ** Comparison *)

Lemma compare_sign x y :
  (eui64set_compare x y < 0 <-> eui64 x < eui64 y) /\ (0 < eui64set_compare x y <-> eui64 y < eui64 x) /\
  (eui64set_compare x y = 0 <-> eui64 x = eui64 y) /\ (eui64set_compare x y <= 0 <-> eui64 x <= eui64 y).
Proof.
  unfold eui64set_compare. destruct (Z.ltb_spec (eui64 x) (eui64 y)), (Z.ltb_spec (eui64 y) (eui64 x)); lia.
Qed.

Lemma compare_consistent : consistent eui64set_compare.
Proof.
  split.
  - intros x y. rewrite !(proj2 (proj2 (proj2 (compare_sign _ _)))). lia.
  - intros x y z. rewrite !(proj2 (proj2 (proj2 (compare_sign _ _)))). lia.
Qed.

Definition in_order (l : list eui64set_entry) : Prop := StronglySorted Z.le (eui64 <$> l).

Lemma in_order_partitioned key l : in_order l -> partitioned eui64set_compare key l.
Proof.
  intros Hs i j x y Hij Hx Hy. assert (Hle : eui64 x <= eui64 y).
  { apply (StronglySorted_app_1_elem_of Z.le (take j (eui64 <$> l)) (drop j (eui64 <$> l))).
    - by rewrite take_drop.
    - apply (list_elem_of_lookup_2 _ i). rewrite lookup_take_lt, list_lookup_fmap, Hx by done. done.
    - apply (list_elem_of_lookup_2 _ 0). rewrite lookup_drop, Nat.add_0_r, list_lookup_fmap, Hy. done. }
  pose proof (compare_sign key x). pose proof (compare_sign key y). lia.
Qed.

(** ** The set as a multiset of keys *)

Definition keys (l : list eui64set_entry) : gmultiset Z := list_to_set_disj (eui64 <$> l).

#[global] Instance keys_proper : Proper ((≡ₚ) ==> (=)) keys.
Proof. intros l l' Hl. unfold keys. by rewrite Hl. Qed.

Lemma keys_app l l' : keys (l ++ l') = keys l ⊎ keys l'.
Proof. unfold keys. by rewrite fmap_app, list_to_set_disj_app. Qed.

Lemma keys_cons x l : keys (x :: l) = {[+ eui64 x +]} ⊎ keys l.
Proof. unfold keys. by rewrite fmap_cons, list_to_set_disj_cons. Qed.

Lemma elem_of_keys v l : v ∈ keys l <-> exists x, x ∈ l /\ eui64 x = v.
Proof.
  unfold keys. rewrite elem_of_list_to_set_disj, list_elem_of_fmap. split; intros (x&H1&H2); exists x; done.
Qed.

Lemma size_keys l : size (keys l) = length l.
Proof.
  induction l as [|x l IH]; [done|]. rewrite keys_cons.
  rewrite gmultiset_size_disj_union, gmultiset_size_singleton, IH. done.
Qed.

(** The representation: [l] are the entries in use. *)
Record shaped (s : eui64set) (l : list eui64set_entry) : Prop := {
  shaped_num : num_entries s = Z.of_nat (length l);
  shaped_storage : match storage s with
                   | Storage l0 => Z.of_nat (length l0) = max_entries s /\ take (length l) l0 = l
                   | NoStorage => max_entries s <= 0 /\ l = []
                   | FreedStorage => False
                   end
}.

Definition holds (s : eui64set) (l : list eui64set_entry) : Prop :=
  shaped s l /\ in_order l /\ Forall (fun x => is_u64 (eui64 x)) l.

Lemma entries_shaped s l : shaped s l -> entries s = Ok l.
Proof.
  intros [Hn Hst]. unfold entries. destruct (storage s) as [| |l0]; [|done|].
  - destruct Hst as [_ ->]. by rewrite Hn.
  - destruct Hst as [Hl Ht]. rewrite Hn, Nat2Z.id. rewrite decide_True; [by rewrite Ht|].
    rewrite <- Ht, length_take. lia.
Qed.

Lemma put_entries_shaped s l l' : shaped s l -> length l' = length l -> shaped (put_entries l' s) l'.
Proof.
  intros [Hn Hst] Hl. constructor; cbn; [by rewrite Hl|]. destruct (storage s) as [| |l0]; [|done|].
  - destruct Hst as [? ->]. by destruct l'.
  - destruct Hst as [Hl0 Ht]. assert (length l <= length l0)%nat by (rewrite <- Ht, length_take; lia).
    rewrite length_app, length_drop, Hl, <- Hl, take_app_length. split; [lia|done].
Qed.

Lemma insert_spec s l v p :
  shaped s l ->
  if Z.of_nat (length l) <? max_entries s
  then exists s', eui64set_insert s v p = Ok (1, s') /\ shaped s' (l ++ [mkEntry v p]) /\ max_entries s' = max_entries s
  else eui64set_insert s v p = Ok (0, s).
Proof.
  intros [Hn Hst]. unfold eui64set_insert. rewrite Hn.
  destruct (Z.ltb_spec (Z.of_nat (length l)) (max_entries s)) as [Hlt|]; [|done].
  destruct (storage s) as [| |l0]; [lia|done|]. destruct Hst as [Hl0 Ht]. rewrite Nat2Z.id, decide_True by lia.
  eexists. split; [done|]. split; [|done]. constructor; cbn; [rewrite length_app; cbn; lia|].
  rewrite length_insert. split; [done|]. rewrite insert_take_drop by lia. rewrite Ht.
  set (D := drop _ _). replace (l ++ mkEntry v p :: D) with ((l ++ [mkEntry v p]) ++ D) by (by rewrite <- (assoc_L (++))).
  apply take_app_length.
Qed.

Section SetTheory.
Context {C : CSort}.

Lemma sort_spec s l :
  shaped s l -> exists s' l', eui64set_sort s = Ok s' /\ shaped s' l' /\ in_order l' /\ l' ≡ₚ l /\
    max_entries s' = max_entries s /\ num_entries s' = num_entries s.
Proof using.
  intros Hs. unfold eui64set_sort. rewrite (entries_shaped _ _ Hs). cbn_outcome.
  pose proof (qsort_permutation eui64set_compare l) as Hp.
  eexists _, (qsort eui64set_compare l). split; [done|]. split_and!; [|..|done|done|done].
  - apply (put_entries_shaped s l); [done|]. by apply Permutation_length.
  - unfold in_order. apply (StronglySorted_fmap _ (fun x y => eui64set_compare x y <= 0)); [|by apply qsort_sorted, compare_consistent].
    intros x y. by rewrite (proj2 (proj2 (proj2 (compare_sign x y)))).
Qed.

(** A search in the entries of a set. *)
Lemma bsearch_entries l v :
  in_order l ->
  match bsearch eui64set_compare (mkEntry v None) l with
  | Some i => exists x, l !! i = Some x /\ eui64 x = v
  | None => v ∉ keys l
  end.
Proof using.
  intros Ho. pose proof (bsearch_spec eui64set_compare (mkEntry v None) l (in_order_partitioned _ l Ho)) as H.
  destruct (bsearch _ _ _) as [i|].
  - destruct H as (x&Hx&Hc). exists x. split; [done|]. apply compare_sign in Hc. done.
  - rewrite elem_of_keys. intros (x&Hx&<-). apply (proj1 (Forall_forall _ _) H x Hx). apply compare_sign. done.
Qed.

(** The released entry ends up last, among the entries with the highest value. *)
Lemma drop_last l l1 i x :
  in_order l1 -> Forall (fun x => is_u64 (eui64 x)) l -> l !! i = Some x ->
  l1 ≡ₚ <[i := mkEntry (2 ^ 64 - 1) (ep x)]> l ->
  exists l2 y, l1 = l2 ++ [y] /\ in_order l2 /\ Forall (fun x => is_u64 (eui64 x)) l2 /\
    keys l2 = keys l ∖ {[+ eui64 x +]}.
Proof using.
  intros Ho Hu Hx Hp. pose proof (lookup_lt_Some _ _ _ Hx) as Hi. rewrite insert_take_drop in Hp by done.
  pose proof (take_drop_middle l i x Hx) as Hl. set (A := take i l) in *. set (B := drop (S i) l) in *.
  assert (HuAB : Forall (fun x => is_u64 (eui64 x)) (A ++ B)).
  { rewrite <- Hl in Hu. apply Forall_app in Hu as [? [_ ?]%Forall_cons]. by apply Forall_app. }
  set (top := mkEntry (2 ^ 64 - 1) (ep x)) in *. rewrite <- Permutation_middle in Hp.
  destruct l1 as [|y l2 _] using rev_ind; [by apply Permutation_nil_l in Hp|]. exists l2, y.
  unfold in_order in Ho. rewrite fmap_app in Ho. apply StronglySorted_app in Ho as (Hle&Ho2&_).
  assert (Hall : Forall (fun x => is_u64 (eui64 x)) (l2 ++ [y])).
  { rewrite Hp. constructor; [unfold top, is_u64; cbn; lia|done]. }
  apply Forall_app in Hall as [Hu2 [Hy _]%Forall_cons].
  assert (Htop : eui64 y = eui64 top).
  { assert (Hin : top ∈ l2 ++ [y]) by (rewrite Hp; left). apply elem_of_app in Hin as [Hin|Hin%list_elem_of_singleton]; [|by rewrite Hin].
    assert (eui64 top <= eui64 y) by (apply Hle; [by apply list_elem_of_fmap_2|left]).
    unfold is_u64 in Hy. unfold top in *. cbn in *. lia. }
  split_and!; [done..|]. assert (Hk : {[+ eui64 top +]} ⊎ keys l2 = {[+ eui64 top +]} ⊎ keys (A ++ B)).
  { transitivity (keys (l2 ++ [y])); [|by rewrite Hp, keys_cons].
    rewrite keys_app, keys_cons, Htop. change (keys []) with (∅ : gmultiset Z). multiset_solver. }
  apply (inj _) in Hk. rewrite Hk, <- Hl, <- Permutation_middle, keys_cons. multiset_solver.
Qed.

(** ** Operations on a set and on the multiset it stands for *)

Inductive eui_op : Type :=
  | OpInsert (v : Z) (p : option nat)
  | OpRemove (v : Z)
  | OpFind (v : Z)
  | OpClear
  | OpFull
  | OpCount.

Definition op_ok (o : eui_op) : Prop :=
  match o with OpInsert v _ | OpRemove v | OpFind v => is_u64 v | _ => True end.

Definition eui_step (s : eui64set) (o : eui_op) : outcome (Z * eui64set) :=
  match o with
  | OpInsert v p => eui64set_insert_and_sort s v p
  | OpRemove v => '(r, s, _) ← eui64set_remove_and_sort s v; Ok (r, s)
  | OpFind v => r ← eui64set_find s v; Ok (match r with Some _ => 1 | None => 0 end, s)
  | OpClear => Ok (0, eui64set_clear s)
  | OpFull => Ok (eui64set_is_full s, s)
  | OpCount => Ok (eui64set_num_entries s, s)
  end.

Definition spec_step (cap : Z) (X : gmultiset Z) (o : eui_op) : Z * gmultiset Z :=
  match o with
  | OpInsert v _ => if Z.of_nat (size X) <? cap then (1, {[+ v +]} ⊎ X) else (0, X)
  | OpRemove v => if decide (v ∈ X) then (1, X ∖ {[+ v +]}) else (0, X)
  | OpFind v => (if decide (v ∈ X) then 1 else 0, X)
  | OpClear => (0, ∅)
  | OpFull => (if cap <=? Z.of_nat (size X) then 1 else 0, X)
  | OpCount => (Z.of_nat (size X), X)
  end.

Fixpoint eui_run (s : eui64set) (os : list eui_op) : outcome (list Z * eui64set) :=
  match os with
  | [] => Ok ([], s)
  | o :: os' => '(r, s) ← eui_step s o; '(rs, s) ← eui_run s os'; Ok (r :: rs, s)
  end.

Fixpoint spec_run (cap : Z) (X : gmultiset Z) (os : list eui_op) : list Z * gmultiset Z :=
  match os with
  | [] => ([], X)
  | o :: os' => let '(r, X) := spec_step cap X o in let '(rs, X) := spec_run cap X os' in (r :: rs, X)
  end.

Lemma insert_step s l v p :
  holds s l -> is_u64 v ->
  exists r s' l', eui64set_insert_and_sort s v p = Ok (r, s') /\ holds s' l' /\ max_entries s' = max_entries s /\
    (r, keys l') = spec_step (max_entries s) (keys l) (OpInsert v p).
Proof using.
  intros (Hs&Ho&Hu) Hv. unfold eui64set_insert_and_sort. cbn [spec_step]. rewrite size_keys.
  pose proof (insert_spec s l v p Hs) as Hi. destruct (Z.of_nat (length l) <? max_entries s).
  - destruct Hi as (s1&->&Hs1&Hm1). cbn_outcome. cbn [Z.eqb Pos.eqb].
    destruct (sort_spec s1 _ Hs1) as (s2&l2&->&Hs2&Ho2&Hp2&Hm2&_). cbn_outcome.
    exists 1, s2, l2. split_and!; [done|..|congruence|].
    + split_and!; [done..|]. rewrite Hp2. apply Forall_app. split; [done|]. by constructor.
    + rewrite Hp2, keys_app, keys_cons. change (keys []) with (∅ : gmultiset Z). f_equal. multiset_solver.
  - rewrite Hi. cbn_outcome. by exists 0, s, l.
Qed.

Lemma remove_step s l v :
  holds s l -> is_u64 v ->
  exists r s' q l', eui64set_remove_and_sort s v = Ok (r, s', q) /\ holds s' l' /\ max_entries s' = max_entries s /\
    (r, keys l') = spec_step (max_entries s) (keys l) (OpRemove v).
Proof using.
  intros (Hs&Ho&Hu) Hv. unfold eui64set_remove_and_sort. rewrite (entries_shaped _ _ Hs). cbn_outcome. cbn [spec_step].
  pose proof (bsearch_entries l v Ho) as Hb. destruct (bsearch _ _ _) as [i|].
  2:{ exists 0, s, None, l. by rewrite decide_False. }
  destruct Hb as (x&Hx&<-). rewrite Hx. set (l1 := <[i := _]> l).
  assert (Hs1 : shaped (put_entries l1 s) l1) by (apply (put_entries_shaped s l); [done|apply length_insert]).
  destruct (sort_spec _ _ Hs1) as (s2&l2&->&Hs2&Ho2&Hp2&Hm2&Hn2). cbn_outcome.
  destruct (drop_last l l2 i x Ho2 Hu Hx Hp2) as (l3&y&->&Ho3&Hu3&Hk3).
  exists 1, (mkSet (storage s2) (num_entries s2 - 1) (max_entries s2)), (ep x), l3.
  assert (Hin : eui64 x ∈ keys l) by (apply elem_of_keys; exists x; split; [by eapply list_elem_of_lookup_2|done]).
  rewrite decide_True by done. split_and!; [done| |done|by rewrite Hk3]. split_and!; [|done..].
  destruct Hs2 as [Hnum Hst]. constructor; cbn; [rewrite Hnum, length_app; cbn; lia|].
  destruct (storage s2) as [| |l0]; [destruct Hst as [_ Hnil]; by destruct l3|done|].
  destruct Hst as [Hl0 Ht]. split; [done|]. rewrite length_app in Ht. cbn in Ht.
  rewrite <- (take_app_length l3 [y]) at 2. rewrite <- Ht. rewrite take_take. f_equal. lia.
Qed.

Lemma eui_step_refines s l o :
  holds s l -> op_ok o ->
  exists r s' l', eui_step s o = Ok (r, s') /\ holds s' l' /\ max_entries s' = max_entries s /\
    (r, keys l') = spec_step (max_entries s) (keys l) o.
Proof using.
  intros Hh Hok. pose proof Hh as (Hs&Ho&Hu). destruct o as [v p|v|v| | |]; cbn [eui_step].
  - by apply insert_step.
  - destruct (remove_step s l v Hh Hok) as (r&s'&q&l'&->&?&?&?). cbn_outcome. by exists r, s', l'.
  - unfold eui64set_find. rewrite (entries_shaped _ _ Hs). cbn_outcome. cbn [spec_step].
    pose proof (bsearch_entries l v Ho) as Hb. exists (if decide (v ∈ keys l) then 1 else 0), s, l.
    split_and!; [|done..]. destruct (bsearch _ _ _) as [i|]; [|by rewrite decide_False].
    destruct Hb as (x&Hx&<-). rewrite Hx, decide_True; [done|]. apply elem_of_keys. exists x.
    split; [by eapply list_elem_of_lookup_2|done].
  - exists 0, (eui64set_clear s), []. split_and!; [done| |done|done]. split_and!; [|constructor|constructor].
    destruct Hs as [Hn Hst]. constructor; cbn; [done|]. destruct (storage s); [|done|]; by destruct Hst.
  - eexists _, s, l. split_and!; [done..|]. cbn [spec_step]. unfold eui64set_is_full.
    by rewrite size_keys, (shaped_num _ _ Hs).
  - eexists _, s, l. split_and!; [done..|]. cbn [spec_step]. unfold eui64set_num_entries.
    by rewrite size_keys, (shaped_num _ _ Hs).
Qed.

Lemma eui_run_refines os : forall s l,
  holds s l -> Forall op_ok os ->
  exists s' l', eui_run s os = Ok (fst (spec_run (max_entries s) (keys l) os), s') /\ holds s' l' /\
    keys l' = snd (spec_run (max_entries s) (keys l) os).
Proof using.
  induction os as [|o os IH]; intros s l Hh HF; cbn [eui_run spec_run]; [by exists s, l|].
  apply Forall_cons in HF as [Ho HF]. destruct (eui_step_refines s l o Hh Ho) as (r&s1&l1&->&Hh1&Hm&He).
  cbn_outcome. destruct (spec_step _ _ _) as [r0 X]. injection He as <- <-.
  destruct (IH s1 l1 Hh1 HF) as (s2&l2&->&Hh2&Hk). rewrite Hm in *. cbn_outcome.
  exists s2, l2. by destruct (spec_run _ _ _).
Qed.

Lemma init_holds max : holds (snd (eui64set_init max true)) [] /\ max_entries (snd (eui64set_init max true)) = max.
Proof using.
  unfold eui64set_init. destruct (Z.ltb_spec 0 max); (split; [|done]); (split_and!; [|constructor..]);
    (constructor; cbn; [done|]); [|done]. rewrite length_replicate. split; [lia|done].
Qed.

End SetTheory.

(** ** Identifiers as bytes *)

Lemma eui64_read_val b : bytes b -> length b = 8%nat -> eui64_read b = Ok (be_val b).
Proof.
  intros Hb Hl. unfold eui64_read. rewrite read_bytes_Ok by lia. rewrite drop_0, take_ge by lia. cbn_outcome.
  pose proof (be_val_bound b Hb) as Hv. rewrite Hl in Hv. f_equal.
  destruct b as [|b0 [|b1 [|b2 [|b3 [|b4 [|b5 [|b6 [|b7 [|]]]]]]]]]; try discriminate Hl.
  unfold be_val in *. cbn [fold_left] in *. cbn [zip zip_with seq foldl]. rewrite !Z.shiftl_mul_pow2 by lia.
  unfold u64. rewrite Z.mod_small; [lia|]. lia.
Qed.

Lemma eui64_write_bytes v : is_u64 v -> eui64_write v = be_bytes 8 v.
Proof.
  intros Hv. unfold eui64_write. cbn [map seq be_bytes app]. unfold u8.
  assert (Hm : forall k, Z.land (Z.shiftr v k) 255 mod 2 ^ 8 = Z.shiftr v k mod 256).
  { intros k. change 255 with (Z.ones 8). rewrite Z.land_ones by lia. apply Z.mod_mod. lia. }
  rewrite !Hm, !Z.shiftr_div_pow2 by lia. rewrite !Z.div_div by lia. cbn. by rewrite Z.div_1_r.
Qed.

(** ** Theorems *)

(** Writing an identifier and reading it back is the identity, in both directions. *)
Theorem eui64_roundtrip v b :
  (is_u64 v -> eui64_read (eui64_write v) = Ok v) /\
  (bytes b -> length b = 8%nat -> exists w, eui64_read b = Ok w /\ eui64_write w = b).
Proof.
  split.
  - intros Hv. rewrite eui64_write_bytes, eui64_read_val by (done || apply be_bytes_bytes || apply length_be_bytes).
    f_equal. rewrite be_val_bytes. apply Z.mod_small. exact Hv.
  - intros Hb Hl. exists (be_val b). split; [by apply eui64_read_val|].
    pose proof (be_val_bound b Hb) as Hv. rewrite Hl in Hv. rewrite eui64_write_bytes by exact Hv.
    rewrite <- Hl. by apply be_bytes_val.
Qed.

(** C19: a set of identifiers behaves as a bounded multiset.  Whatever sequence of
    insertions, removals, searches, clears and counts is applied to an initialized set
    of any capacity, with any [qsort] and [bsearch] the C standard allows, no access
    leaves the array and every result is that of a multiset with that capacity. *)
Theorem eui64set_refines_multiset (C : CSort) max os :
  Forall op_ok os ->
  exists s, eui_run (snd (eui64set_init max true)) os = Ok (fst (spec_run max ∅ os), s).
Proof.
  intros HF. destruct (init_holds max) as [Hh Hm].
  destruct (eui_run_refines os _ _ Hh HF) as (s&l&Hr&_). rewrite Hm in Hr. by exists s.
Qed.

(** Room for two: the third insertion is refused; removing one of two equal entries
    keeps the other. *)
Definition some_ops : list eui_op :=
  [OpInsert 7 None; OpInsert 7 None; OpInsert 3 None; OpRemove 7; OpFind 7; OpFind 3; OpFull; OpCount].

Lemma eui64set_refines_multiset_witness :
  exists s, eui_run (snd (eui64set_init 2 true)) some_ops = Ok ([1; 1; 0; 1; 1; 0; 0; 1], s).
Proof.
  refine (eui64set_refines_multiset merge_sort_library 2 some_ops _).
  repeat constructor; unfold is_u64; cbn; lia.
Defined.

(** When the highest identifier is in the set, removing another one can leave its
    released block in the set: the entry to remove is given the highest identifier too,
    and which of the two is cut off is up to [qsort]. *)
Theorem eui64set_remove_can_dangle :
  exists C : CSort,
    ('(_, s) ← eui64set_insert_and_sort (snd (eui64set_init 2 true)) 5 (Some 1%nat);
     '(_, s) ← eui64set_insert_and_sort s (2 ^ 64 - 1) (Some 2%nat);
     '(_, s, freed) ← eui64set_remove_and_sort s 5;
     found ← eui64set_find s (2 ^ 64 - 1);
     Ok (freed, found)) = Ok (Some 1%nat, Some (mkEntry (2 ^ 64 - 1) (Some 1%nat))).
Proof. exists merge_sort_library. vm_compute. reflexivity. Qed.
