(* ===== verification/ParseTheory.v ===== *)
(** * Parameters that are printed are parsed back

    A command's parameters are the texts name=value, separated by commas.  Printed in
    the order of the specification, [parse] reads every value back, to the full width of
    its type; and whatever text it accepts, the values it stores have the widths of their types. *)

From S2P Require Import Prelude.
From S2P Require Import CText.
From S2P Require Import CTextTheory.
From S2P Require Import Parse.
From S2P Require Import Mvrp.
From S2P Require Import MvrpCmd.
From S2P Require Import MmrpCmd.
From Stdlib Require Import String.

Open Scope Z_scope.
Local Abbreviation length := List.length.

(** ** Values *)

(** A value of a type. *)
Definition has_type (ty : parse_types) (v : parse_value) : Prop :=
  match ty, v with
  | parse_u8, IntValue n => is_u8 n
  | (parse_u16 | parse_u16_04x), IntValue n => is_u16 n
  | parse_u32, IntValue n => is_u32 n
  | (parse_u64 | parse_h64), IntValue n => is_u64 n
  | parse_c64, BytesValue b => bytes b /\ length b = 8%nat
  | parse_mac, BytesValue b => bytes b /\ length b = 6%nat
  | _, _ => False
  end.

(** Whatever is stored has its type. *)
Lemma convert_typed ty data prev v : convert ty data prev = (true, v) -> ty <> parse_null -> has_type ty v.
Proof.
  assert (Harr : forall n z, bytes (map (fun i => u8 (Z.shiftr z ((Z.of_nat n - 1 - Z.of_nat i) * 8))) (seq 0 n)) /\
    length (map (fun i => u8 (Z.shiftr z ((Z.of_nat n - 1 - Z.of_nat i) * 8))) (seq 0 n)) = n).
  { intros n z. split; [|by rewrite length_map, length_seq]. apply Forall_forall. intros b.
    rewrite list_elem_of_In, in_map_iff. intros (i&<-&_). apply u8_bound. }
  destruct ty; cbn [convert]; try done; destruct (sscanf _ _ _) as [z|]; try done; intros [= <-] _; cbn [has_type];
    first [apply u8_bound|apply u16_bound|apply u32_bound|apply u64_bound|apply (Harr 8%nat z)|apply (Harr 6%nat z)].
Qed.

Lemma parse_loop_typed specs : forall s b n vs,
  Forall (fun sp => param_type sp <> parse_null) specs -> forall e, fst (parse_loop s specs b n) = (0, e, vs) ->
  Forall2 has_type (param_type <$> specs) vs.
Proof.
  induction specs as [|sp specs IH]; intros s b n vs HF e; cbn [parse_loop]; [intros [= _ <-]; constructor|].
  apply Forall_cons in HF as [Hsp HF]. destruct (strstr_after _ _) as [data|]; [|done].
  destruct (split_delimiter data) as [field next]. destruct (convert _ field b) as [ok v] eqn:Hc. destruct ok; [|done].
  destruct (parse_loop _ specs true (n + 1)) as [[[rc e'] vs'] cut] eqn:Hp. intros [= -> _ <-].
  constructor; [by eapply convert_typed|]. eapply (IH _ true (n + 1)); [done|by rewrite Hp].
Qed.

Lemma parse_typed buf specs e vs :
  Forall (fun sp => param_type sp <> parse_null) specs -> parse buf specs = (0, e, vs) ->
  Forall2 has_type (param_type <$> specs) vs.
Proof. intros HF. unfold parse, parse_run. destruct (existsb _ _); [|done]. by apply parse_loop_typed. Qed.

(** ** Texts *)

Definition value_text (ty : parse_types) (v : parse_value) : list Z :=
  match v with
  | IntValue n => match ty with parse_u16_04x => fmt_x 4 n | parse_h64 => fmt_x 1 n | _ => fmt_d n end
  | BytesValue b => fmt_mac b
  | NoValue => []
  end.

Lemma sscanf_fmt_d v : 0 <= v < 2 ^ 64 -> sscanf 10 None (fmt_d v) = Some v /\ Forall dec_char (fmt_d v).
Proof.
  intros Hv. unfold sscanf, fmt_d. destruct (Z.ltb_spec v 0) as [|_]; [lia|].
  destruct (decide (v = 0)) as [->|Hz]; [split; [done|]; apply (proj2 (Forall_singleton dec_char 48)); unfold dec_char; lia|].
  destruct (digits_dec v) as (c&l&->&Hc&HF&He); [lia|]. split; [|done].
  rewrite skip_spaces_dense by lia. unfold scan_int. rewrite scan_sign_pos by lia. cbv iota beta.
  assert (scan_base 10 (c :: l) = (10, c :: l)) as ->
    by (unfold scan_base; by destruct l as [|x [|h l]]).
  rewrite scan_digits_dec by auto. by rewrite He, (proj2 (Z.leb_gt _ _)) by lia.
Qed.

Lemma dec_plain s : Forall dec_char s -> plain s.
Proof. intros HF. split; (eapply Forall_impl; [exact HF|]); unfold dec_char, PARSE_DELIMITER; intros c Hc; lia. Qed.

(** The bytes of an array, most significant first. *)
Lemma array_bytes n b :
  bytes b -> length b = n ->
  map (fun i => u8 (Z.shiftr (be_val b) ((Z.of_nat n - 1 - Z.of_nat i) * 8))) (seq 0 n) = b.
Proof.
  intros Hb <-. induction b as [|x b IH] using rev_ind; [done|].
  apply Forall_app in Hb as [Hb [Hx _]%Forall_cons]. rewrite length_app, seq_app, map_app. cbn [length seq map plus].
  rewrite be_val_snoc. f_equal.
  - etrans; [|exact (IH Hb)]. apply map_ext_in. intros i Hi%in_seq. f_equal.
    rewrite !Z.shiftr_div_pow2 by lia.
    replace ((Z.of_nat (length b + 1) - 1 - Z.of_nat i) * 8) with (8 + (Z.of_nat (length b) - 1 - Z.of_nat i) * 8) by lia.
    rewrite Z.pow_add_r, <- Z.div_div by lia. f_equal. change (2 ^ 8) with 256. unfold is_u8 in Hx.
    symmetry. apply (Z.div_unique_pos _ 256 _ x); lia.
  - f_equal. replace ((Z.of_nat (length b + 1) - 1 - Z.of_nat (length b)) * 8) with 0 by lia. rewrite Z.shiftr_0_r.
    unfold u8. change (2 ^ 8) with 256. symmetry. apply (Z.mod_unique_pos _ 256 (be_val b)); unfold is_u8 in Hx; lia.
Qed.

Lemma sscanf_fmt_bytes b : bytes b -> (0 < length b <= 8)%nat -> sscanf 16 None (fmt_mac b) = Some (be_val b).
Proof.
  intros Hb Hl. destruct (fmt_mac_hex b Hb) as [HF He]. unfold sscanf. rewrite skip_spaces_hex by done.
  pose proof (be_val_bound b Hb) as Hbd. assert (2 ^ (8 * Z.of_nat (length b)) <= 2 ^ 64) by (apply Z.pow_le_mono_r; lia).
  rewrite <- He in Hbd |- *. apply scan_int_hex; [done| |lia].
  intros H0. apply (f_equal length) in H0. rewrite fmt_mac_length in H0 by done. cbn in H0. lia.
Qed.

(** The text of a value is converted back. *)
Lemma convert_text ty v prev :
  has_type ty v ->
  convert ty (value_text ty v) prev = (true, v) /\ plain (value_text ty v).
Proof.
  assert (Hdec : forall wrap n, 0 <= n < 2 ^ 64 -> wrap n = n ->
    match sscanf 10 None (fmt_d n) with Some v => (true, IntValue (wrap v)) | None => (false, NoValue) end = (true, IntValue n)
    /\ plain (fmt_d n)).
  { intros wrap n Hn Hw. destruct (sscanf_fmt_d n Hn) as [-> HF]. rewrite Hw. split; [done|by apply dec_plain]. }
  assert (Harr : forall n b, bytes b -> length b = n -> (0 < n <= 8)%nat ->
    match sscanf 16 None (fmt_mac b) with
    | Some v => (true, BytesValue (map (fun i => u8 (Z.shiftr v ((Z.of_nat n - 1 - Z.of_nat i) * 8))) (seq 0 n)))
    | None => (false, NoValue) end = (true, BytesValue b) /\ plain (fmt_mac b)).
  { intros n b Hb Hl Hn. rewrite sscanf_fmt_bytes, array_bytes by (done || lia). split; [done|]. by apply hex_plain, fmt_mac_hex. }
  intros Ht. destruct ty, v as [|n|b]; try done; cbn [value_text convert has_type] in *.
  - apply Hdec; [unfold is_u8 in Ht; lia|by apply u8_small].
  - apply Hdec; [unfold is_u16 in Ht; lia|by apply u16_small].
  - assert (Hn : 0 <= n < 2 ^ 64) by (unfold is_u16 in Ht; lia). destruct (fmt_x_hex 4 n Hn) as (HF&_&_).
    rewrite sscanf_fmt_x, u16_small by (done || lia || exact Ht). split; [done|by apply hex_plain].
  - apply Hdec; [unfold is_u32 in Ht; lia|by apply u32_small].
  - apply Hdec; [unfold is_u64 in Ht; lia|by apply u64_small].
  - destruct (fmt_x_hex 1 n Ht) as (HF&Hne&He). unfold sscanf. rewrite skip_spaces_hex by done.
    rewrite scan_int_hex by (done || (rewrite He; exact Ht)). rewrite He, u64_small by done. split; [done|by apply hex_plain].
  - destruct Ht. by apply Harr; [..|lia].
  - destruct Ht. by apply Harr; [..|lia].
Qed.

(** ** Lists of parameters *)

Definition plainb (s : list Z) : bool := forallb (fun c => negb (c =? 0) && negb (c =? PARSE_DELIMITER)) s.

Lemma plain_name_ok s : plainb s = true -> plain s.
Proof.
  intros Hs. assert (HF : Forall (fun c => c <> 0 /\ c <> PARSE_DELIMITER) s).
  { apply Forall_forall. intros c Hc. unfold plainb in Hs. rewrite forallb_forall in Hs.
    apply list_elem_of_In, Hs, andb_true_iff in Hc. rewrite !negb_true_iff, !Z.eqb_neq in Hc. done. }
  split; (eapply Forall_impl; [exact HF|]); by intros ? [].
Qed.

Fixpoint params_text (specs : list parse_param) (vs : list parse_value) : list Z :=
  match specs, vs with
  | [sp], [v] => param_name sp ++ value_text (param_type sp) v
  | sp :: specs', v :: vs' => param_name sp ++ value_text (param_type sp) v ++ PARSE_DELIMITER :: params_text specs' vs'
  | _, _ => []
  end.

Definition printable (sp : parse_param) (v : parse_value) : Prop :=
  has_type (param_type sp) v /\ plain (param_name sp).

Lemma strneq_prefix a b : Forall (fun c => c <> 0) a -> strneq (length a) a (a ++ b) = true.
Proof. induction 1 as [|c a Hc _ IH]; cbn; [done|]. by rewrite Z.eqb_refl, IH. Qed.

Lemma strstr_after_prefix name s : Forall (fun c => c <> 0) name -> strstr_after name (name ++ s) = Some s.
Proof.
  intros Hn. pose proof (strneq_prefix name s Hn) as Hp. destruct (name ++ s) eqn:He; cbn [strstr_after];
    rewrite Hp, <- He, drop_app_length; done.
Qed.

Lemma split_delimiter_at s r : Forall (fun c => c <> PARSE_DELIMITER) s -> split_delimiter (s ++ PARSE_DELIMITER :: r) = (s, Some r).
Proof.
  induction 1 as [|c s Hc _ IH]; cbn [app split_delimiter]; [by rewrite Z.eqb_refl|].
  by rewrite (proj2 (Z.eqb_neq _ _) Hc), IH.
Qed.

Lemma parse_loop_text specs vs : Forall2 printable specs vs -> forall b n,
  parse_loop (params_text specs vs) specs b n = (0, 0, vs, None).
Proof.
  induction 1 as [|sp v specs vs (Ht&Hn) HF IH]; intros b n; [done|].
  destruct (convert_text (param_type sp) v b Ht) as [Hc [_ Hd]]. destruct Hn as [Hz _].
  destruct HF as [|sp2 v2 specs2 vs2 H2 HF2].
  - cbn [params_text parse_loop]. rewrite strstr_after_prefix by done. by rewrite split_delimiter_none, Hc by done.
  - set (rest := params_text (sp2 :: specs2) (v2 :: vs2)) in *.
    change (params_text (sp :: sp2 :: specs2) (v :: v2 :: vs2)) with
      (param_name sp ++ value_text (param_type sp) v ++ PARSE_DELIMITER :: rest).
    cbn [parse_loop]. rewrite strstr_after_prefix, split_delimiter_at, Hc by done.
    change (strstr_after (param_name sp2) rest) with (strstr_after (param_name sp2) rest).
    specialize (IH true (n + 1)). cbn [parse_loop] in IH. by rewrite IH.
Qed.

Lemma params_text_plain specs vs : Forall2 printable specs vs -> Forall (fun c => c <> 0) (params_text specs vs).
Proof.
  induction 1 as [|sp v specs vs (Ht&[Hz _]) HF IH]; [constructor|].
  destruct (convert_text (param_type sp) v true Ht) as [_ [Hz' _]].
  destruct HF; cbn [params_text]; rewrite !Forall_app; [done|]. rewrite Forall_cons. split_and!; [done..|]. exact IH.
Qed.

(** The whole command line, zero-terminated. *)
Lemma parse_text specs vs pad :
  Forall2 printable specs vs -> parse (params_text specs vs ++ replicate (S pad) 0) specs = (0, 0, vs).
Proof.
  intros HF. unfold parse, parse_run.
  assert (existsb (Z.eqb 0) (params_text specs vs ++ replicate (S pad) 0) = true) as ->.
  { rewrite existsb_app. cbn [replicate existsb]. by rewrite Z.eqb_refl, orb_true_r. }
  cbn [replicate]. rewrite cstr_app by (by apply params_text_plain). by rewrite parse_loop_text.
Qed.

(** ** Characters of a text *)

Lemma value_text_hex ty v :
  has_type ty v -> Forall hex_char (value_text ty v).
Proof.
  assert (Hdec : forall n, 0 <= n < 2 ^ 64 -> Forall hex_char (fmt_d n)).
  { intros n Hn. destruct (sscanf_fmt_d n Hn) as [_ HF]. eapply Forall_impl; [exact HF|]. by left. }
  intros Ht. destruct ty, v as [|n|b]; try done; cbn [value_text has_type] in *.
  - apply Hdec. unfold is_u8 in Ht. lia.
  - apply Hdec. unfold is_u16 in Ht. lia.
  - apply fmt_x_hex. unfold is_u16 in Ht. lia.
  - apply Hdec. unfold is_u32 in Ht. lia.
  - apply Hdec. unfold is_u64 in Ht. lia.
  - by apply fmt_x_hex.
  - apply fmt_mac_hex, Ht.
  - apply fmt_mac_hex, Ht.
Qed.

(** A character that is no digit, no delimiter and in no name. *)
Lemma params_text_without c specs vs :
  Forall2 printable specs vs -> Forall (fun sp => c ∉ param_name sp) specs ->
  c <> PARSE_DELIMITER -> (hex_char c -> False) -> c ∉ params_text specs vs.
Proof.
  intros HF Hn Hd Hx. induction HF as [|sp v specs vs (Ht&_) HF IH]; [apply not_elem_of_nil|].
  apply Forall_cons in Hn as [Hs Hn].
  assert (Hv : c ∉ value_text (param_type sp) v).
  { intros Hin. apply Hx. by apply (proj1 (Forall_forall _ _) (value_text_hex _ _ Ht)). }
  destruct HF; cbn [params_text]; rewrite !not_elem_of_app; [done|]. rewrite not_elem_of_cons. split_and!; [done..|].
  by apply IH.
Qed.

Lemma params_text_app specs1 vs1 sp v specs2 vs2 :
  length specs1 = length vs1 -> specs1 <> [] ->
  params_text (specs1 ++ sp :: specs2) (vs1 ++ v :: vs2) =
  params_text specs1 vs1 ++ PARSE_DELIMITER :: params_text (sp :: specs2) (v :: vs2).
Proof.
  revert vs1. induction specs1 as [|sp1 specs1 IH]; intros [|v1 vs1] Hl Hne; try done.
  destruct specs1 as [|sp1' specs1], vs1 as [|v1' vs1]; try done.
  - cbn [params_text app]. by rewrite <- (assoc_L (++)).
  - change (params_text ((sp1 :: sp1' :: specs1) ++ sp :: specs2) ((v1 :: v1' :: vs1) ++ v :: vs2)) with
      (param_name sp1 ++ value_text (param_type sp1) v1 ++ PARSE_DELIMITER ::
       params_text ((sp1' :: specs1) ++ sp :: specs2) ((v1' :: vs1) ++ v :: vs2)).
    rewrite (IH (v1' :: vs1)); [|cbn in Hl |- *; lia|done].
    change (params_text (sp1 :: sp1' :: specs1) (v1 :: v1' :: vs1)) with
      (param_name sp1 ++ value_text (param_type sp1) v1 ++ PARSE_DELIMITER :: params_text (sp1' :: specs1) (v1' :: vs1)).
    by rewrite <- !(assoc_L (++)).
Qed.

Lemma strstr_after_absent c name s : c ∉ s -> strstr_after (c :: name) s = None.
Proof.
  induction s as [|x s IH]; [done|]. rewrite not_elem_of_cons. intros [Hx Hs]. cbn [strstr_after length strneq].
  rewrite (proj2 (Z.eqb_neq c x)) by congruence. by apply IH.
Qed.

Lemma strstr_after_present name a b : Forall (fun c => c <> 0) name -> is_Some (strstr_after name (a ++ name ++ b)).
Proof.
  intros Hn. induction a as [|x a IH]; cbn [app]; [rewrite strstr_after_prefix by done; eauto|].
  cbn [strstr_after]. destruct (strneq _ _ _); eauto.
Qed.
