(* ===== verification/Msrp.v ===== *)
(** * MSRP: stream reservation

    Model of daemons/mrpd/msrp.c.  An attribute is a talker advertise or failed
    declaration, a listener or a domain.  The list of attributes keeps the order of its
    [next] pointers; a pointer into it is the key [msrp_lookup] searches for, under which
    a talker advertise and a talker failed declaration of one stream are the same
    attribute. *)

From S2P Require Import Prelude.
From S2P Require Import CText.
From S2P Require Import Mrp.
From S2P Require Import MrpText.
From S2P Require Import Parse.
From S2P Require Import Mvrp.
From S2P Require Import Mmrp.
From S2P Require Import EuiSet.
From Stdlib Require Import String.

Open Scope Z_scope.
Local Abbreviation length := List.length.

(** ** Data *)

(** [struct msrpdu_talker_fail]. *)
Record talk_listen : Type := mkTalk {
  StreamID : list Z;
  Dest_Addr : list Z;
  Vlan_ID : Z;
  MaxFrameSize : Z;
  MaxIntervalFrames : Z;
  PriorityAndRank : Z;
  AccumulatedLatency : Z;
  BridgeID : list Z;
  FailureCode : Z
}.

#[global] Instance talk_listen_eq_dec : EqDecision talk_listen.
Proof. solve_decision. Defined.

Record msrp_domain : Type := mkDomain {
  SRclassID : Z;
  SRclassPriority : Z;
  neighborSRclassPriority : Z;
  SRclassVID : Z
}.

#[global] Instance msrp_domain_eq_dec : EqDecision msrp_domain.
Proof. solve_decision. Defined.

Inductive msrp_type : Type := TALKER_ADV | TALKER_FAILED | LISTENER | DOMAIN.

#[global] Instance msrp_type_eq_dec : EqDecision msrp_type.
Proof. solve_decision. Defined.

(** The type of an attribute and its value. *)
Inductive msrp_value : Type :=
  | TalkerAdv (t : talk_listen)
  | TalkerFailed (t : talk_listen)
  | Listener (t : talk_listen)
  | Domain (d : msrp_domain).

#[global] Instance msrp_value_eq_dec : EqDecision msrp_value.
Proof. solve_decision. Defined.

Definition value_type (v : msrp_value) : msrp_type :=
  match v with TalkerAdv _ => TALKER_ADV | TalkerFailed _ => TALKER_FAILED | Listener _ => LISTENER | Domain _ => DOMAIN end.

Inductive msrp_operation : Type := OPERATION_REGISTER | OPERATION_DECLARE.

#[global] Instance msrp_operation_eq_dec : EqDecision msrp_operation.
Proof. solve_decision. Defined.

Record msrp_attribute : Type := mkMs {
  ms_value : msrp_value;
  ms_substate : Z;
  ms_operation : msrp_operation;
  ms_applicant : mrp_applicant_attribute;
  ms_registrar : mrp_registrar_attribute
}.

#[global] Instance msrp_attribute_eq_dec : EqDecision msrp_attribute.
Proof. solve_decision. Defined.

Record msrp_database : Type := mkMsrpDb {
  ms_mrp_db : mrp_database;
  ms_list : list msrp_attribute;
  ms_send_empty : bool;
  interesting_stream_ids : eui64set;
  enable_pruning : bool
}.

Definition MSRP_ETYPE : Z := 0x22EA.
Definition MSRP_PROT_VER : Z := 0.
Definition MSRP_ADDR : list Z := [0x01; 0x80; 0xC2; 0x00; 0x00; 0x0E].
Definition type_code (t : msrp_type) : Z :=
  match t with TALKER_ADV => 1 | TALKER_FAILED => 2 | LISTENER => 3 | DOMAIN => 4 end.
Definition LISTENER_IGNORE : Z := 0.
Definition LISTENER_ASKFAILED : Z := 1.
Definition LISTENER_READY : Z := 2.
Definition LISTENER_READYFAIL : Z := 3.

Definition msrp_attrib_type_string (t : Z) : string :=
  if t =? 1 then "Talker Advertise" else if t =? 2 then "Talker Failed"
  else if t =? 3 then "Listener" else if t =? 4 then "Domain" else "TYPE ???".

Definition ms_set_mrp (d : mrp_database) (m : msrp_database) : msrp_database :=
  mkMsrpDb d (ms_list m) (ms_send_empty m) (interesting_stream_ids m) (enable_pruning m).
Definition ms_set_list (l : list msrp_attribute) (m : msrp_database) : msrp_database :=
  mkMsrpDb (ms_mrp_db m) l (ms_send_empty m) (interesting_stream_ids m) (enable_pruning m).
Definition ms_set_empty (b : bool) (m : msrp_database) : msrp_database :=
  mkMsrpDb (ms_mrp_db m) (ms_list m) b (interesting_stream_ids m) (enable_pruning m).
Definition ms_set_ids (s : eui64set) (m : msrp_database) : msrp_database :=
  mkMsrpDb (ms_mrp_db m) (ms_list m) (ms_send_empty m) s (enable_pruning m).

Definition ms_set_value (v : msrp_value) (x : msrp_attribute) : msrp_attribute :=
  mkMs v (ms_substate x) (ms_operation x) (ms_applicant x) (ms_registrar x).
Definition ms_set_substate (s : Z) (x : msrp_attribute) : msrp_attribute :=
  mkMs (ms_value x) s (ms_operation x) (ms_applicant x) (ms_registrar x).
Definition ms_set_operation (o : msrp_operation) (x : msrp_attribute) : msrp_attribute :=
  mkMs (ms_value x) (ms_substate x) o (ms_applicant x) (ms_registrar x).
Definition ms_set_applicant (a : mrp_applicant_attribute) (x : msrp_attribute) : msrp_attribute :=
  mkMs (ms_value x) (ms_substate x) (ms_operation x) a (ms_registrar x).
Definition ms_set_registrar (r : mrp_registrar_attribute) (x : msrp_attribute) : msrp_attribute :=
  mkMs (ms_value x) (ms_substate x) (ms_operation x) (ms_applicant x) r.

(** Only the state of the registrar is changed. *)
Definition ms_force_notify (x : msrp_attribute) : msrp_attribute :=
  let r := ms_registrar x in
  ms_set_registrar (mkRegistrar MT (reg_notify r) (reg_macaddr r) (reg_previous_state r)) x.
Definition ms_set_notify (n : mrp_notify) (x : msrp_attribute) : msrp_attribute :=
  ms_set_registrar (set_reg (reg_state (ms_registrar x)) n (ms_registrar x)) x.
Definition ms_set_source (m : list Z) (x : msrp_attribute) : msrp_attribute :=
  ms_set_registrar (mkRegistrar (reg_state (ms_registrar x)) (reg_notify (ms_registrar x)) m
                      (reg_previous_state (ms_registrar x))) x.
Definition ms_set_tx (tx : bool) (x : msrp_attribute) : msrp_attribute :=
  let a := ms_applicant x in
  ms_set_applicant (mkApplicant (app_state a) tx (app_sndmsg a) (app_encode a) (app_previous_state a)) x.

(** The global [MSRP_db]: null, released or pointing to a database. *)
Inductive ms_dbptr : Type := MsNoDb | MsFreedDb | MsDb (m : msrp_database).

Record msrp_world : Type := mkMsrp {
  MSRP_db : ms_dbptr;
  ms_frames : list (list Z);
  ms_messages : list (sockaddr_in * list Z)
}.

Abbreviation MSRP := (M msrp_world).

Definition ms_the_db : MSRP msrp_database := fun w =>
  match MSRP_db w with
  | MsNoDb => Fault NullDeref
  | MsFreedDb => Fault WildPointer
  | MsDb m => Ok (m, w)
  end.
Definition ms_put_db (m : msrp_database) : MSRP unit :=
  modify (fun w => mkMsrp (MsDb m) (ms_frames w) (ms_messages w)).
Definition ms_upd_db (f : msrp_database -> msrp_database) : MSRP unit := m ← ms_the_db; ms_put_db (f m).
Definition ms_upd_mrp (f : mrp_database -> mrp_database) : MSRP unit :=
  ms_upd_db (fun m => ms_set_mrp (f (ms_mrp_db m)) m).
Definition ms_send_ctl_msg (c : sockaddr_in) (text : list Z) : MSRP unit :=
  modify (fun w => mkMsrp (MSRP_db w) (ms_frames w) (ms_messages w ++ [(c, text)])).

Fixpoint ms_each {A} (f : A -> MSRP unit) (l : list A) : MSRP unit :=
  match l with
  | [] => mret tt
  | x :: l' => f x ;; ms_each f l'
  end.

(** ** The attribute list *)

(** What [msrp_lookup] compares. *)
Inductive msrp_key : Type :=
  | KTalker (id : list Z)
  | KListener (id : list Z)
  | KDomain (class : Z).

#[global] Instance msrp_key_eq_dec : EqDecision msrp_key.
Proof. solve_decision. Defined.

Definition key_of (v : msrp_value) : msrp_key :=
  match v with
  | TalkerAdv t | TalkerFailed t => KTalker (StreamID t)
  | Listener t => KListener (StreamID t)
  | Domain d => KDomain (SRclassID d)
  end.

(** Types that may match, then the class or the stream identifier. *)
Definition same_key (a r : msrp_key) : bool :=
  match a, r with
  | KTalker i, KTalker j | KListener i, KListener j => memcmp i j =? 0
  | KDomain c, KDomain d => c =? d
  | _, _ => false
  end.

Fixpoint msrp_lookup (k : msrp_key) (l : list msrp_attribute) : option msrp_attribute :=
  match l with
  | [] => None
  | a :: l' => if same_key (key_of (ms_value a)) k then Some a else msrp_lookup k l'
  end.

Fixpoint msrp_count_type (t : msrp_type) (l : list msrp_attribute) : Z :=
  match l with
  | [] => 0
  | a :: l' => (if decide (t = value_type (ms_value a)) then 1 else 0) + msrp_count_type t l'
  end.

(** The memory of [msrpdu_domain_t], on a little-endian machine. *)
Definition domain_image (d : msrp_domain) : list Z :=
  [SRclassID d; SRclassPriority d; neighborSRclassPriority d; 0;
   SRclassVID d mod 256; SRclassVID d / 256 mod 256].

(** The order within a type. *)
Definition value_before (v w : msrp_value) : bool :=
  match v, w with
  | TalkerAdv a, TalkerAdv b | TalkerFailed a, TalkerFailed b | Listener a, Listener b =>
      memcmp (StreamID a) (StreamID b) <? 0
  | Domain a, Domain b => memcmp (domain_image a) (domain_image b) <? 0
  | _, _ => false
  end.

Fixpoint msrp_add (r : msrp_attribute) (l : list msrp_attribute) : list msrp_attribute :=
  match l with
  | [] => [r]
  | a :: l' =>
      if decide (value_type (ms_value r) = value_type (ms_value a)) then
        if value_before (ms_value a) (ms_value r) then
          match l' with
          | [] => [a; r]
          | n :: _ => if decide (value_type (ms_value a) = value_type (ms_value n)) then a :: msrp_add r l'
                      else a :: r :: l'
          end
        else r :: l
      else a :: msrp_add r l'
  end.

(** Updates the attribute a key points to. *)
Fixpoint ms_at (k : msrp_key) (f : msrp_attribute -> msrp_attribute) (l : list msrp_attribute)
  : list msrp_attribute :=
  match l with
  | [] => []
  | a :: l' => if same_key (key_of (ms_value a)) k then f a :: l' else a :: ms_at k f l'
  end.

Fixpoint ms_unlink (k : msrp_key) (l : list msrp_attribute) : list msrp_attribute :=
  match l with
  | [] => []
  | a :: l' => if same_key (key_of (ms_value a)) k then l' else a :: ms_unlink k l'
  end.

Definition zero_talk : talk_listen := mkTalk (replicate 8 0) (replicate 6 0) 0 0 0 0 0 (replicate 8 0) 0.
Definition stream (id : list Z) : talk_listen := mkTalk id (replicate 6 0) 0 0 0 0 0 (replicate 8 0) 0.

(** An attribute as [msrp_alloc] returns it, with its value filled in. *)
Definition ms_fresh (v : msrp_value) : msrp_attribute :=
  mkMs v 0 OPERATION_REGISTER (mkApplicant VO false SND_NULL ENCODE_OPTIONAL None)
    (mkRegistrar MT NOTIFY_NONE (replicate 6 0) None).

(** The loop counts down from the last byte and does not reach the first one. *)
Definition msrp_increment_streamid (streamid : list Z) : list Z := increment_from 7 streamid.

(** The failure information of [r] for the talker declaration [t]. *)
Definition merge_failure (r t : talk_listen) : talk_listen :=
  mkTalk (StreamID t) (Dest_Addr t) (Vlan_ID t) (MaxFrameSize t) (MaxIntervalFrames t) (PriorityAndRank t)
    (AccumulatedLatency t) (BridgeID r) (FailureCode r).

(** A talker declaration: of the type of [r], with its failure information. *)
Definition merge_talker (r : msrp_attribute) (rt : talk_listen) (a : msrp_attribute) (at_ : talk_listen)
  : msrp_attribute :=
  if decide (ms_operation r = ms_operation a) then
    let t := merge_failure rt at_ in
    match ms_value a, ms_value r with
    | TalkerAdv _, TalkerFailed _ => ms_force_notify (ms_set_value (TalkerFailed t) a)
    | TalkerFailed _, TalkerAdv _ => ms_force_notify (ms_set_value (TalkerAdv t) a)
    | TalkerAdv _, _ => ms_set_value (TalkerAdv t) a
    | _, _ => ms_set_value (TalkerFailed t) a
    end
  else a.

Definition merge_domain (rd ad : msrp_domain) (a : msrp_attribute) : msrp_attribute :=
  if (SRclassPriority ad =? SRclassPriority rd) && (SRclassVID ad =? SRclassVID rd) then a
  else ms_force_notify
         (ms_set_value (Domain (mkDomain (SRclassID ad) (SRclassPriority ad) (SRclassPriority rd) (SRclassVID rd))) a).

(** A listener declaration whose substate changes. *)
Definition merge_listener (r a : msrp_attribute) : msrp_attribute :=
  ms_force_notify (if decide (ms_operation r = ms_operation a) then ms_set_substate (ms_substate r) a else a).

(** ** Vectors

    [msrp_emit_domainvectors], [msrp_emit_talkervectors] (for both types of talker
    declarations) and [msrp_emit_listenvectors] are copies of one routine; a [ms_kind]
    has what differs between them. *)

Record ms_kind : Type := mkMsKind {
  sk_type : msrp_type;
  sk_length : nat;        (* AttributeLength *)
  sk_vector_size : nat;   (* vector_size *)
  sk_pack : bool;         (* contiguous attributes share a vector *)
  sk_four : bool          (* a vector has four-packed events *)
}.

Definition domain_kind : ms_kind := mkMsKind DOMAIN 4 5 false false.
Definition talker_kind (failed : bool) : ms_kind :=
  if failed then mkMsKind TALKER_FAILED 34 37 true false else mkMsKind TALKER_ADV 25 28 true false.
Definition listener_kind : ms_kind := mkMsKind LISTENER 8 13 true true.

Definition talk_bytes (t : talk_listen) : list Z :=
  StreamID t ++ Dest_Addr t ++ be_bytes 2 (Vlan_ID t) ++ be_bytes 2 (MaxFrameSize t) ++
  be_bytes 2 (MaxIntervalFrames t) ++ [PriorityAndRank t] ++ be_bytes 4 (AccumulatedLatency t).

(** The first value of a vector. *)
Definition ms_first_bytes (v : msrp_value) : list Z :=
  match v with
  | TalkerAdv t => talk_bytes t
  | TalkerFailed t => talk_bytes t ++ BridgeID t ++ [FailureCode t]
  | Listener t => StreamID t
  | Domain d => [SRclassID d; SRclassPriority d] ++ be_bytes 2 (SRclassVID d)
  end.

(** The event value of an attribute; [None] is an internal error. *)
Definition ms_pdu_event (x : msrp_attribute) : option Z :=
  let i := bool_decide (reg_state (ms_registrar x) = IN) in
  match app_sndmsg (ms_applicant x) with
  | SND_IN => Some (if i then MRPDU_IN else MRPDU_MT)
  | SND_NEW => Some MRPDU_NEW
  | SND_LV => Some MRPDU_LV
  | SND_JOIN => Some (if i then MRPDU_JOININ else MRPDU_JOINMT)
  | _ => None
  end.

(** [streamid_firstval] and [destmac_firstval] of the next attribute. *)
Definition next_first (f : list Z * list Z) : list Z * list Z :=
  (msrp_increment_streamid (fst f), mmrp_increment_macaddr (snd f)).

Definition vectorize_talker (first : talk_listen) (f : list Z * list Z) (candidate : talk_listen) : bool :=
  bool_decide (mkTalk (fst f) (snd f) (Vlan_ID first) (MaxFrameSize first) (MaxIntervalFrames first)
                 (PriorityAndRank first) (AccumulatedLatency first) (BridgeID first) (FailureCode first) = candidate).

(** Whether [x] continues a vector that starts with [first]. *)
Definition ms_contiguous (first : msrp_value) (f : list Z * list Z) (x : msrp_value) : bool :=
  match first, x with
  | TalkerAdv t, TalkerAdv u | TalkerFailed t, TalkerFailed u => vectorize_talker t f u
  | Listener _, Listener u => memcmp (StreamID u) (fst f) =? 0
  | _, _ => false
  end.

Definition first_pair (v : msrp_value) : list Z * list Z :=
  match v with
  | TalkerAdv t | TalkerFailed t | Listener t => (StreamID t, Dest_Addr t)
  | Domain _ => ([], [])
  end.

(** [listen_declare]: the substates collected, the size of the array and how many
    answers of the operating system have been used. *)
Record declares : Type := mkDeclares { dc_list : list Z; dc_size : nat; dc_asked : nat }.

(** Appends a substate; the array grows by 64 entries, and what [realloc] returns is not
    checked. *)
Definition dc_push (al : nat -> bool) (s : Z) (d : declares) : outcome declares :=
  if (dc_size d =? length (dc_list d) + 1)%nat then
    if al (dc_asked d) then Ok (mkDeclares (dc_list d ++ [s]) (dc_size d + 64) (S (dc_asked d)))
    else Fault NullDeref
  else Ok (mkDeclares (dc_list d ++ [s]) (dc_size d) (dc_asked d)).

(** The inner loop over the contiguous attributes behind the first one; [false] is the
    jump to [oops].  Returns the attributes with their [tx] flags cleared. *)
Fixpoint ms_pack_loop (K : ms_kind) (al : nat -> bool) (eof vptr : nat) (first : msrp_value) (f : list Z * list Z)
    (rest : list msrp_attribute) (v : vector) (d : declares)
  : outcome (bool * list msrp_attribute * vector * declares) :=
  match rest with
  | [] => mret (true, [], v, d)
  | x :: rest' =>
      if negb (bool_decide (value_type (ms_value x) = sk_type K)) then mret (true, rest, v, d)
      else if negb (app_tx (ms_applicant x)) then mret (true, rest, v, d)
      else
        let f := next_first f in
        if negb (ms_contiguous first f (ms_value x)) then mret (true, rest, v, d)
        else
          match ms_pdu_event x with
          | None => mret (false, ms_set_tx false x :: rest', v, d)
          | Some e =>
              let v := mkVector (v_buf v) (<[v_idx v := e]> (v_evt v)) (S (v_idx v))
                         (u16 (v_num v + 1)) (v_vectidx v) in
              d ← (if sk_four K then dc_push al (ms_substate x) d else mret d);
              v ← (if (2 <? v_idx v)%nat then put_pack vptr v else mret v);
              if mm_past 2 eof vptr v then mret (false, ms_set_tx false x :: rest', v, d)
              else
                '(ok, rest'', v', d') ← ms_pack_loop K al eof vptr first f rest' v d;
                mret (ok, ms_set_tx false x :: rest'', v', d')
          end
  end.

Definition MRPDU_4PACK_ENCODE (w x y z : Z) : Z := w * 64 + x * 16 + y * 4 + z.

Definition encode4 (s : list Z) : Z :=
  u8 (MRPDU_4PACK_ENCODE (nth 0 s 0) (nth 1 s 0) (nth 2 s 0) (nth 3 s 0)).

(** The four-packed events from [vectidx] on; [None] is [oops]. *)
Fixpoint ms_four_loop (eof vptr : nat) (buf : list Z) (vectidx : nat) (s : list Z) : outcome (option (list Z * nat)) :=
  let past margin i := (eof <? vptr + 2 + i + margin)%nat in
  match s with
  | a :: b :: c :: d :: s' =>
      if past 2%nat vectidx then mret None
      else
        buf ← put_byte buf (vptr + 2 + vectidx) (encode4 [a; b; c; d]);
        if past 3%nat (S vectidx) then mret None else ms_four_loop eof vptr buf (S vectidx) s'
  | [] => mret (Some (buf, vectidx))
  | _ => buf ← put_byte buf (vptr + 2 + vectidx) (encode4 s); mret (Some (buf, S vectidx))
  end.

(** State of the outer loop: buffer, [mrpdu_vectorptr], [mrpdu_msg_ptr], [lva],
    [attrib_found_flag], and the size of [listen_declare] with the answers used. *)
Record ms_emit : Type := mkMsEmit {
  em_buf : list Z;
  em_vptr : nat;
  em_ptr : nat;
  em_lva : bool;
  em_found : bool;
  em_size : nat;
  em_asked : nat
}.

(** One vector for [x], whose list continues with [rest]; [None] is [oops]. *)
Definition ms_emit_vector (K : ms_kind) (al : nat -> bool) (eof : nat) (x : msrp_attribute)
    (rest : list msrp_attribute) (s : ms_emit) : outcome (option ms_emit * list msrp_attribute) :=
  buf ← write_bytes (em_buf s) (em_vptr s + 2) (ms_first_bytes (ms_value x));
  match ms_pdu_event x with
  | None => mret (None, rest)
  | Some e =>
      let v := mkVector buf [e; 0; 0] 1 1 (sk_length K) in
      let d := mkDeclares [ms_substate x] (em_size s) (em_asked s) in
      '(ok, rest', v, d) ← (if sk_pack K
                            then ms_pack_loop K al eof (em_vptr s) (ms_value x) (first_pair (ms_value x)) rest v d
                            else mret (true, rest, v, d));
      if negb ok then mret (None, rest')
      else
        v ← mm_trailer (em_vptr s) v;
        r ← (if sk_four K then ms_four_loop eof (em_vptr s) (v_buf v) (v_vectidx v) (dc_list d)
             else mret (Some (v_buf v, v_vectidx v)));
        match r with
        | None => mret (None, rest')
        | Some (buf, vectidx) =>
            if (eof <? em_vptr s + 2 + vectidx + 2)%nat then mret (None, rest')
            else
              let header := MRPDU_VECT_NUMVALUES (v_num v) in
              let header := if em_lva s then Z.lor header MRPDU_VECT_LVA_FLAG else header in
              buf ← write_bytes buf (em_vptr s) (be_bytes 2 header);
              let ptr := (em_vptr s + 2 + vectidx)%nat in
              mret (Some (mkMsEmit buf ptr ptr false true (dc_size d) (dc_asked d)), rest')
        end
  end.

(** The outer loop; each round handles the first attribute of the list. *)
Fixpoint ms_emit_loop (K : ms_kind) (al : nat -> bool) (fuel eof : nat) (l : list msrp_attribute) (s : ms_emit)
  : outcome (option ms_emit * list msrp_attribute) :=
  match fuel with
  | O => Fault FuelExhausted
  | S fuel =>
      match l with
      | [] => mret (Some s, [])
      | x :: rest =>
          if (em_ptr s + sk_vector_size K + 2 <? eof)%nat then
            if negb (bool_decide (value_type (ms_value x) = sk_type K)) || negb (app_tx (ms_applicant x)) then
              '(r, l') ← ms_emit_loop K al fuel eof rest s; mret (r, x :: l')
            else if decide (app_encode (ms_applicant x) = ENCODE_OPTIONAL) then
              '(r, l') ← ms_emit_loop K al fuel eof rest s; mret (r, ms_set_tx false x :: l')
            else
              '(r, rest') ← ms_emit_vector K al eof x rest s;
              match r with
              | None => mret (None, ms_set_tx false x :: rest')
              | Some s' => '(r, l') ← ms_emit_loop K al fuel eof rest' s'; mret (r, ms_set_tx false x :: l')
              end
          else mret (Some s, l)
      end
  end.

(** Every listener is sent. *)
Definition ms_mark (K : ms_kind) (l : list msrp_attribute) : list msrp_attribute :=
  if sk_four K
  then map (fun x => if decide (value_type (ms_value x) = LISTENER) then ms_set_tx true x else x) l
  else l.

(** Result code, bytes used, buffer, attributes and the answers used.  After [oops]
    nothing is sent, and the count of answers does not matter. *)
Definition ms_emit_vectors (K : ms_kind) (al : nat -> bool) (asked : nat) (buf : list Z) (msgbuf eof : nat)
    (lva send_empty : bool) (l : list msrp_attribute)
  : outcome (Z * nat * list Z * list msrp_attribute * nat) :=
  if (eof <? msgbuf + sk_vector_size K)%nat then mret (-1, 0%nat, buf, l, asked)
  else
    buf ← write_bytes buf msgbuf [type_code (sk_type K); Z.of_nat (sk_length K)];
    if sk_four K && negb (al asked) then mret (-1, 0%nat, buf, l, S asked)
    else
      let asked := if sk_four K then S asked else asked in
      let data := (msgbuf + 4)%nat in
      '(r, l') ← ms_emit_loop K al (S (length l)) eof (ms_mark K l) (mkMsEmit buf data msgbuf lva false 64 asked);
      match r with
      | None => mret (-1, 0%nat, buf, l', asked)
      | Some s =>
          s ← (if negb (em_found s) && send_empty then
                 buf ← write_bytes (em_buf s) (em_vptr s)
                         (be_bytes 2 (Z.lor (MRPDU_VECT_NUMVALUES 0) MRPDU_VECT_LVA_FLAG));
                 let ptr := (em_vptr s + 2 + sk_length K)%nat in
                 mret (mkMsEmit buf ptr ptr (em_lva s) (em_found s) (em_size s) (em_asked s))
               else mret s);
          if (em_vptr s =? data)%nat then mret (0, 0%nat, em_buf s, l', em_asked s)
          else
            buf ← write_bytes (em_buf s) (em_ptr s) [0; 0];
            buf ← write_bytes buf (msgbuf + 2) (be_bytes 2 (Z.of_nat (em_ptr s + 2 - data)));
            mret (0, (em_ptr s + 2 - msgbuf)%nat, buf, l', em_asked s)
      end.

Definition msrp_emit_domainvectors := ms_emit_vectors domain_kind.
Definition msrp_emit_talkervectors (failed : bool) := ms_emit_vectors (talker_kind failed).
Definition msrp_emit_listenvectors := ms_emit_vectors listener_kind.
