(* ===== verification/MsrpRun.v ===== *)
(** * MSRP: events, frames and commands

    The second part of the model of daemons/mrpd/msrp.c: merging, notifications,
    transmission, events, reception and the commands of the clients. *)

From S2P Require Import Prelude.
From S2P Require Import CText.
From S2P Require Import Mrp.
From S2P Require Import MrpText.
From S2P Require Import Parse.
From S2P Require Import Mvrp.
From S2P Require Import Mmrp.
From S2P Require Import EuiSet.
From S2P Require Import Msrp.
From Stdlib Require Import String.

Open Scope Z_scope.
Local Abbreviation length := List.length.

(** ** Texts *)

Definition ms_stream_text (t : talk_listen) : list Z :=
  str "T:S=" ++ fmt_mac (StreamID t) ++ str ",A=" ++ fmt_mac (Dest_Addr t) ++ str ",V=" ++ fmt_x 4 (Vlan_ID t) ++
  str ",Z=" ++ fmt_d (MaxFrameSize t) ++ str ",I=" ++ fmt_d (MaxIntervalFrames t) ++
  str ",P=" ++ fmt_d (PriorityAndRank t) ++ str ",L=" ++ fmt_d (s32 (AccumulatedLatency t)).

Definition ms_failure_text (t : talk_listen) : list Z :=
  str ",B=" ++ fmt_mac (BridgeID t) ++ str ",C=" ++ fmt_d (FailureCode t).

(** The value of an attribute; with [failure], the failure information of a talker is
    printed for an advertise declaration too. *)
Definition ms_variant (failure : bool) (x : msrp_attribute) : list Z :=
  match ms_value x with
  | Listener t => str "L:D=" ++ fmt_d (s32 (ms_substate x)) ++ str ",S=" ++ fmt_mac (StreamID t)
  | Domain d =>
      str "D:C=" ++ fmt_d (SRclassID d) ++ str ",P=" ++ fmt_d (SRclassPriority d) ++ str ",V=" ++
      fmt_x 4 (SRclassVID d) ++ str ",N=" ++ fmt_d (neighborSRclassPriority d)
  | TalkerAdv t => ms_stream_text t ++ (if failure then ms_failure_text t else [])
  | TalkerFailed t => ms_stream_text t ++ ms_failure_text t
  end.

Definition ms_regsrc (x : msrp_attribute) : list Z := str "R=" ++ fmt_mac (reg_macaddr (ms_registrar x)).
Definition ms_state (x : msrp_attribute) : list Z := mrp_decode_state (ms_registrar x) (ms_applicant x) 8.

Definition ms_notify_text (x : msrp_attribute) (notify : mrp_notify) : option (list Z) :=
  let line tag :=
    Some (snprintf (MAX_MRPD_CMDSZ - 1)
            (str tag ++ str " " ++ snprintf 127 (ms_variant false x) ++ str " " ++ snprintf 127 (ms_regsrc x) ++
             str " " ++ ms_state x ++ newline)) in
  match notify with
  | NOTIFY_NEW => line "SNE"
  | NOTIFY_JOIN => line "SJO"
  | NOTIFY_LV => line "SLE"
  | NOTIFY_NONE => None
  end.

(** ** Pure parts of the events *)

Definition ms_reclaimable (x : msrp_attribute) : bool :=
  bool_decide (reg_state (ms_registrar x) = MT) &&
  match app_state (ms_applicant x) with VO | AO | QO => true | _ => false end.

(** Applies a pair of state machine steps to every attribute, threading the timers. *)
Fixpoint ms_for (f : msrp_attribute -> mrp_database -> msrp_attribute * mrp_database)
    (l : list msrp_attribute) (db : mrp_database) : list msrp_attribute * mrp_database :=
  match l with
  | [] => ([], db)
  | x :: l' =>
      let '(x', db) := f x db in
      let '(l'', db) := ms_for f l' db in
      (x' :: l'', db)
  end.

Definition ms_tx_count (l : list msrp_attribute) : Z :=
  fold_right (fun x n => mrp_applicant_state_transition_implies_tx (ms_applicant x) + n) 0 l.

(** Removes the talker declarations of a stream. *)
Definition ms_drop_talkers (id : list Z) (l : list msrp_attribute) : list msrp_attribute :=
  filter (fun x => same_key (key_of (ms_value x)) (KTalker id) = false) l.

(** ** Pure parts of the reception *)

Definition kind_of (t : msrp_type) : ms_kind :=
  match t with
  | DOMAIN => domain_kind
  | LISTENER => listener_kind
  | TALKER_ADV => talker_kind false
  | TALKER_FAILED => talker_kind true
  end.

Definition type_of_code (c : Z) : option msrp_type :=
  if c =? 4 then Some DOMAIN else if c =? 3 then Some LISTENER
  else if c =? 1 then Some TALKER_ADV else if c =? 2 then Some TALKER_FAILED else None.

(** The first value of a received vector. *)
Definition ms_read_first (t : msrp_type) (b : list Z) : msrp_value :=
  let at_ i n := be_val (take n (drop i b)) in
  let talk bridge code :=
    mkTalk (take 8 b) (take 6 (drop 8 b)) (at_ 14 2)%nat (at_ 16 2)%nat (at_ 18 2)%nat (at_ 20 1)%nat (at_ 21 4)%nat
      bridge code in
  match t with
  | TALKER_ADV => TalkerAdv (talk (replicate 8 0) 0)
  | TALKER_FAILED => TalkerFailed (talk (take 8 (drop 25 b)) (at_ 33 1)%nat)
  | LISTENER => Listener (stream (take 8 b))
  | DOMAIN => Domain (mkDomain (at_ 0 1)%nat (at_ 1 1)%nat (at_ 1 1)%nat (at_ 2 2)%nat)
  end.

Definition next_talk (t : talk_listen) : talk_listen :=
  mkTalk (msrp_increment_streamid (StreamID t)) (mmrp_increment_macaddr (Dest_Addr t)) (Vlan_ID t) (MaxFrameSize t)
    (MaxIntervalFrames t) (PriorityAndRank t) (AccumulatedLatency t) (BridgeID t) (FailureCode t).

(** The value of the next attribute of a vector. *)
Definition ms_next_value (v : msrp_value) : msrp_value :=
  match v with
  | TalkerAdv t => TalkerAdv (next_talk t)
  | TalkerFailed t => TalkerFailed (next_talk t)
  | Listener t => Listener (stream (msrp_increment_streamid (StreamID t)))
  | Domain d => Domain (mkDomain (u8 (SRclassID d + 1)) (u8 (SRclassPriority d + 1)) (u8 (SRclassPriority d + 1))
                          (SRclassVID d))
  end.

Definition is_listener (v : msrp_value) : bool := bool_decide (value_type v = LISTENER).

Definition decode4 (b : Z) : list Z := [b / 64 mod 4; b / 16 mod 4; b / 4 mod 4; b mod 4].

Definition packed (per n : Z) : Z := if negb (n =? n / per * per) then n / per + 1 else n / per.

(** The attribute list length at offset [data] passes its checks. *)
Definition msrp_recv_msg_check_attrib_list_len (buf : list Z) (data eof : nat) : outcome bool :=
  l ← read_bytes buf data 2;
  let list_len := be_val l in
  attrib_len ← rd buf (data - 1);
  if list_len <? attrib_len + 2 + 1 then mret false
  else if (eof <=? data + Z.to_nat list_len)%nat then mret false
  else
    b0 ← rd buf (data + Z.to_nat list_len);
    b1 ← (if negb (b0 =? 0) then mret 0 else rd buf (data + Z.to_nat list_len + 1));
    mret (negb (negb (b0 =? 0) || negb (b1 =? 0))).

(** ** Parameters of the commands *)

Definition param (name : string) (ty : parse_types) : parse_param := mkParam (str name ++ str PARSE_ASSIGN) ty.

Definition talker_params : list parse_param :=
  [param "S" parse_c64; param "A" parse_mac; param "V" parse_u16_04x; param "Z" parse_u16; param "I" parse_u16;
   param "P" parse_u8; param "L" parse_u32].

Definition failure_params : list parse_param := [param "B" parse_c64; param "C" parse_u8].
Definition domain_params : list parse_param := [param "C" parse_u8; param "P" parse_u8; param "V" parse_u16_04x].

Definition msrp_cmd_parse_stream_id (buf : list Z) : Z * list Z :=
  if Z.of_nat (length buf) <? 20 then (-1, [])
  else match parse (drop 4 buf) [param "S" parse_c64] with
       | (rc, _, BytesValue s :: _) => (rc, s)
       | (rc, _, _) => (rc, [])
       end.

Definition msrp_cmd_parse_join_or_new_stream (buf : list Z) : Z * talk_listen :=
  if Z.of_nat (length buf) <? 22 then (-1, zero_talk)
  else match parse (drop 4 buf) talker_params with
       | (rc, _, [BytesValue s; BytesValue a; IntValue v; IntValue z; IntValue i; IntValue p; IntValue l]) =>
           (rc, mkTalk s a v z i p l (replicate 8 0) 0)
       | (rc, _, _) => (rc, zero_talk)
       end.

Definition msrp_cmd_parse_join_or_new_stream_failure (buf : list Z) : Z * talk_listen :=
  if Z.of_nat (length buf) <? 47 then (-1, zero_talk)
  else match parse (drop 4 buf) (talker_params ++ failure_params) with
       | (rc, _, [BytesValue s; BytesValue a; IntValue v; IntValue z; IntValue i; IntValue p; IntValue l;
                  BytesValue b; IntValue c]) => (rc, mkTalk s a v z i p l b c)
       | (rc, _, _) => (rc, zero_talk)
       end.

Definition msrp_cmd_parse_leave_stream (buf : list Z) : Z * talk_listen :=
  if Z.of_nat (length buf) <? 22 then (-1, zero_talk)
  else match parse (drop 4 buf) [param "S" parse_c64] with
       | (rc, _, BytesValue s :: _) => (rc, stream s)
       | (rc, _, _) => (rc, zero_talk)
       end.

Definition msrp_cmd_parse_report_listener_status (buf : list Z) : Z * talk_listen * Z :=
  if Z.of_nat (length buf) <? 26 then (-1, zero_talk, 0)
  else match parse (drop 4 buf) [param "L" parse_c64; param "D" parse_u32] with
       | (rc, _, [BytesValue s; IntValue d]) => (rc, stream s, d)
       | (rc, _, _) => (rc, zero_talk, 0)
       end.

Definition msrp_cmd_parse_withdraw_listener_status (buf : list Z) : Z * talk_listen :=
  if Z.of_nat (length buf) <? 22 then (-1, zero_talk)
  else match parse (drop 4 buf) [param "L" parse_c64] with
       | (rc, _, BytesValue s :: _) => (rc, stream s)
       | (rc, _, _) => (rc, zero_talk)
       end.

Definition msrp_cmd_parse_domain_status (buf : list Z) : Z * msrp_domain :=
  if Z.of_nat (length buf) <? 18 then (-1, mkDomain 0 0 0 0)
  else match parse (drop 4 buf) domain_params with
       | (rc, _, [IntValue c; IntValue p; IntValue v]) => (rc, mkDomain c p 0 v)
       | (rc, _, _) => (rc, mkDomain 0 0 0 0)
       end.

Section Msrp.
Context {C : CSort} (E : Os) (p2pmac : Z) (STATION_ADDR : list Z).

Definition ms_malloc : MSRP bool :=
  m ← ms_the_db;
  ms_upd_mrp step_os;;
  mret (os_malloc E (asked (ms_mrp_db m))).

Definition msrp_alloc (v : msrp_value) : MSRP (option msrp_attribute) :=
  ok ← ms_malloc;
  mret (if ok : bool then Some (ms_fresh v) else None).

(** ** Merging *)

Definition ms_upd_at (k : msrp_key) (f : msrp_attribute -> msrp_attribute) : MSRP unit :=
  ms_upd_db (fun m => ms_set_list (ms_at k f (ms_list m)) m).

(** Whether a listener takes over another substate: behind AskingFailed only if a talker
    of the stream is known. *)
Definition ms_talker_known (a : msrp_attribute) (t : talk_listen) : MSRP bool :=
  if ms_substate a =? LISTENER_ASKFAILED then
    ok ← ms_malloc;
    m ← ms_the_db;
    mret (ok && bool_decide (is_Some (msrp_lookup (KTalker (StreamID t)) (ms_list m))))
  else mret true.

Definition msrp_merge (r : msrp_attribute) : MSRP Z :=
  m ← ms_the_db;
  let k := key_of (ms_value r) in
  match msrp_lookup k (ms_list m) with
  | None => mret (-1)
  | Some a =>
      ms_upd_at k (ms_set_source (reg_macaddr (ms_registrar r)));;
      (match ms_value a, ms_value r with
       | (TalkerAdv t | TalkerFailed t), (TalkerAdv rt | TalkerFailed rt) =>
           ms_upd_at k (fun a => merge_talker r rt a t)
       | Listener t, Listener _ =>
           if ms_substate a =? ms_substate r then mret tt
           else
             known ← ms_talker_known a t;
             if known : bool then ms_upd_at k (merge_listener r) else mret tt
       | Domain d, Domain rd => ms_upd_at k (merge_domain rd d)
       | _, _ => mret tt
       end);;
      mret 0
  end.

(** ** Notifications *)

Definition msrp_send_notifications (x : msrp_attribute) (notify : mrp_notify) : MSRP Z :=
  msgbuf ← ms_malloc;
  if negb msgbuf then mret (-1)
  else
    variant ← ms_malloc;
    regsrc ← ms_malloc;
    if negb variant || negb regsrc then mret 0
    else
      match ms_notify_text x notify with
      | None => mret 0
      | Some text =>
          m ← ms_the_db;
          ms_each (fun c => ms_send_ctl_msg c text) (clients (ms_mrp_db m));;
          mret 0
      end.

(** The last loop of [msrp_event]; returns the list with its notifications cleared. *)
Fixpoint ms_notify_loop (l : list msrp_attribute) : MSRP (list msrp_attribute) :=
  match l with
  | [] => mret []
  | x :: l' =>
      x' ← (if decide (reg_notify (ms_registrar x) = NOTIFY_NONE) then mret x
            else
              msrp_send_notifications x (reg_notify (ms_registrar x));;
              mret (ms_set_notify NOTIFY_NONE x));
      l'' ← ms_notify_loop l';
      mret (x' :: l'')
  end.

(** ** Transmission *)

(** One of the four vector encoders at offset [ptr]: result and the offset behind it. *)
Definition ms_tx_emit (K : ms_kind) (lva : bool) (ptr : nat) (buf : list Z) : MSRP (option (nat * list Z)) :=
  m ← ms_the_db;
  '(rc, bytes, buf, l, n) ← lift (ms_emit_vectors K (os_malloc E) (asked (ms_mrp_db m)) buf ptr MAX_FRAME_SIZE lva
                                    (ms_send_empty m) (ms_list m));
  ms_upd_db (ms_set_list l);;
  ms_upd_mrp (set_asked n);;
  mret (if (rc : Z) =? -1 then None else Some ((ptr + bytes)%nat, buf)).

Definition ms_tx_send (ptr : nat) (buf : list Z) : MSRP Z :=
  if (ptr =? S ETH_HDR)%nat then mret (-1)
  else if (ptr + 2 <? MAX_FRAME_SIZE)%nat then
    buf ← lift (write_bytes buf ptr [0; 0]);
    let frame := take (ptr + 2) buf in
    m ← ms_the_db;
    ms_upd_mrp step_os;;
    modify (fun w => mkMsrp (MSRP_db w) (ms_frames w ++ [frame]) (ms_messages w));;
    mret (if os_send E (asked (ms_mrp_db m)) <=? 0 then -1 else 0)
  else mret (-1).

Definition msrp_txpdu : MSRP Z :=
  ok ← ms_malloc;
  if negb ok then mret (-1)
  else
    buf ← lift (write_bytes (replicate MAX_FRAME_SIZE 0) 12 (be_bytes 2 MSRP_ETYPE));
    buf ← lift (write_bytes buf 0 MSRP_ADDR);
    buf ← lift (write_bytes buf 6 STATION_ADDR);
    buf ← lift (write_bytes buf ETH_HDR [MSRP_PROT_VER]);
    m ← ms_the_db;
    let t := lva (ms_mrp_db m) in
    ms_upd_mrp (set_lva (mkTimer (lva_state t) false (lva_sndmsg t)));;
    r ← ms_tx_emit (talker_kind false) (lva_tx t) (S ETH_HDR) buf;
    match r with
    | None => mret (-1)
    | Some (ptr, buf) =>
        r ← ms_tx_emit (talker_kind true) (lva_tx t) ptr buf;
        match r with
        | None => mret (-1)
        | Some (ptr, buf) =>
            if (MAX_FRAME_SIZE <=? ptr + 2)%nat then mret (-1)
            else
              r ← ms_tx_emit listener_kind (lva_tx t) ptr buf;
              match r with
              | None => mret (-1)
              | Some (ptr, buf) =>
                  r ← ms_tx_emit domain_kind (lva_tx t) ptr buf;
                  match r with
                  | None => mret (-1)
                  | Some (ptr, buf) => ms_tx_send ptr buf
                  end
              end
        end
    end.

(** ** Reclaiming attributes *)

(** The attribute [k] points to. *)
Definition msrp_conditional_reclaim (k : msrp_key) : MSRP unit :=
  m ← ms_the_db;
  match msrp_lookup k (ms_list m) with
  | None => raise WildPointer
  | Some x =>
      if ms_reclaimable x then
        ms_upd_db (fun m => ms_set_list (ms_unlink k (ms_list m)) m);;
        msrp_send_notifications x NOTIFY_LV;;
        mret tt
      else mret tt
  end.

(** [msrp_conditional_reclaim] for each attribute, after a step of its machines. *)
Fixpoint ms_reclaim_loop (f : msrp_attribute -> mrp_database -> msrp_attribute * mrp_database)
    (l : list msrp_attribute) : MSRP (list msrp_attribute) :=
  match l with
  | [] => mret []
  | x :: l' =>
      m ← ms_the_db;
      let '(x', db) := f x (ms_mrp_db m) in
      ms_upd_mrp (fun _ => db);;
      if ms_reclaimable x' then
        msrp_send_notifications x' NOTIFY_LV;;
        ms_reclaim_loop f l'
      else
        l'' ← ms_reclaim_loop f l';
        mret (x' :: l'')
  end.

Definition ms_reclaim_all (f : msrp_attribute -> mrp_database -> msrp_attribute * mrp_database) : MSRP unit :=
  m ← ms_the_db;
  l ← ms_reclaim_loop f (ms_list m);
  ms_upd_db (ms_set_list l).

Definition msrp_reclaim : MSRP Z :=
  p ← gets MSRP_db;
  match p with
  | MsNoDb => mret 0
  | _ => ms_reclaim_all (fun x db => (x, db));; mret 0
  end.

(** ** Events *)

Definition ms_app_event (e : mrp_event) (x : msrp_attribute) : msrp_attribute :=
  ms_set_applicant (snd (mrp_applicant_fsm p2pmac (ms_applicant x) e (mrp_registrar_in (ms_registrar x)))) x.

Definition ms_reg_event (e : mrp_event) (x : msrp_attribute) (db : mrp_database)
  : msrp_attribute * mrp_database :=
  let '(rc, r, db) := mrp_registrar_fsm E (ms_registrar x) db e in (ms_set_registrar r x, db).

(** Applicant, then registrar, on the same event. *)
Definition ms_both_event (e : mrp_event) (x : msrp_attribute) (db : mrp_database)
  : msrp_attribute * mrp_database := ms_reg_event e (ms_app_event e x) db.

Definition ms_run (f : msrp_attribute -> mrp_database -> msrp_attribute * mrp_database) : MSRP unit :=
  ms_upd_db (fun m =>
    let '(l, db) := ms_for f (ms_list m) (ms_mrp_db m) in
    ms_set_list l (ms_set_mrp db m)).

Definition ms_event_lvatimer : MSRP unit :=
  ms_upd_mrp (fun db => snd (mrp_lvatimer_stop E db));;
  ms_upd_mrp (fun db => snd (mrp_jointimer_stop E db));;
  ms_run (ms_both_event EVENT_TXLA);;
  ms_upd_mrp (fun db => snd (mrp_lvatimer_fsm E db EVENT_LVATIMER));;
  ms_upd_db (ms_set_empty true);;
  ms_upd_mrp (fun db => snd (mrp_lvatimer_fsm E db EVENT_TX));;
  msrp_txpdu;;
  ms_upd_db (ms_set_empty false).

(** Only the attributes of the type of [rattrib] are told; without it the function
    returns early. *)
Definition ms_event_rla (rattrib : option msrp_type) : MSRP (option Z) :=
  ms_upd_mrp (fun db => snd (mrp_jointimer_start E db));;
  match rattrib with
  | None => mret (Some (-1))
  | Some t =>
      ms_run (fun x db => if decide (value_type (ms_value x) = t) then ms_both_event EVENT_RLA x db else (x, db));;
      ms_upd_mrp (fun db => snd (mrp_lvatimer_fsm E db EVENT_RLA));;
      mret None
  end.

Definition ms_event_tx : MSRP unit :=
  ms_upd_mrp (fun db => snd (mrp_jointimer_stop E db));;
  ms_run (fun x db => (ms_app_event EVENT_TX x, db));;
  m ← ms_the_db;
  let count := ms_tx_count (ms_list m) in
  msrp_txpdu;;
  if count =? 0 then mret tt else ms_upd_mrp (fun db => snd (mrp_jointimer_start E db)).

Definition ms_event_lvtimer : MSRP unit :=
  ms_upd_mrp (fun db => snd (mrp_lvtimer_stop E db));;
  ms_reclaim_all (ms_reg_event EVENT_LVTIMER).

(** Local requests are mapped to registrar events. *)
Definition ms_attribute_registrar (e : mrp_event) (x : msrp_attribute) (db : mrp_database)
  : msrp_attribute * mrp_database :=
  match e with
  | EVENT_NEW =>
      let '(x, db) := ms_reg_event EVENT_BEGIN x db in (ms_set_notify NOTIFY_NEW x, db)
  | EVENT_JOIN =>
      if decide (reg_state (ms_registrar x) = IN) then ms_reg_event EVENT_RJOININ x db
      else ms_reg_event EVENT_RJOINMT x db
  | EVENT_LV => ms_reg_event EVENT_RLV x db
  | _ => ms_reg_event e x db
  end.

(** Talker declarations are ignored while pruning is enabled, unless their stream is in
    the set of interesting streams or a listener declaration of it exists. *)
Definition ms_interested (r : msrp_attribute) : MSRP bool :=
  m ← ms_the_db;
  match ms_value r with
  | TalkerAdv t | TalkerFailed t =>
      if enable_pruning m then
        id ← lift (eui64_read (StreamID t));
        found ← lift (eui64set_find (interesting_stream_ids m) id);
        mret (bool_decide (is_Some found) ||
              bool_decide (is_Some (msrp_lookup (KListener (StreamID t)) (ms_list m))))
      else mret true
  | _ => mret true
  end.

(** The machines of the attribute [k] points to. *)
Definition ms_attribute_machines (e : mrp_event) (k : msrp_key) : MSRP unit :=
  m ← ms_the_db;
  match msrp_lookup k (ms_list m) with
  | None => raise WildPointer
  | Some x =>
      let '(x', db) := ms_attribute_registrar e (ms_app_event e x) (ms_mrp_db m) in
      ms_upd_db (fun m => ms_set_mrp db (ms_set_list (ms_at k (fun _ => x') (ms_list m)) m))
  end.

(** An event for one attribute; a result is the return before the notifications. *)
Definition ms_event_attribute (e : mrp_event) (rattrib : option msrp_attribute) : MSRP (option Z) :=
  match rattrib with
  | None => mret (Some (-1))
  | Some r =>
      interested ← ms_interested r;
      if negb interested then mret None
      else
        ms_upd_mrp (fun db => snd (mrp_jointimer_start E db));;
        m ← ms_the_db;
        let k := key_of (ms_value r) in
        let found := msrp_lookup k (ms_list m) in
        match found, e with
        | None, EVENT_RMT => mret (Some 0)
        | _, _ =>
            (match found with
             | None => ms_upd_db (fun m => ms_set_list (msrp_add r (ms_list m)) m)
             | Some _ => msrp_merge r;; mret tt
             end);;
            ms_attribute_machines e k;;
            msrp_conditional_reclaim k;;
            mret None
        end
  end.

Definition msrp_event (e : mrp_event) (rattrib : option msrp_attribute) : MSRP Z :=
  early ← (match e with
           | EVENT_LVATIMER => ms_event_lvatimer;; mret None
           | EVENT_RLA => ms_event_rla ((fun r => value_type (ms_value r)) <$> rattrib)
           | EVENT_TX => ms_event_tx;; mret None
           | EVENT_LVTIMER => ms_event_lvtimer;; mret None
           | EVENT_NEW | EVENT_JOIN | EVENT_RNEW | EVENT_RJOININ | EVENT_RJOINMT | EVENT_LV
           | EVENT_RIN | EVENT_RMT | EVENT_RLV => ms_event_attribute e rattrib
           | _ => mret None
           end);
  match early with
  | Some rc => mret rc
  | None =>
      m ← ms_the_db;
      l ← ms_notify_loop (ms_list m);
      ms_upd_db (ms_set_list l);;
      mret 0
  end.

(** ** Reception

    The code for the four types is the same but for the width and the fields of the
    first value; listeners have a substate for each value. *)

(** Stores substates into [listener_vectevt], which has [sz] entries and grows by 64;
    [None] is the jump to [out] when that fails. *)
Fixpoint ms_store_substates (evts acc : list Z) (sz : nat) : MSRP (option (list Z * nat)) :=
  match evts with
  | [] => mret (Some (acc, sz))
  | s :: evts' =>
      if (length acc =? sz)%nat then
        ok ← ms_malloc;
        if ok : bool then ms_store_substates evts' (acc ++ [s]) (sz + 64) else mret None
      else ms_store_substates evts' (acc ++ [s]) sz
  end.

(** The [n] bytes of four-packed events from offset [off] on. *)
Fixpoint ms_substate_loop (n : nat) (buf : list Z) (off : nat) (numvalues : Z) (acc : list Z) (sz : nat)
  : MSRP (option (list Z * nat)) :=
  match n with
  | O => mret (Some (acc, sz))
  | S n =>
      b ← lift (rd buf off);
      let processed := if 4 <? numvalues then 4 else numvalues in
      r ← ms_store_substates (take (Z.to_nat processed) (decode4 b)) acc sz;
      match r with
      | None => mret None
      | Some (acc, sz) => ms_substate_loop n buf (S off) (numvalues - processed) acc sz
      end
  end.

(** The substates of the vector at offset [v]; [sz] is the size of [listener_vectevt],
    which is allocated when it is first needed. *)
Definition ms_substates (buf : list Z) (eof v : nat) (numvalues : Z) (sz : option nat)
  : MSRP (option (list Z * nat)) :=
  let vectidx := (8 + Z.to_nat (packed 3 numvalues))%nat in
  let numvectorbytes := Z.to_nat (packed 4 numvalues) in
  if (eof <=? v + 2 + (vectidx + numvectorbytes))%nat then mret None
  else
    ok ← (match sz with Some _ => mret true | None => ms_malloc end);
    if negb ok then mret None
    else ms_substate_loop numvectorbytes buf (v + 2 + vectidx) numvalues [] (default 64%nat sz).

(** The innermost loop: one attribute per event value; listeners to be ignored are
    skipped.  [None] is the jump to [out] when an allocation fails; otherwise the next
    value and the substates that are left. *)
Fixpoint ms_value_loop (src evts : list Z) (value : msrp_value) (subs : list Z)
  : MSRP (option (msrp_value * list Z)) :=
  match evts with
  | [] => mret (Some (value, subs))
  | v :: evts' =>
      let sub := nth 0 subs 0 in
      if is_listener value && (sub =? LISTENER_IGNORE)
      then ms_value_loop src evts' (ms_next_value value) (drop 1 subs)
      else
        a ← msrp_alloc value;
        match a with
        | None => mret None
        | Some a =>
            let a := if is_listener value then ms_set_substate sub a else a in
            (match rx_event v with
             | Some e => msrp_event e (Some (ms_set_source src a));; mret tt
             | None => mret tt
             end);;
            ms_value_loop src evts' (ms_next_value value) (drop 1 subs)
        end
  end.

(** [n] vector bytes from offset [off] on, with [numvalues] values left; a byte whose
    first event is out of range is skipped. *)
Fixpoint ms_byte_loop (n : nat) (buf src : list Z) (off : nat) (numvalues : Z) (value : msrp_value)
    (subs : list Z) : MSRP (option (msrp_value * list Z)) :=
  match n with
  | O => mret (Some (value, subs))
  | S n =>
      b ← lift (rd buf off);
      let processed := if 3 <? numvalues then 3 else numvalues in
      if MRPDU_LV <? nth 0 (decode3 b) 0 then ms_byte_loop n buf src (S off) (numvalues - processed) value subs
      else
        r ← ms_value_loop src (take (Z.to_nat processed) (decode3 b)) value subs;
        match r with
        | None => mret None
        | Some (value, subs) => ms_byte_loop n buf src (S off) (numvalues - processed) value subs
        end
  end.

(** The values of the vector at offset [v].  [None] is the jump to [out]; otherwise the
    offset behind the vector and the size of [listener_vectevt]. *)
Definition ms_one_vector (t : msrp_type) (buf src : list Z) (eof v : nat) (header : Z) (sz : option nat)
  : MSRP (option (nat * option nat)) :=
  let K := kind_of t in
  let width := sk_length K in
  let numvalues := MRPDU_VECT_NUMVALUES header in
  let fours := if sk_four K then Z.to_nat (packed 4 numvalues) else 0%nat in
  if numvalues =? 0 then mret (Some ((v + 2 + width)%nat, sz))
  else if (eof <=? v + 2 + Z.to_nat (numvalues / 3) + (if sk_four K then Z.to_nat (numvalues / 4) else 0))%nat
  then mret None
  else
    first ← lift (read_bytes buf (v + 2) width);
    s ← (if sk_four K then ms_substates buf eof v numvalues sz else mret (Some ([], default 64%nat sz)));
    match s with
    | None => mret None
    | Some (subs, sz') =>
        let sz := if sk_four K then Some sz' else sz in
        let threes := Z.to_nat (packed 3 numvalues) in
        r ← ms_byte_loop (threes + 1) buf src (v + 2 + width) numvalues (ms_read_first t first) subs;
        mret (match r with
              | None => None
              | Some _ => Some ((v + 2 + width + threes + fours)%nat, sz)
              end)
    end.

(** A LeaveAll for the type, once in a frame: [None] is the jump to [out], otherwise the
    types it was seen for. *)
Definition ms_leaveall (t : msrp_type) (header : Z) (saw : list msrp_type) : MSRP (option (list msrp_type)) :=
  if MRPDU_VECT_LVA header && negb (bool_decide (t ∈ saw)) then
    a ← msrp_alloc (ms_read_first t (replicate 34 0));
    match a with
    | None => mret None
    | Some a => msrp_event EVENT_RLA (Some a);; mret (Some (t :: saw))
    end
  else mret (Some saw).

(** The vectors of one message from offset [v] on.  [None] is the jump to [out];
    otherwise the offset of the end mark, the LeaveAlls seen and the array size. *)
Fixpoint ms_vector_loop (fuel : nat) (t : msrp_type) (buf src : list Z) (eof v : nat) (saw : list msrp_type)
    (sz : option nat) : MSRP (option (nat * list msrp_type * option nat)) :=
  match fuel with
  | O => raise FuelExhausted
  | S fuel =>
      b0 ← lift (rd buf v);
      b1 ← lift (rd buf (v + 1));
      if (b0 =? 0) && (b1 =? 0) then mret (Some (v, saw, sz))
      else
        let header := be_val [b0; b1] in
        s ← ms_leaveall t header saw;
        match s with
        | None => mret None
        | Some saw =>
            r ← ms_one_vector t buf src eof v header sz;
            match r with
            | None => mret None
            | Some (v', sz) => ms_vector_loop fuel t buf src eof v' saw sz
            end
        end
  end.

(** The length of a vector with [numvalues] values, skipped when the length of its list
    is not plausible. *)
Definition ms_skip (K : ms_kind) (numvalues : Z) : nat :=
  (2 + sk_length K + Z.to_nat ((numvalues + 2) / 3) +
   (if sk_four K then Z.to_nat ((numvalues + 3) / 4) else 0))%nat.

(** The messages of a PDU from offset [ptr] on: the result of [msrp_recv_msg]. *)
Fixpoint ms_message_loop (fuel : nat) (buf src : list Z) (eof ptr : nat) (endmarks : Z) (saw : list msrp_type)
    (sz : option nat) : MSRP Z :=
  match fuel with
  | O => raise FuelExhausted
  | S fuel =>
      if (ptr + 2 <? eof)%nat then
        ty ← lift (rd buf ptr);
        len ← lift (rd buf (ptr + 1));
        if (ty =? 0) && (len =? 0) then
          if endmarks + 1 <? 2 then ms_message_loop fuel buf src eof (ptr + 2) (endmarks + 1) saw sz
          else mret 0
        else
          match type_of_code ty with
          | None => mret (-1)
          | Some t =>
              let K := kind_of t in
              if negb (len =? Z.of_nat (sk_length K)) then mret (-1)
              else
                ok ← lift (msrp_recv_msg_check_attrib_list_len buf (ptr + 2) eof);
                if negb ok then
                  h ← lift (read_bytes buf (ptr + 4) 2);
                  ms_message_loop fuel buf src eof (ptr + 4 + ms_skip K (MRPDU_VECT_NUMVALUES (be_val h))) 0 saw sz
                else
                  r ← ms_vector_loop (S (length buf)) t buf src eof (ptr + 4) saw sz;
                  match r with
                  | None => mret (-1)
                  | Some (ptr', saw', sz') => ms_message_loop fuel buf src eof ptr' 0 saw' sz'
                  end
          end
      else mret 0
  end.

(** [frame] is what [mrpd_recvmsgbuf] received; its buffer is zero beyond it. *)
Definition msrp_recv_msg (frame : list Z) : MSRP Z :=
  let buf := frame ++ replicate (MAX_FRAME_SIZE - length frame) 0 in
  let bytes := length frame in
  if (bytes <=? 0)%nat then mret (-1)
  else if (bytes <? ETH_HDR + 1 + 2)%nat then mret (-1)
  else
    ty ← lift (read_bytes buf 12 2);
    if negb (be_val ty =? MSRP_ETYPE) then mret (-1)
    else
      dest ← lift (read_bytes buf 0 6);
      if negb (bool_decide (dest = MSRP_ADDR)) then mret (-1)
      else
        src ← lift (read_bytes buf 6 6);
        ms_message_loop (S (length buf)) buf src bytes (ETH_HDR + 1) 0 [] None.

(** ** Client commands *)

(** One line of the table, staged through 128 byte buffers. *)
Definition ms_table_line (x : msrp_attribute) : outcome (list Z) :=
  variant ← sprintf 128 (ms_variant true x);
  regsrc ← sprintf 128 (ms_regsrc x ++ str " " ++ ms_state x);
  sprintf 128 (variant ++ str " " ++ regsrc ++ newline).

(** Appends a line for each attribute to the message buffer. *)
Fixpoint ms_dump_loop (l : list msrp_attribute) (text : list Z) : outcome (list Z) :=
  match l with
  | [] => mret text
  | x :: l' =>
      stage ← ms_table_line x;
      text ← sprintf MAX_MRPD_CMDSZ (text ++ stage);
      ms_dump_loop l' text
  end.

Definition msrp_dumptable (client : sockaddr_in) : MSRP Z :=
  msgbuf ← ms_malloc;
  if negb msgbuf then mret (-1)
  else
    stage ← ms_malloc;
    variant ← ms_malloc;
    regsrc ← ms_malloc;
    if negb stage || negb variant || negb regsrc then mret 0
    else
      m ← ms_the_db;
      text ← lift (match ms_list m with
                   | [] => sprintf MAX_MRPD_CMDSZ (str "MSRP:Empty" ++ newline)
                   | l => ms_dump_loop l []
                   end);
      ms_send_ctl_msg client text;;
      mret 0.

(** An event for an attribute with the given value, operation and substate. *)
Definition ms_cmd_value (v : msrp_value) (op : msrp_operation) (substate : Z) (e : mrp_event) : MSRP Z :=
  a ← msrp_alloc v;
  match a with
  | None => mret (-1)
  | Some a => msrp_event e (Some (ms_set_substate substate (ms_set_operation op a)));; mret 0
  end.

Definition msrp_cmd_join_or_new_stream (t : talk_listen) (failed : bool) (e : mrp_event) : MSRP Z :=
  ms_cmd_value (if failed then TalkerFailed t else TalkerAdv t) OPERATION_DECLARE 0 e.

Definition msrp_cmd_leave_stream (t : talk_listen) : MSRP Z :=
  ms_cmd_value (TalkerAdv t) OPERATION_REGISTER 0 EVENT_LV.

Definition msrp_cmd_report_listener_status (t : talk_listen) (substate : Z) : MSRP Z :=
  ms_cmd_value (Listener t) OPERATION_DECLARE substate EVENT_NEW.

(** The substate of the declaration is kept. *)
Definition msrp_cmd_withdraw_listener_status (t : talk_listen) : MSRP Z :=
  a ← msrp_alloc (Listener t);
  match a with
  | None => mret (-1)
  | Some a =>
      m ← ms_the_db;
      let a := match msrp_lookup (KListener (StreamID t)) (ms_list m) with
               | Some x => ms_set_substate (ms_substate x) a
               | None => a
               end in
      msrp_event EVENT_LV (Some a);;
      mret 0
  end.

Definition msrp_cmd_report_domain_status (d : msrp_domain) (report : bool) : MSRP Z :=
  ms_cmd_value (Domain (mkDomain (SRclassID d) (SRclassPriority d) (SRclassPriority d) (SRclassVID d)))
    OPERATION_REGISTER 0 (if report then EVENT_JOIN else EVENT_LV).

(** The 64 byte response buffer takes 62 characters of the reply; the command is read
    to its end all the same. *)
Definition ms_respond (client : sockaddr_in) (prefix : string) (buf suffix : list Z) : MSRP unit :=
  text ← lift (c_string MAX_MRPD_CMDSZ buf);
  ms_send_ctl_msg client (snprintf 63 (str prefix ++ text ++ suffix)).

(** [out_ERP], [out_ERI]. *)
Definition ms_erp (client : sockaddr_in) (buf : list Z) : MSRP Z := ms_respond client "ERP " buf [];; mret (-1).
Definition ms_eri (client : sockaddr_in) (buf : list Z) : MSRP Z := ms_respond client "ERI " buf [];; mret (-1).

(** The replies to a parsed command; [left] is what the parser left of it. *)
Definition ms_perform (client : sockaddr_in) (buf left : list Z) (rc : Z) (cmd : MSRP Z) : MSRP Z :=
  if negb (rc =? 0) then ms_erp client left
  else
    rc ← cmd;
    if negb (rc =? 0) then ms_eri client buf else mret 0.

(** Removes the talker declarations of a stream from the list, without notifying. *)
Definition ms_forget (id : list Z) : MSRP unit :=
  ms_upd_db (fun m => ms_set_list (ms_drop_talkers id (ms_list m)) m).

(** S-L: with pruning, talkers of a stream that is not interesting are forgotten. *)
Definition ms_cmd_withdraw (t : talk_listen) : MSRP Z :=
  rc ← msrp_cmd_withdraw_listener_status t;
  if negb (rc =? 0) then mret rc
  else
    m ← ms_the_db;
    if enable_pruning m then
      id ← lift (eui64_read (StreamID t));
      found ← lift (eui64set_find (interesting_stream_ids m) id);
      (if decide (found = None) then ms_forget (StreamID t) else mret tt);;
      mret 0
    else mret 0.

(** I+S. *)
Definition ms_cmd_interesting (id : list Z) : MSRP Z :=
  m ← ms_the_db;
  v ← lift (eui64_read id);
  found ← lift (eui64set_find (interesting_stream_ids m) v);
  if bool_decide (is_Some found) then mret (-1)
  else
    '(rc, s) ← lift (eui64set_insert_and_sort (interesting_stream_ids m) v None);
    ms_upd_db (ms_set_ids s);;
    mret (if (rc : Z) =? 0 then -1 else 0).

(** I-S: without a listener, the talkers of the stream are forgotten. *)
Definition ms_cmd_uninteresting (id : list Z) : MSRP Z :=
  m ← ms_the_db;
  v ← lift (eui64_read id);
  '(rc, s, _) ← lift (eui64set_remove_and_sort (interesting_stream_ids m) v);
  ms_upd_db (ms_set_ids s);;
  if (rc : Z) =? 0 then mret (-1)
  else
    (if decide (msrp_lookup (KListener id) (ms_list m) = None) then ms_forget id else mret tt);;
    mret 0.

(** [mrp_client_add] on the database; it allocates only for a new client. *)
Definition ms_add_client (client : sockaddr_in) : MSRP unit :=
  m ← ms_the_db;
  ok ← (if client_lookup (clients (ms_mrp_db m)) (Some client) then mret true else ms_malloc);
  ms_upd_mrp (fun db => set_clients (snd (mrp_client_add ok (clients db) (Some client))) db).

Definition ms_cmd_stream (client : sockaddr_in) (buf : list Z) : MSRP Z :=
  text ← lift (c_string MAX_MRPD_CMDSZ buf);
  let failed := bool_decide (is_Some (strstr_after (str "B=") text)) in
  let '(rc, t) := if failed then msrp_cmd_parse_join_or_new_stream_failure buf
                  else msrp_cmd_parse_join_or_new_stream buf in
  ms_perform client buf (if failed then command_left 47 buf (talker_params ++ failure_params)
                         else command_left 22 buf talker_params) rc
    (msrp_cmd_join_or_new_stream t failed (if nth 2 buf 0 =? 63 then EVENT_JOIN else EVENT_NEW)).

(** The commands, for a database with or without pruning. *)
Definition ms_dispatch (buf : list Z) (client : sockaddr_in) (pruning : bool) : MSRP Z :=
  let starts s := strneq (String.length s) buf (str s) in
  if starts "S??"%string then msrp_dumptable client;; mret 0
  else if starts "S-L"%string then
    let '(rc, t) := msrp_cmd_parse_withdraw_listener_status buf in
    ms_perform client buf (command_left 22 buf [param "L" parse_c64]) rc (ms_cmd_withdraw t)
  else if starts "S-D"%string then
    let '(rc, d) := msrp_cmd_parse_domain_status buf in
    ms_perform client buf (command_left 18 buf domain_params) rc (msrp_cmd_report_domain_status d false)
  else if starts "S--"%string then
    let '(rc, t) := msrp_cmd_parse_leave_stream buf in
    ms_perform client buf (command_left 22 buf [param "S" parse_c64]) rc (msrp_cmd_leave_stream t)
  else if starts "S+L"%string then
    let '(rc, t, substate) := msrp_cmd_parse_report_listener_status buf in
    ms_perform client buf (command_left 26 buf [param "L" parse_c64; param "D" parse_u32]) rc
      (msrp_cmd_report_listener_status t substate)
  else if starts "S+D"%string then
    let '(rc, d) := msrp_cmd_parse_domain_status buf in
    ms_perform client buf (command_left 18 buf domain_params) rc (msrp_cmd_report_domain_status d true)
  else if starts "S+?"%string || starts "S++"%string then ms_cmd_stream client buf
  else if starts "I+S"%string then
    if negb pruning then ms_erp client buf
    else
      let '(rc, id) := msrp_cmd_parse_stream_id buf in
      ms_perform client buf (command_left 20 buf [param "S" parse_c64]) rc (ms_cmd_interesting id)
  else if starts "I-S"%string then
    if negb pruning then ms_erp client buf
    else
      let '(rc, id) := msrp_cmd_parse_stream_id buf in
      ms_perform client buf (command_left 20 buf [param "S" parse_c64]) rc (ms_cmd_uninteresting id)
  else if starts "I-A"%string then
    ms_upd_db (fun m => ms_set_ids (eui64set_clear (interesting_stream_ids m)) m);; mret 0
  else ms_respond client "ERC MSRP " buf [];; mret (-1).

Definition msrp_recv_cmd (buf : list Z) (client : sockaddr_in) : MSRP Z :=
  p ← gets MSRP_db;
  match p with
  | MsNoDb => ms_respond client "ERC MSRP_db " buf newline;; mret (-1)
  | _ =>
      ms_add_client client;;
      m ← ms_the_db;
      if enable_pruning m && (1 <? mrp_client_count (clients (ms_mrp_db m))) then
        ms_upd_mrp (fun db => set_clients (snd (mrp_client_delete (clients db) (Some client))) db);;
        ms_send_ctl_msg client (str "ERR pruning enabled too many clients" ++ newline);;
        mret (-1)
      else if (length buf <? 3)%nat then mret (-1)
      else if negb (nth 0 buf 0 =? 83) && negb (nth 0 buf 0 =? 73) then mret (-1)
      else ms_dispatch buf client (enable_pruning m)
  end.

(** ** Life cycle *)

(** [rc_socket], [malloc_ok], [calloc_ok] and [rc_timers]: what opening the socket,
    allocating the database and the set and creating the timers return. *)
Definition msrp_init (msrp_enable max_interesting_stream_ids : Z) (pruning : bool)
    (rc_socket : Z) (malloc_ok calloc_ok : bool) (rc_timers : Z) : MSRP Z :=
  let set p := modify (fun w => mkMsrp p (ms_frames w) (ms_messages w)) in
  set MsNoDb;;
  if msrp_enable =? 0 then mret 0
  else if rc_socket <? 0 then mret (-1)
  else if negb malloc_ok then mret (-1)
  else
    let max := if max_interesting_stream_ids <? 8 then 8 else max_interesting_stream_ids in
    let '(rc, s) := eui64set_init max calloc_ok in
    if rc <? 0 then mret (-1)
    else if rc_timers <? 0 then mret (-1)
    else
      let db := mkMrpDb (mkTimer TIMER_PASSIVE false SND_NEW) None false None false None false [] 0 0 0 in
      set (MsDb (mkMsrpDb (snd (mrp_lvatimer_fsm E db EVENT_BEGIN)) [] false s pruning));;
      mret 0.

(** Releases the attributes, the set, the clients and the database; the pointer stays. *)
Definition msrp_reset : MSRP unit :=
  p ← gets MSRP_db;
  match p with
  | MsNoDb => mret tt
  | _ => ms_the_db;; modify (fun w => mkMsrp MsFreedDb (ms_frames w) (ms_messages w))
  end.

Definition msrp_interesting_id_count : MSRP Z :=
  p ← gets MSRP_db;
  match p with
  | MsNoDb => mret 0
  | _ => m ← ms_the_db; mret (eui64set_num_entries (interesting_stream_ids m))
  end.

Definition msrp_bye (client : sockaddr_in) : MSRP unit :=
  p ← gets MSRP_db;
  match p with
  | MsNoDb => mret tt
  | _ => ms_upd_mrp (fun db => set_clients (snd (mrp_client_delete (clients db) (Some client))) db)
  end.

End Msrp.
