(* ===== verification/MsrpTheory.v ===== *)
(** * MSRP: the attribute list

    The list of attributes has one attribute per key and represents a finite map from
    keys to records: the value declared, the listener substate, the direction and the
    states of the two machines.  Its order matters to the encoders only. *)

From S2P Require Import Prelude.
From S2P Require Import Mrp.
From S2P Require Import MrpTheory.
From S2P Require Import Mvrp.
From S2P Require Import MvrpEvent.
From S2P Require Import Mmrp.
From S2P Require Import MmrpTheory.
From S2P Require Import Msrp.

Open Scope Z_scope.
Local Abbreviation length := List.length.

(** ** Values and keys *)

#[global] Instance msrp_key_countable : Countable msrp_key.
Proof.
  refine (inj_countable'
    (fun k => match k with KTalker i => inl (inl i) | KListener i => inl (inr i) | KDomain c => inr c end)
    (fun s => match s with inl (inl i) => KTalker i | inl (inr i) => KListener i | inr c => KDomain c end) _).
  by intros [].
Defined.

Definition octets (n : nat) (b : list Z) : Prop := bytes b /\ length b = n.

Record talk_ok (t : talk_listen) : Prop := {
  tk_id : octets 8 (StreamID t);
  tk_dest : octets 6 (Dest_Addr t);
  tk_vid : is_u16 (Vlan_ID t);
  tk_size : is_u16 (MaxFrameSize t);
  tk_frames : is_u16 (MaxIntervalFrames t);
  tk_prio : is_u8 (PriorityAndRank t);
  tk_latency : is_u32 (AccumulatedLatency t);
  tk_bridge : octets 8 (BridgeID t);
  tk_code : is_u8 (FailureCode t)
}.

Definition domain_ok (d : msrp_domain) : Prop :=
  is_u8 (SRclassID d) /\ is_u8 (SRclassPriority d) /\ is_u8 (neighborSRclassPriority d) /\ is_u16 (SRclassVID d).

Definition ms_value_ok (v : msrp_value) : Prop :=
  match v with
  | TalkerAdv t | TalkerFailed t | Listener t => talk_ok t
  | Domain d => domain_ok d
  end.

(** Identifiers have eight bytes. *)
Definition key_ok (k : msrp_key) : Prop :=
  match k with KTalker i | KListener i => length i = 8%nat | KDomain _ => True end.

Definition ms_key (x : msrp_attribute) : msrp_key := key_of (ms_value x).

Lemma key_of_ok v : ms_value_ok v -> key_ok (key_of v).
Proof. destruct v as [t|t|t|d]; cbn; try done; intros H; apply H. Qed.

Lemma memcmp_eq a b : length a = length b -> (memcmp a b =? 0) = bool_decide (a = b).
Proof.
  intros Hl. destruct (decide (a = b)) as [->|Hne].
  - by rewrite memcmp_refl, bool_decide_true.
  - rewrite bool_decide_false by done. apply Z.eqb_neq. by intros ?%memcmp_0.
Qed.

Lemma same_key_eq j k : key_ok j -> key_ok k -> same_key j k = bool_decide (j = k).
Proof.
  destruct j as [i|i|c], k as [i'|i'|c']; cbn; intros Hj Hk; try (by rewrite bool_decide_false).
  - rewrite memcmp_eq by congruence. apply bool_decide_ext. split; congruence.
  - rewrite memcmp_eq by congruence. apply bool_decide_ext. split; congruence.
  - rewrite (bool_decide_ext (KDomain c = KDomain c') (c = c')) by (split; congruence).
    destruct (Z.eqb_spec c c'); [by rewrite bool_decide_true|by rewrite bool_decide_false].
Qed.

Definition keys_ok (l : list msrp_attribute) : Prop := Forall (fun x => key_ok (ms_key x)) l.

(** ** Lookup *)

Lemma ms_lookup_split k l x :
  key_ok k -> keys_ok l -> msrp_lookup k l = Some x ->
  exists A B, l = A ++ x :: B /\ ms_key x = k /\ k ∉ (ms_key <$> A).
Proof.
  intros Hk. induction 1 as [|y l Hy Hl IH]; cbn; [done|]. fold (ms_key y). rewrite (same_key_eq _ _ Hy Hk).
  case_bool_decide as Hd.
  - intros [= ->]. exists [], l. split_and!; [done..|]. apply not_elem_of_nil.
  - intros (A&B&->&?&?)%IH. exists (y :: A), B. split_and!; [done..|]. cbn.
    apply not_elem_of_cons. split; [congruence|done].
Qed.

Lemma ms_lookup_middle k A x B :
  key_ok k -> keys_ok (A ++ x :: B) -> ms_key x = k -> k ∉ (ms_key <$> A) ->
  msrp_lookup k (A ++ x :: B) = Some x /\ (forall f, ms_at k f (A ++ x :: B) = A ++ f x :: B) /\
  ms_unlink k (A ++ x :: B) = A ++ B.
Proof.
  intros Hk Hok Hx. induction A as [|y A IH]; cbn in *.
  - apply Forall_cons in Hok as [Hokx _]. fold (ms_key x). rewrite (same_key_eq _ _ Hokx Hk).
    by rewrite bool_decide_true.
  - apply Forall_cons in Hok as [Hoky Hok]. rewrite not_elem_of_cons. intros [Hne Hn].
    fold (ms_key y). rewrite (same_key_eq _ _ Hoky Hk), bool_decide_false by congruence.
    destruct (IH Hok Hn) as (->&Hat&->). split_and!; [done| |done]. intros f. by rewrite Hat.
Qed.

(** A new attribute is put somewhere in the list. *)
Lemma msrp_add_split r l : exists A B, l = A ++ B /\ msrp_add r l = A ++ r :: B.
Proof.
  induction l as [|a l (A&B&HA&IH)]; [by exists [], []|]. cbn [msrp_add].
  assert (Hlater : exists A' B', a :: l = A' ++ B' /\ a :: msrp_add r l = A' ++ r :: B').
  { exists (a :: A), B. by rewrite IH, HA. }
  assert (Hnow : exists A' B', a :: l = A' ++ B' /\ a :: r :: l = A' ++ r :: B') by (by exists [a], l).
  case_decide; [|done]. destruct (value_before _ _); [|by exists [], (a :: l)].
  destruct l as [|n l']; [done|]. case_decide; done.
Qed.

(** ** The table *)

Record ms_record : Type := mkRec {
  r_value : msrp_value;
  r_substate : Z;
  r_operation : msrp_operation;
  r_states : entry
}.

Definition ms_states (x : msrp_attribute) : entry := (app_state (ms_applicant x), reg_state (ms_registrar x)).

Definition ms_core (x : msrp_attribute) : ms_record :=
  mkRec (ms_value x) (ms_substate x) (ms_operation x) (ms_states x).

Definition ms_table (l : list msrp_attribute) : gmap msrp_key ms_record :=
  list_to_map ((fun x => (ms_key x, ms_core x)) <$> l).

Lemma ms_table_cons x l : ms_table (x :: l) = <[ms_key x := ms_core x]> (ms_table l).
Proof. done. Qed.

Lemma ms_table_not_in l k : k ∉ (ms_key <$> l) -> ms_table l !! k = None.
Proof. intros Hn. apply not_elem_of_list_to_map_1. rewrite <- list_fmap_compose. exact Hn. Qed.

Lemma ms_table_middle A x B :
  ms_key x ∉ (ms_key <$> A) -> ms_table (A ++ x :: B) = <[ms_key x := ms_core x]> (ms_table (A ++ B)).
Proof.
  induction A as [|y A IH]; [done|]. cbn [app]. rewrite fmap_cons, not_elem_of_cons. intros [Hne Hn].
  rewrite !ms_table_cons, IH by done. by apply insert_insert_ne.
Qed.

(** What [msrp_lookup] finds is what the table holds. *)
Lemma ms_table_lookup k l : key_ok k -> keys_ok l -> ms_table l !! k = ms_core <$> msrp_lookup k l.
Proof.
  intros Hk. induction 1 as [|x l Hx Hl IH]; [done|]. rewrite ms_table_cons. cbn [msrp_lookup].
  fold (ms_key x). rewrite (same_key_eq _ _ Hx Hk). case_bool_decide as Hd.
  - rewrite <- Hd. apply lookup_insert_eq.
  - by rewrite lookup_insert_ne.
Qed.

Lemma ms_lookup_None k l : key_ok k -> keys_ok l -> msrp_lookup k l = None <-> k ∉ (ms_key <$> l).
Proof.
  intros Hk. induction 1 as [|x l Hx Hl IH]; cbn; [split; [intros _; apply not_elem_of_nil|done]|].
  fold (ms_key x). rewrite not_elem_of_cons, (same_key_eq _ _ Hx Hk).
  destruct (decide (ms_key x = k)) as [<-|Hne]; [rewrite bool_decide_true by done; naive_solver|].
  rewrite bool_decide_false by done. rewrite IH. naive_solver.
Qed.

(** A change of each attribute, or its removal. *)
Lemma ms_table_omap (f : msrp_attribute -> option msrp_attribute) (g : ms_record -> option ms_record) l :
  (forall x y, x ∈ l -> f x = Some y -> ms_key y = ms_key x) -> (forall x, x ∈ l -> ms_core <$> f x = g (ms_core x)) ->
  NoDup (ms_key <$> l) -> ms_table (omap f l) = omap g (ms_table l).
Proof.
  intros Hk Hc Hnd. induction l as [|x l IH]; [symmetry; apply omap_empty|].
  apply NoDup_cons in Hnd as [Hn Hnd]. rewrite ms_table_cons.
  specialize (IH (fun y z Hy => Hk y z (list_elem_of_further _ _ _ Hy)) (fun y Hy => Hc y (list_elem_of_further _ _ _ Hy)) Hnd).
  pose proof (Hk x) as Hkx. pose proof (Hc x (list_elem_of_here _ _)) as Hcx.
  cbn [omap list_omap]. change (list_omap _ _ f l) with (omap f l).
  destruct (f x) as [y|]; cbn in Hcx.
  - rewrite ms_table_cons, (Hkx y (list_elem_of_here _ _) eq_refl), IH. symmetry. by apply omap_insert_Some.
  - rewrite omap_insert_None, <- IH by done. symmetry. apply delete_id. rewrite IH.
    rewrite lookup_omap. apply ms_table_not_in in Hn. unfold ms_key in *. by rewrite Hn.
Qed.

Lemma ms_table_fmap (f : msrp_attribute -> msrp_attribute) (g : ms_record -> ms_record) l :
  (forall x, x ∈ l -> ms_key (f x) = ms_key x) -> (forall x, x ∈ l -> ms_core (f x) = g (ms_core x)) ->
  ms_table (f <$> l) = g <$> ms_table l.
Proof.
  intros Hk Hc. induction l as [|x l IH]; [symmetry; apply fmap_empty|].
  rewrite fmap_cons, !ms_table_cons, fmap_insert.
  rewrite (Hk x), (Hc x), IH; [done|..]; intros; [apply Hk|apply Hc|..]; by constructor.
Qed.

Lemma omap_keys (f : msrp_attribute -> option msrp_attribute) l :
  (forall x y, f x = Some y -> ms_key y = ms_key x) -> sublist (ms_key <$> omap f l) (ms_key <$> l).
Proof.
  intros Hf. induction l as [|x l IH]; [done|]. cbn. destruct (f x) as [y|] eqn:Hx; cbn.
  - rewrite (Hf _ _ Hx). by constructor.
  - by constructor.
Qed.

(** The part of the list without the talkers of a stream. *)
Lemma fmap_keys f (l : list msrp_attribute) :
  (forall x, ms_key (f x) = ms_key x) -> ms_key <$> (f <$> l) = ms_key <$> l.
Proof. intros Hf. rewrite <- list_fmap_compose. apply list_fmap_ext. intros ? x ?. apply Hf. Qed.
