(* ===== verification/MsrpEmit.v ===== *)
(** * MSRP: assembly of frames

    The encoders change marks only, and stay inside their buffer as long as it has room
    for each attribute in a vector of its own and for an empty LeaveAll. *)

From S2P Require Import Prelude.
From S2P Require Import Mrp.
From S2P Require Import MrpTheory.
From S2P Require Import Mvrp.
From S2P Require Import Mmrp.
From S2P Require Import MmrpEmit.
From S2P Require Import Msrp.
From S2P Require Import MsrpTheory.

Open Scope Z_scope.
Local Abbreviation length := List.length.

(** ** Marks *)

(** Marks are set or cleared, nothing else is changed. *)
Definition ms_marked (l l' : list msrp_attribute) : Prop :=
  Forall2 (fun x x' => exists b, x' = ms_set_tx b x) l l'.

Lemma ms_set_tx_id x : x = ms_set_tx (app_tx (ms_applicant x)) x.
Proof. by destruct x as [? ? ? [] ?]. Qed.

Lemma ms_marked_refl l : ms_marked l l.
Proof. induction l as [|x l IH]; constructor; [|done]. exists (app_tx (ms_applicant x)). apply ms_set_tx_id. Qed.

Lemma ms_marked_trans l1 l2 l3 : ms_marked l1 l2 -> ms_marked l2 l3 -> ms_marked l1 l3.
Proof.
  intros H. revert l3. induction H as [|x y l l' [b ->] _ IH]; intros l3 H3;
    inversion H3 as [|? z ? ? [b' ->] Hr]; subst; constructor; [by exists b'|by apply IH].
Qed.

#[export] Hint Resolve ms_marked_refl : core.

(** How many attributes a kind has, and how many of them are marked for transmission. *)
Definition ms_count (K : ms_kind) (l : list msrp_attribute) : nat :=
  length (filter (fun x => value_type (ms_value x) = sk_type K) l).

Definition ms_pending (K : ms_kind) (l : list msrp_attribute) : nat :=
  length (filter (fun x => value_type (ms_value x) = sk_type K /\ app_tx (ms_applicant x) = true) l).

Lemma ms_pending_cons K x l :
  ms_pending K (x :: l) =
  ((if bool_decide (value_type (ms_value x) = sk_type K) && app_tx (ms_applicant x) then 1 else 0) + ms_pending K l)%nat.
Proof.
  unfold ms_pending. rewrite filter_cons. case_decide as Hd.
  - destruct Hd as [Ht ->]. by rewrite bool_decide_true.
  - case_bool_decide; [|done]. destruct (app_tx (ms_applicant x)); [|done]. by destruct Hd.
Qed.

Lemma ms_pending_clear K x l : ms_pending K (ms_set_tx false x :: l) = ms_pending K l.
Proof. rewrite ms_pending_cons. cbn. by rewrite andb_false_r. Qed.

Lemma ms_count_cons K x l :
  ms_count K (x :: l) = ((if bool_decide (value_type (ms_value x) = sk_type K) then 1 else 0) + ms_count K l)%nat.
Proof. unfold ms_count. rewrite filter_cons. case_decide; [by rewrite bool_decide_true|by rewrite bool_decide_false]. Qed.

Lemma ms_pending_le K l : (ms_pending K l <= ms_count K l)%nat.
Proof.
  induction l as [|x l IH]; [done|]. rewrite ms_pending_cons, ms_count_cons.
  case_bool_decide; [|done]. destruct (app_tx (ms_applicant x)); cbn; lia.
Qed.

Lemma ms_count_marked K l l' : ms_marked l l' -> ms_count K l' = ms_count K l.
Proof. induction 1 as [|x x' l l' [b ->] _ IH]; [done|]. by rewrite !ms_count_cons, IH. Qed.

(** Every attribute is of one of the four kinds. *)
Lemma ms_counts l :
  (ms_count (talker_kind false) l + ms_count (talker_kind true) l + ms_count listener_kind l +
   ms_count domain_kind l = length l)%nat.
Proof.
  induction l as [|x l IH]; [done|]. rewrite !ms_count_cons. cbn [length].
  assert (Hone : forall t, ((if bool_decide (t = sk_type (talker_kind false)) then 1 else 0) +
    (if bool_decide (t = sk_type (talker_kind true)) then 1 else 0) +
    (if bool_decide (t = sk_type listener_kind) then 1 else 0) +
    (if bool_decide (t = sk_type domain_kind) then 1 else 0) = 1)%nat) by (by intros []).
  specialize (Hone (value_type (ms_value x))). lia.
Qed.

(** ** First values *)

Definition first_fits (K : ms_kind) (x : msrp_attribute) : Prop :=
  value_type (ms_value x) = sk_type K -> (length (ms_first_bytes (ms_value x)) <= sk_length K)%nat.

Lemma talk_bytes_length t : talk_ok t -> length (talk_bytes t) = 25%nat.
Proof.
  intros []. unfold talk_bytes. rewrite !length_app, !length_be_bytes. destruct tk_id as [_ ->], tk_dest as [_ ->]. done.
Qed.

Lemma first_fits_kind K x :
  K = domain_kind \/ K = listener_kind \/ K = talker_kind false \/ K = talker_kind true ->
  ms_value_ok (ms_value x) -> first_fits K x.
Proof.
  intros HK Hv Ht. destruct (ms_value x) as [t|t|t|d]; cbn in Ht, Hv |- *;
    destruct HK as [->|[->|[->| ->]]]; try done.
  - by rewrite talk_bytes_length.
  - rewrite !length_app, talk_bytes_length by done. destruct (tk_bridge _ Hv) as [_ ->]. done.
  - destruct (tk_id _ Hv) as [_ ->]. done.
Qed.

Lemma first_fits_marked K l l' : ms_marked l l' -> Forall (first_fits K) l -> Forall (first_fits K) l'.
Proof.
  induction 1 as [|x x' l l' [b ->] _ IH]; [done|]. intros [Hx Hl]%Forall_cons. constructor; [exact Hx|by apply IH].
Qed.

(** ** The loops *)

Section Emit.
Context (K : ms_kind) (al : nat -> bool) (eof : nat).

(** Bytes an attribute needs at most. *)
Definition ms_cost : nat := (sk_length K + 4)%nat.

Lemma ms_pack_event_safe vptr v :
  length (v_buf v) = eof -> (vptr + 2 + v_vectidx v < eof)%nat -> (v_idx v <= 3)%nat ->
  exists v', (if (2 <? v_idx v)%nat then put_pack vptr v else mret v) = Ok v' /\
    length (v_buf v') = eof /\ (v_vectidx v <= v_vectidx v' <= S (v_vectidx v))%nat /\ (v_idx v' <= 2)%nat.
Proof using.
  intros Hb Hv Hi. destruct (Nat.ltb_spec 2 (v_idx v)) as [H2|H2].
  - unfold put_pack, put_byte. destruct (write_inside (v_buf v) (vptr + 2 + v_vectidx v) [encode3 (v_evt v)])
      as (buf&->&Hl); [cbn; lia|]. cbn_outcome. eexists. split; [done|]. cbn. lia.
  - exists v. split_and!; [done..|lia|lia|lia].
Qed.

(** The array of substates does not grow. *)
Lemma ms_dc_push_safe s d :
  dc_size d = 64%nat -> (length (dc_list d) + 1 < 64)%nat ->
  exists d', (if sk_four K then dc_push al s d else mret d) = Ok d' /\ dc_size d' = 64%nat /\
    (length (dc_list d') <= length (dc_list d) + 1)%nat.
Proof using.
  intros Hs Hl. destruct (sk_four K); [|exists d; split_and!; [done..|lia]].
  unfold dc_push. rewrite Hs, (proj2 (Nat.eqb_neq _ _)) by lia. eexists. split; [done|]. cbn.
  split; [done|]. rewrite length_app. cbn. lia.
Qed.

Lemma ms_pack_loop_safe vptr first rest : forall f v d,
  length (v_buf v) = eof -> (v_idx v <= 2)%nat -> (vptr + 3 + v_vectidx v + ms_pending K rest <= eof)%nat ->
  dc_size d = 64%nat -> (length (dc_list d) + ms_pending K rest < 63)%nat ->
  exists ok rest' v' d', ms_pack_loop K al eof vptr first f rest v d = Ok (ok, rest', v', d') /\
    ms_marked rest rest' /\
    (ok = true -> exists k, ms_pending K rest = (k + ms_pending K rest')%nat /\ length (v_buf v') = eof /\
       (v_vectidx v' <= v_vectidx v + k)%nat /\ dc_size d' = 64%nat /\
       (length (dc_list d') <= length (dc_list d) + k)%nat).
Proof using.
  induction rest as [|x rest IH]; intros f v d Hb Hi Hroom Hd Hdl; cbn [ms_pack_loop].
  { eexists _, _, _, _. split_and!; [done..|]. intros _. exists 0%nat. split_and!; [done..|lia|done|lia]. }
  assert (Hstop : exists ok rest' v' d', Ok (true, x :: rest, v, d) = Ok (ok, rest', v', d') /\
    ms_marked (x :: rest) rest' /\
    (ok = true -> exists k, ms_pending K (x :: rest) = (k + ms_pending K rest')%nat /\ length (v_buf v') = eof /\
       (v_vectidx v' <= v_vectidx v + k)%nat /\ dc_size d' = 64%nat /\
       (length (dc_list d') <= length (dc_list d) + k)%nat)).
  { eexists _, _, _, _. split_and!; [done..|]. intros _. exists 0%nat. split_and!; [done..|lia|done|lia]. }
  destruct (bool_decide (value_type (ms_value x) = sk_type K)) eqn:Ht; cbn [negb]; [|exact Hstop].
  destruct (app_tx (ms_applicant x)) eqn:Htx; cbn [negb]; [|exact Hstop].
  cbv zeta. destruct (negb (ms_contiguous _ _ _)); [exact Hstop|]. clear Hstop.
  rewrite ms_pending_cons, Ht, Htx in Hroom, Hdl. cbn [andb] in Hroom, Hdl.
  assert (Hm : forall rest', ms_marked rest rest' -> ms_marked (x :: rest) (ms_set_tx false x :: rest'))
    by (intros rest' Hr; constructor; [by exists false|done]).
  destruct (ms_pdu_event x) as [e|]; [|eexists false, _, _, _; by split_and!; [|apply Hm|]].
  set (v1 := mkVector _ _ (S (v_idx v)) _ _).
  destruct (ms_dc_push_safe (ms_substate x) d Hd ltac:(lia)) as (d1&->&Hd1&Hdl1). cbn_outcome.
  destruct (ms_pack_event_safe vptr v1) as (v2&->&Hb2&Hx2&Hi2); [done|cbn; lia|cbn; lia|]. cbn_outcome. cbn in Hx2.
  destruct (mm_past 2 eof vptr v2); [eexists false, _, _, _; by split_and!; [|apply Hm|]|].
  destruct (IH (next_first f) v2 d1 Hb2 Hi2 ltac:(lia) Hd1 ltac:(lia)) as (ok&rest'&v'&d'&->&Hc&Hok). cbn_outcome.
  eexists ok, _, v', d'. split_and!; [done|by apply Hm|]. intros Ho. destruct (Hok Ho) as (k&Hp&Hbv&Hvi&Hds&Hdd).
  exists (S k). rewrite ms_pending_clear, ms_pending_cons, Ht, Htx. cbn [andb]. split_and!; [lia|done|lia|done|lia].
Qed.

Lemma ms_trailer_safe vptr v :
  length (v_buf v) = eof -> (vptr + 3 + v_vectidx v <= eof)%nat ->
  exists v', mm_trailer vptr v = Ok v' /\ length (v_buf v') = eof /\ (v_vectidx v' <= S (v_vectidx v))%nat.
Proof using.
  intros Hb Hv. unfold mm_trailer, put_byte. destruct (0 <? v_idx v)%nat; [|exists v; split_and!; [done..|lia]].
  destruct (write_inside (v_buf v) (vptr + 2 + v_vectidx v) [encode3 (v_evt v)]) as (buf&->&Hl); [cbn; lia|].
  cbn_outcome. eexists. split; [done|]. cbn. lia.
Qed.

Lemma ms_four_loop_safe vptr n : forall s buf i,
  (length s <= n)%nat -> length buf = eof -> (vptr + 2 + i + length s <= eof)%nat ->
  exists r, ms_four_loop eof vptr buf i s = Ok r /\
    (forall buf' i', r = Some (buf', i') -> length buf' = eof /\ (i' <= i + length s)%nat).
Proof using.
  induction n as [|n IH]; intros s buf i Hn Hb Hroom.
  { destruct s; [|cbn in Hn; lia]. cbn. eexists. split; [done|]. intros ? ? [= <- <-]. split; [done|lia]. }
  assert (Hlast : s <> [] -> exists r, (buf ← put_byte buf (vptr + 2 + i) (encode4 s); mret (Some (buf, S i))) = Ok r /\
    (forall buf' i', r = Some (buf', i') -> length buf' = eof /\ (i' <= i + length s)%nat)).
  { intros Hs. assert (length s <> 0%nat) by (by destruct s). unfold put_byte.
    destruct (write_inside buf (vptr + 2 + i) [encode4 s]) as (buf1&->&Hl); [cbn; lia|]. cbn_outcome.
    eexists. split; [done|]. intros ? ? [= <- <-]. split; [congruence|lia]. }
  destruct s as [|a [|b [|c [|d s]]]]; cbn [ms_four_loop]; try (by apply Hlast).
  { eexists. split; [done|]. intros ? ? [= <- <-]. split; [done|lia]. }
  clear Hlast. cbn [length] in *. destruct (_ <? _)%nat; [by eexists|].
  unfold put_byte. destruct (write_inside buf (vptr + 2 + i) [encode4 [a; b; c; d]]) as (buf1&->&Hl); [cbn; lia|].
  cbn_outcome. destruct (_ <? _)%nat; [by eexists|].
  destruct (IH s buf1 (S i) ltac:(lia) ltac:(lia) ltac:(lia)) as (r&->&Hr). exists r. split; [done|].
  intros buf' i' Hs. destruct (Hr _ _ Hs). split; [done|lia].
Qed.

(** Between vectors. *)
Definition ms_emit_ok (s : ms_emit) : Prop :=
  length (em_buf s) = eof /\ (em_ptr s <= em_vptr s)%nat /\ em_size s = 64%nat.

Lemma ms_emit_vector_safe x rest s :
  ms_emit_ok s -> first_fits K x -> value_type (ms_value x) = sk_type K ->
  (em_vptr s + ms_cost * (1 + ms_pending K rest) <= eof)%nat -> (ms_pending K rest < 62)%nat ->
  exists r rest', ms_emit_vector K al eof x rest s = Ok (r, rest') /\ ms_marked rest rest' /\
    (forall s', r = Some s' -> ms_emit_ok s' /\ em_ptr s' = em_vptr s' /\ (em_vptr s < em_vptr s')%nat /\
       (ms_pending K rest' <= ms_pending K rest)%nat /\
       (em_vptr s' + ms_cost * ms_pending K rest' <= em_vptr s + ms_cost * (1 + ms_pending K rest))%nat).
Proof using.
  intros (Hb&Hp&Hsz) Hfit Ht Hroom Hfew. specialize (Hfit Ht). unfold ms_emit_vector.
  set (P := ms_pending K rest) in *. set (L := sk_length K) in *. change ms_cost with (L + 4)%nat in *.
  destruct (write_inside (em_buf s) (em_vptr s + 2) (ms_first_bytes (ms_value x))) as (buf&->&Hl); [lia|].
  cbn_outcome. destruct (ms_pdu_event x) as [e|]; [|eexists None, rest; split_and!; [done..|by intros ?]].
  set (v0 := mkVector buf [e; 0; 0] 1 1 L). set (d0 := mkDeclares _ _ _).
  assert (Hpack : exists ok rest' v' d',
    (if sk_pack K then ms_pack_loop K al eof (em_vptr s) (ms_value x) (first_pair (ms_value x)) rest v0 d0
     else mret (true, rest, v0, d0)) = Ok (ok, rest', v', d') /\ ms_marked rest rest' /\
    (ok = true -> exists k, P = (k + ms_pending K rest')%nat /\ length (v_buf v') = eof /\
       (v_vectidx v' <= L + k)%nat /\ dc_size d' = 64%nat /\ (length (dc_list d') <= 1 + k)%nat)).
  { destruct (sk_pack K).
    - apply (ms_pack_loop_safe (em_vptr s) (ms_value x) rest); fold P; cbn; try done; [lia|lia|lia|lia].
    - eexists true, rest, v0, d0. split_and!; [done..|]. intros _. exists 0%nat. cbn. split_and!; try done; lia. }
  destruct Hpack as (ok&rest'&v&d&->&Hc&Hok). cbn_outcome.
  destruct ok; cbn [negb]; [|eexists None, rest'; split_and!; [done..|by intros ?]].
  destruct (Hok eq_refl) as (k&HP&Hbv&Hvi&Hds&Hdl). clear Hok.
  assert (Hcost : (k * (L + 4) + (L + 4) <= (L + 4) * (1 + P))%nat) by (clear -HP; nia).
  assert (Hk4 : (4 * k <= k * (L + 4))%nat) by (clear; nia).
  destruct (ms_trailer_safe (em_vptr s) v Hbv) as (v2&->&Hb2&Hx2); [lia|]. cbn_outcome.
  assert (Hfour : exists r, (if sk_four K then ms_four_loop eof (em_vptr s) (v_buf v2) (v_vectidx v2) (dc_list d)
    else mret (Some (v_buf v2, v_vectidx v2))) = Ok r /\
    (forall buf' i', r = Some (buf', i') -> length buf' = eof /\ (i' <= L + 2 * k + 2)%nat)).
  { destruct (sk_four K).
    - destruct (ms_four_loop_safe (em_vptr s) (length (dc_list d)) (dc_list d) (v_buf v2) (v_vectidx v2))
        as (r&->&Hr); [done|done|lia|]. exists r. split; [done|]. intros buf' i' Hs. destruct (Hr _ _ Hs). split; [done|lia].
    - eexists. split; [done|]. intros buf' i' [= <- <-]. split; [done|lia]. }
  destruct Hfour as (r&->&Hr). cbn_outcome.
  destruct r as [[buf4 i4]|]; [|eexists None, rest'; split_and!; [done..|by intros ?]].
  destruct (Hr _ _ eq_refl) as [Hb4 Hi4]. destruct (_ <? _)%nat; [eexists None, rest'; split_and!; [done..|by intros ?]|].
  cbv zeta. set (h := if em_lva s then _ else _).
  destruct (write_inside buf4 (em_vptr s) (be_bytes 2 h)) as (buf5&->&Hl5); [rewrite length_be_bytes; lia|].
  cbn_outcome. eexists _, rest'. split_and!; [done..|]. intros s' [= <-]. unfold ms_emit_ok. cbn.
  assert ((L + 4) * (1 + P) = (L + 4) + k * (L + 4) + (L + 4) * ms_pending K rest')%nat by (rewrite HP; clear; nia).
  split_and!; try done; lia.
Qed.

Lemma ms_emit_loop_safe fuel : forall l s,
  ms_emit_ok s -> (length l < fuel)%nat -> Forall (first_fits K) l ->
  (em_vptr s + ms_cost * ms_pending K l <= eof)%nat -> (ms_pending K l < 63)%nat ->
  exists r l', ms_emit_loop K al fuel eof l s = Ok (r, l') /\ ms_marked l l' /\
    (forall s', r = Some s' -> ms_emit_ok s' /\
       (em_vptr s <= em_vptr s' <= em_vptr s + ms_cost * ms_pending K l)%nat).
Proof using.
  induction fuel as [|fuel IH]; intros l s Hs Hf Hl Hroom Hfew; [lia|]. cbn [ms_emit_loop].
  destruct l as [|x rest]; [eexists _, []; split_and!; [done..|]; intros s' [= <-]; split_and!; [done|lia|lia]|].
  destruct (_ <? _)%nat; [|eexists _, _; split_and!; [done..|]; intros s' [= <-]; split_and!; [done|lia|lia]].
  apply Forall_cons in Hl as [Hx Hl]. cbn [length] in Hf. rewrite ms_pending_cons in Hroom, Hfew |- *.
  set (b := bool_decide (value_type (ms_value x) = sk_type K)) in *.
  assert (Hskip : forall x', (exists m, x' = ms_set_tx m x) ->
    exists r l', ('(r, l') ← ms_emit_loop K al fuel eof rest s; mret (r, x' :: l')) = Ok (r, l') /\
      ms_marked (x :: rest) l' /\
      (forall s', r = Some s' -> ms_emit_ok s' /\
         (em_vptr s <= em_vptr s' <= em_vptr s + ms_cost * ((if b && app_tx (ms_applicant x) then 1 else 0) + ms_pending K rest))%nat)).
  { intros x' Hx'. destruct (IH rest s Hs ltac:(lia) Hl) as (r&l'&->&Hc&Hr); [|lia|].
    { etrans; [|exact Hroom]. apply Nat.add_le_mono_l, Nat.mul_le_mono_l. lia. }
    cbn_outcome. eexists r, _. split_and!; [done|by constructor|]. intros s' Hs'. destruct (Hr s' Hs') as (?&?&Hle).
    split_and!; try done. etrans; [exact Hle|]. apply Nat.add_le_mono_l, Nat.mul_le_mono_l. lia. }
  assert (Hid : exists m, x = ms_set_tx m x) by (eexists; apply ms_set_tx_id).
  destruct b eqn:Hb; cbn [negb orb andb] in *; [|by apply Hskip].
  destruct (app_tx (ms_applicant x)) eqn:Htx; cbn [negb] in *; [|by apply Hskip].
  case_decide; [apply Hskip; by exists false|]. clear Hskip.
  apply bool_decide_eq_true in Hb.
  destruct (ms_emit_vector_safe x rest s Hs Hx Hb Hroom ltac:(lia)) as (r&rest'&->&Hc&Hr). cbn_outcome.
  destruct r as [s'|]; [|eexists None, _; split_and!; [done|by constructor; [exists false|]|by intros ?]].
  destruct (Hr s' eq_refl) as (Hs'&Hpv&Hlt&Hpl&Hpe).
  destruct (IH rest' s' Hs') as (r&l'&->&Hc'&Hr'); [rewrite <- (Forall2_length _ _ _ Hc); lia|
    by eapply first_fits_marked|lia|lia|]. cbn_outcome.
  eexists r, _. split_and!; [done|constructor; [by exists false|by eapply ms_marked_trans]|].
  intros s'' Hs''. destruct (Hr' s'' Hs'') as (Hok&Hge&Hle). split_and!; [done|lia|lia].
Qed.

Lemma ms_mark_marked l : ms_marked l (ms_mark K l).
Proof using.
  unfold ms_mark. destruct (sk_four K); [|done]. induction l as [|x l IH]; constructor; [|done].
  case_decide; [by exists true|]. eexists. apply ms_set_tx_id.
Qed.

Lemma ms_emit_vectors_safe asked buf msgbuf lva empty l :
  length buf = eof -> Forall (first_fits K) l -> (ms_count K l < 63)%nat ->
  (msgbuf + 8 + sk_length K + ms_cost * ms_count K l <= eof)%nat ->
  exists rc n buf' l' asked', ms_emit_vectors K al asked buf msgbuf eof lva empty l = Ok (rc, n, buf', l', asked') /\
    ms_marked l l' /\ length buf' = eof /\ (n <= 8 + sk_length K + ms_cost * ms_count K l)%nat.
Proof using.
  intros Hb Hl Hfew Hroom. unfold ms_emit_vectors.
  destruct (_ <? _)%nat; [eexists _, _, _, _, _; split_and!; [done..|lia]|].
  destruct (write_inside buf msgbuf [type_code (sk_type K); Z.of_nat (sk_length K)]) as (buf1&->&Hl1); [cbn; lia|].
  cbn_outcome. destruct (sk_four K && negb (al asked)); [eexists _, _, _, _, _; split_and!; [done..|lia|lia]|].
  set (n0 := if sk_four K then S asked else asked).
  pose proof (ms_mark_marked l) as Hm. pose proof (ms_pending_le K (ms_mark K l)) as Hp.
  rewrite (ms_count_marked K _ _ Hm) in Hp.
  assert (Hc : (ms_cost * ms_pending K (ms_mark K l) <= ms_cost * ms_count K l)%nat) by (by apply Nat.mul_le_mono_l).
  destruct (ms_emit_loop_safe (S (length l)) (ms_mark K l) (mkMsEmit buf1 (msgbuf + 4) msgbuf lva false 64 n0))
    as (r&l'&->&Hml&Hr); [split_and!; [cbn; lia|cbn; lia|done]|rewrite <- (Forall2_length _ _ _ Hm); lia|
      by eapply first_fits_marked|cbn; lia|lia|]. cbn_outcome.
  pose proof (ms_marked_trans _ _ _ Hm Hml) as Hmm.
  destruct r as [s|]; [|eexists _, _, _, _, _; split_and!; [done..|congruence|lia]].
  destruct (Hr s eq_refl) as ((Hbs&Hps&_)&Hge&Hle). cbn in Hge, Hle.
  assert (Hend : forall s', length (em_buf s') = eof -> (em_ptr s' <= em_vptr s')%nat ->
    (em_vptr s' <= msgbuf + 6 + sk_length K + ms_cost * ms_count K l)%nat ->
    exists rc n buf' l'' asked',
      (if (em_vptr s' =? msgbuf + 4)%nat then mret (0, 0%nat, em_buf s', l', em_asked s')
       else
         buf ← write_bytes (em_buf s') (em_ptr s') [0; 0];
         buf ← write_bytes buf (msgbuf + 2) (be_bytes 2 (Z.of_nat (em_ptr s' + 2 - (msgbuf + 4))));
         mret (0, (em_ptr s' + 2 - msgbuf)%nat, buf, l', em_asked s')) = Ok (rc, n, buf', l'', asked') /\
      ms_marked l l'' /\ length buf' = eof /\ (n <= 8 + sk_length K + ms_cost * ms_count K l)%nat).
  { intros s' Hb' Hp' Hv'. destruct (_ =? _)%nat; [eexists _, _, _, _, _; split_and!; [done..|lia]|].
    destruct (write_inside (em_buf s') (em_ptr s') [0; 0]) as (buf2&->&Hl2); [cbn; lia|]. cbn_outcome.
    destruct (write_inside buf2 (msgbuf + 2) (be_bytes 2 (Z.of_nat (em_ptr s' + 2 - (msgbuf + 4)))))
      as (buf3&->&Hl3); [rewrite length_be_bytes; lia|]. cbn_outcome.
    eexists _, _, _, _, _. split_and!; [done..|lia|lia]. }
  destruct (negb (em_found s) && empty); cbn_outcome; [|apply Hend; [done|done|lia]].
  destruct (write_inside (em_buf s) (em_vptr s) (be_bytes 2 (Z.lor (MRPDU_VECT_NUMVALUES 0) MRPDU_VECT_LVA_FLAG)))
    as (buf2&->&Hl2); [rewrite length_be_bytes; lia|]. cbn_outcome.
  apply Hend; cbn; lia.
Qed.

End Emit.
