(* ===== verification/MsrpEvent.v ===== *)
(** * MSRP: events

    [ms_spec_event] says what an event does to the table of records; [msrp_event] is
    shown to implement it and to keep the invariant of the database.  The two machines
    of an attribute are those of an MVRP attribute, so their lemmas are shared. *)

From stdpp Require Import gmultiset.
From S2P Require Import Prelude.
From S2P Require Import CText.
From S2P Require Import Mrp.
From S2P Require Import MrpText.
From S2P Require Import MrpTheory.
From S2P Require Import Mvrp.
From S2P Require Import MvrpTheory.
From S2P Require Import MvrpEmit.
From S2P Require Import MvrpEvent.
From S2P Require Import Mmrp.
From S2P Require Import MmrpTheory.
From S2P Require Import MmrpEmit.
From S2P Require Import MmrpEvent.
From S2P Require Import EuiSet.
From S2P Require Import Msrp.
From S2P Require Import MsrpRun.
From S2P Require Import MsrpTheory.
From S2P Require Import MsrpEmit.

Open Scope Z_scope.
Local Abbreviation length := List.length.

(** ** The abstract machine *)

Definition rec_states (f : entry -> entry) (r : ms_record) : ms_record :=
  mkRec (r_value r) (r_substate r) (r_operation r) (f (r_states r)).

(** A record nobody declares and nobody registers is dropped. *)
Definition rec_keep (r : ms_record) : option ms_record := if idle (r_states r) then None else Some r.

(** The registrar is emptied, so that the next Join is notified. *)
Definition rec_renew (r : ms_record) : ms_record := rec_states (fun p => (p.1, MT)) r.

Definition is_failed (v : msrp_value) : bool := bool_decide (value_type v = TALKER_FAILED).

(** What a declaration [q] of a known attribute [a] changes: a talker turns into the
    advertise or failed form last declared in its direction, a listener takes over the
    substate (if it is behind AskingFailed, only when a talker is known), a domain takes
    over the priority of the neighbour and the VLAN. *)
Definition rec_merge (known : bool) (q a : ms_record) : ms_record :=
  let same := bool_decide (r_operation q = r_operation a) in
  match r_value a, r_value q with
  | (TalkerAdv t | TalkerFailed t), (TalkerAdv u | TalkerFailed u) =>
      if same then
        let t := merge_failure u t in
        let a' := mkRec (if is_failed (r_value q) then TalkerFailed t else TalkerAdv t) (r_substate a) (r_operation a)
                    (r_states a) in
        if bool_decide (value_type (r_value a) = value_type (r_value q)) then a' else rec_renew a'
      else a
  | Listener _, Listener _ =>
      if (r_substate a =? r_substate q) || (r_substate a =? LISTENER_ASKFAILED) && negb known then a
      else rec_renew (mkRec (r_value a) (if same then r_substate q else r_substate a) (r_operation a) (r_states a))
  | Domain d, Domain u =>
      if (SRclassPriority d =? SRclassPriority u) && (SRclassVID d =? SRclassVID u) then a
      else rec_renew (mkRec (Domain (mkDomain (SRclassID d) (SRclassPriority d) (SRclassPriority u) (SRclassVID u)))
                        (r_substate a) (r_operation a) (r_states a))
  | _, _ => a
  end.

(** An event [e] for the attribute with the declaration [q]. *)
Definition rec_attribute (p2pmac : Z) (e : mrp_event) (known : bool) (q : ms_record) (o : option ms_record)
  : option ms_record :=
  match o, e with
  | None, EVENT_RMT => None
  | _, _ =>
      rec_keep (rec_states (fun p => (app_next p2pmac e p, reg_next (as_registrar e) p.2))
                  (match o with Some a => rec_merge known q a | None => q end))
  end.

(** Whether a talker of the listener's stream is known. *)
Definition talker_known (k : msrp_key) (t : gmap msrp_key ms_record) : bool :=
  match k with KListener id => bool_decide (is_Some (t !! KTalker id)) | _ => false end.

(** With pruning, a talker is of interest if its stream is in the set [X] or a listener
    of the stream is known. *)
Definition of_interest (pruning : bool) (X : gmultiset Z) (t : gmap msrp_key ms_record) (v : msrp_value) : bool :=
  match v with
  | TalkerAdv s | TalkerFailed s =>
      negb pruning || bool_decide (be_val (StreamID s) ∈ X) || bool_decide (is_Some (t !! KListener (StreamID s)))
  | _ => true
  end.

Definition ms_spec_event (p2pmac : Z) (pruning : bool) (X : gmultiset Z) (e : mrp_event) (q : option ms_record)
    (t : gmap msrp_key ms_record) : gmap msrp_key ms_record :=
  let both e' := rec_states (fun p => (app_next p2pmac e' p, reg_next e' p.2)) in
  match e with
  | EVENT_LVATIMER => both EVENT_TXLA <$> t
  | EVENT_RLA =>
      match q with
      | Some q => (fun r => if bool_decide (value_type (r_value r) = value_type (r_value q)) then both EVENT_RLA r else r) <$> t
      | None => t
      end
  | EVENT_TX => rec_states (fun p => (app_next p2pmac EVENT_TX p, p.2)) <$> t
  | EVENT_LVTIMER => omap (fun r => rec_keep (rec_states (fun p => (p.1, reg_next EVENT_LVTIMER p.2)) r)) t
  | EVENT_NEW | EVENT_JOIN | EVENT_RNEW | EVENT_RJOININ | EVENT_RJOINMT | EVENT_LV
  | EVENT_RIN | EVENT_RMT | EVENT_RLV =>
      match q with
      | Some q =>
          let k := key_of (r_value q) in
          if of_interest pruning X t (r_value q)
          then partial_alter (rec_attribute p2pmac e (talker_known k t) q) k t
          else t
      | None => t
      end
  | _ => t
  end.

(** ** The machines of an attribute *)

Definition ms_machines (x : msrp_attribute) : mvrp_attribute := mkAttrib 0 (ms_applicant x) (ms_registrar x).
Definition ms_with (y : mvrp_attribute) (x : msrp_attribute) : msrp_attribute :=
  mkMs (ms_value x) (ms_substate x) (ms_operation x) (applicant y) (registrar y).

(** ** The invariant *)

Record ms_attr_ok (x : msrp_attribute) : Prop := {
  ma_value : ms_value_ok (ms_value x);
  ma_substate : is_u32 (ms_substate x);
  ma_source : octets 6 (reg_macaddr (ms_registrar x))
}.

Definition ms_silent (x : msrp_attribute) : Prop := reg_notify (ms_registrar x) = NOTIFY_NONE.

(** A leaving attribute is guarded by the leave timer. *)
Definition ms_guarded (db : mrp_database) (x : msrp_attribute) : Prop := guarded db (ms_machines x).

(** Holds within an event, when notifications may be pending. *)
Record ms_Inv0 (m : msrp_database) : Prop := {
  ms_inv_keys : NoDup (ms_key <$> ms_list m);
  ms_inv_attrs : Forall ms_attr_ok (ms_list m);
  ms_inv_armed : armed (ms_mrp_db m);
  ms_inv_leaving : Forall (ms_guarded (ms_mrp_db m)) (ms_list m);
  ms_inv_ids : exists es, holds (interesting_stream_ids m) es
}.

(** Holds between events. *)
Record ms_Inv (m : msrp_database) : Prop := {
  ms_inv_inv0 : ms_Inv0 m;
  ms_inv_silent : Forall ms_silent (ms_list m);
  ms_inv_flag : ms_send_empty m = false
}.

(** The interesting streams of a database. *)
Definition interesting (m : msrp_database) : gmultiset Z :=
  match entries (interesting_stream_ids m) with Ok es => keys es | Fault _ => ∅ end.

(** Databases that differ in the operating system's answers used so far. *)
Definition ms_later (m m' : msrp_database) : Prop :=
  exists n, m' = ms_set_mrp (set_asked n (ms_mrp_db m)) m.

Lemma ms_later_refl m : ms_later m m.
Proof. exists (asked (ms_mrp_db m)). by destruct m as [[] ? ? ? ?]. Qed.

Lemma ms_later_trans m m' m'' : ms_later m m' -> ms_later m' m'' -> ms_later m m''.
Proof. intros [n ->] [k ->]. by exists k. Qed.

#[export] Hint Resolve ms_later_refl : core.

Lemma ms_Inv0_later m m' : ms_later m m' -> ms_Inv0 m -> ms_Inv0 m'.
Proof. intros [n ->] []. constructor; try done. by apply armed_asked. Qed.

Lemma ms_attrs_keys l : Forall ms_attr_ok l -> keys_ok l.
Proof. intros H. unfold keys_ok. eapply Forall_impl; [exact H|]. intros x []. by apply key_of_ok. Qed.

Lemma ms_guarded_mono db db' l :
  (lv_timer_running db = true -> lv_timer_running db' = true) ->
  Forall (ms_guarded db) l -> Forall (ms_guarded db') l.
Proof. intros Hm HF. eapply Forall_impl; [exact HF|]. intros x Hx Hl. apply Hm, Hx, Hl. Qed.

(** A change of every attribute that keeps the keys. *)
Lemma ms_Inv0_fmap f m db :
  (forall x, ms_key (f x) = ms_key x) -> (forall x, ms_attr_ok x -> ms_attr_ok (f x)) ->
  ms_Inv0 m -> armed db -> Forall (ms_guarded db) (f <$> ms_list m) ->
  ms_Inv0 (ms_set_list (f <$> ms_list m) (ms_set_mrp db m)).
Proof.
  intros Hf Hok [Hs Ha _ _ Hi] Hdb Hg. constructor; try done.
  - cbn. by rewrite fmap_keys.
  - apply Forall_fmap. eapply Forall_impl; [exact Ha|]. intros x Hx. by apply Hok.
Qed.

(** Marks change neither keys nor records. *)
Lemma ms_marked_inv l l' :
  ms_marked l l' -> ms_key <$> l' = ms_key <$> l /\ ms_table l' = ms_table l /\
  (Forall ms_attr_ok l -> Forall ms_attr_ok l') /\ (Forall ms_silent l -> Forall ms_silent l') /\
  (forall db, Forall (ms_guarded db) l -> Forall (ms_guarded db) l').
Proof.
  induction 1 as [|x x' l l' [b ->] Hl IH]; [done|]. destruct IH as (IH1&IH2&IH3&IH4&IH5).
  rewrite !ms_table_cons, !fmap_cons, IH1, IH2. split_and!; try done.
  - intros [Hx ?]%Forall_cons. constructor; [|auto]. destruct Hx. by constructor.
  - intros [? ?]%Forall_cons. constructor; auto.
  - intros db [? ?]%Forall_cons. constructor; auto.
Qed.

(** ** Primitive steps *)

Abbreviation ms_at_db m fr ms := (mkMsrp (MsDb m) fr ms).

Lemma ms_the_db_wp m fr ms Q : Q m (ms_at_db m fr ms) -> safe ms_the_db Q (ms_at_db m fr ms).
Proof. done. Qed.

Lemma ms_upd_db_wp f m fr ms Q : Q tt (ms_at_db (f m) fr ms) -> safe (ms_upd_db f) Q (ms_at_db m fr ms).
Proof. done. Qed.

Lemma ms_upd_mrp_wp f m fr ms Q :
  Q tt (ms_at_db (ms_set_mrp (f (ms_mrp_db m)) m) fr ms) -> safe (ms_upd_mrp f) Q (ms_at_db m fr ms).
Proof. done. Qed.

Lemma ms_each_send_wp text cs m fr ms Q :
  Q tt (ms_at_db m fr (ms ++ ((fun c => (c, text)) <$> cs))) ->
  safe (ms_each (fun c => ms_send_ctl_msg c text) cs) Q (ms_at_db m fr ms).
Proof.
  revert ms. induction cs as [|c cs IH]; intros ms HQ; cbn [ms_each].
  - apply wp_ret. by rewrite app_nil_r in HQ.
  - apply wp_bind. change (safe (ms_each (fun c => ms_send_ctl_msg c text) cs) Q (ms_at_db m fr (ms ++ [(c, text)]))).
    apply IH. by rewrite <- (assoc_L (++)).
Qed.

(** The interesting streams are what the set represents. *)
Lemma interesting_holds m es : holds (interesting_stream_ids m) es -> interesting m = keys es.
Proof. intros (Hs&_&_). unfold interesting. by rewrite (entries_shaped _ _ Hs). Qed.

Lemma idle_reclaimable x : ms_reclaimable x = idle (ms_states x).
Proof. unfold ms_reclaimable, idle, ms_states. by destruct (reg_state (ms_registrar x)), (app_state (ms_applicant x)). Qed.

Section Events.
Context {C : CSort} (E : Os) (p2pmac : Z) (STATION_ADDR : list Z).
Context (HT : timers_ok E) (HR : random_ok E) (Hst : length STATION_ADDR = 6%nat).

Lemma ms_malloc_wp m fr ms Q :
  (forall b m', ms_later m m' -> (malloc_ok E -> b = true) -> Q b (ms_at_db m' fr ms)) ->
  safe (ms_malloc E) Q (ms_at_db m fr ms).
Proof using. intros HQ. apply HQ; [by exists (S (asked (ms_mrp_db m)))|]. by intros HM. Qed.

Lemma ms_send_notifications_wp x n m fr ms Q :
  (forall z m' ms', ms_later m m' -> Q z (ms_at_db m' fr ms')) ->
  safe (msrp_send_notifications E x n) Q (ms_at_db m fr ms).
Proof using.
  intros HQ. apply wp_bind, ms_malloc_wp. intros b m1 H1 _. destruct b; cbn [negb]; [|by apply HQ].
  apply wp_bind, ms_malloc_wp. intros b m2 H2 _. apply wp_bind, ms_malloc_wp. intros b' m3 H3 _.
  pose proof (ms_later_trans _ _ _ H1 (ms_later_trans _ _ _ H2 H3)) as Hl.
  destruct (negb b || negb b'); [by apply HQ|].
  destruct (ms_notify_text x n) as [text|]; [|by apply HQ].
  apply wp_bind, ms_the_db_wp, wp_bind, ms_each_send_wp, wp_ret. by apply HQ.
Qed.

(** The final loop clears every pending notification. *)
Lemma ms_notify_loop_wp l m fr ms Q :
  (forall m' ms', ms_later m m' -> Q (ms_set_notify NOTIFY_NONE <$> l) (ms_at_db m' fr ms')) ->
  safe (ms_notify_loop E l) Q (ms_at_db m fr ms).
Proof using.
  revert m ms Q. induction l as [|x l IH]; intros m ms Q HQ; cbn [ms_notify_loop]; [by apply HQ|].
  apply wp_bind.
  assert (Hrest : forall m1 ms1, ms_later m m1 ->
    safe (l'' ← ms_notify_loop E l; mret (ms_set_notify NOTIFY_NONE x :: l'')) Q (ms_at_db m1 fr ms1)).
  { intros m1 ms1 H1. apply wp_bind, IH. intros m' ms' H2. apply wp_ret, HQ. by eapply ms_later_trans. }
  case_decide as Hn.
  - assert (Hid : ms_set_notify NOTIFY_NONE x = x)
      by (destruct x as [? ? ? ? [? n ? ?]]; cbn in Hn; by subst n).
    rewrite Hid in Hrest. apply wp_ret. by apply Hrest.
  - apply wp_bind, ms_send_notifications_wp. intros z m1 ms1 H1. apply wp_ret. by apply Hrest.
Qed.

(** ** State machines over the list *)

Definition ms_steps (f : msrp_attribute -> mrp_database -> msrp_attribute * mrp_database)
    (g : msrp_attribute -> msrp_attribute) : Prop :=
  forall x db, armed db -> ms_guarded db x ->
    exists db', f x db = (g x, db') /\ quiet_db db db' /\ ms_guarded db' (g x).

Lemma ms_for_spec f g l : ms_steps f g -> forall db,
  armed db -> Forall (ms_guarded db) l ->
  exists db', ms_for f l db = (g <$> l, db') /\ quiet_db db db' /\ Forall (ms_guarded db') (g <$> l).
Proof using.
  intros Hf. induction l as [|x l IH]; intros db Hdb Hg; cbn [ms_for].
  { exists db. split_and!; [done|by apply quiet_refl|constructor]. }
  apply Forall_cons in Hg as [Hx Hg]. destruct (Hf x db Hdb Hx) as (db1&->&Hq1&Hx1).
  destruct (IH db1 (qd_armed _ _ Hq1) (ms_guarded_mono _ _ _ (qd_mono _ _ Hq1) Hg)) as (db2&->&Hq2&Hg2).
  exists db2. split_and!; [done|by eapply quiet_trans|]. cbn. constructor; [|done].
  intros Hl. by apply (qd_mono _ _ Hq2), Hx1.
Qed.

Lemma ms_for_pure f l db : ms_for (fun x db => (f x, db)) l db = (f <$> l, db).
Proof using. induction l as [|x l IH]; cbn; [done|]. by rewrite IH. Qed.

Definition ms_reg_attr (e : mrp_event) (x : msrp_attribute) : msrp_attribute :=
  ms_with (reg_attr E e (ms_machines x)) x.
Definition ms_both_attr (e : mrp_event) (x : msrp_attribute) : msrp_attribute :=
  ms_reg_attr e (ms_app_event p2pmac e x).

Lemma ms_reg_event_machines e x db :
  ms_reg_event E e x db =
  (ms_with (registrar_event E e (ms_machines x) db).1 x, (registrar_event E e (ms_machines x) db).2).
Proof using. unfold ms_reg_event, registrar_event. cbn. by destruct (mrp_registrar_fsm _ _ _ _) as [[] ?]. Qed.

Lemma ms_reg_steps e : ms_steps (ms_reg_event E e) (ms_reg_attr e).
Proof using HT.
  intros x db Hdb Hg. rewrite ms_reg_event_machines, registrar_event_fst.
  destruct (registrar_event_spec E HT e (ms_machines x) db Hdb Hg) as (?&?&?&?&?&?).
  eexists. split_and!; [done|by constructor|done].
Qed.

Lemma ms_both_steps e : ms_steps (ms_both_event E p2pmac e) (ms_both_attr e).
Proof using HT. intros x db Hdb Hg. by apply ms_reg_steps. Qed.

Definition ms_typed_attr (e : mrp_event) (t : msrp_type) (x : msrp_attribute) : msrp_attribute :=
  if decide (value_type (ms_value x) = t) then ms_both_attr e x else x.

Lemma ms_typed_steps e t :
  ms_steps (fun x db => if decide (value_type (ms_value x) = t) then ms_both_event E p2pmac e x db else (x, db))
    (ms_typed_attr e t).
Proof using HT.
  intros x db Hdb Hg. unfold ms_typed_attr. case_decide; [by apply ms_both_steps|].
  exists db. split_and!; [done|by apply quiet_refl|done].
Qed.

Lemma ms_app_states e x :
  ms_states (ms_app_event p2pmac e x) = (app_next p2pmac e (ms_states x), (ms_states x).2).
Proof using. exact (applicant_event_core p2pmac e (ms_machines x)). Qed.

Lemma ms_reg_states e x : ms_states (ms_reg_attr e x) = ((ms_states x).1, reg_next e (ms_states x).2).
Proof using. exact (reg_attr_core E e (ms_machines x)). Qed.

Lemma ms_both_states e x :
  ms_states (ms_both_attr e x) = (app_next p2pmac e (ms_states x), reg_next e (ms_states x).2).
Proof using. exact (both_attr_core E p2pmac e (ms_machines x)). Qed.

Lemma ms_core_states (f : msrp_attribute -> msrp_attribute) (g : entry -> entry) x :
  ms_value (f x) = ms_value x -> ms_substate (f x) = ms_substate x -> ms_operation (f x) = ms_operation x ->
  ms_states (f x) = g (ms_states x) -> ms_core (f x) = rec_states g (ms_core x).
Proof using. intros Hv Hs Ho Hc. unfold ms_core, rec_states. cbn. by rewrite Hv, Hs, Ho, Hc. Qed.

Lemma ms_ok_reg e x : ms_attr_ok x -> ms_attr_ok (ms_reg_attr e x).
Proof using.
  intros []. constructor; try done. change (octets 6 (reg_macaddr (registrar (reg_attr E e (ms_machines x))))).
  by rewrite reg_attr_mac.
Qed.

Lemma ms_ok_app e x : ms_attr_ok x -> ms_attr_ok (ms_app_event p2pmac e x).
Proof using. intros []. by constructor. Qed.

Lemma ms_ok_both e x : ms_attr_ok x -> ms_attr_ok (ms_both_attr e x).
Proof using. intros Hx. by apply ms_ok_reg, ms_ok_app. Qed.

(** ** Transmission *)

(** So few attributes that the encoders do not reach the end of the buffer. *)
Definition ms_fits (m : msrp_database) : Prop := (length (ms_list m) <= 48)%nat.

(** The database after a transmission: marks changed, the LeaveAll mark taken. *)
Definition ms_transmitted (m m' : msrp_database) : Prop :=
  exists l' t n, m' = ms_set_list l' (ms_set_mrp (set_asked n (set_lva t (ms_mrp_db m))) m) /\
    ms_marked (ms_list m) l'.

Lemma ms_transmitted_trans m m' m'' : ms_transmitted m m' -> ms_transmitted m' m'' -> ms_transmitted m m''.
Proof using.
  intros (l'&t'&n'&->&H1) (l''&t''&n''&->&H2). exists l'', t'', n''. split; [done|]. by eapply ms_marked_trans.
Qed.

Lemma ms_eth_writes :
  exists buf, (buf ← write_bytes (replicate MAX_FRAME_SIZE 0) 12 (be_bytes 2 MSRP_ETYPE);
   buf ← write_bytes buf 0 MSRP_ADDR;
   buf ← write_bytes buf 6 STATION_ADDR;
   write_bytes buf ETH_HDR [MSRP_PROT_VER]) = Ok buf /\ length buf = MAX_FRAME_SIZE.
Proof using Hst.
  assert (Hl0 : length (replicate MAX_FRAME_SIZE 0) = MAX_FRAME_SIZE) by apply length_replicate.
  assert (HM : MAX_FRAME_SIZE = 2000%nat) by done. set (b0 := replicate MAX_FRAME_SIZE 0) in *. clearbody b0.
  destruct (write_inside b0 12 (be_bytes 2 MSRP_ETYPE)) as (b1&->&H1); [rewrite length_be_bytes; lia|]. cbn_outcome.
  destruct (write_inside b1 0 MSRP_ADDR) as (b2&->&H2); [cbn [length MSRP_ADDR]; lia|]. cbn_outcome.
  destruct (write_inside b2 6 STATION_ADDR) as (b3&->&H3); [lia|]. cbn_outcome.
  destruct (write_inside b3 ETH_HDR [MSRP_PROT_VER]) as (b4&->&H4); [cbn [length]; unfold ETH_HDR; lia|].
  exists b4. split; [done|]. lia.
Qed.

(** Bytes a kind needs at most. *)
Definition ms_room (K : ms_kind) (l : list msrp_attribute) : nat := (8 + sk_length K + ms_cost K * ms_count K l)%nat.

Lemma ms_rooms l :
  (ms_room (talker_kind false) l + ms_room (talker_kind true) l + ms_room listener_kind l + ms_room domain_kind l
   <= 103 + 38 * length l)%nat.
Proof using.
  pose proof (ms_counts l) as Hc. unfold ms_room, ms_cost. revert Hc.
  generalize (ms_count (talker_kind false) l), (ms_count (talker_kind true) l), (ms_count listener_kind l), (ms_count domain_kind l).
  cbn [sk_length talker_kind listener_kind domain_kind]. clear. intros. lia.
Qed.

Lemma ms_transmitted_ok m m' :
  ms_transmitted m m' -> (Forall ms_attr_ok (ms_list m) -> Forall ms_attr_ok (ms_list m')) /\
  (ms_fits m -> ms_fits m') /\ (forall K, ms_room K (ms_list m') = ms_room K (ms_list m)).
Proof using.
  intros (l'&t&n&->&Hm). destruct (ms_marked_inv _ _ Hm) as (_&_&Hok&_&_). split_and!; [exact Hok| |].
  - unfold ms_fits. cbn. by rewrite <- (Forall2_length _ _ _ Hm).
  - intros K. unfold ms_room. do 2 f_equal. exact (ms_count_marked K _ _ Hm).
Qed.

(** One encoder of a transmission that started at [m0]. *)
Lemma ms_tx_emit_wp K leaveall ptr buf m0 m fr ms Q :
  K = domain_kind \/ K = listener_kind \/ K = talker_kind false \/ K = talker_kind true ->
  Forall ms_attr_ok (ms_list m0) -> ms_fits m0 -> ms_transmitted m0 m -> length buf = MAX_FRAME_SIZE ->
  (ptr + ms_room K (ms_list m0) <= MAX_FRAME_SIZE)%nat ->
  (forall r m', ms_transmitted m0 m' ->
     (forall ptr' buf', r = Some (ptr', buf') ->
        (ptr' <= ptr + ms_room K (ms_list m0))%nat /\ length buf' = MAX_FRAME_SIZE) ->
     Q r (ms_at_db m' fr ms)) ->
  safe (ms_tx_emit E K leaveall ptr buf) Q (ms_at_db m fr ms).
Proof using.
  intros HK Hok0 Hfit0 Htr Hb Hroom HQ. apply wp_bind, ms_the_db_wp.
  destruct (ms_transmitted_ok _ _ Htr) as (Hok&Hfit&Hr). specialize (Hok Hok0). specialize (Hfit Hfit0).
  rewrite <- Hr in Hroom, HQ. unfold ms_room in Hroom, HQ.
  assert (Hff : Forall (first_fits K) (ms_list m)).
  { eapply Forall_impl; [exact Hok|]. intros x []. by apply first_fits_kind. }
  assert (Hcnt : (ms_count K (ms_list m) <= length (ms_list m))%nat) by apply length_filter. unfold ms_fits in Hfit.
  destruct (ms_emit_vectors_safe K (os_malloc E) MAX_FRAME_SIZE (asked (ms_mrp_db m)) buf ptr leaveall
    (ms_send_empty m) (ms_list m)) as (rc&n&buf'&l'&a'&Heq&Hm&Hb'&Hn); [done|done|clear -Hcnt Hfit; lia|clear -Hroom; lia|].
  apply wp_bind. eapply wp_lift; [exact Heq|]. cbn beta iota.
  apply wp_bind, ms_upd_db_wp, wp_bind, ms_upd_mrp_wp, wp_ret. apply HQ.
  - eapply ms_transmitted_trans; [exact Htr|]. exists l', (lva (ms_mrp_db m)), a'.
    split; [by destruct m as [[] ? ? ? ?]|done].
  - intros ptr' buf'' Hs. destruct (rc =? -1); [done|]. injection Hs as <- <-. split; [clear -Hn; lia|done].
Qed.

Lemma ms_tx_send_wp ptr buf m0 m fr ms Q :
  ms_transmitted m0 m -> length buf = MAX_FRAME_SIZE -> (ptr + 2 <= MAX_FRAME_SIZE)%nat ->
  (forall z m' fr', ms_transmitted m0 m' -> Q z (ms_at_db m' fr' ms)) ->
  safe (ms_tx_send E ptr buf) Q (ms_at_db m fr ms).
Proof using.
  intros Htr Hb Hp HQ. unfold ms_tx_send. destruct (_ =? _)%nat; [by apply wp_ret, HQ|].
  destruct (_ <? _)%nat; [|by apply wp_ret, HQ].
  destruct (write_inside buf ptr [0; 0]) as (buf5&Hw&_); [cbn [length]; clear -Hp Hb; lia|]. apply wp_bind. eapply wp_lift; [exact Hw|].
  apply wp_bind, ms_the_db_wp, wp_bind, ms_upd_mrp_wp, wp_bind, wp_modify, wp_ret. apply HQ.
  eapply ms_transmitted_trans; [exact Htr|]. exists (ms_list m), (lva (ms_mrp_db m)), (S (asked (ms_mrp_db m))).
  split; [by destruct m as [[] ? ? ? ?]|done].
Qed.

Lemma ms_txpdu_wp m fr ms Q :
  Forall ms_attr_ok (ms_list m) -> ms_fits m ->
  (forall z m' fr', ms_transmitted m m' -> Q z (ms_at_db m' fr' ms)) ->
  safe (msrp_txpdu E STATION_ADDR) Q (ms_at_db m fr ms).
Proof using Hst.
  intros Hok Hfit HQ. apply wp_bind, ms_malloc_wp. intros b m1 [n1 ->] _. destruct b; cbn [negb].
  2:{ apply wp_ret, HQ. exists (ms_list m), (lva (ms_mrp_db m)), n1. split; [by destruct m as [[] ? ? ? ?]|done]. }
  destruct ms_eth_writes as (buf0&Hb0&Hl0). eapply lift_bind4; [exact Hb0|]. clear Hb0.
  apply wp_bind, ms_the_db_wp, wp_bind, ms_upd_mrp_wp. cbn [ms_mrp_db ms_set_mrp].
  change (S ETH_HDR) with 15%nat. assert (HM : MAX_FRAME_SIZE = 2000%nat) by done.
  set (m1 := ms_set_mrp _ _). set (tx := lva_tx _).
  assert (HT1 : ms_transmitted m m1).
  { exists (ms_list m), (mkTimer (lva_state (lva (ms_mrp_db m))) false (lva_sndmsg (lva (ms_mrp_db m)))), n1. by split. }
  clearbody m1.
  pose proof (ms_rooms (ms_list m)) as Hrooms. pose proof Hfit as Hlen. unfold ms_fits in Hlen.
  apply wp_bind, (ms_tx_emit_wp _ tx 15 buf0 m); [by auto|done|done|done|done|lia|].
  intros [[p1 buf1]|] m2 HT2 Hr; [destruct (Hr _ _ eq_refl) as [Hp1 Hb1]; clear Hr|by apply wp_ret, HQ].
  apply wp_bind, (ms_tx_emit_wp _ tx p1 buf1 m); [by auto|done|done|done|done|lia|].
  intros [[p2 buf2]|] m3 HT3 Hr; [destruct (Hr _ _ eq_refl) as [Hp2 Hb2]; clear Hr|by apply wp_ret, HQ].
  destruct (_ <=? _)%nat; [by apply wp_ret, HQ|].
  apply wp_bind, (ms_tx_emit_wp _ tx p2 buf2 m); [by auto|done|done|done|done|lia|].
  intros [[p3 buf3]|] m4 HT4 Hr; [destruct (Hr _ _ eq_refl) as [Hp3 Hb3]; clear Hr|by apply wp_ret, HQ].
  apply wp_bind, (ms_tx_emit_wp _ tx p3 buf3 m); [by auto|done|done|done|done|lia|].
  intros [[p4 buf4]|] m5 HT5 Hr; [destruct (Hr _ _ eq_refl) as [Hp4 Hb4]; clear Hr|by apply wp_ret, HQ].
  apply (ms_tx_send_wp p4 buf4 m); [done|done|lia|done].
Qed.

(** ** The events *)

(** What no event changes. *)
Record ms_kept (m m' : msrp_database) : Prop := {
  mk_config : same_config (ms_mrp_db m) (ms_mrp_db m');
  mk_ids : interesting_stream_ids m' = interesting_stream_ids m;
  mk_pruning : enable_pruning m' = enable_pruning m
}.

Lemma ms_kept_trans m1 m2 m3 : ms_kept m1 m2 -> ms_kept m2 m3 -> ms_kept m1 m3.
Proof using. intros [] []. constructor; [by etrans|congruence|congruence]. Qed.

Lemma ms_later_kept m m' : ms_later m m' -> ms_kept m m'.
Proof using. intros [n ->]. by constructor. Qed.

Record ms_evented (e : mrp_event) (q : option ms_record) (m m' : msrp_database) : Prop := {
  sev_inv : ms_Inv0 m';
  sev_table : malloc_ok E -> ms_table (ms_list m') =
                ms_spec_event p2pmac (enable_pruning m) (interesting m) e q (ms_table (ms_list m));
  sev_kept : ms_kept m m';
  sev_flag : ms_send_empty m' = ms_send_empty m
}.

(** After a transmission the invariant holds with the marks changed. *)
Lemma ms_Inv0_transmitted m m' :
  ms_Inv0 m -> ms_transmitted m m' ->
  ms_Inv0 m' /\ ms_table (ms_list m') = ms_table (ms_list m) /\ ms_kept m m' /\ ms_send_empty m' = ms_send_empty m.
Proof using.
  intros [Hs Ha [] Hl Hi] (l'&t&n&->&Hc). destruct (ms_marked_inv _ _ Hc) as (Hk&Htb&Hok&_&Hg).
  split_and!; try done. constructor; try done.
  - cbn. by rewrite Hk.
  - by apply Hok.
  - by apply Hg.
Qed.

Lemma ms_set_same m : ms_set_mrp (ms_mrp_db m) m = m.
Proof using. by destruct m. Qed.

Lemma ms_event_rla_wp q m fr ms Q :
  ms_Inv0 m ->
  (forall early m', ms_evented EVENT_RLA q m m' -> (early <> None -> ms_list m' = ms_list m) ->
     Q early (ms_at_db m' fr ms)) ->
  safe (ms_event_rla E p2pmac ((fun r => value_type (r_value r)) <$> q)) Q (ms_at_db m fr ms).
Proof using HT HR.
  intros HI HQ. pose proof HI as [Hs Ha Hdb Hl Hi].
  pose proof (jointimer_start_spec E HT _ Hdb) as Hj. apply wp_bind, ms_upd_mrp_wp.
  destruct (mrp_jointimer_start E (ms_mrp_db m)) as [rc db1]. destruct Hj as (_&_&Hdb1&Hc1&Hlv1&_). cbn [snd].
  assert (Hg1 : Forall (ms_guarded db1) (ms_list m)) by (eapply ms_guarded_mono; [|exact Hl]; by rewrite Hlv1).
  destruct q as [q|]; cbn [fmap option_fmap option_map]; [|by apply wp_ret, HQ].
  apply wp_bind, ms_upd_db_wp. cbn [ms_list ms_mrp_db ms_set_mrp].
  destruct (ms_for_spec _ _ (ms_list m) (ms_typed_steps EVENT_RLA (value_type (r_value q))) db1 Hdb1 Hg1)
    as (db2&->&[Hdb2 Hc2 _ _ _]&Hg2).
  apply wp_bind, ms_upd_mrp_wp, wp_ret. cbn [ms_list ms_mrp_db ms_set_mrp ms_set_list].
  pose proof (lvatimer_fsm_spec E HT HR db2 EVENT_RLA Hdb2 ltac:(auto)) as H3.
  destruct (mrp_lvatimer_fsm E db2 EVENT_RLA) as [rc3 db3]. destruct H3 as (_&_&Hdb3&Hc3&_&Hlv3&_).
  assert (Hkey : forall x, ms_key (ms_typed_attr EVENT_RLA (value_type (r_value q)) x) = ms_key x)
    by (intros x; unfold ms_typed_attr; by case_decide).
  apply HQ; [|by intros []]. constructor; [| |constructor; try done; etrans; [exact Hc1|by etrans]|done].
  - apply (ms_Inv0_fmap (ms_typed_attr EVENT_RLA (value_type (r_value q))) m db3); try done.
    + intros x Hx. unfold ms_typed_attr. case_decide; [by apply ms_ok_both|done].
    + eapply ms_guarded_mono; [|exact Hg2]. by rewrite Hlv3.
  - intros _. cbn [ms_list ms_set_list ms_set_mrp ms_spec_event]. apply ms_table_fmap; [by intros x _|].
    intros x _. unfold ms_typed_attr. cbn [r_value ms_core]. case_decide as Hd.
    + rewrite bool_decide_true by done. apply (ms_core_states (ms_both_attr EVENT_RLA)); done || apply ms_both_states.
    + by rewrite bool_decide_false.
Qed.

Lemma ms_event_tx_wp m fr ms Q :
  ms_Inv0 m -> ms_fits m ->
  (forall m' fr', ms_evented EVENT_TX None m m' -> Q tt (ms_at_db m' fr' ms)) ->
  safe (ms_event_tx E p2pmac STATION_ADDR) Q (ms_at_db m fr ms).
Proof using HT Hst.
  intros HI Hfit HQ. pose proof HI as [Hs Ha Hdb Hl Hi].
  pose proof (jointimer_stop_spec E HT _ Hdb) as Hj. apply wp_bind, ms_upd_mrp_wp.
  destruct (mrp_jointimer_stop E (ms_mrp_db m)) as [rc db1]. destruct Hj as (_&Hdb1&Hc1&Hlv1&_).
  apply wp_bind, ms_upd_db_wp. cbn [ms_list ms_mrp_db ms_set_mrp snd]. rewrite ms_for_pure.
  apply wp_bind, ms_the_db_wp, wp_bind. set (m1 := ms_set_list _ _).
  assert (HI1 : ms_Inv0 m1).
  { apply (ms_Inv0_fmap _ m); try done; [intros x; apply ms_ok_app|]. apply Forall_fmap.
    eapply ms_guarded_mono; [|exact Hl]. by rewrite Hlv1. }
  assert (Ht1 : ms_table (ms_list m1) = ms_spec_event p2pmac (enable_pruning m) (interesting m) EVENT_TX None (ms_table (ms_list m))).
  { apply ms_table_fmap; [done|]. intros x _. apply (ms_core_states (ms_app_event p2pmac EVENT_TX) (fun p => (_, p.2))); done || apply ms_app_states. }
  assert (Hk1 : ms_kept m m1) by (by constructor).
  apply ms_txpdu_wp; [apply HI1|unfold ms_fits; cbn; by rewrite length_fmap|].
  intros z m2 fr' Htr. destruct (ms_Inv0_transmitted _ _ HI1 Htr) as (HI2&Ht2&Hk2&Hf2).
  pose proof (ms_kept_trans _ _ _ Hk1 Hk2) as Hk12.
  destruct (ms_tx_count (ms_list m1) =? 0).
  - apply wp_ret, HQ. constructor; [done|intros _; by rewrite Ht2|done|done].
  - apply ms_upd_mrp_wp. pose proof (jointimer_start_spec E HT _ (ms_inv_armed _ HI2)) as H3.
    destruct (mrp_jointimer_start E (ms_mrp_db m2)) as [rc3 db3]. destruct H3 as (_&_&Hdb3&Hc3&Hlv3&_).
    apply HQ. constructor; [|intros _; etrans; [exact Ht2|exact Ht1]| |done].
    + destruct HI2. constructor; try done. eapply ms_guarded_mono; [|done]. cbn. by rewrite Hlv3.
    + eapply ms_kept_trans; [exact Hk12|]. by constructor.
Qed.

(** ** Reclaiming *)

Definition ms_survivor (g : msrp_attribute -> msrp_attribute) (x : msrp_attribute) : option msrp_attribute :=
  if ms_reclaimable (g x) then None else Some (g x).

Lemma ms_reclaim_loop_wp f g l : forall m fr ms Q,
  (forall x db, f x db = (g x, db)) ->
  (forall m' ms', ms_later m m' -> Q (omap (ms_survivor g) l) (ms_at_db m' fr ms')) ->
  safe (ms_reclaim_loop E f l) Q (ms_at_db m fr ms).
Proof using.
  induction l as [|x l IH]; intros m fr ms Q Hf HQ; cbn [ms_reclaim_loop]; [by apply wp_ret, HQ|].
  apply wp_bind, ms_the_db_wp. rewrite Hf. apply wp_bind, ms_upd_mrp_wp. rewrite ms_set_same.
  cbn [omap list_omap] in HQ. unfold ms_survivor at 1 in HQ. destruct (ms_reclaimable (g x)).
  - apply wp_bind, ms_send_notifications_wp. intros z m1 ms1 H1. apply IH; [done|].
    intros m2 ms2 H2. apply HQ. by eapply ms_later_trans.
  - apply wp_bind, IH; [done|]. intros m2 ms2 H2. by apply wp_ret, HQ.
Qed.

Lemma ms_survivor_Some g x y : ms_survivor g x = Some y -> y = g x.
Proof using. unfold ms_survivor. destruct (ms_reclaimable _); [done|]. by intros [= <-]. Qed.

(** A pass over the list that drops idle attributes. *)
Lemma ms_Inv0_survivors g m :
  (forall x, ms_key (g x) = ms_key x) -> (forall x, ms_attr_ok x -> ms_attr_ok (g x)) ->
  NoDup (ms_key <$> ms_list m) -> Forall ms_attr_ok (ms_list m) -> armed (ms_mrp_db m) ->
  (exists es, holds (interesting_stream_ids m) es) -> Forall (fun x => ms_guarded (ms_mrp_db m) (g x)) (ms_list m) ->
  ms_Inv0 (ms_set_list (omap (ms_survivor g) (ms_list m)) m).
Proof using.
  intros Hk Hok Hs Ha Hdb Hi Hg.
  assert (Hin : forall y, y ∈ omap (ms_survivor g) (ms_list m) -> exists x, x ∈ ms_list m /\ y = g x).
  { intros y (x&Hx&Hy%ms_survivor_Some)%list_elem_of_omap. by exists x. }
  constructor; cbn [ms_list ms_set_list ms_mrp_db interesting_stream_ids]; try done.
  - eapply sublist_NoDup; [exact Hs|]. apply omap_keys. intros x y ->%ms_survivor_Some. apply Hk.
  - apply Forall_forall. intros y (x&Hx&->)%Hin. apply Hok. by apply (proj1 (Forall_forall _ _) Ha).
  - apply Forall_forall. intros y (x&Hx&->)%Hin. by apply (proj1 (Forall_forall _ _) Hg x).
Qed.

Lemma ms_table_survivors g (f : entry -> entry) l :
  (forall x, ms_key (g x) = ms_key x) -> (forall x, ms_core (g x) = rec_states f (ms_core x)) ->
  NoDup (ms_key <$> l) ->
  ms_table (omap (ms_survivor g) l) = omap (fun r => rec_keep (rec_states f r)) (ms_table l).
Proof using.
  intros Hk Hc Hnd. apply ms_table_omap; [|intros x _|done].
  - intros x y _ ->%ms_survivor_Some. apply Hk.
  - cbn beta. rewrite <- (Hc x). unfold ms_survivor, rec_keep. rewrite idle_reclaimable. cbn [ms_core r_states].
    by destruct (idle (ms_states (g x))).
Qed.

Lemma ms_lvtimer_pure x db : ms_reg_event E EVENT_LVTIMER x db = (ms_reg_attr EVENT_LVTIMER x, db).
Proof using. by rewrite ms_reg_event_machines, lvtimer_registrar. Qed.

Lemma ms_event_lvtimer_wp m fr ms Q :
  ms_Inv0 m -> (forall m' ms', ms_evented EVENT_LVTIMER None m m' -> Q tt (ms_at_db m' fr ms')) ->
  safe (ms_event_lvtimer E) Q (ms_at_db m fr ms).
Proof using HT.
  intros HI HQ. pose proof HI as [Hs Ha Hdb Hl Hi].
  pose proof (lvtimer_stop_spec E HT _ Hdb) as H1. apply wp_bind, ms_upd_mrp_wp.
  destruct (mrp_lvtimer_stop E (ms_mrp_db m)) as [rc db1]. destruct H1 as (Hdb1&Hc1&_).
  apply wp_bind, ms_the_db_wp, wp_bind. cbn [ms_list ms_set_mrp snd].
  apply (ms_reclaim_loop_wp _ (ms_reg_attr EVENT_LVTIMER)); [apply ms_lvtimer_pure|].
  intros m' ms' [n ->]. apply ms_upd_db_wp, HQ.
  constructor; [| |by constructor|done].
  - apply (ms_Inv0_survivors (ms_reg_attr EVENT_LVTIMER) (ms_set_mrp (set_asked n db1) m));
      [done|apply ms_ok_reg|done|done|by apply armed_asked|done|].
    apply Forall_forall. intros x _ HLV. exfalso.
    pose proof (f_equal snd (ms_reg_states EVENT_LVTIMER x)) as Hc. cbn in Hc, HLV. rewrite HLV in Hc.
    by destruct (reg_state (ms_registrar x)).
  - intros _. cbn [ms_list ms_set_list ms_set_mrp ms_spec_event]. apply ms_table_survivors; [done| |done].
    intros x. apply (ms_core_states (ms_reg_attr EVENT_LVTIMER) (fun p => (p.1, reg_next EVENT_LVTIMER p.2))); try done.
    apply ms_reg_states.
Qed.

Lemma ms_event_lvatimer_wp m fr ms Q :
  ms_Inv0 m -> ms_fits m -> ms_send_empty m = false ->
  (forall m' fr', ms_evented EVENT_LVATIMER None m m' -> Q tt (ms_at_db m' fr' ms)) ->
  safe (ms_event_lvatimer E p2pmac STATION_ADDR) Q (ms_at_db m fr ms).
Proof using HT HR Hst.
  intros HI Hfit Hflag HQ. pose proof HI as [Hs Ha Hdb Hl Hi].
  pose proof (lva_timers E HT _ Hdb) as H1. apply wp_bind, ms_upd_mrp_wp, wp_bind, ms_upd_mrp_wp.
  cbn [ms_list ms_mrp_db ms_set_mrp]. set (db1 := (mrp_jointimer_stop _ _).2) in *.
  destruct H1 as (Hdb1&Hc1&Hlv1). clearbody db1.
  apply wp_bind, ms_upd_db_wp. cbn [ms_list ms_mrp_db ms_set_mrp].
  assert (Hg1 : Forall (ms_guarded db1) (ms_list m)) by (eapply ms_guarded_mono; [|exact Hl]; by rewrite Hlv1).
  destruct (ms_for_spec _ _ (ms_list m) (ms_both_steps EVENT_TXLA) db1 Hdb1 Hg1) as (db2&->&[Hdb2 Hc2 _ _ _]&Hg2).
  apply wp_bind, ms_upd_mrp_wp, wp_bind, ms_upd_db_wp, wp_bind, ms_upd_mrp_wp, wp_bind.
  cbn [ms_list ms_mrp_db ms_set_mrp ms_set_list ms_set_empty ms_send_empty interesting_stream_ids enable_pruning].
  pose proof (lvatimer_fsm_spec E HT HR db2 EVENT_LVATIMER Hdb2 ltac:(auto)) as H3.
  destruct (mrp_lvatimer_fsm E db2 EVENT_LVATIMER) as [rc3 db3].
  destruct H3 as (_&_&Hdb3&Hc3&_&Hlv3&Hla). cbn [snd]. unfold mrp_lvatimer_fsm. rewrite Hla. cbn [lva_state snd].
  set (m1 := ms_set_mrp _ _).
  assert (HI1 : ms_Inv0 m1).
  { constructor.
    - change (NoDup (ms_key <$> (ms_both_attr EVENT_TXLA <$> ms_list m))). by rewrite fmap_keys.
    - apply Forall_fmap. eapply Forall_impl; [exact Ha|]. intros x Hx. by apply ms_ok_both.
    - by apply armed_set_lva.
    - eapply ms_guarded_mono; [|exact Hg2]. cbn. by rewrite Hlv3.
    - done. }
  assert (Hk1 : ms_kept m m1) by (constructor; try done; etrans; [exact Hc1|by etrans]).
  apply ms_txpdu_wp; [apply HI1|unfold ms_fits; cbn; by rewrite length_fmap|].
  intros z m2 fr' Htr. destruct (ms_Inv0_transmitted _ _ HI1 Htr) as (HI2&Ht2&Hk2&_).
  apply ms_upd_db_wp, HQ. constructor; [by destruct HI2| |destruct (ms_kept_trans _ _ _ Hk1 Hk2); by constructor|done].
  intros _. etrans; [exact Ht2|]. apply ms_table_fmap; [done|]. intros x _.
  apply (ms_core_states (ms_both_attr EVENT_TXLA)); done || apply ms_both_states.
Qed.

(** ** Merging *)

(** What [msrp_merge] makes of the attribute [a] it finds. *)
Definition ms_merged (known : bool) (r a : msrp_attribute) : msrp_attribute :=
  let a1 := ms_set_source (reg_macaddr (ms_registrar r)) a in
  match ms_value a, ms_value r with
  | (TalkerAdv t | TalkerFailed t), (TalkerAdv rt | TalkerFailed rt) => merge_talker r rt a1 t
  | Listener _, Listener _ =>
      if ms_substate a =? ms_substate r then a1
      else if (ms_substate a =? LISTENER_ASKFAILED) && negb known then a1 else merge_listener r a1
  | Domain d, Domain rd => merge_domain rd d a1
  | _, _ => a1
  end.

Lemma ms_merged_core known r a : ms_core (ms_merged known r a) = rec_merge known (ms_core r) (ms_core a).
Proof using.
  destruct a as [v sub op ap rg], r as [w sub' op' ap' rg'].
  unfold ms_merged, rec_merge, merge_talker, merge_listener, merge_domain. cbn.
  destruct v as [t|t|t|d], w as [u|u|u|u]; cbn; try done.
  1-4: case_decide; [rewrite bool_decide_true by done|rewrite bool_decide_false by done]; done.
  - destruct (sub =? sub'); [done|]. cbn. destruct ((sub =? LISTENER_ASKFAILED) && negb known); [done|].
    case_decide; [rewrite bool_decide_true by done|rewrite bool_decide_false by done]; done.
  - destruct ((SRclassPriority d =? SRclassPriority u) && (SRclassVID d =? SRclassVID u)); done.
Qed.

Lemma ms_merged_key known r a : ms_key a = ms_key r -> ms_key (ms_merged known r a) = ms_key a.
Proof using.
  unfold ms_key. destruct a as [v sub op ap rg], r as [w sub' op' ap' rg'].
  unfold ms_merged, merge_talker, merge_listener, merge_domain. cbn.
  destruct v, w; cbn; try done; intros _; repeat case_match; done.
Qed.

Lemma merge_failure_ok u t : talk_ok u -> talk_ok t -> talk_ok (merge_failure u t).
Proof using. by intros [] []. Qed.

Lemma ms_merged_ok known r a : ms_attr_ok r -> ms_attr_ok a -> ms_attr_ok (ms_merged known r a).
Proof using.
  destruct a as [v sub op ap rg], r as [w sub' op' ap' rg']. intros [Hv Hs Hm] [Hv' Hs' Hm']. cbn in *.
  unfold ms_merged, merge_talker, merge_listener, merge_domain. cbn.
  destruct v as [t|t|t|d], w as [u|u|u|u]; cbn; try (by constructor);
    repeat (case_decide || destruct (_ && _) || destruct (_ =? _)); constructor; cbn in *; try done;
    try (by apply merge_failure_ok).
  by destruct Hv as (?&?&?&?), Hv' as (?&?&?&?).
Qed.

Lemma ms_merged_guarded known r a db : ms_guarded db a -> ms_guarded db (ms_merged known r a).
Proof using.
  unfold ms_guarded, guarded. destruct a as [v sub op ap rg], r as [w sub' op' ap' rg'].
  unfold ms_merged, merge_talker, merge_listener, merge_domain. cbn. intros Hg.
  destruct v, w; cbn; try done; repeat (case_decide || destruct (_ && _) || destruct (_ =? _)); cbn; done.
Qed.

(** Sources are no part of the table. *)
Lemma ms_table_source s A a B : ms_table (A ++ ms_set_source s a :: B) = ms_table (A ++ a :: B).
Proof using. unfold ms_table. by rewrite !fmap_app, !fmap_cons. Qed.

Lemma ms_talker_known_wp a t m fr ms Q :
  length (StreamID t) = 8%nat -> keys_ok (ms_list m) ->
  (forall known n, (malloc_ok E -> known = bool_decide (is_Some (ms_table (ms_list m) !! KTalker (StreamID t)))) ->
     Q (negb (ms_substate a =? LISTENER_ASKFAILED) || known) (ms_at_db (ms_set_mrp (set_asked n (ms_mrp_db m)) m) fr ms)) ->
  safe (ms_talker_known E a t) Q (ms_at_db m fr ms).
Proof using.
  intros Hl Hk HQ. unfold ms_talker_known. destruct (ms_substate a =? LISTENER_ASKFAILED).
  - apply wp_bind, ms_malloc_wp. intros ok m' [n ->] Hok. apply wp_bind, ms_the_db_wp, wp_ret. apply (HQ _ n).
    intros HM. rewrite (Hok HM). cbn [andb ms_list ms_set_mrp]. apply bool_decide_ext.
    rewrite ms_table_lookup by done. by rewrite fmap_is_Some.
  - apply wp_ret. specialize (HQ _ (asked (ms_mrp_db m)) (fun _ => eq_refl)). by destruct m as [[] ? ? ? ?].
Qed.

(** The end of [msrp_merge]: the attribute is replaced, or it is left as it is. *)
Lemma ms_merge_end (f : option (msrp_attribute -> msrp_attribute)) r A a1 B m fr ms Q :
  key_ok (ms_key r) -> keys_ok (A ++ a1 :: B) -> ms_list m = A ++ a1 :: B -> ms_key a1 = ms_key r ->
  ms_key r ∉ (ms_key <$> A) ->
  Q 0 (ms_at_db (ms_set_list (A ++ default id f a1 :: B) m) fr ms) ->
  safe (match f with Some f => ms_upd_at (ms_key r) f | None => mret tt end;; mret 0) Q (ms_at_db m fr ms).
Proof using.
  intros Hkr Hok Hm Hk Hn HQ. destruct (ms_lookup_middle _ A a1 B Hkr Hok Hk Hn) as (_&Hat&_).
  apply wp_bind. destruct f as [f|]; cbn in HQ.
  - apply ms_upd_db_wp, wp_ret. by rewrite Hm, Hat.
  - apply wp_ret, wp_ret. rewrite <- Hm in HQ. by destruct m.
Qed.

Lemma msrp_merge_wp r A a B m fr ms Q :
  ms_attr_ok r -> Forall ms_attr_ok (A ++ a :: B) -> ms_list m = A ++ a :: B -> ms_key a = ms_key r ->
  ms_key r ∉ (ms_key <$> A) ->
  (forall known n, (malloc_ok E -> known = talker_known (ms_key r) (ms_table (ms_list m))) ->
     Q 0 (ms_at_db (ms_set_list (A ++ ms_merged known r a :: B) (ms_set_mrp (set_asked n (ms_mrp_db m)) m)) fr ms)) ->
  safe (msrp_merge E r) Q (ms_at_db m fr ms).
Proof using.
  intros Hr Hok Hm Hk Hn HQ. pose proof (key_of_ok _ (ma_value _ Hr)) as Hkr. fold (ms_key r) in Hkr.
  apply wp_bind, ms_the_db_wp. cbv zeta. fold (ms_key r). rewrite Hm.
  set (a1 := ms_set_source (reg_macaddr (ms_registrar r)) a).
  assert (Hok1 : Forall ms_attr_ok (A ++ a1 :: B)).
  { apply Forall_app in Hok as [? [[] ?]%Forall_cons]. apply Forall_app. split; [done|]. constructor; [|done].
    constructor; try done. apply Hr. }
  destruct (ms_lookup_middle _ A a B Hkr (ms_attrs_keys _ Hok) Hk Hn) as (->&Hat&_).
  destruct (ms_lookup_middle _ A a1 B Hkr (ms_attrs_keys _ Hok1) Hk Hn) as (_&Hat1&_).
  apply wp_bind, ms_upd_db_wp. rewrite Hm, Hat. fold a1. set (m1 := ms_set_list _ m).
  assert (Htab : ms_table (ms_list m1) = ms_table (ms_list m)) by (rewrite Hm; apply ms_table_source).
  assert (Hend : forall f known n, (malloc_ok E -> known = talker_known (ms_key r) (ms_table (ms_list m))) ->
    ms_merged known r a = default id f a1 ->
    safe (match f with Some f => ms_upd_at (ms_key r) f | None => mret tt end;; mret 0) Q
      (ms_at_db (ms_set_mrp (set_asked n (ms_mrp_db m1)) m1) fr ms)).
  { intros f known n Hkn Heq. apply (ms_merge_end f r A a1 B); try done; [by apply ms_attrs_keys|].
    specialize (HQ known n Hkn). by rewrite Heq in HQ. }
  assert (Hnow : forall f, ms_merged (talker_known (ms_key r) (ms_table (ms_list m))) r a = default id f a1 ->
    safe (match f with Some f => ms_upd_at (ms_key r) f | None => mret tt end;; mret 0) Q (ms_at_db m1 fr ms)).
  { intros f Heq. pose proof (Hend f _ (asked (ms_mrp_db m1)) (fun _ => eq_refl) Heq) as H.
    by replace (ms_set_mrp _ m1) with m1 in H by (by unfold m1; destruct m as [[] ? ? ? ?]). }
  unfold ms_merged in Hend, Hnow. fold a1 in Hend, Hnow.
  pose proof (ms_attrs_keys _ Hok1) as Hko1. pose proof Hkr as Hlen. unfold ms_key in Hk, Hlen.
  destruct (ms_value a) as [s|s|s|d], (ms_value r) as [u|u|u|u] eqn:Hvr; try done;
    try (by apply (Hnow (Some _))).
  injection Hk as Hid. destruct (ms_substate a =? ms_substate r); [by apply (Hnow None)|].
  apply wp_bind, wp_bind, ms_talker_known_wp; [by rewrite Hid|done|]. intros known n Hkn. rewrite Htab, Hid in Hkn.
  assert (Hkn' : malloc_ok E -> known = talker_known (ms_key r) (ms_table (ms_list m)))
    by (intros HM; rewrite (Hkn HM); unfold ms_key; by rewrite Hvr).
  destruct (negb (ms_substate a =? LISTENER_ASKFAILED) || known) eqn:Hb.
  - refine (Hend (Some (merge_listener r)) known n Hkn' _). by destruct (ms_substate a =? LISTENER_ASKFAILED), known.
  - refine (Hend None known n Hkn' _). by destruct (ms_substate a =? LISTENER_ASKFAILED), known.
Qed.

(** ** Events for one attribute *)

(** An attribute as [msrp_alloc] provides it. *)
Definition ms_is_fresh (r : msrp_attribute) : Prop := ms_attr_ok r /\ ms_states r = (VO, MT) /\ ms_silent r.

(** The list [A ++ x :: B] with the attribute [x] that carries the event: the one found
    in [l], merged with [r], or [r] itself. *)
Record ms_carrier (known : bool) (l : list msrp_attribute) (r : msrp_attribute) (A : list msrp_attribute)
    (x : msrp_attribute) (B : list msrp_attribute) : Prop := {
  sc_keys : NoDup (ms_key <$> (A ++ x :: B));
  sc_ok : Forall ms_attr_ok (A ++ x :: B);
  sc_key : ms_key x = ms_key r;
  sc_fresh : ms_key r ∉ (ms_key <$> A);
  sc_core : ms_core x = match ms_table l !! ms_key r with Some a => rec_merge known (ms_core r) a | None => ms_core r end;
  sc_guarded : forall db, Forall (ms_guarded db) l -> Forall (ms_guarded db) (A ++ x :: B);
  sc_table : ms_table (A ++ B) = delete (ms_key r) (ms_table l)
}.

Lemma ms_fresh_guarded r db : ms_is_fresh r -> ms_guarded db r.
Proof using. intros (_&Hc&_) HLV. injection Hc as _ Hc. cbn in HLV. congruence. Qed.

Lemma ms_carrier_new known l r :
  NoDup (ms_key <$> l) -> Forall ms_attr_ok l -> ms_is_fresh r -> msrp_lookup (ms_key r) l = None ->
  exists A B, msrp_add r l = A ++ r :: B /\ ms_carrier known l r A r B.
Proof using.
  intros Hnd Hok Hr Hn. pose proof Hr as (Hokr&_&_). pose proof (key_of_ok _ (ma_value _ Hokr)) as Hkr.
  apply ms_lookup_None in Hn; [|done|by apply ms_attrs_keys]. pose proof (ms_table_not_in _ _ Hn) as Htn.
  destruct (msrp_add_split r l) as (A&B&->&Hadd). exists A, B. split; [done|].
  pose proof Hn as HnAB. rewrite fmap_app, not_elem_of_app in Hn. destruct Hn as [HnA HnB].
  apply Forall_app in Hok as [HA HB]. constructor; try done.
  - rewrite fmap_app, fmap_cons, <- Permutation_middle. rewrite fmap_app in Hnd, HnAB. by constructor.
  - apply Forall_app. split; [done|]. by constructor.
  - by rewrite Htn.
  - intros db [HgA HgB]%Forall_app. apply Forall_app. split; [done|]. constructor; [by apply ms_fresh_guarded|done].
  - by rewrite delete_id.
Qed.

Lemma ms_carrier_found known A a B r :
  NoDup (ms_key <$> (A ++ a :: B)) -> Forall ms_attr_ok (A ++ a :: B) -> ms_is_fresh r ->
  ms_key a = ms_key r -> ms_key r ∉ (ms_key <$> A) ->
  ms_carrier known (A ++ a :: B) r A (ms_merged known r a) B.
Proof using.
  intros Hnd Hok (Hokr&_&_) Hk Hn. pose proof (ms_merged_key known r a Hk) as Hkm.
  assert (HnB : ms_key r ∉ (ms_key <$> B)).
  { rewrite fmap_app, fmap_cons in Hnd. apply NoDup_app in Hnd as (_&_&[Hnd _]%NoDup_cons). by rewrite <- Hk. }
  assert (Hfree : ms_table (A ++ B) !! ms_key r = None).
  { apply ms_table_not_in. rewrite fmap_app, not_elem_of_app. done. }
  assert (Ht : ms_table (A ++ a :: B) = <[ms_key r := ms_core a]> (ms_table (A ++ B)))
    by (rewrite ms_table_middle; rewrite Hk; done).
  apply Forall_app in Hok as [HA [Hoka HB]%Forall_cons]. constructor; try done.
  - rewrite fmap_app, fmap_cons, Hkm. by rewrite fmap_app, fmap_cons in Hnd.
  - apply Forall_app. split; [done|]. constructor; [by apply ms_merged_ok|done].
  - by rewrite Hkm.
  - rewrite Ht, lookup_insert_eq. apply ms_merged_core.
  - intros db [HgA [Hga HgB]%Forall_cons]%Forall_app. apply Forall_app. split; [done|].
    constructor; [by apply ms_merged_guarded|done].
  - by rewrite Ht, delete_insert_id.
Qed.

Lemma ms_attribute_registrar_machines e x db :
  ms_attribute_registrar E e x db =
  (ms_with (attribute_registrar E e (ms_machines x) db).1 x, (attribute_registrar E e (ms_machines x) db).2).
Proof using.
  unfold ms_attribute_registrar, attribute_registrar.
  destruct e; try (by apply ms_reg_event_machines).
  - rewrite ms_reg_event_machines. by destruct (registrar_event E EVENT_BEGIN (ms_machines x) db).
  - cbn [registrar ms_machines]. case_decide; apply ms_reg_event_machines.
Qed.

Lemma attribute_registrar_mac e x db :
  reg_macaddr (registrar (attribute_registrar E e x db).1) = reg_macaddr (registrar x).
Proof using.
  assert (Hr : forall e', reg_macaddr (registrar (registrar_event E e' x db).1) = reg_macaddr (registrar x)).
  { intros e'. by rewrite registrar_event_fst, reg_attr_mac. }
  unfold attribute_registrar. destruct e; try apply Hr.
  - rewrite <- (Hr EVENT_BEGIN). by destruct (registrar_event E EVENT_BEGIN x db).
  - case_decide; apply Hr.
Qed.

(** The machines of the carrier. *)
Lemma ms_carrier_step known e l r A x B db x' db' :
  for_attribute e -> ms_is_fresh r -> ms_carrier known l r A x B ->
  (ms_table l !! ms_key r = None -> e <> EVENT_RMT) -> armed db -> Forall (ms_guarded db) l ->
  ms_attribute_registrar E e (ms_app_event p2pmac e x) db = (x', db') ->
  ms_attr_ok x' /\ ms_key x' = ms_key r /\ armed db' /\ same_config db db' /\
  Forall (ms_guarded db') (A ++ x' :: B) /\
  rec_keep (ms_core x') = rec_attribute p2pmac e known (ms_core r) (ms_table l !! ms_key r).
Proof using HT.
  intros He Hr [_ Hok Hk _ Hcx Hgd _] Hrmt Hdb Hgl Heq. rewrite ms_attribute_registrar_machines in Heq.
  destruct (proj1 (Forall_app _ _ _) (Hgd db Hgl)) as [HgA [Hgx HgB]%Forall_cons].
  destruct (proj1 (Forall_app _ _ _) Hok) as [HoA [Hox HoB]%Forall_cons].
  pose proof (attribute_registrar_effect E HT e (ms_machines (ms_app_event p2pmac e x)) db He Hdb Hgx) as Hre.
  pose proof (attribute_registrar_mac e (ms_machines (ms_app_event p2pmac e x)) db) as Hmac.
  destruct (attribute_registrar E e (ms_machines (ms_app_event p2pmac e x)) db) as [y db1]. cbn [fst snd] in Hre, Heq, Hmac.
  destruct Hre as [_ Hc _ Hdb1 Hcf _ Hmono Hgy]. injection Heq as <- <-. split_and!; try done.
  - destruct Hox. constructor; try done. cbn [ms_with ms_registrar]. by rewrite Hmac.
  - apply Forall_app. split; [by eapply ms_guarded_mono|]. constructor; [exact Hgy|by eapply ms_guarded_mono].
  - assert (Hcore : ms_core (ms_with y (ms_app_event p2pmac e x)) =
      rec_states (fun p => (app_next p2pmac e p, reg_next (as_registrar e) p.2)) (ms_core x)).
    { apply (ms_core_states (fun x => ms_with y (ms_app_event p2pmac e x))); try done.
      etrans; [exact Hc|]. f_equal. exact (f_equal fst (ms_app_states e x)). }
    rewrite Hcore, Hcx. unfold rec_attribute. destruct (ms_table l !! ms_key r) as [a|]; [done|].
    destruct e; try done. by destruct (Hrmt eq_refl).
Qed.

Lemma ms_reclaim_wp A x B m fr ms Q :
  Forall ms_attr_ok (A ++ x :: B) -> ms_list m = A ++ x :: B -> ms_key x ∉ (ms_key <$> A) ->
  (forall m' ms', ms_later (ms_set_list (if ms_reclaimable x then A ++ B else A ++ x :: B) m) m' ->
     Q tt (ms_at_db m' fr ms')) ->
  safe (msrp_conditional_reclaim E (ms_key x)) Q (ms_at_db m fr ms).
Proof using.
  intros Hok Hm Hn HQ.
  assert (Hkx : key_ok (ms_key x)).
  { apply key_of_ok. apply Forall_app in Hok as [_ [[] _]%Forall_cons]. done. }
  destruct (ms_lookup_middle (ms_key x) A x B Hkx (ms_attrs_keys _ Hok) eq_refl Hn) as (Hlk&_&Hun).
  apply wp_bind, ms_the_db_wp. rewrite Hm, Hlk. destruct (ms_reclaimable x).
  - apply wp_bind, ms_upd_db_wp. rewrite Hm, Hun. apply wp_bind, ms_send_notifications_wp.
    intros z m' ms' Hl. by apply wp_ret, HQ.
  - apply wp_ret, HQ. rewrite <- Hm. by destruct m.
Qed.

Lemma Forall_sublist {A} (P : A -> Prop) l l' : sublist l l' -> Forall P l' -> Forall P l.
Proof using.
  intros Hs. rewrite !Forall_forall. intros H x Hx. apply H. by eapply elem_of_sublist.
Qed.

(** The rest of the event once the carrier is in the list. *)
Lemma ms_carried_wp known e l r A x B m fr ms Q :
  for_attribute e -> ms_is_fresh r -> ms_carrier known l r A x B ->
  (ms_table l !! ms_key r = None -> e <> EVENT_RMT) ->
  armed (ms_mrp_db m) -> Forall (ms_guarded (ms_mrp_db m)) l -> ms_list m = A ++ x :: B ->
  (exists es, holds (interesting_stream_ids m) es) ->
  (forall m' ms', ms_Inv0 m' ->
     ms_table (ms_list m') = partial_alter (rec_attribute p2pmac e known (ms_core r)) (ms_key r) (ms_table l) ->
     ms_kept m m' -> ms_send_empty m' = ms_send_empty m -> Q (@None Z) (ms_at_db m' fr ms')) ->
  safe (ms_attribute_machines E p2pmac e (ms_key r);; msrp_conditional_reclaim E (ms_key r);; mret None) Q
    (ms_at_db m fr ms).
Proof using HT.
  intros He Hr HC Hrmt Hdb Hg Hm Hids HQ. pose proof HC as [Hnd Hok Hk Hn _ _ Htab].
  assert (Hkr : key_ok (ms_key r)) by (apply key_of_ok, Hr).
  destruct (ms_lookup_middle _ A x B Hkr (ms_attrs_keys _ Hok) Hk Hn) as (Hlk&Hat&_).
  apply wp_bind, wp_bind, ms_the_db_wp. rewrite Hm, Hlk.
  destruct (ms_attribute_registrar E e (ms_app_event p2pmac e x) (ms_mrp_db m)) as [x' db'] eqn:Heq.
  destruct (ms_carrier_step known e l r A x B _ x' db' He Hr HC Hrmt Hdb Hg Heq) as (Hox&Hkx&Hdb'&Hcf&Hg'&Hkeep).
  apply ms_upd_db_wp. rewrite Hm, Hat, <- Hkx. rewrite <- Hkx in Hn.
  assert (Hok' : Forall ms_attr_ok (A ++ x' :: B)).
  { apply Forall_app in Hok as [? [_ ?]%Forall_cons]. apply Forall_app. split; [done|]. by constructor. }
  apply wp_bind, (ms_reclaim_wp A x' B); [done..|]. intros m' ms' Hl. apply wp_ret.
  assert (Hlist : ms_list m' = if ms_reclaimable x' then A ++ B else A ++ x' :: B) by (by destruct Hl as [n ->]).
  assert (Hsub : sublist (ms_list m') (A ++ x' :: B)).
  { rewrite Hlist. destruct (ms_reclaimable x'); [|done]. apply sublist_app; [done|]. by constructor. }
  apply HQ.
  - apply (ms_Inv0_later _ _ Hl). cbn [ms_list ms_set_list]. destruct Hl as [n ->]. cbn [ms_list ms_set_mrp ms_set_list] in Hsub.
    constructor; cbn [ms_list ms_set_list ms_set_mrp ms_mrp_db interesting_stream_ids]; try done.
    + eapply sublist_NoDup; [|by apply fmap_sublist]. rewrite fmap_app, fmap_cons, Hkx, <- Hk. by rewrite fmap_app, fmap_cons in Hnd.
    + by eapply Forall_sublist.
    + by eapply Forall_sublist.
  - rewrite Hlist. transitivity (partial_alter (fun _ => rec_keep (ms_core x')) (ms_key r) (ms_table l)).
    + unfold rec_keep. rewrite idle_reclaimable. cbn [r_states ms_core]. destruct (idle (ms_states x')); [done|].
      rewrite ms_table_middle by done. rewrite Htab, Hkx, insert_delete_eq. done.
    + apply partial_alter_ext. by intros o <-.
  - destruct Hl as [n ->]. by constructor.
  - by destruct Hl as [n ->].
Qed.

Lemma find_spec s es v :
  holds s es -> exists o, eui64set_find s v = Ok o /\ (is_Some o <-> v ∈ keys es).
Proof using.
  intros (Hs&Ho&_). unfold eui64set_find. rewrite (entries_shaped _ _ Hs). cbn_outcome. eexists. split; [done|].
  pose proof (bsearch_entries es v Ho) as Hb. destruct (bsearch _ _ _) as [i|].
  - destruct Hb as (x&Hx&<-). rewrite Hx. split; [|by eexists]. intros _. apply elem_of_keys. exists x.
    split; [by eapply list_elem_of_lookup_2|done].
  - split; [by intros []|done].
Qed.

(** Whether the declaration is of interest. *)
Lemma ms_interested_wp r m fr ms Q :
  ms_Inv0 m -> ms_attr_ok r ->
  Q (of_interest (enable_pruning m) (interesting m) (ms_table (ms_list m)) (ms_value r)) (ms_at_db m fr ms) ->
  safe (ms_interested r) Q (ms_at_db m fr ms).
Proof using.
  intros [_ Ha _ _ [es Hes]] Hr HQ. unfold ms_interested. apply wp_bind, ms_the_db_wp.
  rewrite (interesting_holds _ _ Hes) in HQ.
  assert (Hgo : forall s, talk_ok s ->
    Q (negb (enable_pruning m) || bool_decide (be_val (StreamID s) ∈ keys es) ||
       bool_decide (is_Some (ms_table (ms_list m) !! KListener (StreamID s)))) (ms_at_db m fr ms) ->
    safe (if enable_pruning m then
            id ← lift (eui64_read (StreamID s));
            found ← lift (eui64set_find (interesting_stream_ids m) id);
            mret (bool_decide (is_Some found) ||
                  bool_decide (is_Some (msrp_lookup (KListener (StreamID s)) (ms_list m))))
          else mret true) Q (ms_at_db m fr ms)).
  { intros s Hs HQs. destruct (tk_id _ Hs) as [Hb Hl]. destruct (enable_pruning m); [|by apply wp_ret].
    apply wp_bind. eapply wp_lift; [by apply eui64_read_val|].
    destruct (find_spec _ es (be_val (StreamID s)) Hes) as (o&Hf&Ho). apply wp_bind. eapply wp_lift; [exact Hf|].
    apply wp_ret. rewrite ms_table_lookup in HQs by (done || by apply ms_attrs_keys).
    rewrite (bool_decide_ext _ _ (fmap_is_Some _ _)) in HQs. by rewrite (bool_decide_ext _ _ Ho). }
  destruct Hr as [Hv _ _]. destruct (ms_value r) as [s|s|s|d]; [by apply Hgo..|by apply wp_ret|by apply wp_ret].
Qed.

Lemma ms_spec_attribute e r pruning X t :
  for_attribute e -> ms_spec_event p2pmac pruning X e (Some (ms_core r)) t =
    if of_interest pruning X t (ms_value r)
    then partial_alter (rec_attribute p2pmac e (talker_known (ms_key r) t) (ms_core r)) (ms_key r) t else t.
Proof using. by destruct e. Qed.

Lemma ms_event_attribute_wp e ro m fr ms Q :
  for_attribute e -> ms_Inv0 m -> (forall r, ro = Some r -> ms_is_fresh r) ->
  (forall early m' ms', ms_evented e (ms_core <$> ro) m m' ->
     (early <> None -> ms_list m' = ms_list m) -> Q early (ms_at_db m' fr ms')) ->
  safe (ms_event_attribute E p2pmac e ro) Q (ms_at_db m fr ms).
Proof using HT.
  intros He HI Hro HQ. pose proof HI as [Hs Ha Hdb Hl Hi].
  assert (Hsame : forall early, ms_spec_event p2pmac (enable_pruning m) (interesting m) e (ms_core <$> ro)
    (ms_table (ms_list m)) = ms_table (ms_list m) -> Q early (ms_at_db m fr ms)).
  { intros early Hsp. apply HQ; [|done]. by constructor. }
  destruct ro as [r|]; [|apply wp_ret, Hsame; by destruct e].
  specialize (Hro r eq_refl). pose proof Hro as (Hokr&Hcr&_). cbn [fmap option_fmap option_map] in Hsame, HQ.
  apply wp_bind, ms_interested_wp; [done..|].
  destruct (of_interest (enable_pruning m) (interesting m) (ms_table (ms_list m)) (ms_value r)) eqn:Hint; cbn [negb].
  2:{ apply wp_ret, Hsame. by rewrite ms_spec_attribute, Hint. }
  pose proof (jointimer_start_spec E HT _ Hdb) as H1. apply wp_bind, ms_upd_mrp_wp.
  destruct (mrp_jointimer_start E (ms_mrp_db m)) as [rc db1]. destruct H1 as (_&_&Hdb1&Hc1&Hlv1&_). cbn [snd].
  set (m1 := ms_set_mrp db1 m).
  assert (Hg1 : Forall (ms_guarded db1) (ms_list m)) by (eapply ms_guarded_mono; [|exact Hl]; by rewrite Hlv1).
  assert (HI1 : ms_Inv0 m1) by (by constructor). assert (Hk1 : ms_kept m m1) by (by constructor).
  assert (Hkr : key_ok (ms_key r)) by (by apply key_of_ok, Hokr). pose proof (ms_attrs_keys _ Ha) as Hkl.
  set (t := ms_table (ms_list m)) in *.
  assert (Hspec : ms_spec_event p2pmac (enable_pruning m) (interesting m) e (Some (ms_core r)) t =
    partial_alter (rec_attribute p2pmac e (talker_known (ms_key r) t) (ms_core r)) (ms_key r) t).
  { by rewrite ms_spec_attribute, Hint. }
  apply wp_bind, ms_the_db_wp. cbn [ms_list ms_set_mrp m1]. cbv zeta. fold (ms_key r).
  pose proof (ms_table_lookup _ _ Hkr Hkl) as Htl. fold t in Htl.
  destruct (msrp_lookup (ms_key r) (ms_list m)) as [a|] eqn:Hlk; cbn [fmap option_fmap option_map] in Htl.
  - destruct (ms_lookup_split _ _ _ Hkr Hkl Hlk) as (A&B&Hlist&Hka&Hna).
    assert (Hgo : safe ((msrp_merge E r;; mret tt);; ms_attribute_machines E p2pmac e (ms_key r);;
      msrp_conditional_reclaim E (ms_key r);; mret None) Q (ms_at_db m1 fr ms)).
    { apply wp_bind, wp_bind, (msrp_merge_wp r A a B); try done; [by rewrite <- Hlist|].
      intros known n Hkn. apply wp_ret.
      apply (ms_carried_wp known e (ms_list m) r A (ms_merged known r a) B); try done.
      - rewrite Hlist in Hs, Ha |- *. by apply ms_carrier_found.
      - fold t. by rewrite Htl.
      - by apply armed_asked.
      - intros m' ms' HI' Ht' Hk' Hf'. apply HQ; [|by intros []]. constructor; [done| | |done].
        + intros HM. etrans; [exact Ht'|]. rewrite (Hkn HM). symmetry. exact Hspec.
        + eapply ms_kept_trans; [|exact Hk']. by constructor. }
    by destruct e.
  - destruct (decide (e = EVENT_RMT)) as [->|Hne].
    + apply wp_ret, HQ; [|done]. constructor; try done. intros _. etrans; [|symmetry; exact Hspec].
      apply map_eq. intros k. destruct (decide (k = ms_key r)) as [->|Hk]; [|by rewrite lookup_partial_alter_ne].
      by rewrite lookup_partial_alter_eq, Htl.
    + set (known := talker_known (ms_key r) t) in *.
      destruct (ms_carrier_new known (ms_list m) r Hs Ha Hro Hlk) as (A&B&Hadd&HC).
      assert (Hgo : safe (ms_upd_db (fun m => ms_set_list (msrp_add r (ms_list m)) m);;
        ms_attribute_machines E p2pmac e (ms_key r);; msrp_conditional_reclaim E (ms_key r);; mret None) Q
        (ms_at_db m1 fr ms)).
      { apply wp_bind, ms_upd_db_wp. apply (ms_carried_wp known e (ms_list m) r A r B); try done.
        intros m' ms' HI' Ht' Hk' Hf'. apply HQ; [|by intros []]. constructor; [done| | |done].
        - intros _. etrans; [exact Ht'|]. symmetry. exact Hspec.
        - eapply ms_kept_trans; [|exact Hk']. by constructor. }
      by destruct e.
Qed.

(** ** All events *)

(** What an event leaves behind. *)
Definition ms_event_post (e : mrp_event) (q : option ms_record) (m : msrp_database) (w' : msrp_world) : Prop :=
  exists m' fr' ms', w' = ms_at_db m' fr' ms' /\ ms_Inv m' /\
    (malloc_ok E -> ms_table (ms_list m') =
       ms_spec_event p2pmac (enable_pruning m) (interesting m) e q (ms_table (ms_list m))) /\
    ms_kept m m'.

Lemma ms_finish_wp e q m m1 fr ms :
  ms_send_empty m = false -> ms_evented e q m m1 ->
  safe (m ← ms_the_db; l ← ms_notify_loop E (ms_list m); ms_upd_db (ms_set_list l);; mret 0)
    (fun _ => ms_event_post e q m) (ms_at_db m1 fr ms).
Proof using.
  intros Hf [HI Ht Hk Hf1]. apply wp_bind, ms_the_db_wp, wp_bind, ms_notify_loop_wp.
  intros m2 ms2 [n ->]. apply wp_bind, ms_upd_db_wp, wp_ret. eexists _, _, _. split_and!; [done| |..].
  - constructor; [|apply Forall_fmap, Forall_true; done|cbn; congruence].
    apply (ms_Inv0_fmap _ m1); try done.
    + by intros x [].
    + by apply armed_asked, HI.
    + apply Forall_fmap. by destruct HI.
  - intros HM. cbn [ms_list ms_set_list]. rewrite <- (Ht HM). rewrite (ms_table_fmap _ (fun p => p)) by done.
    apply map_fmap_id.
  - destruct Hk. by constructor.
Qed.

Lemma msrp_event_wp e ro m fr ms :
  ms_Inv m -> (forall r, ro = Some r -> ms_is_fresh r) -> (e = EVENT_TX \/ e = EVENT_LVATIMER -> ms_fits m) ->
  safe (msrp_event E p2pmac STATION_ADDR e ro) (fun _ => ms_event_post e (ms_core <$> ro) m) (ms_at_db m fr ms).
Proof using HT HR Hst.
  intros [HI Hsil Hf] Hro Hfit. unfold msrp_event. apply wp_bind. set (q := ms_core <$> ro).
  assert (Hend : forall early m' fr' ms', ms_evented e q m m' -> (early <> None -> ms_list m' = ms_list m) ->
    safe (match early with Some rc => mret rc | None =>
       m ← ms_the_db; l ← ms_notify_loop E (ms_list m); ms_upd_db (ms_set_list l);; mret 0 end)
       (fun _ => ms_event_post e q m) (ms_at_db m' fr' ms')).
  { intros [z|] m' fr' ms' Hev Hl'; [|by apply ms_finish_wp].
    apply wp_ret. destruct Hev as [HI' Ht' Hk' Hf']. eexists _, _, _. split_and!; try done.
    constructor; [done| |congruence]. by rewrite Hl'. }
  assert (Hid : forall early, ms_spec_event p2pmac (enable_pruning m) (interesting m) e q (ms_table (ms_list m)) =
    ms_table (ms_list m) -> safe (match early with Some rc => mret rc | None =>
       m ← ms_the_db; l ← ms_notify_loop E (ms_list m); ms_upd_db (ms_set_list l);; mret 0 end)
       (fun _ => ms_event_post e q m) (ms_at_db m fr ms)).
  { intros early Hsp. apply Hend; [|done]. by constructor. }
  assert (Hspec : forall m1, (for_attribute e -> False) -> e <> EVENT_RLA -> ms_evented e None m m1 -> ms_evented e q m m1).
  { intros m1 Hn Hn' [? Ht ? ?]. constructor; try done. intros HM. rewrite (Ht HM). destruct e; try done; by destruct Hn. }
  assert (Hattr : for_attribute e -> safe (ms_event_attribute E p2pmac e ro)
    (fun early => safe (match early with Some rc => mret rc | None =>
       m ← ms_the_db; l ← ms_notify_loop E (ms_list m); ms_upd_db (ms_set_list l);; mret 0 end)
       (fun _ => ms_event_post e q m)) (ms_at_db m fr ms)).
  { intros He. apply ms_event_attribute_wp; [done..|]. intros early m' ms' Hev Hl'. by apply Hend. }
  destruct e; try (by apply Hattr); try (by apply wp_ret, (Hid None)).
  - apply wp_bind, ms_event_tx_wp; [done|by apply Hfit; left|]. intros m1 fr1 Hev. apply wp_ret, (Hend None); [by apply Hspec|done].
  - replace ((fun r => value_type (ms_value r)) <$> ro) with ((fun r => value_type (r_value r)) <$> q)
      by (unfold q; by destruct ro).
    apply ms_event_rla_wp; [done|]. intros early m1 Hev Hl1. by apply Hend.
  - apply wp_bind, ms_event_lvtimer_wp; [done|]. intros m1 ms1 Hev. apply wp_ret, (Hend None); [by apply Hspec|done].
  - apply wp_bind, ms_event_lvatimer_wp; [done|by apply Hfit; right|done|]. intros m1 fr1 Hev.
    apply wp_ret, (Hend None); [by apply Hspec|done].
Qed.

End Events.
