(* ===== verification/MsrpRecv.v ===== *)
(** * MSRP: received PDUs

    [msrp_recv_msg] is safe on every frame that leaves forty bytes of the receive buffer
    free, and the values of a vector are events for consecutive attributes. *)

From stdpp Require Import gmultiset.
From S2P Require Import Prelude.
From S2P Require Import CText.
From S2P Require Import Mrp.
From S2P Require Import MrpTheory.
From S2P Require Import Mvrp.
From S2P Require Import MvrpEmit.
From S2P Require Import MvrpEvent.
From S2P Require Import MvrpRecv.
From S2P Require Import Mmrp.
From S2P Require Import MmrpTheory.
From S2P Require Import MmrpEmit.
From S2P Require Import MmrpEvent.
From S2P Require Import MmrpRecv.
From S2P Require Import EuiSet.
From S2P Require Import Msrp.
From S2P Require Import MsrpRun.
From S2P Require Import MsrpTheory.
From S2P Require Import MsrpEmit.
From S2P Require Import MsrpEvent.

Open Scope Z_scope.
Local Abbreviation length := List.length.

(** ** What the values of a vector mean *)

(** A declaration from the network. *)
Definition rx_record (value : msrp_value) (sub : Z) : ms_record :=
  mkRec value (if is_listener value then sub else 0) OPERATION_REGISTER (VO, MT).

Section Meaning.
Context (p2pmac : Z) (pruning : bool) (X : gmultiset Z).

(** The events of [evts] for consecutive values from [value] on, with the substates
    [subs] of listeners. *)
Fixpoint ms_rx_values (evts : list Z) (value : msrp_value) (subs : list Z) (t : gmap msrp_key ms_record)
  : gmap msrp_key ms_record * (msrp_value * list Z) :=
  match evts with
  | [] => (t, (value, subs))
  | v :: evts' =>
      let sub := nth 0 subs 0 in
      let t' :=
        if is_listener value && (sub =? LISTENER_IGNORE) then t
        else match rx_event v with
             | Some e => ms_spec_event p2pmac pruning X e (Some (rx_record value sub)) t
             | None => t
             end in
      ms_rx_values evts' (ms_next_value value) (drop 1 subs) t'
  end.

(** The same for packed bytes with [num] values; a byte whose first event is out of range
    is passed over, with its values not counted as consecutive ones. *)
Fixpoint ms_rx_bytes (bs : list Z) (num : Z) (value : msrp_value) (subs : list Z) (t : gmap msrp_key ms_record)
  : gmap msrp_key ms_record * (msrp_value * list Z) :=
  match bs with
  | [] => (t, (value, subs))
  | b :: bs' =>
      let n := if 3 <? num then 3 else num in
      if MRPDU_LV <? nth 0 (decode3 b) 0 then ms_rx_bytes bs' (num - n) value subs t
      else
        let '(t', (value', subs')) := ms_rx_values (take (Z.to_nat n) (decode3 b)) value subs t in
        ms_rx_bytes bs' (num - n) value' subs' t'
  end.

(** Which value and substates are next does not depend on the table. *)
Lemma ms_rx_values_next evts : forall value subs t t',
  (ms_rx_values evts value subs t).2 = (ms_rx_values evts value subs t').2.
Proof. induction evts as [|v evts IH]; intros value subs t t'; cbn; [done|]. apply IH. Qed.

Lemma ms_rx_bytes_next bs : forall num value subs t t',
  (ms_rx_bytes bs num value subs t).2 = (ms_rx_bytes bs num value subs t').2.
Proof.
  induction bs as [|b bs IH]; intros num value subs t t'; cbn [ms_rx_bytes]; [done|]. cbv zeta.
  destruct (MRPDU_LV <? _); [apply IH|]. set (es := take _ _).
  pose proof (ms_rx_values_next es value subs t t') as Hn.
  destruct (ms_rx_values es value subs t) as [t1 [v1 s1]], (ms_rx_values es value subs t') as [t2 [v2 s2]].
  cbn in Hn. injection Hn as -> ->. apply IH.
Qed.

End Meaning.

(** ** Received values *)

Definition subs_ok (subs : list Z) : Prop := Forall is_u32 subs.

Lemma increment_octets n i b : (i < n)%nat -> octets n b -> octets n (increment_from i b).
Proof. intros Hi [Hb Hl]. destruct (increment_from_ok i b ltac:(lia) Hb). split; [done|lia]. Qed.

Lemma increment_streamid_ok b : octets 8 b -> octets 8 (msrp_increment_streamid b).
Proof. apply (increment_octets 8 7). lia. Qed.

Lemma increment_macaddr_ok b : octets 6 b -> octets 6 (mmrp_increment_macaddr b).
Proof. apply (increment_octets 6 5). lia. Qed.

Lemma octets_zero n : octets n (replicate n 0).
Proof. split; [|apply length_replicate]. apply Forall_replicate. unfold is_u8. lia. Qed.

#[export] Hint Resolve octets_zero : core.

Lemma stream_ok id : octets 8 id -> talk_ok (stream id).
Proof. intros H. constructor; try done; cbn; unfold is_u16, is_u8, is_u32; lia. Qed.

Lemma next_talk_ok t : talk_ok t -> talk_ok (next_talk t).
Proof. intros []. constructor; try done; [by apply increment_streamid_ok|by apply increment_macaddr_ok]. Qed.

Lemma ms_next_value_ok v : ms_value_ok v -> ms_value_ok (ms_next_value v).
Proof.
  destruct v as [t|t|t|d]; cbn; [apply next_talk_ok..| |].
  - intros []. by apply stream_ok, increment_streamid_ok.
  - intros (?&?&?&?). split_and!; cbn; try done; apply u8_bound.
Qed.

Lemma octets_part n i b : bytes b -> (i + n <= length b)%nat -> octets n (take n (drop i b)).
Proof. intros Hb Hl. split; [by apply Forall_take, Forall_drop|]. rewrite length_take, length_drop. lia. Qed.

Lemma be_val_octets n b : octets n b -> 0 <= be_val b < 2 ^ (8 * Z.of_nat n).
Proof. intros [Hb <-]. by apply be_val_bound. Qed.

Lemma ms_read_first_ok t b :
  bytes b -> (sk_length (kind_of t) <= length b)%nat -> ms_value_ok (ms_read_first t b).
Proof.
  intros Hb Hl.
  assert (Hv : forall i n, (i + n <= length b)%nat -> 0 <= be_val (take n (drop i b)) < 2 ^ (8 * Z.of_nat n)).
  { intros i n Hin. by apply be_val_octets, octets_part. }
  assert (Ho : forall n, (n <= length b)%nat -> octets n (take n b)) by (intros n Hn; by apply (octets_part n 0)).
  destruct t; cbn in Hl |- *.
  - constructor; cbn; try done; try apply (Ho 8%nat); try (apply octets_part; [done|]); try apply Hv; lia.
  - constructor; cbn; try done; try apply (Ho 8%nat); try (apply octets_part; [done|]); try apply Hv; lia.
  - apply stream_ok, Ho. lia.
  - split_and!; cbn; apply Hv; lia.
Qed.

Lemma decode4_ok b : subs_ok (decode4 b).
Proof.
  assert (H : forall z, is_u32 (z mod 4)) by (intros z; unfold is_u32; pose proof (Z.mod_pos_bound z 4); lia).
  unfold subs_ok, decode4. rewrite !Forall_cons, Forall_nil. by split_and!.
Qed.

Lemma packed_bounds per num : 0 < per -> 0 <= num -> num / per <= packed per num <= num / per + 1 /\ 0 <= num / per.
Proof. intros Hp Hn. assert (0 <= num / per) by (by apply Z.div_pos). unfold packed. destruct (negb _); lia. Qed.

(** What reception preserves. *)
Definition ms_stable (m m' : msrp_database) : Prop := ms_Inv m' /\ ms_kept m m'.

Lemma ms_stable_trans m m' m'' : ms_stable m m' -> ms_stable m' m'' -> ms_stable m m''.
Proof. intros (?&?) (?&?). split; [done|]. by eapply ms_kept_trans. Qed.

Lemma ms_stable_refl m : ms_Inv m -> ms_stable m m.
Proof. by split. Qed.

Lemma ms_Inv_later m m' : ms_later m m' -> ms_Inv m -> ms_stable m m' /\ ms_list m' = ms_list m.
Proof.
  intros Hl [HI Hs Hf]. pose proof (ms_Inv0_later _ _ Hl HI). pose proof (ms_later_kept _ _ Hl). destruct Hl as [n ->].
  split; [split; [by constructor|done]|done].
Qed.

Lemma ms_kept_interesting m m' : ms_kept m m' -> interesting m' = interesting m.
Proof. intros [_ Hi _]. unfold interesting. by rewrite Hi. Qed.

Section Recv.
Context {C : CSort} (E : Os) (p2pmac : Z) (STATION_ADDR : list Z).
Context (HT : timers_ok E) (HR : random_ok E) (Hst : length STATION_ADDR = 6%nat).

Lemma ms_fresh_ok v sub src :
  ms_value_ok v -> is_u32 sub -> octets 6 src -> ms_is_fresh (ms_set_source src (ms_set_substate sub (ms_fresh v))).
Proof using. intros Hv Hs Ho. split; [|done]. by constructor. Qed.

Lemma ms_fresh_zero v : ms_value_ok v -> ms_is_fresh (ms_fresh v).
Proof using. intros Hv. split; [|done]. by constructor. Qed.

Lemma ms_alloc_wp v m fr ms Q :
  (forall m', ms_later m m' -> Q (Some (ms_fresh v)) (ms_at_db m' fr ms)) ->
  (forall m', ms_later m m' -> (malloc_ok E -> False) -> Q None (ms_at_db m' fr ms)) ->
  safe (msrp_alloc E v) Q (ms_at_db m fr ms).
Proof using.
  intros Hs Hn. apply wp_bind, ms_malloc_wp. intros [] m' Hl Hok; apply wp_ret; [by apply Hs|].
  apply Hn; [done|]. intros HM. by specialize (Hok HM).
Qed.

Section Loops.
Context (pruning : bool) (X : gmultiset Z).

(** The settings of the database. *)
Definition set_up (m : msrp_database) : Prop := ms_Inv m /\ enable_pruning m = pruning /\ interesting m = X.

Lemma set_up_stable m m' : set_up m -> ms_stable m m' -> set_up m'.
Proof using.
  intros (_&Hp&Hx) (HI&Hk). split_and!; [done|destruct Hk; congruence|]. by rewrite (ms_kept_interesting _ _ Hk).
Qed.

(** Post-condition of the loops: [None] only without memory. *)
Definition ms_reads (m : msrp_database) (spec : gmap msrp_key ms_record * (msrp_value * list Z))
    (r : option (msrp_value * list Z)) (w : msrp_world) : Prop :=
  exists m' fr' ms', w = ms_at_db m' fr' ms' /\ ms_stable m m' /\
    match r with
    | Some (v, subs) => ms_value_ok v /\ subs_ok subs /\ (v, subs) = spec.2 /\
                        (malloc_ok E -> ms_table (ms_list m') = spec.1)
    | None => malloc_ok E -> False
    end.

Lemma ms_reads_trans m m1 spec r w : ms_stable m m1 -> ms_reads m1 spec r w -> ms_reads m spec r w.
Proof using.
  intros Hs (m'&fr'&ms'&->&Hs'&Hr). exists m', fr', ms'. split_and!; [done|by eapply ms_stable_trans|done].
Qed.

(** One value, with the event it stands for. *)
Lemma ms_one_value_wp src v value sub m fr ms :
  set_up m -> octets 6 src -> ms_value_ok value -> is_u32 sub ->
  let a := if is_listener value then ms_set_substate sub (ms_fresh value) else ms_fresh value in
  safe (match rx_event v with
        | Some e => msrp_event E p2pmac STATION_ADDR e (Some (ms_set_source src a));; mret tt
        | None => mret tt
        end)
    (fun _ w => exists m' fr' ms', w = ms_at_db m' fr' ms' /\ ms_stable m m' /\
       (malloc_ok E -> ms_table (ms_list m') =
          match rx_event v with
          | Some e => ms_spec_event p2pmac pruning X e (Some (rx_record value sub)) (ms_table (ms_list m))
          | None => ms_table (ms_list m)
          end)) (ms_at_db m fr ms).
Proof using HT HR Hst.
  intros (HI&<-&<-) Hsrc Hv Hsub a. destruct (rx_event v) as [e|] eqn:He.
  2:{ apply wp_ret. exists m, fr, ms. split_and!; [done|by apply ms_stable_refl|done]. }
  apply rx_event_attribute in He. apply wp_bind.
  assert (Ha : a = ms_set_substate (if is_listener value then sub else 0) (ms_fresh value))
    by (unfold a; by destruct (is_listener value)).
  rewrite Ha. eapply wp_mono; [apply (msrp_event_wp E p2pmac STATION_ADDR HT HR Hst)|].
  - done.
  - intros r' [= <-]. apply ms_fresh_ok; try done. destruct (is_listener value); [done|unfold is_u32; lia].
  - by intros [-> | ->].
  - intros z w (m2&fr2&ms2&->&HI2&Ht2&Hk2). apply wp_ret. exists m2, fr2, ms2. by split_and!.
Qed.

Lemma ms_value_loop_wp src evts : forall value subs m fr ms,
  set_up m -> octets 6 src -> ms_value_ok value -> subs_ok subs ->
  safe (ms_value_loop E p2pmac STATION_ADDR src evts value subs)
    (ms_reads m (ms_rx_values p2pmac pruning X evts value subs (ms_table (ms_list m)))) (ms_at_db m fr ms).
Proof using HT HR Hst.
  induction evts as [|v evts IH]; intros value subs m fr ms HS Hsrc Hv Hsubs; cbn [ms_value_loop ms_rx_values].
  { apply wp_ret. exists m, fr, ms. split_and!; try done. apply ms_stable_refl, HS. }
  pose proof (ms_next_value_ok _ Hv) as Hnv.
  assert (Hdrop : subs_ok (drop 1 subs)) by (by apply Forall_drop).
  assert (Hsub : is_u32 (nth 0 subs 0)) by (destruct Hsubs; [unfold is_u32; cbn; lia|done]).
  cbv zeta. set (sub := nth 0 subs 0) in *.
  destruct (is_listener value && (sub =? LISTENER_IGNORE)); [by apply IH|].
  apply wp_bind, ms_alloc_wp; intros m1 Hl1; destruct (ms_Inv_later _ _ Hl1 (proj1 HS)) as [Hs1 Heq1].
  2:{ intros Hnm. apply wp_ret. by exists m1, fr, ms. }
  pose proof (set_up_stable _ _ HS Hs1) as HS1.
  apply wp_bind. eapply wp_mono; [by apply (ms_one_value_wp src v value sub)|].
  intros [] w (m2&fr2&ms2&->&Hs2&Ht2). rewrite Heq1 in Ht2.
  pose proof (ms_stable_trans _ _ _ Hs1 Hs2) as Hs12. pose proof (set_up_stable _ _ HS Hs12) as HS2.
  eapply wp_mono; [by apply IH|]. intros o w (m3&fr3&ms3&->&Hs3&Ho). exists m3, fr3, ms3.
  split_and!; [done|by eapply ms_stable_trans|]. destruct o as [[v' subs']|]; [|done].
  destruct Ho as (?&?&Hp&Ht). split_and!; try done.
  - rewrite Hp. apply ms_rx_values_next.
  - intros HM. by rewrite (Ht HM), (Ht2 HM).
Qed.

Lemma ms_byte_loop_wp n buf src : forall off num value subs m fr ms,
  set_up m -> octets 6 src -> ms_value_ok value -> subs_ok subs -> (off + n <= length buf)%nat ->
  safe (ms_byte_loop E p2pmac STATION_ADDR n buf src off num value subs)
    (ms_reads m (ms_rx_bytes p2pmac pruning X (take n (drop off buf)) num value subs (ms_table (ms_list m))))
    (ms_at_db m fr ms).
Proof using HT HR Hst.
  induction n as [|n IH]; intros off num value subs m fr ms HS Hsrc Hv Hsubs Hoff; cbn [ms_byte_loop].
  { apply wp_ret. exists m, fr, ms. split_and!; try done. apply ms_stable_refl, HS. }
  destruct (rd_Ok buf off ltac:(lia)) as (b&Hrd&Hlk). apply wp_bind. eapply wp_lift; [done|].
  rewrite (drop_S buf b off Hlk). cbn [take ms_rx_bytes]. cbv zeta. set (k := if 3 <? num then 3 else num).
  destruct (MRPDU_LV <? _); [apply IH; (done || lia)|].
  apply wp_bind. eapply wp_mono; [by apply ms_value_loop_wp|].
  intros r w (m1&fr1&ms1&->&Hs1&Hr1). destruct r as [[v1 s1]|]; [|apply wp_ret; by exists m1, fr1, ms1].
  destruct Hr1 as (Hv1&Hsb1&Hn1&Ht1). pose proof (set_up_stable _ _ HS Hs1) as HS1.
  destruct (ms_rx_values p2pmac pruning X _ value subs _) as [t1 p1]. cbn [fst snd] in Hn1, Ht1. subst p1.
  eapply wp_mono; [apply IH; (done || lia)|]. intros o w (m2&fr2&ms2&->&Hs2&Hr2).
  exists m2, fr2, ms2. split_and!; [done|by eapply ms_stable_trans|]. destruct o as [[v2 s2]|]; [|done].
  destruct Hr2 as (?&?&Hp&Ht). split_and!; try done.
  - rewrite Hp. apply ms_rx_bytes_next.
  - intros HM. by rewrite (Ht HM), (Ht1 HM).
Qed.

End Loops.

(** ** Substates *)

Definition ms_stores (m : msrp_database) (spec : list Z) (r : option (list Z * nat)) (w : msrp_world) : Prop :=
  exists m' fr' ms', w = ms_at_db m' fr' ms' /\ ms_later m m' /\
    match r with
    | Some (subs, sz) => subs = spec
    | None => malloc_ok E -> False
    end.

Lemma ms_store_substates_wp evts : forall acc sz m fr ms,
  safe (ms_store_substates E evts acc sz) (ms_stores m (acc ++ evts)) (ms_at_db m fr ms).
Proof using.
  induction evts as [|s evts IH]; intros acc sz m fr ms; cbn [ms_store_substates].
  { apply wp_ret. exists m, fr, ms. by rewrite app_nil_r. }
  assert (Hnext : forall sz' m1, ms_later m m1 ->
    safe (ms_store_substates E evts (acc ++ [s]) sz') (ms_stores m (acc ++ s :: evts)) (ms_at_db m1 fr ms)).
  { intros sz' m1 Hl. eapply wp_mono; [apply IH|]. intros r w (m'&fr'&ms'&->&Hl'&Hr).
    exists m', fr', ms'. split_and!; [done|by eapply ms_later_trans|]. by rewrite <- (assoc_L (++)) in Hr. }
  destruct (_ =? _)%nat; [|by apply Hnext]. apply wp_bind, ms_malloc_wp. intros [] m1 Hl Hok; [by apply Hnext|].
  apply wp_ret. exists m1, fr, ms. split_and!; [done..|]. intros HM. by specialize (Hok HM).
Qed.

(** The substates of [num] values in packed bytes. *)
Fixpoint ms_rx_substates (bs : list Z) (num : Z) : list Z :=
  match bs with
  | [] => []
  | b :: bs' =>
      let n := if 4 <? num then 4 else num in
      take (Z.to_nat n) (decode4 b) ++ ms_rx_substates bs' (num - n)
  end.

Lemma ms_rx_substates_ok bs : forall num, subs_ok (ms_rx_substates bs num).
Proof using.
  induction bs as [|b bs IH]; intros num; cbn [ms_rx_substates]; [constructor|].
  apply Forall_app. split; [apply Forall_take, decode4_ok|apply IH].
Qed.

Lemma ms_substate_loop_wp n buf : forall off num acc sz m fr ms,
  (off + n <= length buf)%nat ->
  safe (ms_substate_loop E n buf off num acc sz)
    (ms_stores m (acc ++ ms_rx_substates (take n (drop off buf)) num)) (ms_at_db m fr ms).
Proof using.
  induction n as [|n IH]; intros off num acc sz m fr ms Hoff; cbn [ms_substate_loop].
  { apply wp_ret. exists m, fr, ms. by rewrite app_nil_r. }
  destruct (rd_Ok buf off ltac:(clear -Hoff; lia)) as (b&Hrd&Hlk). apply wp_bind. eapply wp_lift; [done|].
  rewrite (drop_S buf b off Hlk). cbn [take ms_rx_substates]. cbv zeta. set (k := if 4 <? num then 4 else num).
  apply wp_bind. eapply wp_mono; [apply ms_store_substates_wp|].
  intros [[subs sz']|] w (m1&fr1&ms1&->&Hl1&Hr); [|apply wp_ret; by exists m1, fr1, ms1]. subst subs.
  eapply wp_mono; [apply IH; clear -Hoff; lia|]. intros r w (m2&fr2&ms2&->&Hl2&Hr). exists m2, fr2, ms2.
  split_and!; [done|by eapply ms_later_trans|]. by rewrite <- (assoc_L (++)) in Hr.
Qed.

(** A LeaveAll is applied to the attributes of its type, once. *)
Lemma ms_leaveall_wp t header saw m fr ms :
  ms_Inv m ->
  safe (ms_leaveall E p2pmac STATION_ADDR t header saw)
    (fun r w => exists m' fr' ms', w = ms_at_db m' fr' ms' /\ ms_stable m m' /\
       match r with
       | Some saw' =>
           let lva := MRPDU_VECT_LVA header && negb (bool_decide (t ∈ saw)) in
           saw' = (if lva then t :: saw else saw) /\
           (malloc_ok E -> ms_table (ms_list m') =
             (if lva
              then ms_spec_event p2pmac (enable_pruning m) (interesting m) EVENT_RLA
                     (Some (rx_record (ms_read_first t (replicate 34 0)) 0)) (ms_table (ms_list m))
              else ms_table (ms_list m)))
       | None => malloc_ok E -> False
       end) (ms_at_db m fr ms).
Proof using HT HR Hst.
  intros HI. unfold ms_leaveall. destruct (MRPDU_VECT_LVA header && negb (bool_decide (t ∈ saw))).
  2:{ apply wp_ret. exists m, fr, ms. split_and!; [done|by apply ms_stable_refl|done..]. }
  set (v := ms_read_first t (replicate 34 0)).
  assert (Hv : ms_value_ok v).
  { apply ms_read_first_ok; [apply octets_zero|]. rewrite length_replicate. destruct t; cbn; clear; lia. }
  apply wp_bind, ms_alloc_wp; intros m1 Hl1; destruct (ms_Inv_later _ _ Hl1 HI) as [Hs1 He1].
  2:{ intros Hn. apply wp_ret. by exists m1, fr, ms. }
  apply wp_bind. eapply wp_mono; [apply (msrp_event_wp E p2pmac STATION_ADDR HT HR Hst)|].
  - apply Hs1.
  - intros r [= <-]. by apply ms_fresh_zero.
  - by intros [[=]|[=]].
  - intros z w (m2&fr2&ms2&->&HI2&Ht2&Hk2). apply wp_ret. exists m2, fr2, ms2. split_and!; [done| |done|].
    + eapply ms_stable_trans; [exact Hs1|]. by split.
    + intros HM. destruct Hs1 as [_ Hk1]. rewrite (Ht2 HM), He1, (ms_kept_interesting _ _ Hk1), (mk_pruning _ _ Hk1).
      cbn [fmap option_fmap option_map]. by destruct t.
Qed.

(** ** Safety on arbitrary frames *)

Section Safety.
Context (buf src : list Z) (eof : nat).
Context (Hbuf : bytes buf) (Hsrc : octets 6 src).
Context (Heof : (eof + 40 <= length buf)%nat).
Context (Hzero : forall i, (eof <= i < length buf)%nat -> buf !! i = Some 0).

Lemma ms_substates_safe v num sz m fr ms :
  0 <= num ->
  safe (ms_substates E buf eof v num sz)
    (fun r w => exists m' fr' ms', w = ms_at_db m' fr' ms' /\ ms_later m m' /\
       match r with
       | Some (subs, _) => subs_ok subs /\ (v + 10 + Z.to_nat (packed 3 num) + Z.to_nat (packed 4 num) < eof)%nat
       | None => True
       end) (ms_at_db m fr ms).
Proof using Heof Hst.
  intros Hn. unfold ms_substates. set (p3 := Z.to_nat (packed 3 num)). set (p4 := Z.to_nat (packed 4 num)).
  destruct (Nat.leb_spec eof (v + 2 + (8 + p3 + p4))) as [|Hlt]; [apply wp_ret; by exists m, fr, ms|].
  apply wp_bind.
  assert (Hrest : forall m1 z, ms_later m m1 ->
    safe (ms_substate_loop E p4 buf (v + 2 + (8 + p3)) num [] z)
      (fun r w => exists m' fr' ms', w = ms_at_db m' fr' ms' /\ ms_later m m' /\
         match r with Some (subs, _) => subs_ok subs /\ (v + 10 + p3 + p4 < eof)%nat | None => True end)
      (ms_at_db m1 fr ms)).
  { intros m1 z Hl. eapply wp_mono; [apply ms_substate_loop_wp; clear -Hlt Heof; lia|].
    intros r w (m2&fr2&ms2&->&Hl2&Hr). exists m2, fr2, ms2. split_and!; [done|by eapply ms_later_trans|].
    destruct r as [[subs z']|]; [|done]. subst subs. split; [apply ms_rx_substates_ok|clear -Hlt; lia]. }
  destruct sz as [z|]; [by apply wp_ret, Hrest|].
  apply ms_malloc_wp. intros [] m1 Hl _; cbn [negb]; [by apply Hrest|]. apply wp_ret. by exists m1, fr, ms.
Qed.

Lemma ms_one_vector_safe t v header sz m fr ms :
  ms_Inv m -> (v < eof)%nat ->
  safe (ms_one_vector E p2pmac STATION_ADDR t buf src eof v header sz)
    (fun r w => exists m' fr' ms', w = ms_at_db m' fr' ms' /\ ms_stable m m' /\
       match r with Some (v', _) => (v + 6 <= v' /\ v' + 1 < length buf)%nat | None => True end) (ms_at_db m fr ms).
Proof using HT HR Hst Hbuf Hsrc Heof.
  intros HI Hve. unfold ms_one_vector. cbv zeta. set (num := MRPDU_VECT_NUMVALUES header).
  pose proof (ms_stable_refl m HI) as Hs0.
  assert (Hnum : 0 <= num) by (unfold num; rewrite numvalues_mod; by apply Z.mod_pos_bound).
  set (width := sk_length (kind_of t)).
  assert (Hw : (4 <= width <= 34)%nat) by (unfold width; destruct t; cbn; clear; lia).
  destruct (num =? 0); [apply wp_ret; exists m, fr, ms; split_and!; [done..|clear -Hw Hve Heof; lia|clear -Hw Hve Heof; lia]|].
  set (k4 := if sk_four (kind_of t) then Z.to_nat (num / 4) else 0%nat).
  destruct (Nat.leb_spec eof (v + 2 + Z.to_nat (num / 3) + k4)) as [|Hlt]; [apply wp_ret; by exists m, fr, ms|].
  destruct (packed_bounds 3 num ltac:(lia) Hnum) as [Hp3 Hq3].
  apply wp_bind. eapply wp_lift; [apply read_bytes_Ok; clear -Hw Hlt Heof; lia|]. set (first := take _ _).
  assert (Hfirst : ms_value_ok (ms_read_first t first)).
  { apply ms_read_first_ok; [by apply Forall_take, Forall_drop|]. unfold first. fold width.
    rewrite length_take, length_drop. clear -Hw Hlt Heof. lia. }
  assert (Hrest : forall subs sz' m1 fr1 ms1 n4, ms_later m m1 -> subs_ok subs ->
    (v + 2 + width + Z.to_nat (packed 3 num) + n4 + 1 < length buf)%nat ->
    safe (r ← ms_byte_loop E p2pmac STATION_ADDR (Z.to_nat (packed 3 num) + 1) buf src (v + 2 + width) num
                (ms_read_first t first) subs;
          mret (match r with
                | None => None
                | Some _ => Some ((v + 2 + width + Z.to_nat (packed 3 num) + n4)%nat, sz' : option nat)
                end))
      (fun r w => exists m' fr' ms', w = ms_at_db m' fr' ms' /\ ms_stable m m' /\
         match r with Some (v', _) => (v + 6 <= v' /\ v' + 1 < length buf)%nat | None => True end)
      (ms_at_db m1 fr1 ms1)).
  { intros subs sz' m1 fr1 ms1 n4 Hl Hsubs Hroom. destruct (ms_Inv_later _ _ Hl HI) as [Hs1 _]. apply wp_bind.
    eapply wp_mono; [apply (ms_byte_loop_wp (enable_pruning m1) (interesting m1));
      [split; [apply Hs1|done]|done|done|done|clear -Hroom; lia]|].
    intros r w (m2&fr2&ms2&->&Hs2&_). apply wp_ret. exists m2, fr2, ms2.
    split_and!; [done|by eapply ms_stable_trans|]. destruct r; [clear -Hroom Hw; lia|done]. }
  apply wp_bind. unfold k4 in Hlt. destruct (sk_four (kind_of t)) eqn:Hfour.
  - assert (Hw8 : width = 8%nat) by (unfold width; by destruct t).
    eapply wp_mono; [by apply ms_substates_safe|]. intros r w (m1&fr1&ms1&->&Hl1&Hr).
    destruct (ms_Inv_later _ _ Hl1 HI) as [Hs1 _].
    destruct r as [[subs z]|]; [|apply wp_ret; by exists m1, fr1, ms1]. destruct Hr as [Hsubs Hend].
    apply Hrest; [done|done|]. rewrite Hw8. clear -Hend Heof. lia.
  - apply wp_ret. rewrite (Nat.add_0_r (_ + Z.to_nat (packed 3 num))). specialize (Hrest [] sz m fr ms 0%nat).
    rewrite Nat.add_0_r in Hrest. apply Hrest; [done|constructor|]. clear -Hp3 Hq3 Hlt Hw Heof. lia.
Qed.

Lemma ms_vector_loop_safe fuel t : forall v saw sz m fr ms,
  ms_Inv m -> (v + 1 < length buf)%nat -> (length buf < v + fuel)%nat ->
  safe (ms_vector_loop E p2pmac STATION_ADDR fuel t buf src eof v saw sz)
    (fun r w => exists m' fr' ms', w = ms_at_db m' fr' ms' /\ ms_stable m m' /\
       match r with Some (v', _, _) => (v <= v')%nat | None => True end) (ms_at_db m fr ms).
Proof using All.
  induction fuel as [|fuel IH]; intros v saw sz m fr ms HI Hv Hf; [lia|]. cbn [ms_vector_loop].
  destruct (rd_Ok buf v ltac:(lia)) as (b0&Hr0&Hb0), (rd_Ok buf (v + 1) ltac:(lia)) as (b1&Hr1&Hb1).
  apply wp_bind; eapply wp_lift; [exact Hr0|]. apply wp_bind; eapply wp_lift; [exact Hr1|].
  destruct ((b0 =? 0) && (b1 =? 0)) eqn:Hz.
  { apply wp_ret. exists m, fr, ms. split_and!; [done|by apply ms_stable_refl|lia]. }
  assert (Hve : (v < eof)%nat).
  { destruct (Nat.lt_ge_cases v eof); [done|]. rewrite Hzero in Hb0, Hb1 by lia. naive_solver. }
  set (header := be_val [b0; b1]). cbv zeta. apply wp_bind. eapply wp_mono; [by apply ms_leaveall_wp|].
  intros s w (m1&fr1&ms1&->&Hs1&_). pose proof Hs1 as (HI1&_).
  destruct s as [saw'|]; [|apply wp_ret; by exists m1, fr1, ms1].
  apply wp_bind. eapply wp_mono; [by apply ms_one_vector_safe|].
  intros r w (m2&fr2&ms2&->&Hs2&Hr). pose proof (ms_stable_trans _ _ _ Hs1 Hs2) as Hs12.
  destruct r as [[v' sz']|]; [|apply wp_ret; by exists m2, fr2, ms2].
  eapply wp_mono; [apply IH; [by destruct Hs2|lia..]|].
  intros o w (m3&fr3&ms3&->&Hs3&Ho). exists m3, fr3, ms3.
  split_and!; [done|by eapply ms_stable_trans|]. destruct o as [[[v'' ?] ?]|]; [lia|done].
Qed.

(** The check of the list length reads inside the buffer. *)
Lemma ms_check_len_safe data :
  (0 < data < eof)%nat -> exists b, msrp_recv_msg_check_attrib_list_len buf data eof = Ok b.
Proof using Heof Hst.
  intros Hd. unfold msrp_recv_msg_check_attrib_list_len.
  rewrite read_bytes_Ok by lia. cbn_outcome. set (n := be_val _).
  destruct (rd_Ok buf (data - 1) ltac:(lia)) as (a&->&_). cbn_outcome.
  destruct (n <? a + 2 + 1); [by eexists|].
  destruct (Nat.leb_spec eof (data + Z.to_nat n)) as [|Hlt]; [by eexists|].
  destruct (rd_Ok buf (data + Z.to_nat n) ltac:(lia)) as (b0&->&_). cbn_outcome.
  destruct (negb (b0 =? 0)); [by eexists|].
  destruct (rd_Ok buf (data + Z.to_nat n + 1) ltac:(lia)) as (b1&->&_). by eexists.
Qed.

Lemma ms_message_loop_safe fuel : forall ptr endmarks saw sz m fr ms,
  ms_Inv m -> (eof - ptr < fuel)%nat ->
  safe (ms_message_loop E p2pmac STATION_ADDR fuel buf src eof ptr endmarks saw sz)
    (fun _ w => exists m' fr' ms', w = ms_at_db m' fr' ms' /\ ms_stable m m') (ms_at_db m fr ms).
Proof using All.
  induction fuel as [|fuel IH]; intros ptr endmarks saw sz m fr ms HI Hf; [lia|]. cbn [ms_message_loop].
  pose proof (ms_stable_refl m HI) as Hs.
  destruct (Nat.ltb_spec (ptr + 2) eof) as [Hp|_]; [|apply wp_ret; by exists m, fr, ms].
  destruct (rd_Ok buf ptr ltac:(lia)) as (ty&Hr0&_), (rd_Ok buf (ptr + 1) ltac:(lia)) as (len&Hr1&Hlen).
  apply wp_bind; eapply wp_lift; [exact Hr0|]. apply wp_bind; eapply wp_lift; [exact Hr1|].
  destruct ((ty =? 0) && (len =? 0)).
  { destruct (endmarks + 1 <? 2); [apply IH; [done|lia]|apply wp_ret; by exists m, fr, ms]. }
  destruct (type_of_code ty) as [t|]; [|apply wp_ret; by exists m, fr, ms].
  destruct (negb (len =? _)); [apply wp_ret; by exists m, fr, ms|].
  destruct (ms_check_len_safe (ptr + 2) ltac:(lia)) as [ok Hok]. apply wp_bind. eapply wp_lift; [exact Hok|].
  destruct ok; cbn [negb].
  - apply wp_bind. eapply wp_mono; [apply ms_vector_loop_safe; [done|lia..]|].
    intros r w (m1&fr1&ms1&->&Hs1&Hr). destruct r as [[[ptr' saw'] sz']|]; [|apply wp_ret; by exists m1, fr1, ms1].
    eapply wp_mono; [apply IH; [by destruct Hs1|lia]|].
    intros o w (m2&fr2&ms2&->&Hs2). exists m2, fr2, ms2. split; [done|by eapply ms_stable_trans].
  - apply wp_bind. eapply wp_lift; [apply read_bytes_Ok; lia|]. apply IH; [done|unfold ms_skip; lia].
Qed.

End Safety.

Lemma msrp_recv_msg_wp frame m fr ms :
  ms_Inv m -> bytes frame -> (length frame + 40 <= MAX_FRAME_SIZE)%nat ->
  safe (msrp_recv_msg E p2pmac STATION_ADDR frame)
    (fun _ w => exists m' fr' ms', w = ms_at_db m' fr' ms' /\ ms_stable m m') (ms_at_db m fr ms).
Proof using HT HR Hst.
  intros HI Hb Hl. unfold msrp_recv_msg. set (buf := frame ++ replicate _ 0).
  pose proof (ms_stable_refl m HI) as Hs.
  assert (Hlb : length buf = MAX_FRAME_SIZE) by (unfold buf; rewrite length_app, length_replicate; lia).
  assert (Hbb : bytes buf).
  { apply Forall_app. split; [done|]. apply Forall_replicate. unfold is_u8. lia. }
  assert (Hz : forall i, (length frame <= i < length buf)%nat -> buf !! i = Some 0).
  { intros i Hi. unfold buf in *. rewrite lookup_app_r by lia. apply lookup_replicate.
    rewrite length_app, length_replicate in Hi. split; [done|lia]. }
  clearbody buf. cbv zeta.
  destruct (length frame <=? 0)%nat; [apply wp_ret; by exists m, fr, ms|].
  destruct (Nat.ltb_spec (length frame) (ETH_HDR + 1 + 2)) as [|Hlen]; [apply wp_ret; by exists m, fr, ms|].
  unfold ETH_HDR, MAX_FRAME_SIZE in *.
  apply wp_bind. eapply wp_lift; [apply read_bytes_Ok; lia|].
  destruct (negb (_ =? MSRP_ETYPE)); [apply wp_ret; by exists m, fr, ms|].
  apply wp_bind. eapply wp_lift; [apply read_bytes_Ok; lia|].
  destruct (negb (bool_decide _)); [apply wp_ret; by exists m, fr, ms|].
  apply wp_bind. eapply wp_lift; [apply read_bytes_Ok; lia|].
  apply ms_message_loop_safe; try done; [|lia|lia].
  apply octets_part; [done|lia].
Qed.

End Recv.
