(* ===== verification/MsrpWire.v ===== *)
(** * MSRP: well-formed PDUs

    A PDU is a sequence of messages, one for each attribute type; a message is a
    sequence of vectors, each a LeaveAll flag, a first value, the events of consecutive
    values and for listeners their substates.  [msrp_recv_msg] applies them in order. *)

From stdpp Require Import gmultiset.
From S2P Require Import Prelude.
From S2P Require Import CText.
From S2P Require Import Mrp.
From S2P Require Import MrpTheory.
From S2P Require Import Mvrp.
From S2P Require Import MvrpEmit.
From S2P Require Import MvrpEvent.
From S2P Require Import MvrpRecv.
From S2P Require Import MvrpWire.
From S2P Require Import Mmrp.
From S2P Require Import MmrpTheory.
From S2P Require Import MmrpEmit.
From S2P Require Import MmrpEvent.
From S2P Require Import MmrpRecv.
From S2P Require Import EuiSet.
From S2P Require Import Msrp.
From S2P Require Import MsrpRun.
From S2P Require Import MsrpTheory.
From S2P Require Import MsrpEmit.
From S2P Require Import MsrpEvent.
From S2P Require Import MsrpRecv.

Open Scope Z_scope.
Local Abbreviation length := List.length.

(** ** Four-packed substates *)

Definition is_sub (s : Z) : Prop := 0 <= s <= 3.

Fixpoint packs4 (s : list Z) : list Z :=
  match s with
  | a :: b :: c :: d :: s' => encode4 [a; b; c; d] :: packs4 s'
  | [] => []
  | _ => [encode4 s]
  end.

Lemma decode4_encode4 a b c d :
  is_sub a -> is_sub b -> is_sub c -> is_sub d -> decode4 (encode4 [a; b; c; d]) = [a; b; c; d].
Proof.
  intros Ha Hb Hc Hd. unfold is_sub in *. unfold encode4, decode4, MRPDU_4PACK_ENCODE. cbn [nth].
  assert (Hu : u8 (a * 64 + b * 16 + c * 4 + d) = a * 64 + b * 16 + c * 4 + d) by (apply Z.mod_small; lia).
  rewrite Hu. repeat f_equal; symmetry.
  - replace ((a * 64 + b * 16 + c * 4 + d) / 64) with a; [apply (Z.mod_unique_pos _ 4 0); lia|].
    apply (Z.div_unique_pos _ 64 _ (b * 16 + c * 4 + d)); lia.
  - replace ((a * 64 + b * 16 + c * 4 + d) / 16) with (a * 4 + b); [apply (Z.mod_unique_pos _ 4 a); lia|].
    apply (Z.div_unique_pos _ 16 _ (c * 4 + d)); lia.
  - replace ((a * 64 + b * 16 + c * 4 + d) / 4) with (a * 16 + b * 4 + c); [apply (Z.mod_unique_pos _ 4 (a * 4 + b)); lia|].
    apply (Z.div_unique_pos _ 4 _ d); lia.
  - apply (Z.mod_unique_pos _ 4 (a * 16 + b * 4 + c)); lia.
Qed.

Lemma decode4_encode4_short (s : list Z) :
  (length s <= 4)%nat -> Forall is_sub s -> take (length s) (decode4 (encode4 s)) = s.
Proof.
  assert (H0 : is_sub 0) by (by split). intros Hl HF.
  assert (Hpad : encode4 s = encode4 (s ++ replicate (4 - length s) 0)) by (by destruct s as [|a [|b [|c [|d [|]]]]]).
  rewrite Hpad. destruct s as [|a [|b [|c [|d [|e s]]]]]; cbn [length] in Hl; [done|..|lia]; rewrite !Forall_cons in HF;
    destruct_and! HF; cbn [length Nat.sub replicate app]; by rewrite decode4_encode4.
Qed.

Lemma length_packs4 s : length (packs4 s) = ((length s + 3) / 4)%nat.
Proof.
  remember (length s) as n eqn:Hn. revert s Hn. induction (lt_wf n) as [n _ IH].
  intros [|a [|b [|c [|d s]]]] ->; try done. cbn [packs4 length].
  rewrite (IH (length s)); [|cbn; lia|done].
  replace (S (S (S (S (length s)))) + 3)%nat with (length s + 3 + 1 * 4)%nat by lia. rewrite Nat.div_add by lia. lia.
Qed.

(** The substates are read back. *)
Lemma ms_rx_substates_packs4 s : Forall is_sub s -> ms_rx_substates (packs4 s) (Z.of_nat (length s)) = s.
Proof.
  remember (length s) as n eqn:Hn. revert s Hn. induction (lt_wf n) as [n _ IH]. intros s -> HF.
  assert (Hshort : (length s <= 4)%nat -> take (Z.to_nat (if 4 <? Z.of_nat (length s) then 4 else Z.of_nat (length s)))
    (decode4 (encode4 s)) = s).
  { intros Hl. destruct (Z.ltb_spec 4 (Z.of_nat (length s))); [lia|]. rewrite Nat2Z.id. by apply decode4_encode4_short. }
  destruct s as [|a [|b [|c [|d s]]]]; [done| | | |].
  1-3: cbn [packs4 ms_rx_substates]; rewrite Hshort by (cbn; lia); cbn; done.
  rewrite !Forall_cons in HF. destruct HF as (Ha&Hb&Hc&Hd&HF). cbn [packs4 ms_rx_substates].
  rewrite decode4_encode4 by done.
  set (k := if 4 <? _ then 4 else _). assert (k = 4) as -> by (unfold k; cbn [length]; destruct (Z.ltb_spec 4 (Z.of_nat (S (S (S (S (length s))))))); lia).
  change (take (Z.to_nat 4) [a; b; c; d]) with [a; b; c; d]. cbn [app]. do 4 f_equal.
  replace (Z.of_nat (length (a :: b :: c :: d :: s)) - 4) with (Z.of_nat (length s)) by (cbn [length]; lia).
  by apply (IH (length s)); [cbn; lia|..].
Qed.

Lemma packed_count (per n : nat) :
  (0 < per)%nat -> Z.to_nat (MsrpRun.packed (Z.of_nat per) (Z.of_nat n)) = ((n + (per - 1)) / per)%nat.
Proof.
  intros Hp. unfold MsrpRun.packed. rewrite <- Nat2Z.inj_div.
  pose proof (Nat.div_mod n per ltac:(lia)) as Hd. pose proof (Nat.mod_upper_bound n per ltac:(lia)) as Hm.
  destruct (Z.eqb_spec (Z.of_nat n) (Z.of_nat (n / per) * Z.of_nat per)) as [He|He]; cbn [negb].
  - rewrite Nat2Z.id. apply (Nat.div_unique _ per _ (per - 1)); nia.
  - replace (Z.of_nat (n / per) + 1) with (Z.of_nat (S (n / per))) by lia. rewrite Nat2Z.id.
    apply (Nat.div_unique _ per _ (n mod per - 1)); nia.
Qed.

(** ** Vectors and messages *)

Record ms_vector : Type := mkMsVector {
  sv_lva : bool;
  sv_first : msrp_value;
  sv_events : list Z;
  sv_subs : list Z
}.

Definition ms_wire_vector (g : ms_vector) : list Z :=
  be_bytes 2 (header (Z.of_nat (length (sv_events g))) (sv_lva g)) ++ ms_first_bytes (sv_first g) ++
  packs (sv_events g) ++ packs4 (sv_subs g).

Definition ms_wire (gs : list ms_vector) : list Z := concat (map ms_wire_vector gs).

(** A message with the length of its list and its end mark. *)
Definition ms_message (t : msrp_type) (gs : list ms_vector) : list Z :=
  [type_code t; Z.of_nat (sk_length (kind_of t))] ++ be_bytes 2 (Z.of_nat (length (ms_wire gs) + 2)) ++
  ms_wire gs ++ [0; 0].

Definition ms_messages_bytes (msgs : list (msrp_type * list ms_vector)) : list Z :=
  concat (map (fun '(t, gs) => ms_message t gs) msgs).

Definition ms_eth_header (src : list Z) : list Z := MSRP_ADDR ++ src ++ be_bytes 2 MSRP_ETYPE ++ [MSRP_PROT_VER].

Definition ms_pdu (src : list Z) (msgs : list (msrp_type * list ms_vector)) : list Z :=
  ms_eth_header src ++ ms_messages_bytes msgs ++ [0; 0].

(** The value that is read from the bytes of a first value. *)
Definition wire_value (v : msrp_value) : msrp_value := ms_read_first (value_type v) (ms_first_bytes v).

Definition ms_vector_ok (t : msrp_type) (g : ms_vector) : Prop :=
  ms_value_ok (sv_first g) /\ value_type (sv_first g) = t /\ Forall is_evt (sv_events g) /\
  0 < Z.of_nat (length (sv_events g)) < 2 ^ 13 /\
  (if decide (t = LISTENER) then length (sv_subs g) = length (sv_events g) /\ Forall is_sub (sv_subs g)
   else sv_subs g = []).

(** A message has at least one vector. *)
Definition ms_message_ok (msg : msrp_type * list ms_vector) : Prop :=
  Forall (ms_vector_ok msg.1) msg.2 /\ msg.2 <> [].

(** ** What they mean *)

Section Meaning.
Context (p2pmac : Z) (pruning : bool) (X : gmultiset Z).

Definition ms_rx_leaveall (t : msrp_type) (tab : gmap msrp_key ms_record) : gmap msrp_key ms_record :=
  ms_spec_event p2pmac pruning X EVENT_RLA (Some (rx_record (ms_read_first t (replicate 34 0)) 0)) tab.

(** The first LeaveAll for a type counts. *)
Fixpoint ms_rx_vectors (t : msrp_type) (gs : list ms_vector) (saw : list msrp_type) (tab : gmap msrp_key ms_record)
  : gmap msrp_key ms_record * list msrp_type :=
  match gs with
  | [] => (tab, saw)
  | g :: gs' =>
      let lva := sv_lva g && negb (bool_decide (t ∈ saw)) in
      let tab := if lva then ms_rx_leaveall t tab else tab in
      ms_rx_vectors t gs' (if lva then t :: saw else saw)
        (ms_rx_values p2pmac pruning X (sv_events g) (wire_value (sv_first g)) (sv_subs g) tab).1
  end.

Fixpoint ms_rx_messages (msgs : list (msrp_type * list ms_vector)) (saw : list msrp_type)
    (tab : gmap msrp_key ms_record) : gmap msrp_key ms_record :=
  match msgs with
  | [] => tab
  | (t, gs) :: msgs' => let '(tab, saw) := ms_rx_vectors t gs saw tab in ms_rx_messages msgs' saw tab
  end.

Lemma ms_rx_values_app es1 es2 v subs tab :
  ms_rx_values p2pmac pruning X (es1 ++ es2) v subs tab =
  let '(tab', (v', subs')) := ms_rx_values p2pmac pruning X es1 v subs tab in
  ms_rx_values p2pmac pruning X es2 v' subs' tab'.
Proof using. revert v subs tab. induction es1 as [|e es1 IH]; intros v subs tab; cbn [app ms_rx_values]; [done|]. apply IH. Qed.

Lemma ms_rx_bytes_packs es : forall q v subs tab,
  Forall is_evt es ->
  (ms_rx_bytes p2pmac pruning X (packs es ++ [q]) (Z.of_nat (length es)) v subs tab).1 =
  (ms_rx_values p2pmac pruning X es v subs tab).1.
Proof using.
  assert (H0 : is_evt 0) by (by split).
  assert (Hlv : forall a b c, is_evt a -> is_evt b -> is_evt c -> (MRPDU_LV <? nth 0 (decode3 (encode3 [a; b; c])) 0) = false).
  { intros a b c Ha Hb Hc. rewrite decode3_encode3 by done. cbn [nth]. apply Z.ltb_ge. apply Ha. }
  assert (Hone : forall b v subs tab, (ms_rx_bytes p2pmac pruning X [b] 0 v subs tab).1 = tab).
  { intros b v subs tab. cbn. by destruct (MRPDU_LV <? _). }
  remember (length es) as n eqn:Hn. revert es Hn. induction (lt_wf n) as [n _ IH].
  intros [|a [|b [|c es]]] -> q v subs tab HF.
  - apply Hone.
  - apply Forall_cons in HF as [Ha _]. cbn [packs app]. change (Z.of_nat (length [a])) with 1.
    cbn [ms_rx_bytes]. rewrite Hlv, decode3_encode3 by done. change (take _ [a; 0; 0]) with [a].
    destruct (ms_rx_values p2pmac pruning X [a] v subs tab) as [t' [v' s']]. apply Hone.
  - apply Forall_cons in HF as [Ha [Hb _]%Forall_cons]. cbn [packs app]. change (Z.of_nat (length [a; b])) with 2.
    cbn [ms_rx_bytes]. rewrite Hlv, decode3_encode3 by done. change (take _ [a; b; 0]) with [a; b].
    destruct (ms_rx_values p2pmac pruning X [a; b] v subs tab) as [t' [v' s']]. apply Hone.
  - apply Forall_cons in HF as [Ha [Hb [Hc HF]%Forall_cons]%Forall_cons]. cbn [packs app ms_rx_bytes].
    rewrite Hlv, decode3_encode3 by done. change (a :: b :: c :: es) with ([a; b; c] ++ es).
    rewrite ms_rx_values_app, length_app. cbn [length].
    set (k := if 3 <? _ then 3 else _).
    assert (k = 3) as -> by (unfold k; destruct (Z.ltb_spec 3 (Z.of_nat (3 + length es))); lia).
    change (take (Z.to_nat 3) [a; b; c]) with [a; b; c].
    destruct (ms_rx_values p2pmac pruning X [a; b; c] v subs tab) as [t' [v' s']].
    replace (Z.of_nat (3 + length es) - 3) with (Z.of_nat (length es)) by lia.
    apply (IH (length es)); [cbn; lia|done..].
Qed.

End Meaning.

(** ** Reception *)

Lemma first_bytes_length v : ms_value_ok v -> length (ms_first_bytes v) = sk_length (kind_of (value_type v)).
Proof.
  destruct v as [t|t|t|d]; cbn [ms_first_bytes ms_value_ok value_type kind_of].
  - intros Ht. by rewrite talk_bytes_length.
  - intros Ht. rewrite !length_app, talk_bytes_length by done. by destruct (tk_bridge _ Ht) as [_ ->].
  - intros Ht. by destruct (tk_id _ Ht) as [_ ->].
  - intros _. by rewrite length_app, length_be_bytes.
Qed.

Lemma talk_bytes_ok t : talk_ok t -> bytes (talk_bytes t).
Proof.
  intros []. unfold talk_bytes, bytes. rewrite !Forall_app, Forall_singleton. split_and!; try apply be_bytes_bytes; try done;
    [apply tk_id|apply tk_dest].
Qed.

Lemma first_bytes_ok v : ms_value_ok v -> bytes (ms_first_bytes v).
Proof.
  destruct v as [t|t|t|d]; cbn [ms_first_bytes ms_value_ok]; intros H.
  - by apply talk_bytes_ok.
  - apply Forall_app; split; [by apply talk_bytes_ok|]. apply Forall_app; split; [apply (tk_bridge _ H)|].
    repeat constructor; apply (tk_code _ H).
  - apply (tk_id _ H).
  - destruct H as (?&?&_&_). cbn [app]. unfold bytes. rewrite !Forall_cons. split_and!; [done..|apply be_bytes_bytes].
Qed.

Lemma wire_value_ok v : ms_value_ok v -> ms_value_ok (wire_value v).
Proof. intros Hv. apply ms_read_first_ok; [by apply first_bytes_ok|]. by rewrite first_bytes_length. Qed.

Lemma ms_substates_wire (E : Os) buf eof v (n : nat) sz m fr ms :
  let p3 := ((n + 2) / 3)%nat in let p4 := ((n + 3) / 4)%nat in
  (v + 10 + p3 + p4 < eof)%nat -> (eof <= length buf)%nat ->
  safe (ms_substates E buf eof v (Z.of_nat n) sz)
    (ms_stores E m (ms_rx_substates (take p4 (drop (v + 2 + (8 + p3)) buf)) (Z.of_nat n))) (ms_at_db m fr ms).
Proof.
  intros p3 p4 Hlt Hb. unfold ms_substates.
  change 3 with (Z.of_nat 3). change 4 with (Z.of_nat 4). rewrite !packed_count by lia.
  change (3 - 1)%nat with 2%nat. change (4 - 1)%nat with 3%nat. fold p3 p4. cbv zeta.
  destruct (Nat.leb_spec eof (v + 2 + (8 + p3 + p4))) as [|_]; [lia|].
  assert (Hloop : forall m1 z, ms_later m m1 -> safe (ms_substate_loop E p4 buf (v + 2 + (8 + p3)) (Z.of_nat n) [] z)
    (ms_stores E m (ms_rx_substates (take p4 (drop (v + 2 + (8 + p3)) buf)) (Z.of_nat n))) (ms_at_db m1 fr ms)).
  { intros m1 z Hl. eapply wp_mono; [apply ms_substate_loop_wp; lia|].
    intros r w (m2&fr2&ms2&->&Hl2&Hr). exists m2, fr2, ms2. split_and!; [done|by eapply ms_later_trans|done]. }
  apply wp_bind. destruct sz as [z|]; [by apply wp_ret, Hloop|].
  apply ms_malloc_wp. intros [] m1 Hl Hok; cbn [negb]; [by apply Hloop|]. apply wp_ret. exists m1, fr, ms.
  split_and!; [done..|]. intros HM'. by specialize (Hok HM').
Qed.

Lemma ms_vector_length t g :
  ms_vector_ok t g -> length (ms_wire_vector g) =
  (2 + sk_length (kind_of t) + (length (sv_events g) + 2) / 3 +
   (if sk_four (kind_of t) then (length (sv_events g) + 3) / 4 else 0))%nat.
Proof.
  intros (Hv&<-&_&_&Hs). unfold ms_wire_vector.
  rewrite !length_app, length_be_bytes, length_packs, length_packs4, first_bytes_length by done.
  destruct (value_type (sv_first g)); cbn [kind_of talker_kind listener_kind domain_kind sk_four sk_length] in *;
    case_decide; try done; try (rewrite Hs; cbn; lia).
  destruct Hs as [-> _]. lia.
Qed.

(** The parts of a vector in its buffer. *)
Lemma ms_vector_parts t pre g q post :
  ms_vector_ok t g ->
  let buf := pre ++ ms_wire_vector g ++ q :: post in
  let w := sk_length (kind_of t) in let p3 := ((length (sv_events g) + 2) / 3)%nat in
  (length pre + length (ms_wire_vector g) < length buf)%nat /\
  read_bytes buf (length pre + 2) w = Ok (ms_first_bytes (sv_first g)) /\
  take (p3 + 1) (drop (length pre + 2 + w) buf) =
    packs (sv_events g) ++ [nth 0 (packs4 (sv_subs g) ++ [q]) 0] /\
  take (length (packs4 (sv_subs g))) (drop (length pre + 2 + (w + p3)) buf) = packs4 (sv_subs g).
Proof.
  intros Hg. pose proof Hg as (Hv&Hty&_&_&_). cbv zeta. unfold ms_wire_vector.
  set (hb := be_bytes 2 _). assert (Hhb : length hb = 2%nat) by apply length_be_bytes. clearbody hb.
  pose proof (first_bytes_length _ Hv) as Hfb. rewrite Hty in Hfb. set (fb := ms_first_bytes (sv_first g)) in *.
  pose proof (length_packs (sv_events g)) as Hps. set (ps := packs (sv_events g)) in *.
  set (fs := packs4 (sv_subs g)). set (w := sk_length (kind_of t)) in *. rewrite <- Hps.
  set (buf := pre ++ (hb ++ fb ++ ps ++ fs) ++ q :: post).
  assert (Hb1 : buf = (pre ++ hb) ++ fb ++ ps ++ fs ++ q :: post) by (unfold buf; by rewrite <- !(assoc_L (++))).
  assert (Hlb : length buf = (length pre + 2 + w + length ps + length fs + S (length post))%nat).
  { unfold buf. rewrite !length_app. cbn [length]. lia. }
  split_and!.
  - rewrite Hlb, !length_app. lia.
  - rewrite read_bytes_Ok by lia. f_equal. rewrite Hb1, drop_app_length' by (rewrite length_app; lia).
    by rewrite take_app_length'.
  - rewrite Hb1, (assoc_L (++) _ fb), drop_app_length' by (rewrite !length_app; lia).
    rewrite take_app_add' by done. f_equal.
    destruct fs as [|f fs']; done.
  - rewrite Hb1, (assoc_L (++) _ fb), (assoc_L (++) _ ps), drop_app_length' by (rewrite !length_app; lia).
    by rewrite take_app_length.
Qed.

Section Wire.
Context {C : CSort} (E : Os) (p2pmac : Z) (STATION_ADDR : list Z).
Context (HT : timers_ok E) (HR : random_ok E) (HM : malloc_ok E) (Hst : length STATION_ADDR = 6%nat).
Context (src : list Z) (Hsrc : octets 6 src).
Context (pruning : bool) (X : gmultiset Z).

Abbreviation settled := (set_up pruning X).

Lemma ms_one_vector_wire t pre g q post eof sz m fr ms :
  settled m -> ms_vector_ok t g ->
  (length pre + length (ms_wire_vector g) < eof <= length (pre ++ ms_wire_vector g ++ q :: post))%nat ->
  safe (ms_one_vector E p2pmac STATION_ADDR t (pre ++ ms_wire_vector g ++ q :: post) src eof (length pre)
          (header (Z.of_nat (length (sv_events g))) (sv_lva g)) sz)
    (fun r w => exists m' fr' ms' sz', w = ms_at_db m' fr' ms' /\ ms_stable m m' /\
       r = Some ((length pre + length (ms_wire_vector g))%nat, sz') /\
       ms_table (ms_list m') =
         (ms_rx_values p2pmac pruning X (sv_events g) (wire_value (sv_first g)) (sv_subs g) (ms_table (ms_list m))).1)
    (ms_at_db m fr ms).
Proof using All.
  intros HS Hg Heof. pose proof Hg as (Hv&Hty&HF&Hlen&Hsub). set (n := length (sv_events g)) in *.
  destruct (header_fields _ (sv_lva g) Hlen) as (Hnum&_&_). unfold ms_one_vector. rewrite Hnum. cbv zeta.
  pose proof (ms_vector_length t g Hg) as HL. fold n in HL.
  destruct (ms_vector_parts t pre g q post Hg) as (Hb&Hrd&Hpk&Hpk4). fold n in Hpk, Hpk4.
  set (buf := pre ++ ms_wire_vector g ++ q :: post) in *. clearbody buf.
  set (width := sk_length (kind_of t)) in *.
  change 3 with (Z.of_nat 3). change 4 with (Z.of_nat 4). rewrite !packed_count, <- !Nat2Z.inj_div, !Nat2Z.id by lia.
  change (3 - 1)%nat with 2%nat. change (4 - 1)%nat with 3%nat. fold width.
  assert (H3 : (n / 3 <= (n + 2) / 3)%nat) by (apply Nat.Div0.div_le_mono; lia).
  assert (H4 : (n / 4 <= (n + 3) / 4)%nat) by (apply Nat.Div0.div_le_mono; lia).
  destruct (Z.eqb_spec (Z.of_nat n) 0) as [|_]; [lia|].
  match goal with |- context[(eof <=? ?x)%nat] => destruct (Nat.leb_spec eof x) as [Hge|_] end.
  { exfalso. destruct (sk_four (kind_of t)); lia. }
  apply wp_bind; eapply wp_lift; [exact Hrd|].
  assert (Hfv : ms_read_first t (ms_first_bytes (sv_first g)) = wire_value (sv_first g)) by (unfold wire_value; by rewrite Hty).
  rewrite Hfv. pose proof (wire_value_ok _ Hv) as Hwv.
  assert (Hrest : forall subs sz' m1 fr1 ms1 k, ms_later m m1 -> subs_ok subs -> subs = sv_subs g ->
    (length pre + 2 + width + (n + 2) / 3 + k = length pre + length (ms_wire_vector g))%nat ->
    safe (r ← ms_byte_loop E p2pmac STATION_ADDR ((n + 2) / 3 + 1) buf src (length pre + 2 + width) (Z.of_nat n)
                (wire_value (sv_first g)) subs;
          mret (match r with
                | None => None
                | Some _ => Some ((length pre + 2 + width + (n + 2) / 3 + k)%nat, sz' : option nat)
                end))
    (fun r w => exists m' fr' ms' sz', w = ms_at_db m' fr' ms' /\ ms_stable m m' /\
       r = Some ((length pre + length (ms_wire_vector g))%nat, sz') /\
       ms_table (ms_list m') =
         (ms_rx_values p2pmac pruning X (sv_events g) (wire_value (sv_first g)) (sv_subs g) (ms_table (ms_list m))).1)
      (ms_at_db m1 fr1 ms1)).
  { intros subs sz' m1 fr1 ms1 k Hl Hso Hsubs Hk. destruct (ms_Inv_later _ _ Hl (proj1 HS)) as [Hs1 Heq1]. apply wp_bind.
    eapply wp_mono; [apply (ms_byte_loop_wp E p2pmac STATION_ADDR HT HR Hst pruning X);
      [by eapply set_up_stable|done|done|done|lia]|].
    intros r w (m2&fr2&ms2&->&Hs2&Hr). apply wp_ret. destruct r as [[v' s']|]; [|by destruct (Hr HM)].
    destruct Hr as (_&_&_&Ht). exists m2, fr2, ms2, sz'. split_and!; [done|by eapply ms_stable_trans|by rewrite Hk|].
    rewrite (Ht HM), Hpk, Heq1, Hsubs. unfold n. by apply ms_rx_bytes_packs. }
  apply wp_bind. unfold width in HL. destruct t; cbn [kind_of talker_kind listener_kind domain_kind sk_four sk_length] in *.
  1,2,4: rewrite decide_False in Hsub by done; apply wp_ret; cbv beta iota;
    apply (Hrest [] sz m fr ms 0%nat); [by apply ms_later_refl|by apply Forall_nil|by rewrite Hsub|unfold width; lia].
  rewrite decide_True in Hsub by done. destruct Hsub as [Hsl Hsf].
  eapply wp_mono; [apply (ms_substates_wire E buf eof (length pre) n sz m fr ms); lia|].
  intros r w (m1&fr1&ms1&->&Hl1&Hr). destruct r as [[subs z]|]; [|by destruct (Hr HM)].
  assert (Hsubs : subs = sv_subs g).
  { rewrite Hr. rewrite <- (ms_rx_substates_packs4 (sv_subs g)) by done. rewrite Hsl. fold n. f_equal.
    rewrite length_packs4, Hsl in Hpk4. exact Hpk4. }
  apply Hrest; [done| |done|unfold width; lia]. rewrite Hr. apply ms_rx_substates_ok.
Qed.

Lemma ms_vector_loop_wire t gs : forall pre saw sz post eof fuel m fr ms,
  settled m -> Forall (ms_vector_ok t) gs -> (length gs < fuel)%nat ->
  (length pre + length (ms_wire gs) < eof <= length (pre ++ ms_wire gs ++ (0 :: 0 :: post)%Z))%nat ->
  safe (ms_vector_loop E p2pmac STATION_ADDR fuel t (pre ++ ms_wire gs ++ 0 :: 0 :: post) src eof (length pre) saw sz)
    (fun r w => exists m' fr' ms' sz', w = ms_at_db m' fr' ms' /\ ms_stable m m' /\
       (let '(tab, saw') := ms_rx_vectors p2pmac pruning X t gs saw (ms_table (ms_list m)) in
        r = Some ((length pre + length (ms_wire gs))%nat, saw', sz') /\ ms_table (ms_list m') = tab)) (ms_at_db m fr ms).
Proof using All.
  unfold ms_wire.
  induction gs as [|g gs IH]; intros pre saw sz post eof [|fuel] m fr ms HS HF Hfuel Heof; cbn [length] in Hfuel;
    try lia; cbn [ms_vector_loop map concat].
  { cbn [app] in *. apply wp_bind; eapply wp_lift; [by apply rd_at|].
    apply wp_bind; eapply wp_lift.
    { change (0 :: 0 :: post) with ([0] ++ 0 :: post). rewrite (assoc_L (++)). apply rd_at. by rewrite length_app. }
    apply wp_ret. exists m, fr, ms, sz. cbn [ms_rx_vectors].
    split_and!; [done|apply ms_stable_refl, HS|do 3 f_equal; cbn; lia|done]. }
  apply Forall_cons in HF as [Hg HF]. cbn [map concat] in Heof. rewrite length_app in Heof.
  assert (Hq : exists q post', concat (map ms_wire_vector gs) ++ 0 :: 0 :: post = q :: post').
  { destruct (concat (map ms_wire_vector gs)); cbn; eauto. }
  destruct Hq as (q&post'&Hq). rewrite <- (assoc_L (++) (ms_wire_vector g)), Hq in Heof |- *.
  pose proof Hg as (_&_&_&Hlen&_).
  destruct (header_fields _ (sv_lva g) Hlen) as (Hnum&Hlva&Hh).
  destruct (be_bytes_2 _ Hh) as (b0&b1&Hb&Hval&Hnz).
  assert (Hw : exists rest, ms_wire_vector g = b0 :: b1 :: rest).
  { unfold ms_wire_vector. rewrite Hb. eexists. reflexivity. }
  destruct Hw as [rest Hw].
  apply wp_bind; eapply wp_lift; [rewrite Hw; by apply rd_at|].
  apply wp_bind; eapply wp_lift.
  { rewrite Hw. cbn [app]. change (b0 :: b1 :: rest ++ q :: post') with ([b0] ++ b1 :: rest ++ q :: post').
    rewrite (assoc_L (++)). apply rd_at. by rewrite length_app. }
  rewrite Hnz, Hval. cbv zeta. pose proof HS as (HI&Hp&Hx). apply wp_bind. eapply wp_mono; [by apply ms_leaveall_wp|].
  intros s w (m1&fr1&ms1&->&Hs1&Hs). pose proof (set_up_stable _ _ _ _ HS Hs1) as HS1.
  destruct s as [saw1|]; [|by destruct (Hs HM)]. destruct Hs as [-> Ht1]. specialize (Ht1 HM). rewrite Hlva, Hp, Hx in Ht1.
  rewrite Hlva. apply wp_bind. eapply wp_mono; [apply ms_one_vector_wire; [done..|]|].
  { split; [|apply Heof]. clear -Heof. lia. }
  intros r w (m2&fr2&ms2&sz2&->&Hs2&->&Ht2). pose proof (set_up_stable _ _ _ _ HS1 Hs2) as HS2.
  destruct Heof as [Hlt Hle]. rewrite <- Hq, (assoc_L (++) pre) in Hle |- *. rewrite <- length_app.
  eapply wp_mono; [apply IH; [done|done|lia|rewrite length_app; split; [clear -Hlt; lia|done]]|].
  intros o w (m3&fr3&ms3&sz3&->&Hs3&Ht3). exists m3, fr3, ms3, sz3. split_and!; [done| |].
  - eapply ms_stable_trans; [done|]. by eapply ms_stable_trans.
  - cbn [ms_rx_vectors]. rewrite Ht2, Ht1 in Ht3. unfold ms_rx_leaveall.
    destruct (ms_rx_vectors p2pmac pruning X t gs _ _) as [tab saw']. destruct Ht3 as [-> ->].
    split; [|done]. do 3 f_equal. rewrite !length_app. lia.
Qed.

Lemma ms_wire_nonempty t gs :
  Forall (ms_vector_ok t) gs -> gs <> [] -> (3 + sk_length (kind_of t) <= length (ms_wire gs))%nat.
Proof using.
  intros HF Hne. destruct gs as [|g gs]; [done|]. apply Forall_cons in HF as [Hg _]. unfold ms_wire.
  cbn [map concat]. rewrite length_app, (ms_vector_length t g Hg). destruct Hg as (_&_&_&Hlen&_).
  assert (1 <= (length (sv_events g) + 2) / 3)%nat; [|clear Hst; lia].
  apply Nat.div_le_lower_bound; clear -Hlen; lia.
Qed.

Lemma ms_wire_count t gs : Forall (ms_vector_ok t) gs -> (length gs <= length (ms_wire gs))%nat.
Proof using.
  unfold ms_wire. induction 1 as [|g gs Hg _ IH]; [done|]. cbn [map concat length].
  rewrite length_app, (ms_vector_length t g Hg). clear Hst. lia.
Qed.

(** The length of the list of a message is accepted. *)
Lemma ms_check_len_wire t gs pre post eof :
  Forall (ms_vector_ok t) gs -> gs <> [] ->
  (length pre + length (ms_message t gs) <= eof)%nat -> Z.of_nat eof < 2 ^ 16 ->
  msrp_recv_msg_check_attrib_list_len (pre ++ ms_message t gs ++ post) (length pre + 2) eof = Ok true.
Proof using.
  intros HF Hne Heof Hmax. pose proof (ms_wire_nonempty t gs HF Hne) as Hw. unfold ms_message in *.
  set (W := length (ms_wire gs)) in *. rewrite !length_app, length_be_bytes in Heof. cbn [length] in Heof. fold W in Heof.
  set (len := Z.of_nat (sk_length (kind_of t))) in *. unfold msrp_recv_msg_check_attrib_list_len.
  set (lb := be_bytes 2 (Z.of_nat (W + 2))). assert (Hlb : length lb = 2%nat) by apply length_be_bytes.
  assert (Hval : be_val lb = Z.of_nat (W + 2)).
  { unfold lb. rewrite be_val_bytes. apply Z.mod_small. change (2 ^ (8 * Z.of_nat 2)) with 65536. clear -Heof Hmax. lia. }
  set (buf := pre ++ _ ++ post).
  assert (Hb1 : buf = (pre ++ [type_code t; len]) ++ lb ++ ms_wire gs ++ 0 :: 0 :: post)
    by (unfold buf; by rewrite <- !(assoc_L (++))).
  assert (Hlen : length buf = (length pre + 6 + W + length post)%nat).
  { rewrite Hb1, !length_app, Hlb. cbn [length]. fold W. clear. lia. }
  assert (Hrd : read_bytes buf (length pre + 2) 2 = Ok lb).
  { rewrite read_bytes_Ok by (rewrite Hlen; clear; lia). f_equal.
    rewrite Hb1, drop_app_length' by (rewrite length_app; done). by apply take_app_length'. }
  rewrite Hrd. cbn_outcome. rewrite Hval.
  assert (Hat : rd buf (length pre + 2 - 1) = Ok len).
  { rewrite Hb1. replace ((pre ++ [type_code t; len]) ++ lb ++ ms_wire gs ++ 0 :: 0 :: post)
      with ((pre ++ [type_code t]) ++ len :: lb ++ ms_wire gs ++ 0 :: 0 :: post) by (by rewrite <- !(assoc_L (++))).
    apply rd_at. rewrite length_app. cbn [length]. clear. lia. }
  rewrite Hat. cbn_outcome. unfold len in *.
  destruct (Z.ltb_spec (Z.of_nat (W + 2)) (Z.of_nat (sk_length (kind_of t)) + 2 + 1)) as [Hlt|_]; [exfalso; clear -Hw Hlt; lia|].
  rewrite Nat2Z.id. destruct (Nat.leb_spec eof (length pre + 2 + (W + 2))) as [Hle|_]; [exfalso; clear -Heof Hle; lia|].
  assert (Hz0 : rd buf (length pre + 2 + (W + 2)) = Ok 0).
  { rewrite Hb1, !(assoc_L (++)). apply rd_at. rewrite !length_app, Hlb. cbn [length]. fold W. clear. lia. }
  assert (Hz1 : rd buf (length pre + 2 + (W + 2) + 1) = Ok 0).
  { rewrite Hb1. change (0 :: 0 :: post) with ([0] ++ 0 :: post). rewrite !(assoc_L (++)). apply rd_at.
    rewrite !length_app, Hlb. cbn [length]. fold W. clear. lia. }
  rewrite Hz0. cbn_outcome. cbn [Z.eqb negb]. rewrite Hz1. done.
Qed.

(** The messages of a PDU, in order. *)
Lemma ms_message_loop_wire buf msgs : forall pre endmarks saw sz post fuel m fr ms,
  buf = pre ++ ms_messages_bytes msgs ++ 0 :: 0 :: post -> settled m -> Forall ms_message_ok msgs -> (2 * length msgs < fuel)%nat -> Z.of_nat (length buf) < 2 ^ 16 ->
  safe (ms_message_loop E p2pmac STATION_ADDR fuel buf src (length pre + length (ms_messages_bytes msgs) + 2)
          (length pre) endmarks saw sz)
    (fun rc w => rc = 0 /\ exists m' fr' ms', w = ms_at_db m' fr' ms' /\ ms_stable m m' /\
       ms_table (ms_list m') = ms_rx_messages p2pmac pruning X msgs saw (ms_table (ms_list m))) (ms_at_db m fr ms).
Proof using All.
  unfold ms_messages_bytes.
  induction msgs as [|[t gs] msgs IH]; intros pre endmarks saw sz post [|[|fuel]] m fr ms Hbuf0 HS HF Hfuel Hmax;
    cbn [length] in Hfuel; try lia; cbn [ms_message_loop map concat length].
  1,2: destruct (Nat.ltb_spec (length pre + 2) (length pre + 0 + 2)) as [|_]; [lia|];
    apply wp_ret; split; [done|]; exists m, fr, ms; split_and!; [done|apply ms_stable_refl, HS|done].
  apply Forall_cons in HF as [[Hgs Hne] HF]. cbn [fst snd] in Hgs, Hne.
  set (rest := concat (map (fun '(t, gs) => ms_message t gs) msgs)) in *.
  set (eof := (length pre + length (ms_message t gs ++ rest) + 2)%nat).
  assert (Hbuf : buf = pre ++ ms_message t gs ++ rest ++ 0 :: 0 :: post)
    by (rewrite Hbuf0; cbn [map concat]; by rewrite <- !(assoc_L (++))).
  pose proof (f_equal length Hbuf) as Hlb. rewrite !length_app in Hlb. cbn [length] in Hlb.
  set (W := length (ms_wire gs)).
  assert (HL : length (ms_message t gs) = (W + 6)%nat).
  { unfold ms_message. rewrite !length_app, length_be_bytes. cbn [length]. fold W. lia. }
  assert (Heof : eof = (length pre + (W + 6) + length rest + 2)%nat) by (unfold eof; rewrite length_app, HL; lia).
  pose proof (ms_wire_nonempty t gs Hgs Hne) as Hw. fold W in Hw.
  set (pre4 := pre ++ [type_code t; Z.of_nat (sk_length (kind_of t))] ++ be_bytes 2 (Z.of_nat (length (ms_wire gs) + 2))).
  assert (Hpre4 : length pre4 = (length pre + 4)%nat).
  { unfold pre4. rewrite !length_app, length_be_bytes. cbn [length]. lia. }
  assert (Hb4 : buf = pre4 ++ ms_wire gs ++ 0 :: 0 :: rest ++ 0 :: 0 :: post).
  { rewrite Hbuf. unfold ms_message, pre4. by rewrite <- !(assoc_L (++)). }
  assert (Hr0 : rd buf (length pre) = Ok (type_code t)) by (rewrite Hbuf; by apply rd_at).
  assert (Hr1 : rd buf (length pre + 1) = Ok (Z.of_nat (sk_length (kind_of t)))).
  { rewrite Hbuf. unfold ms_message. cbn [app]. rewrite cons_middle, (assoc_L (++)). apply rd_at. by rewrite length_app. }
  destruct (Nat.ltb_spec (length pre + 2) eof) as [_|]; [|lia].
  apply wp_bind; eapply wp_lift; [exact Hr0|]. apply wp_bind; eapply wp_lift; [exact Hr1|].
  assert (Hty : (type_code t =? 0) = false /\ type_of_code (type_code t) = Some t) by (by destruct t).
  destruct Hty as [-> ->]. cbn [andb]. rewrite Z.eqb_refl. cbn [negb]. cbv zeta.
  apply wp_bind; eapply wp_lift; [rewrite Hbuf; apply ms_check_len_wire; [done|done|lia|lia]|]. cbn [negb].
  pose proof (ms_wire_count t gs Hgs) as Hc. fold W in Hc.
  pose proof (ms_vector_loop_wire t gs pre4 saw sz (rest ++ 0 :: 0 :: post) eof (S (length buf)) m fr ms HS Hgs) as Hvl.
  rewrite <- Hb4, Hpre4 in Hvl. fold W in Hvl. apply wp_bind. eapply wp_mono; [apply Hvl; lia|].
  intros r w (m1&fr1&ms1&sz1&->&Hs1&Hr). cbn [ms_rx_messages].
  destruct (ms_rx_vectors p2pmac pruning X t gs saw (ms_table (ms_list m))) as [tab saw']. destruct Hr as [-> <-].
  pose proof (set_up_stable _ _ _ _ HS Hs1) as HS1.
  (* the end mark of the message *)
  set (p1 := (length pre + 4 + W)%nat).
  assert (Hz0 : rd buf p1 = Ok 0).
  { rewrite Hb4, (assoc_L (++)). apply rd_at. rewrite length_app, Hpre4. done. }
  assert (Hz1 : rd buf (p1 + 1) = Ok 0).
  { rewrite Hb4, (assoc_L (++)), cons_middle, (assoc_L (++)). apply rd_at. rewrite !length_app, Hpre4. done. }
  destruct (Nat.ltb_spec (p1 + 2) eof) as [_|]; [|unfold p1 in *; lia].
  apply wp_bind; eapply wp_lift; [exact Hz0|]. apply wp_bind; eapply wp_lift; [exact Hz1|].
  cbn [Z.eqb andb Z.add Z.ltb Z.compare Pos.compare Pos.compare_cont].
  pose proof (IH (pre ++ ms_message t gs) 1 saw' sz1 post fuel m1 fr1 ms1) as Hrec.
  rewrite <- (assoc_L (++)), length_app, HL in Hrec.
  replace (length pre + (W + 6))%nat with (p1 + 2)%nat in Hrec by (unfold p1; lia).
  replace (p1 + 2 + length rest + 2)%nat with eof in Hrec by (unfold p1; lia).
  eapply wp_mono; [apply Hrec; [done|done|done|lia|done]|].
  intros rc w (->&m2&fr2&ms2&->&Hs2&Ht2). split; [done|]. exists m2, fr2, ms2.
  split_and!; [done|by eapply ms_stable_trans|done].
Qed.

Lemma ms_eth_header_length : length (ms_eth_header src) = 15%nat.
Proof using Hsrc. unfold ms_eth_header. destruct Hsrc as [_ Hl]. by rewrite !length_app, Hl, length_be_bytes. Qed.

Lemma ms_read_eth rest :
  let buf := ms_eth_header src ++ rest in
  read_bytes buf 12 2 = Ok (be_bytes 2 MSRP_ETYPE) /\
  read_bytes buf 0 6 = Ok MSRP_ADDR /\ read_bytes buf 6 6 = Ok src.
Proof using Hsrc.
  assert (Hl : (15 <= length (ms_eth_header src ++ rest))%nat) by (rewrite length_app, ms_eth_header_length; clear; lia).
  cbv zeta. rewrite !read_bytes_Ok by (clear -Hl; lia). clear Hl. destruct Hsrc as [_ Hls]. clear Hsrc.
  destruct src as [|a [|b [|c [|d [|e [|f [|]]]]]]]; try discriminate Hls. done.
Qed.

Lemma ms_messages_count msgs : Forall ms_message_ok msgs -> (6 * length msgs <= length (ms_messages_bytes msgs))%nat.
Proof using.
  unfold ms_messages_bytes. induction 1 as [|[t gs] msgs _ _ IH]; [done|]. cbn [map concat length].
  unfold ms_message at 1. rewrite !length_app, length_be_bytes. cbn [length]. clear Hst. lia.
Qed.

(** The whole frame. *)
Lemma ms_recv_pdu_wp msgs m fr ms :
  settled m -> Forall ms_message_ok msgs -> (length (ms_pdu src msgs) <= MAX_FRAME_SIZE)%nat ->
  safe (msrp_recv_msg E p2pmac STATION_ADDR (ms_pdu src msgs))
    (fun rc w => rc = 0 /\ exists m' fr' ms', w = ms_at_db m' fr' ms' /\ ms_stable m m' /\
       ms_table (ms_list m') = ms_rx_messages p2pmac pruning X msgs [] (ms_table (ms_list m))) (ms_at_db m fr ms).
Proof using All.
  intros HS HF Hlen. set (W := length (ms_messages_bytes msgs)).
  assert (Hfl : length (ms_pdu src msgs) = (15 + W + 2)%nat).
  { unfold ms_pdu. rewrite !length_app, ms_eth_header_length. cbn [length]. fold W. lia. }
  unfold msrp_recv_msg. rewrite Hfl. set (zs := replicate _ 0).
  assert (Hzs : length zs = (MAX_FRAME_SIZE - (15 + W + 2))%nat) by apply length_replicate.
  replace (ms_pdu src msgs ++ zs) with (ms_eth_header src ++ ms_messages_bytes msgs ++ 0 :: 0 :: zs)
    by (unfold ms_pdu; by rewrite <- !(assoc_L (++))).
  destruct (ms_read_eth (ms_messages_bytes msgs ++ 0 :: 0 :: zs)) as (H1&H2&H3).
  pose proof (ms_message_loop_wire (ms_eth_header src ++ ms_messages_bytes msgs ++ 0 :: 0 :: zs) msgs
    (ms_eth_header src) 0 [] None zs (S (length (ms_eth_header src ++ ms_messages_bytes msgs ++ 0 :: 0 :: zs))) m fr ms
    eq_refl HS HF) as Hloop.
  set (buf := ms_eth_header src ++ _) in *. rewrite ms_eth_header_length in Hloop. fold W in Hloop.
  pose proof (ms_messages_count msgs HF) as Hc. fold W in Hc.
  assert (Hlb : length buf = MAX_FRAME_SIZE).
  { unfold buf. rewrite !length_app, ms_eth_header_length. cbn [length]. fold W. rewrite Hzs. lia. }
  destruct (Nat.leb_spec (15 + W + 2) 0) as [|_]; [lia|].
  destruct (Nat.ltb_spec (15 + W + 2) (ETH_HDR + 1 + 2)) as [Hlt|_]; [unfold ETH_HDR in Hlt; lia|].
  apply wp_bind; eapply wp_lift; [exact H1|]. change (be_val (be_bytes 2 MSRP_ETYPE) =? MSRP_ETYPE) with true. cbn [negb].
  apply wp_bind; eapply wp_lift; [exact H2|]. rewrite bool_decide_eq_true_2 by done. cbn [negb].
  apply wp_bind; eapply wp_lift; [exact H3|]. change (ETH_HDR + 1)%nat with 15%nat.
  apply Hloop; [|rewrite Hlb; unfold MAX_FRAME_SIZE; lia]. rewrite Hlb in *. unfold MAX_FRAME_SIZE in *. lia.
Qed.

End Wire.
