(* ===== verification/MsrpCmd.v ===== *)
(** * MSRP: commands and life cycle

    Initialisation, the table dump, the set of interesting streams, and the safety of
    the commands of local applications whatever their text. *)

From stdpp Require Import gmultiset.
From S2P Require Import Prelude.
From S2P Require Import CText.
From S2P Require Import CTextTheory.
From S2P Require Import Mrp.
From S2P Require Import MrpText.
From S2P Require Import MrpTheory.
From S2P Require Import Parse.
From S2P Require Import Mvrp.
From S2P Require Import MvrpEvent.
From S2P Require Import MvrpCmd.
From S2P Require Import Mmrp.
From S2P Require Import MmrpTheory.
From S2P Require Import MmrpEvent.
From S2P Require Import MmrpCmd.
From S2P Require Import ParseTheory.
From S2P Require Import EuiSet.
From S2P Require Import Msrp.
From S2P Require Import MsrpRun.
From S2P Require Import MsrpTheory.
From S2P Require Import MsrpEvent.
From S2P Require Import MsrpRecv.
From Stdlib Require Import String.

Open Scope Z_scope.
Local Abbreviation length := List.length.

(** ** The table *)

Lemma fmt_d_nat_length k v :
  (0 < k <= 20)%nat -> 0 <= v < 10 ^ Z.of_nat k -> (length (fmt_d v) <= k)%nat.
Proof.
  intros Hk Hv. unfold fmt_d. destruct (Z.ltb_spec v 0) as [|_]; [lia|]. apply digits_length; [lia|done|lia].
Qed.

Lemma fmt_u8_length v : is_u8 v -> (length (fmt_d v) <= 3)%nat.
Proof. unfold is_u8. intros. apply fmt_d_nat_length; [|change (10 ^ Z.of_nat 3) with 1000]; lia. Qed.

Lemma fmt_u16_length v : is_u16 v -> (length (fmt_d v) <= 5)%nat.
Proof. unfold is_u16. intros. apply fmt_d_nat_length; [|change (10 ^ Z.of_nat 5) with 100000]; lia. Qed.

Lemma fmt_s32_length v : (length (fmt_d (s32 v)) <= 11)%nat.
Proof. apply fmt_d_length. unfold s32. pose proof (Z.mod_pos_bound (v + 2 ^ 31) (2 ^ 32)). lia. Qed.

Lemma fmt_octets_length n b : octets n b -> length (fmt_mac b) = (2 * n)%nat.
Proof. intros [Hb <-]. by apply fmt_mac_length. Qed.

Lemma fmt_vid_length v : is_u16 v -> length (fmt_x 4 v) = 4%nat.
Proof. intros Hv. apply fmt_x_exact; [lia|exact Hv]. Qed.

(** At most 103 characters for a value. *)
Lemma ms_variant_length x : ms_attr_ok x -> (length (ms_variant true x) <= 103)%nat.
Proof.
  intros [Hv _ _]. unfold ms_variant.
  assert (Ht : forall t, talk_ok t -> (length (ms_stream_text t ++ ms_failure_text t) <= 103)%nat).
  { intros t []. unfold ms_stream_text, ms_failure_text. rewrite !length_app.
    rewrite (fmt_octets_length 8), (fmt_octets_length 6), (fmt_octets_length 8), fmt_vid_length by done.
    pose proof (fmt_u16_length _ tk_size). pose proof (fmt_u16_length _ tk_frames). pose proof (fmt_u8_length _ tk_prio).
    pose proof (fmt_s32_length (AccumulatedLatency t)). pose proof (fmt_u8_length _ tk_code). cbn [str length]. lia. }
  destruct (ms_value x) as [t|t|t|d]; [by apply Ht..| |].
  - rewrite !length_app, (fmt_octets_length 8) by apply Hv. pose proof (fmt_s32_length (ms_substate x)). cbn [str length]. lia.
  - destruct Hv as (Hc&Hp&Hn&Hvid). rewrite !length_app, fmt_vid_length by done.
    pose proof (fmt_u8_length _ Hc). pose proof (fmt_u8_length _ Hp). pose proof (fmt_u8_length _ Hn). cbn [str length]. lia.
Qed.

Lemma ms_table_line_length x : ms_attr_ok x -> exists text, ms_table_line x = Ok text /\ (length text <= 125)%nat.
Proof.
  intros Hx. pose proof (ms_variant_length x Hx) as Hv. unfold ms_table_line. set (var := ms_variant true x) in *. clearbody var.
  assert (Hr : length (ms_regsrc x ++ str " " ++ ms_state x) = 20%nat).
  { unfold ms_regsrc, ms_state. rewrite !length_app, decode_state_length, (fmt_octets_length 6) by apply Hx. done. }
  set (src := ms_regsrc x ++ _) in *. clearbody src. rewrite !sprintf_Ok by lia. cbn_outcome.
  rewrite sprintf_Ok by (rewrite !length_app, Hr; cbn [str newline length]; lia).
  eexists. split; [done|]. rewrite !length_app, Hr. cbn [str newline length]. lia.
Qed.

Lemma ms_dump_loop_Ok l : forall text,
  Forall ms_attr_ok l -> (length text + 125 * length l < MAX_MRPD_CMDSZ)%nat ->
  exists text', ms_dump_loop l text = Ok text'.
Proof.
  induction l as [|x l IH]; intros text HF Ht; cbn [ms_dump_loop]; [by eexists|].
  apply Forall_cons in HF as [Hx HF]. destruct (ms_table_line_length x Hx) as (line&->&Hl). cbn [length] in Ht.
  cbn_outcome. rewrite sprintf_Ok by (rewrite length_app; lia). cbn_outcome.
  apply IH; [done|]. rewrite length_app. lia.
Qed.

(** The table fits a message. *)
Definition ms_dumpable (m : msrp_database) : Prop := (length (ms_list m) <= 11)%nat.

(** ** Removing the talkers of a stream *)

Lemma ms_Inv_sublist l m : ms_Inv m -> sublist l (ms_list m) -> ms_Inv (ms_set_list l m).
Proof.
  intros [[Hk Ha Hd Hl Hi] Hs Hf] Hsub. constructor; [constructor| |done]; cbn [ms_list ms_set_list ms_mrp_db]; try done.
  - eapply sublist_NoDup; [exact Hk|by apply fmap_sublist].
  - by eapply Forall_sublist.
  - by eapply Forall_sublist.
  - by eapply Forall_sublist.
Qed.

Lemma ms_drop_sublist id l : sublist (ms_drop_talkers id l) l.
Proof. apply sublist_filter. Qed.

(** Nothing else is lost. *)
Lemma ms_drop_table id l :
  length id = 8%nat -> keys_ok l -> ms_table (ms_drop_talkers id l) = delete (KTalker id) (ms_table l).
Proof.
  intros Hid. unfold ms_drop_talkers. induction 1 as [|x l Hx Hl IH]; [symmetry; apply delete_empty|].
  rewrite filter_cons. fold (ms_key x). rewrite (same_key_eq _ _ Hx) by done. case_decide as Hd.
  - apply bool_decide_eq_false in Hd. rewrite !ms_table_cons, IH. by rewrite delete_insert_ne.
  - case_bool_decide as He; [|done]. rewrite ms_table_cons, He, delete_insert_eq. done.
Qed.

(** ** Parsed parameters *)

(** The values [parse] accepts have the types of the specification. *)
Ltac typed_values Hp :=
  apply parse_typed in Hp; [|by repeat constructor]; cbn in Hp;
  repeat match goal with
         | H : Forall2 _ (_ :: _) _ |- _ => inversion H; clear H; subst
         | H : Forall2 _ [] _ |- _ => inversion H; clear H; subst
         | H : has_type _ ?v |- _ => is_var v; destruct v; try (by destruct H); cbn in H
         end.

Lemma parsed_stream_id buf id : msrp_cmd_parse_stream_id buf = (0, id) -> octets 8 id.
Proof.
  unfold msrp_cmd_parse_stream_id. destruct (_ <? _); [done|]. destruct (parse _ _) as [[rc e] vs] eqn:Hp. intros Hr.
  assert (rc = 0) as -> by (by destruct vs as [|[] ?]; injection Hr). typed_values Hp. by injection Hr as <-.
Qed.

Lemma parsed_join buf t : msrp_cmd_parse_join_or_new_stream buf = (0, t) -> talk_ok t.
Proof.
  unfold msrp_cmd_parse_join_or_new_stream. destruct (_ <? _); [done|]. destruct (parse _ _) as [[rc e] vs] eqn:Hp. intros Hr.
  assert (rc = 0) as -> by (repeat case_match; by injection Hr). typed_values Hp. injection Hr as <-.
  by constructor.
Qed.

Lemma parsed_join_failure buf t : msrp_cmd_parse_join_or_new_stream_failure buf = (0, t) -> talk_ok t.
Proof.
  unfold msrp_cmd_parse_join_or_new_stream_failure. destruct (_ <? _); [done|]. destruct (parse _ _) as [[rc e] vs] eqn:Hp.
  intros Hr. assert (rc = 0) as -> by (repeat case_match; by injection Hr). typed_values Hp. injection Hr as <-.
  by constructor.
Qed.

Lemma parsed_leave buf t : msrp_cmd_parse_leave_stream buf = (0, t) -> talk_ok t.
Proof.
  unfold msrp_cmd_parse_leave_stream. destruct (_ <? _); [done|]. destruct (parse _ _) as [[rc e] vs] eqn:Hp. intros Hr.
  assert (rc = 0) as -> by (by destruct vs as [|[] ?]; injection Hr). typed_values Hp. injection Hr as <-. by apply stream_ok.
Qed.

Lemma parsed_withdraw buf t : msrp_cmd_parse_withdraw_listener_status buf = (0, t) -> talk_ok t.
Proof.
  unfold msrp_cmd_parse_withdraw_listener_status. destruct (_ <? _); [done|]. destruct (parse _ _) as [[rc e] vs] eqn:Hp.
  intros Hr. assert (rc = 0) as -> by (by destruct vs as [|[] ?]; injection Hr). typed_values Hp. injection Hr as <-.
  by apply stream_ok.
Qed.

Lemma parsed_report buf t sub : msrp_cmd_parse_report_listener_status buf = (0, t, sub) -> talk_ok t /\ is_u32 sub.
Proof.
  unfold msrp_cmd_parse_report_listener_status. destruct (_ <? _); [done|]. destruct (parse _ _) as [[rc e] vs] eqn:Hp.
  intros Hr. assert (rc = 0) as -> by (repeat case_match; by injection Hr). typed_values Hp. injection Hr as <- <-.
  split; [by apply stream_ok|done].
Qed.

Lemma parsed_domain buf d : msrp_cmd_parse_domain_status buf = (0, d) ->
  domain_ok (mkDomain (SRclassID d) (SRclassPriority d) (SRclassPriority d) (SRclassVID d)).
Proof.
  unfold msrp_cmd_parse_domain_status. destruct (_ <? _); [done|]. destruct (parse _ _) as [[rc e] vs] eqn:Hp. intros Hr.
  assert (rc = 0) as -> by (repeat case_match; by injection Hr). typed_values Hp. by injection Hr as <-.
Qed.

(** ** Clients *)

(** Databases that differ in their clients and in the answers used. *)
Record ms_same (m m' : msrp_database) : Prop := {
  ss_list : ms_list m' = ms_list m;
  ss_ids : interesting_stream_ids m' = interesting_stream_ids m;
  ss_pruning : enable_pruning m' = enable_pruning m;
  ss_inv : ms_Inv m -> ms_Inv m'
}.

Lemma ms_later_same m m' : ms_later m m' -> ms_same m m'.
Proof.
  intros Hl. pose proof (ms_Inv_later m m' Hl) as HI. destruct Hl as [n ->]. constructor; try done.
  intros H. by destruct (HI H) as [[? _] _].
Qed.

Lemma ms_same_trans m1 m2 m3 : ms_same m1 m2 -> ms_same m2 m3 -> ms_same m1 m3.
Proof. intros [] []. constructor; [congruence..|auto]. Qed.

Lemma ms_same_refl m : ms_same m m.
Proof. by constructor. Qed.

Lemma ms_clients_same l m : ms_same m (ms_set_mrp (set_clients l (ms_mrp_db m)) m).
Proof.
  constructor; try done. intros [[? ? [] ? ?] ? ?]. constructor; [constructor|..]; try done.
Qed.

Lemma ms_interesting_same m m' : ms_same m m' -> interesting m' = interesting m.
Proof. intros [_ Hi _ _]. unfold interesting. by rewrite Hi. Qed.

(** The settings and clients a command finds and leaves. *)
Definition ms_settings (m m' : msrp_database) : Prop :=
  enable_pruning m' = enable_pruning m /\ clients (ms_mrp_db m') = clients (ms_mrp_db m).

Lemma ms_stable_settings m m' : ms_stable m m' -> ms_settings m m'.
Proof. intros [_ [[] ? ?]]. by split. Qed.

Section Commands.
Context {C : CSort} (E : Os) (p2pmac : Z) (STATION_ADDR : list Z).
Context (HT : timers_ok E) (HR : random_ok E) (Hst : length STATION_ADDR = 6%nat).

Lemma ms_respond_wp client prefix buf suffix m fr ms Q :
  terminated MAX_MRPD_CMDSZ buf = true ->
  (forall ms', Q tt (ms_at_db m fr ms')) -> safe (ms_respond client prefix buf suffix) Q (ms_at_db m fr ms).
Proof using. intros Hb HQ. apply wp_bind. eapply wp_lift; [by apply c_string_Ok|]. apply HQ. Qed.

Lemma ms_add_client_wp client m fr ms Q :
  (forall m', ms_same m m' ->
     (malloc_ok E -> clients (ms_mrp_db m') =
        if client_lookup (clients (ms_mrp_db m)) (Some client) then clients (ms_mrp_db m)
        else clients (ms_mrp_db m) ++ [client]) -> Q tt (ms_at_db m' fr ms)) ->
  safe (ms_add_client E client) Q (ms_at_db m fr ms).
Proof using.
  intros HQ. apply wp_bind, ms_the_db_wp, wp_bind.
  destruct (client_lookup (clients (ms_mrp_db m)) (Some client)) eqn:Hc.
  - apply wp_ret, ms_upd_mrp_wp, HQ; [apply ms_clients_same|intros _]. cbn. by rewrite Hc.
  - apply ms_malloc_wp. intros b m1 Hl Hb. apply ms_upd_mrp_wp.
    assert (Hcl : clients (ms_mrp_db m1) = clients (ms_mrp_db m)) by (by destruct Hl as [n ->]).
    apply HQ.
    + eapply ms_same_trans; [by apply ms_later_same|apply ms_clients_same].
    + cbn. rewrite Hcl, Hc. by intros ->%Hb.
Qed.

Lemma msrp_dumptable_wp client m fr ms (Q : Z -> msrp_world -> Prop) :
  Forall ms_attr_ok (ms_list m) -> ms_dumpable m ->
  (forall z m' ms', ms_later m m' -> Q z (ms_at_db m' fr ms')) ->
  safe (msrp_dumptable E client) Q (ms_at_db m fr ms).
Proof using.
  intros Ha Hn HQ. apply wp_bind, ms_malloc_wp. intros b m1 H1 _. destruct b; [|by apply HQ].
  apply wp_bind, ms_malloc_wp. intros b1 m2 H2 _. apply wp_bind, ms_malloc_wp. intros b2 m3 H3 _.
  apply wp_bind, ms_malloc_wp. intros b3 m4 H4 _.
  assert (Hl : ms_later m m4)
    by (eapply ms_later_trans; [|exact H4]; eapply ms_later_trans; [|exact H3]; by eapply ms_later_trans).
  destruct (_ || _); [by apply HQ|]. apply wp_bind, ms_the_db_wp, wp_bind.
  assert (Heq : ms_list m4 = ms_list m) by (by destruct Hl as [n ->]). rewrite Heq.
  assert (Hfit : (length (@nil Z) + 125 * length (ms_list m) < MAX_MRPD_CMDSZ)%nat)
    by (unfold ms_dumpable in Hn; unfold MAX_MRPD_CMDSZ; cbn [length]; clear -Hn; lia).
  destruct (ms_dump_loop_Ok (ms_list m) [] Ha Hfit) as [text Hd].
  destruct (ms_list m); eapply wp_lift; [reflexivity| |exact Hd|]; apply wp_bind, wp_modify, wp_ret, HQ; done.
Qed.

(** ** Events from commands *)

Lemma ms_request_fresh v op sub :
  ms_value_ok v -> is_u32 sub -> ms_is_fresh (ms_set_substate sub (ms_set_operation op (ms_fresh v))).
Proof using. intros Hv Hs. split; [|done]. constructor; [done..|apply octets_zero]. Qed.

Definition rq_record (v : msrp_value) (op : msrp_operation) (sub : Z) : ms_record := mkRec v sub op (VO, MT).

(** The result of a command that stands for an event. *)
Definition ms_done (e : mrp_event) (q : ms_record) (m : msrp_database) (rc : Z) (m' : msrp_database) : Prop :=
  malloc_ok E -> rc = 0 /\
    ms_table (ms_list m') = ms_spec_event p2pmac (enable_pruning m) (interesting m) e (Some q) (ms_table (ms_list m)).

Lemma ms_done_later e q m m1 z m' : ms_later m m1 -> ms_done e q m1 z m' -> ms_done e q m z m'.
Proof using. intros [n ->] Hd HM. exact (Hd HM). Qed.

Lemma ms_event_command_wp (e : mrp_event) (a : msrp_attribute) m fr ms (Q : Z -> msrp_world -> Prop) :
  ms_Inv m -> for_attribute e -> ms_is_fresh a ->
  (forall z m' fr' ms', ms_stable m m' -> ms_done e (ms_core a) m z m' -> Q z (ms_at_db m' fr' ms')) ->
  safe (msrp_event E p2pmac STATION_ADDR e (Some a);; mret 0) Q (ms_at_db m fr ms).
Proof using HT HR Hst.
  intros HI He Ha HQ. apply wp_bind. eapply wp_mono; [apply (msrp_event_wp E p2pmac STATION_ADDR HT HR Hst); [done| |]|].
  - by intros r [= <-].
  - intros [-> | ->]; by destruct He.
  - intros z w (m2&fr2&ms2&->&HI2&Ht2&Hk2). apply wp_ret, HQ; [by split|]. intros HM. split; [done|]. exact (Ht2 HM).
Qed.

(** A command without memory has no effect. *)
Lemma ms_alloc_command_wp v (f : option msrp_attribute -> MSRP Z) e q m fr ms (Q : Z -> msrp_world -> Prop) :
  ms_Inv m -> f None = mret (-1) ->
  (forall m1, ms_stable m m1 -> ms_later m m1 -> safe (f (Some (ms_fresh v))) Q (ms_at_db m1 fr ms)) ->
  (forall z m' fr' ms', ms_stable m m' -> ms_done e q m z m' -> Q z (ms_at_db m' fr' ms')) ->
  safe (a ← msrp_alloc E v; f a) Q (ms_at_db m fr ms).
Proof using.
  intros HI Hn Hs HQ. apply wp_bind, ms_alloc_wp; intros m1 H1; destruct (ms_Inv_later _ _ H1 HI) as [Hs1 _]; [by apply Hs|].
  intros HM. rewrite Hn. apply wp_ret, HQ; [done|]. by intros ?%HM.
Qed.

Lemma ms_cmd_value_wp v op sub e m fr ms (Q : Z -> msrp_world -> Prop) :
  ms_Inv m -> for_attribute e -> ms_value_ok v -> is_u32 sub ->
  (forall z m' fr' ms', ms_stable m m' -> ms_done e (rq_record v op sub) m z m' -> Q z (ms_at_db m' fr' ms')) ->
  safe (ms_cmd_value E p2pmac STATION_ADDR v op sub e) Q (ms_at_db m fr ms).
Proof using HT HR Hst.
  intros HI He Hv Hs HQ. eapply (ms_alloc_command_wp v); [done|done| |exact HQ]. intros m1 Hs1 Hl.
  apply ms_event_command_wp; [apply Hs1|done|by apply ms_request_fresh|].
  intros z m' fr' ms' Hs2 Hd. apply HQ; [by eapply ms_stable_trans|by eapply ms_done_later].
Qed.

(** A listener is withdrawn with the substate it has. *)
Definition known_substate (id : list Z) (l : list msrp_attribute) : Z :=
  match msrp_lookup (KListener id) l with Some x => ms_substate x | None => 0 end.

Lemma known_substate_ok id l : Forall ms_attr_ok l -> is_u32 (known_substate id l).
Proof using.
  unfold known_substate. induction 1 as [|x l Hx _ IH]; cbn; [unfold is_u32; clear; lia|].
  destruct (same_key _ _); [apply Hx|done].
Qed.

Lemma ms_withdraw_wp t m fr ms (Q : Z -> msrp_world -> Prop) :
  ms_Inv m -> talk_ok t ->
  (forall z m' fr' ms', ms_stable m m' ->
     ms_done EVENT_LV (rq_record (Listener t) OPERATION_REGISTER (known_substate (StreamID t) (ms_list m))) m z m' ->
     Q z (ms_at_db m' fr' ms')) ->
  safe (msrp_cmd_withdraw_listener_status E p2pmac STATION_ADDR t) Q (ms_at_db m fr ms).
Proof using HT HR Hst.
  intros HI Ht HQ. eapply (ms_alloc_command_wp (Listener t)); [done|done| |exact HQ]. intros m1 Hs1 Hl.
  apply wp_bind, ms_the_db_wp. assert (Heq1 : ms_list m1 = ms_list m) by (by destruct Hl as [n ->]). rewrite Heq1.
  set (a := match msrp_lookup _ _ with Some x => _ | None => _ end).
  assert (Ha : a = ms_set_substate (known_substate (StreamID t) (ms_list m)) (ms_set_operation OPERATION_REGISTER (ms_fresh (Listener t)))).
  { unfold a, known_substate. by destruct (msrp_lookup _ _). }
  rewrite Ha. apply ms_event_command_wp; [apply Hs1|done|apply ms_request_fresh; [done|apply known_substate_ok, HI]|].
  intros z m' fr' ms' Hs2 Hd. apply HQ; [by eapply ms_stable_trans|by eapply ms_done_later].
Qed.

(** ** Pruning *)

(** What withdrawing a listener does to the table. *)
Definition ms_spec_withdraw (pruning : bool) (X : gmultiset Z) (t : talk_listen) (sub : Z)
    (tab : gmap msrp_key ms_record) : gmap msrp_key ms_record :=
  let tab := ms_spec_event p2pmac pruning X EVENT_LV (Some (rq_record (Listener t) OPERATION_REGISTER sub)) tab in
  if pruning && bool_decide (be_val (StreamID t) ∉ X) then delete (KTalker (StreamID t)) tab else tab.

Lemma ms_forget_wp id m fr ms (Q : unit -> msrp_world -> Prop) :
  ms_Inv m -> length id = 8%nat ->
  (forall m', ms_Inv m' -> ms_table (ms_list m') = delete (KTalker id) (ms_table (ms_list m)) ->
     ms_kept m m' -> Q tt (ms_at_db m' fr ms)) ->
  safe (ms_forget id) Q (ms_at_db m fr ms).
Proof using.
  intros HI Hid HQ. apply ms_upd_db_wp, HQ; [apply ms_Inv_sublist; [done|apply ms_drop_sublist]| |by constructor].
  cbn [ms_list ms_set_list]. apply ms_drop_table; [done|]. apply ms_attrs_keys, HI.
Qed.

Lemma ms_cmd_withdraw_wp t m fr ms (Q : Z -> msrp_world -> Prop) :
  ms_Inv m -> talk_ok t ->
  (forall z m' fr' ms', ms_stable m m' ->
     (malloc_ok E -> z = 0 /\ ms_table (ms_list m') =
        ms_spec_withdraw (enable_pruning m) (interesting m) t (known_substate (StreamID t) (ms_list m)) (ms_table (ms_list m))) ->
     Q z (ms_at_db m' fr' ms')) ->
  safe (ms_cmd_withdraw E p2pmac STATION_ADDR t) Q (ms_at_db m fr ms).
Proof using HT HR Hst.
  intros HI Ht HQ. apply wp_bind, ms_withdraw_wp; [done..|]. intros z m1 fr1 ms1 Hs1 Hd.
  destruct (Z.eqb_spec z 0) as [->|Hz]; cbn [negb].
  2:{ apply wp_ret, HQ; [done|]. intros HM. by destruct (Hd HM). }
  apply wp_bind, ms_the_db_wp. pose proof Hs1 as [HI1 Hk1]. rewrite (mk_pruning _ _ Hk1).
  unfold ms_spec_withdraw in HQ. destruct (enable_pruning m) eqn:Hp.
  2:{ apply wp_ret, HQ; [done|]. intros HM. destruct (Hd HM) as [_ ->]. by rewrite Hp. }
  pose proof (tk_id _ Ht) as Hid. rewrite <- (ms_kept_interesting _ _ Hk1) in HQ.
  assert (Hgo : forall o : option eui64set_entry, (is_Some o <-> be_val (StreamID t) ∈ interesting m1) ->
    safe ((if decide (o = None) then ms_forget (StreamID t) else mret tt);; mret 0) Q (ms_at_db m1 fr1 ms1)).
  { intros o Ho. apply wp_bind. destruct o as [x|]; [rewrite decide_False by done|rewrite decide_True by done].
    2:{ apply ms_forget_wp; [done|apply Hid|]. intros m2 HI2 Ht2 Hk2. apply wp_ret, HQ.
      + eapply ms_stable_trans; [done|by split].
      + intros HM. destruct (Hd HM) as [_ Ht1]. split; [done|]. rewrite bool_decide_true by (intros []%Ho; done). cbn [andb].
        rewrite Ht2, Ht1, (ms_kept_interesting _ _ Hk1), Hp. done. }
    apply wp_ret, wp_ret, HQ; [done|]. intros HM. destruct (Hd HM) as [_ ->]. split; [done|].
      rewrite bool_decide_false by (intros HnX; apply HnX, Ho; eauto). cbn [andb].
      by rewrite (ms_kept_interesting _ _ Hk1), Hp. }
  destruct HI1 as [[? ? ? ? [es Hes]] ? ?]. destruct Hid as [Hb Hl].
  apply wp_bind. eapply wp_lift; [by apply eui64_read_val|].
  destruct (find_spec _ es (be_val (StreamID t)) Hes) as (o&Hf&Ho). apply wp_bind. eapply wp_lift; [exact Hf|].
  apply Hgo. by rewrite (interesting_holds _ _ Hes).
Qed.

Lemma ms_ids_inv s es m : ms_Inv m -> holds s es -> ms_Inv (ms_set_ids s m) /\ interesting (ms_set_ids s m) = keys es.
Proof using.
  intros [[] ? ?] Hes. split; [|by apply interesting_holds]. constructor; [constructor|..]; try done. by exists es.
Qed.

Definition capacity (m : msrp_database) : Z := max_entries (interesting_stream_ids m).

(** I+S: a new stream, unless the set is full. *)
Lemma ms_cmd_interesting_wp id m fr ms (Q : Z -> msrp_world -> Prop) :
  ms_Inv m -> octets 8 id ->
  (forall m', ms_Inv m' -> ms_list m' = ms_list m -> ms_settings m m' -> capacity m' = capacity m ->
     let v := be_val id in let X := interesting m in
     let room := bool_decide (v ∉ X) && (Z.of_nat (size X) <? capacity m) in
     interesting m' = (if room then {[+ v +]} ⊎ X else X) -> Q (if room then 0 else -1) (ms_at_db m' fr ms)) ->
  safe (ms_cmd_interesting id) Q (ms_at_db m fr ms).
Proof using.
  intros HI [Hb Hl] HQ. apply wp_bind, ms_the_db_wp, wp_bind. eapply wp_lift; [by apply eui64_read_val|].
  pose proof HI as [[_ _ _ _ [es Hes]] _ _]. pose proof (interesting_holds _ _ Hes) as HX. rewrite HX in HQ. cbv zeta in HQ.
  destruct (find_spec _ es (be_val id) Hes) as (o&Hf&Ho). apply wp_bind. eapply wp_lift; [exact Hf|].
  rewrite (bool_decide_ext _ _ Ho). destruct (decide (be_val id ∈ keys es)) as [Hin|Hin].
  { rewrite bool_decide_true by done. apply wp_ret. specialize (HQ m HI eq_refl ltac:(by split) eq_refl). rewrite bool_decide_false in HQ by auto. by apply HQ. }
  rewrite (bool_decide_false (be_val id ∈ keys es)) by done.
  assert (Hv : is_u64 (be_val id)) by (pose proof (be_val_bound id Hb) as Hbd; by rewrite Hl in Hbd).
  destruct (insert_step _ es (be_val id) None Hes Hv) as (r&s'&es'&Hins&Hes'&Hcap&Hspec).
  apply wp_bind. eapply wp_lift; [exact Hins|]. cbn [spec_step] in Hspec. fold (capacity m) in Hspec.
  apply wp_bind, ms_upd_db_wp. destruct (ms_ids_inv s' es' m HI Hes') as [HI' HX'].
  specialize (HQ (ms_set_ids s' m) HI' eq_refl ltac:(by split) Hcap).
  rewrite HX', bool_decide_true in HQ by done. cbn [andb] in HQ. destruct (_ <? capacity m); injection Hspec as -> Hks; rewrite Hks in HQ; apply wp_ret; by apply HQ.
Qed.

(** I-S: without a listener, the talkers of the stream go too. *)
Lemma ms_cmd_uninteresting_wp id m fr ms (Q : Z -> msrp_world -> Prop) :
  ms_Inv m -> octets 8 id ->
  (forall m', ms_Inv m' -> ms_settings m m' -> capacity m' = capacity m ->
     let v := be_val id in let X := interesting m in let tab := ms_table (ms_list m) in
     interesting m' = (if bool_decide (v ∈ X) then X ∖ {[+ v +]} else X) ->
     ms_table (ms_list m') = (if bool_decide (v ∈ X) && bool_decide (tab !! KListener id = None)
                              then delete (KTalker id) tab else tab) ->
     Q (if bool_decide (v ∈ X) then 0 else -1) (ms_at_db m' fr ms)) ->
  safe (ms_cmd_uninteresting id) Q (ms_at_db m fr ms).
Proof using.
  intros HI [Hb Hl] HQ. apply wp_bind, ms_the_db_wp, wp_bind. eapply wp_lift; [by apply eui64_read_val|].
  pose proof HI as [[_ Ha _ _ [es Hes]] _ _]. pose proof (interesting_holds _ _ Hes) as HX. rewrite HX in HQ. cbv zeta in HQ.
  assert (Hv : is_u64 (be_val id)) by (pose proof (be_val_bound id Hb) as Hbd; by rewrite Hl in Hbd).
  destruct (remove_step _ es (be_val id) Hes Hv) as (r&s'&p&es'&Hrm&Hes'&Hcap&Hspec).
  apply wp_bind. eapply wp_lift; [exact Hrm|]. cbn [spec_step] in Hspec.
  apply wp_bind, ms_upd_db_wp. destruct (ms_ids_inv s' es' m HI Hes') as [HI' HX'].
  assert (Hlk : ms_table (ms_list m) !! KListener id = None <-> msrp_lookup (KListener id) (ms_list m) = None).
  { rewrite ms_table_lookup; [|done|by apply ms_attrs_keys]. by rewrite fmap_None. }
  destruct (decide (be_val id ∈ keys es)) as [Hin|Hin]; injection Hspec as -> Hks; rewrite Hks in HX'.
  - rewrite bool_decide_true in HQ by done. cbn [andb Z.eqb] in *. apply wp_bind.
    destruct (decide (msrp_lookup (KListener id) (ms_list m) = None)) as [Hn|Hn].
    + apply ms_forget_wp; [done|done|]. intros m2 HI2 Ht2 Hk2. apply wp_ret, HQ; [done|..].
      * destruct Hk2 as [[] ? ?]. by split.
      * destruct Hk2 as [_ Hi _]. unfold capacity. rewrite Hi. exact Hcap.
      * rewrite (ms_kept_interesting _ _ Hk2). exact HX'.
      * rewrite bool_decide_true by (by apply Hlk). exact Ht2.
    + apply wp_ret, wp_ret, HQ; [done|by split|exact Hcap|exact HX'|]. rewrite bool_decide_false; [done|]. by rewrite Hlk.
  - rewrite bool_decide_false in HQ by done. cbn [andb Z.eqb] in *. apply wp_ret, HQ; [done|by split|exact Hcap|exact HX'|done].
Qed.

(** ** Whole commands *)

Definition ms_cmd_post (w : msrp_world) : Prop := exists m' fr' ms', w = ms_at_db m' fr' ms' /\ ms_Inv m'.

(** A parsed command: errors are answered, which changes the messages only. *)
Lemma ms_perform_wp client buf left rc cmd m fr ms (Q : Z -> msrp_world -> Prop) :
  terminated MAX_MRPD_CMDSZ buf = true -> (rc <> 0 -> terminated MAX_MRPD_CMDSZ left = true) ->
  (rc <> 0 -> forall ms', Q (-1) (ms_at_db m fr ms')) ->
  (rc = 0 -> safe cmd (fun z w => exists m' fr' ms', w = ms_at_db m' fr' ms' /\
     forall ms'', Q (if z =? 0 then 0 else -1) (ms_at_db m' fr' ms'')) (ms_at_db m fr ms)) ->
  safe (ms_perform client buf left rc cmd) Q (ms_at_db m fr ms).
Proof using.
  intros Hb Hbl Hn Hz. unfold ms_perform. destruct (Z.eqb_spec rc 0) as [->|Hrc]; cbn [negb].
  2:{ apply wp_bind, ms_respond_wp; [auto|]. intros ms'. by apply wp_ret, Hn. }
  apply wp_bind. eapply wp_mono; [by apply Hz|]. intros z w (m'&fr'&ms'&->&HQ).
  destruct (z =? 0); cbn [negb]; [by apply wp_ret|]. apply wp_bind, ms_respond_wp; [done|]. intros ms''. by apply wp_ret.
Qed.

(** Whatever text a client sends while the table fits one message is safe. *)
Lemma ms_dispatch_wp buf client pruning m fr ms :
  ms_Inv m -> ms_dumpable m -> terminated MAX_MRPD_CMDSZ buf = true ->
  safe (ms_dispatch E p2pmac STATION_ADDR buf client pruning) (fun _ => ms_cmd_post) (ms_at_db m fr ms).
Proof using HT HR Hst.
  intros HI Hd Hb.
  assert (Herr : forall ms', ms_cmd_post (ms_at_db m fr ms')) by (intros ms'; by exists m, fr, ms').
  assert (Hperf : forall rc cmd least specs, (rc = 0 -> safe cmd (fun z w => exists m' fr' ms', w = ms_at_db m' fr' ms' /\ ms_Inv m')
    (ms_at_db m fr ms)) -> safe (ms_perform client buf (command_left least buf specs) rc cmd) (fun _ => ms_cmd_post) (ms_at_db m fr ms)).
  { intros rc cmd least specs Hc. apply ms_perform_wp; [done|by intros _; apply command_left_terminated|by intros _|]. intros Hrc. eapply wp_mono; [by apply Hc|].
    intros z w (m'&fr'&ms'&->&HI'). exists m', fr', ms'. split; [done|]. intros ms''. by exists m', fr', ms''. }
  assert (Hval : forall v op sub e, for_attribute e -> ms_value_ok v -> is_u32 sub ->
    safe (ms_cmd_value E p2pmac STATION_ADDR v op sub e) (fun z w => exists m' fr' ms', w = ms_at_db m' fr' ms' /\ ms_Inv m')
      (ms_at_db m fr ms)).
  { intros v op sub e He Hv Hs. apply ms_cmd_value_wp; [done..|]. intros z m' fr' ms' [HI' _] _. by exists m', fr', ms'. }
  assert (H0 : is_u32 0) by (unfold is_u32; clear; lia).
  unfold ms_dispatch. destruct (strneq _ buf (str "S??")).
  { apply wp_bind, msrp_dumptable_wp; [apply HI|done|]. intros z m' ms' Hl. apply wp_ret. exists m', fr, ms'.
    split; [done|]. by destruct (ms_Inv_later _ _ Hl HI) as [[? _] _]. }
  destruct (strneq _ buf (str "S-L")).
  { destruct (msrp_cmd_parse_withdraw_listener_status buf) as [rc t] eqn:Hp. apply Hperf. intros ->.
    apply ms_cmd_withdraw_wp; [done|by eapply parsed_withdraw|]. intros z m' fr' ms' [HI' _] _. by exists m', fr', ms'. }
  destruct (strneq _ buf (str "S-D")).
  { destruct (msrp_cmd_parse_domain_status buf) as [rc d] eqn:Hp. apply Hperf. intros ->. apply Hval; [done|by eapply parsed_domain|done]. }
  destruct (strneq _ buf (str "S--")).
  { destruct (msrp_cmd_parse_leave_stream buf) as [rc t] eqn:Hp. apply Hperf. intros ->. apply Hval; [done|by eapply parsed_leave|done]. }
  destruct (strneq _ buf (str "S+L")).
  { destruct (msrp_cmd_parse_report_listener_status buf) as [[rc t] sub] eqn:Hp. apply Hperf. intros ->.
    destruct (parsed_report _ _ _ Hp). by apply Hval. }
  destruct (strneq _ buf (str "S+D")).
  { destruct (msrp_cmd_parse_domain_status buf) as [rc d] eqn:Hp. apply Hperf. intros ->. apply Hval; [done|by eapply parsed_domain|done]. }
  destruct (_ || _).
  { unfold ms_cmd_stream, msrp_cmd_join_or_new_stream. set (e := if nth 2 buf 0 =? 63 then _ else _).
    assert (He : for_attribute e) by (unfold e; by destruct (_ =? 63)).
    apply wp_bind. eapply wp_lift; [by apply c_string_Ok|]. cbv zeta. destruct (bool_decide _).
    - destruct (msrp_cmd_parse_join_or_new_stream_failure buf) as [rc t] eqn:Hp. apply Hperf. intros ->.
      apply Hval; [done|by eapply (parsed_join_failure buf)|done].
    - destruct (msrp_cmd_parse_join_or_new_stream buf) as [rc t] eqn:Hp. apply Hperf. intros ->.
      apply Hval; [done|by eapply (parsed_join buf)|done]. }
  assert (Herp : safe (ms_erp client buf) (fun _ => ms_cmd_post) (ms_at_db m fr ms)).
  { apply wp_bind, ms_respond_wp; [done|]. intros ms'. by apply wp_ret. }
  destruct (strneq _ buf (str "I+S")).
  { destruct pruning; cbn [negb]; [|done]. destruct (msrp_cmd_parse_stream_id buf) as [rc id] eqn:Hp. apply Hperf. intros ->.
    apply ms_cmd_interesting_wp; [done|by eapply parsed_stream_id|]. intros m' HI' _ _ _ *. by exists m', fr, ms. }
  destruct (strneq _ buf (str "I-S")).
  { destruct pruning; cbn [negb]; [|done]. destruct (msrp_cmd_parse_stream_id buf) as [rc id] eqn:Hp. apply Hperf. intros ->.
    apply ms_cmd_uninteresting_wp; [done|by eapply parsed_stream_id|]. intros m' HI' _ _ *. by exists m', fr, ms. }
  destruct (strneq _ buf (str "I-A")).
  { apply wp_bind, ms_upd_db_wp, wp_ret. eexists _, fr, ms. split; [done|].
    pose proof HI as [[_ _ _ _ [es Hes]] _ _].
    destruct (eui_step_refines _ es OpClear Hes I) as (r&s'&es'&Hstep&Hes'&_). injection Hstep as _ <-.
    by destruct (ms_ids_inv _ es' m HI Hes'). }
  apply wp_bind, ms_respond_wp; [done|]. intros ms'. by apply wp_ret.
Qed.

Lemma msrp_recv_cmd_wp buf client m fr ms :
  ms_Inv m -> ms_dumpable m -> terminated MAX_MRPD_CMDSZ buf = true ->
  safe (msrp_recv_cmd E p2pmac STATION_ADDR buf client) (fun _ => ms_cmd_post) (ms_at_db m fr ms).
Proof using HT HR Hst.
  intros HI Hd Hb. apply wp_bind, wp_gets. cbn [MSRP_db]. apply wp_bind, ms_add_client_wp.
  intros m1 [Hl _ Hp HI1] _. specialize (HI1 HI). apply wp_bind, ms_the_db_wp.
  assert (Hend : forall rc : Z, safe (mret rc) (fun _ => ms_cmd_post) (ms_at_db m1 fr ms))
    by (intros rc; apply wp_ret; by exists m1, fr, ms).
  destruct (enable_pruning m1 && _).
  { apply wp_bind, ms_upd_mrp_wp, wp_bind. apply wp_modify, wp_ret. eexists _, _, _. split; [done|].
    apply (ss_inv _ _ (ms_clients_same _ m1)), HI1. }
  destruct (length buf <? 3)%nat; [done|]. destruct (_ && _); [done|].
  apply ms_dispatch_wp; [done| |done]. unfold ms_dumpable. by rewrite Hl.
Qed.

Lemma msrp_init_wp en max pr rs mal cal rt w :
  safe (msrp_init E en max pr rs mal cal rt)
    (fun rc w' => ms_frames w' = ms_frames w /\ ms_messages w' = ms_messages w /\
       match MSRP_db w' with
       | MsNoDb => en = 0 \/ rc = -1
       | MsDb m => rc = 0 /\ en <> 0 /\ ms_Inv m /\ ms_list m = [] /\ clients (ms_mrp_db m) = [] /\ interesting m = ∅ /\
                   capacity m = Z.max 8 max /\ enable_pruning m = pr /\ lva_timer_running (ms_mrp_db m) = true
       | MsFreedDb => False
       end) w.
Proof using HT HR.
  unfold msrp_init. apply wp_bind, wp_modify. cbn beta.
  destruct (Z.eqb_spec en 0) as [->|Hen]; [cbn; auto|].
  destruct (rs <? 0); [cbn; auto|]. destruct mal; cbn [negb]; [|cbn; auto].
  set (mx := if max <? 8 then 8 else max).
  assert (Hmx : mx = Z.max 8 max) by (unfold mx; clear; destruct (Z.ltb_spec max 8); lia).
  destruct (eui64set_init mx cal) as [rc s] eqn:Hs. destruct (Z.ltb_spec rc 0) as [|Hrc]; [cbn; auto|].
  assert (Hhold : holds s [] /\ max_entries s = mx).
  { destruct cal; [by destruct (init_holds mx); rewrite Hs in *|]. exfalso. unfold eui64set_init in Hs.
    destruct (Z.ltb_spec 0 mx); [by injection Hs as <- <-; clear -Hrc; lia|]. clear -Hmx H. lia. }
  destruct Hhold as [Hh Hcap]. destruct (rt <? 0); [cbn; auto|].
  set (db := mkMrpDb _ _ _ _ _ _ _ _ _ _ _). assert (Hdb : armed db) by (by constructor).
  pose proof (lvatimer_fsm_spec E HT HR db EVENT_BEGIN Hdb ltac:(auto)) as Hsp.
  destruct (mrp_lvatimer_fsm E db EVENT_BEGIN) as [rc' db']. destruct Hsp as (_&Hr&Ha&Hc&_).
  apply wp_bind, wp_modify. cbn [MSRP_db snd]. apply wp_ret. cbn.
  split_and!; try done; [|by destruct Hc|by apply (interesting_holds _ [])|by unfold capacity; cbn; rewrite Hcap].
  constructor; [constructor; cbn; try done|done|done]; [constructor|by exists []].
Qed.

End Commands.
