(* ===== verification/MsrpRequest.v ===== *)
(** * MSRP: the meaning of commands

    The texts of the commands of local applications and what each does to the table of
    declarations and to the set of interesting streams. *)

From stdpp Require Import gmultiset.
From S2P Require Import Prelude.
From S2P Require Import CText.
From S2P Require Import CTextTheory.
From S2P Require Import Mrp.
From S2P Require Import MrpText.
From S2P Require Import MrpTheory.
From S2P Require Import Parse.
From S2P Require Import Mvrp.
From S2P Require Import MvrpEvent.
From S2P Require Import MvrpCmd.
From S2P Require Import Mmrp.
From S2P Require Import MmrpTheory.
From S2P Require Import MmrpEvent.
From S2P Require Import MmrpCmd.
From S2P Require Import ParseTheory.
From S2P Require Import EuiSet.
From S2P Require Import Msrp.
From S2P Require Import MsrpRun.
From S2P Require Import MsrpTheory.
From S2P Require Import MsrpEvent.
From S2P Require Import MsrpRecv.
From S2P Require Import MsrpCmd.
From Stdlib Require Import String.

Open Scope Z_scope.
Local Abbreviation length := List.length.

Section Requests.
Context {C : CSort} (E : Os) (p2pmac : Z) (STATION_ADDR : list Z).
Context (HT : timers_ok E) (HR : random_ok E) (Hst : length STATION_ADDR = 6%nat).

(** ** What commands mean *)

Definition ms_command (op : string) (specs : list parse_param) (vs : list parse_value) (pad : nat) : list Z :=
  str op ++ params_text specs vs ++ replicate (S pad) 0.

Definition talker_values (t : talk_listen) : list parse_value :=
  [BytesValue (StreamID t); BytesValue (Dest_Addr t); IntValue (Vlan_ID t); IntValue (MaxFrameSize t);
   IntValue (MaxIntervalFrames t); IntValue (PriorityAndRank t); IntValue (AccumulatedLatency t)].

Definition failure_values (t : talk_listen) : list parse_value := [BytesValue (BridgeID t); IntValue (FailureCode t)].

Inductive ms_op : string -> mrp_event -> Prop :=
  | ms_op_new : ms_op "S++:" EVENT_NEW
  | ms_op_join : ms_op "S+?:" EVENT_JOIN.

(** The texts of the commands that stand for an event, with the event and the
    declaration. *)
Inductive ms_request : list Z -> mrp_event -> ms_record -> Prop :=
  | rq_advertise op e t pad : ms_op op e -> talk_ok t -> BridgeID t = replicate 8 0 -> FailureCode t = 0 ->
      ms_request (ms_command op talker_params (talker_values t) pad) e (rq_record (TalkerAdv t) OPERATION_DECLARE 0)
  | rq_fail op e t pad : ms_op op e -> talk_ok t ->
      ms_request (ms_command op (talker_params ++ failure_params) (talker_values t ++ failure_values t) pad) e
        (rq_record (TalkerFailed t) OPERATION_DECLARE 0)
  | rq_leave id pad : octets 8 id ->
      ms_request (ms_command "S--:" [param "S" parse_c64] [BytesValue id] pad) EVENT_LV
        (rq_record (TalkerAdv (stream id)) OPERATION_REGISTER 0)
  | rq_listen id sub pad : octets 8 id -> is_u32 sub ->
      ms_request (ms_command "S+L:" [param "L" parse_c64; param "D" parse_u32] [BytesValue id; IntValue sub] pad) EVENT_NEW
        (rq_record (Listener (stream id)) OPERATION_DECLARE sub)
  | rq_domain c p v pad : is_u8 c -> is_u8 p -> is_u16 v ->
      ms_request (ms_command "S+D:" domain_params [IntValue c; IntValue p; IntValue v] pad) EVENT_JOIN
        (rq_record (Domain (mkDomain c p p v)) OPERATION_REGISTER 0)
  | rq_undomain c p v pad : is_u8 c -> is_u8 p -> is_u16 v ->
      ms_request (ms_command "S-D:" domain_params [IntValue c; IntValue p; IntValue v] pad) EVENT_LV
        (rq_record (Domain (mkDomain c p p v)) OPERATION_REGISTER 0).

Lemma int_printable name ty n :
  has_type ty (IntValue n) -> plain (str name ++ str PARSE_ASSIGN) -> printable (param name ty) (IntValue n).
Proof using. intros Ht Hp. by split. Qed.

Lemma bytes_printable name ty b :
  has_type ty (BytesValue b) -> plain (str name ++ str PARSE_ASSIGN) -> printable (param name ty) (BytesValue b).
Proof using. intros Ht Hp. by split. Qed.

Ltac plain_name := split; repeat (constructor; [unfold PARSE_DELIMITER; by vm_compute|]); constructor.
Ltac printed := repeat (constructor; [first [apply bytes_printable; [done|plain_name]
  |apply int_printable; [done|plain_name]]|]); try constructor.

Lemma talker_printable t : talk_ok t -> Forall2 printable talker_params (talker_values t).
Proof using. clear Hst. intros [[] [] ? ? ? ? ? [] ?]. printed. Qed.

Lemma failure_printable t : talk_ok t -> Forall2 printable failure_params (failure_values t).
Proof using. clear Hst. intros [[] [] ? ? ? ? ? [] ?]. printed. Qed.

Lemma domain_printable c p v : is_u8 c -> is_u8 p -> is_u16 v ->
  Forall2 printable domain_params [IntValue c; IntValue p; IntValue v].
Proof using. clear Hst. intros. printed. Qed.

Lemma command_parse op a b c specs vs pad :
  str op = [a; b; c; 58] -> Forall2 printable specs vs -> parse (drop 4 (ms_command op specs vs pad)) specs = (0, 0, vs).
Proof using. intros Hop HF. unfold ms_command. rewrite Hop. by apply (parse_text specs vs pad). Qed.

Lemma octets_text n b : octets n b -> length (value_text parse_c64 (BytesValue b)) = (2 * n)%nat.
Proof using. apply fmt_octets_length. Qed.

Lemma int_text ty n : has_type ty (IntValue n) -> (1 <= length (value_text ty (IntValue n)))%nat.
Proof using.
  intros Ht. destruct (convert_text ty (IntValue n) true Ht) as [Hc _].
  destruct (value_text ty (IntValue n)); [|cbn; clear; lia]. destruct ty; by vm_compute in Hc.
Qed.

(** The talker parameters hold no failure information, and the failure parameters do. *)
Lemma no_failure op a b c t pad :
  str op = [a; b; c; 58] -> 66 ∉ [a; b; c; 58] -> 0 ∉ [a; b; c; 58] -> talk_ok t ->
  strstr_after (str "B=") (cstr (ms_command op talker_params (talker_values t) pad)) = None.
Proof using.
  intros Hop HB H0 Ht. pose proof (talker_printable t Ht) as HF. unfold ms_command. rewrite Hop, (assoc_L (++)).
  cbn [replicate]. rewrite cstr_app.
  - apply (strstr_after_absent 66 [61]). rewrite not_elem_of_app. split; [done|].
    apply params_text_without; [done| |done|].
    + clear. repeat (constructor; [by apply (bool_decide_unpack _)|]); constructor.
    + unfold hex_char. clear. lia.
  - apply Forall_app. split; [|by apply params_text_plain]. apply Forall_forall. by intros x Hx ->.
Qed.

Lemma some_failure op a b c t pad :
  str op = [a; b; c; 58] -> 0 ∉ [a; b; c; 58] -> talk_ok t ->
  is_Some (strstr_after (str "B=")
    (cstr (ms_command op (talker_params ++ failure_params) (talker_values t ++ failure_values t) pad))).
Proof using.
  intros Hop H0 Ht. pose proof (Forall2_app (talker_printable t Ht) (failure_printable t Ht)) as HF.
  unfold ms_command. rewrite Hop, (assoc_L (++)). cbn [replicate]. rewrite cstr_app.
  - unfold failure_params, failure_values. rewrite params_text_app by done.
    rewrite cons_middle, !(assoc_L (++)). apply (strstr_after_present (str "B=")). by repeat constructor.
  - apply Forall_app. split; [|by apply params_text_plain]. apply Forall_forall. by intros x Hx ->.
Qed.

Lemma command_length op a b c specs vs pad :
  str op = [a; b; c; 58] -> length (ms_command op specs vs pad) = (5 + length (params_text specs vs) + pad)%nat.
Proof using.
  clear. intros Hop. unfold ms_command. rewrite Hop, !length_app, length_replicate. cbn [length]. lia.
Qed.

Lemma parse_domain_command op a b c cl p v pad :
  str op = [a; b; c; 58] -> is_u8 cl -> is_u8 p -> is_u16 v ->
  msrp_cmd_parse_domain_status (ms_command op domain_params [IntValue cl; IntValue p; IntValue v] pad) = (0, mkDomain cl p 0 v).
Proof using.
  clear. intros Hop Hc Hp Hv. unfold msrp_cmd_parse_domain_status. rewrite (command_length _ _ _ _ _ _ _ Hop).
  assert (Hl : (14 <= length (params_text domain_params [IntValue cl; IntValue p; IntValue v]))%nat).
  { pose proof (int_text parse_u8 cl Hc). pose proof (int_text parse_u8 p Hp).
    cbn [params_text domain_params]. do 4 (rewrite ?length_app; cbn [length param_type param param_name]).
    cbn [value_text] in *. rewrite fmt_vid_length by done. cbn. lia. }
  match goal with |- context[?x <? 18] => destruct (Z.ltb_spec x 18) as [Hx|_] end; [exfalso; lia|].
  rewrite (command_parse op a b c) by (done || by apply domain_printable). done.
Qed.

(** The requests, dispatched. *)
Section Dispatch.
Context (client : sockaddr_in) (pruning : bool).

(** The command [text] runs the event [e] for the given attribute. *)
Definition dispatched (text : list Z) (e : mrp_event) (v : msrp_value) (op : msrp_operation) (sub : Z) : Prop :=
  ms_dispatch E p2pmac STATION_ADDR text client pruning =
    ms_perform client text text 0 (ms_cmd_value E p2pmac STATION_ADDR v op sub e).

Lemma advertise_length t : talk_ok t -> (33 <= length (params_text talker_params (talker_values t)))%nat.
Proof using.
  clear. intros Ht. cbn [params_text talker_params talker_values]. rewrite !length_app. cbn [length]. rewrite !length_app.
  change (value_text (param_type (param "A" parse_mac)) (BytesValue (Dest_Addr t))) with (fmt_mac (Dest_Addr t)).
  change (param_type (param "S" parse_c64)) with parse_c64. rewrite (octets_text 8), (fmt_octets_length 6) by apply Ht.
  change (length (param_name (param "S" parse_c64))) with 2%nat.
  change (length (param_name (param "A" parse_mac))) with 2%nat. lia.
Qed.

Lemma failure_length t :
  talk_ok t -> (42 <= length (params_text (talker_params ++ failure_params) (talker_values t ++ failure_values t)))%nat.
Proof using.
  clear. intros Ht. unfold failure_params, failure_values. rewrite params_text_app by done. rewrite length_app.
  pose proof (advertise_length t Ht). cbn [params_text length]. rewrite !length_app. cbn [length]. rewrite !length_app.
  change (param_type (param "B" parse_c64)) with parse_c64. rewrite (octets_text 8) by apply Ht.
  change (length (param_name (param "B" parse_c64))) with 2%nat.
  change (length (param_name (param "C" parse_u8))) with 2%nat.
  pose proof (int_text parse_u8 (FailureCode t) (tk_code _ Ht)).
  change (param_type (param "C" parse_u8)) with parse_u8. lia.
Qed.

Lemma command_terminated op specs vs pad : terminated MAX_MRPD_CMDSZ (ms_command op specs vs pad) = true.
Proof using. apply terminated_zeros. Qed.

Lemma stream_text {A} buf (f : list Z -> MSRP A) : terminated MAX_MRPD_CMDSZ buf = true ->
  (text ← lift (c_string MAX_MRPD_CMDSZ buf); f text) = f (cstr buf).
Proof using. intros Ht. by rewrite c_string_Ok. Qed.

Lemma stream_command_adv op a b c t pad :
  str op = [a; b; c; 58] -> 66 ∉ [a; b; c; 58] -> 0 ∉ [a; b; c; 58] ->
  talk_ok t -> BridgeID t = replicate 8 0 -> FailureCode t = 0 ->
  let text := ms_command op talker_params (talker_values t) pad in
  ms_cmd_stream E p2pmac STATION_ADDR client text = ms_perform client text text 0
    (ms_cmd_value E p2pmac STATION_ADDR (TalkerAdv t) OPERATION_DECLARE 0 (if c =? 63 then EVENT_JOIN else EVENT_NEW)).
Proof using.
  intros Hs HB Hz Ht Hb Hc text. unfold ms_cmd_stream. rewrite stream_text by apply command_terminated.
  unfold text. rewrite (no_failure op a b c t pad Hs HB Hz Ht).
  rewrite bool_decide_false by (by intros []). unfold msrp_cmd_parse_join_or_new_stream.
  rewrite (command_length _ _ _ _ _ _ _ Hs). pose proof (advertise_length t Ht) as Hl.
  match goal with |- context[?x <? 22] => destruct (Z.ltb_spec x 22) as [Hlt|_] end; [exfalso; clear -Hl Hlt; lia|].
  rewrite (command_parse op a b c _ _ pad Hs (talker_printable t Ht)). cbn [talker_values].
  assert (nth 2 (ms_command op talker_params (talker_values t) pad) 0 = c) as -> by (unfold ms_command; by rewrite Hs).
  replace (mkTalk _ _ _ _ _ _ _ _ _) with t by (destruct t; cbn in Hb, Hc; by subst). done.
Qed.

Lemma stream_command_fail op a b c t pad :
  str op = [a; b; c; 58] -> 0 ∉ [a; b; c; 58] -> talk_ok t ->
  let text := ms_command op (talker_params ++ failure_params) (talker_values t ++ failure_values t) pad in
  ms_cmd_stream E p2pmac STATION_ADDR client text = ms_perform client text text 0
    (ms_cmd_value E p2pmac STATION_ADDR (TalkerFailed t) OPERATION_DECLARE 0 (if c =? 63 then EVENT_JOIN else EVENT_NEW)).
Proof using.
  intros Hs Hz Ht text. unfold ms_cmd_stream. rewrite stream_text by apply command_terminated. cbv zeta. rewrite bool_decide_true by (by eapply some_failure).
  unfold msrp_cmd_parse_join_or_new_stream_failure, text. rewrite (command_length _ _ _ _ _ _ _ Hs).
  pose proof (failure_length t Ht) as Hl.
  match goal with |- context[?x <? 47] => destruct (Z.ltb_spec x 47) as [Hlt|_] end; [exfalso; clear -Hl Hlt; lia|].
  fold failure_params.
  rewrite (command_parse op a b c _ _ pad Hs (Forall2_app (talker_printable t Ht) (failure_printable t Ht))).
  cbn [talker_values failure_values app].
  match goal with |- context[nth 2 ?x 0] => assert (nth 2 x 0 = c) as -> by (unfold ms_command; by rewrite Hs) end.
  by destruct t.
Qed.

Lemma dispatch_adv op e t pad :
  ms_op op e -> talk_ok t -> BridgeID t = replicate 8 0 -> FailureCode t = 0 ->
  dispatched (ms_command op talker_params (talker_values t) pad) e (TalkerAdv t) OPERATION_DECLARE 0.
Proof using.
  intros Hop Ht Hb Hc. unfold dispatched.
  destruct Hop.
  - etrans; [|exact (stream_command_adv "S++:" 83 43 43 t pad eq_refl ltac:(by apply (bool_decide_unpack _))
      ltac:(by apply (bool_decide_unpack _)) Ht Hb Hc)]. reflexivity.
  - etrans; [|exact (stream_command_adv "S+?:" 83 43 63 t pad eq_refl ltac:(by apply (bool_decide_unpack _))
      ltac:(by apply (bool_decide_unpack _)) Ht Hb Hc)]. reflexivity.
Qed.

Lemma dispatch_fail op e t pad :
  ms_op op e -> talk_ok t ->
  dispatched (ms_command op (talker_params ++ failure_params) (talker_values t ++ failure_values t) pad) e
    (TalkerFailed t) OPERATION_DECLARE 0.
Proof using.
  intros Hop Ht. unfold dispatched.
  destruct Hop.
  - etrans; [|exact (stream_command_fail "S++:" 83 43 43 t pad eq_refl ltac:(by apply (bool_decide_unpack _)) Ht)]. reflexivity.
  - etrans; [|exact (stream_command_fail "S+?:" 83 43 63 t pad eq_refl ltac:(by apply (bool_decide_unpack _)) Ht)]. reflexivity.
Qed.

Lemma dispatch_leave id pad :
  octets 8 id ->
  dispatched (ms_command "S--:" [param "S" parse_c64] [BytesValue id] pad) EVENT_LV (TalkerAdv (stream id))
    OPERATION_REGISTER 0.
Proof using.
  intros [Hb Hl]. unfold dispatched. set (text := ms_command _ _ _ _).
  transitivity (let '(rc, t) := msrp_cmd_parse_leave_stream text in
    ms_perform client text (command_left 22 text [param "S" parse_c64]) rc (msrp_cmd_leave_stream E p2pmac STATION_ADDR t)); [reflexivity|].
  unfold msrp_cmd_parse_leave_stream, text at 1 2. rewrite (command_length _ 83 45 45) by done. cbn [params_text]. rewrite length_app.
  cbn [param_type param]. rewrite (octets_text 8) by done. cbn [length param_name].
  match goal with |- context[?x <? 22] => destruct (Z.ltb_spec x 22) as [Hlt|_] end; [exfalso; clear -Hlt; cbn in Hlt; lia|].
  rewrite (command_parse "S--:" 83 45 45) by (done || (clear Hst; printed)). done.
Qed.

Lemma dispatch_listen id sub pad :
  octets 8 id -> is_u32 sub ->
  dispatched (ms_command "S+L:" [param "L" parse_c64; param "D" parse_u32] [BytesValue id; IntValue sub] pad) EVENT_NEW
    (Listener (stream id)) OPERATION_DECLARE sub.
Proof using.
  intros [Hb Hl] Hsub. unfold dispatched. set (specs := [param "L" _; _]). set (vs := [BytesValue id; IntValue sub]).
  set (text := ms_command _ _ _ _).
  transitivity (let '(rc, t, substate) := msrp_cmd_parse_report_listener_status text in
    ms_perform client text (command_left 26 text [param "L" parse_c64; param "D" parse_u32]) rc
      (msrp_cmd_report_listener_status E p2pmac STATION_ADDR t substate)); [reflexivity|].
  unfold msrp_cmd_parse_report_listener_status, text at 1 2. rewrite (command_length _ 83 43 76) by done. fold specs.
  assert (HF : Forall2 printable specs vs) by (clear Hst; printed).
  assert (Hlt : (22 <= length (params_text specs vs))%nat).
  { pose proof (int_text parse_u32 sub Hsub) as Hi.
    unfold specs, vs. cbn [params_text]. rewrite !length_app. cbn [length]. rewrite length_app.
    cbn [param_type param]. rewrite (octets_text 8) by done. clear -Hi. cbn in *. lia. }
  match goal with |- context[?x <? 26] => destruct (Z.ltb_spec x 26) as [Hx|_] end; [exfalso; clear -Hlt Hx; lia|].
  rewrite (command_parse "S+L:" 83 43 76) by done. done.
Qed.

Lemma dispatch_domain c p v pad :
  is_u8 c -> is_u8 p -> is_u16 v -> let vs := [IntValue c; IntValue p; IntValue v] in
  dispatched (ms_command "S+D:" domain_params vs pad) EVENT_JOIN (Domain (mkDomain c p p v)) OPERATION_REGISTER 0 /\
  dispatched (ms_command "S-D:" domain_params vs pad) EVENT_LV (Domain (mkDomain c p p v)) OPERATION_REGISTER 0.
Proof using.
  intros Hc Hp Hv vs. unfold dispatched.
  split; [transitivity (let '(rc, d) := msrp_cmd_parse_domain_status (ms_command "S+D:" domain_params vs pad) in
      ms_perform client (ms_command "S+D:" domain_params vs pad) (command_left 18 (ms_command "S+D:" domain_params vs pad) domain_params) rc
        (msrp_cmd_report_domain_status E p2pmac STATION_ADDR d true))
    |transitivity (let '(rc, d) := msrp_cmd_parse_domain_status (ms_command "S-D:" domain_params vs pad) in
      ms_perform client (ms_command "S-D:" domain_params vs pad) (command_left 18 (ms_command "S-D:" domain_params vs pad) domain_params) rc
        (msrp_cmd_report_domain_status E p2pmac STATION_ADDR d false))];
    try reflexivity.
  - unfold vs. by rewrite (parse_domain_command "S+D:" 83 43 68) by done.
  - unfold vs. by rewrite (parse_domain_command "S-D:" 83 45 68) by done.
Qed.

(** A request is parsed into its event. *)
Lemma request_dispatch text e q :
  ms_request text e q ->
  exists v op sub, q = rq_record v op sub /\ for_attribute e /\ ms_value_ok v /\ is_u32 sub /\
    dispatched text e v op sub /\ (3 <= length text)%nat /\ nth 0 text 0 = 83.
Proof using.
  assert (H0 : is_u32 0) by (clear; unfold is_u32; lia).
  assert (Hlen : forall op a b c specs vs pad, str op = [a; b; c; 58] -> (3 <= length (ms_command op specs vs pad))%nat).
  { intros op a b c specs vs pad Hop. rewrite (command_length _ _ _ _ _ _ _ Hop). clear. lia. }
  intros [op e' t pad Hop Ht Hb Hc|op e' t pad Hop Ht|id pad Hid|id sub pad Hid Hsub|c p v pad Hc Hp Hv|c p v pad Hc Hp Hv].
  - exists (TalkerAdv t), OPERATION_DECLARE, 0. split_and!; [done|by destruct Hop|done|done|by apply dispatch_adv|..];
      destruct Hop; try done; by eapply Hlen.
  - exists (TalkerFailed t), OPERATION_DECLARE, 0. split_and!; [done|by destruct Hop|done|done|by apply dispatch_fail|..];
      destruct Hop; try done; by eapply Hlen.
  - exists (TalkerAdv (stream id)), OPERATION_REGISTER, 0.
    split_and!; [done|done|by apply stream_ok|done|by apply dispatch_leave|by eapply Hlen|done].
  - exists (Listener (stream id)), OPERATION_DECLARE, sub.
    split_and!; [done|done|by apply stream_ok|done|by apply dispatch_listen|by eapply Hlen|done].
  - exists (Domain (mkDomain c p p v)), OPERATION_REGISTER, 0.
    split_and!; [done..|by apply dispatch_domain|by eapply Hlen|done].
  - exists (Domain (mkDomain c p p v)), OPERATION_REGISTER, 0.
    split_and!; [done..|by apply dispatch_domain|by eapply Hlen|done].
Qed.

End Dispatch.

(** With pruning, only one client is admitted. *)
Definition ms_admitted (client : sockaddr_in) (m : msrp_database) : Prop :=
  enable_pruning m = true ->
  (length (clients (ms_mrp_db m)) <= if client_lookup (clients (ms_mrp_db m)) (Some client) then 1 else 0)%nat.

(** The database after the client was entered. *)
Record ms_entered (client : sockaddr_in) (m m' : msrp_database) : Prop := {
  en_same : ms_same m m';
  en_known : client_lookup (clients (ms_mrp_db m')) (Some client) = true
}.

(** A command of an admitted client is dispatched. *)
Lemma ms_admit_wp text client m fr ms (Q : Z -> msrp_world -> Prop) :
  ms_admitted client m -> malloc_ok E -> (3 <= length text)%nat -> nth 0 text 0 = 83 \/ nth 0 text 0 = 73 ->
  (forall m1, ms_entered client m m1 ->
     safe (ms_dispatch E p2pmac STATION_ADDR text client (enable_pruning m)) Q (ms_at_db m1 fr ms)) ->
  safe (msrp_recv_cmd E p2pmac STATION_ADDR text client) Q (ms_at_db m fr ms).
Proof using.
  intros Hadm HM Hl H0 HQ.
  apply wp_bind, wp_gets. cbn [MSRP_db]. apply wp_bind, ms_add_client_wp. intros m1 Hsm Hcl. specialize (Hcl HM).
  apply wp_bind, ms_the_db_wp. rewrite (ss_pruning _ _ Hsm).
  assert (Hone : enable_pruning m && (1 <? mrp_client_count (clients (ms_mrp_db m1))) = false).
  { destruct (enable_pruning m) eqn:Hpr; [|done]. specialize (Hadm Hpr). cbn [andb]. apply Z.ltb_ge. unfold mrp_client_count.
    rewrite Hcl. destruct (client_lookup _ _); [|rewrite length_app; cbn [length]]; clear -Hadm; lia. }
  rewrite Hone. destruct (Nat.ltb_spec (length text) 3) as [Hlt|_]; [clear -Hlt Hl; lia|].
  assert (Hc : negb (nth 0 text 0 =? 83) && negb (nth 0 text 0 =? 73) = false) by (by destruct H0 as [-> | ->]).
  rewrite Hc. apply HQ. constructor; [done|]. rewrite Hcl.
  destruct (client_lookup (clients (ms_mrp_db m)) (Some client)) eqn:Hk; [done|].
  rewrite client_lookup_spec, fmap_app. apply elem_of_app. right. by constructor.
Qed.

Lemma request_terminated text e q : ms_request text e q -> terminated MAX_MRPD_CMDSZ text = true.
Proof using. intros []; apply command_terminated. Qed.

(** A request of an admitted client reaches its event. *)
Lemma ms_recv_request_wp text e q client m fr ms :
  ms_Inv m -> ms_admitted client m -> ms_request text e q -> malloc_ok E ->
  safe (msrp_recv_cmd E p2pmac STATION_ADDR text client)
    (fun rc w => rc = 0 /\ exists m' fr' ms', w = ms_at_db m' fr' ms' /\ ms_Inv m' /\
       client_lookup (clients (ms_mrp_db m')) (Some client) = true /\ interesting m' = interesting m /\
       ms_table (ms_list m') = ms_spec_event p2pmac (enable_pruning m) (interesting m) e (Some q) (ms_table (ms_list m)))
    (ms_at_db m fr ms).
Proof using HT HR Hst.
  intros HI Hadm Hrq HM. destruct (request_dispatch client (enable_pruning m) text e q Hrq) as (v&op&sub&->&He&Hv&Hs&Hd&Hl&H0).
  apply ms_admit_wp; [done..|by left|]. intros m1 [Hsm Hcl].
  pose proof (ms_interesting_same _ _ Hsm) as HX1. destruct Hsm as [Hlist _ Hp HI1]. specialize (HI1 HI).
  rewrite Hd. apply ms_perform_wp; [by eapply request_terminated|by intros _; eapply request_terminated|done|]. intros _. apply ms_cmd_value_wp; [done..|].
  intros z m2 fr2 ms2 Hs2 Hdone. destruct (Hdone HM) as [-> Ht]. exists m2, fr2, ms2. split; [done|]. intros ms3.
  split; [done|]. exists m2, fr2, ms3. destruct Hs2 as [HI2 Hk2]. split_and!; [done|done| | |].
  - by rewrite (proj1 (mk_config _ _ Hk2)).
  - by rewrite (ms_kept_interesting _ _ Hk2).
  - by rewrite Ht, Hlist, HX1, Hp.
Qed.

(** S-L: the listener's declaration is withdrawn with the substate it has. *)
Lemma ms_recv_withdraw_wp id pad client m fr ms :
  ms_Inv m -> ms_admitted client m -> octets 8 id -> malloc_ok E ->
  safe (msrp_recv_cmd E p2pmac STATION_ADDR (ms_command "S-L:" [param "L" parse_c64] [BytesValue id] pad) client)
    (fun rc w => rc = 0 /\ exists m' fr' ms', w = ms_at_db m' fr' ms' /\ ms_Inv m' /\ interesting m' = interesting m /\
       ms_table (ms_list m') =
         ms_spec_withdraw p2pmac (enable_pruning m) (interesting m) (stream id) (known_substate id (ms_list m)) (ms_table (ms_list m)))
    (ms_at_db m fr ms).
Proof using HT HR Hst.
  intros HI Hadm Hid HM. set (text := ms_command _ _ _ _).
  assert (Hparse : msrp_cmd_parse_withdraw_listener_status text = (0, stream id)).
  { unfold msrp_cmd_parse_withdraw_listener_status, text at 1. rewrite (command_length _ 83 45 76) by done.
    cbn [params_text]. rewrite length_app. cbn [param_type param]. rewrite (octets_text 8) by done. cbn [length param_name].
    match goal with |- context[?x <? 22] => destruct (Z.ltb_spec x 22) as [Hlt|_] end; [exfalso; clear -Hlt; cbn in Hlt; lia|].
    unfold text. destruct Hid. rewrite (command_parse "S-L:" 83 45 76) by (done || (clear Hst; printed)). done. }
  assert (Hl : (3 <= length text)%nat) by (unfold text; rewrite (command_length _ 83 45 76) by done; clear; lia).
  apply ms_admit_wp; [done..|by left|]. intros m1 [Hsm _].
  pose proof (ms_interesting_same _ _ Hsm) as HX1. destruct Hsm as [Hlist _ Hp HI1]. specialize (HI1 HI).
  change (ms_dispatch E p2pmac STATION_ADDR text client (enable_pruning m))
    with (let '(rc, t) := msrp_cmd_parse_withdraw_listener_status text in
          ms_perform client text (command_left 22 text [param "L" parse_c64]) rc (ms_cmd_withdraw E p2pmac STATION_ADDR t)).
  rewrite Hparse. apply ms_perform_wp; [apply command_terminated|done|done|]. intros _. apply ms_cmd_withdraw_wp; [done..|by apply stream_ok|].
  intros z m2 fr2 ms2 [HI2 Hk2] Hd. destruct (Hd HM) as [-> Ht]. exists m2, fr2, ms2. split; [done|]. intros ms3. split; [done|].
  exists m2, fr2, ms3. split_and!; [done|done|by rewrite (ms_kept_interesting _ _ Hk2)|]. by rewrite Ht, Hlist, HX1, Hp.
Qed.

(** ** Pruning *)

Definition interest_command (op : string) (id : list Z) (pad : nat) : list Z :=
  ms_command op [param "S" parse_c64] [BytesValue id] pad.

Lemma parse_interest op a b c id pad :
  str op = [a; b; c; 58] -> octets 8 id -> msrp_cmd_parse_stream_id (interest_command op id pad) = (0, id).
Proof using.
  intros Hop Hid. unfold msrp_cmd_parse_stream_id, interest_command at 1. rewrite (command_length _ a b c) by done.
  cbn [params_text]. rewrite length_app. cbn [param_type param]. rewrite (octets_text 8) by done. cbn [length param_name].
  match goal with |- context[?x <? ?k] => destruct (Z.ltb_spec x k) as [Hlt|_] end; [exfalso; clear -Hlt; cbn in Hlt; lia|].
  unfold interest_command. destruct Hid. rewrite (command_parse op a b c) by (done || (clear Hst; printed)). done.
Qed.

(** I+S: the stream is added to the set unless it is there or the set is full. *)
Lemma ms_recv_interesting_wp id pad client m fr ms :
  ms_Inv m -> enable_pruning m = true -> ms_admitted client m -> octets 8 id -> malloc_ok E ->
  let v := be_val id in let X := interesting m in
  let room := bool_decide (v ∉ X) && (Z.of_nat (size X) <? capacity m) in
  safe (msrp_recv_cmd E p2pmac STATION_ADDR (interest_command "I+S:" id pad) client)
    (fun rc w => rc = (if room then 0 else -1) /\ exists m' ms', w = ms_at_db m' fr ms' /\ ms_Inv m' /\
       ms_list m' = ms_list m /\ interesting m' = if room then {[+ v +]} ⊎ X else X) (ms_at_db m fr ms).
Proof using.
  intros HI Hpr Hadm Hid HM v X room. set (text := interest_command _ _ _).
  assert (Hl : (3 <= length text)%nat) by (unfold text, interest_command; rewrite (command_length _ 73 43 83) by done; clear; lia).
  apply ms_admit_wp; [done..|by right|]. intros m1 [Hsm _]. rewrite Hpr.
  pose proof (ms_interesting_same _ _ Hsm) as HX1. destruct Hsm as [Hlist Hids Hp HI1]. specialize (HI1 HI).
  change (ms_dispatch E p2pmac STATION_ADDR text client true)
    with (let '(rc, id) := msrp_cmd_parse_stream_id text in
      ms_perform client text (command_left 20 text [param "S" parse_c64]) rc (ms_cmd_interesting id)).
  unfold text at 1. rewrite (parse_interest "I+S:" 73 43 83) by done. apply ms_perform_wp; [apply command_terminated|done|done|]. intros _.
  apply ms_cmd_interesting_wp; [done..|]. intros m2 HI2 Hl2 _ _. unfold capacity. rewrite HX1, Hids. fold (capacity m) X v.
  fold room. cbv zeta. intros HX2. exists m2, fr, ms. split; [done|]. intros ms'. split; [by destruct room|].
  exists m2, ms'. split_and!; [done..|by rewrite Hl2|done].
Qed.

(** I-S: the stream is taken out of the set, and its talkers out of the table unless
    a listener of the stream is known. *)
Lemma ms_recv_uninteresting_wp id pad client m fr ms :
  ms_Inv m -> enable_pruning m = true -> ms_admitted client m -> octets 8 id -> malloc_ok E ->
  let v := be_val id in let X := interesting m in let tab := ms_table (ms_list m) in
  safe (msrp_recv_cmd E p2pmac STATION_ADDR (interest_command "I-S:" id pad) client)
    (fun rc w => rc = (if bool_decide (v ∈ X) then 0 else -1) /\ exists m' ms', w = ms_at_db m' fr ms' /\ ms_Inv m' /\
       interesting m' = (if bool_decide (v ∈ X) then X ∖ {[+ v +]} else X) /\
       ms_table (ms_list m') = if bool_decide (v ∈ X) && bool_decide (tab !! KListener id = None)
                               then delete (KTalker id) tab else tab) (ms_at_db m fr ms).
Proof using.
  intros HI Hpr Hadm Hid HM v X tab. set (text := interest_command _ _ _).
  assert (Hl : (3 <= length text)%nat) by (unfold text, interest_command; rewrite (command_length _ 73 45 83) by done; clear; lia).
  apply ms_admit_wp; [done..|by right|]. intros m1 [Hsm _]. rewrite Hpr.
  pose proof (ms_interesting_same _ _ Hsm) as HX1. destruct Hsm as [Hlist Hids Hp HI1]. specialize (HI1 HI).
  change (ms_dispatch E p2pmac STATION_ADDR text client true)
    with (let '(rc, id) := msrp_cmd_parse_stream_id text in
      ms_perform client text (command_left 20 text [param "S" parse_c64]) rc (ms_cmd_uninteresting id)).
  unfold text at 1. rewrite (parse_interest "I-S:" 73 45 83) by done. apply ms_perform_wp; [apply command_terminated|done|done|]. intros _.
  apply ms_cmd_uninteresting_wp; [done..|]. intros m2 HI2 _ _. rewrite HX1, Hlist. fold X v tab. cbv zeta. intros HX2 Ht2.
  exists m2, fr, ms. split; [done|]. intros ms'. split; [by destruct (bool_decide (v ∈ X))|]. by exists m2, ms'.
Qed.

(** Another client is turned away. *)
Lemma ms_second_client_wp text client c0 m fr ms :
  ms_Inv m -> enable_pruning m = true -> clients (ms_mrp_db m) = [c0] -> sin_port client <> sin_port c0 -> malloc_ok E ->
  safe (msrp_recv_cmd E p2pmac STATION_ADDR text client)
    (fun rc w => rc = -1 /\ exists m', w = ms_at_db m' fr (ms ++ [(client, str "ERR pruning enabled too many clients" ++ newline)]) /\
       ms_Inv m' /\ clients (ms_mrp_db m') = [c0] /\ ms_list m' = ms_list m /\ interesting m' = interesting m)
    (ms_at_db m fr ms).
Proof using.
  intros HI Hp Hc Hport HM. apply wp_bind, wp_gets. cbn [MSRP_db]. apply wp_bind, ms_add_client_wp. intros m1 Hsm Hcl.
  specialize (Hcl HM). rewrite Hc in Hcl. cbn [client_lookup] in Hcl.
  rewrite (proj2 (Z.eqb_neq (sin_port c0) (sin_port client))) in Hcl by congruence. cbn [app] in Hcl.
  pose proof (ms_interesting_same _ _ Hsm) as HX1. destruct Hsm as [Hlist _ Hp1 HI1]. specialize (HI1 HI).
  apply wp_bind, ms_the_db_wp. rewrite Hp1, Hp, Hcl. cbn [andb mrp_client_count length Z.of_nat Z.ltb Z.compare Pos.compare Pos.compare_cont Pos.of_succ_nat Pos.succ].
  apply wp_bind, ms_upd_mrp_wp, wp_bind, wp_modify, wp_ret. split; [done|]. eexists. split; [done|]. split_and!.
  - apply (ss_inv _ _ (ms_clients_same _ m1)), HI1.
  - cbn [ms_mrp_db ms_set_mrp clients set_clients mrp_client_delete snd]. rewrite Hcl.
    apply (delete_client_snoc [c0]). rewrite list_elem_of_singleton. congruence.
  - exact Hlist.
  - exact HX1.
Qed.

End Requests.
