(* ===== verification/MsrpCorrect.v ===== *)
(** * MSRP: theorems

    The properties of daemons/mrpd/msrp.c, each with an instance at concrete stations. *)

From stdpp Require Import gmultiset.
From S2P Require Import Prelude.
From S2P Require Import CText.
From S2P Require Import Mrp.
From S2P Require Import MrpTheory.
From S2P Require Import Parse.
From S2P Require Import Mvrp.
From S2P Require Import MvrpTheory.
From S2P Require Import MvrpEvent.
From S2P Require Import MvrpWire.
From S2P Require Import MvrpPeer.
From S2P Require Import MvrpCmd.
From S2P Require Import Mmrp.
From S2P Require Import MmrpTheory.
From S2P Require Import ParseTheory.
From S2P Require Import EuiSet.
From S2P Require Import Msrp.
From S2P Require Import MsrpRun.
From S2P Require Import MsrpTheory.
From S2P Require Import MsrpEvent.
From S2P Require Import MsrpRecv.
From S2P Require Import MsrpWire.
From S2P Require Import MsrpCmd.
From S2P Require Import MsrpRequest.
From Stdlib Require Import String.

Open Scope Z_scope.
Local Abbreviation length := List.length.

(** ** Concrete stations *)

(** An attribute between events. *)
Definition ms_resting (r : ms_record) : msrp_attribute :=
  mkMs (r_value r) (r_substate r) (r_operation r)
    (mkApplicant (r_states r).1 false SND_NULL ENCODE_OPTIONAL (Some (r_states r).1))
    (mkRegistrar (r_states r).2 NOTIFY_NONE (replicate 6 0) None).

(** A station with no interesting streams. *)
Definition ms_station (pruning : bool) (l : list ms_record) : msrp_database :=
  mkMsrpDb joining (ms_resting <$> l) false (snd (eui64set_init 8 true)) pruning.

Definition stream_id (block i : nat) : list Z := [0x00; 0x1b; 0x21; 0; 0; Z.of_nat block; 0; Z.of_nat i].

Definition talk (block i : nat) : talk_listen :=
  mkTalk (stream_id block i) [0x91; 0xe0; 0xf0; 0; Z.of_nat block; Z.of_nat i] 2 84 1 0x70 3900 (replicate 8 0) 0.

Definition out_of_bandwidth (t : talk_listen) : talk_listen :=
  mkTalk (StreamID t) (Dest_Addr t) (Vlan_ID t) (MaxFrameSize t) (MaxIntervalFrames t) (PriorityAndRank t)
    (AccumulatedLatency t) [1; 2; 3; 4; 5; 6; 7; 8] 1.

Definition declared (v : msrp_value) (sub : Z) (a : applicant_state) : ms_record := mkRec v sub OPERATION_DECLARE (a, MT).
Definition registered (v : msrp_value) (sub : Z) : ms_record := mkRec v sub OPERATION_REGISTER (VO, IN).

(** Decidable conditions for [ms_Inv] at a station at rest. *)
Definition octetsb (n : nat) (b : list Z) : bool := forallb (fun x => (0 <=? x) && (x <? 256)) b && (length b =? n)%nat.
Definition belowb (n v : Z) : bool := (0 <=? v) && (v <? n).

Definition talk_okb (t : talk_listen) : bool :=
  octetsb 8 (StreamID t) && octetsb 6 (Dest_Addr t) && belowb 65536 (Vlan_ID t) && belowb 65536 (MaxFrameSize t) &&
  belowb 65536 (MaxIntervalFrames t) && belowb 256 (PriorityAndRank t) && belowb 4294967296 (AccumulatedLatency t) &&
  octetsb 8 (BridgeID t) && belowb 256 (FailureCode t).

Definition ms_value_okb (v : msrp_value) : bool :=
  match v with
  | TalkerAdv t | TalkerFailed t | Listener t => talk_okb t
  | Domain d => belowb 256 (SRclassID d) && belowb 256 (SRclassPriority d) && belowb 256 (neighborSRclassPriority d) &&
                belowb 65536 (SRclassVID d)
  end.

Definition ms_record_okb (r : ms_record) : bool :=
  ms_value_okb (r_value r) && belowb 4294967296 (r_substate r) && negb (bool_decide ((r_states r).2 = LV)).

Lemma forallb_Forall {A} (f : A -> bool) (P : A -> Prop) l :
  (forall x, f x = true -> P x) -> forallb f l = true -> Forall P l.
Proof.
  intros HP Hf. rewrite forallb_forall in Hf. apply Forall_forall. intros x Hx. by apply HP, Hf, list_elem_of_In.
Qed.

Lemma belowb_ok n v : belowb n v = true -> 0 <= v < n.
Proof. intros [?%Z.leb_le ?%Z.ltb_lt]%andb_prop. lia. Qed.

Lemma octetsb_ok n b : octetsb n b = true -> octets n b.
Proof.
  intros [Hb Hl%Nat.eqb_eq]%andb_prop. split; [|done]. eapply forallb_Forall; [|exact Hb]. intros x. apply (belowb_ok 256).
Qed.

Lemma talk_okb_ok t : talk_okb t = true -> talk_ok t.
Proof.
  unfold talk_okb. rewrite !andb_true_iff. intros ((((((((?&?)&?)&?)&?)&?)&?)&?)&?).
  constructor; (by apply octetsb_ok) || (by apply belowb_ok).
Qed.

Lemma ms_value_okb_ok v : ms_value_okb v = true -> ms_value_ok v.
Proof.
  destruct v; cbn; try apply talk_okb_ok. rewrite !andb_true_iff. intros (((?&?)&?)&?).
  split_and!; by apply belowb_ok.
Qed.

Lemma ms_station_Inv pruning l :
  forallb ms_record_okb l = true -> bool_decide (NoDup ((fun r => key_of (r_value r)) <$> l)) = true ->
  ms_Inv (ms_station pruning l).
Proof.
  intros Hl Hk%bool_decide_eq_true. rewrite forallb_forall in Hl.
  assert (Hok : forall r, r ∈ l -> ms_value_ok (r_value r) /\ is_u32 (r_substate r) /\ (r_states r).2 <> LV).
  { intros r Hr%list_elem_of_In%Hl. unfold ms_record_okb in Hr. rewrite !andb_true_iff in Hr. destruct Hr as ((?&?)&Hs).
    split_and!; [by apply ms_value_okb_ok|by apply belowb_ok|]. by apply negb_true_iff, bool_decide_eq_false in Hs. }
  constructor; [constructor| |done]; cbn [ms_list ms_mrp_db ms_station interesting_stream_ids].
  - by rewrite <- list_fmap_compose.
  - apply Forall_fmap, Forall_forall. intros r Hr. destruct (Hok r Hr) as (?&?&_). constructor; [done..|].
    split; [by repeat constructor|done].
  - apply joining_armed.
  - apply Forall_fmap, Forall_forall. intros r Hr HLV. by destruct (Hok r Hr) as (_&_&[]).
  - exists []. by destruct (init_holds 8).
  - apply Forall_fmap, Forall_forall. by intros r _.
Qed.

(** A talker of two neighbouring streams that listens to a third, with its domain. *)
Definition talker_station : msrp_database :=
  ms_station false [declared (TalkerAdv (talk 1 10)) 0 VN; declared (TalkerAdv (talk 1 11)) 0 VN;
    declared (Listener (stream (stream_id 2 1))) LISTENER_READY AA;
    mkRec (Domain (mkDomain 6 3 3 2)) 0 OPERATION_REGISTER (VP, MT)].

(** A listener that has registered the third stream's talker, with pruning. *)
Definition listener_station : msrp_database := ms_station true [declared (Listener (stream (stream_id 1 10))) LISTENER_READY VN].

Lemma talker_station_Inv : ms_Inv talker_station.
Proof. apply ms_station_Inv; by vm_compute. Qed.

Lemma listener_station_Inv : ms_Inv listener_station.
Proof. apply ms_station_Inv; by vm_compute. Qed.

(** ** Events *)

(** C20: [msrp_event] implements the abstract machine and keeps its database
    consistent.  From a consistent database (one attribute per key with fields in their
    widths, timers armed as marked, a leave timer for every leaving attribute, a sorted
    set of interesting streams, no notification pending), any event with a freshly
    allocated attribute runs without a fault, ends in a consistent database with the same
    clients and the same interesting streams, and, as long as memory is available,
    changes the table exactly as [ms_spec_event] says: applicant and registrar, the
    switch between talker advertise and talker failed, listener substates, domains, and
    the talkers pruned.  The events that transmit need at most 48 attributes. *)
Theorem msrp_event_refines {C : CSort} E p2pmac addr e ro m fr ms :
  timers_ok E -> random_ok E -> length addr = 6%nat ->
  ms_Inv m -> (forall r, ro = Some r -> ms_is_fresh r) -> (e = EVENT_TX \/ e = EVENT_LVATIMER -> ms_fits m) ->
  wp (fun _ => False) (msrp_event E p2pmac addr e ro)
    (fun _ w => exists m' fr' ms', w = ms_at_db m' fr' ms' /\ ms_Inv m' /\
       clients (ms_mrp_db m') = clients (ms_mrp_db m) /\ interesting m' = interesting m /\
       (malloc_ok E -> ms_table (ms_list m') =
          ms_spec_event p2pmac (enable_pruning m) (interesting m) e (ms_core <$> ro) (ms_table (ms_list m))))
    (ms_at_db m fr ms).
Proof.
  intros HT HR Ha HI Hro Hf. eapply wp_mono; [by apply msrp_event_wp|].
  intros z w (m'&fr'&ms'&->&HI'&Ht&Hk). exists m', fr', ms'. split_and!; [done..| |by apply ms_kept_interesting|done].
  apply (mk_config _ _ Hk).
Qed.

(** The bandwidth for a stream the station advertises is lost. *)
Definition lost_bandwidth : msrp_attribute :=
  ms_set_operation OPERATION_DECLARE (ms_fresh (TalkerFailed (out_of_bandwidth (talk 1 10)))).

Lemma msrp_event_refines_witness :
  wp (fun _ => False) (msrp_event os0 1 addr_a EVENT_NEW (Some lost_bandwidth))
    (fun _ w => exists m' fr' ms', w = ms_at_db m' fr' ms' /\ ms_Inv m' /\
       clients (ms_mrp_db m') = clients (ms_mrp_db talker_station) /\ interesting m' = interesting talker_station /\
       (malloc_ok os0 -> ms_table (ms_list m') =
          ms_spec_event 1 false (interesting talker_station) EVENT_NEW (ms_core <$> Some lost_bandwidth)
            (ms_table (ms_list talker_station))))
    (ms_at_db talker_station [] []).
Proof.
  refine (msrp_event_refines os0 1 addr_a EVENT_NEW (Some lost_bandwidth) talker_station [] [] _ _ _ talker_station_Inv _ _).
  - exact (proj1 os0_ok).
  - exact (proj1 (proj2 os0_ok)).
  - reflexivity.
  - intros r [= <-]. split; [|done]. constructor; [by apply ms_value_okb_ok|cbn; unfold is_u32; lia|by apply octetsb_ok].
  - intros [H | H]; discriminate H.
Defined.

(** 24 neighbouring talker advertises, 68 separate ones and a failed talker. *)
Definition crowd : msrp_database :=
  ms_station false (map (fun v => declared v 0 VN)
    (map (fun i => TalkerAdv (talk 0 i)) (seq 0 24) ++ map (fun i => TalkerAdv (talk 1 (2 * i))) (seq 0 68) ++
     [TalkerFailed (out_of_bandwidth (talk 2 0))])).

(** The emitters measure the room from the start of the message.
    [msrp_emit_talkervectors] compares the end of the buffer with the start of its
    message before it writes the first value of a vector and not with the place it
    writes to.  At a consistent station with 93 declarations the message of the talker
    failed begins 40 bytes before the end of the 2000 byte transmit buffer and the
    transmission writes beyond the end. *)
Theorem msrp_transmission_overflows :
  ms_Inv crowd /\ length (ms_list crowd) = 93%nat /\
  msrp_event os0 1 addr_a EVENT_TX None (ms_at_db crowd [] []) = Fault OutOfBounds.
Proof. split_and!; [apply ms_station_Inv; by vm_compute|by vm_compute|by vm_compute]. Qed.

(** ** Frames *)

(** C22: [msrp_recv_msg] is safe on any frame.  Whatever bytes arrive, in any number up
    to forty less than the receive buffer holds, they are parsed without reading outside
    the buffer, every loop ends, and the database is consistent afterwards, with the same
    clients and interesting streams. *)
Theorem msrp_recv_msg_safe {C : CSort} E p2pmac addr frame m fr ms :
  timers_ok E -> random_ok E -> length addr = 6%nat ->
  ms_Inv m -> bytes frame -> (length frame + 40 <= MAX_FRAME_SIZE)%nat ->
  wp (fun _ => False) (msrp_recv_msg E p2pmac addr frame)
    (fun _ w => exists m' fr' ms', w = ms_at_db m' fr' ms' /\ ms_Inv m' /\
       clients (ms_mrp_db m') = clients (ms_mrp_db m) /\ interesting m' = interesting m) (ms_at_db m fr ms).
Proof.
  intros HT HR Ha HI Hb Hl. eapply wp_mono; [by apply msrp_recv_msg_wp|].
  intros z w (m'&fr'&ms'&->&[HI' Hk]). exists m', fr', ms'. split_and!; [done..| |by apply ms_kept_interesting].
  apply (mk_config _ _ Hk).
Qed.

(** A frame that announces 200 failed talkers and ends. *)
Definition ms_truncated : list Z :=
  ms_eth_header addr_b ++ [type_code TALKER_FAILED; 34; 0x00; 0x25; 0x00; 0xc8; 0x00; 0x1b; 0x21].

Lemma msrp_recv_msg_safe_witness :
  wp (fun _ => False) (msrp_recv_msg os0 1 addr_a ms_truncated)
    (fun _ w => exists m' fr' ms', w = ms_at_db m' fr' ms' /\ ms_Inv m' /\
       clients (ms_mrp_db m') = clients (ms_mrp_db talker_station) /\ interesting m' = interesting talker_station)
    (ms_at_db talker_station [] []).
Proof.
  refine (msrp_recv_msg_safe os0 1 addr_a ms_truncated talker_station [] [] _ _ _ talker_station_Inv _ _).
  - exact (proj1 os0_ok).
  - exact (proj1 (proj2 os0_ok)).
  - reflexivity.
  - apply (octetsb_ok (length ms_truncated)). vm_compute. reflexivity.
  - unfold MAX_FRAME_SIZE. cbn. lia.
Defined.

(** C23: the messages of a PDU are applied in order.  A frame with any number of
    well-formed messages, each with any number of vectors of talker advertises, talker
    failures, listeners with their substates or domains, is accepted; the first LeaveAll
    of each type is applied to the attributes of that type, and each vector then applies
    one event per consecutive stream or class, with its substate, pruning talkers that
    are not of interest. *)
Theorem msrp_recv_msg_applies_messages {C : CSort} E p2pmac addr src msgs m fr ms :
  station E addr -> octets 6 src -> ms_Inv m -> Forall ms_message_ok msgs ->
  (length (ms_pdu src msgs) <= MAX_FRAME_SIZE)%nat ->
  wp (fun _ => False) (msrp_recv_msg E p2pmac addr (ms_pdu src msgs))
    (fun rc w => rc = 0 /\ exists m' fr' ms', w = ms_at_db m' fr' ms' /\ ms_Inv m' /\
       ms_table (ms_list m') =
         ms_rx_messages p2pmac (enable_pruning m) (interesting m) msgs [] (ms_table (ms_list m))) (ms_at_db m fr ms).
Proof.
  intros [HT HR HM Ha _] Hsrc HI HF Hl.
  eapply wp_mono; [by apply (ms_recv_pdu_wp E p2pmac addr HT HR HM Ha src Hsrc (enable_pruning m) (interesting m))|].
  intros rc w (->&m'&fr'&ms'&->&[HI' _]&Ht). split; [done|]. by exists m', fr', ms'.
Qed.

(** Decidable conditions for [ms_vector_ok]. *)
Definition ms_vector_okb (t : msrp_type) (g : ms_vector) : bool :=
  ms_value_okb (sv_first g) && bool_decide (value_type (sv_first g) = t) && forallb (belowb 6) (sv_events g) &&
  belowb 8191 (Z.of_nat (length (sv_events g)) - 1) &&
  (if decide (t = LISTENER) then bool_decide (length (sv_subs g) = length (sv_events g)) && forallb (belowb 4) (sv_subs g)
   else bool_decide (sv_subs g = [])).

Lemma ms_vector_okb_ok t g : ms_vector_okb t g = true -> ms_vector_ok t g.
Proof.
  unfold ms_vector_okb. rewrite !andb_true_iff, bool_decide_eq_true. intros ((((Hv&Ht)&He)&Hn%belowb_ok)&Hs).
  split_and!; [by apply ms_value_okb_ok|done| |lia..|].
  - eapply forallb_Forall; [|exact He]. intros x Hx%belowb_ok. unfold is_evt. lia.
  - destruct (decide (t = LISTENER)); [|by apply bool_decide_eq_true in Hs].
    apply andb_true_iff in Hs as [Hl%bool_decide_eq_true Hs]. split; [done|].
    eapply forallb_Forall; [|exact Hs]. intros x Hx%belowb_ok. unfold is_sub. lia.
Qed.

(** New for two streams and JoinMt for a third, a listener that is ready, a domain with
    LeaveAll. *)
Definition sent_messages : list (msrp_type * list ms_vector) :=
  [(DOMAIN, [mkMsVector true (Domain (mkDomain 6 3 3 2)) [1] []]);
   (TALKER_ADV, [mkMsVector false (TalkerAdv (talk 1 10)) [0; 0] []; mkMsVector false (TalkerAdv (talk 2 7)) [3] []]);
   (LISTENER, [mkMsVector false (Listener (stream (stream_id 3 1))) [1] [LISTENER_READY]])].

Lemma msrp_recv_msg_applies_messages_witness :
  wp (fun _ => False) (msrp_recv_msg os0 1 addr_b (ms_pdu addr_a sent_messages))
    (fun rc w => rc = 0 /\ exists m' fr' ms', w = ms_at_db m' fr' ms' /\ ms_Inv m' /\
       ms_table (ms_list m') =
         ms_rx_messages 1 true (interesting listener_station) sent_messages [] (ms_table (ms_list listener_station)))
    (ms_at_db listener_station [] []).
Proof.
  refine (msrp_recv_msg_applies_messages os0 1 addr_b addr_a sent_messages listener_station [] [] addr_b_ok _ listener_station_Inv _ _).
  - by apply octetsb_ok.
  - repeat (first [apply Forall_nil_2|apply Forall_cons_2; [split; [|done]|]]); cbn [fst snd];
      repeat (first [apply Forall_nil_2|apply Forall_cons_2; [by apply ms_vector_okb_ok|]]).
  - apply Nat.leb_le. vm_compute. reflexivity.
Defined.

(** The result of [msrp_recv_msg] and the streams and states it leaves. *)
Definition ms_received (pruning : bool) (l : list ms_record) (frame : list Z)
  : outcome (Z * list (msrp_key * Z * entry)) :=
  '(rc, w) ← msrp_recv_msg os0 1 addr_b frame (ms_at_db (ms_station pruning l) [] []);
  Ok (rc, match MSRP_db w with
          | MsDb m => map (fun x => (ms_key x, ms_substate x, ms_states x)) (ms_list m)
          | _ => []
          end).

(** Six talker advertises from a stream on, with the given bytes of events. *)
Definition six_talkers (first : talk_listen) (events : list Z) : list Z :=
  ms_eth_header addr_a ++ [type_code TALKER_ADV; 25; 0; 31] ++ be_bytes 2 6 ++ talk_bytes first ++ events ++ [0; 0; 0; 0].

(** A byte of events that is out of range shifts the streams behind it.
    [msrp_recv_msg] skips a byte above the largest packed value without moving the stream
    identifier on, so of six streams from 10 on, whose first three have an invalid byte,
    the Join of the streams 13 to 15 is registered for the streams 10 to 12. *)
Theorem msrp_invalid_byte_shifts_streams :
  ms_received false [] (six_talkers (talk 1 10) [255; encode3 [1; 1; 1]]) =
    Ok (0, [(KTalker (stream_id 1 10), 0, (VO, IN)); (KTalker (stream_id 1 11), 0, (VO, IN));
            (KTalker (stream_id 1 12), 0, (VO, IN))]) /\
  ms_received false [] (six_talkers (talk 1 10) [encode3 [4; 4; 4]; encode3 [1; 1; 1]]) =
    Ok (0, [(KTalker (stream_id 1 13), 0, (VO, IN)); (KTalker (stream_id 1 14), 0, (VO, IN));
            (KTalker (stream_id 1 15), 0, (VO, IN))]).
Proof. split; vm_compute; reflexivity. Qed.

(** ** Commands *)

Definition client_1 : sockaddr_in := mkSockaddr 2 7500 1 [].
Definition client_2 : sockaddr_in := mkSockaddr 2 7501 1 [].




(** The set of interesting streams.  With pruning, I+S: adds a stream that is not in
    the set as long as the set has room, and is refused otherwise; I-S: removes a stream
    of the set, and forgets its talker unless a listener of the stream is known.  The
    other attributes stay. *)
Theorem msrp_interest_commands {C : CSort} E p2pmac addr id pad client m fr ms :
  station E addr -> ms_Inv m -> enable_pruning m = true -> ms_admitted client m -> octets 8 id ->
  let v := be_val id in let X := interesting m in let tab := ms_table (ms_list m) in
  let room := bool_decide (v ∉ X) && (Z.of_nat (size X) <? capacity m) in
  wp (fun _ => False) (msrp_recv_cmd E p2pmac addr (interest_command "I+S:" id pad) client)
    (fun rc w => rc = (if room then 0 else -1) /\ exists m' ms', w = ms_at_db m' fr ms' /\ ms_Inv m' /\
       ms_list m' = ms_list m /\ interesting m' = if room then {[+ v +]} ⊎ X else X) (ms_at_db m fr ms) /\
  wp (fun _ => False) (msrp_recv_cmd E p2pmac addr (interest_command "I-S:" id pad) client)
    (fun rc w => rc = (if bool_decide (v ∈ X) then 0 else -1) /\ exists m' ms', w = ms_at_db m' fr ms' /\ ms_Inv m' /\
       interesting m' = (if bool_decide (v ∈ X) then X ∖ {[+ v +]} else X) /\
       ms_table (ms_list m') = if bool_decide (v ∈ X) && bool_decide (tab !! KListener id = None)
                               then delete (KTalker id) tab else tab) (ms_at_db m fr ms).
Proof.
  intros [HT HR HM Ha _] HI Hp Hadm Hid. split.
  - by apply ms_recv_interesting_wp.
  - by apply ms_recv_uninteresting_wp.
Qed.

Lemma msrp_interest_commands_witness :
  wp (fun _ => False) (msrp_recv_cmd os0 1 addr_a (interest_command "I+S:" (stream_id 4 2) 3) client_1)
    (fun rc w => rc = 0 /\ exists m' ms', w = ms_at_db m' [] ms' /\ ms_Inv m' /\
       ms_list m' = ms_list listener_station /\
       interesting m' = {[+ be_val (stream_id 4 2) +]} ⊎ interesting listener_station) (ms_at_db listener_station [] []).
Proof.
  refine (proj1 (msrp_interest_commands os0 1 addr_a (stream_id 4 2) 3 client_1 listener_station [] []
            addr_a_ok listener_station_Inv eq_refl _ _)).
  - intros _. cbn. lia.
  - by apply octetsb_ok.
Defined.

(** With pruning there is one client.  While a client is known, whatever another
    client sends is answered with an error and changes nothing. *)
Theorem msrp_second_client_rejected {C : CSort} E p2pmac addr text client c0 m fr ms :
  malloc_ok E -> ms_Inv m -> enable_pruning m = true -> clients (ms_mrp_db m) = [c0] -> sin_port client <> sin_port c0 ->
  wp (fun _ => False) (msrp_recv_cmd E p2pmac addr text client)
    (fun rc w => rc = -1 /\ exists m',
       w = ms_at_db m' fr (ms ++ [(client, str "ERR pruning enabled too many clients" ++ newline)]) /\
       ms_Inv m' /\ clients (ms_mrp_db m') = [c0] /\ ms_list m' = ms_list m /\ interesting m' = interesting m)
    (ms_at_db m fr ms).
Proof. intros. by apply ms_second_client_wp. Qed.

Definition occupied : msrp_database := ms_set_mrp (set_clients [client_1] joining) listener_station.

Lemma msrp_second_client_rejected_witness :
  wp (fun _ => False) (msrp_recv_cmd os0 1 addr_a (interest_command "I+S:" (stream_id 4 2) 3) client_2)
    (fun rc w => rc = -1 /\ exists m',
       w = ms_at_db m' [] ([] ++ [(client_2, str "ERR pruning enabled too many clients" ++ newline)]) /\
       ms_Inv m' /\ clients (ms_mrp_db m') = [client_1] /\ ms_list m' = ms_list occupied /\ interesting m' = interesting occupied)
    (ms_at_db occupied [] []).
Proof.
  refine (msrp_second_client_rejected os0 1 addr_a _ client_2 client_1 occupied [] [] _ _ eq_refl eq_refl _).
  - exact (proj2 (proj2 os0_ok)).
  - exact (ss_inv _ _ (ms_clients_same [client_1] listener_station) listener_station_Inv).
  - discriminate.
Defined.

Definition ms_listen (id : list Z) (substate : Z) : list Z :=
  ms_command "S+L:" [param "L" parse_c64; param "D" parse_u32] [BytesValue id; IntValue substate] 0.

(** What a neighbour makes of the transmission that follows the commands. *)
Definition ms_after_commands (texts : list (list Z)) : outcome (list (Z * list (msrp_key * Z * entry))) :=
  let C := merge_sort_library in
  '(_, w) ← ms_each (fun text => msrp_recv_cmd os0 1 addr_a text client_1;; mret tt) texts (ms_at_db (ms_station false []) [] []);
  '(_, w) ← msrp_event os0 1 addr_a EVENT_TX None w;
  mapM (ms_received false []) (ms_frames w).

(** The substate of a listener is not checked.  S+L: accepts any 32 bit substate, and
    [msrp_emit_listenvectors] packs four of them into a byte: the substate 7 of one stream
    changes the substate the neighbour learns for the stream beside it from Ready to
    ReadyFailed. *)
Theorem msrp_substate_corrupts_neighbour :
  ms_after_commands [ms_listen (stream_id 1 10) LISTENER_READY; ms_listen (stream_id 1 11) LISTENER_READY] =
    Ok [(0, [(KListener (stream_id 1 10), LISTENER_READY, (VO, IN)); (KListener (stream_id 1 11), LISTENER_READY, (VO, IN))])] /\
  ms_after_commands [ms_listen (stream_id 1 10) LISTENER_READY; ms_listen (stream_id 1 11) 7] =
    Ok [(0, [(KListener (stream_id 1 10), LISTENER_READYFAIL, (VO, IN)); (KListener (stream_id 1 11), LISTENER_READYFAIL, (VO, IN))])].
Proof. split; vm_compute; reflexivity. Qed.

(** Talkers with the longest lines. *)
Definition long_talk (i : nat) : talk_listen :=
  mkTalk (stream_id 9 i) (replicate 6 255) 65535 65535 65535 255 (2 ^ 31) (replicate 8 255) 255.

Definition ms_dump (n : nat) : outcome (Z * msrp_world) :=
  msrp_recv_cmd os0 1 addr_a (str "S??" ++ [0]) client_1
    (ms_at_db (ms_station false (map (fun i => declared (TalkerFailed (long_talk i)) 0 VN) (seq 0 n))) [] []).

(** The table dump is not bounded.  S?? writes a line of up to 125 characters for
    each attribute into a buffer of 1500 bytes without a check: eleven failed talkers
    fit, twelve are written beyond its end. *)
Theorem msrp_dump_overflows :
  (exists w, ms_dump 11 = Ok (0, w)) /\ ms_dump 12 = Fault OutOfBounds.
Proof. split; [eexists|]; vm_compute; reflexivity. Qed.

(** C24: parameters survive the wire.  For names without commas and zeros, whatever values
    of the declared types (all but [parse_null], the whole width of each) are printed
    as name, assignment and value, in the order of the specification, separated by commas
    and terminated by any number of zeros, [parse] reads back exactly these values,
    without an error, and leaves the buffer as it was. *)
Theorem parse_print_roundtrip specs vs pad :
  Forall2 printable specs vs ->
  let buf := params_text specs vs ++ replicate (S pad) 0 in
  parse buf specs = (0, 0, vs) /\ parse_left buf specs = buf.
Proof. intros HF buf. pose proof (parse_text specs vs pad HF) as Hp. split; [done|by eapply parse_left_Ok]. Qed.

(** The numbers at the end of the 64 bit range, and a stream with an address. *)
Definition wide_params : list parse_param :=
  [param "U" parse_u64; param "H" parse_h64; param "S" parse_c64; param "A" parse_mac].
Definition wide_values : list parse_value :=
  [IntValue (2 ^ 63); IntValue (2 ^ 64 - 1); BytesValue [0; 27; 33; 0; 0; 1; 0; 16];
   BytesValue [0x91; 0xe0; 0xf0; 0; 1; 10]].

Lemma parse_print_roundtrip_witness :
  parse (str "U=9223372036854775808,H=ffffffffffffffff,S=001b210000010010,A=91e0f000010a" ++ replicate 4 0) wide_params =
    (0, 0, wide_values).
Proof.
  refine (proj1 (parse_print_roundtrip wide_params wide_values 3 _)).
  constructor; [apply int_printable; [unfold has_type, is_u64; lia|by apply plain_name_ok]|].
  constructor; [apply int_printable; [unfold has_type, is_u64; lia|by apply plain_name_ok]|].
  constructor; [apply bytes_printable; [by apply (octetsb_ok _ _)|by apply plain_name_ok]|].
  constructor; [apply bytes_printable; [by apply (octetsb_ok _ _)|by apply plain_name_ok]|].
  constructor.
Defined.
