(* ===== verification/Mrpd.v ===== *)
(** * The MRP daemon process

    daemons/mrpd/mrpd.c: the start of the process, the descriptors it waits for, the
    rounds of its select loop and the dispatch of client commands.  What the loop calls
    of an application (MMRP, MVRP, MSRP) is the record [application]; the three
    applications are its values [mmrp_app], [mvrp_app] and [msrp_app].  What the
    operating system answers (system calls, received datagrams, which descriptors are
    ready) is an argument. *)

From S2P Require Import Prelude.
From S2P Require Import CText.
From S2P Require Import Mrp.
From S2P Require Import Mvrp.
From S2P Require Import Mmrp.
From S2P Require Import EuiSet.
From S2P Require Import Msrp.
From S2P Require Import MsrpRun.
From Stdlib Require Import String.

Open Scope Z_scope.
Local Abbreviation length := List.length.

(** ** Applications *)

Record application (W : Type) : Type := mkApp {
  (** whether the database pointer is not null *)
  ap_present : W -> bool;
  (** reading the descriptors of the timers from the database *)
  ap_timers : M W unit;
  ap_recv_msg : list Z -> M W Z;
  (** an event without an attribute *)
  ap_event : mrp_event -> M W Z;
  ap_recv_cmd : list Z -> sockaddr_in -> M W Z;
  ap_bye : sockaddr_in -> M W unit;
  ap_reclaim : M W Z
}.
Arguments ap_present {W}.
Arguments ap_timers {W}.
Arguments ap_recv_msg {W}.
Arguments ap_event {W}.
Arguments ap_recv_cmd {W}.
Arguments ap_bye {W}.
Arguments ap_reclaim {W}.

Definition mmrp_app (E : Os) (p2pmac : Z) (STATION_ADDR : list Z) (uninit : nat -> list Z) : application mmrp_world :=
  mkApp mmrp_world (fun w => match MMRP_db w with MmNoDb => false | _ => true end) (mm_the_db;; mret tt)
    (mmrp_recv_msg E p2pmac STATION_ADDR uninit) (fun e => mmrp_event E p2pmac STATION_ADDR uninit e None)
    (mmrp_recv_cmd E p2pmac STATION_ADDR uninit) mmrp_bye (mmrp_reclaim E).

Definition mvrp_app (E : Os) (p2pmac : Z) (STATION_ADDR : list Z) : application mvrp_world :=
  mkApp mvrp_world (fun w => match MVRP_db w with NoDb => false | _ => true end) (the_db;; mret tt)
    (mvrp_recv_msg E p2pmac STATION_ADDR) (fun e => mvrp_event E p2pmac STATION_ADDR e None)
    (mvrp_recv_cmd E p2pmac STATION_ADDR) mvrp_bye (mvrp_reclaim E).

Definition msrp_app {C : CSort} (E : Os) (p2pmac : Z) (STATION_ADDR : list Z) : application msrp_world :=
  mkApp msrp_world (fun w => match MSRP_db w with MsNoDb => false | _ => true end) (ms_the_db;; mret tt)
    (msrp_recv_msg E p2pmac STATION_ADDR) (fun e => msrp_event E p2pmac STATION_ADDR e None)
    (msrp_recv_cmd E p2pmac STATION_ADDR) msrp_bye (msrp_reclaim E).

(** ** What the process receives *)

(** The result of [recvmsg]. *)
Inductive received : Type := RecvError (again : bool) | RecvBytes (b : list Z).

(** The bytes of a frame, none when there is no memory, an error or a closed socket. *)
Definition mrpd_recvmsgbuf (alloc : bool) (r : received) : list Z :=
  if negb alloc then []
  else
    match r with
    | RecvError _ => []
    | RecvBytes b => take MAX_FRAME_SIZE b
    end.

(** The descriptors of an application that are ready. *)
Record port_ready : Type := mkPort {
  pr_socket : option (bool * received);
  pr_lva : bool;
  pr_lv : bool;
  pr_join : bool
}.

Record selected : Type := mkSelected {
  sel_control : option (bool * sockaddr_in * received);
  sel_mmrp : port_ready;
  sel_mvrp : port_ready;
  sel_msrp : port_ready;
  sel_periodic : bool;
  sel_gc : bool
}.

(** ** Descriptors *)

(** The socket and the timers of an application. *)
Record port_fds : Type := mkFds { fd_socket : Z; fd_join : Z; fd_lv : Z; fd_lva : Z }.

Definition max_of (max_fd fd : Z) : Z := if max_fd <? fd then fd else max_fd.

(** The maximum of the timers' descriptors, and the set with these. *)
Definition mrp_register_timers (p : port_fds) (fds : gset Z) : Z * gset Z :=
  (max_of (max_of (fd_join p) (fd_lv p)) (fd_lva p), {[fd_lva p]} ∪ ({[fd_lv p]} ∪ ({[fd_join p]} ∪ fds))).

Definition watch_port (enabled : bool) (p : port_fds) (max_fd : Z) (fds : gset Z) : Z * gset Z :=
  if enabled then
    let '(rc, fds) := mrp_register_timers p ({[fd_socket p]} ∪ fds) in
    (max_of (max_of max_fd (fd_socket p)) rc, fds)
  else (max_fd, fds).

Definition watch_fd (fd max_fd : Z) (fds : gset Z) : Z * gset Z := (max_of max_fd fd, {[fd]} ∪ fds).

(** The descriptors [process_events] waits for and their maximum. *)
Definition watched (control : Z) (mm_en mv_en ms_en : bool) (mm mv ms : port_fds) (periodic gc : Z) : Z * gset Z :=
  let '(mx, fds) := watch_port mm_en mm control {[control]} in
  let '(mx, fds) := watch_port mv_en mv mx fds in
  let '(mx, fds) := watch_port ms_en ms mx fds in
  let '(mx, fds) := watch_fd periodic mx fds in
  watch_fd gc mx fds.

(** ** Timers of the process *)

(** The [struct itimerspec] for a first expiry and an interval in milliseconds: seconds
    and nanoseconds of the first, seconds and nanoseconds of the second. *)
Definition timer_spec (value_ms interval_ms : Z) : (Z * Z) * (Z * Z) :=
  let ns_per_ms := 1000000 in
  ((value_ms / 1000, value_ms mod 1000 * ns_per_ms),
   if interval_ms =? 0 then (0, 0) else (interval_ms / 1000, interval_ms mod 1000 * ns_per_ms)).

Section Process.
Context {Wm Wv Ws : Type} (mmrp : application Wm) (mvrp : application Wv) (msrp : application Ws).
Context (E : Os).
Context (mmrp_enable mvrp_enable msrp_enable : bool).

(** The databases of the applications, the state of the periodic machine, how the
    periodic timer and the timer of the garbage collection are armed (first expiry and
    interval in milliseconds), the number of timer calls so far and the replies the
    process itself sent.  The state -1 that precedes the first event of the periodic
    machine is passive here: its first event, [EVENT_BEGIN], treats them alike. *)
Record daemon : Type := mkDaemon {
  d_mmrp : Wm;
  d_mvrp : Wv;
  d_msrp : Ws;
  mrp_periodic_state : timer_state;
  periodic_timer : option (Z * Z);
  gc_timer : option (Z * Z);
  d_asked : nat;
  d_replies : list (sockaddr_in * list Z)
}.

Abbreviation DAEMON := (M daemon).

Definition set_mmrp (x : Wm) (d : daemon) : daemon :=
  mkDaemon x (d_mvrp d) (d_msrp d) (mrp_periodic_state d) (periodic_timer d) (gc_timer d) (d_asked d) (d_replies d).
Definition set_mvrp (x : Wv) (d : daemon) : daemon :=
  mkDaemon (d_mmrp d) x (d_msrp d) (mrp_periodic_state d) (periodic_timer d) (gc_timer d) (d_asked d) (d_replies d).
Definition set_msrp (x : Ws) (d : daemon) : daemon :=
  mkDaemon (d_mmrp d) (d_mvrp d) x (mrp_periodic_state d) (periodic_timer d) (gc_timer d) (d_asked d) (d_replies d).
Definition set_periodic (s : timer_state) (t : option (Z * Z)) (n : nat) (d : daemon) : daemon :=
  mkDaemon (d_mmrp d) (d_mvrp d) (d_msrp d) s t (gc_timer d) n (d_replies d).
Definition set_gc (t : option (Z * Z)) (n : nat) (d : daemon) : daemon :=
  mkDaemon (d_mmrp d) (d_mvrp d) (d_msrp d) (mrp_periodic_state d) (periodic_timer d) t n (d_replies d).
Definition add_reply (c : sockaddr_in) (text : list Z) (d : daemon) : daemon :=
  mkDaemon (d_mmrp d) (d_mvrp d) (d_msrp d) (mrp_periodic_state d) (periodic_timer d) (gc_timer d) (d_asked d)
    (d_replies d ++ [(c, text)]).

(** A call into one of the applications. *)
Definition on {W A} (get : daemon -> W) (set : W -> daemon -> daemon) (m : M W A) : DAEMON A :=
  fun d => match m (get d) with Ok (a, x) => Ok (a, set x d) | Fault f => Fault f end.

Definition on_mmrp {A} : M Wm A -> DAEMON A := on d_mmrp set_mmrp.
Definition on_mvrp {A} : M Wv A -> DAEMON A := on d_mvrp set_mvrp.
Definition on_msrp {A} : M Ws A -> DAEMON A := on d_msrp set_msrp.

(** Memory is reclaimed every 30 seconds. *)
Definition gctimer_start : DAEMON Z := fun d =>
  let rc := os_timer E (d_asked d) in
  Ok (rc, set_gc (if rc <? 0 then gc_timer d else Some (30 * 1000, 0)) (S (d_asked d)) d).

Definition mrp_periodictimer_start (d : daemon) : daemon :=
  let rc := os_timer E (d_asked d) in
  set_periodic (mrp_periodic_state d) (if rc <? 0 then periodic_timer d else Some (1000, 1000)) (S (d_asked d)) d.

(** An event of the periodic machine, with the timer call it asks for. *)
Definition periodic_event (e : mrp_event) : DAEMON Z := fun d =>
  let '(rc, start, s) := mrp_periodictimer_fsm (mrp_periodic_state d) e in
  let d := if start then mrp_periodictimer_start d else d in
  Ok (rc, set_periodic s (periodic_timer d) (d_asked d) d).

(** ** Commands of clients *)

(** [buf] are the bytes received into a zeroed buffer of [MAX_MRPD_CMDSZ] bytes. *)
Definition process_ctl_msg (buf : list Z) (client : sockaddr_in) : DAEMON Z :=
  if (length buf <? 3)%nat then mret (-1)
  else
    let c := nth 0 buf 0 in
    if c =? 77 then on_mmrp (ap_recv_cmd mmrp buf client)
    else if c =? 86 then on_mvrp (ap_recv_cmd mvrp buf client)
    else if (c =? 83) || (c =? 73) then on_msrp (ap_recv_cmd msrp buf client)
    else if c =? 66 then
      on_mmrp (ap_bye mmrp client);;
      on_mvrp (ap_bye mvrp client);;
      on_msrp (ap_bye msrp client);;
      mret 0
    else
      text ← lift (c_string MAX_MRPD_CMDSZ buf);
      modify (add_reply client (snprintf 7 (str "ERC MRP parse " ++ text)));;
      mret (-1).

(** [alloc]: whether the buffer could be allocated. *)
Definition recv_ctl_msg (alloc : bool) (client : sockaddr_in) (r : received) : DAEMON Z :=
  match alloc, r with
  | true, RecvBytes ((_ :: _) as b) => process_ctl_msg (take MAX_MRPD_CMDSZ b) client;; mret (-1)
  | _, _ => mret (-1)
  end.

(** ** The select loop *)

Definition mrpd_reclaim : DAEMON Z :=
  on_mmrp (ap_reclaim mmrp);;
  on_mvrp (ap_reclaim mvrp);;
  on_msrp (ap_reclaim msrp);;
  gctimer_start;;
  mret 0.

Definition whenever (b : bool) {W A} (m : M W A) : M W unit := if b then m;; mret tt else mret tt.

(** The descriptors of one application: socket, LeaveAll, leave and join timer. *)
Definition port_round {W} (A : application W) (p : port_ready) : M W unit :=
  (match pr_socket p with
   | Some (alloc, r) => ap_recv_msg A (mrpd_recvmsgbuf alloc r);; mret tt
   | None => mret tt
   end);;
  ap_timers A;;
  whenever (pr_lva p) (ap_event A EVENT_LVATIMER);;
  ap_timers A;;
  whenever (pr_lv p) (ap_event A EVENT_LVTIMER);;
  ap_timers A;;
  whenever (pr_join p) (ap_event A EVENT_TX).

Definition process_round (s : selected) : DAEMON unit :=
  (match sel_control s with
   | Some (alloc, client, r) => recv_ctl_msg alloc client r;; mret tt
   | None => mret tt
   end);;
  whenever mmrp_enable (on_mmrp (port_round mmrp (sel_mmrp s)));;
  whenever mvrp_enable (on_mvrp (port_round mvrp (sel_mvrp s)));;
  whenever msrp_enable (on_msrp (port_round msrp (sel_msrp s)));;
  whenever (sel_periodic s)
    (periodic_event EVENT_PERIODIC;;
     whenever mmrp_enable (on_mmrp (ap_event mmrp EVENT_PERIODIC));;
     whenever mvrp_enable (on_mvrp (ap_event mvrp EVENT_PERIODIC));;
     whenever msrp_enable (on_msrp (ap_event msrp EVENT_PERIODIC)));;
  whenever (sel_gc s) mrpd_reclaim.

(** The rounds; [None] is a failing [select], which ends the loop. *)
Fixpoint process_rounds (rounds : list (option selected)) : DAEMON unit :=
  match rounds with
  | Some s :: rounds => process_round s;; process_rounds rounds
  | _ => mret tt
  end.

(** Without the database of an enabled application there is no loop. *)
Definition process_events (rounds : list (option selected)) : DAEMON unit :=
  ok ← gets (fun d => (negb mmrp_enable || ap_present mmrp (d_mmrp d)) &&
                      (negb mvrp_enable || ap_present mvrp (d_mvrp d)) &&
                      (negb msrp_enable || ap_present msrp (d_msrp d)));
  if negb ok then mret tt
  else
    rc ← periodic_event EVENT_BEGIN;
    if negb (rc =? 0) then mret tt else process_rounds rounds.

(** ** The start of the process *)

Definition init_timers (create_periodic create_gc : Z) : DAEMON Z :=
  if create_periodic =? -1 then mret (-1)
  else if create_gc =? -1 then mret (-1)
  else gctimer_start;; mret 0.

(** The part of [main] behind the options: [rc_daemon] and [rc_ctl] are the results of
    [daemon] (0 when the process stays in the foreground) and [init_local_ctl]. *)
Definition mrpd_start (rc_daemon rc_ctl : Z) (mmrp_init : M Wm Z) (mvrp_init : M Wv Z) (msrp_init : M Ws Z)
    (create_periodic create_gc : Z) (rounds : list (option selected)) : DAEMON Z :=
  if negb (rc_daemon =? 0) then mret rc_daemon
  else if negb (fst mrp_init =? 0) then mret (fst mrp_init)
  else if negb (rc_ctl =? 0) then mret rc_ctl
  else
    rc ← on_mmrp mmrp_init;
    if negb (rc =? 0) then mret rc
    else
      rc ← on_mvrp mvrp_init;
      if negb (rc =? 0) then mret rc
      else
        rc ← on_msrp msrp_init;
        if negb (rc =? 0) then mret rc
        else
          rc ← init_timers create_periodic create_gc;
          if negb (rc =? 0) then mret rc else process_events rounds;; mret 0.

End Process.

(** ** Options *)

Record options : Type := mkOptions {
  o_mmrp : bool;
  o_mvrp : bool;
  o_msrp : bool;
  o_pruning : bool;
  o_logging : bool;
  o_daemonize : bool;
  o_interface : option (list Z)
}.

(** The options [getopt] finds, as character and argument; [None] is the exit of
    [usage]. *)
Fixpoint read_options (l : list (Z * list Z)) (o : options) : option options :=
  match l with
  | [] => Some o
  | (c, optarg) :: l =>
      let '(mkOptions m v s p lg dm i) := o in
      if c =? 109 then read_options l (mkOptions true v s p lg dm i)
      else if c =? 118 then read_options l (mkOptions m true s p lg dm i)
      else if c =? 115 then read_options l (mkOptions m v true p lg dm i)
      else if c =? 112 then read_options l (mkOptions m v s true lg dm i)
      else if c =? 108 then read_options l (mkOptions m v s p true dm i)
      else if c =? 100 then read_options l (mkOptions m v s p lg true i)
      else if c =? 105 then
        match i with
        | Some _ => None
        | None => read_options l (mkOptions m v s p lg dm (Some optarg))
        end
      else None
  end.

(** [rest]: whether arguments are left behind the options. *)
Definition main_options (l : list (Z * list Z)) (rest : bool) : option options :=
  o ← read_options l (mkOptions false false false false false false None);
  if rest then None
  else if bool_decide (o_interface o = None) then None
  else if negb (o_mmrp o) && negb (o_mvrp o) && negb (o_msrp o) then None
  else Some o.

(** ** The whole process *)

(** What the system calls of the start return: [daemon], opening the control socket,
    the socket, memory and timers of the applications, creating the two timers of the
    process. *)
Record start_calls : Type := mkCalls {
  sc_daemon : Z;
  sc_ctl : Z;
  sc_mmrp : Z * bool * Z;
  sc_mvrp : Z * bool * Z;
  sc_msrp : Z * bool * bool * Z;
  sc_periodic : Z;
  sc_gc : Z
}.

Definition MSRP_INTERESTING_STREAM_ID_COUNT : Z := 8.

Definition int_of (b : bool) : Z := if b then 1 else 0.

(** [None] is the exit of [usage]. *)
Definition mrpd_main {C : CSort} (E : Os) (STATION_ADDR : list Z) (uninit : nat -> list Z)
    (args : list (Z * list Z)) (rest : bool) (c : start_calls) (rounds : list (option selected)) :
    M (@daemon mmrp_world mvrp_world msrp_world) (option Z) :=
  match main_options args rest with
  | None => mret None
  | Some o =>
      let p2pmac := snd mrp_init in
      let '(mm_socket, mm_malloc, mm_timers) := sc_mmrp c in
      let '(mv_socket, mv_malloc, mv_timers) := sc_mvrp c in
      let '(ms_socket, ms_malloc, ms_calloc, ms_timers) := sc_msrp c in
      rc ← mrpd_start (mmrp_app E p2pmac STATION_ADDR uninit) (mvrp_app E p2pmac STATION_ADDR) (msrp_app E p2pmac STATION_ADDR)
             E (o_mmrp o) (o_mvrp o) (o_msrp o)
             (if o_daemonize o then sc_daemon c else 0) (sc_ctl c)
             (mmrp_init E (int_of (o_mmrp o)) mm_socket mm_malloc mm_timers)
             (mvrp_init E (int_of (o_mvrp o)) mv_socket mv_malloc mv_timers)
             (msrp_init E (int_of (o_msrp o)) MSRP_INTERESTING_STREAM_ID_COUNT (o_pruning o) ms_socket ms_malloc ms_calloc ms_timers)
             (sc_periodic c) (sc_gc c) rounds;
      mret (Some rc)
  end.
