(* ===== verification/MrpdApps.v ===== *)
(** * The MRP daemon: what it relies on

    [AppLaws] states what the select loop relies on of an application: a notion of
    consistent databases which every call of the loop preserves without a fault, and
    that an application without a database only answers.  The laws are proved for
    MVRP, MMRP and MSRP from their own theories. *)

From stdpp Require Import gmultiset.
From S2P Require Import Prelude.
From S2P Require Import CText.
From S2P Require Import Mrp.
From S2P Require Import MrpTheory.
From S2P Require Import Mvrp.
From S2P Require Import MvrpTheory.
From S2P Require Import MvrpEmit.
From S2P Require Import MvrpEvent.
From S2P Require Import MvrpRecv.
From S2P Require Import MvrpCmd.
From S2P Require Import Mmrp.
From S2P Require Import MmrpTheory.
From S2P Require Import MmrpEvent.
From S2P Require Import MmrpRecv.
From S2P Require Import MmrpCmd.
From S2P Require Import EuiSet.
From S2P Require Import Msrp.
From S2P Require Import MsrpRun.
From S2P Require Import MsrpTheory.
From S2P Require Import MsrpEvent.
From S2P Require Import MsrpRecv.
From S2P Require Import MsrpCmd.
From S2P Require Import Mrpd.
From Stdlib Require Import String.

Open Scope Z_scope.
Local Abbreviation length := List.length.

Class AppLaws {W : Type} (A : application W) : Type := {
  (** a consistent database *)
  al_ok : W -> Prop;
  (** no database *)
  al_none : W -> Prop;
  (** the table fits the reply to a command *)
  al_dumpable : W -> Prop;
  (** the table fits the frames of a timer event *)
  al_sendable : W -> Prop;
  (** the longest frame that is parsed within the receive buffer *)
  al_max_frame : nat;
  al_ok_present : forall w, al_ok w -> ap_present A w = true;
  al_timers : forall w, al_ok w -> safe (ap_timers A) (fun _ w' => w' = w) w;
  al_recv_msg : forall f w, al_ok w -> bytes f -> (length f <= al_max_frame)%nat ->
    safe (ap_recv_msg A f) (fun _ => al_ok) w;
  al_event : forall e w, al_ok w -> al_sendable w -> safe (ap_event A e) (fun _ => al_ok) w;
  al_recv_cmd : forall text c w, terminated MAX_MRPD_CMDSZ text = true -> al_ok w -> al_dumpable w ->
    safe (ap_recv_cmd A text c) (fun _ => al_ok) w;
  al_bye : forall c w, al_ok w -> safe (ap_bye A c) (fun _ => al_ok) w;
  al_reclaim : forall w, al_ok w -> safe (ap_reclaim A) (fun _ => al_ok) w;
  al_none_recv_cmd : forall text c w, terminated MAX_MRPD_CMDSZ text = true -> al_none w ->
    safe (ap_recv_cmd A text c) (fun _ => al_none) w;
  al_none_bye : forall c w, al_none w -> safe (ap_bye A c) (fun _ => al_none) w;
  al_none_reclaim : forall w, al_none w -> safe (ap_reclaim A) (fun _ => al_none) w
}.

(** ** MVRP *)

Section MvrpLaws.
Context (E : Os) (p2pmac : Z) (STATION_ADDR : list Z).
Context (HT : timers_ok E) (HR : random_ok E) (Hst : length STATION_ADDR = 6%nat).

Lemma Inv_sublist l m : Inv m -> sublist l (attrib_list m) -> Inv (set_attrib_list l m).
Proof using.
  intros [[Hs Ha Hd Hl] Hn Hf] Hsub. constructor; [constructor| |done]; cbn [attrib_list set_attrib_list mrp_db]; try done.
  - eapply StronglySorted_sub; [by apply fmap_sublist|exact Hs].
  - by eapply Forall_sublist.
  - by eapply Forall_sublist.
  - by eapply Forall_sublist.
Qed.

(** Exactly the idle attributes go. *)
Lemma mv_reclaim_loop_wp l : forall D m fr ms Q,
  attrib_list m = D ++ l -> sorted (D ++ l) ->
  (forall m' ms', later_db (set_attrib_list (D ++ filter (fun x => reclaimable x = false) l) m) m' ->
     Q tt (at_db m' fr ms')) ->
  safe (reclaim_loop E l) Q (at_db m fr ms).
Proof using.
  induction l as [|x l IH]; intros D m fr ms Q Hm Hs HQ; cbn [reclaim_loop each].
  { apply wp_ret, HQ. cbn. rewrite <- Hm. exists (asked (mrp_db m)). by destruct m as [[] ? ?]. }
  destruct (sorted_middle _ _ _ Hs) as [H1 _]. rewrite filter_cons in HQ.
  apply wp_bind, wp_bind, reclaim_wp. intros m1 ms1 [n ->]. apply wp_ret.
  destruct (reclaimable x) eqn:Hr; [rewrite decide_False in HQ by done|rewrite decide_True in HQ by done].
  - apply (IH D); [cbn; rewrite Hm; by apply unlink_middle|by eapply sorted_delete|].
    intros m' ms' [k ->]. apply HQ. by exists k.
  - apply (IH (D ++ [x])); rewrite <- ?(assoc_L (++)); [done|done|].
    intros m' ms' [k ->]. apply HQ. by exists k.
Qed.

Lemma mvrp_reclaim_wp m fr ms :
  Inv m ->
  safe (mvrp_reclaim E) (fun _ w => exists m' ms', w = at_db m' fr ms' /\ Inv m' /\
    attrib_list m' = filter (fun x => reclaimable x = false) (attrib_list m)) (at_db m fr ms).
Proof using.
  intros HI. apply wp_bind, wp_gets. cbn [MVRP_db]. apply wp_bind, the_db_wp, wp_bind.
  apply (mv_reclaim_loop_wp _ []); [done|apply HI|]. intros m' ms' Hl. apply wp_ret. exists m', ms'.
  split_and!; [done| |by destruct Hl as [k ->]].
  assert (HI' : Inv (set_attrib_list ([] ++ filter (fun x => reclaimable x = false) (attrib_list m)) m))
    by (apply Inv_sublist; [done|apply sublist_filter]).
  destruct HI' as [H0 H1 H2]. constructor; [by eapply Inv0_later|by destruct Hl as [k ->]..].
Qed.

Definition mv_ok (w : mvrp_world) : Prop := exists m fr ms, w = at_db m fr ms /\ Inv m.

#[global] Instance mvrp_laws : AppLaws (mvrp_app E p2pmac STATION_ADDR).
Proof using HT HR Hst.
  refine {|
    al_ok := mv_ok;
    al_none := fun w => MVRP_db w = NoDb;
    al_dumpable := fun w => match MVRP_db w with Db m => (length (attrib_list m) <= 49)%nat | _ => True end;
    al_sendable := fun _ => True;
    al_max_frame := MAX_FRAME_SIZE - 4 |}.
  - by intros w (m&fr&ms&->&_).
  - intros w (m&fr&ms&->&HI). by apply wp_bind, the_db_wp, wp_ret.
  - intros f w (m&fr&ms&->&HI) Hf Hl. eapply wp_mono; [apply mvrp_recv_msg_wp; try done; unfold MAX_FRAME_SIZE in *; lia|].
    intros z w' (m'&fr'&ms'&->&[? _]). by exists m', fr', ms'.
  - intros e w (m&fr&ms&->&HI) _. eapply wp_mono; [by apply (mvrp_event_wp E p2pmac STATION_ADDR HT HR Hst e None)|].
    intros z w' (m'&fr'&ms'&->&HI'&_). by exists m', fr', ms'.
  - intros text c w Hb (m&fr&ms&->&HI) Hd. cbn in Hd.
    eapply wp_mono; [apply mvrp_recv_cmd_wp; try done; unfold MAX_MRPD_CMDSZ; lia|].
    intros z w' (m'&fr'&ms'&->&HI'&_). by exists m', fr', ms'.
  - intros c w (m&fr&ms&->&HI). apply wp_bind, wp_gets. cbn [MVRP_db]. apply upd_mrp_wp. eexists _, fr, ms. split; [done|].
    destruct HI as [[? ? [] ?] ? ?]. constructor; [constructor|..]; done.
  - intros w (m&fr&ms&->&HI). eapply wp_mono; [by apply mvrp_reclaim_wp|]. intros z w' (m'&ms'&->&?&_). by exists m', fr, ms'.
  - intros text c [p fr ms] Hb; cbn [MVRP_db MMRP_db MSRP_db]; intros ->.
    apply wp_bind, wp_gets, wp_bind, wp_bind. by eapply wp_lift; [apply c_string_Ok|].
  - intros c [p fr ms]; cbn; intros ->. done.
  - intros [p fr ms]; cbn; intros ->. done.
Defined.

End MvrpLaws.

(** ** MMRP *)

Lemma StronglySorted_sublist {A} (R : A -> A -> Prop) l l' : sublist l l' -> StronglySorted R l' -> StronglySorted R l.
Proof.
  induction 1 as [|x l l' Hsub IH|x l l' Hsub IH]; [done|..]; intros Hs; inversion Hs as [|? ? Hs' Hf]; subst;
    [|by apply IH]. constructor; [by apply IH|by eapply Forall_sublist].
Qed.

Lemma arranged_sublist l l' : sublist l l' -> arranged l' -> arranged l.
Proof.
  intros Hsub (v&A&B&->&[HA1 HA2]&w&Hvw&[HB1 HB2]). apply sublist_app_r in Hsub as (A'&B'&->&HA'&HB').
  exists v, A', B'. split; [done|]. split; [|exists w; split; [done|]]; split;
    (by eapply Forall_sublist) || (eapply StronglySorted_sublist; [by apply fmap_sublist|done]).
Qed.

Section MmrpLaws.
Context (E : Os) (p2pmac : Z) (STATION_ADDR : list Z) (uninit : nat -> list Z).
Context (HT : timers_ok E) (HR : random_ok E) (Hst : length STATION_ADDR = 6%nat).

Lemma mm_Inv_sublist l m : mm_Inv m -> sublist l (mm_list m) -> mm_Inv (mm_set_list l m).
Proof using.
  intros [[Hs Ha Hd Hl] Hn Hf] Hsub. constructor; [constructor| |done]; cbn [mm_list mm_set_list mm_mrp_db]; try done.
  - by eapply arranged_sublist.
  - by eapply Forall_sublist.
  - by eapply Forall_sublist.
  - by eapply Forall_sublist.
Qed.

Lemma mm_unlink_middle D x l :
  values_ok (D ++ x :: l) -> mm_value x ∉ (mm_value <$> D) -> mm_unlink (mm_value x) (D ++ x :: l) = D ++ l.
Proof using.
  induction D as [|y D IH]; cbn [app mm_unlink]; intros Hok Hn; apply Forall_cons in Hok as [Hy Hok].
  - by rewrite same_value_eq, bool_decide_true.
  - rewrite fmap_cons, not_elem_of_cons in Hn. destruct Hn as [Hne Hn].
    assert (Hx : value_ok (mm_value x)).
    { unfold values_ok in Hok. rewrite Forall_app, Forall_cons in Hok. by destruct Hok as (_&?&_). }
    rewrite same_value_eq, bool_decide_false by (done || congruence). by rewrite IH.
Qed.

Lemma mm_reclaim_one_wp x m fr ms Q :
  (forall m' ms', mm_later (if mm_reclaimable x then mm_set_list (mm_unlink (mm_value x) (mm_list m)) m else m) m' ->
     Q tt (mm_at_db m' fr ms')) ->
  safe (mm_reclaim_one E x) Q (mm_at_db m fr ms).
Proof using.
  intros HQ. unfold mm_reclaim_one. destruct (mm_reclaimable x); [|apply wp_ret, HQ; apply mm_later_refl].
  apply wp_bind, mm_upd_db_wp, wp_bind, mm_send_notifications_wp. intros z m' ms' Hl. by apply wp_ret, HQ.
Qed.

(** Exactly the idle attributes go. *)
Lemma mm_reclaim_loop_wp l : forall D m fr ms Q,
  mm_list m = D ++ l -> values_ok (D ++ l) -> NoDup (mm_value <$> (D ++ l)) ->
  (forall m' ms', mm_later (mm_set_list (D ++ filter (fun x => mm_reclaimable x = false) l) m) m' ->
     Q tt (mm_at_db m' fr ms')) ->
  safe (mm_each (mm_reclaim_one E) l) Q (mm_at_db m fr ms).
Proof using.
  induction l as [|x l IH]; intros D m fr ms Q Hm Hok Hnd HQ; cbn [mm_each].
  { apply wp_ret, HQ. cbn. rewrite <- Hm. exists (asked (mm_mrp_db m)). by destruct m as [[] ? ?]. }
  rewrite filter_cons in HQ. apply wp_bind, mm_reclaim_one_wp. intros m1 ms1 [n ->].
  destruct (mm_reclaimable x) eqn:Hr; [rewrite decide_False in HQ by done|rewrite decide_True in HQ by done].
  - assert (Hn : mm_value x ∉ (mm_value <$> D)).
    { rewrite fmap_app in Hnd. apply NoDup_app in Hnd as (_&Hd&_). intros Hin. apply (Hd _ Hin). by left. }
    assert (Hsub : sublist (D ++ l) (D ++ x :: l)) by (apply sublist_app; [done|by constructor]).
    apply (IH D).
    + cbn. rewrite Hm. by apply mm_unlink_middle.
    + by eapply Forall_sublist.
    + eapply sublist_NoDup; [exact Hnd|by apply fmap_sublist].
    + intros m' ms' [k ->]. apply HQ. by exists k.
  - apply (IH (D ++ [x])); rewrite <- ?(assoc_L (++)); [done..|]. intros m' ms' [k ->]. apply HQ. by exists k.
Qed.

Lemma mmrp_reclaim_wp m fr ms :
  mm_Inv m ->
  safe (mmrp_reclaim E) (fun _ w => exists m' ms', w = mm_at_db m' fr ms' /\ mm_Inv m' /\
    mm_list m' = filter (fun x => mm_reclaimable x = false) (mm_list m)) (mm_at_db m fr ms).
Proof using.
  intros HI. apply wp_bind, wp_gets. cbn [MMRP_db]. apply wp_bind, mm_the_db_wp, wp_bind.
  apply (mm_reclaim_loop_wp _ []); [done|apply mm_attrs_values, HI|apply arranged_NoDup, HI|].
  intros m' ms' Hl. apply wp_ret. exists m', ms'. split_and!; [done| |by destruct Hl as [k ->]].
  assert (HI' : mm_Inv (mm_set_list ([] ++ filter (fun x => mm_reclaimable x = false) (mm_list m)) m))
    by (apply mm_Inv_sublist; [done|apply sublist_filter]).
  destruct HI' as [H0 H1 H2]. constructor; [by eapply mm_Inv0_later|by destruct Hl as [k ->]..].
Qed.

Definition mm_ok (w : mmrp_world) : Prop := exists m fr ms, w = mm_at_db m fr ms /\ mm_Inv m.

#[global] Instance mmrp_laws : AppLaws (mmrp_app E p2pmac STATION_ADDR uninit).
Proof using HT HR Hst.
  refine {|
    al_ok := mm_ok;
    al_none := fun w => MMRP_db w = MmNoDb;
    al_dumpable := fun w => match MMRP_db w with MmDb m => (length (mm_list m) <= 44)%nat | _ => True end;
    al_sendable := fun w => match MMRP_db w with MmDb m => mm_fits m | _ => True end;
    al_max_frame := MAX_FRAME_SIZE - 8 |}.
  - by intros w (m&fr&ms&->&_).
  - intros w (m&fr&ms&->&HI). by apply wp_bind, mm_the_db_wp, wp_ret.
  - intros f w (m&fr&ms&->&HI) Hf Hl. eapply wp_mono; [apply mmrp_recv_msg_wp; try done; unfold MAX_FRAME_SIZE in *; lia|].
    intros z w' (m'&fr'&ms'&->&[? _]). by exists m', fr', ms'.
  - intros e w (m&fr&ms&->&HI) Hf. cbn in Hf.
    eapply wp_mono; [by apply (mmrp_event_wp E p2pmac STATION_ADDR uninit HT HR Hst e None)|].
    intros z w' (m'&fr'&ms'&->&HI'&_). by exists m', fr', ms'.
  - intros text c w Hb (m&fr&ms&->&HI) Hd. cbn in Hd.
    eapply wp_mono; [apply mmrp_recv_cmd_wp; try done; unfold MAX_MRPD_CMDSZ; lia|].
    intros z w' (m'&fr'&ms'&->&HI'&_). by exists m', fr', ms'.
  - intros c w (m&fr&ms&->&HI). apply wp_bind, wp_gets. cbn [MMRP_db]. apply mm_upd_mrp_wp. eexists _, fr, ms. split; [done|].
    destruct HI as [[? ? [] ?] ? ?]. constructor; [constructor|..]; done.
  - intros w (m&fr&ms&->&HI). eapply wp_mono; [by apply mmrp_reclaim_wp|]. intros z w' (m'&ms'&->&?&_). by exists m', fr, ms'.
  - intros text c [p fr ms] Hb; cbn [MVRP_db MMRP_db MSRP_db]; intros ->.
    apply wp_bind, wp_gets, wp_bind, wp_bind. by eapply wp_lift; [apply c_string_Ok|].
  - intros c [p fr ms]; cbn; intros ->. done.
  - intros [p fr ms]; cbn; intros ->. done.
Defined.

End MmrpLaws.

(** ** MSRP *)

Section MsrpLaws.
Context {C : CSort} (E : Os) (p2pmac : Z) (STATION_ADDR : list Z).
Context (HT : timers_ok E) (HR : random_ok E) (Hst : length STATION_ADDR = 6%nat).

Lemma omap_survivor (l : list msrp_attribute) : omap (ms_survivor (fun x => x)) l = filter (fun x => ms_reclaimable x = false) l.
Proof using.
  induction l as [|x l IH]; [done|]. rewrite filter_cons. cbn [omap list_omap]. unfold ms_survivor at 1.
  destruct (ms_reclaimable x); [by rewrite decide_False|rewrite decide_True by done]. by rewrite <- IH.
Qed.

Lemma msrp_reclaim_wp m fr ms :
  ms_Inv m ->
  safe (msrp_reclaim E) (fun _ w => exists m' ms', w = ms_at_db m' fr ms' /\ ms_Inv m' /\
    ms_list m' = filter (fun x => ms_reclaimable x = false) (ms_list m) /\ interesting m' = interesting m) (ms_at_db m fr ms).
Proof using.
  intros HI. apply wp_bind, wp_gets. cbn [MSRP_db]. apply wp_bind, wp_bind, ms_the_db_wp, wp_bind.
  apply (ms_reclaim_loop_wp E _ (fun x => x)); [done|]. intros m1 ms1 Hl. rewrite omap_survivor.
  apply ms_upd_db_wp, wp_ret. eexists _, ms1. split; [done|]. destruct (ms_Inv_later _ _ Hl HI) as [[HI1 _] Hl1].
  split_and!; [|done|by destruct Hl as [k ->]]. apply ms_Inv_sublist; [done|]. rewrite Hl1. apply sublist_filter.
Qed.

Definition ms_ok (w : msrp_world) : Prop := exists m fr ms, w = ms_at_db m fr ms /\ ms_Inv m.

#[global] Instance msrp_laws : AppLaws (msrp_app E p2pmac STATION_ADDR).
Proof using HT HR Hst.
  refine {|
    al_ok := ms_ok;
    al_none := fun w => MSRP_db w = MsNoDb;
    al_dumpable := fun w => match MSRP_db w with MsDb m => ms_dumpable m | _ => True end;
    al_sendable := fun w => match MSRP_db w with MsDb m => ms_fits m | _ => True end;
    al_max_frame := MAX_FRAME_SIZE - 40 |}.
  - by intros w (m&fr&ms&->&_).
  - intros w (m&fr&ms&->&HI). by apply wp_bind, ms_the_db_wp, wp_ret.
  - intros f w (m&fr&ms&->&HI) Hf Hl. eapply wp_mono; [apply msrp_recv_msg_wp; try done; unfold MAX_FRAME_SIZE in *; lia|].
    intros z w' (m'&fr'&ms'&->&[? _]). by exists m', fr', ms'.
  - intros e w (m&fr&ms&->&HI) Hf. cbn in Hf.
    eapply wp_mono; [by apply (msrp_event_wp E p2pmac STATION_ADDR HT HR Hst e None)|].
    intros z w' (m'&fr'&ms'&->&HI'&_). by exists m', fr', ms'.
  - intros text c w Hb (m&fr&ms&->&HI) Hd. by apply (msrp_recv_cmd_wp E p2pmac STATION_ADDR HT HR Hst).
  - intros c w (m&fr&ms&->&HI). apply wp_bind, wp_gets. cbn [MSRP_db]. apply ms_upd_mrp_wp. eexists _, fr, ms. split; [done|].
    by apply (ss_inv _ _ (ms_clients_same _ m)).
  - intros w (m&fr&ms&->&HI). eapply wp_mono; [by apply msrp_reclaim_wp|]. intros z w' (m'&ms'&->&?&_). by exists m', fr, ms'.
  - intros text c [p fr ms] Hb; cbn [MVRP_db MMRP_db MSRP_db]; intros ->.
    apply wp_bind, wp_gets, wp_bind, wp_bind. by eapply wp_lift; [apply c_string_Ok|].
  - intros c [p fr ms]; cbn; intros ->. done.
  - intros [p fr ms]; cbn; intros ->. done.
Defined.

End MsrpLaws.
