(* ===== verification/MrpdTheory.v ===== *)
(** * The MRP daemon: rounds and tasks

    A round of the select loop is shown to be the sequence of the tasks of its ready
    descriptors, as an equivalence of computations that run alike from every state, and
    every task preserves the consistency of the daemon, which is proved from the laws of
    the applications alone. *)

From S2P Require Import Prelude.
From S2P Require Import CText.
From S2P Require Import Mrp.
From S2P Require Import MrpTheory.
From S2P Require Import Mvrp.
From S2P Require Import MvrpEvent.
From S2P Require Import Mrpd.
From S2P Require Import MrpdApps.

Open Scope Z_scope.
Local Abbreviation length := List.length.

(** ** Computations that run alike *)

Record alike {S A} (m m' : M S A) : Prop := Alike { alike_at : forall s, m s = m' s }.

#[global] Instance M_equiv {S A} : Equiv (M S A) := alike.

#[global] Instance M_equivalence {S A} : Equivalence (≡@{M S A}).
Proof.
  split; [by constructor|by intros m m' [H]; constructor|]. intros m m' m'' [H] [H']. constructor. intros s. by rewrite H, H'.
Qed.

#[global] Instance M_bind_proper {S A B} :
  Proper (pointwise_relation A (≡@{M S B}) ==> (≡@{M S A}) ==> (≡)) (mbind (M := M S)).
Proof.
  intros f g Hfg m m' [Hm]. constructor. intros s. unfold mbind, M_bind. rewrite Hm. unfold outcome_bind, mbind.
  destruct (m' s) as [[a s']|]; [apply Hfg|done].
Qed.

Lemma bind_cong {S A B} (m m' : M S A) (f g : A -> M S B) : m ≡ m' -> (forall x, f x ≡ g x) -> m ≫= f ≡ m' ≫= g.
Proof. intros Hm Hf. by apply M_bind_proper. Qed.

Lemma bind_assoc {S A B D} (m : M S A) (f : A -> M S B) (g : B -> M S D) : (m ≫= f) ≫= g ≡ m ≫= (fun a => f a ≫= g).
Proof. constructor. intros s. unfold mbind, M_bind, mbind, outcome_bind. by destruct (m s) as [[a s']|]. Qed.

Lemma bind_ret {S A B} (a : A) (f : A -> M S B) : mret a ≫= f ≡ f a.
Proof. by constructor. Qed.

Lemma bind_unit {S} (m : M S unit) : (m;; mret tt) ≡ m.
Proof. constructor. intros s. unfold mbind, M_bind, mbind, outcome_bind. by destruct (m s) as [[[] s']|]. Qed.

(** ** Tasks *)

Inductive app_id : Type := Mmrp | Mvrp | Msrp.

#[global] Instance app_id_eq_dec : EqDecision app_id.
Proof. solve_decision. Defined.

Inductive task : Type :=
  | TControl (alloc : bool) (client : sockaddr_in) (r : received)
  | TFrame (a : app_id) (alloc : bool) (r : received)
  | TTimer (a : app_id) (e : mrp_event) (ready : bool)
  | TPeriodic
  | TPeriodicEvent (a : app_id)
  | TReclaim (a : app_id)
  | TGcTimer.

(** The application a command is for. *)
Definition addressee (text : list Z) : option app_id :=
  let c := nth 0 text 0 in
  if (length text <? 3)%nat then None
  else if c =? 77 then Some Mmrp
  else if c =? 86 then Some Mvrp
  else if (c =? 83) || (c =? 73) then Some Msrp
  else None.

Section Rounds.
Context {Wm Wv Ws : Type} (mmrp : application Wm) (mvrp : application Wv) (msrp : application Ws).
Context (E : Os) (enabled : app_id -> bool).

Abbreviation daemon := (@daemon Wm Wv Ws).
Abbreviation DAEMON := (M daemon).
Abbreviation round := (process_round mmrp mvrp msrp E (enabled Mmrp) (enabled Mvrp) (enabled Msrp)).

(** A call into an application that is named. *)
Definition on_app {A} (a : app_id) (f : forall W, application W -> M W A) : DAEMON A :=
  match a with
  | Mmrp => on_mmrp (f Wm mmrp)
  | Mvrp => on_mvrp (f Wv mvrp)
  | Msrp => on_msrp (f Ws msrp)
  end.

Definition timer_task {W} (e : mrp_event) (ready : bool) (A : application W) : M W unit :=
  ap_timers A;; whenever ready (ap_event A e).

Definition run_task (t : task) : DAEMON unit :=
  match t with
  | TControl alloc client r => recv_ctl_msg mmrp mvrp msrp alloc client r;; mret tt
  | TFrame a alloc r => on_app a (fun W A => ap_recv_msg A (mrpd_recvmsgbuf alloc r));; mret tt
  | TTimer a e ready => on_app a (fun W A => timer_task e ready A)
  | TPeriodic => periodic_event E EVENT_PERIODIC;; mret tt
  | TPeriodicEvent a => on_app a (fun W A => ap_event A EVENT_PERIODIC);; mret tt
  | TReclaim a => on_app a (fun W A => ap_reclaim A);; mret tt
  | TGcTimer => gctimer_start E;; mret tt
  end.

Fixpoint run_tasks (ts : list task) : DAEMON unit :=
  match ts with
  | [] => mret tt
  | t :: ts => run_task t;; run_tasks ts
  end.

(** The tasks of a round, in the order the loop takes them. *)
Definition port_tasks (a : app_id) (p : port_ready) : list task :=
  if enabled a then
    (match pr_socket p with Some (alloc, r) => [TFrame a alloc r] | None => [] end) ++
    [TTimer a EVENT_LVATIMER (pr_lva p); TTimer a EVENT_LVTIMER (pr_lv p); TTimer a EVENT_TX (pr_join p)]
  else [].

Definition tasks_of (s : selected) : list task :=
  (match sel_control s with Some (alloc, client, r) => [TControl alloc client r] | None => [] end) ++
  port_tasks Mmrp (sel_mmrp s) ++ port_tasks Mvrp (sel_mvrp s) ++ port_tasks Msrp (sel_msrp s) ++
  (if sel_periodic s then TPeriodic :: map TPeriodicEvent (filter (fun a => enabled a = true) [Mmrp; Mvrp; Msrp]) else []) ++
  (if sel_gc s then [TReclaim Mmrp; TReclaim Mvrp; TReclaim Msrp; TGcTimer] else []).

Lemma run_tasks_app ts ts' : run_tasks (ts ++ ts') ≡ (run_tasks ts;; run_tasks ts').
Proof using.
  induction ts as [|t ts IH]; cbn [app run_tasks]; [by rewrite bind_ret|]. rewrite bind_assoc. by setoid_rewrite IH.
Qed.

(** A sequence of calls into one application is a sequence of calls. *)
Lemma on_app_bind {A B} a (f : forall W, application W -> M W A) (g : A -> forall W, application W -> M W B) :
  on_app a (fun W X => x ← f W X; g x W X) ≡ (x ← on_app a f; on_app a (g x)).
Proof using.
  constructor. intros d. destruct a; cbn [on_app]; unfold on_mmrp, on_mvrp, on_msrp, on, mbind, M_bind, mbind, outcome_bind;
    destruct (f _ _ _) as [[x w]|]; try done; by destruct (g x _ _ w) as [[y w']|].
Qed.

Lemma on_app_ret {A} a (x : A) : on_app a (fun W _ => mret x) ≡ mret x.
Proof using. constructor. intros [? ? ? ? ? ? ? ?]. by destruct a. Qed.

Lemma on_app_ext {A} a (f g : forall W, application W -> M W A) :
  (forall W X, f W X ≡ g W X) -> on_app a f ≡ on_app a g.
Proof using.
  intros Hfg. constructor. intros d. destruct a; cbn [on_app]; unfold on_mmrp, on_mvrp, on_msrp, on; by rewrite (alike_at _ _ (Hfg _ _)).
Qed.

Lemma on_app_seq {A B} a (f : forall W, application W -> M W A) (g : forall W, application W -> M W B) :
  on_app a (fun W X => f W X;; g W X) ≡ (on_app a f;; on_app a g).
Proof using. apply (on_app_bind a f (fun _ => g)). Qed.

Lemma timers_tasks a p :
  on_app a (fun W A => ap_timers A;; whenever (pr_lva p) (ap_event A EVENT_LVATIMER);;
    ap_timers A;; whenever (pr_lv p) (ap_event A EVENT_LVTIMER);; ap_timers A;; whenever (pr_join p) (ap_event A EVENT_TX)) ≡
  run_tasks [TTimer a EVENT_LVATIMER (pr_lva p); TTimer a EVENT_LVTIMER (pr_lv p); TTimer a EVENT_TX (pr_join p)].
Proof using.
  cbn [run_tasks run_task]. transitivity (on_app a (fun W A =>
    timer_task EVENT_LVATIMER (pr_lva p) A;; timer_task EVENT_LVTIMER (pr_lv p) A;; timer_task EVENT_TX (pr_join p) A)).
  { apply on_app_ext. intros W X. unfold timer_task. rewrite bind_assoc. apply bind_cong; [done|]. intros _.
    apply bind_cong; [done|]. intros _. by rewrite bind_assoc. }
  rewrite (on_app_seq a (fun W A => timer_task EVENT_LVATIMER (pr_lva p) A)). apply bind_cong; [done|]. intros _.
  rewrite (on_app_seq a (fun W A => timer_task EVENT_LVTIMER (pr_lv p) A)). apply bind_cong; [done|]. intros _.
  by rewrite bind_unit.
Qed.

Lemma port_round_tasks a p :
  whenever (enabled a) (on_app a (fun W A => port_round A p)) ≡ run_tasks (port_tasks a p).
Proof using.
  unfold port_tasks. destruct (enabled a); [|done]. rewrite run_tasks_app. cbn [whenever].
  etrans; [apply bind_unit|]. etrans; [|apply bind_cong; [reflexivity|intros ?; apply timers_tasks]].
  destruct (pr_socket p) as [[alloc r]|] eqn:Hp.
  - transitivity (on_app a (fun W A => ap_recv_msg A (mrpd_recvmsgbuf alloc r);; ap_timers A;;
      whenever (pr_lva p) (ap_event A EVENT_LVATIMER);; ap_timers A;; whenever (pr_lv p) (ap_event A EVENT_LVTIMER);;
      ap_timers A;; whenever (pr_join p) (ap_event A EVENT_TX))).
    { apply on_app_ext. intros W X. unfold port_round. rewrite Hp. etrans; [apply bind_assoc|]. apply bind_cong; [done|]. intros _. apply (bind_ret tt). }
    rewrite (on_app_seq a (fun W A => ap_recv_msg A (mrpd_recvmsgbuf alloc r))). cbn [run_tasks run_task].
    rewrite !bind_assoc. apply bind_cong; [done|]. intros _. by rewrite !bind_ret.
  - cbn [run_tasks]. rewrite bind_ret. apply on_app_ext. intros W X. unfold port_round. by rewrite Hp, bind_ret.
Qed.

Lemma run_one t : run_tasks [t] ≡ run_task t.
Proof using. cbn [run_tasks]. apply bind_unit. Qed.

Lemma periodic_tasks :
  (periodic_event E EVENT_PERIODIC;;
   whenever (enabled Mmrp) (on_mmrp (ap_event mmrp EVENT_PERIODIC));;
   whenever (enabled Mvrp) (on_mvrp (ap_event mvrp EVENT_PERIODIC));;
   whenever (enabled Msrp) (on_msrp (ap_event msrp EVENT_PERIODIC))) ≡
  run_tasks (TPeriodic :: map TPeriodicEvent (filter (fun a => enabled a = true) [Mmrp; Mvrp; Msrp])).
Proof using.
  cbn [run_tasks run_task]. rewrite bind_assoc. apply bind_cong; [done|]. intros _. rewrite bind_ret.
  rewrite !filter_cons, filter_nil.
  destruct (enabled Mmrp), (enabled Mvrp), (enabled Msrp); repeat case_decide; try done;
    cbn [map run_tasks run_task on_app whenever];
    repeat first [rewrite bind_ret | (apply bind_cong; [done|intros _]) | done | by rewrite bind_unit].
Qed.

Lemma reclaim_tasks : (mrpd_reclaim mmrp mvrp msrp E;; mret tt) ≡ run_tasks [TReclaim Mmrp; TReclaim Mvrp; TReclaim Msrp; TGcTimer].
Proof using.
  unfold mrpd_reclaim. cbn [run_tasks run_task on_app].
  do 4 (etrans; [apply bind_assoc|]; etrans; [|symmetry; apply bind_assoc]; apply bind_cong; [done|intros ?];
        etrans; [|symmetry; apply (bind_ret tt)]). by rewrite bind_ret.
Qed.

(** A round of the loop is the sequence of the tasks of the ready descriptors. *)
Lemma round_tasks s : round s ≡ run_tasks (tasks_of s).
Proof using.
  unfold tasks_of, process_round. etrans; [|symmetry; apply run_tasks_app]. apply bind_cong.
  { destruct (sel_control s) as [[[alloc client] r]|]; [|done]. by rewrite run_one. }
  intros _. etrans; [|symmetry; apply run_tasks_app]. apply bind_cong; [apply (port_round_tasks Mmrp)|].
  intros _. etrans; [|symmetry; apply run_tasks_app]. apply bind_cong; [apply (port_round_tasks Mvrp)|].
  intros _. etrans; [|symmetry; apply run_tasks_app]. apply bind_cong; [apply (port_round_tasks Msrp)|].
  intros _. etrans; [|symmetry; apply run_tasks_app].
  apply bind_cong; [|intros _]; [destruct (sel_periodic s)|destruct (sel_gc s)]; try done; cbn [whenever].
  - etrans; [apply bind_unit|]. apply periodic_tasks.
  - apply reclaim_tasks.
Qed.

(** ** Consistency *)

Context {Lm : AppLaws mmrp} {Lv : AppLaws mvrp} {Ls : AppLaws msrp}.

(** Enabled applications have a consistent database, the others none; the periodic
    machine is active and the timers of the process are armed. *)
Definition app_ok {W} {A : application W} {L : AppLaws A} (en : bool) (w : W) : Prop := if en then al_ok w else al_none w.

Record daemon_ok (d : daemon) : Prop := {
  dk_mmrp : app_ok (enabled Mmrp) (d_mmrp d);
  dk_mvrp : app_ok (enabled Mvrp) (d_mvrp d);
  dk_msrp : app_ok (enabled Msrp) (d_msrp d);
  dk_state : mrp_periodic_state d = TIMER_ACTIVE;
  dk_periodic : periodic_timer d = Some (1000, 1000);
  dk_gc : gc_timer d = Some (30000, 0)
}.

(** A property of the state of one application. *)
Definition at_app (a : app_id) (P : forall W (A : application W) (L : AppLaws A), W -> Prop) (d : daemon) : Prop :=
  match a with
  | Mmrp => P Wm mmrp Lm (d_mmrp d)
  | Mvrp => P Wv mvrp Lv (d_mvrp d)
  | Msrp => P Ws msrp Ls (d_msrp d)
  end.

Definition app_dumpable (a : app_id) : daemon -> Prop := at_app a (fun W A L => al_dumpable).
Definition app_sendable (a : app_id) : daemon -> Prop := at_app a (fun W A L => al_sendable).
Definition app_max_frame (a : app_id) : nat :=
  match a with Mmrp => al_max_frame (A := mmrp) | Mvrp => al_max_frame (A := mvrp) | Msrp => al_max_frame (A := msrp) end.

(** A task the consistency of which is preserved: a command ends within the buffer it is
    received in, that is, it is shorter or holds a zero; frames are sequences of bytes that
    leave some room in the receive buffer, tables fit the reply of a command and the
    frames of a timer event. *)
Definition allowed (t : task) (d : daemon) : Prop :=
  match t with
  | TControl _ _ (RecvBytes b) =>
      terminated MAX_MRPD_CMDSZ (take MAX_MRPD_CMDSZ b) = true /\
      forall a, addressee (take MAX_MRPD_CMDSZ b) = Some a -> enabled a = true -> app_dumpable a d
  | TFrame a _ (RecvBytes b) => bytes b /\ (length b <= app_max_frame a)%nat
  | TTimer a _ true | TPeriodicEvent a => app_sendable a d
  | _ => True
  end.

Definition of_enabled (t : task) : Prop :=
  match t with TFrame a _ _ | TTimer a _ _ | TPeriodicEvent a => enabled a = true | _ => True end.

(** A call into an application keeps the rest. *)
Lemma on_app_wp {A} a (P : forall W (X : application W) (L : AppLaws X), W -> Prop) (f : forall W, application W -> M W A) d
    (Q : A -> daemon -> Prop) :
  daemon_ok d -> at_app a P d ->
  (forall W (X : application W) (L : AppLaws X) (w : W),
     app_ok (enabled a) w -> P W X L w -> safe (f W X) (fun _ => app_ok (enabled a)) w) ->
  (forall x d', daemon_ok d' -> Q x d') ->
  safe (on_app a f) Q d.
Proof using.
  intros [] HP Hf HQ. destruct a; cbn [at_app] in HP; (specialize (Hf _ _ _ _ ltac:(eassumption) HP));
    unfold wp in *; cbn [on_app]; unfold on_mmrp, on_mvrp, on_msrp, on;
    destruct (f _ _ _) as [[x w]|]; try done; by apply HQ; constructor.
Qed.

Lemma timer_task_wp {W} {A : application W} {L : AppLaws A} e ready w :
  al_ok w -> (ready = true -> al_sendable w) -> safe (timer_task e ready A) (fun _ => al_ok) w.
Proof using.
  intros Hw Hs. apply wp_bind. eapply wp_mono; [by apply al_timers|]. intros _ w' ->.
  destruct ready; cbn [whenever]; [|by apply wp_ret]. apply wp_bind.
  eapply wp_mono; [apply al_event; auto|]. intros z w'' Hw''. by apply wp_ret.
Qed.

Lemma recv_ctl_msg_wp alloc client r d :
  daemon_ok d -> allowed (TControl alloc client r) d ->
  safe (recv_ctl_msg mmrp mvrp msrp alloc client r) (fun _ => daemon_ok) d.
Proof using.
  intros Hd Hal. destruct alloc, r as [again|[|b0 b]]; try (by apply wp_ret). cbn [recv_ctl_msg allowed] in *.
  set (text := take MAX_MRPD_CMDSZ (b0 :: b)) in *. destruct Hal as [Hb Hal]. apply wp_bind.
  assert (Hcmd : forall a, addressee text = Some a ->
    safe (on_app a (fun W A => ap_recv_cmd A text client)) (fun z => safe (mret (-1)) (fun _ => daemon_ok)) d).
  { intros a Ha. apply (on_app_wp a (fun W A L w => enabled a = true -> al_dumpable w)); [done| | |intros z d' Hd'; by apply wp_ret].
    - specialize (Hal a Ha). by destruct a.
    - intros W A L w Hw HP. unfold app_ok in *. destruct (enabled a); [by apply al_recv_cmd; auto|by apply al_none_recv_cmd]. }
  assert (Hbye : forall a d1 Q, daemon_ok d1 -> (forall x d', daemon_ok d' -> Q x d') ->
    safe (on_app a (fun W A => ap_bye A client)) Q d1).
  { intros a d1 Q Hd1 HQ. apply (on_app_wp a (fun _ _ _ _ => True)); [done|by destruct a| |done].
    intros W A L w Hw _. unfold app_ok in *. destruct (enabled a); [by apply al_bye|by apply al_none_bye]. }
  unfold process_ctl_msg. unfold addressee in Hcmd. destruct (length text <? 3)%nat; [by apply wp_ret, wp_ret|].
  destruct (_ =? 77); [by apply (Hcmd Mmrp)|]. destruct (_ =? 86); [by apply (Hcmd Mvrp)|].
  destruct (_ || _); [by apply (Hcmd Msrp)|]. destruct (_ =? 66).
  - apply wp_bind, (Hbye Mmrp); [done|]. intros _ d1 Hd1. apply wp_bind, (Hbye Mvrp); [done|]. intros _ d2 Hd2.
    apply wp_bind, (Hbye Msrp); [done|]. intros _ d3 Hd3. by apply wp_ret, wp_ret.
  - apply wp_bind. eapply wp_lift; [by apply c_string_Ok|]. apply wp_bind, wp_modify, wp_ret, wp_ret. destruct Hd. by constructor.
Qed.

Context (HT : timers_ok E).

Lemma run_task_wp t d : daemon_ok d -> of_enabled t -> allowed t d -> safe (run_task t) (fun _ => daemon_ok) d.
Proof using HT.
  intros Hd Hen Hal.
  assert (Hunit : forall {A} (m : DAEMON A), safe m (fun _ => daemon_ok) d -> safe (m;; mret tt) (fun _ => daemon_ok) d).
  { intros A m Hm. apply wp_bind. eapply wp_mono; [exact Hm|]. intros x d' Hd'. by apply wp_ret. }
  destruct t as [alloc client r|a alloc r|a e ready| |a|a|]; cbn [run_task of_enabled] in *.
  - apply Hunit. by apply recv_ctl_msg_wp.
  - apply Hunit. apply (on_app_wp a (fun W A L w => (length (mrpd_recvmsgbuf alloc r) <= al_max_frame)%nat)); [done| | |done].
    + assert (Hl : (length (mrpd_recvmsgbuf alloc r) <= app_max_frame a)%nat); [|by destruct a].
      unfold mrpd_recvmsgbuf. destruct alloc, r as [|b]; cbn [negb length]; try lia. rewrite length_take. cbn in Hal. lia.
    + intros W A L w Hw Hl. unfold app_ok in *. rewrite Hen in *. apply al_recv_msg; [done| |done].
      unfold mrpd_recvmsgbuf. destruct alloc, r as [|b]; try constructor. apply Forall_take, Hal.
  - apply (on_app_wp a (fun W A L w => ready = true -> al_sendable w)); [done| | |done].
    + assert (HP : ready = true -> app_sendable a d) by (destruct ready; [by intros _|done]). by destruct a.
    + intros W A L w Hw HP. unfold app_ok in *. rewrite Hen in *. by apply timer_task_wp.
  - apply Hunit. destruct Hd as [? ? ? Hs Hp ?]. unfold wp, periodic_event. rewrite Hs. cbn [mrp_periodictimer_fsm].
    pose proof (HT (d_asked d)). unfold mrp_periodictimer_start. destruct (Z.ltb_spec (os_timer E (d_asked d)) 0); [lia|].
    by constructor.
  - apply Hunit, (on_app_wp a (fun W A L => al_sendable)); [done|by destruct a| |done].
    intros W A L w Hw HP. unfold app_ok in *. rewrite Hen in *. by apply al_event.
  - apply Hunit, (on_app_wp a (fun _ _ _ _ => True)); [done|by destruct a| |done].
    intros W A L w Hw _. unfold app_ok in *. destruct (enabled a); [by apply al_reclaim|by apply al_none_reclaim].
  - apply Hunit. destruct Hd. unfold wp, gctimer_start.
    pose proof (HT (d_asked d)). destruct (Z.ltb_spec (os_timer E (d_asked d)) 0); [lia|]. by constructor.
Qed.

(** Whatever happened before, the next task is allowed. *)
Fixpoint allowed_run (ts : list task) (d : daemon) : Prop :=
  match ts with
  | [] => True
  | t :: ts => allowed t d /\ forall d', run_task t d = Ok (tt, d') -> allowed_run ts d'
  end.

Lemma run_tasks_wp ts : forall d,
  daemon_ok d -> Forall of_enabled ts -> allowed_run ts d -> safe (run_tasks ts) (fun _ => daemon_ok) d.
Proof using HT.
  induction ts as [|t ts IH]; intros d Hd Hen Hal; [done|]. apply Forall_cons in Hen as [Ht Hen]. destruct Hal as [Hal Hrest].
  pose proof (run_task_wp t d Hd Ht Hal) as Hrun. apply wp_returns in Hrun as ([]&d'&Hrun&Hd').
  apply wp_bind. unfold wp. rewrite Hrun. apply IH; auto.
Qed.

Lemma tasks_enabled s : Forall of_enabled (tasks_of s).
Proof using.
  assert (Hp : forall a p, Forall of_enabled (port_tasks a p)).
  { intros a p. unfold port_tasks. destruct (enabled a) eqn:Ha; [|constructor]. apply Forall_app. split.
    - destruct (pr_socket p) as [[alloc r]|]; by repeat constructor.
    - by repeat constructor. }
  unfold tasks_of. rewrite !Forall_app. split_and!; try apply Hp.
  - destruct (sel_control s) as [[[alloc client] r]|]; by repeat constructor.
  - destruct (sel_periodic s); [|constructor]. constructor; [done|]. apply Forall_fmap, Forall_forall.
    by intros a [Ha _]%list_elem_of_filter.
  - destruct (sel_gc s); by repeat constructor.
Qed.

Lemma round_wp s d : daemon_ok d -> allowed_run (tasks_of s) d -> safe (round s) (fun _ => daemon_ok) d.
Proof using HT.
  intros Hd Hal. unfold wp. rewrite (alike_at _ _ (round_tasks s)).
  by apply (run_tasks_wp (tasks_of s)); [|apply tasks_enabled|].
Qed.

(** ** The start *)

Abbreviation start := (mrpd_start mmrp mvrp msrp E (enabled Mmrp) (enabled Mvrp) (enabled Msrp)).

(** An initialisation that reports success leaves a consistent database exactly when the
    application is enabled. *)
Definition inits {W} {A : application W} {L : AppLaws A} (en : bool) (init : M W Z) : Prop :=
  forall w, safe init (fun rc w' => rc = 0 -> app_ok en w') w.

Lemma app_ok_present {W} {A : application W} {L : AppLaws A} en w : app_ok en w -> negb en || ap_present A w = true.
Proof using. unfold app_ok. destruct en; [|done]. by intros ->%al_ok_present. Qed.

(** What one initialisation leaves. *)
Lemma init_wp {W} {A : application W} {L : AppLaws A} get set en (init : M W Z) (f : Z -> DAEMON Z) d Q :
  (forall x (d : daemon), get (set x d) = x) -> inits en init ->
  (forall rc w', (rc = 0 -> app_ok en w') -> safe (f rc) Q (set w' d)) -> safe (rc ← on get set init; f rc) Q d.
Proof using.
  intros Hget Hi HQ. specialize (Hi (get d)). apply wp_bind. unfold wp, on in *. destruct (init (get d)) as [[rc w']|]; [|done].
  by apply HQ.
Qed.

Lemma start_wp rc_daemon rc_ctl im iv js cp cg d :
  inits (enabled Mmrp) im -> inits (enabled Mvrp) iv -> inits (enabled Msrp) js ->
  safe (start rc_daemon rc_ctl im iv js cp cg []) (fun rc d' => rc = 0 -> daemon_ok d') d.
Proof using HT.
  intros Him Hiv His. unfold mrpd_start.
  destruct (Z.eqb_spec rc_daemon 0) as [->|?]; cbn [negb]; [|by apply wp_ret].
  destruct (Z.eqb_spec rc_ctl 0) as [->|?]; cbn [negb fst mrp_init Z.eqb]; [|by apply wp_ret].
  apply (init_wp d_mmrp set_mmrp (enabled Mmrp)); [done..|]. intros rc w1 H1. destruct (Z.eqb_spec rc 0) as [->|?]; cbn [negb]; [|by apply wp_ret].
  apply (init_wp d_mvrp set_mvrp (enabled Mvrp)); [done..|]. intros rc w2 H2. destruct (Z.eqb_spec rc 0) as [->|?]; cbn [negb]; [|by apply wp_ret].
  apply (init_wp d_msrp set_msrp (enabled Msrp)); [done..|]. intros rc w3 H3. destruct (Z.eqb_spec rc 0) as [->|?]; cbn [negb]; [|by apply wp_ret].
  specialize (H1 eq_refl). specialize (H2 eq_refl). specialize (H3 eq_refl).
  set (d3 := set_msrp w3 (set_mvrp w2 (set_mmrp w1 d))). apply wp_bind. unfold init_timers.
  destruct (cp =? -1); [done|]. destruct (cg =? -1); [done|].
  unfold wp, gctimer_start, mbind, M_bind, mbind, outcome_bind. pose proof (HT (d_asked d3)) as Ht.
  destruct (Z.ltb_spec (os_timer E (d_asked d3)) 0); [lia|]. cbn [mret M_ret negb Z.eqb].
  unfold process_events, gets, mbind, M_bind, mbind, outcome_bind. cbn [d_mmrp d_mvrp d_msrp set_gc d3 set_msrp set_mvrp set_mmrp].
  rewrite (app_ok_present _ _ H1), (app_ok_present _ _ H2), (app_ok_present _ _ H3). cbn [andb negb periodic_event].
  unfold periodic_event. cbn [mrp_periodictimer_fsm mrp_periodictimer_start d_asked set_gc].
  cbn [Z.eqb negb process_rounds mret M_ret]. intros _. pose proof (HT (S (d_asked d))) as Hp. constructor; try done.
  cbn. by destruct (Z.ltb_spec (os_timer E (S (d_asked d))) 0); [lia|].
Qed.

(** ** Rounds with nothing to do *)

Definition quiet_task (t : task) : Prop := match t with TTimer _ _ false => True | _ => False end.

Lemma quiet_run ts d : daemon_ok d -> Forall of_enabled ts -> Forall quiet_task ts -> run_tasks ts d = Ok (tt, d).
Proof using.
  intros [Hm Hv Hs _ _ _]. induction ts as [|t ts IH]; intros Hen Hq; [done|].
  apply Forall_cons in Hen as [Ht Hen], Hq as [Hqt Hq]. destruct t as [| |a e [|]| | | |]; try done. cbn [run_tasks run_task of_enabled] in *.
  assert (Hone : on_app a (fun W A => timer_task e false A) d = Ok (tt, d)); [|unfold mbind, M_bind; rewrite Hone; by apply IH].
  assert (Hid : forall W (A : application W) (L : AppLaws A) w, al_ok w -> timer_task e false A w = Ok (tt, w)).
  { intros W A L w Hw. pose proof (al_timers w Hw) as Hti. apply wp_returns in Hti as ([]&w'&Hti&->).
    unfold timer_task, whenever, mbind, M_bind. by rewrite Hti. }
  unfold app_ok in *. destruct a; rewrite Ht in *; cbn [on_app]; unfold on_mmrp, on_mvrp, on_msrp, on;
    erewrite Hid by done; by destruct d.
Qed.

Lemma quiet_around t ts1 ts2 d d' :
  daemon_ok d -> daemon_ok d' -> Forall of_enabled (ts1 ++ ts2) -> Forall quiet_task (ts1 ++ ts2) ->
  run_task t d = Ok (tt, d') -> run_tasks (ts1 ++ t :: ts2) d = Ok (tt, d').
Proof using.
  intros Hd Hd' [He1 He2]%Forall_app [Hq1 Hq2]%Forall_app Hrun. rewrite (alike_at _ _ (run_tasks_app ts1 (t :: ts2))).
  unfold mbind, M_bind. rewrite quiet_run by done. cbn [outcome_bind mbind run_tasks]. unfold mbind, M_bind. rewrite Hrun.
  by apply quiet_run.
Qed.

End Rounds.
