(* ===== verification/MrpdPeer.v ===== *)
(** * The MRP daemon: from a client's command to a neighbour's registration

    Rounds with a single ready descriptor, and two daemons on a link: a client of the
    first asks for a VLAN, the join timer of the first expires, the second receives the
    frame.  The other applications are known by [AppLaws] only. *)

From S2P Require Import Prelude.
From S2P Require Import CText.
From S2P Require Import Mrp.
From S2P Require Import MrpTheory.
From S2P Require Import Mvrp.
From S2P Require Import MvrpTheory.
From S2P Require Import MvrpEmit.
From S2P Require Import MvrpEvent.
From S2P Require Import MvrpRecv.
From S2P Require Import MvrpWire.
From S2P Require Import MvrpPeer.
From S2P Require Import MvrpCmd.
From S2P Require Import Mrpd.
From S2P Require Import MrpdApps.
From S2P Require Import MrpdTheory.
From Stdlib Require Import String.

Open Scope Z_scope.
Local Abbreviation length := List.length.

(** ** Rounds with one ready descriptor *)

Definition idle_port : port_ready := mkPort None false false false.

Definition only_control (client : sockaddr_in) (text : list Z) : selected :=
  mkSelected (Some (true, client, RecvBytes text)) idle_port idle_port idle_port false false.

Definition only_mvrp (p : port_ready) : selected := mkSelected None idle_port p idle_port false false.

Definition join_expired : port_ready := mkPort None false false true.
Definition frame_ready (f : list Z) : port_ready := mkPort (Some (true, RecvBytes f)) false false false.

Section Single.
Context {Wm Wv Ws : Type} (mmrp : application Wm) (mvrp : application Wv) (msrp : application Ws).
Context {Lm : AppLaws mmrp} {Lv : AppLaws mvrp} {Ls : AppLaws msrp}.
Context (E : Os) (enabled : app_id -> bool).

Abbreviation round := (process_round mmrp mvrp msrp E (enabled Mmrp) (enabled Mvrp) (enabled Msrp)).
Abbreviation run_task := (run_task mmrp mvrp msrp E).
Abbreviation ok := (daemon_ok mmrp mvrp msrp enabled).
Abbreviation of_enabled := (of_enabled enabled).

Lemma idle_port_tasks a : Forall (fun t => of_enabled t /\ quiet_task t) (port_tasks enabled a idle_port).
Proof using. unfold port_tasks. destruct (enabled a) eqn:Ha; by repeat constructor. Qed.

Lemma single_round s t ts1 ts2 d d' :
  tasks_of enabled s = ts1 ++ t :: ts2 -> Forall (fun t => of_enabled t /\ quiet_task t) (ts1 ++ ts2) ->
  ok d -> ok d' -> run_task t d = Ok (tt, d') -> round s d = Ok (tt, d').
Proof using.
  intros Hs [Hen Hq]%Forall_and Hd Hd' Hrun. rewrite (alike_at _ _ (round_tasks _ _ _ _ _ s)), Hs.
  by apply (quiet_around mmrp mvrp msrp E enabled).
Qed.

Lemma control_round client text d d' :
  ok d -> ok d' -> run_task (TControl true client (RecvBytes text)) d = Ok (tt, d') ->
  round (only_control client text) d = Ok (tt, d').
Proof using.
  apply (single_round _ _ [] (port_tasks enabled Mmrp idle_port ++ port_tasks enabled Mvrp idle_port ++
                              port_tasks enabled Msrp idle_port)).
  - unfold tasks_of. cbn [sel_control sel_mmrp sel_mvrp sel_msrp sel_periodic sel_gc only_control app]. by rewrite !app_nil_r.
  - cbn [app]. rewrite !Forall_app. split_and!; apply idle_port_tasks.
Qed.

Lemma join_round d d' :
  enabled Mvrp = true -> ok d -> ok d' -> run_task (TTimer Mvrp EVENT_TX true) d = Ok (tt, d') ->
  round (only_mvrp join_expired) d = Ok (tt, d').
Proof using.
  intros Hen. apply (single_round _ _
    (port_tasks enabled Mmrp idle_port ++ [TTimer Mvrp EVENT_LVATIMER false; TTimer Mvrp EVENT_LVTIMER false])
    (port_tasks enabled Msrp idle_port)).
  - unfold tasks_of. cbn [sel_control sel_mmrp sel_mvrp sel_msrp sel_periodic sel_gc only_mvrp].
    rewrite <- (assoc_L (++)), !app_nil_r. unfold port_tasks at 2. rewrite Hen. done.
  - rewrite !Forall_app. split_and!; try apply idle_port_tasks. by repeat constructor.
Qed.

Lemma frame_round f d d' :
  enabled Mvrp = true -> ok d -> ok d' -> run_task (TFrame Mvrp true (RecvBytes f)) d = Ok (tt, d') ->
  round (only_mvrp (frame_ready f)) d = Ok (tt, d').
Proof using.
  intros Hen. apply (single_round _ _ (port_tasks enabled Mmrp idle_port)
    ([TTimer Mvrp EVENT_LVATIMER false; TTimer Mvrp EVENT_LVTIMER false; TTimer Mvrp EVENT_TX false] ++
     port_tasks enabled Msrp idle_port)).
  - unfold tasks_of. cbn [sel_control sel_mmrp sel_mvrp sel_msrp sel_periodic sel_gc only_mvrp].
    unfold port_tasks at 2. rewrite Hen, !app_nil_r. done.
  - rewrite !Forall_app. split_and!; try apply idle_port_tasks. by repeat constructor.
Qed.

(** The tasks of the MVRP application. *)
Lemma control_mvrp client text rc w d :
  addressee text = Some Mvrp -> (length text <= MAX_MRPD_CMDSZ)%nat -> ap_recv_cmd mvrp text client (d_mvrp d) = Ok (rc, w) ->
  run_task (TControl true client (RecvBytes text)) d = Ok (tt, set_mvrp w d).
Proof using.
  intros Ha Hl Hc. assert (Hp : process_ctl_msg mmrp mvrp msrp text client d = Ok (rc, set_mvrp w d)).
  { unfold process_ctl_msg, addressee in *. destruct (length text <? 3)%nat; [done|]. destruct (_ =? 77); [done|].
    destruct (_ =? 86); [|by destruct (_ || _)]. unfold on_mvrp, on. by rewrite Hc. }
  assert (Ht : take MAX_MRPD_CMDSZ text = text) by (by apply take_ge). destruct text as [|c text]; [done|].
  cbn [MrpdTheory.run_task recv_ctl_msg]. rewrite Ht. unfold mbind, M_bind. by rewrite Hp.
Qed.

Lemma timer_mvrp e rc w d :
  al_ok (A := mvrp) (d_mvrp d) -> ap_event mvrp e (d_mvrp d) = Ok (rc, w) ->
  run_task (TTimer Mvrp e true) d = Ok (tt, set_mvrp w d).
Proof using.
  intros Hd He. pose proof (al_timers _ Hd) as Hti. apply wp_returns in Hti as ([]&w'&Hti&->).
  cbn [MrpdTheory.run_task on_app]. unfold on_mvrp, on, timer_task, whenever, mbind, M_bind. rewrite Hti. cbn [mbind outcome_bind].
  by rewrite He.
Qed.

Lemma frame_mvrp f rc w d :
  (length f <= MAX_FRAME_SIZE)%nat -> ap_recv_msg mvrp f (d_mvrp d) = Ok (rc, w) ->
  run_task (TFrame Mvrp true (RecvBytes f)) d = Ok (tt, set_mvrp w d).
Proof using.
  intros Hl Hf. cbn [MrpdTheory.run_task on_app mrpd_recvmsgbuf negb]. rewrite take_ge by done.
  unfold on_mvrp, on, mbind, M_bind. by rewrite Hf.
Qed.

(** A new state of the MVRP application. *)
Lemma set_mvrp_ok w d : enabled Mvrp = true -> ok d -> al_ok (A := mvrp) w -> ok (set_mvrp w d).
Proof using. intros Hen [] Hw. constructor; try done. unfold app_ok. cbn. by rewrite Hen. Qed.

End Single.

(** ** What a request leaves in the table *)

(** A VID that is asked for as new is to be declared. *)
Lemma new_entry p2pmac o : exists e, attribute_entry p2pmac EVENT_NEW o = Some e /\ (0 < owed e.1)%nat.
Proof.
  destruct o as [[a r]|]; [|eexists; split; [by vm_compute|cbn; lia]].
  destruct a, r; eexists; (split; [by cbn|cbn; lia]).
Qed.

Lemma table_owing p2pmac m vid t :
  sorted (attrib_list m) -> table (attrib_list m) = spec_event p2pmac EVENT_NEW (Some vid) t ->
  exists x, x ∈ attrib_list m /\ attribute x = vid /\ (0 < owed (app_state (applicant x)))%nat.
Proof.
  intros Hs Ht. destruct (new_entry p2pmac (t !! vid)) as (e&He&Ho).
  assert (Hl : table (attrib_list m) !! vid = Some e) by (rewrite Ht; cbn; by rewrite lookup_partial_alter_eq).
  rewrite table_lookup in Hl. destruct (mvrp_lookup vid _) as [x|] eqn:Hx; [|done]. injection Hl as <-.
  apply lookup_attribute in Hx as [? ?]. by exists x.
Qed.

Lemma dom_table l : dom (table l) = list_to_set (attribute <$> l).
Proof. unfold table. by rewrite dom_list_to_map_L, <- list_fmap_compose. Qed.

Lemma dom_new p2pmac vid t : dom (spec_event p2pmac EVENT_NEW (Some vid) t) ⊆ {[vid]} ∪ dom t.
Proof.
  intros v. rewrite elem_of_union, elem_of_singleton, !elem_of_dom. cbn [spec_event].
  destruct (decide (v = vid)) as [->|Hne]; [by left|]. rewrite lookup_partial_alter_ne by done. by right.
Qed.

(** The table has at most one VID more, and that is a valid one. *)
Lemma new_vids p2pmac m m' vid :
  sorted (attrib_list m) -> sorted (attrib_list m') ->
  table (attrib_list m') = spec_event p2pmac EVENT_NEW (Some vid) (table (attrib_list m)) ->
  0 <= vid <= 0xFFF -> Forall valid_vid (attrib_list m) ->
  Forall valid_vid (attrib_list m') /\ (length (attrib_list m') <= S (length (attrib_list m)))%nat.
Proof.
  intros Hs0 Hs Ht Hv Hm. pose proof (dom_new p2pmac vid (table (attrib_list m))) as Hd. rewrite <- Ht, !dom_table in Hd. split.
  - apply Forall_forall. intros x Hx. assert (Hin : attribute x ∈ attribute <$> attrib_list m') by (by apply list_elem_of_fmap_2).
    apply (elem_of_list_to_set (C := gset Z)), Hd in Hin. rewrite elem_of_union, elem_of_singleton, elem_of_list_to_set in Hin.
    unfold valid_vid. destruct Hin as [->|(y&->&Hy)%list_elem_of_fmap]; [done|by apply (proj1 (Forall_forall _ _) Hm y)].
  - apply subseteq_size in Hd. pose proof (sorted_nodup _ Hs) as Hnd. rewrite size_list_to_set in Hd by done.
    rewrite length_fmap in Hd. etrans; [exact Hd|]. rewrite size_union_alt, size_singleton. apply le_n_S.
    etrans; [apply subseteq_size, subseteq_difference_l; reflexivity|].
    rewrite size_list_to_set by (by apply sorted_nodup). by rewrite length_fmap.
Qed.

(** ** The sender *)

Section Sender.
Context {Wm Ws : Type} (mmrp : application Wm) (msrp : application Ws) {Lm : AppLaws mmrp} {Ls : AppLaws msrp}.
Context (E : Os) (p2pmac : Z) (addr : list Z) (HS : station E addr) (enabled : app_id -> bool).
Context (Hen : enabled Mvrp = true).

Abbreviation mvrp := (mvrp_app E p2pmac addr).
Abbreviation round := (process_round mmrp mvrp msrp E (enabled Mmrp) (enabled Mvrp) (enabled Msrp)).

#[local] Instance sender_laws : AppLaws mvrp := mvrp_laws E p2pmac addr (st_timers _ _ HS) (st_random _ _ HS) (st_length _ _ HS).

Abbreviation ok := (daemon_ok mmrp mvrp msrp enabled).

Lemma ok_db d : ok d -> exists m fr ms, d_mvrp d = at_db m fr ms /\ Inv m.
Proof using Hen. intros [_ H _ _ _ _]. unfold app_ok in H. by rewrite Hen in H. Qed.

(** A client's request for a new VID: the databases of the other applications stay as they
    are, the VID is to be declared. *)
Lemma request_round client vid pad m fr ms d :
  ok d -> d_mvrp d = at_db m fr ms -> is_u16 vid -> (pad < 1490)%nat ->
  exists m' fr' ms',
    round (only_control client (vid_command "V++" vid pad)) d = Ok (tt, set_mvrp (at_db m' fr' ms') d) /\
    ok (set_mvrp (at_db m' fr' ms') d) /\
    table (attrib_list m') = spec_event p2pmac EVENT_NEW (Some vid) (table (attrib_list m)).
Proof using Hen.
  intros Hd Hm Hv Hpad. destruct (ok_db d Hd) as (m0&fr0&ms0&H0&HI). rewrite Hm in H0. injection H0 as <- <- <-.
  pose proof (recv_vid_command_wp E p2pmac addr (st_timers _ _ HS) (st_random _ _ HS) (st_length _ _ HS)
    "V++" EVENT_NEW vid pad client m fr ms HI op_new Hv (st_malloc _ _ HS)) as Hc.
  apply wp_returns in Hc as (rc&w&Hc&->&m'&fr'&ms'&->&HI'&_&_&Ht). exists m', fr', ms'.
  assert (Hd' : ok (set_mvrp (at_db m' fr' ms') d)) by (apply set_mvrp_ok; [done..|]; by exists m', fr', ms').
  split_and!; [|done..]. eapply control_round; [done..|]. eapply control_mvrp; [done| |by rewrite Hm].
  unfold vid_command, MAX_MRPD_CMDSZ. rewrite !length_app, length_replicate, fmt_x_exact by (done || lia). cbn [length str]. lia.
Qed.

(** The next expiry of the join timer puts one frame on the wire, which declares it. *)
Lemma transmit_round m fr ms d x :
  ok d -> d_mvrp d = at_db m fr ms -> fits m -> Forall valid_vid (attrib_list m) ->
  x ∈ attrib_list m -> mandatory (at_tx p2pmac x) ->
  exists m' ms' lva gs,
    round (only_mvrp join_expired) d = Ok (tt, set_mvrp (at_db m' (fr ++ [pdu addr lva gs]) ms') d) /\
    ok (set_mvrp (at_db m' (fr ++ [pdu addr lva gs]) ms') d) /\ carries p2pmac addr m lva gs.
Proof using Hen.
  intros Hd Hm Hfit Hval Hx Hman. destruct (ok_db d Hd) as (m0&fr0&ms0&H0&HI). rewrite Hm in H0. injection H0 as <- <- <-.
  pose proof (event_tx_frame E p2pmac addr (st_timers _ _ HS) (st_malloc _ _ HS) (st_length _ _ HS) m fr ms x HI Hfit Hval Hx Hman) as Htx.
  pose proof (mvrp_event_wp E p2pmac addr (st_timers _ _ HS) (st_random _ _ HS) (st_length _ _ HS) EVENT_TX None m fr ms HI) as Hev.
  apply wp_returns in Htx as (rc&w&Htx&m'&ms'&gs&->&Hc).
  set (lva := lva_tx _) in *. exists m', ms', lva, gs.
  assert (Hok : al_ok (A := mvrp) (at_db m' (fr ++ [pdu addr lva gs]) ms')).
  { apply wp_returns in Hev as (rc'&w'&Hev&m1&fr1&ms1&->&HI1&_); [|done]. rewrite Htx in Hev.
    injection Hev as Hrc Hm1 Hfr Hms. subst. by exists m1, (fr ++ [pdu addr lva gs]), ms1. }
  assert (Hd' : ok (set_mvrp (at_db m' (fr ++ [pdu addr lva gs]) ms') d)) by (by apply set_mvrp_ok).
  split_and!; [|done..]. eapply join_round; [done..|]. eapply timer_mvrp; [rewrite Hm; by exists m, fr, ms|]. rewrite Hm. exact Htx.
Qed.

End Sender.

(** ** The receiver *)

Section Receiver.
Context {Wm Ws : Type} (mmrp : application Wm) (msrp : application Ws) {Lm : AppLaws mmrp} {Ls : AppLaws msrp}.
Context (E : Os) (p2pmac : Z) (addr : list Z) (HS : station E addr) (enabled : app_id -> bool).
Context (Hen : enabled Mvrp = true).

Abbreviation mvrp := (mvrp_app E p2pmac addr).
Abbreviation round := (process_round mmrp mvrp msrp E (enabled Mmrp) (enabled Mvrp) (enabled Msrp)).

#[local] Instance receiver_laws : AppLaws mvrp := sender_laws E p2pmac addr HS.

Abbreviation ok := (daemon_ok mmrp mvrp msrp enabled).

(** The round that receives a frame of a station registers what it declares. *)
Lemma receive_round E' p2pmac' addr' m lva gs d x :
  ok d -> station E' addr' -> carries p2pmac' addr' m lva gs -> x ∈ attrib_list m ->
  mandatory (at_tx p2pmac' x) -> declares (at_tx p2pmac' x) ->
  exists mB fr ms,
    round (only_mvrp (frame_ready (pdu addr' lva gs))) d = Ok (tt, set_mvrp (at_db mB fr ms) d) /\
    ok (set_mvrp (at_db mB fr ms) d) /\ reg_at (table (attrib_list mB)) (attribute x) = Some IN.
Proof using Hen.
  intros Hd [_ _ _ Ha' Hb'] Hc Hx Hman Hdec. destruct (ok_db mmrp msrp E p2pmac addr HS enabled Hen d Hd) as (m0&fr0&ms0&Hm0&HI).
  pose proof (carries_all _ _ _ _ _ Hc x Hx Hman) as Hin.
  assert (Hgs : gs <> []) by (intros ->; by apply not_elem_of_nil in Hin).
  pose proof (recv_pdu_wp E p2pmac addr (st_timers _ _ HS) (st_random _ _ HS) (st_malloc _ _ HS) (st_length _ _ HS) addr' Hb' Ha'
    lva gs m0 fr0 ms0 HI (carries_runs _ _ _ _ _ Hc) Hgs (carries_size _ _ _ _ _ Hc)) as Hrx.
  apply wp_returns in Hrx as (rc&w&Hrx&->&mB&fr&ms&->&(HIB&_&_)&Ht). exists mB, fr, ms.
  assert (Hd' : ok (set_mvrp (at_db mB fr ms) d)) by (apply set_mvrp_ok; [done..|]; by exists mB, fr, ms).
  split_and!; [|done|].
  - eapply frame_round; [done..|]. eapply frame_mvrp; [apply (carries_size _ _ _ _ _ Hc)|]. rewrite Hm0. exact Hrx.
  - rewrite Ht. apply (delivered_at p2pmac lva gs _ (at_tx p2pmac' x) (fun o => o = Some IN)); [apply Hc|done|].
    intros t' _. by apply deliver_declares.
Qed.

End Receiver.
