(* ===== verification/MrpdCorrect.v ===== *)
(** * The MRP daemon: theorems

    The properties of daemons/mrpd/mrpd.c with the three applications in place, each with
    an instance at concrete daemons. *)

From S2P Require Import Prelude.
From S2P Require Import CText.
From S2P Require Import Mrp.
From S2P Require Import MrpTheory.
From S2P Require Import Mvrp.
From S2P Require Import MvrpTheory.
From S2P Require Import MvrpEmit.
From S2P Require Import MvrpEvent.
From S2P Require Import MvrpWire.
From S2P Require Import MvrpPeer.
From S2P Require Import MvrpCmd.
From S2P Require Import Mmrp.
From S2P Require Import MmrpEvent.
From S2P Require Import MmrpCmd.
From S2P Require Import EuiSet.
From S2P Require Import Msrp.
From S2P Require Import MsrpRun.
From S2P Require Import MsrpEvent.
From S2P Require Import MsrpCmd.
From S2P Require Import Mrpd.
From S2P Require Import MrpdApps.
From S2P Require Import MrpdTheory.
From S2P Require Import MrpdPeer.
From Stdlib Require Import String.

Open Scope Z_scope.
Local Abbreviation length := List.length.

(** ** The daemon with its applications *)

Abbreviation mrpd := (@daemon mmrp_world mvrp_world msrp_world).

(** Which applications the options enable. *)
Definition enabled_by (o : options) (a : app_id) : bool :=
  match a with Mmrp => o_mmrp o | Mvrp => o_mvrp o | Msrp => o_msrp o end.

Section Complete.
Context {C : CSort} (E : Os) (p2pmac : Z) (addr : list Z) (uninit : nat -> list Z) (enabled : app_id -> bool).

(** A round of the select loop. *)
Definition mrpd_round (s : selected) : M mrpd unit :=
  process_round (mmrp_app E p2pmac addr uninit) (mvrp_app E p2pmac addr) (msrp_app E p2pmac addr) E
    (enabled Mmrp) (enabled Mvrp) (enabled Msrp) s.

Context (HS : station E addr).

#[local] Instance complete_mmrp : AppLaws (mmrp_app E p2pmac addr uninit) :=
  mmrp_laws E p2pmac addr uninit (st_timers _ _ HS) (st_random _ _ HS) (st_length _ _ HS).
#[local] Instance complete_mvrp : AppLaws (mvrp_app E p2pmac addr) := sender_laws E p2pmac addr HS.
#[local] Instance complete_msrp : AppLaws (msrp_app E p2pmac addr) :=
  msrp_laws E p2pmac addr (st_timers _ _ HS) (st_random _ _ HS) (st_length _ _ HS).

(** The daemon is consistent. *)
Definition mrpd_ok : mrpd -> Prop :=
  daemon_ok (mmrp_app E p2pmac addr uninit) (mvrp_app E p2pmac addr) (msrp_app E p2pmac addr) enabled.

(** The round is within what the buffers of the daemon hold. *)
Definition mrpd_allows (s : selected) : mrpd -> Prop :=
  allowed_run (mmrp_app E p2pmac addr uninit) (mvrp_app E p2pmac addr) (msrp_app E p2pmac addr) E enabled (tasks_of enabled s).

(** The states between the rounds. *)
Inductive mrpd_reaches (d0 : mrpd) : mrpd -> Prop :=
  | reaches_start : mrpd_reaches d0 d0
  | reaches_round d s d' : mrpd_reaches d0 d -> mrpd_allows s d -> mrpd_round s d = Ok (tt, d') -> mrpd_reaches d0 d'.

Lemma reaches_ok d0 d : mrpd_ok d0 -> mrpd_reaches d0 d -> mrpd_ok d.
Proof using.
  intros H0. induction 1 as [|d s d' _ IH Hal Hrun]; [done|].
  pose proof (round_wp _ _ _ E enabled (st_timers _ _ HS) s d IH Hal) as Hw. unfold wp in Hw.
  unfold mrpd_round in Hrun. by rewrite Hrun in Hw.
Qed.

(** *** Initialisation *)

Lemma mmrp_inits en rs mal rt : inits (A := mmrp_app E p2pmac addr uninit) en (mmrp_init E (int_of en) rs mal rt).
Proof using.
  intros w. eapply wp_mono; [apply mmrp_init_wp; apply HS|]. intros rc [p fr ms] (_&_&Hdb) ->. cbn [MMRP_db] in Hdb.
  unfold app_ok. destruct p as [| |m]; [by destruct en, Hdb|done|]. destruct Hdb as (_&?&?&_).
  destruct en; [by exists m, fr, ms|done].
Qed.

Lemma mvrp_inits en rs mal rt : inits (A := mvrp_app E p2pmac addr) en (mvrp_init E (int_of en) rs mal rt).
Proof using.
  intros w. eapply wp_mono; [apply mvrp_init_wp; apply HS|]. intros rc [p fr ms] (_&_&Hdb) ->. cbn [MVRP_db] in Hdb.
  unfold app_ok. destruct p as [| |m]; [by destruct en, Hdb|done|]. destruct Hdb as (_&?&?&_).
  destruct en; [by exists m, fr, ms|done].
Qed.

Lemma msrp_inits en max pr rs mal cal rt :
  inits (A := msrp_app E p2pmac addr) en (msrp_init E (int_of en) max pr rs mal cal rt).
Proof using.
  intros w. eapply wp_mono; [apply msrp_init_wp; apply HS|]. intros rc [p fr ms] (_&_&Hdb) ->. cbn [MSRP_db] in Hdb.
  unfold app_ok. destruct p as [| |m]; [by destruct en, Hdb|done|]. destruct Hdb as (_&?&?&_).
  destruct en; [by exists m, fr, ms|done].
Qed.

End Complete.

(** A start that succeeds ends before the first round in a consistent state. *)
Lemma main_ok {C : CSort} E addr uninit (HS : station E addr) args c o d0 d1 :
  main_options args false = Some o -> mrpd_main E addr uninit args false c [] d0 = Ok (Some 0, d1) ->
  mrpd_ok E (snd mrp_init) addr uninit (enabled_by o) HS d1.
Proof.
  intros Ho Hmain. unfold mrpd_main in Hmain. rewrite Ho in Hmain.
  destruct (sc_mmrp c) as [[m1 m2] m3], (sc_mvrp c) as [[v1 v2] v3], (sc_msrp c) as [[[s1 s2] s3] s4].
  pose proof (start_wp (mmrp_app E (snd mrp_init) addr uninit) (mvrp_app E (snd mrp_init) addr) (msrp_app E (snd mrp_init) addr)
    (Lm := complete_mmrp E (snd mrp_init) addr uninit HS) (Lv := complete_mvrp E (snd mrp_init) addr HS)
    (Ls := complete_msrp E (snd mrp_init) addr HS)
    E (enabled_by o) (st_timers _ _ HS) (if o_daemonize o then sc_daemon c else 0) (sc_ctl c) _ _ _ (sc_periodic c) (sc_gc c) d0
    (mmrp_inits E (snd mrp_init) addr uninit HS (o_mmrp o) m1 m2 m3) (mvrp_inits E (snd mrp_init) addr HS (o_mvrp o) v1 v2 v3)
    (msrp_inits E (snd mrp_init) addr HS (o_msrp o) MSRP_INTERESTING_STREAM_ID_COUNT (o_pruning o) s1 s2 s3 s4)) as Hw.
  unfold wp in Hw. unfold mbind, M_bind, mbind, outcome_bind in Hmain. cbn [enabled_by] in Hw.
  destruct (mrpd_start _ _ _ _ _ _ _ _ _ _ _ _ _ _ _ d0) as [[rc d]|]; [|done].
  injection Hmain as -> ->. by apply Hw.
Qed.

(** ** Concrete daemons *)

Definition args_all : list (Z * list Z) := [(109, []); (118, []); (115, []); (105, str "eth0")].
Definition options_all : options := mkOptions true true true false false false (Some (str "eth0")).
Definition calls_ok : start_calls := mkCalls 0 0 (5, true, 0) (6, true, 0) (7, true, true, 0) 20 21.
Definition daemon_0 : mrpd :=
  mkDaemon (mkMmrp MmNoDb [] []) (mkMvrp NoDb [] []) (mkMsrp MsNoDb [] []) TIMER_PASSIVE None None 0 [].
Definition uninit_0 (n : nat) : list Z := replicate n 0.

(** The daemon behind a successful start with all applications. *)
Definition daemon_1 (addr : list Z) : mrpd :=
  match mrpd_main os0 addr uninit_0 args_all false calls_ok [] daemon_0 with Ok (_, d) => d | Fault _ => daemon_0 end.

Lemma daemon_1_start addr : mrpd_main os0 addr uninit_0 args_all false calls_ok [] daemon_0 = Ok (Some 0, daemon_1 addr).
Proof. unfold daemon_1. by vm_compute. Qed.

Abbreviation P2P := (snd mrp_init).
Abbreviation all := (enabled_by options_all).

Lemma daemon_1_ok addr (HS : station os0 addr) : mrpd_ok os0 P2P addr uninit_0 all HS (daemon_1 addr).
Proof. by eapply main_ok; [|apply daemon_1_start]. Qed.

Definition a_client : sockaddr_in := mkSockaddr 2 7500 1 [].

(** ** Consistency *)

(** C25: the daemon stays consistent.  From any start of the process that succeeds, with
    any options, on a station whose timers can be set and whose memory does not run out
    while it runs, every state between rounds is consistent: the enabled applications have a well-formed database (sorted, armed
    timers, nothing pending), the others have none, the periodic machine is active and
    the timers of the process are armed; and the next round, whatever descriptors are
    ready, runs to its end without a fault, as long as it is within the buffers of the
    daemon: a command is shorter than the 1500 bytes of its buffer or holds a zero (the
    source reads past the end of one that fills it), a frame leaves some bytes of its
    buffer free, and the tables fit the reply to a command and the frames of a timer. *)
Theorem mrpd_stays_consistent {C : CSort} E addr uninit args c o d0 d1 d (HS : station E addr) :
  main_options args false = Some o -> mrpd_main E addr uninit args false c [] d0 = Ok (Some 0, d1) ->
  mrpd_reaches E P2P addr uninit (enabled_by o) HS d1 d ->
  mrpd_ok E P2P addr uninit (enabled_by o) HS d /\
  forall s, mrpd_allows E P2P addr uninit (enabled_by o) HS s d ->
    exists d', mrpd_round E P2P addr uninit (enabled_by o) s d = Ok (tt, d') /\ mrpd_ok E P2P addr uninit (enabled_by o) HS d'.
Proof.
  intros Ho Hmain Hr. assert (Hd : mrpd_ok E P2P addr uninit (enabled_by o) HS d)
    by (eapply reaches_ok; [by eapply main_ok|done]). split; [done|]. intros s Hal.
  pose proof (round_wp _ _ _ E (enabled_by o) (st_timers _ _ HS) s d Hd Hal) as Hw.
  apply wp_returns in Hw as ([]&d'&Hrun&Hd'). by exists d'.
Qed.

(** A client asks for a VLAN, then all timers expire. *)
Definition all_expired : port_ready := mkPort None true true true.
Definition busy : selected :=
  mkSelected (Some (true, a_client, RecvBytes (vid_command "V++" 5 0))) all_expired all_expired all_expired true true.

Lemma mrpd_stays_consistent_witness :
  exists d', mrpd_round os0 P2P addr_a uninit_0 all busy (daemon_1 addr_a) = Ok (tt, d') /\
    mrpd_ok os0 P2P addr_a uninit_0 all addr_a_ok d'.
Proof.
  refine (proj2 (mrpd_stays_consistent os0 addr_a uninit_0 args_all calls_ok options_all daemon_0 (daemon_1 addr_a)
    (daemon_1 addr_a) addr_a_ok eq_refl (daemon_1_start addr_a) (reaches_start _ _ _ _ _ _ _)) busy _).
  unfold mrpd_allows. cbn [tasks_of sel_control sel_mmrp sel_mvrp sel_msrp sel_periodic sel_gc busy app port_tasks all_expired].
  repeat (split; [|let H := fresh in intros d' H; vm_compute in H; injection H as <-]);
    try exact I; try (intros a Ha _; injection Ha as <-); vm_compute; try exact I; lia.
Defined.

(** ** Rounds *)

(** C27: a client's request reaches the neighbour's registrar.  Two daemons with MVRP
    enabled, whatever their other applications, at most 389 VLANs in A's table and any
    table in B: the round in which a client
    of A asks for a VLAN, the round of A in which the join timer expires and the round
    of B that receives the frame run without a fault; A's second round puts exactly one
    frame on the wire; B ends with the VLAN registered; everything but the MVRP
    database is unchanged on both sides. *)
Theorem mrpd_vlan_request_reaches_peer {C : CSort} EA EB pA pB addrA addrB uninitA uninitB enA enB
    (HA : station EA addrA) (HB : station EB addrB) client vid pad mA frA msA dA dB :
  enA Mvrp = true -> enB Mvrp = true ->
  mrpd_ok EA pA addrA uninitA enA HA dA -> mrpd_ok EB pB addrB uninitB enB HB dB ->
  d_mvrp dA = at_db mA frA msA -> (length (attrib_list mA) < 390)%nat -> Forall valid_vid (attrib_list mA) ->
  0 <= vid <= 0xFFF -> (pad < 1490)%nat ->
  exists w1 w2 f mB frB msB,
    mrpd_round EA pA addrA uninitA enA (only_control client (vid_command "V++" vid pad)) dA = Ok (tt, set_mvrp w1 dA) /\
    mrpd_round EA pA addrA uninitA enA (only_mvrp join_expired) (set_mvrp w1 dA) = Ok (tt, set_mvrp w2 dA) /\
    frames w2 = frames w1 ++ [f] /\
    mrpd_round EB pB addrB uninitB enB (only_mvrp (frame_ready f)) dB = Ok (tt, set_mvrp (at_db mB frB msB) dB) /\
    mrpd_ok EB pB addrB uninitB enB HB (set_mvrp (at_db mB frB msB) dB) /\
    reg_at (table (attrib_list mB)) vid = Some IN.
Proof.
  intros HenA HenB HdA HdB HmA Hlen Hval Hvid Hpad.
  destruct (ok_db _ _ EA pA addrA HA enA HenA dA HdA) as (m0&fr0&ms0&H0&HI). rewrite HmA in H0. injection H0 as <- <- <-.
  destruct (request_round _ _ EA pA addrA HA enA HenA client vid pad mA frA msA dA HdA HmA) as (m1&fr1&ms1&Hr1&Hd1&Ht1);
    [unfold is_u16; lia|done|].
  destruct (ok_db _ _ EA pA addrA HA enA HenA _ Hd1) as (m0&fr0&ms0&H0&HI1). injection H0 as <- <- <-.
  destruct (new_vids pA mA m1 vid) as [Hval1 Hlen1]; [apply HI|apply HI1|done..|].
  destruct (table_owing pA m1 vid _ ltac:(apply HI1) Ht1) as (x&Hx&Hxv&Ho). destruct (owed_mandatory pA x Ho) as [Hman Hdec].
  destruct (transmit_round _ _ EA pA addrA HA enA HenA m1 fr1 ms1 _ x Hd1 eq_refl) as (m2&ms2&lva&gs&Hr2&Hd2&Hc);
    [unfold fits; lia|done..|].
  destruct (receive_round _ _ EB pB addrB HB enB HenB EA pA addrA m1 lva gs dB x HdB HA Hc Hx Hman Hdec) as (mB&frB&msB&Hr3&Hd3&Hreg).
  eexists _, _, (pdu addrA lva gs), mB, frB, msB. split_and!; [exact Hr1|exact Hr2|done|exact Hr3|exact Hd3|by rewrite <- Hxv].
Qed.

(** Both daemons have just started. *)
Lemma mrpd_vlan_request_reaches_peer_witness :
  exists w1 w2 f mB frB msB,
    mrpd_round os0 P2P addr_a uninit_0 all (only_control a_client (vid_command "V++" 5 3)) (daemon_1 addr_a) =
      Ok (tt, set_mvrp w1 (daemon_1 addr_a)) /\
    mrpd_round os0 P2P addr_a uninit_0 all (only_mvrp join_expired) (set_mvrp w1 (daemon_1 addr_a)) =
      Ok (tt, set_mvrp w2 (daemon_1 addr_a)) /\
    frames w2 = frames w1 ++ [f] /\
    mrpd_round os0 P2P addr_b uninit_0 all (only_mvrp (frame_ready f)) (daemon_1 addr_b) =
      Ok (tt, set_mvrp (at_db mB frB msB) (daemon_1 addr_b)) /\
    mrpd_ok os0 P2P addr_b uninit_0 all addr_b_ok (set_mvrp (at_db mB frB msB) (daemon_1 addr_b)) /\
    reg_at (table (attrib_list mB)) 5 = Some IN.
Proof.
  refine (mrpd_vlan_request_reaches_peer os0 os0 P2P P2P addr_a addr_b uninit_0 uninit_0 all all addr_a_ok addr_b_ok
    a_client 5 3 _ _ _ (daemon_1 addr_a) (daemon_1 addr_b) eq_refl eq_refl (daemon_1_ok _ _) (daemon_1_ok _ _) eq_refl _ _ _ _).
  - cbn. lia.
  - constructor.
  - lia.
  - lia.
Defined.

(** The garbage collection removes exactly the idle attributes.  When the timer of
    the garbage collection expires, every application drops the attributes that no
    client declares and nobody registers, keeps all others in their order and sends no
    frame; the timer is armed again. *)
Theorem mrpd_reclaim_drops_idle {C : CSort} E p2pmac addr uninit enabled (HS : station E addr) d mm fm gm mv fv gv ms fs gs :
  (forall a, enabled a = true) -> mrpd_ok E p2pmac addr uninit enabled HS d ->
  d_mmrp d = mm_at_db mm fm gm -> d_mvrp d = at_db mv fv gv -> d_msrp d = ms_at_db ms fs gs ->
  exists d' mm' gm' mv' gv' ms' gs',
    mrpd_reclaim (mmrp_app E p2pmac addr uninit) (mvrp_app E p2pmac addr) (msrp_app E p2pmac addr) E d = Ok (0, d') /\
    d_mmrp d' = mm_at_db mm' fm gm' /\ mm_list mm' = filter (fun x => mm_reclaimable x = false) (mm_list mm) /\
    d_mvrp d' = at_db mv' fv gv' /\ attrib_list mv' = filter (fun x => reclaimable x = false) (attrib_list mv) /\
    d_msrp d' = ms_at_db ms' fs gs' /\ ms_list ms' = filter (fun x => ms_reclaimable x = false) (ms_list ms) /\
    gc_timer d' = Some (30000, 0).
Proof.
  intros Hen [Hm Hv Hs _ _ _] Em Ev Es. rewrite Hen in Hm, Hv, Hs. cbn in Hm, Hv, Hs.
  rewrite Em in Hm. rewrite Ev in Hv. rewrite Es in Hs.
  destruct Hm as (?&?&?&[= <- <- <-]&HIm), Hv as (?&?&?&[= <- <- <-]&HIv), Hs as (?&?&?&[= <- <- <-]&HIs).
  pose proof (mmrp_reclaim_wp E mm fm gm HIm) as Rm. apply wp_returns in Rm as (rm&wm&Rm&mm'&gm'&->&_&Hmm).
  pose proof (mvrp_reclaim_wp E mv fv gv HIv) as Rv. apply wp_returns in Rv as (rv&wv&Rv&mv'&gv'&->&_&Hmv).
  pose proof (msrp_reclaim_wp E ms fs gs HIs) as Rs. apply wp_returns in Rs as (rs&ws&Rs&ms'&gs'&->&_&Hms&_).
  pose proof (st_timers _ _ HS (d_asked d)) as Ht.
  eexists _, mm', gm', mv', gv', ms', gs'. split.
  { unfold mrpd_reclaim, mbind, M_bind, mbind, outcome_bind, on_mmrp, on_mvrp, on_msrp, on.
    cbn [ap_reclaim mmrp_app mvrp_app msrp_app]. rewrite Em, Rm. cbn [d_mvrp set_mmrp]. rewrite Ev, Rv. cbn [d_msrp set_mvrp set_mmrp].
    rewrite Es, Rs. unfold gctimer_start. cbn [d_asked set_msrp set_mvrp set_mmrp].
    destruct (Z.ltb_spec (os_timer E (d_asked d)) 0); [lia|]. reflexivity. }
  by split_and!.
Qed.

(** One VLAN is declared, another is idle. *)
Definition half_idle : mvrp_database := mkMvrpDb joining [at_rest 3 VN MT; at_rest 7 AO MT] false.
Definition mrpd_half_idle : mrpd := set_mvrp (at_db half_idle [] []) (daemon_1 addr_a).

Lemma half_idle_Inv : Inv half_idle.
Proof. apply (at_rest_Inv [(3, VN, MT); (7, AO, MT)]); by repeat constructor. Qed.

Lemma mrpd_half_idle_ok : mrpd_ok os0 P2P addr_a uninit_0 all addr_a_ok mrpd_half_idle.
Proof.
  apply set_mvrp_ok; [done|apply daemon_1_ok|]. exists half_idle, [], []. split; [done|apply half_idle_Inv].
Qed.

Lemma mrpd_reclaim_drops_idle_witness :
  exists d' mm' gm' mv' gv' ms' gs',
    mrpd_reclaim (mmrp_app os0 P2P addr_a uninit_0) (mvrp_app os0 P2P addr_a) (msrp_app os0 P2P addr_a) os0 mrpd_half_idle =
      Ok (0, d') /\
    d_mmrp d' = mm_at_db mm' [] gm' /\ mm_list mm' = [] /\
    d_mvrp d' = at_db mv' [] gv' /\ attrib_list mv' = [at_rest 3 VN MT] /\
    d_msrp d' = ms_at_db ms' [] gs' /\ ms_list ms' = [] /\
    gc_timer d' = Some (30000, 0).
Proof.
  refine (mrpd_reclaim_drops_idle os0 P2P addr_a uninit_0 all addr_a_ok mrpd_half_idle _ [] [] half_idle [] [] _ [] []
    _ mrpd_half_idle_ok eq_refl eq_refl eq_refl).
  by intros [].
Defined.

(** ** Commands *)

(** Every command goes to its application alone.  A command whose first letter
    names an application is answered by that application; the databases of the others,
    the timers and the replies of the daemon stay as they are.  Any other command that
    is not a farewell is answered to its client with the text "ERC MR" and changes
    nothing else; but it is read to its end, beyond the buffer if it has none in there. *)
Theorem mrpd_command_dispatch {C : CSort} E p2pmac addr uninit text client d :
  (3 <= length text)%nat -> nth 0 text 0 <> 66 ->
  process_ctl_msg (mmrp_app E p2pmac addr uninit) (mvrp_app E p2pmac addr) (msrp_app E p2pmac addr) text client d =
  match addressee text with
  | Some Mmrp => '(rc, w) ← mmrp_recv_cmd E p2pmac addr uninit text client (d_mmrp d); Ok (rc, set_mmrp w d)
  | Some Mvrp => '(rc, w) ← mvrp_recv_cmd E p2pmac addr text client (d_mvrp d); Ok (rc, set_mvrp w d)
  | Some Msrp => '(rc, w) ← msrp_recv_cmd E p2pmac addr text client (d_msrp d); Ok (rc, set_msrp w d)
  | None => if terminated MAX_MRPD_CMDSZ text then Ok (-1, add_reply client (str "ERC MR") d) else Fault OutOfBounds
  end.
Proof.
  intros Hl Hb. unfold process_ctl_msg, addressee. destruct (Nat.ltb_spec (length text) 3); [lia|].
  destruct (_ =? 77); [done|]. destruct (_ =? 86); [done|]. destruct (_ || _); [done|].
  rewrite (proj2 (Z.eqb_neq _ _) Hb). unfold c_string. by destruct (terminated _ _).
Qed.

(** The command "X++" is for nobody. *)
Lemma mrpd_command_dispatch_witness :
  process_ctl_msg (mmrp_app os0 P2P addr_a uninit_0) (mvrp_app os0 P2P addr_a) (msrp_app os0 P2P addr_a) (str "X++") a_client
    (daemon_1 addr_a) = Ok (-1, add_reply a_client (str "ERC MR") (daemon_1 addr_a)).
Proof. refine (mrpd_command_dispatch os0 P2P addr_a uninit_0 (str "X++") a_client (daemon_1 addr_a) _ _); [cbn; lia|discriminate]. Defined.

(** ** Descriptors *)

Definition port_set (en : bool) (p : port_fds) : gset Z :=
  if en then {[fd_socket p; fd_join p; fd_lv p; fd_lva p]} else ∅.

Lemma max_of_max x y : max_of x y = Z.max x y.
Proof. unfold max_of. destruct (Z.ltb_spec x y); lia. Qed.

(** The maximum of a set of descriptors. *)
Definition max_in (mx : Z) (fds : gset Z) : Prop := mx ∈ fds /\ forall fd, fd ∈ fds -> fd <= mx.

Lemma max_in_add fd mx fds : max_in mx fds -> max_in (max_of mx fd) ({[fd]} ∪ fds).
Proof.
  intros [Hin Hle]. rewrite max_of_max. split.
  - destruct (Z.max_spec mx fd) as [[_ ->]|[_ ->]]; set_solver.
  - intros x [->%elem_of_singleton|Hx%Hle]%elem_of_union; lia.
Qed.

Lemma watch_port_max en p mx fds : max_in mx fds -> max_in (watch_port en p mx fds).1 (watch_port en p mx fds).2.
Proof.
  intros H. destruct en; [|done]. cbn [watch_port mrp_register_timers fst snd].
  replace (max_of (max_of mx (fd_socket p)) _) with (max_of (max_of (max_of (max_of mx (fd_socket p)) (fd_join p)) (fd_lv p)) (fd_lva p))
    by (rewrite !max_of_max; lia). by repeat apply max_in_add.
Qed.

Lemma watch_port_set en p mx fds : (watch_port en p mx fds).2 = port_set en p ∪ fds.
Proof. destruct en; cbn [watch_port mrp_register_timers snd port_set]; set_solver. Qed.

(** The loop waits for the control socket, the timers of the process and the
    descriptors of the enabled applications, for all of them and nothing else, and
    computes their maximum, so that every one of them is within the range it passes to
    [select]. *)
Theorem mrpd_waits_for_all control mm_en mv_en ms_en mm mv ms periodic gc :
  let '(max_fd, fds) := watched control mm_en mv_en ms_en mm mv ms periodic gc in
  fds = {[control; periodic; gc]} ∪ port_set mm_en mm ∪ port_set mv_en mv ∪ port_set ms_en ms /\
  max_fd ∈ fds /\ forall fd, fd ∈ fds -> fd <= max_fd.
Proof.
  unfold watched. pose proof (watch_port_set mm_en mm control {[control]}) as S1.
  assert (M1 : max_in control {[control]}) by (split; [set_solver|intros fd; rewrite elem_of_singleton; lia]).
  apply (watch_port_max mm_en mm) in M1. destruct (watch_port mm_en _ _ _) as [m1 f1]. cbn in S1, M1.
  pose proof (watch_port_set mv_en mv m1 f1) as S2. apply (watch_port_max mv_en mv) in M1.
  destruct (watch_port mv_en _ _ _) as [m2 f2]. cbn in S2, M1.
  pose proof (watch_port_set ms_en ms m2 f2) as S3. apply (watch_port_max ms_en ms) in M1.
  destruct (watch_port ms_en _ _ _) as [m3 f3]. cbn in S3, M1.
  apply (max_in_add periodic), (max_in_add gc) in M1. split; [|exact M1]. subst. set_solver.
Qed.

(** ** Timers *)

(** The time passed to the operating system is the time asked for, with the nanoseconds
    below one second. *)
Lemma timer_spec_exact value interval :
  0 <= value -> 0 <= interval ->
  let '((vs, vn), (ivs, ivn)) := timer_spec value interval in
  vs * 10 ^ 9 + vn = value * 10 ^ 6 /\ ivs * 10 ^ 9 + ivn = interval * 10 ^ 6 /\ 0 <= vn < 10 ^ 9 /\ 0 <= ivn < 10 ^ 9.
Proof.
  intros Hv Hi. unfold timer_spec. pose proof (Z.div_mod value 1000 ltac:(lia)). pose proof (Z.mod_pos_bound value 1000 ltac:(lia)).
  pose proof (Z.div_mod interval 1000 ltac:(lia)). pose proof (Z.mod_pos_bound interval 1000 ltac:(lia)).
  destruct (Z.eqb_spec interval 0) as [->|?]; split_and!; lia.
Qed.
