(* ===== verification/Que.v ===== *)
(** * The message queue of the Windows daemon

    daemons/mrpd/que.c: a bounded queue between threads.  Two semaphores count the free
    and the filled entries, a critical section protects the buffer and the positions.
    Any number of threads push and pop; they run interleaved, one call of the operating
    system or one access to the queue at a time. *)

From S2P Require Import Prelude.

Open Scope Z_scope.
Local Abbreviation length := List.length.

(** ** The queue *)

(** The buffer as its entries; [mutex] tells whether a thread is in the critical
    section. *)
Record que_def : Type := mkQue {
  space_avail : nat;
  data_avail : nat;
  mutex : bool;
  buffer : list (list Z);
  in_pos : nat;
  out_pos : nat;
  entry_count : nat
}.

(** [alloc_que] and [alloc_buffer]: whether [calloc] succeeds. *)
Definition que_new (alloc_que alloc_buffer : bool) (entry_count entry_size : nat) : option que_def :=
  if negb alloc_que then None
  else if negb alloc_buffer then None
  else Some (mkQue entry_count 0 false (replicate entry_count (replicate entry_size 0)) 0 0 entry_count).

Definition set_space (n : nat) (q : que_def) : que_def :=
  mkQue n (data_avail q) (mutex q) (buffer q) (in_pos q) (out_pos q) (entry_count q).
Definition set_data (n : nat) (q : que_def) : que_def :=
  mkQue (space_avail q) n (mutex q) (buffer q) (in_pos q) (out_pos q) (entry_count q).
Definition set_mutex (b : bool) (q : que_def) : que_def :=
  mkQue (space_avail q) (data_avail q) b (buffer q) (in_pos q) (out_pos q) (entry_count q).
Definition set_buffer (b : list (list Z)) (q : que_def) : que_def :=
  mkQue (space_avail q) (data_avail q) (mutex q) b (in_pos q) (out_pos q) (entry_count q).
Definition set_in (i : nat) (q : que_def) : que_def :=
  mkQue (space_avail q) (data_avail q) (mutex q) (buffer q) i (out_pos q) (entry_count q).
Definition set_out (i : nat) (q : que_def) : que_def :=
  mkQue (space_avail q) (data_avail q) (mutex q) (buffer q) (in_pos q) i (entry_count q).

Definition copy_in (d : list Z) (q : que_def) : outcome que_def :=
  if (in_pos q <? length (buffer q))%nat then Ok (set_buffer (<[in_pos q := d]> (buffer q)) q) else Fault OutOfBounds.

Definition copy_out (q : que_def) : outcome (list Z) :=
  match buffer q !! out_pos q with Some d => Ok d | None => Fault OutOfBounds end.

Definition next_pos (q : que_def) (pos : nat) : nat := ((pos + 1) mod entry_count q)%nat.

(** [ReleaseSemaphore] fails at the maximal count, which [que_new] sets to the number of
    entries. *)
Definition release (count max : nat) : nat := if (count <? max)%nat then S count else count.

(** ** Threads *)

(** What a thread of the queue does next.  [que_push] waits for space, enters the
    critical section, copies, moves the position, leaves and signals data; [que_pop_wait]
    waits for data and goes on as [que_pop_nowait]. *)
Inductive thread : Type :=
  | Outside
  | PushWait (d : list Z)
  | PushEnter (d : list Z)
  | PushCopy (d : list Z)
  | PushMove (d : list Z)
  | PushLeave
  | PushSignal
  | PopWait
  | PopEnter
  | PopCopy
  | PopMove (d : list Z)
  | PopLeave (d : list Z)
  | PopSignal (d : list Z).

Definition que_push (d : list Z) : thread := PushWait d.
Definition que_pop_wait : thread := PopWait.
Definition que_pop_nowait : thread := PopEnter.

(** One action of a thread; [None]: it has to wait. *)
Definition act (t : thread) (q : que_def) : outcome (option (thread * que_def)) :=
  match t with
  | Outside => Ok None
  | PushWait d =>
      match space_avail q with
      | O => Ok None
      | S n => Ok (Some (PushEnter d, set_space n q))
      end
  | PushEnter d => Ok (if mutex q then None else Some (PushCopy d, set_mutex true q))
  | PushCopy d => q' ← copy_in d q; Ok (Some (PushMove d, q'))
  | PushMove d => Ok (Some (PushLeave, set_in (next_pos q (in_pos q)) q))
  | PushLeave => Ok (Some (PushSignal, set_mutex false q))
  | PushSignal => Ok (Some (Outside, set_data (release (data_avail q) (entry_count q)) q))
  | PopWait =>
      match data_avail q with
      | O => Ok None
      | S n => Ok (Some (que_pop_nowait, set_data n q))
      end
  | PopEnter => Ok (if mutex q then None else Some (PopCopy, set_mutex true q))
  | PopCopy => d ← copy_out q; Ok (Some (PopMove d, q))
  | PopMove d => Ok (Some (PopLeave d, set_out (next_pos q (out_pos q)) q))
  | PopLeave d => Ok (Some (PopSignal d, set_mutex false q))
  | PopSignal d => Ok (Some (Outside, set_space (release (space_avail q) (entry_count q)) q))
  end.

(** The queue, its threads, and what was pushed and popped so far, in the order in which
    the positions were moved. *)
Record system : Type := mkSystem {
  que : que_def;
  threads : list thread;
  pushed : list (list Z);
  popped : list (list Z)
}.

Definition pushes (t : thread) : list (list Z) := match t with PushMove d => [d] | _ => [] end.
Definition pops (t : thread) : list (list Z) := match t with PopMove d => [d] | _ => [] end.

Inductive que_step : system -> system -> Prop :=
  | step_act q q' l1 t t' l2 A B :
      act t q = Ok (Some (t', q')) ->
      que_step (mkSystem q (l1 ++ t :: l2) A B) (mkSystem q' (l1 ++ t' :: l2) (A ++ pushes t) (B ++ pops t))
  | step_push q l1 l2 A B d :
      que_step (mkSystem q (l1 ++ Outside :: l2) A B) (mkSystem q (l1 ++ que_push d :: l2) A B)
  | step_pop q l1 l2 A B :
      que_step (mkSystem q (l1 ++ Outside :: l2) A B) (mkSystem q (l1 ++ que_pop_wait :: l2) A B).

(** [k] threads and a new queue. *)
Definition fresh (q : que_def) (k : nat) : system := mkSystem q (replicate k Outside) [] [].

(** ** The invariant *)

Definition one (b : bool) : nat := if b then 1%nat else 0%nat.

(** Threads that were granted an entry and have not moved the position yet, that have
    moved it and not signalled yet, and that are in the critical section. *)
Definition pushing (t : thread) : nat := one (match t with PushEnter _ | PushCopy _ | PushMove _ => true | _ => false end).
Definition after_push (t : thread) : nat := one (match t with PushLeave | PushSignal => true | _ => false end).
Definition popping (t : thread) : nat := one (match t with PopEnter | PopCopy | PopMove _ => true | _ => false end).
Definition after_pop (t : thread) : nat := one (match t with PopLeave _ | PopSignal _ => true | _ => false end).
Definition critical (t : thread) : nat :=
  one (match t with PushCopy _ | PushMove _ | PushLeave | PopCopy | PopMove _ | PopLeave _ => true | _ => false end).

Abbreviation total := (@sum_list_with thread).

Definition thread_ok (n : nat) (buf A B : list (list Z)) (t : thread) : Prop :=
  match t with
  | PushMove d => buf !! (length A mod n)%nat = Some d
  | PopMove d => A !! length B = Some d
  | _ => True
  end.

Record que_ok (n : nat) (s : system) : Prop := {
  qk_count : entry_count (que s) = n;
  qk_buffer : length (buffer (que s)) = n;
  qk_space : (space_avail (que s) + total pushing (threads s) + length (pushed s) + total after_pop (threads s) =
              n + length (popped s))%nat;
  qk_data : (length (popped s) + data_avail (que s) + total after_push (threads s) + total popping (threads s) =
             length (pushed s))%nat;
  qk_mutex : total critical (threads s) = one (mutex (que s));
  qk_in : in_pos (que s) = (length (pushed s) mod n)%nat;
  qk_out : out_pos (que s) = (length (popped s) mod n)%nat;
  qk_prefix : popped s `prefix_of` pushed s;
  qk_contents : forall p d, (length (popped s) <= p)%nat -> pushed s !! p = Some d -> buffer (que s) !! (p mod n)%nat = Some d;
  qk_threads : Forall (thread_ok n (buffer (que s)) (pushed s) (popped s)) (threads s)
}.

Lemma total_middle f l1 t l2 : total f (l1 ++ t :: l2) = (total f l1 + f t + total f l2)%nat.
Proof. rewrite sum_list_with_app. cbn. lia. Qed.

Lemma total_zero (f : thread -> nat) l : total f l = 0%nat -> Forall (fun t => f t = 0%nat) l.
Proof. induction l as [|t l IH]; cbn; intros H; constructor; [lia|apply IH; lia]. Qed.

(** A thread outside the critical section does not depend on the buffer. *)
Lemma outside_ok n buf A B buf' A' B' t :
  critical t = 0%nat -> thread_ok n buf A B t -> thread_ok n buf' A' B' t.
Proof. by destruct t. Qed.

Section Keeps.
Context (n : nat) (Hn : (0 < n)%nat) (q : que_def) (l1 l2 : list thread) (A B : list (list Z)).

Abbreviation at_work t q A B := (mkSystem q (l1 ++ t :: l2) A B).

(** While a thread is in the critical section, no other is. *)
Lemma alone t : que_ok n (at_work t q A B) -> critical t = 1%nat ->
  forall buf A' B' t', thread_ok n buf A' B' t' -> Forall (thread_ok n buf A' B') (l1 ++ t' :: l2).
Proof using Hn.
  intros [_ _ _ _ Hm _ _ _ _ Ht] Hc buf A' B' t' Hok. cbn [threads que mutex] in *. rewrite total_middle, Hc in Hm.
  assert (H1 : total critical l1 = 0%nat) by (destruct (mutex q); cbn in Hm; lia).
  assert (H2 : total critical l2 = 0%nat) by (destruct (mutex q); cbn in Hm; lia).
  apply total_zero in H1, H2. apply Forall_app in Ht as [Ht1 [_ Ht2]%Forall_cons].
  apply Forall_app. split; [|constructor; [done|]]; apply Forall_forall; intros x Hx.
  - eapply outside_ok; [by apply (proj1 (Forall_forall _ _) H1)|by apply (proj1 (Forall_forall _ _) Ht1)].
  - eapply outside_ok; [by apply (proj1 (Forall_forall _ _) H2)|by apply (proj1 (Forall_forall _ _) Ht2)].
Qed.

(** Threads that do not touch buffer and positions only move between the counts. *)
Lemma bookkeeping t t' q' :
  que_ok n (at_work t q A B) -> thread_ok n (buffer q) A B t' ->
  buffer q' = buffer q -> in_pos q' = in_pos q -> out_pos q' = out_pos q -> entry_count q' = entry_count q ->
  (space_avail q' + pushing t' + after_pop t' = space_avail q + pushing t + after_pop t)%nat ->
  (data_avail q' + after_push t' + popping t' = data_avail q + after_push t + popping t)%nat ->
  (critical t' + one (mutex q) = critical t + one (mutex q'))%nat ->
  que_ok n (at_work t' q' A B).
Proof using Hn.
  intros [Hc Hb Hs Hd Hm Hi Ho Hp Hk Ht] Ht' Eb Ei Eo Ec Es Ed Em. cbn [que threads pushed popped] in *.
  rewrite !total_middle in *.
  constructor; cbn [que threads pushed popped]; rewrite ?total_middle, ?Eb, ?Ei, ?Eo, ?Ec; try done; try lia.
  apply Forall_app in Ht as [? [_ ?]%Forall_cons]. apply Forall_app. split; [done|by constructor].
Qed.

(** What the counts say. *)
Lemma room t : que_ok n (at_work t q A B) -> (length B <= length A)%nat /\ (length A + pushing t + after_pop t <= length B + n)%nat /\
  (length B + after_push t + popping t + data_avail q <= length A)%nat /\ (space_avail q + after_pop t <= n)%nat.
Proof using Hn. intros [_ _ Hs Hd _ _ _ _ _ _]. cbn [que threads pushed popped] in *. rewrite !total_middle in *. lia. Qed.

Lemma next_mod q0 k : entry_count q0 = n -> next_pos q0 (k mod n) = (S k mod n)%nat.
Proof using Hn.
  intros He. unfold next_pos. rewrite He, Nat.Div0.add_mod_idemp_l. f_equal. lia.
Qed.

Lemma copy_in_ok d : que_ok n (at_work (PushCopy d) q A B) ->
  exists q', copy_in d q = Ok q' /\ que_ok n (at_work (PushMove d) q' A B).
Proof using Hn.
  intros HQ. pose proof (room _ HQ) as (Hba&Hroom&_&_). pose proof HQ as [Hc Hb Hs Hd Hm Hi Ho Hp Hk Ht].
  cbn [que threads pushed popped] in *. pose proof (Nat.mod_upper_bound (length A) n ltac:(lia)) as Hlt.
  unfold copy_in. rewrite Hi, Hb. destruct (Nat.ltb_spec (length A mod n) n); [|lia]. eexists. split; [done|].
  rewrite !total_middle in *. cbn in *.
  constructor; cbn [que threads pushed popped buffer space_avail data_avail mutex in_pos out_pos entry_count set_buffer];
    rewrite ?total_middle; cbn; try done; try lia.
  - by rewrite length_insert.
  - intros p x Hge Hx. pose proof (lookup_lt_Some _ _ _ Hx). rewrite (write_other n (length B)) by lia. by apply Hk.
  - apply (alone _ HQ); [done|]. cbn. apply list_lookup_insert_eq. by rewrite Hb.
Qed.

Lemma push_move_ok d : que_ok n (at_work (PushMove d) q A B) ->
  que_ok n (at_work PushLeave (set_in (next_pos q (in_pos q)) q) (A ++ [d]) B).
Proof using Hn.
  intros HQ. pose proof (room _ HQ) as (Hba&Hroom&_&_). pose proof HQ as [Hc Hb Hs Hd Hm Hi Ho Hp Hk Ht].
  cbn [que threads pushed popped] in *. rewrite !total_middle in *. cbn in *.
  constructor; cbn [que threads pushed popped buffer space_avail data_avail mutex in_pos out_pos entry_count set_in];
    rewrite ?total_middle, ?length_app; cbn; try done; try lia.
  - rewrite Hi, next_mod by done. f_equal. lia.
  - by apply prefix_app_r.
  - intros p x Hge [Hx|[Hle Hx]]%lookup_app_Some; [by apply Hk|]. apply list_lookup_singleton_Some in Hx as [H0 <-].
    apply Forall_app in Ht as [_ [Ht _]%Forall_cons]. cbn in Ht. by replace p with (length A) by lia.
  - by apply (alone _ HQ).
Qed.

Lemma copy_out_ok : que_ok n (at_work PopCopy q A B) ->
  exists d, copy_out q = Ok d /\ que_ok n (at_work (PopMove d) q A B).
Proof using Hn.
  intros HQ. pose proof (room _ HQ) as (Hba&_&Hdata&_). pose proof HQ as [Hc Hb Hs Hd Hm Hi Ho Hp Hk Ht].
  cbn [que threads pushed popped] in *. cbn in Hdata.
  destruct (lookup_lt_is_Some_2 A (length B)) as [d HA]; [lia|]. exists d. unfold copy_out. rewrite Ho, (Hk _ _ (Nat.le_refl _) HA).
  split; [done|]. eapply bookkeeping; [done|exact HA|done..].
Qed.

Lemma pop_move_ok d : que_ok n (at_work (PopMove d) q A B) ->
  que_ok n (at_work (PopLeave d) (set_out (next_pos q (out_pos q)) q) A (B ++ [d])).
Proof using Hn.
  intros HQ. pose proof (room _ HQ) as (Hba&Hroom&_&_). pose proof HQ as [Hc Hb Hs Hd Hm Hi Ho Hp Hk Ht].
  cbn [que threads pushed popped] in *. rewrite !total_middle in *. cbn in *.
  assert (HA : A !! length B = Some d) by (by apply Forall_app in Ht as [_ [Ht _]%Forall_cons]).
  constructor; cbn [que threads pushed popped buffer space_avail data_avail mutex in_pos out_pos entry_count set_out];
    rewrite ?total_middle, ?length_app; cbn; try done; try lia.
  - rewrite Ho, next_mod by done. f_equal. lia.
  - destruct Hp as [C ->]. rewrite lookup_app_r, Nat.sub_diag in HA by lia. destruct C as [|x C]; [done|].
    injection HA as ->. exists C. by rewrite <- (assoc_L (++)).
  - intros p x Hge Hx. apply Hk; [lia|done].
  - by apply (alone _ HQ).
Qed.

(** An action waits or keeps the invariant; there is no fault. *)
Lemma act_ok t : que_ok n (at_work t q A B) ->
  act t q = Ok None \/
  exists t' q', act t q = Ok (Some (t', q')) /\ que_ok n (at_work t' q' (A ++ pushes t) (B ++ pops t)).
Proof using Hn.
  intros HQ. pose proof (room _ HQ) as (_&Hroom&Hdata&Hspace). pose proof (qk_count _ _ HQ) as Hc. cbn [que] in Hc.
  assert (Hm : (critical t <= one (mutex q))%nat).
  { pose proof (qk_mutex _ _ HQ) as Hm. cbn [que threads] in Hm. rewrite total_middle in Hm. lia. }
  destruct t as [|d|d|d|d| | | | | |d|d|d]; cbn [act pushes pops]; rewrite ?app_nil_r; cbn in Hroom, Hdata, Hspace, Hm.
  - by left.
  - destruct (space_avail q) as [|k] eqn:Hk; [by left|right]. eexists _, _. split; [done|].
    eapply bookkeeping; [done..| |done|done]. cbn. lia.
  - destruct (mutex q) eqn:Hmu; [by left|right]. eexists _, _. split; [done|]. eapply bookkeeping; [done..|]. by rewrite Hmu.
  - right. destruct (copy_in_ok d HQ) as (q'&->&HQ'). by eexists _, _.
  - right. eexists _, _. split; [done|]. by apply push_move_ok.
  - right. eexists _, _. split; [done|]. eapply bookkeeping; [done..|]. cbn. destruct (mutex q); cbn in *; lia.
  - right. eexists _, _. split; [done|]. eapply bookkeeping; [done..|cbn|done]. unfold release. rewrite Hc.
    destruct (Nat.ltb_spec (data_avail q) n); lia.
  - destruct (data_avail q) as [|k] eqn:Hk; [by left|right]. eexists _, _. split; [done|].
    eapply bookkeeping; [done..|cbn; lia|done].
  - destruct (mutex q) eqn:Hmu; [by left|right]. eexists _, _. split; [done|]. eapply bookkeeping; [done..|]. by rewrite Hmu.
  - right. destruct (copy_out_ok HQ) as (d&->&HQ'). by eexists _, _.
  - right. eexists _, _. split; [done|]. by apply pop_move_ok.
  - right. eexists _, _. split; [done|]. eapply bookkeeping; [done..|]. cbn. destruct (mutex q); cbn in *; lia.
  - right. eexists _, _. split; [done|]. eapply bookkeeping; [done..|cbn|done|done]. unfold release. rewrite Hc.
    destruct (Nat.ltb_spec (space_avail q) n); lia.
Qed.

End Keeps.

Lemma step_ok n s s' : (0 < n)%nat -> que_ok n s -> que_step s s' -> que_ok n s'.
Proof.
  intros Hn Hs. destruct 1 as [q q' l1 t t' l2 A B Ha|q l1 l2 A B d|q l1 l2 A B].
  - destruct (act_ok n Hn q l1 l2 A B t Hs) as [Hw|(t1&q1&Hw&HQ)]; rewrite Hw in Ha; [done|]. by injection Ha as <- <-.
  - by eapply bookkeeping.
  - by eapply bookkeeping.
Qed.

Lemma total_outside f k : f Outside = 0%nat -> total f (replicate k Outside) = 0%nat.
Proof. intros Hf. induction k as [|k IH]; cbn; [done|]. by rewrite Hf. Qed.

Lemma fresh_ok a b n size k q : que_new a b n size = Some q -> que_ok n (fresh q k).
Proof.
  unfold que_new. destruct a, b; try done. intros [= <-].
  constructor; cbn [que threads pushed popped fresh buffer space_avail data_avail mutex in_pos out_pos entry_count];
    rewrite ?total_outside by done; cbn; try done; try lia.
  - by rewrite length_replicate.
  - by rewrite Nat.Div0.mod_0_l.
  - by rewrite Nat.Div0.mod_0_l.
  - by apply Forall_replicate.
Qed.

Lemma reaches_que_ok n s s' : (0 < n)%nat -> que_ok n s -> rtc que_step s s' -> que_ok n s'.
Proof. intros Hn Hs Hr. induction Hr; [done|]. eauto using step_ok. Qed.

(** ** Progress *)

Definition waits (t : thread) : Prop := match t with Outside | PushWait _ | PopWait => True | _ => False end.

(** A thread that is neither outside nor waiting for a semaphore can go on, if it is in
    the critical section or nobody is. *)
Lemma act_goes_on n q l1 t l2 A B :
  (0 < n)%nat -> que_ok n (mkSystem q (l1 ++ t :: l2) A B) -> ~ waits t -> critical t = 1%nat \/ mutex q = false ->
  exists t' q', act t q = Ok (Some (t', q')).
Proof.
  intros Hn HQ Hw Hc. destruct (act_ok n Hn q l1 l2 A B t HQ) as [Ha|(t'&q'&Ha&_)]; [|by exists t', q'].
  destruct t; cbn in Hw, Hc, Ha; try done;
    (by destruct Hc as [?|Hc]; [|rewrite Hc in Ha]) || (by destruct (copy_in _ q)) || (by destruct (copy_out q)) || by destruct Hw.
Qed.

Lemma total_positive (f : thread -> nat) l : (0 < total f l)%nat -> exists l1 t l2, l = l1 ++ t :: l2 /\ (0 < f t)%nat.
Proof.
  induction l as [|t l IH]; cbn; [lia|]. intros H. destruct (decide (f t = 0%nat)) as [H0|?].
  - destruct IH as (l1&t'&l2&->&?); [lia|]. by exists (t :: l1), t', l2.
  - exists [], t, l. split; [done|lia].
Qed.

Lemma total_waits (f : thread -> nat) l : (forall t, waits t -> f t = 0%nat) -> Forall waits l -> total f l = 0%nat.
Proof. intros Hf. induction 1 as [|t l Ht _ IH]; [done|]. cbn. by rewrite IH, Hf. Qed.

(** When nobody can act, those that wait all wait for the same: a full queue to be read or
    an empty one to be filled. *)
Lemma stuck_ok n s :
  (0 < n)%nat -> que_ok n s -> (forall l1 t l2, threads s = l1 ++ t :: l2 -> act t (que s) = Ok None) ->
  Forall waits (threads s) /\
  ((forall d, PushWait d ∈ threads s -> data_avail (que s) = n) /\ (PopWait ∈ threads s -> data_avail (que s) = 0%nat)).
Proof.
  intros Hn HQ Hstuck. destruct s as [q ts A B]. cbn [threads que] in *.
  assert (Hmu : mutex q = false).
  { destruct (mutex q) eqn:Hmu; [|done]. pose proof (qk_mutex _ _ HQ) as Hm. cbn [que threads] in Hm. rewrite Hmu in Hm.
    destruct (total_positive critical ts) as (l1&t&l2&->&Hc); [rewrite Hm; cbn; lia|].
    destruct (act_goes_on n q l1 t l2 A B) as (t'&q'&Ha); [done..| | |by rewrite (Hstuck l1 t l2) in Ha].
    - destruct t; cbn in Hc; try lia; by intros [].
    - left. destruct t; cbn in *; lia. }
  assert (Hw : Forall waits ts).
  { apply Forall_forall. intros t (l1&l2&->)%list_elem_of_split.
    assert (Hdec : waits t \/ ~ waits t) by (destruct t; (by left) || (right; by intros [])).
    destruct Hdec as [|Hnw]; [done|]. destruct (act_goes_on n q l1 t l2 A B) as (t'&q'&Ha); [done..|by right|].
    by rewrite (Hstuck l1 t l2) in Ha. }
  split; [done|]. destruct HQ as [_ _ Hs Hd _ _ _ _ _ _]. cbn [que threads pushed popped] in *.
  rewrite !total_waits in Hs, Hd by (done || by intros []). split.
  - intros d (l1&l2&->)%list_elem_of_split. specialize (Hstuck l1 _ l2 eq_refl). cbn in Hstuck.
    destruct (space_avail q); [lia|done].
  - intros (l1&l2&->)%list_elem_of_split. specialize (Hstuck l1 _ l2 eq_refl). cbn in Hstuck. by destruct (data_avail q).
Qed.
