(* ===== verification/Mrpw.v ===== *)
(** * The Windows MRP daemon

    daemons/mrpd/mrpw.c: the software timers, the dispatch of commands, and the turns of
    the main thread.  The main thread waits for one of six objects; what it waited for is
    the argument of a turn: the queues behind the two packet objects are those of [Que],
    so an entry that is popped is the oldest.  Timers of the applications are those of
    [Mrp]: which of them have elapsed is an argument. *)

From S2P Require Import Prelude.
From S2P Require Import CText.
From S2P Require Import Mrp.
From S2P Require Import Mvrp.
From S2P Require Import Mmrp.
From S2P Require Import EuiSet.
From S2P Require Import Msrp.
From S2P Require Import MsrpRun.
From S2P Require Import Mrpd.
From Stdlib Require Import String.

Open Scope Z_scope.
Local Abbreviation length := List.length.

(** ** Timers *)

(** [struct wtimer]; the counts are unsigned 32 bit numbers of milliseconds. *)
Record wtimer : Type := mkWtimer {
  running : bool;
  elapsed : bool;
  count : Z;
  interval : Z;
  start_time : Z
}.

(** [calloc]. *)
Definition mrpd_timer_create : wtimer := mkWtimer false false 0 0 0.

Definition mrpd_timer_start_interval (now value_ms interval_ms : Z) (t : wtimer) : wtimer :=
  mkWtimer true false (u32 value_ms) (u32 interval_ms) now.

Definition w_timer_start (now value_ms : Z) (t : wtimer) : wtimer := mrpd_timer_start_interval now value_ms 0 t.

Definition mrpd_timer_restart (t : wtimer) : wtimer :=
  if negb (interval t =? 0) then mkWtimer true false (count t) (interval t) (u32 (start_time t + interval t)) else t.

Definition w_timer_stop (t : wtimer) : wtimer := mkWtimer false false (count t) (interval t) (start_time t).

Definition mrpd_timer_timeout (now : Z) (t : wtimer) : bool * wtimer :=
  let t :=
    if running t && negb (elapsed t) && (count t <? u32 (now - start_time t))
    then mkWtimer (running t) true (count t) (interval t) (start_time t) else t in
  (elapsed t, t).

(** ** The daemon *)

(** What the main thread waited for.  A frame is the memory its pointer leads to and the
    length that was captured; a command has its client and its bytes. *)
Inductive wait_result : Type :=
  | WaitTimeout
  | WaitTick
  | WaitFrame (frame : list Z) (len : nat)
  | WaitFrameTimeout
  | WaitCommand (client : sockaddr_in) (text : list Z)
  | WaitCommandTimeout
  | WaitKill
  | WaitOther.

(** The timers of the three applications that have elapsed. *)
Record elapsed_timers : Type := mkElapsed { el_mmrp : port_ready; el_mvrp : port_ready; el_msrp : port_ready }.

Section Windows.
Context {Wm Wv Ws : Type} (mmrp : application Wm) (mvrp : application Wv) (msrp : application Ws).
(** the readings of the clock, and whether memory for a frame is allocated *)
Context (clock : nat -> Z) (malloc : nat -> bool).
Context (mmrp_enable mvrp_enable msrp_enable : bool).

(** The databases, the timers of the process, the number of clock readings and of
    allocations so far, and the replies. *)
Record wdaemon : Type := mkWin {
  w_mmrp : Wm;
  w_mvrp : Wv;
  w_msrp : Ws;
  w_periodic : wtimer;
  w_gc : wtimer;
  w_tick : wtimer;
  w_clock : nat;
  w_mallocs : nat;
  w_replies : list (sockaddr_in * list Z)
}.

Abbreviation WIN := (M wdaemon).

Definition w_set_mmrp (x : Wm) (d : wdaemon) : wdaemon :=
  mkWin x (w_mvrp d) (w_msrp d) (w_periodic d) (w_gc d) (w_tick d) (w_clock d) (w_mallocs d) (w_replies d).
Definition w_set_mvrp (x : Wv) (d : wdaemon) : wdaemon :=
  mkWin (w_mmrp d) x (w_msrp d) (w_periodic d) (w_gc d) (w_tick d) (w_clock d) (w_mallocs d) (w_replies d).
Definition w_set_msrp (x : Ws) (d : wdaemon) : wdaemon :=
  mkWin (w_mmrp d) (w_mvrp d) x (w_periodic d) (w_gc d) (w_tick d) (w_clock d) (w_mallocs d) (w_replies d).
Definition w_set_timers (p g t : wtimer) (n : nat) (d : wdaemon) : wdaemon :=
  mkWin (w_mmrp d) (w_mvrp d) (w_msrp d) p g t n (w_mallocs d) (w_replies d).
Definition w_set_mallocs (n : nat) (d : wdaemon) : wdaemon :=
  mkWin (w_mmrp d) (w_mvrp d) (w_msrp d) (w_periodic d) (w_gc d) (w_tick d) (w_clock d) n (w_replies d).
Definition w_reply (c : sockaddr_in) (text : list Z) (d : wdaemon) : wdaemon :=
  mkWin (w_mmrp d) (w_mvrp d) (w_msrp d) (w_periodic d) (w_gc d) (w_tick d) (w_clock d) (w_mallocs d) (w_replies d ++ [(c, text)]).

Definition w_on {W A} (get : wdaemon -> W) (set : W -> wdaemon -> wdaemon) (m : M W A) : WIN A :=
  fun d => match m (get d) with Ok (a, x) => Ok (a, set x d) | Fault f => Fault f end.

Definition w_on_mmrp {A} : M Wm A -> WIN A := w_on w_mmrp w_set_mmrp.
Definition w_on_mvrp {A} : M Wv A -> WIN A := w_on w_mvrp w_set_mvrp.
Definition w_on_msrp {A} : M Ws A -> WIN A := w_on w_msrp w_set_msrp.

(** *** Timers of the process *)

Definition w_gctimer_start : WIN unit := modify (fun d =>
  w_set_timers (w_periodic d) (w_timer_start (clock (w_clock d)) (30 * 60 * 1000) (w_gc d)) (w_tick d) (S (w_clock d)) d).

(** The clock is only read for a timer that runs and has not elapsed. *)
Definition reads_clock (t : wtimer) : nat := if running t && negb (elapsed t) then 1%nat else 0%nat.

Definition w_periodic_timeout : WIN bool := fun d =>
  let '(b, t) := mrpd_timer_timeout (clock (w_clock d)) (w_periodic d) in
  Ok (b, w_set_timers t (w_gc d) (w_tick d) (reads_clock (w_periodic d) + w_clock d) d).

Definition w_gc_timeout : WIN bool := fun d =>
  let '(b, t) := mrpd_timer_timeout (clock (w_clock d)) (w_gc d) in
  Ok (b, w_set_timers (w_periodic d) t (w_tick d) (reads_clock (w_gc d) + w_clock d) d).

Definition w_periodic_restart : WIN unit := modify (fun d =>
  w_set_timers (mrpd_timer_restart (w_periodic d)) (w_gc d) (w_tick d) (w_clock d) d).

Definition w_tick_restart : WIN unit := modify (fun d =>
  w_set_timers (w_periodic d) (w_gc d) (mrpd_timer_restart (w_tick d)) (w_clock d) d).

(** [mrpd_timer_timeout(&timer_check_tick)]: the address of the pointer is taken for that
    of the timer, and the fields of the timer lie behind the four bytes of the pointer. *)
Definition w_tick_timeout : WIN bool := raise OutOfBounds.

(** *** Commands and frames *)

(** [_snprintf] stores up to seven characters.  The buffer is not zeroed here: unless a
    zero is among the bytes received, the command has no end.  (The applications are
    those of Linux and take a command that is shorter than the buffer to end.) *)
Definition w_process_ctl_msg (buf : list Z) (client : sockaddr_in) : WIN Z :=
  if (length buf <? 3)%nat then mret (-1)
  else
    let c := nth 0 buf 0 in
    if c =? 77 then w_on_mmrp (ap_recv_cmd mmrp buf client)
    else if c =? 86 then w_on_mvrp (ap_recv_cmd mvrp buf client)
    else if c =? 83 then w_on_msrp (ap_recv_cmd msrp buf client)
    else if c =? 66 then
      w_on_mmrp (ap_bye mmrp client);;
      w_on_mvrp (ap_bye mvrp client);;
      w_on_msrp (ap_bye msrp client);;
      mret 0
    else
      text ← lift (c_string 0 buf);
      modify (w_reply client (take 7 (str "ERC " ++ text)));;
      mret (-1).

(** The frame is copied into a buffer of [MAX_FRAME_SIZE] bytes. *)
Definition w_recvmsgbuf (frame : list Z) (len : nat) : WIN (list Z) :=
  ok ← gets (fun d => malloc (w_mallocs d));
  modify (fun d => w_set_mallocs (S (w_mallocs d)) d);;
  if negb ok then mret []
  else if (MAX_FRAME_SIZE <? len)%nat || (length frame <? len)%nat then raise OutOfBounds
  else mret (take len frame).

Definition w_recv_msg {W} (enable : bool) (on : M W Z -> WIN Z) (A : application W) (frame : list Z) (len : nat) : WIN unit :=
  whenever enable (b ← w_recvmsgbuf frame len; on (ap_recv_msg A b)).

(** The type field chooses the application. *)
Definition w_frame (frame : list Z) (len : nat) : WIN unit :=
  ty ← lift (read_bytes frame 12 2);
  if be_val ty =? MVRP_ETYPE then w_recv_msg mvrp_enable w_on_mvrp mvrp frame len
  else if be_val ty =? MMRP_ETYPE then w_recv_msg mmrp_enable w_on_mmrp mmrp frame len
  else if be_val ty =? MSRP_ETYPE then w_recv_msg msrp_enable w_on_msrp msrp frame len
  else mret tt.

(** *** Turns of the main thread *)

Definition w_reclaim : WIN unit :=
  whenever mmrp_enable (w_on_mmrp (ap_reclaim mmrp));;
  whenever mvrp_enable (w_on_mvrp (ap_reclaim mvrp));;
  whenever msrp_enable (w_on_msrp (ap_reclaim msrp));;
  w_gctimer_start.

Definition run_protocols (e : elapsed_timers) : WIN unit :=
  whenever mmrp_enable (w_on_mmrp (port_round mmrp (el_mmrp e)));;
  whenever mvrp_enable (w_on_mvrp (port_round mvrp (el_mvrp e)));;
  whenever msrp_enable (w_on_msrp (port_round msrp (el_msrp e)));;
  b ← w_periodic_timeout;
  whenever b
    (whenever mmrp_enable (w_on_mmrp (ap_event mmrp EVENT_PERIODIC));;
     whenever mvrp_enable (w_on_mvrp (ap_event mvrp EVENT_PERIODIC));;
     whenever msrp_enable (w_on_msrp (ap_event msrp EVENT_PERIODIC));;
     w_periodic_restart);;
  b ← w_gc_timeout;
  whenever b w_reclaim;;
  w_tick_restart.

(** The result is negative when the thread is to end. *)
Definition mrpw_run_once (ev : wait_result) (e : elapsed_timers) : WIN Z :=
  match ev with
  | WaitKill => mret (-1)
  | WaitTimeout | WaitTick => run_protocols e;; mret 0
  | WaitFrame frame len => w_frame frame len;; w_tick_timeout;; mret 0
  | WaitCommand client text => w_process_ctl_msg text client;; w_tick_timeout;; mret 0
  | WaitFrameTimeout | WaitCommandTimeout | WaitOther => mret 0
  end.

(** The turns until one asks for the end. *)
Fixpoint w_process_events (l : list (wait_result * elapsed_timers)) : WIN unit :=
  match l with
  | [] => mret tt
  | (ev, e) :: l =>
      status ← mrpw_run_once ev e;
      if status <? 0 then mret tt else w_process_events l
  end.

(** *** The start *)

(** [timer_p], [timer_g]: whether the memory of the two timers could be allocated. *)
Definition w_init_timers (timer_p timer_g : bool) : WIN Z :=
  modify (fun d => w_set_timers mrpd_timer_create mrpd_timer_create (w_tick d) (w_clock d) d);;
  if negb timer_p then mret (-1)
  else if negb timer_g then mret (-1)
  else w_gctimer_start;; mret 0.

(** [netif]: whether the network interface could be opened and its filter set;
    [rc_ctl]: the result of [init_local_ctl]. *)
Definition mrpw_init_protocols (netif : bool) (rc_ctl : Z) (mmrp_init : M Wm Z) (mvrp_init : M Wv Z) (msrp_init : M Ws Z)
    (timer_p timer_g : bool) : WIN Z :=
  if negb netif then mret (-1)
  else if negb (fst mrp_init =? 0) then mret (-1)
  else if negb (rc_ctl =? 0) then mret (-1)
  else
    rc ← (if mmrp_enable then w_on_mmrp mmrp_init else mret 0);
    if negb (rc =? 0) then mret (-1)
    else
      rc ← (if mvrp_enable then w_on_mvrp mvrp_init else mret 0);
      if negb (rc =? 0) then mret (-1)
      else
        rc ← (if msrp_enable then w_on_msrp msrp_init else mret 0);
        if negb (rc =? 0) then mret (-1)
        else
          rc ← w_init_timers timer_p timer_g;
          if negb (rc =? 0) then mret (-1) else mret 0.

(** [threads]: whether the two threads could be created; an event object that cannot be
    created ends the process. *)
Definition mrpw_init_threads (threads : bool) : WIN Z :=
  modify (fun d => w_set_timers (w_periodic d) (w_gc d)
    (mrpd_timer_start_interval (clock (w_clock d)) 100 100 mrpd_timer_create) (S (w_clock d)) d);;
  if negb threads then mret (-1) else mret 0.

End Windows.
