(* ===== verification/MrpwCorrect.v ===== *)
(** * The Windows MRP daemon: theorems

    The message queue, the software timers, and what the turns of the main thread do and
    do not. *)

From S2P Require Import Prelude.
From S2P Require Import Mrp.
From S2P Require Import MrpTheory.
From S2P Require Import Mvrp.
From S2P Require Import Mmrp.
From S2P Require Import EuiSet.
From S2P Require Import Msrp.
From S2P Require Import MsrpRun.
From S2P Require Import Mrpd.
From S2P Require Import Que.
From S2P Require Import Mrpw.

Open Scope Z_scope.
Local Abbreviation length := List.length.

(** ** The queue *)

(** C28: the queue between the threads is a bounded FIFO.  For any number of threads that
    push and pop, interleaved in any way at any point of their calls: what was popped is
    a prefix of what was pushed, at most [n] entries are in the queue, no thread ever
    accesses the buffer outside its bounds, and when no thread can go on, all those
    inside a call wait for the same semaphore, the queue being full or empty: there is
    no deadlock and no lost wakeup. *)
Theorem que_is_bounded_fifo a b n size q k s :
  (0 < n)%nat -> que_new a b n size = Some q -> rtc que_step (fresh q k) s ->
  popped s `prefix_of` pushed s /\ (length (pushed s) <= length (popped s) + n)%nat /\
  (forall t, t ∈ threads s -> act t (que s) = Ok None \/ exists t' q', act t (que s) = Ok (Some (t', q'))) /\
  ((forall t, t ∈ threads s -> act t (que s) = Ok None) ->
   Forall waits (threads s) /\
   (forall d, PushWait d ∈ threads s -> data_avail (que s) = n) /\ (PopWait ∈ threads s -> data_avail (que s) = 0%nat)).
Proof.
  intros Hn Hq Hr. assert (HQ : que_ok n s) by (eapply reaches_que_ok; [done|by eapply fresh_ok|done]).
  split_and!; [apply HQ|pose proof (qk_space _ _ HQ); lia| |].
  - intros t (l1&l2&Ht)%list_elem_of_split. destruct s as [q' ts A B]. cbn in *. subst ts.
    destruct (act_ok n Hn q' l1 l2 A B t HQ) as [?|(t'&q''&?&_)]; [by left|right; by exists t', q''].
  - intros Hst. destruct (stuck_ok n s Hn HQ) as (?&?&?); [|done].
    intros l1 t l2 Ht. apply Hst. rewrite Ht. apply elem_of_app. right. by left.
Qed.

(** One thread pushes two messages into a queue of one entry and waits; another pops. *)
Definition small_que : que_def := mkQue 1 0 false [replicate 2 0] 0 0 1.

(** The threads with the given numbers act in turn. *)
Fixpoint schedule (l : list nat) (s : system) : system :=
  match l with
  | [] => s
  | i :: l =>
      match threads s !! i with
      | Some t =>
          match act t (que s) with
          | Ok (Some (t', q')) =>
              schedule l (mkSystem q' (<[i := t']> (threads s)) (pushed s ++ pushes t) (popped s ++ pops t))
          | _ => s
          end
      | None => s
      end
  end.

Lemma schedule_steps l s : rtc que_step s (schedule l s).
Proof.
  revert s. induction l as [|i l IH]; intros s; [apply rtc_refl|]. cbn [schedule].
  destruct (threads s !! i) as [t|] eqn:Ht; [|apply rtc_refl].
  destruct (act t (que s)) as [[[t' q']|]|] eqn:Ha; try apply rtc_refl. eapply rtc_l; [|apply IH].
  destruct s as [q ts A B]. cbn [threads que pushed popped] in *.
  rewrite insert_take_drop by (by apply lookup_lt_Some in Ht). rewrite <- (take_drop_middle ts i t Ht) at 1.
  by apply step_act.
Qed.

Definition two_calls : system := mkSystem small_que [que_push [1; 2]; que_pop_wait] [] [].

Lemma que_is_bounded_fifo_witness :
  let s := schedule [0; 0; 0; 0; 0; 0; 1; 1; 1; 1]%nat two_calls in
  pushed s = [[1; 2]] /\ popped s = [[1; 2]] /\ popped s `prefix_of` pushed s /\
  (length (pushed s) <= length (popped s) + 1)%nat.
Proof.
  assert (Hr : rtc que_step (fresh small_que 2) (schedule [0; 0; 0; 0; 0; 0; 1; 1; 1; 1]%nat two_calls)).
  { eapply rtc_l; [apply (step_push _ [] [Outside] _ _ [1; 2])|].
    eapply rtc_l; [apply (step_pop _ [que_push [1; 2]] [])|]. apply schedule_steps. }
  destruct (que_is_bounded_fifo true true 1 2 small_que 2 _ ltac:(lia) eq_refl Hr) as (H1&H2&_).
  split_and!; [reflexivity|reflexivity|exact H1|exact H2].
Defined.

(** ** Timers *)

(** The software timers measure time across the wrap-around of the clock: a timer that
    is started for [v] milliseconds elapses at the first check at which more than [v]
    milliseconds have passed, as long as it is checked within 2^32 milliseconds, and
    stays elapsed. *)
Lemma timer_elapses_exactly v i t (start now : Z) :
  0 <= v < 2 ^ 32 -> 0 <= now - start < 2 ^ 32 ->
  fst (mrpd_timer_timeout (u32 now) (mrpd_timer_start_interval (u32 start) v i t)) = (v <? now - start).
Proof.
  intros Hv Hn. unfold mrpd_timer_timeout, mrpd_timer_start_interval. cbn [running elapsed count start_time].
  assert (Hd : u32 (u32 now - u32 start) = now - start).
  { unfold u32. rewrite <- Zminus_mod. by apply Z.mod_small. }
  rewrite Hd. unfold u32. rewrite (Z.mod_small v) by lia. cbn. by destruct (v <? now - start).
Qed.

(** A periodic timer does not drift: restarts count from the previous start. *)
Lemma timer_restart_keeps_phase t k :
  0 < interval t < 2 ^ 32 -> 0 <= start_time t < 2 ^ 32 ->
  start_time (Nat.iter k mrpd_timer_restart t) = u32 (start_time t + Z.of_nat k * interval t) /\
  interval (Nat.iter k mrpd_timer_restart t) = interval t.
Proof.
  intros Hi Hs. induction k as [|k [IHs IHi]].
  - cbn [Nat.iter]. split; [|done]. unfold u32. cbn. by rewrite Z.add_0_r, Z.mod_small.
  - change (Nat.iter (S k) mrpd_timer_restart t) with (mrpd_timer_restart (Nat.iter k mrpd_timer_restart t)).
    set (x := Nat.iter k mrpd_timer_restart t) in *. unfold mrpd_timer_restart.
    destruct (Z.eqb_spec (interval x) 0); [lia|]. cbn [negb start_time interval]. split; [|done].
    rewrite IHs, IHi. unfold u32. rewrite Zplus_mod_idemp_l. f_equal. lia.
Qed.

(** ** Turns of the main thread *)

(** A timer that was never started. *)
Definition dormant (t : wtimer) : Prop := running t = false /\ elapsed t = false.

Section Spares.
Context {Wm Wv Ws : Type}.

Abbreviation wdaemon := (@wdaemon Wm Wv Ws).

(** Computations that leave the periodic timer alone while it is dormant. *)
Definition spares {A} (m : M wdaemon A) : Prop :=
  forall d a d', dormant (w_periodic d) -> m d = Ok (a, d') -> w_periodic d' = w_periodic d.

Lemma spares_ret {A} (a : A) : spares (mret a).
Proof using. by intros d x d' _ [= <- <-]. Qed.

Lemma spares_bind {A B} (m : M wdaemon A) (f : A -> M wdaemon B) : spares m -> (forall a, spares (f a)) -> spares (m ≫= f).
Proof using.
  intros Hm Hf d b d' Hd. unfold mbind, M_bind, mbind, outcome_bind. destruct (m d) as [[a d1]|] eqn:Hmd; [|done].
  apply Hm in Hmd; [|done]. intros Hfd. apply Hf in Hfd; [congruence|by rewrite Hmd].
Qed.

Lemma spares_modify f : (forall d, w_periodic (f d) = w_periodic d) -> spares (modify f).
Proof using. by intros Hf d [] d' _ [= <-]. Qed.

Lemma spares_gets {A} (f : wdaemon -> A) : spares (gets f).
Proof using. by intros d a d' _ [= _ <-]. Qed.

Lemma spares_on {W A} (get : wdaemon -> W) set (m : M W A) :
  (forall x d, w_periodic (set x d) = w_periodic d) -> spares (w_on get set m).
Proof using. intros Hs d a d' _. unfold w_on. destruct (m (get d)) as [[x w]|]; [|done]. intros [= _ <-]. apply Hs. Qed.

Lemma spares_whenever {A} b (m : M wdaemon A) : spares m -> spares (whenever b m).
Proof using. intros Hm. destruct b; cbn [whenever]; [|apply spares_ret]. apply spares_bind; [done|]. intros _. apply spares_ret. Qed.

Lemma spares_raise {A} f : spares (raise f : M wdaemon A).
Proof using. done. Qed.

Lemma spares_lift {A} (o : outcome A) : spares (lift o).
Proof using. intros d a d' _. unfold lift. destruct o; [|done]. by intros [= _ <-]. Qed.

Lemma spares_on_mmrp {A} (m : M Wm A) : spares (w_on_mmrp m).
Proof using. by apply spares_on. Qed.
Lemma spares_on_mvrp {A} (m : M Wv A) : spares (w_on_mvrp m).
Proof using. by apply spares_on. Qed.
Lemma spares_on_msrp {A} (m : M Ws A) : spares (w_on_msrp m).
Proof using. by apply spares_on. Qed.

(** What follows a computation that spares the timer finds it dormant. *)
Lemma bind_dormant {A B} (m : M wdaemon A) (f g : A -> M wdaemon B) d :
  spares m -> dormant (w_periodic d) -> (forall a d', dormant (w_periodic d') -> f a d' = g a d') -> (m ≫= f) d = (m ≫= g) d.
Proof using.
  intros Hm Hd Hfg. unfold mbind, M_bind, mbind, outcome_bind. destruct (m d) as [[a d1]|] eqn:Hmd; [|done].
  apply Hfg. by rewrite (Hm _ _ _ Hd Hmd).
Qed.

(** Neither a check nor a restart wakes a dormant timer. *)
Lemma dormant_timeout now t : dormant t -> mrpd_timer_timeout now t = (false, t).
Proof using. destruct t as [r e c i st]. cbn. by intros [[= ->] [= ->]]. Qed.

Lemma spares_periodic_timeout clock : spares (w_periodic_timeout clock).
Proof using. intros d a d' Hd. unfold w_periodic_timeout. rewrite dormant_timeout by done. by intros [= <- <-]. Qed.

Lemma spares_gc_timeout clock : spares (w_gc_timeout clock).
Proof using. intros d a d' Hd. unfold w_gc_timeout. destruct (mrpd_timer_timeout _ (w_gc d)). by intros [= <- <-]. Qed.

End Spares.

Create HintDb spares.
#[local] Hint Resolve spares_ret spares_modify spares_gets spares_whenever spares_raise spares_lift spares_on_mmrp
  spares_on_mvrp spares_on_msrp spares_periodic_timeout spares_gc_timeout : spares.
#[local] Hint Extern 1 (spares (_ ≫= _)) => apply spares_bind; [|intros ?] : spares.
#[local] Hint Extern 1 (spares (if ?b then _ else _)) => destruct b : spares.

Section Turns.
Context {Wm Wv Ws : Type} (mmrp : application Wm) (mvrp : application Wv) (msrp : application Ws).
Context (clock : nat -> Z) (malloc : nat -> bool) (em ev es : bool).

Abbreviation wdaemon := (@wdaemon Wm Wv Ws).
Abbreviation turn := (mrpw_run_once mmrp mvrp msrp clock malloc em ev es).

(** The protocols without their periodic part. *)
Definition run_protocols_only (e : elapsed_timers) : M wdaemon unit :=
  whenever em (w_on_mmrp (port_round mmrp (el_mmrp e)));;
  whenever ev (w_on_mvrp (port_round mvrp (el_mvrp e)));;
  whenever es (w_on_msrp (port_round msrp (el_msrp e)));;
  b ← w_gc_timeout clock;
  whenever b (w_reclaim mmrp mvrp msrp clock em ev es);;
  w_tick_restart.

Lemma spares_reclaim : spares (w_reclaim mmrp mvrp msrp clock em ev es).
Proof using. unfold w_reclaim, w_gctimer_start. auto 10 with spares. Qed.

Lemma spares_frame frame len : spares (w_frame mmrp mvrp msrp malloc em ev es frame len).
Proof using. unfold w_frame, w_recv_msg, w_recvmsgbuf. auto 20 with spares. Qed.

Lemma spares_ctl text client : spares (w_process_ctl_msg mmrp mvrp msrp text client).
Proof using. unfold w_process_ctl_msg. auto 20 with spares. Qed.

Lemma protocols_dormant e d :
  dormant (w_periodic d) -> run_protocols mmrp mvrp msrp clock em ev es e d = run_protocols_only e d.
Proof using.
  intros Hd. unfold run_protocols, run_protocols_only.
  do 3 (apply bind_dormant; [auto with spares|done|clear d Hd; intros _ d Hd]).
  assert (Hp : w_periodic_timeout clock d = Ok (false, d)); [|unfold mbind at 1, M_bind at 1; rewrite Hp; done].
  unfold w_periodic_timeout. rewrite dormant_timeout by done. destruct Hd as [Hr _]. unfold reads_clock. rewrite Hr.
  by destruct d.
Qed.

Lemma spares_turn w e : spares (turn w e).
Proof using.
  pose proof spares_reclaim. pose proof (spares_frame). pose proof spares_ctl.
  destruct w; cbn [mrpw_run_once]; unfold w_tick_timeout; auto with spares;
    (apply spares_bind; [|intros _; apply spares_ret]; intros d a d' Hd Hrun; rewrite protocols_dormant in Hrun by done;
     revert Hd Hrun; assert (Hs : spares (run_protocols_only e)) by (unfold run_protocols_only, w_tick_restart; auto 20 with spares);
     apply Hs).
Qed.

Lemma turns_dormant l : forall d d', dormant (w_periodic d) ->
  w_process_events mmrp mvrp msrp clock malloc em ev es l d = Ok (tt, d') -> dormant (w_periodic d').
Proof using.
  induction l as [|[w e] l IH]; intros d d' Hd; [by intros [= <-]|]. cbn [w_process_events].
  unfold mbind at 1, M_bind at 1. destruct (turn w e d) as [[rc d1]|] eqn:Ht; [|done]. cbn [mbind outcome_bind].
  assert (Hd1 : dormant (w_periodic d1)) by (by rewrite (spares_turn _ _ _ _ _ Hd Ht)).
  destruct (rc <? 0); [by intros [= <-]|by apply IH].
Qed.

Lemma init_dormant netif rc (im : M Wm Z) (iv : M Wv Z) (js : M Ws Z) tp tg d d' :
  mrpw_init_protocols clock em ev es netif rc im iv js tp tg d = Ok (0, d') -> dormant (w_periodic d').
Proof using.
  unfold mrpw_init_protocols. destruct netif; [|done]. cbn [negb fst mrp_init Z.eqb]. destruct (rc =? 0); [|done]. cbn [negb].
  unfold mbind, M_bind, mbind, outcome_bind.
  repeat match goal with
  | |- match ?x with _ => _ end = _ -> _ => destruct x as [[? ?]|] eqn:?; [|done]
  | |- (if negb (?r =? 0) then _ else _) _ = _ -> _ => destruct (r =? 0) eqn:?; cbn [negb]; [|done]
  end.
  intros [= <-]. match goal with H : w_init_timers _ _ _ _ = Ok (?z, ?w) |- _ => rename H into Ht; rename z into rt end.
  destruct tp, tg; cbn in Ht; injection Ht as <- <-; done.
Qed.

End Turns.

(** The Windows daemon never sends periodically.  From every start that succeeds,
    whatever the main thread is woken for and however long it runs, the periodic timer
    has never been started: it is neither running nor elapsed, and running the protocols
    is the same as running them without their periodic part.  (Only the periodic
    machine starts this timer, and the Windows daemon does not run that machine.) *)
Theorem mrpw_never_periodic {Wm Wv Ws} (mmrp : application Wm) (mvrp : application Wv) (msrp : application Ws)
    clock malloc em ev es netif rc im iv js tp tg d0 d1 d2 l d :
  mrpw_init_protocols clock em ev es netif rc im iv js tp tg d0 = Ok (0, d1) ->
  mrpw_init_threads clock true d1 = Ok (0, d2) ->
  w_process_events mmrp mvrp msrp clock malloc em ev es l d2 = Ok (tt, d) ->
  dormant (w_periodic d) /\
  forall e, run_protocols mmrp mvrp msrp clock em ev es e d = run_protocols_only mmrp mvrp msrp clock em ev es e d.
Proof.
  intros H0 H1 H2. apply init_dormant in H0. assert (Hd2 : dormant (w_periodic d2)) by (by injection H1 as <-).
  assert (Hd : dormant (w_periodic d)) by (by eapply turns_dormant). split; [done|]. intros e. by apply protocols_dormant.
Qed.

(** The daemon with MVRP alone: two timeouts, eight seconds apart, then the end. *)
Definition win_0 : @wdaemon mmrp_world mvrp_world msrp_world :=
  mkWin (mkMmrp MmNoDb [] []) (mkMvrp NoDb [] []) (mkMsrp MsNoDb [] []) mrpd_timer_create mrpd_timer_create mrpd_timer_create 0 0 [].
Definition clock_0 (n : nat) : Z := 4000 * Z.of_nat n.
Definition none_elapsed : elapsed_timers :=
  let p := mkPort None false false false in mkElapsed p p p.
Definition win_addr : list Z := [0; 0x1b; 0x21; 0; 0; 0x0c].
Definition win_turns : list (wait_result * elapsed_timers) :=
  [(WaitTimeout, none_elapsed); (WaitTick, none_elapsed); (WaitKill, none_elapsed)].

Definition win_started : @wdaemon mmrp_world mvrp_world msrp_world :=
  match mrpw_init_protocols clock_0 false true false true 0 (mret 0) (mvrp_init os0 1 1 true 0) (mret 0) true true win_0 with
  | Ok (_, d) => d
  | Fault _ => win_0
  end.
Definition win_threaded : @wdaemon mmrp_world mvrp_world msrp_world :=
  match mrpw_init_threads clock_0 true win_started with Ok (_, d) => d | Fault _ => win_0 end.
Definition win_end : @wdaemon mmrp_world mvrp_world msrp_world :=
  match w_process_events (mmrp_app os0 1 win_addr (fun n => replicate n 0)) (mvrp_app os0 1 win_addr) (msrp_app os0 1 win_addr)
          clock_0 (fun _ => true) false true false win_turns win_threaded with
  | Ok (_, d) => d
  | Fault _ => win_0
  end.

Lemma mrpw_never_periodic_witness : dormant (w_periodic win_end) /\ w_clock win_end = 4%nat.
Proof.
  split; [|reflexivity].
  exact (proj1 (mrpw_never_periodic (mmrp_app os0 1 win_addr (fun n => replicate n 0)) (mvrp_app os0 1 win_addr)
    (msrp_app os0 1 win_addr) clock_0 (fun _ => true) false true false true 0 (mret 0) (mvrp_init os0 1 1 true 0) (mret 0)
    true true win_0 win_started win_threaded win_turns win_end eq_refl eq_refl eq_refl)).
Defined.
