(* ===== verification/MaapServer.v ===== *)
(** * The MAAP daemon process

    daemons/maap/linux/src/maap_daemon.c: the table of client connections, the rounds of
    the server's loop around the MAAP client, the routing and the line breaking of
    notifications.  What the operating system answers (which descriptors are ready, the
    bytes received, accepted descriptors) is the argument of a round; what the server
    sends, shows and closes is recorded. *)

From S2P Require Import Prelude.
From S2P Require Import MaapPacket.
From S2P Require Import MaapNet.
From S2P Require Import Maap.
From S2P Require Import CText.
From S2P Require Import MaapText.
From Stdlib Require Import String.

Open Scope Z_scope.
Local Abbreviation length := List.length.

(** ** Breaking lines *)

Definition MAAP_LOG_STDOUT_CONSOLE_WIDTH : nat := 80.

(** The scan for the end of a line: [i] characters were seen, [last] is the position of
    the last space, none for -1.  [None]: the text ends first. *)
Fixpoint break_at (width i : nat) (last : option nat) (text : list Z) : option nat :=
  match text with
  | [] => None
  | c :: text =>
      match last with
      | Some (S k) =>
          if (i <? width)%nat then break_at width (S i) (if isspace c then Some i else last) text else Some (S k)
      | _ => break_at width (S i) (if isspace c then Some i else last) text
      end
  end.

(** The lines of a text; the first one has [width] columns. *)
Fixpoint break_lines (fuel width : nat) (text : list Z) : list (list Z) :=
  match fuel, text with
  | O, _ | _, [] => []
  | S fuel, _ =>
      match break_at width 0 None text with
      | None => [text]
      | Some k => take k text :: break_lines fuel MAAP_LOG_STDOUT_CONSOLE_WIDTH (skip_spaces (drop k text))
      end
  end.

Definition level_text (logLevel : Z) : list Z :=
  if logLevel =? MAAP_LOG_LEVEL_ERROR then str "Error:  "
  else if logLevel =? MAAP_LOG_LEVEL_WARNING then str "Warning:  "
  else [].

(** The text for a buffer of 300 bytes, with its terminating zero. *)
Definition format_print_notify_result (logLevel : Z) (notifyText : list Z) : outcome (list Z) :=
  let initial := level_text logLevel in
  let lines := break_lines (length notifyText) (MAAP_LOG_STDOUT_CONSOLE_WIDTH - length initial) notifyText in
  match notifyText with
  | [] => Ok []
  | _ => sprintf 300 (initial ++ List.concat (map (fun l => l ++ [13; 10]) lines))
  end.

(** ** The server *)

Definition MAX_CLIENT_CONNECTIONS : nat := 32.
Definition RECVBUFFER_SIZE : nat := 1600.

Inductive output : Type :=
  | Frame (b : list Z)
  | Shown (text : list Z)
  | Logged (l : line)
  | SentText (fd : Z) (text : list Z)
  | SentNotify (fd : Z) (mn : Maap_Notify)
  | Waited (sec usec : Z)
  | Closed (fd : Z).

(** The MAAP client, the slots of the connections (-1 for an empty one), the set of
    watched descriptors and its maximum, and what was done. *)
Record server : Type := mkServer {
  sv_maap : world;
  clientfd : list Z;
  client_wants_text : list bool;
  nextclientindex : nat;
  master : gset Z;
  fdmax : Z;
  exit_received : bool;
  outputs : list output
}.

Abbreviation SERVER := (M server).

Definition set_maap (w : world) (s : server) : server :=
  mkServer w (clientfd s) (client_wants_text s) (nextclientindex s) (master s) (fdmax s) (exit_received s) (outputs s).
Definition set_slots (fds : list Z) (next : nat) (m : gset Z) (mx : Z) (s : server) : server :=
  mkServer (sv_maap s) fds (client_wants_text s) next m mx (exit_received s) (outputs s).
Definition set_wants (l : list bool) (s : server) : server :=
  mkServer (sv_maap s) (clientfd s) l (nextclientindex s) (master s) (fdmax s) (exit_received s) (outputs s).
Definition set_exit (s : server) : server :=
  mkServer (sv_maap s) (clientfd s) (client_wants_text s) (nextclientindex s) (master s) (fdmax s) true (outputs s).
Definition add_outputs (l : list output) (s : server) : server :=
  mkServer (sv_maap s) (clientfd s) (client_wants_text s) (nextclientindex s) (master s) (fdmax s) (exit_received s)
    (outputs s ++ l).

Definition on_maap {A} (m : MAAP A) : SERVER A :=
  fun s => match m (sv_maap s) with Ok (a, w) => Ok (a, set_maap w s) | Fault f => Fault f end.

Definition the_server : SERVER server := gets (fun s => s).

Definition produce (l : list output) : SERVER unit := modify (add_outputs l).

(** *** Sending *)

Definition send_packets (send_ok : nat -> bool) : SERVER unit :=
  c ← gets (fun s => mc (sv_maap s));
  match net c with
  | None => mret tt
  | Some n =>
      '(sent, n) ← lift (transmit send_ok n);
      on_maap (upd_mc (set_net (Some n)));;
      produce (map Frame sent)
  end.

(** The texts of a notification, formatted for a console or a socket. *)
Fixpoint format_all (l : list line) : outcome (list (list Z)) :=
  match l with
  | [] => Ok []
  | (level, text) :: l =>
      t ← format_print_notify_result level text;
      ts ← format_all l;
      Ok (t :: ts)
  end.

(** The first slot with the descriptor. *)
Definition slot_of (fd : Z) (fds : list Z) : option nat := fst <$> list_find (fun x => x = fd) fds.

Definition deliver_notify (who : Z) (mn : Maap_Notify) : SERVER unit :=
  lines ← lift (print_notify mn);
  if who =? -1 then
    ts ← lift (format_all lines);
    produce (map Shown ts)
  else
    produce (map Logged lines);;
    s ← the_server;
    match slot_of who (clientfd s) with
    | None => mret tt
    | Some i =>
        if default false (client_wants_text s !! i) then
          ts ← lift (format_all lines);
          produce (map (SentText who) ts)
        else produce [SentNotify who mn]
    end.

Fixpoint deliver_notifies (fuel : nat) : SERVER unit :=
  match fuel with
  | O => raise FuelExhausted
  | S fuel =>
      n ← on_maap get_notify;
      match n with
      | None => mret tt
      | Some (who, mn) => deliver_notify who mn;; deliver_notifies fuel
      end
  end.

(** *** Waiting *)

(** The time for [select] from the nanoseconds to the next timer. *)
Definition wait_time (waittime : Z) : Z * Z :=
  if 0 <? waittime then (waittime / 1000000000, (waittime mod 1000000000) / 1000) else (0, 0).

(** *** Connections *)

(** The loop over the other slots looks at the slot it started from, which is occupied,
    and so comes back to it. *)
Definition no_other_slot (fds : list Z) (next : nat) : bool :=
  let others := map (fun k => ((next + 1 + k) mod MAX_CLIENT_CONNECTIONS)%nat) (seq 0 (MAX_CLIENT_CONNECTIONS - 1)) in
  negb (existsb (fun i => default 0 (fds !! next) =? -1) others).

Definition accept_connection (newfd : Z) : SERVER unit :=
  if newfd =? -1 then mret tt
  else
    s ← the_server;
    let next := nextclientindex s in
    if negb (default 0 (clientfd s !! next) =? -1) && no_other_slot (clientfd s) next
    then produce [Closed newfd]
    else
      modify (set_slots (<[next := newfd]> (clientfd s)) ((next + 1) mod MAX_CLIENT_CONNECTIONS)
        ({[newfd]} ∪ master s) (if fdmax s <? newfd then newfd else fdmax s)).

Definition close_connection (i : nat) : SERVER unit :=
  s ← the_server;
  let fd := default (-1) (clientfd s !! i) in
  produce [Closed fd];;
  modify (set_slots (<[i := -1]> (clientfd s)) i (master s ∖ {[fd]}) (fdmax s)).

(** *** Receiving *)

(** The bytes are stored at the start of the receive buffer and terminated; [stale] is
    what the buffer held before. *)
Definition store_text (bytes stale : list Z) : outcome (list Z) :=
  if (length bytes <? length stale)%nat then Ok (bytes ++ 0 :: drop (S (length bytes)) stale) else Fault OutOfBounds.

Definition usage_texts : outcome (list line) :=
  l ← parse_usage; Ok (map (fun t => (MAAP_LOG_LEVEL_INFO, t)) l).

Definition is_help (buf : list Z) : bool := strneq 4 (cstr buf) (str "help").

(** The packets of the network socket, each at most as long as the buffer. *)
Fixpoint receive_packets (E : Env) (packets : list (list Z)) : SERVER unit :=
  match packets with
  | [] => mret tt
  | p :: packets =>
      let b := take RECVBUFFER_SIZE p in
      on_maap (maap_handle_packet E b (Z.of_nat (length b)));;
      receive_packets E packets
  end.

(** A command on the standard input; no bytes for an error or the end of the input. *)
Definition read_stdin (E : Env) (bytes stale : list Z) : SERVER unit :=
  match bytes with
  | [] => mret tt
  | _ =>
      buf ← lift (store_text (take (RECVBUFFER_SIZE - 1) bytes) stale);
      '(result, _) ← on_maap (parse_write E (-1) buf);
      if 0 <? result then modify set_exit
      else if result <? 0 then
        (if is_help buf then mret tt else produce [Shown (str "Invalid command type" ++ [10])]);;
        lines ← lift usage_texts;
        ts ← lift (format_all lines);
        produce (map Shown ts)
      else mret tt
  end.

(** What a connection delivers: an error, the end (no bytes) or bytes. *)
Inductive received_data : Type := RecvFailed | RecvData (b stale : list Z).

Definition read_client (E : Env) (i : nat) (r : received_data) : SERVER unit :=
  match r with
  | RecvFailed | RecvData [] _ => close_connection i
  | RecvData bytes stale =>
      s ← the_server;
      let fd := default (-1) (clientfd s !! i) in
      buf ← lift (store_text (take RECVBUFFER_SIZE bytes) stale);
      '(result, text) ← on_maap (parse_write E fd buf);
      modify (fun s => set_wants (<[i := text]> (client_wants_text s)) s);;
      if 0 <? result then modify set_exit
      else if result <? 0 then
        (if is_help buf then mret tt
         else t ← lift (format_print_notify_result MAAP_LOG_LEVEL_INFO (str "Invalid command type")); produce [SentText fd t]);;
        lines ← lift usage_texts;
        ts ← lift (format_all lines);
        produce (map (SentText fd) ts)
      else mret tt
  end.

Definition read_slot (E : Env) (i : nat) (r : option received_data) : SERVER unit :=
  s ← the_server;
  match r with
  | Some r => if default (-1) (clientfd s !! i) =? -1 then mret tt else read_client E i r
  | None => mret tt
  end.

Fixpoint read_slots (E : Env) (ready : nat -> option received_data) (l : list nat) : SERVER unit :=
  match l with
  | [] => mret tt
  | i :: l => read_slot E i (ready i);; read_slots E ready l
  end.

Definition read_clients (E : Env) (ready : nat -> option received_data) : SERVER unit :=
  read_slots E ready (seq 0 MAX_CLIENT_CONNECTIONS).

(** *** Rounds *)

(** The result of [select].  [net_packets] are the packets read and whether the reading
    ended with an error. *)
Inductive select_result : Type :=
  | SelectError
  | SelectTimeout
  | SelectReady (net_packets : option (list (list Z) * bool)) (newfd : option Z) (stdin : option (list Z * list Z))
      (clients : nat -> option received_data).

(** What the operating system answers in a round: which packets can be sent, the time the
    timer still has, the ready descriptors. *)
Record round_input : Type := mkInput {
  send_ok : nat -> bool;
  remaining : Z;
  selected : select_result
}.

(** Whether the loop goes on. *)
Definition server_round (E : Env) (daemonize : bool) (r : round_input) : SERVER bool :=
  send_packets (send_ok r);;
  s ← the_server;
  deliver_notifies (S (length (notifies (mc (sv_maap s)))));;
  c ← gets (fun s => mc (sv_maap s));
  let '(sec, usec) := wait_time (maap_get_delay_to_next_timer (remaining r) c) in
  produce [Waited sec usec];;
  match selected r with
  | SelectError => mret false
  | SelectTimeout => on_maap (maap_handle_timer E);; mret true
  | SelectReady packets newfd stdin clients =>
      receive_packets E (default [] (fst <$> packets));;
      if default false (snd <$> packets) then mret false
      else
        (match newfd with Some fd => accept_connection fd | None => mret tt end);;
        (match stdin with Some (b, stale) => if daemonize then mret tt else read_stdin E b stale | None => mret tt end);;
        read_clients E clients;;
        s ← the_server;
        mret (negb (exit_received s))
  end.

Fixpoint server_rounds (E : Env) (daemonize : bool) (l : list round_input) : SERVER unit :=
  match l with
  | [] => mret tt
  | r :: l =>
      more ← server_round E daemonize r;
      if (more : bool) then server_rounds E daemonize l else mret tt
  end.

(** The end: every open connection is closed, the client is shut down. *)
Definition server_stop (socketfd listener : Z) : SERVER Z :=
  produce [Closed socketfd; Closed listener];;
  s ← the_server;
  produce (map Closed (List.filter (fun fd => negb (fd =? -1)) (clientfd s)));;
  modify (fun s => set_slots (map (fun _ => -1) (clientfd s)) (nextclientindex s) (master s) (fdmax s) s);;
  on_maap maap_deinit_client;;
  s ← the_server;
  mret (if exit_received s then 0 else -1).

Definition help_hint : list Z :=
  str "Enter " ++ [34] ++ str "help" ++ [34] ++ str " for a list of valid commands." ++ [10].

(** The state before the first round. *)
Definition server_start (daemonize : bool) (socketfd listener dest src : Z) : server :=
  mkServer (mkWorld (mkClient dest src 0 0 None [] None None 0 [] false) ∅ ∅ 0 0 0)
    (replicate MAX_CLIENT_CONNECTIONS (-1)) (replicate MAX_CLIENT_CONNECTIONS false) 0
    ({[listener]} ∪ ({[socketfd]} ∪ (if daemonize then ∅ else {[0]})))
    (if socketfd <? listener then listener else socketfd) false (if daemonize then [] else [Shown help_hint]).

(** The result and what was done. *)
Definition act_as_server (E : Env) (daemonize : bool) (socketfd listener dest src : Z)
    (l : list round_input) : outcome (Z * list output) :=
  if socketfd =? -1 then Ok (-1, [])
  else if listener =? -1 then Ok (-1, [Closed socketfd])
  else
    '(rv, s) ← (server_rounds E daemonize l;; server_stop socketfd listener) (server_start daemonize socketfd listener dest src);
    Ok (rv, outputs s).

(** ** The command line client *)

Definition notify_tag (k : Z) : option Maap_Notify_Tag :=
  if k =? 0 then Some MAAP_NOTIFY_INVALID
  else if k =? 1 then Some MAAP_NOTIFY_INITIALIZED
  else if k =? 2 then Some MAAP_NOTIFY_ACQUIRING
  else if k =? 3 then Some MAAP_NOTIFY_ACQUIRED
  else if k =? 4 then Some MAAP_NOTIFY_RELEASED
  else if k =? 5 then Some MAAP_NOTIFY_STATUS
  else if k =? 6 then Some MAAP_NOTIFY_YIELDED
  else None.

Definition notify_error (r : Z) : option Maap_Notify_Error :=
  if r =? 0 then Some MAAP_NOTIFY_ERROR_NONE
  else if r =? 1 then Some MAAP_NOTIFY_ERROR_REQUIRES_INITIALIZATION
  else if r =? 2 then Some MAAP_NOTIFY_ERROR_ALREADY_INITIALIZED
  else if r =? 3 then Some MAAP_NOTIFY_ERROR_RESERVE_NOT_AVAILABLE
  else if r =? 4 then Some MAAP_NOTIFY_ERROR_RELEASE_INVALID_ID
  else if r =? 5 then Some MAAP_NOTIFY_ERROR_OUT_OF_MEMORY
  else if r =? 6 then Some MAAP_NOTIFY_ERROR_INTERNAL
  else None.

(** [print_notify] of a received structure, whose numbers may be outside of the
    enumerations: an unknown result has a text of its own and otherwise counts as an
    error, an unknown kind is reported. *)
Definition print_received (buf : list Z) : outcome (list line) :=
  k ← le_field buf 0 4;
  i ← le_field buf 4 4;
  s ← le_field buf 8 8;
  c ← le_field buf 16 4;
  r ← le_field buf 20 4;
  errors ← match notify_error r with
    | Some e => Ok (error_lines e)
    | None => formatted MAAP_LOG_LEVEL_ERROR (str "The MAAP application returned an unknown error " ++ fmt_d (s32 r) ++ str ".")
    end;
  lines ← match notify_tag k with
    | Some kind => kind_lines (mkNotify kind (s32 i) s c (default MAAP_NOTIFY_ERROR_INTERNAL (notify_error r)))
    | None => formatted MAAP_LOG_LEVEL_ERROR (str "Notification type " ++ fmt_d (s32 k) ++ str " not recognized")
    end;
  Ok (errors ++ lines).

Definition NOTIFY_SIZE : nat := 24.

(** What the client shows for what it receives: whole structures only. *)
Fixpoint client_receive (chunks : list (list Z)) : outcome (list (list Z)) :=
  match chunks with
  | [] => Ok []
  | b :: chunks =>
      shown ← (if (length b =? NOTIFY_SIZE)%nat then l ← print_received b; format_all l else Ok []);
      more ← client_receive chunks;
      Ok (shown ++ more)
  end.

(** The buffer with a line of the standard input: the texts to show, the command to send. *)
Definition client_command (buf : list Z) : outcome (list (list Z) * option (list Z)) :=
  k ← le_field buf 0 4;
  match cmd_tag k with
  | Some _ => b ← read_bytes buf 0 24; Ok ([], Some b)
  | None =>
      match parse_text_cmd buf with
      | Some cmd => Ok ([], Some (cmd_image cmd [0; 0; 0; 0]))
      | None =>
          l ← usage_texts;
          ts ← format_all l;
          Ok ((if is_help buf then [] else [str "Invalid command type" ++ [10]]) ++ ts, None)
      end
  end.

(** How reading from the daemon ends. *)
Inductive recv_end : Type := ServerClosed | WouldBlock | RecvError.

Inductive client_selected : Type :=
  | ClientSelectError
  | ClientReady (socket : option (list (list Z) * recv_end)) (stdin : option (list Z * list Z)) (send_ok : bool).

(** What the client shows and sends. *)
Inductive client_output : Type := ClientShown (text : list Z) | ClientSent (b : list Z).

(** Whether the loop goes on, whether the exit was received, and what was done. *)
Definition client_round (sel : client_selected) : outcome (bool * bool * list client_output) :=
  match sel with
  | ClientSelectError => Ok (false, false, [])
  | ClientReady socket stdin send_ok =>
      shown ← client_receive (map (take NOTIFY_SIZE) (default [] (fst <$> socket)));
      let outs := map ClientShown shown in
      match snd <$> socket with
      | Some RecvError => Ok (false, false, outs)
      | e =>
          let exit := match e with Some ServerClosed => true | _ => false end in
          match stdin with
          | None | Some ([], _) => Ok (negb exit, exit, outs)
          | Some (bytes, stale) =>
              buf ← store_text (take 199 bytes) stale;
              '(texts, cmd) ← client_command buf;
              let outs := outs ++ map ClientShown texts in
              match cmd with
              | None => Ok (negb exit, exit, outs)
              | Some b => Ok (negb exit && send_ok, exit, if send_ok then outs ++ [ClientSent b] else outs)
              end
          end
      end
  end.

Fixpoint client_rounds (l : list client_selected) : outcome (bool * list client_output) :=
  match l with
  | [] => Ok (false, [])
  | sel :: l =>
      '(more, exit, outs) ← client_round sel;
      if more : bool then
        '(exit, outs') ← client_rounds l;
        Ok (exit, outs ++ outs')
      else Ok (exit, outs)
  end.

(** The loop of the client once it is connected. *)
Definition act_as_client (l : list client_selected) : outcome (Z * list client_output) :=
  '(exit, outs) ← client_rounds l;
  Ok (if exit : bool then 0 else -1, ClientShown (str "Client started" ++ [10]) :: ClientShown help_hint :: outs).

(** ** Options *)

Record maap_options : Type := mkMaapOptions {
  as_client : bool;
  logfile : option (list Z);
  iface : option (list Z);
  listenport : option (list Z)
}.

(** [None] is the exit of [usage]. *)
Fixpoint maap_read_options (l : list (Z * list Z)) (o : maap_options) : option maap_options :=
  match l with
  | [] => Some o
  | (c, optarg) :: l =>
      let '(mkMaapOptions cl lf i p) := o in
      if c =? 99 then maap_read_options l (mkMaapOptions true lf i p)
      else if c =? 100 then
        match lf with Some _ => None | None => maap_read_options l (mkMaapOptions cl (Some optarg) i p) end
      else if c =? 105 then
        match i with Some _ => None | None => maap_read_options l (mkMaapOptions cl lf (Some optarg) p) end
      else if c =? 112 then
        match p with Some _ => None | None => maap_read_options l (mkMaapOptions cl lf i (Some optarg)) end
      else None
  end.

Definition maap_main_options (l : list (Z * list Z)) (rest : bool) : option maap_options :=
  o ← maap_read_options l (mkMaapOptions false None None None);
  let daemonize := bool_decide (is_Some (logfile o)) in
  if rest then None
  else if as_client o && daemonize then None
  else if negb (as_client o) && negb (bool_decide (is_Some (iface o))) then None
  else if as_client o && bool_decide (is_Some (iface o)) then None
  else
    Some (mkMaapOptions (as_client o) (logfile o) (iface o) (Some (default (str "15364") (listenport o)))).
