(* ===== verification/MaapServerCorrect.v ===== *)
(** * The MAAP daemon process: theorems

    Line breaking, routing of notifications and the table of connections. *)

From S2P Require Import Prelude.
From S2P Require Import MaapPacket.
From S2P Require Import MaapNet.
From S2P Require Import Maap.
From S2P Require Import CText.
From S2P Require Import CTextTheory.
From S2P Require Import MaapText.
From S2P Require Import MaapServer.
From Stdlib Require Import String.

Open Scope Z_scope.
Local Abbreviation length := List.length.

(** ** Breaking lines *)

(** No space behind the first character. *)
Definition unbroken (l : list Z) : Prop := forall j c, (0 < j)%nat -> l !! j = Some c -> isspace c = false.

Definition space_at (l : list Z) (k : nat) : Prop := exists c, l !! k = Some c /\ isspace c = true.

Lemma unbroken_snoc l c : unbroken l -> isspace c = false \/ l = [] -> unbroken (l ++ [c]).
Proof.
  intros Hl Hc j d Hj [Hd|[Hge Hd]]%lookup_app_Some; [by apply (Hl j)|].
  apply list_lookup_singleton_Some in Hd as [H0 <-]. destruct Hc as [| ->]; [done|]. cbn in *. lia.
Qed.

Lemma space_at_app l l' k : space_at l k -> space_at (l ++ l') k.
Proof. intros (c&Hc&Hs). exists c. split; [by apply lookup_app_l_Some|done]. Qed.

Lemma space_at_snoc l c : isspace c = true -> space_at (l ++ [c]) (length l).
Proof. intros Hs. exists c. split; [|done]. by rewrite lookup_app_r, Nat.sub_diag. Qed.

(** What the scan knows about the characters it has seen. *)
Definition seen (width : nat) (pre : list Z) (last : option nat) : Prop :=
  match last with
  | Some (S j) => (S j < length pre)%nat /\ space_at pre (S j) /\ ((S j < width)%nat \/ unbroken (take (S j) pre))
  | _ => unbroken pre
  end.

Lemma seen_snoc width pre last c :
  seen width pre last -> (match last with Some (S _) => length pre < width | _ => True end)%nat ->
  seen width (pre ++ [c]) (if isspace c then Some (length pre) else last).
Proof.
  intros Hs Hw. destruct (isspace c) eqn:Hc.
  - assert (Hsp : space_at (pre ++ [c]) (length pre)) by (by apply space_at_snoc).
    destruct pre as [|p pre]; [by apply (unbroken_snoc []); [|right]|]. unfold seen. cbn [length] in *.
    rewrite length_app. split_and!; [cbn; lia|done|]. destruct last as [[|j]|]; cbn [seen] in Hs; [|left; lia|];
      right; (rewrite take_app_length' by done); done.
  - destruct last as [[|j]|]; cbn [seen] in *; [by apply unbroken_snoc; [|left]| |by apply unbroken_snoc; [|left]].
    destruct Hs as (Hl&Hsp&Hcase). rewrite length_app. split_and!; [cbn; lia|by apply space_at_app|].
    destruct Hcase as [|Hu]; [by left|right]. by rewrite take_app_le by lia.
Qed.

(** A break is at a space, not at the start, within the width or behind a single word. *)
Lemma break_at_Some width text : forall pre last k,
  seen width pre last -> break_at width (length pre) last text = Some k ->
  (0 < k)%nat /\ space_at (pre ++ text) k /\ ((k < width)%nat \/ unbroken (take k (pre ++ text))).
Proof.
  induction text as [|c text IH]; intros pre last k Hs; cbn [break_at]; [done|].
  assert (Hrec : (match last with Some (S _) => length pre < width | _ => True end)%nat ->
    break_at width (S (length pre)) (if isspace c then Some (length pre) else last) text = Some k ->
    (0 < k)%nat /\ space_at (pre ++ c :: text) k /\ ((k < width)%nat \/ unbroken (take k (pre ++ c :: text)))).
  { intros Hw Hb. rewrite cons_middle, (assoc_L (++)). apply (IH (pre ++ [c]) (if isspace c then Some (length pre) else last)).
    - by apply seen_snoc.
    - rewrite length_app. cbn. by rewrite Nat.add_1_r. }
  destruct last as [[|j]|]; [by apply Hrec| |by apply Hrec].
  destruct (Nat.ltb_spec (length pre) width) as [Hlt|Hge]; [by apply Hrec|]. intros [= <-].
  destruct Hs as (Hl&Hsp&Hcase). split_and!; [lia|by apply space_at_app|]. rewrite take_app_le by lia. done.
Qed.

Lemma break_at_None width text : forall pre last,
  seen width pre last -> (match last with Some (S _) => length pre <= width \/ unbroken (take (length pre - 1) pre) | _ => True end)%nat ->
  break_at width (length pre) last text = None ->
  (length (pre ++ text) <= width)%nat \/ unbroken (take (length (pre ++ text) - 1) (pre ++ text)).
Proof.
  assert (Htake : forall l n, unbroken l -> unbroken (take n l)).
  { intros l n Hu j d Hj Hd. apply (Hu j d Hj). rewrite lookup_take in Hd. by case_decide. }
  induction text as [|c text IH]; intros pre last Hs Hend; cbn [break_at].
  { intros _. rewrite app_nil_r. destruct last as [[|j]|]; [right; by apply Htake|done|right; by apply Htake]. }
  assert (Hrec : (match last with Some (S _) => length pre < width | _ => True end)%nat ->
    break_at width (S (length pre)) (if isspace c then Some (length pre) else last) text = None ->
    (length (pre ++ c :: text) <= width)%nat \/ unbroken (take (length (pre ++ c :: text) - 1) (pre ++ c :: text))).
  { intros Hw Hb. rewrite cons_middle, (assoc_L (++)). apply (IH (pre ++ [c]) (if isspace c then Some (length pre) else last)).
    - by apply seen_snoc.
    - rewrite length_app. cbn [length]. destruct (isspace c); [|destruct last as [[|j]|]; [done|left; lia|done]].
      destruct (length pre) as [|n] eqn:Hp; [done|]. destruct last as [[|j]|]; cbn [seen] in Hs; [right|left; lia|right];
        (rewrite take_app_length' by lia); done.
    - rewrite length_app. cbn. by rewrite Nat.add_1_r. }
  destruct last as [[|j]|]; [by apply Hrec| |by apply Hrec].
  destruct (Nat.ltb_spec (length pre) width) as [Hlt|Hge]; [by apply Hrec|done].
Qed.

Definition letters (l : list Z) : list Z := filter (fun c => isspace c = false) l.

Lemma letters_skip l : letters (skip_spaces l) = letters l.
Proof.
  induction l as [|c l IH]; [done|]. cbn [skip_spaces]. destruct (isspace c) eqn:Hc; [|done].
  unfold letters in *. by rewrite filter_cons_False by congruence.
Qed.

Lemma skip_shorter l : (length (skip_spaces l) <= length l)%nat.
Proof. induction l as [|c l IH]; [done|]. cbn [skip_spaces]. destruct (isspace c); cbn; lia. Qed.

(** The text behind a break is shorter by the line and at least one space. *)
Lemma behind_break text k :
  space_at text k -> (k + S (length (skip_spaces (drop k text))) <= length text)%nat.
Proof.
  intros (c&Hc&Hs). pose proof (lookup_lt_Some _ _ _ Hc). rewrite (drop_S _ _ _ Hc). cbn [skip_spaces]. rewrite Hs.
  pose proof (skip_shorter (drop (S k) text)) as Hl. rewrite length_drop in Hl. lia.
Qed.

Lemma break_text width text k :
  break_at width 0 None text = Some k ->
  (0 < k)%nat /\ space_at text k /\ ((k < width)%nat \/ unbroken (take k text)).
Proof. apply (break_at_Some width text []). done. Qed.

(** Nothing but spaces is lost. *)
Lemma break_lines_letters fuel : forall width text,
  (length text <= fuel)%nat -> letters (List.concat (break_lines fuel width text)) = letters text.
Proof.
  induction fuel as [|fuel IH]; intros width text Hl; [by destruct text; [|cbn in Hl; lia]|].
  destruct text as [|c text]; [done|]. set (t := c :: text) in *. cbn [break_lines]. change (match t with [] => _ | _ => ?x end) with x.
  destruct (break_at width 0 None t) as [k|] eqn:Hb; [|cbn [List.concat]; by rewrite app_nil_r].
  apply break_text in Hb as (Hk&Hs&_). pose proof (behind_break _ _ Hs). cbn [List.concat].
  unfold letters in *. rewrite filter_app, IH by lia. fold (letters (skip_spaces (drop k t))). rewrite letters_skip.
  unfold letters. by rewrite <- filter_app, take_drop.
Qed.

(** A line is within its width, or cannot be broken earlier. *)
Definition fits_line (width : nat) (l : list Z) : Prop :=
  (length l <= width)%nat \/ unbroken (take (length l - 1) l).

Lemma break_lines_width fuel : forall width text,
  (width <= MAAP_LOG_STDOUT_CONSOLE_WIDTH)%nat ->
  match break_lines fuel width text with
  | [] => True
  | l :: ls => fits_line width l /\ Forall (fits_line MAAP_LOG_STDOUT_CONSOLE_WIDTH) ls
  end.
Proof.
  induction fuel as [|fuel IH]; intros width text Hw; [done|]. destruct text as [|c text]; [done|].
  set (t := c :: text) in *. cbn [break_lines]. change (match t with [] => _ | _ => ?x end) with x.
  destruct (break_at width 0 None t) as [k|] eqn:Hb.
  - apply break_text in Hb as (Hk&(d&Hd&_)&Hcase). pose proof (lookup_lt_Some _ _ _ Hd). split.
    + unfold fits_line. rewrite length_take_le by lia. destruct Hcase as [|Hu]; [left; lia|right].
      intros j x Hj Hx. apply (Hu j x Hj). rewrite lookup_take in Hx. by case_decide.
    + specialize (IH MAAP_LOG_STDOUT_CONSOLE_WIDTH (skip_spaces (drop k t)) (Nat.le_refl _)).
      destruct (break_lines fuel _ _); [constructor|]. by constructor; destruct IH.
  - split; [|constructor]. by apply (break_at_None width t [] None).
Qed.

Definition with_ends (ls : list (list Z)) : list Z := List.concat (map (fun l => l ++ [13; 10]) ls).

(** Every break replaces at least one space by two characters, behind at least one
    other. *)
Lemma break_lines_length fuel : forall width text,
  (length (with_ends (break_lines fuel width text)) <= length text + length text / 2 + 2)%nat.
Proof.
  induction fuel as [|fuel IH]; intros width text; [cbn; lia|]. destruct text as [|c text]; [cbn; lia|].
  set (t := c :: text) in *. cbn [break_lines]. change (match t with [] => _ | _ => ?x end) with x.
  destruct (break_at width 0 None t) as [k|] eqn:Hb.
  - apply break_text in Hb as (Hk&Hs&_). pose proof (behind_break _ _ Hs) as Hlen.
    specialize (IH MAAP_LOG_STDOUT_CONSOLE_WIDTH (skip_spaces (drop k t))).
    unfold with_ends in *. cbn [map List.concat]. rewrite !length_app. cbn [length].
    pose proof (length_take_le t k ltac:(lia)) as ->. set (n := length (skip_spaces (drop k t))) in *.
    assert (S (n / 2) <= length t / 2)%nat.
    { replace (S (n / 2)) with ((n + 1 * 2) / 2)%nat by (rewrite Nat.div_add; lia). apply Nat.Div0.div_le_mono. lia. }
    lia.
  - unfold with_ends. cbn [map List.concat]. rewrite app_nil_r, length_app. cbn [length]. lia.
Qed.

Lemma level_text_length level : (length (level_text level) <= 10)%nat.
Proof. unfold level_text. destruct (level =? _); [cbn; lia|]. destruct (level =? _); cbn; lia. Qed.

(** A text of up to 190 characters fits the buffer. *)
Lemma format_Ok level text :
  (length text <= 190)%nat ->
  exists ls, format_print_notify_result level text = Ok (match text with [] => [] | _ => level_text level ++ with_ends ls end) /\
    ls = break_lines (length text) (MAAP_LOG_STDOUT_CONSOLE_WIDTH - length (level_text level)) text.
Proof.
  intros Hl. eexists. split; [|done]. unfold format_print_notify_result. destruct text as [|c text]; [done|].
  set (t := c :: text) in *. set (ls := break_lines _ _ _). fold (with_ends ls). apply sprintf_Ok.
  rewrite length_app. pose proof (level_text_length level). pose proof (break_lines_length (length t) (MAAP_LOG_STDOUT_CONSOLE_WIDTH - length (level_text level)) t) as Hb.
  fold ls in Hb. assert (length t / 2 <= 95)%nat by (apply (Nat.Div0.div_le_mono _ 190 2); lia). lia.
Qed.

(** A notification is broken into lines without loss.  For every text of up to 190
    characters, which all texts of the daemon are: the output fits the 300 bytes of its
    buffer; it is the word for the level followed by lines that end with CR and LF; the
    lines have all characters of the text but spaces, in order; and every line has at
    most 80 columns, with the word for the level on the first, unless it is a single
    word. *)
Theorem format_breaks_lines level text :
  text <> [] -> (length text <= 190)%nat ->
  exists ls, format_print_notify_result level text = Ok (level_text level ++ List.concat (map (fun l => l ++ [13; 10]) ls)) /\
    letters (List.concat ls) = letters text /\
    match ls with
    | [] => False
    | l :: ls => fits_line (80 - length (level_text level)) l /\ Forall (fits_line 80) ls
    end.
Proof.
  intros Hne Hl. destruct (format_Ok level text Hl) as (ls&Hf&Els). exists ls.
  split_and!; [by destruct text|by rewrite Els, break_lines_letters|].
  pose proof (break_lines_width (length text) (MAAP_LOG_STDOUT_CONSOLE_WIDTH - length (level_text level)) text ltac:(lia)) as Hw.
  rewrite <- Els in Hw. destruct ls as [|l ls]; [|done]. destruct text as [|c text]; [done|].
  cbn [length break_lines] in Els. by destruct (break_at _ _ _ _).
Qed.

(** The longest text of an error breaks once. *)
Definition long_error : list Z :=
  str "The MAAP reservation is not available, or yield cannot allocate a replacement block. " ++
  str "Try again with a smaller address block size.".

Lemma format_breaks_lines_witness :
  exists ls, format_print_notify_result MAAP_LOG_LEVEL_ERROR long_error =
      Ok (str "Error:  " ++ List.concat (map (fun l => l ++ [13; 10]) ls)) /\
    letters (List.concat ls) = letters long_error /\
    match ls with
    | [] => False
    | l :: ls => fits_line 72 l /\ Forall (fits_line 80) ls
    end.
Proof.
  refine (format_breaks_lines MAAP_LOG_LEVEL_ERROR long_error _ _); [discriminate|].
  apply Nat.leb_le. reflexivity.
Defined.

(** ** Notifications *)

Lemma fmt_x_any v : (length (fmt_x 12 v) <= 16)%nat.
Proof.
  unfold fmt_x, pad0, digits. rewrite length_app, length_replicate. pose proof (digits_loop_length 16 16 v []). cbn [length] in *. lia.
Qed.

Definition short (l : line) : Prop := l.2 <> [] /\ (length l.2 <= 190)%nat.

Lemma formatted_short level text :
  text <> [] -> (length text <= 190)%nat -> exists l, formatted level text = Ok l /\ Forall short l.
Proof. intros Hne Hl. rewrite formatted_Ok by lia. eexists. split; [done|]. constructor; [by split|constructor]. Qed.

(** Whatever a notification holds, it has texts that are neither empty nor too long. *)
Lemma print_notify_short mn : exists l, print_notify mn = Ok l /\ Forall short l.
Proof.
  assert (He : Forall short (error_lines (result mn))).
  { destruct (result mn); cbn [error_lines]; [constructor|..];
      (constructor; [split; [discriminate|]; apply Nat.leb_le; reflexivity|constructor]). }
  enough (Hk : exists l, kind_lines mn = Ok l /\ Forall short l).
  { destruct Hk as (l&El&Hl). unfold print_notify. rewrite El. eexists. split; [done|]. by apply Forall_app. }
  pose proof (fmt_d_any (n_id mn)) as H1. pose proof (fmt_d_any (s32 (count mn))) as H2. pose proof (fmt_x_any (start mn)) as H3.
  pose proof (fmt_x_any (u64 (start mn + count mn - 1))) as H4. pose proof (fmt_d_any 0) as H5.
  unfold kind_lines, block_text, size_text. destruct (kind mn); repeat case_match;
    try (apply formatted_short; [done|]; rewrite ?length_app; cbn [length str]; lia).
  all: rewrite formatted_Ok by (rewrite ?length_app; cbn [length str]; lia); cbn_outcome; eexists; split; [done|];
    apply Forall_app; split; [constructor; [split; [done|]; cbn [snd]; rewrite ?length_app; cbn [length str]; lia|constructor]|].
  - constructor.
  - constructor; [split; [discriminate|]; apply Nat.leb_le; reflexivity|constructor].
Qed.

Lemma format_all_short l : Forall short l -> exists ts, format_all l = Ok ts.
Proof.
  induction 1 as [|[level text] l [_ Hl] _ [ts Hts]]; [by eexists|]. cbn [format_all].
  destruct (format_Ok level text Hl) as (ls&->&_). cbn_outcome. rewrite Hts. cbn_outcome. by eexists.
Qed.

(** The texts of a notification. *)
Definition notify_texts (mn : Maap_Notify) : list (list Z) :=
  match print_notify mn with
  | Ok l => match format_all l with Ok ts => ts | Fault _ => [] end
  | Fault _ => []
  end.

(** What a client is to receive for a notification. *)
Definition client_copy (wants_text : bool) (fd : Z) (mn : Maap_Notify) : list output :=
  if wants_text then map (SentText fd) (notify_texts mn) else [SentNotify fd mn].

(** What a server did for a descriptor. *)
Definition is_for (fd : Z) (o : output) : Prop := match o with SentText f _ | SentNotify f _ => f = fd | _ => False end.

#[local] Instance is_for_dec fd o : Decision (is_for fd o).
Proof. destruct o; cbn; apply _. Defined.

(** Whether a descriptor is connected, and as a text client. *)
Definition connection (s : server) (fd : Z) : option bool :=
  i ← slot_of fd (clientfd s); Some (default false (client_wants_text s !! i)).

Lemma filter_all {A} (P : A -> Prop) `{!forall x, Decision (P x)} l : Forall P l -> filter P l = l.
Proof. induction 1 as [|x l Hx _ IH]; [done|]. by rewrite filter_cons_True, IH. Qed.

Lemma filter_map_for {B} (fd : Z) (f : B -> output) (l : list B) (b : bool) :
  (forall x, is_for fd (f x) <-> b = true) -> filter (is_for fd) (map f l) = if b then map f l else [].
Proof.
  intros Hf. destruct b.
  - apply filter_all. apply Forall_fmap, Forall_true. intros x. by apply Hf.
  - apply filter_none. apply Forall_fmap, Forall_true. intros x Hx. by apply Hf in Hx.
Qed.

Lemma add_outputs_app o o' s : add_outputs o' (add_outputs o s) = add_outputs (o ++ o') s.
Proof. destruct s. unfold add_outputs. cbn. by rewrite (assoc_L (++)). Qed.

Lemma add_outputs_nil s : add_outputs [] s = s.
Proof. destruct s. unfold add_outputs. cbn. by rewrite app_nil_r. Qed.

(** One notification: it is delivered, and nobody else receives anything. *)
Lemma deliver_one who mn s :
  exists outs, deliver_notify who mn s = Ok (tt, add_outputs outs s) /\
    forall fd, fd <> -1 -> filter (is_for fd) outs =
      if decide (who = fd) then match connection s fd with Some t => client_copy t fd mn | None => [] end else [].
Proof.
  destruct (print_notify_short mn) as (l&El&Hl). destruct (format_all_short l Hl) as (ts&Ets).
  assert (Htexts : notify_texts mn = ts) by (unfold notify_texts; by rewrite El, Ets).
  assert (Hadd : forall s o, produce o s = Ok (tt, add_outputs o s)) by done.
  unfold deliver_notify. unfold mbind, M_bind, lift at 1. rewrite El. cbn_outcome.
  destruct (Z.eqb_spec who (-1)) as [->|Hwho].
  { rewrite Ets. cbn_outcome. eexists. split; [done|]. intros fd Hfd. rewrite decide_False by done.
    by apply (filter_map_for fd Shown ts false). }
  change (produce (map Logged l) s) with (Ok (tt, add_outputs (map Logged l) s)). cbn iota.
  change (the_server ?x) with (Ok (x, x)). cbn iota. change (clientfd (add_outputs _ s)) with (clientfd s).
  change (client_wants_text (add_outputs _ s)) with (client_wants_text s).
  assert (Hlog : forall fd, filter (is_for fd) (map Logged l) = []) by (intros fd; by apply (filter_map_for fd Logged l false)).
  unfold connection, client_copy. destruct (slot_of who (clientfd s)) as [i|] eqn:Hslot.
  - destruct (default false (client_wants_text s !! i)) eqn:Hw; unfold lift; rewrite ?Ets; cbn iota; rewrite Hadd.
    + exists (map Logged l ++ map (SentText who) ts). split; [by rewrite add_outputs_app|]. intros fd Hfd.
      rewrite filter_app, Hlog. case_decide as Hd; [subst fd; rewrite Hslot; cbn; rewrite Hw, Htexts|].
      * by apply (filter_map_for who (SentText who) ts true).
      * by apply (filter_map_for fd (SentText who) ts false).
    + exists (map Logged l ++ [SentNotify who mn]). split; [by rewrite add_outputs_app|]. intros fd Hfd.
      rewrite filter_app, Hlog. case_decide as Hd; [subst fd; rewrite Hslot; cbn; rewrite Hw|].
      * by apply (filter_map_for who (SentNotify who) [mn] true).
      * by apply (filter_map_for fd (SentNotify who) [mn] false).
  - exists (map Logged l). split; [done|]. intros fd Hfd. rewrite Hlog. case_decide as Hd; [|done]. subst fd. by rewrite Hslot.
Qed.

(** Taking the next notification. *)
Lemma get_none s (f : option (Z * Maap_Notify) -> SERVER unit) :
  notifies (mc (sv_maap s)) = [] -> (on_maap get_notify ≫= f) s = f None s.
Proof.
  intros Hn. unfold mbind, M_bind, on_maap, get_notify, gets, mbind, M_bind, mbind, outcome_bind. rewrite Hn. cbn.
  by destruct s.
Qed.

Lemma get_some s x ns (f : option (Z * Maap_Notify) -> SERVER unit) :
  notifies (mc (sv_maap s)) = x :: ns ->
  (on_maap get_notify ≫= f) s = f (Some x) (set_maap (with_mc (set_notifies ns) (sv_maap s)) s).
Proof. intros Hn. unfold mbind, M_bind, on_maap, get_notify, gets, mbind, M_bind, mbind, outcome_bind. by rewrite Hn. Qed.

Lemma deliver_S n : deliver_notifies (S n) =
  (x ← on_maap get_notify; match x with None => mret tt | Some (who, mn) => deliver_notify who mn;; deliver_notifies n end).
Proof. done. Qed.

(** C29: notifications reach the client they are for, and only that one.  Whatever is
    queued, the server takes all of it without a fault; to every connected client it
    sends exactly the notifications for its descriptor, in order, as texts or as
    structures, in the form of the client's last command; nothing is sent to a
    descriptor that is not connected. *)
Theorem server_routes_notifications s :
  exists outs,
    deliver_notifies (S (length (notifies (mc (sv_maap s))))) s =
      Ok (tt, add_outputs outs (set_maap (with_mc (set_notifies []) (sv_maap s)) s)) /\
    forall fd, fd <> -1 -> filter (is_for fd) outs =
      match connection s fd with
      | Some t => List.concat (map (fun x => client_copy t fd x.2) (filter (fun x => x.1 = fd) (notifies (mc (sv_maap s)))))
      | None => []
      end.
Proof.
  assert (Hgen : forall ns s0, notifies (mc (sv_maap s0)) = ns -> (forall fd, connection s0 fd = connection s fd) ->
    exists outs, deliver_notifies (S (length ns)) s0 = Ok (tt, add_outputs outs (set_maap (with_mc (set_notifies []) (sv_maap s0)) s0)) /\
      forall fd, fd <> -1 -> filter (is_for fd) outs =
        match connection s fd with
        | Some t => List.concat (map (fun x => client_copy t fd x.2) (filter (fun x => x.1 = fd) ns))
        | None => []
        end); [|by apply Hgen].
  induction ns as [|[who mn] ns IH]; intros s0 Hns Hc; rewrite deliver_S.
  - exists []. split; [|intros fd _; by destruct (connection s fd)]. rewrite get_none by done.
    destruct s0 as [[[] ? ? ? ? ?] ? ? ? ? ? ? ?]. cbn in *. subst. by rewrite add_outputs_nil.
  - rewrite (get_some _ _ _ _ Hns).
    set (s1 := set_maap (with_mc (set_notifies ns) (sv_maap s0)) s0).
    destruct (deliver_one who mn s1) as (o1&Ho1&Hf1).
    destruct (IH (add_outputs o1 s1)) as (o2&Ho2&Hf2); [done|intros fd; by rewrite <- Hc|].
    exists (o1 ++ o2). change (length ((who, mn) :: ns)) with (S (length ns)). unfold mbind, M_bind. rewrite Ho1. cbn [mbind outcome_bind]. rewrite Ho2. split.
    + by rewrite <- add_outputs_app.
    + intros fd Hfd. rewrite filter_app, Hf1, Hf2 by done. change (connection s1 fd) with (connection s0 fd). rewrite Hc.
      rewrite filter_cons. cbn [fst]. case_decide as Hd; [|by destruct (connection s fd)]. subst fd.
      by destruct (connection s who).
Qed.

(** ** Connections *)

Record slots_ok (s : server) : Prop := {
  sl_fds : length (clientfd s) = MAX_CLIENT_CONNECTIONS;
  sl_texts : length (client_wants_text s) = MAX_CLIENT_CONNECTIONS;
  sl_next : (nextclientindex s < MAX_CLIENT_CONNECTIONS)%nat;
  sl_once : forall i j fd, fd <> -1 -> clientfd s !! i = Some fd -> clientfd s !! j = Some fd -> i = j;
  sl_watched : forall fd, fd <> -1 -> fd ∈ clientfd s -> fd ∈ master s /\ fd <= fdmax s
}.

Lemma occupied_rejects fds next : (default 0 (fds !! next) =? -1) = false -> no_other_slot fds next = true.
Proof.
  intros Hocc. unfold no_other_slot. apply negb_true_iff. apply not_true_is_false. intros (i&_&Hi)%existsb_exists. congruence.
Qed.

(** A new connection never displaces another: it takes the next slot when that is
    empty, is watched from then on, and all other connections stay; otherwise it is
    closed and the table stays as it is. *)
Theorem accept_keeps_connections newfd s :
  slots_ok s -> newfd <> -1 -> newfd ∉ clientfd s ->
  exists s', accept_connection newfd s = Ok (tt, s') /\ slots_ok s' /\ sv_maap s' = sv_maap s /\
    if default 0 (clientfd s !! nextclientindex s) =? -1
    then clientfd s' = <[nextclientindex s := newfd]> (clientfd s) /\ newfd ∈ master s' /\ outputs s' = outputs s
    else clientfd s' = clientfd s /\ outputs s' = outputs s ++ [Closed newfd].
Proof.
  intros [Hf Ht Hn Ho Hw] Hne Hnew. unfold accept_connection. rewrite (proj2 (Z.eqb_neq _ _) Hne).
  unfold the_server, gets, mbind, M_bind, mbind, outcome_bind.
  destruct (default 0 (clientfd s !! nextclientindex s) =? -1) eqn:Hocc; cbn [negb andb].
  - eexists. split; [done|]. split; [|split_and!; [done..|cbn; set_solver|done]].
    assert (Hlt : (nextclientindex s < length (clientfd s))%nat) by lia.
    constructor; cbn [clientfd client_wants_text nextclientindex master fdmax set_slots]; [by rewrite length_insert|done| | |].
    + apply Nat.mod_upper_bound. by unfold MAX_CLIENT_CONNECTIONS.
    + intros i j fd Hfd Hi Hj. apply list_lookup_insert_Some in Hi as [(<-&<-&_)|[Hi1 Hi2]], Hj as [(<-&Hj&_)|[Hj1 Hj2]]; try done.
      * destruct Hnew. by apply list_elem_of_lookup_2 with j.
      * subst fd. destruct Hnew. by apply list_elem_of_lookup_2 with i.
      * by apply (Ho i j fd).
    + intros fd Hfd (i&Hi)%list_elem_of_lookup. apply list_lookup_insert_Some in Hi as [(_&<-&_)|[_ Hi]].
      * split; [set_solver|]. destruct (Z.ltb_spec (fdmax s) newfd); lia.
      * destruct (Hw fd Hfd) as [H1 H2]; [by apply list_elem_of_lookup_2 with i|]. split; [set_solver|].
        destruct (Z.ltb_spec (fdmax s) newfd); lia.
  - rewrite occupied_rejects by done. by exists (add_outputs [Closed newfd] s).
Qed.

(** Closing a connection empties its slot, which the next connection will take. *)
Lemma close_keeps_connections i s :
  slots_ok s -> (i < MAX_CLIENT_CONNECTIONS)%nat ->
  exists s', close_connection i s = Ok (tt, s') /\ slots_ok s' /\ clientfd s' = <[i := -1]> (clientfd s) /\
    nextclientindex s' = i /\ sv_maap s' = sv_maap s.
Proof.
  intros [Hf Ht Hn Ho Hw] Hi. unfold close_connection, the_server, gets, produce, modify, mbind, M_bind, mbind, outcome_bind.
  eexists. split; [reflexivity|]. split; [|by split_and!].
  constructor; cbn [clientfd client_wants_text nextclientindex master fdmax set_slots add_outputs]; [by rewrite length_insert|done..| |].
  - intros j k fd Hfd Hj Hk. apply list_lookup_insert_Some in Hj as [(_&<-&_)|[_ Hj]]; [done|].
    apply list_lookup_insert_Some in Hk as [(_&<-&_)|[_ Hk]]; [done|]. by apply (Ho j k fd).
  - intros fd Hfd (j&Hj)%list_elem_of_lookup. apply list_lookup_insert_Some in Hj as [(_&<-&_)|[Hij Hj]]; [done|].
    destruct (Hw fd Hfd) as [H1 H2]; [by apply list_elem_of_lookup_2 with j|]. split; [|done]. apply elem_of_difference. split; [done|].
    rewrite elem_of_singleton. intros ->. destruct (clientfd s !! i) as [x|] eqn:Hx; cbn in Hj, Hfd; [|done].
    apply Hij. by apply (Ho i j x).
Qed.

Lemma accept_keeps_connections_witness :
  exists s', accept_connection 7 (server_start true 3 4 0x91e0f000ff00 0x001122334455) = Ok (tt, s') /\ slots_ok s' /\
    sv_maap s' = sv_maap (server_start true 3 4 0x91e0f000ff00 0x001122334455) /\ clientfd s' = 7 :: replicate 31 (-1) /\
    7 ∈ master s' /\ outputs s' = [].
Proof.
  refine (accept_keeps_connections 7 (server_start true 3 4 0x91e0f000ff00 0x001122334455) _ _ _).
  - constructor; cbn [clientfd client_wants_text nextclientindex master fdmax server_start]; [done|done| | |].
    + apply Nat.ltb_lt. reflexivity.
    + intros i j fd Hfd Hi%lookup_replicate_1. by destruct Hi as [-> _].
    + intros fd Hfd [-> _]%elem_of_replicate. done.
  - discriminate.
  - intros [H _]%elem_of_replicate. discriminate.
Defined.

(** ** The command line client *)

Lemma scan_digits_nonneg base s : forall acc any v,
  0 <= base -> 0 <= acc -> scan_digits base s acc any = Some v -> 0 <= v.
Proof.
  induction s as [|c s IH]; intros acc any v Hb Ha; cbn [scan_digits]; [destruct any; [by intros [= <-]|done]|].
  destruct (digit_val c <? base) eqn:Hd; [|destruct any; [by intros [= <-]|done]].
  apply IH; [done|]. assert (0 <= digit_val c) by (unfold digit_val; repeat case_match; lia). nia.
Qed.

Lemma scan_base_nonneg base s : 0 <= base -> 0 <= (scan_base base s).1.
Proof. intros Hb. unfold scan_base. repeat case_match; cbn [fst]; lia. Qed.

Lemma strtoull_bound base s : 0 <= base -> is_u64 (strtoull base s).
Proof.
  intros Hb. unfold strtoull, scan_int. destruct (scan_sign (skip_spaces s)) as [neg s'].
  pose proof (scan_base_nonneg base s' Hb) as Hb'. destruct (scan_base base s') as [b s'']. cbn [fst] in Hb'.
  destruct (scan_digits b s'' 0 false) as [v|] eqn:Hv; [|done].
  apply scan_digits_nonneg in Hv; [|done..]. destruct (Z.leb_spec (2 ^ 64) v); [done|].
  destruct neg; [apply u64_bound|done].
Qed.

(** A command of the parser has fields of their types. *)
Lemma parse_text_cmd_ok buf cmd : parse_text_cmd buf = Some cmd -> cmd_ok cmd.
Proof.
  assert (Hs : forall v, - 2 ^ 31 <= s32 v < 2 ^ 31) by (intros v; pose proof (Z.mod_pos_bound (v + 2 ^ 31) (2 ^ 32)); unfold s32; lia).
  pose proof u32_bound as Hu. pose proof (fun s => strtoull_bound 16 s ltac:(lia)) as Hx.
  unfold parse_text_cmd. intros Hp. repeat case_match; try discriminate Hp; injection Hp as <-;
    unfold cmd_ok; cbn [cmd_id cmd_start cmd_count cmd_kind]; split_and!; try done; try apply Hs; try apply Hu; try apply Hx; lia.
Qed.

(** A line of characters, none of them zero. *)
Definition text_line (l : list Z) : Prop := Forall (fun c => 0 < c < 256) l.

Lemma cstr_line l rest : text_line l -> cstr (l ++ 0 :: rest) = l.
Proof. induction 1 as [|c l Hc _ IH]; [done|]. cbn [app cstr]. by rewrite (proj2 (Z.eqb_neq c 0)), IH by lia. Qed.

Lemma parse_line l rest rest' : text_line l -> parse_text_cmd (l ++ 0 :: rest) = parse_text_cmd (l ++ 0 :: rest').
Proof. intros Hl. unfold parse_text_cmd. by rewrite !cstr_line. Qed.

(** Four characters do not spell the number of a command. *)
Lemma line_no_tag l rest :
  text_line l -> (4 <= length l)%nat -> exists k, le_field (l ++ rest) 0 4 = Ok k /\ cmd_tag k = None.
Proof.
  intros Hl Hlen. destruct l as [|c0 [|c1 [|c2 [|c3 l]]]]; cbn in Hlen; try lia.
  apply Forall_cons in Hl as [H0 [H1 [H2 [H3 _]%Forall_cons]%Forall_cons]%Forall_cons].
  unfold le_field. rewrite read_bytes_Ok by (cbn; lia). cbn_outcome. eexists. split; [done|].
  cbn [drop app take]. rewrite take_0. unfold le_val, be_val. cbn [rev app fold_left]. assert (0x01010101 <= ((c3 * 256 + c2) * 256 + c1) * 256 + c0) by lia. unfold cmd_tag.
  repeat (case_match; [lia|]). done.
Qed.

Lemma run_cmd_result E who cmd w rv w' :
  cmd_kind cmd <> MAAP_CMD_INVALID -> run_cmd E who cmd w = Ok (rv, w') -> (rv <? 0) = false.
Proof.
  intros Hk. unfold run_cmd. destruct (cmd_kind cmd); [done|..|by intros [= <- _]];
    unfold mbind, M_bind, mbind, outcome_bind; (case_match; [case_match; by intros [= <- _]|done]).
Qed.

(** What the server does with a valid command, in either form. *)
Definition served (E : Env) (i : nat) (cmd : Maap_Cmd) (text : bool) (s : server) : outcome (unit * server) :=
  match run_cmd E (default (-1) (clientfd s !! i)) cmd (sv_maap s) with
  | Ok (rv, w) =>
      let s' := set_wants (<[i := text]> (client_wants_text s)) (set_maap w s) in
      Ok (tt, if 0 <? rv then set_exit s' else s')
  | Fault f => Fault f
  end.

Lemma read_client_serves E i bytes stale cmd text s :
  bytes <> [] -> (length bytes < RECVBUFFER_SIZE)%nat -> length stale = RECVBUFFER_SIZE -> cmd_kind cmd <> MAAP_CMD_INVALID ->
  (forall who rest w, parse_write E who (bytes ++ 0 :: rest) w = (rv ← run_cmd E who cmd; mret (rv, text)) w) ->
  read_client E i (RecvData bytes stale) s = served E i cmd text s.
Proof.
  intros Hne Hl Hs Hk Hw. destruct bytes as [|b bytes]; [done|]. set (bs := b :: bytes) in *.
  unfold read_client. change (match bs with [] => _ | _ => ?x end) with x.
  unfold the_server, gets, mbind at 1, M_bind at 1. cbn [mbind outcome_bind].
  unfold mbind at 1, M_bind at 1, lift at 1, store_text.
  rewrite take_ge, Hs, (proj2 (Nat.ltb_lt _ _) Hl) by lia. cbn [mbind outcome_bind].
  unfold mbind at 1, M_bind at 1, on_maap at 1. rewrite Hw. unfold served.
  unfold mbind at 1 2, M_bind at 1 2. cbn [mbind outcome_bind].
  destruct (run_cmd E _ cmd (sv_maap s)) as [[rv w]|f] eqn:Hr; [|reflexivity].
  apply run_cmd_result in Hr; [|exact Hk].
  cbn -[usage_texts format_print_notify_result is_help format_all str Z.ltb]. rewrite Hr. by destruct (0 <? rv).
Qed.

(** The image of a notification in the memory of a little-endian machine. *)
Definition notify_number (k : Maap_Notify_Tag) : Z :=
  match k with
  | MAAP_NOTIFY_INVALID => 0 | MAAP_NOTIFY_INITIALIZED => 1 | MAAP_NOTIFY_ACQUIRING => 2 | MAAP_NOTIFY_ACQUIRED => 3
  | MAAP_NOTIFY_RELEASED => 4 | MAAP_NOTIFY_STATUS => 5 | MAAP_NOTIFY_YIELDED => 6
  end.
Definition error_number (e : Maap_Notify_Error) : Z :=
  match e with
  | MAAP_NOTIFY_ERROR_NONE => 0 | MAAP_NOTIFY_ERROR_REQUIRES_INITIALIZATION => 1
  | MAAP_NOTIFY_ERROR_ALREADY_INITIALIZED => 2 | MAAP_NOTIFY_ERROR_RESERVE_NOT_AVAILABLE => 3
  | MAAP_NOTIFY_ERROR_RELEASE_INVALID_ID => 4 | MAAP_NOTIFY_ERROR_OUT_OF_MEMORY => 5
  | MAAP_NOTIFY_ERROR_INTERNAL => 6
  end.
Definition notify_image (mn : Maap_Notify) : list Z :=
  le_bytes 4 (notify_number (kind mn)) ++ le_bytes 4 (n_id mn) ++ le_bytes 8 (start mn) ++
  le_bytes 4 (count mn) ++ le_bytes 4 (error_number (result mn)) ++ [].

Lemma notify_tag_number k : notify_tag (notify_number k) = Some k.
Proof. by destruct k. Qed.
Lemma notify_error_number e : notify_error (error_number e) = Some e.
Proof. by destruct e. Qed.

(** The client prints a received structure as the daemon prints the notification. *)
Lemma print_received_image mn : notify_ok mn -> print_received (notify_image mn) = print_notify mn.
Proof.
  intros (Hi&Hs&Hc). unfold print_received, notify_image.
  change (le_field ?x 0 4) with (le_field ([] ++ x) 0 4). rewrite (le_field_here 0 []) by done. cbn_outcome.
  rewrite (le_field_here 4) by apply length_le_bytes. cbn_outcome.
  set (a := le_bytes 4 (notify_number _)). set (b := le_bytes 4 (n_id mn)).
  rewrite (app_assoc a b), (le_field_here 8) by (unfold a, b; by rewrite length_app, !length_le_bytes). cbn_outcome.
  rewrite (app_assoc (a ++ b)), (le_field_here 16) by (unfold a, b; by rewrite !length_app, !length_le_bytes). cbn_outcome.
  rewrite (app_assoc ((a ++ b) ++ _)), (le_field_here 20) by (unfold a, b; by rewrite !length_app, !length_le_bytes). cbn_outcome.
  change (8 * Z.of_nat 4) with 32. change (8 * Z.of_nat 8) with 64.
  rewrite s32_mod, (Z.mod_small (start mn)), (Z.mod_small (count mn)) by done.
  rewrite (Z.mod_small (notify_number _)), (Z.mod_small (error_number _)) by (by destruct (kind mn), (result mn)).
  rewrite notify_tag_number, notify_error_number. cbn_outcome. unfold print_notify. by destruct mn.
Qed.

Lemma length_notify_image mn : length (notify_image mn) = NOTIFY_SIZE.
Proof. unfold notify_image. by rewrite !length_app, !length_le_bytes. Qed.

Lemma client_receive_image mn :
  notify_ok mn -> client_receive (map (take NOTIFY_SIZE) [notify_image mn]) = Ok (notify_texts mn).
Proof.
  intros Hmn. cbn [map client_receive]. rewrite take_ge, length_notify_image, Nat.eqb_refl by (by rewrite length_notify_image).
  rewrite print_received_image by done. destruct (print_notify_short mn) as (ls&El&Hls).
  destruct (format_all_short ls Hls) as (ts&Ets). unfold notify_texts. rewrite El. cbn_outcome. rewrite Ets. cbn_outcome.
  by rewrite app_nil_r.
Qed.

(** C30: the command line client is transparent.  A command typed at the client makes the
    daemon do exactly what the same line does when it arrives on the connection as text:
    the same operation of the MAAP client for the same descriptor, the same end of the
    daemon; only the form of the answers differs.  And what the client shows for a
    notification it receives is the text of that notification. *)
Theorem remote_is_local E i l cmd stale stale' s mn :
  text_line l -> (4 <= length l < 200)%nat -> parse_text_cmd (l ++ [0]) = Some cmd ->
  length stale = 200%nat -> length stale' = RECVBUFFER_SIZE -> notify_ok mn ->
  exists bytes,
    client_round (ClientReady (Some ([notify_image mn], WouldBlock)) (Some (l, stale)) true) =
      Ok (true, false, map ClientShown (notify_texts mn) ++ [ClientSent bytes]) /\
    read_client E i (RecvData bytes stale') s =
      match read_client E i (RecvData l stale') s with
      | Ok (_, s') => Ok (tt, set_wants (<[i := false]> (client_wants_text s)) s')
      | Fault f => Fault f
      end.
Proof.
  intros Hl Hlen Hp Hs Hs' Hmn. exists (cmd_image cmd [0; 0; 0; 0]). pose proof (parse_text_cmd_ok _ _ Hp) as Hok. split.
  - unfold client_round. cbn [fmap option_fmap option_map fst snd].
    change (default [] (Some [notify_image mn])) with [notify_image mn]. rewrite client_receive_image by done. cbn_outcome.
    destruct l as [|c l]; [cbn in Hlen; lia|]. set (l' := c :: l) in *. change (match l' with [] => _ | _ => ?x end) with x.
    unfold store_text. rewrite take_ge, Hs, (proj2 (Nat.ltb_lt _ _)) by lia. cbn_outcome.
    destruct (line_no_tag l' (0 :: drop (S (length l')) stale) Hl) as (k&Hk&Ht); [lia|]. unfold client_command. rewrite Hk. cbn_outcome.
    rewrite Ht, (parse_line _ _ [] Hl), Hp. cbn_outcome. by rewrite app_nil_r.
  - rewrite (read_client_serves E i _ stale' cmd false), (read_client_serves E i l stale' cmd true).
    + unfold served. destruct (run_cmd _ _ _ _) as [[rv w]|]; [|done]. by destruct (0 <? rv).
    + intros ->. cbn in Hlen. lia.
    + unfold RECVBUFFER_SIZE. lia.
    + done.
    + apply Hok.
    + intros who rest w. unfold parse_write. destruct (line_no_tag l (0 :: rest) Hl) as (k&Hk&Ht); [lia|].
      rewrite Hk. unfold mbind at 1, M_bind at 1, lift at 1. cbv beta iota.
      assert (existsb (Z.eqb 0) (l ++ 0 :: rest) = true) as -> by (apply existsb_exists; exists 0; split; [apply in_app_iff; right; by left|done]).
      cbn [negb]. by rewrite Ht, (parse_line _ _ [] Hl), Hp.
    + discriminate.
    + apply Nat.ltb_lt. reflexivity.
    + done.
    + apply Hok.
    + intros who rest w. by apply parse_write_binary.
Qed.

Definition env_0 : Env := mkEnv (fun n => Z.of_nat n) (fun n => mkTime (Z.of_nat n) 0) (fun _ => true).

(** A line for ten addresses, typed while the notification of an earlier block arrives. *)
Definition typed_line : list Z := str "reserve 10" ++ [10].
Definition acquired_0 : Maap_Notify := mkNotify MAAP_NOTIFY_ACQUIRED 0 0x91e0f0000000 16 MAAP_NOTIFY_ERROR_NONE.
Definition connected : server :=
  set_slots (5 :: replicate 31 (-1)) 1 {[5; 4; 3]} 5 (server_start true 3 4 0x91e0f000ff00 0x001122334455).

Lemma remote_is_local_witness :
  exists bytes,
    client_round (ClientReady (Some ([notify_image acquired_0], WouldBlock)) (Some (typed_line, replicate 200 0)) true) =
      Ok (true, false, map ClientShown (notify_texts acquired_0) ++ [ClientSent bytes]) /\
    read_client env_0 0 (RecvData bytes (replicate RECVBUFFER_SIZE 0)) connected =
      match read_client env_0 0 (RecvData typed_line (replicate RECVBUFFER_SIZE 0)) connected with
      | Ok (_, s') => Ok (tt, set_wants (<[0%nat := false]> (client_wants_text connected)) s')
      | Fault f => Fault f
      end.
Proof.
  refine (remote_is_local env_0 0 typed_line (mkCmd MAAP_CMD_RESERVE (-1) 0 10) (replicate 200 0) (replicate RECVBUFFER_SIZE 0)
    connected acquired_0 _ _ _ _ _ _).
  - repeat (apply Forall_cons_2; [split; reflexivity|]). apply Forall_nil_2.
  - split; [apply Nat.leb_le|apply Nat.ltb_lt]; reflexivity.
  - reflexivity.
  - reflexivity.
  - apply length_replicate.
  - unfold notify_ok, is_u64, is_u32. cbn. lia.
Defined.

(** *** Defects *)

Definition quiet_round (newfd : option Z) (clients : nat -> option received_data) : round_input :=
  mkInput (fun _ => true) 0 (SelectReady None newfd None clients).

(** Two clients connect, the first leaves, a third one takes its slot, a fourth one asks. *)
Definition four_clients : list round_input :=
  [quiet_round (Some 5) (fun _ => None); quiet_round (Some 6) (fun _ => None);
   quiet_round None (fun i => if (i =? 0)%nat then Some (RecvData [] []) else None);
   quiet_round (Some 7) (fun _ => None); quiet_round (Some 8) (fun _ => None)].

(** The search for a free slot looks at the wrong one: with two of 32 slots in use, a
    connection is rejected. *)
Theorem server_rejects_with_free_slots :
  exists s, server_rounds env_0 true four_clients (server_start true 3 4 0x91e0f000ff00 0x001122334455) = Ok (tt, s) /\
    clientfd s = [7; 6] ++ replicate 30 (-1) /\
    List.filter (fun o => match o with Closed _ => true | _ => false end) (outputs s) = [Closed 5; Closed 8].
Proof. eexists. split; [vm_compute; reflexivity|]. split; reflexivity. Qed.

(** A message that fills the receive buffer is terminated behind the buffer. *)
Theorem server_full_message_overflows E i bytes stale s :
  length stale = RECVBUFFER_SIZE -> (RECVBUFFER_SIZE <= length bytes)%nat ->
  read_client E i (RecvData bytes stale) s = Fault OutOfBounds.
Proof.
  intros Hs Hb. destruct bytes as [|b bytes]; [cbn in Hb; unfold RECVBUFFER_SIZE in Hb; lia|].
  unfold read_client, the_server, gets, mbind, M_bind, mbind, outcome_bind, lift, store_text.
  rewrite length_take_le by lia. by rewrite Hs, Nat.ltb_irrefl.
Qed.
