(* ===== verification/Shaper.v ===== *)
(** * The traffic shaper daemon

    daemons/shaper/src/shaper_daemon.c: the parser of commands, the table of streams, the
    bandwidth of the four traffic classes, the command lines of [tc] that configure the
    kernel, and the loop around the connections.  The results of [system], of [malloc],
    of [select] and of reading are arguments; what the daemon runs, logs and sends is
    recorded.  Double precision arithmetic is that of the Standard Library's
    [SpecFloat]. *)

From S2P Require Import Prelude.
From S2P Require Import CText.
From Stdlib Require Import String SpecFloat.

Open Scope Z_scope.
Local Abbreviation length := List.length.
Local Abbreviation get := Prelude.get.

(** ** Commands *)

Definition STREAMDA_LENGTH : nat := 18.
Definition IFNAMSIZ : nat := 16.

(** The character arrays are the strings they hold. *)
Record cmd_ip : Type := mkCmdIp {
  reserve_bw : bool;
  unreserve_bw : bool;
  ci_interface : list Z;
  class_a : bool;
  class_b : bool;
  measurement_interval : Z;
  max_frame_size : Z;
  max_frame_interval : Z;
  ci_stream_da : list Z;
  delete_qdisc : bool;
  quit : bool
}.

Definition no_inputs : cmd_ip := mkCmdIp false false [] false false 0 0 0 [] false false.

Definition set_reserve_bw (c : cmd_ip) : cmd_ip :=
  let 'mkCmdIp _ u i a b m s f d x q := c in mkCmdIp true u i a b m s f d x q.
Definition set_unreserve_bw (c : cmd_ip) : cmd_ip :=
  let 'mkCmdIp r _ i a b m s f d x q := c in mkCmdIp r true i a b m s f d x q.
Definition set_interface_in (i : list Z) (c : cmd_ip) : cmd_ip :=
  let 'mkCmdIp r u _ a b m s f d x q := c in mkCmdIp r u i a b m s f d x q.
Definition set_class (k : Z) (c : cmd_ip) : cmd_ip :=
  let 'mkCmdIp r u i a b m s f d x q := c in
  if (k =? 65) || (k =? 97) then mkCmdIp r u i true b m s f d x q
  else if (k =? 66) || (k =? 98) then mkCmdIp r u i a true m s f d x q
  else c.
Definition set_measurement_interval (m : Z) (c : cmd_ip) : cmd_ip :=
  let 'mkCmdIp r u i a b _ s f d x q := c in mkCmdIp r u i a b m s f d x q.
Definition set_max_frame_size (s : Z) (c : cmd_ip) : cmd_ip :=
  let 'mkCmdIp r u i a b m _ f d x q := c in mkCmdIp r u i a b m s f d x q.
Definition set_max_frame_interval (f : Z) (c : cmd_ip) : cmd_ip :=
  let 'mkCmdIp r u i a b m s _ d x q := c in mkCmdIp r u i a b m s f d x q.
Definition set_stream_da (d : list Z) (c : cmd_ip) : cmd_ip :=
  let 'mkCmdIp r u i a b m s f _ x q := c in mkCmdIp r u i a b m s f d x q.
Definition set_delete_qdisc (c : cmd_ip) : cmd_ip :=
  let 'mkCmdIp r u i a b m s f d _ q := c in mkCmdIp r u i a b m s f d true q.
Definition set_quit (c : cmd_ip) : cmd_ip :=
  let 'mkCmdIp r u i a b m s f d x _ := c in mkCmdIp r u i a b m s f d x true.

Definition char_at (command : list Z) (i : nat) : outcome Z :=
  match command !! i with Some c => Ok c | None => Fault OutOfBounds end.

(** Copies up to [limit] characters in front of a space, and the position behind them. *)
Fixpoint copy_word (limit : nat) (command : list Z) (i : nat) : outcome (list Z * nat) :=
  c ← char_at command i;
  if c =? 32 then Ok ([], i)
  else
    match limit with
    | O => Ok ([], i)
    | S limit => '(w, j) ← copy_word limit command (S i); Ok (c :: w, j)
    end.

(** [atoi], as the conversion of [strtol] to an int. *)
Definition atoi (s : list Z) : Z :=
  let '(neg, d) := scan_sign (skip_spaces s) in
  match scan_digits 10 d 0 false with
  | None => 0
  | Some v => s32 (if neg : bool then Z.max (- 2 ^ 63) (- v) else Z.min (2 ^ 63 - 1) v)
  end.

(** A step of the parser: the position and the inputs so far. *)
Abbreviation parser := (nat * cmd_ip)%type.

Definition on_char (k : Z) (f : nat -> cmd_ip -> outcome parser) (command : list Z) (p : parser) : outcome parser :=
  c ← char_at command p.1;
  if c =? k then f p.1 p.2 else Ok p.

Definition take_flag (set : cmd_ip -> cmd_ip) (i : nat) (c : cmd_ip) : outcome parser := Ok (S i, set c).

Definition take_word (limit : nat) (command : list Z) (set : list Z -> cmd_ip -> cmd_ip) (i : nat) (c : cmd_ip) : outcome parser :=
  '(w, j) ← copy_word limit command (i + 2);
  Ok (j, set (cstr w) c).

Definition take_number (command : list Z) (set : Z -> cmd_ip -> cmd_ip) : nat -> cmd_ip -> outcome parser :=
  take_word 99 command (fun w => set (atoi w)).

Definition take_class (command : list Z) (i : nat) (c : cmd_ip) : outcome parser :=
  k ← char_at command (i + 2);
  Ok (i + 3, set_class k c)%nat.

(** The options that are looked for, one after the other, at each position. *)
Definition parse_options (command : list Z) (p : parser) : outcome parser :=
  p ← on_char 114 (take_flag set_reserve_bw) command p;
  p ← on_char 117 (take_flag set_unreserve_bw) command p;
  p ← on_char 105 (take_word (IFNAMSIZ - 1) command set_interface_in) command p;
  p ← on_char 99 (take_class command) command p;
  p ← on_char 115 (take_number command set_measurement_interval) command p;
  p ← on_char 98 (take_number command set_max_frame_size) command p;
  p ← on_char 102 (take_number command set_max_frame_interval) command p;
  p ← on_char 97 (take_word (STREAMDA_LENGTH - 1) command set_stream_da) command p;
  p ← on_char 100 (take_flag set_delete_qdisc) command p;
  on_char 113 (take_flag set_quit) command p.

Fixpoint option_loop (fuel : nat) (command : list Z) (p : parser) : outcome cmd_ip :=
  match fuel with
  | O => Fault FuelExhausted
  | S fuel =>
      c ← char_at command p.1;
      if c =? 0 then Ok p.2
      else p ← parse_options command (S p.1, p.2); option_loop fuel command p
  end.

(** [command] is the whole buffer, with what follows the terminating zero. *)
Definition parse_cmd (command : list Z) : outcome cmd_ip :=
  option_loop (S (length command)) command (O, no_inputs).

(** ** Bandwidth *)

Definition sf_of_Z (z : Z) : spec_float := binary_normalize 53 1024 z 0 false.
Definition sf_mul : spec_float -> spec_float -> spec_float := SFmul 53 1024.
Definition sf_div : spec_float -> spec_float -> spec_float := SFdiv 53 1024.

(** [pow(10, -6)], correctly rounded. *)
Definition ten_to_minus_6 : spec_float := S754_finite false 0x10c6f7a0b5ed8d (-72).

(** [ceil] followed by the conversion to an int, which the language leaves open outside of
    the range of an int; the value is the one of x86 processors. *)
Definition int_of_ceil (f : spec_float) : Z :=
  let in_range z := if (- 2 ^ 31 <=? z) && (z <? 2 ^ 31) then z else - 2 ^ 31 in
  match f with
  | S754_zero _ => 0
  | S754_infinity _ | S754_nan => - 2 ^ 31
  | S754_finite s m e =>
      let v := if s then Z.neg m else Z.pos m in
      in_range (if 0 <=? e then v * 2 ^ e else - ((- v) / 2 ^ (- e)))
  end.

(** Bytes per second of frames of a size, so many in each interval. *)
Definition stream_bandwidth (interval size frames : Z) : Z :=
  let per_second := sf_div (sf_of_Z 1) (sf_mul (sf_of_Z interval) ten_to_minus_6) in
  let bits := sf_mul (sf_mul per_second (sf_of_Z (s32 (size * 8)))) (sf_of_Z frames) in
  int_of_ceil (sf_div bits (sf_of_Z 8)).

Definition max_burst (size frames : Z) : Z := s32 (s32 (size * frames) * 2).

(** ** The state *)

(** The traffic classes A and B for streams of 48 kHz and of 44.1 kHz. *)
Inductive sr_class : Type := A_48 | A_44 | B_48 | B_44.

#[global] Instance sr_class_eq_dec : EqDecision sr_class.
Proof. solve_decision. Defined.

Definition class_id (c : sr_class) : list Z :=
  match c with A_48 => str "2:10" | A_44 => str "2:20" | B_48 => str "3:30" | B_44 => str "3:40" end.

Definition is_class_a (c : sr_class) : bool := match c with A_48 | A_44 => true | _ => false end.

(** [classa_parent] and [classb_parent]. *)
Definition parent_of (a : bool) : Z := if a then 2 else 3.

Record stream_da : Type := mkStreamDa {
  dest_addr : list Z;
  da_bandwidth : Z;
  da_class : sr_class;
  filter_handle : Z
}.

(** The command lines for the kernel. *)
Inductive tc_cmd : Type :=
  | TcRootAdd (dev : list Z)
  | TcRootDel (dev : list Z)
  | TcHtbAdd (dev : list Z) (a : bool)
  | TcClass (change : bool) (dev : list Z) (c : sr_class) (rate cburst : Z)
  | TcFilterAdd (dev : list Z) (handle : Z) (c : sr_class) (addr : list Z)
  | TcFilterDel (dev : list Z) (handle : Z) (c : sr_class).

Definition tc_text (t : tc_cmd) : list Z :=
  match t with
  | TcRootAdd dev =>
      str "tc qdisc add dev " ++ dev ++
      str " root handle 1: mqprio num_tc 4 map 3 3 1 0 2 2 2 2 2 2 2 2 2 2 2 2 queues 1@0 1@1 1@2 1@3 hw 0"
  | TcRootDel dev => str "tc qdisc del dev " ++ dev ++ str " root handle 1:"
  | TcHtbAdd dev a =>
      str "tc qdisc add dev " ++ dev ++ str " handle " ++ fmt_d (parent_of a) ++
      (if a then str ":  parent 1:5 htb" else str ":  parent 1:6 htb")
  | TcClass change dev c rate cburst =>
      str "tc class " ++ (if change then str "change" else str "add") ++ str " dev " ++ dev ++ str " classid " ++ class_id c ++
      str " htb rate " ++ fmt_d rate ++ str "bps cburst " ++ fmt_d cburst
  | TcFilterAdd dev handle c addr =>
      str "tc filter add dev " ++ dev ++ str " prio 1 handle 800::" ++ fmt_d handle ++ str " parent " ++
      fmt_d (parent_of (is_class_a c)) ++ str ": u32 classid " ++ class_id c ++ str "  match ether dst " ++ addr
  | TcFilterDel dev handle c =>
      str "tc filter del dev " ++ dev ++ str " parent " ++ take 2 (class_id c) ++ str " handle 800::" ++ fmt_d handle ++
      str " prio 1 protocol all u32"
  end.

Inductive shaper_output : Type :=
  | System (t : tc_cmd)
  | LogError (text : list Z)
  | SendTo (fd : Z) (text : list Z)
  | PrintOut (text : list Z)
  | CloseFd (fd : Z).

(** The variables of the program; the four flags and the four bandwidths of the classes
    are tables by class.  [calls] counts the calls of [system], [nodes] those of
    [malloc]. *)
Record shaper : Type := mkShaper {
  streams : list stream_da;
  sr_classa : bool;
  sr_classb : bool;
  class_on : sr_class -> bool;
  class_bw : sr_class -> Z;
  filterhandle_classa : Z;
  filterhandle_classb : Z;
  interface : list Z;
  bandwidth : Z;
  calls : nat;
  nodes : nat;
  done_ : list shaper_output
}.

Abbreviation SHAPER := (M shaper).

Definition shaper_0 : shaper := mkShaper [] false false (fun _ => false) (fun _ => 0) 1 20 [] 0 0 0 [].

Definition upd {A} (c : sr_class) (v : A) (f : sr_class -> A) (c' : sr_class) : A := if decide (c' = c) then v else f c'.

Definition set_streams (l : list stream_da) (s : shaper) : shaper :=
  let 'mkShaper _ a b on bw ha hb i w n m o := s in mkShaper l a b on bw ha hb i w n m o.
Definition set_sr (cls : bool) (s : shaper) : shaper :=
  let 'mkShaper l a b on bw ha hb i w n m o := s in
  if cls then mkShaper l true b on bw ha hb i w n m o else mkShaper l a true on bw ha hb i w n m o.
Definition set_on (c : sr_class) (s : shaper) : shaper :=
  let 'mkShaper l a b on bw ha hb i w n m o := s in mkShaper l a b (upd c true on) bw ha hb i w n m o.
Definition set_bw (c : sr_class) (v : Z) (s : shaper) : shaper :=
  let 'mkShaper l a b on bw ha hb i w n m o := s in mkShaper l a b on (upd c v bw) ha hb i w n m o.
Definition next_handle (cls : bool) (s : shaper) : shaper :=
  let 'mkShaper l a b on bw ha hb i w n m o := s in
  if cls then mkShaper l a b on bw (s32 (ha + 1)) hb i w n m o else mkShaper l a b on bw ha (s32 (hb + 1)) i w n m o.
Definition set_interface (i : list Z) (s : shaper) : shaper :=
  let 'mkShaper l a b on bw ha hb _ w n m o := s in mkShaper l a b on bw ha hb i w n m o.
Definition set_bandwidth (w : Z) (s : shaper) : shaper :=
  let 'mkShaper l a b on bw ha hb i _ n m o := s in mkShaper l a b on bw ha hb i w n m o.
Definition clear_classes (s : shaper) : shaper :=
  let 'mkShaper l _ _ _ _ ha hb i w n m o := s in mkShaper l false false (fun _ => false) (fun _ => 0) ha hb i w n m o.
Definition count_call (s : shaper) : shaper :=
  let 'mkShaper l a b on bw ha hb i w n m o := s in mkShaper l a b on bw ha hb i w (S n) m o.
Definition count_node (s : shaper) : shaper :=
  let 'mkShaper l a b on bw ha hb i w n m o := s in mkShaper l a b on bw ha hb i w n (S m) o.
Definition record_outputs (l' : list shaper_output) (s : shaper) : shaper :=
  let 'mkShaper l a b on bw ha hb i w n m o := s in mkShaper l a b on bw ha hb i w n m (o ++ l').

(** The answers of [system] (not negative) and of [malloc] (not NULL). *)
Record ShaperEnv : Type := mkShaperEnv { sys_ok : nat -> bool; node_ok : nat -> bool }.

(** ** Messages *)

Definition put_out (l : list shaper_output) : SHAPER unit := modify (record_outputs l).

(** Debug messages are compiled out by the log level. *)
Definition log_client_error_message (sockfd : Z) (text : list Z) : SHAPER unit :=
  error_msg ← lift (sprintf 200 text);
  if sockfd <? 0 then put_out [LogError error_msg]
  else
    combined ← lift (sprintf 250 (str "Client " ++ fmt_d sockfd ++ str ": " ++ error_msg));
    put_out [LogError combined];;
    combined ← lift (sprintf 250 (str "ERROR: " ++ error_msg ++ [10]));
    put_out [SendTo sockfd combined].

Definition usage_lines : list (list Z) :=
  let opt c text := 9 :: 45 :: str c ++ 9 :: str text in
  [str "Usage:"; opt "r"%string "Reserve Bandwidth"%string; opt "u"%string "Unreserve Bandwidth"%string;
   opt "i"%string "Interface"%string; opt "c"%string "Class ('A' or 'B')"%string;
   opt "s"%string "Measurement interval (in microseconds)"%string; opt "b"%string "Maximum frame size (in bytes)"%string;
   opt "f"%string "Maximum frame interval"%string; opt "a"%string "Stream Destination Address"%string;
   opt "d"%string "Delete qdisc"%string; opt "q"%string "Quit Application"%string;
   str "Reserving Bandwidth Example:"; 9 :: str "-ri eth2 -c A -s 125 -b 74 -f 1 -a ff:ff:ff:ff:ff:11";
   str "Unreserving Bandwidth Example:"; 9 :: str "-ua ff:ff:ff:ff:ff:11"; str "Quit Example:"; 9 :: str "-q";
   str "Delete qdisc Example:"; 9 :: str "-d"].

Definition usage (sockfd : Z) : SHAPER unit :=
  let text := List.concat (map (fun l => l ++ [10]) usage_lines) in
  put_out [if sockfd <? 0 then PrintOut text else SendTo sockfd text].

(** ** Streams *)

(** False when there is no memory, upon which the program ends. *)
Definition insert_stream_da (E : ShaperEnv) (sockfd : Z) (addr : list Z) (bw : Z) (c : sr_class) (handle : Z) : SHAPER bool :=
  n ← gets nodes;
  modify count_node;;
  if node_ok E n then
    modify (fun s => set_streams (streams s ++ [mkStreamDa addr bw c handle]) s);;
    mret true
  else
    log_client_error_message sockfd (str "Unable to allocate memory. Exiting program");;
    mret false.

Fixpoint find_stream (addr : list Z) (l : list stream_da) : option stream_da :=
  match l with
  | [] => None
  | s :: l => if decide (dest_addr s = addr) then Some s else find_stream addr l
  end.

Fixpoint unlink_stream (addr : list Z) (l : list stream_da) : list stream_da :=
  match l with
  | [] => []
  | s :: l => if decide (dest_addr s = addr) then l else s :: unlink_stream addr l
  end.

Definition check_stream_da (sockfd : Z) (addr : list Z) : SHAPER bool :=
  l ← gets streams;
  match find_stream addr l with
  | Some _ => log_client_error_message sockfd (str "Stream DA already present");; mret true
  | None => mret false
  end.

Definition get_stream_da (sockfd : Z) (addr : list Z) : SHAPER (option stream_da) :=
  l ← gets streams;
  match find_stream addr l with
  | Some s => mret (Some s)
  | None => log_client_error_message sockfd (str "Unknown Stream DA");; mret None
  end.

Definition remove_stream_da (addr : list Z) : SHAPER unit :=
  l ← gets streams;
  match l with
  | [] => raise NullDeref
  | _ => modify (set_streams (unlink_stream addr l))
  end.

Definition delete_streamda_list : SHAPER unit := modify (set_streams []).

(** ** Commands for the kernel *)

(** Prints the command line and runs it; a failure is reported. *)
Definition run_tc (E : ShaperEnv) (sockfd : Z) (t : tc_cmd) : SHAPER bool :=
  tc_command ← lift (sprintf 1000 (tc_text t));
  n ← gets calls;
  modify count_call;;
  put_out [System t];;
  if sys_ok E n then mret true
  else
    log_client_error_message sockfd (str "command(" ++ [34] ++ tc_command ++ [34] ++ str ") failed");;
    mret false.

Definition tc_class_command (E : ShaperEnv) (sockfd : Z) (change : bool) (c : sr_class) (bw cburst : Z) : SHAPER unit :=
  dev ← gets interface;
  _ ← run_tc E sockfd (TcClass change dev c bw cburst);
  mret tt.

Definition add_filter (E : ShaperEnv) (sockfd : Z) (handle : Z) (c : sr_class) (addr : list Z) : SHAPER unit :=
  dev ← gets interface;
  _ ← run_tc E sockfd (TcFilterAdd dev handle c addr);
  mret tt.

(** ** Processing a command *)

(** Results: 1 for success, -1 for an error, 0 for the end; [None]: the program ends. *)
Definition reject (sockfd : Z) (text : list Z) : SHAPER (option Z) :=
  log_client_error_message sockfd text;;
  usage sockfd;;
  mret (Some (-1)).

(** Quitting and deleting: the streams and the classes, with the root of the kernel's
    queues. *)
Definition delete_all (E : ShaperEnv) (sockfd : Z) : SHAPER unit :=
  s ← get;
  if sr_classa s || sr_classb s then
    delete_streamda_list;;
    (match interface s with
     | [] => mret tt
     | dev => _ ← run_tc E sockfd (TcRootDel dev); mret tt
     end);;
    modify clear_classes
  else mret tt.

(** The root of the kernel's queues, for the first command.  Whether to go on. *)
Definition init_qdisc (E : ShaperEnv) (sockfd : Z) (input : cmd_ip) : SHAPER bool :=
  s ← get;
  if sr_classa s || sr_classb s then mret true
  else
    match ci_interface input with
    | [] =>
        (if unreserve_bw input || reserve_bw input
         then log_client_error_message sockfd (str "Interface is mandatory for the first command") else mret tt);;
        usage sockfd;;
        mret false
    | dev =>
        ok ← run_tc E sockfd (TcRootAdd dev);
        if (ok : bool) then modify (set_interface dev);; mret true else mret false
    end.

Definition class_for (a : bool) (interval : Z) : option sr_class :=
  if a then if interval =? 125 then Some A_48 else if interval =? 136 then Some A_44 else None
  else if interval =? 250 then Some B_48 else if interval =? 272 then Some B_44 else None.

(** The queue of a class A or B, for its first stream. *)
Definition init_class (E : ShaperEnv) (sockfd : Z) (a : bool) : SHAPER bool :=
  s ← get;
  if (if a then sr_classa s else sr_classb s) then mret true
  else
    modify (set_sr a);;
    run_tc E sockfd (TcHtbAdd (interface s) a).

(** A stream is added to a class. *)
Definition reserve_in (E : ShaperEnv) (sockfd : Z) (addr : list Z) (c : sr_class) (bw burst : Z) : SHAPER (option Z) :=
  modify (fun s => set_bw c (s32 (class_bw s c + bw)) s);;
  s ← get;
  (if class_on s c then tc_class_command E sockfd true c (class_bw s c) burst
   else modify (set_on c);; tc_class_command E sockfd false c (class_bw s c) burst);;
  let handle := if is_class_a c then filterhandle_classa s else filterhandle_classb s in
  add_filter E sockfd handle c addr;;
  ok ← insert_stream_da E sockfd addr bw c handle;
  if (ok : bool) then modify (next_handle (is_class_a c));; mret (Some 1) else mret None.

Definition reserve (E : ShaperEnv) (sockfd : Z) (input : cmd_ip) (bw burst : Z) : SHAPER (option Z) :=
  present ← check_stream_da sockfd (ci_stream_da input);
  if (present : bool) then mret (Some 1)
  else
    ok ← init_class E sockfd (class_a input);
    if negb ok then mret (Some (-1))
    else
      match class_for (class_a input) (measurement_interval input) with
      | Some c => reserve_in E sockfd (ci_stream_da input) c bw burst
      | None =>
          log_client_error_message sockfd
            (str "Measurement Interval (" ++ fmt_d (measurement_interval input) ++ str ") doesn't match that of Class " ++
             (if class_a input then str "A (125 or 136)" else str "B (250 or 272)") ++
             str " traffic. Enter a valid measurement interval");;
          mret (Some (-1))
      end.

Definition unreserve (E : ShaperEnv) (sockfd : Z) (input : cmd_ip) (burst : Z) : SHAPER (option Z) :=
  found ← get_stream_da sockfd (ci_stream_da input);
  match found with
  | None => mret (Some 1)
  | Some st =>
      let c := da_class st in
      modify (fun s => set_bw c (s32 (class_bw s c - da_bandwidth st)) s);;
      s ← get;
      tc_class_command E sockfd true c (if class_bw s c =? 0 then 1 else class_bw s c) burst;;
      ok ← run_tc E sockfd (TcFilterDel (interface s) (filter_handle st) c);
      if (ok : bool) then remove_stream_da (dest_addr st);; mret (Some 1) else mret (Some (-1))
  end.

Definition incomplete (input : cmd_ip) : bool :=
  (max_frame_size input =? 0) || (measurement_interval input =? 0) || (max_frame_interval input =? 0) ||
  (negb (class_a input) && negb (class_b input)).

(** The checks of a command: the text of the error. *)
Definition check_input (input : cmd_ip) : option (list Z) :=
  if reserve_bw input && unreserve_bw input then Some (str "Cannot reserve and unreserve bandwidth at the same time")
  else if reserve_bw input && incomplete input then
    Some (str "class, max_frame_size, measurement_interval and max_frame_interval are mandatory inputs")
  else if reserve_bw input && (class_a input && class_b input) then
    Some (str "Cannot reserve for both class A and class B")
  else if (quit input || delete_qdisc input) && (reserve_bw input || unreserve_bw input) then
    Some (str "Quit or Delete cannot be used with other commands")
  else None.

Definition process_input (E : ShaperEnv) (sockfd : Z) (input : cmd_ip) : SHAPER (option Z) :=
  match check_input input with
  | Some text => reject sockfd text
  | None =>
      (if quit input || delete_qdisc input then delete_all E sockfd else mret tt);;
      if quit input then mret (Some 0)
      else
        go ← init_qdisc E sockfd input;
        if negb go then mret (Some (-1))
        else
          (if unreserve_bw input || reserve_bw input
           then modify (set_bandwidth (stream_bandwidth (measurement_interval input) (max_frame_size input) (max_frame_interval input)))
           else mret tt);;
          let burst := if unreserve_bw input || reserve_bw input then max_burst (max_frame_size input) (max_frame_interval input) else 0 in
          bw ← gets bandwidth;
          if reserve_bw input then reserve E sockfd input bw burst
          else if unreserve_bw input then unreserve E sockfd input burst
          else mret (Some 1)
  end.

Definition process_command (E : ShaperEnv) (sockfd : Z) (command : list Z) : SHAPER (option Z) :=
  input ← lift (parse_cmd command);
  process_input E sockfd input.

(** ** The process *)

Definition SHAPER_CONNECTIONS : nat := 10.

(** The shaper, the connections (-1 for none), the slot for the next one and whether an
    exit was asked for. *)
Record shaper_proc : Type := mkProc {
  sh : shaper;
  sh_clientfd : list Z;
  sh_next : nat;
  sh_exit : bool
}.

Abbreviation PROC := (M shaper_proc).

Definition set_sh (s : shaper) (p : shaper_proc) : shaper_proc := mkProc s (sh_clientfd p) (sh_next p) (sh_exit p).
Definition set_conns (fds : list Z) (next : nat) (p : shaper_proc) : shaper_proc := mkProc (sh p) fds next (sh_exit p).
Definition ask_exit (p : shaper_proc) : shaper_proc := mkProc (sh p) (sh_clientfd p) (sh_next p) true.

Definition on_shaper {A} (m : SHAPER A) : PROC A :=
  fun p => match m (sh p) with Ok (a, s) => Ok (a, set_sh s p) | Fault f => Fault f end.

Definition USER_COMMAND_PROMPT : list Z := 10 :: str "Enter the command:  ".

(** The command buffer of 100 bytes, of which [stale] is the old contents. *)
Definition command_buffer (bytes stale : list Z) : list Z := bytes ++ 0 :: drop (S (length bytes)) stale.

(** Trailing white space is replaced by zeros. *)
Definition trim_end (l : list Z) : list Z :=
  let kept := reverse (skip_spaces (reverse l)) in
  kept ++ replicate (length l - length kept) 0.

(** A command was processed; false when the program ended. *)
Definition after_command (fd : Z) (r : option Z) : PROC bool :=
  match r with
  | None => mret false
  | Some 0 => modify ask_exit;; mret true
  | Some _ =>
      on_shaper (put_out [if fd <? 0 then PrintOut USER_COMMAND_PROMPT else SendTo fd USER_COMMAND_PROMPT]);;
      mret true
  end.

(** A line of the standard input; no bytes for an error or its end. *)
Definition shaper_stdin (E : ShaperEnv) (bytes stale : list Z) : PROC bool :=
  match bytes with
  | [] => mret true
  | _ =>
      r ← on_shaper (process_command E (-1) (command_buffer (take 99 bytes) stale));
      after_command (-1) r
  end.

(** A new connection takes the next slot; when that is occupied the search for another
    one looks at the same slot again, and the connection is closed. *)
Definition shaper_accept (newfd : Z) : PROC unit :=
  p ← get;
  let next := sh_next p in
  if negb (default 0 (sh_clientfd p !! next) =? -1) then on_shaper (put_out [CloseFd newfd])
  else if newfd =? -1 then mret tt
  else
    modify (set_conns (<[next := newfd]> (sh_clientfd p)) ((next + 1) mod SHAPER_CONNECTIONS));;
    on_shaper (put_out [SendTo newfd USER_COMMAND_PROMPT]).

(** What a connection delivers: [None] is an error, no bytes its end. *)
Definition shaper_read (E : ShaperEnv) (i : nat) (r : option (list Z * list Z)) : PROC bool :=
  p ← get;
  let fd := default (-1) (sh_clientfd p !! i) in
  match r with
  | None | Some ([], _) =>
      on_shaper (put_out [CloseFd fd]);;
      modify (set_conns (<[i := -1]> (sh_clientfd p)) i);;
      mret true
  | Some (bytes, stale) =>
      r ← on_shaper (process_command E fd (command_buffer (trim_end (take 99 bytes)) stale));
      after_command fd r
  end.

Fixpoint shaper_clients (E : ShaperEnv) (ready : nat -> option (option (list Z * list Z))) (l : list nat) : PROC bool :=
  match l with
  | [] => mret true
  | i :: l =>
      p ← get;
      alive ← match ready i with
        | Some r => if default (-1) (sh_clientfd p !! i) =? -1 then mret true else shaper_read E i r
        | None => mret true
        end;
      if (alive : bool) then shaper_clients E ready l else mret false
  end.

(** The result of [select]: interrupted, by a signal to end or not, or ready
    descriptors. *)
Inductive shaper_select : Type :=
  | ShaperInterrupted (signalled : bool)
  | ShaperReady (stdin : option (list Z * list Z)) (newfd : option Z) (clients : nat -> option (option (list Z * list Z))).

(** Whether the loop goes on. *)
Definition shaper_round (E : ShaperEnv) (daemonize : bool) (sel : shaper_select) : PROC bool :=
  match sel with
  | ShaperInterrupted true =>
      modify ask_exit;;
      _ ← on_shaper (process_command E (-1) (str "-q" ++ [0]));
      mret false
  | ShaperInterrupted false => mret false
  | ShaperReady stdin newfd clients =>
      alive ← match stdin with
        | Some (bytes, stale) => if daemonize then mret true else shaper_stdin E bytes stale
        | None => mret true
        end;
      if negb alive then mret false
      else
        (match newfd with Some fd => shaper_accept fd | None => mret tt end);;
        alive ← shaper_clients E clients (seq 0 SHAPER_CONNECTIONS);
        p ← get;
        mret (alive && negb (sh_exit p))
  end.

Fixpoint shaper_rounds (E : ShaperEnv) (daemonize : bool) (l : list shaper_select) : PROC unit :=
  match l with
  | [] => mret tt
  | sel :: l =>
      more ← shaper_round E daemonize sel;
      if (more : bool) then shaper_rounds E daemonize l else mret tt
  end.

Definition shaper_start : shaper_proc :=
  mkProc (record_outputs [PrintOut USER_COMMAND_PROMPT] shaper_0) (replicate SHAPER_CONNECTIONS (-1)) 0 false.

(** The end: all descriptors are closed. *)
Definition shaper_stop (socketfd : Z) : PROC unit :=
  p ← get;
  on_shaper (put_out (CloseFd socketfd :: map CloseFd (List.filter (fun fd => negb (fd =? -1)) (sh_clientfd p))));;
  modify (fun p => set_conns (map (fun _ => -1) (sh_clientfd p)) (sh_next p) p).

(** The program once its socket is open: what was done. *)
Definition shaper_main (E : ShaperEnv) (daemonize : bool) (socketfd : Z) (l : list shaper_select) : outcome shaper_proc :=
  '(_, p) ← (shaper_rounds E daemonize l;; shaper_stop socketfd) shaper_start;
  Ok p.
