(* ===== verification/ShaperRate.v ===== *)
(** * The bandwidth of a stream

    Bounds on the roundings of the double precision multiplications and of the division by
    eight, and with them on the bandwidth the daemon computes. *)

From S2P Require Import Prelude.
From S2P Require Import Shaper.
From Stdlib Require Import SpecFloat.

Open Scope Z_scope.

(** ** Digits *)

Lemma digits2_pos_bounds m : 2 ^ (Z.pos (digits2_pos m) - 1) <= Z.pos m < 2 ^ Z.pos (digits2_pos m).
Proof.
  assert (Hs : forall p, Z.pos (Pos.succ p) - 1 = Z.pos p) by lia.
  assert (Hp : forall p, 2 ^ Z.pos (Pos.succ p) = 2 * 2 ^ Z.pos p) by (intros p; rewrite Pos2Z.inj_succ, Z.pow_succ_r; lia).
  assert (H1 : forall p, 2 ^ Z.pos p = 2 * 2 ^ (Z.pos p - 1)) by (intros p; rewrite <- Z.pow_succ_r by lia; f_equal; lia).
  induction m as [m IH|m IH|]; cbn [digits2_pos]; [| |done]; rewrite Hs, Hp; rewrite (H1 (digits2_pos m)) in *; lia.
Qed.

(** ** Shifting right *)

Lemma iter_pos_nat {A} (f : A -> A) n x : iter_pos f n x = Nat.iter (Pos.to_nat n) f x.
Proof.
  revert x. induction n as [n IH|n IH|]; intros x; cbn [iter_pos]; [| |done]; rewrite !IH.
  - replace (Pos.to_nat n~1) with (Pos.to_nat n + (Pos.to_nat n + 1))%nat by lia. by rewrite !Nat.iter_add.
  - replace (Pos.to_nat n~0) with (Pos.to_nat n + Pos.to_nat n)%nat by lia. by rewrite Nat.iter_add.
Qed.

(** After [k] shifts: the quotient, and whether anything was lost. *)
Definition shifted (k : nat) (m : Z) (r : shr_record) : Prop :=
  shr_m r = m / 2 ^ Z.of_nat k /\ (shr_r r || shr_s r = false -> m mod 2 ^ Z.of_nat k = 0) /\
  (m mod 2 ^ Z.of_nat k = 0 -> shr_r r || shr_s r = false).

Lemma shr_1_spec m r s : 0 <= m -> shr_1 {| shr_m := m; shr_r := r; shr_s := s |} = {| shr_m := m / 2; shr_r := Z.odd m; shr_s := r || s |}.
Proof.
  intros Hm. destruct m as [|[p|p|]|p]; cbn [shr_1 Z.odd]; [done| | |done|lia].
  - f_equal. rewrite (Pos2Z.inj_xI p). apply Z.div_unique with 1; lia.
  - f_equal. rewrite (Pos2Z.inj_xO p). apply Z.div_unique with 0; lia.
Qed.

Lemma shift_step k m r : 0 <= m -> shifted k m r -> shifted (S k) m (shr_1 r).
Proof.
  intros Hm (Hq&Hl&Hr). destruct r as [q r s]. cbn [shr_m shr_r shr_s] in *. subst q. rewrite shr_1_spec by (apply Z.div_pos; lia).
  unfold shifted. cbn [shr_m shr_r shr_s]. rewrite Nat2Z.inj_succ, Z.pow_succ_r, Z.mul_comm by lia.
  pose proof (Z.pow_pos_nonneg 2 (Z.of_nat k) ltac:(lia) ltac:(lia)) as Hp.
  rewrite <- Z.div_div by lia. rewrite Z.rem_mul_r by lia. rewrite Zmod_odd. split; [done|].
  pose proof (Z.mod_pos_bound m (2 ^ Z.of_nat k) Hp) as Hb.
  destruct (Z.odd (m / 2 ^ Z.of_nat k)); cbn [orb]; [split; intros; [done|nia]|]. split; intros H; [rewrite Hl by done; lia|].
  apply Hr. lia.
Qed.

Lemma shift_many k m : 0 <= m -> shifted k m (Nat.iter k shr_1 {| shr_m := m; shr_r := false; shr_s := false |}).
Proof.
  intros Hm. induction k as [|k IH]; [unfold shifted; cbn; rewrite Z.div_1_r, Z.mod_1_r; by split_and!|]. by apply shift_step.
Qed.

(** ** Rounding *)

(** A mantissa and its exponent, in units of 2^-300. *)
Definition sv (m e : Z) : Z := m * 2 ^ (e + 300).

(** The quotient of a mantissa by a power of two, rounded up or down. *)
Lemma shr_fexp_spec m e :
  - 900 <= e ->
  exists r e', shr_fexp 53 1024 (Z.pos m) e loc_Exact = (r, e') /\
    e <= e' /\ e' = e + Z.max 0 (Z.pos (digits2_pos m) - 53) /\ shifted (Z.to_nat (e' - e)) (Z.pos m) r.
Proof.
  intros He. unfold shr_fexp, fexp, SpecFloat.emin. cbn [Zdigits2 shr_record_of_loc].
  set (d := Z.pos (digits2_pos m)). replace (Z.max (d + e - 53) (3 - 1024 - 53) - e) with (d - 53) by lia.
  unfold shr. destruct (d - 53) as [|p|p] eqn:Hd.
  - exists {| shr_m := Z.pos m; shr_r := false; shr_s := false |}, e. split_and!; [done|lia|lia|].
    rewrite Z.sub_diag. by apply (shift_many 0).
  - eexists _, _. split; [reflexivity|]. split_and!; [lia|lia|]. rewrite iter_pos_nat.
    replace (Z.to_nat (e + Z.pos p - e)) with (Pos.to_nat p) by lia. by apply shift_many.
  - exists {| shr_m := Z.pos m; shr_r := false; shr_s := false |}, e. split_and!; [done|lia|lia|].
    rewrite Z.sub_diag. by apply (shift_many 0).
Qed.

Lemma nearest_spec q r : exists v, round_nearest_even q (loc_of_shr_record r) = v /\ (v = q \/ v = q + 1) /\
  (shr_r r || shr_s r = false -> v = q).
Proof.
  eexists. split; [reflexivity|]. destruct r as [x [] []]; cbn; try (split; [by right|done]).
  - destruct (Z.even q); split; auto; done.
  - split; auto.
  - split; auto.
Qed.

Lemma pow_split a b : 0 <= a -> 0 <= b -> 2 ^ (a + b) = 2 ^ a * 2 ^ b.
Proof. intros. by rewrite Z.pow_add_r. Qed.

(** The rounding of a positive number stays within a factor of 1 +- 2^-52, and is exact
    for multiples of what is shifted out. *)
Lemma binary_round_spec m e :
  - 300 <= e -> e + Z.pos (digits2_pos m) <= 900 ->
  exists m' e', binary_round_aux 53 1024 false (Z.pos m) e loc_Exact = S754_finite false m' e' /\ e <= e' /\ Z.pos (digits2_pos m') <= 53 /\
    Z.abs (sv (Z.pos m') e' - sv (Z.pos m) e) * 2 ^ 52 <= sv (Z.pos m) e /\
    (Z.pos m mod 2 ^ Z.max 0 (Z.pos (digits2_pos m) - 53) = 0 -> sv (Z.pos m') e' = sv (Z.pos m) e).
Proof.
  intros He Hmax. unfold binary_round_aux. destruct (shr_fexp_spec m e ltac:(lia)) as (r&e1&->&He1&Ee1&Hq&Hl&Hr).
  set (k := e1 - e) in *. rewrite Z2Nat.id in Hq, Hl, Hr by lia. pose proof (digits2_pos_bounds m) as Hd.
  assert (Hk : k = Z.max 0 (Z.pos (digits2_pos m) - 53)) by lia. rewrite <- Hk.
  destruct (nearest_spec (shr_m r) r) as (v&->&Hv&Hexact). rewrite Hq in Hv, Hexact.
  pose proof (Z.pow_pos_nonneg 2 k ltac:(lia) ltac:(lia)) as Hpk.
  assert (Hdiv : Z.pos m = Z.pos m / 2 ^ k * 2 ^ k + Z.pos m mod 2 ^ k) by (rewrite Z.mul_comm; apply Z.div_mod; lia).
  pose proof (Z.mod_pos_bound (Z.pos m) (2 ^ k) Hpk) as Hmod. set (q := Z.pos m / 2 ^ k) in *. set (rem := Z.pos m mod 2 ^ k) in *.
  assert (Hbig : 2 ^ k * 2 ^ 52 <= Z.pos m \/ k = 0).
  { destruct (Z.le_gt_cases (Z.pos (digits2_pos m)) 53); [right; lia|left]. rewrite <- pow_split by lia. destruct Hd as [Hd _].
    etrans; [|exact Hd]. apply Z.pow_le_mono_r; lia. }
  assert (Hq53 : q < 2 ^ 53).
  { unfold q. apply Z.div_lt_upper_bound; [lia|]. rewrite <- pow_split by lia. destruct Hd as [_ Hd].
    eapply Z.lt_le_trans; [exact Hd|]. apply Z.pow_le_mono_r; lia. }
  assert (Hvpos : 0 < v).
  { destruct Hbig as [Hb|Hk0]; [|subst k; rewrite Hk0 in *; cbn in *; lia]. assert (0 < q) by nia. lia. }
  assert (Herr : Z.abs (v * 2 ^ k - Z.pos m) * 2 ^ 52 <= Z.pos m /\ (rem = 0 -> v * 2 ^ k = Z.pos m)).
  { destruct (Z.eq_dec rem 0) as [H0|H0].
    - assert (v = q) as -> by (apply Hexact, Hr, H0). split; [|lia]. replace (q * 2 ^ k - Z.pos m) with 0 by lia. cbn. lia.
    - split; [|lia]. destruct Hbig as [Hb|Hk0]; [|rewrite Hk0 in *; cbn in *; lia].
      assert (Z.abs (v * 2 ^ k - Z.pos m) <= 2 ^ k) by (destruct Hv; subst v; lia). nia. }
  destruct v as [|v|v]; [lia| |lia]. destruct (shr_fexp_spec v e1 ltac:(lia)) as (r2&e2&->&He2&Ee2&Hq2&_).
  rewrite Z2Nat.id in Hq2 by lia. pose proof (digits2_pos_bounds v) as Hdv.
  assert (Hv53 : Z.pos v <= 2 ^ 53) by lia.
  assert (Hexp : e2 - e1 = 0 /\ Z.pos (digits2_pos v) <= 53 \/ e2 - e1 = 1 /\ Z.pos v = 2 ^ 53).
  { destruct (Z.le_gt_cases (Z.pos (digits2_pos v)) 53) as [H53|H53]; [left; lia|]. right.
    assert (Hge : 2 ^ 53 <= Z.pos v) by (destruct Hdv as [Hdv _]; etrans; [|exact Hdv]; apply Z.pow_le_mono_r; lia).
    split; [|lia]. assert (Z.pos (digits2_pos v) <= 54); [|lia]. apply Z.nlt_ge. intros Hc.
    assert (2 ^ 54 <= Z.pos v); [destruct Hdv as [Hdv _]; etrans; [|exact Hdv]; apply Z.pow_le_mono_r; lia|]. lia. }
  assert (Hm2 : exists m2, shr_m r2 = Z.pos m2 /\ Z.pos m2 * 2 ^ (e2 - e1) = Z.pos v /\ Z.pos (digits2_pos m2) <= 53).
  { rewrite Hq2. destruct Hexp as [[-> H53] | [-> ->]]; [exists v; rewrite Z.div_1_r; change (2 ^ 0) with 1; by rewrite Z.mul_1_r|].
    by exists (2 ^ 52)%positive. }
  destruct Hm2 as (m2&->&Hm2&Hd2).
  assert (Hle : (e2 <=? 1024 - 53) = true) by (apply Z.leb_le; destruct Hexp as [[? _]|[? _]]; lia). rewrite Hle.
  assert (Hsv : sv (Z.pos m2) e2 = Z.pos v * 2 ^ k * 2 ^ (e + 300)).
  { unfold sv. rewrite <- Hm2. replace (e2 + 300) with ((e2 - e1) + k + (e + 300)) by lia.
    rewrite !pow_split by lia. ring. }
  exists m2, e2. split_and!; [done|lia|done| |].
  - rewrite Hsv. unfold sv. rewrite <- Z.mul_sub_distr_r, Z.abs_mul, (Z.abs_eq (2 ^ (e + 300))) by (apply Z.pow_nonneg; lia).
    pose proof (Z.pow_pos_nonneg 2 (e + 300) ltac:(lia) ltac:(lia)). destruct Herr as [Herr _]. nia.
  - intros H0. rewrite Hsv. unfold sv. destruct Herr as [_ Herr]. by rewrite Herr.
Qed.

(** ** Integers *)

Lemma digits_le m n : Z.pos m < 2 ^ n -> Z.pos (digits2_pos m) <= n.
Proof.
  intros Hm. pose proof (digits2_pos_bounds m) as [Hd _]. apply Z.nlt_ge. intros Hn.
  destruct (Z.lt_ge_cases n 0) as [Hneg|Hpos]; [rewrite Z.pow_neg_r in Hm by done; lia|].
  assert (2 ^ n <= 2 ^ (Z.pos (digits2_pos m) - 1)); [apply Z.pow_le_mono_r; lia|lia].
Qed.

Lemma iter_xO m n : Z.pos (Pos.iter xO m n) = Z.pos m * 2 ^ Z.pos n.
Proof.
  induction n as [|n IH] using Pos.peano_ind; [cbn; lia|]. rewrite Pos.iter_succ, Pos2Z.inj_succ, Z.pow_succ_r by lia.
  rewrite Pos2Z.inj_xO, IH. ring.
Qed.

(** An integer is represented exactly. *)
Lemma sf_of_Z_spec z : 0 < z < 2 ^ 53 ->
  exists m e, sf_of_Z z = S754_finite false m e /\ - 53 <= e <= 53 /\ sv (Z.pos m) e = z * 2 ^ 300.
Proof.
  intros Hz. destruct z as [|z|z]; [lia| |lia]. unfold sf_of_Z, binary_normalize, binary_round.
  pose proof (digits_le z 53 (proj2 Hz)) as Hd. pose proof (digits2_pos_bounds z) as Hb. set (d := Z.pos (digits2_pos z)) in *.
  assert (Halign : exists m e, shl_align z 0 (fexp 53 1024 (d + 0)) = (m, e) /\ - 53 <= e <= 0 /\ Z.pos m = Z.pos z * 2 ^ (- e) /\ Z.pos m < 2 ^ 53).
  { unfold shl_align, fexp, SpecFloat.emin. replace (Z.max (d + 0 - 53) (3 - 1024 - 53) - 0) with (d - 53) by lia.
    destruct (d - 53) as [|p|p] eqn:Hp; [|lia|].
    - exists z, 0. split_and!; [done|lia|lia|cbn; lia|lia].
    - eexists _, _. split; [reflexivity|]. split_and!; [lia|lia|by rewrite iter_xO; f_equal; f_equal; lia|].
      rewrite iter_xO. replace 53 with (d + Z.pos p) by lia. rewrite pow_split by lia.
      pose proof (Z.pow_pos_nonneg 2 (Z.pos p) ltac:(lia) ltac:(lia)). nia. }
  destruct Halign as (m&e&->&He&Hm&H53). pose proof (digits_le m 53 H53) as Hdm.
  destruct (binary_round_spec m e) as (m'&e'&->&He'&_&_&Hex); [lia|lia|]. exists m', e'. split; [done|].
  assert (Hsv : sv (Z.pos m') e' = Z.pos z * 2 ^ 300).
  { rewrite Hex by (rewrite Z.max_l by lia; by rewrite Z.mod_1_r). unfold sv. rewrite Hm.
    replace 300 with ((- e) + (e + 300)) at 2 by lia. rewrite (pow_split (- e) (e + 300)) by lia. ring. }
  split; [|done]. split; [lia|]. apply Z.nlt_ge. intros Hc. unfold sv in Hsv.
  assert (2 ^ 53 * 2 ^ 300 <= 2 ^ (e' + 300)); [rewrite <- pow_split by lia; apply Z.pow_le_mono_r; lia|].
  pose proof (Z.pow_pos_nonneg 2 300 ltac:(lia) ltac:(lia)). nia.
Qed.

(** Multiplication by an integer. *)
Lemma sf_mul_int m e z :
  - 150 <= e -> 0 < z < 2 ^ 53 -> sv (Z.pos m) e * z <= 2 ^ 600 ->
  exists m' e', sf_mul (S754_finite false m e) (sf_of_Z z) = S754_finite false m' e' /\ e - 53 <= e' /\ Z.pos (digits2_pos m') <= 53 /\
    Z.abs (sv (Z.pos m') e' - sv (Z.pos m) e * z) * 2 ^ 52 <= sv (Z.pos m) e * z.
Proof.
  intros He Hz Hmax. destruct (sf_of_Z_spec z Hz) as (mz&ez&->&Hez&Hsv). unfold sf_mul, SFmul. cbn [xorb].
  assert (Hprod : sv (Z.pos (m * mz)) (e + ez) = sv (Z.pos m) e * z).
  { apply (Z.mul_reg_r _ _ (2 ^ 300)); [by apply Z.pow_nonzero|]. rewrite <- Z.mul_assoc, <- Hsv. unfold sv. rewrite Pos2Z.inj_mul.
    assert (Hadd : 2 ^ (e + ez + 300) * 2 ^ 300 = 2 ^ (e + 300) * 2 ^ (ez + 300)) by (rewrite <- !pow_split by lia; f_equal; lia).
    rewrite <- (Z.mul_assoc (Z.pos m * Z.pos mz)), Hadd. ring. }
  destruct (binary_round_spec (m * mz) (e + ez)) as (m'&e'&->&He'&Hd&Herr&_); [lia| |].
  - pose proof (digits2_pos_bounds (m * mz)) as [Hlow _]. set (d := Z.pos (digits2_pos (m * mz))) in *.
    apply Z.nlt_ge. intros Hc. rewrite <- Hprod in Hmax. unfold sv in Hmax.
    assert (2 ^ (d - 1) * 2 ^ (e + ez + 300) <= 2 ^ 600).
    { etrans; [|exact Hmax]. apply Z.mul_le_mono_nonneg_r; [apply Z.pow_nonneg; lia|done]. }
    rewrite <- pow_split in H by lia. apply Z.pow_le_mono_r_iff in H; lia.
  - exists m', e'. rewrite Hprod in Herr. split_and!; [done|lia|done|done].
Qed.

(** Division by eight is exact. *)
Lemma sf_div_8 m e :
  - 230 <= e <= 700 -> Z.pos (digits2_pos m) <= 53 ->
  exists m' e', sf_div (S754_finite false m e) (sf_of_Z 8) = S754_finite false m' e' /\ - 300 <= e' /\
    sv (Z.pos m') e' * 8 = sv (Z.pos m) e.
Proof.
  intros He Hd. assert (sf_of_Z 8 = S754_finite false 4503599627370496 (-49)) as -> by reflexivity.
  unfold sf_div, SFdiv, SFdiv_core_binary. cbn [Zdigits2 xorb]. set (d := Z.pos (digits2_pos m)) in *.
  change (Z.pos (digits2_pos 4503599627370496)) with 53. unfold fexp, SpecFloat.emin.
  replace (Z.min (Z.max (d + e - (53 + -49) - 53) (3 - 1024 - 53)) (e - -49)) with (e + d - 57) by lia.
  replace (e - -49 - (e + d - 57)) with (106 - d) by lia.
  destruct (106 - d) as [|s|s] eqn:Hs; [lia| |lia].
  assert (Hshift : Z.shiftl (Z.pos m) (Z.pos s) = Z.pos m * 2 ^ (54 - d) * 4503599627370496).
  { rewrite Z.shiftl_mul_pow2 by lia. replace (Z.pos s) with ((54 - d) + 52) by lia. rewrite pow_split by lia.
    change (2 ^ 52) with 4503599627370496. ring. }
  rewrite Hshift. pose proof (Z_div_mod (Z.pos m * 2 ^ (54 - d) * 4503599627370496) 4503599627370496 ltac:(lia)) as Hdm.
  destruct (Z.div_eucl _ _) as [q rm]. destruct Hdm as [Hdm Hrm].
  assert (Hqr : q = Z.pos m * 2 ^ (54 - d) /\ rm = 0) by (clear -Hdm Hrm; revert Hdm Hrm; generalize (Z.pos m * 2 ^ (54 - d)); intros; lia). destruct Hqr as [-> ->].
  change (new_location 4503599627370496 0) with loc_Exact.
  pose proof (Z.pow_pos_nonneg 2 (54 - d) ltac:(lia) ltac:(lia)) as Hp.
  destruct (Z.pos m * 2 ^ (54 - d)) as [|q|q] eqn:Hq; [lia| |lia].
  pose proof (digits2_pos_bounds m) as Hbm. fold d in Hbm.
  assert (Hd54 : Z.pos (digits2_pos q) <= 54).
  { apply digits_le. rewrite <- Hq. replace 54 with (d + (54 - d)) at 2 by lia. rewrite pow_split by lia. nia. }
  destruct (binary_round_spec q (e + d - 57)) as (m'&e'&->&He'&_&_&Hex); [lia|lia|].
  exists m', e'. split; [done|]. split; [lia|]. rewrite Hex.
  - rewrite <- Hq. unfold sv. replace (e + 300) with ((54 - d) + 3 + (e + d - 57 + 300)) by lia.
    rewrite (pow_split (54 - d + 3)), (pow_split (54 - d) 3) by lia. ring.
  - rewrite <- Hq. replace (2 ^ (54 - d)) with (2 ^ (53 - d) * 2 ^ 1) by (rewrite <- pow_split by lia; f_equal; lia).
    destruct (Z.max_spec 0 (Z.pos (digits2_pos q) - 53)) as [[? ->]|[? ->]]; [|by rewrite Z.mod_1_r].
    replace (Z.pos (digits2_pos q) - 53) with 1 by lia. rewrite Z.mul_assoc. by apply Z.mod_mul.
Qed.

(** The conversion rounds up. *)
Lemma int_of_ceil_spec m e :
  - 300 <= e -> sv (Z.pos m) e <= (2 ^ 31 - 1) * 2 ^ 300 ->
  let b := int_of_ceil (S754_finite false m e) in sv (Z.pos m) e <= b * 2 ^ 300 < sv (Z.pos m) e + 2 ^ 300.
Proof.
  intros He Hmax. pose proof (Z.pow_pos_nonneg 2 300 ltac:(lia) ltac:(lia)) as H300.
  enough (Hc : exists c, (if 0 <=? e then Z.pos m * 2 ^ e else - ((- Z.pos m) / 2 ^ (- e))) = c /\
      sv (Z.pos m) e <= c * 2 ^ 300 < sv (Z.pos m) e + 2 ^ 300).
  { destruct Hc as (c&Hc&Hb). cbn zeta. unfold int_of_ceil. rewrite Hc.
    assert (0 < sv (Z.pos m) e) by (unfold sv; pose proof (Z.pow_pos_nonneg 2 (e + 300) ltac:(lia) ltac:(lia)); nia).
    assert (0 < c < 2 ^ 31) by nia.
    rewrite (proj2 (Z.leb_le _ _)), (proj2 (Z.ltb_lt _ _)) by lia. done. }
  eexists. split; [reflexivity|]. unfold sv. destruct (Z.leb_spec 0 e) as [Hp|Hn].
  - rewrite (pow_split e 300) by lia. lia.
  - replace (2 ^ 300) with (2 ^ (- e) * 2 ^ (e + 300)) by (rewrite <- pow_split by lia; f_equal; lia).
    pose proof (Z.pow_pos_nonneg 2 (- e) ltac:(lia) ltac:(lia)) as Hpe. pose proof (Z.pow_pos_nonneg 2 (e + 300) ltac:(lia) ltac:(lia)) as Hpe'.
    pose proof (Z.div_mod (- Z.pos m) (2 ^ (- e)) ltac:(lia)) as Hdm. pose proof (Z.mod_pos_bound (- Z.pos m) (2 ^ (- e)) Hpe) as Hmod.
    set (q := (- Z.pos m) / 2 ^ (- e)) in *. assert (Z.pos m <= - q * 2 ^ (- e) < Z.pos m + 2 ^ (- e)) by lia. nia.
Qed.

(** ** The bandwidth *)

(** The measurement intervals of the classes, in microseconds. *)
Definition class_interval (i : Z) : Prop := i = 125 \/ i = 136 \/ i = 250 \/ i = 272.

(** Intervals per second. *)
Lemma per_second_spec i : class_interval i ->
  exists m e, sf_div (sf_of_Z 1) (sf_mul (sf_of_Z i) ten_to_minus_6) = S754_finite false m e /\ - 60 <= e <= 0 /\
    Z.abs (sv (Z.pos m) e * i - 10 ^ 6 * 2 ^ 300) * 2 ^ 50 <= 10 ^ 6 * 2 ^ 300.
Proof.
  intros [-> | [-> | [-> | ->]]]; (eexists _, _; split; [vm_compute; reflexivity|]; split; [lia|]; vm_compute; discriminate).
Qed.

(** The error of two multiplications and a division by eight, in units [k]. *)
Lemma error_budget i n k p v1 v2 r size frames :
  0 < k -> 0 < i <= 272 -> 0 < size -> 0 < frames -> 0 < p -> n = size * frames ->
  n * 10 ^ 6 <= i * 2 ^ 31 ->
  Z.abs (p * i - 10 ^ 6 * k) * 2 ^ 50 <= 10 ^ 6 * k ->
  Z.abs (v1 - p * (size * 8)) * 2 ^ 52 <= p * (size * 8) ->
  Z.abs (v2 - v1 * frames) * 2 ^ 52 <= v1 * frames ->
  r * 8 = v2 ->
  Z.abs (i * r - n * 10 ^ 6 * k) < k.
Proof.
  intros Hk Hi Hs Hf Hp -> Hmax Hper H1 H2 Hr.
  set (x := p * (size * 8) * frames). set (a := v1 * frames) in *. set (t := size * frames * 10 ^ 6 * k).
  assert (Ha : Z.abs (a - x) * 2 ^ 52 <= x).
  { unfold a, x. rewrite <- Z.mul_sub_distr_r, Z.abs_mul, (Z.abs_eq frames) by lia. nia. }
  assert (Hx : Z.abs (i * x - 8 * t) * 2 ^ 50 <= 8 * t).
  { unfold x, t. replace (i * (p * (size * 8) * frames) - 8 * (size * frames * 10 ^ 6 * k)) with ((p * i - 10 ^ 6 * k) * (8 * (size * frames))) by ring.
    rewrite Z.abs_mul, (Z.abs_eq (8 * (size * frames))) by nia. nia. }
  assert (Ht : t <= i * 2 ^ 31 * k) by (unfold t; nia).
  assert (Hia : Z.abs (i * a - i * x) * 2 ^ 52 <= i * x) by (rewrite <- Z.mul_sub_distr_l, Z.abs_mul, (Z.abs_eq i) by lia; nia).
  assert (Hiv : Z.abs (i * v2 - i * a) * 2 ^ 52 <= i * a) by (rewrite <- Z.mul_sub_distr_l, Z.abs_mul, (Z.abs_eq i) by lia; nia).
  assert (Hir : i * v2 = 8 * (i * r)) by (subst v2; ring). rewrite Hir in Hiv.
  assert (Ht' : t <= 272 * 2 ^ 31 * k) by (etrans; [exact Ht|]; apply Z.mul_le_mono_nonneg_r; lia).
  assert (0 <= t) by (unfold t; repeat apply Z.mul_nonneg_nonneg; lia).
  clearbody x a t. generalize dependent (i * x). generalize dependent (i * a). generalize dependent (i * r). intros. lia.
Qed.

(** What the daemon reserves carries the stream, and is at most one byte per second above
    it rounded up. *)
Lemma stream_bandwidth_spec i size frames :
  class_interval i -> 0 < size -> 0 < frames -> size * frames * 10 ^ 6 <= i * (2 ^ 31 - 2) ->
  let b := stream_bandwidth i size frames in
  size * frames * 10 ^ 6 <= b * i /\ (b - 1) * i <= size * frames * 10 ^ 6.
Proof.
  intros Hi Hs Hf Hmax b.
  assert (Hi' : 0 < i <= 272) by (unfold class_interval in Hi; lia).
  assert (Hsf : 0 < size * frames <= 600000) by (split; [by apply Z.mul_pos_pos|lia]).
  assert (Hs' : size <= size * frames) by (apply Z.le_mul_diag_r; lia).
  assert (Hf' : frames <= size * frames) by (rewrite Z.mul_comm; apply Z.le_mul_diag_r; lia).
  destruct (per_second_spec i Hi) as (mp&ep&Ep&Hep&Hp).
  assert (Hp0 : 0 < sv (Z.pos mp) ep) by (unfold sv; pose proof (Z.pow_pos_nonneg 2 (ep + 300) ltac:(lia) ltac:(lia)); nia).
  set (k := 2 ^ 300) in *. assert (Hk : 0 < k) by (by apply Z.pow_pos_nonneg).
  assert (Hpk : sv (Z.pos mp) ep <= 2 ^ 21 * k) by (destruct Hi as [-> | [-> | [-> | ->]]]; clearbody k; lia).
  assert (Hx1 : 0 <= sv (Z.pos mp) ep * (size * 8) <= 2 ^ 21 * k * 2 ^ 23).
  { split; [apply Z.mul_nonneg_nonneg; lia|]. apply Z.mul_le_mono_nonneg; lia. }
  assert (Hbig : 2 ^ 66 * k <= 2 ^ 600) by (unfold k; rewrite <- pow_split by lia; apply Z.pow_le_mono_r; lia).
  destruct (sf_mul_int mp ep (size * 8)) as (m1&e1&E1&He1&_&H1); [lia|lia|lia|].
  assert (Hv1 : 0 <= sv (Z.pos m1) e1 <= 2 ^ 45 * k) by (clearbody k; lia).
  assert (Hx2 : 0 <= sv (Z.pos m1) e1 * frames <= 2 ^ 45 * k * 2 ^ 20).
  { split; [apply Z.mul_nonneg_nonneg; lia|]. apply Z.mul_le_mono_nonneg; lia. }
  destruct (sf_mul_int m1 e1 frames) as (m2&e2&E2&He2&Hd2&H2); [lia|lia|lia|].
  assert (Hv2 : sv (Z.pos m2) e2 <= 2 ^ 66 * k) by (clearbody k; lia).
  destruct (sf_div_8 m2 e2) as (m3&e3&E3&He3&H3); [|done|].
  { split; [lia|]. apply Z.nlt_ge. intros Hc. unfold sv in Hv2. assert (2 ^ (e2 + 300) <= 2 ^ 66 * 2 ^ 300).
    { etrans; [|exact Hv2]. rewrite <- (Z.mul_1_l (2 ^ (e2 + 300))) at 1. apply Z.mul_le_mono_nonneg_r; [by apply Z.pow_nonneg|lia]. }
    rewrite <- pow_split in H by lia. apply Z.pow_le_mono_r_iff in H; lia. }
  pose proof (error_budget i (size * frames) k (sv (Z.pos mp) ep) (sv (Z.pos m1) e1) (sv (Z.pos m2) e2) (sv (Z.pos m3) e3) size frames) as Herr.
  specialize (Herr Hk Hi' Hs Hf Hp0 eq_refl ltac:(lia) Hp H1 H2 H3).
  assert (Hb : sv (Z.pos m3) e3 <= b * k < sv (Z.pos m3) e3 + k).
  { unfold b, stream_bandwidth. rewrite Ep, (s32_small (size * 8)), E1, E2, E3 by lia. apply int_of_ceil_spec; [lia|]. fold k.
    assert (Hik : k <= i * k) by (clear - Hk Hi'; clearbody k; nia).
    assert (Hnk : size * frames * 10 ^ 6 * k <= i * (2 ^ 31 - 2) * k) by (apply Z.mul_le_mono_nonneg_r; lia).
    apply (Z.mul_le_mono_pos_l _ _ i); [lia|]. clear - Herr Hik Hnk Hk. clearbody k.
    revert Herr Hnk. generalize (size * frames * 10 ^ 6 * k) (sv (Z.pos m3) e3). intros n r. nia. }
  clear - Herr Hb Hk Hi'. set (n := size * frames * 10 ^ 6) in *. clearbody n k. set (r := sv (Z.pos m3) e3) in *. clearbody r b.
  assert (i * r <= i * (b * k)) by nia. assert (i * (b * k) < i * r + i * k) by nia.
  split; nia.
Qed.
