(* ===== verification/ShaperTheory.v ===== *)
(** * The traffic shaper daemon and its command lines

    A ledger of the queues, classes and filters that the daemon's own command lines have
    asked for, an abstract book of the streams that were requested, and that the daemon's
    tables agree with both. *)

From S2P Require Import Prelude.
From S2P Require Import CText.
From S2P Require Import CTextTheory.
From S2P Require Import Shaper.
From S2P Require Import ShaperRate.
From Stdlib Require Import String.

Open Scope Z_scope.
Local Abbreviation length := List.length.

(** ** The ledger

    What the command lines ask for.  This is bookkeeping of the daemon's output and not a
    model of the kernel: an entry says that a line is in order with respect to the lines
    before it (nothing is added that was added already, nothing is changed or deleted that
    was not added, a filter's handle is not in use) and in itself (a positive rate, a burst
    that is not negative, an Ethernet address). *)

Record ledger : Type := mkLedger {
  l_dev : option (list Z);
  l_htb : bool -> bool;
  l_rate : sr_class -> option Z;
  l_filters : list (Z * sr_class * list Z)
}.

Definition ledger_0 : ledger := mkLedger None (fun _ => false) (fun _ => None) [].

(** Six pairs of hexadecimal digits with colons between them. *)
Definition hex (c : Z) : bool := digit_val c <? 16.

Fixpoint hex_pairs (n : nat) (l : list Z) : bool :=
  match n, l with
  | O, [x; y] => hex x && hex y
  | S n, x :: y :: c :: l => hex x && hex y && (c =? 58) && hex_pairs n l
  | _, _ => false
  end.

Definition ether_text (l : list Z) : bool := hex_pairs 5 l.

(** A filter is identified by its queue and its handle. *)
Definition same_filter (h : Z) (a : bool) (f : Z * sr_class * list Z) : Prop := f.1.1 = h /\ is_class_a f.1.2 = a.

#[export] Instance same_filter_dec h a f : Decision (same_filter h a f).
Proof. unfold same_filter. apply _. Defined.

Fixpoint drop_filter (h : Z) (a : bool) (l : list (Z * sr_class * list Z)) : option (list (Z * sr_class * list Z)) :=
  match l with
  | [] => None
  | f :: l => if decide (same_filter h a f) then Some l else (f ::.) <$> drop_filter h a l
  end.

(** The entry for a command line; [None] when the line is out of order. *)
Definition enter (t : tc_cmd) (k : ledger) : option ledger :=
  match t with
  | TcRootAdd dev =>
      if decide (l_dev k = None) then Some (mkLedger (Some dev) (fun _ => false) (fun _ => None) []) else None
  | TcRootDel dev => if decide (l_dev k = Some dev) then Some ledger_0 else None
  | TcHtbAdd dev a =>
      if decide (l_dev k = Some dev /\ l_htb k a = false)
      then Some (mkLedger (l_dev k) (fun b => if decide (b = a) then true else l_htb k b) (l_rate k) (l_filters k)) else None
  | TcClass change dev c rate cburst =>
      if decide (l_dev k = Some dev /\ l_htb k (is_class_a c) = true /\ bool_decide (is_Some (l_rate k c)) = change /\
                 0 < rate /\ 0 <= cburst)
      then Some (mkLedger (l_dev k) (l_htb k) (upd c (Some rate) (l_rate k)) (l_filters k)) else None
  | TcFilterAdd dev h c addr =>
      if decide (l_dev k = Some dev /\ is_Some (l_rate k c) /\ Forall (fun f => ~ same_filter h (is_class_a c) f) (l_filters k) /\
                 ether_text addr = true)
      then Some (mkLedger (l_dev k) (l_htb k) (l_rate k) (l_filters k ++ [(h, c, addr)])) else None
  | TcFilterDel dev h c =>
      if decide (l_dev k = Some dev) then
        l ← drop_filter h (is_class_a c) (l_filters k);
        Some (mkLedger (l_dev k) (l_htb k) (l_rate k) l)
      else None
  end.

Fixpoint enters (l : list tc_cmd) (k : ledger) : option ledger :=
  match l with
  | [] => Some k
  | t :: l => k ← enter t k; enters l k
  end.

Lemma enters_app l l' k : enters (l ++ l') k = (k ← enters l k; enters l' k).
Proof. revert k. induction l as [|t l IH]; intros k; [done|]. cbn. destruct (enter t k); [apply IH|done]. Qed.

(** The command lines among the outputs. *)
Definition systems (o : list shaper_output) : list tc_cmd :=
  omap (fun x => match x with System t => Some t | _ => None end) o.

Lemma systems_app o o' : systems (o ++ o') = systems o ++ systems o'.
Proof. apply omap_app. Qed.

(** ** Agreement *)

Definition total (c : sr_class) (l : list stream_da) : Z :=
  foldr Z.add 0 (map da_bandwidth (filter (fun st => da_class st = c) l)).

(** The bandwidth of all streams. *)
Definition sum_bw (l : list stream_da) : Z := foldr Z.add 0 (map da_bandwidth l).

Lemma foldr_add l n : foldr Z.add n l = foldr Z.add 0 l + n.
Proof. induction l as [|x l IH]; cbn; lia. Qed.

Lemma total_app c l l' : total c (l ++ l') = total c l + total c l'.
Proof. unfold total. rewrite filter_app, map_app, foldr_app, foldr_add. lia. Qed.

Lemma sum_bw_app l l' : sum_bw (l ++ l') = sum_bw l + sum_bw l'.
Proof. unfold sum_bw. rewrite map_app, foldr_app, foldr_add. lia. Qed.

Lemma total_bounds c l : Forall (fun st => 0 < da_bandwidth st) l -> 0 <= total c l <= sum_bw l.
Proof.
  unfold total, sum_bw. induction 1 as [|st l H _ IH]; [done|]. cbn [map foldr]. rewrite filter_cons. case_decide; cbn [map foldr]; lia.
Qed.

Lemma sum_bw_sublist l l' : l `sublist_of` l' -> Forall (fun st => 0 < da_bandwidth st) l' -> sum_bw l <= sum_bw l'.
Proof. unfold sum_bw. induction 1; intros HF; cbn; [done|..]; apply Forall_cons_1 in HF as [? HF]; specialize (IHsublist HF); lia. Qed.

Definition filter_of (st : stream_da) : Z * sr_class * list Z := (filter_handle st, da_class st, dest_addr st).

(** The rate of a class; a class without streams keeps a rate of 1. *)
Definition rate_of (c : sr_class) (l : list stream_da) : Z := Z.max 1 (total c l).

Definition handle_next (s : shaper) (a : bool) : Z := if a then filterhandle_classa s else filterhandle_classb s.

(** The tables of the daemon and the ledger: [n] bounds the number of handles used and [q]
    the bandwidth of all streams, [root] is whether the device has its root queue. *)
Record agrees (n q : Z) (root : bool) (s : shaper) (k : ledger) : Prop := {
  ag_dev : l_dev k = if root then Some (interface s) else None;
  ag_root : sr_classa s || sr_classb s = true -> root = true;
  ag_name : root = true -> interface s <> [] /\ (length (interface s) < IFNAMSIZ)%nat;
  ag_htb : l_htb k true = sr_classa s /\ l_htb k false = sr_classb s;
  ag_on : forall c, class_on s c = true -> l_htb k (is_class_a c) = true;
  ag_rate : forall c, l_rate k c = if class_on s c then Some (rate_of c (streams s)) else None;
  ag_bw : forall c, class_bw s c = total c (streams s);
  ag_sum : Forall (fun st => 0 < da_bandwidth st) (streams s) /\ sum_bw (streams s) <= q;
  ag_streams : Forall (fun st => class_on s (da_class st) = true) (streams s);
  ag_filters : l_filters k = map filter_of (streams s);
  ag_addrs : NoDup (map dest_addr (streams s));
  ag_short : Forall (fun st => (length (dest_addr st) < STREAMDA_LENGTH)%nat) (streams s);
  ag_handles : NoDup (map (fun st => (is_class_a (da_class st), filter_handle st)) (streams s));
  ag_used : Forall (fun st => 0 < filter_handle st < handle_next s (is_class_a (da_class st))) (streams s);
  ag_next : forall a, 0 < handle_next s a <= 20 + n
}.

(** The daemon has run command lines that are in order, and its tables agree with them. *)
Definition stepped (n q : Z) (root : bool) (s : shaper) : Prop :=
  exists k, enters (systems (done_ s)) ledger_0 = Some k /\ agrees n q root s k.

(** Between commands there is a root queue if and only if a class is in use. *)
Definition in_step (n q : Z) (s : shaper) : Prop := stepped n q (sr_classa s || sr_classb s) s.

(** ** The book of streams

    The streams a sequence of commands has requested and not withdrawn: address, class and
    bandwidth in the order of the requests; [None] while the device is not in use. *)

Abbreviation book := (option (list (list Z * sr_class * Z))).

(** The class and the bandwidth a reservation asks for. *)
Definition asks (input : cmd_ip) : option (sr_class * Z) :=
  c ← class_for (class_a input) (measurement_interval input);
  Some (c, stream_bandwidth (measurement_interval input) (max_frame_size input) (max_frame_interval input)).

(** Options that do not go together, or a reservation that is not complete. *)
Inductive contradictory (input : cmd_ip) : Prop :=
  | reserve_and_unreserve : reserve_bw input = true -> unreserve_bw input = true -> contradictory input
  | reserve_without_class : reserve_bw input = true -> class_a input = false -> class_b input = false -> contradictory input
  | reserve_without_size : reserve_bw input = true -> max_frame_size input = 0 -> contradictory input
  | reserve_without_interval : reserve_bw input = true -> measurement_interval input = 0 -> contradictory input
  | reserve_without_frames : reserve_bw input = true -> max_frame_interval input = 0 -> contradictory input
  | reserve_for_both : reserve_bw input = true -> class_a input = true -> class_b input = true -> contradictory input
  | end_and_reserve : quit input = true \/ delete_qdisc input = true -> reserve_bw input = true -> contradictory input
  | end_and_unreserve : quit input = true \/ delete_qdisc input = true -> unreserve_bw input = true -> contradictory input.

Lemma check_input_contradictory input : is_Some (check_input input) <-> contradictory input.
Proof.
  unfold check_input, incomplete. split.
  - intros [text H].
    destruct (reserve_bw input) eqn:Hr, (unreserve_bw input) eqn:Hu; cbn [andb orb] in H.
    + by apply reserve_and_unreserve.
    + destruct (Z.eqb_spec (max_frame_size input) 0); [by apply reserve_without_size|].
      destruct (Z.eqb_spec (measurement_interval input) 0); [by apply reserve_without_interval|].
      destruct (Z.eqb_spec (max_frame_interval input) 0); [by apply reserve_without_frames|].
      destruct (class_a input) eqn:Ha, (class_b input) eqn:Hb; cbn in H;
        [by apply reserve_for_both| | |by apply reserve_without_class];
        (apply end_and_reserve; [|done]; apply orb_true_iff; by destruct (quit input || delete_qdisc input)).
    + apply end_and_unreserve; [|done]. apply orb_true_iff. by destruct (quit input || delete_qdisc input).
    + by rewrite andb_false_r in H.
  - intros [Hr Hu|Hr Ha Hb|Hr Hz|Hr Hz|Hr Hz|Hr Ha Hb|Hq Hr|Hq Hr]; rewrite ?Hr, ?Hu, ?Ha, ?Hb, ?Hz, ?Z.eqb_refl, ?orb_true_r;
      cbn [andb orb negb]; try apply orb_true_iff in Hq as ->; rewrite ?orb_true_r; cbn [andb orb negb]; repeat case_match; eauto.
Qed.

#[export] Instance contradictory_dec input : Decision (contradictory input).
Proof.
  destruct (check_input input) as [text|] eqn:H; [left|right; intros Hc%check_input_contradictory];
    [apply check_input_contradictory; by exists text|]. rewrite H in Hc. by apply is_Some_None in Hc.
Defined.

Definition unbook (addr : list Z) (l : list (list Z * sr_class * Z)) : list (list Z * sr_class * Z) :=
  filter (fun e => e.1.1 <> addr) l.

(** A new reservation is entered behind the others, unless its address is booked or its
    interval is not one of its class. *)
Definition book_in (input : cmd_ip) (l : list (list Z * sr_class * Z)) : list (list Z * sr_class * Z) :=
  if decide (ci_stream_da input ∈ map (fun e => e.1.1) l) then l
  else match asks input with Some (c, bw) => l ++ [(ci_stream_da input, c, bw)] | None => l end.

(** What a command means: nothing when it is contradictory; an end when the device is to be
    left; a reservation, which takes the device in use when it names one; a withdrawal. *)
Definition booked (input : cmd_ip) (b : book) : book :=
  if decide (contradictory input) then b
  else if quit input || delete_qdisc input then None
  else if reserve_bw input then
    match b with
    | None => if decide (ci_interface input = []) then None else Some (book_in input [])
    | Some l => Some (book_in input l)
    end
  else if unreserve_bw input then unbook (ci_stream_da input) <$> b
  else b.

(** The book as the tables of the daemon have it. *)
Definition entry (st : stream_da) : list Z * sr_class * Z := (dest_addr st, da_class st, da_bandwidth st).

Definition book_of (s : shaper) : book := if sr_classa s || sr_classb s then Some (map entry (streams s)) else None.

(** ** Running command lines and reporting *)

Definition tc_short (t : tc_cmd) : Prop :=
  match t with
  | TcRootAdd dev | TcRootDel dev | TcHtbAdd dev _ | TcClass _ dev _ _ _ | TcFilterDel dev _ _ => (length dev < IFNAMSIZ)%nat
  | TcFilterAdd dev _ _ addr => (length dev < IFNAMSIZ)%nat /\ (length addr < STREAMDA_LENGTH)%nat
  end.

(** No command line is longer than 160 characters: they fit their buffer, and a report
    about one fits its own. *)
Lemma tc_text_length t : tc_short t -> (length (tc_text t) <= 160)%nat.
Proof.
  unfold tc_short, IFNAMSIZ, STREAMDA_LENGTH, tc_text. intros H. pose proof fmt_d_any as Hd.
  destruct t as [dev|dev|dev a|ch dev c r b|dev h c addr|dev h c]; rewrite ?length_app; cbn [length str].
  - lia.
  - lia.
  - pose proof (Hd (parent_of a)). destruct a; cbn [length str]; lia.
  - pose proof (Hd r). pose proof (Hd b). destruct ch, c; cbn [length str class_id]; lia.
  - pose proof (Hd h). pose proof (Hd (parent_of (is_class_a c))). destruct c; cbn [length str class_id]; lia.
  - pose proof (Hd h). destruct c; cbn [length str class_id take]; lia.
Qed.

(** Reports are recorded and change nothing else; none of them is a command line. *)
Definition reported (s s' : shaper) : Prop := exists o, s' = record_outputs o s /\ systems o = [].

Lemma reported_trans s s' s'' : reported s s' -> reported s' s'' -> reported s s''.
Proof.
  intros (o&->&Ho) (o'&->&Ho'). exists (o ++ o'). rewrite systems_app, Ho, Ho'. split; [|done]. destruct s. cbn.
  by rewrite (assoc_L (++)).
Qed.

Lemma put_out_reported o s : systems o = [] -> reported s (record_outputs o s).
Proof. by exists o. Qed.

Lemma log_client_error_message_ok fd text s :
  (length text < 200)%nat -> exists s', log_client_error_message fd text s = Ok (tt, s') /\ reported s s'.
Proof.
  intros Hl. unfold log_client_error_message, mbind, M_bind, lift. rewrite sprintf_Ok by done. cbn [mbind outcome_bind].
  destruct (fd <? 0); [eexists; split; [reflexivity|]; by apply put_out_reported|]. pose proof (fmt_d_any fd).
  rewrite !sprintf_Ok by (rewrite ?length_app; cbn [length str]; lia). eexists. split; [reflexivity|].
  eapply reported_trans; by apply put_out_reported.
Qed.

Lemma usage_ok fd s : exists s', usage fd s = Ok (tt, s') /\ reported s s'.
Proof. eexists. split; [reflexivity|]. apply put_out_reported. by destruct (fd <? 0). Qed.

Lemma stepped_reported n q root s s' : reported s s' -> stepped n q root s -> stepped n q root s'.
Proof.
  intros (o&->&Ho) (k&Hk&Ha). exists k. destruct s. cbn in *. rewrite systems_app, Ho, app_nil_r. split; [done|]. by destruct Ha; constructor.
Qed.

Lemma reported_same s s' : reported s s' ->
  streams s' = streams s /\ sr_classa s' = sr_classa s /\ sr_classb s' = sr_classb s /\ bandwidth s' = bandwidth s.
Proof. intros (o&->&_). by destruct s. Qed.

Lemma in_step_reported n q s s' : reported s s' -> in_step n q s -> in_step n q s'.
Proof.
  intros Hr Hs. unfold in_step. destruct (reported_same _ _ Hr) as (_&->&->&_). by eapply stepped_reported.
Qed.

Lemma agrees_mono n n' q q' root s k : n <= n' -> q <= q' -> agrees n q root s k -> agrees n' q' root s k.
Proof.
  intros Hn Hq []. constructor; try done.
  - destruct ag_sum0. split; [done|lia].
  - intros a. specialize (ag_next0 a). lia.
Qed.

Lemma in_step_mono n n' q q' s : n <= n' -> q <= q' -> in_step n q s -> in_step n' q' s.
Proof. intros Hn Hq (k&Hk&Ha). exists k. split; [done|]. by eapply agrees_mono. Qed.

(** Streams need a class, and a class its queue. *)
Lemma agrees_off n q root s k c : agrees n q root s k -> sr_classa s || sr_classb s = false -> class_on s c = false.
Proof.
  intros Ha [Hfa Hfb]%orb_false_iff. destruct (class_on s c) eqn:Hon; [|done]. apply (ag_on _ _ _ _ _ Ha) in Hon.
  destruct (ag_htb _ _ _ _ _ Ha) as [Hta Htb]. destruct (is_class_a c); congruence.
Qed.

Lemma agrees_streams n q root s k : agrees n q root s k -> sr_classa s || sr_classb s = false -> streams s = [].
Proof.
  intros Ha Hsr. pose proof (ag_streams _ _ _ _ _ Ha) as Hon. destruct (streams s) as [|st l]; [done|].
  apply Forall_cons_1 in Hon as [Hon _]. by rewrite (agrees_off _ _ _ _ _ _ Ha Hsr) in Hon.
Qed.

(** ** Commands

    All system calls succeed. *)

Ltac exec :=
  unfold mbind, M_bind, Prelude.get, gets, modify, put_out, modify, mret, M_ret, mbind, outcome_bind; cbv beta iota.

Section Works.
Context (E : ShaperEnv) (Hsys : forall n, sys_ok E n = true) (Hnode : forall n, node_ok E n = true).

Lemma run_tc_ok fd t l a b on bw ha hb i w n m o :
  tc_short t ->
  run_tc E fd t (mkShaper l a b on bw ha hb i w n m o) = Ok (true, mkShaper l a b on bw ha hb i w (S n) m (o ++ [System t])).
Proof.
  intros Ht. apply tc_text_length in Ht. unfold run_tc, mbind, M_bind, lift. rewrite sprintf_Ok by lia. cbn [mbind outcome_bind].
  unfold gets, modify, put_out, modify. cbn [mbind outcome_bind calls count_call record_outputs]. by rewrite Hsys.
Qed.

Lemma execs_snoc o t k k' :
  enters (systems o) ledger_0 = Some k -> enter t k = Some k' -> enters (systems (o ++ [System t])) ledger_0 = Some k'.
Proof. intros Ho Ht. rewrite systems_app, enters_app, Ho. cbn. by rewrite Ht. Qed.

(** Everything is deleted. *)
Lemma delete_all_ok fd n q s : in_step n q s ->
  exists s', delete_all E fd s = Ok (tt, s') /\ in_step n q s' /\ sr_classa s' || sr_classb s' = false.
Proof.
  intros (k&Hk&Ha). unfold delete_all. exec. destruct (sr_classa s || sr_classb s) eqn:Hsr;
    [|eexists; split; [reflexivity|]; split; [by exists k; rewrite Hsr|done]].
  destruct (ag_name _ _ _ _ _ Ha eq_refl) as [Hne Hlen]. destruct s as [l a b on bw ha hb i w c m o].
  unfold delete_streamda_list. exec. cbn [interface set_streams] in *. destruct i as [|x i]; [done|].
  rewrite run_tc_ok by done. eexists. split; [reflexivity|]. split; [|done]. exists ledger_0. split.
  - eapply execs_snoc; [exact Hk|]. cbn. rewrite decide_True; [done|]. by rewrite (ag_dev _ _ _ _ _ Ha).
  - pose proof (ag_sum _ _ _ _ _ Ha) as [Hpos Hsum]. constructor; cbn; try done; try (constructor; done); try done.
    + split; [constructor|]. cbn [streams] in *. pose proof (total_bounds A_48 _ Hpos). cbn. lia.
    + exact (ag_next _ _ _ _ _ Ha).
Qed.

(** The root queue for a first command with an interface; without one, the command ends
    with a report. *)
Lemma init_qdisc_ok fd n q input s :
  in_step n q s -> (length (ci_interface input) < IFNAMSIZ)%nat ->
  exists go s', init_qdisc E fd input s = Ok (go, s') /\ book_of s' = book_of s /\ streams s' = streams s /\
    if go : bool then stepped n q true s' /\ (ci_interface input = [] -> sr_classa s' || sr_classb s' = true)
    else in_step n q s' /\ sr_classa s' || sr_classb s' = false /\ ci_interface input = [].
Proof.
  intros Hin Hlen. unfold init_qdisc. exec. destruct (sr_classa s || sr_classb s) eqn:Hsr.
  { exists true, s. unfold in_step in Hin. by rewrite Hsr in Hin. }
  destruct (ci_interface input) as [|x dev] eqn:Hdev.
  - assert (Hlog : exists s1, (if unreserve_bw input || reserve_bw input
      then log_client_error_message fd (str "Interface is mandatory for the first command") else mret tt) s = Ok (tt, s1) /\ reported s s1).
    { destruct (unreserve_bw input || reserve_bw input);
        [by apply log_client_error_message_ok; apply Nat.ltb_lt|exists s; split; [done|]; exists []; by destruct s; cbn; rewrite app_nil_r]. }
    destruct Hlog as (s1&Hlog&H1). unfold mret, M_ret in Hlog. rewrite Hlog. destruct (usage_ok fd s1) as (s2&->&H2).
    pose proof (reported_trans _ _ _ H1 H2) as H3. exists false, s2.
    unfold book_of. destruct (reported_same _ _ H3) as (->&->&->&_). split_and!; [done..| |done|done]. by eapply in_step_reported.
  - destruct Hin as (k&Hk&Ha). rewrite Hsr in Ha. destruct s as [l a b on bw ha hb i w c m o]. rewrite run_tc_ok by done.
    eexists _, _. split; [reflexivity|]. split; [done|]. split; [done|]. split; [|done]. cbn [done_ sr_classa sr_classb] in Hk, Hsr. apply orb_false_iff in Hsr as [-> ->].
    exists (mkLedger (Some (x :: dev)) (fun _ => false) (fun _ => None) []). split.
    + eapply execs_snoc; [exact Hk|]. cbn. rewrite decide_True; [done|]. by rewrite (ag_dev _ _ _ _ _ Ha).
    + pose proof (agrees_streams _ _ _ _ _ Ha eq_refl) as Hst. cbn in Hst. subst l.
      pose proof (fun c => agrees_off _ _ _ _ _ c Ha eq_refl) as Hoff. cbn in Hoff.
      destruct Ha. constructor; cbn in *; try done; [intros c'; by rewrite Hoff|intros c'; by rewrite Hoff].
Qed.

(** The queue of a class. *)
Lemma init_class_ok fd n q a s :
  stepped n q true s ->
  exists s', init_class E fd a s = Ok (true, s') /\ stepped n q true s' /\ streams s' = streams s /\
    (if a then sr_classa s' else sr_classb s') = true.
Proof.
  intros (k&Hk&Ha). unfold init_class. exec. destruct (if a then sr_classa s else sr_classb s) eqn:Hsr.
  { exists s. split_and!; [done| |done|done]. by exists k. }
  destruct (ag_name _ _ _ _ _ Ha eq_refl) as [Hne Hlen]. destruct s as [l sa sb on bw ha hb i w c m o]. cbn [done_ interface sr_classa sr_classb] in Hk, Hlen, Hsr.
  assert (Htb : l_htb k a = false) by (destruct (ag_htb _ _ _ _ _ Ha) as [H1 H2]; cbn in *; destruct a; congruence).
  exists (set_sr a (mkShaper l sa sb on bw ha hb i w (S c) m (o ++ [System (TcHtbAdd i a)]))).
  split; [destruct a; cbn [set_sr interface]; by rewrite run_tc_ok|]. split; [|by destruct a].
  eexists. split.
  - assert (done_ (set_sr a (mkShaper l sa sb on bw ha hb i w (S c) m (o ++ [System (TcHtbAdd i a)]))) = o ++ [System (TcHtbAdd i a)]) as -> by (by destruct a).
    eapply execs_snoc; [exact Hk|]. cbn. rewrite decide_True; [done|]. by rewrite (ag_dev _ _ _ _ _ Ha).
  - destruct Ha as [H1 H2 H3 [H4 H4'] H5]. destruct a; constructor; cbn in *; try done;
      intros c' Hc'; specialize (H5 c' Hc'); case_decide; congruence.
Qed.

(** The handle of the next filter is not in use. *)
Lemma next_handle_free n q root s k a :
  agrees n q root s k -> Forall (fun f => ~ same_filter (handle_next s a) a f) (l_filters k).
Proof.
  intros Ha. rewrite (ag_filters _ _ _ _ _ Ha). apply Forall_fmap. eapply Forall_impl; [exact (ag_used _ _ _ _ _ Ha)|].
  intros st Hst [Hh <-]. cbn [filter_of fst snd] in *. lia.
Qed.

(** The tables with one more stream. *)
Definition with_stream (addr : list Z) (bw : Z) (c : sr_class) (s : shaper) : shaper :=
  next_handle (is_class_a c)
    (set_streams (streams s ++ [mkStreamDa addr bw c (handle_next s (is_class_a c))])
      ((if class_on s c then id else set_on c) (set_bw c (s32 (class_bw s c + bw)) s))).

(** The kernel with the rate of a class and one more filter. *)
Definition with_filter (h : Z) (addr : list Z) (rate : Z) (c : sr_class) (k : ledger) : ledger :=
  mkLedger (l_dev k) (l_htb k) (upd c (Some rate) (l_rate k)) (l_filters k ++ [(h, c, addr)]).

(** The sum for a class does not wrap while all streams together fit an int. *)
Lemma bw_added n q root s k c bw :
  agrees n q root s k -> 0 < bw -> q + bw < 2 ^ 31 -> s32 (class_bw s c + bw) = total c (streams s) + bw.
Proof.
  intros Ha Hbw Hq. destruct (ag_sum _ _ _ _ _ Ha) as [Hpos Hsum]. rewrite (ag_bw _ _ _ _ _ Ha).
  pose proof (total_bounds c _ Hpos). apply s32_small. lia.
Qed.

Lemma upd_same {A} c (v : A) f : upd c v f c = v.
Proof. unfold upd. by rewrite decide_True. Qed.
Lemma upd_other {A} c c' (v : A) f : c' <> c -> upd c v f c' = f c'.
Proof. intros H. unfold upd. by rewrite decide_False. Qed.

Lemma total_snoc c l addr bw c' h :
  total c (l ++ [mkStreamDa addr bw c' h]) = total c l + (if decide (c' = c) then bw else 0).
Proof. rewrite total_app. f_equal. unfold total. rewrite filter_cons. cbn [da_class]. case_decide; cbn; lia. Qed.

Lemma agrees_with_stream n q s k addr bw c :
  agrees n q true s k -> l_htb k (is_class_a c) = true -> addr ∉ map dest_addr (streams s) ->
  (length addr < STREAMDA_LENGTH)%nat -> 21 + n < 2 ^ 31 -> 0 < bw -> q + bw < 2 ^ 31 ->
  agrees (n + 1) (q + bw) true (with_stream addr bw c s)
    (with_filter (handle_next s (is_class_a c)) addr (s32 (class_bw s c + bw)) c k).
Proof.
  intros Ha Hhtb Hnew Hlen Hn Hbw0 Hq. pose proof (ag_next _ _ _ _ _ Ha) as Hnext.
  pose proof (bw_added _ _ _ _ _ c bw Ha Hbw0 Hq) as Hadd.
  assert (Hs32 : forall h, 0 < h <= 20 + n -> s32 (h + 1) = h + 1) by (intros h Hh; apply s32_small; lia).
  assert (Hstep : forall a, handle_next (with_stream addr bw c s) a = handle_next s a + (if decide (a = is_class_a c) then 1 else 0)).
  { intros a. pose proof (Hnext true) as Ht. pose proof (Hnext false) as Hf. unfold with_stream.
    generalize (is_class_a c). intros ac. destruct (class_on s c); destruct s as [? ? ? ? ? ha hb ? ? ? ? ?]; destruct ac, a; case_decide; try congruence;
      cbn [id handle_next next_handle set_streams set_on set_bw Shaper.filterhandle_classa Shaper.filterhandle_classb Shaper.streams Shaper.class_bw] in *; rewrite ?Hs32 by done; lia. }
  destruct Ha as [H1 H2 H3 H4 H5 H6 H7 [Hp Hsum] H8 H9 H10 H11 H12 H13 _].
  assert (Hst : streams (with_stream addr bw c s) = streams s ++ [mkStreamDa addr bw c (handle_next s (is_class_a c))])
    by (unfold with_stream; destruct (class_on s c); destruct s; by destruct (is_class_a c)).
  assert (Hon : forall c', class_on (with_stream addr bw c s) c' = upd c true (class_on s) c').
  { intros c'. unfold with_stream. destruct (class_on s c) eqn:Hc; destruct s; destruct (is_class_a c);
      cbn in *; unfold upd; repeat case_decide; congruence. }
  assert (Hbw : class_bw (with_stream addr bw c s) = upd c (s32 (class_bw s c + bw)) (class_bw s)) by (unfold with_stream; destruct (class_on s c); destruct s; by destruct (is_class_a c)).
  assert (Hsame : sr_classa (with_stream addr bw c s) = sr_classa s /\ sr_classb (with_stream addr bw c s) = sr_classb s /\
    interface (with_stream addr bw c s) = interface s) by (unfold with_stream; destruct (class_on s c); destruct s; by destruct (is_class_a c)).
  destruct Hsame as (Hsa&Hsb&Hif).
  constructor; rewrite ?Hst, ?Hbw, ?Hsa, ?Hsb, ?Hif; cbn [with_filter l_dev l_htb l_rate l_filters]; try done.
  - intros c' Hc'. rewrite Hon in Hc'. unfold upd in Hc'. case_decide; [by subst|by apply H5].
  - intros c'. rewrite Hon. unfold rate_of. rewrite total_snoc. unfold upd. destruct (decide (c' = c)) as [->|Hc'].
    + rewrite Hadd, decide_True by done. do 2 f_equal. pose proof (total_bounds c _ Hp). lia.
    + rewrite H6, decide_False by congruence. unfold rate_of. by rewrite Z.add_0_r.
  - intros c'. rewrite total_snoc. unfold upd. destruct (decide (c' = c)) as [->|Hc'].
    + by rewrite Hadd, decide_True.
    + by rewrite H7, decide_False, Z.add_0_r by congruence.
  - split; [apply Forall_app; split; [done|]; by repeat constructor|]. rewrite sum_bw_app. cbn. lia.
  - apply Forall_app. split; [|constructor; [|constructor]; rewrite Hon; by apply upd_same]. eapply Forall_impl; [exact H8|].
    intros st Hs. cbn beta. rewrite Hon. unfold upd. by case_decide.
  - by rewrite map_app, H9.
  - rewrite map_app. apply NoDup_app. split_and!; [done| |apply NoDup_singleton]. intros x Hx ->%list_elem_of_singleton. done.
  - apply Forall_app. split; [done|]. by constructor.
  - rewrite map_app. apply NoDup_app. split_and!; [done| |apply NoDup_singleton].
    intros x (st&->&Hst')%list_elem_of_fmap Heq%list_elem_of_singleton. injection Heq as Hcl Hh.
    rewrite Forall_forall in H13. specialize (H13 st Hst'). rewrite Hcl in H13. cbn in Hh. lia.
  - apply Forall_app. split.
    + eapply Forall_impl; [exact H13|]. intros st Hs. cbn beta in Hs. rewrite Hstep. case_decide; lia.
    + constructor; [|constructor]. cbn [da_class filter_handle]. rewrite Hstep, decide_True by done. specialize (Hnext (is_class_a c)). lia.
  - intros a. rewrite Hstep. specialize (Hnext a). case_decide; lia.
Qed.

Lemma agrees_counted n q root s k o :
  agrees n q root s k -> agrees n q root (record_outputs o (count_node (count_call (count_call s)))) k.
Proof. destruct s. intros []. by constructor. Qed.

Lemma reserve_in_ok fd n q addr c bw burst s :
  stepped n q true s -> (if is_class_a c then sr_classa s else sr_classb s) = true -> addr ∉ map dest_addr (streams s) ->
  (length addr < STREAMDA_LENGTH)%nat -> ether_text addr = true -> 21 + n < 2 ^ 31 ->
  0 < bw -> q + bw < 2 ^ 31 -> 0 <= burst ->
  exists s', reserve_in E fd addr c bw burst s = Ok (Some 1, s') /\ stepped (n + 1) (q + bw) true s' /\
    streams s' = streams s ++ [mkStreamDa addr bw c (handle_next s (is_class_a c))] /\
    sr_classa s' = sr_classa s /\ sr_classb s' = sr_classb s.
Proof.
  intros (k&Hk&Ha) Hsr Hnew Hlen Hether Hn Hbw Hq Hburst. destruct (ag_name _ _ _ _ _ Ha eq_refl) as [Hne Hdev].
  assert (Hhtb : l_htb k (is_class_a c) = true) by (destruct (ag_htb _ _ _ _ _ Ha) as [H1 H2]; destruct (is_class_a c); congruence).
  set (s0 := with_stream addr bw c s). set (k' := with_filter (handle_next s (is_class_a c)) addr (s32 (class_bw s c + bw)) c k).
  pose proof (agrees_with_stream n q s k addr bw c Ha Hhtb Hnew Hlen Hn Hbw Hq) as Ha'. fold s0 k' in Ha'.
  set (o := [System (TcClass (class_on s c) (interface s) c (s32 (class_bw s c + bw)) burst);
             System (TcFilterAdd (interface s) (handle_next s (is_class_a c)) c addr)]).
  exists (record_outputs o (count_node (count_call (count_call s0)))). split; [|split; [|unfold s0, o, with_stream; destruct (class_on s c); destruct s; by destruct (is_class_a c)]].
  - unfold reserve_in, tc_class_command, add_filter, insert_stream_da, s0, o, handle_next, with_stream. destruct s as [l sa sb on bws ha hb i w n' m o']. exec.
    cbn [set_bw class_on class_bw interface] in *. rewrite upd_same.
    destruct (on c) eqn:Hon.
    + rewrite run_tc_ok by done. exec. cbn [interface]. rewrite run_tc_ok by done. exec.
      cbn [nodes count_node]. rewrite Hnode. cbn [streams set_streams handle_next]. do 2 f_equal.
      destruct (is_class_a c); cbn; by rewrite <- app_assoc.
    + cbn [set_on interface]. rewrite run_tc_ok by done. exec. cbn [interface]. rewrite run_tc_ok by done. exec.
      cbn [nodes count_node]. rewrite Hnode. cbn [streams set_streams handle_next]. do 2 f_equal.
      destruct (is_class_a c); cbn; by rewrite <- app_assoc.
  - exists k'. split.
    + assert (done_ (record_outputs o (count_node (count_call (count_call s0)))) = done_ s ++ o) as ->
        by (unfold s0, with_stream; destruct (class_on s c); destruct s; by destruct (is_class_a c)).
      unfold o. rewrite systems_app, enters_app, Hk. cbn [mbind option_bind systems omap list_omap enters enter].
      pose proof (ag_dev _ _ _ _ _ Ha) as Hd. rewrite decide_True.
      * cbn [mbind option_bind l_dev l_htb l_rate l_filters]. rewrite decide_True; [done|]. split_and!; [done|by rewrite upd_same| |done].
        by apply (next_handle_free _ _ _ _ _ _ Ha).
      * rewrite (bw_added _ _ _ _ _ c bw Ha Hbw Hq), (ag_rate _ _ _ _ _ Ha c). destruct (ag_sum _ _ _ _ _ Ha) as [Hp _].
        pose proof (total_bounds c _ Hp). split_and!; [done|done|by destruct (class_on s c)|lia|done].
    + by apply agrees_counted.
Qed.

(** ** Looking up and removing streams *)

Lemma find_stream_None addr l : find_stream addr l = None <-> addr ∉ map dest_addr l.
Proof.
  induction l as [|st l IH]; cbn; [split; [intros _; apply not_elem_of_nil|done]|]. rewrite not_elem_of_cons.
  case_decide; [naive_solver|]. rewrite IH. naive_solver.
Qed.

Lemma find_stream_Some addr l st : find_stream addr l = Some st -> st ∈ l /\ dest_addr st = addr.
Proof.
  induction l as [|st' l IH]; cbn; [done|]. case_decide; [intros [= ->]; by split; [left|]|]. intros [H1 H2]%IH. by split; [right|].
Qed.

Lemma unlink_sublist addr l : unlink_stream addr l `sublist_of` l.
Proof. induction l as [|st l IH]; cbn; [done|]. case_decide; [by constructor|by constructor]. Qed.

Lemma sublist_map {A B} (f : A -> B) l l' : l `sublist_of` l' -> map f l `sublist_of` map f l'.
Proof. induction 1; by constructor. Qed.

Lemma sublist_Forall {A} (P : A -> Prop) l l' : l `sublist_of` l' -> Forall P l' -> Forall P l.
Proof. induction 1; intros HF; [done|..]; apply Forall_cons_1 in HF as [? ?]; [constructor|]; auto. Qed.

Lemma unlink_total addr c l st :
  find_stream addr l = Some st -> total c (unlink_stream addr l) = total c l - (if decide (da_class st = c) then da_bandwidth st else 0).
Proof.
  induction l as [|st' l IH]; cbn [find_stream unlink_stream]; [done|]. destruct (decide (dest_addr st' = addr)) as [Hd|Hd].
  - intros [= ->]. unfold total. rewrite filter_cons. case_decide; cbn; lia.
  - intros Hf. specialize (IH Hf). unfold total in *. rewrite !filter_cons. destruct (decide (da_class st' = c)); cbn; rewrite ?IH; lia.
Qed.

Definition identity (st : stream_da) : bool * Z := (is_class_a (da_class st), filter_handle st).

Lemma drop_filter_unlink addr l st :
  find_stream addr l = Some st -> NoDup (map identity l) ->
  drop_filter (filter_handle st) (is_class_a (da_class st)) (map filter_of l) = Some (map filter_of (unlink_stream addr l)).
Proof.
  induction l as [|st' l IH]; cbn; [done|]. intros Hf [Hnin Hnd]%NoDup_cons. case_decide as Hd.
  - injection Hf as ->. by rewrite decide_True.
  - rewrite decide_False; [by rewrite IH|]. intros [Hh Ha]. cbn in Hh, Ha. apply Hnin. apply list_elem_of_fmap. exists st.
    unfold identity. rewrite Hh, Ha. split; [done|]. by apply find_stream_Some in Hf as [? _].
Qed.

Definition without_stream (st : stream_da) (s : shaper) : shaper :=
  set_streams (unlink_stream (dest_addr st) (streams s)) (set_bw (da_class st) (s32 (class_bw s (da_class st) - da_bandwidth st)) s).

Definition without_filter (st : stream_da) (rate : Z) (s : shaper) (k : ledger) : ledger :=
  mkLedger (l_dev k) (l_htb k) (upd (da_class st) (Some rate) (l_rate k)) (map filter_of (unlink_stream (dest_addr st) (streams s))).

(** Removing the first stream with an address from the list and from the book. *)
Lemma unbook_none addr l : addr ∉ map dest_addr l -> unbook addr (map entry l) = map entry l.
Proof.
  unfold unbook. induction l as [|st l IH]; cbn [map]; [done|]. rewrite not_elem_of_cons. intros [Hne Hnin].
  rewrite filter_cons_True by (cbn; congruence). by rewrite IH.
Qed.

Lemma unlink_unbook addr l : NoDup (map dest_addr l) -> map entry (unlink_stream addr l) = unbook addr (map entry l).
Proof.
  induction l as [|st l IH]; cbn [map unlink_stream]; [done|]. intros [Hnin Hnd]%NoDup_cons. case_decide as Hd.
  - subst addr. unfold unbook. rewrite filter_cons_False by (cbn; tauto). symmetry. by apply unbook_none.
  - unfold unbook. rewrite filter_cons_True by done. cbn [map]. by rewrite IH.
Qed.

Lemma bw_removed n q root s k st :
  agrees n q root s k -> q < 2 ^ 31 -> find_stream (dest_addr st) (streams s) = Some st ->
  s32 (class_bw s (da_class st) - da_bandwidth st) = total (da_class st) (unlink_stream (dest_addr st) (streams s)).
Proof.
  intros Ha Hq Hf. destruct (ag_sum _ _ _ _ _ Ha) as [Hp Hsum]. rewrite (ag_bw _ _ _ _ _ Ha).
  pose proof (unlink_total _ (da_class st) _ _ Hf) as Ht. rewrite decide_True in Ht by done. rewrite <- Ht.
  pose proof (unlink_sublist (dest_addr st) (streams s)) as Hsub.
  pose proof (total_bounds (da_class st) _ (sublist_Forall _ _ _ Hsub Hp)). pose proof (sum_bw_sublist _ _ Hsub Hp).
  apply s32_small. lia.
Qed.

Lemma agrees_without_stream n q s k st :
  agrees n q true s k -> q < 2 ^ 31 -> find_stream (dest_addr st) (streams s) = Some st ->
  agrees n q true (without_stream st s) (without_filter st (rate_of (da_class st) (unlink_stream (dest_addr st) (streams s))) s k).
Proof.
  intros Ha Hq Hf. pose proof (bw_removed _ _ _ _ _ _ Ha Hq Hf) as Hrem. revert Ha.
  intros [H1 H2 H3 H4 H5 H6 H7 [Hp Hsum] H8 H9 H10 H11 H12 H13 H14]. pose proof (unlink_sublist (dest_addr st) (streams s)) as Hsub.
  assert (Hother : forall c', c' <> da_class st -> total c' (unlink_stream (dest_addr st) (streams s)) = total c' (streams s)).
  { intros c' Hc'. rewrite (unlink_total _ c' _ _ Hf), decide_False by congruence. apply Z.sub_0_r. }
  unfold without_stream. rewrite Hrem. destruct s as [l sa sb on bw ha hb i w c m o].
  pose proof (sublist_map dest_addr _ _ Hsub) as Hsub1. pose proof (sublist_map identity _ _ Hsub) as Hsub2.
  constructor; cbn [set_streams set_bw without_filter l_dev l_htb l_rate l_filters Shaper.streams Shaper.class_on Shaper.class_bw] in *; try done.
  - intros c'. specialize (H6 c'). unfold upd. case_decide as Hc.
    + subst c'. pose proof (find_stream_Some _ _ _ Hf) as [Hin _]. rewrite Forall_forall in H8. by rewrite (H8 st Hin).
    + rewrite H6. unfold rate_of. by rewrite Hother.
  - intros c'. unfold upd. case_decide as Hc; [by subst|]. by rewrite H7, Hother.
  - split; [by eapply sublist_Forall|]. pose proof (sum_bw_sublist _ _ Hsub Hp). lia.
  - by eapply sublist_Forall.
  - by eapply sublist_NoDup.
  - by eapply sublist_Forall.
  - by eapply sublist_NoDup.
  - by eapply sublist_Forall.
Qed.

Lemma unreserve_ok fd n q input burst s :
  in_step n q s -> q < 2 ^ 31 -> 0 <= burst ->
  exists r s', unreserve E fd input burst s = Ok (Some r, s') /\ in_step n q s' /\
    book_of s' = unbook (ci_stream_da input) <$> book_of s.
Proof.
  intros Hin Hq Hburst. unfold unreserve, get_stream_da. exec. destruct (find_stream (ci_stream_da input) (streams s)) as [st|] eqn:Hf.
  2: { destruct (log_client_error_message_ok fd (str "Unknown Stream DA") s) as (s'&->&Hr); [by apply Nat.ltb_lt|].
       exists 1, s'. split_and!; [done|by eapply in_step_reported|]. apply reported_same in Hr as (Hst&Hra&Hrb&_).
       unfold book_of. rewrite Hst, Hra, Hrb. destruct (sr_classa s || sr_classb s); [|done]. cbn. f_equal.
       symmetry. by apply unbook_none, find_stream_None. }
  destruct (find_stream_Some _ _ _ Hf) as [Hst Haddr]. rewrite <- Haddr in Hf |- *.
  assert (Hsr : sr_classa s || sr_classb s = true).
  { destruct Hin as (k&_&Ha). destruct (sr_classa s || sr_classb s) eqn:Hsr; [done|]. rewrite (agrees_streams _ _ _ _ _ Ha Hsr) in Hst. by apply elem_of_nil in Hst. }
  unfold in_step in Hin. rewrite Hsr in Hin. destruct Hin as (k&Hk&Ha). destruct (ag_name _ _ _ _ _ Ha eq_refl) as [Hne Hdev].
  pose proof (bw_removed _ _ _ _ _ _ Ha Hq Hf) as Hrem.
  set (v := s32 (class_bw s (da_class st) - da_bandwidth st)) in *.
  set (rate := if v =? 0 then 1 else v).
  set (o := [System (TcClass true (interface s) (da_class st) rate burst); System (TcFilterDel (interface s) (filter_handle st) (da_class st))]).
  exists 1, (record_outputs o (count_call (count_call (without_stream st s)))).
  destruct (ag_sum _ _ _ _ _ Ha) as [Hp _].
  assert (Hrate : rate = rate_of (da_class st) (unlink_stream (dest_addr st) (streams s))).
  { unfold rate, rate_of. rewrite Hrem. pose proof (unlink_sublist (dest_addr st) (streams s)) as Hsub.
    pose proof (total_bounds (da_class st) _ (sublist_Forall _ _ _ Hsub Hp)). destruct (Z.eqb_spec (total (da_class st) (unlink_stream (dest_addr st) (streams s))) 0); lia. }
  pose proof (agrees_without_stream n q s k st Ha Hq Hf) as Hs'. rewrite <- Hrate in Hs'.
  split_and!.
  - unfold tc_class_command, remove_stream_da, o, without_stream. fold v. destruct s as [l sa sb on bw ha hb i w n' m o']. exec.
    cbn [set_bw class_bw interface] in *. rewrite upd_same. fold v. fold rate. rewrite run_tc_ok by done. exec. cbn [interface].
    rewrite run_tc_ok by done. exec. cbn [streams]. destruct l as [|st' l]; [by apply elem_of_nil in Hst|].
    cbn [set_streams record_outputs count_call]. by rewrite <- app_assoc.
  - unfold in_step. assert (sr_classa (record_outputs o (count_call (count_call (without_stream st s)))) || sr_classb (record_outputs o (count_call (count_call (without_stream st s)))) = true) as ->
      by (unfold without_stream; by destruct s). exists (without_filter st rate s k). split.
    + assert (done_ (record_outputs o (count_call (count_call (without_stream st s)))) = done_ s ++ o) as -> by (unfold without_stream; by destruct s).
      unfold o. rewrite systems_app, enters_app, Hk. cbn [mbind option_bind systems omap list_omap enters enter].
      pose proof (ag_dev _ _ _ _ _ Ha) as Hd. rewrite decide_True.
      * cbn [mbind option_bind l_dev l_htb l_rate l_filters]. rewrite decide_True by done. rewrite (ag_filters _ _ _ _ _ Ha).
        rewrite (drop_filter_unlink (dest_addr st) (streams s) st Hf (ag_handles _ _ _ _ _ Ha)). done.
      * pose proof (ag_streams _ _ _ _ _ Ha) as Hon. rewrite Forall_forall in Hon. specialize (Hon st Hst). cbn beta in Hon.
        rewrite (ag_rate _ _ _ _ _ Ha (da_class st)), Hon.
        split_and!; [done|by apply (ag_on _ _ _ _ _ Ha)|done| |done]. rewrite Hrate. unfold rate_of. lia.
    + generalize dependent (without_stream st s). intros s1 Hs1. clearbody o. destruct s1 as [? ? ? ? ? ? ? ? ? ? ? ?]. by destruct Hs1; constructor.
  - unfold book_of. rewrite Hsr. unfold without_stream. destruct s as [l sa sb on bws ha hb i w n' m o'].
    cbn [set_bw set_streams record_outputs count_call sr_classa sr_classb streams fmap option_fmap option_map] in *. rewrite Hsr. f_equal.
    apply unlink_unbook, (ag_addrs _ _ _ _ _ Ha).
Qed.

Lemma class_for_a a interval c : class_for a interval = Some c -> is_class_a c = a.
Proof. unfold class_for. destruct a; repeat case_match; naive_solver. Qed.

Lemma class_for_interval a interval c : class_for a interval = Some c -> class_interval interval.
Proof. unfold class_for, class_interval. destruct a; repeat case_match; intros [=]; lia. Qed.

Lemma addr_booked addr l : addr ∈ map (fun e => e.1.1) (map entry l) <-> addr ∈ map dest_addr l.
Proof. by rewrite map_map. Qed.

(** What a reservation adds to the sum of all bandwidths. *)
Definition cost (input : cmd_ip) : Z :=
  if decide (contradictory input) then 0
  else if reserve_bw input then match asks input with Some (_, bw) => bw | None => 0 end
  else 0.

Lemma reserve_ok fd n q input burst s :
  stepped n q true s -> (length (ci_stream_da input) < STREAMDA_LENGTH)%nat -> ether_text (ci_stream_da input) = true ->
  21 + n < 2 ^ 31 -> 0 <= burst ->
  (forall c bw, asks input = Some (c, bw) -> 0 < bw /\ q + bw < 2 ^ 31) ->
  exists r s', reserve E fd input (stream_bandwidth (measurement_interval input) (max_frame_size input) (max_frame_interval input)) burst s =
      Ok (Some r, s') /\
    in_step (n + 1) (q + match asks input with Some (_, bw) => bw | None => 0 end) s' /\
    book_of s' = Some (book_in input (map entry (streams s))).
Proof.
  intros Hs Hlen Hether Hn Hburst Hasks. unfold reserve, check_stream_da. exec.
  assert (Hcost : 0 <= match asks input with Some (_, bw) => bw | None => 0 end).
  { destruct (asks input) as [[c bw]|]; [|done]. destruct (Hasks c bw eq_refl). lia. }
  destruct (find_stream (ci_stream_da input) (streams s)) as [st|] eqn:Hf.
  - destruct (log_client_error_message_ok fd (str "Stream DA already present") s) as (s'&->&Hr); [by apply Nat.ltb_lt|].
    apply find_stream_Some in Hf as [Hst Haddr]. pose proof (reported_same _ _ Hr) as (Hst'&Hra&Hrb&_).
    assert (Hsr : sr_classa s || sr_classb s = true).
    { destruct Hs as (k&Hk&Ha). destruct (sr_classa s || sr_classb s) eqn:Hsr; [done|]. rewrite (agrees_streams _ _ _ _ _ Ha Hsr) in Hst. by apply elem_of_nil in Hst. }
    exists 1, s'. split_and!; [done| |].
    + apply (in_step_mono n _ q); [lia|lia|]. apply (in_step_reported _ _ _ _ Hr). unfold in_step. by rewrite Hsr.
    + unfold book_of, book_in. rewrite Hst', Hra, Hrb, Hsr, decide_True; [done|]. apply addr_booked, list_elem_of_fmap. by exists st.
  - apply find_stream_None in Hf. unfold book_in. rewrite decide_False by (by rewrite addr_booked).
    destruct (init_class_ok fd n q (class_a input) s Hs) as (s1&->&Hs1&Hst&Hsr). cbn [negb].
    assert (Hsr' : sr_classa s1 || sr_classb s1 = true) by (destruct (class_a input); rewrite Hsr; [done|apply orb_true_r]).
    unfold asks in Hasks, Hcost |- *. destruct (class_for (class_a input) (measurement_interval input)) as [c|] eqn:Hc; cbn [mbind option_bind] in *.
    + destruct (Hasks _ _ eq_refl) as [Hbw Hsum]. apply class_for_a in Hc. rewrite <- Hc in Hsr. rewrite <- Hst in Hf.
      destruct (reserve_in_ok fd n q (ci_stream_da input) c _ burst s1 Hs1 Hsr Hf Hlen Hether Hn Hbw Hsum Hburst) as (s2&->&Hs2&Hst2&Ha&Hb).
      exists 1, s2. unfold in_step, book_of. rewrite Ha, Hb, Hsr', Hst2, map_app, Hst. by split_and!.
    + set (text := str "Measurement Interval (" ++ _).
      assert (Ht : (length text < 200)%nat).
      { pose proof (fmt_d_any (measurement_interval input)). unfold text. destruct (class_a input); rewrite !length_app; cbn [length str]; lia. }
      destruct (log_client_error_message_ok fd text s1 Ht) as (s2&->&Hr). exists (-1), s2. pose proof (reported_same _ _ Hr) as (Hst2&Hra&Hrb&_).
      split_and!; [done| |by unfold book_of; rewrite Hra, Hrb, Hsr', Hst2, Hst].
      apply (in_step_mono n _ q); [lia|lia|]. apply (in_step_reported _ _ _ _ Hr). unfold in_step. by rewrite Hsr'.
Qed.

(** What the parser's arrays allow. *)
Definition input_fits (input : cmd_ip) : Prop :=
  (length (ci_interface input) < IFNAMSIZ)%nat /\ (length (ci_stream_da input) < STREAMDA_LENGTH)%nat.

(** A command as the usage text describes them: only a reservation names an interface; a
    reservation that is not refused for its options has an Ethernet address and, if its
    interval is one of a class, a positive size and number of frames whose rate an int can
    hold; the burst does not overflow. *)
Record proper (input : cmd_ip) : Prop := {
  pr_interface : ci_interface input <> [] -> reserve_bw input = true;
  pr_address : reserve_bw input = true -> ~ contradictory input -> ether_text (ci_stream_da input) = true;
  pr_rate : reserve_bw input = true -> ~ contradictory input -> class_interval (measurement_interval input) ->
    0 < max_frame_size input /\ 0 < max_frame_interval input /\
    max_frame_size input * max_frame_interval input * 10 ^ 6 <= measurement_interval input * (2 ^ 31 - 2);
  pr_burst : 0 <= max_burst (max_frame_size input) (max_frame_interval input)
}.

Lemma asks_positive input c bw :
  proper input -> reserve_bw input = true -> ~ contradictory input -> asks input = Some (c, bw) -> 0 < bw.
Proof.
  intros Hp Hr Hc. unfold asks. destruct (class_for _ _) as [c'|] eqn:Hi; [|done]. cbn. intros [= <- <-].
  apply class_for_interval in Hi. destruct (pr_rate _ Hp Hr Hc Hi) as (Hs&Hf&Hb).
  destruct (stream_bandwidth_spec _ _ _ Hi Hs Hf Hb) as [Hlow _]. assert (0 < measurement_interval input) by (unfold class_interval in Hi; lia).
  nia.
Qed.

Lemma reject_ok fd n q text s :
  in_step n q s -> (length text < 200)%nat -> exists s', reject fd text s = Ok (Some (-1), s') /\ in_step n q s' /\ book_of s' = book_of s.
Proof.
  intros Hin Hl. unfold reject. exec. destruct (log_client_error_message_ok fd text s Hl) as (s1&->&H1).
  destruct (usage_ok fd s1) as (s2&->&H2). exists s2. pose proof (reported_trans _ _ _ H1 H2) as Hr.
  split_and!; [done|by eapply in_step_reported|]. destruct (reported_same _ _ Hr) as (Hst&Ha&Hb&_). unfold book_of. by rewrite Hst, Ha, Hb.
Qed.

Lemma check_input_short input text : check_input input = Some text -> (length text < 200)%nat.
Proof. unfold check_input. repeat case_match; intros [= <-]; by apply Nat.ltb_lt. Qed.

Lemma in_step_bandwidth n q w s : in_step n q s -> in_step n q (set_bandwidth w s).
Proof. intros (k&Hk&Ha). exists k. destruct s. split; [done|]. by destruct Ha; constructor. Qed.

Lemma stepped_bandwidth n q w s : stepped n q true s -> stepped n q true (set_bandwidth w s).
Proof. intros (k&Hk&Ha). exists k. destruct s. split; [done|]. by destruct Ha; constructor. Qed.

Lemma book_bandwidth w s : book_of (set_bandwidth w s) = book_of s.
Proof. by destruct s. Qed.

Lemma not_in_use s : sr_classa s || sr_classb s = false -> book_of s = None.
Proof. intros H. unfold book_of. by rewrite H. Qed.

(** Every command keeps the daemon in step with its command lines, and changes the book as
    it should. *)
Lemma process_input_ok fd n q input s :
  in_step n q s -> input_fits input -> proper input -> 21 + n < 2 ^ 31 -> q + cost input < 2 ^ 31 -> q < 2 ^ 31 ->
  exists r s', process_input E fd input s = Ok (Some r, s') /\ in_step (n + 1) (q + cost input) s' /\
    book_of s' = booked input (book_of s) /\ 0 <= cost input.
Proof.
  intros Hin [Hdev Hda] Hp Hn Hq Hq0. unfold process_input, booked, cost in *.
  destruct (check_input input) as [text|] eqn:Hck.
  { pose proof (proj1 (check_input_contradictory input) (ex_intro _ _ Hck)) as Hc. rewrite !(decide_True _ _ Hc) in *.
    apply check_input_short in Hck. destruct (reject_ok fd n q text s Hin Hck) as (s'&->&Hs'&Hb). exists (-1), s'.
    split_and!; [done| |done|done]. apply (in_step_mono n _ q); [lia|lia|done]. }
  assert (Hc : ~ contradictory input) by (rewrite <- check_input_contradictory, Hck; apply is_Some_None).
  rewrite !(decide_False _ _ Hc) in *.
  assert (Hdel : exists s1, (if quit input || delete_qdisc input then delete_all E fd else mret tt) s = Ok (tt, s1) /\ in_step n q s1 /\
    book_of s1 = if quit input || delete_qdisc input then None else book_of s).
  { destruct (quit input || delete_qdisc input); [|by exists s].
    destruct (delete_all_ok fd n q s Hin) as (s1&Hs1&Hin1&Hsr). exists s1. split_and!; [done|done|by apply not_in_use]. }
  destruct Hdel as (s1&Hdel&Hin1&Hb1). exec. unfold mret, M_ret in Hdel. rewrite Hdel.
  assert (Hcost : 0 <= if reserve_bw input then match asks input with Some (_, bw) => bw | None => 0 end else 0).
  { destruct (reserve_bw input) eqn:Hres; [|done]. destruct (asks input) as [[c bw]|] eqn:Ha; [|done].
    pose proof (asks_positive _ _ _ Hp Hres Hc Ha). lia. }
  assert (Hend : quit input || delete_qdisc input = true -> reserve_bw input = false /\ unreserve_bw input = false).
  { intros Hqd%orb_true_iff. split; apply not_true_is_false; intros H; apply Hc; [by apply end_and_reserve|by apply end_and_unreserve]. }
  destruct (quit input) eqn:Hquit.
  { exists 0, s1. split_and!; [done| |done|done]. apply (in_step_mono n _ q); [lia|lia|done]. }
  cbn [orb] in *. destruct (init_qdisc_ok fd n q input s1 Hin1 Hdev) as (go&s2&->&Hb2&Hst&Hgo). destruct go; cbn [negb].
  2: { destruct Hgo as (Hin2&Hsr&Hi). exists (-1), s2. split_and!; [done|apply (in_step_mono n _ q); [lia|lia|done]| |done].
       rewrite Hb2. apply not_in_use in Hsr. rewrite Hb2, Hb1 in Hsr. rewrite Hb1. destruct (delete_qdisc input); [done|]. rewrite Hsr.
       rewrite decide_True by done. by destruct (reserve_bw input), (unreserve_bw input). }
  destruct Hgo as [Hs2 Hsr]. set (w := stream_bandwidth _ _ _).
  destruct (reserve_bw input) eqn:Hres.
  - rewrite orb_true_r. destruct (delete_qdisc input); [by destruct (Hend eq_refl)|].
    destruct (reserve_ok fd n q input (max_burst (max_frame_size input) (max_frame_interval input)) (set_bandwidth w s2)) as (r&s3&Hr&Hs3&Hb3);
      [by apply stepped_bandwidth|done|by apply pr_address|done|by apply pr_burst| |].
    { intros c bw Ha. rewrite Ha in Hq. split; [by eapply asks_positive|lia]. }
    assert (bandwidth (set_bandwidth w s2) = w) as -> by (by destruct s2).
    exists r, s3. split_and!; [exact Hr|done| |done]. rewrite Hb3, <- Hb1.
    assert (streams (set_bandwidth w s2) = streams s1) as -> by (rewrite <- Hst; by destruct s2).
    unfold book_of in Hb2 |- *. destruct (sr_classa s1 || sr_classb s1) eqn:Hsr1; [done|].
    destruct Hin1 as (k&_&Hk). rewrite (agrees_streams _ _ _ _ _ Hk Hsr1). rewrite decide_False; [done|].
    intros Hi. specialize (Hsr Hi). rewrite Hsr in Hb2. done.
  - assert (Hi : ci_interface input = []).
    { destruct (ci_interface input) eqn:Hi; [done|]. rewrite (pr_interface _ Hp) in Hres; [done|congruence]. }
    specialize (Hsr Hi). assert (Hin2 : in_step n q s2) by (unfold in_step; by rewrite Hsr).
    destruct (delete_qdisc input).
    { rewrite Hb1 in Hb2. unfold book_of in Hb2. by rewrite Hsr in Hb2. }
    rewrite <- Hb1, orb_false_r, Z.add_0_r. destruct (unreserve_bw input).
    + destruct (unreserve_ok fd n q input (max_burst (max_frame_size input) (max_frame_interval input)) (set_bandwidth w s2)) as (r&s3&->&Hs3&Hb3);
        [by apply in_step_bandwidth|done|by apply pr_burst|]. exists r, s3. split_and!; [done|apply (in_step_mono n _ q); [lia|lia|done]| |done].
      by rewrite Hb3, book_bandwidth, Hb2.
    + exists 1, s2. split_and!; [done|apply (in_step_mono n _ q); [lia|lia|done]|done|done].
Qed.
End Works.

(** ** The parser *)

Lemma char_at_Ok command i c : char_at command i = Ok c -> command !! i = Some c.
Proof. unfold char_at. case_match; naive_solver. Qed.

Lemma copy_word_length limit command i w j : copy_word limit command i = Ok (w, j) -> (length w <= limit)%nat /\ (i <= j)%nat.
Proof.
  revert i w j. induction limit as [|limit IH]; intros i w j; cbn [copy_word];
    intros (c&_&Hc)%bind_Ok; (destruct (c =? 32); [injection Hc as <- <-; cbn; lia|]).
  - injection Hc as <- <-. cbn. lia.
  - apply bind_Ok in Hc as ([w' j']&Hw&Hc). injection Hc as <- <-. apply IH in Hw. cbn. lia.
Qed.

Lemma cstr_length s : (length (cstr s) <= length s)%nat.
Proof. induction s as [|c s IH]; cbn; [done|]. destruct (c =? 0); cbn; lia. Qed.

(** A step of the parser does not go back, and keeps the arrays in their bounds. *)
Definition parses (f : nat -> cmd_ip -> outcome parser) : Prop :=
  forall i c j c', f i c = Ok (j, c') -> (i <= j)%nat /\ (input_fits c -> input_fits c').

Lemma on_char_parses k f command p p' :
  parses f -> on_char k f command p = Ok p' -> (p.1 <= p'.1)%nat /\ (input_fits p.2 -> input_fits p'.2).
Proof.
  intros Hf (c&_&Hc)%bind_Ok. destruct (c =? k); [|injection Hc as <-; split; [done|by intros]]. destruct p'. by apply Hf in Hc.
Qed.

Lemma take_flag_parses set : (forall c, input_fits c -> input_fits (set c)) -> parses (take_flag set).
Proof. intros Hset i c j c' [= <- <-]. split; [lia|apply Hset]. Qed.

Lemma take_word_parses limit command set :
  (forall w c, (length w <= limit)%nat -> input_fits c -> input_fits (set w c)) -> parses (take_word limit command set).
Proof.
  intros Hset i c j c' ([w j']&Hw&Hc)%bind_Ok. injection Hc as <- <-. apply copy_word_length in Hw. split; [lia|].
  apply Hset. pose proof (cstr_length w). lia.
Qed.

Lemma take_class_parses command : parses (take_class command).
Proof.
  intros i c j c' (k&_&Hc)%bind_Ok. injection Hc as <- <-. split; [lia|]. unfold set_class. destruct c. repeat case_match; done.
Qed.

Lemma flag_parses set :
  (forall c, ci_interface (set c) = ci_interface c /\ ci_stream_da (set c) = ci_stream_da c) -> parses (take_flag set).
Proof. intros Hset. apply take_flag_parses. intros c. unfold input_fits. by destruct (Hset c) as [-> ->]. Qed.

Lemma number_parses command set :
  (forall v c, ci_interface (set v c) = ci_interface c /\ ci_stream_da (set v c) = ci_stream_da c) -> parses (take_number command set).
Proof. intros Hset. apply take_word_parses. intros w c _. unfold input_fits. by destruct (Hset (atoi w) c) as [-> ->]. Qed.

Lemma interface_parses command : parses (take_word (IFNAMSIZ - 1) command set_interface_in).
Proof. apply take_word_parses. intros w [] Hw [H1 H2]. unfold input_fits, IFNAMSIZ, STREAMDA_LENGTH in *. cbn in *. lia. Qed.

Lemma address_parses command : parses (take_word (STREAMDA_LENGTH - 1) command set_stream_da).
Proof. apply take_word_parses. intros w [] Hw [H1 H2]. unfold input_fits, IFNAMSIZ, STREAMDA_LENGTH in *. cbn in *. lia. Qed.

(** The options by what they do. *)
Ltac solve_parses :=
  lazymatch goal with
  | |- parses (take_flag _) => apply flag_parses; intros []; split; reflexivity
  | |- parses (take_number _ _) => apply number_parses; intros ? []; split; reflexivity
  | |- parses (take_class _) => apply take_class_parses
  | |- parses (take_word _ _ set_interface_in) => apply interface_parses
  | |- parses (take_word _ _ set_stream_da) => apply address_parses
  end.

Lemma parse_options_fits command p p' :
  parse_options command p = Ok p' -> (p.1 <= p'.1)%nat /\ (input_fits p.2 -> input_fits p'.2).
Proof.
  unfold parse_options. intros H. inv_bind H.
  repeat match goal with
  | H : on_char _ ?f _ _ = Ok _ |- _ =>
      let Hf := fresh in assert (Hf : parses f) by solve_parses;
      apply (on_char_parses _ _ _ _ _ Hf) in H; clear Hf; destruct H as [? ?]
  end.
  split; [lia|auto 20].
Qed.

Lemma option_loop_fits fuel command p input :
  option_loop fuel command p = Ok input -> input_fits p.2 -> input_fits input.
Proof.
  revert p. induction fuel as [|fuel IH]; intros p; cbn [option_loop]; [done|]. intros (c&_&Hc)%bind_Ok Hp.
  destruct (c =? 0); [by injection Hc as <-|]. apply bind_Ok in Hc as (p'&Ho&Hc). apply parse_options_fits in Ho as [_ Ho].
  apply (IH _ Hc). by apply Ho.
Qed.

Lemma parse_cmd_fits command input : parse_cmd command = Ok input -> input_fits input.
Proof. intros H. apply (option_loop_fits _ _ _ _ H). split; apply Nat.ltb_lt; reflexivity. Qed.
