(* ===== verification/ShaperCorrect.v ===== *)
(** * The traffic shaper daemon: theorems

    The daemon keeps the bookings that were requested, in step with its command lines; the
    bandwidth carries the stream; commands are read as the usage text shows them; an
    erroneous command changes nothing; and defects. *)

From S2P Require Import Prelude.
From S2P Require Import CText.
From S2P Require Import CTextTheory.
From S2P Require Import Shaper.
From S2P Require Import ShaperTheory.
From S2P Require Import ShaperRate.
From Stdlib Require Import String.

Open Scope Z_scope.
Local Abbreviation length := List.length.

(** ** Any sequence of commands *)

(** The commands of the standard input (-1) and of connections, one after the other. *)
Fixpoint process_commands (E : ShaperEnv) (l : list (Z * list Z)) : SHAPER unit :=
  match l with
  | [] => mret tt
  | (fd, command) :: l => _ ← process_command E fd command; process_commands E l
  end.

(** The same for commands that have been read. *)
Fixpoint process_inputs (E : ShaperEnv) (l : list (Z * cmd_ip)) : SHAPER unit :=
  match l with
  | [] => mret tt
  | (fd, input) :: l => _ ← process_input E fd input; process_inputs E l
  end.

(** The bandwidth a sequence of commands asks for, withdrawals left aside. *)
Definition costs (l : list (Z * cmd_ip)) : Z := foldr (fun x n => cost x.2 + n) 0 l.

(** What the sequence means, from a book. *)
Definition bookings (l : list (Z * cmd_ip)) (b : book) : book := fold_left (fun b x => booked x.2 b) l b.

Lemma cost_nonneg input : proper input -> 0 <= cost input.
Proof.
  intros Hp. unfold cost. case_decide as Hc; [done|]. destruct (reserve_bw input) eqn:Hr; [|done].
  destruct (asks input) as [[c bw]|] eqn:Ha; [|done]. pose proof (asks_positive _ _ _ Hp Hr Hc Ha). lia.
Qed.

Lemma costs_nonneg l : Forall (fun x => input_fits x.2 /\ proper x.2) l -> 0 <= costs l.
Proof. induction 1 as [|x l [_ Hp] _ IH]; [done|]. change (costs (x :: l)) with (cost x.2 + costs l). pose proof (cost_nonneg _ Hp). lia. Qed.

Lemma process_inputs_ok E l n q s :
  (forall k, sys_ok E k = true) -> (forall k, node_ok E k = true) ->
  in_step n q s -> Forall (fun x => input_fits x.2 /\ proper x.2) l ->
  21 + n + Z.of_nat (length l) < 2 ^ 31 -> q + costs l < 2 ^ 31 ->
  exists s', process_inputs E l s = Ok (tt, s') /\ in_step (n + Z.of_nat (length l)) (q + costs l) s' /\
    book_of s' = bookings l (book_of s).
Proof.
  intros Hsys Hnode Hin HF. revert n q s Hin.
  induction HF as [|[fd input] l [Hfits Hp] HF IH]; intros n q s Hin Hn Hq; cbn [length] in *.
  - exists s. by rewrite !Z.add_0_r.
  - change (costs ((fd, input) :: l)) with (cost input + costs l) in *. cbn [snd] in *. pose proof (cost_nonneg _ Hp). pose proof (costs_nonneg _ HF).
    destruct (process_input_ok E Hsys Hnode fd n q input s Hin Hfits Hp) as (r&s1&Hr&Hs1&Hb1&_); [lia..|].
    destruct (IH (n + 1) (q + cost input) s1 Hs1) as (s2&Hs2&Hin2&Hb2); [lia..|]. exists s2. split_and!.
    + cbn [process_inputs]. unfold mbind, M_bind. by rewrite Hr.
    + replace (n + Z.of_nat (S (length l))) with (n + 1 + Z.of_nat (length l)) by lia. by rewrite Z.add_assoc.
    + by rewrite Hb2, Hb1.
Qed.

Lemma in_step_0 : in_step 0 0 shaper_0.
Proof. exists ledger_0. split; [done|]. constructor; try done; try constructor; try done. all: by destruct a. Qed.

(** C31: the daemon keeps the bookings.  For any sequence of commands that have been read,
    from any connections, which fit the parser's arrays and follow the usage text: only a
    reservation names an interface, addresses are Ethernet addresses, sizes and numbers of
    frames are positive, and all bandwidths together are below 2^31.  While every call of
    [system] and [malloc] succeeds, no command faults; the streams in the tables, with
    address, class and bandwidth, are those that were requested and not withdrawn, a
    contradictory command counting for nothing; every command line is in order with
    respect to those before it (nothing added twice, nothing changed or deleted that is
    not there, positive rates); and what the lines add up to is what the tables say: the
    queues of class A and B, for each traffic class in use the exact total bandwidth of
    its streams as the rate (1 without streams), and one filter for each stream, with its
    own handle, its class and its address. *)
Theorem shaper_keeps_bookings E l :
  (forall k, sys_ok E k = true) -> (forall k, node_ok E k = true) ->
  Forall (fun x => input_fits x.2 /\ proper x.2) l -> 21 + Z.of_nat (length l) < 2 ^ 31 -> costs l < 2 ^ 31 ->
  exists s k, process_inputs E l shaper_0 = Ok (tt, s) /\ book_of s = bookings l None /\
    enters (systems (done_ s)) ledger_0 = Some k /\
    agrees (Z.of_nat (length l)) (costs l) (sr_classa s || sr_classb s) s k.
Proof.
  intros Hsys Hnode HF Hn Hq.
  destruct (process_inputs_ok E l 0 0 shaper_0 Hsys Hnode in_step_0 HF) as (s&Hs&(k&Hk&Ha)&Hb); [lia..|].
  by exists s, k.
Qed.

(** Two reservations, one of them withdrawn again, and a command that is refused. *)
Definition some_inputs : list (Z * cmd_ip) :=
  [(-1, mkCmdIp true false (str "eth2") true false 125 74 1 (str "ff:ff:ff:ff:ff:11") false false);
   (6, mkCmdIp true false [] false true 272 100 1 (str "ff:ff:ff:ff:ff:12") false false);
   (7, mkCmdIp true false [] false false 0 0 0 [] false false);
   (6, mkCmdIp false true [] false false 0 0 0 (str "ff:ff:ff:ff:ff:11") false false)].

Definition all_well : ShaperEnv := mkShaperEnv (fun _ => true) (fun _ => true).

Lemma shaper_keeps_bookings_witness :
  costs some_inputs = 959648 /\ bookings some_inputs None = Some [(str "ff:ff:ff:ff:ff:12", B_44, 367648)] /\
  exists s k, process_inputs all_well some_inputs shaper_0 = Ok (tt, s) /\ book_of s = bookings some_inputs None /\
    enters (systems (done_ s)) ledger_0 = Some k /\
    agrees 4 (costs some_inputs) (sr_classa s || sr_classb s) s k.
Proof.
  split; [vm_compute; reflexivity|]. split; [vm_compute; reflexivity|].
  refine (shaper_keeps_bookings all_well some_inputs _ _ _ _ _); [reflexivity|reflexivity| |reflexivity|vm_compute; reflexivity].
  repeat apply Forall_cons_2; [..|apply Forall_nil_2];
    (split; [split; apply Nat.ltb_lt; reflexivity|constructor]);
    cbn [snd ci_interface reserve_bw ci_stream_da measurement_interval max_frame_size max_frame_interval];
    try discriminate; try (intros; reflexivity); try (intros; lia); try (vm_compute; discriminate); try (intros H; by destruct H).
  all: intros _ Hc; destruct Hc; by apply reserve_without_size.
Defined.

(** C32: the bandwidth the daemon reserves carries the stream.  For the measurement
    intervals of the classes and all frame sizes and counts whose rate an int can hold,
    the double precision computation yields at least the bytes per second of the stream,
    and at most one more than these rounded up. *)
Theorem stream_bandwidth_covers i size frames :
  class_interval i -> 0 < size -> 0 < frames -> size * frames * 10 ^ 6 <= i * (2 ^ 31 - 2) ->
  size * frames * 10 ^ 6 <= stream_bandwidth i size frames * i /\
  (stream_bandwidth i size frames - 1) * i <= size * frames * 10 ^ 6.
Proof. apply stream_bandwidth_spec. Qed.

Lemma stream_bandwidth_covers_witness :
  74 * 1 * 10 ^ 6 <= stream_bandwidth 136 74 1 * 136 /\ (stream_bandwidth 136 74 1 - 1) * 136 <= 74 * 1 * 10 ^ 6.
Proof. apply (stream_bandwidth_covers 136 74 1); [by right; left|lia..]. Defined.

(** ** Reading a reservation *)

(** What is in front of the parser. *)
Lemma char_at_drop command i c t : drop i command = c :: t -> char_at command i = Ok c.
Proof. intros H. unfold char_at. by rewrite <- (Nat.add_0_r i), <- lookup_drop, H. Qed.

Lemma drop_next {A} (l : list A) i w t : drop i l = w ++ t -> drop (i + length w) l = t.
Proof. intros H. by rewrite <- drop_drop, H, drop_app_length. Qed.

Lemma drop_next1 {A} (l : list A) i c t : drop i l = c :: t -> drop (S i) l = t.
Proof. intros H. rewrite <- Nat.add_1_r. by apply (drop_next l i [c]). Qed.

Definition no_space (w : list Z) : Prop := Forall (fun c => c <> 32 /\ c <> 0) w.

Lemma copy_word_drop limit command i w c t :
  drop i command = w ++ c :: t -> no_space w -> c = 32 /\ (length w <= limit)%nat \/ length w = limit ->
  copy_word limit command i = Ok (w, (i + length w)%nat).
Proof.
  intros Hd Hw. revert limit i Hd. induction Hw as [|x w [Hx _] Hw IH]; intros limit i Hd Hc.
  - rewrite Nat.add_0_r. destruct limit; cbn [copy_word]; rewrite (char_at_drop _ _ _ _ Hd); cbn_outcome.
    + by destruct (c =? 32).
    + destruct Hc as [[-> _]|]; done.
  - destruct limit as [|limit]; [cbn in Hc; lia|]. cbn [copy_word]. rewrite (char_at_drop _ _ _ _ Hd). cbn_outcome.
    rewrite (proj2 (Z.eqb_neq _ _) Hx), (IH limit (S i)); cbn_outcome.
    + cbn [length]. do 2 f_equal. lia.
    + by apply drop_next1 in Hd.
    + cbn [length] in Hc. destruct Hc as [[-> ?]|?]; [left; lia|right; lia].
Qed.

Lemma cstr_word w : no_space w -> cstr w = w.
Proof. induction 1 as [|x w [_ Hx] _ IH]; [done|]. cbn [cstr]. by rewrite (proj2 (Z.eqb_neq _ _) Hx), IH. Qed.

(** The test for an option, at a known character. *)
Lemma on_char_at command i c t k f inp :
  drop i command = c :: t -> on_char k f command (i, inp) = if c =? k then f i inp else Ok (i, inp).
Proof. intros H. unfold on_char. cbn [fst snd]. by rewrite (char_at_drop _ _ _ _ H). Qed.

Lemma take_word_drop limit command set i inp x y w c t :
  drop i command = x :: y :: w ++ c :: t -> no_space w -> c = 32 /\ (length w <= limit)%nat \/ length w = limit ->
  take_word limit command set i inp = Ok ((i + 2 + length w)%nat, set w inp).
Proof.
  intros Hd Hw Hc. unfold take_word. rewrite (copy_word_drop limit command (i + 2) w c t); [cbn_outcome|by apply (drop_next command i [x; y])|done|done].
  by rewrite cstr_word.
Qed.

(** A number as it is printed. *)
Lemma fmt_d_number v : 0 < v < 2 ^ 31 -> no_space (fmt_d v) /\ atoi (fmt_d v) = v.
Proof.
  intros Hv. unfold fmt_d. rewrite (proj2 (Z.ltb_ge v 0)) by lia. destruct (digits_dec v) as (c&l&->&Hc&HF&He); [lia|].
  split; [eapply Forall_impl; [exact HF|]; unfold dec_char; intros; lia|].
  unfold atoi. rewrite skip_spaces_dense by lia. rewrite scan_sign_pos by lia. rewrite scan_digits_dec by auto. rewrite He.
  rewrite Z.min_r by lia. apply s32_small. lia.
Qed.

(** Skips the tests that do not apply at a known character. *)
Ltac pass H := rewrite (on_char_at _ _ _ _ _ _ _ H); cbn [Z.eqb Pos.eqb]; cbn_outcome.

Lemma parse_space command i t inp : drop i command = 45 :: t -> parse_options command (i, inp) = Ok (i, inp).
Proof. intros H. unfold parse_options. by repeat pass H. Qed.

Lemma parse_c command i k t inp :
  drop i command = 99 :: 32 :: k :: 32 :: t -> parse_options command (i, inp) = Ok ((i + 3)%nat, set_class k inp).
Proof.
  intros H. unfold parse_options. do 4 pass H. unfold take_class.
  rewrite (char_at_drop command (i + 2) k (32 :: t)) by (by apply (drop_next command i [99; 32])). cbn_outcome.
  pose proof (drop_next command i [99; 32; k] (32 :: t) H) as H'. cbn [length] in H'. by repeat pass H'.
Qed.

Lemma parse_number command i x y v t inp set :
  x = 115 /\ set = set_measurement_interval \/ x = 98 /\ set = set_max_frame_size \/ x = 102 /\ set = set_max_frame_interval ->
  0 < v < 2 ^ 31 -> drop i command = x :: y :: fmt_d v ++ 32 :: t ->
  parse_options command (i, inp) = Ok ((i + 2 + length (fmt_d v))%nat, set v inp).
Proof.
  intros Hx Hv H. destruct (fmt_d_number v Hv) as [Hw Ha]. pose proof (fmt_d_any v) as Hl.
  assert (Htake : forall set', take_number command set' i inp = Ok ((i + 2 + length (fmt_d v))%nat, set' v inp)).
  { intros set'. unfold take_number. rewrite (take_word_drop _ _ _ _ _ x y (fmt_d v) 32 t H Hw) by (left; split; [done|lia]). by rewrite Ha. }
  pose proof (drop_next command i [x; y] _ H) as H'. apply drop_next in H'. cbn [length] in H'.
  unfold parse_options. destruct Hx as [[-> ->]|[[-> ->]|[-> ->]]];
    repeat first [pass H|rewrite Htake; cbn_outcome]; by repeat pass H'.
Qed.

Lemma parse_ri command i dev t inp :
  drop i command = 114 :: 105 :: 32 :: dev ++ 32 :: t -> no_space dev -> (length dev < IFNAMSIZ)%nat ->
  parse_options command (i, inp) = Ok ((i + 3 + length dev)%nat, set_interface_in dev (set_reserve_bw inp)).
Proof.
  intros H Hw Hl. unfold parse_options. pass H.
  change (take_flag set_reserve_bw i inp) with (Ok (S i, set_reserve_bw inp)). cbn_outcome.
  pose proof (drop_next1 _ _ _ _ H) as H1. do 2 pass H1.
  rewrite (take_word_drop _ _ _ _ _ 105 32 dev 32 t H1 Hw) by (left; split; [done|unfold IFNAMSIZ in *; lia]). cbn_outcome.
  pose proof (drop_next command (S i) [105; 32] _ H1) as H2. apply drop_next in H2. cbn [length] in H2.
  repeat pass H2. do 2 f_equal. lia.
Qed.

Lemma parse_a command i addr t inp :
  drop i command = 97 :: 32 :: addr ++ 0 :: t -> no_space addr -> length addr = (STREAMDA_LENGTH - 1)%nat ->
  parse_options command (i, inp) = Ok ((i + 2 + length addr)%nat, set_stream_da addr inp).
Proof.
  intros H Hw Hl. unfold parse_options. do 8 pass H.
  rewrite (take_word_drop _ _ _ _ _ 97 32 addr 0 t H Hw) by (by right). cbn_outcome.
  pose proof (drop_next command i [97; 32] _ H) as H2. apply drop_next in H2. cbn [length] in H2. by repeat pass H2.
Qed.

(** A reservation as the usage text shows it. *)
Definition reservation (dev : list Z) (a : bool) (interval size frames : Z) (addr : list Z) : list Z :=
  str "-ri " ++ dev ++ str " -c " ++ (if a then 65 else 66) :: str " -s " ++ fmt_d interval ++ str " -b " ++ fmt_d size ++
  str " -f " ++ fmt_d frames ++ str " -a " ++ addr.

Lemma option_loop_step fuel command i c t inp p :
  drop i command = c :: t -> c <> 0 -> parse_options command (S i, inp) = Ok p ->
  option_loop (S fuel) command (i, inp) = option_loop fuel command p.
Proof.
  intros H Hc Hp. cbn [option_loop fst snd]. rewrite (char_at_drop _ _ _ _ H). cbn_outcome.
  rewrite (proj2 (Z.eqb_neq _ _) Hc). cbn [fst snd]. by rewrite Hp.
Qed.

Lemma option_loop_space fuel command i t inp :
  drop i command = 32 :: 45 :: t -> option_loop (S fuel) command (i, inp) = option_loop fuel command (S i, inp).
Proof.
  intros H. eapply option_loop_step; [exact H|done|]. eapply parse_space. exact (drop_next1 _ _ _ _ H).
Qed.

(** A number between two spaces, with the option in front. *)
Lemma option_loop_number fuel command i x v t inp set :
  x = 115 /\ set = set_measurement_interval \/ x = 98 /\ set = set_max_frame_size \/ x = 102 /\ set = set_max_frame_interval ->
  0 < v < 2 ^ 31 -> drop i command = 32 :: 45 :: x :: 32 :: fmt_d v ++ 32 :: t ->
  exists j, option_loop (S (S fuel)) command (i, inp) = option_loop fuel command (j, set v inp) /\ drop j command = 32 :: t.
Proof.
  intros Hx Hv H. rewrite (option_loop_space _ _ _ _ _ H). pose proof (drop_next1 _ _ _ _ H) as H1. pose proof (drop_next1 _ _ _ _ H1) as H2.
  rewrite (option_loop_step _ _ _ _ _ _ _ H1 ltac:(done) (parse_number _ _ _ _ _ _ _ _ Hx Hv H2)). eexists. split; [done|].
  apply (drop_next command (S (S i)) [x; 32]) in H2. cbn [length] in H2. by apply drop_next in H2.
Qed.

(** A reservation is read as the usage text shows it, for every interface name, both
    classes, all positive numbers of an int and every address of 17 characters, whatever
    follows the terminating zero. *)
Theorem usage_is_parsed dev a interval size frames addr rest :
  no_space dev -> (length dev < IFNAMSIZ)%nat -> no_space addr -> length addr = (STREAMDA_LENGTH - 1)%nat ->
  0 < interval < 2 ^ 31 -> 0 < size < 2 ^ 31 -> 0 < frames < 2 ^ 31 ->
  parse_cmd (reservation dev a interval size frames addr ++ 0 :: rest) =
    Ok (mkCmdIp true false dev a (negb a) interval size frames addr false false).
Proof.
  intros Hdev Hld Haddr Hla Hi Hs Hf. set (command := reservation _ _ _ _ _ _ ++ 0 :: rest).
  set (tail := 97 :: 32 :: addr ++ 0 :: rest).
  assert (H0 : drop 0 command = 45 :: 114 :: 105 :: 32 :: dev ++ 32 :: 45 :: 99 :: 32 :: (if a then 65 else 66) :: 32 :: 45 :: 115 :: 32 ::
    fmt_d interval ++ 32 :: 45 :: 98 :: 32 :: fmt_d size ++ 32 :: 45 :: 102 :: 32 :: fmt_d frames ++ 32 :: 45 :: tail).
  { unfold command, reservation, tail. rewrite drop_0. repeat (rewrite <- ?app_assoc; cbn [app str]). done. }
  assert (Hfuel : exists f, S (length command) = (12 + f)%nat).
  { exists (length command - 11)%nat. assert (11 <= length command)%nat; [|lia]. rewrite <- (drop_0 command), H0.
    cbn [length]. rewrite length_app. cbn [length]. lia. }
  destruct Hfuel as [f Hfuel]. unfold parse_cmd. rewrite Hfuel. cbn [Nat.add].
  pose proof (drop_next1 _ _ _ _ H0) as H1.
  rewrite (option_loop_step _ _ _ _ _ _ _ H0 ltac:(done) (parse_ri _ _ _ _ _ H1 Hdev Hld)).
  apply (drop_next command 1 [114; 105; 32]) in H1. cbn [length] in H1. apply drop_next in H1.
  rewrite (option_loop_space _ _ _ _ _ H1). apply drop_next1 in H1. pose proof (drop_next1 _ _ _ _ H1) as H2.
  rewrite (option_loop_step _ _ _ _ _ _ _ H1 ltac:(done) (parse_c _ _ _ _ _ H2)).
  apply (drop_next command _ [99; 32; _]) in H2. cbn [length] in H2.
  edestruct (option_loop_number) as (j3&->&H3); [by left|exact Hi|exact H2|].
  edestruct (option_loop_number) as (j4&->&H4); [by right; left|exact Hs|exact H3|].
  edestruct (option_loop_number) as (j5&->&H5); [by right; right|exact Hf|exact H4|].
  rewrite (option_loop_space _ _ _ _ _ H5). apply drop_next1 in H5. pose proof (drop_next1 _ _ _ _ H5) as H6. unfold tail in H6.
  rewrite (option_loop_step _ _ _ _ _ _ _ H5 ltac:(done) (parse_a _ _ _ _ _ H6 Haddr Hla)).
  apply (drop_next command _ [97; 32]) in H6. cbn [length] in H6. apply drop_next in H6.
  cbn [option_loop fst snd]. rewrite (char_at_drop _ _ _ _ H6). cbn_outcome. by destruct a.
Qed.

Lemma usage_is_parsed_witness :
  parse_cmd (reservation (str "eth2") true 125 74 1 (str "ff:ff:ff:ff:ff:11") ++ [0]) =
    Ok (mkCmdIp true false (str "eth2") true false 125 74 1 (str "ff:ff:ff:ff:ff:11") false false).
Proof.
  apply (usage_is_parsed (str "eth2") true 125 74 1 (str "ff:ff:ff:ff:ff:11") []); try lia; try reflexivity.
  - repeat (apply Forall_cons_2; [split; discriminate|]). apply Forall_nil_2.
  - apply Nat.ltb_lt. reflexivity.
  - repeat (apply Forall_cons_2; [split; discriminate|]). apply Forall_nil_2.
Defined.

(** ** Errors *)

(** The texts, in the order of the checks. *)
Inductive refusal (input : cmd_ip) : list Z -> Prop :=
  | refuse_both : reserve_bw input = true -> unreserve_bw input = true ->
      refusal input (str "Cannot reserve and unreserve bandwidth at the same time")
  | refuse_incomplete : reserve_bw input = true -> unreserve_bw input = false ->
      max_frame_size input = 0 \/ measurement_interval input = 0 \/ max_frame_interval input = 0 \/
        (class_a input = false /\ class_b input = false) ->
      refusal input (str "class, max_frame_size, measurement_interval and max_frame_interval are mandatory inputs")
  | refuse_classes : reserve_bw input = true -> unreserve_bw input = false ->
      max_frame_size input <> 0 -> measurement_interval input <> 0 -> max_frame_interval input <> 0 ->
      class_a input = true -> class_b input = true ->
      refusal input (str "Cannot reserve for both class A and class B")
  | refuse_end : quit input = true \/ delete_qdisc input = true ->
      unreserve_bw input = true /\ reserve_bw input = false \/
      reserve_bw input = true /\ unreserve_bw input = false /\ max_frame_size input <> 0 /\ measurement_interval input <> 0 /\
        max_frame_interval input <> 0 /\ class_a input <> class_b input ->
      refusal input (str "Quit or Delete cannot be used with other commands").

Lemma check_input_refusal input text : check_input input = Some text -> refusal input text.
Proof.
  unfold check_input, incomplete. destruct (reserve_bw input) eqn:Hr, (unreserve_bw input) eqn:Hu; cbn [andb orb].
  - intros [= <-]. by apply refuse_both.
  - destruct (Z.eqb_spec (max_frame_size input) 0); [intros [= <-]; apply refuse_incomplete; tauto|].
    destruct (Z.eqb_spec (measurement_interval input) 0); [intros [= <-]; apply refuse_incomplete; tauto|].
    destruct (Z.eqb_spec (max_frame_interval input) 0); [intros [= <-]; apply refuse_incomplete; tauto|].
    destruct (class_a input) eqn:Ha, (class_b input) eqn:Hb; cbn [andb orb negb];
      [intros [= <-]; by apply refuse_classes| | |intros [= <-]; apply refuse_incomplete; tauto];
      (destruct (quit input || delete_qdisc input) eqn:Hq; [|done]; intros [= <-]; apply orb_true_iff in Hq;
       apply refuse_end; [done|]; right; split_and!; congruence).
  - destruct (quit input || delete_qdisc input) eqn:Hq; [|done]. intros [= <-]. apply orb_true_iff in Hq. apply refuse_end; tauto.
  - by rewrite andb_false_r.
Qed.

(** What the sender of a command is told about an error, and what is logged. *)
Definition answer (fd : Z) (text : list Z) : list shaper_output :=
  let usage := List.concat (map (fun l => l ++ [10]) usage_lines) in
  if fd <? 0 then [LogError text; PrintOut usage]
  else [LogError (str "Client " ++ fmt_d fd ++ str ": " ++ text); SendTo fd (str "ERROR: " ++ text ++ [10]); SendTo fd usage].

(** C33: an erroneous command changes nothing.  Whenever the options contradict each other
    (a reservation and a withdrawal, two classes, an end and something else) or a
    reservation lacks its class, size, interval or number of frames, the tables stay as
    they are, nothing is run, and the one who sent the command receives the text for the
    first of these errors and the usage text, and nothing else. *)
Theorem shaper_rejects_errors E fd input s :
  contradictory input ->
  exists text, refusal input text /\ process_input E fd input s = Ok (Some (-1), record_outputs (answer fd text) s).
Proof.
  intros [text Hck]%check_input_contradictory. exists text. split; [by apply check_input_refusal|].
  pose proof (check_input_short _ _ Hck) as Hl. pose proof (fmt_d_any fd) as Hfd.
  unfold process_input. rewrite Hck.
  unfold reject, log_client_error_message, usage, answer. exec. unfold lift. rewrite sprintf_Ok by done. destruct (fd <? 0).
  - by destruct s; cbn [record_outputs]; rewrite <- app_assoc.
  - rewrite !sprintf_Ok by (rewrite ?length_app; cbn [length str]; lia). destruct s. cbn [record_outputs]. by rewrite <- !app_assoc.
Qed.

Lemma shaper_rejects_errors_witness :
  exists text, refusal (set_unreserve_bw (set_quit no_inputs)) text /\
    process_input all_well 6 (set_unreserve_bw (set_quit no_inputs)) shaper_0 = Ok (Some (-1), record_outputs (answer 6 text) shaper_0).
Proof.
  exact (shaper_rejects_errors all_well 6 (set_unreserve_bw (set_quit no_inputs)) shaper_0
    (end_and_unreserve (set_unreserve_bw (set_quit no_inputs)) (or_introl eq_refl) eq_refl)).
Defined.

(** ** Defects *)

(** A command without reservation that names the interface first: the root queue is added,
    and added again by the next command. *)
Definition root_twice : list (Z * list Z) :=
  [(-1, str "-i eth2 " ++ [0]); (-1, str "-ri eth2 -c A -s 125 -b 74 -f 1 -a ff:ff:ff:ff:ff:11" ++ [0])].

Theorem shaper_adds_root_twice :
  exists s, process_commands all_well root_twice shaper_0 = Ok (tt, s) /\ enters (systems (done_ s)) ledger_0 = None.
Proof. eexists. split; [vm_compute; reflexivity|]. reflexivity. Qed.

(** The filter of a stream cannot be deleted (the sixth command line): the stream stays,
    but each attempt takes its bandwidth away again. *)
Definition stuck_filter : ShaperEnv := mkShaperEnv (fun n => negb (n =? 5)%nat) (fun _ => true).

Definition withdrawn_twice : list (Z * list Z) :=
  [(-1, str "-ri eth2 -c A -s 125 -b 74 -f 1 -a ff:ff:ff:ff:ff:11" ++ [0]);
   (-1, str "-ua ff:ff:ff:ff:ff:11" ++ [0]); (-1, str "-ua ff:ff:ff:ff:ff:11" ++ [0])].

Theorem shaper_withdraws_twice :
  exists s, process_commands stuck_filter withdrawn_twice shaper_0 = Ok (tt, s) /\ streams s = [] /\ class_bw s A_48 = - 592000.
Proof. eexists. split; [vm_compute; reflexivity|]. by split. Qed.

(** An option without its value at the end of a full line is read behind the buffer. *)
Theorem shaper_reads_behind_buffer : parse_cmd (replicate 97 32 ++ str "-a" ++ [0]) = Fault OutOfBounds.
Proof. reflexivity. Qed.
