(* ===== verification/AvtpTime.v ===== *)
(** * Presentation times

    lib/avtp_pipeline/avtp/openavb_avtp_time.c with the wall clock of
    platform/Linux/openavb_time_osal.c.  An [avtp_time_t *] is an [option]; the answer of
    the clock is an argument, [None] when it cannot be read.  [long] has 64 bits. *)

From S2P Require Import Prelude.

Open Scope Z_scope.

(** ** The structure and the clock *)

Record avtp_time_t : Type := mkAvtpTime {
  timeNsec : Z;
  maxLatencyNsec : Z;
  bTimestampValid : bool;
  bTimestampUncertain : bool
}.

#[global] Instance avtp_time_eq_dec : EqDecision avtp_time_t.
Proof. solve_decision. Defined.

Definition NANOSECONDS_PER_SECOND : Z := 1000000000.
Definition NANOSECONDS_PER_USEC : Z := 1000.
Definition MICROSECONDS_PER_SECOND : Z := 1000000.
Definition OPENAVB_AVTP_TIME_MAX_TS_DIFF : Z := 2147483647.

Record timespec : Type := mkTimespec { tv_sec : Z; tv_nsec : Z }.

(** The wall clock as [osalClockGettime] answers it: the nanoseconds of gPTP, split. *)
Definition osalClockGettime (ptp : option Z) : option timespec :=
  match ptp with
  | None => None
  | Some ns => Some (mkTimespec (ns / NANOSECONDS_PER_SECOND) (ns mod NANOSECONDS_PER_SECOND))
  end.

Definition x_getNsTime (tm : timespec) : Z :=
  u64 (u64 (u64 (tv_sec tm) * NANOSECONDS_PER_SECOND) + u64 (tv_nsec tm)).

Definition x_getTimestamp (ns : Z) : Z := u32 (Z.land ns 4294967295).

(** ** Setting *)

Definition set_time (ns : Z) (t : avtp_time_t) : avtp_time_t :=
  mkAvtpTime ns (maxLatencyNsec t) (bTimestampValid t) (bTimestampUncertain t).
Definition set_flags (valid uncertain : bool) (t : avtp_time_t) : avtp_time_t :=
  mkAvtpTime (timeNsec t) (maxLatencyNsec t) valid uncertain.

(** [alloc]: whether [calloc] succeeds. *)
Definition openavbAvtpTimeCreate (alloc : bool) (maxLatencyUsec : Z) : option avtp_time_t :=
  if alloc then Some (mkAvtpTime 0 (u64 (maxLatencyUsec * NANOSECONDS_PER_USEC)) false false) else None.

Definition openavbAvtpTimeAddUSec (p : option avtp_time_t) (uSec : Z) : option avtp_time_t :=
  (fun t => set_time (u64 (timeNsec t + uSec * NANOSECONDS_PER_USEC)) t) <$> p.
Definition openavbAvtpTimeAddNSec (p : option avtp_time_t) (nSec : Z) : option avtp_time_t :=
  (fun t => set_time (u64 (timeNsec t + nSec)) t) <$> p.
Definition openavbAvtpTimeSubUSec (p : option avtp_time_t) (uSec : Z) : option avtp_time_t :=
  (fun t => set_time (u64 (timeNsec t - uSec * NANOSECONDS_PER_USEC)) t) <$> p.
Definition openavbAvtpTimeSubNSec (p : option avtp_time_t) (nSec : Z) : option avtp_time_t :=
  (fun t => set_time (u64 (timeNsec t - nSec)) t) <$> p.

Definition openavbAvtpTimeSetToWallTime (ptp : option Z) (p : option avtp_time_t) : option avtp_time_t :=
  (fun t =>
    match osalClockGettime ptp with
    | Some tmNow => set_flags true false (set_time (x_getNsTime tmNow) t)
    | None => set_flags false false t
    end) <$> p.

(** The system clock fills in a structure that is zero before. *)
Definition openavbAvtpTimeSetToSystemTime (realtime : option timespec) (p : option avtp_time_t) : option avtp_time_t :=
  (fun t =>
    let tmNow := default (mkTimespec 0 0) realtime in
    set_flags (negb (tv_sec tmNow =? 0) || negb (tv_nsec tmNow =? 0)) false (set_time (x_getNsTime tmNow) t)) <$> p.

Definition openavbAvtpTimeSetToTimestamp (ptp : option Z) (p : option avtp_time_t) (timestamp : Z) : option avtp_time_t :=
  (fun t =>
    match osalClockGettime ptp with
    | Some tmNow =>
        let nsNow := x_getNsTime tmNow in
        let tsNow := x_getTimestamp nsNow in
        let delta :=
          if tsNow <? timestamp then u32 (timestamp - tsNow)
          else if timestamp <? tsNow then u32 (u64 (timestamp + u64 (4294967296 - tsNow)))
          else 0 in
        let time :=
          if delta <? OPENAVB_AVTP_TIME_MAX_TS_DIFF then u64 (nsNow + delta)
          else u64 (nsNow - u64 (4294967296 - delta)) in
        set_flags true false (set_time time t)
    | None => set_flags false true t
    end) <$> p.

Definition openavbAvtpTimeSetToTimestampNS (p : option avtp_time_t) (timeNS : Z) : option avtp_time_t :=
  (fun t => set_flags true false (set_time timeNS t)) <$> p.

Definition openavbAvtpTimeSetToTimespec (p : option avtp_time_t) (timestamp : timespec) : option avtp_time_t :=
  (fun t =>
    if (tv_sec timestamp =? 0) && (tv_nsec timestamp =? 0) then set_flags false true t
    else set_flags true false (set_time (x_getNsTime timestamp) t)) <$> p.

Definition openavbAvtpTimeSetTimestampValid (p : option avtp_time_t) (validFlag : bool) : option avtp_time_t :=
  (fun t => set_flags validFlag (bTimestampUncertain t) t) <$> p.
Definition openavbAvtpTimeSetTimestampUncertain (p : option avtp_time_t) (uncertainFlag : bool) : option avtp_time_t :=
  (fun t => set_flags (bTimestampValid t) uncertainFlag t) <$> p.

(** ** Asking *)

Definition openavbAvtpTimeGetAvtpTimestamp (p : option avtp_time_t) : Z :=
  match p with Some t => x_getTimestamp (timeNsec t) | None => 0 end.
Definition openavbAvtpTimeGetAvtpTimeNS (p : option avtp_time_t) : Z :=
  match p with Some t => timeNsec t | None => 0 end.
Definition openavbAvtpTimeTimestampIsValid (p : option avtp_time_t) : bool :=
  match p with Some t => bTimestampValid t | None => false end.
Definition openavbAvtpTimeTimestampIsUncertain (p : option avtp_time_t) : bool :=
  match p with Some t => bTimestampUncertain t | None => true end.

(** Only a timestamp that is valid and certain is compared with a clock. *)
Definition trusted (t : avtp_time_t) : bool := bTimestampValid t && negb (bTimestampUncertain t).

Definition openavbAvtpTimeIsPastTime (p : option avtp_time_t) (nSecTime : Z) : bool :=
  match p with
  | None => true
  | Some t =>
      if negb (bTimestampValid t) || bTimestampUncertain t then true
      else if timeNsec t <=? nSecTime then true
      else if u64 (nSecTime + maxLatencyNsec t) <? timeNsec t then true
      else false
  end.

Definition openavbAvtpTimeIsPast (ptp : option Z) (p : option avtp_time_t) : bool :=
  match p with
  | None => true
  | Some t =>
      if negb (bTimestampValid t) || bTimestampUncertain t then true
      else
        match osalClockGettime ptp with
        | None => true
        | Some tmNow =>
            let nsNow := x_getNsTime tmNow in
            if timeNsec t <=? nsNow then true
            else if u64 (nsNow + maxLatencyNsec t) <? timeNsec t then true
            else false
        end
  end.

(** [Some v] when the function returns TRUE and has written [v]. *)
Definition openavbAvtpTimeUsecTill (ptp : option Z) (p : option avtp_time_t) : option Z :=
  match p with
  | None => None
  | Some t =>
      if trusted t then
        match osalClockGettime ptp with
        | Some tmNow =>
            let nsNow := x_getNsTime tmNow in
            if nsNow <=? timeNsec t then
              let usecTill := u32 (u64 (timeNsec t - nsNow) / NANOSECONDS_PER_USEC) in
              if usecTill <=? MICROSECONDS_PER_SECOND * 5 then Some usecTill else None
            else Some 0
        | None => Some 0
        end
      else Some 0
  end.

(** Conversion to a 64-bit [long], as two's complement compilers do it. *)
Definition s64 (x : Z) : Z := (x + 2 ^ 63) mod 2 ^ 64 - 2 ^ 63.

Definition openavbAvtpTimeUsecDelta (ptp : option Z) (p : option avtp_time_t) : Z :=
  match p with
  | None => 0
  | Some t =>
      if trusted t then
        match osalClockGettime ptp with
        | Some tmNow => s32 (Z.quot (s64 (u64 (timeNsec t - x_getNsTime tmNow))) NANOSECONDS_PER_USEC)
        | None => 0
        end
      else 0
  end.

(** ** Lemmas *)

Definition is_avtp_time (t : avtp_time_t) : Prop := is_u64 (timeNsec t) /\ is_u64 (maxLatencyNsec t).

Lemma x_getNsTime_clock ns : is_u64 ns ->
  exists tm, osalClockGettime (Some ns) = Some tm /\ x_getNsTime tm = ns.
Proof.
  intros Hns. eexists; split; [done|]. unfold x_getNsTime, NANOSECONDS_PER_SECOND, is_u64 in *. cbn [tv_sec tv_nsec].
  pose proof (Z.div_mod ns 1000000000 ltac:(lia)). assert (0 <= ns / 1000000000 < 2 ^ 64) by (split; [apply Z.div_pos|apply Z.div_lt_upper_bound]; lia). pose proof (Z.mod_pos_bound ns 1000000000 ltac:(lia)).
  rewrite (u64_small (ns / _)), (u64_small (ns mod _)) by (unfold is_u64; lia).
  rewrite (u64_small (_ * _)) by (unfold is_u64; lia). rewrite u64_small; unfold is_u64; lia.
Qed.

Lemma x_getTimestamp_mod ns : x_getTimestamp ns = ns mod 2 ^ 32.
Proof.
  unfold x_getTimestamp. rewrite (land_mask ns 32 4294967295) by (reflexivity || lia).
  apply u32_small, Z.mod_pos_bound. lia.
Qed.

Lemma is_past_reading ns p : is_u64 ns -> openavbAvtpTimeIsPast (Some ns) p = openavbAvtpTimeIsPastTime p ns.
Proof.
  intros Hns. destruct (x_getNsTime_clock ns Hns) as (tm & E & Htm). unfold openavbAvtpTimeIsPast, openavbAvtpTimeIsPastTime.
  destruct p; [|done]. rewrite E. cbv zeta. by rewrite Htm.
Qed.

(** The distance [SetToTimestamp] computes is the difference of the timestamps modulo 2^32. *)
Definition ts_delta (now timestamp : Z) : Z := (timestamp - now) mod 2 ^ 32.

Lemma set_to_timestamp_delta ns t timestamp : is_u64 ns -> is_u32 timestamp ->
  openavbAvtpTimeSetToTimestamp (Some ns) (Some t) timestamp =
  Some (mkAvtpTime
    (u64 (if ts_delta ns timestamp <? OPENAVB_AVTP_TIME_MAX_TS_DIFF then ns + ts_delta ns timestamp
          else ns - (4294967296 - ts_delta ns timestamp)))
    (maxLatencyNsec t) true false).
Proof.
  intros Hns Hts. destruct (x_getNsTime_clock ns Hns) as (tm & E & Htm). unfold openavbAvtpTimeSetToTimestamp.
  cbn [fmap option_fmap option_map]. rewrite E. cbv zeta. rewrite Htm, x_getTimestamp_mod.
  set (d := (if (ns mod 2 ^ 32 <? timestamp) then _ else _ : Z)).
  assert (Hd : d = ts_delta ns timestamp).
  { subst d. unfold ts_delta, is_u32, is_u64, u32, u64 in *.
    rewrite <- (Zminus_mod_idemp_r timestamp ns). pose proof (Z.mod_pos_bound ns (2 ^ 32) ltac:(lia)).
    destruct (Z.ltb_spec (ns mod 2 ^ 32) timestamp) as [H1|H1]; [done|].
    destruct (Z.ltb_spec timestamp (ns mod 2 ^ 32)) as [H2|H2].
    - rewrite (Z.mod_small (4294967296 - _)), (Z.mod_small (timestamp + _)) by lia.
      replace (timestamp + (4294967296 - ns mod 2 ^ 32)) with (timestamp - ns mod 2 ^ 32 + 1 * 2 ^ 32) by lia.
      by rewrite Z.mod_add by lia.
    - replace (timestamp - ns mod 2 ^ 32) with 0 by lia. done. }
  rewrite Hd. clear d Hd. pose proof (Z.mod_pos_bound (timestamp - ns) (2 ^ 32) ltac:(lia)) as Hb.
  unfold set_flags, set_time. cbn. do 2 f_equal. case (ts_delta ns timestamp <? OPENAVB_AVTP_TIME_MAX_TS_DIFF); [done|].
  f_equal. fold (ts_delta ns timestamp) in Hb. rewrite (u64_small (4294967296 - _)); [done|]. unfold is_u64. lia.
Qed.
