(* ===== verification/MediaQ.v ===== *)
(** * The media queue

    lib/avtp_pipeline/mediaq/openavb_mediaq.c: the circular queue of preallocated items
    between the interface modules and the mapping modules.  A pointer to an item is its
    index in the array; [head] and [tail] are called [q_head] and [q_tail].  One thread makes
    all calls: a mutex that it already holds blocks it for ever. *)

From S2P Require Import Prelude AvtpTime.

Open Scope Z_scope.
Local Abbreviation length := List.length.
Local Abbreviation get := Prelude.get.

(** ** Data *)

Record media_q_item_t : Type := mkItem {
  pAvtpTime : option avtp_time_t;
  pPubData : option (list Z);
  readIdx : Z;
  dataLen : Z;
  it_itemSize : Z;
  taken : bool;
  pPubMapData : option (list Z);
  pPvtMapData : option (list Z);
  pPvtIntfData : option (list Z)
}.

(** [pItems] is empty while the pointer is null. *)
Record media_q_info_t : Type := mkInfo {
  itemCount : Z;
  itemSize : Z;
  pItems : list media_q_item_t;
  q_head : Z;
  headLocked : bool;
  q_tail : Z;
  tailLocked : bool;
  maxLatencyUsec : Z;
  threadSafeOn : bool;
  maxStaleTailUsec : Z
}.

(** What modules attach to a queue is not used by its operations; deleting frees it. *)
Inductive mediaq_ptr : Type :=
  | NoQueue
  | Queue (pPvtMediaQInfo : option media_q_info_t)
  | FreedQueue.

(** [mutex_held] tells whether [gMediaQMutex] is locked, [clock_reads] counts the readings of the wall clock; [orphans] are the items that
    [openavbMediaQDelete] leaves allocated. *)
Record mq_world : Type := mkMqWorld {
  pMediaQ : mediaq_ptr;
  mutex_held : bool;
  clock_reads : nat;
  orphans : list media_q_item_t
}.

Definition set_readIdx (x : Z) (it : media_q_item_t) : media_q_item_t :=
  mkItem (pAvtpTime it) (pPubData it) x (dataLen it) (it_itemSize it) (taken it)
    (pPubMapData it) (pPvtMapData it) (pPvtIntfData it).
Definition set_dataLen (x : Z) (it : media_q_item_t) : media_q_item_t :=
  mkItem (pAvtpTime it) (pPubData it) (readIdx it) x (it_itemSize it) (taken it)
    (pPubMapData it) (pPvtMapData it) (pPvtIntfData it).
Definition set_taken (x : bool) (it : media_q_item_t) : media_q_item_t :=
  mkItem (pAvtpTime it) (pPubData it) (readIdx it) (dataLen it) (it_itemSize it) x
    (pPubMapData it) (pPvtMapData it) (pPvtIntfData it).
Definition set_pub_map (x : option (list Z)) (it : media_q_item_t) : media_q_item_t :=
  mkItem (pAvtpTime it) (pPubData it) (readIdx it) (dataLen it) (it_itemSize it) (taken it)
    x (pPvtMapData it) (pPvtIntfData it).
Definition set_pvt_map (x : option (list Z)) (it : media_q_item_t) : media_q_item_t :=
  mkItem (pAvtpTime it) (pPubData it) (readIdx it) (dataLen it) (it_itemSize it) (taken it)
    (pPubMapData it) x (pPvtIntfData it).
Definition set_pvt_intf (x : option (list Z)) (it : media_q_item_t) : media_q_item_t :=
  mkItem (pAvtpTime it) (pPubData it) (readIdx it) (dataLen it) (it_itemSize it) (taken it)
    (pPubMapData it) (pPvtMapData it) x.

Definition set_items (l : list media_q_item_t) (i : media_q_info_t) : media_q_info_t :=
  mkInfo (itemCount i) (itemSize i) l (q_head i) (headLocked i) (q_tail i) (tailLocked i)
    (maxLatencyUsec i) (threadSafeOn i) (maxStaleTailUsec i).
Definition set_sizes (count size : Z) (i : media_q_info_t) : media_q_info_t :=
  mkInfo count size (pItems i) (q_head i) (headLocked i) (q_tail i) (tailLocked i)
    (maxLatencyUsec i) (threadSafeOn i) (maxStaleTailUsec i).
Definition set_q_head (h : Z) (i : media_q_info_t) : media_q_info_t :=
  mkInfo (itemCount i) (itemSize i) (pItems i) h (headLocked i) (q_tail i) (tailLocked i)
    (maxLatencyUsec i) (threadSafeOn i) (maxStaleTailUsec i).
Definition set_q_tail (t : Z) (i : media_q_info_t) : media_q_info_t :=
  mkInfo (itemCount i) (itemSize i) (pItems i) (q_head i) (headLocked i) t (tailLocked i)
    (maxLatencyUsec i) (threadSafeOn i) (maxStaleTailUsec i).
Definition set_headLocked (b : bool) (i : media_q_info_t) : media_q_info_t :=
  mkInfo (itemCount i) (itemSize i) (pItems i) (q_head i) b (q_tail i) (tailLocked i)
    (maxLatencyUsec i) (threadSafeOn i) (maxStaleTailUsec i).
Definition set_tailLocked (b : bool) (i : media_q_info_t) : media_q_info_t :=
  mkInfo (itemCount i) (itemSize i) (pItems i) (q_head i) (headLocked i) (q_tail i) b
    (maxLatencyUsec i) (threadSafeOn i) (maxStaleTailUsec i).
Definition set_options (latency : Z) (safe : bool) (stale : Z) (i : media_q_info_t) : media_q_info_t :=
  mkInfo (itemCount i) (itemSize i) (pItems i) (q_head i) (headLocked i) (q_tail i) (tailLocked i)
    latency safe stale.

(** ** Access to the items *)

Definition item_at (l : list media_q_item_t) (k : Z) : outcome media_q_item_t :=
  if k <? 0 then Fault OutOfBounds
  else match l !! Z.to_nat k with Some it => Ok it | None => Fault OutOfBounds end.

Definition update_item (k : Z) (f : media_q_item_t -> media_q_item_t) (i : media_q_info_t) : outcome media_q_info_t :=
  it ← item_at (pItems i) k; Ok (set_items (<[Z.to_nat k := f it]> (pItems i)) i).

(** The index after [k] in the circle. *)
Definition next_index (count k : Z) : Z := if count <=? k + 1 then 0 else k + 1.

(** [fuel] bounds the rounds of the loop: each moves the index, and a round trip is enough
    (see MediaQSafe.v). *)
Fixpoint x_IncrementHead (fuel : nat) (startingHead : Z) (i : media_q_info_t) : outcome media_q_info_t :=
  match fuel with
  | O => Fault FuelExhausted
  | S fuel =>
      if q_head i + 1 =? startingHead then Ok (set_q_head (-1) i)
      else
        let h := next_index (itemCount i) (q_head i) in
        if h =? q_tail i then Ok (set_q_head (-1) i)
        else
          it ← item_at (pItems i) h;
          if negb (taken it) then Ok (set_q_head h i)
          else x_IncrementHead fuel startingHead (set_q_head h i)
  end.

Fixpoint x_IncrementTail (fuel : nat) (startingTail : Z) (i : media_q_info_t) : outcome media_q_info_t :=
  match fuel with
  | O => Fault FuelExhausted
  | S fuel =>
      if q_tail i + 1 =? startingTail then Ok (set_q_tail (-1) i)
      else
        let t := next_index (itemCount i) (q_tail i) in
        if t =? q_head i then Ok (set_q_tail (-1) i)
        else
          it ← item_at (pItems i) t;
          if negb (taken it) then Ok (set_q_tail t i)
          else x_IncrementTail fuel startingTail (set_q_tail t i)
  end.

Definition circle (i : media_q_info_t) : nat := S (Z.to_nat (itemCount i)).

Definition x_openavbMediaQIncrementHead (i : media_q_info_t) : outcome media_q_info_t :=
  x_IncrementHead (circle i) (q_head i) i.
Definition x_openavbMediaQIncrementTail (i : media_q_info_t) : outcome media_q_info_t :=
  x_IncrementTail (circle i) (q_tail i) i.

(** ** The state *)

Definition set_info (i : media_q_info_t) : M mq_world unit :=
  modify (fun w => mkMqWorld (Queue (Some i)) (mutex_held w) (clock_reads w) (orphans w)).

(** [if (pMediaQ) if (pMediaQ->pPvtMediaQInfo)]: without the structure the answer is [d]. *)
Definition with_info {A} (d : A) (f : media_q_info_t -> M mq_world A) : M mq_world A :=
  w ← get;
  match pMediaQ w with
  | NoQueue | Queue None => mret d
  | Queue (Some i) => f i
  | FreedQueue => raise WildPointer
  end.

(** A default mutex of POSIX, for one thread that makes all the calls: locking it twice
    waits for ever, and unlocking it while it is not locked is undefined. *)
Definition set_q_mutex (held : bool) (w : mq_world) : mq_world := mkMqWorld (pMediaQ w) held (clock_reads w) (orphans w).

Definition MEDIAQ_LOCK : M mq_world unit :=
  w ← get; if mutex_held w then raise Deadlock else put (set_q_mutex true w).
Definition MEDIAQ_UNLOCK : M mq_world unit :=
  w ← get; if mutex_held w then put (set_q_mutex false w) else raise MutexNotHeld.
Definition lock_if_safe (i : media_q_info_t) : M mq_world unit :=
  if threadSafeOn i then MEDIAQ_LOCK else mret tt.
Definition unlock_if_safe (i : media_q_info_t) : M mq_world unit :=
  if threadSafeOn i then MEDIAQ_UNLOCK else mret tt.

(** ** Creating and deleting *)

Definition fresh_info : media_q_info_t := mkInfo 0 0 [] 0 false (-1) false 0 false MICROSECONDS_PER_SECOND.

(** Whether the two calls of [calloc] succeed. *)
Definition openavbMediaQCreate (alloc_queue alloc_info : bool) : mediaq_ptr :=
  if alloc_queue then if alloc_info then Queue (Some fresh_info) else NoQueue else NoQueue.

Definition openavbMediaQThreadSafeOn : M mq_world unit :=
  with_info tt (fun i => set_info (set_options (maxLatencyUsec i) true (maxStaleTailUsec i) i)).

Definition blank_item : media_q_item_t := mkItem None None 0 0 0 false None None None.

(** The loop over the array of [openavbMediaQSetSize]: [alloc_time] and [alloc_data] tell
    for each item which allocations succeed; the rest stays blank after a failure. *)
Fixpoint init_items (alloc_time alloc_data : nat -> bool) (latency size : Z) (k n : nat) : bool * list media_q_item_t :=
  match n with
  | O => (true, [])
  | S n =>
      let it := mkItem (openavbAvtpTimeCreate (alloc_time k) latency)
        (if alloc_data k then Some (replicate (Z.to_nat (size + 4)) 0) else None) 0 0 size false None None None in
      if alloc_data k then
        let '(ok, l) := init_items alloc_time alloc_data latency size (S k) n in (ok, it :: l)
      else (false, it :: replicate n blank_item)
  end.

Definition openavbMediaQSetSize (alloc_items : bool) (alloc_time alloc_data : nat -> bool) (count size : Z) : M mq_world bool :=
  if (count <? 1) || (size <? 1) then
    mret false
  else
    with_info false (fun i =>
      match pItems i with
      | [] =>
          if alloc_items then
            let '(ok, l) := init_items alloc_time alloc_data (maxLatencyUsec i) size 0 (Z.to_nat count) in
            set_info (set_sizes count size (set_items l i));; mret ok
          else mret false
      | _ :: _ => mret (negb (negb (count =? itemCount i) || negb (size =? itemSize i)))
      end).

(** Extra memory for one item: [None] when the call has to return FALSE. *)
Definition alloc_extra (alloc : bool) (size : Z) (cur : option (list Z)) : option (option (list Z)) :=
  match cur with
  | Some _ => None
  | None => if alloc then Some (Some (replicate (Z.to_nat size) 0)) else None
  end.

Fixpoint alloc_map_data (alloc_pub alloc_pvt : nat -> bool) (pub pvt : Z) (k : nat) (l : list media_q_item_t) : bool * list media_q_item_t :=
  match l with
  | [] => (true, [])
  | it :: l =>
      match (if negb (pub =? 0) then alloc_extra (alloc_pub k) pub (pPubMapData it) else Some (pPubMapData it)) with
      | None => (false, it :: l)
      | Some m =>
          let it := set_pub_map m it in
          match (if negb (pvt =? 0) then alloc_extra (alloc_pvt k) pvt (pPvtMapData it) else Some (pPvtMapData it)) with
          | None => (false, it :: l)
          | Some m =>
              let '(ok, l) := alloc_map_data alloc_pub alloc_pvt pub pvt (S k) l in
              (ok, set_pvt_map m it :: l)
          end
      end
  end.

Definition openavbMediaQAllocItemMapData (alloc_pub alloc_pvt : nat -> bool) (pub pvt : Z) : M mq_world bool :=
  with_info false (fun i =>
    match pItems i with
    | [] => mret false
    | l =>
        let '(ok, l) := alloc_map_data alloc_pub alloc_pvt pub pvt 0 l in
        set_info (set_items l i);; mret ok
    end).

Fixpoint alloc_intf_data (alloc : nat -> bool) (size : Z) (k : nat) (l : list media_q_item_t) : bool * list media_q_item_t :=
  match l with
  | [] => (true, [])
  | it :: l =>
      match alloc_extra (alloc k) size (pPvtIntfData it) with
      | None => (false, it :: l)
      | Some m => let '(ok, l) := alloc_intf_data alloc size (S k) l in (ok, set_pvt_intf m it :: l)
      end
  end.

Definition openavbMediaQAllocItemIntfData (alloc : nat -> bool) (size : Z) : M mq_world bool :=
  with_info false (fun i =>
    match pItems i with
    | [] => mret false
    | l =>
        let '(ok, l) := alloc_intf_data alloc size 0 l in
        set_info (set_items l i);; mret ok
    end).

(** Everything is freed except what items that are taken own. *)
Definition openavbMediaQDelete : M mq_world bool :=
  w ← get;
  match pMediaQ w with
  | NoQueue => mret false
  | FreedQueue => raise WildPointer
  | Queue p =>
      let left := match p with Some i => List.filter taken (pItems i) | None => [] end in
      put (mkMqWorld FreedQueue (mutex_held w) (clock_reads w) (orphans w ++ left));; mret false
  end.

Definition openavbMediaQSetMaxLatency (usec : Z) : M mq_world unit :=
  with_info tt (fun i => set_info (set_options usec (threadSafeOn i) (maxStaleTailUsec i) i)).
Definition openavbMediaQSetMaxStaleTail (usec : Z) : M mq_world unit :=
  with_info tt (fun i => set_info (set_options (maxLatencyUsec i) (threadSafeOn i) usec i)).

(** ** The head *)

Definition openavbMediaQHeadLock : M mq_world (option Z) :=
  with_info None (fun i =>
    lock_if_safe i;;
    if (0 <? itemCount i) && (-1 <? q_head i) then
      set_info (set_headLocked true i);; mret (Some (q_head i))
    else unlock_if_safe i;; mret None).

Definition openavbMediaQHeadUnlock : M mq_world unit :=
  with_info tt (fun i =>
    if (0 <? itemCount i) && (-1 <? q_head i) then
      set_info (set_headLocked false i);; unlock_if_safe i
    else mret tt).

Definition openavbMediaQHeadPush : M mq_world bool :=
  with_info false (fun i =>
    if (0 <? itemCount i) && (-1 <? q_head i) then
      let h := q_head i in
      let i := if q_tail i =? -1 then set_q_tail h i else i in
      i ← lift (update_item h (set_readIdx 0) i);
      i ← lift (x_openavbMediaQIncrementHead i);
      set_info (set_headLocked false i);; unlock_if_safe i;; mret true
    else mret false).

(** ** The tail *)

Definition openavbMediaQTailPull : M mq_world bool :=
  with_info false (fun i =>
    if (0 <? itemCount i) && (-1 <? q_tail i) then
      let t := q_tail i in
      let i := if q_head i =? -1 then set_q_head t i else i in
      i ← lift (update_item t (fun it => set_dataLen 0 (set_readIdx 0 it)) i);
      i ← lift (x_openavbMediaQIncrementTail i);
      set_info (set_tailLocked false i);; unlock_if_safe i;; mret true
    else mret false).

Definition openavbMediaQTailUnlock : M mq_world unit :=
  with_info tt (fun i =>
    if (0 <? itemCount i) && (-1 <? q_tail i) then
      set_info (set_tailLocked false i);; unlock_if_safe i
    else mret tt).

(** The item of a call of [openavbMediaQTailItemTake] may be any one of the queue. *)
Definition openavbMediaQTailItemTake (pItem : option Z) : M mq_world bool :=
  match pItem with
  | None => mret false
  | Some k =>
      with_info false (fun i =>
        if (0 <? itemCount i) && (-1 <? q_tail i) then
          i ← lift (x_openavbMediaQIncrementTail i);
          i ← lift (update_item k (set_taken true) i);
          set_info (set_tailLocked false i);; unlock_if_safe i;; mret true
        else mret false)
  end.

Fixpoint first_untaken (k : Z) (l : list media_q_item_t) : option Z :=
  match l with
  | [] => None
  | it :: l => if negb (taken it) then Some k else first_untaken (k + 1) l
  end.

Definition openavbMediaQTailItemGive (pItem : option Z) : M mq_world bool :=
  match pItem with
  | None => mret false
  | Some k =>
      with_info true (fun i =>
        i ← lift (update_item k (fun it => set_dataLen 0 (set_readIdx 0 (set_taken false it))) i);
        lock_if_safe i;;
        set_info
          (if (0 <? itemCount i) && (q_head i =? -1) then
             match first_untaken 0 (pItems i) with Some k => set_q_head k i | None => i end
           else i);;
        unlock_if_safe i;; mret true)
  end.

(** ** Questions that involve the clock *)

Section Clock.

(** The wall clock at each reading, and the value of a variable that was never set. *)
Context (ptp : nat -> option Z) (indeterminate : Z).

Definition wall_clock : M mq_world (option Z) :=
  w ← get;
  put (mkMqWorld (pMediaQ w) (mutex_held w) (S (clock_reads w)) (orphans w));;
  mret (ptp (clock_reads w)).

(** A question to a time reads the clock only if the time can be trusted. *)
Definition ask_time {A} (f : option Z -> option avtp_time_t -> A) (p : option avtp_time_t) : M mq_world A :=
  match p with
  | Some t => if trusted t then now ← wall_clock; mret (f now p) else mret (f None p)
  | None => mret (f None p)
  end.

(** [CLOCK_GETTIME64]; its result is not looked at. *)
Definition clock_gettime64 : M mq_world Z := now ← wall_clock; mret (default indeterminate now).

(** The condition for purging the tail item: the first one has to be stale, later ones
    past. *)
Definition purge_tail (bFirst : bool) (stale : Z) (it : media_q_item_t) : M mq_world bool :=
  if bFirst then
    delta ← ask_time openavbAvtpTimeUsecDelta (pAvtpTime it);
    mret (delta <? s32 (u32 (0 - stale)))
  else ask_time openavbAvtpTimeIsPast (pAvtpTime it).

Fixpoint purge_loop (fuel : nat) (bFirst : bool) : M mq_world unit :=
  match fuel with
  | O => raise FuelExhausted
  | S fuel =>
      with_info tt (fun i =>
        if (0 <? itemCount i) && (-1 <? q_tail i) then
          it ← lift (item_at (pItems i) (q_tail i));
          set_info (set_tailLocked true i);;
          bPurge ← purge_tail bFirst (maxStaleTailUsec i) it;
          if (bPurge : bool) then openavbMediaQTailPull;; purge_loop fuel false
          else set_info (set_tailLocked false i)
        else mret tt)
  end.

Definition x_openavbMediaQPurgeStaleTail : M mq_world unit :=
  with_info tt (fun i =>
    if 0 <? maxStaleTailUsec i then purge_loop (S (circle i)) true else mret tt).

Definition purge_unless (ignoreTimestamp : bool) : M mq_world unit :=
  if negb ignoreTimestamp then x_openavbMediaQPurgeStaleTail else mret tt.

Definition openavbMediaQTailLock (ignoreTimestamp : bool) : M mq_world (option Z) :=
  purge_unless ignoreTimestamp;;
  with_info None (fun i =>
    lock_if_safe i;;
    if (0 <? itemCount i) && (-1 <? q_tail i) then
      it ← lift (item_at (pItems i) (q_tail i));
      past ← (if negb ignoreTimestamp then ask_time openavbAvtpTimeIsPast (pAvtpTime it) else mret true);
      if negb past then unlock_if_safe i;; mret None
      else set_info (set_tailLocked true i);; mret (Some (q_tail i))
    else unlock_if_safe i;; mret None).

(** [Some v] when the answer is TRUE and [v] is written. *)
Definition openavbMediaQUsecTillTail : M mq_world (option Z) :=
  with_info None (fun i =>
    if (0 <? itemCount i) && (-1 <? q_tail i) then
      it ← lift (item_at (pItems i) (q_tail i));
      ask_time openavbAvtpTimeUsecTill (pAvtpTime it)
    else mret None).

(** What the loops over the items know of the time: [None] when timestamps are ignored. *)
Definition ready_at (limit : option Z) (it : media_q_item_t) : bool :=
  match limit with Some now => openavbAvtpTimeIsPastTime (pAvtpTime it) now | None => true end.

Definition scan_limit (ignoreTimestamp : bool) : M mq_world (option Z) :=
  if ignoreTimestamp then mret None else now ← clock_gettime64; mret (Some now).

Fixpoint bytes_loop (fuel : nat) (limit : option Z) (i : media_q_info_t) (nbytes endIdx tailIdx byteCnt : Z) : outcome bool :=
  match fuel with
  | O => Fault FuelExhausted
  | S fuel =>
      it ← item_at (pItems i) tailIdx;
      let go byteCnt :=
        let tailIdx := next_index (itemCount i) tailIdx in
        if tailIdx =? endIdx then Ok false else bytes_loop fuel limit i nbytes endIdx tailIdx byteCnt in
      if negb (taken it) then
        if negb (ready_at limit it) then Ok false
        else
          let byteCnt := s32 (u32 (byteCnt + u32 (dataLen it - readIdx it))) in
          if nbytes <=? u32 byteCnt then Ok true else go byteCnt
      else go byteCnt
  end.

Definition openavbMediaQIsAvailableBytes (nbytes : Z) (ignoreTimestamp : bool) : M mq_world bool :=
  purge_unless ignoreTimestamp;;
  with_info false (fun i =>
    if (0 <? itemCount i) && (-1 <? q_tail i) then
      let endIdx := if -1 <? q_head i then q_head i else q_tail i in
      limit ← scan_limit ignoreTimestamp;
      lift (bytes_loop (circle i) limit i nbytes endIdx (q_tail i) 0)
    else mret false).

Fixpoint count_loop (fuel : nat) (limit : option Z) (i : media_q_info_t) (tailIdx itemCnt : Z) : outcome Z :=
  match fuel with
  | O => Fault FuelExhausted
  | S fuel =>
      it ← item_at (pItems i) tailIdx;
      let go itemCnt :=
        let tailIdx := next_index (itemCount i) tailIdx in
        if tailIdx =? q_head i then Ok itemCnt
        else if itemCount i <=? itemCnt then Ok itemCnt
        else count_loop fuel limit i tailIdx itemCnt in
      if negb (taken it) then
        if negb (ready_at limit it) then Ok itemCnt else go (u32 (itemCnt + 1))
      else go itemCnt
  end.

Definition openavbMediaQCountItems (ignoreTimestamp : bool) : M mq_world Z :=
  purge_unless ignoreTimestamp;;
  with_info 0 (fun i =>
    if (0 <? itemCount i) && (-1 <? q_tail i) then
      limit ← scan_limit ignoreTimestamp;
      lift (count_loop (circle i * circle i) limit i (q_tail i) 0)
    else mret 0).

Definition openavbMediaQAnyReadyItems (ignoreTimestamp : bool) : M mq_world bool :=
  purge_unless ignoreTimestamp;;
  with_info false (fun i =>
    if (0 <? itemCount i) && (-1 <? q_tail i) then
      limit ← scan_limit ignoreTimestamp;
      it ← lift (item_at (pItems i) (q_tail i));
      mret (negb (taken it) && ready_at limit it)
    else mret false).

End Clock.
