(* ===== verification/MediaQTheory.v ===== *)
(** * The media queue as a bounded queue

    What the queue promises while no item is taken: a queue of at most as many items as
    were allocated, whose slots go round.  [spec] is that promise; [layout] relates the
    circular array to it, and the lemmas show that each operation of MediaQ.v keeps the
    relation and answers, or faults at the mutex, as the specification. *)

From S2P Require Import Prelude AvtpTime MediaQ.

Open Scope Z_scope.
Local Abbreviation length := List.length.
Local Abbreviation get := Prelude.get.

(** ** Going round a list *)

Definition rot {A} (p : nat) (l : list A) : list A := drop p l ++ take p l.

Definition wrap (n k : nat) : nat := if (n <=? k)%nat then (k - n)%nat else k.

Ltac wraps := unfold wrap in *; repeat match goal with |- context [(?a <=? ?b)%nat] => destruct (Nat.leb_spec a b) end.

Lemma length_rot {A} p (l : list A) : length (rot p l) = length l.
Proof. unfold rot. rewrite length_app, length_drop, length_take. lia. Qed.

Lemma rot_lookup {A} p q (l : list A) : (p < length l)%nat -> (q < length l)%nat ->
  rot p l !! q = l !! wrap (length l) (p + q).
Proof.
  intros Hp Hq. unfold rot. wraps.
  - rewrite lookup_app_r by (rewrite length_drop; lia). rewrite length_drop, lookup_take_lt by lia. f_equal. lia.
  - rewrite lookup_app_l by (rewrite length_drop; lia). by rewrite lookup_drop.
Qed.

Lemma rot_insert {A} p (l a b : list A) x y : (p < length l)%nat -> rot p l = a ++ x :: b ->
  l !! wrap (length l) (p + length a) = Some x /\
  rot p (<[wrap (length l) (p + length a) := y]> l) = a ++ y :: b.
Proof.
  intros Hp E. assert (Hl : length l = (length a + S (length b))%nat).
  { rewrite <- (length_rot p l), E, length_app. done. }
  split; [rewrite <- rot_lookup by lia; rewrite E, lookup_app_r, Nat.sub_diag by lia; done|].
  apply list_eq. intros q. destruct (decide (q < length l)%nat) as [Hq|Hq].
  - rewrite rot_lookup by (rewrite length_insert; lia). rewrite length_insert.
    destruct (decide (q = length a)) as [->|Hne].
    + rewrite list_lookup_insert_eq by (wraps; lia). by rewrite lookup_app_r, Nat.sub_diag by lia.
    + rewrite list_lookup_insert_ne by (wraps; lia). rewrite <- rot_lookup, E by lia.
      destruct (decide (q < length a)%nat); [by rewrite !lookup_app_l by done|].
      rewrite !lookup_app_r by lia. destruct (q - length a)%nat eqn:?; [lia|done].
  - rewrite !lookup_ge_None_2; [done| |]; rewrite ?length_rot, ?length_insert, ?length_app; cbn [length]; lia.
Qed.

Lemma rot_next {A} p (l r : list A) x : (p < length l)%nat -> rot p l = x :: r ->
  rot (wrap (length l) (p + 1)) l = r ++ [x].
Proof.
  intros Hp E. unfold rot in *. destruct (drop p l) as [|y d] eqn:Hd.
  { apply (f_equal length) in Hd. rewrite length_drop in Hd. cbn in Hd. lia. }
  injection E as -> <-. assert (Hx : l !! p = Some x) by (rewrite <- (Nat.add_0_r p), <- lookup_drop, Hd; done).
  assert (Hd' : drop (p + 1) l = d) by (rewrite <- drop_drop, Hd; done).
  assert (Ht : take (p + 1) l = take p l ++ [x]) by (rewrite Nat.add_1_r; by apply take_S_r).
  wraps.
  - replace (p + 1 - length l)%nat with 0%nat by lia. rewrite drop_0, take_0, app_nil_r.
    rewrite drop_ge in Hd' by lia. subst d. rewrite app_nil_l, <- Ht. by rewrite take_ge by lia.
  - rewrite Hd', Ht. by rewrite app_assoc.
Qed.

(** ** The specification *)

Record spec : Type := mkSpec {
  filled : list media_q_item_t;
  free : list media_q_item_t;
  stale_after : Z;
  readings : nat;
  safe : bool;
  held : bool
}.

Definition set_lists (a b : list media_q_item_t) (s : spec) : spec :=
  mkSpec a b (stale_after s) (readings s) (safe s) (held s).
Definition set_readings (n : nat) (s : spec) : spec := mkSpec (filled s) (free s) (stale_after s) n (safe s) (held s).
Definition set_stale (u : Z) (s : spec) : spec := mkSpec (filled s) (free s) u (readings s) (safe s) (held s).
Definition set_safe (s : spec) : spec := mkSpec (filled s) (free s) (stale_after s) (readings s) true (held s).
Definition set_held (h : bool) (s : spec) : spec := mkSpec (filled s) (free s) (stale_after s) (readings s) (safe s) h.

Abbreviation SPEC := (M spec).

(** While thread safety is on, one call takes the mutex and another one gives it back:
    taking it again waits for ever, giving it back twice is a fault. *)
Definition spec_lock : SPEC unit :=
  s ← get;
  if safe s then if held s then raise Deadlock else put (set_held true s) else mret tt.
Definition spec_unlock : SPEC unit :=
  s ← get;
  if safe s then if held s then put (set_held false s) else raise MutexNotHeld else mret tt.

Definition emptied (it : media_q_item_t) : media_q_item_t := set_dataLen 0 (set_readIdx 0 it).

Definition spec_push : SPEC bool :=
  s ← get;
  match free s with
  | [] => mret false
  | it :: l => put (set_lists (filled s ++ [set_readIdx 0 it]) l s);; spec_unlock;; mret true
  end.

Definition spec_pull : SPEC bool :=
  s ← get;
  match filled s with
  | [] => mret false
  | it :: l => put (set_lists l (free s ++ [emptied it]) s);; spec_unlock;; mret true
  end.

(** Unlocking gives the mutex back if there is an item to unlock. *)
Definition spec_release (f : spec -> list media_q_item_t) : SPEC unit :=
  s ← get; match f s with [] => mret tt | _ => spec_unlock end.

(** What a client writes to the item it has locked. *)
Definition filled_in (t : option avtp_time_t) (d : option (list Z)) (len idx : Z) (it : media_q_item_t) : media_q_item_t :=
  mkItem t d idx len (it_itemSize it) (taken it) (pPubMapData it) (pPvtMapData it) (pPvtIntfData it).

Definition on_first {A} (f : A -> A) (l : list A) : list A :=
  match l with [] => [] | x :: l => f x :: l end.

(** ** The relation *)

Definition at_or_none {A} (l : list A) (k : nat) : Z := match l with [] => -1 | _ => Z.of_nat k end.

Definition layout (i : media_q_info_t) (a b : list media_q_item_t) : Prop :=
  itemCount i = Z.of_nat (length (pItems i)) /\ itemCount i < 2 ^ 31 /\
  Forall (fun it => taken it = false) (pItems i) /\
  exists p, (p < length (pItems i))%nat /\ rot p (pItems i) = a ++ b /\
    q_tail i = at_or_none a p /\ q_head i = at_or_none b (wrap (length (pItems i)) (p + length a)).

(** The structure, the options and the mutex are as the specification has them. *)
Record holds (i : media_q_info_t) (s : spec) (w : mq_world) : Prop := {
  ho_ptr : pMediaQ w = Queue (Some i);
  ho_clock : clock_reads w = readings s;
  ho_stale : maxStaleTailUsec i = stale_after s;
  ho_safe : threadSafeOn i = safe s;
  ho_mutex : mutex_held w = held s;
  ho_layout : layout i (filled s) (free s)
}.

Definition queue_is (w : mq_world) (s : spec) : Prop := exists i, holds i s w.

Lemma item_at_nat l k it : l !! k = Some it -> item_at l (Z.of_nat k) = Ok it.
Proof. intros E. unfold item_at. destruct (Z.ltb_spec (Z.of_nat k) 0); [lia|]. by rewrite Nat2Z.id, E. Qed.

Lemma update_item_nat i k it f : pItems i !! k = Some it ->
  update_item (Z.of_nat k) f i = Ok (set_items (<[k := f it]> (pItems i)) i).
Proof. intros E. unfold update_item. rewrite (item_at_nat _ _ _ E). cbn. by rewrite Nat2Z.id. Qed.

Lemma next_index_nat (n k : nat) : (k < n)%nat -> next_index (Z.of_nat n) (Z.of_nat k) = Z.of_nat (wrap n (k + 1)).
Proof. intros H. unfold next_index. wraps; destruct (Z.leb_spec (Z.of_nat n) (Z.of_nat k + 1)); lia. Qed.

Lemma untaken_at l k : Forall (fun it => taken it = false) l -> (k < length l)%nat ->
  exists it, l !! k = Some it /\ taken it = false.
Proof.
  intros Hf Hk. apply lookup_lt_is_Some_2 in Hk as [it E]. exists it. split; [done|]. by eapply (Forall_lookup_1 _ _ _ _ Hf E).
Qed.

(** Without taken items an index moves by exactly one position. *)
Lemma increment_head_one i h : itemCount i = Z.of_nat (length (pItems i)) -> Forall (fun it => taken it = false) (pItems i) ->
  q_head i = Z.of_nat h -> (h < length (pItems i))%nat ->
  let h' := Z.of_nat (wrap (length (pItems i)) (h + 1)) in
  x_openavbMediaQIncrementHead i = Ok (set_q_head (if h' =? q_tail i then -1 else h') i).
Proof.
  intros Hn Hu Hh Hlt h'. unfold x_openavbMediaQIncrementHead, circle. cbn [x_IncrementHead].
  destruct (Z.eqb_spec (q_head i + 1) (q_head i)); [lia|]. rewrite Hn, Hh, next_index_nat by done. fold h'.
  destruct (h' =? q_tail i); [done|].
  destruct (untaken_at _ (wrap (length (pItems i)) (h + 1)) Hu) as (it & E & Ht); [wraps; lia|].
  subst h'. rewrite (item_at_nat _ _ _ E). cbn. by rewrite Ht.
Qed.

Lemma increment_tail_one i t : itemCount i = Z.of_nat (length (pItems i)) -> Forall (fun it => taken it = false) (pItems i) ->
  q_tail i = Z.of_nat t -> (t < length (pItems i))%nat ->
  let t' := Z.of_nat (wrap (length (pItems i)) (t + 1)) in
  x_openavbMediaQIncrementTail i = Ok (set_q_tail (if t' =? q_head i then -1 else t') i).
Proof.
  intros Hn Hu Hh Hlt t'. unfold x_openavbMediaQIncrementTail, circle. cbn [x_IncrementTail].
  destruct (Z.eqb_spec (q_tail i + 1) (q_tail i)); [lia|]. rewrite Hn, Hh, next_index_nat by done. fold t'.
  destruct (t' =? q_head i); [done|].
  destruct (untaken_at _ (wrap (length (pItems i)) (t + 1)) Hu) as (it & E & Ht); [wraps; lia|].
  subst t'. rewrite (item_at_nat _ _ _ E). cbn. by rewrite Ht.
Qed.

(** The two guards every operation starts with. *)
Lemma tail_guard i a b : layout i a b -> (0 <? itemCount i) && (-1 <? q_tail i) = match a with [] => false | _ => true end.
Proof.
  intros (Hn & _ & _ & p & Hp & _ & Ht & _). rewrite Hn, Ht. destruct (Z.ltb_spec 0 (Z.of_nat (length (pItems i)))); [|lia].
  destruct a; cbn; [done|]. apply Z.ltb_lt. lia.
Qed.

Lemma head_guard i a b : layout i a b -> (0 <? itemCount i) && (-1 <? q_head i) = match b with [] => false | _ => true end.
Proof.
  intros (Hn & _ & _ & p & Hp & _ & _ & Hh). rewrite Hn, Hh. destruct (Z.ltb_spec 0 (Z.of_nat (length (pItems i)))); [|lia].
  destruct b; cbn; [done|]. apply Z.ltb_lt. lia.
Qed.

Lemma tail_item i x a b : layout i (x :: a) b -> item_at (pItems i) (q_tail i) = Ok x.
Proof.
  intros (_ & _ & _ & p & Hp & Hr & Ht & _). rewrite Ht. apply item_at_nat.
  destruct (rot_insert p (pItems i) [] (a ++ b) x x Hp Hr) as [E _]. cbn in E. rewrite Nat.add_0_r in E.
  revert E. wraps; [lia|done].
Qed.

Lemma head_item i x a b : layout i a (x :: b) -> item_at (pItems i) (q_head i) = Ok x.
Proof.
  intros (_ & _ & _ & p & Hp & Hr & _ & Hh). rewrite Hh. apply item_at_nat.
  by destruct (rot_insert p (pItems i) a b x x Hp Hr) as [E _].
Qed.

(** ** Changing the first free and the first filled slot *)

Lemma untaken_insert i k f it : Forall (fun it => taken it = false) (pItems i) -> pItems i !! k = Some it ->
  (forall it, taken (f it) = taken it) -> Forall (fun it => taken it = false) (<[k := f it]> (pItems i)).
Proof. intros Hu E Hf. apply Forall_insert; [done|]. rewrite Hf. by eapply (Forall_lookup_1 _ _ _ _ Hu E). Qed.

Lemma update_head i x a b f : layout i a (x :: b) -> (forall it, taken (f it) = taken it) ->
  exists l, update_item (q_head i) f i = Ok (set_items l i) /\ layout (set_items l i) a (f x :: b).
Proof.
  intros (Hn & Hm & Hu & p & Hp & Hr & Ht & Hh) Hf. cbn in Hh.
  destruct (rot_insert p _ a b x (f x) Hp Hr) as [E Hr']. eexists. split.
  - rewrite Hh. by apply update_item_nat.
  - unfold layout. cbn [itemCount pItems q_tail q_head set_items]. rewrite length_insert.
    split; [done|]. split; [done|]. split; [by apply untaken_insert|]. by exists p.
Qed.

Lemma update_tail i x a b f : layout i (x :: a) b -> (forall it, taken (f it) = taken it) ->
  exists l, update_item (q_tail i) f i = Ok (set_items l i) /\ layout (set_items l i) (f x :: a) b.
Proof.
  intros (Hn & Hm & Hu & p & Hp & Hr & Ht & Hh) Hf. cbn in Ht.
  destruct (rot_insert p _ [] (a ++ b) x (f x) Hp Hr) as [E Hr'].
  replace (wrap _ (p + length [])) with p in * by (cbn; wraps; lia). eexists. split.
  - rewrite Ht. by apply update_item_nat.
  - unfold layout. cbn [itemCount pItems q_tail q_head set_items]. rewrite length_insert.
    split; [done|]. split; [done|]. split; [by apply untaken_insert|]. by exists p.
Qed.

Lemma at_or_none_snoc {A} (l : list A) x k : at_or_none (l ++ [x]) k = Z.of_nat k.
Proof. by destruct l. Qed.

(** Where head and tail stop when they have moved by one. *)
Lemma head_stops {A} n p k (b : list A) : (p < n)%nat -> n = (k + S (length b))%nat ->
  let h := Z.of_nat (wrap n (wrap n (p + k) + 1)) in
  (if h =? Z.of_nat p then -1 else h) = at_or_none b (wrap n (p + (k + 1))).
Proof.
  intros Hp Hn h. subst h.
  assert (wrap n (wrap n (p + k) + 1) = if (k + 1 =? n)%nat then p else wrap n (p + (k + 1))) as ->.
  { destruct (Nat.eqb_spec (k + 1) n); wraps; lia. }
  destruct b as [|y b]; cbn [at_or_none length] in *; destruct (Nat.eqb_spec (k + 1) n) as [d|d]; try lia;
    match goal with |- context [?x =? ?y] => destruct (Z.eqb_spec x y) as [e|e] end; try lia.
  exfalso. revert e. wraps; lia.
Qed.

Lemma tail_stops {A} n p (a : list A) : (p < n)%nat -> (length a < n)%nat ->
  (if Z.of_nat p =? Z.of_nat (wrap n (p + length a)) then -1 else Z.of_nat p) = at_or_none a p.
Proof.
  intros Hp Hn. destruct (Z.eqb_spec (Z.of_nat p) (Z.of_nat (wrap n (p + length a)))) as [e|e]; revert e;
    destruct a; cbn [at_or_none length] in *; wraps; lia.
Qed.

(** The first free slot becomes the last filled one. *)
Lemma push_layout i x a b : layout i a (x :: b) ->
  exists i1 i2,
    update_item (q_head i) (set_readIdx 0) (if q_tail i =? -1 then set_q_tail (q_head i) i else i) = Ok i1 /\
    x_openavbMediaQIncrementHead i1 = Ok i2 /\ layout i2 (a ++ [set_readIdx 0 x]) b /\
    maxStaleTailUsec i2 = maxStaleTailUsec i /\ threadSafeOn i2 = threadSafeOn i.
Proof.
  intros (Hn & Hm & Hu & p & Hp & Hr & Ht & Hh). cbn in Hh.
  destruct (rot_insert p _ a b x (set_readIdx 0 x) Hp Hr) as [E Hr'].
  set (l := <[wrap (length (pItems i)) (p + length a) := set_readIdx 0 x]> (pItems i)) in *.
  assert (Hll : length l = length (pItems i)) by (subst l; apply length_insert).
  assert (Hlen : length (pItems i) = (length a + S (length b))%nat).
  { rewrite <- (length_rot p), Hr, length_app. done. }
  set (i0 := if q_tail i =? -1 then set_q_tail (q_head i) i else i).
  assert (Hi0 : pItems i0 = pItems i /\ itemCount i0 = itemCount i /\ q_head i0 = q_head i /\
    maxStaleTailUsec i0 = maxStaleTailUsec i /\ threadSafeOn i0 = threadSafeOn i /\ q_tail i0 = Z.of_nat p).
  { subst i0. rewrite Ht. destruct a as [|y a]; cbn.
    - rewrite Hh. repeat split. cbn. f_equal. wraps; cbn in *; lia.
    - destruct (Z.eqb_spec (Z.of_nat p) (-1)); [lia|]. repeat split. done. }
  destruct Hi0 as (Hi & Hc & Hhd & Hs & Hsafe & Htl). exists (set_items l i0).
  eexists. split; [|split; [apply (increment_head_one _ (wrap (length (pItems i)) (p + length a)))|]].
  - rewrite Hh. rewrite (update_item_nat i0 _ x) by (by rewrite Hi). by rewrite Hi.
  - cbn. by rewrite Hll, Hc.
  - cbn. by apply untaken_insert.
  - cbn. by rewrite Hhd.
  - cbn. rewrite Hll. wraps; lia.
  - cbn [q_tail set_items pItems]. rewrite Hll, Htl. split; [|by rewrite <- Hs, <- Hsafe].
    unfold layout. cbn [itemCount pItems q_tail q_head set_items set_q_head]. rewrite Hll, Hc, Htl.
    split; [done|]. split; [done|]. split; [by apply untaken_insert|]. exists p. split; [done|].
    split; [by rewrite Hr', <- app_assoc|]. split; [by rewrite at_or_none_snoc|].
    rewrite length_app. by apply head_stops.
Qed.

(** The first filled slot becomes the last free one. *)
Lemma pull_layout i x a b : layout i (x :: a) b ->
  exists i1 i2,
    update_item (q_tail i) emptied (if q_head i =? -1 then set_q_head (q_tail i) i else i) = Ok i1 /\
    x_openavbMediaQIncrementTail i1 = Ok i2 /\ layout i2 a (b ++ [emptied x]) /\
    maxStaleTailUsec i2 = maxStaleTailUsec i /\ threadSafeOn i2 = threadSafeOn i.
Proof.
  intros (Hn & Hm & Hu & p & Hp & Hr & Ht & Hh). cbn in Ht.
  destruct (rot_insert p _ [] (a ++ b) x (emptied x) Hp Hr) as [E Hr'].
  replace (wrap _ (p + length [])) with p in * by (cbn; wraps; lia). cbn in Hr'.
  set (l := <[p := emptied x]> (pItems i)) in *.
  assert (Hll : length l = length (pItems i)) by (subst l; apply length_insert).
  assert (Hlen : length (pItems i) = S (length a + length b)).
  { rewrite <- (length_rot p), Hr. cbn. by rewrite length_app. }
  set (p' := wrap (length (pItems i)) (p + 1)).
  set (i0 := if q_head i =? -1 then set_q_head (q_tail i) i else i).
  assert (Hi0 : pItems i0 = pItems i /\ itemCount i0 = itemCount i /\ q_tail i0 = q_tail i /\
    maxStaleTailUsec i0 = maxStaleTailUsec i /\ threadSafeOn i0 = threadSafeOn i /\
    q_head i0 = Z.of_nat (wrap (length (pItems i)) (p' + length a))).
  { subst i0 p'. rewrite Hh. destruct b as [|y b]; cbn [at_or_none length] in *.
    - cbn. repeat split. cbn. rewrite Ht. f_equal. wraps; lia.
    - match goal with |- context [?x =? ?y] => destruct (Z.eqb_spec x y) as [e|e] end; [revert e; wraps; lia|].
      repeat split. rewrite Hh. f_equal. wraps; lia. }
  destruct Hi0 as (Hi & Hc & Htl & Hs & Hsafe & Hhd). exists (set_items l i0).
  eexists. split; [|split; [apply (increment_tail_one _ p)|]].
  - rewrite Ht. rewrite (update_item_nat i0 _ x) by (by rewrite Hi). by rewrite Hi.
  - cbn. by rewrite Hll, Hc.
  - cbn. by apply untaken_insert.
  - cbn. by rewrite Htl.
  - cbn. by rewrite Hll.
  - cbn [q_head set_items pItems]. rewrite Hll, Hhd. fold p'. split; [|by rewrite <- Hs, <- Hsafe].
    unfold layout. cbn [itemCount pItems q_tail q_head set_items set_q_tail]. rewrite Hll, Hc, Hhd.
    split; [done|]. split; [done|]. split; [by apply untaken_insert|].
    assert (p' < length (pItems i))%nat by (subst p'; wraps; lia). exists p'. split; [done|].
    split; [|split; [apply tail_stops; [done|lia]|by rewrite at_or_none_snoc]].
    unfold p'. rewrite <- Hll. rewrite (rot_next p l (a ++ b) (emptied x)) by (done || lia). by rewrite <- app_assoc.
Qed.

(** ** Operations against the specification *)

(** [m] answers in [w] as [f] in [s] and goes on to the state of [f], or ends as [f]. *)
Definition follows {A} (m : M mq_world A) (f : SPEC A) (w : mq_world) (s : spec) : Prop :=
  match f s with
  | Ok (a, s') => exists w', m w = Ok (a, w') /\ queue_is w' s'
  | Fault e => m w = Fault e
  end.

Definition implements {A} (m : M mq_world A) (f : SPEC A) : Prop := forall w s, queue_is w s -> follows m f w s.

Lemma follows_bind {A B} (m : M mq_world A) (k : A -> M mq_world B) f g w s :
  follows m f w s -> (forall a w' s', f s = Ok (a, s') -> queue_is w' s' -> follows (k a) (g a) w' s') ->
  follows (a ← m; k a) (a ← f; g a) w s.
Proof.
  unfold follows, mbind, M_bind. intros Hm Hk. destruct (f s) as [[a s1]|e]; [|by rewrite Hm].
  destruct Hm as (w1 & -> & Hq1). by apply (Hk a w1 s1).
Qed.

Lemma implements_bind {A B} (m : M mq_world A) (k : A -> M mq_world B) f g :
  implements m f -> (forall a, implements (k a) (g a)) -> implements (a ← m; k a) (a ← f; g a).
Proof. intros Hm Hk w s Hq. apply follows_bind; [by apply Hm|]. intros a w' s' _. apply Hk. Qed.

Lemma follows_ret {A} (a : A) w s : queue_is w s -> follows (mret a) (mret a) w s.
Proof. intros Hq. exists w. by split. Qed.

Lemma implements_ret {A} (a : A) : implements (mret a) (mret a).
Proof. intros w s. apply follows_ret. Qed.

(** Steps of one side alone. *)
Lemma follows_left {A B} (m : M mq_world A) (k : A -> M mq_world B) f w s a w' :
  m w = Ok (a, w') -> follows (k a) f w' s -> follows (a ← m; k a) f w s.
Proof. unfold follows, mbind, M_bind. by intros ->. Qed.

Lemma follows_right {A B} (m : M mq_world B) (f : SPEC A) g w s a s' :
  f s = Ok (a, s') -> follows m (g a) w s' -> follows m (a ← f; g a) w s.
Proof. unfold follows, mbind, M_bind. by intros ->. Qed.

Lemma follows_get {B} (m : M mq_world B) g w s : follows m (g s) w s -> follows m (s ← get; g s) w s.
Proof. exact (follows_right m get g w s s s eq_refl). Qed.

Lemma follows_put {B} (m : M mq_world B) (g : SPEC B) w s s' : follows m g w s' -> follows m (put s';; g) w s.
Proof. exact (follows_right m (put s') (fun _ => g) w s tt s' eq_refl). Qed.

(** It is enough to look at the structure behind the pointer. *)
Lemma follows_info {A} (d : A) (m : media_q_info_t -> M mq_world A) f i w s :
  holds i s w -> follows (m i) f w s -> follows (with_info d m) f w s.
Proof. intros Hold. unfold follows, with_info, mbind, M_bind, Prelude.get. cbn. by rewrite (ho_ptr _ _ _ Hold). Qed.

Lemma implements_info {A} (d : A) (m : media_q_info_t -> M mq_world A) f :
  (forall i s w, holds i s w -> follows (m i) f w s) -> implements (with_info d m) f.
Proof. intros H w s [i Hold]. eapply follows_info; [exact Hold|]. by apply H. Qed.

(** The mutex of both sides; nothing else changes. *)
Lemma lock_follows {B} i (k : unit -> M mq_world B) g w s :
  holds i s w -> (forall w' s', holds i s' w' -> filled s' = filled s -> free s' = free s -> follows (k tt) g w' s') ->
  follows (u ← lock_if_safe i; k u) (spec_lock;; g) w s.
Proof.
  intros [] Hk. unfold follows, lock_if_safe, MEDIAQ_LOCK, spec_lock, mbind, M_bind, Prelude.get, put. rewrite ho_safe0.
  destruct (safe s) eqn:Hs; [|apply Hk; [by constructor; congruence|done|done]]. rewrite ho_mutex0. destruct (held s); [done|].
  apply Hk; [by constructor; cbn; congruence|done|done].
Qed.

Lemma unlock_follows {B} i (k : unit -> M mq_world B) g w s :
  holds i s w -> (forall w' s', holds i s' w' -> filled s' = filled s -> free s' = free s -> follows (k tt) g w' s') ->
  follows (u ← unlock_if_safe i; k u) (spec_unlock;; g) w s.
Proof.
  intros [] Hk. unfold follows, unlock_if_safe, MEDIAQ_UNLOCK, spec_unlock, mbind, M_bind, Prelude.get, put. rewrite ho_safe0.
  destruct (safe s) eqn:Hs; [|apply Hk; [by constructor; congruence|done|done]]. rewrite ho_mutex0. destruct (held s); [|done].
  apply Hk; [by constructor; cbn; congruence|done|done].
Qed.

Lemma unlock_last {A} i (a : A) w s : holds i s w -> follows (unlock_if_safe i;; mret a) (spec_unlock;; mret a) w s.
Proof. intros Hold. apply unlock_follows; [done|]. intros w' s' Hold' _ _. apply follows_ret. by exists i. Qed.

Lemma unlock_only i w s : holds i s w -> follows (unlock_if_safe i) spec_unlock w s.
Proof.
  intros Hold. pose proof (unlock_last i tt w s Hold) as H. unfold follows, mbind, M_bind, mret, M_ret in *.
  destruct (spec_unlock s) as [[[] s']|e], (unlock_if_safe i w) as [[[] w']|e']; done.
Qed.

(** Changing what the layout does not mention. *)
Lemma layout_same i i' a b : layout i a b -> itemCount i' = itemCount i -> pItems i' = pItems i ->
  q_head i' = q_head i -> q_tail i' = q_tail i -> layout i' a b.
Proof. unfold layout. by intros H -> -> -> ->. Qed.

Lemma set_holds i i' s s' w : holds i s w -> layout i' (filled s') (free s') ->
  maxStaleTailUsec i' = stale_after s' -> threadSafeOn i' = safe s' -> readings s' = readings s -> held s' = held s ->
  holds i' s' (mkMqWorld (Queue (Some i')) (mutex_held w) (clock_reads w) (orphans w)).
Proof. intros [] Hl Hst Hsafe Hr Hh. by constructor; cbn; try congruence. Qed.

Lemma set_info_follows {B} i i' (k : unit -> M mq_world B) g s s' w :
  holds i s w -> layout i' (filled s') (free s') ->
  maxStaleTailUsec i' = stale_after s' -> threadSafeOn i' = safe s' -> readings s' = readings s -> held s' = held s ->
  (forall w', holds i' s' w' -> follows (k tt) g w' s') -> follows (u ← set_info i'; k u) g w s'.
Proof. intros Hold Hl Hst Hsafe Hr Hh Hk. eapply (follows_left _ _ _ _ _ tt); [reflexivity|]. apply Hk. by eapply set_holds. Qed.

Ltac go := unfold mbind, M_bind, mret, M_ret, lift, set_info, modify, Prelude.get, put; cbn beta iota.

Lemma push_implements : implements openavbMediaQHeadPush spec_push.
Proof.
  apply implements_info. intros i s w Hold. pose proof (ho_layout _ _ _ Hold) as Hl. rewrite (head_guard _ _ _ Hl).
  apply follows_get. destruct (free s) as [|x b] eqn:Hb; [by apply follows_ret; exists i|]. apply follows_put. cbv zeta.
  destruct (push_layout _ _ _ _ Hl) as (i1 & i2 & E1 & E2 & Hl2 & Hs2 & Hsf2).
  apply (follows_left _ _ _ _ _ i1 w); [unfold lift; by rewrite E1|]. apply (follows_left _ _ _ _ _ i2 w); [unfold lift; by rewrite E2|].
  destruct Hold as [? ? ? ? ? ?]. eapply (set_info_follows i _ _ _ s); [done|by apply (layout_same i2)|cbn; congruence..|].
  intros w2 Hold2. exact (unlock_last _ true w2 _ Hold2).
Qed.

Lemma pull_implements : implements openavbMediaQTailPull spec_pull.
Proof.
  apply implements_info. intros i s w Hold. pose proof (ho_layout _ _ _ Hold) as Hl. rewrite (tail_guard _ _ _ Hl).
  apply follows_get. destruct (filled s) as [|x a] eqn:Ha; [by apply follows_ret; exists i|]. apply follows_put. cbv zeta.
  destruct (pull_layout _ _ _ _ Hl) as (i1 & i2 & E1 & E2 & Hl2 & Hs2 & Hsf2).
  change (fun it => set_dataLen 0 (set_readIdx 0 it)) with emptied.
  apply (follows_left _ _ _ _ _ i1 w); [unfold lift; by rewrite E1|]. apply (follows_left _ _ _ _ _ i2 w); [unfold lift; by rewrite E2|].
  destruct Hold as [? ? ? ? ? ?]. eapply (set_info_follows i _ _ _ s); [done|by apply (layout_same i2)|cbn; congruence..|].
  intros w2 Hold2. exact (unlock_last _ true w2 _ Hold2).
Qed.

(** The operations that change nothing the specification knows but the mutex. *)
Lemma head_unlock_implements : implements openavbMediaQHeadUnlock (spec_release free).
Proof.
  apply implements_info. intros i s w Hold. pose proof (ho_layout _ _ _ Hold) as Hl. rewrite (head_guard _ _ _ Hl).
  apply follows_get. destruct (free s) as [|x b] eqn:Hb; [by apply follows_ret; exists i|]. pose proof Hold as [? ? ? ? ? Hl0].
  eapply (set_info_follows i _ _ _ s); [exact Hold|apply (layout_same i); [exact Hl0|reflexivity..]|cbn; congruence..|]. intros w2 Hold2. exact (unlock_only _ w2 _ Hold2).
Qed.

Lemma tail_unlock_implements : implements openavbMediaQTailUnlock (spec_release filled).
Proof.
  apply implements_info. intros i s w Hold. pose proof (ho_layout _ _ _ Hold) as Hl. rewrite (tail_guard _ _ _ Hl).
  apply follows_get. destruct (filled s) as [|x b] eqn:Hb; [by apply follows_ret; exists i|]. pose proof Hold as [? ? ? ? ? Hl0].
  eapply (set_info_follows i _ _ _ s); [exact Hold|apply (layout_same i); [exact Hl0|reflexivity..]|cbn; congruence..|]. intros w2 Hold2. exact (unlock_only _ w2 _ Hold2).
Qed.

(** Options. *)
Lemma options_implements (f : media_q_info_t -> media_q_info_t) (g : spec -> spec) :
  (forall i s w, holds i s w -> holds (f i) (g s) (mkMqWorld (Queue (Some (f i))) (mutex_held w) (clock_reads w) (orphans w))) ->
  implements (with_info tt (fun i => set_info (f i))) (modify g).
Proof. intros H. apply implements_info. intros i s w Hold. eexists. split; [reflexivity|]. exists (f i). by apply H. Qed.

Lemma thread_safe_implements : implements openavbMediaQThreadSafeOn (modify set_safe).
Proof. apply options_implements. intros i s w []. by constructor. Qed.

Lemma max_latency_implements u : implements (openavbMediaQSetMaxLatency u) (modify id).
Proof. apply options_implements. intros i s w []. by constructor. Qed.

Lemma max_stale_implements u : implements (openavbMediaQSetMaxStaleTail u) (modify (set_stale u)).
Proof. apply options_implements. intros i s w []. by constructor. Qed.

(** *** The clock *)

Section Clock.

Context (ptp : nat -> option Z) (indeterminate : Z).

Definition spec_clock : SPEC (option Z) :=
  s ← get; put (set_readings (S (readings s)) s);; mret (ptp (readings s)).

Definition spec_ask {A} (f : option Z -> option avtp_time_t -> A) (p : option avtp_time_t) : SPEC A :=
  match p with
  | Some t => if trusted t then now ← spec_clock; mret (f now p) else mret (f None p)
  | None => mret (f None p)
  end.

Lemma clock_implements : implements (wall_clock ptp) spec_clock.
Proof.
  intros w s [i []]. unfold follows, wall_clock, spec_clock. go. eexists. rewrite ho_clock0. split; [reflexivity|].
  exists i. by constructor; cbn; try congruence.
Qed.

Lemma ask_implements {A} (f : option Z -> option avtp_time_t -> A) p : implements (ask_time ptp f p) (spec_ask f p).
Proof.
  unfold ask_time, spec_ask. destruct p as [t|]; [destruct (trusted t)|]; [|apply implements_ret..].
  apply implements_bind; [apply clock_implements|]. intros now. apply implements_ret.
Qed.

(** After a purge began, everything past goes. *)
Fixpoint purge_past (fuel : nat) : SPEC unit :=
  s ← get;
  match fuel, filled s with
  | S fuel, it :: _ =>
      past ← spec_ask openavbAvtpTimeIsPast (pAvtpTime it);
      if (past : bool) then spec_pull;; purge_past fuel else mret tt
  | _, _ => mret tt
  end.

(** A purge begins when the first item is stale. *)
Definition spec_purge (ignoreTimestamp : bool) : SPEC unit :=
  s ← get;
  if ignoreTimestamp || (stale_after s <=? 0) then mret tt
  else
    match filled s with
    | [] => mret tt
    | it :: l =>
        delta ← spec_ask openavbAvtpTimeUsecDelta (pAvtpTime it);
        if delta <? s32 (u32 (0 - stale_after s)) then spec_pull;; purge_past (length l) else mret tt
    end.

(** Reading the clock changes nothing else. *)
Definition same_queue (s s' : spec) : Prop :=
  filled s' = filled s /\ free s' = free s /\ stale_after s' = stale_after s /\ safe s' = safe s /\ held s' = held s.

Lemma spec_ask_same {A} (f : option Z -> option avtp_time_t -> A) p s :
  exists a s', spec_ask f p s = Ok (a, s') /\ same_queue s s'.
Proof.
  unfold spec_ask, spec_clock. destruct p as [t|]; [destruct (trusted t)|]; eexists _, _; (split; [reflexivity|]); done.
Qed.

Definition purge_condition (bFirst : bool) (stale : Z) (it : media_q_item_t) : SPEC bool :=
  if bFirst then
    delta ← spec_ask openavbAvtpTimeUsecDelta (pAvtpTime it);
    mret (delta <? s32 (u32 (0 - stale)))
  else spec_ask openavbAvtpTimeIsPast (pAvtpTime it).

Lemma purge_tail_implements bFirst stale it :
  implements (purge_tail ptp bFirst stale it) (purge_condition bFirst stale it).
Proof.
  unfold purge_tail, purge_condition. destruct bFirst; [|apply ask_implements].
  apply implements_bind; [apply ask_implements|]. intros delta. apply implements_ret.
Qed.

Lemma purge_condition_same bFirst stale it s : exists b s', purge_condition bFirst stale it s = Ok (b, s') /\ same_queue s s'.
Proof.
  unfold purge_condition. destruct bFirst; [|apply spec_ask_same].
  destruct (spec_ask_same openavbAvtpTimeUsecDelta (pAvtpTime it) s) as (d & s' & E & Hs'). eexists _, s'. unfold mbind, M_bind. by rewrite E.
Qed.

(** Asking for the time leaves the queue alone. *)
Lemma ask_time_keeps {A} (f : option Z -> option avtp_time_t -> A) p w a w' :
  ask_time ptp f p w = Ok (a, w') -> pMediaQ w' = pMediaQ w.
Proof. unfold ask_time, wall_clock. destruct p as [t|]; [destruct (trusted t)|]; intros [= _ <-]; done. Qed.

Lemma purge_tail_keeps bFirst stale it w a w' : purge_tail ptp bFirst stale it w = Ok (a, w') -> pMediaQ w' = pMediaQ w.
Proof.
  unfold purge_tail. destruct bFirst; [|apply ask_time_keeps]. unfold mbind, M_bind.
  destruct (ask_time _ _ _ w) as [[d w1]|] eqn:E; [|done]. intros [= _ <-]. by eapply ask_time_keeps.
Qed.

(** One round of the loop. *)
Lemma purge_round fuel bFirst w s it l : queue_is w s -> filled s = it :: l ->
  exists b s' w', purge_condition bFirst (stale_after s) it s = Ok (b, s') /\ filled s' = filled s /\ queue_is w' s' /\
    purge_loop ptp (S fuel) bFirst w = if b then (openavbMediaQTailPull;; purge_loop ptp fuel false) w' else Ok (tt, w').
Proof.
  intros [i Hold] Hf. pose proof Hold as [Hw Hr Hs Hsf Hm Hl]. pose proof Hl as Hl'. rewrite Hf in Hl'.
  cbn [purge_loop]. unfold with_info at 1. unfold mbind at 1, M_bind at 1, Prelude.get at 1. cbn beta iota. rewrite Hw.
  rewrite (tail_guard _ _ _ Hl'). unfold mbind at 1, M_bind at 1, lift at 1. rewrite (tail_item _ _ _ _ Hl'). cbn beta iota.
  unfold mbind at 1, M_bind at 1, set_info at 1, modify at 1. cbn beta iota.
  set (w1 := mkMqWorld (Queue (Some (set_tailLocked true i))) (mutex_held w) (clock_reads w) (orphans w)).
  assert (Hq1 : queue_is w1 s) by (eexists; eapply (set_holds i _ s s); [exact Hold|by apply (layout_same i)|done..]).
  rewrite Hs. pose proof (purge_tail_implements bFirst (stale_after s) it w1 s Hq1) as Hp. unfold follows in Hp.
  destruct (purge_condition_same bFirst (stale_after s) it s) as (b & s' & E & Hsame). rewrite E in Hp.
  destruct Hp as (w2 & E2 & Hq2). pose proof Hsame as (Hf2 & _). exists b, s'.
  unfold mbind at 1, M_bind at 1. rewrite E2. destruct b.
  - by exists w2.
  - eexists. split; [done|]. split; [done|]. split; [|unfold set_info, modify; reflexivity].
    apply purge_tail_keeps in E2. destruct Hq2 as [i2 Hold2]. pose proof (ho_ptr _ _ _ Hold2) as Hw2.
    rewrite E2 in Hw2. injection Hw2 as <-. destruct Hold2. eexists. eapply (set_holds (set_tailLocked true i) _ s'); [by constructor|by apply (layout_same (set_tailLocked true i))|done..].
Qed.

(** Removing an item ends only with the mutex. *)
Lemma spec_pull_cons s it l : filled s = it :: l ->
  spec_pull s = Fault MutexNotHeld \/ exists s', spec_pull s = Ok (true, s') /\ filled s' = l.
Proof.
  intros E. unfold spec_pull, spec_unlock. go. rewrite E. cbn. destruct (safe s); [destruct (held s)|]; eauto.
Qed.

Lemma purge_past_implements fuel : forall s w, (length (filled s) < fuel)%nat -> queue_is w s ->
  follows (purge_loop ptp fuel false) (purge_past (length (filled s))) w s.
Proof.
  induction fuel as [|fuel IH]; intros s w Hf Hq; [lia|].
  destruct (filled s) as [|it l] eqn:Hfs.
  - destruct Hq as [i Hold]. cbn [purge_loop length purge_past]. apply follows_get. eapply follows_info; [exact Hold|].
    rewrite (tail_guard _ _ _ (ho_layout _ _ _ Hold)), Hfs. apply follows_ret. by exists i.
  - destruct (purge_round fuel false w s it l Hq Hfs) as (b & s' & w' & Eb & Hf2 & Hq' & E).
    cbn [length purge_past]. apply follows_get. rewrite Hfs. apply (follows_right _ _ _ _ _ b s' Eb).
    unfold follows. rewrite E. destruct b; [|by exists w'].
    apply follows_bind; [by apply pull_implements|]. intros a w2 s2 E2 Hq2. rewrite Hfs in Hf2.
    destruct (spec_pull_cons s' it l Hf2) as [E3|(s3 & E3 & Hf3)]; rewrite E3 in E2; [done|]. injection E2 as <- <-.
    rewrite <- Hf3. apply IH; [|done]. cbn in Hf. rewrite Hf3. lia.
Qed.

Lemma layout_circle i a b : layout i a b -> (length a < circle i)%nat.
Proof.
  intros (Hn & _ & _ & p & Hp & Hrot & _). unfold circle. rewrite Hn, Nat2Z.id, <- (length_rot p (pItems i)), Hrot, length_app. lia.
Qed.

Lemma purge_implements ign : implements (purge_unless ptp ign) (spec_purge ign).
Proof.
  unfold purge_unless, spec_purge. destruct ign.
  { cbn [negb orb]. intros w s Hq. apply follows_get. by apply follows_ret. }
  cbn [negb orb]. apply implements_info. intros i s w Hold. pose proof Hold as [Hw Hr Hs Hsf Hm Hl].
  apply follows_get. rewrite Hs. rewrite Z.leb_antisym. destruct (0 <? stale_after s); cbn [negb]; [|by apply follows_ret; exists i].
  assert (Hq : queue_is w s) by by exists i. destruct (filled s) as [|it l] eqn:Hfs.
  - cbn [purge_loop]. eapply follows_info; [exact Hold|]. rewrite (tail_guard _ _ _ Hl). by apply follows_ret.
  - destruct (purge_round (circle i) true w s it l Hq Hfs) as (b & s' & w' & Eb & Hf2 & Hq' & E).
    unfold purge_condition, mbind, M_bind in Eb. destruct (spec_ask openavbAvtpTimeUsecDelta (pAvtpTime it) s) as [[delta s1]|] eqn:Ed; [|done].
    injection Eb as <- ->. apply (follows_right _ _ _ _ _ delta s' Ed). unfold follows. rewrite E.
    destruct (delta <? s32 (u32 (0 - stale_after s))); [|by exists w'].
    apply follows_bind; [by apply pull_implements|]. intros a w2 s2 E2 Hq2. rewrite Hfs in Hf2.
    destruct (spec_pull_cons s' it l Hf2) as [E3|(s3 & E3 & Hf3)]; rewrite E3 in E2; [done|]. injection E2 as <- <-.
    rewrite <- Hf3. apply purge_past_implements; [|done]. apply layout_circle in Hl. cbn in Hl. rewrite Hf3. lia.
Qed.

(** *** Looking at the items *)

(** What a pointer that an operation returned points to. *)
Definition pointed (k : option Z) : M mq_world (option media_q_item_t) :=
  match k with
  | None => mret None
  | Some k => with_info None (fun i => it ← lift (item_at (pItems i) k); mret (Some it))
  end.

Definition head_item_locked : M mq_world (option media_q_item_t) :=
  k ← openavbMediaQHeadLock; pointed k.
Definition tail_item_locked (ignoreTimestamp : bool) : M mq_world (option media_q_item_t) :=
  k ← openavbMediaQTailLock ptp ignoreTimestamp; pointed k.

(** The first free item; the mutex stays taken if there is one. *)
Definition spec_head_lock : SPEC (option media_q_item_t) :=
  spec_lock;;
  s ← get;
  match free s with
  | [] => spec_unlock;; mret None
  | it :: _ => mret (Some it)
  end.

Lemma pointed_follows i s w k it : holds i s w -> item_at (pItems i) k = Ok it ->
  follows (pointed (Some k)) (mret (Some it)) w s.
Proof.
  intros Hold E. unfold pointed. eapply follows_info; [exact Hold|]. apply (follows_left _ _ _ _ _ it w); [unfold lift; by rewrite E|].
  apply follows_ret. by exists i.
Qed.

Lemma assoc_follows {A B C} (m : M mq_world A) (k : A -> M mq_world B) (k' : B -> M mq_world C) f w s :
  follows (a ← m; b ← k a; k' b) f w s -> follows (b ← (a ← m; k a); k' b) f w s.
Proof. unfold follows, mbind, M_bind. by destruct (m w) as [[a w1]|]. Qed.

Lemma info_bind_follows {A B} (d : A) (m : media_q_info_t -> M mq_world A) (k : A -> M mq_world B) f i w s :
  holds i s w -> follows (a ← m i; k a) f w s -> follows (a ← with_info d m; k a) f w s.
Proof. intros Hold. unfold follows, with_info, mbind, M_bind, Prelude.get. cbn. by rewrite (ho_ptr _ _ _ Hold). Qed.

Lemma unlock_none i w s : holds i s w ->
  follows (k ← (unlock_if_safe i;; mret None); pointed k) (spec_unlock;; mret None) w s.
Proof.
  intros Hold. apply assoc_follows. apply unlock_follows; [done|]. intros w' s' Hold' _ _. apply follows_ret. by exists i.
Qed.

Lemma head_lock_implements : implements head_item_locked spec_head_lock.
Proof.
  unfold head_item_locked, openavbMediaQHeadLock, spec_head_lock. intros w s [i Hold]. eapply info_bind_follows; [exact Hold|].
  apply assoc_follows. apply lock_follows; [done|]. intros w1 s1 Hold1 _ _. apply follows_get.
  pose proof (ho_layout _ _ _ Hold1) as Hl. rewrite (head_guard _ _ _ Hl). destruct (free s1) as [|x b] eqn:Hb.
  - exact (unlock_none _ _ _ ltac:(eassumption)).
  - apply assoc_follows. pose proof Hold1 as [? ? ? ? ? Hl0].
    eapply (set_info_follows i _ _ _ s1); [exact Hold1|apply (layout_same i); [exact Hl0|reflexivity..]|cbn; congruence..|].
    intros w2 Hold2. apply (pointed_follows (set_headLocked true i)); [done|]. exact (head_item _ _ _ _ Hl).
Qed.

Definition past_unless (ign : bool) (it : media_q_item_t) : M mq_world bool :=
  if negb ign then ask_time ptp openavbAvtpTimeIsPast (pAvtpTime it) else mret true.
Definition spec_past (ign : bool) (it : media_q_item_t) : SPEC bool :=
  if negb ign then spec_ask openavbAvtpTimeIsPast (pAvtpTime it) else mret true.

Definition spec_tail_lock (ign : bool) : SPEC (option media_q_item_t) :=
  spec_purge ign;;
  spec_lock;;
  s ← get;
  match filled s with
  | [] => spec_unlock;; mret None
  | it :: _ =>
      past ← spec_past ign it;
      if negb past then spec_unlock;; mret None else mret (Some it)
  end.

Lemma past_implements ign it : implements (past_unless ign it) (spec_past ign it).
Proof. unfold past_unless, spec_past. destruct ign; [apply implements_ret|apply ask_implements]. Qed.

Lemma past_keeps ign it w a w' : past_unless ign it w = Ok (a, w') -> pMediaQ w' = pMediaQ w.
Proof. unfold past_unless. destruct ign; [by intros [= _ <-]|apply ask_time_keeps]. Qed.

Lemma spec_past_same ign it s : exists a s', spec_past ign it s = Ok (a, s') /\ same_queue s s'.
Proof. unfold spec_past. destruct ign; [by exists true, s|apply spec_ask_same]. Qed.

Lemma tail_lock_implements ign : implements (tail_item_locked ign) (spec_tail_lock ign).
Proof.
  intros w0 s0 Hq0. unfold tail_item_locked, openavbMediaQTailLock, spec_tail_lock. apply assoc_follows.
  apply follows_bind; [by apply purge_implements|]. intros _ w s _ [i Hold]. eapply info_bind_follows; [exact Hold|].
  apply assoc_follows. apply lock_follows; [done|]. intros w1 s1 Hold1 _ _. apply follows_get.
  pose proof (ho_layout _ _ _ Hold1) as Hl. rewrite (tail_guard _ _ _ Hl). destruct (filled s1) as [|x a] eqn:Ha.
  - exact (unlock_none _ _ _ ltac:(eassumption)).
  - apply assoc_follows. apply (follows_left _ _ _ _ _ x w1); [unfold lift; by rewrite (tail_item _ _ _ _ Hl)|].
    apply assoc_follows. destruct (spec_past_same ign x s1) as (past & s2 & E2 & Hsame).
    pose proof (past_implements ign x w1 s1 (ex_intro _ i Hold1)) as Hp. unfold follows in Hp. rewrite E2 in Hp.
    destruct Hp as (w2 & Ew & [i2 Hold2]). pose proof (past_keeps _ _ _ _ _ Ew) as Hk.
    apply (follows_right _ _ _ _ _ past s2 E2). apply (follows_left _ _ _ _ _ past w2 Ew).
    assert (i2 = i) as ->. { pose proof (ho_ptr _ _ _ Hold2) as H2. rewrite Hk, (ho_ptr _ _ _ Hold1) in H2. congruence. }
    destruct past; cbn [negb]; [|exact (unlock_none _ _ _ ltac:(eassumption))].
    apply assoc_follows. pose proof Hold2 as [? ? ? ? ? Hl2]. eapply (set_info_follows i _ _ _ s2); [exact Hold2|apply (layout_same i); [exact Hl2|reflexivity..]|cbn; congruence..|].
    intros w3 Hold3. apply (pointed_follows (set_tailLocked true i)); [done|]. exact (tail_item _ _ _ _ Hl).
Qed.

(** *** Questions about what is ready *)

Definition spec_limit (ign : bool) : SPEC (option Z) :=
  if ign then mret None else now ← spec_clock; mret (Some (default indeterminate now)).

Lemma limit_implements ign : implements (scan_limit ptp indeterminate ign) (spec_limit ign).
Proof.
  unfold scan_limit, spec_limit, clock_gettime64. destruct ign; [apply implements_ret|].
  intros w s Hq. apply assoc_follows. apply follows_bind; [by apply clock_implements|]. intros now w' s' _ Hq'. by apply follows_ret.
Qed.

Definition spec_usec_till : SPEC (option Z) :=
  s ← get;
  match filled s with
  | [] => mret None
  | it :: _ => spec_ask openavbAvtpTimeUsecTill (pAvtpTime it)
  end.

Lemma usec_till_implements : implements (openavbMediaQUsecTillTail ptp) spec_usec_till.
Proof.
  apply implements_info. intros i s w Hold. pose proof (ho_layout _ _ _ Hold) as Hl. apply follows_get.
  rewrite (tail_guard _ _ _ Hl). destruct (filled s) as [|x a] eqn:Ha; [by apply follows_ret; exists i|].
  apply (follows_left _ _ _ _ _ x w); [unfold lift; by rewrite (tail_item _ _ _ _ Hl)|]. apply ask_implements. by exists i.
Qed.

(** The items that are ready: those before the first one that is not. *)
Fixpoint ready_prefix (limit : option Z) (l : list media_q_item_t) : list media_q_item_t :=
  match l with
  | [] => []
  | it :: l => if ready_at limit it then it :: ready_prefix limit l else []
  end.

(** Whether the bytes of the ready items reach [nbytes], as the loop adds them up. *)
Fixpoint enough (limit : option Z) (nbytes : Z) (l : list media_q_item_t) (byteCnt : Z) : bool :=
  match l with
  | [] => false
  | it :: l =>
      ready_at limit it &&
      (let byteCnt := s32 (u32 (byteCnt + u32 (dataLen it - readIdx it))) in
       (nbytes <=? u32 byteCnt) || enough limit nbytes l byteCnt)
  end.

Definition about_ready {A} (ign : bool) (d : A) (f : option Z -> list media_q_item_t -> A) : SPEC A :=
  spec_purge ign;;
  s ← get;
  match filled s with
  | [] => mret d
  | l => limit ← spec_limit ign; mret (f limit l)
  end.

(** The item a scan looks at after [k] steps. *)
Definition seen (i : media_q_info_t) (p : nat) (a : list media_q_item_t) : Prop :=
  itemCount i = Z.of_nat (length (pItems i)) /\ (p < length (pItems i))%nat /\
  Forall (fun it => taken it = false) (pItems i) /\ (length a <= length (pItems i))%nat /\
  take (length a) (rot p (pItems i)) = a.

Lemma seen_item i p x a : seen i p (x :: a) -> item_at (pItems i) (Z.of_nat p) = Ok x /\ taken x = false.
Proof.
  intros (Hn & Hp & Hu & Hle & E). assert (Ex : pItems i !! p = Some x).
  { assert (rot p (pItems i) !! 0%nat = Some x) as Hr.
    { rewrite <- (lookup_take_lt _ (length (x :: a))) by (cbn; lia). by rewrite E. }
    rewrite rot_lookup in Hr by lia. revert Hr. wraps; [lia|by rewrite Nat.add_0_r]. }
  split; [by apply item_at_nat|]. by eapply (Forall_lookup_1 _ _ _ _ Hu Ex).
Qed.

Lemma seen_next i p x a : seen i p (x :: a) -> seen i (wrap (length (pItems i)) (p + 1)) a.
Proof.
  intros (Hn & Hp & Hu & Hle & E). cbn in Hle. split; [done|]. split; [wraps; lia|]. split; [done|]. split; [lia|].
  destruct (rot p (pItems i)) as [|y r] eqn:Hr; [done|]. injection E as -> E.
  rewrite (rot_next p _ r x) by done. apply (f_equal length) in Hr. rewrite length_rot in Hr. cbn in Hr.
  by rewrite take_app_le by lia.
Qed.

Lemma layout_seen i a b : layout i a b -> a <> [] -> exists p, seen i p a /\ q_tail i = Z.of_nat p /\
  q_head i = at_or_none b (wrap (length (pItems i)) (p + length a)) /\ length (pItems i) = (length a + length b)%nat.
Proof.
  intros (Hn & _ & Hu & p & Hp & Hr & Ht & Hh) Ha. exists p. destruct a as [|x a]; [done|].
  assert (length (pItems i) = (length (x :: a) + length b)%nat) as Hlen by (by rewrite <- (length_rot p), Hr, length_app).
  split; [|done]. repeat split; try done; [lia|]. by rewrite Hr, take_app_length.
Qed.

Lemma wrap_next_eq n p k : (p < n)%nat -> (k < n)%nat ->
  (Z.of_nat (wrap n (p + 1)) =? Z.of_nat (wrap n (p + S k))) = (k =? 0)%nat.
Proof.
  intros Hp Hk. destruct (Nat.eqb_spec k 0) as [d|d]; destruct (Z.eqb_spec (Z.of_nat (wrap n (p + 1))) (Z.of_nat (wrap n (p + S k)))) as [e|e];
    try done; exfalso; revert e; wraps; lia.
Qed.

Lemma bytes_loop_ok limit i nbytes a : a <> [] -> forall fuel p byteCnt, seen i p a -> (length a <= fuel)%nat ->
  bytes_loop fuel limit i nbytes (Z.of_nat (wrap (length (pItems i)) (p + length a))) (Z.of_nat p) byteCnt =
  Ok (enough limit nbytes a byteCnt).
Proof.
  induction a as [|x a IH]; [done|]. intros _ fuel p byteCnt Hseen Hfuel.
  destruct fuel as [|fuel]; [cbn in Hfuel; lia|]. cbn [bytes_loop enough].
  destruct (seen_item _ _ _ _ Hseen) as [E Ht]. pose proof (seen_next _ _ _ _ Hseen) as Hseen'.
  destruct Hseen as (Hn & Hp & _ & Hle & _). rewrite E. unfold mbind, outcome_bind. rewrite Ht.
  destruct (ready_at limit x); [|done]. cbn [negb andb]. cbv zeta. destruct (_ <=? u32 _); [done|].
  rewrite Hn, next_index_nat by done. cbn in Hle. cbn [length]. rewrite wrap_next_eq by lia.
  destruct a as [|y a]; [done|]. cbn [length Nat.eqb orb].
  replace (wrap (length (pItems i)) (p + S (S (length a)))) with
    (wrap (length (pItems i)) (wrap (length (pItems i)) (p + 1) + length (y :: a)))
    by (cbn [length] in *; wraps; lia).
  apply IH; [done|done|]. cbn in *. lia.
Qed.

Lemma count_loop_ok limit i a : a <> [] -> forall fuel p c, seen i p a -> (length a <= fuel)%nat -> itemCount i < 2 ^ 31 ->
  (q_head i = -1 /\ (c + length a)%nat = length (pItems i) \/
   q_head i = Z.of_nat (wrap (length (pItems i)) (p + length a)) /\ (c + length a < length (pItems i))%nat) ->
  count_loop fuel limit i (Z.of_nat p) (Z.of_nat c) = Ok (Z.of_nat (c + length (ready_prefix limit a))).
Proof.
  induction a as [|x a IH]; [done|]. intros _ fuel p c Hseen Hfuel Hm Hend.
  destruct fuel as [|fuel]; [cbn in Hfuel; lia|]. cbn [count_loop ready_prefix].
  destruct (seen_item _ _ _ _ Hseen) as [E Ht]. pose proof (seen_next _ _ _ _ Hseen) as Hseen'.
  destruct Hseen as (Hn & Hp & _ & Hle & _). rewrite E. unfold mbind, outcome_bind. rewrite Ht.
  destruct (ready_at limit x); cbn [negb]; [|by rewrite Nat.add_0_r].
  cbv zeta. rewrite Hn, next_index_nat by done. cbn [length] in *.
  rewrite u32_small by (unfold is_u32; lia). replace (Z.of_nat c + 1) with (Z.of_nat (S c)) by lia.
  replace (c + S (length (ready_prefix limit a)))%nat with (S c + length (ready_prefix limit a))%nat by lia.
  destruct a as [|y a].
  - cbn [length ready_prefix] in *. rewrite Nat.add_0_r. destruct Hend as [[Hh Hc]|[Hh Hc]].
    + destruct (_ =? q_head i); [done|]. destruct (Z.leb_spec (Z.of_nat (length (pItems i))) (Z.of_nat (S c))); [done|lia].
    + by rewrite Hh, Z.eqb_refl.
  - assert (Z.of_nat (wrap (length (pItems i)) (p + 1)) =? q_head i = false) as ->.
    { destruct Hend as [[Hh Hc]|[Hh Hc]]; rewrite Hh; [apply Z.eqb_neq; lia|]. rewrite wrap_next_eq by lia. done. }
    destruct (Z.leb_spec (Z.of_nat (length (pItems i))) (Z.of_nat (S c))); [cbn [length] in *; lia|].
    apply IH; [done|done|cbn [length] in *; lia|done|]. cbn [length] in *.
    destruct Hend as [[Hh Hc]|[Hh Hc]]; [left; split; [done|lia]|right]. split; [|lia]. rewrite Hh. f_equal. wraps; lia.
Qed.

Lemma about_ready_implements {A} ign (d : A) (m : option Z -> media_q_info_t -> outcome A) f :
  (forall limit i a b, layout i a b -> a <> [] -> m limit i = Ok (f limit a)) ->
  implements
    (purge_unless ptp ign;;
     with_info d (fun i =>
       if (0 <? itemCount i) && (-1 <? q_tail i) then
         limit ← scan_limit ptp indeterminate ign; lift (m limit i)
       else mret d))
    (about_ready ign d f).
Proof.
  intros Hm w0 s0 Hq0. unfold about_ready. apply follows_bind; [by apply purge_implements|]. intros _ w s _ [i Hold].
  eapply follows_info; [exact Hold|]. apply follows_get. pose proof (ho_layout _ _ _ Hold) as Hl. rewrite (tail_guard _ _ _ Hl).
  assert (Hq : queue_is w s) by by exists i. destruct (filled s) as [|x a] eqn:Ha; [by apply follows_ret|].
  apply follows_bind; [by apply limit_implements|]. intros limit w' s' _ Hq'. exists w'. unfold lift. by rewrite (Hm limit i _ _ Hl).
Qed.

Lemma available_implements nbytes ign :
  implements (openavbMediaQIsAvailableBytes ptp indeterminate nbytes ign)
    (about_ready ign false (fun limit a => enough limit nbytes a 0)).
Proof.
  unfold openavbMediaQIsAvailableBytes.
  apply (about_ready_implements ign false (fun limit i => bytes_loop (circle i) limit i nbytes
    (if -1 <? q_head i then q_head i else q_tail i) (q_tail i) 0)).
  intros limit i a b Hl Ha. destruct (layout_seen _ _ _ Hl Ha) as (p & Hseen & Ht & Hh & Hlen).
  pose proof Hseen as (Hn & Hp & _).
  assert ((if -1 <? q_head i then q_head i else q_tail i) = Z.of_nat (wrap (length (pItems i)) (p + length a))) as ->.
  { rewrite Hh, Ht. destruct b; cbn [at_or_none length] in *.
    - cbn. f_equal. wraps; lia.
    - destruct (Z.ltb_spec (-1) (Z.of_nat (wrap (length (pItems i)) (p + length a)))); [done|lia]. }
  rewrite Ht. apply bytes_loop_ok; [done|done|]. unfold circle. lia.
Qed.

Lemma count_implements ign :
  implements (openavbMediaQCountItems ptp indeterminate ign)
    (about_ready ign 0 (fun limit a => Z.of_nat (length (ready_prefix limit a)))).
Proof.
  unfold openavbMediaQCountItems.
  apply (about_ready_implements ign 0 (fun limit i => count_loop (circle i * circle i) limit i (q_tail i) 0)).
  intros limit i a b Hl Ha. destruct (layout_seen _ _ _ Hl Ha) as (p & Hseen & Ht & Hh & Hlen).
  pose proof Hseen as (Hn & Hp & _). rewrite Ht. change 0 with (Z.of_nat 0).
  rewrite (count_loop_ok limit i a Ha); [done|done| |apply Hl|].
  - unfold circle. assert (length a <= length (pItems i))%nat by lia. nia.
  - rewrite Hh. destruct b; cbn [at_or_none length] in *; [left|right]; (split; [done|lia]).
Qed.

Lemma any_ready_implements ign :
  implements (openavbMediaQAnyReadyItems ptp indeterminate ign)
    (about_ready ign false (fun limit a => match a with it :: _ => ready_at limit it | [] => false end)).
Proof.
  pose proof (about_ready_implements ign false
    (fun limit i => it ← item_at (pItems i) (q_tail i); Ok (negb (taken it) && ready_at limit it))
    (fun limit a => match a with it :: _ => ready_at limit it | [] => false end)) as H.
  intros w s Hq. assert (Hm : forall limit i a b, layout i a b -> a <> [] ->
    (it ← item_at (pItems i) (q_tail i); Ok (negb (taken it) && ready_at limit it)) =
    Ok (match a with it :: _ => ready_at limit it | [] => false end)).
  { intros limit i a b Hl Ha. destruct a as [|x a]; [done|]. rewrite (tail_item _ _ _ _ Hl). cbn.
    destruct (layout_seen _ _ _ Hl Ha) as (p & Hseen & _). by destruct (seen_item _ _ _ _ Hseen) as [_ ->]. }
  specialize (H Hm w s Hq). clear Hm. revert H. unfold follows.
  match goal with |- match ?x with _ => _ end -> _ => set (r := x) end. enough (forall m m' : outcome (bool * mq_world), m = m' ->
    match r with Ok (a, s') => exists w', m = Ok (a, w') /\ queue_is w' s' | Fault e => m = Fault e end ->
    match r with Ok (a, s') => exists w', m' = Ok (a, w') /\ queue_is w' s' | Fault e => m' = Fault e end) as Hen.
  { apply Hen. clear. unfold openavbMediaQAnyReadyItems, mbind, M_bind.
    destruct (purge_unless ptp ign w) as [[u w1]|]; [|done]. unfold with_info, mbind, M_bind, Prelude.get.
    destruct (pMediaQ w1) as [|[i|]|]; try done. destruct (_ && _); [|done].
    destruct (scan_limit ptp indeterminate ign w1) as [[l w2]|]; [|done].
    unfold lift, mbind, outcome_bind. by destruct (item_at _ _). }
  by intros m m' ->.
Qed.

End Clock.
