(* ===== verification/MediaQSafe.v ===== *)
(** * The media queue with items in the hands of clients

    [openavbMediaQTailItemTake] and [openavbMediaQTailItemGive] let a client own items of
    the queue.  A small program logic shows which states the operations can handle: all of
    them keep the indices in range and come to an end, unless every item is taken while
    the head is inactive, or the mutex of a queue with thread safety stops them.  Another
    one, at the end, tells when the mutex can. *)

From S2P Require Import Prelude AvtpTime MediaQ MediaQTheory.

Open Scope Z_scope.
Local Abbreviation length := List.length.
Local Abbreviation get := Prelude.get.

Section Safe.

(** Whether thread safety is on; no operation but [openavbMediaQThreadSafeOn] changes it. *)
Context (sf : bool).

(** ** A program logic *)

(** With thread safety on, a call can stop at the mutex. *)
Definition stopped {A} (m : outcome A) : Prop := sf = true /\ (m = Fault Deadlock \/ m = Fault MutexNotHeld).

(** [m] started with a structure in [P] returns, with answer and structure in [Q]. *)
Definition triple {A} (P : media_q_info_t -> Prop) (m : M mq_world A) (Q : A -> media_q_info_t -> Prop) : Prop :=
  forall w i, pMediaQ w = Queue (Some i) -> P i ->
  (exists a w' i', m w = Ok (a, w') /\ pMediaQ w' = Queue (Some i') /\ Q a i') \/ stopped (m w).

Lemma t_bind {A B} P (m : M mq_world A) Q (k : A -> M mq_world B) R :
  triple P m Q -> (forall a, triple (Q a) (k a) R) -> triple P (a ← m; k a) R.
Proof.
  intros Hm Hk w i Hw Hi. unfold mbind, M_bind. destruct (Hm w i Hw Hi) as [(a & w1 & i1 & E1 & Hw1 & H1)|(Hs & [E1|E1])].
  - rewrite E1. by apply (Hk a w1 i1).
  - right. split; [done|]. left. by rewrite E1.
  - right. split; [done|]. right. by rewrite E1.
Qed.

Lemma t_conseq {A} (P P' : media_q_info_t -> Prop) (m : M mq_world A) (Q Q' : A -> media_q_info_t -> Prop) :
  triple P m Q -> (forall i, P' i -> P i) -> (forall a i, Q a i -> Q' a i) -> triple P' m Q'.
Proof.
  intros H HP HQ w i Hw Hi. destruct (H w i Hw (HP i Hi)) as [(a & w' & i' & E & Hw' & H')|Hs]; [left|by right].
  exists a, w', i'. eauto.
Qed.

Lemma t_ret {A} (a : A) P : triple P (mret a) (fun _ => P).
Proof. intros w i Hw Hi. left. by exists a, w, i. Qed.

Lemma t_info {A} (d : A) f P Q : (forall i, P i -> triple (fun j => j = i) (f i) Q) -> triple P (with_info d f) Q.
Proof.
  intros H w i Hw Hi. unfold with_info, mbind, M_bind, Prelude.get. cbn beta iota. rewrite Hw. by apply (H i Hi w i).
Qed.

(** A computation that may fault is made at a known structure. *)
Lemma t_lift {A B} i (m : outcome A) (k : A -> M mq_world B) Q (S : A -> Prop) :
  (exists a, m = Ok a /\ S a) -> (forall a, S a -> triple (fun j => j = i) (k a) Q) ->
  triple (fun j => j = i) (a ← lift m; k a) Q.
Proof.
  intros (a & -> & Ha) Hk w j Hw Hj. unfold mbind, M_bind, lift. by apply (Hk a Ha w j).
Qed.

Lemma t_set i (P : media_q_info_t -> Prop) : triple P (set_info i) (fun _ j => j = i).
Proof. intros w j Hw Hj. left. by exists tt; eexists; exists i. Qed.

Lemma t_unlock i P : threadSafeOn i = sf -> triple P (unlock_if_safe i) (fun _ => P).
Proof.
  intros Hsf w j Hw Hj. unfold unlock_if_safe, MEDIAQ_UNLOCK. rewrite Hsf. destruct sf eqn:Hs; [|left; by exists tt, w, j].
  go. destruct (mutex_held w); [left|right; split; [done|by right]]. by exists tt, (set_q_mutex false w), j.
Qed.

Lemma t_lock i P : threadSafeOn i = sf -> triple P (lock_if_safe i) (fun _ => P).
Proof.
  intros Hsf w j Hw Hj. unfold lock_if_safe, MEDIAQ_LOCK. rewrite Hsf. destruct sf eqn:Hs; [|left; by exists tt, w, j].
  go. destruct (mutex_held w); [right; split; [done|by left]|left]. by exists tt, (set_q_mutex true w), j.
Qed.

Lemma t_ask {A} ptp (f : option Z -> option avtp_time_t -> A) p P : triple P (ask_time ptp f p) (fun _ => P).
Proof.
  intros w i Hw Hi. left. unfold ask_time, wall_clock. destruct p as [t|]; [destruct (trusted t)|]; go; eauto 6.
Qed.

Lemma t_limit ptp u ign P : triple P (scan_limit ptp u ign) (fun _ => P).
Proof. intros w i Hw Hi. left. unfold scan_limit, clock_gettime64, wall_clock. destruct ign; go; eauto 6. Qed.

Lemma t_purge_tail ptp bFirst stale it P : triple P (purge_tail ptp bFirst stale it) (fun _ => P).
Proof.
  unfold purge_tail. destruct bFirst; [|apply t_ask]. eapply t_bind; [apply t_ask|]. intros d. apply t_ret.
Qed.

(** ** Moving round the circle *)

(** How many steps an index needs to come to [g], a whole round from [g] itself. *)
Definition dist (n t g : nat) : nat := if (g <=? t)%nat then (g + n - t)%nat else (g - t)%nat.

Ltac dists := unfold dist, wrap in *; repeat match goal with |- context [(?a <=? ?b)%nat] => destruct (Nat.leb_spec a b) end.

Definition exchange (i : media_q_info_t) : media_q_info_t := set_q_head (q_tail i) (set_q_tail (q_head i) i).

Lemma exchange_exchange i : exchange (exchange i) = i.
Proof. by destruct i. Qed.

(** The two loops are the same up to the exchange of head and tail. *)
Lemma increment_exchange fuel start i :
  x_IncrementTail fuel start i = (x_IncrementHead fuel start (exchange i) ≫= (fun j => Ok (exchange j))).
Proof.
  revert i. induction fuel as [|fuel IH]; intros i; [done|]. cbn [x_IncrementTail x_IncrementHead].
  destruct i as [c sz l h hl t tl lat ts st]. cbn.
  destruct (t + 1 =? start); [done|]. destruct (next_index c t =? h); [done|].
  destruct (item_at l (next_index c t)) as [it|]; [|done]. cbn. destruct (taken it); [|done]. cbn. by rewrite IH.
Qed.

(** A place where the loop stops: the other index or an item that is not taken. *)
Definition stops_at (i : media_q_info_t) (other : Z) (g : nat) : Prop :=
  (g < length (pItems i))%nat /\
  (other = Z.of_nat g \/ exists it, pItems i !! g = Some it /\ taken it = false).

Lemma increment_head_stops g fuel start i h :
  itemCount i = Z.of_nat (length (pItems i)) -> q_head i = Z.of_nat h -> (h < length (pItems i))%nat ->
  stops_at i (q_tail i) g -> (dist (length (pItems i)) h g <= fuel)%nat ->
  exists r, x_IncrementHead fuel start i = Ok (set_q_head r i) /\
    (r = -1 \/ exists k, r = Z.of_nat k /\ (k < length (pItems i))%nat /\ r <> q_tail i /\
      (k <> g -> (dist (length (pItems i)) k g < dist (length (pItems i)) h g)%nat)).
Proof.
  revert i h. induction fuel as [|fuel IH]; intros i h Hn Hh Hlt Hg Hf.
  { destruct Hg as [Hg _]. revert Hf. dists; lia. }
  cbn [x_IncrementHead]. destruct (q_head i + 1 =? start); [exists (-1); auto|].
  cbv zeta. rewrite Hn, Hh, next_index_nat by done. set (k := wrap (length (pItems i)) (h + 1)).
  assert (Hk : (k < length (pItems i))%nat) by (subst k; wraps; lia).
  destruct (Z.eqb_spec (Z.of_nat k) (q_tail i)) as [|Hne]; [exists (-1); auto|].
  assert (Hd : k <> g -> (dist (length (pItems i)) k g < dist (length (pItems i)) h g)%nat).
  { destruct Hg as [Hg _]. subst k. intros Hkg. revert Hkg. dists; lia. }
  destruct (lookup_lt_is_Some_2 _ _ Hk) as [it E]. rewrite (item_at_nat _ _ _ E). unfold mbind, outcome_bind.
  destruct (taken it) eqn:Ht; cbn [negb]; [|exists (Z.of_nat k); split; [done|right; by exists k]].
  assert (Hkg : k <> g).
  { intros ->. destruct Hg as [_ [Hg|(it' & E' & Ht')]]; congruence. }
  destruct (IH (set_q_head (Z.of_nat k) i) k) as (r & E2 & Hr); try done.
  { cbn. specialize (Hd Hkg). lia. }
  exists r. split; [exact E2|]. destruct Hr as [->|(k' & -> & Hk' & Hne' & Hd')]; [auto|right].
  exists k'. cbn in *. repeat split; try done. intros H. specialize (Hd' H). specialize (Hd Hkg). lia.
Qed.

Lemma increment_tail_stops g fuel start i t :
  itemCount i = Z.of_nat (length (pItems i)) -> q_tail i = Z.of_nat t -> (t < length (pItems i))%nat ->
  stops_at i (q_head i) g -> (dist (length (pItems i)) t g <= fuel)%nat ->
  exists r, x_IncrementTail fuel start i = Ok (set_q_tail r i) /\
    (r = -1 \/ exists k, r = Z.of_nat k /\ (k < length (pItems i))%nat /\ r <> q_head i /\
      (k <> g -> (dist (length (pItems i)) k g < dist (length (pItems i)) t g)%nat)).
Proof.
  intros Hn Ht Hlt Hg Hf. destruct (increment_head_stops g fuel start (exchange i) t) as (r & E & Hr); try done.
  exists r. rewrite increment_exchange, E. by destruct i.
Qed.

(** ** The states the queue can handle *)

Definition index_ok (n : nat) (z : Z) : Prop := z = -1 \/ exists k, (k < n)%nat /\ z = Z.of_nat k.

Definition sound (i : media_q_info_t) : Prop :=
  itemCount i = Z.of_nat (length (pItems i)) /\ (itemCount i < 2 ^ 31 /\ threadSafeOn i = sf) /\ (0 < length (pItems i))%nat /\
  index_ok (length (pItems i)) (q_head i) /\ index_ok (length (pItems i)) (q_tail i).

Lemma sound_safe i : sound i -> threadSafeOn i = sf.
Proof. by intros (_ & [_ H] & _). Qed.

(** Not every item is taken while the head is inactive. *)
Definition usable (i : media_q_info_t) : Prop :=
  q_head i <> -1 \/ exists g it, pItems i !! g = Some it /\ taken it = false.

Lemma index_ok_active n z : index_ok n z -> (-1 <? z) = true -> exists k, (k < n)%nat /\ z = Z.of_nat k.
Proof. intros [->|H]; [done|auto]. Qed.

Lemma update_item_ok i k f : (k < length (pItems i))%nat ->
  exists l, update_item (Z.of_nat k) f i = Ok (set_items l i) /\ length l = length (pItems i) /\
    ((forall it, taken (f it) = taken it) -> forall g it, pItems i !! g = Some it -> exists it', l !! g = Some it' /\ taken it' = taken it).
Proof.
  intros Hk. destruct (lookup_lt_is_Some_2 _ _ Hk) as [x E]. rewrite (update_item_nat i k x f E).
  eexists. split; [done|]. split; [apply length_insert|]. intros Hf g it Hg. destruct (decide (g = k)) as [->|Hne].
  - rewrite list_lookup_insert_eq by done. exists (f x). split; [done|]. rewrite Hf. congruence.
  - rewrite list_lookup_insert_ne by done. eauto.
Qed.

Lemma sound_items l i : sound i -> length l = length (pItems i) -> sound (set_items l i).
Proof. unfold sound. cbn. by intros H ->. Qed.

Lemma sound_head r i : sound i -> index_ok (length (pItems i)) r -> sound (set_q_head r i).
Proof. intros (H1 & H2 & H3 & H4 & H5) Hr. unfold sound; tauto. Qed.
Lemma sound_tail r i : sound i -> index_ok (length (pItems i)) r -> sound (set_q_tail r i).
Proof. intros (H1 & H2 & H3 & H4 & H5) Hr. unfold sound; tauto. Qed.

Lemma push_sound i : sound i -> (-1 <? q_head i) = true ->
  exists i1 i2, update_item (q_head i) (set_readIdx 0) (if q_tail i =? -1 then set_q_tail (q_head i) i else i) = Ok i1 /\
    x_openavbMediaQIncrementHead i1 = Ok i2 /\ sound i2.
Proof.
  intros Hi Hh. pose proof Hi as (Hn & Hm & Hpos & Hhead & Htail).
  destruct (index_ok_active _ _ Hhead Hh) as (h & Hlt & Eh).
  set (i0 := if q_tail i =? -1 then set_q_tail (q_head i) i else i).
  assert (H0 : sound i0 /\ pItems i0 = pItems i /\ q_head i0 = q_head i /\ exists g, (g < length (pItems i))%nat /\ q_tail i0 = Z.of_nat g).
  { subst i0. destruct (Z.eqb_spec (q_tail i) (-1)) as [e|e].
    - split; [by apply sound_tail|]. rewrite Eh. repeat split; [done|]. by exists h.
    - split; [exact Hi|]. repeat split; try done. by destruct Htail as [?|Ht]. }
  destruct H0 as (H0 & Hit & Ehd & g & Hg & Eg).
  destruct (update_item_ok i0 h (set_readIdx 0)) as (l & E1 & Hl & _); [by rewrite Hit|].
  exists (set_items l i0). rewrite Eh. rewrite E1. rewrite Hit in Hl.
  assert (H1 : sound (set_items l i0)) by (apply sound_items; [done|by rewrite Hit]).
  destruct (increment_head_stops g (circle (set_items l i0)) (q_head (set_items l i0)) (set_items l i0) h) as (r & E2 & Hr).
  - apply H1.
  - cbn. by rewrite Ehd.
  - cbn. by rewrite Hl.
  - split; [cbn; by rewrite Hl|left; done].
  - unfold circle. destruct H1 as [-> _]. cbn. rewrite Hl. dists; lia.
  - exists (set_q_head r (set_items l i0)). split; [done|]. split; [exact E2|]. apply sound_head; [done|].
    destruct Hr as [->|(k & -> & Hk & _)]; [by left|right; by exists k].
Qed.

(** How far the tail is from the head: what a purge can remove. *)
Definition ahead (i : media_q_info_t) : nat :=
  if q_tail i =? -1 then 0%nat
  else dist (length (pItems i)) (Z.to_nat (q_tail i)) (Z.to_nat (if q_head i =? -1 then q_tail i else q_head i)).

Lemma pull_sound i : sound i -> (-1 <? q_tail i) = true ->
  exists i1 i2, update_item (q_tail i) emptied (if q_head i =? -1 then set_q_head (q_tail i) i else i) = Ok i1 /\
    x_openavbMediaQIncrementTail i1 = Ok i2 /\ sound i2 /\ q_head i2 <> -1 /\ (ahead i2 < ahead i)%nat.
Proof.
  intros Hi Hh. pose proof Hi as (Hn & Hm & Hpos & Hhead & Htail).
  destruct (index_ok_active _ _ Htail Hh) as (t & Hlt & Et).
  set (i0 := if q_head i =? -1 then set_q_head (q_tail i) i else i).
  assert (H0 : sound i0 /\ pItems i0 = pItems i /\ q_tail i0 = q_tail i /\
    exists g, (g < length (pItems i))%nat /\ q_head i0 = Z.of_nat g /\ ahead i = dist (length (pItems i)) t g).
  { unfold ahead. rewrite Et. destruct (Z.eqb_spec (Z.of_nat t) (-1)); [lia|]. subst i0.
    destruct (Z.eqb_spec (q_head i) (-1)) as [e|e].
    - split; [by apply sound_head|]. rewrite Et. repeat split; [done|]. exists t. by rewrite Nat2Z.id.
    - split; [exact Hi|]. repeat split; try done. destruct Hhead as [?|(g & Hg & Eg)]; [done|]. exists g. by rewrite Eg, !Nat2Z.id. }
  destruct H0 as (H0 & Hit & Etl & g & Hg & Eg & Hah).
  destruct (update_item_ok i0 t emptied) as (l & E1 & Hl & _); [by rewrite Hit|].
  exists (set_items l i0). rewrite Et. rewrite E1. rewrite Hit in Hl.
  assert (H1 : sound (set_items l i0)) by (apply sound_items; [done|by rewrite Hit]).
  destruct (increment_tail_stops g (circle (set_items l i0)) (q_tail (set_items l i0)) (set_items l i0) t) as (r & E2 & Hr).
  - apply H1.
  - cbn. by rewrite Etl.
  - cbn. by rewrite Hl.
  - split; [cbn; by rewrite Hl|left; done].
  - unfold circle. destruct H1 as [-> _]. cbn. rewrite Hl. dists; lia.
  - exists (set_q_tail r (set_items l i0)). split; [done|]. split; [exact E2|]. split; [|split].
    + apply sound_tail; [done|]. destruct Hr as [->|(k & -> & Hk & _)]; [by left|right; by exists k].
    + cbn. rewrite Eg. lia.
    + rewrite Hah. unfold ahead. cbn [q_tail q_head pItems set_q_tail set_items] in *. rewrite Hl, Eg.
      destruct Hr as [->|(k & -> & Hk & Hne & Hd)]; [cbn; dists; lia|].
      destruct (Z.eqb_spec (Z.of_nat k) (-1)); [lia|]. destruct (Z.eqb_spec (Z.of_nat g) (-1)); [lia|].
      rewrite !Nat2Z.id. rewrite <- Hl. apply Hd. intros ->. by rewrite Eg in Hne.
Qed.

Lemma take_sound i k : sound i -> usable i -> (-1 <? q_tail i) = true -> (k < length (pItems i))%nat ->
  exists i1 i2, x_openavbMediaQIncrementTail i = Ok i1 /\ update_item (Z.of_nat k) (set_taken true) i1 = Ok i2 /\ sound i2.
Proof.
  intros Hi Hu Hh Hk. pose proof Hi as (Hn & Hm & Hpos & Hhead & Htail).
  destruct (index_ok_active _ _ Htail Hh) as (t & Hlt & Et).
  assert (exists g, stops_at i (q_head i) g) as [g Hg].
  { destruct Hu as [Hu|(g & it & E & Ht)].
    - destruct Hhead as [?|(g & Hg & Eg)]; [done|]. exists g. split; [done|by left].
    - exists g. split; [by eapply lookup_lt_Some|right; eauto]. }
  destruct (increment_tail_stops g (circle i) (q_tail i) i t) as (r & E & Hr); try done.
  { unfold circle. rewrite Hn. destruct Hg as [Hg _]. dists; lia. }
  exists (set_q_tail r i). destruct (update_item_ok (set_q_tail r i) k (set_taken true)) as (l & E1 & Hl & _); [done|].
  exists (set_items l (set_q_tail r i)). split; [exact E|]. split; [exact E1|]. apply sound_items; [|done].
  apply sound_tail; [done|]. destruct Hr as [->|(k' & -> & Hk' & _)]; [by left|right; by exists k'].
Qed.

Lemma first_untaken_range l k0 k : first_untaken k0 l = Some k -> exists n, k = k0 + Z.of_nat n /\ (n < length l)%nat.
Proof.
  revert k0. induction l as [|it l IH]; intros k0; cbn; [done|]. destruct (taken it); cbn.
  - intros H. destruct (IH _ H) as (n & -> & Hn). exists (S n). lia.
  - intros [= <-]. exists 0%nat. lia.
Qed.

(** ** The loops over the items *)

Lemma item_ok i p : (p < length (pItems i))%nat -> exists it, item_at (pItems i) (Z.of_nat p) = Ok it /\ pItems i !! p = Some it.
Proof. intros Hp. destruct (lookup_lt_is_Some_2 _ _ Hp) as [it E]. exists it. split; [by apply item_at_nat|done]. Qed.

Lemma bytes_loop_ends limit i nbytes g : itemCount i = Z.of_nat (length (pItems i)) -> (g < length (pItems i))%nat ->
  forall fuel p byteCnt, (p < length (pItems i))%nat -> (dist (length (pItems i)) p g <= fuel)%nat ->
  exists b, bytes_loop fuel limit i nbytes (Z.of_nat g) (Z.of_nat p) byteCnt = Ok b.
Proof.
  intros Hn Hg. induction fuel as [|fuel IH]; intros p byteCnt Hp Hf; [revert Hf; dists; lia|].
  cbn [bytes_loop]. destruct (item_ok i p Hp) as (it & -> & _). unfold mbind, outcome_bind. cbv zeta.
  rewrite Hn, next_index_nat by done.
  assert (Hgo : forall c, exists b, (if Z.of_nat (wrap (length (pItems i)) (p + 1)) =? Z.of_nat g then Ok false
    else bytes_loop fuel limit i nbytes (Z.of_nat g) (Z.of_nat (wrap (length (pItems i)) (p + 1))) c) = Ok b).
  { intros c. destruct (Z.eqb_spec (Z.of_nat (wrap (length (pItems i)) (p + 1))) (Z.of_nat g)) as [|Hne]; [eauto|].
    apply IH; [wraps; lia|]. revert Hf Hne. dists; lia. }
  destruct (taken it); cbn [negb]; [apply Hgo|]. destruct (ready_at limit it); cbn [negb]; [|eauto].
  destruct (_ <=? u32 _); [eauto|apply Hgo].
Qed.

Lemma count_loop_ends_head limit i g : itemCount i = Z.of_nat (length (pItems i)) -> (g < length (pItems i))%nat ->
  q_head i = Z.of_nat g -> forall fuel p c, (p < length (pItems i))%nat -> (dist (length (pItems i)) p g <= fuel)%nat ->
  exists n, count_loop fuel limit i (Z.of_nat p) c = Ok n.
Proof.
  intros Hn Hg Hh. induction fuel as [|fuel IH]; intros p c Hp Hf; [revert Hf; dists; lia|].
  cbn [count_loop]. destruct (item_ok i p Hp) as (it & -> & _). unfold mbind, outcome_bind. cbv zeta.
  rewrite Hn, next_index_nat, Hh by done.
  assert (Hgo : forall c, exists n, (if Z.of_nat (wrap (length (pItems i)) (p + 1)) =? Z.of_nat g then Ok c
    else if Z.of_nat (length (pItems i)) <=? c then Ok c
    else count_loop fuel limit i (Z.of_nat (wrap (length (pItems i)) (p + 1))) c) = Ok n).
  { intros c'. destruct (Z.eqb_spec (Z.of_nat (wrap (length (pItems i)) (p + 1))) (Z.of_nat g)) as [|Hne]; [eauto|].
    destruct (_ <=? c'); [eauto|]. apply IH; [wraps; lia|]. revert Hf Hne. dists; lia. }
  destruct (taken it); cbn [negb]; [apply Hgo|]. destruct (ready_at limit it); cbn [negb]; [apply Hgo|eauto].
Qed.

(** With the head inactive the loop ends because it comes by an item that is not taken
    again and again, until it has counted as many as there are items. *)
Lemma count_loop_ends_full limit i g x : itemCount i = Z.of_nat (length (pItems i)) -> itemCount i < 2 ^ 31 ->
  q_head i = -1 -> pItems i !! g = Some x -> taken x = false ->
  forall fuel p c, (p < length (pItems i))%nat -> (c < length (pItems i))%nat ->
  ((length (pItems i) - c - 1) * length (pItems i) + (if decide (p = g) then 0 else dist (length (pItems i)) p g) < fuel)%nat ->
  exists n, count_loop fuel limit i (Z.of_nat p) (Z.of_nat c) = Ok n.
Proof.
  intros Hn Hm Hh Eg Hx. assert (Hg : (g < length (pItems i))%nat) by by eapply lookup_lt_Some.
  induction fuel as [|fuel IH]; intros p c Hp Hc Hf; [by apply Nat.nlt_0_r in Hf|].
  cbn [count_loop]. destruct (item_ok i p Hp) as (it & -> & Eit). unfold mbind, outcome_bind. cbv zeta.
  rewrite Hn, next_index_nat, Hh by done. set (p' := wrap (length (pItems i)) (p + 1)).
  assert (Hp' : (p' < length (pItems i))%nat) by (subst p'; wraps; lia).
  destruct (Z.eqb_spec (Z.of_nat p') (-1)); [lia|]. rewrite u32_small by (unfold is_u32; lia).
  assert (Hgo : forall c', (c' = c /\ p <> g \/ c' = S c) -> exists n, (if Z.of_nat (length (pItems i)) <=? Z.of_nat c' then Ok (Z.of_nat c')
    else count_loop fuel limit i (Z.of_nat p') (Z.of_nat c')) = Ok n).
  { intros c' Hc'. destruct (Z.leb_spec (Z.of_nat (length (pItems i))) (Z.of_nat c')); [eauto|]. apply IH; [done|lia|].
    subst p'. destruct (decide (p = g)) as [Hpg|Hpg].
    - subst p. assert (c' = S c) as -> by lia.
      replace (length (pItems i) - c - 1)%nat with (S (length (pItems i) - S c - 1)) in Hf by lia.
      generalize dependent (length (pItems i) - S c - 1)%nat. intros k Hf.
      destruct (decide _); [lia|]. revert Hf. dists; lia.
    - assert ((length (pItems i) - c' - 1) * length (pItems i) <= (length (pItems i) - c - 1) * length (pItems i))%nat
        by (apply Nat.mul_le_mono_r; lia).
      destruct (decide _) as [Hd|Hd]; revert Hf Hd; dists; lia. }
  replace (Z.of_nat c + 1) with (Z.of_nat (S c)) by lia.
  destruct (taken it) eqn:Ht; cbn [negb]; [apply Hgo; left; split; [done|congruence]|].
  destruct (ready_at limit it); cbn [negb]; [apply Hgo; by right|eauto].
Qed.

(** ** The operations *)

(** Sound, and also usable when [b] asks for it. *)
Definition fit (b : bool) (i : media_q_info_t) : Prop := sound i /\ (b = true -> usable i).

Lemma fit_guard_head b i : fit b i -> (0 <? itemCount i) && (-1 <? q_head i) = (-1 <? q_head i).
Proof. intros [(Hn & _ & Hpos & _) _]. rewrite Hn. by destruct (Z.ltb_spec 0 (Z.of_nat (length (pItems i)))); [|lia]. Qed.
Lemma fit_guard_tail b i : fit b i -> (0 <? itemCount i) && (-1 <? q_tail i) = (-1 <? q_tail i).
Proof. intros [(Hn & _ & Hpos & _) _]. rewrite Hn. by destruct (Z.ltb_spec 0 (Z.of_nat (length (pItems i)))); [|lia]. Qed.

Lemma fit_head_active b i : sound i -> q_head i <> -1 -> fit b i.
Proof. intros Hi Hh. split; [done|]. by left. Qed.

Lemma t_keep {A} (i : media_q_info_t) (Q : A -> media_q_info_t -> Prop) (a : A) : Q a i ->
  triple (fun k => k = i) (mret a) Q.
Proof. intros Hi w k Hw ->. left. by exists a, w, i. Qed.

Lemma t_unlock_keep (i j : media_q_info_t) (P : media_q_info_t -> Prop) : threadSafeOn i = sf -> P j ->
  triple (fun k => k = j) (unlock_if_safe i) (fun _ => P).
Proof. intros Hsf Hj w k Hw ->. by apply (t_unlock i P Hsf w j). Qed.

Lemma t_set_keep (i : media_q_info_t) (P Q : media_q_info_t -> Prop) : Q i -> triple P (set_info i) (fun _ => Q).
Proof. intros Hi w k Hw _. left. by exists tt; eexists; exists i. Qed.

Lemma t_unlock_ret {A} (i : media_q_info_t) (Q : A -> media_q_info_t -> Prop) (a : A) : threadSafeOn i = sf -> Q a i ->
  triple (fun k => k = i) (unlock_if_safe i;; mret a) Q.
Proof. intros Hsf Hi. eapply t_bind; [by apply t_unlock|]. intros []. by apply t_keep. Qed.

(** The pointer an operation returns, if any, points to an item. *)
Definition points (a : option Z) (i : media_q_info_t) : Prop :=
  forall k, a = Some k -> exists n, (n < length (pItems i))%nat /\ k = Z.of_nat n.

Lemma points_none i : points None i.
Proof. done. Qed.

Lemma points_active i z : index_ok (length (pItems i)) z -> (-1 <? z) = true -> points (Some z) i.
Proof. intros Hz Hact k [= <-]. by apply index_ok_active. Qed.

Ltac safe :=
  match goal with
  | H : sound ?j |- _ => exact (sound_safe j H)
  | H : fit _ ?j |- _ => exact (sound_safe j (proj1 H))
  end.

Lemma t_head_lock b : triple (fit b) openavbMediaQHeadLock (fun a i => fit b i /\ points a i).
Proof.
  apply t_info. intros i Hi. eapply t_bind; [apply t_lock; safe|]. intros []. rewrite (fit_guard_head _ _ Hi).
  destruct (-1 <? q_head i) eqn:Hh.
  - eapply t_bind; [apply t_set|]. intros []. apply t_keep. split; [done|]. apply points_active; [apply Hi|done].
  - apply t_unlock_ret; [safe|done].
Qed.

Lemma t_head_unlock b : triple (fit b) openavbMediaQHeadUnlock (fun _ => fit b).
Proof.
  apply t_info. intros i Hi. destruct (_ && _); [|by apply t_keep].
  eapply t_bind; [apply t_set|]. intros []. apply t_unlock_keep; [safe|done].
Qed.

Lemma t_tail_unlock b : triple (fit b) openavbMediaQTailUnlock (fun _ => fit b).
Proof.
  apply t_info. intros i Hi. destruct (_ && _); [|by apply t_keep].
  eapply t_bind; [apply t_set|]. intros []. apply t_unlock_keep; [safe|done].
Qed.

Lemma t_push : triple sound openavbMediaQHeadPush (fun _ => sound).
Proof.
  apply t_info. intros i Hi. rewrite (fit_guard_head false) by (by split). destruct (-1 <? q_head i) eqn:Hh; [|by apply t_keep].
  destruct (push_sound i Hi Hh) as (i1 & i2 & E1 & E2 & H2). cbv zeta.
  eapply (t_lift _ _ _ _ (fun j => j = i1)); [eauto|]. intros ? ->.
  eapply (t_lift _ _ _ _ (fun j => j = i2)); [eauto|]. intros ? ->.
  eapply t_bind; [apply t_set|]. intros []. eapply t_bind; [apply t_unlock; safe|]. intros []. by apply t_keep.
Qed.

Lemma t_pull m : triple (fun i => sound i /\ (-1 <? q_tail i) = true /\ (ahead i <= m)%nat) openavbMediaQTailPull
  (fun _ j => sound j /\ q_head j <> -1 /\ (ahead j < m)%nat).
Proof.
  apply t_info. intros i (Hi & Ht & Hm). rewrite (fit_guard_tail false), Ht by (by split).
  destruct (pull_sound i Hi Ht) as (i1 & i2 & E1 & E2 & H2 & Hh & Hah). cbv zeta.
  change (fun it => set_dataLen 0 (set_readIdx 0 it)) with emptied.
  eapply (t_lift _ _ _ _ (fun j => j = i1)); [eauto|]. intros ? ->.
  eapply (t_lift _ _ _ _ (fun j => j = i2)); [eauto|]. intros ? ->.
  eapply t_bind; [apply t_set|]. intros []. eapply t_bind; [apply t_unlock; safe|]. intros []. apply t_keep.
  split; [done|]. split; [done|]. change (ahead i2 < m)%nat. lia.
Qed.

Lemma t_pull_fit b : triple (fit b) openavbMediaQTailPull (fun _ => fit b).
Proof.
  intros w i Hw Hi. destruct (-1 <? q_tail i) eqn:Ht.
  - destruct (t_pull (ahead i) w i Hw) as [(a & w' & i' & E & Hw' & Hs & Hh & _)|Hs]; [by destruct Hi| |by right].
    left. exists a, w', i'. split; [done|]. split; [done|]. by apply fit_head_active.
  - left. exists false, w, i. split; [|done]. unfold openavbMediaQTailPull, with_info, mbind, M_bind, Prelude.get.
    cbn beta iota. by rewrite Hw, (fit_guard_tail _ _ Hi), Ht.
Qed.

Section Clock.
Context (ptp : nat -> option Z) (indeterminate : Z).

Lemma t_purge_loop b fuel : forall m bFirst, (m < fuel)%nat ->
  triple (fun i => fit b i /\ (ahead i <= m)%nat) (purge_loop ptp fuel bFirst) (fun _ => fit b).
Proof.
  induction fuel as [|fuel IH]; intros m bFirst Hm; [lia|]. cbn [purge_loop]. apply t_info. intros i [Hi Hah].
  rewrite (fit_guard_tail _ _ Hi). destruct (-1 <? q_tail i) eqn:Ht; [|by apply t_keep].
  pose proof Hi as [(_ & _ & _ & _ & Htail) _]. destruct (index_ok_active _ _ Htail Ht) as (t & Hlt & Et).
  destruct (item_ok i t Hlt) as (it & Eit & _). rewrite Et.
  eapply (t_lift _ _ _ _ (fun j => j = it)); [eauto|]. intros ? ->.
  eapply t_bind; [apply t_set|]. intros []. eapply t_bind; [apply t_purge_tail|]. intros [].
  - apply (t_bind _ _ (fun _ j => fit b j /\ (ahead j <= ahead i - 1)%nat)).
    + eapply t_conseq; [apply (t_pull (ahead i))|intros ? ->; by destruct Hi|].
      intros a j (H1 & H2 & H3). split; [by apply fit_head_active|lia].
    + intros _. destruct m as [|m]; [|eapply t_conseq; [apply (IH m); lia| |done]; cbn; intros j [H1 H2]; split; [done|lia]].
      intros w j Hw [H1 H2]. exfalso. revert Hah. unfold ahead. rewrite Et. destruct (Z.eqb_spec (Z.of_nat t) (-1)); [lia|].
      destruct Hi as [(_ & _ & _ & Hhead & _) _]. destruct Hhead as [->|(h & Hh & ->)].
      * cbn. rewrite Nat2Z.id. dists; lia.
      * destruct (Z.eqb_spec (Z.of_nat h) (-1)); [lia|]. rewrite !Nat2Z.id. dists; lia.
  - by apply t_set_keep.
Qed.

Lemma ahead_circle i : sound i -> (ahead i <= circle i)%nat.
Proof.
  intros (Hn & _ & Hpos & Hhead & Htail). unfold ahead, circle. rewrite Hn.
  destruct Htail as [->|(t & Ht & ->)]; [cbn; lia|]. destruct (Z.eqb_spec (Z.of_nat t) (-1)); [lia|].
  destruct Hhead as [->|(h & Hh & ->)]; [cbn; rewrite !Nat2Z.id; dists; lia|].
  destruct (Z.eqb_spec (Z.of_nat h) (-1)); [lia|]. rewrite !Nat2Z.id. dists; lia.
Qed.

Lemma t_purge b ign : triple (fit b) (purge_unless ptp ign) (fun _ => fit b).
Proof.
  unfold purge_unless. destruct ign; cbn [negb]; [apply t_ret|]. apply t_info. intros i Hi.
  destruct (0 <? maxStaleTailUsec i); [|by apply t_keep].
  eapply t_conseq; [apply (t_purge_loop b (S (circle i)) (circle i)); lia| |done].
  intros j ->. split; [done|]. apply ahead_circle, Hi.
Qed.

Lemma t_tail_lock b ign : triple (fit b) (openavbMediaQTailLock ptp ign) (fun a i => fit b i /\ points a i).
Proof.
  eapply t_bind; [apply t_purge|]. intros []. apply t_info. intros i Hi.
  eapply t_bind; [apply t_lock; safe|]. intros []. rewrite (fit_guard_tail _ _ Hi).
  destruct (-1 <? q_tail i) eqn:Ht; [|apply t_unlock_ret; [safe|done]].
  pose proof Hi as [(_ & _ & _ & _ & Htail) _]. destruct (index_ok_active _ _ Htail Ht) as (t & Hlt & Et).
  destruct (item_ok i t Hlt) as (it & Eit & _). rewrite Et.
  eapply (t_lift _ _ _ _ (fun j => j = it)); [eauto|]. intros ? ->.
  apply (t_bind _ _ (fun _ j => j = i)); [destruct ign; [apply t_ret|apply t_ask]|]. intros past.
  destruct past; cbn [negb]; [|apply t_unlock_ret; [safe|done]]. eapply t_bind; [apply t_set|]. intros []. apply t_keep.
  split; [done|]. intros k [= <-]. by exists t.
Qed.

Lemma t_usec_till b : triple (fit b) (openavbMediaQUsecTillTail ptp) (fun _ => fit b).
Proof.
  apply t_info. intros i Hi. rewrite (fit_guard_tail _ _ Hi). destruct (-1 <? q_tail i) eqn:Ht; [|by apply t_keep].
  pose proof Hi as [(_ & _ & _ & _ & Htail) _]. destruct (index_ok_active _ _ Htail Ht) as (t & Hlt & Et).
  destruct (item_ok i t Hlt) as (it & Eit & _). rewrite Et.
  eapply (t_lift _ _ _ _ (fun j => j = it)); [eauto|]. intros ? ->.
  eapply t_conseq; [apply t_ask|exact (fun j H => H)|]. by intros _ j ->.
Qed.

(** A scan that ends changes nothing but the clock. *)
Lemma t_scan {A} b (d : A) ign (m : option Z -> media_q_info_t -> outcome A) :
  (forall limit i, fit b i -> (-1 <? q_tail i) = true -> exists a, m limit i = Ok a) ->
  triple (fit b)
    (purge_unless ptp ign;;
     with_info d (fun i =>
       if (0 <? itemCount i) && (-1 <? q_tail i) then
         limit ← scan_limit ptp indeterminate ign; lift (m limit i)
       else mret d)) (fun _ => fit b).
Proof.
  intros Hm. eapply t_bind; [apply t_purge|]. intros []. apply t_info. intros i Hi.
  rewrite (fit_guard_tail _ _ Hi). destruct (-1 <? q_tail i) eqn:Ht; [|by apply t_keep].
  eapply t_bind; [apply t_limit|]. intros limit w j Hw ->. destruct (Hm limit i Hi Ht) as [a E].
  left. exists a, w, i. unfold lift. by rewrite E.
Qed.

Lemma t_available b nbytes ign : triple (fit b) (openavbMediaQIsAvailableBytes ptp indeterminate nbytes ign) (fun _ => fit b).
Proof.
  apply (t_scan b false ign (fun limit i => bytes_loop (circle i) limit i nbytes
    (if -1 <? q_head i then q_head i else q_tail i) (q_tail i) 0)).
  intros limit i [(Hn & _ & _ & Hhead & Htail) _] Ht. destruct (index_ok_active _ _ Htail Ht) as (t & Hlt & Et).
  assert (exists g, (g < length (pItems i))%nat /\ (if -1 <? q_head i then q_head i else q_tail i) = Z.of_nat g) as (g & Hg & ->).
  { destruct Hhead as [->|(h & Hh & ->)]; cbn; [by exists t|]. destruct (Z.ltb_spec (-1) (Z.of_nat h)); [by exists h|lia]. }
  rewrite Et. apply bytes_loop_ends; try done. unfold circle. rewrite Hn. dists; lia.
Qed.

Lemma t_count ign : triple (fit true) (openavbMediaQCountItems ptp indeterminate ign) (fun _ => fit true).
Proof.
  apply (t_scan true 0 ign (fun limit i => count_loop (circle i * circle i) limit i (q_tail i) 0)).
  intros limit i [(Hn & [Hm _] & Hpos & Hhead & Htail) Hu] Ht. destruct (index_ok_active _ _ Htail Ht) as (t & Hlt & ->).
  assert (Hc : circle i = S (length (pItems i))) by (unfold circle; by rewrite Hn, Nat2Z.id).
  specialize (Hu eq_refl). destruct Hhead as [Hh|(h & Hh & Eh)].
  - destruct Hu as [Hu|(g & x & Eg & Hx)]; [done|]. change 0 with (Z.of_nat 0).
    eapply count_loop_ends_full; try done. rewrite Hc.
    assert (g < length (pItems i))%nat by by eapply lookup_lt_Some.
    assert ((length (pItems i) - 0 - 1) * length (pItems i) <= length (pItems i) * length (pItems i))%nat by (apply Nat.mul_le_mono_r; lia).
    destruct (decide _); [lia|]. dists; lia.
  - apply (count_loop_ends_head limit i h); try done. rewrite Hc. dists; lia.
Qed.

Lemma t_any b ign : triple (fit b) (openavbMediaQAnyReadyItems ptp indeterminate ign) (fun _ => fit b).
Proof.
  eapply t_bind; [apply t_purge|]. intros []. apply t_info. intros i Hi. rewrite (fit_guard_tail _ _ Hi).
  destruct (-1 <? q_tail i) eqn:Ht; [|by apply t_keep].
  pose proof Hi as [(_ & _ & _ & _ & Htail) _]. destruct (index_ok_active _ _ Htail Ht) as (t & Hlt & Et).
  destruct (item_ok i t Hlt) as (it & Eit & _). rewrite Et. eapply t_bind; [apply t_limit|]. intros limit.
  eapply (t_lift _ _ _ _ (fun j => j = it)); [eauto|]. intros ? _. by apply t_keep.
Qed.

End Clock.

(** Taking needs a place to go on to; giving back brings one. *)
Lemma t_take k : triple (fun i => fit true i /\ (k < length (pItems i))%nat) (openavbMediaQTailItemTake (Some (Z.of_nat k))) (fun _ => sound).
Proof.
  apply t_info. intros i [Hi Hk]. rewrite (fit_guard_tail _ _ Hi).
  destruct Hi as [Hi Hu]. destruct (-1 <? q_tail i) eqn:Ht; [|by apply t_keep].
  destruct (take_sound i k Hi (Hu eq_refl) Ht Hk) as (i1 & i2 & E1 & E2 & H2).
  eapply (t_lift _ _ _ _ (fun j => j = i1)); [eauto|]. intros ? ->.
  eapply (t_lift _ _ _ _ (fun j => j = i2)); [eauto|]. intros ? ->.
  eapply t_bind; [apply t_set|]. intros []. eapply t_bind; [apply t_unlock; safe|]. intros []. by apply t_keep.
Qed.

Lemma t_give k : triple (fun i => sound i /\ (k < length (pItems i))%nat) (openavbMediaQTailItemGive (Some (Z.of_nat k))) (fun _ => sound).
Proof.
  apply t_info. intros i [Hi Hk].
  match goal with |- context [update_item _ ?f _] => destruct (update_item_ok i k f Hk) as (l & E & Hl & _) end.
  assert (H1 : sound (set_items l i)) by by apply sound_items.
  eapply (t_lift _ _ _ _ (fun j => j = set_items l i)); [eauto|]. intros ? ->.
  eapply t_bind; [apply t_lock; safe|]. intros []. eapply t_bind; [apply t_set|]. intros [].
  eapply t_bind; [apply t_unlock; safe|]. intros []. apply t_keep.
  destruct (_ && _); [|done]. destruct (first_untaken 0 _) as [g|] eqn:Eg; [|done].
  destruct (first_untaken_range _ _ _ Eg) as (n & -> & Hn). apply sound_head; [done|]. right. by exists n.
Qed.

(** The loop of [openavbMediaQTailItemTake] does not end when every item is taken, the
    head is inactive and the tail starts at the first item, whatever the bound. *)
Lemma take_goes_on fuel i k : q_head i = -1 -> itemCount i = Z.of_nat (length (pItems i)) -> Forall (fun it => taken it = true) (pItems i) ->
  (k < length (pItems i))%nat -> q_tail i = Z.of_nat k -> x_IncrementTail fuel 0 i = Fault FuelExhausted.
Proof.
  revert i k. induction fuel as [|fuel IH]; intros i k Hh Hn Hall Hk Et; [done|]. cbn [x_IncrementTail].
  destruct (Z.eqb_spec (q_tail i + 1) 0); [lia|]. cbv zeta. rewrite Hn, Et, next_index_nat by done.
  set (k' := wrap (length (pItems i)) (k + 1)). assert (Hk' : (k' < length (pItems i))%nat) by (subst k'; wraps; lia).
  destruct (Z.eqb_spec (Z.of_nat k') (q_head i)); [lia|].
  destruct (item_ok i k' Hk') as (it & -> & E). unfold mbind, outcome_bind.
  rewrite (Forall_lookup_1 _ _ _ _ Hall E). cbn [negb]. by apply (IH _ k').
Qed.

Lemma t_pointed b a : triple (fun i => fit b i /\ points a i) (pointed a) (fun _ => fit b).
Proof.
  destruct a as [k|]; cbn [pointed].
  - apply t_info. intros i [Hi Hp]. destruct (Hp k eq_refl) as (n & Hn & ->). destruct (item_ok i n Hn) as (it & E & _).
    eapply (t_lift _ _ _ _ (fun j => j = it)); [eauto|]. intros ? _. by apply t_keep.
  - eapply t_conseq; [apply t_ret|exact (fun i H => H)|]. by intros _ i [Hi _].
Qed.

End Safe.

(** ** The mutex *)

(** A fault that has nothing to do with the mutex. *)
Definition aside {A} (m : outcome A) : Prop := m <> Fault Deadlock /\ m <> Fault MutexNotHeld.

Lemma aside_Ok {A} (a : A) : aside (Ok a).
Proof. by split. Qed.

Lemma aside_bind {A B} (m : outcome A) (k : A -> outcome B) : aside m -> (forall a, aside (k a)) -> aside (m ≫= k).
Proof. intros [H1 H2] Hk. destruct m as [a|e]; [apply Hk|]. split; intros [= ->]; first [by apply H1|by apply H2]. Qed.

Lemma aside_item l k : aside (item_at l k).
Proof. unfold item_at. repeat case_match; by split. Qed.

Lemma aside_update k f i : aside (update_item k f i).
Proof. apply aside_bind; [apply aside_item|]. intros. apply aside_Ok. Qed.

Ltac aside := repeat first
  [apply aside_Ok | apply aside_item | apply aside_update | done | apply aside_bind; [|intros ?] | case_match | by split].

Lemma aside_head fuel start i : aside (x_IncrementHead fuel start i).
Proof. revert i. induction fuel; intros i; cbn [x_IncrementHead]; aside. Qed.

Lemma aside_tail fuel start i : aside (x_IncrementTail fuel start i).
Proof. revert i. induction fuel; intros i; cbn [x_IncrementTail]; aside. Qed.

Lemma aside_bytes fuel limit i n e t c : aside (bytes_loop fuel limit i n e t c).
Proof. revert t c. induction fuel; intros t c; cbn [bytes_loop]; cbv zeta; aside. Qed.

Lemma aside_count fuel limit i t c : aside (count_loop fuel limit i t c).
Proof. revert t c. induction fuel; intros t c; cbn [count_loop]; cbv zeta; aside. Qed.

(** [calm] leaves the mutex alone; [releases] never waits for it and never takes it;
    [waits] waits only for a mutex that was held before; [gives_back] unlocks without
    having it only when it was free before. *)
Definition calm {A} (m : M mq_world A) : Prop := forall w,
  match m w with Ok (_, w') => mutex_held w' = mutex_held w | Fault e => e <> Deadlock /\ e <> MutexNotHeld end.
Definition releases {A} (m : M mq_world A) : Prop := forall w,
  match m w with Ok (_, w') => mutex_held w' = true -> mutex_held w = true | Fault e => e <> Deadlock end.
Definition waits {A} (m : M mq_world A) : Prop := forall w, m w = Fault Deadlock -> mutex_held w = true.
Definition gives_back {A} (m : M mq_world A) : Prop := forall w, m w = Fault MutexNotHeld -> mutex_held w = false.

Lemma calm_ret {A} (a : A) : calm (mret a).
Proof. done. Qed.

Lemma calm_set i : calm (set_info i).
Proof. done. Qed.

Lemma calm_lift {A} (m : outcome A) : aside m -> calm (lift m).
Proof. intros [H1 H2] w. unfold lift. destruct m; [done|]. split; congruence. Qed.

Lemma calm_bind {A B} (m : M mq_world A) (k : A -> M mq_world B) : calm m -> (forall a, calm (k a)) -> calm (m ≫= k).
Proof.
  intros Hm Hk w. specialize (Hm w). unfold mbind, M_bind. destruct (m w) as [[a w']|e]; [|done].
  specialize (Hk a w'). destruct (k a w') as [[b w'']|e]; [congruence|done].
Qed.

Lemma calm_info {A} (d : A) f : (forall i, calm (f i)) -> calm (with_info d f).
Proof. intros Hf w. unfold with_info. go. destruct (pMediaQ w) as [|[i|]|]; try done. apply Hf. Qed.

Lemma calm_ask ptp {A} (f : option Z -> option avtp_time_t -> A) p : calm (ask_time ptp f p).
Proof. intros w. unfold ask_time, wall_clock. by destruct p as [t|]; [destruct (trusted t)|]. Qed.

Lemma calm_limit ptp u ign : calm (scan_limit ptp u ign).
Proof. intros w. unfold scan_limit, clock_gettime64, wall_clock. by destruct ign. Qed.

Lemma releases_calm {A} (m : M mq_world A) : calm m -> releases m.
Proof. intros H w. specialize (H w). destruct (m w) as [[a w']|e]; [congruence|apply H]. Qed.

Lemma releases_bind {A B} (m : M mq_world A) (k : A -> M mq_world B) : releases m -> (forall a, releases (k a)) -> releases (m ≫= k).
Proof.
  intros Hm Hk w. specialize (Hm w). unfold mbind, M_bind. destruct (m w) as [[a w']|e]; [|done].
  specialize (Hk a w'). destruct (k a w') as [[b w'']|e]; [auto|done].
Qed.

Lemma releases_info {A} (d : A) f : (forall i, releases (f i)) -> releases (with_info d f).
Proof. intros Hf w. unfold with_info. go. destruct (pMediaQ w) as [|[i|]|]; try done. apply Hf. Qed.

Lemma releases_unlock i : releases (unlock_if_safe i).
Proof.
  intros w. unfold unlock_if_safe, MEDIAQ_UNLOCK. destruct (threadSafeOn i); [|by go]. go. destruct (mutex_held w); [by cbn|discriminate].
Qed.

Lemma waits_releases {A} (m : M mq_world A) : releases m -> waits m.
Proof. intros H w E. specialize (H w). by rewrite E in H. Qed.

Lemma waits_bind {A B} (m : M mq_world A) (k : A -> M mq_world B) : releases m -> (forall a, waits (k a)) -> waits (m ≫= k).
Proof.
  intros Hm Hk w. specialize (Hm w). unfold mbind, M_bind. destruct (m w) as [[a w']|e]; [|congruence].
  intros E. by apply Hm, (Hk a).
Qed.

Lemma waits_then {A B} (m : M mq_world A) (k : A -> M mq_world B) : waits m -> (forall a, releases (k a)) -> waits (m ≫= k).
Proof.
  intros Hm Hk w. specialize (Hm w). unfold mbind, M_bind. destruct (m w) as [[a w']|e]; [|intros [= ->]; by apply Hm].
  intros E. specialize (Hk a w'). by rewrite E in Hk.
Qed.

Lemma waits_info {A} (d : A) f : (forall i, waits (f i)) -> waits (with_info d f).
Proof. intros Hf w. unfold with_info. go. destruct (pMediaQ w) as [|[i|]|]; try done. apply Hf. Qed.

Lemma waits_lock {B} i (k : unit -> M mq_world B) : releases (k tt) -> waits (lock_if_safe i ≫= k).
Proof.
  intros Hk w. unfold lock_if_safe, MEDIAQ_LOCK. destruct (threadSafeOn i); go; [|by apply waits_releases].
  destruct (mutex_held w) eqn:Hw; [done|]. intros E. specialize (Hk (set_q_mutex true w)). by rewrite E in Hk.
Qed.

Lemma gives_calm {A} (m : M mq_world A) : calm m -> gives_back m.
Proof. intros H w E. specialize (H w). rewrite E in H. by destruct H. Qed.

Lemma gives_bind {A B} (m : M mq_world A) (k : A -> M mq_world B) : calm m -> (forall a, gives_back (k a)) -> gives_back (m ≫= k).
Proof.
  intros Hm Hk w. specialize (Hm w). unfold mbind, M_bind. destruct (m w) as [[a w']|e]; [|intros [= ->]; by destruct Hm].
  intros E. rewrite <- Hm. by apply (Hk a).
Qed.

Lemma gives_then {A B} (m : M mq_world A) (k : A -> M mq_world B) : gives_back m -> (forall a, calm (k a)) -> gives_back (m ≫= k).
Proof.
  intros Hm Hk w. specialize (Hm w). unfold mbind, M_bind. destruct (m w) as [[a w']|e]; [|intros [= ->]; by apply Hm].
  intros E. specialize (Hk a w'). rewrite E in Hk. by destruct Hk.
Qed.

Lemma gives_info {A} (d : A) f : (forall i, gives_back (f i)) -> gives_back (with_info d f).
Proof. intros Hf w. unfold with_info. go. destruct (pMediaQ w) as [|[i|]|]; try done. apply Hf. Qed.

Lemma gives_unlock {B} i (k : unit -> M mq_world B) : calm (k tt) -> gives_back (unlock_if_safe i ≫= k).
Proof.
  intros Hk w. unfold unlock_if_safe, MEDIAQ_UNLOCK. destruct (threadSafeOn i); go; [|by apply gives_calm].
  destruct (mutex_held w) eqn:Hw; [|done]. intros E. specialize (Hk (set_q_mutex false w)). rewrite E in Hk. by destruct Hk.
Qed.

Lemma gives_unlock_last i : gives_back (unlock_if_safe i).
Proof. intros w. unfold unlock_if_safe, MEDIAQ_UNLOCK. destruct (threadSafeOn i); go; [|done]. by destruct (mutex_held w). Qed.

Lemma gives_lock {B} i (k : unit -> M mq_world B) : gives_back (k tt) -> gives_back (lock_if_safe i ≫= k).
Proof.
  intros Hk w. unfold lock_if_safe, MEDIAQ_LOCK. destruct (threadSafeOn i); go; [|apply Hk].
  destruct (mutex_held w) eqn:Hw; [done|]. intros E. by specialize (Hk _ E).
Qed.

Create HintDb mutex.
#[export] Hint Resolve calm_ret calm_set calm_ask calm_limit releases_unlock gives_unlock_last : mutex.

(** Walks through a computation, up to the operations on the mutex. *)
Ltac calm := repeat first
  [ solve [auto with mutex] | apply calm_info; intros ? | apply calm_bind; [|intros ?]
  | apply calm_lift; first [apply aside_item | apply aside_update | apply aside_head | apply aside_tail | apply aside_bytes | apply aside_count]
  | progress cbv zeta | case_match ].
Ltac releases := repeat first
  [ solve [auto with mutex] | solve [apply releases_calm; calm] | apply releases_info; intros ? | apply releases_bind; [|intros ?]
  | progress cbv zeta | case_match ].
Ltac waits := repeat first
  [ solve [apply waits_releases; releases] | apply waits_info; intros ? | apply waits_lock; solve [releases]
  | apply waits_bind; [solve [releases]|intros ?] | apply waits_then; [|intros ?; solve [releases]] | progress cbv zeta | case_match ].
Ltac gives_back := repeat first
  [ solve [auto with mutex] | solve [apply gives_calm; calm] | apply gives_info; intros ? | apply gives_unlock; solve [calm] | apply gives_lock
  | apply gives_bind; [solve [calm]|intros ?] | apply gives_then; [|intros ?; solve [calm]] | progress cbv zeta | case_match ].

Lemma releases_pull : releases openavbMediaQTailPull.
Proof. unfold openavbMediaQTailPull, x_openavbMediaQIncrementTail. releases. Qed.

Lemma calm_purge_tail ptp b stale it : calm (purge_tail ptp b stale it).
Proof. unfold purge_tail. calm. Qed.

Lemma releases_purge_loop ptp fuel b : releases (purge_loop ptp fuel b).
Proof.
  revert b. induction fuel as [|fuel IH]; intros b; cbn [purge_loop]; [done|]. pose proof releases_pull. pose proof calm_purge_tail.
  releases.
Qed.

Lemma releases_purge ptp ign : releases (purge_unless ptp ign).
Proof. unfold purge_unless, x_openavbMediaQPurgeStaleTail. pose proof releases_purge_loop. releases. Qed.

#[export] Hint Resolve releases_pull calm_purge_tail releases_purge : mutex.
