(* ===== verification/MediaQCorrect.v ===== *)
(** * What the media queue and its times guarantee

    The properties of AvtpTime.v and MediaQ.v: the circular array behaves as a queue with
    its mutex, calls return unless the mutex stops them, timestamps survive the wire; and the places where the code
    breaks its promises. *)

From S2P Require Import Prelude AvtpTime MediaQ MediaQTheory MediaQSafe.

Open Scope Z_scope.
Local Abbreviation length := List.length.
Local Abbreviation get := Prelude.get.

(** ** Calls *)

(** What interface and mapping modules do with a queue.  [CFill] writes the item that
    [openavbMediaQHeadLock] returned, [CRead] moves the read index of the tail item. *)
Inductive mq_call : Type :=
  | CHeadLock
  | CFill (time : option avtp_time_t) (data : option (list Z)) (len idx : Z)
  | CHeadUnlock
  | CHeadPush
  | CTailLock (ignoreTimestamp : bool)
  | CRead (idx : Z)
  | CTailUnlock
  | CTailPull
  | CTake (k : nat)
  | CGive (k : nat)
  | CUsecTill
  | CAvailable (nbytes : Z) (ignoreTimestamp : bool)
  | CCount (ignoreTimestamp : bool)
  | CAny (ignoreTimestamp : bool)
  | CThreadSafe
  | CMaxLatency (usec : Z)
  | CMaxStale (usec : Z).

Inductive mq_reply : Type :=
  | RDone
  | RItem (it : option media_q_item_t)
  | RBool (b : bool)
  | RNumber (n : Z)
  | RTill (t : option Z).

Definition write_head (f : media_q_item_t -> media_q_item_t) : M mq_world unit :=
  with_info tt (fun i =>
    if (0 <? itemCount i) && (-1 <? q_head i) then i ← lift (update_item (q_head i) f i); set_info i else mret tt).
Definition write_tail (f : media_q_item_t -> media_q_item_t) : M mq_world unit :=
  with_info tt (fun i =>
    if (0 <? itemCount i) && (-1 <? q_tail i) then i ← lift (update_item (q_tail i) f i); set_info i else mret tt).

Section Calls.
Context (ptp : nat -> option Z) (indeterminate : Z).

Definition run_call (c : mq_call) : M mq_world mq_reply :=
  match c with
  | CHeadLock => it ← head_item_locked; mret (RItem it)
  | CFill t d len idx => write_head (filled_in t d len idx);; mret RDone
  | CHeadUnlock => openavbMediaQHeadUnlock;; mret RDone
  | CHeadPush => b ← openavbMediaQHeadPush; mret (RBool b)
  | CTailLock ign => it ← tail_item_locked ptp ign; mret (RItem it)
  | CRead idx => write_tail (set_readIdx idx);; mret RDone
  | CTailUnlock => openavbMediaQTailUnlock;; mret RDone
  | CTailPull => b ← openavbMediaQTailPull; mret (RBool b)
  | CTake k => b ← openavbMediaQTailItemTake (Some (Z.of_nat k)); mret (RBool b)
  | CGive k => b ← openavbMediaQTailItemGive (Some (Z.of_nat k)); mret (RBool b)
  | CUsecTill => t ← openavbMediaQUsecTillTail ptp; mret (RTill t)
  | CAvailable n ign => b ← openavbMediaQIsAvailableBytes ptp indeterminate n ign; mret (RBool b)
  | CCount ign => n ← openavbMediaQCountItems ptp indeterminate ign; mret (RNumber n)
  | CAny ign => b ← openavbMediaQAnyReadyItems ptp indeterminate ign; mret (RBool b)
  | CThreadSafe => openavbMediaQThreadSafeOn;; mret RDone
  | CMaxLatency u => openavbMediaQSetMaxLatency u;; mret RDone
  | CMaxStale u => openavbMediaQSetMaxStaleTail u;; mret RDone
  end.

Fixpoint run_calls (l : list mq_call) : M mq_world (list mq_reply) :=
  match l with
  | [] => mret []
  | c :: l => r ← run_call c; rs ← run_calls l; mret (r :: rs)
  end.

(** ** The queue without taken items *)

Definition answer {A} (g : A -> mq_reply) (m : SPEC A) : SPEC mq_reply := a ← m; mret (g a).

Definition spec_call (c : mq_call) : SPEC mq_reply :=
  match c with
  | CHeadLock => answer RItem spec_head_lock
  | CFill t d len idx => answer (fun _ => RDone) (modify (fun s => set_lists (filled s) (on_first (filled_in t d len idx) (free s)) s))
  | CHeadUnlock => answer (fun _ => RDone) (spec_release free)
  | CHeadPush => answer RBool spec_push
  | CTailLock ign => answer RItem (spec_tail_lock ptp ign)
  | CRead idx => answer (fun _ => RDone) (modify (fun s => set_lists (on_first (set_readIdx idx) (filled s)) (free s) s))
  | CTailUnlock => answer (fun _ => RDone) (spec_release filled)
  | CTailPull => answer RBool spec_pull
  | CUsecTill => answer RTill (spec_usec_till ptp)
  | CAvailable n ign => answer RBool (about_ready ptp indeterminate ign false (fun limit l => enough limit n l 0))
  | CCount ign => answer RNumber (about_ready ptp indeterminate ign 0 (fun limit l => Z.of_nat (length (ready_prefix limit l))))
  | CAny ign => answer RBool (about_ready ptp indeterminate ign false
      (fun limit l => match l with it :: _ => ready_at limit it | [] => false end))
  | CThreadSafe => answer (fun _ => RDone) (modify set_safe)
  | CMaxStale u => answer (fun _ => RDone) (modify (set_stale u))
  | CMaxLatency _ | CTake _ | CGive _ => mret RDone
  end.

Fixpoint spec_calls (l : list mq_call) : SPEC (list mq_reply) :=
  match l with
  | [] => mret []
  | c :: l => r ← spec_call c; rs ← spec_calls l; mret (r :: rs)
  end.

(** The calls that leave the items in the hands of the queue. *)
Definition plain (c : mq_call) : bool := match c with CTake _ | CGive _ => false | _ => true end.

Lemma write_head_implements f : (forall it, taken (f it) = taken it) ->
  implements (write_head f) (modify (fun s => set_lists (filled s) (on_first f (free s)) s)).
Proof.
  intros Hf. apply implements_info. intros i s w Hold. pose proof Hold as [? ? ? ? ? Hl].
  rewrite (head_guard _ _ _ Hl). destruct (free s) as [|x b] eqn:Hb.
  - exists w. split; [done|]. exists i. by constructor; cbn; rewrite ?Hb.
  - destruct (update_head _ _ _ _ f Hl Hf) as (l & E & Hl'). unfold follows. go. rewrite E.
    eexists. split; [done|]. exists (set_items l i). by constructor; cbn; rewrite ?Hb.
Qed.

Lemma write_tail_implements f : (forall it, taken (f it) = taken it) ->
  implements (write_tail f) (modify (fun s => set_lists (on_first f (filled s)) (free s) s)).
Proof.
  intros Hf. apply implements_info. intros i s w Hold. pose proof Hold as [? ? ? ? ? Hl].
  rewrite (tail_guard _ _ _ Hl). destruct (filled s) as [|x b] eqn:Hb.
  - exists w. split; [done|]. exists i. by constructor; cbn; rewrite ?Hb.
  - destruct (update_tail _ _ _ _ f Hl Hf) as (l & E & Hl'). unfold follows. go. rewrite E.
    eexists. split; [done|]. exists (set_items l i). by constructor; cbn; rewrite ?Hb.
Qed.

Lemma implements_answer {A} (m : M mq_world A) f (g : A -> mq_reply) :
  implements m f -> implements (a ← m; mret (g a)) (answer g f).
Proof. intros Hm. apply implements_bind; [done|]. intros a. apply implements_ret. Qed.

Lemma call_implements c : plain c = true -> implements (run_call c) (spec_call c).
Proof.
  destruct c; intros Hp; try done; cbn [run_call spec_call].
  - apply (implements_answer _ _ RItem head_lock_implements).
  - by apply (implements_answer _ _ (fun _ => RDone) (write_head_implements (filled_in time data len idx) (fun it => eq_refl))).
  - apply (implements_answer _ _ (fun _ => RDone) head_unlock_implements).
  - apply (implements_answer _ _ RBool push_implements).
  - apply (implements_answer _ _ RItem (tail_lock_implements ptp ignoreTimestamp)).
  - by apply (implements_answer _ _ (fun _ => RDone) (write_tail_implements (set_readIdx idx) (fun it => eq_refl))).
  - apply (implements_answer _ _ (fun _ => RDone) tail_unlock_implements).
  - apply (implements_answer _ _ RBool pull_implements).
  - apply (implements_answer _ _ RTill (usec_till_implements ptp)).
  - apply (implements_answer _ _ RBool (available_implements ptp indeterminate nbytes ignoreTimestamp)).
  - apply (implements_answer _ _ RNumber (count_implements ptp indeterminate ignoreTimestamp)).
  - apply (implements_answer _ _ RBool (any_ready_implements ptp indeterminate ignoreTimestamp)).
  - apply (implements_answer _ _ (fun _ => RDone) thread_safe_implements).
  - apply (implements_answer _ _ (fun _ => RDone) (max_latency_implements usec)).
  - apply (implements_answer _ _ (fun _ => RDone) (max_stale_implements usec)).
Qed.

Lemma calls_implement l : Forall (fun c => plain c = true) l -> implements (run_calls l) (spec_calls l).
Proof.
  induction 1 as [|c l Hc _ IH]; [apply implements_ret|]. cbn [run_calls spec_calls].
  apply implements_bind; [by apply call_implements|]. intros r. apply implements_bind; [exact IH|]. intros rs. apply implements_ret.
Qed.

(** *** How the specification ends *)

(** Only the mutex can end a sequence of calls, and only with thread safety on. *)
Definition ends_at_mutex {A} (f : SPEC A) : Prop :=
  forall s, match f s with
    | Ok (_, s') => safe s = false -> safe s' = false
    | Fault e => safe s = true /\ (e = Deadlock \/ e = MutexNotHeld)
    end.

Lemma em_bind {A B} (f : SPEC A) (g : A -> SPEC B) :
  ends_at_mutex f -> (forall a, ends_at_mutex (g a)) -> ends_at_mutex (a ← f; g a).
Proof.
  intros Hf Hg s. unfold mbind, M_bind. specialize (Hf s). destruct (f s) as [[a s1]|e]; [|done].
  specialize (Hg a s1). destruct (g a s1) as [[b s2]|e]; [auto|]. destruct Hg as [Hs He]. split; [|done].
  destruct (safe s); [done|]. rewrite Hf in Hs; [done|done].
Qed.

Lemma em_ret {A} (a : A) : ends_at_mutex (mret a).
Proof. intros s Hs. exact Hs. Qed.

(** A look at the state, then whatever it asks for. *)
Lemma em_get {A} (g : spec -> SPEC A) : (forall s, ends_at_mutex (g s)) -> ends_at_mutex (s ← get; g s).
Proof. intros Hg s. exact (Hg s s). Qed.

Lemma em_modify g : (forall s, safe (g s) = safe s) -> ends_at_mutex (modify g).
Proof. intros Hg s Hs. cbn. by rewrite Hg. Qed.

(** Writing back the state that was looked at, with other lists or another clock. *)
Lemma em_get_put {A} (p : spec -> spec) (g : SPEC A) :
  (forall s, safe (p s) = safe s) -> ends_at_mutex g ->
  forall s, match (put (p s);; g) s with
    | Ok (_, s') => safe s = false -> safe s' = false
    | Fault e => safe s = true /\ (e = Deadlock \/ e = MutexNotHeld)
    end.
Proof. intros Hp Hg s. unfold mbind, M_bind, put. specialize (Hg (p s)). by rewrite Hp in Hg. Qed.

Lemma em_lock : ends_at_mutex spec_lock.
Proof. intros s. unfold spec_lock. go. destruct (safe s) eqn:Hs; [destruct (held s)|]; cbn; rewrite ?Hs; tauto. Qed.

Lemma em_unlock : ends_at_mutex spec_unlock.
Proof. intros s. unfold spec_unlock. go. destruct (safe s) eqn:Hs; [destruct (held s)|]; cbn; rewrite ?Hs; tauto. Qed.

Lemma em_push : ends_at_mutex spec_push.
Proof.
  intros s. unfold spec_push, mbind at 1, M_bind at 1, Prelude.get at 1. destruct (free s) as [|it l]; [exact (em_ret false s)|].
  apply (em_get_put (fun s => set_lists (filled s ++ [set_readIdx 0 it]) l s) (spec_unlock;; mret true)); [done|].
  apply em_bind; [apply em_unlock|]. intros _. apply em_ret.
Qed.

Lemma em_pull : ends_at_mutex spec_pull.
Proof.
  intros s. unfold spec_pull, mbind at 1, M_bind at 1, Prelude.get at 1. destruct (filled s) as [|it l]; [exact (em_ret false s)|].
  apply (em_get_put (fun s => set_lists l (free s ++ [emptied it]) s) (spec_unlock;; mret true)); [done|].
  apply em_bind; [apply em_unlock|]. intros _. apply em_ret.
Qed.

Lemma em_clock : ends_at_mutex (spec_clock ptp).
Proof. intros s Hs. exact Hs. Qed.

Lemma em_ask {A} (f : option Z -> option avtp_time_t -> A) p : ends_at_mutex (spec_ask ptp f p).
Proof.
  unfold spec_ask. destruct p as [t|]; [destruct (trusted t)|]; [|apply em_ret..].
  apply em_bind; [apply em_clock|]. intros now. apply em_ret.
Qed.

Lemma em_purge_past n : ends_at_mutex (purge_past ptp n).
Proof.
  induction n as [|n IH]; [intros s Hs; exact Hs|]. cbn [purge_past]. apply em_get. intros s. destruct (filled s) as [|it l]; [apply em_ret|].
  apply em_bind; [apply em_ask|]. intros []; [|apply em_ret]. by apply em_bind; [apply em_pull|].
Qed.

Lemma em_purge ign : ends_at_mutex (spec_purge ptp ign).
Proof.
  apply em_get. intros s. destruct (_ || _); [apply em_ret|]. destruct (filled s) as [|it l]; [apply em_ret|].
  apply em_bind; [apply em_ask|]. intros d. destruct (d <? _); [|apply em_ret]. apply em_bind; [apply em_pull|]. intros _. apply em_purge_past.
Qed.

Lemma em_none {A} : ends_at_mutex (spec_unlock;; mret (None : option A)).
Proof. apply em_bind; [apply em_unlock|]. intros _. apply em_ret. Qed.

Lemma em_tail_lock ign : ends_at_mutex (spec_tail_lock ptp ign).
Proof.
  apply em_bind; [apply em_purge|]. intros _. apply em_bind; [apply em_lock|]. intros _. apply em_get. intros s.
  destruct (filled s) as [|it l]; [apply em_none|]. apply em_bind.
  - unfold spec_past. destruct ign; [apply em_ret|apply em_ask].
  - intros []; [apply em_ret|apply em_none].
Qed.

Lemma em_ready {A} ign (d : A) f : ends_at_mutex (about_ready ptp indeterminate ign d f).
Proof.
  apply em_bind; [apply em_purge|]. intros _. apply em_get. intros s. destruct (filled s) as [|it l]; [apply em_ret|].
  apply em_bind; [|intros limit; apply em_ret]. unfold spec_limit. destruct ign; [apply em_ret|].
  apply em_bind; [apply em_clock|]. intros now. apply em_ret.
Qed.

Lemma em_release f : ends_at_mutex (spec_release f).
Proof. apply em_get. intros s. destruct (f s); [apply em_ret|apply em_unlock]. Qed.

Lemma em_answer {A} (g : A -> mq_reply) f : ends_at_mutex f -> ends_at_mutex (answer g f).
Proof. intros Hf. apply em_bind; [done|]. intros a. apply em_ret. Qed.

Lemma em_call c : c <> CThreadSafe -> ends_at_mutex (spec_call c).
Proof.
  destruct c; intros Hc; try done; cbn [spec_call]; first [apply em_answer|apply em_ret].
  - apply em_bind; [apply em_lock|]. intros _. apply em_get. intros s. destruct (free s); [apply em_none|apply em_ret].
  - by apply em_modify.
  - apply em_release.
  - apply em_push.
  - apply em_tail_lock.
  - by apply em_modify.
  - apply em_release.
  - apply em_pull.
  - apply em_get. intros s. destruct (filled s); [apply em_ret|apply em_ask].
  - apply em_ready.
  - apply em_ready.
  - apply em_ready.
  - by apply em_modify.
Qed.

Lemma em_calls l : Forall (fun c => c <> CThreadSafe) l -> ends_at_mutex (spec_calls l).
Proof.
  induction 1 as [|c l Hc _ IH]; [apply em_ret|]. cbn [spec_calls].
  apply em_bind; [by apply em_call|]. intros r. apply em_bind; [exact IH|]. intros rs. apply em_ret.
Qed.

(** Any sequence of calls ends at the mutex if it faults at all. *)
Lemma call_faults c s e : spec_call c s = Fault e -> e = Deadlock \/ e = MutexNotHeld.
Proof.
  assert (c = CThreadSafe \/ c <> CThreadSafe) as [->|Hc] by (destruct c; first [by left|by right]); [done|]. intros E. pose proof (em_call c Hc s) as H. rewrite E in H. tauto.
Qed.

Lemma calls_fault l s e : spec_calls l s = Fault e -> e = Deadlock \/ e = MutexNotHeld.
Proof.
  revert s. induction l as [|c l IH]; intros s; [done|]. cbn [spec_calls]. unfold mbind, M_bind.
  destruct (spec_call c s) as [[r s1]|e1] eqn:E; [|intros [= <-]; by eapply call_faults].
  destruct (spec_calls l s1) as [[rs s2]|e2] eqn:E2; [done|]. intros [= <-]. by eapply IH.
Qed.

(** ** A new queue *)

Definition start_world : mq_world := mkMqWorld (openavbMediaQCreate true true) false 0 [].

Definition new_items (alloc_time : nat -> bool) (size : Z) (n : nat) : list media_q_item_t :=
  (init_items alloc_time (fun _ => true) 0 size 0 n).2.

Definition spec_start (alloc_time : nat -> bool) (count size : Z) : spec :=
  mkSpec [] (new_items alloc_time size (Z.to_nat count)) MICROSECONDS_PER_SECOND 0 false false.

Lemma init_items_ok alloc_time latency size n k :
  (init_items alloc_time (fun _ => true) latency size k n).1 = true /\
  length (init_items alloc_time (fun _ => true) latency size k n).2 = n /\
  Forall (fun it => taken it = false) (init_items alloc_time (fun _ => true) latency size k n).2.
Proof.
  revert k. induction n as [|n IH]; intros k; [done|]. cbn [init_items]. destruct (IH (S k)) as (E & Hl & Hu).
  destruct (init_items _ _ _ _ (S k) n) as [ok l]. cbn in *. split; [done|]. split; [lia|]. by constructor.
Qed.

Lemma set_size_starts alloc_time count size : 1 <= count < 2 ^ 31 -> 1 <= size ->
  exists w, openavbMediaQSetSize true alloc_time (fun _ => true) count size start_world = Ok (true, w) /\
    queue_is w (spec_start alloc_time count size).
Proof.
  intros Hc Hs. unfold openavbMediaQSetSize. destruct (Z.ltb_spec count 1); [lia|]. destruct (Z.ltb_spec size 1); [lia|].
  cbn [orb]. unfold with_info. go. cbn [pMediaQ start_world openavbMediaQCreate pItems fresh_info maxLatencyUsec].
  destruct (init_items_ok alloc_time 0 size (Z.to_nat count) 0) as (E & Hl & Hu). unfold spec_start, new_items.
  destruct (init_items alloc_time (fun _ => true) 0 size 0 (Z.to_nat count)) as [ok l]. cbn in E, Hl, Hu. subst ok.
  eexists. split; [done|]. eexists. constructor; try done.
  unfold layout. cbn. rewrite Hl. split; [lia|]. split; [lia|]. split; [done|]. exists 0%nat.
  split; [lia|]. unfold rot. rewrite drop_0, take_0, app_nil_r. split; [done|]. split; [done|].
  destruct l; [cbn in Hl; lia|]. cbn. f_equal. wraps; lia.
Qed.

(** C34: From its creation on, whatever sequence of calls its users make in turn (items
    taken aside) and whatever the clock says, the circular array answers each call as a
    queue does whose items go round between a filled and a free part, its loops end, and
    no index leaves the array.  The mutex is part of the specification: with thread safety
    on, a call that takes it a second time never returns, and one that gives it back
    without having it is a fault, exactly where the specification says so; nothing else
    ends a sequence, and no sequence ends that does not turn thread safety on. *)
Theorem media_queue_refines alloc_time count size l : 1 <= count < 2 ^ 31 -> 1 <= size ->
  Forall (fun c => plain c = true) l ->
  exists w, openavbMediaQSetSize true alloc_time (fun _ => true) count size start_world = Ok (true, w) /\
    match spec_calls l (spec_start alloc_time count size) with
    | Ok (rs, s) => exists w', run_calls l w = Ok (rs, w') /\ queue_is w' s
    | Fault e => run_calls l w = Fault e /\ (e = Deadlock \/ e = MutexNotHeld)
    end /\
    (Forall (fun c => c <> CThreadSafe) l -> is_ok (spec_calls l (spec_start alloc_time count size)) = true).
Proof.
  intros Hc Hs Hl. destruct (set_size_starts alloc_time count size Hc Hs) as (w & E & Hq). exists w. split; [done|].
  pose proof (calls_implement l Hl w _ Hq) as H. unfold follows in H. split.
  - destruct (spec_calls l _) as [[rs s]|e] eqn:Es; [done|]. split; [done|]. by eapply calls_fault.
  - intros Hn. pose proof (em_calls l Hn (spec_start alloc_time count size)) as Hem.
    destruct (spec_calls l _) as [[rs s]|e]; [done|]. by destruct Hem.
Qed.

(** ** Items in the hands of clients *)

(** A client takes and gives back items of the queue. *)
Definition item_in_range (c : mq_call) (i : media_q_info_t) : Prop :=
  match c with CTake k | CGive k => (k < length (pItems i))%nat | _ => True end.

Definition needs_usable (c : mq_call) : bool := match c with CTake _ | CCount _ => true | _ => false end.

Section Mutex.
Context (sf : bool).

Local Abbreviation sound := (sound sf).
Local Abbreviation triple := (triple sf).
Local Abbreviation fit := (fit sf).

Lemma t_write_head f : triple sound (write_head f) (fun _ => sound).
Proof.
  apply t_info. intros i Hi. rewrite (fit_guard_head sf false) by by split. destruct (-1 <? q_head i) eqn:Hh; [|by apply t_keep].
  pose proof Hi as (_ & _ & _ & Hhead & _). destruct (index_ok_active _ _ Hhead Hh) as (h & Hlt & ->).
  destruct (update_item_ok i h f Hlt) as (l & E & Hl & _).
  eapply (t_lift _ _ _ _ _ (fun j => j = set_items l i)); [eauto|]. intros ? ->. apply t_set_keep. by apply (sound_items sf).
Qed.

Lemma t_write_tail f : triple sound (write_tail f) (fun _ => sound).
Proof.
  apply t_info. intros i Hi. rewrite (fit_guard_tail sf false) by by split. destruct (-1 <? q_tail i) eqn:Ht; [|by apply t_keep].
  pose proof Hi as (_ & _ & _ & _ & Htail). destruct (index_ok_active _ _ Htail Ht) as (t & Hlt & ->).
  destruct (update_item_ok i t f Hlt) as (l & E & Hl & _).
  eapply (t_lift _ _ _ _ _ (fun j => j = set_items l i)); [eauto|]. intros ? ->. apply t_set_keep. by apply (sound_items sf).
Qed.

Lemma t_options (P : media_q_info_t -> Prop) (f : media_q_info_t -> media_q_info_t) :
  (forall i, P i -> P (f i)) -> triple P (with_info tt (fun i => set_info (f i))) (fun _ => P).
Proof. intros Hf. apply t_info. intros i Hi. apply t_set_keep. by apply Hf. Qed.

Lemma t_answer {A} (P P' : media_q_info_t -> Prop) (m : M mq_world A) (Q : A -> media_q_info_t -> Prop) (g : A -> mq_reply) :
  triple P m Q -> (forall i, P' i -> P i) -> (forall a i, Q a i -> sound i) -> triple P' (a ← m; mret (g a)) (fun _ => sound).
Proof.
  intros Hm HP HQ. eapply t_bind; [eapply t_conseq; [exact Hm|exact HP|exact HQ]|]. intros a. apply t_ret.
Qed.

Lemma t_locked (m : M mq_world (option Z)) b :
  triple (fit b) m (fun a i => fit b i /\ points a i) -> triple (fit b) (k ← m; pointed k) (fun _ => fit b).
Proof. intros Hm. eapply t_bind; [exact Hm|]. intros a. apply t_pointed. Qed.

Definition ready_for (c : mq_call) (i : media_q_info_t) : Prop :=
  sound i /\ item_in_range c i /\ (needs_usable c = true -> usable i).

Lemma t_call c : c <> CThreadSafe -> triple (ready_for c) (run_call c) (fun _ => sound).
Proof.
  intros Hc. assert (Hs : forall A (a : A) j, (fun _ : A => fit false) a j -> sound j) by (intros A a j [Hj _]; done).
  assert (Hs' : forall A (a : A) j, (fun _ : A => fit true) a j -> sound j) by (intros A a j [Hj _]; done).
  assert (Hf : forall i, ready_for c i -> fit (needs_usable c) i) by (intros i (H1 & _ & H3); by split).
  assert (Hd : forall i, ready_for c i -> sound i) by (intros i (H1 & _); done).
  assert (Hr : forall i, ready_for c i -> item_in_range c i) by (intros i (_ & H2 & _); done).
  destruct c; try done; cbn [run_call needs_usable item_in_range] in *.
  - eapply t_answer; [apply t_locked, t_head_lock|exact Hf|apply Hs].
  - eapply (t_answer _ _ _ _ (fun _ => RDone)); [apply t_write_head|exact Hd|done].
  - eapply (t_answer _ _ _ _ (fun _ => RDone)); [apply t_head_unlock|exact Hf|apply Hs].
  - eapply t_answer; [apply t_push|exact Hd|done].
  - eapply t_answer; [apply t_locked, t_tail_lock|exact Hf|apply Hs].
  - eapply (t_answer _ _ _ _ (fun _ => RDone)); [apply t_write_tail|exact Hd|done].
  - eapply (t_answer _ _ _ _ (fun _ => RDone)); [apply t_tail_unlock|exact Hf|apply Hs].
  - eapply t_answer; [apply t_pull_fit|exact Hf|apply Hs].
  - eapply t_answer; [apply t_take|intros i Hi; split; [by apply Hf|by apply Hr]|done].
  - eapply t_answer; [apply t_give|intros i Hi; split; [by apply Hd|by apply Hr]|done].
  - eapply t_answer; [apply t_usec_till|exact Hf|apply Hs].
  - eapply t_answer; [apply t_available|exact Hf|apply Hs].
  - eapply t_answer; [apply t_count|exact Hf|apply Hs'].
  - eapply t_answer; [apply t_any|exact Hf|apply Hs].
  - eapply (t_answer _ _ _ _ (fun _ => RDone)); [apply (t_options sound)|exact Hd|]; done.
  - eapply (t_answer _ _ _ _ (fun _ => RDone)); [apply (t_options sound)|exact Hd|]; done.
Qed.

(** Turning thread safety on always returns. *)
Lemma thread_safe_returns w i : pMediaQ w = Queue (Some i) -> sound i ->
  exists w' i', openavbMediaQThreadSafeOn w = Ok (tt, w') /\ pMediaQ w' = Queue (Some i') /\ MediaQSafe.sound true i' /\ threadSafeOn i' = true.
Proof.
  intros Hw Hi. unfold openavbMediaQThreadSafeOn, with_info. go. rewrite Hw. eexists _, _. split; [reflexivity|]. split; [reflexivity|].
  destruct Hi as (H1 & [H2 _] & H3 & H4 & H5). by repeat split.
Qed.

End Mutex.

(** The calls that may purge stale items, which pulls them without having the mutex. *)
Definition may_purge (c : mq_call) : bool :=
  match c with CTailLock ign | CAvailable _ ign | CCount ign | CAny ign => negb ign | _ => false end.

Ltac open_calls :=
  unfold head_item_locked, tail_item_locked, pointed, write_head, write_tail, openavbMediaQHeadLock, openavbMediaQHeadUnlock,
    openavbMediaQHeadPush, openavbMediaQTailLock, openavbMediaQTailUnlock, openavbMediaQTailPull, openavbMediaQTailItemTake,
    openavbMediaQTailItemGive, openavbMediaQUsecTillTail, openavbMediaQIsAvailableBytes, openavbMediaQCountItems,
    openavbMediaQAnyReadyItems, openavbMediaQThreadSafeOn, openavbMediaQSetMaxLatency, openavbMediaQSetMaxStaleTail,
    x_openavbMediaQIncrementHead, x_openavbMediaQIncrementTail.

Lemma call_waits c : waits (run_call c).
Proof. pose proof releases_purge. destruct c; cbn [run_call]; open_calls; waits. Qed.

Lemma call_gives_back c : may_purge c = false -> gives_back (run_call c).
Proof.
  destruct c; cbn [run_call may_purge]; try (destruct ignoreTimestamp; [intros _|discriminate]); intros; open_calls;
    unfold purge_unless; cbn [negb]; gives_back.
Qed.

(** C35: Also with items in the hands of clients, every call of a queue whose indices are
    in range returns and leaves them in range: no access outside of the array and no
    endless loop, unless all items are taken and the head is inactive when one more is
    taken or the items are counted.  With thread safety on, and only then, a call can
    also stop at the mutex: it waits for ever if the mutex is held when it is called, and
    it gives back a mutex it does not have only if the mutex is free when it is called or
    stale items may be purged, which is done without the mutex. *)
Theorem media_queue_call_returns c w i : pMediaQ w = Queue (Some i) -> sound (threadSafeOn i) i -> item_in_range c i ->
  (needs_usable c = true -> usable i) ->
  (exists r w' i', run_call c w = Ok (r, w') /\ pMediaQ w' = Queue (Some i') /\ sound (threadSafeOn i') i') \/
  threadSafeOn i = true /\
    (run_call c w = Fault Deadlock /\ mutex_held w = true \/
     run_call c w = Fault MutexNotHeld /\ (mutex_held w = false \/ may_purge c = true)).
Proof.
  intros Hw Hi Hr Hu. assert (c = CThreadSafe \/ c <> CThreadSafe) as [->|Hc] by (destruct c; first [by left|by right]).
  - destruct (thread_safe_returns _ _ _ Hw Hi) as (w' & i' & E & Hw' & Hs & Hsf). left. exists RDone, w', i'.
    cbn [run_call]. unfold mbind, M_bind. by rewrite E, Hsf.
  - destruct (t_call (threadSafeOn i) c Hc w i Hw) as [(r & w' & i' & E & Hw' & Hs)|[Hs Hm]]; [by split_and!| |].
    + left. exists r, w', i'. by rewrite (sound_safe _ _ Hs).
    + right. split; [done|]. destruct Hm as [E|E]; [left; split; [done|by apply call_waits in E]|right; split; [done|]].
      destruct (may_purge c) eqn:Hp; [by right|left]. by eapply call_gives_back.
Qed.

End Calls.

(** A concrete clock, and a queue of three items of eight bytes. *)
Definition clock_at (l : list Z) (k : nat) : option Z := l !! k.

Definition three_items : mq_world :=
  match openavbMediaQSetSize true (fun _ => true) (fun _ => true) 3 8 start_world with
  | Ok (_, w) => w
  | Fault _ => start_world
  end.

Definition stamped (ns : Z) : option avtp_time_t := Some (mkAvtpTime ns 2000000 true false).

Definition put_in (ns len : Z) : list mq_call := [CHeadLock; CFill (stamped ns) (Some []) len 0; CHeadPush].

(** The queue is filled, an item waits for its time, is read and removed; then, with thread
    safety on, the head is locked twice. *)
Definition some_calls : list mq_call :=
  put_in 5000 4 ++ put_in 9000 8 ++ [CTailLock false; CCount true; CTailLock false; CTailPull; CThreadSafe; CHeadLock; CHeadUnlock].

Lemma media_queue_refines_witness :
  (exists rs s, spec_calls (clock_at [1000; 6000]) 0 some_calls (spec_start (fun _ => true) 3 8) = Ok (rs, s) /\ length (filled s) = 1%nat) /\
  exists w, openavbMediaQSetSize true (fun _ => true) (fun _ => true) 3 8 start_world = Ok (true, w) /\
    match spec_calls (clock_at [1000; 6000]) 0 some_calls (spec_start (fun _ => true) 3 8) with
    | Ok (rs, s) => exists w', run_calls (clock_at [1000; 6000]) 0 some_calls w = Ok (rs, w') /\ queue_is w' s
    | Fault e => run_calls (clock_at [1000; 6000]) 0 some_calls w = Fault e /\ (e = Deadlock \/ e = MutexNotHeld)
    end /\
    (Forall (fun c => c <> CThreadSafe) some_calls -> is_ok (spec_calls (clock_at [1000; 6000]) 0 some_calls (spec_start (fun _ => true) 3 8)) = true).
Proof.
  split; [eexists _, _; split; [vm_compute; reflexivity|reflexivity]|].
  apply media_queue_refines; [lia|lia|]. repeat constructor.
Defined.

Lemma three_items_sound : exists i, pMediaQ three_items = Queue (Some i) /\ sound false i /\ usable i /\ threadSafeOn i = false.
Proof.
  eexists. split; [vm_compute; reflexivity|]. split.
  - split; [done|]. split; [done|]. split; [vm_compute; lia|]. split; [right; exists 0%nat; split; [cbn; lia|done]|by left].
  - split; [by left|done].
Qed.

Lemma media_queue_call_returns_witness :
  exists i, pMediaQ three_items = Queue (Some i) /\
    ((exists r w' i', run_call (clock_at []) 0 (CTake 0) three_items = Ok (r, w') /\ pMediaQ w' = Queue (Some i') /\ sound (threadSafeOn i') i') \/
     threadSafeOn i = true /\
       (run_call (clock_at []) 0 (CTake 0) three_items = Fault Deadlock /\ mutex_held three_items = true \/
        run_call (clock_at []) 0 (CTake 0) three_items = Fault MutexNotHeld /\ (mutex_held three_items = false \/ may_purge (CTake 0) = true))).
Proof.
  destruct three_items_sound as (i & Hw & Hi & Hu & Hsf). exists i. split; [exact Hw|].
  apply (media_queue_call_returns (clock_at []) 0 (CTake 0) three_items i Hw); [by rewrite Hsf| |intros _; exact Hu].
  cbn. apply Hi.
Defined.

(** ** Bytes that are ready *)

Definition left_over (it : media_q_item_t) : Z := dataLen it - readIdx it.

Definition total_left (l : list media_q_item_t) : Z := foldr (fun it n => left_over it + n) 0 l.

Definition measured (it : media_q_item_t) : Prop := 0 <= readIdx it <= dataLen it.

Lemma total_left_cons it l : total_left (it :: l) = left_over it + total_left l.
Proof. done. Qed.

Lemma total_left_nonneg l : Forall measured l -> 0 <= total_left l.
Proof. induction 1 as [|it l Hit _ IH]; [done|]. rewrite total_left_cons. unfold measured, left_over in *. lia. Qed.

Lemma ready_prefix_all l : ready_prefix None l = l.
Proof. induction l as [|it l IH]; cbn; [done|]. by rewrite IH. Qed.

(** The loop adds up what is left, whatever was added before. *)
Lemma enough_total limit nbytes l byteCnt : Forall measured l -> 0 <= byteCnt -> byteCnt + total_left l < 2 ^ 31 ->
  byteCnt < nbytes -> enough limit nbytes l byteCnt = (nbytes <=? byteCnt + total_left (ready_prefix limit l)).
Proof.
  intros Hl. revert byteCnt. induction Hl as [|it l Hit Hl IH]; intros c Hc Ht Hn; cbn [enough ready_prefix].
  - symmetry. apply Z.leb_gt. cbn. lia.
  - pose proof (total_left_nonneg l Hl). rewrite total_left_cons in Ht.
    unfold measured, left_over in Hit, Ht |- *. destruct (ready_at limit it); cbn [andb].
    + rewrite (u32_small (dataLen it - readIdx it)), (u32_small (c + _)), s32_small, u32_small by (unfold is_u32; lia).
      rewrite total_left_cons.
      assert (0 <= total_left (ready_prefix limit l)).
      { apply total_left_nonneg. clear -Hl. induction Hl; cbn; [constructor|]. destruct (ready_at limit x); by constructor. }
      destruct (Z.leb_spec nbytes (c + (dataLen it - readIdx it))); cbn [orb].
      * symmetry. apply Z.leb_le. unfold left_over. lia.
      * rewrite IH by lia. f_equal. unfold left_over. lia.
    + symmetry. apply Z.leb_gt. cbn. lia.
Qed.

(** While the bytes in the queue fit an [int] and no read index is beyond its data,
    the question for [nbytes] bytes is answered with yes exactly if the items between
    tail and head have as many left to read; the queue is not changed. *)
Theorem available_bytes_exact ptp u nbytes w s : queue_is w s -> Forall measured (filled s) ->
  total_left (filled s) < 2 ^ 31 -> 0 < nbytes ->
  exists w', openavbMediaQIsAvailableBytes ptp u nbytes true w = Ok (nbytes <=? total_left (filled s), w') /\ queue_is w' s.
Proof.
  intros Hq Hm Ht Hn. pose proof (available_implements ptp u nbytes true w s Hq) as H.
  revert H. unfold follows, about_ready, spec_purge, spec_limit. go. cbn [orb]. destruct (filled s) as [|it l] eqn:Hf.
  - intros (w' & -> & Hq'). exists w'. split; [|done]. cbn. by destruct (Z.leb_spec nbytes 0); [lia|].
  - intros (w' & -> & Hq'). exists w'. split; [|done]. rewrite enough_total by (done || lia). by rewrite ready_prefix_all.
Qed.

Lemma available_bytes_exact_witness :
  exists w', openavbMediaQIsAvailableBytes (clock_at []) 0 5 true three_items = Ok (5 <=? 0, w') /\
    queue_is w' (spec_start (fun _ => true) 3 8).
Proof.
  apply (available_bytes_exact (clock_at []) 0 5 three_items (spec_start (fun _ => true) 3 8)); [|constructor|cbn; lia|lia].
  destruct (set_size_starts (fun _ => true) 3 8) as (w & E & Hq); [lia|lia|]. unfold three_items. rewrite E. exact Hq.
Defined.

(** ** Timestamps *)

(** C36: The low 32 bits of a time are enough: a listener whose clock is less than about
    2.1 seconds away from the time of the talker restores all its 64 bits, holds the item
    until then and no longer, and drops the wait when the time is beyond the latency. *)
Theorem timestamp_restores_time now talker listener :
  is_u64 now -> is_avtp_time talker -> is_avtp_time listener ->
  - 2 ^ 31 - 1 <= timeNsec talker - now <= 2 ^ 31 - 2 ->
  exists t, openavbAvtpTimeSetToTimestamp (Some now) (Some listener) (openavbAvtpTimeGetAvtpTimestamp (Some talker)) = Some t /\
    timeNsec t = timeNsec talker /\ trusted t = true /\
    (forall later, is_u64 later -> is_u64 (later + maxLatencyNsec listener) ->
      openavbAvtpTimeIsPast (Some later) (Some t) =
      (timeNsec talker <=? later) || (later + maxLatencyNsec listener <? timeNsec talker)).
Proof.
  intros Hnow [Ht _] [_ Hlat] Hd. cbn [openavbAvtpTimeGetAvtpTimestamp].
  assert (Hts : is_u32 (x_getTimestamp (timeNsec talker))) by apply u32_bound.
  rewrite set_to_timestamp_delta by done. eexists. split; [done|]. cbn [timeNsec trusted bTimestampValid bTimestampUncertain].
  assert (Ed : ts_delta now (x_getTimestamp (timeNsec talker)) = (timeNsec talker - now) mod 2 ^ 32).
  { unfold ts_delta. by rewrite x_getTimestamp_mod, Zminus_mod_idemp_l. }
  assert (E : u64 (if ts_delta now (x_getTimestamp (timeNsec talker)) <? OPENAVB_AVTP_TIME_MAX_TS_DIFF
    then now + ts_delta now (x_getTimestamp (timeNsec talker))
    else now - (4294967296 - ts_delta now (x_getTimestamp (timeNsec talker)))) = timeNsec talker).
  { rewrite Ed. unfold OPENAVB_AVTP_TIME_MAX_TS_DIFF. destruct (Z.le_gt_cases 0 (timeNsec talker - now)).
    - rewrite Z.mod_small by lia. destruct (Z.ltb_spec (timeNsec talker - now) 2147483647); [|lia].
      rewrite u64_small; [lia|]. replace (now + (timeNsec talker - now)) with (timeNsec talker) by lia. done.
    - replace ((timeNsec talker - now) mod 2 ^ 32) with (timeNsec talker - now + 2 ^ 32).
      2:{ rewrite <- (Z.mod_add _ 1) by lia. symmetry. apply Z.mod_small. lia. }
      destruct (Z.ltb_spec (timeNsec talker - now + 2 ^ 32) 2147483647); [lia|].
      rewrite u64_small; [lia|]. replace (now - _) with (timeNsec talker) by lia. done. }
  split; [exact E|]. split; [done|]. intros later Hl Hll. rewrite is_past_reading by done.
  unfold openavbAvtpTimeIsPastTime. cbn [bTimestampValid bTimestampUncertain negb orb timeNsec maxLatencyNsec].
  rewrite E, (u64_small (later + _)) by done. destruct (timeNsec talker <=? later); [done|].
  by destruct (later + maxLatencyNsec listener <? timeNsec talker).
Qed.

Lemma timestamp_restores_time_witness :
  exists t, openavbAvtpTimeSetToTimestamp (Some 4294960000) (Some (mkAvtpTime 0 2000000 false false))
      (openavbAvtpTimeGetAvtpTimestamp (Some (mkAvtpTime 4295000000 0 true false))) = Some t /\
    timeNsec t = 4295000000 /\ trusted t = true /\
    (forall later, is_u64 later -> is_u64 (later + 2000000) ->
      openavbAvtpTimeIsPast (Some later) (Some t) = (4295000000 <=? later) || (later + 2000000 <? 4295000000)).
Proof.
  apply (timestamp_restores_time 4294960000 (mkAvtpTime 4295000000 0 true false) (mkAvtpTime 0 2000000 false false));
    unfold is_avtp_time, is_u64; cbn; lia.
Defined.

(** ** Where the code breaks its promises *)

(** The answers to some calls, and the indices and the mutex afterwards. *)
Definition outcome_of (ptp : nat -> option Z) (l : list mq_call) (w : mq_world) : option (list mq_reply * Z * Z * bool) :=
  match run_calls ptp 0 l w with
  | Ok (rs, mkMqWorld (Queue (Some i)) m _ _) => Some (rs, q_head i, q_tail i, m)
  | _ => None
  end.

(** The times of the items that were handed out; [None] where there was no item. *)
Definition times_of (rs : list mq_reply) : list (option Z) :=
  flat_map (fun r =>
    match r with
    | RItem (Some it) => [timeNsec <$> pAvtpTime it]
    | RItem None => [None]
    | _ => []
    end) rs.

(** An item that is given back to a full queue makes the first item of the array that is
    not taken the head, also when it was never read: the item of time 40 is lost. *)
Definition lost_calls : list mq_call :=
  put_in 10 4 ++ put_in 20 4 ++ put_in 30 4 ++ [CTailPull] ++ put_in 40 4 ++
  [CTake 1; CGive 1; CTailPull; CTailLock true].

Lemma give_loses_item :
  exists rs m, outcome_of (clock_at []) lost_calls three_items = Some (rs, 0, -1, m) /\ last (times_of rs) = Some None.
Proof. eexists. eexists. vm_compute. split; reflexivity. Qed.

(** The last item of a full queue is not skipped when it is the first of the array: it is
    handed out again, and taking it again never returns. *)
Definition one_item : mq_world :=
  match openavbMediaQSetSize true (fun _ => true) (fun _ => true) 1 8 start_world with
  | Ok (_, w) => w
  | Fault _ => start_world
  end.

Lemma take_leaves_item :
  exists it m, outcome_of (clock_at []) (put_in 10 4 ++ [CTake 0; CTailLock true]) one_item =
    Some ([RItem (hd_error (new_items (fun _ => true) 8 1)); RDone; RBool true; RBool true; RItem (Some it)], -1, 0, m) /\ taken it = true.
Proof. eexists. eexists. vm_compute. split; reflexivity. Qed.

Lemma take_never_returns fuel :
  exists i, (match run_calls (clock_at []) 0 (put_in 10 4 ++ [CTake 0]) one_item with Ok (_, w) => pMediaQ w | Fault _ => NoQueue end) = Queue (Some i) /\
    x_IncrementTail fuel (q_tail i) i = Fault FuelExhausted.
Proof.
  eexists. split; [vm_compute; reflexivity|]. apply (take_goes_on fuel _ 0); try done; [|cbn; lia]. repeat constructor.
Qed.

(** A full queue with a taken item is counted as if it held it. *)
Lemma count_includes_taken :
  exists rs h t m, outcome_of (clock_at []) (put_in 10 4 ++ put_in 20 4 ++ put_in 30 4 ++ [CTake 0; CCount true]) three_items =
    Some (rs, h, t, m) /\ last rs = Some (RNumber 3).
Proof. do 4 eexists. vm_compute. split; reflexivity. Qed.

(** With thread safety on, a purge releases the mutex without holding it. *)
Lemma purge_unlocks_mutex :
  run_calls (clock_at [5000000000; 5000000000]) 0 (put_in 10 4 ++ put_in 20 4 ++ [CThreadSafe; CCount false]) three_items = Fault MutexNotHeld.
Proof. vm_compute. reflexivity. Qed.

(** And a client that locks the head while it has the tail waits for itself. *)
Lemma two_locks_deadlock :
  run_calls (clock_at []) 0 (put_in 10 4 ++ [CThreadSafe; CTailLock true; CHeadLock]) three_items = Fault Deadlock.
Proof. vm_compute. reflexivity. Qed.

(** More than 71 minutes ahead counts as due now: the microseconds are cut to 32 bits
    before they are compared with five seconds. *)
Lemma usec_till_wraps : openavbAvtpTimeUsecTill (Some 0) (stamped (2 ^ 32 * 1000)) = Some 0.
Proof. reflexivity. Qed.

(** And an item more than 35 minutes old is no longer stale. *)
Lemma delta_wraps : openavbAvtpTimeUsecDelta (Some (2 ^ 31 * 1000 + 1000)) (stamped 0) = 2 ^ 31 - 1.
Proof. reflexivity. Qed.

(** A queue whose items could not all be allocated is taken for a good one when its size
    is set again. *)
Lemma set_size_hides_failure :
  exists w w', openavbMediaQSetSize true (fun _ => true) (fun k => (k <? 1)%nat) 2 8 start_world = Ok (false, w) /\
    openavbMediaQSetSize true (fun _ => true) (fun _ => true) 2 8 w = Ok (true, w') /\
    exists i it, pMediaQ w' = Queue (Some i) /\ pItems i !! 1%nat = Some it /\ pPubData it = None.
Proof. eexists. eexists. split; [vm_compute; reflexivity|]. split; [vm_compute; reflexivity|]. eexists. eexists. split; [reflexivity|]. split; reflexivity. Qed.

(** Deleting never reports success. *)
Lemma delete_answers_false w b w' : openavbMediaQDelete w = Ok (b, w') -> b = false.
Proof.
  unfold openavbMediaQDelete. go. destruct (pMediaQ w) as [|p|]; [by intros [= <- _]|destruct p; by intros [= <- _]|done].
Qed.
