(* ===== verification/SavedState.v ===== *)
(** * The saved connections of the listeners

    lib/avtp_pipeline/platform/Linux/avdecc/openavb_avdecc_save_state.c and the functions of
    openavb_avdecc_read_ini.c on top of it: up to four connections, kept in memory and in a
    text file that is written again after every change and read when it is first needed. *)

From S2P Require Import Prelude CText.

Open Scope Z_scope.
Local Abbreviation length := List.length.
Local Abbreviation get := Prelude.get.

(** ** State *)

(** The [openavb_saved_state_t]; the name is a C string. *)
Record saved_state : Type := mkSaved {
  listener_friendly_name : list Z;
  saved_flags_ : Z;
  saved_talker_uid : Z;
  saved_talker : list Z;
  saved_controller : list Z
}.

#[global] Instance saved_state_eq_dec : EqDecision saved_state.
Proof. solve_decision. Defined.

(** The first [s_nNumSavedStates] elements of [s_sSavedStateInfo], [None] before the file was
    read; the file; the number of requests to the system so far. *)
Record save_store : Type := mkStore {
  states : option (list saved_state);
  save_file : option (list Z);
  io_asked : nat
}.

Definition MAX_SAVED_STATES : nat := 4.
Definition FRIENDLY_NAME_SIZE : nat := 64.
Definition temp_buffer_size : nat := FRIENDLY_NAME_SIZE + 10.

Definition set_states (l : option (list saved_state)) : M save_store unit :=
  modify (fun s => mkStore l (save_file s) (io_asked s)).
Definition set_file (t : option (list Z)) : M save_store unit :=
  modify (fun s => mkStore (states s) t (io_asked s)).

(** ** Text *)

Definition get_hex_value (c : Z) : Z :=
  if (48 <=? c) && (c <=? 57) then c - 48
  else if (65 <=? c) && (c <=? 70) then c - 65 + 10
  else if (97 <=? c) && (c <=? 102) then c - 97 + 10
  else -1.

(** The next character of a C string, the terminating zero at its end. *)
Definition first_char (s : list Z) : Z := hd 0 s.

(** [n] numbers, with colons between them; what follows must be white space or the end. *)
Fixpoint entity_id_loop (n : nat) (input : list Z) : option (list Z * list Z) :=
  match n with
  | O => Some ([], input)
  | S n =>
      let n1 := get_hex_value (first_char input) in
      if n1 <? 0 then None
      else
        let input := tl input in
        let n2 := get_hex_value (first_char input) in
        if n2 <? 0 then None
        else
          let input := tl input in
          match (match n with O => Some input | S _ => if first_char input =? 58 then Some (tl input) else None end) with
          | None => None
          | Some input => '(l, rest) ← entity_id_loop n input; Some (u8 (Z.lor (Z.shiftl n1 4) n2) :: l, rest)
          end
  end.

Definition get_entity_id (input : list Z) : option (list Z) :=
  '(id, rest) ← entity_id_loop 8 input;
  if (first_char rest =? 0) || isspace (first_char rest) then Some id else None.

(** [strtol(s, &end, 10)]: the value (not cut to the range of a long), and the string at
    [end]. *)
Fixpoint scan_dec (s : list Z) (acc : Z) : Z * list Z :=
  match s with
  | c :: s' => if digit_val c <? 10 then scan_dec s' (acc * 10 + digit_val c) else (acc, s)
  | [] => (acc, [])
  end.

Definition strtol10 (s : list Z) : Z * list Z :=
  let '(neg, d) := scan_sign (skip_spaces s) in
  if digit_val (first_char d) <? 10 then
    let '(v, rest) := scan_dec d 0 in ((if neg : bool then - v else v), rest)
  else (0, s).

(** [fgets] into a buffer of [size] bytes: what is stored, and the rest of the stream. *)
Fixpoint fgets_chars (n : nat) (text : list Z) : list Z * list Z :=
  match n, text with
  | S n, c :: text =>
      if c =? 10 then ([c], text)
      else let '(l, rest) := fgets_chars n text in (c :: l, rest)
  | _, _ => ([], text)
  end.

Definition is_eol (c : Z) : bool := (c =? 13) || (c =? 10).

Fixpoint skip_eol (s : list Z) : list Z :=
  match s with
  | c :: s' => if is_eol c then skip_eol s' else s
  | [] => []
  end.

Definition strip_eol (s : list Z) : list Z := rev (skip_eol (rev s)).

Definition strncpy_name (s : list Z) : list Z := take (FRIENDLY_NAME_SIZE - 1) s.

(** [ENTITYID_FORMAT] *)
Fixpoint fmt_entity_id (id : list Z) : list Z :=
  match id with
  | [] => []
  | [b] => fmt_x 2 b
  | b :: id => fmt_x 2 b ++ [58] ++ fmt_entity_id id
  end.

(** What [write_saved_state_info] prints for a state. *)
Definition fmt_state (s : saved_state) : list Z :=
  listener_friendly_name s ++ newline ++ fmt_u (saved_flags_ s) ++ newline ++ fmt_u (saved_talker_uid s) ++ newline ++
  fmt_entity_id (saved_talker s) ++ newline ++ fmt_entity_id (saved_controller s) ++ newline ++ newline.

(** ** The file *)

Inductive line_read : Type := Line (l rest : list Z) | AtEof | ReadError.

(** [io] answers whether a request to the system succeeds; [memcpy_down] is what [memcpy]
    leaves when it moves several elements of the array down by one: the areas overlap, so
    the language does not say. *)
Section Files.
Context (io : nat -> bool) (memcpy_down : list saved_state -> list saved_state).

Definition ask_io : M save_store bool :=
  s ← get; put (mkStore (states s) (save_file s) (S (io_asked s)));; mret (io (io_asked s)).

Definition fgets (text : list Z) : M save_store line_read :=
  ok ← ask_io;
  mret (if (ok : bool) then
          match text with
          | [] => AtEof
          | _ => let '(l, rest) := fgets_chars (temp_buffer_size - 1) text in Line (cstr l) rest
          end
        else ReadError).

(** The name: the next line that is not empty. *)
Fixpoint read_name (fuel : nat) (text : list Z) : M save_store line_read :=
  match fuel with
  | O => raise FuelExhausted
  | S fuel =>
      r ← fgets text;
      match r with
      | Line l rest => match strip_eol l with [] => read_name fuel rest | name => mret (Line name rest) end
      | _ => mret r
      end
  end.

Definition read_number (text : list Z) : M save_store (option (Z * list Z)) :=
  r ← fgets text;
  mret match r with
  | Line l rest =>
      let '(v, tail) := strtol10 l in
      if negb (first_char tail =? 10) || (v <? 0) || (65535 <? v) then None else Some (v, rest)
  | _ => None
  end.

Definition read_id (text : list Z) : M save_store (option (list Z * list Z)) :=
  r ← fgets text;
  mret match r with
  | Line l rest => (fun id => (id, rest)) <$> get_entity_id l
  | _ => None
  end.

(** Up to [k] more states are read. *)
Fixpoint read_states (k : nat) (text : list Z) : M save_store bool :=
  match k with
  | O => mret true
  | S k =>
      name ← read_name (S (length text)) text;
      match name with
      | ReadError => mret false
      | AtEof => mret true
      | Line name text =>
          fl ← read_number text;
          match fl with
          | None => mret false
          | Some (fl, text) =>
              uid ← read_number text;
              match uid with
              | None => mret false
              | Some (uid, text) =>
                  talker ← read_id text;
                  match talker with
                  | None => mret false
                  | Some (talker, text) =>
                      controller ← read_id text;
                      match controller with
                      | None => mret false
                      | Some (controller, text) =>
                          s ← get;
                          set_states (Some (default [] (states s) ++ [mkSaved (strncpy_name name) fl uid talker controller]));;
                          read_states k text
                      end
                  end
              end
          end
      end
  end.

Definition get_saved_state_info : M save_store bool :=
  set_states None;;
  dup ← ask_io;
  if negb dup then mret false
  else
    set_states (Some []);;
    opened ← ask_io;
    s ← get;
    match save_file s with
    | Some text => if (opened : bool) then read_states MAX_SAVED_STATES text else mret true
    | None => mret true
    end.

Fixpoint write_states (l : list saved_state) : M save_store bool :=
  match l with
  | [] => mret true
  | x :: l =>
      ok ← ask_io;
      if (ok : bool) then
        s ← get;
        set_file (Some (default [] (save_file s) ++ fmt_state x));;
        write_states l
      else mret false
  end.

Definition write_saved_state_info : M save_store bool :=
  dup ← ask_io;
  if negb dup then mret false
  else
    opened ← ask_io;
    if negb opened then mret false
    else
      set_file (Some []);;
      s ← get;
      write_states (default [] (states s)).

(** ** Access by index *)

Definition loaded : M save_store bool :=
  s ← get; match states s with Some _ => mret true | None => get_saved_state_info end.

Definition openavbAvdeccGetSavedState (index : nat) : M save_store (option saved_state) :=
  ok ← loaded;
  if negb ok then mret None
  else s ← get; mret (default [] (states s) !! index).

(** Without the element [index]. *)
Definition without_state (l : list saved_state) (index : nat) : list saved_state :=
  take index l ++
  match drop (S index) l with
  | ([] | [_]) as moved => moved
  | moved => memcpy_down moved
  end.

Definition openavbAvdeccDeleteSavedState (index : nat) : M save_store bool :=
  ok ← loaded;
  if negb ok then mret false
  else
    s ← get;
    let l := default [] (states s) in
    if bool_decide (length l <= index)%nat then mret false
    else set_states (Some (without_state l index));; write_saved_state_info.

(** The oldest states are deleted until there is room. *)
Fixpoint make_room (fuel : nat) : M save_store unit :=
  s ← get;
  if bool_decide (length (default [] (states s)) < MAX_SAVED_STATES)%nat then mret tt
  else
    match fuel with
    | O => raise FuelExhausted
    | S fuel => _ ← openavbAvdeccDeleteSavedState 0; make_room fuel
    end.

Definition openavbAvdeccAddSavedState (x : saved_state) : M save_store Z :=
  ok ← loaded;
  if negb ok then mret (-1)
  else
    s ← get;
    make_room (length (default [] (states s)));;
    s ← get;
    let l := default [] (states s) ++ [mkSaved (strncpy_name (listener_friendly_name x)) (saved_flags_ x)
      (saved_talker_uid x) (saved_talker x) (saved_controller x)] in
    set_states (Some l);;
    written ← write_saved_state_info;
    mret (if (written : bool) then Z.of_nat (length l) - 1 else -1).

(** ** Access by the name of the listener *)

Context (bFastConnectSupported : bool).

(** The position of the first state of a listener; the loops look at a thousand at most. *)
Fixpoint find_saved (k i : nat) (name : list Z) : M save_store (option (nat * saved_state)) :=
  match k with
  | O => mret None
  | S k =>
      t ← openavbAvdeccGetSavedState i;
      match t with
      | None => mret None
      | Some t => if bool_decide (listener_friendly_name t = name) then mret (Some (i, t)) else find_saved k (S i) name
      end
  end.

Definition openavbAvdeccSaveState (x : saved_state) : M save_store bool :=
  if negb bFastConnectSupported then mret false
  else
    r ← find_saved 1000 0 (listener_friendly_name x);
    match r with
    | Some (i, t) =>
        if bool_decide (t = x) then mret true
        else
          _ ← openavbAvdeccDeleteSavedState i;
          _ ← openavbAvdeccAddSavedState x;
          mret true
    | None => _ ← openavbAvdeccAddSavedState x; mret true
    end.

Definition openavbAvdeccClearSavedState (name : list Z) : M save_store bool :=
  r ← find_saved 1000 0 name;
  match r with
  | Some (i, _) => _ ← openavbAvdeccDeleteSavedState i; mret true
  | None => mret false
  end.

Definition openavbAvdeccGetSaveStateInfo (name : list Z) : M save_store (option saved_state) :=
  if negb bFastConnectSupported then mret None
  else r ← find_saved 1000 0 name; mret (snd <$> r).

End Files.

(** A process that starts finds the file, and knows nothing. *)
Definition restart (s : save_store) : save_store := mkStore None (save_file s) (io_asked s).
