(* ===== verification/SavedTheory.v ===== *)
(** * Saved connections are read back

    The lines of the file are read as they were written, so that loading restores the
    states; any file, and any failure of the system, leaves at most four states and ends. *)

From S2P Require Import Prelude CText CTextTheory SavedState.

Open Scope Z_scope.
Local Abbreviation length := List.length.
Local Abbreviation get := Prelude.get.

(** What the text file can hold. *)
Record good_name (n : list Z) : Prop := mkGoodName {
  gn_some : n <> [];
  gn_short : (length n < FRIENDLY_NAME_SIZE)%nat;
  gn_chars : Forall (fun c => 0 < c /\ c <> 10) n;
  gn_last : last n <> Some 13
}.

Record good_state (x : saved_state) : Prop := mkGoodState {
  gs_name : good_name (listener_friendly_name x);
  gs_flags : is_u16 (saved_flags_ x);
  gs_uid : is_u16 (saved_talker_uid x);
  gs_talker : bytes (saved_talker x) /\ length (saved_talker x) = 8%nat;
  gs_controller : bytes (saved_controller x) /\ length (saved_controller x) = 8%nat
}.

(** ** Lines *)

Lemma fgets_chars_line l : forall n t,
  Forall (fun c => c <> 10) l -> (length l < n)%nat -> fgets_chars n (l ++ 10 :: t) = (l ++ [10], t).
Proof.
  induction l as [|c l IH]; intros n t Hl Hn; destruct n as [|n]; cbn in *; try lia; [done|].
  apply Forall_cons in Hl as [Hc Hl]. rewrite (proj2 (Z.eqb_neq _ _)) by done. by rewrite IH by (done || lia).
Qed.

Lemma cstr_id l : Forall (fun c => 0 < c) l -> cstr l = l.
Proof. induction 1 as [|c l Hc _ IH]; cbn; [done|]. rewrite (proj2 (Z.eqb_neq _ _)) by lia. by rewrite IH. Qed.

Lemma strip_eol_line n : n <> [] -> last n <> Some 13 -> Forall (fun c => c <> 10) n -> strip_eol (n ++ [10]) = n.
Proof.
  intros Hn Hl Hf. destruct (exists_last Hn) as (m & c & ->). rewrite last_snoc in Hl.
  apply Forall_app in Hf as [_ Hc]. apply Forall_inv in Hc.
  unfold strip_eol. rewrite !rev_app_distr. cbn. unfold is_eol. cbn.
  rewrite (proj2 (Z.eqb_neq c 13)) by congruence. rewrite (proj2 (Z.eqb_neq c 10)) by done. cbn.
  by rewrite rev_involutive.
Qed.

(** ** Numbers *)

Lemma scan_dec_digits l : forall a t, Forall dec_char l -> scan_dec (l ++ 10 :: t) a = (dec_fold l a, 10 :: t).
Proof.
  induction l as [|c l IH]; intros a t Hl; [done|]. apply Forall_cons in Hl as [Hc Hl]. cbn.
  rewrite (dec_digit_val c Hc). unfold dec_char in Hc. rewrite (proj2 (Z.ltb_lt _ _)) by lia.
  rewrite IH by done. done.
Qed.

Lemma fmt_u_digits v : is_u16 v -> exists c l, fmt_u v = c :: l /\ Forall dec_char (c :: l) /\ dec_fold (c :: l) 0 = v.
Proof.
  intros Hv. unfold is_u16 in Hv. destruct (decide (v = 0)) as [->|Hz].
  - exists 48, []. split_and!; [done| |done]. repeat constructor; unfold dec_char; lia.
  - destruct (digits_dec v) as (c & l & ? & ? & ? & ?); [lia|]. by exists c, l.
Qed.

Lemma dec_ws c : dec_char c -> skip_spaces [c] = [c] /\ scan_sign [c] = (false, [c]).
Proof. unfold dec_char. intros. split; [by apply skip_spaces_dense; lia|by apply scan_sign_pos; lia]. Qed.

Lemma strtol10_line v : is_u16 v -> strtol10 (fmt_u v ++ [10]) = (v, [10]).
Proof.
  intros Hv. destruct (fmt_u_digits v Hv) as (c & l & -> & Hf & He). unfold strtol10.
  pose proof (Forall_inv Hf) as Hc. unfold dec_char in Hc. cbn [app].
  rewrite skip_spaces_dense, scan_sign_pos by lia. cbn [first_char hd].
  rewrite dec_digit_val by done. rewrite (proj2 (Z.ltb_lt _ _)) by lia.
  change (c :: l ++ [10]) with ((c :: l) ++ 10 :: []). rewrite scan_dec_digits by done. by rewrite He.
Qed.

(** ** Identifiers *)

Lemma hex_pair b : is_u8 b -> exists a c, fmt_x 2 b = [a; c] /\ 48 <= a /\ 48 <= c /\ 0 <= get_hex_value a /\ 0 <= get_hex_value c /\
  u8 (Z.lor (Z.shiftl (get_hex_value a) 4) (get_hex_value c)) = b.
Proof.
  intros Hb. unfold is_u8 in Hb. destruct (fmt_x_hex 2 b ltac:(lia)) as (Hf & _ & He).
  pose proof (fmt_x_exact 2 b) as Hl. destruct (fmt_x 2 b) as [|a [|c [|]]]; cbn in Hl; try (specialize (Hl ltac:(lia) ltac:(cbn; lia)); lia).
  apply Forall_cons in Hf as [Ha [Hc _]%Forall_cons]. unfold hex_fold in He. cbn in He.
  assert (Hg : forall x, hex_char x -> get_hex_value x = digit_val x /\ 0 <= digit_val x < 16 /\ 48 <= x).
  { unfold hex_char, get_hex_value, digit_val. intros x Hx. repeat case_match; lia. }
  exists a, c. destruct (Hg a Ha) as (-> & ? & ?), (Hg c Hc) as (-> & ? & ?). split_and!; [done|lia..|].
  rewrite lor_shiftl_add by lia. rewrite u8_small by (unfold is_u8; lia). lia.
Qed.

Lemma fmt_entity_id_cons b id : id <> [] -> fmt_entity_id (b :: id) = fmt_x 2 b ++ 58 :: fmt_entity_id id.
Proof. by destruct id. Qed.

Lemma entity_id_loop_line id : forall t, bytes id -> entity_id_loop (length id) (fmt_entity_id id ++ 10 :: t) = Some (id, 10 :: t).
Proof.
  induction id as [|b id IH]; intros t Hb; [done|]. apply Forall_cons in Hb as [Hb Hid].
  destruct (hex_pair b Hb) as (x & y & Hf & ? & ? & Hx & Hy & Hv).
  assert (Hloop : forall rest, entity_id_loop (length (b :: id)) (x :: y :: rest) =
    match (match length id with O => Some rest | S _ => if first_char rest =? 58 then Some (tl rest) else None end) with
    | None => None
    | Some input => '(l, rest) ← entity_id_loop (length id) input; Some (b :: l, rest)
    end).
  { intros rest. cbn [length entity_id_loop first_char hd tl]. rewrite !(proj2 (Z.ltb_ge _ _)) by lia. by rewrite Hv. }
  destruct id as [|b' id].
  - cbn [fmt_entity_id]. rewrite Hf. cbn [app]. rewrite Hloop. done.
  - rewrite fmt_entity_id_cons by done. rewrite Hf. rewrite <- app_assoc. cbn [app]. rewrite Hloop.
    cbn [length first_char hd tl]. rewrite Z.eqb_refl. change (S (length id)) with (length (b' :: id)).
    by rewrite IH.
Qed.

Lemma get_entity_id_line id : bytes id -> length id = 8%nat -> get_entity_id (fmt_entity_id id ++ [10]) = Some id.
Proof. intros Hb Hl. unfold get_entity_id. rewrite <- Hl. by rewrite entity_id_loop_line. Qed.

Lemma fmt_entity_id_chars id : bytes id -> Forall (fun c => 48 <= c) (fmt_entity_id id) /\ (length (fmt_entity_id id) <= 3 * length id)%nat.
Proof.
  induction id as [|b id IH]; intros Hb; [done|]. apply Forall_cons in Hb as [Hb Hid].
  destruct (hex_pair b Hb) as (x & y & Hf & ? & ? & _). destruct (IH Hid) as [IH1 IH2].
  destruct id as [|b' id].
  - cbn [fmt_entity_id]. rewrite Hf. split; [by repeat constructor|cbn; lia].
  - rewrite fmt_entity_id_cons by done. rewrite Hf. split.
    + cbn [app]. repeat constructor; [done..|lia|done].
    + rewrite length_app. cbn [length] in *. lia.
Qed.

(** ** Whole files *)

Section Theory.
Context (io : nat -> bool) (memcpy_down : list saved_state -> list saved_state).

(** Nothing but the count of requests has changed. *)
Definition same_store (s s' : save_store) : Prop := states s' = states s /\ save_file s' = save_file s.

Lemma wp_ask_io T (Q : bool -> save_store -> Prop) s :
  Q (io (io_asked s)) (mkStore (states s) (save_file s) (S (io_asked s))) -> wp T (ask_io io) Q s.
Proof. done. Qed.

Lemma fgets_chars_shorter n : forall text, text <> [] -> (0 < n)%nat -> (length (fgets_chars n text).2 < length text)%nat.
Proof.
  assert (Hle : forall n text, (length (fgets_chars n text).2 <= length text)%nat).
  { intros m. induction m as [|m IH]; intros [|c text]; [cbn; lia..|]. cbn. case_match; [cbn; lia|].
    specialize (IH text). destruct (fgets_chars m text). cbn in *. lia. }
  intros [|c text] Hne Hn; [done|]. destruct n as [|n]; [lia|]. cbn. case_match; [cbn; lia|].
  specialize (Hle n text). destruct (fgets_chars n text). cbn in *. lia.
Qed.

(** Reading a line asks the system, and takes something of the text. *)
Lemma wp_fgets T text (Q : line_read -> save_store -> Prop) s :
  (forall r s', same_store s s' ->
    match r with Line _ rest => (length rest < length text)%nat | _ => True end -> Q r s') ->
  wp T (fgets io text) Q s.
Proof.
  intros H. unfold fgets. apply wp_bind, wp_ask_io, wp_ret. destruct (io _); [|by apply H].
  destruct text as [|c text]; [by apply H|].
  pose proof (fgets_chars_shorter (temp_buffer_size - 1) (c :: text) ltac:(done) ltac:(cbn; lia)) as Hs.
  destruct (fgets_chars _ _) as [l rest]. by apply H.
Qed.

Lemma wp_read_name T fuel : forall text (Q : line_read -> save_store -> Prop) s,
  (length text < fuel)%nat ->
  (forall r s', same_store s s' -> Q r s') -> wp T (read_name io fuel text) Q s.
Proof.
  induction fuel as [|fuel IH]; intros text Q s Hf HQ; [lia|]. cbn [read_name].
  apply wp_bind, wp_fgets. intros [l rest| |] s' Hs Hr; [|by apply wp_ret, HQ..].
  destruct (strip_eol l) eqn:?; [|by apply wp_ret, HQ].
  apply IH; [lia|]. intros r s'' [Hs1 Hs2]. apply HQ. destruct Hs. split; congruence.
Qed.

Lemma wp_read_number T text (Q : option (Z * list Z) -> save_store -> Prop) s :
  (forall r s', same_store s s' -> Q r s') -> wp T (read_number io text) Q s.
Proof. intros HQ. unfold read_number. apply wp_bind, wp_fgets. intros r s' Hs _. by apply wp_ret, HQ. Qed.

Lemma wp_read_id T text (Q : option (list Z * list Z) -> save_store -> Prop) s :
  (forall r s', same_store s s' -> Q r s') -> wp T (read_id io text) Q s.
Proof. intros HQ. unfold read_id. apply wp_bind, wp_fgets. intros r s' Hs _. by apply wp_ret, HQ. Qed.

(** The array has room: at most [n] states. *)
Definition save_room (n : nat) (s : save_store) : Prop := (length (default [] (states s)) <= n)%nat.

Lemma room_mono n m s : (n <= m)%nat -> save_room n s -> save_room m s.
Proof. unfold save_room. lia. Qed.

Lemma same_room n s s' : same_store s s' -> save_room n s -> save_room n s'.
Proof. unfold save_room. by intros [-> _]. Qed.

Lemma read_states_room T k : forall text n s, (n + k <= MAX_SAVED_STATES)%nat -> save_room n s ->
  wp T (read_states io k text) (fun _ => save_room MAX_SAVED_STATES) s.
Proof.
  induction k as [|k IH]; intros text n s Hk Hn; cbn [read_states].
  { apply wp_ret. eapply room_mono; [|done]. lia. }
  assert (Hend : forall s', same_store s s' -> save_room MAX_SAVED_STATES s').
  { intros s' Hs. eapply room_mono; [|by eapply same_room]. lia. }
  apply wp_bind, wp_read_name; [lia|]. intros [name text1| |] s1 H1; [|by apply wp_ret, Hend..].
  apply wp_bind, wp_read_number. intros [[fl text2]|] s2 H2; [|apply wp_ret, Hend; destruct H1, H2; split; congruence].
  apply wp_bind, wp_read_number. intros [[uid text3]|] s3 H3; [|apply wp_ret, Hend; destruct H1, H2, H3; split; congruence].
  apply wp_bind, wp_read_id. intros [[tk text4]|] s4 H4; [|apply wp_ret, Hend; destruct H1, H2, H3, H4; split; congruence].
  apply wp_bind, wp_read_id. intros [[ct text5]|] s5 H5; [|apply wp_ret, Hend; destruct H1, H2, H3, H4, H5; split; congruence].
  apply (IH _ (S n)); [lia|]. unfold save_room in *. destruct H1 as [E1 _], H2 as [E2 _], H3 as [E3 _], H4 as [E4 _], H5 as [E5 _].
  cbn. rewrite length_app, E5, E4, E3, E2, E1. cbn. lia.
Qed.

Lemma load_room T s : wp T (get_saved_state_info io) (fun _ => save_room MAX_SAVED_STATES) s.
Proof.
  unfold get_saved_state_info. apply wp_bind, wp_modify. apply wp_bind, wp_ask_io. destruct (io _).
  2: { apply wp_ret. unfold save_room. cbn. lia. }
  cbn [negb]. apply wp_bind, wp_modify. apply wp_bind, wp_ask_io. apply wp_bind, wp_get. cbn [save_file].
  destruct (save_file s) as [text|]; [destruct (io _)|].
  - apply (read_states_room T MAX_SAVED_STATES _ 0); [lia|]. unfold save_room. cbn. lia.
  - apply wp_ret. unfold save_room. cbn. lia.
  - apply wp_ret. unfold save_room. cbn. lia.
Qed.

Lemma wp_loaded_room T s : save_room MAX_SAVED_STATES s -> wp T (loaded io) (fun _ => save_room MAX_SAVED_STATES) s.
Proof.
  intros H. unfold loaded. apply wp_bind. apply wp_get. destruct (states s) eqn:E; [by apply wp_ret|]. apply load_room.
Qed.

(** Writing does not change the states. *)
Lemma wp_write_states T l : forall (Q : bool -> save_store -> Prop) s,
  (forall b s', states s' = states s -> Q b s') -> wp T (write_states io l) Q s.
Proof.
  induction l as [|x l IH]; intros Q s HQ; [by apply wp_ret, HQ|]. cbn [write_states].
  apply wp_bind, wp_ask_io. destruct (io _); [|by apply wp_ret, HQ].
  apply wp_bind, wp_get, wp_bind, wp_modify, IH. intros b s' E. by apply HQ.
Qed.

Lemma wp_write T (Q : bool -> save_store -> Prop) s :
  (forall b s', states s' = states s -> Q b s') -> wp T (write_saved_state_info io) Q s.
Proof.
  intros HQ. unfold write_saved_state_info. apply wp_bind, wp_ask_io. destruct (io _); [|by apply wp_ret, HQ].
  apply wp_bind, wp_ask_io. cbn [negb]. destruct (io _); [|by apply wp_ret, HQ].
  apply wp_bind, wp_modify, wp_bind, wp_get, wp_write_states. intros b s' E. by apply HQ.
Qed.

(** ** The system does what it is asked *)

Context (Hio : forall k, io k = true).

Lemma wp_fgets_line T l t (Q : line_read -> save_store -> Prop) s :
  Forall (fun c => 0 < c /\ c <> 10) l -> (length l < temp_buffer_size - 1)%nat ->
  (forall s', same_store s s' -> Q (Line (l ++ [10]) t) s') -> wp T (fgets io (l ++ 10 :: t)) Q s.
Proof.
  intros Hl Hn HQ. unfold fgets. apply wp_bind, wp_ask_io, wp_ret. rewrite Hio.
  destruct (l ++ 10 :: t) as [|c text] eqn:E; [by destruct l|]. rewrite <- E.
  rewrite fgets_chars_line by (done || by eapply Forall_impl; [exact Hl|intros ? []]).
  rewrite cstr_id; [by apply HQ|]. apply Forall_app. split; [|by repeat constructor].
  eapply Forall_impl; [exact Hl|]. by intros ? [].
Qed.

Lemma text_chars l : Forall (fun c => 48 <= c) l -> Forall (fun c => 0 < c /\ c <> 10) l.
Proof. intros H. eapply Forall_impl; [exact H|]. cbn. lia. Qed.

Lemma wp_read_name_line T n t (Q : line_read -> save_store -> Prop) s fuel : good_name n ->
  (forall s', same_store s s' -> Q (Line n t) s') -> wp T (read_name io (S fuel) (n ++ 10 :: t)) Q s.
Proof.
  intros [H1 H2 H3 H4] HQ. cbn [read_name]. apply wp_bind, wp_fgets_line; [done|unfold temp_buffer_size; lia|].
  intros s' Hs. rewrite strip_eol_line; [|done..|by eapply Forall_impl; [exact H3|intros ? []]].
  destruct n; [done|]. by apply wp_ret, HQ.
Qed.

Lemma wp_read_number_line T v t (Q : option (Z * list Z) -> save_store -> Prop) s : is_u16 v ->
  (forall s', same_store s s' -> Q (Some (v, t)) s') -> wp T (read_number io (fmt_u v ++ 10 :: t)) Q s.
Proof.
  intros Hv HQ. destruct (fmt_u_digits v Hv) as (c & l & E & Hf & _). unfold read_number. apply wp_bind, wp_fgets_line.
  - apply text_chars. rewrite E. eapply Forall_impl; [exact Hf|]. unfold dec_char. lia.
  - pose proof (digits_loop_length 20 10 v []) as Hl. unfold fmt_u, digits, temp_buffer_size. cbn in *. lia.
  - intros s' Hs. apply wp_ret. rewrite strtol10_line by done. cbn [first_char hd]. unfold is_u16 in Hv.
    rewrite !(proj2 (Z.ltb_ge _ _)) by lia. by apply HQ.
Qed.

Lemma wp_read_id_line T id t (Q : option (list Z * list Z) -> save_store -> Prop) s : bytes id -> length id = 8%nat ->
  (forall s', same_store s s' -> Q (Some (id, t)) s') -> wp T (read_id io (fmt_entity_id id ++ 10 :: t)) Q s.
Proof.
  intros Hb Hl HQ. destruct (fmt_entity_id_chars id Hb) as [H1 H2]. unfold read_id. apply wp_bind, wp_fgets_line.
  - by apply text_chars.
  - unfold temp_buffer_size. cbn. lia.
  - intros s' Hs. apply wp_ret. rewrite get_entity_id_line by done. by apply HQ.
Qed.

Definition text_of (l : list saved_state) : list Z := concat (fmt_state <$> l).

Lemma strncpy_name_id n : good_name n -> strncpy_name n = n.
Proof. intros [_ H _ _]. unfold strncpy_name. apply take_ge. unfold FRIENDLY_NAME_SIZE in *. lia. Qed.

(** The end of the file, possibly behind an empty line. *)
Lemma wp_read_name_end T pre (Q : line_read -> save_store -> Prop) s : pre = [] \/ pre = newline ->
  (forall s', same_store s s' -> Q AtEof s') -> wp T (read_name io (S (length pre)) pre) Q s.
Proof.
  intros [-> | ->] HQ; cbn [read_name length newline].
  - unfold fgets. apply wp_bind, wp_bind, wp_ask_io, wp_ret. rewrite Hio. by apply wp_ret, HQ.
  - apply wp_bind. apply (wp_fgets_line T [] []); [by constructor|cbn; lia|]. intros s' [E1 E2]. cbn.
    apply wp_bind, wp_bind, wp_ask_io, wp_ret. rewrite Hio. by apply wp_ret, HQ.
Qed.

Lemma wp_read_name_state T pre n t (Q : line_read -> save_store -> Prop) s : pre = [] \/ pre = newline -> good_name n ->
  (forall s', same_store s s' -> Q (Line n t) s') ->
  wp T (read_name io (S (length (pre ++ n ++ 10 :: t))) (pre ++ n ++ 10 :: t)) Q s.
Proof.
  intros [-> | ->] Hn HQ; [by apply wp_read_name_line|]. cbn [newline app length]. cbn [read_name].
  apply wp_bind. apply (wp_fgets_line T [] (n ++ 10 :: t)); [by constructor|cbn; lia|]. intros s' Hs.
  change (strip_eol ([] ++ [10])) with (@nil Z). cbv iota. apply wp_read_name_line; [done|].
  intros s'' Hs'. apply HQ. destruct Hs, Hs'. split; congruence.
Qed.

Lemma read_states_text T xs : forall k pre s l,
  (length xs <= k)%nat -> Forall good_state xs -> pre = [] \/ pre = newline -> states s = Some l ->
  wp T (read_states io k (pre ++ text_of xs))
    (fun b s' => b = true /\ states s' = Some (l ++ xs) /\ save_file s' = save_file s) s.
Proof.
  induction xs as [|x xs IH]; intros k pre s l Hk Hx Hpre Hl; destruct k as [|k]; cbn [length read_states] in *; [| |lia|].
  - apply wp_ret. by rewrite app_nil_r.
  - rewrite app_nil_r. apply wp_bind, wp_read_name_end; [done|]. intros s' [E1 E2]. apply wp_ret. rewrite app_nil_r. split_and!; [done|congruence..].
  - apply Forall_cons in Hx as [[Hn Hf Hu [Ht Htl] [Hc Hcl]] Hxs]. unfold text_of. cbn [fmap list_fmap concat]. fold (text_of xs).
    unfold fmt_state. rewrite <- !app_assoc. cbn [newline app].
    apply wp_bind, wp_read_name_state; [done..|]. intros s1 [E1 F1].
    apply wp_bind, wp_read_number_line; [done|]. intros s2 [E2 F2].
    apply wp_bind, wp_read_number_line; [done|]. intros s3 [E3 F3].
    apply wp_bind, wp_read_id_line; [done..|]. intros s4 [E4 F4].
    apply wp_bind, wp_read_id_line; [done..|]. intros s5 [E5 F5].
    apply wp_bind, wp_get, wp_bind, wp_modify. change (10 :: text_of xs) with (newline ++ text_of xs).
    rewrite strncpy_name_id by done. destruct x as [n fl u tk ct]; cbn [listener_friendly_name saved_flags_ saved_talker_uid saved_talker saved_controller] in *.
    eapply wp_mono; [apply (IH k newline _ (l ++ [mkSaved n fl u tk ct])); [lia|done|by right|]|].
    + cbn. by rewrite E5, E4, E3, E2, E1, Hl.
    + cbn. intros b s' (-> & -> & ->). split_and!; [done|by rewrite <- app_assoc|congruence].
Qed.

Lemma write_states_text T l : forall s t, save_file s = Some t ->
  wp T (write_states io l) (fun b s' => b = true /\ states s' = states s /\ save_file s' = Some (t ++ text_of l)) s.
Proof.
  induction l as [|x l IH]; intros s t Ht; cbn [write_states].
  - apply wp_ret. unfold text_of. cbn. by rewrite app_nil_r.
  - apply wp_bind, wp_ask_io. rewrite Hio. apply wp_bind, wp_get, wp_bind, wp_modify. cbn [save_file states].
    rewrite Ht. cbn [default]. eapply wp_mono; [by apply (IH _ (t ++ fmt_state x))|]. cbn. intros b s' (-> & -> & ->).
    unfold text_of. cbn. by rewrite <- app_assoc.
Qed.

Lemma write_text T s :
  wp T (write_saved_state_info io)
    (fun b s' => b = true /\ states s' = states s /\ save_file s' = Some (text_of (default [] (states s)))) s.
Proof.
  unfold write_saved_state_info. apply wp_bind, wp_ask_io. rewrite Hio. cbn [negb]. apply wp_bind, wp_ask_io. rewrite Hio. cbn [negb].
  apply wp_bind, wp_modify, wp_bind, wp_get. eapply wp_mono; [by apply (write_states_text _ _ _ [])|]. cbn. by intros b s' (-> & -> & ->).
Qed.

(** The states [l] are known, in memory or on the disk. *)
Definition knows (l : list saved_state) (s : save_store) : Prop :=
  (states s = Some l \/ states s = None) /\
  (save_file s = Some (text_of l) \/ save_file s = None /\ l = []).

Lemma load_text T l s : knows l s -> (length l <= MAX_SAVED_STATES)%nat -> Forall good_state l ->
  wp T (loaded io) (fun b s' => b = true /\ states s' = Some l /\ knows l s') s.
Proof.
  intros [Hm Hf] Hl Hg. unfold loaded. apply wp_bind, wp_get. destruct (states s) as [l'|] eqn:E.
  { apply wp_ret. destruct Hm as [[= ->]|]; [|done]. split_and!; [done..|split; [by left|done]]. }
  unfold get_saved_state_info. apply wp_bind, wp_modify, wp_bind, wp_ask_io. rewrite Hio. cbn [negb].
  apply wp_bind, wp_modify, wp_bind, wp_ask_io, wp_bind, wp_get. cbn [save_file]. rewrite Hio.
  destruct Hf as [Hf | [Hf ->]]; rewrite Hf.
  - eapply wp_mono; [apply (read_states_text T l MAX_SAVED_STATES [] _ []); [done..|by left|done]|].
    cbn. intros b s' (-> & E' & F'). split_and!; [done..|]. split; [by left|]. left. congruence.
  - apply wp_ret. split_and!; [done..|]. split; [by left|by right].
Qed.

End Theory.

(** ** Any file, any system *)

Section Bounds.
Context (io : nat -> bool) (memcpy_down : list saved_state -> list saved_state).
Context (Hlen : forall l, length (memcpy_down l) = length l).

Abbreviation bounded := (save_room MAX_SAVED_STATES).

Lemma length_shifted l i : (i < length l)%nat -> length (without_state memcpy_down l i) = (length l - 1)%nat.
Proof.
  intros Hi. unfold without_state. rewrite length_app, length_take.
  assert (length (drop (S i) l) = length l - S i)%nat as Hd by apply length_drop.
  destruct (drop (S i) l) as [|x [|y r]]; rewrite ?Hlen; cbn [length] in *; lia.
Qed.

Lemma get_saved_bounded T i s : bounded s ->
  wp T (openavbAvdeccGetSavedState io i) (fun r s' => bounded s' /\ (r <> None -> (i < MAX_SAVED_STATES)%nat)) s.
Proof.
  intros Hs. unfold openavbAvdeccGetSavedState. eapply wp_step; [by apply wp_loaded_room|]. cbv beta. intros [] s' Hs'; cbn [negb].
  - apply wp_bind, wp_get, (wp_ret T). split; [done|]. intros [x Hx]%not_eq_None_Some. apply lookup_lt_Some in Hx. unfold save_room in Hs'. lia.
  - by apply (wp_ret T).
Qed.

Lemma find_saved_bounded T name k : forall i s, bounded s -> wp T (find_saved io k i name) (fun _ => bounded) s.
Proof.
  induction k as [|k IH]; intros i s Hs; cbn [find_saved]; [by apply (wp_ret T)|].
  eapply wp_step; [by apply get_saved_bounded|]. cbv beta. intros [t|] s' [Hs' _]; [|by apply (wp_ret T)].
  case_bool_decide; [by apply (wp_ret T)|by apply IH].
Qed.

Lemma delete_bounded T i s : bounded s ->
  wp T (openavbAvdeccDeleteSavedState io memcpy_down i) (fun _ => bounded) s.
Proof.
  intros Hs. unfold openavbAvdeccDeleteSavedState. eapply wp_step; [by apply wp_loaded_room|]. cbv beta. intros [] s' Hs'; cbn [negb].
  2: by apply (wp_ret T).
  apply wp_bind, wp_get. case_bool_decide; [by apply (wp_ret T)|]. apply wp_bind, wp_modify, wp_write.
  intros b s'' E. unfold save_room in *. rewrite E. cbn. rewrite length_shifted by lia. lia.
Qed.

(** One deletion makes room. *)
Lemma make_room_bounded T s : bounded s ->
  wp T (make_room io memcpy_down (length (default [] (states s)))) (fun _ => save_room (MAX_SAVED_STATES - 1)) s.
Proof.
  intros Hs. remember (length (default [] (states s))) as n eqn:En. unfold save_room in Hs. rewrite <- En in Hs.
  destruct n as [|n]; cbn [make_room]; apply wp_bind, wp_get; rewrite <- En.
  { rewrite bool_decide_true by (unfold MAX_SAVED_STATES; lia). apply (wp_ret T). unfold save_room. rewrite <- En. lia. }
  case_bool_decide as Hlt. { apply (wp_ret T). unfold save_room. rewrite <- En. lia. }
  destruct (states s) as [l|] eqn:E; [|done]. cbn in En. unfold openavbAvdeccDeleteSavedState, loaded.
  apply wp_bind, wp_bind, wp_bind, wp_get. rewrite E. apply (wp_ret T). cbn [negb]. apply wp_bind, wp_get. rewrite E. cbn [default id].
  rewrite bool_decide_false by lia. apply wp_bind, wp_modify, wp_write. cbn [states]. intros b s' E'.
  assert (Hl : length (without_state memcpy_down l 0) = n) by (rewrite length_shifted; lia).
  destruct n as [|n]; cbn [make_room]; apply wp_bind, wp_get; rewrite E'; cbn [default id]; rewrite Hl;
    (rewrite bool_decide_true by (unfold MAX_SAVED_STATES in *; lia)); apply (wp_ret T); unfold save_room; rewrite E'; cbn [default id]; rewrite Hl; unfold MAX_SAVED_STATES in *; lia.
Qed.

Lemma add_bounded T x s : bounded s -> wp T (openavbAvdeccAddSavedState io memcpy_down x) (fun _ => bounded) s.
Proof.
  intros Hs. unfold openavbAvdeccAddSavedState. eapply wp_step; [by apply wp_loaded_room|]. cbv beta. intros [] s1 H1; cbn [negb].
  2: by apply (wp_ret T).
  apply wp_bind, wp_get. eapply wp_step; [by apply make_room_bounded|]. cbv beta. intros _ s2 H2.
  apply wp_bind, wp_get, wp_bind, wp_modify, wp_bind, wp_write. intros b s3 E. apply (wp_ret T).
  unfold save_room in *. rewrite E. cbn [states default id]. rewrite length_app. cbn [length]. unfold MAX_SAVED_STATES in *. lia.
Qed.

(** Saving always claims success. *)
Lemma save_bounded T x s : bounded s ->
  wp T (openavbAvdeccSaveState io memcpy_down true x) (fun b s' => b = true /\ bounded s') s.
Proof.
  intros Hs. unfold openavbAvdeccSaveState. cbn [negb]. eapply wp_step; [by apply find_saved_bounded|]. cbv beta. intros [[i t]|] s1 H1.
  - case_bool_decide; [by apply (wp_ret T)|]. eapply wp_step; [by apply delete_bounded|]. cbv beta. intros _ s2 H2.
    eapply wp_step; [by apply add_bounded|]. cbv beta. intros _ s3 H3. by apply (wp_ret T).
  - eapply wp_step; [by apply add_bounded|]. cbv beta. intros _ s3 H3. by apply (wp_ret T).
Qed.

Lemma clear_bounded T name s : bounded s -> wp T (openavbAvdeccClearSavedState io memcpy_down name) (fun _ => bounded) s.
Proof.
  intros Hs. unfold openavbAvdeccClearSavedState. eapply wp_step; [by apply find_saved_bounded|]. cbv beta. intros [[i t]|] s1 H1.
  - eapply wp_step; [by apply delete_bounded|]. cbv beta. intros _ s2 H2. by apply (wp_ret T).
  - by apply (wp_ret T).
Qed.

Lemma lookup_bounded T b name s : bounded s -> wp T (openavbAvdeccGetSaveStateInfo io b name) (fun _ => bounded) s.
Proof.
  intros Hs. unfold openavbAvdeccGetSaveStateInfo. destruct b; cbn [negb]; [|by apply (wp_ret T)].
  eapply wp_step; [by apply find_saved_bounded|]. cbv beta. intros r s1 H1. by apply (wp_ret T).
Qed.

End Bounds.
