(* ===== verification/SavedCorrect.v ===== *)
(** * The saved connections as a small map

    Whatever listeners connect and disconnect, and however often the process starts again,
    the answers are those of a list of connections, one per listener, as long as no
    removal moves two connections or more with one [memcpy]: the areas of such a move
    overlap, and what it leaves is not defined. *)

From S2P Require Import Prelude CText SavedState SavedTheory.

Open Scope Z_scope.
Local Abbreviation length := List.length.
Local Abbreviation get := Prelude.get.

(** ** Sequences of calls *)

Inductive saved_op : Type :=
  | OpSave (x : saved_state)
  | OpClear (name : list Z)
  | OpLookup (name : list Z)
  | OpRestart.

Inductive saved_answer : Type :=
  | Done (b : bool)
  | Found (x : option saved_state).

Definition run_op (io : nat -> bool) (memcpy_down : list saved_state -> list saved_state) (o : saved_op) : M save_store saved_answer :=
  match o with
  | OpSave x => b ← openavbAvdeccSaveState io memcpy_down true x; mret (Done b)
  | OpClear name => b ← openavbAvdeccClearSavedState io memcpy_down name; mret (Done b)
  | OpLookup name => x ← openavbAvdeccGetSaveStateInfo io true name; mret (Found x)
  | OpRestart => modify restart;; mret (Done true)
  end.

Fixpoint run_ops (io : nat -> bool) (memcpy_down : list saved_state -> list saved_state) (l : list saved_op) : M save_store (list saved_answer) :=
  match l with
  | [] => mret []
  | o :: l => a ← run_op io memcpy_down o; r ← run_ops io memcpy_down l; mret (a :: r)
  end.

Definition no_store : save_store := mkStore None None 0.

(** ** The map *)

Definition other_listener (name : list Z) (t : saved_state) : Prop := listener_friendly_name t <> name.

#[global] Instance other_listener_dec name t : Decision (other_listener name t).
Proof. unfold other_listener. apply _. Defined.

(** The answer and the connections afterwards, oldest first. *)
Definition spec_op (o : saved_op) (l : list saved_state) : saved_answer * list saved_state :=
  match o with
  | OpSave x =>
      (Done true,
       if bool_decide (x ∈ l) then l else filter (other_listener (listener_friendly_name x)) l ++ [x])
  | OpClear name => (Done (bool_decide (name ∈ listener_friendly_name <$> l)), filter (other_listener name) l)
  | OpLookup name => (Found (snd <$> list_find (fun t => listener_friendly_name t = name) l), l)
  | OpRestart => (Done true, l)
  end.

Fixpoint spec_ops (ops : list saved_op) (l : list saved_state) : list saved_answer :=
  match ops with
  | [] => []
  | o :: ops => (spec_op o l).1 :: spec_ops ops (spec_op o l).2
  end.

(** Which connection a call removes from the array, if any: the old one of the listener, or
    the oldest when there is no room for a new one. *)
Definition removal (o : saved_op) (l : list saved_state) : option nat :=
  match o with
  | OpSave x =>
      if bool_decide (x ∈ l) then None
      else match list_find (fun t => listener_friendly_name t = listener_friendly_name x) l with
        | Some (i, _) => Some i
        | None => if bool_decide (length l < MAX_SAVED_STATES)%nat then None else Some 0%nat
        end
  | OpClear name => fst <$> list_find (fun t => listener_friendly_name t = name) l
  | OpLookup _ | OpRestart => None
  end.

(** At most one connection is behind the one that is removed, so that the two areas of the
    [memcpy] do not overlap. *)
Definition apart (o : saved_op) (l : list saved_state) : bool :=
  match removal o l with Some i => bool_decide (length l <= i + 2)%nat | None => true end.

Fixpoint moves_apart (ops : list saved_op) (l : list saved_state) : bool :=
  match ops with
  | [] => true
  | o :: ops => apart o l && moves_apart ops (spec_op o l).2
  end.

Definition good_op (o : saved_op) : Prop := match o with OpSave x => good_state x | _ => True end.

(** ** Names are unique *)

(** What holds of the list of connections between calls. *)
Record conns_ok (l : list saved_state) : Prop := mkConnsOk {
  co_bound : (length l <= MAX_SAVED_STATES)%nat;
  co_good : Forall good_state l;
  co_names : NoDup (listener_friendly_name <$> l)
}.

Lemma filter_others name (l : list saved_state) : name ∉ listener_friendly_name <$> l -> filter (other_listener name) l = l.
Proof.
  induction l as [|t l IH]; [done|]. rewrite fmap_cons. intros Hn. apply not_elem_of_cons in Hn as [H1 H2].
  rewrite filter_cons_True by (unfold other_listener; done). by rewrite IH.
Qed.

Lemma filter_found name (l : list saved_state) i t : NoDup (listener_friendly_name <$> l) ->
  list_find (fun t => listener_friendly_name t = name) l = Some (i, t) -> filter (other_listener name) l = delete i l.
Proof.
  revert i. induction l as [|x l IH]; intros i Hnd Hf; [done|]. rewrite fmap_cons in Hnd. apply NoDup_cons in Hnd as [Hx Hnd].
  cbn in Hf. destruct (decide (listener_friendly_name x = name)) as [E|E].
  - simplify_eq. rewrite filter_cons_False by (unfold other_listener; naive_solver). by apply filter_others.
  - destruct (list_find _ l) as [[j y]|] eqn:Hj; [|done]. cbn in Hf. simplify_eq.
    rewrite filter_cons_True by done. cbn. f_equal. by apply IH.
Qed.

Lemma filter_names name (l : list saved_state) : NoDup (listener_friendly_name <$> l) ->
  NoDup (listener_friendly_name <$> filter (other_listener name) l) /\
  name ∉ listener_friendly_name <$> filter (other_listener name) l.
Proof.
  intros Hnd. split.
  - induction l as [|t l IH]; [done|]. rewrite fmap_cons in Hnd. apply NoDup_cons in Hnd as [Hx Hnd].
    rewrite filter_cons. destruct (decide _); [|by apply IH]. rewrite fmap_cons. apply NoDup_cons. split; [|by apply IH].
    intros (y & E & Hy)%list_elem_of_fmap. apply Hx. rewrite E. apply list_elem_of_fmap. exists y.
    split; [done|]. by apply list_elem_of_filter in Hy as [].
  - intros (y & -> & Hy)%list_elem_of_fmap. by apply list_elem_of_filter in Hy as [? _].
Qed.

Lemma filter_good name (l : list saved_state) : Forall good_state l -> Forall good_state (filter (other_listener name) l).
Proof. rewrite !Forall_forall. intros H x Hx. apply list_elem_of_filter in Hx as [_ Hx]. by apply H. Qed.

(** A new connection finds room, because removing the oldest of four would move three. *)
Lemma apart_room x l : conns_ok l -> apart (OpSave x) l = true -> x ∉ l ->
  (length (filter (other_listener (listener_friendly_name x)) l) < MAX_SAVED_STATES)%nat.
Proof.
  intros [H1 _ H3] Ha Hx. unfold apart, removal in Ha. rewrite bool_decide_false in Ha by done.
  destruct (list_find _ l) as [[i t]|] eqn:Hf.
  - rewrite (filter_found _ _ _ _ H3 Hf). apply list_find_Some in Hf as (Hi%lookup_lt_Some & _). rewrite length_delete by (by apply lookup_lt_is_Some). lia.
  - pose proof (length_filter (other_listener (listener_friendly_name x)) l). case_bool_decide; [lia|].
    apply bool_decide_eq_true in Ha. unfold MAX_SAVED_STATES in *. lia.
Qed.

Lemma spec_op_ok o l : good_op o -> conns_ok l -> apart o l = true -> conns_ok (spec_op o l).2.
Proof.
  intros Ho Hok Ha. pose proof Hok as [H1 H2 H3]. destruct o as [x|name|name|]; cbn; [|split|done..].
  - case_bool_decide as Hx; [done|]. destruct (filter_names (listener_friendly_name x) l H3) as [H4 H5].
    pose proof (apart_room x l Hok Ha Hx). split.
    + rewrite length_app. cbn. lia.
    + apply Forall_app. split; [|by constructor]. by apply filter_good.
    + rewrite fmap_app. cbn.
      apply NoDup_app. split_and!; [done| |apply NoDup_singleton]. set_solver.
  - pose proof (length_filter (other_listener name) l). lia.
  - by apply filter_good.
  - by apply filter_names.
Qed.

(** ** The calls *)

Section Calls.
Context (io : nat -> bool) (memcpy_down : list saved_state -> list saved_state).
Context (Hio : forall k, io k = true).

(** The list is in memory. *)
Definition holds_conns (l : list saved_state) (s : save_store) : Prop := states s = Some l /\ knows l s.

Lemma wp_get_saved T l s i : conns_ok l -> knows l s ->
  wp T (openavbAvdeccGetSavedState io i) (fun r s' => r = l !! i /\ holds_conns l s') s.
Proof.
  intros [H1 H2 _] Hk. unfold openavbAvdeccGetSavedState.
  eapply wp_step; [by apply load_text|]. cbn. intros b s' (-> & E & Hk'). cbn [negb].
  apply wp_bind, wp_get, wp_ret. rewrite E. done.
Qed.

Lemma find_saved_at T l name k : forall i s, conns_ok l -> knows l s -> (i <= length l < i + k)%nat ->
  wp T (find_saved io k i name)
    (fun r s' => r = prod_map (Nat.add i) id <$> list_find (fun t => listener_friendly_name t = name) (drop i l) /\ holds_conns l s')
    s.
Proof.
  induction k as [|k IH]; intros i s Hok Hk Hlen; cbn [find_saved].
  { lia. }
  eapply wp_step; [by apply wp_get_saved|]. cbn. intros r s' [-> [E Hk']].
  destruct (l !! i) as [t|] eqn:Ht.
  - rewrite (drop_S _ _ _ Ht). cbn [list_find]. case_bool_decide as Hn; rewrite ?decide_True, ?decide_False by done.
    + apply wp_ret. cbn. by rewrite Nat.add_0_r.
    + eapply wp_mono; [apply IH; [done..|apply lookup_lt_Some in Ht; lia]|]. cbn. intros r s'' [-> ?]. split; [|done].
      rewrite <- option_fmap_compose. apply option_fmap_ext. intros [j y]. cbn. f_equal. lia.
  - apply wp_ret. rewrite drop_ge by (by apply lookup_ge_None). done.
Qed.

Lemma find_saved_spec T l name s : conns_ok l -> knows l s ->
  wp T (find_saved io 1000 0 name)
    (fun r s' => r = list_find (fun t => listener_friendly_name t = name) l /\ holds_conns l s') s.
Proof.
  intros Hok Hk. eapply wp_mono; [apply find_saved_at; [done..|destruct Hok; unfold MAX_SAVED_STATES in *; lia]|].
  cbn. intros r s' [-> ?]. split; [|done]. rewrite drop_0. by destruct (list_find _ l) as [[]|].
Qed.

(** After the array changed the file is written. *)
Lemma write_conns T l s : states s = Some l ->
  wp T (write_saved_state_info io) (fun b s' => b = true /\ holds_conns l s') s.
Proof.
  intros E. eapply wp_mono; [by apply write_text|]. cbn. intros b s' (-> & E1 & E2). rewrite E in *.
  split; [done|]. split; [done|]. split; [by left|by left].
Qed.

Lemma shifted_delete l i : (length l <= i + 2)%nat -> without_state memcpy_down l i = delete i l.
Proof.
  intros Hl. unfold without_state. rewrite delete_take_drop. f_equal.
  assert (Hd : (length (drop (S i) l) <= 1)%nat) by (rewrite length_drop; lia). destruct (drop (S i) l) as [|x [|y r]]; [done..|]. cbn in Hd. lia.
Qed.

Lemma delete_saved_spec T l s i : conns_ok l -> holds_conns l s -> (i < length l <= i + 2)%nat ->
  wp T (openavbAvdeccDeleteSavedState io memcpy_down i) (fun b s' => b = true /\ holds_conns (delete i l) s') s.
Proof.
  intros [H1 H2 _] [E Hk] Hi. unfold openavbAvdeccDeleteSavedState.
  eapply wp_step; [by apply load_text|]. cbn. intros b s' (-> & E' & Hk'). cbn [negb].
  apply wp_bind, wp_get. rewrite E'. cbn [default id]. rewrite bool_decide_false by lia.
  apply wp_bind, wp_modify. rewrite shifted_delete by lia. by apply write_conns.
Qed.

Lemma make_room_spec T l s n : (length l < MAX_SAVED_STATES)%nat -> states s = Some l ->
  wp T (make_room io memcpy_down n) (fun _ s' => states s' = Some l) s.
Proof.
  intros Hl E. destruct n; cbn [make_room]; apply wp_bind, wp_get; rewrite E; cbn [default id];
    rewrite bool_decide_true by done; by apply wp_ret.
Qed.

Lemma add_saved_spec T l s x : conns_ok l -> (length l < MAX_SAVED_STATES)%nat -> holds_conns l s -> good_state x ->
  wp T (openavbAvdeccAddSavedState io memcpy_down x) (fun _ s' => holds_conns (l ++ [x]) s') s.
Proof.
  intros Hok Hroom [E Hk] Hx. pose proof Hok as [H1 H2 _]. unfold openavbAvdeccAddSavedState.
  eapply wp_step; [by apply load_text|]. cbn. intros b s1 (-> & E1 & Hk1). cbn [negb].
  apply wp_bind, wp_get. rewrite E1. cbn [default id].
  eapply wp_step; [by apply make_room_spec|]. cbn. intros _ s2 E2.
  apply wp_bind, wp_get. rewrite E2. cbn [default id]. destruct x as [n fl u tk ct]. cbn in Hx |- *.
  rewrite strncpy_name_id by apply Hx. apply wp_bind, wp_modify.
  eapply wp_step; [by apply write_conns|]. cbn. intros b s3 [-> H3]. by apply wp_ret.
Qed.

Lemma found_elem name (l : list saved_state) i t : NoDup (listener_friendly_name <$> l) ->
  list_find (fun t => listener_friendly_name t = name) l = Some (i, t) ->
  l !! i = Some t /\ forall x, listener_friendly_name x = name -> x ∈ l <-> t = x.
Proof.
  intros Hnd Hf. apply list_find_Some in Hf as (Hi & Hn & _). split; [done|]. intros x Hx. split.
  - intros (j & Hj)%list_elem_of_lookup.
    assert (i = j) as -> by (eapply (NoDup_lookup _ i j name Hnd); rewrite list_lookup_fmap; [rewrite Hi|rewrite Hj]; cbn; congruence).
    congruence.
  - intros <-. by eapply list_elem_of_lookup_2.
Qed.

Lemma save_spec T l s x : conns_ok l -> apart (OpSave x) l = true -> knows l s -> good_state x ->
  wp T (openavbAvdeccSaveState io memcpy_down true x)
    (fun b s' => Done b = (spec_op (OpSave x) l).1 /\ knows (spec_op (OpSave x) l).2 s') s.
Proof.
  intros Hok Ha Hk Hx. pose proof (co_names l Hok) as Hnd. unfold openavbAvdeccSaveState. cbn [negb].
  eapply wp_step; [by apply find_saved_spec|]. cbn. intros r s1 [-> H1].
  destruct (list_find _ l) as [[i t]|] eqn:Hf.
  - destruct (found_elem _ _ _ _ Hnd Hf) as [Hi Hin]. assert (Hil : (i < length l)%nat) by (by eapply lookup_lt_Some).
    rewrite (bool_decide_ext _ _ (Hin x eq_refl)).
    case_bool_decide as Ht; [apply wp_ret; by destruct H1|].
    assert (Hx' : x ∉ l) by (rewrite (Hin x eq_refl); done).
    assert (Hi2 : (length l <= i + 2)%nat).
    { unfold apart, removal in Ha. rewrite (bool_decide_false _ Hx'), Hf in Ha. by apply bool_decide_eq_true in Ha. }
    assert (Hd : conns_ok (delete i l)).
    { rewrite <- (filter_found _ _ _ _ Hnd Hf). apply (spec_op_ok (OpClear (listener_friendly_name x)) l I Hok).
      unfold apart, removal. rewrite Hf. by apply bool_decide_eq_true. }
    eapply wp_step; [by apply (delete_saved_spec T l)|]. cbn. intros b s2 [_ H2].
    eapply wp_step; [apply (add_saved_spec T (delete i l)); [done| |done..]|].
    { rewrite length_delete by (by apply lookup_lt_is_Some). pose proof (co_bound l Hok). lia. }
    cbn. intros r s3 H3. apply (wp_ret T). cbv beta. split; [done|].
    rewrite (filter_found _ _ _ _ Hnd Hf). by destruct H3.
  - pose proof Hf as Hf'. apply list_find_None in Hf. assert (Hx' : x ∉ l) by (intros Hin; by eapply Forall_forall in Hf).
    rewrite (bool_decide_false _ Hx'). pose proof (apart_room x l Hok Ha Hx') as Hroom.
    assert (Hn : listener_friendly_name x ∉ listener_friendly_name <$> l)
      by (intros (y & E & Hy)%list_elem_of_fmap; eapply Forall_forall in Hf; [|exact Hy]; congruence).
    rewrite filter_others in Hroom |- * by done.
    eapply wp_step; [by apply (add_saved_spec T l)|]. cbn. intros r s3 H3. apply (wp_ret T). cbv beta. split; [done|].
    by destruct H3.
Qed.

Lemma clear_spec T l s name : conns_ok l -> apart (OpClear name) l = true -> knows l s ->
  wp T (openavbAvdeccClearSavedState io memcpy_down name)
    (fun b s' => Done b = (spec_op (OpClear name) l).1 /\ knows (spec_op (OpClear name) l).2 s') s.
Proof.
  intros Hok Ha Hk. pose proof (co_names l Hok) as Hnd. unfold openavbAvdeccClearSavedState.
  eapply wp_step; [by apply find_saved_spec|]. cbn. intros r s1 [-> H1].
  destruct (list_find _ l) as [[i t]|] eqn:Hf.
  - pose proof Hf as (Hi & Hn & _)%list_find_Some. assert (Hil : (i < length l)%nat) by (by eapply lookup_lt_Some).
    unfold apart, removal in Ha. rewrite Hf in Ha. apply bool_decide_eq_true in Ha.
    eapply wp_step; [by apply (delete_saved_spec T l)|]. cbn. intros b s2 [_ H2].
    apply (wp_ret T). rewrite (filter_found _ _ _ _ Hnd Hf). split; [|by destruct H2].
    rewrite bool_decide_true; [done|]. apply list_elem_of_fmap. exists t. split; [done|]. by eapply list_elem_of_lookup_2.
  - apply list_find_None in Hf. apply (wp_ret T).
    assert (name ∉ listener_friendly_name <$> l) by (intros (y & E & Hy)%list_elem_of_fmap; eapply Forall_forall in Hf; [|exact Hy]; congruence).
    rewrite bool_decide_false, filter_others by done. by destruct H1.
Qed.

Lemma run_op_spec T l s o : conns_ok l -> apart o l = true -> knows l s -> good_op o ->
  wp T (run_op io memcpy_down o) (fun a s' => a = (spec_op o l).1 /\ knows (spec_op o l).2 s') s.
Proof.
  intros Hok Ha Hk Ho. destruct o as [x|name|name|]; cbn [run_op].
  - eapply wp_step; [by apply save_spec|]. intros b s' H. exact H.
  - eapply wp_step; [by apply clear_spec|]. intros b s' H. exact H.
  - unfold openavbAvdeccGetSaveStateInfo. cbn [negb]. apply wp_bind. eapply wp_step; [by apply find_saved_spec|].
    cbn. intros r s' [-> [_ H]]. done.
  - apply wp_bind, wp_modify, wp_ret. split; [done|]. destruct Hk as [_ Hf]. split; [by right|done].
Qed.

Lemma run_ops_spec T ops : forall l s, conns_ok l -> moves_apart ops l = true -> knows l s -> Forall good_op ops ->
  wp T (run_ops io memcpy_down ops) (fun a _ => a = spec_ops ops l) s.
Proof.
  induction ops as [|o ops IH]; intros l s Hok Ha Hk Ho; [by apply wp_ret|]. apply Forall_cons in Ho as [Ho Hos].
  cbn [moves_apart] in Ha. apply andb_true_iff in Ha as [Ha Has].
  cbn [run_ops]. eapply wp_step; [by apply run_op_spec|]. cbn. intros a s' [-> Hk'].
  eapply wp_step; [apply IH; [by apply spec_op_ok|done..]|]. cbn. intros r s'' ->. by apply wp_ret.
Qed.

End Calls.

(** ** Any file, any system *)

Lemma run_op_bounded io memcpy_down (Hlen : forall l, length (memcpy_down l) = length l) T o s : save_room MAX_SAVED_STATES s ->
  wp T (run_op io memcpy_down o) (fun _ => save_room MAX_SAVED_STATES) s.
Proof.
  intros Hs. destruct o as [x|name|name|]; cbn [run_op]; apply wp_bind.
  - eapply wp_mono; [by apply save_bounded|]. cbv beta. intros b s1 [_ H1]. by apply (wp_ret T).
  - eapply wp_mono; [by apply clear_bounded|]. cbv beta. intros b s1 H1. by apply (wp_ret T).
  - eapply wp_mono; [by apply lookup_bounded|]. cbv beta. intros b s1 H1. by apply (wp_ret T).
  - apply wp_modify, (wp_ret T). unfold save_room. cbn. lia.
Qed.

Lemma run_ops_bounded io memcpy_down (Hlen : forall l, length (memcpy_down l) = length l) T ops : forall s, save_room MAX_SAVED_STATES s ->
  wp T (run_ops io memcpy_down ops) (fun _ => save_room MAX_SAVED_STATES) s.
Proof.
  induction ops as [|o ops IH]; intros s Hs; cbn [run_ops]; [by apply (wp_ret T)|].
  eapply wp_step; [by apply run_op_bounded|]. cbv beta. intros a s1 H1. eapply wp_step; [by apply IH|]. cbv beta. intros r s2 H2. by apply (wp_ret T).
Qed.

(** ** The property *)

(** C37: the saved connections are a map that survives a restart.  For connections with
    names and identifiers that the file can hold, and while every request to the system
    succeeds (memory, opening, reading and writing the file), any sequence of savings,
    clearings, lookups and restarts of the process is answered as by a list of
    connections with one entry per listener, the newest last: what is written to the file
    is read back.  The sequence must not remove a connection that has two or more behind
    it: such a move overlaps, which [memcpy] does not allow, and nothing is assumed about
    what it leaves.  In particular the array of four is not overrun, and the oldest of
    four connections never makes room. *)
Theorem saved_connections_refine (io : nat -> bool) (memcpy_down : list saved_state -> list saved_state)
  (Hio : forall k, io k = true) (ops : list saved_op) (Hops : Forall good_op ops) (Happart : moves_apart ops [] = true) :
  exists s, run_ops io memcpy_down ops no_store = Ok (spec_ops ops [], s).
Proof.
  assert (H : wp (fun _ => False) (run_ops io memcpy_down ops) (fun a _ => a = spec_ops ops []) no_store).
  { apply run_ops_spec; [done..| |done| |done].
    - split; [cbn; lia|done|constructor].
    - split; [by right|by right]. }
  apply wp_returns in H as (a & s & H & ->). by exists s.
Qed.

Definition saved_example (k : Z) : saved_state :=
  mkSaved [108; 105; 115; 116; 101; 110; 101; 114; 48 + k] 2 k [k; 1; 2; 3; 4; 5; 6; 255] [9; 8; 7; 6; 5; 4; 3; 2].

Lemma saved_example_good k : 0 <= k < 10 -> good_state (saved_example k).
Proof.
  intros Hk. assert (bytes [k; 1; 2; 3; 4; 5; 6; 255] /\ bytes [9; 8; 7; 6; 5; 4; 3; 2]) as [? ?].
  { split; repeat constructor; unfold is_u8; lia. }
  split; cbn; [split|unfold is_u16; lia..|done|done]; [done|cbn; unfold FRIENDLY_NAME_SIZE; lia|rewrite !Forall_cons; split_and!; (lia || by apply Forall_nil)|].
  cbn. intros [= E]. lia.
Qed.

(** Four listeners; two of them are forgotten again, the others are found after a restart,
    whatever an overlapping [memcpy] would leave. *)
Definition some_saved_ops : list saved_op :=
  [OpSave (saved_example 1); OpSave (saved_example 2); OpSave (saved_example 3); OpSave (saved_example 4);
   OpClear (listener_friendly_name (saved_example 3)); OpRestart; OpLookup (listener_friendly_name (saved_example 4));
   OpLookup (listener_friendly_name (saved_example 3)); OpClear (listener_friendly_name (saved_example 2)); OpRestart;
   OpLookup (listener_friendly_name (saved_example 1))].

Lemma saved_connections_refine_witness :
  exists s, run_ops (fun _ => true) (fun l => rev l) some_saved_ops no_store =
    Ok ([Done true; Done true; Done true; Done true; Done true; Done true; Found (Some (saved_example 4)); Found None;
         Done true; Done true; Found (Some (saved_example 1))], s).
Proof.
  refine (saved_connections_refine (fun _ => true) (fun l => rev l) (fun _ => eq_refl) some_saved_ops _ eq_refl).
  repeat (apply Forall_cons; split; [first [apply saved_example_good; lia | exact I]|]). by apply Forall_nil.
Defined.

(** The fifth listener needs a move that overlaps, whatever the first four are. *)
Lemma fifth_listener_overlaps l x : length l = MAX_SAVED_STATES -> listener_friendly_name x ∉ listener_friendly_name <$> l ->
  apart (OpSave x) l = false.
Proof.
  intros Hl Hn. unfold apart, removal. rewrite bool_decide_false by (intros Hx; apply Hn, list_elem_of_fmap; by exists x).
  destruct (list_find _ l) as [[i t]|] eqn:Hf.
  - apply list_find_Some in Hf as (Hi%list_elem_of_lookup_2 & E & _). destruct Hn. apply list_elem_of_fmap. by exists t.
  - by rewrite Hl.
Qed.

(** Whatever the file holds and whatever fails, and whatever an overlapping [memcpy]
    leaves, every call on the saved connections returns and the array of four is never
    exceeded. *)
Theorem saved_calls_return (io : nat -> bool) (memcpy_down : list saved_state -> list saved_state)
  (Hlen : forall l, length (memcpy_down l) = length l) (ops : list saved_op) (text : option (list Z)) :
  exists answers s, run_ops io memcpy_down ops (mkStore None text 0) = Ok (answers, s) /\
    (length (default [] (states s)) <= MAX_SAVED_STATES)%nat.
Proof.
  assert (H : wp (fun _ => False) (run_ops io memcpy_down ops) (fun _ => save_room MAX_SAVED_STATES) (mkStore None text 0)).
  { apply run_ops_bounded; [done|]. unfold save_room. cbn. lia. }
  apply wp_returns in H as (a & s & H & Hr). by exists a, s.
Qed.

Lemma saved_calls_return_witness :
  exists answers s, run_ops (fun k => Nat.even k) (fun l => rev l)
      [OpLookup [65]; OpSave (saved_example 1); OpSave (saved_example 2); OpClear [65]] (mkStore None (Some [65; 10; 50; 10; 13; 10]) 0) = Ok (answers, s) /\
    (length (default [] (states s)) <= MAX_SAVED_STATES)%nat.
Proof. apply (saved_calls_return (fun k => Nat.even k) (fun l => rev l)). intros l. apply length_rev. Defined.

(** What is not read back: a file with an entry that is damaged is read up to it, and later
    calls answer from the part that was read. *)
Lemma damaged_file_half_read :
  exists s, run_ops (fun _ => true) (fun l => l) [OpLookup [65]; OpLookup [65]]
    (mkStore None (Some (fmt_state (mkSaved [65] 0 0 [1; 1; 1; 1; 1; 1; 1; 1] [1; 1; 1; 1; 1; 1; 1; 1]) ++ [66; 10; 120; 10])) 0) =
    Ok ([Found None; Found (Some (mkSaved [65] 0 0 [1; 1; 1; 1; 1; 1; 1; 1] [1; 1; 1; 1; 1; 1; 1; 1]))], s).
Proof. eexists. vm_compute. reflexivity. Qed.
