(* ===== verification/AcmpEntity.v ===== *)
(** * Messages and the entity behind the connection management

    The messages of ACMP (lib/avtp_pipeline/acmp/openavb_acmp_message.c), and what the state machines of lib/avtp_pipeline/acmp work on: the stream descriptors of
    the entity model, the configurations of the streams and their client processes
    (platform/Linux/avdecc/openavb_avdecc_pipeline_interaction.c), the frames and requests
    that leave, the variables of the talker and of the listener. *)

From S2P Require Import Prelude AvtpTime SavedState.

(** ** Messages of the connection management protocol

    lib/avtp_pipeline/acmp/openavb_acmp_message.c and openavb_acmp.h: the commands and
    responses of ACMP, how they are laid out in a frame and read from one, and which
    state machine they are for. *)

Open Scope Z_scope.
Local Abbreviation length := List.length.

(** ** Constants *)

Definition OPENAVB_ACMP_AVTP_SUBTYPE : Z := 124.

Definition CONNECT_TX_COMMAND : Z := 0.
Definition CONNECT_TX_RESPONSE : Z := 1.
Definition DISCONNECT_TX_COMMAND : Z := 2.
Definition DISCONNECT_TX_RESPONSE : Z := 3.
Definition GET_TX_STATE_COMMAND : Z := 4.
Definition GET_TX_STATE_RESPONSE : Z := 5.
Definition CONNECT_RX_COMMAND : Z := 6.
Definition CONNECT_RX_RESPONSE : Z := 7.
Definition DISCONNECT_RX_COMMAND : Z := 8.
Definition DISCONNECT_RX_RESPONSE : Z := 9.
Definition GET_RX_STATE_COMMAND : Z := 10.
Definition GET_RX_STATE_RESPONSE : Z := 11.
Definition GET_TX_CONNECTION_COMMAND : Z := 12.
Definition GET_TX_CONNECTION_RESPONSE : Z := 13.

Definition STATUS_SUCCESS : Z := 0.
Definition STATUS_LISTENER_UNKNOWN_ID : Z := 1.
Definition STATUS_TALKER_UNKNOWN_ID : Z := 2.
Definition STATUS_LISTENER_TALKER_TIMEOUT : Z := 7.
Definition STATUS_LISTENER_EXCLUSIVE : Z := 8.
Definition STATUS_NOT_CONNECTED : Z := 10.
Definition STATUS_NO_SUCH_CONNECTION : Z := 11.
Definition STATUS_COULD_NOT_SEND_MESSAGE : Z := 12.
Definition STATUS_TALKER_MISBEHAVING : Z := 13.
Definition STATUS_LISTENER_MISBEHAVING : Z := 14.

Definition FLAG_CLASS_B : Z := 1.
Definition FLAG_FAST_CONNECT : Z := 2.
Definition FLAG_SAVED_STATE : Z := 4.
Definition FLAG_STREAMING_WAIT : Z := 8.
Definition FLAG_SUPPORTS_ENCRYPTED : Z := 16.
Definition FLAG_ENCRYPTED_PDU : Z := 32.

(** ** Data *)

(** The [openavb_acmp_ACMPCommandResponse_t]; identifiers and addresses are byte lists. *)
Record acmp_cmd : Type := mkAcmp {
  message_type : Z;
  status : Z;
  stream_id : list Z;
  controller_entity_id : list Z;
  talker_entity_id : list Z;
  listener_entity_id : list Z;
  talker_unique_id : Z;
  listener_unique_id : Z;
  stream_dest_mac : list Z;
  connection_count : Z;
  sequence_id : Z;
  flags : Z;
  stream_vlan_id : Z
}.

#[global] Instance acmp_cmd_eq_dec : EqDecision acmp_cmd.
Proof. solve_decision. Defined.

Definition set_message_type (x : Z) (c : acmp_cmd) : acmp_cmd :=
  mkAcmp x (status c) (stream_id c) (controller_entity_id c) (talker_entity_id c) (listener_entity_id c) (talker_unique_id c)
    (listener_unique_id c) (stream_dest_mac c) (connection_count c) (sequence_id c) (flags c) (stream_vlan_id c).
Definition set_sequence_id (x : Z) (c : acmp_cmd) : acmp_cmd :=
  mkAcmp (message_type c) (status c) (stream_id c) (controller_entity_id c) (talker_entity_id c) (listener_entity_id c) (talker_unique_id c)
    (listener_unique_id c) (stream_dest_mac c) (connection_count c) x (flags c) (stream_vlan_id c).
Definition set_flags_of (x : Z) (c : acmp_cmd) : acmp_cmd :=
  mkAcmp (message_type c) (status c) (stream_id c) (controller_entity_id c) (talker_entity_id c) (listener_entity_id c) (talker_unique_id c)
    (listener_unique_id c) (stream_dest_mac c) (connection_count c) (sequence_id c) x (stream_vlan_id c).
Definition set_count (x : Z) (c : acmp_cmd) : acmp_cmd :=
  mkAcmp (message_type c) (status c) (stream_id c) (controller_entity_id c) (talker_entity_id c) (listener_entity_id c) (talker_unique_id c)
    (listener_unique_id c) (stream_dest_mac c) x (sequence_id c) (flags c) (stream_vlan_id c).
Definition set_stream (sid mac : list Z) (c : acmp_cmd) : acmp_cmd :=
  mkAcmp (message_type c) (status c) sid (controller_entity_id c) (talker_entity_id c) (listener_entity_id c) (talker_unique_id c)
    (listener_unique_id c) mac (connection_count c) (sequence_id c) (flags c) (stream_vlan_id c).
Definition set_vlan (x : Z) (c : acmp_cmd) : acmp_cmd :=
  mkAcmp (message_type c) (status c) (stream_id c) (controller_entity_id c) (talker_entity_id c) (listener_entity_id c) (talker_unique_id c)
    (listener_unique_id c) (stream_dest_mac c) (connection_count c) (sequence_id c) (flags c) x.
Definition set_listener (id : list Z) (uid : Z) (c : acmp_cmd) : acmp_cmd :=
  mkAcmp (message_type c) (status c) (stream_id c) (controller_entity_id c) (talker_entity_id c) id (talker_unique_id c)
    uid (stream_dest_mac c) (connection_count c) (sequence_id c) (flags c) (stream_vlan_id c).
Definition set_talker (id : list Z) (uid : Z) (c : acmp_cmd) : acmp_cmd :=
  mkAcmp (message_type c) (status c) (stream_id c) (controller_entity_id c) id (listener_entity_id c) uid
    (listener_unique_id c) (stream_dest_mac c) (connection_count c) (sequence_id c) (flags c) (stream_vlan_id c).

(** The part of a frame that is the same for all messages. *)
Record acmp_control_header : Type := mkHeader { cd : Z; subtype : Z; sv : Z; version : Z; control_data_length : Z }.

Definition openavbAcmp_controlHeader : acmp_control_header := mkHeader 1 OPENAVB_ACMP_AVTP_SUBTYPE 0 0 44.

(** What the structures promise of their fields. *)
Record is_acmp (c : acmp_cmd) : Prop := mkIsAcmp {
  ia_stream : length (stream_id c) = 8%nat;
  ia_controller : length (controller_entity_id c) = 8%nat;
  ia_talker : length (talker_entity_id c) = 8%nat;
  ia_listener : length (listener_entity_id c) = 8%nat;
  ia_mac : length (stream_dest_mac c) = 6%nat;
  ia_tuid : is_u16 (talker_unique_id c);
  ia_luid : is_u16 (listener_unique_id c);
  ia_count : is_u16 (connection_count c);
  ia_seq : is_u16 (sequence_id c);
  ia_flags : is_u16 (flags c);
  ia_vlan : is_u16 (stream_vlan_id c)
}.

(** ** Frames *)

(** The payload of a frame behind the Ethernet header; every byte is ored into memory
    that is zero. *)
Definition openavbAcmpMessageTxFrame (h : acmp_control_header) (messageType : Z) (c : acmp_cmd) (st : Z) : list Z :=
  [Z.lor (u8 (Z.shiftl (cd h) 7)) (u8 (subtype h))] ++
  [Z.lor (Z.lor (u8 (Z.shiftl (sv h) 7)) (u8 (Z.shiftl (version h) 4))) (u8 messageType)] ++
  be_bytes 2 (Z.lor (u16 (Z.shiftl st 11)) (u16 (control_data_length h))) ++
  stream_id c ++ controller_entity_id c ++ talker_entity_id c ++ listener_entity_id c ++
  be_bytes 2 (talker_unique_id c) ++ be_bytes 2 (listener_unique_id c) ++ stream_dest_mac c ++
  be_bytes 2 (connection_count c) ++ be_bytes 2 (sequence_id c) ++ be_bytes 2 (flags c) ++ be_bytes 2 (stream_vlan_id c) ++ [0; 0].

(** [OCT_B2DNTOHS] *)
Definition oct_b2dntohs (buf : list Z) (off : nat) : outcome Z :=
  bs ← read_bytes buf off 2; Ok (be_val bs).

(** [BIT_B2DNTOHB]: the mask is converted to eight bits first. *)
Definition bit_b2dntohb (buf : list Z) (off : nat) (msk shf : Z) : outcome Z :=
  bs ← read_bytes buf off 1; Ok (Z.shiftr (Z.land (be_val bs) (u8 msk)) shf).

(** Reading a message; the length of the payload is not looked at, [payload] is the
    memory from there on. *)
Definition openavbAcmpMessageRxFrameParse (payload : list Z) : outcome acmp_cmd :=
  mt ← bit_b2dntohb payload 1 15 0;
  st ← bit_b2dntohb payload 2 63488 11;
  sid ← read_bytes payload 4 8;
  controller ← read_bytes payload 12 8;
  talker ← read_bytes payload 20 8;
  listener ← read_bytes payload 28 8;
  tuid ← oct_b2dntohs payload 36;
  luid ← oct_b2dntohs payload 38;
  mac ← read_bytes payload 40 6;
  count ← oct_b2dntohs payload 46;
  seq ← oct_b2dntohs payload 48;
  fl ← oct_b2dntohs payload 50;
  vlan ← oct_b2dntohs payload 52;
  Ok (mkAcmp mt st sid controller talker listener tuid luid mac count seq fl vlan).

(** Which machine a message is handed to, and as what. *)
Inductive acmp_kind : Type :=
  | TConnect | TDisconnect | TGetState | TGetConnection
  | LConnectCmd | LConnectResp | LDisconnectCmd | LDisconnectResp | LGetState
  | CResponse.

#[global] Instance acmp_kind_eq_dec : EqDecision acmp_kind.
Proof. solve_decision. Defined.

Definition acmp_dispatch (mt : Z) : option acmp_kind :=
  if mt =? CONNECT_TX_COMMAND then Some TConnect
  else if mt =? CONNECT_TX_RESPONSE then Some LConnectResp
  else if mt =? DISCONNECT_TX_COMMAND then Some TDisconnect
  else if mt =? DISCONNECT_TX_RESPONSE then Some LDisconnectResp
  else if mt =? GET_TX_STATE_COMMAND then Some TGetState
  else if mt =? CONNECT_RX_COMMAND then Some LConnectCmd
  else if mt =? DISCONNECT_RX_COMMAND then Some LDisconnectCmd
  else if mt =? GET_RX_STATE_COMMAND then Some LGetState
  else if mt =? GET_TX_CONNECTION_COMMAND then Some TGetConnection
  else if (mt =? GET_TX_STATE_RESPONSE) || (mt =? CONNECT_RX_RESPONSE) || (mt =? DISCONNECT_RX_RESPONSE) ||
          (mt =? GET_RX_STATE_RESPONSE) || (mt =? GET_TX_CONNECTION_RESPONSE) then Some CResponse
  else None.

(** An AVTP frame: only those of the subtype are parsed. *)
Definition openavbAcmpMessageRxFrameReceive (pdu : list Z) : outcome (option (acmp_kind * acmp_cmd)) :=
  bs ← read_bytes pdu 0 1;
  if be_val bs =? Z.lor 128 OPENAVB_ACMP_AVTP_SUBTYPE then
    c ← openavbAcmpMessageRxFrameParse pdu;
    Ok ((fun k => (k, c)) <$> acmp_dispatch (message_type c))
  else Ok None.

(** ** Reading what was written *)

Lemma read_bytes_here a l n : n = length a -> read_bytes (a ++ l) 0 n = Ok a.
Proof.
  intros ->. unfold read_bytes. rewrite decide_True by (rewrite length_app; lia). by rewrite drop_0, take_app_length.
Qed.

Lemma read_bytes_skip a l off n : (length a <= off)%nat -> read_bytes (a ++ l) off n = read_bytes l (off - length a) n.
Proof.
  intros H. unfold read_bytes. rewrite length_app. rewrite drop_app_ge by done.
  destruct (decide (off + n <= length a + length l)%nat), (decide (off - length a + n <= length l)%nat); (done || lia).
Qed.

(** Finding a field whose length is known. *)
Ltac seek := repeat (rewrite read_bytes_skip by (rewrite ?length_be_bytes; cbn [length]; lia); rewrite ?length_be_bytes;
    repeat match goal with H : length ?a = ?k |- context [length ?a] => rewrite H end; cbn [length Nat.sub]);
  apply read_bytes_here; rewrite ?length_be_bytes; cbn [length]; lia.

Lemma be_val_u16 x : is_u16 x -> be_val (be_bytes 2 x) = x.
Proof. intros H. rewrite be_val_bytes. apply Z.mod_small. exact H. Qed.

Lemma message_type_read mt : 0 <= mt < 16 -> Z.shiftr (Z.land (be_val [Z.lor (Z.lor (u8 (Z.shiftl 0 7)) (u8 (Z.shiftl 0 4))) (u8 mt)]) (u8 15)) 0 = mt.
Proof.
  intros H. change (u8 (Z.shiftl 0 7)) with 0. change (u8 (Z.shiftl 0 4)) with 0. rewrite !Z.lor_0_l.
  unfold be_val. cbn [fold_left]. rewrite Z.add_0_l, Z.shiftr_0_r, u8_small by (unfold is_u8; lia).
  change (u8 15) with 15. rewrite (land_mask mt 4 15) by (reflexivity || lia). apply Z.mod_small. lia.
Qed.

(** The status that is written is not the one that is read: the mask for it is cut to
    eight bits, which are zero. *)
Lemma status_read b : Z.shiftr (Z.land b (u8 63488)) 11 = 0.
Proof. change (u8 63488) with 0. by rewrite Z.land_0_r. Qed.

Lemma frame_parsed mt c st : is_acmp c -> 0 <= mt < 16 ->
  openavbAcmpMessageRxFrameParse (openavbAcmpMessageTxFrame openavbAcmp_controlHeader mt c st) =
  Ok (mkAcmp mt 0 (stream_id c) (controller_entity_id c) (talker_entity_id c) (listener_entity_id c) (talker_unique_id c)
    (listener_unique_id c) (stream_dest_mac c) (connection_count c) (sequence_id c) (flags c) (stream_vlan_id c)).
Proof.
  intros [H1 H2 H3 H4 H5 H6 H7 H8 H9 H10 H11] Hmt. unfold openavbAcmpMessageRxFrameParse, bit_b2dntohb, oct_b2dntohs.
  set (f := openavbAcmpMessageTxFrame openavbAcmp_controlHeader mt c st).
  assert (R1 : read_bytes f 1 1 = Ok [Z.lor (Z.lor (u8 (Z.shiftl 0 7)) (u8 (Z.shiftl 0 4))) (u8 mt)]) by (unfold f, openavbAcmpMessageTxFrame; seek).
  assert (R2 : exists b, read_bytes f 2 1 = Ok b).
  { eexists. unfold f, openavbAcmpMessageTxFrame. cbn [be_bytes]. rewrite <- !app_assoc, !app_nil_l. seek. }
  destruct R2 as [b R2].
  assert (R3 : read_bytes f 4 8 = Ok (stream_id c)) by (unfold f, openavbAcmpMessageTxFrame; seek).
  assert (R4 : read_bytes f 12 8 = Ok (controller_entity_id c)) by (unfold f, openavbAcmpMessageTxFrame; seek).
  assert (R5 : read_bytes f 20 8 = Ok (talker_entity_id c)) by (unfold f, openavbAcmpMessageTxFrame; seek).
  assert (R6 : read_bytes f 28 8 = Ok (listener_entity_id c)) by (unfold f, openavbAcmpMessageTxFrame; seek).
  assert (R7 : read_bytes f 36 2 = Ok (be_bytes 2 (talker_unique_id c))) by (unfold f, openavbAcmpMessageTxFrame; seek).
  assert (R8 : read_bytes f 38 2 = Ok (be_bytes 2 (listener_unique_id c))) by (unfold f, openavbAcmpMessageTxFrame; seek).
  assert (R9 : read_bytes f 40 6 = Ok (stream_dest_mac c)) by (unfold f, openavbAcmpMessageTxFrame; seek).
  assert (R10 : read_bytes f 46 2 = Ok (be_bytes 2 (connection_count c))) by (unfold f, openavbAcmpMessageTxFrame; seek).
  assert (R11 : read_bytes f 48 2 = Ok (be_bytes 2 (sequence_id c))) by (unfold f, openavbAcmpMessageTxFrame; seek).
  assert (R12 : read_bytes f 50 2 = Ok (be_bytes 2 (flags c))) by (unfold f, openavbAcmpMessageTxFrame; seek).
  assert (R13 : read_bytes f 52 2 = Ok (be_bytes 2 (stream_vlan_id c))) by (unfold f, openavbAcmpMessageTxFrame; seek).
  unfold mbind, outcome_bind.
  rewrite R1, R2, R3, R4, R5, R6, R7, R8, R9, R10, R11, R12, R13. rewrite message_type_read by done.
  by rewrite status_read, !be_val_u16 by done.
Qed.

(** What arrives when a message is sent to another station. *)
Lemma frame_received mt c st : is_acmp c -> 0 <= mt < 16 ->
  openavbAcmpMessageRxFrameReceive (openavbAcmpMessageTxFrame openavbAcmp_controlHeader mt c st) =
  Ok ((fun k => (k, mkAcmp mt 0 (stream_id c) (controller_entity_id c) (talker_entity_id c) (listener_entity_id c) (talker_unique_id c)
    (listener_unique_id c) (stream_dest_mac c) (connection_count c) (sequence_id c) (flags c) (stream_vlan_id c))) <$> acmp_dispatch mt).
Proof.
  intros Hc Hmt. unfold openavbAcmpMessageRxFrameReceive. rewrite frame_parsed by done.
  unfold openavbAcmpMessageTxFrame. rewrite read_bytes_here by done. done.
Qed.

Local Abbreviation get := Prelude.get.

(** ** Streams *)

Record stream_client : Type := mkClient { avdeccMsgHandle : Z; reported_stopped : bool }.

(** The part of [openavb_tl_data_cfg_t] that is used; [dest_valid] and [addr_valid] tell
    whether the pointers [mac] are set. *)
Record tl_cfg : Type := mkCfg {
  friendly_name : list Z;
  tl_client : option stream_client;
  dest_valid : bool;
  dest_addr : list Z;
  addr_valid : bool;
  stream_addr : list Z;
  stream_uid : Z;
  cfg_vlan_id : Z
}.

Inductive fast_connect_status_t : Type := FcUnknown | FcNotAvailable | FcInProgress | FcTimedOut | FcSucceeded.

#[global] Instance fast_connect_eq_dec : EqDecision fast_connect_status_t.
Proof. solve_decision. Defined.

(** The part of the stream descriptor that is used; [io_stream] is the index of the
    configuration its pointer points to. *)
Record stream_io : Type := mkIo {
  io_stream : option nat;
  fast_connect_status : fast_connect_status_t;
  fast_connect_talker : list Z;
  fast_connect_start : timespec;
  acmp_flags : Z;
  acmp_stream_id : list Z;
  acmp_dest_addr : list Z;
  acmp_stream_vlan_id : Z
}.

Definition set_acmp_info (fl : Z) (sid mac : list Z) (vlan : Z) (d : stream_io) : stream_io :=
  mkIo (io_stream d) (fast_connect_status d) (fast_connect_talker d) (fast_connect_start d) fl sid mac vlan.
Definition set_fast_status (x : fast_connect_status_t) (d : stream_io) : stream_io :=
  mkIo (io_stream d) x (fast_connect_talker d) (fast_connect_start d) (acmp_flags d) (acmp_stream_id d) (acmp_dest_addr d) (acmp_stream_vlan_id d).
Definition set_fast_attempt (talker : list Z) (start : timespec) (d : stream_io) : stream_io :=
  mkIo (io_stream d) (fast_connect_status d) talker start (acmp_flags d) (acmp_stream_id d) (acmp_dest_addr d) (acmp_stream_vlan_id d).

(** ** What leaves the process *)

Inductive acmp_out : Type :=
  | Frame (bytes : list Z)
  | ListenerStream (handle : Z) (class_b : bool) (src : list Z) (uid : Z) (dest : list Z) (vlan : Z)
  | ChangeRequest (handle : Z) (run : bool).

(** ** The variables of the machines *)

Record listener_pair : Type := mkPair { lp_entity : list Z; lp_unique : Z }.

#[global] Instance listener_pair_eq_dec : EqDecision listener_pair.
Proof. solve_decision. Defined.

Record talker_info : Type := mkTalkerInfo {
  ti_stream_id : list Z;
  ti_dest_mac : list Z;
  ti_count : Z;
  connected_listeners : list listener_pair;
  ti_vlan : Z;
  waiting_on_talker : option acmp_cmd
}.

Record listener_info : Type := mkListenerInfo {
  li_talker : list Z;
  li_talker_uid : Z;
  connected : bool;
  li_stream_id : list Z;
  li_dest_mac : list Z;
  li_controller : list Z;
  li_flags : Z;
  li_vlan : Z
}.

Record inflight_cmd : Type := mkInflight {
  timer : timespec;
  retried : bool;
  command : acmp_cmd;
  original_sequence_id : Z
}.

(** The mailbox, the flags that say what is in it, the semaphore that counts them, and
    whether the thread is told to end and whether it runs. *)
Record talker_vars : Type := mkTalker {
  talkerStreamInfos : list talker_info;
  t_mail : acmp_cmd;
  rcvdConnectTX : bool;
  rcvdDisconnectTX : bool;
  rcvdGetTXState : bool;
  rcvdGetTXConnection : bool;
  t_posted : nat;
  t_doTerminate : bool;
  t_bRunning : bool
}.

Record listener_vars : Type := mkListener {
  listenerStreamInfos : list listener_info;
  inflight : list inflight_cmd;
  l_mail : acmp_cmd;
  rcvdConnectRXCmd : bool;
  rcvdDisconnectRXCmd : bool;
  rcvdConnectTXResp : bool;
  rcvdDisconnectTXResp : bool;
  rcvdGetRXState : bool;
  l_posted : nat;
  l_doTerminate : bool;
  l_bRunning : bool
}.

(** [asked] counts the questions to memory and to client processes, [clock_asked] the
    readings of the real-time clock; [s_sequence_id] numbers the fast connects. *)
Record entity : Type := mkEntity {
  my_id : list Z;
  bFastConnectSupported : bool;
  inputs : list stream_io;
  outputs : list stream_io;
  cfgs : list tl_cfg;
  out : list acmp_out;
  asked : nat;
  clock_asked : nat;
  saves : save_store;
  s_sequence_id : Z;
  tk : talker_vars;
  ls : listener_vars
}.

Definition set_inputs (l : list stream_io) (e : entity) : entity :=
  mkEntity (my_id e) (bFastConnectSupported e) l (outputs e) (cfgs e) (out e) (asked e) (clock_asked e) (saves e) (s_sequence_id e) (tk e) (ls e).
Definition set_outputs (l : list stream_io) (e : entity) : entity :=
  mkEntity (my_id e) (bFastConnectSupported e) (inputs e) l (cfgs e) (out e) (asked e) (clock_asked e) (saves e) (s_sequence_id e) (tk e) (ls e).
Definition set_cfgs (l : list tl_cfg) (e : entity) : entity :=
  mkEntity (my_id e) (bFastConnectSupported e) (inputs e) (outputs e) l (out e) (asked e) (clock_asked e) (saves e) (s_sequence_id e) (tk e) (ls e).
Definition set_acmp_out (l : list acmp_out) (e : entity) : entity :=
  mkEntity (my_id e) (bFastConnectSupported e) (inputs e) (outputs e) (cfgs e) l (asked e) (clock_asked e) (saves e) (s_sequence_id e) (tk e) (ls e).
Definition set_acmp_asked (n m : nat) (e : entity) : entity :=
  mkEntity (my_id e) (bFastConnectSupported e) (inputs e) (outputs e) (cfgs e) (out e) n m (saves e) (s_sequence_id e) (tk e) (ls e).
Definition set_saves (s : save_store) (e : entity) : entity :=
  mkEntity (my_id e) (bFastConnectSupported e) (inputs e) (outputs e) (cfgs e) (out e) (asked e) (clock_asked e) s (s_sequence_id e) (tk e) (ls e).
Definition set_fc_sequence (x : Z) (e : entity) : entity :=
  mkEntity (my_id e) (bFastConnectSupported e) (inputs e) (outputs e) (cfgs e) (out e) (asked e) (clock_asked e) (saves e) x (tk e) (ls e).
Definition set_tk (t : talker_vars) (e : entity) : entity :=
  mkEntity (my_id e) (bFastConnectSupported e) (inputs e) (outputs e) (cfgs e) (out e) (asked e) (clock_asked e) (saves e) (s_sequence_id e) t (ls e).
Definition set_ls (l : listener_vars) (e : entity) : entity :=
  mkEntity (my_id e) (bFastConnectSupported e) (inputs e) (outputs e) (cfgs e) (out e) (asked e) (clock_asked e) (saves e) (s_sequence_id e) (tk e) l.

Definition zeros (n : nat) : list Z := replicate n 0.

Definition openavbAemGetDescriptor (l : list stream_io) (id : Z) : option stream_io := l !! Z.to_nat id.

(** ** Client processes *)

Section Environment.
Context (answer : nat -> bool) (realtime : nat -> timespec).

Definition ask : M entity bool :=
  e ← get; put (set_acmp_asked (S (asked e)) (clock_asked e) e);; mret (answer (asked e)).

Definition clock_now : M entity timespec :=
  e ← get; put (set_acmp_asked (asked e) (S (clock_asked e)) e);; mret (realtime (clock_asked e)).

(** A call on the saved connections. *)
Definition on_saves {A} (m : M save_store A) : M entity A :=
  e ← get;
  r ← lift (m (saves e));
  put (set_saves r.2 e);;
  mret r.1.

Definition acmp_emit (o : acmp_out) : M entity unit := modify (fun e => set_acmp_out (out e ++ [o]) e).

(** Sending reports success whatever happens to the frame. *)
Definition openavbAcmpMessageSend (mt : Z) (c : acmp_cmd) (st : Z) : M entity bool :=
  acmp_emit (Frame (openavbAcmpMessageTxFrame openavbAcmp_controlHeader mt c st));; mret true.

Definition openavbAvdeccMsgSrvrChangeRequest (handle : Z) (run : bool) : M entity bool :=
  ok ← ask;
  if (ok : bool) then acmp_emit (ChangeRequest handle run);; mret true else mret false.

(** The configuration a descriptor points to. *)
Definition stream_of (d : stream_io) : M entity (option tl_cfg) :=
  match io_stream d with
  | None => mret None
  | Some k =>
      e ← get;
      match cfgs e !! k with Some c => mret (Some c) | None => raise WildPointer end
  end.

Definition openavbAVDECCRunListener (d : stream_io) (info : listener_info) : M entity bool :=
  s ← stream_of d;
  match s ≫= tl_client with
  | None => mret false
  | Some c =>
      ok ← ask;
      if negb ok then mret false
      else
        acmp_emit (ListenerStream (avdeccMsgHandle c) (negb (Z.land (li_flags info) FLAG_CLASS_B =? 0))
          (take 6 (li_stream_id info)) (be_val (drop 6 (li_stream_id info))) (li_dest_mac info) (li_vlan info));;
        openavbAvdeccMsgSrvrChangeRequest (avdeccMsgHandle c) true
  end.

Definition openavbAVDECCRunTalker (d : stream_io) : M entity bool :=
  s ← stream_of d;
  match s ≫= tl_client with
  | None => mret false
  | Some c => openavbAvdeccMsgSrvrChangeRequest (avdeccMsgHandle c) true
  end.

Definition openavbAVDECCStop (d : stream_io) : M entity bool :=
  s ← stream_of d;
  match s ≫= tl_client with
  | None => mret false
  | Some c => if reported_stopped c then mret true else openavbAvdeccMsgSrvrChangeRequest (avdeccMsgHandle c) false
  end.

Definition set_ti_stream (sid mac : list Z) (vlan : Z) (i : talker_info) : talker_info :=
  mkTalkerInfo sid mac (ti_count i) (connected_listeners i) vlan (waiting_on_talker i).

(** The stream identifier of a configuration: its address and its number. *)
Definition cfg_stream_id (c : tl_cfg) : list Z := stream_addr c ++ be_bytes 2 (stream_uid c).

(** The answer whether all was valid is not looked at; the address is taken over even if
    the rest is not. *)
Definition openavbAVDECCGetTalkerStreamInfo (d : stream_io) (i : talker_info) : M entity talker_info :=
  s ← stream_of d;
  mret match s with
  | None => i
  | Some c =>
      if negb (dest_valid c) || bool_decide (dest_addr c = zeros 6) then i
      else if negb (addr_valid c) || bool_decide (stream_addr c = zeros 6) then set_ti_stream (ti_stream_id i) (dest_addr c) (ti_vlan i) i
      else set_ti_stream (cfg_stream_id c) (dest_addr c) (cfg_vlan_id c) i
  end.

End Environment.
