(* ===== verification/AcmpTalker.v ===== *)
(** * The talker state machine

    lib/avtp_pipeline/acmp/openavb_acmp_sm_talker.c.  The thread holds its mutex except
    while it waits for the semaphore: a turn is what it does between two waits, the
    functions [openavbAcmpSMTalkerSet_...] of other threads run between turns. *)

From S2P Require Import Prelude AvtpTime AcmpEntity.

Open Scope Z_scope.
Local Abbreviation length := List.length.
Local Abbreviation get := Prelude.get.

(** ** The variables *)

Definition set_infos (l : list talker_info) (t : talker_vars) : talker_vars :=
  mkTalker l (t_mail t) (rcvdConnectTX t) (rcvdDisconnectTX t) (rcvdGetTXState t) (rcvdGetTXConnection t) (t_posted t) (t_doTerminate t) (t_bRunning t).
Definition set_t_mail (c : acmp_cmd) (t : talker_vars) : talker_vars :=
  mkTalker (talkerStreamInfos t) c (rcvdConnectTX t) (rcvdDisconnectTX t) (rcvdGetTXState t) (rcvdGetTXConnection t) (t_posted t) (t_doTerminate t) (t_bRunning t).
Definition set_t_flags (a b c d : bool) (t : talker_vars) : talker_vars :=
  mkTalker (talkerStreamInfos t) (t_mail t) a b c d (t_posted t) (t_doTerminate t) (t_bRunning t).
Definition set_t_posted (n : nat) (t : talker_vars) : talker_vars :=
  mkTalker (talkerStreamInfos t) (t_mail t) (rcvdConnectTX t) (rcvdDisconnectTX t) (rcvdGetTXState t) (rcvdGetTXConnection t) n (t_doTerminate t) (t_bRunning t).
Definition set_t_run (term run : bool) (t : talker_vars) : talker_vars :=
  mkTalker (talkerStreamInfos t) (t_mail t) (rcvdConnectTX t) (rcvdDisconnectTX t) (rcvdGetTXState t) (rcvdGetTXConnection t) (t_posted t) term run.

Definition get_talker_info (id : Z) : M entity (option talker_info) :=
  e ← get; mret (talkerStreamInfos (tk e) !! Z.to_nat id).
Definition put_talker_info (id : Z) (i : talker_info) : M entity unit :=
  modify (fun e => set_tk (set_infos (<[Z.to_nat id := i]> (talkerStreamInfos (tk e))) (tk e)) e).
Definition get_output (id : Z) : M entity (option stream_io) :=
  e ← get; mret (openavbAemGetDescriptor (outputs e) id).

Definition set_listeners (l : list listener_pair) (count : Z) (i : talker_info) : talker_info :=
  mkTalkerInfo (ti_stream_id i) (ti_dest_mac i) count l (ti_vlan i) (waiting_on_talker i).
Definition set_waiting (w : option acmp_cmd) (i : talker_info) : talker_info :=
  mkTalkerInfo (ti_stream_id i) (ti_dest_mac i) (ti_count i) (connected_listeners i) (ti_vlan i) w.

(** ** The functions of the machine *)

Definition pair_of (c : acmp_cmd) : listener_pair := mkPair (listener_entity_id c) (listener_unique_id c).

(** The position of the listener of a command in the list. *)
Definition openavbAcmpSMTalker_findListenerPairNodeFromCommand (c : acmp_cmd) (i : talker_info) : option nat :=
  fst <$> list_find (fun p => p = pair_of c) (connected_listeners i).

Section Talker.
Context (answer : nat -> bool) (realtime : nat -> timespec).

Definition openavbAcmpSMTalker_validTalkerUnique (id : Z) : M entity bool :=
  d ← get_output id; mret (match d with Some _ => true | None => false end).

Definition openavbAcmpSMTalker_txResponse (mt : Z) (c : acmp_cmd) (st : Z) : M entity unit :=
  _ ← openavbAcmpMessageSend mt c st; mret tt.

(** The flags of a connection that responses repeat. *)
Definition repeated_flags (d : stream_io) : Z :=
  Z.land (acmp_flags d) (Z.lor FLAG_CLASS_B (Z.lor FLAG_FAST_CONNECT (Z.lor FLAG_SAVED_STATE (Z.lor FLAG_SUPPORTS_ENCRYPTED FLAG_ENCRYPTED_PDU)))).

(** The status, and the command as it was changed. *)
Definition openavbAcmpSMTalker_connectTalker (c : acmp_cmd) : M entity (Z * acmp_cmd) :=
  info ← get_talker_info (talker_unique_id c);
  match info with
  | None => mret (STATUS_TALKER_UNKNOWN_ID, c)
  | Some i =>
      match openavbAcmpSMTalker_findListenerPairNodeFromCommand c i with
      | Some _ =>
          if bool_decide (ti_stream_id i = zeros 8) || bool_decide (ti_dest_mac i = zeros 6) then mret (STATUS_SUCCESS, c)
          else
            d ← get_output (talker_unique_id c);
            let c := match d with Some d => set_flags_of (repeated_flags d) c | None => c end in
            let c := set_count (ti_count i) (set_vlan (ti_vlan i) (set_stream (ti_stream_id i) (ti_dest_mac i) c)) in
            openavbAcmpSMTalker_txResponse CONNECT_TX_RESPONSE c STATUS_SUCCESS;;
            mret (STATUS_SUCCESS, c)
      | None =>
          node ← ask answer;
          if negb node then mret (STATUS_TALKER_MISBEHAVING, c)
          else
            let i := set_listeners (connected_listeners i ++ [pair_of c]) (u16 (ti_count i + 1)) i in
            put_talker_info (talker_unique_id c) i;;
            d ← get_output (talker_unique_id c);
            match d with
            | None => mret (STATUS_TALKER_MISBEHAVING, c)
            | Some d =>
                run ← openavbAVDECCRunTalker answer d;
                if (run : bool) then
                  let c := set_count (ti_count i) c in
                  save_room ← (match waiting_on_talker i with Some _ => mret true | None => ask answer end);
                  if (save_room : bool) then
                    put_talker_info (talker_unique_id c) (set_waiting (Some c) i);;
                    mret (STATUS_SUCCESS, c)
                  else mret (STATUS_TALKER_MISBEHAVING, c)
                else mret (STATUS_TALKER_MISBEHAVING, c)
            end
      end
  end.

Definition openavbAcmpSMTalker_disconnectTalker (c : acmp_cmd) : M entity (Z * acmp_cmd) :=
  info ← get_talker_info (talker_unique_id c);
  match info with
  | None => mret (STATUS_TALKER_UNKNOWN_ID, c)
  | Some i =>
      match openavbAcmpSMTalker_findListenerPairNodeFromCommand c i with
      | None => mret (STATUS_SUCCESS, set_count (ti_count i) (set_stream (ti_stream_id i) (ti_dest_mac i) c))
      | Some k =>
          let i := set_listeners (delete k (connected_listeners i)) (u16 (ti_count i - 1)) i in
          put_talker_info (talker_unique_id c) i;;
          d ← get_output (talker_unique_id c);
          match d with
          | None => mret (STATUS_TALKER_MISBEHAVING, c)
          | Some d =>
              i ← openavbAVDECCGetTalkerStreamInfo d i;
              put_talker_info (talker_unique_id c) i;;
              stopped ← (if 0 <? ti_count i then mret true else openavbAVDECCStop answer d);
              if (stopped : bool) then
                mret (STATUS_SUCCESS, set_count (ti_count i) (set_stream (ti_stream_id i) (ti_dest_mac i) c))
              else mret (STATUS_TALKER_MISBEHAVING, c)
          end
      end
  end.

Definition openavbAcmpSMTalker_getState (c : acmp_cmd) : M entity (Z * acmp_cmd) :=
  info ← get_talker_info (talker_unique_id c);
  match info with
  | None => mret (STATUS_TALKER_MISBEHAVING, c)
  | Some i =>
      d ← get_output (talker_unique_id c);
      match d with
      | None => mret (STATUS_TALKER_MISBEHAVING, c)
      | Some d =>
          i ← openavbAVDECCGetTalkerStreamInfo d i;
          put_talker_info (talker_unique_id c) i;;
          mret (STATUS_SUCCESS, set_count (ti_count i) (set_vlan (ti_vlan i) (set_stream (ti_stream_id i) (ti_dest_mac i) c)))
      end
  end.

Definition openavbAcmpSMTalker_getConnection (c : acmp_cmd) : M entity (Z * acmp_cmd) :=
  info ← get_talker_info (talker_unique_id c);
  mret match info with
  | None => (STATUS_TALKER_MISBEHAVING, c)
  | Some i =>
      match connected_listeners i !! Z.to_nat (connection_count c) with
      | Some p =>
          (STATUS_SUCCESS, set_listener (lp_entity p) (lp_unique p)
            (set_count (ti_count i) (set_vlan (ti_vlan i) (set_stream (ti_stream_id i) (ti_dest_mac i) c))))
      | None => (STATUS_NO_SUCH_CONNECTION, c)
      end
  end.

(** ** The states of the machine *)

Definition t_connect (c : acmp_cmd) : M entity unit :=
  valid ← openavbAcmpSMTalker_validTalkerUnique (talker_unique_id c);
  if negb valid then openavbAcmpSMTalker_txResponse CONNECT_TX_RESPONSE c STATUS_TALKER_UNKNOWN_ID
  else
    r ← openavbAcmpSMTalker_connectTalker c;
    if negb (r.1 =? STATUS_SUCCESS) then openavbAcmpSMTalker_txResponse CONNECT_TX_RESPONSE r.2 r.1 else mret tt.

(** The other three states answer in any case. *)
Definition t_answer_with (f : acmp_cmd -> M entity (Z * acmp_cmd)) (mt : Z) (c : acmp_cmd) : M entity unit :=
  valid ← openavbAcmpSMTalker_validTalkerUnique (talker_unique_id c);
  r ← (if (valid : bool) then f c else mret (STATUS_TALKER_UNKNOWN_ID, c));
  openavbAcmpSMTalker_txResponse mt r.2 r.1.

Definition set_flags_none : M entity unit :=
  modify (fun e => set_tk (set_t_flags false false false false (tk e)) e).

(** What the thread does when the semaphore lets it go, up to the next wait; nothing if
    the semaphore is zero or the thread has ended.  The flags are taken back only if a
    state was entered. *)
Definition openavbAcmpSMTalker_turn : M entity unit :=
  e ← get;
  let t := tk e in
  if negb (t_bRunning t) || Nat.eqb (t_posted t) 0 then mret tt
  else
    let t := set_t_posted (pred (t_posted t)) t in
    put (set_tk t e);;
    let c := t_mail t in
    if t_doTerminate t then put (set_tk (set_t_run true false t) e)
    else if bool_decide (talker_entity_id c = my_id e) then
      if rcvdConnectTX t then t_connect c;; set_flags_none
      else if rcvdDisconnectTX t then t_answer_with openavbAcmpSMTalker_disconnectTalker DISCONNECT_TX_RESPONSE c;; set_flags_none
      else if rcvdGetTXState t then t_answer_with openavbAcmpSMTalker_getState GET_TX_STATE_RESPONSE c;; set_flags_none
      else if rcvdGetTXConnection t then t_answer_with openavbAcmpSMTalker_getConnection GET_TX_CONNECTION_RESPONSE c;; set_flags_none
      else mret tt
    else mret tt.

(** ** Other threads *)

(** A message for the talker: [openavbAcmpSMTalkerSet_rcvd...]. *)
Definition openavbAcmpSMTalkerSet (k : acmp_kind) (c : acmp_cmd) : M entity unit :=
  modify (fun e =>
    let t := set_t_posted (S (t_posted (tk e))) (set_t_mail c (tk e)) in
    set_tk
      match k with
      | TConnect => set_t_flags true (rcvdDisconnectTX t) (rcvdGetTXState t) (rcvdGetTXConnection t) t
      | TDisconnect => set_t_flags (rcvdConnectTX t) true (rcvdGetTXState t) (rcvdGetTXConnection t) t
      | TGetState => set_t_flags (rcvdConnectTX t) (rcvdDisconnectTX t) true (rcvdGetTXConnection t) t
      | TGetConnection => set_t_flags (rcvdConnectTX t) (rcvdDisconnectTX t) (rcvdGetTXState t) true t
      | _ => t
      end e).

Definition openavbAcmpSMTalkerSet_doTerminate (value : bool) : M entity unit :=
  modify (fun e => set_tk (set_t_posted (S (t_posted (tk e))) (set_t_run value (t_bRunning (tk e)) (tk e))) e).

(** The search for the stream that waits, from position [k] on.  An address that is not
    valid yet makes the loop look at the same element again. *)
Fixpoint update_loop (fuel : nat) (sid : nat) (cfg : tl_cfg) (k : nat) : M entity unit :=
  match fuel with
  | O => raise FuelExhausted
  | S fuel =>
      e ← get;
      match talkerStreamInfos (tk e) !! k with
      | None => mret tt
      | Some i =>
          match waiting_on_talker i, outputs e !! k with
          | Some response, Some d =>
              if bool_decide (io_stream d = Some sid) then
                if negb (dest_valid cfg) || bool_decide (dest_addr cfg = zeros 6) then update_loop fuel sid cfg k
                else if negb (addr_valid cfg) then raise NullDeref
                else
                  let i := set_waiting None (set_ti_stream (cfg_stream_id cfg) (dest_addr cfg) (cfg_vlan_id cfg) i) in
                  put_talker_info (Z.of_nat k) i;;
                  let response := set_count (ti_count i) (set_vlan (ti_vlan i) (set_stream (ti_stream_id i) (ti_dest_mac i) response)) in
                  modify (fun e => set_outputs (<[k := set_acmp_info (flags response) (stream_id response)
                    (stream_dest_mac response) (stream_vlan_id response) d]> (outputs e)) e);;
                  openavbAcmpSMTalker_txResponse CONNECT_TX_RESPONSE response STATUS_SUCCESS
              else update_loop fuel sid cfg (S k)
          | _, _ => update_loop fuel sid cfg (S k)
          end
      end
  end.

Definition openavbAcmpSMTalker_updateStreamInfo (sid : nat) (cfg : tl_cfg) : M entity unit :=
  e ← get;
  update_loop (S (length (talkerStreamInfos (tk e)))) sid cfg 0.

(** The client process of the stream [sid] reports its addresses. *)
Record stream_report : Type := mkReport { r_src : list Z; r_uid : Z; r_dest : list Z; r_vlan : Z }.

Definition reported_cfg (r : stream_report) (g : tl_cfg) : tl_cfg :=
  mkCfg (friendly_name g) (tl_client g) true (r_dest r) true (r_src r) (r_uid r) (r_vlan r).

Definition openavbAvdeccMsgSrvrHndlTalkerStreamIDFromClient (sid : nat) (r : stream_report) : M entity bool :=
  e ← get;
  match cfgs e !! sid with
  | None => mret false
  | Some g =>
      put (set_cfgs (<[sid := reported_cfg r g]> (cfgs e)) e);;
      openavbAcmpSMTalker_updateStreamInfo sid (reported_cfg r g);;
      mret true
  end.

End Talker.

(** The variables after [openavbAcmpSMTalkerStart]: one entry per output; the semaphore
    starts at one. *)
Definition fresh_talker_info : talker_info := mkTalkerInfo (zeros 8) (zeros 6) 0 [] 0 None.
Definition no_cmd : acmp_cmd := mkAcmp 0 0 (zeros 8) (zeros 8) (zeros 8) (zeros 8) 0 0 (zeros 6) 0 0 0 0.
Definition openavbAcmpSMTalkerStart (n : nat) : talker_vars :=
  mkTalker (replicate n fresh_talker_info) no_cmd false false false false 1 false true.
