(* ===== verification/AcmpListener.v ===== *)
(** * The listener state machine

    lib/avtp_pipeline/acmp/openavb_acmp_sm_listener.c with the arithmetic of
    util/openavb_time.c.  As for the talker, a turn is what the thread does between two
    waits for its semaphore; a wait ends by a post or by its timeout. *)

From S2P Require Import Prelude AvtpTime SavedState AcmpEntity.

Open Scope Z_scope.
Local Abbreviation length := List.length.
Local Abbreviation get := Prelude.get.

(** ** Time *)

Definition MICROSECONDS_PER_MSEC : Z := 1000.
Definition TIMEOUT_CONNECT_TX_COMMAND : Z := 2000.
Definition TIMEOUT_DISCONNECT_TX_COMMAND : Z := 200.
Definition TIMEOUT_CONNECT_RX_COMMAND : Z := 4500.

Definition openavbTimeTimespecAddUsec (t : timespec) (us : Z) : timespec :=
  let sec := tv_sec t + us / MICROSECONDS_PER_SECOND in
  let us := us mod MICROSECONDS_PER_SECOND in
  if 0 <? us then
    let nsec := tv_nsec t + us * NANOSECONDS_PER_USEC in
    mkTimespec (sec + nsec / NANOSECONDS_PER_SECOND) (nsec mod NANOSECONDS_PER_SECOND)
  else mkTimespec sec (tv_nsec t).

Definition openavbTimeTimespecCmp (a b : timespec) : Z :=
  if tv_sec a <? tv_sec b then -1
  else if tv_sec b <? tv_sec a then 1
  else if tv_nsec a <? tv_nsec b then -1
  else if tv_nsec b <? tv_nsec a then 1
  else 0.

Definition openavbTimeUntilUSec (a b : timespec) : Z :=
  let usec t := u64 (tv_sec t * MICROSECONDS_PER_SECOND + tv_nsec t / NANOSECONDS_PER_USEC) in
  if usec a <? usec b then u64 (usec b - usec a) else 0.

Definition openavbTimeUntilMSec (a b : timespec) : Z := u32 (openavbTimeUntilUSec a b / 1000).

(** ** The variables *)

Definition set_l_infos (x : list listener_info) (l : listener_vars) : listener_vars :=
  mkListener x (inflight l) (l_mail l) (rcvdConnectRXCmd l) (rcvdDisconnectRXCmd l) (rcvdConnectTXResp l) (rcvdDisconnectTXResp l) (rcvdGetRXState l) (l_posted l) (l_doTerminate l) (l_bRunning l).
Definition set_inflight (x : list inflight_cmd) (l : listener_vars) : listener_vars :=
  mkListener (listenerStreamInfos l) x (l_mail l) (rcvdConnectRXCmd l) (rcvdDisconnectRXCmd l) (rcvdConnectTXResp l) (rcvdDisconnectTXResp l) (rcvdGetRXState l) (l_posted l) (l_doTerminate l) (l_bRunning l).
Definition set_l_mail (c : acmp_cmd) (l : listener_vars) : listener_vars :=
  mkListener (listenerStreamInfos l) (inflight l) c (rcvdConnectRXCmd l) (rcvdDisconnectRXCmd l) (rcvdConnectTXResp l) (rcvdDisconnectTXResp l) (rcvdGetRXState l) (l_posted l) (l_doTerminate l) (l_bRunning l).
Definition set_l_flags (a b c d f : bool) (l : listener_vars) : listener_vars :=
  mkListener (listenerStreamInfos l) (inflight l) (l_mail l) a b c d f (l_posted l) (l_doTerminate l) (l_bRunning l).
Definition set_l_posted (n : nat) (l : listener_vars) : listener_vars :=
  mkListener (listenerStreamInfos l) (inflight l) (l_mail l) (rcvdConnectRXCmd l) (rcvdDisconnectRXCmd l) (rcvdConnectTXResp l) (rcvdDisconnectTXResp l) (rcvdGetRXState l) n (l_doTerminate l) (l_bRunning l).
Definition set_l_run (term run : bool) (l : listener_vars) : listener_vars :=
  mkListener (listenerStreamInfos l) (inflight l) (l_mail l) (rcvdConnectRXCmd l) (rcvdDisconnectRXCmd l) (rcvdConnectTXResp l) (rcvdDisconnectTXResp l) (rcvdGetRXState l) (l_posted l) term run.

Definition get_listener_info (id : Z) : M entity (option listener_info) :=
  e ← get; mret (listenerStreamInfos (ls e) !! Z.to_nat id).
Definition put_listener_info (id : Z) (i : listener_info) : M entity unit :=
  modify (fun e => set_ls (set_l_infos (<[Z.to_nat id := i]> (listenerStreamInfos (ls e))) (ls e)) e).
Definition get_inflight : M entity (list inflight_cmd) := gets (fun e => inflight (ls e)).
Definition put_inflight (l : list inflight_cmd) : M entity unit := modify (fun e => set_ls (set_inflight l (ls e)) e).
Definition get_input (id : Z) : M entity (option stream_io) :=
  e ← get; mret (openavbAemGetDescriptor (inputs e) id).
Definition put_input (id : Z) (d : stream_io) : M entity unit :=
  modify (fun e => set_inputs (<[Z.to_nat id := d]> (inputs e)) e).

(** ** The functions of the machine *)

(** The command in flight that a response belongs to: the first one to the same talker
    with the same sequence number. *)
Definition same_inflight (c : acmp_cmd) (f : inflight_cmd) : Prop :=
  talker_entity_id (command f) = talker_entity_id c /\ talker_unique_id (command f) = talker_unique_id c /\
  sequence_id (command f) = sequence_id c.

#[global] Instance same_inflight_dec c f : Decision (same_inflight c f).
Proof. unfold same_inflight. apply _. Defined.

Definition openavbAcmpSMListener_findInflightNodeFromCommand (c : acmp_cmd) (l : list inflight_cmd) : option nat :=
  fst <$> list_find (same_inflight c) l.

Definition same_talker (c : acmp_cmd) (i : listener_info) : bool :=
  bool_decide (li_talker i = talker_entity_id c) && (li_talker_uid i =? talker_unique_id c).

Definition fresh_listener_info : listener_info := mkListenerInfo (zeros 8) 0 false (zeros 8) (zeros 6) (zeros 8) 0 0.

Definition timed_out (now : timespec) (f : inflight_cmd) : Prop := 0 <= openavbTimeTimespecCmp now (timer f).

#[global] Instance timed_out_dec now f : Decision (timed_out now f).
Proof. unfold timed_out. apply _. Defined.

Section Listener.
Context (answer : nat -> bool) (realtime : nat -> timespec).
Context (io : nat -> bool) (memcpy_down : list saved_state -> list saved_state).

Definition openavbAcmpSMListener_validListenerUnique (id : Z) : M entity bool :=
  d ← get_input id; mret (match d with Some _ => true | None => false end).

(** Connected to another talker than that of the command. *)
Definition openavbAcmpSMListener_listenerIsConnected (c : acmp_cmd) : M entity bool :=
  info ← get_listener_info (listener_unique_id c);
  mret match info with Some i => connected i && negb (same_talker c i) | None => false end.

Definition openavbAcmpSMListener_listenerIsConnectedTo (c : acmp_cmd) : M entity bool :=
  info ← get_listener_info (listener_unique_id c);
  mret match info with Some i => connected i && same_talker c i | None => false end.

Definition openavbAcmpSMListener_txResponse (mt : Z) (c : acmp_cmd) (st : Z) : M entity unit :=
  _ ← openavbAcmpMessageSend mt c st; mret tt.

Definition command_timeout (mt : Z) : Z :=
  if mt =? CONNECT_TX_COMMAND then TIMEOUT_CONNECT_TX_COMMAND
  else if mt =? DISCONNECT_TX_COMMAND then TIMEOUT_DISCONNECT_TX_COMMAND
  else TIMEOUT_CONNECT_RX_COMMAND.

Definition deadline (now : timespec) (mt : Z) : timespec :=
  openavbTimeTimespecAddUsec now (command_timeout mt * MICROSECONDS_PER_MSEC).

Definition openavbAcmpSMListener_removeInflight (c : acmp_cmd) : M entity unit :=
  l ← get_inflight;
  match openavbAcmpSMListener_findInflightNodeFromCommand c l with
  | Some k => put_inflight (delete k l)
  | None => mret tt
  end.

Definition openavbAcmpSMListener_txCommand (mt : Z) (c : acmp_cmd) (retry : bool) : M entity unit :=
  rc ← openavbAcmpMessageSend mt c STATUS_SUCCESS;
  if (rc : bool) then
    if negb retry then
      node ← ask answer;
      if (node : bool) then
        now ← clock_now realtime;
        l ← get_inflight;
        put_inflight (l ++ [mkInflight (deadline now mt) false (set_message_type mt c) (sequence_id c)])
      else mret tt
    else
      l ← get_inflight;
      match openavbAcmpSMListener_findInflightNodeFromCommand c l with
      | Some k =>
          now ← clock_now realtime;
          put_inflight (alter (fun f => mkInflight (deadline now mt) true (command f) (original_sequence_id f)) k l)
      | None => mret tt
      end
  else
    openavbAcmpSMListener_txResponse (mt + 1) c STATUS_COULD_NOT_SEND_MESSAGE;;
    if retry then openavbAcmpSMListener_removeInflight c else mret tt.

Definition openavbAcmpSMListener_connectListener (c : acmp_cmd) : M entity Z :=
  info ← get_listener_info (listener_unique_id c);
  match info with
  | None => mret STATUS_LISTENER_UNKNOWN_ID
  | Some _ =>
      let i := mkListenerInfo (talker_entity_id c) (talker_unique_id c) true (stream_id c) (stream_dest_mac c)
        (controller_entity_id c) (flags c) (stream_vlan_id c) in
      put_listener_info (listener_unique_id c) i;;
      d ← get_input (listener_unique_id c);
      match d with
      | None => mret STATUS_LISTENER_UNKNOWN_ID
      | Some d =>
          run ← openavbAVDECCRunListener answer d i;
          mret (if (run : bool) then STATUS_SUCCESS else STATUS_LISTENER_MISBEHAVING)
      end
  end.

Definition openavbAcmpSMListener_disconnectListener (c : acmp_cmd) : M entity Z :=
  info ← get_listener_info (listener_unique_id c);
  match info with
  | None => mret STATUS_LISTENER_UNKNOWN_ID
  | Some _ =>
      d ← get_input (listener_unique_id c);
      st ← match d with
           | None => mret STATUS_LISTENER_UNKNOWN_ID
           | Some d => stop ← openavbAVDECCStop answer d; mret (if (stop : bool) then STATUS_SUCCESS else STATUS_LISTENER_MISBEHAVING)
           end;
      put_listener_info (listener_unique_id c) fresh_listener_info;;
      mret st
  end.

Definition openavbAcmpSMListener_getState (c : acmp_cmd) : M entity (Z * acmp_cmd) :=
  info ← get_listener_info (listener_unique_id c);
  mret match info with
  | None => (STATUS_LISTENER_MISBEHAVING, c)
  | Some i =>
      (STATUS_SUCCESS, set_vlan (li_vlan i) (set_flags_of (li_flags i) (set_count (if connected i then 1 else 0)
        (set_talker (li_talker i) (li_talker_uid i) (set_stream (li_stream_id i) (li_dest_mac i) c)))))
  end.

(** ** The states of the machine *)

Definition l_connect_rx (c : acmp_cmd) : M entity unit :=
  valid ← openavbAcmpSMListener_validListenerUnique (listener_unique_id c);
  if (valid : bool) then
    busy ← openavbAcmpSMListener_listenerIsConnected c;
    if negb busy then openavbAcmpSMListener_txCommand CONNECT_TX_COMMAND c false
    else openavbAcmpSMListener_txResponse CONNECT_TX_RESPONSE c STATUS_LISTENER_EXCLUSIVE
  else openavbAcmpSMListener_txResponse CONNECT_TX_RESPONSE c STATUS_LISTENER_UNKNOWN_ID.

(** A response takes the sequence number the controller knows. *)
Definition answer_inflight (c response : acmp_cmd) (mt st : Z) : M entity unit :=
  l ← get_inflight;
  let response :=
    match openavbAcmpSMListener_findInflightNodeFromCommand c l ≫= (fun k => l !! k) with
    | Some f => set_sequence_id (original_sequence_id f) response
    | None => response
    end in
  openavbAcmpSMListener_removeInflight c;;
  openavbAcmpSMListener_txResponse mt response st.

Definition saved_flags (c : acmp_cmd) : Z :=
  Z.land (flags c) (Z.lor FLAG_CLASS_B (Z.lor FLAG_SUPPORTS_ENCRYPTED FLAG_ENCRYPTED_PDU)).

(** The name by which the connection of a descriptor is saved. *)
Definition stream_name (d : stream_io) : M entity (option (list Z)) :=
  c ← stream_of d; mret (friendly_name <$> c).

(** What a successful connection leaves in the descriptor; the response says whether the
    state was saved. *)
Definition remember_connection (c response : acmp_cmd) : M entity acmp_cmd :=
  d ← get_input (listener_unique_id c);
  match d with
  | None => mret response
  | Some d =>
      name ← stream_name d;
      match name with
      | None => mret response
      | Some name =>
          e ← get;
          r ← (if bFastConnectSupported e && (Z.land (flags c) FLAG_STREAMING_WAIT =? 0) then
                 saved ← on_saves (openavbAvdeccSaveState io memcpy_down (bFastConnectSupported e)
                   (mkSaved name (saved_flags c) (talker_unique_id c) (talker_entity_id c) (controller_entity_id c)));
                 mret (if (saved : bool) then set_flags_of (Z.lor (flags response) FLAG_SAVED_STATE) response else response,
                   match fast_connect_status d with
                   | FcInProgress | FcTimedOut | FcSucceeded => set_fast_status FcSucceeded d
                   | _ => d
                   end)
               else mret (response, d));
          put_input (listener_unique_id c) (set_acmp_info (flags r.1) (stream_id c) (stream_dest_mac c) (stream_vlan_id c) r.2);;
          mret r.1
      end
  end.

Definition l_connect_tx_response (c : acmp_cmd) : M entity unit :=
  valid ← openavbAcmpSMListener_validListenerUnique (listener_unique_id c);
  if (valid : bool) then
    st ← (if status c =? STATUS_SUCCESS then openavbAcmpSMListener_connectListener c else mret (status c));
    response ← (if st =? STATUS_SUCCESS then remember_connection c c else mret c);
    answer_inflight c response CONNECT_RX_RESPONSE st
  else mret tt.

Definition l_get_state (c : acmp_cmd) : M entity unit :=
  valid ← openavbAcmpSMListener_validListenerUnique (listener_unique_id c);
  r ← (if (valid : bool) then openavbAcmpSMListener_getState c else mret (STATUS_LISTENER_UNKNOWN_ID, c));
  openavbAcmpSMListener_txResponse GET_RX_STATE_RESPONSE r.2 r.1.

Definition forget_connection (c : acmp_cmd) : M entity unit :=
  e ← get;
  if bFastConnectSupported e then
    d ← get_input (listener_unique_id c);
    match d with
    | None => mret tt
    | Some d =>
        name ← stream_name d;
        match name with
        | None => mret tt
        | Some name =>
            put_input (listener_unique_id c) (set_fast_status FcNotAvailable d);;
            _ ← on_saves (openavbAvdeccClearSavedState io memcpy_down name); mret tt
        end
    end
  else mret tt.

Definition l_disconnect_rx (c : acmp_cmd) : M entity unit :=
  valid ← openavbAcmpSMListener_validListenerUnique (listener_unique_id c);
  if (valid : bool) then
    st ← openavbAcmpSMListener_disconnectListener c;
    (if st =? STATUS_SUCCESS then openavbAcmpSMListener_txCommand DISCONNECT_TX_COMMAND c false
     else openavbAcmpSMListener_txResponse DISCONNECT_RX_RESPONSE c st);;
    forget_connection c
  else openavbAcmpSMListener_txResponse DISCONNECT_RX_RESPONSE c STATUS_NOT_CONNECTED.

(** [true] when the machine goes back to waiting; with an unknown listener it stays in
    the state. *)
Definition l_disconnect_tx_response (c : acmp_cmd) : M entity bool :=
  valid ← openavbAcmpSMListener_validListenerUnique (listener_unique_id c);
  if (valid : bool) then answer_inflight c c DISCONNECT_RX_RESPONSE (status c);; mret true
  else mret false.

(** The state is entered again until it is left. *)
Fixpoint stay_in (fuel : nat) (m : M entity bool) : M entity unit :=
  match fuel with
  | O => raise FuelExhausted
  | S fuel => left ← m; if (left : bool) then mret tt else stay_in fuel m
  end.

Definition l_connect_tx_timeout (f : inflight_cmd) : M entity unit :=
  let c := command f in
  if retried f then
    if negb (Z.land (flags c) FLAG_FAST_CONNECT =? 0) then
      d ← get_input (listener_unique_id c);
      (match d with
       | Some d =>
           if bool_decide (fast_connect_status d = FcInProgress) then put_input (listener_unique_id c) (set_fast_status FcTimedOut d)
           else mret tt
       | None => mret tt
       end);;
      openavbAcmpSMListener_removeInflight c
    else
      openavbAcmpSMListener_txResponse CONNECT_RX_RESPONSE (set_sequence_id (original_sequence_id f) c) STATUS_LISTENER_TALKER_TIMEOUT;;
      openavbAcmpSMListener_removeInflight c
  else openavbAcmpSMListener_txCommand CONNECT_TX_COMMAND c true.

Definition l_disconnect_tx_timeout (f : inflight_cmd) : M entity unit :=
  let c := command f in
  if retried f then
    openavbAcmpSMListener_txResponse DISCONNECT_RX_RESPONSE (set_sequence_id (original_sequence_id f) c) STATUS_LISTENER_TALKER_TIMEOUT;;
    openavbAcmpSMListener_removeInflight c
  else openavbAcmpSMListener_txCommand DISCONNECT_TX_COMMAND c true.

Definition set_l_flags_none : M entity unit :=
  modify (fun e => set_ls (set_l_flags false false false false false (ls e)) e).

(** What the thread does when the semaphore lets it go; nothing if the semaphore is zero
    or the thread has ended. *)
Definition openavbAcmpSMListener_turn : M entity unit :=
  e ← get;
  let l := ls e in
  if negb (l_bRunning l) || Nat.eqb (l_posted l) 0 then mret tt
  else
    let l := set_l_posted (pred (l_posted l)) l in
    put (set_ls l e);;
    let c := l_mail l in
    if l_doTerminate l then put (set_ls (set_l_run true false l) e)
    else if bool_decide (listener_entity_id c = my_id e) then
      if rcvdConnectRXCmd l then l_connect_rx c;; set_l_flags_none
      else if rcvdConnectTXResp l then l_connect_tx_response c;; set_l_flags_none
      else if rcvdGetRXState l then l_get_state c;; set_l_flags_none
      else if rcvdDisconnectRXCmd l then l_disconnect_rx c;; set_l_flags_none
      else if rcvdDisconnectTXResp l then stay_in 1 (l_disconnect_tx_response c);; set_l_flags_none
      else mret tt
    else mret tt.

(** The wait ended by its timeout: the first command that is due.  One of another type
    would end the thread. *)
Definition openavbAcmpSMListener_timeout : M entity unit :=
  e ← get;
  if negb (l_bRunning (ls e)) then mret tt
  else
    now ← clock_now realtime;
    l ← get_inflight;
    match list_find (timed_out now) l with
    | None => mret tt
    | Some (_, f) =>
        if message_type (command f) =? CONNECT_TX_COMMAND then l_connect_tx_timeout f;; set_l_flags_none
        else if message_type (command f) =? DISCONNECT_TX_COMMAND then l_disconnect_tx_timeout f;; set_l_flags_none
        else modify (fun e => set_ls (set_l_run (l_doTerminate (ls e)) false (ls e)) e)
    end.

(** How long the thread waits: until the first command is due, at most a minute. *)
Definition next_deadline (start : timespec) (l : list inflight_cmd) : timespec :=
  fold_left (fun t f => if openavbTimeTimespecCmp (timer f) t <? 0 then timer f else t) l
    (mkTimespec (tv_sec start + 60) (tv_nsec start)).

Definition openavbAcmpSMListener_wait : M entity Z :=
  start ← clock_now realtime;
  l ← get_inflight;
  now ← clock_now realtime;
  mret (openavbTimeUntilMSec now (next_deadline start l)).

End Listener.

(** ** Other threads *)

Definition openavbAcmpSMListenerSet_doTerminate (value : bool) : M entity unit :=
  modify (fun e => set_ls (set_l_posted (S (l_posted (ls e))) (set_l_run value (l_bRunning (ls e)) (ls e))) e).

Definition openavbAcmpSMListenerSet (k : acmp_kind) (c : acmp_cmd) : M entity unit :=
  modify (fun e =>
    let l := set_l_posted (S (l_posted (ls e))) (set_l_mail c (ls e)) in
    set_ls
      match k with
      | LConnectCmd => set_l_flags true (rcvdDisconnectRXCmd l) (rcvdConnectTXResp l) (rcvdDisconnectTXResp l) (rcvdGetRXState l) l
      | LDisconnectCmd => set_l_flags (rcvdConnectRXCmd l) true (rcvdConnectTXResp l) (rcvdDisconnectTXResp l) (rcvdGetRXState l) l
      | LConnectResp => set_l_flags (rcvdConnectRXCmd l) (rcvdDisconnectRXCmd l) true (rcvdDisconnectTXResp l) (rcvdGetRXState l) l
      | LDisconnectResp => set_l_flags (rcvdConnectRXCmd l) (rcvdDisconnectRXCmd l) (rcvdConnectTXResp l) true (rcvdGetRXState l) l
      | LGetState => set_l_flags (rcvdConnectRXCmd l) (rcvdDisconnectRXCmd l) (rcvdConnectTXResp l) (rcvdDisconnectTXResp l) true l
      | _ => l
      end e).

Definition openavbAcmpSMListenerStart (n : nat) : listener_vars :=
  mkListener (replicate n fresh_listener_info) [] (mkAcmp 0 0 (zeros 8) (zeros 8) (zeros 8) (zeros 8) 0 0 (zeros 6) 0 0 0 0)
    false false false false false 1 false true.

(** ** Fast connect *)

(** The input of the stream with a name, from [id] on, with its number; after [k]
    descriptors the last one is taken. *)
Fixpoint fast_input (k id : nat) (prev : option stream_io) (name : list Z) : M entity (option (nat * stream_io)) :=
  match k with
  | O => mret ((fun d => (id, d)) <$> prev)
  | S k =>
      d ← get_input (Z.of_nat id);
      match d with
      | None => mret None
      | Some d =>
          n ← stream_name d;
          if bool_decide (n = Some name) then mret (Some (id, d)) else fast_input k (S id) (Some d) name
      end
  end.

Definition all_ones (n : nat) : list Z := replicate n 255.

Section FastConnect.
Context (realtime : nat -> timespec) (io : nat -> bool).

Definition openavbAcmpSMListenerSet_doFastConnect (name : list Z) (fl talker_uid : Z) (talker controller : list Z) : M entity unit :=
  r ← fast_input (Z.to_nat 65535) 0 None name;
  match r with
  | None => mret tt
  | Some (id, d) =>
      e ← get;
      if negb (bFastConnectSupported e) || negb (bool_decide (fast_connect_status d = FcUnknown) || bool_decide (fast_connect_status d = FcTimedOut))
      then mret tt
      else
        now ← clock_now realtime;
        put_input (Z.of_nat id) (set_fast_attempt talker now (set_fast_status FcInProgress d));;
        e ← get;
        let seq := u16 (s_sequence_id e + 1) in
        put (set_fc_sequence seq e);;
        openavbAcmpSMListenerSet LConnectCmd
          (mkAcmp CONNECT_RX_COMMAND 0 (all_ones 8) controller talker (my_id e) talker_uid (u16 (Z.of_nat id)) (all_ones 6) 0 seq
            (u16 (Z.lor (Z.lor fl FLAG_FAST_CONNECT) FLAG_SAVED_STATE)) 0)
  end.

(** A talker was discovered: the first input that waits for it. *)
Fixpoint waiting_input (k id : nat) (talker : list Z) : M entity (option (nat * stream_io * list Z)) :=
  match k with
  | O => mret None
  | S k =>
      d ← get_input (Z.of_nat id);
      match d with
      | None => mret None
      | Some d =>
          n ← stream_name d;
          match n with
          | Some name =>
              if bool_decide (fast_connect_status d = FcTimedOut) && bool_decide (fast_connect_talker d = talker)
              then mret (Some (id, d, name))
              else waiting_input k (S id) talker
          | None => waiting_input k (S id) talker
          end
      end
  end.

Definition openavbAcmpSMListenerSet_talkerTestFastConnect (talker : list Z) : M entity unit :=
  r ← waiting_input (Z.to_nat 65535) 0 talker;
  match r with
  | None => mret tt
  | Some (id, d, name) =>
      now ← clock_now realtime;
      if openavbTimeTimespecCmp now (fast_connect_start d) <? 0 then mret tt
      else
        e ← get;
        info ← on_saves (openavbAvdeccGetSaveStateInfo io (bFastConnectSupported e) name);
        match info with
        | Some x =>
            if bool_decide (talker = saved_talker x)
            then openavbAcmpSMListenerSet_doFastConnect name (saved_flags_ x) (saved_talker_uid x) (saved_talker x) (saved_controller x)
            else put_input (Z.of_nat id) (set_fast_attempt (zeros 8) (fast_connect_start d) d)
        | None => put_input (Z.of_nat id) (set_fast_attempt (zeros 8) (fast_connect_start d) d)
        end
  end.

End FastConnect.
