(* ===== verification/AcmpTheory.v ===== *)
(** * Connection management at work

    The events of an entity with its talker and its listener, and what the turns of the two
    machines do. *)

From S2P Require Import Prelude AvtpTime SavedState SavedTheory AcmpEntity AcmpTalker AcmpListener.

(** ** Events

    What happens to an entity: frames from the
    network, turns of the two threads, timeouts, reports of client processes, fast
    connects. *)

Open Scope Z_scope.
Local Abbreviation length := List.length.
Local Abbreviation get := Prelude.get.

(** A frame arrives; responses to a controller are for the controller state machine, which
    sends no commands. *)
Definition acmp_receive (pdu : list Z) : M entity unit :=
  r ← lift (openavbAcmpMessageRxFrameReceive pdu);
  match r with
  | None => mret tt
  | Some (k, c) =>
      match k with
      | TConnect | TDisconnect | TGetState | TGetConnection => openavbAcmpSMTalkerSet k c
      | LConnectCmd | LConnectResp | LDisconnectCmd | LDisconnectResp | LGetState => openavbAcmpSMListenerSet k c
      | CResponse => mret tt
      end
  end.

(** An entity after [openavbAcmpStart]: one talker per output, one listener per input. *)
Definition openavbAcmpStart (id : list Z) (fast : bool) (ins outs : list stream_io) (streams : list tl_cfg) (store : save_store) : entity :=
  mkEntity id fast ins outs streams [] 0 0 store 0 (openavbAcmpSMTalkerStart (length outs)) (openavbAcmpSMListenerStart (length ins)).

Inductive acmp_event : Type :=
  | FrameIn (pdu : list Z)
  | TalkerTurn
  | ListenerTurn
  | ListenerTimeout
  | ClientReport (sid : nat) (r : stream_report)
  | FastConnect (name : list Z) (flags talker_uid : Z) (talker controller : list Z)
  | TalkerSeen (talker : list Z)
  | TalkerStop
  | ListenerStop.

Section Run.
Context (answer : nat -> bool) (realtime : nat -> timespec).
Context (io : nat -> bool) (memcpy_down : list saved_state -> list saved_state).

Definition acmp_step (ev : acmp_event) : M entity unit :=
  match ev with
  | FrameIn pdu => acmp_receive pdu
  | TalkerTurn => openavbAcmpSMTalker_turn answer
  | ListenerTurn => openavbAcmpSMListener_turn answer realtime io memcpy_down
  | ListenerTimeout => openavbAcmpSMListener_timeout answer realtime
  | ClientReport sid r => _ ← openavbAvdeccMsgSrvrHndlTalkerStreamIDFromClient sid r; mret tt
  | FastConnect name fl uid talker controller => openavbAcmpSMListenerSet_doFastConnect realtime name fl uid talker controller
  | TalkerSeen talker => openavbAcmpSMListenerSet_talkerTestFastConnect realtime io talker
  | TalkerStop => openavbAcmpSMTalkerSet_doTerminate true
  | ListenerStop => openavbAcmpSMListenerSet_doTerminate true
  end.

Fixpoint acmp_run (evs : list acmp_event) : M entity unit :=
  match evs with
  | [] => mret tt
  | ev :: evs => acmp_step ev;; acmp_run evs
  end.

End Run.

(** The frames an entity has sent. *)
Definition sent_frames (e : entity) : list (list Z) :=
  omap (fun o => match o with Frame bs => Some bs | _ => None end) (out e).

Definition last_frame (e : entity) : list Z := default [] (last (sent_frames e)).

Definition acmp_frame (mt : Z) (c : acmp_cmd) (st : Z) : list Z := openavbAcmpMessageTxFrame openavbAcmp_controlHeader mt c st.

#[local] Arguments openavbAcmpSMListener_findInflightNodeFromCommand : simpl never.

(** ** Running computations by rewriting *)

Section Exec.
Context {S A B C : Type}.

Lemma run_get (f : S -> M S A) s : (get ≫= f) s = f s s. Proof. done. Qed.
Lemma run_put (f : unit -> M S A) s s' : (put s' ≫= f) s = f tt s'. Proof. done. Qed.
Lemma run_modify g (f : unit -> M S A) s : (modify g ≫= f) s = f tt (g s). Proof. done. Qed.
Lemma run_gets (g : S -> B) (f : B -> M S A) s : (gets g ≫= f) s = f (g s) s. Proof. done. Qed.
Lemma run_ret (b : B) (f : B -> M S A) s : (mret b ≫= f) s = f b s. Proof. done. Qed.
Lemma run_assoc (m : M S A) (f : A -> M S B) (g : B -> M S C) s : ((m ≫= f) ≫= g) s = (m ≫= fun a => f a ≫= g) s.
Proof. unfold mbind, M_bind. by destruct (m s) as [[a s']|e]. Qed.
Lemma run_Ok (m : M S A) (f : A -> M S B) s a s' : m s = Ok (a, s') -> (m ≫= f) s = f a s'.
Proof. unfold mbind, M_bind. by intros ->. Qed.
End Exec.

(** The accessors of an entity. *)
Section Accessors.
Context {A : Type}.

Definition put_frame (mt : Z) (c : acmp_cmd) (st : Z) (e : entity) : entity := set_acmp_out (out e ++ [Frame (acmp_frame mt c st)]) e.

Lemma run_ask answer (f : bool -> M entity A) e : (ask answer ≫= f) e = f (answer (asked e)) (set_acmp_asked (S (asked e)) (clock_asked e) e). Proof. done. Qed.
Lemma run_clock realtime (f : timespec -> M entity A) e :
  (clock_now realtime ≫= f) e = f (realtime (clock_asked e)) (set_acmp_asked (asked e) (S (clock_asked e)) e). Proof. done. Qed.
Lemma run_emit o (f : unit -> M entity A) e : (acmp_emit o ≫= f) e = f tt (set_acmp_out (out e ++ [o]) e). Proof. done. Qed.
Lemma run_send mt c st (f : bool -> M entity A) e : (openavbAcmpMessageSend mt c st ≫= f) e = f true (put_frame mt c st e). Proof. done. Qed.
Lemma run_t_tx mt c st (f : unit -> M entity A) e : (openavbAcmpSMTalker_txResponse mt c st ≫= f) e = f tt (put_frame mt c st e). Proof. done. Qed.
Lemma run_l_tx mt c st (f : unit -> M entity A) e : (openavbAcmpSMListener_txResponse mt c st ≫= f) e = f tt (put_frame mt c st e). Proof. done. Qed.
Lemma run_get_output id (f : option stream_io -> M entity A) e : (get_output id ≫= f) e = f (outputs e !! Z.to_nat id) e. Proof. done. Qed.
Lemma run_get_input id (f : option stream_io -> M entity A) e : (get_input id ≫= f) e = f (inputs e !! Z.to_nat id) e. Proof. done. Qed.
Lemma run_put_input id d (f : unit -> M entity A) e : (put_input id d ≫= f) e = f tt (set_inputs (<[Z.to_nat id := d]> (inputs e)) e). Proof. done. Qed.
Lemma run_talker_info id (f : option talker_info -> M entity A) e : (get_talker_info id ≫= f) e = f (talkerStreamInfos (tk e) !! Z.to_nat id) e. Proof. done. Qed.
Lemma run_put_talker id i (f : unit -> M entity A) e :
  (put_talker_info id i ≫= f) e = f tt (set_tk (set_infos (<[Z.to_nat id := i]> (talkerStreamInfos (tk e))) (tk e)) e). Proof. done. Qed.
Lemma run_listener_info id (f : option listener_info -> M entity A) e : (get_listener_info id ≫= f) e = f (listenerStreamInfos (ls e) !! Z.to_nat id) e. Proof. done. Qed.
Lemma run_put_listener id i (f : unit -> M entity A) e :
  (put_listener_info id i ≫= f) e = f tt (set_ls (set_l_infos (<[Z.to_nat id := i]> (listenerStreamInfos (ls e))) (ls e)) e). Proof. done. Qed.
Lemma run_inflight (f : list inflight_cmd -> M entity A) e : (get_inflight ≫= f) e = f (inflight (ls e)) e. Proof. done. Qed.
Lemma run_put_inflight l (f : unit -> M entity A) e : (put_inflight l ≫= f) e = f tt (set_ls (set_inflight l (ls e)) e). Proof. done. Qed.
End Accessors.

Ltac exec_step := first
  [ rewrite run_get | rewrite run_put | rewrite run_modify | rewrite run_gets | rewrite run_ret | rewrite run_assoc
  | rewrite run_ask | rewrite run_clock | rewrite run_emit | rewrite run_send | rewrite run_t_tx | rewrite run_l_tx
  | rewrite run_get_output | rewrite run_get_input | rewrite run_put_input | rewrite run_talker_info | rewrite run_put_talker
  | rewrite run_listener_info | rewrite run_put_listener | rewrite run_inflight | rewrite run_put_inflight ].

Ltac exec := cbn; repeat (exec_step; cbn).

(** What the receiver sees of a message: the status does not get through. *)
Definition as_received (mt : Z) (c : acmp_cmd) : acmp_cmd :=
  mkAcmp mt 0 (stream_id c) (controller_entity_id c) (talker_entity_id c) (listener_entity_id c) (talker_unique_id c)
    (listener_unique_id c) (stream_dest_mac c) (connection_count c) (sequence_id c) (flags c) (stream_vlan_id c).

(** Machines that wait with nothing in their mailbox, and with one message. *)
Definition talker_idle (infos : list talker_info) (m : acmp_cmd) : talker_vars := mkTalker infos m false false false false 0 false true.
Definition listener_idle (infos : list listener_info) (fl : list inflight_cmd) (m : acmp_cmd) : listener_vars :=
  mkListener infos fl m false false false false false 0 false true.

Lemma receive_connect_rx st c e infos fl m : is_acmp c -> ls e = listener_idle infos fl m ->
  acmp_receive (acmp_frame CONNECT_RX_COMMAND c st) e =
  Ok (tt, set_ls (mkListener infos fl (as_received CONNECT_RX_COMMAND c) true false false false false 1 false true) e).
Proof. intros Hc E. unfold acmp_receive, lift, mbind, M_bind, acmp_frame. rewrite frame_received by (done || lia). cbn. unfold openavbAcmpSMListenerSet, openavbAcmpSMTalkerSet, modify. by rewrite E. Qed.

Lemma receive_connect_tx_response st c e infos fl m : is_acmp c -> ls e = listener_idle infos fl m ->
  acmp_receive (acmp_frame CONNECT_TX_RESPONSE c st) e =
  Ok (tt, set_ls (mkListener infos fl (as_received CONNECT_TX_RESPONSE c) false false true false false 1 false true) e).
Proof. intros Hc E. unfold acmp_receive, lift, mbind, M_bind, acmp_frame. rewrite frame_received by (done || lia). cbn. unfold openavbAcmpSMListenerSet, openavbAcmpSMTalkerSet, modify. by rewrite E. Qed.

Lemma receive_connect_tx st c e infos m : is_acmp c -> tk e = talker_idle infos m ->
  acmp_receive (acmp_frame CONNECT_TX_COMMAND c st) e =
  Ok (tt, set_tk (mkTalker infos (as_received CONNECT_TX_COMMAND c) true false false false 1 false true) e).
Proof. intros Hc E. unfold acmp_receive, lift, mbind, M_bind, acmp_frame. rewrite frame_received by (done || lia). cbn. unfold openavbAcmpSMListenerSet, openavbAcmpSMTalkerSet, modify. by rewrite E. Qed.

Section Turns.
Context (answer : nat -> bool) (realtime : nat -> timespec).
Context (io : nat -> bool) (memcpy_down : list saved_state -> list saved_state).

(** A listener passes the command of the controller on, and notes when it must be answered. *)
Lemma turn_connect_rx e infos fl c d i :
  ls e = mkListener infos fl c true false false false false 1 false true ->
  listener_entity_id c = my_id e ->
  inputs e !! Z.to_nat (listener_unique_id c) = Some d ->
  infos !! Z.to_nat (listener_unique_id c) = Some i -> connected i = false \/ same_talker c i = true ->
  answer (asked e) = true ->
  openavbAcmpSMListener_turn answer realtime io memcpy_down e =
  Ok (tt, set_ls (listener_idle infos (fl ++ [mkInflight (deadline (realtime (clock_asked e)) CONNECT_TX_COMMAND) false
          (set_message_type CONNECT_TX_COMMAND c) (sequence_id c)]) c)
        (set_acmp_asked (S (asked e)) (S (clock_asked e)) (set_acmp_out (out e ++ [Frame (acmp_frame CONNECT_TX_COMMAND c STATUS_SUCCESS)]) e))).
Proof.
  intros El Hid Hd Hi Hc Ha. destruct e as [me fast ins outs cf ot na nc sv sq tkv lsv]. cbn in *. subst lsv.
  unfold openavbAcmpSMListener_turn. exec. rewrite bool_decide_true by done.
  unfold l_connect_rx, openavbAcmpSMListener_validListenerUnique, openavbAcmpSMListener_listenerIsConnected.
  exec. rewrite Hd. exec. rewrite Hi. exec.
  assert (connected i && negb (same_talker c i) = false) as -> by (destruct Hc as [-> | ->]; [done|by rewrite andb_false_r]).
  unfold openavbAcmpSMListener_txCommand. exec. rewrite Ha. exec. done.
Qed.

(** A client process that is connected takes requests. *)
Definition has_client (e : entity) (d : stream_io) (h : Z) : Prop :=
  exists k g st, io_stream d = Some k /\ cfgs e !! k = Some g /\ tl_client g = Some (mkClient h st).

(** A talker with a new listener: the pair is counted, the client told to run, and the
    command kept until the client reports. *)
Definition joined (c : acmp_cmd) (i : talker_info) : talker_info :=
  set_listeners (connected_listeners i ++ [pair_of c]) (u16 (ti_count i + 1)) i.

Definition kept (c : acmp_cmd) (i : talker_info) : acmp_cmd := set_count (ti_count (joined c i)) c.

Lemma find_pair_None c i : pair_of c ∉ connected_listeners i -> openavbAcmpSMTalker_findListenerPairNodeFromCommand c i = None.
Proof.
  intros H. unfold openavbAcmpSMTalker_findListenerPairNodeFromCommand.
  destruct (list_find _ _) as [[k p]|] eqn:E; [|done]. apply list_find_Some in E as (Hk & -> & _).
  by apply list_elem_of_lookup_2 in Hk.
Qed.

Lemma turn_connect_tx e infos c d h i :
  (forall n, answer n = true) ->
  tk e = mkTalker infos c true false false false 1 false true ->
  talker_entity_id c = my_id e ->
  outputs e !! Z.to_nat (talker_unique_id c) = Some d -> has_client e d h ->
  infos !! Z.to_nat (talker_unique_id c) = Some i -> pair_of c ∉ connected_listeners i ->
  exists n, openavbAcmpSMTalker_turn answer e =
  Ok (tt, set_tk (talker_idle (<[Z.to_nat (talker_unique_id c) := set_waiting (Some (kept c i)) (joined c i)]> infos) c)
        (set_acmp_asked n (clock_asked e) (set_acmp_out (out e ++ [ChangeRequest h true]) e))).
Proof.
  intros Ha Et Hid Hd (k & g & st & Hk & Hg & Hcl) Hi Hp.
  destruct e as [me fast ins outs cf ot na nc sv sq tkv lsv]. cbn in *. subst tkv.
  unfold openavbAcmpSMTalker_turn. exec. rewrite bool_decide_true by done.
  unfold t_connect, openavbAcmpSMTalker_validTalkerUnique. exec. rewrite Hd. exec.
  unfold openavbAcmpSMTalker_connectTalker. exec. rewrite Hi, find_pair_None by done. exec. rewrite Ha. exec. rewrite Hd.
  unfold openavbAVDECCRunTalker, stream_of. exec. rewrite Hk. exec. rewrite Hg. exec. rewrite Hcl. cbn.
  unfold openavbAvdeccMsgSrvrChangeRequest. exec. rewrite Ha. exec.
  destruct (waiting_on_talker i); exec; [|rewrite Ha]; exec; eexists; rewrite list_insert_insert_eq; done.
Qed.

(** A usable configuration of a talker's stream. *)
Definition has_address (g : tl_cfg) : Prop := dest_valid g = true /\ dest_addr g <> zeros 6 /\ addr_valid g = true.

(** The reported stream is the only one of its kind among the outputs. *)
Lemma update_loop_finds sid g id d i response : has_address g ->
  forall fuel k e,
  waiting_on_talker i = Some response -> talkerStreamInfos (tk e) !! id = Some i -> outputs e !! id = Some d -> io_stream d = Some sid ->
  (forall k' d', (k' < id)%nat -> outputs e !! k' = Some d' -> io_stream d' <> Some sid) ->
  (k <= id)%nat -> (id < k + fuel)%nat ->
  update_loop fuel sid g k e =
  (let i := set_waiting None (set_ti_stream (cfg_stream_id g) (dest_addr g) (cfg_vlan_id g) i) in
   let r := set_count (ti_count i) (set_vlan (ti_vlan i) (set_stream (ti_stream_id i) (ti_dest_mac i) response)) in
   Ok (tt, put_frame CONNECT_TX_RESPONSE r STATUS_SUCCESS
     (set_outputs (<[id := set_acmp_info (flags r) (stream_id r) (stream_dest_mac r) (stream_vlan_id r) d]> (outputs e))
       (set_tk (set_infos (<[id := i]> (talkerStreamInfos (tk e))) (tk e)) e)))).
Proof.
  intros (Hv & Ha & Hav) fuel. induction fuel as [|fuel IH]; intros k e Hw Hi Hd Hs Ho Hk Hf; [lia|].
  cbn [update_loop]. rewrite run_get. destruct (decide (k = id)) as [->|Hne].
  - rewrite Hi, Hw, Hd, Hs. rewrite bool_decide_true by done. rewrite Hv. rewrite bool_decide_false by done. rewrite Hav. cbn [negb orb].
    rewrite run_put_talker, Nat2Z.id. exec. done.
  - assert (Hl : is_Some (talkerStreamInfos (tk e) !! k)).
    { apply lookup_lt_is_Some. apply lookup_lt_Some in Hi. lia. }
    destruct Hl as [i' ->]. destruct (waiting_on_talker i') as [r'|]; [|apply IH; (done || lia)].
    destruct (outputs e !! k) as [d'|] eqn:Hd'; [|apply IH; (done || lia)].
    rewrite bool_decide_false by (apply (Ho k); [lia|done]). apply IH; (done || lia).
Qed.

(** The connection a listener is told of. *)
Definition connection_of (c : acmp_cmd) : listener_info :=
  mkListenerInfo (talker_entity_id c) (talker_unique_id c) true (stream_id c) (stream_dest_mac c)
    (controller_entity_id c) (flags c) (stream_vlan_id c).

Definition listener_stream (h : Z) (i : listener_info) : acmp_out :=
  ListenerStream h (negb (Z.land (li_flags i) FLAG_CLASS_B =? 0)) (take 6 (li_stream_id i)) (be_val (drop 6 (li_stream_id i)))
    (li_dest_mac i) (li_vlan i).

Lemma find_inflight_last c l f : Forall (fun g => ~ same_inflight c g) l -> same_inflight c f ->
  openavbAcmpSMListener_findInflightNodeFromCommand c (l ++ [f]) = Some (length l).
Proof.
  intros Hl Hf. unfold openavbAcmpSMListener_findInflightNodeFromCommand.
  rewrite (proj2 (list_find_Some (same_inflight c) (l ++ [f]) (length l) f)); [done|].
  split_and!; [by rewrite lookup_app_r, Nat.sub_diag|done|].
  intros j y Hj Hlt. rewrite lookup_app_l in Hj by done. by eapply Forall_lookup_1 in Hl.
Qed.

Lemma delete_snoc {A} (l : list A) x : delete (length l) (l ++ [x]) = l.
Proof. induction l as [|y l IH]; cbn; [done|]. by f_equal. Qed.

(** The answer to the last command takes it out of flight and its number over. *)
Lemma answer_inflight_last c response mt st fl f e :
  inflight (ls e) = fl ++ [f] -> Forall (fun g => ~ same_inflight c g) fl -> same_inflight c f ->
  answer_inflight c response mt st e =
  Ok (tt, put_frame mt (set_sequence_id (original_sequence_id f) response) st (set_ls (set_inflight fl (ls e)) e)).
Proof.
  intros E Hl Hf. unfold answer_inflight. rewrite run_inflight, E, find_inflight_last by done. cbn [mbind option_bind].
  rewrite list_lookup_middle by done. cbv zeta iota. unfold openavbAcmpSMListener_removeInflight. rewrite run_assoc, run_inflight, E, find_inflight_last by done.
  rewrite delete_snoc. rewrite run_put_inflight. done.
Qed.

Context (Hlen : forall l, length (memcpy_down l) = length l).

(** The flags of the response: it says when the connection was saved. *)
Definition saves_connection (e : entity) (c : acmp_cmd) : bool := bFastConnectSupported e && (Z.land (flags c) FLAG_STREAMING_WAIT =? 0).

Definition saved_response (e : entity) (c : acmp_cmd) : acmp_cmd :=
  if saves_connection e c then set_flags_of (Z.lor (flags c) FLAG_SAVED_STATE) c else c.

(** What remembering a connection changes. *)
Lemma remember_connection_effect e c d h : has_client e d h -> inputs e !! Z.to_nat (listener_unique_id c) = Some d ->
  save_room MAX_SAVED_STATES (saves e) ->
  exists d' sv, remember_connection io memcpy_down c c e =
    Ok (saved_response e c, set_inputs (<[Z.to_nat (listener_unique_id c) := d']> (inputs e)) (set_saves sv e)) /\
    save_room MAX_SAVED_STATES sv /\ io_stream d' = io_stream d /\ acmp_stream_id d' = stream_id c /\ acmp_dest_addr d' = stream_dest_mac c.
Proof.
  intros (k & g & st & Hk & Hg & Hcl) Hd Hr. unfold remember_connection, saved_response. rewrite run_get_input, Hd.
  unfold stream_name, stream_of. rewrite Hk. rewrite !run_assoc, run_get, Hg. rewrite !run_ret. cbn [fmap option_fmap option_map].
  rewrite run_get. unfold saves_connection. destruct (bFastConnectSupported e) eqn:Hb; cbn [andb].
  2: { rewrite run_ret, run_put_input. eexists _, (saves e). split; [cbn; destruct e; done|done]. }
  destruct (Z.land (flags c) FLAG_STREAMING_WAIT =? 0) eqn:Hw.
  2: { rewrite run_ret, run_put_input. eexists _, (saves e). split; [cbn; destruct e; done|done]. }
  unfold on_saves. rewrite !run_assoc, run_get.
  pose proof (save_bounded io memcpy_down Hlen (fun _ => False)
    (mkSaved (friendly_name g) (saved_flags c) (talker_unique_id c) (talker_entity_id c) (controller_entity_id c)) _ Hr) as Hs.
  apply wp_returns in Hs as (b & sv & Hs & -> & Hr').
  rewrite run_assoc. unfold lift at 1. unfold mbind at 1, M_bind at 1. rewrite Hs. exec.
  eexists _, sv. split; [destruct e; cbn in *; done|]. by destruct (fast_connect_status d).
Qed.

Lemma turn_connect_tx_response e infos fl f c d h i :
  (forall n, answer n = true) -> save_room MAX_SAVED_STATES (saves e) ->
  ls e = mkListener infos (fl ++ [f]) c false false true false false 1 false true ->
  listener_entity_id c = my_id e -> status c = STATUS_SUCCESS ->
  Forall (fun g => ~ same_inflight c g) fl -> same_inflight c f ->
  inputs e !! Z.to_nat (listener_unique_id c) = Some d -> has_client e d h ->
  infos !! Z.to_nat (listener_unique_id c) = Some i ->
  exists e', openavbAcmpSMListener_turn answer realtime io memcpy_down e = Ok (tt, e') /\
    ls e' = listener_idle (<[Z.to_nat (listener_unique_id c) := connection_of c]> infos) fl c /\
    out e' = out e ++ [listener_stream h (connection_of c); ChangeRequest h true;
      Frame (acmp_frame CONNECT_RX_RESPONSE (set_sequence_id (original_sequence_id f) (saved_response e c)) STATUS_SUCCESS)] /\
    tk e' = tk e /\ my_id e' = my_id e /\ save_room MAX_SAVED_STATES (saves e').
Proof.
  intros Ha Hr El Hid Hst Hfl Hf Hd Hcli Hi.
  pose proof Hcli as (k & g & st & Hk & Hg & Hcl).
  destruct e as [me fast ins outs cf ot na nc sv sq tkv lsv]. cbn in *. subst lsv.
  unfold openavbAcmpSMListener_turn. exec. rewrite bool_decide_true by done.
  unfold l_connect_tx_response, openavbAcmpSMListener_validListenerUnique. exec. rewrite Hd. exec. rewrite Hst. cbn.
  unfold openavbAcmpSMListener_connectListener. exec. rewrite Hi. exec. rewrite Hd.
  unfold openavbAVDECCRunListener, stream_of. exec. rewrite Hk. exec. rewrite Hg. exec. rewrite Hcl. exec. rewrite Ha. exec.
  unfold openavbAvdeccMsgSrvrChangeRequest. exec. rewrite Ha. exec.
  match goal with |- context [(remember_connection _ _ _ _ ≫= _) ?E] => set (e1 := E) end.
  destruct (remember_connection_effect e1 c d h) as (d' & sv' & He & Hr' & _); [by exists k, g, st|done|done|].
  rewrite (run_Ok _ _ _ _ _ He).
  rewrite (run_Ok _ _ _ tt _ (answer_inflight_last c _ _ _ fl f (set_inputs _ (set_saves sv' e1)) eq_refl Hfl Hf)).
  eexists. split; [done|]. split_and!; [done|by cbn; rewrite <- !app_assoc|done..].
Qed.

(** ** Timeouts *)

Definition nsec_of (t : timespec) : Z := tv_sec t * NANOSECONDS_PER_SECOND + tv_nsec t.
Definition good_time (t : timespec) : Prop := 0 <= tv_nsec t < NANOSECONDS_PER_SECOND.

Lemma timespec_cmp_ns a b : good_time a -> good_time b -> 0 <= openavbTimeTimespecCmp a b <-> nsec_of b <= nsec_of a.
Proof. unfold good_time, nsec_of, openavbTimeTimespecCmp, NANOSECONDS_PER_SECOND. intros. repeat case_match; lia. Qed.

Lemma deadline_ns t mt : good_time t -> good_time (deadline t mt) /\ nsec_of (deadline t mt) = nsec_of t + command_timeout mt * 1000000.
Proof.
  unfold deadline, openavbTimeTimespecAddUsec, nsec_of, good_time, NANOSECONDS_PER_SECOND, NANOSECONDS_PER_USEC, MICROSECONDS_PER_SECOND, MICROSECONDS_PER_MSEC.
  intros H. assert (0 <= command_timeout mt) as Hc by (unfold command_timeout; repeat case_match; done).
  set (us := command_timeout mt * 1000) in *.
  pose proof (Z.div_mod us 1000000 ltac:(lia)). pose proof (Z.mod_pos_bound us 1000000 ltac:(lia)).
  destruct (Z.ltb_spec 0 (us mod 1000000)); cbn [tv_sec tv_nsec]; [|lia].
  set (x := tv_nsec t + us mod 1000000 * 1000) in *.
  pose proof (Z.div_mod x 1000000000 ltac:(lia)). pose proof (Z.mod_pos_bound x 1000000000 ltac:(lia)). lia.
Qed.

Lemma timed_out_ns t mt now b c q : good_time t -> good_time now ->
  timed_out now (mkInflight (deadline t mt) b c q) <-> nsec_of t + command_timeout mt * 1000000 <= nsec_of now.
Proof.
  intros Ht Hn. destruct (deadline_ns t mt Ht) as [Hd He]. unfold timed_out. cbn [timer].
  rewrite timespec_cmp_ns by done. by rewrite He.
Qed.

Lemma find_timed_out now l f : Forall (fun g => ~ timed_out now g) l -> timed_out now f ->
  list_find (timed_out now) (l ++ [f]) = Some (length l, f).
Proof.
  intros Hl Hf. apply list_find_Some. split_and!; [by rewrite lookup_app_r, Nat.sub_diag|done|].
  intros j y Hj Hlt. rewrite lookup_app_l in Hj by done. by eapply Forall_lookup_1 in Hl.
Qed.

(** The commands a listener sends, how long it waits for their answers, and what it tells the
    controller when none comes. *)
Definition tx_command (mt : Z) : Prop := mt = CONNECT_TX_COMMAND \/ mt = DISCONNECT_TX_COMMAND.

Definition patience_ns (mt : Z) : Z := if mt =? CONNECT_TX_COMMAND then 2000000000 else 200000000.

Definition fast_attempt (mt : Z) (c : acmp_cmd) : bool := (mt =? CONNECT_TX_COMMAND) && negb (Z.land (flags c) FLAG_FAST_CONNECT =? 0).

Definition gives_up (mt : Z) (c : acmp_cmd) (q : Z) : list acmp_out :=
  if fast_attempt mt c then []
  else [Frame (acmp_frame (if mt =? CONNECT_TX_COMMAND then CONNECT_RX_RESPONSE else DISCONNECT_RX_RESPONSE)
    (set_sequence_id q c) STATUS_LISTENER_TALKER_TIMEOUT)].

(** A fast connect that nobody answers is noted in the descriptor of the input. *)
Definition after_attempt (mt : Z) (c : acmp_cmd) (ins : list stream_io) : list stream_io :=
  if fast_attempt mt c then
    match ins !! Z.to_nat (listener_unique_id c) with
    | Some d => if bool_decide (fast_connect_status d = FcInProgress) then <[Z.to_nat (listener_unique_id c) := set_fast_status FcTimedOut d]> ins else ins
    | None => ins
    end
  else ins.

(** What there is to know of an entity whose listener runs: the connections and the commands
    in flight, the descriptors, the readings of the clock, and what was put out. *)
Record runs (e : entity) (infos : list listener_info) (fl : list inflight_cmd) (ins : list stream_io) (k : nat) (o : list acmp_out) : Prop := {
  ru_on : l_bRunning (ls e) = true;
  ru_infos : listenerStreamInfos (ls e) = infos;
  ru_flight : inflight (ls e) = fl;
  ru_inputs : inputs e = ins;
  ru_clock : clock_asked e = k;
  ru_out : out e = o
}.

Lemma due_ns t mt now b c q : tx_command mt -> good_time t -> good_time now ->
  timed_out now (mkInflight (deadline t mt) b c q) <-> nsec_of t + patience_ns mt <= nsec_of now.
Proof. intros [-> | ->] Ht Hn; rewrite timed_out_ns by done; done. Qed.

(** Sending: the command is noted with its deadline. *)
Lemma sent_runs mt c e infos fl ins k o : answer (asked e) = true -> runs e infos fl ins k o ->
  exists e', openavbAcmpSMListener_txCommand answer realtime mt c false e = Ok (tt, e') /\
    runs e' infos (fl ++ [mkInflight (deadline (realtime k) mt) false (set_message_type mt c) (sequence_id c)]) ins (S k)
      (o ++ [Frame (acmp_frame mt c STATUS_SUCCESS)]).
Proof.
  intros Ha []. destruct e as [me fast ins' outs cf ot na nc sv sq tkv lsv]. cbn in *. subst.
  unfold openavbAcmpSMListener_txCommand. exec. rewrite Ha. exec. eexists. split; [done|]. by constructor.
Qed.

(** Before anything is due only the clock is read. *)
Lemma early_runs e infos fl ins k o : runs e infos fl ins k o -> Forall (fun g => ~ timed_out (realtime k) g) fl ->
  exists e', openavbAcmpSMListener_timeout answer realtime e = Ok (tt, e') /\ runs e' infos fl ins (S k) o.
Proof.
  intros [] Hfl. destruct e as [me fast ins' outs cf ot na nc sv sq tkv lsv]. cbn in *. subst.
  unfold openavbAcmpSMListener_timeout. exec. rewrite ru_on0. exec. rewrite (proj2 (list_find_None (timed_out _) _) Hfl).
  eexists. split; [done|]. by constructor.
Qed.

(** The last command in flight is due, and the only one: it is sent again. *)
Lemma retry_runs e infos fl ins k o t mt c q : tx_command mt -> message_type c = mt ->
  runs e infos (fl ++ [mkInflight t false c q]) ins k o ->
  Forall (fun g => ~ timed_out (realtime k) g) fl -> timed_out (realtime k) (mkInflight t false c q) ->
  Forall (fun g => ~ same_inflight c g) fl ->
  exists e', openavbAcmpSMListener_timeout answer realtime e = Ok (tt, e') /\
    runs e' infos (fl ++ [mkInflight (deadline (realtime (S k)) mt) true c q]) ins (S (S k)) (o ++ [Frame (acmp_frame mt c STATUS_SUCCESS)]).
Proof.
  intros Hmt Hc [] Hfl Hf Hs. destruct e as [me fast ins' outs cf ot na nc sv sq tkv lsv]. cbn in *. subst ins' ot nc infos.
  unfold openavbAcmpSMListener_timeout. exec. rewrite ru_on0. exec. rewrite ru_flight0, find_timed_out by done. cbn [command].
  destruct Hmt as [-> | ->]; rewrite Hc; cbn [Z.eqb CONNECT_TX_COMMAND DISCONNECT_TX_COMMAND];
    [unfold l_connect_tx_timeout|unfold l_disconnect_tx_timeout];
    cbn [retried command]; unfold openavbAcmpSMListener_txCommand; exec; rewrite ru_flight0, find_inflight_last by done; exec;
    rewrite alter_app_r_alt by done; rewrite Nat.sub_diag; (eexists; split; [done|]); by constructor.
Qed.

(** A second time: the controller is told, or the fast connect noted. *)
Lemma gives_up_runs e infos fl ins k o t mt c q : tx_command mt -> message_type c = mt ->
  runs e infos (fl ++ [mkInflight t true c q]) ins k o ->
  Forall (fun g => ~ timed_out (realtime k) g) fl -> timed_out (realtime k) (mkInflight t true c q) ->
  Forall (fun g => ~ same_inflight c g) fl ->
  exists e', openavbAcmpSMListener_timeout answer realtime e = Ok (tt, e') /\
    runs e' infos fl (after_attempt mt c ins) (S k) (o ++ gives_up mt c q).
Proof.
  intros Hmt Hc [] Hfl Hf Hs. destruct e as [me fast ins' outs cf ot na nc sv sq tkv lsv]. cbn in *. subst ins' ot nc infos.
  unfold openavbAcmpSMListener_timeout. exec. rewrite ru_on0. exec. rewrite ru_flight0, find_timed_out by done. cbn [command].
  unfold gives_up, after_attempt, fast_attempt.
  destruct Hmt as [-> | ->]; rewrite Hc; cbn [Z.eqb CONNECT_TX_COMMAND DISCONNECT_TX_COMMAND andb].
  - unfold l_connect_tx_timeout. cbn [retried command]. destruct (Z.land (flags c) FLAG_FAST_CONNECT =? 0); cbn [negb];
      unfold openavbAcmpSMListener_removeInflight; exec.
    + rewrite ru_flight0, find_inflight_last by done. exec. rewrite delete_snoc. eexists. split; [done|]. by constructor.
    + rewrite app_nil_r. destruct (ins !! _) as [d|]; [case_bool_decide|]; exec; rewrite ru_flight0, find_inflight_last by done; exec;
        rewrite delete_snoc; (eexists; split; [done|]); by constructor.
  - unfold l_disconnect_tx_timeout. cbn [retried command]. unfold openavbAcmpSMListener_removeInflight. exec.
    rewrite ru_flight0, find_inflight_last by done. exec. rewrite delete_snoc. eexists. split; [done|]. by constructor.
Qed.

(** ** Sequences of events *)

Lemma acmp_run_app a b e e' : acmp_run answer realtime io memcpy_down a e = Ok (tt, e') ->
  acmp_run answer realtime io memcpy_down (a ++ b) e = acmp_run answer realtime io memcpy_down b e'.
Proof.
  revert e. induction a as [|ev a IH]; intros e; cbn [acmp_run app]; [by intros [= ->]|].
  unfold mbind, M_bind. destruct (acmp_step _ _ _ _ ev e) as [[[] e1]|f]; [apply IH|done].
Qed.

Lemma acmp_run_cons ev b e e' : acmp_step answer realtime io memcpy_down ev e = Ok (tt, e') ->
  acmp_run answer realtime io memcpy_down (ev :: b) e = acmp_run answer realtime io memcpy_down b e'.
Proof. intros H. cbn [acmp_run]. by rewrite (run_Ok _ _ _ _ _ H). Qed.

End Turns.
