(* ===== verification/AcmpInvariant.v ===== *)
(** * What holds whatever arrives

    An invariant of an entity, kept by every event: any frame, turns and timeouts in any
    order, any answers of clients, memory, clock and file system. *)

From S2P Require Import Prelude AvtpTime SavedState SavedTheory AcmpEntity AcmpTalker AcmpListener AcmpTheory.

Open Scope Z_scope.
Local Abbreviation length := List.length.
Local Abbreviation get := Prelude.get.

(** The register of a talker: a listener is in it once, and the count is its length. *)
Record register_ok (i : talker_info) : Prop := mkRegistered {
  rg_count : ti_count i = u16 (Z.of_nat (length (connected_listeners i)));
  rg_once : NoDup (connected_listeners i)
}.

(** The pointer to the configuration is good; there are [n] of them. *)
Definition stream_ptr_ok (n : nat) (d : stream_io) : Prop := match io_stream d with Some k => (k < n)%nat | None => True end.

Definition inflight_ok (f : inflight_cmd) : Prop :=
  (message_type (command f) = CONNECT_TX_COMMAND \/ message_type (command f) = DISCONNECT_TX_COMMAND) /\
  original_sequence_id f = sequence_id (command f).

Record acmp_inv (n : nat) (e : entity) : Prop := mkAcmpInv {
  ai_cfgs : length (cfgs e) = n;
  ai_inputs : Forall (stream_ptr_ok n) (inputs e);
  ai_outputs : Forall (stream_ptr_ok n) (outputs e);
  ai_talkers : Forall register_ok (talkerStreamInfos (tk e));
  ai_inflight : Forall inflight_ok (inflight (ls e));
  ai_saves : save_room MAX_SAVED_STATES (saves e)
}.

(** A stream for which a command waits is the stream [sid]. *)
Definition awaits (sid : nat) (e : entity) : Prop :=
  exists k i d response, talkerStreamInfos (tk e) !! k = Some i /\ waiting_on_talker i = Some response /\
    outputs e !! k = Some d /\ io_stream d = Some sid.

(** What can go wrong, event by event: a frame shorter than its fields is read beyond its
    end; the client of a stream that is waited for reports no address, and the search does
    not end; the thread stays in a DISCONNECT_TX_RESPONSE for an input that is not there. *)
Inductive acmp_fault (e : entity) : acmp_event -> fault -> Prop :=
  | short_frame pdu : (length pdu < 70)%nat -> openavbAcmpMessageRxFrameReceive pdu = Fault OutOfBounds ->
      acmp_fault e (FrameIn pdu) OutOfBounds
  | no_address sid r : r_dest r = zeros 6 -> awaits sid e -> acmp_fault e (ClientReport sid r) FuelExhausted
  | unknown_input : rcvdDisconnectTXResp (ls e) = true -> listener_entity_id (l_mail (ls e)) = my_id e ->
      inputs e !! Z.to_nat (listener_unique_id (l_mail (ls e))) = None ->
      acmp_fault e ListenerTurn FuelExhausted.

Section Invariant.
Context (answer : nat -> bool) (realtime : nat -> timespec).
Context (io : nat -> bool) (memcpy_down : list saved_state -> list saved_state).
Context (Hlen : forall l, length (memcpy_down l) = length l) (T : fault -> Prop) (n : nat).

(** The computation keeps the invariant, its result satisfies [P] and its faults [T]. *)
Definition acmp_keeps {A} (P : A -> Prop) (m : M entity A) : Prop :=
  forall e, acmp_inv n e -> wp T m (fun a e' => acmp_inv n e' /\ P a) e.

Definition anything {A} (_ : A) : Prop := True.

Lemma keeps_ret {A} (P : A -> Prop) a : P a -> acmp_keeps P (mret a).
Proof. intros Ha e He. by apply (wp_ret T). Qed.

Lemma keeps_bind {A B} (P : A -> Prop) (Q : B -> Prop) m f : acmp_keeps P m -> (forall a, P a -> acmp_keeps Q (f a)) -> acmp_keeps Q (m ≫= f).
Proof. intros Hm Hf e He. eapply wp_step; [by apply Hm|]. cbv beta. intros a e' [He' Ha]. by apply Hf. Qed.

Lemma keeps_weaken {A} (P Q : A -> Prop) m : (forall a, P a -> Q a) -> acmp_keeps P m -> acmp_keeps Q m.
Proof. intros HPQ Hm e He. eapply wp_mono; [by apply Hm|]. cbv beta. naive_solver. Qed.

Lemma keeps_any {A} (P : A -> Prop) (m : M entity A) : acmp_keeps P m -> acmp_keeps anything m.
Proof. by apply keeps_weaken. Qed.

Lemma keeps_get {A} (P : A -> Prop) f : (forall e, acmp_inv n e -> acmp_keeps P (f e)) -> acmp_keeps P (get ≫= f).
Proof. intros Hf e He. apply wp_bind, wp_get. by apply Hf. Qed.

Lemma keeps_modify f : (forall e, acmp_inv n e -> acmp_inv n (f e)) -> acmp_keeps anything (modify f).
Proof. intros Hf e He. apply wp_modify. split; [by apply Hf|done]. Qed.

Lemma keeps_put e : acmp_inv n e -> acmp_keeps anything (put e).
Proof. intros He e0 _. by apply wp_put. Qed.

(** ** The accessors *)

Lemma keeps_ask : acmp_keeps anything (ask answer).
Proof. intros e He. apply wp_bind, wp_get, wp_bind, wp_put, (wp_ret T). split; [by destruct He|done]. Qed.

Lemma keeps_clock : acmp_keeps anything (clock_now realtime).
Proof. intros e He. apply wp_bind, wp_get, wp_bind, wp_put, (wp_ret T). split; [by destruct He|done]. Qed.

Lemma keeps_emit o : acmp_keeps anything (acmp_emit o).
Proof. apply keeps_modify. by intros e []. Qed.

Lemma keeps_send mt c st : acmp_keeps anything (openavbAcmpMessageSend mt c st).
Proof. unfold openavbAcmpMessageSend. eapply keeps_bind; [apply keeps_emit|]. intros. by apply keeps_ret. Qed.

Lemma keeps_t_tx mt c st : acmp_keeps anything (openavbAcmpSMTalker_txResponse mt c st).
Proof. unfold openavbAcmpSMTalker_txResponse. eapply keeps_bind; [apply keeps_send|]. intros. by apply keeps_ret. Qed.

Lemma keeps_l_tx mt c st : acmp_keeps anything (openavbAcmpSMListener_txResponse mt c st).
Proof. unfold openavbAcmpSMListener_txResponse. eapply keeps_bind; [apply keeps_send|]. intros. by apply keeps_ret. Qed.

Definition good_stream (o : option stream_io) : Prop := match o with Some d => stream_ptr_ok n d | None => True end.
Definition good_info (o : option talker_info) : Prop := match o with Some i => register_ok i | None => True end.

Lemma Forall_opt {A} (P : A -> Prop) l k : Forall P l -> match l !! k with Some x => P x | None => True end.
Proof. intros H. destruct (l !! k) eqn:E; [|done]. by eapply Forall_lookup_1. Qed.

Lemma keeps_get_output id : acmp_keeps good_stream (get_output id).
Proof. apply keeps_get. intros e He. apply keeps_ret. apply Forall_opt, He. Qed.

Lemma keeps_get_input id : acmp_keeps good_stream (get_input id).
Proof. apply keeps_get. intros e He. apply keeps_ret. apply Forall_opt, He. Qed.

Lemma keeps_talker_info id : acmp_keeps good_info (get_talker_info id).
Proof. apply keeps_get. intros e He. apply keeps_ret. apply Forall_opt, He. Qed.

Lemma keeps_listener_info id : acmp_keeps anything (get_listener_info id).
Proof. apply keeps_get. intros e He. by apply keeps_ret. Qed.

Lemma keeps_put_talker id i : register_ok i -> acmp_keeps anything (put_talker_info id i).
Proof. intros Hi. apply keeps_modify. intros e []. split; cbn; try done. by apply Forall_insert. Qed.

Lemma keeps_put_listener id i : acmp_keeps anything (put_listener_info id i).
Proof. apply keeps_modify. by intros e []. Qed.

Lemma keeps_put_input id d : stream_ptr_ok n d -> acmp_keeps anything (put_input id d).
Proof. intros Hd. apply keeps_modify. intros e []. split; cbn; try done. by apply Forall_insert. Qed.

Lemma keeps_get_inflight : acmp_keeps (Forall inflight_ok) get_inflight.
Proof. intros e He. apply wp_gets. split; [done|apply He]. Qed.

Lemma keeps_put_inflight l : Forall inflight_ok l -> acmp_keeps anything (put_inflight l).
Proof. intros Hl. apply keeps_modify. intros e []. by split. Qed.

Lemma keeps_stream_of d : stream_ptr_ok n d -> acmp_keeps anything (stream_of d).
Proof.
  intros Hd. unfold stream_of, stream_ptr_ok in *. destruct (io_stream d) as [k|]; [|by apply keeps_ret].
  apply keeps_get. intros e He. destruct (lookup_lt_is_Some_2 (cfgs e) k) as [g ->]; [|by apply keeps_ret].
  by rewrite (ai_cfgs _ _ He).
Qed.

Lemma keeps_change h run : acmp_keeps anything (openavbAvdeccMsgSrvrChangeRequest answer h run).
Proof.
  unfold openavbAvdeccMsgSrvrChangeRequest. eapply keeps_bind; [apply keeps_ask|]. intros [] _; [|by apply keeps_ret].
  eapply keeps_bind; [apply keeps_emit|]. intros. by apply keeps_ret.
Qed.

Lemma keeps_run_talker d : stream_ptr_ok n d -> acmp_keeps anything (openavbAVDECCRunTalker answer d).
Proof.
  intros Hd. unfold openavbAVDECCRunTalker. eapply keeps_bind; [by apply keeps_stream_of|]. intros s _.
  destruct (s ≫= tl_client); [apply keeps_change|by apply keeps_ret].
Qed.

Lemma keeps_stop d : stream_ptr_ok n d -> acmp_keeps anything (openavbAVDECCStop answer d).
Proof.
  intros Hd. unfold openavbAVDECCStop. eapply keeps_bind; [by apply keeps_stream_of|]. intros s _.
  destruct (s ≫= tl_client) as [c|]; [|by apply keeps_ret]. destruct (reported_stopped c); [by apply keeps_ret|apply keeps_change].
Qed.

Lemma keeps_run_listener d i : stream_ptr_ok n d -> acmp_keeps anything (openavbAVDECCRunListener answer d i).
Proof.
  intros Hd. unfold openavbAVDECCRunListener. eapply keeps_bind; [by apply keeps_stream_of|]. intros s _.
  destruct (s ≫= tl_client) as [c|]; [|by apply keeps_ret]. eapply keeps_bind; [apply keeps_ask|]. intros [] _; cbn [negb]; [|by apply keeps_ret].
  eapply keeps_bind; [apply keeps_emit|]. intros. apply keeps_change.
Qed.

Lemma registered_stream sid mac vlan i : register_ok i -> register_ok (set_ti_stream sid mac vlan i).
Proof. by intros []. Qed.

Lemma keeps_talker_stream d i : stream_ptr_ok n d -> register_ok i -> acmp_keeps register_ok (openavbAVDECCGetTalkerStreamInfo d i).
Proof.
  intros Hd Hi. unfold openavbAVDECCGetTalkerStreamInfo. eapply keeps_bind; [by apply keeps_stream_of|]. intros s _.
  apply keeps_ret. destruct s; [|done]. repeat case_match; by try apply registered_stream.
Qed.

Lemma keeps_on_saves {A} (m : M save_store A) : (forall s, save_room MAX_SAVED_STATES s -> wp T m (fun _ => save_room MAX_SAVED_STATES) s) ->
  acmp_keeps anything (on_saves m).
Proof.
  intros Hm e He. unfold on_saves. apply wp_bind, wp_get. apply wp_bind. unfold lift.
  specialize (Hm _ (ai_saves _ _ He)). unfold wp in *. destruct (m (saves e)) as [[a s']|f]; [|done].
  split; [|done]. destruct He. by split.
Qed.

End Invariant.

Create HintDb acmp.
#[export] Hint Resolve keeps_ask keeps_clock keeps_emit keeps_send keeps_t_tx keeps_l_tx keeps_get_output keeps_get_input keeps_talker_info
  keeps_listener_info keeps_put_talker keeps_put_listener keeps_put_input keeps_get_inflight keeps_put_inflight keeps_stream_of keeps_change
  keeps_run_talker keeps_stop keeps_run_listener keeps_talker_stream : acmp.

#[export] Hint Constants Opaque : acmp.

(** Steps of a computation that keeps the invariant. *)
Ltac keep := repeat lazymatch goal with
  | |- acmp_keeps _ _ _ (mret _) => apply keeps_ret; exact I
  | |- acmp_keeps _ _ _ (get ≫= _) => apply keeps_get; intros
  | |- acmp_keeps _ _ _ (_ ≫= _) => eapply keeps_bind; [solve [eauto with acmp]|]; cbn beta; intros
  | |- acmp_keeps _ _ _ (match ?x with _ => _ end) => destruct x eqn:?
  | |- acmp_keeps _ _ _ _ => first [solve [eauto with acmp] | solve [eapply keeps_any; eauto with acmp]]
  end.

Section Machines.
Context (answer : nat -> bool) (realtime : nat -> timespec).
Context (io : nat -> bool) (memcpy_down : list saved_state -> list saved_state).
Context (Hlen : forall l, length (memcpy_down l) = length l) (T : fault -> Prop) (n : nat).

Abbreviation acmp_keeps := (acmp_keeps T n).

(** ** The talker *)

Lemma registered_join c i : register_ok i -> openavbAcmpSMTalker_findListenerPairNodeFromCommand c i = None ->
  register_ok (set_listeners (connected_listeners i ++ [pair_of c]) (u16 (ti_count i + 1)) i).
Proof.
  intros [H1 H2] Hf. split; cbn.
  - rewrite H1, length_app. cbn [length]. unfold u16. rewrite Zplus_mod_idemp_l. f_equal. lia.
  - apply NoDup_app. split_and!; [done| |apply NoDup_singleton].
    unfold openavbAcmpSMTalker_findListenerPairNodeFromCommand in Hf. destruct (list_find _ _) eqn:E; [done|].
    apply list_find_None in E. intros x Hx ->%list_elem_of_singleton. by eapply Forall_forall in E.
Qed.

Lemma registered_leave c i k : register_ok i -> openavbAcmpSMTalker_findListenerPairNodeFromCommand c i = Some k ->
  register_ok (set_listeners (delete k (connected_listeners i)) (u16 (ti_count i - 1)) i).
Proof.
  intros [H1 H2] Hf. unfold openavbAcmpSMTalker_findListenerPairNodeFromCommand in Hf.
  destruct (list_find _ _) as [[k' p]|] eqn:E; [|done]. cbn in Hf. simplify_eq. apply list_find_Some in E as (Hk & _ & _).
  split; cbn.
  - rewrite H1, length_delete by (by eexists). apply lookup_lt_Some in Hk. unfold u16. rewrite Zminus_mod_idemp_l. f_equal. lia.
  - eapply sublist_NoDup; [exact H2|apply sublist_delete].
Qed.

Lemma keeps_t_connectTalker c : acmp_keeps anything (openavbAcmpSMTalker_connectTalker answer c).
Proof.
  unfold openavbAcmpSMTalker_connectTalker. eapply keeps_bind; [apply keeps_talker_info|]. intros [i|] Hi; [|by apply keeps_ret].
  destruct (openavbAcmpSMTalker_findListenerPairNodeFromCommand c i) eqn:E; [keep|].
  pose proof (registered_join c i Hi E) as Hj. eapply keeps_bind; [eauto with acmp|]. intros [] _; cbn [negb]; [|by apply keeps_ret].
  eapply keeps_bind; [eauto with acmp|]. intros _ _. eapply keeps_bind; [eauto with acmp|]. intros [d|] Hd; [|by apply keeps_ret].
  eapply keeps_bind; [eauto with acmp|]. intros [] _; [|by apply keeps_ret].
  eapply (keeps_bind _ _ anything); [keep|]. intros [] _; [|by apply keeps_ret].
  eapply keeps_bind; [apply keeps_put_talker; by destruct Hj|]. intros. by apply keeps_ret.
Qed.

Lemma keeps_t_disconnectTalker c : acmp_keeps anything (openavbAcmpSMTalker_disconnectTalker answer c).
Proof.
  unfold openavbAcmpSMTalker_disconnectTalker. eapply keeps_bind; [apply keeps_talker_info|]. intros [i|] Hi; [|by apply keeps_ret].
  destruct (openavbAcmpSMTalker_findListenerPairNodeFromCommand c i) as [k|] eqn:E; [|keep].
  pose proof (registered_leave c i k Hi E) as Hj. eapply keeps_bind; [eauto with acmp|]. intros _ _.
  eapply keeps_bind; [eauto with acmp|]. intros [d|] Hd; [|by apply keeps_ret].
  eapply keeps_bind; [by apply keeps_talker_stream|]. intros i' Hi'. eapply keeps_bind; [by apply keeps_put_talker|]. intros _ _.
  eapply (keeps_bind _ _ anything); [keep|]. intros [] _; by apply keeps_ret.
Qed.

Lemma keeps_t_getState c : acmp_keeps anything (openavbAcmpSMTalker_getState c).
Proof.
  unfold openavbAcmpSMTalker_getState. eapply keeps_bind; [apply keeps_talker_info|]. intros [i|] Hi; [|by apply keeps_ret].
  eapply keeps_bind; [eauto with acmp|]. intros [d|] Hd; [|by apply keeps_ret].
  eapply keeps_bind; [by apply keeps_talker_stream|]. intros i' Hi'. eapply keeps_bind; [by apply keeps_put_talker|]. intros. by apply keeps_ret.
Qed.

Lemma keeps_t_getConnection c : acmp_keeps anything (openavbAcmpSMTalker_getConnection c).
Proof. unfold openavbAcmpSMTalker_getConnection. eapply keeps_bind; [apply keeps_talker_info|]. intros. by apply keeps_ret. Qed.

Lemma keeps_valid_talker id : acmp_keeps anything (openavbAcmpSMTalker_validTalkerUnique id).
Proof. unfold openavbAcmpSMTalker_validTalkerUnique. eapply keeps_bind; [apply keeps_get_output|]. intros. by apply keeps_ret. Qed.

Lemma keeps_t_connect c : acmp_keeps anything (t_connect answer c).
Proof.
  unfold t_connect. eapply keeps_bind; [apply keeps_valid_talker|]. intros [] _; cbn [negb]; [|apply keeps_t_tx].
  eapply keeps_bind; [apply keeps_t_connectTalker|]. intros r _. keep.
Qed.

Lemma keeps_t_answer f mt c : (forall c, acmp_keeps anything (f c)) -> acmp_keeps anything (t_answer_with f mt c).
Proof.
  intros Hf. unfold t_answer_with. eapply keeps_bind; [apply keeps_valid_talker|]. intros v _.
  eapply (keeps_bind _ _ anything); [destruct v; [apply Hf|by apply keeps_ret]|]. intros r _. apply keeps_t_tx.
Qed.

(** Changes of the variables of the talker other than its register. *)
Lemma inv_set_tk t e : acmp_inv n e -> talkerStreamInfos t = talkerStreamInfos (tk e) -> acmp_inv n (set_tk t e).
Proof. intros [] E. split; cbn; try done. by rewrite E. Qed.

Lemma inv_set_ls l e : acmp_inv n e -> inflight l = inflight (ls e) -> acmp_inv n (set_ls l e).
Proof. intros [] E. split; cbn; try done. by rewrite E. Qed.

Lemma keeps_set_flags_none : acmp_keeps anything set_flags_none.
Proof. apply keeps_modify. intros e He. by apply inv_set_tk. Qed.

Lemma keeps_talker_turn : acmp_keeps anything (openavbAcmpSMTalker_turn answer).
Proof.
  apply keeps_get. intros e He. cbv zeta. destruct (negb (t_bRunning (tk e)) || Nat.eqb (t_posted (tk e)) 0); [by apply keeps_ret|]. eapply keeps_bind; [apply keeps_put; by apply inv_set_tk|].
  intros _ _. destruct (t_doTerminate _); [apply keeps_put; by apply inv_set_tk|].
  case_bool_decide; [|by apply keeps_ret].
  repeat match goal with |- context [if ?b then _ else _] => destruct b end; try (by apply keeps_ret);
    (eapply keeps_bind; [|intros; apply keeps_set_flags_none]).
  - apply keeps_t_connect.
  - apply keeps_t_answer, keeps_t_disconnectTalker.
  - apply keeps_t_answer, keeps_t_getState.
  - apply keeps_t_answer, keeps_t_getConnection.
Qed.

(** The search ends before its fuel, unless it waits for an address. *)
Lemma keeps_update_loop fuel sid g e : addr_valid g = true -> dest_valid g = true -> acmp_inv n e ->
  (dest_addr g = zeros 6 -> awaits sid e -> T FuelExhausted) -> forall k,
  T FuelExhausted \/ (k <= length (talkerStreamInfos (tk e)) < fuel + k)%nat ->
  wp T (update_loop fuel sid g k) (fun _ e' => acmp_inv n e' /\ anything tt) e.
Proof.
  intros Hg Hdv He Hstall. induction fuel as [|fuel IH]; intros k Hk; cbn [update_loop]; [apply wp_raise; destruct Hk; [done|lia]|].
  apply wp_bind, wp_get. destruct (talkerStreamInfos (tk e) !! k) as [i|] eqn:Hi; [|by apply (wp_ret T)].
  assert (Hn : T FuelExhausted \/ (S k <= length (talkerStreamInfos (tk e)) < fuel + S k)%nat)
    by (apply lookup_lt_Some in Hi; destruct Hk; [by left|right; lia]).
  destruct (waiting_on_talker i) eqn:Hw; [|by apply IH]. destruct (outputs e !! k) as [d|] eqn:Hd; [|by apply IH].
  case_bool_decide as Hsid; [|by apply IH]. rewrite Hdv. cbn [negb orb].
  case_bool_decide as Hz; [apply IH; left; apply Hstall; [done|by exists k, i, d, a]|]. rewrite Hg. cbn [negb].
  assert (register_ok i) by (eapply Forall_lookup_1; [apply He|done]).
  assert (stream_ptr_ok n d) by (eapply Forall_lookup_1; [apply (ai_outputs _ _ He)|done]).
  revert e He Hstall IH Hk Hi Hn Hd. intros e He _ _ _ _ _ _. revert e He.
  eapply keeps_bind; [apply keeps_put_talker; by destruct (registered_stream (cfg_stream_id g) (dest_addr g) (cfg_vlan_id g) i)|].
  intros _ _. eapply (keeps_bind _ _ anything); [|intros; apply keeps_t_tx]. apply keeps_modify. intros e' []. split; cbn; try done.
  by apply Forall_insert.
Qed.

Lemma keeps_report sid r e : acmp_inv n e -> (r_dest r = zeros 6 -> awaits sid e -> T FuelExhausted) ->
  wp T (openavbAvdeccMsgSrvrHndlTalkerStreamIDFromClient sid r) (fun _ e' => acmp_inv n e' /\ anything tt) e.
Proof.
  intros He Hstall. unfold openavbAvdeccMsgSrvrHndlTalkerStreamIDFromClient. apply wp_bind, wp_get.
  destruct (cfgs e !! sid) as [g|]; [|by apply (wp_ret T)]. apply wp_bind, wp_put, wp_bind.
  eapply wp_mono; [|cbv beta; intros a e' He'; apply (wp_ret T); exact He'].
  apply wp_bind, wp_get. apply keeps_update_loop; try done.
  - destruct He. split; cbn; try done. by rewrite length_insert.
  - right. lia.
Qed.

(** ** The listener *)

Lemma keeps_valid_listener id : acmp_keeps anything (openavbAcmpSMListener_validListenerUnique id).
Proof. unfold openavbAcmpSMListener_validListenerUnique. eapply keeps_bind; [apply keeps_get_input|]. intros. by apply keeps_ret. Qed.

Lemma keeps_remove c : acmp_keeps anything (openavbAcmpSMListener_removeInflight c).
Proof.
  unfold openavbAcmpSMListener_removeInflight. eapply keeps_bind; [apply keeps_get_inflight|]. intros l Hl.
  destruct (openavbAcmpSMListener_findInflightNodeFromCommand c l); [|by apply keeps_ret].
  apply keeps_put_inflight. rewrite delete_take_drop. apply Forall_app. split; [by apply Forall_take|by apply Forall_drop].
Qed.

Lemma keeps_tx_command mt c retry : mt = CONNECT_TX_COMMAND \/ mt = DISCONNECT_TX_COMMAND ->
  acmp_keeps anything (openavbAcmpSMListener_txCommand answer realtime mt c retry).
Proof.
  intros Hmt. unfold openavbAcmpSMListener_txCommand. eapply keeps_bind; [apply keeps_send|]. intros [] _.
  - destruct retry; cbn [negb].
    + eapply keeps_bind; [apply keeps_get_inflight|]. intros l Hl.
      destruct (openavbAcmpSMListener_findInflightNodeFromCommand c l); [|by apply keeps_ret].
      eapply keeps_bind; [apply keeps_clock|]. intros now _. apply keeps_put_inflight.
      apply Forall_alter; [done|]. by intros f _ Hf.
    + eapply keeps_bind; [apply keeps_ask|]. intros [] _; [|by apply keeps_ret].
      eapply keeps_bind; [apply keeps_clock|]. intros now _. eapply keeps_bind; [apply keeps_get_inflight|]. intros l Hl.
      apply keeps_put_inflight, Forall_app. split; [done|]. constructor; [|done]. by split.
  - eapply keeps_bind; [apply keeps_l_tx|]. intros. destruct retry; [apply keeps_remove|by apply keeps_ret].
Qed.

Lemma keeps_connect_listener c : acmp_keeps anything (openavbAcmpSMListener_connectListener answer c).
Proof.
  unfold openavbAcmpSMListener_connectListener. eapply keeps_bind; [apply keeps_listener_info|]. intros [i|] _; [|by apply keeps_ret].
  eapply keeps_bind; [apply keeps_put_listener|]. intros _ _. eapply keeps_bind; [apply keeps_get_input|]. intros [d|] Hd; [|by apply keeps_ret].
  eapply keeps_bind; [by apply keeps_run_listener|]. intros. by apply keeps_ret.
Qed.

Lemma keeps_disconnect_listener c : acmp_keeps anything (openavbAcmpSMListener_disconnectListener answer c).
Proof.
  unfold openavbAcmpSMListener_disconnectListener. eapply keeps_bind; [apply keeps_listener_info|]. intros [i|] _; [|by apply keeps_ret].
  eapply keeps_bind; [apply keeps_get_input|]. intros d Hd. eapply (keeps_bind _ _ anything).
  - destruct d as [d|]; [|by apply keeps_ret]. eapply keeps_bind; [by apply keeps_stop|]. intros. by apply keeps_ret.
  - intros st _. eapply keeps_bind; [apply keeps_put_listener|]. intros. by apply keeps_ret.
Qed.

Lemma keeps_connect_rx c : acmp_keeps anything (l_connect_rx answer realtime c).
Proof.
  unfold l_connect_rx, openavbAcmpSMListener_listenerIsConnected. eapply keeps_bind; [apply keeps_valid_listener|]. intros [] _; [|apply keeps_l_tx].
  eapply (keeps_bind _ _ anything).
  - eapply keeps_bind; [apply keeps_listener_info|]. intros. by apply keeps_ret.
  - intros [] _; cbn [negb]; [apply keeps_l_tx|]. apply keeps_tx_command. by left.
Qed.

Lemma keeps_answer_inflight c r mt st : acmp_keeps anything (answer_inflight c r mt st).
Proof.
  unfold answer_inflight. eapply keeps_bind; [apply keeps_get_inflight|]. intros l Hl. cbv zeta.
  eapply keeps_bind; [apply keeps_remove|]. intros. apply keeps_l_tx.
Qed.

Lemma keeps_stream_name d : stream_ptr_ok n d -> acmp_keeps anything (stream_name d).
Proof. intros Hd. unfold stream_name. eapply keeps_bind; [by apply keeps_stream_of|]. intros. by apply keeps_ret. Qed.

Lemma keeps_remember c r : acmp_keeps anything (remember_connection io memcpy_down c r).
Proof.
  unfold remember_connection. eapply keeps_bind; [apply keeps_get_input|]. intros [d|] Hd; [|by apply keeps_ret].
  eapply keeps_bind; [by apply keeps_stream_name|]. intros [name|] _; [|by apply keeps_ret].
  apply keeps_get. intros e He. eapply (keeps_bind _ _ (fun p => stream_ptr_ok n p.2)).
  - destruct (bFastConnectSupported e) eqn:Hb; cbn [andb]; [|by apply keeps_ret].
    destruct (Z.land (flags c) FLAG_STREAMING_WAIT =? 0); [|by apply keeps_ret].
    eapply keeps_bind; [apply keeps_on_saves; intros s Hs; eapply wp_mono; [by apply save_bounded|]; by intros ? ? []|].
    intros b _. apply keeps_ret. by destruct (fast_connect_status d).
  - intros p Hp. eapply keeps_bind; [by apply keeps_put_input|]. intros. by apply keeps_ret.
Qed.

Lemma keeps_connect_tx_response c : acmp_keeps anything (l_connect_tx_response answer io memcpy_down c).
Proof.
  unfold l_connect_tx_response. eapply keeps_bind; [apply keeps_valid_listener|]. intros [] _; [|by apply keeps_ret].
  eapply (keeps_bind _ _ anything); [destruct (status c =? STATUS_SUCCESS); [apply keeps_connect_listener|by apply keeps_ret]|].
  intros st _. eapply (keeps_bind _ _ anything); [destruct (st =? STATUS_SUCCESS); [apply keeps_remember|by apply keeps_ret]|].
  intros r _. apply keeps_answer_inflight.
Qed.

Lemma keeps_l_get_state c : acmp_keeps anything (l_get_state c).
Proof.
  unfold l_get_state, openavbAcmpSMListener_getState. eapply keeps_bind; [apply keeps_valid_listener|]. intros v _.
  eapply (keeps_bind _ _ anything); [|intros; apply keeps_l_tx]. destruct v; [|by apply keeps_ret].
  eapply keeps_bind; [apply keeps_listener_info|]. intros. by apply keeps_ret.
Qed.

Lemma keeps_forget c : acmp_keeps anything (forget_connection io memcpy_down c).
Proof.
  unfold forget_connection. apply keeps_get. intros e He. destruct (bFastConnectSupported e); [|by apply keeps_ret].
  eapply keeps_bind; [apply keeps_get_input|]. intros [d|] Hd; [|by apply keeps_ret].
  eapply keeps_bind; [by apply keeps_stream_name|]. intros [name|] _; [|by apply keeps_ret].
  eapply keeps_bind; [by apply keeps_put_input|]. intros _ _.
  eapply keeps_bind; [apply keeps_on_saves; intros s Hs; by apply clear_bounded|]. intros. by apply keeps_ret.
Qed.

Lemma keeps_disconnect_rx c : acmp_keeps anything (l_disconnect_rx answer realtime io memcpy_down c).
Proof.
  unfold l_disconnect_rx. eapply keeps_bind; [apply keeps_valid_listener|]. intros [] _; [|apply keeps_l_tx].
  eapply keeps_bind; [apply keeps_disconnect_listener|]. intros st _. eapply (keeps_bind _ _ anything); [|intros; apply keeps_forget].
  destruct (st =? STATUS_SUCCESS); [apply keeps_tx_command; by right|apply keeps_l_tx].
Qed.

(** The state is left at once when the input is there. *)
Lemma keeps_disconnect_tx_response c e : acmp_inv n e ->
  (inputs e !! Z.to_nat (listener_unique_id c) = None -> T FuelExhausted) ->
  wp T (stay_in 1 (l_disconnect_tx_response c)) (fun _ e' => acmp_inv n e' /\ anything tt) e.
Proof.
  intros He Hstall. cbn [stay_in]. unfold l_disconnect_tx_response, openavbAcmpSMListener_validListenerUnique, get_input.
  apply wp_bind, wp_bind, wp_bind, wp_bind, wp_get, (wp_ret T), (wp_ret T).
  unfold openavbAemGetDescriptor. destruct (inputs e !! _) as [d|]; cbv iota.
  - eapply wp_step; [by apply (keeps_answer_inflight c)|]. intros ? ? []. by apply (wp_ret T), (wp_ret T).
  - apply (wp_ret T). cbv iota. apply wp_raise. by apply Hstall.
Qed.

Lemma keeps_set_l_flags_none : acmp_keeps anything set_l_flags_none.
Proof. apply keeps_modify. intros e He. by apply inv_set_ls. Qed.

Lemma keeps_listener_turn e : acmp_inv n e ->
  (rcvdDisconnectTXResp (ls e) = true -> listener_entity_id (l_mail (ls e)) = my_id e ->
   inputs e !! Z.to_nat (listener_unique_id (l_mail (ls e))) = None -> T FuelExhausted) ->
  wp T (openavbAcmpSMListener_turn answer realtime io memcpy_down) (fun _ e' => acmp_inv n e' /\ anything tt) e.
Proof.
  intros He Hstall. unfold openavbAcmpSMListener_turn. apply wp_bind, wp_get. cbv zeta.
  destruct (negb (l_bRunning (ls e)) || Nat.eqb (l_posted (ls e)) 0); [by apply (wp_ret T)|].
  apply wp_bind, wp_put. destruct (l_doTerminate _); [apply wp_put; split; [by apply inv_set_ls|done]|].
  case_bool_decide as Hid; [|apply (wp_ret T); split; [by apply inv_set_ls|done]].
  assert (Hi : acmp_inv n (set_ls (set_l_posted (pred (l_posted (ls e))) (ls e)) e)) by by apply inv_set_ls.
  assert (Hthen : forall m : M entity unit, acmp_keeps anything m -> wp T (m ;; set_l_flags_none) (fun _ e' => acmp_inv n e' /\ anything tt)
    (set_ls (set_l_posted (pred (l_posted (ls e))) (ls e)) e)).
  { intros m Hm. eapply wp_step; [by apply Hm|]. intros ? ? []. by apply keeps_set_l_flags_none. }
  repeat match goal with |- context [if ?b then _ else _] => destruct b eqn:? end; try (by apply (wp_ret T)).
  - apply Hthen, keeps_connect_rx.
  - apply Hthen, keeps_connect_tx_response.
  - apply Hthen, keeps_l_get_state.
  - apply Hthen, keeps_disconnect_rx.
  - eapply wp_step; [apply keeps_disconnect_tx_response; [done|by apply Hstall]|]. intros ? ? []. by apply keeps_set_l_flags_none.
Qed.

Lemma keeps_connect_timeout f : acmp_keeps anything (l_connect_tx_timeout answer realtime f).
Proof.
  unfold l_connect_tx_timeout. destruct (retried f); [|apply keeps_tx_command; by left].
  destruct (negb _).
  - eapply keeps_bind; [apply keeps_get_input|]. intros d Hd. eapply (keeps_bind _ _ anything); [|intros; apply keeps_remove].
    destruct d as [d|]; [|by apply keeps_ret]. case_bool_decide; [by apply keeps_put_input|by apply keeps_ret].
  - eapply keeps_bind; [apply keeps_l_tx|]. intros. apply keeps_remove.
Qed.

Lemma keeps_disconnect_timeout f : acmp_keeps anything (l_disconnect_tx_timeout answer realtime f).
Proof.
  unfold l_disconnect_tx_timeout. destruct (retried f); [|apply keeps_tx_command; by right].
  eapply keeps_bind; [apply keeps_l_tx|]. intros. apply keeps_remove.
Qed.

Lemma keeps_listener_timeout : acmp_keeps anything (openavbAcmpSMListener_timeout answer realtime).
Proof.
  apply keeps_get. intros e He. destruct (negb _); [by apply keeps_ret|]. eapply keeps_bind; [apply keeps_clock|]. intros now _.
  eapply keeps_bind; [apply keeps_get_inflight|]. intros l Hl. destruct (list_find (timed_out now) l) as [[k f]|]; [|by apply keeps_ret].
  destruct (_ =? CONNECT_TX_COMMAND); [eapply keeps_bind; [apply keeps_connect_timeout|intros; apply keeps_set_l_flags_none]|].
  destruct (_ =? DISCONNECT_TX_COMMAND); [eapply keeps_bind; [apply keeps_disconnect_timeout|intros; apply keeps_set_l_flags_none]|].
  apply keeps_modify. intros e' He'. by apply inv_set_ls.
Qed.

(** ** Frames and fast connects *)

Lemma keeps_talker_set k c : acmp_keeps anything (openavbAcmpSMTalkerSet k c).
Proof. apply keeps_modify. intros e He. apply inv_set_tk; [done|]. by destruct k. Qed.

Lemma keeps_listener_set k c : acmp_keeps anything (openavbAcmpSMListenerSet k c).
Proof. apply keeps_modify. intros e He. apply inv_set_ls; [done|]. by destruct k. Qed.

(** A field that is not there ends the reading; a whole message has them all. *)
Definition whole_or_oob {A} (pdu : list Z) (m : outcome A) : Prop :=
  forall f, m = Fault f -> f = OutOfBounds /\ (length pdu < 70)%nat.

Lemma whole_read buf off k : (off + k <= 70)%nat -> whole_or_oob buf (read_bytes buf off k).
Proof. intros Hk f. unfold read_bytes. destruct (decide _); [done|]. intros [= <-]. split; [done|lia]. Qed.

Lemma whole_Ok {A} buf (a : A) : whole_or_oob buf (Ok a).
Proof. done. Qed.

Lemma whole_bind {A B} buf (m : outcome A) (g : A -> outcome B) : whole_or_oob buf m -> (forall a, whole_or_oob buf (g a)) -> whole_or_oob buf (m ≫= g).
Proof. intros Hm Hg f. destruct m as [a|f']; cbn; [apply Hg|]. intros [= <-]. by apply Hm. Qed.

Lemma receive_fault pdu : whole_or_oob pdu (openavbAcmpMessageRxFrameReceive pdu).
Proof.
  unfold openavbAcmpMessageRxFrameReceive, openavbAcmpMessageRxFrameParse, bit_b2dntohb, oct_b2dntohs.
  repeat (apply whole_Ok || (apply whole_read; cbn; lia) || (apply whole_bind; [|intros ?]) || case_match).
Qed.

Lemma keeps_receive pdu : ((length pdu < 70)%nat -> openavbAcmpMessageRxFrameReceive pdu = Fault OutOfBounds -> T OutOfBounds) ->
  acmp_keeps anything (acmp_receive pdu).
Proof.
  intros Hshort. unfold acmp_receive. eapply (keeps_bind _ _ anything).
  - intros e He. unfold wp, lift. destruct (openavbAcmpMessageRxFrameReceive pdu) as [r|f] eqn:E; [done|].
    destruct (receive_fault pdu f E) as [-> Hl]. by apply Hshort.
  - intros [[k c]|] _; [|by apply keeps_ret]. destruct k; (apply keeps_talker_set || apply keeps_listener_set || by apply keeps_ret).
Qed.

Definition good_found (r : option (nat * stream_io)) : Prop := match r with Some (_, d) => stream_ptr_ok n d | None => True end.

Lemma keeps_fast_input name k : forall id prev, good_stream n prev -> acmp_keeps good_found (fast_input k id prev name).
Proof.
  induction k as [|k IH]; intros id prev Hp; cbn [fast_input]; [apply keeps_ret; by destruct prev|].
  eapply keeps_bind; [apply keeps_get_input|]. intros [d|] Hd; [|by apply keeps_ret].
  eapply keeps_bind; [by apply keeps_stream_name|]. intros name' _. case_bool_decide; [by apply keeps_ret|by apply IH].
Qed.

Lemma keeps_do_fast name fl uid talker controller : acmp_keeps anything (openavbAcmpSMListenerSet_doFastConnect realtime name fl uid talker controller).
Proof.
  unfold openavbAcmpSMListenerSet_doFastConnect. eapply keeps_bind; [by apply keeps_fast_input|]. intros [[id d]|] Hd; [|by apply keeps_ret].
  apply keeps_get. intros e He. destruct (_ || _); [by apply keeps_ret|]. eapply keeps_bind; [apply keeps_clock|]. intros now _.
  eapply keeps_bind; [by apply keeps_put_input|]. intros _ _. apply keeps_get. intros e' He'. cbv zeta.
  eapply keeps_bind; [apply keeps_put; by destruct He'|]. intros. apply keeps_listener_set.
Qed.

Definition good_waiting (r : option (nat * stream_io * list Z)) : Prop := match r with Some (_, d, _) => stream_ptr_ok n d | None => True end.

Lemma keeps_waiting_input talker k : forall id, acmp_keeps good_waiting (waiting_input k id talker).
Proof.
  induction k as [|k IH]; intros id; cbn [waiting_input]; [by apply keeps_ret|].
  eapply keeps_bind; [apply keeps_get_input|]. intros [d|] Hd; [|by apply keeps_ret].
  eapply keeps_bind; [by apply keeps_stream_name|]. intros [name'|] _; [|by apply IH].
  destruct (_ && _); [by apply keeps_ret|by apply IH].
Qed.

Lemma keeps_talker_seen talker : acmp_keeps anything (openavbAcmpSMListenerSet_talkerTestFastConnect realtime io talker).
Proof.
  unfold openavbAcmpSMListenerSet_talkerTestFastConnect. eapply keeps_bind; [apply keeps_waiting_input|]. intros [[[id d] name]|] Hd; [|by apply keeps_ret].
  eapply keeps_bind; [apply keeps_clock|]. intros now _. destruct (_ <? 0); [by apply keeps_ret|]. apply keeps_get. intros e He.
  eapply keeps_bind; [apply keeps_on_saves; intros s Hs; by apply lookup_bounded|]. intros [x|] _; [|by apply keeps_put_input].
  case_bool_decide; [apply keeps_do_fast|by apply keeps_put_input].
Qed.

End Machines.

(** ** Every event *)

Section Events.
Context (answer : nat -> bool) (realtime : nat -> timespec).
Context (io : nat -> bool) (memcpy_down : list saved_state -> list saved_state).
Context (Hlen : forall l, length (memcpy_down l) = length l) (n : nat).

Abbreviation step := (acmp_step answer realtime io memcpy_down).
Abbreviation run := (acmp_run answer realtime io memcpy_down).

Lemma keeps_step ev e : acmp_inv n e -> wp (acmp_fault e ev) (step ev) (fun _ => acmp_inv n) e.
Proof.
  intros He. eapply (wp_mono _ _ (fun _ e' => acmp_inv n e' /\ anything tt)); [|by intros ? ? []].
  destruct ev; cbn [acmp_step].
  - apply (keeps_receive _ n); [intros; by constructor|done].
  - by apply keeps_talker_turn.
  - apply keeps_listener_turn; [done..|]. intros. by constructor.
  - by apply keeps_listener_timeout.
  - eapply wp_step; [apply keeps_report; [done|intros; by constructor]|]. cbv beta. intros _ e' He'. by apply (wp_ret (acmp_fault _ _)).
  - by apply keeps_do_fast.
  - by apply keeps_talker_seen.
  - eapply (keeps_modify _ n); [|done]. intros e0 He0. by apply inv_set_tk.
  - eapply (keeps_modify _ n); [|done]. intros e0 He0. by apply inv_set_ls.
Qed.

(** A run keeps the invariant, or stops at an event for one of the known reasons. *)
Lemma keeps_run evs : forall e, acmp_inv n e ->
  match run evs e with
  | Ok (_, e') => acmp_inv n e'
  | Fault f => exists before ev after e', evs = before ++ ev :: after /\ run before e = Ok (tt, e') /\ acmp_fault e' ev f
  end.
Proof.
  induction evs as [|ev evs IH]; intros e He; cbn [acmp_run]; [done|].
  pose proof (keeps_step ev e He) as Hs. unfold wp, mbind, M_bind in *. destruct (step ev e) as [[[] e1]|f] eqn:E.
  - specialize (IH e1 Hs). destruct (run evs e1) as [[u e']|f]; [done|].
    destruct IH as (before & ev' & after & e' & -> & Hr & Hf). exists (ev :: before), ev', after, e'. split_and!; [done| |done].
    cbn [acmp_run]. unfold mbind, M_bind. by rewrite E.
  - by exists [], ev, evs, e.
Qed.

End Events.

(** A fresh entity. *)
Lemma start_inv id fast ins outs streams store : Forall (stream_ptr_ok (length streams)) ins -> Forall (stream_ptr_ok (length streams)) outs ->
  save_room MAX_SAVED_STATES store -> acmp_inv (length streams) (openavbAcmpStart id fast ins outs streams store).
Proof.
  intros Hi Ho Hs. split; cbn; try done. apply Forall_replicate. split; cbn; [done|constructor].
Qed.
