(* ===== verification/AcmpCorrect.v ===== *)
(** * Properties of the connection management

    A connection is made by frames that go to and fro; a command nobody answers is retried
    once and then given up, each at its deadline; the register of listeners that a talker keeps is consistent
    whatever arrives; and what goes wrong. *)

From S2P Require Import Prelude AvtpTime SavedState SavedTheory AcmpEntity AcmpTalker AcmpListener AcmpTheory AcmpInvariant.

Open Scope Z_scope.
Local Abbreviation length := List.length.
Local Abbreviation get := Prelude.get.

(** ** A connection *)

Section Exchange.
Context (answer : nat -> bool) (realtime : nat -> timespec).
Context (io : nat -> bool) (memcpy_down : list saved_state -> list saved_state).

Definition on_listener {A} (m : M entity A) : M (entity * entity) A := fun '(l, t) =>
  match m l with Ok (a, l') => Ok (a, (l', t)) | Fault f => Fault f end.
Definition on_talker {A} (m : M entity A) : M (entity * entity) A := fun '(l, t) =>
  match m t with Ok (a, t') => Ok (a, (l, t')) | Fault f => Fault f end.

(** A controller asks the listener to connect; the result is what it gets back.  Between
    the frames the client of the talker reports its stream. *)
Definition connect_exchange (c : acmp_cmd) (sid : nat) (g : stream_report) : M (entity * entity) (list Z) :=
  on_listener (acmp_run answer realtime io memcpy_down [FrameIn (acmp_frame CONNECT_RX_COMMAND c STATUS_SUCCESS); ListenerTurn]);;
  f ← on_listener (gets last_frame);
  on_talker (acmp_run answer realtime io memcpy_down [FrameIn f; TalkerTurn; ClientReport sid g]);;
  f ← on_talker (gets last_frame);
  on_listener (acmp_run answer realtime io memcpy_down [FrameIn f; ListenerTurn]);;
  on_listener (gets last_frame).

Lemma run_on_listener {A B} (m : M entity A) (f : A -> M (entity * entity) B) l t a l' :
  m l = Ok (a, l') -> (on_listener m ≫= f) (l, t) = f a (l', t).
Proof. intros H. unfold mbind, M_bind, on_listener. by rewrite H. Qed.
Lemma run_on_talker {A B} (m : M entity A) (f : A -> M (entity * entity) B) l t a t' :
  m t = Ok (a, t') -> (on_talker m ≫= f) (l, t) = f a (l, t').
Proof. intros H. unfold mbind, M_bind, on_talker. by rewrite H. Qed.
End Exchange.

(** A listener that waits, with the input of the command free or connected to the same
    talker, and no command with that number in flight. *)
Record can_listen (L : entity) (c : acmp_cmd) (infos : list listener_info) (fl : list inflight_cmd) (h : Z) : Prop := mkCanListen {
  cl_idle : exists m, ls L = listener_idle infos fl m;
  cl_me : listener_entity_id c = my_id L;
  cl_input : exists d, inputs L !! Z.to_nat (listener_unique_id c) = Some d /\ has_client L d h;
  cl_free : exists i, infos !! Z.to_nat (listener_unique_id c) = Some i /\ (connected i = false \/ same_talker c i = true);
  cl_flight : Forall (fun f => ~ same_inflight c f) fl;
  cl_saves : save_room MAX_SAVED_STATES (saves L)
}.

(** A talker that waits, whose output is the only one with the stream [sid], and that does
    not know the listener yet. *)
Record can_talk (T : entity) (c : acmp_cmd) (sid : nat) (infos : list talker_info) (i : talker_info) (h : Z) : Prop := mkCanTalk {
  ct_idle : exists m, tk T = talker_idle infos m;
  ct_me : talker_entity_id c = my_id T;
  ct_output : exists d, outputs T !! Z.to_nat (talker_unique_id c) = Some d /\ io_stream d = Some sid /\ has_client T d h;
  ct_only : forall k d, (k < Z.to_nat (talker_unique_id c))%nat -> outputs T !! k = Some d -> io_stream d <> Some sid;
  ct_info : infos !! Z.to_nat (talker_unique_id c) = Some i;
  ct_new : pair_of c ∉ connected_listeners i
}.

(** What a client can report. *)
Record good_report (g : stream_report) : Prop := mkGoodReport {
  gr_some : r_dest g <> zeros 6;
  gr_dest : length (r_dest g) = 6%nat;
  gr_src : length (r_src g) = 6%nat;
  gr_vlan : is_u16 (r_vlan g)
}.

Definition report_stream_id (g : stream_report) : list Z := r_src g ++ be_bytes 2 (r_uid g).

(** The command with the stream it is given. *)
Definition granted (c : acmp_cmd) (g : stream_report) (n : Z) : acmp_cmd :=
  set_count n (set_vlan (r_vlan g) (set_stream (report_stream_id g) (r_dest g) c)).

Lemma last_frame_snoc l o bs e : out e = l ++ [Frame bs] -> o = bs -> last_frame e = o.
Proof. intros E ->. unfold last_frame, sent_frames. rewrite E, omap_app. cbn. by rewrite last_snoc. Qed.

Lemma granted_is_acmp c g n : is_acmp c -> good_report g -> is_u16 n -> is_acmp (granted c g n).
Proof.
  intros [H1 H2 H3 H4 H5 H6 H7 H8 H9 H10 H11] [_ Hd Ha Hv] Hn.
  split; cbn [granted set_count set_vlan set_stream as_received stream_id controller_entity_id talker_entity_id listener_entity_id talker_unique_id
    listener_unique_id stream_dest_mac connection_count sequence_id flags stream_vlan_id]; try done.
  unfold report_stream_id. by rewrite length_app, length_be_bytes, Ha.
Qed.

(** The talker takes the command up, starts its client, and answers with the stream the
    client reports. *)
Lemma talker_grants answer realtime io memcpy_down T c sid g tinfos i ht (Hok : forall n, answer n = true) :
  is_acmp c -> can_talk T c sid tinfos i ht -> r_dest g <> zeros 6 ->
  exists T', acmp_run answer realtime io memcpy_down [FrameIn (acmp_frame CONNECT_TX_COMMAND c STATUS_SUCCESS); TalkerTurn; ClientReport sid g] T = Ok (tt, T') /\
    out T' = out T ++ [ChangeRequest ht true; Frame (acmp_frame CONNECT_TX_RESPONSE (granted c g (u16 (ti_count i + 1))) STATUS_SUCCESS)] /\
    talkerStreamInfos (tk T') !! Z.to_nat (talker_unique_id c) =
      Some (set_waiting None (set_ti_stream (report_stream_id g) (r_dest g) (r_vlan g) (joined c i))).
Proof.
  intros Hc [[m Et] Hmt (d & Hd & Hs & Hdc) Honly Hti Hnew] Hg. cbn [acmp_run acmp_step].
  pose proof Hdc as (k & g0 & st & Hk & Hg0 & _). assert (k = sid) as -> by congruence.
  assert (R1 := receive_connect_tx STATUS_SUCCESS c T tinfos m Hc Et).
  match type of R1 with _ = Ok (_, ?e) => set (T1 := e) in R1 end.
  destruct (turn_connect_tx answer T1 tinfos (as_received CONNECT_TX_COMMAND c) d ht i Hok eq_refl Hmt Hd Hdc Hti Hnew) as [n R2].
  match type of R2 with _ = Ok (_, ?e) => set (T2 := e) in R2 end.
  assert (Htl : (Z.to_nat (talker_unique_id c) < length tinfos)%nat) by (by eapply lookup_lt_Some).
  set (i1 := set_waiting (Some (kept (as_received CONNECT_TX_COMMAND c) i)) (joined (as_received CONNECT_TX_COMMAND c) i)) in *.
  rewrite (run_Ok _ _ _ _ _ R1), (run_Ok _ _ _ _ _ R2).
  unfold openavbAvdeccMsgSrvrHndlTalkerStreamIDFromClient. rewrite !run_assoc, run_get.
  change (cfgs T2 !! sid) with (cfgs T !! sid). rewrite Hg0. rewrite !run_assoc, run_put, !run_assoc.
  unfold openavbAcmpSMTalker_updateStreamInfo. rewrite !run_assoc, run_get.
  erewrite run_Ok; cycle 1.
  { apply (update_loop_finds sid (reported_cfg g g0) (Z.to_nat (talker_unique_id c)) d i1 (kept (as_received CONNECT_TX_COMMAND c) i));
      [by split|done|by apply list_lookup_insert_eq|exact Hd|exact Hs|exact Honly|lia|cbn; rewrite length_insert; lia]. }
  eexists. split; [done|]. split; [cbn; by rewrite <- app_assoc|].
  cbn. rewrite list_lookup_insert_eq by (by rewrite length_insert). done.
Qed.

(** A command that was sent at a time. *)
Definition in_flight (t : timespec) (mt : Z) (c : acmp_cmd) : inflight_cmd := mkInflight (deadline t mt) false (as_received mt c) (sequence_id c).

(** The listener passes the command on. *)
Lemma listener_asks answer realtime io memcpy_down L c linfos fl hl (Hok : forall n, answer n = true) :
  is_acmp c -> can_listen L c linfos fl hl ->
  acmp_run answer realtime io memcpy_down [FrameIn (acmp_frame CONNECT_RX_COMMAND c STATUS_SUCCESS); ListenerTurn] L =
  Ok (tt, set_ls (listener_idle linfos (fl ++ [in_flight (realtime (clock_asked L)) CONNECT_TX_COMMAND c]) (as_received CONNECT_RX_COMMAND c))
        (set_acmp_asked (S (asked L)) (S (clock_asked L)) (set_acmp_out (out L ++ [Frame (acmp_frame CONNECT_TX_COMMAND c STATUS_SUCCESS)]) L))).
Proof.
  intros Hc [[m El] Hme (d & Hd & Hdc) (li & Hli & Hfree) Hfl Hr]. cbn [acmp_run acmp_step].
  assert (R1 := receive_connect_rx STATUS_SUCCESS c L linfos fl m Hc El).
  match type of R1 with _ = Ok (_, ?e) => set (L1 := e) in R1 end.
  assert (R2 := turn_connect_rx answer realtime io memcpy_down L1 linfos fl (as_received CONNECT_RX_COMMAND c) d li
    eq_refl Hme Hd Hli Hfree (Hok _)).
  by rewrite (run_Ok _ _ _ _ _ R1), (run_Ok _ _ _ _ _ R2).
Qed.

(** The answer connects it. *)
Lemma listener_connects answer realtime io memcpy_down L c r st linfos fl f hl m (Hok : forall n, answer n = true)
  (Hlen : forall l, length (memcpy_down l) = length l) :
  can_listen L c linfos fl hl -> is_acmp r -> listener_entity_id r = listener_entity_id c -> listener_unique_id r = listener_unique_id c ->
  same_inflight r f -> (forall g, same_inflight r g <-> same_inflight c g) ->
  forall e, ls e = listener_idle linfos (fl ++ [f]) m -> inputs e = inputs L -> cfgs e = cfgs L -> my_id e = my_id L -> saves e = saves L ->
  exists e', acmp_run answer realtime io memcpy_down [FrameIn (acmp_frame CONNECT_TX_RESPONSE r st); ListenerTurn] e = Ok (tt, e') /\
    ls e' = listener_idle (<[Z.to_nat (listener_unique_id c) := connection_of r]> linfos) fl (as_received CONNECT_TX_RESPONSE r) /\
    out e' = out e ++ [listener_stream hl (connection_of r); ChangeRequest hl true;
      Frame (acmp_frame CONNECT_RX_RESPONSE (set_sequence_id (original_sequence_id f) (saved_response e r)) STATUS_SUCCESS)].
Proof.
  intros [_ Hme (d & Hd & k & g & stp & Hk & Hg & Hcl) (li & Hli & _) Hfl Hr] Hr' Hid Huid Hf Hsame e E Ei Ec Em Es. cbn [acmp_run acmp_step].
  assert (R1 := receive_connect_tx_response st r e linfos _ _ Hr' E).
  match type of R1 with _ = Ok (_, ?e) => set (e1 := e) in R1 end.
  assert (Hfl' : Forall (fun g => ~ same_inflight (as_received CONNECT_TX_RESPONSE r) g) fl)
    by (eapply Forall_impl; [exact Hfl|]; intros x Hx Hy; by apply Hx, Hsame).
  destruct (turn_connect_tx_response answer realtime io memcpy_down Hlen e1 linfos fl f (as_received CONNECT_TX_RESPONSE r) d hl li)
    as (e2 & R2 & H1 & H2 & _); [done|by cbn; rewrite Es|done|cbn; congruence|done|done|done|cbn; by rewrite Ei, Huid| |cbn; by rewrite Huid|].
  { exists k, g, stp. cbn. by rewrite Ec. }
  exists e2. rewrite (run_Ok _ _ _ _ _ R1), (run_Ok _ _ _ _ _ R2). split; [done|]. rewrite H1, H2. cbn [listener_unique_id as_received]. rewrite Huid.
  split; [done|]. do 4 f_equal. unfold saved_response.
  change (saves_connection e1 (as_received CONNECT_TX_RESPONSE r)) with (saves_connection e r). by destruct (saves_connection e r).
Qed.

(** C38: a controller's CONNECT_RX_COMMAND to a free listener ends in a connection: the frames
    go from the listener to the talker and back, the talker adds the listener to its
    register and starts its client, the listener's client is given the stream that the
    talker's client reported and told to run, and the controller gets back its own command
    number with the stream, the count of listeners and the status of success; nothing is
    left in flight. *)
Theorem acmp_connects (answer : nat -> bool) (realtime : nat -> timespec) (io : nat -> bool) (memcpy_down : list saved_state -> list saved_state)
  (Hok : forall n, answer n = true) (Hlen : forall l, length (memcpy_down l) = length l)
  (L T : entity) (c : acmp_cmd) (sid : nat) (g : stream_report) (linfos : list listener_info) (fl : list inflight_cmd) (hl : Z)
  (tinfos : list talker_info) (i : talker_info) (ht : Z)
  (Hc : is_acmp c) (HL : can_listen L c linfos fl hl) (HT : can_talk T c sid tinfos i ht) (Hg : good_report g) :
  let r := granted c g (u16 (ti_count i + 1)) in
  exists L' T', connect_exchange answer realtime io memcpy_down c sid g (L, T) =
      Ok (acmp_frame CONNECT_RX_RESPONSE (saved_response L r) STATUS_SUCCESS, (L', T')) /\
    listenerStreamInfos (ls L') = <[Z.to_nat (listener_unique_id c) := connection_of r]> linfos /\
    inflight (ls L') = fl /\
    listener_stream hl (connection_of r) ∈ out L' /\ ChangeRequest hl true ∈ out L' /\
    ChangeRequest ht true ∈ out T' /\
    exists i', talkerStreamInfos (tk T') !! Z.to_nat (talker_unique_id c) = Some i' /\
      connected_listeners i' = connected_listeners i ++ [pair_of c] /\ ti_stream_id i' = report_stream_id g /\
      ti_dest_mac i' = r_dest g /\ waiting_on_talker i' = None.
Proof.
  intros r. assert (Hr : is_acmp r) by (apply granted_is_acmp; [done..|apply u16_bound]). unfold connect_exchange.
  rewrite (run_on_listener _ _ L T tt _ (listener_asks answer realtime io memcpy_down L c linfos fl hl Hok Hc HL)).
  match goal with |- context [(_ ≫= _) (?e, T)] => set (L1 := e) end.
  rewrite (run_on_listener _ _ L1 T (acmp_frame CONNECT_TX_COMMAND c STATUS_SUCCESS) L1) by (unfold gets; by erewrite last_frame_snoc).
  destruct (talker_grants answer realtime io memcpy_down T c sid g tinfos i ht Hok Hc HT (gr_some g Hg)) as (T' & R1 & Ho & Hi).
  rewrite (run_on_talker _ _ L1 T tt T' R1).
  rewrite (run_on_talker _ _ L1 T' (acmp_frame CONNECT_TX_RESPONSE r STATUS_SUCCESS) T')
    by (unfold gets; erewrite (last_frame_snoc (out T ++ [ChangeRequest ht true])); [done|by rewrite Ho, <- app_assoc|done]).
  destruct (listener_connects answer realtime io memcpy_down L c r STATUS_SUCCESS linfos fl (in_flight (realtime (clock_asked L)) CONNECT_TX_COMMAND c) hl _ Hok Hlen HL Hr eq_refl eq_refl
    (conj eq_refl (conj eq_refl eq_refl)) (fun g => iff_refl _) L1 eq_refl eq_refl eq_refl eq_refl eq_refl) as (L' & R2 & HL' & HLo).
  rewrite (run_on_listener _ _ L1 T' tt L' R2). exists L', T'. split.
  { unfold on_listener, gets. erewrite (last_frame_snoc (out L1 ++ [listener_stream hl (connection_of r); ChangeRequest hl true]));
      [reflexivity|by rewrite HLo, <- app_assoc|].
    unfold saved_response. change (saves_connection L1 r) with (saves_connection L r). by destruct (saves_connection L r). }
  rewrite HL', HLo, Ho. split_and!; [done..|set_solver|set_solver|set_solver|]. eexists. by split.
Qed.

(** Two entities: a listener with one input, a talker with one output whose client has not
    reported an address yet. *)
Definition demo_io : stream_io := mkIo (Some 0%nat) FcUnknown (zeros 8) (mkTimespec 0 0) 0 (zeros 8) (zeros 6) 0.
Definition demo_cfg (handle : Z) : tl_cfg := mkCfg [97; 117; 100; 105; 111] (Some (mkClient handle false)) false (zeros 6) false (zeros 6) 0 0.
Definition demo_report : stream_report := mkReport [2; 0; 0; 0; 0; 9] 3 [145; 224; 240; 0; 14; 128] 2.
Definition demo_id (k : Z) : list Z := [0; 1; 2; 3; 4; 5; 6; k].
Definition demo_cmd : acmp_cmd := mkAcmp CONNECT_RX_COMMAND 0 (zeros 8) (demo_id 3) (demo_id 2) (demo_id 1) 0 0 (zeros 6) 0 77 0 0.
Definition demo_listener : entity :=
  set_ls (listener_idle [fresh_listener_info] [] no_cmd) (openavbAcmpStart (demo_id 1) false [demo_io] [] [demo_cfg 11] (mkStore None None 0)).
Definition demo_talker : entity :=
  set_tk (talker_idle [fresh_talker_info] no_cmd) (openavbAcmpStart (demo_id 2) false [] [demo_io] [demo_cfg 12] (mkStore None None 0)).

Lemma demo_is_acmp : is_acmp demo_cmd.
Proof. split; first [reflexivity | unfold is_u16; cbn; lia]. Qed.

Lemma demo_can_listen : can_listen demo_listener demo_cmd [fresh_listener_info] [] 11.
Proof.
  split; [by exists no_cmd|done| | |constructor|unfold save_room; cbn; lia].
  - exists demo_io. split; [done|]. by exists 0%nat, (demo_cfg 11), false.
  - exists fresh_listener_info. split; [done|by left].
Qed.

Lemma demo_can_talk : can_talk demo_talker demo_cmd 0 [fresh_talker_info] fresh_talker_info 12.
Proof.
  split; [by exists no_cmd|done| |cbn; lia|done|set_solver].
  exists demo_io. split_and!; [done..|]. by exists 0%nat, (demo_cfg 12), false.
Qed.

Lemma demo_good_report : good_report demo_report.
Proof. split; [done|done|done|unfold is_u16; cbn; lia]. Qed.

Lemma acmp_connects_witness :
  let r := granted demo_cmd demo_report 1 in
  exists L' T', connect_exchange (fun _ => true) (fun _ => mkTimespec 0 0) (fun _ => true) (fun l => l) demo_cmd 0 demo_report (demo_listener, demo_talker) =
      Ok (acmp_frame CONNECT_RX_RESPONSE (saved_response demo_listener r) STATUS_SUCCESS, (L', T')) /\
    listenerStreamInfos (ls L') = [connection_of r] /\
    inflight (ls L') = [] /\
    listener_stream 11 (connection_of r) ∈ out L' /\ ChangeRequest 11 true ∈ out L' /\
    ChangeRequest 12 true ∈ out T' /\
    exists i', talkerStreamInfos (tk T') !! 0%nat = Some i' /\
      connected_listeners i' = [pair_of demo_cmd] /\ ti_stream_id i' = [2; 0; 0; 0; 0; 9; 0; 3] /\
      ti_dest_mac i' = [145; 224; 240; 0; 14; 128] /\ waiting_on_talker i' = None.
Proof.
  exact (acmp_connects (fun _ => true) (fun _ => mkTimespec 0 0) (fun _ => true) (fun l => l) (fun _ => eq_refl) (fun _ => eq_refl)
    demo_listener demo_talker demo_cmd 0 demo_report [fresh_listener_info] [] 11 [fresh_talker_info] fresh_talker_info 12
    demo_is_acmp demo_can_listen demo_can_talk demo_good_report).
Defined.

(** ** No answer *)

Section Silence.
Context (answer : nat -> bool) (realtime : nat -> timespec).
Context (io : nat -> bool) (memcpy_down : list saved_state -> list saved_state).

(** The wait of the thread ends by its timeout so many times. *)
Definition timeouts (n : nat) : M entity unit := acmp_run answer realtime io memcpy_down (replicate n ListenerTimeout).

Lemma timeouts_early n : forall e infos fl ins k o, runs e infos fl ins k o ->
  (forall j, (j < n)%nat -> Forall (fun g => ~ timed_out (realtime (k + j)%nat) g) fl) ->
  exists e', timeouts n e = Ok (tt, e') /\ runs e' infos fl ins (k + n)%nat o.
Proof.
  induction n as [|n IH]; intros e infos fl ins k o He Hj.
  - exists e. by rewrite Nat.add_0_r.
  - destruct (early_runs answer realtime e infos fl ins k o He) as (e1 & E1 & H1).
    { rewrite <- (Nat.add_0_r k). apply Hj. lia. }
    destruct (IH e1 infos fl ins (S k) o H1) as (e2 & E2 & H2).
    { intros j Hlt. replace (S k + j)%nat with (k + S j)%nat by lia. apply Hj. lia. }
    exists e2. split; [|by replace (k + S n)%nat with (S k + n)%nat by lia].
    unfold timeouts. cbn [replicate acmp_run acmp_step]. by rewrite (run_Ok _ _ _ _ _ E1).
Qed.

Lemma timeouts_one e e' : openavbAcmpSMListener_timeout answer realtime e = Ok (tt, e') -> timeouts 1 e = Ok (tt, e').
Proof. intros E. unfold timeouts. cbn [replicate acmp_run acmp_step]. by rewrite (run_Ok _ _ _ _ _ E). Qed.
End Silence.

(** C39: a command that is not answered is sent once more and then given up, each time at its
    deadline and not before: 2 s after a CONNECT_TX_COMMAND was sent, 200 ms after a
    DISCONNECT_TX_COMMAND.  From the moment at which the listener sends such a command (and
    finds the memory to note it), whenever and however often its wait times out: while
    the deadline is ahead, nothing happens; the first timeout at or after it sends the
    same frame again and starts a second wait of the same length; the first timeout at or
    after the second deadline tells the controller, under its own command number, that
    the talker timed out, or, when the command is a fast connect, tells nobody and notes
    the timeout in the descriptor of the input.  The connections are as before, and
    nothing is left in flight; other commands in flight are supposed not to be due. *)
Theorem acmp_unanswered_command_times_out (answer : nat -> bool) (realtime : nat -> timespec) (io : nat -> bool)
  (memcpy_down : list saved_state -> list saved_state) (Hclock : forall n, good_time (realtime n))
  (L : entity) (mt : Z) (c : acmp_cmd) (infos : list listener_info) (fl : list inflight_cmd) (ins : list stream_io) (o : list acmp_out)
  (k n1 n2 : nat) (Hmt : tx_command mt) (HL : runs L infos fl ins k o) (Hmem : answer (asked L) = true)
  (Hnew : Forall (fun g => ~ same_inflight c g) fl)
  (Hothers : forall j, (j <= 3 + n1 + n2)%nat -> Forall (fun g => ~ timed_out (realtime (k + j)%nat) g) fl)
  (H1 : forall j, (j < n1)%nat -> nsec_of (realtime (k + 1 + j)%nat) < nsec_of (realtime k) + patience_ns mt)
  (H2 : nsec_of (realtime k) + patience_ns mt <= nsec_of (realtime (k + 1 + n1)%nat))
  (H3 : forall j, (j < n2)%nat -> nsec_of (realtime (k + 3 + n1 + j)%nat) < nsec_of (realtime (k + 2 + n1)%nat) + patience_ns mt)
  (H4 : nsec_of (realtime (k + 2 + n1)%nat) + patience_ns mt <= nsec_of (realtime (k + 3 + n1 + n2)%nat)) :
  exists L1 L2 L3 L4 L5,
    openavbAcmpSMListener_txCommand answer realtime mt c false L = Ok (tt, L1) /\ out L1 = o ++ [Frame (acmp_frame mt c STATUS_SUCCESS)] /\
    timeouts answer realtime io memcpy_down n1 L1 = Ok (tt, L2) /\ out L2 = out L1 /\
    timeouts answer realtime io memcpy_down 1 L2 = Ok (tt, L3) /\ out L3 = out L2 ++ [Frame (acmp_frame mt c STATUS_SUCCESS)] /\
    timeouts answer realtime io memcpy_down n2 L3 = Ok (tt, L4) /\ out L4 = out L3 /\
    timeouts answer realtime io memcpy_down 1 L4 = Ok (tt, L5) /\
      out L5 = out L4 ++ gives_up mt (set_message_type mt c) (sequence_id c) /\
      listenerStreamInfos (ls L5) = infos /\ inflight (ls L5) = fl /\ inputs L5 = after_attempt mt c ins.
Proof.
  destruct (sent_runs answer realtime mt c L infos fl ins k o Hmem HL) as (L1 & E1 & R1).
  set (c' := set_message_type mt c) in *. assert (Hc' : message_type c' = mt) by done.
  destruct (timeouts_early answer realtime io memcpy_down n1 L1 _ _ _ _ _ R1) as (L2 & E2 & R2).
  { intros j Hj. apply Forall_app. split; [replace (S k + j)%nat with (k + S j)%nat by lia; apply Hothers; lia|].
    constructor; [|constructor]. rewrite due_ns by done. specialize (H1 j Hj). replace (S k + j)%nat with (k + 1 + j)%nat by lia. lia. }
  destruct (retry_runs answer realtime L2 _ _ _ _ _ _ mt c' _ Hmt Hc' R2) as (L3 & E3 & R3); [| |done|].
  { replace (S k + n1)%nat with (k + S n1)%nat by lia. apply Hothers. lia. }
  { rewrite due_ns by done. by replace (S k + n1)%nat with (k + 1 + n1)%nat by lia. }
  replace (S (S k + n1)) with (k + 2 + n1)%nat in R3 by lia.
  destruct (timeouts_early answer realtime io memcpy_down n2 L3 _ _ _ _ _ R3) as (L4 & E4 & R4).
  { intros j Hj. apply Forall_app. split; [replace (S (k + 2 + n1) + j)%nat with (k + (3 + n1 + j))%nat by lia; apply Hothers; lia|].
    constructor; [|constructor]. rewrite due_ns by done. specialize (H3 j Hj). replace (S (k + 2 + n1) + j)%nat with (k + 3 + n1 + j)%nat by lia. lia. }
  destruct (gives_up_runs answer realtime L4 _ _ _ _ _ _ mt c' _ Hmt Hc' R4) as (L5 & E5 & R5); [| |done|].
  { replace (S (k + 2 + n1) + n2)%nat with (k + (3 + n1 + n2))%nat by lia. apply Hothers. lia. }
  { rewrite due_ns by done. by replace (S (k + 2 + n1) + n2)%nat with (k + 3 + n1 + n2)%nat by lia. }
  pose proof (ru_out _ _ _ _ _ _ R1) as O1. pose proof (ru_out _ _ _ _ _ _ R2) as O2. pose proof (ru_out _ _ _ _ _ _ R3) as O3.
  pose proof (ru_out _ _ _ _ _ _ R4) as O4. pose proof (ru_out _ _ _ _ _ _ R5) as O5.
  exists L1, L2, L3, L4, L5. split_and!.
  - exact E1.
  - exact O1.
  - exact E2.
  - by rewrite O2, O1.
  - by apply timeouts_one.
  - rewrite O3, O2. reflexivity.
  - exact E4.
  - by rewrite O4, O3.
  - by apply timeouts_one.
  - by rewrite O5, O4.
  - apply R5.
  - apply R5.
  - apply R5.
Qed.

(** A clock that moves by a tenth of a second. *)
Definition tenths (n : nat) : timespec := mkTimespec (Z.of_nat n / 10) (Z.of_nat n mod 10 * 100000000).

Lemma tenths_good n : good_time (tenths n).
Proof. unfold good_time, tenths, NANOSECONDS_PER_SECOND. cbn. pose proof (Z.mod_pos_bound (Z.of_nat n) 10 ltac:(lia)). lia. Qed.

Lemma demo_listener_runs : runs demo_listener [fresh_listener_info] [] [demo_io] 0 [].
Proof. by constructor. Qed.

Lemma acmp_unanswered_command_times_out_witness :
  exists L1 L2 L3 L4 L5,
    openavbAcmpSMListener_txCommand (fun _ => true) tenths DISCONNECT_TX_COMMAND demo_cmd false demo_listener = Ok (tt, L1) /\
      out L1 = [] ++ [Frame (acmp_frame DISCONNECT_TX_COMMAND demo_cmd STATUS_SUCCESS)] /\
    timeouts (fun _ => true) tenths (fun _ => true) (fun l => l) 1 L1 = Ok (tt, L2) /\ out L2 = out L1 /\
    timeouts (fun _ => true) tenths (fun _ => true) (fun l => l) 1 L2 = Ok (tt, L3) /\
      out L3 = out L2 ++ [Frame (acmp_frame DISCONNECT_TX_COMMAND demo_cmd STATUS_SUCCESS)] /\
    timeouts (fun _ => true) tenths (fun _ => true) (fun l => l) 1 L3 = Ok (tt, L4) /\ out L4 = out L3 /\
    timeouts (fun _ => true) tenths (fun _ => true) (fun l => l) 1 L4 = Ok (tt, L5) /\
      out L5 = out L4 ++ gives_up DISCONNECT_TX_COMMAND (set_message_type DISCONNECT_TX_COMMAND demo_cmd) (sequence_id demo_cmd) /\
      listenerStreamInfos (ls L5) = [fresh_listener_info] /\ inflight (ls L5) = [] /\ inputs L5 = after_attempt DISCONNECT_TX_COMMAND demo_cmd [demo_io].
Proof.
  apply (acmp_unanswered_command_times_out (fun _ => true) tenths (fun _ => true) (fun l => l) tenths_good
    demo_listener DISCONNECT_TX_COMMAND demo_cmd [fresh_listener_info] [] [demo_io] [] 0 1 1 (or_intror eq_refl) demo_listener_runs eq_refl).
  - constructor.
  - intros j _. constructor.
  - intros j Hj. assert (j = 0%nat) as -> by lia. reflexivity.
  - vm_compute. discriminate.
  - intros j Hj. assert (j = 0%nat) as -> by lia. reflexivity.
  - vm_compute. discriminate.
Defined.

(** ** Whatever arrives *)

(** C40: whatever frames arrive, in whatever order the threads run, time out and are told
    to stop, and whatever clients, memory, clock and files answer: a talker's register
    holds each listener once and counts them modulo 2^16, commands in flight are ones whose
    timeout is handled and keep their number. A run that stops does so at an event and in a
    state of [acmp_fault]: a frame of less than 70 bytes that ends before a field, a report
    without an address for a stream that is waited for, or a turn of the listener with a
    DISCONNECT_TX_RESPONSE for an input that it has not. *)
Theorem acmp_register_consistent (answer : nat -> bool) (realtime : nat -> timespec) (io : nat -> bool)
  (memcpy_down : list saved_state -> list saved_state) (Hlen : forall l, length (memcpy_down l) = length l)
  (id : list Z) (fast : bool) (ins outs : list stream_io) (streams : list tl_cfg) (store : save_store)
  (Hi : Forall (stream_ptr_ok (length streams)) ins) (Ho : Forall (stream_ptr_ok (length streams)) outs)
  (Hs : save_room MAX_SAVED_STATES store) (evs : list acmp_event) :
  match acmp_run answer realtime io memcpy_down evs (openavbAcmpStart id fast ins outs streams store) with
  | Ok (_, e) => Forall register_ok (talkerStreamInfos (tk e)) /\ Forall inflight_ok (inflight (ls e))
  | Fault f => exists before ev after e, evs = before ++ ev :: after /\
      acmp_run answer realtime io memcpy_down before (openavbAcmpStart id fast ins outs streams store) = Ok (tt, e) /\ acmp_fault e ev f
  end.
Proof.
  assert (H := keeps_run answer realtime io memcpy_down Hlen (length streams) evs _ (start_inv id fast ins outs streams store Hi Ho Hs)).
  destruct (acmp_run _ _ _ _ _ _) as [[u e]|f]; [|done]. split; apply H.
Qed.

(** Frames for a talker, the last of which is cut. *)
Definition cut_traffic : list acmp_event :=
  [TalkerTurn; FrameIn (acmp_frame CONNECT_TX_COMMAND demo_cmd 0); FrameIn (acmp_frame DISCONNECT_TX_COMMAND demo_cmd 0); TalkerTurn; TalkerTurn;
   FrameIn (take 30 (acmp_frame CONNECT_TX_COMMAND demo_cmd 0))].

Lemma acmp_register_consistent_witness :
  let start := openavbAcmpStart (demo_id 2) true [] [demo_io] [demo_cfg 12] (mkStore None None 0) in
  match acmp_run (fun n => Nat.even n) (fun n => mkTimespec (Z.of_nat n) 0) (fun _ => true) (fun l => l) cut_traffic start with
  | Ok (_, e) => Forall register_ok (talkerStreamInfos (tk e)) /\ Forall inflight_ok (inflight (ls e))
  | Fault f => exists before ev after e, cut_traffic = before ++ ev :: after /\
      acmp_run (fun n => Nat.even n) (fun n => mkTimespec (Z.of_nat n) 0) (fun _ => true) (fun l => l) before start = Ok (tt, e) /\ acmp_fault e ev f
  end.
Proof.
  apply (acmp_register_consistent (fun n => Nat.even n) (fun n => mkTimespec (Z.of_nat n) 0) (fun _ => true) (fun l => l)).
  - done.
  - constructor.
  - constructor; [|constructor]. unfold stream_ptr_ok. cbn. lia.
  - unfold save_room. cbn. lia.
Defined.

(** ** What goes wrong *)

(** A refusal makes the connection: the status of a response does not get through. *)
Lemma refused_command_connects (answer : nat -> bool) (realtime : nat -> timespec) (io : nat -> bool) (memcpy_down : list saved_state -> list saved_state)
  (Hok : forall n, answer n = true) (Hlen : forall l, length (memcpy_down l) = length l) L c st linfos fl hl :
  is_acmp c -> can_listen L c linfos fl hl ->
  exists L', acmp_run answer realtime io memcpy_down
      [FrameIn (acmp_frame CONNECT_RX_COMMAND c STATUS_SUCCESS); ListenerTurn; FrameIn (acmp_frame CONNECT_TX_RESPONSE c st); ListenerTurn] L = Ok (tt, L') /\
    listenerStreamInfos (ls L') = <[Z.to_nat (listener_unique_id c) := connection_of c]> linfos /\
    last_frame L' = acmp_frame CONNECT_RX_RESPONSE (saved_response L c) STATUS_SUCCESS.
Proof.
  intros Hc HL. assert (R1 := listener_asks answer realtime io memcpy_down L c linfos fl hl Hok Hc HL).
  match type of R1 with _ = Ok (_, ?e) => set (L1 := e) in R1 end.
  change [?a; ?b; ?x; ?y] with ([a; b] ++ [x; y]). rewrite (acmp_run_app _ _ _ _ _ _ _ _ R1).
  destruct (listener_connects answer realtime io memcpy_down L c c st linfos fl (in_flight (realtime (clock_asked L)) CONNECT_TX_COMMAND c) hl _
    Hok Hlen HL Hc eq_refl eq_refl (conj eq_refl (conj eq_refl eq_refl)) (fun g => iff_refl _) L1 eq_refl eq_refl eq_refl eq_refl eq_refl) as (L' & R2 & HL' & HLo).
  exists L'. split; [done|]. split; [by rewrite HL'|].
  erewrite (last_frame_snoc (out L1 ++ [listener_stream hl (connection_of c); ChangeRequest hl true])); [done|by rewrite HLo, <- app_assoc|].
  unfold saved_response. change (saves_connection L1 c) with (saves_connection L c). by destruct (saves_connection L c).
Qed.

(** A client that reports its stream before it has an address holds the talker for ever. *)
Lemma early_report_spins sid g k d i response e : dest_addr g = zeros 6 ->
  talkerStreamInfos (tk e) !! k = Some i -> waiting_on_talker i = Some response -> outputs e !! k = Some d -> io_stream d = Some sid ->
  forall fuel, update_loop fuel sid g k e = Fault FuelExhausted.
Proof.
  intros Hv Hi Hw Hd Hs fuel. induction fuel as [|fuel IH]; [done|]. cbn [update_loop]. rewrite run_get, Hi, Hw, Hd, Hs.
  rewrite !bool_decide_true by done. rewrite orb_true_r. exact IH.
Qed.

(** A DISCONNECT_TX_RESPONSE for an unknown input of this entity holds the listener. *)
Lemma unknown_disconnect_response_spins c e : inputs e !! Z.to_nat (listener_unique_id c) = None ->
  forall fuel, stay_in fuel (l_disconnect_tx_response c) e = Fault FuelExhausted.
Proof.
  intros Hn. assert (H : l_disconnect_tx_response c e = Ok (false, e)).
  { unfold l_disconnect_tx_response, openavbAcmpSMListener_validListenerUnique. rewrite run_assoc, run_get_input, Hn. done. }
  intros fuel. induction fuel as [|fuel IH]; [done|]. cbn [stay_in]. rewrite (run_Ok _ _ _ _ _ H). exact IH.
Qed.

(** A CONNECT_TX_COMMAND for another talker leaves its flag: the DISCONNECT_TX_COMMAND that
    comes next connects. *)
Lemma stale_flag_connects :
  exists e, acmp_run (fun _ => true) (fun _ => mkTimespec 0 0) (fun _ => true) (fun l => l)
      [FrameIn (acmp_frame CONNECT_TX_COMMAND (set_talker (demo_id 8) 0 demo_cmd) 0); TalkerTurn;
       FrameIn (acmp_frame DISCONNECT_TX_COMMAND demo_cmd 0); TalkerTurn] demo_talker = Ok (tt, e) /\
    sent_frames e = [] /\ connected_listeners <$> talkerStreamInfos (tk e) = [[pair_of demo_cmd]].
Proof. eexists. split; [vm_compute; reflexivity|]. split; vm_compute; reflexivity. Qed.

(** Two messages before the thread runs: the first is lost, the second is taken for both. *)
Lemma second_message_overwrites :
  exists e, acmp_run (fun _ => true) (fun _ => mkTimespec 0 0) (fun _ => true) (fun l => l)
      [FrameIn (acmp_frame CONNECT_TX_COMMAND demo_cmd 0); FrameIn (acmp_frame CONNECT_TX_COMMAND (set_listener (demo_id 9) 0 demo_cmd) 0); TalkerTurn; TalkerTurn]
      demo_talker = Ok (tt, e) /\
    connected_listeners <$> talkerStreamInfos (tk e) = [[mkPair (demo_id 9) 0]].
Proof. eexists. split; [vm_compute; reflexivity|]. vm_compute. reflexivity. Qed.

(** A talker whose client could not be started has the listener in its register all the
    same: the second attempt is not answered at all. *)
Lemma failed_start_stays_registered :
  exists e, acmp_run (fun n => Nat.eqb n 0) (fun _ => mkTimespec 0 0) (fun _ => true) (fun l => l)
      [FrameIn (acmp_frame CONNECT_TX_COMMAND demo_cmd 0); TalkerTurn; FrameIn (acmp_frame CONNECT_TX_COMMAND demo_cmd 0); TalkerTurn] demo_talker = Ok (tt, e) /\
    sent_frames e = [acmp_frame CONNECT_TX_RESPONSE demo_cmd STATUS_TALKER_MISBEHAVING] /\
    connected_listeners <$> talkerStreamInfos (tk e) = [[pair_of demo_cmd]].
Proof. eexists. split; [vm_compute; reflexivity|]. split; vm_compute; reflexivity. Qed.

(** A DISCONNECT_RX_COMMAND that names another talker ends the connection. *)
Lemma foreign_disconnect_disconnects :
  exists e, acmp_run (fun _ => true) (fun _ => mkTimespec 0 0) (fun _ => true) (fun l => l)
      [FrameIn (acmp_frame CONNECT_TX_RESPONSE demo_cmd 0); ListenerTurn;
       FrameIn (acmp_frame DISCONNECT_RX_COMMAND (set_talker (demo_id 8) 5 demo_cmd) 0); ListenerTurn] demo_listener = Ok (tt, e) /\
    connected <$> listenerStreamInfos (ls e) = [false].
Proof. eexists. split; [vm_compute; reflexivity|]. vm_compute. reflexivity. Qed.
